(* ===== verification/_CoqProject ===== *)
-Q . S2P
Prelude.v
Utf8.v
Text.v
FileTools.v
ApplyPatch.v
ApplyPatchTheorems.v
ApplyPatchParse.v
ApplyPatchExecute.v
UnifiedPatch.v
EditTools.v
SwarmPlan.v
SwarmPlanTheorems.v
SwarmCore.v
SwarmChannels.v
F32.v
Ranking.v
MemoryEntry.v
MemoryPrompt.v
MemoryGraph.v
MemoryGraphInvariants.v
MemoryGraphCounts.v
MemoryGraphRetrieval.v
Messages.v
MemoryActivity.v
Compaction.v
CompactionTheorems.v
CompactionState.v
CompactionManager.v
CompactionManagerTheorems.v
OpenAiRequest.v
OpenAiRequestTheorems.v
OpenAiSchema.v
OpenAiSchemaTheorems.v
ProviderModels.v
ProviderPricing.v
WorkspaceMap.v
MobileSimulator.v
MobileSimulatorTheorems.v
MobileUi.v
DesktopWorkspace.v
DesktopWorkspaceTheorems.v
TextCursor.v
Composer.v
SessionPickers.v
SingleSessionState.v
SingleSessionLines.v
SingleSession.v
SingleSessionText.v
SingleSessionTheorems.v
SessionTypes.v
SessionProfile.v
SessionState.v
SessionOps.v
CacheTracker.v
SessionOpsTheorems.v
Storage.v
StorageTheorems.v
MemoryManager.v
MemoryManagerTheorems.v
SessionStore.v
SessionText.v
SessionStoreTheorems.v
SessionRender.v
SessionSearch.v
SessionCrash.v
SwarmServerTypes.v
SwarmPersistence.v
SwarmServer.v
SwarmPersistenceTheorems.v
SwarmServerTheorems.v
SwarmMutations.v
SwarmServerExamples.v
SwarmTasks.v
SwarmSessions.v
SwarmComm.v
SwarmRequests.v
Safety.v
Ambient.v
AmbientRunner.v
AmbientExamples.v
