(* ===== verification/Prelude.v ===== *)
(** * Verification of the gcode harness: root file and shared prelude

    gcode is a Rust harness for coding agents: a server that runs agents
    against model providers, terminal, desktop and mobile front ends, a memory
    of facts shared between sessions, and swarms of agents that work on one
    plan. Most of the code is asynchronous input and output around a core of
    pure or state-passing crates; this development models that core as
    executable definitions and proves what it promises. Source paths below are
    relative to src/.

    ** The parts and their interaction

    - The plan of a swarm ([crates/gcode-plan/src/lib.rs]). A plan is a list
      of items with priorities, statuses and dependencies. The server asks it
      for the cycles, the summary, the next runnable items, the target of a
      control action and the next task to assign. [SwarmPlan.v] has the data
      and every one of these functions; the hash tables they iterate are
      abstracted by the class [HashOrder] below.
    - Swarm membership ([crates/gcode-swarm-core/src/lib.rs]) and channels
      ([src/server/swarm_channels.rs]). [SwarmCore.v] has the roles, statuses,
      completion reports and the two-sided index of channel subscriptions,
      with the server's functions over it.
    - The memory ([crates/gcode-memory-types/src/lib.rs] and [graph.rs]).
      [MemoryEntry.v] has the entries and the legacy store, [MemoryGraph.v]
      the graph of memories, tags and clusters with its reverse index and the
      cascade retrieval, [Ranking.v] the selection of the best scores,
      [MemoryPrompt.v] the use of entries, their scores and their text in a
      prompt, [F32.v] the floats of the program, of 32 and of 64 bits. The
      memory at work ([src/memory.rs], [src/memory/], [src/memory_prompt.rs]):
      [MemoryActivity.v] has what is shown of it, the payloads that wait for
      the next turn of a session and the part of a conversation it looks at;
      [MemoryManager.v] the two stores on disk ([Storage.v]) with the cache of
      their graphs, remembering and searching, and the check that judges
      memories for a turn and leaves a payload.
    - Conversations ([crates/gcode-message-types/src/lib.rs]) and their
      compaction ([crates/gcode-compaction-core/src/lib.rs],
      [src/compaction.rs]): [Messages.v] has the messages, [Compaction.v] the
      pure functions, [CompactionState.v] and [CompactionManager.v] the
      manager that the agent runs over the messages
      it owns.
    - Sessions ([src/session.rs] and [src/session/], [crates/gcode-storage],
      [crates/gcode-session-types], [src/cache_tracker.rs]): [SessionTypes.v],
      [SessionProfile.v], [SessionState.v] and [SessionOps.v] are the session
      with its caches; [Storage.v] and [SessionStore.v] keep it in a snapshot
      and a journal, over files whose calls may fail; [SessionText.v] has a
      concrete format of these files; [SessionRender.v], [SessionSearch.v] and
      [SessionCrash.v] render, search and recover what is stored;
      [CacheTracker.v] watches the prefix sent to a provider.
    - Requests to providers: [OpenAiRequest.v] builds the input of an OpenAI
      request from messages, [OpenAiSchema.v] JSON values and the
      schemas of the tools; [ProviderModels.v] and [ProviderPricing.v] are the core that providers
      share ([crates/gcode-provider-core]).
    - The tools that write files ([src/tool/]): [ApplyPatch.v],
      [UnifiedPatch.v] and [EditTools.v], on the file system and the bus of
      [FileTools.v].
    - The session workspace of the terminal interface
      ([crates/gcode-tui-workspace/src/workspace_map.rs]): [WorkspaceMap.v].
    - The mobile app simulator ([crates/gcode-mobile-core/src/lib.rs] and
      [visual.rs]): [MobileSimulator.v] has the reducer, the simulated backend,
      the store and the traces; [MobileUi.v] the semantic tree, its layout and
      hit testing, on the simulator's state.
    - The desktop ([crates/gcode-desktop/src/workspace.rs] and
      [single_session.rs]): [DesktopWorkspace.v] is the workspace of surfaces;
      [TextCursor.v], [Composer.v], [SessionPickers.v], [SingleSessionState.v],
      [SingleSessionLines.v] and [SingleSession.v] one session: its draft, its
      pickers, the lines it shows, its keys and its events.
    - The server of the swarms ([src/server/], [src/server.rs]):
      [SwarmServerTypes.v] has its shared state and the monad of its handlers,
      [SwarmPersistence.v] the files of the swarms and their recovery,
      [SwarmServer.v] members, delivery, interrupts, the progress of tasks and
      the broadcasts, [SwarmMutations.v] the requests that are answered from a
      stored answer, [SwarmServerExamples.v] a concrete format of these files. It uses
      the plans, the swarm core and the channels above. A handler is a function
      of the server's state that runs to its end; where the code interleaves
      requests on purpose, their locked sections are the steps of a relation.
    - The requests of agents ([src/server/comm_*.rs], [client_comm_*.rs],
      [headless.rs], [client_disconnect_cleanup.rs], [await_members_state.rs]):
      [SwarmTasks.v] has assignments, control of tasks, roles and plans,
      [SwarmSessions.v] spawning and stopping agents and what a client leaves
      behind, [SwarmComm.v] messages, the shared context, channels and waiting
      for members, [SwarmRequests.v] the dispatch of a client's request. What
      creating an agent finds and makes is an argument ([Surroundings]).
    - Ambient mode ([src/ambient/], [src/tool/ambient.rs], [src/safety.rs]):
      [Ambient.v] has what is stored between the cycles (state, queue,
      directives, lock, usage) and the scheduler; [AmbientRunner.v] the prompt,
      the tools that end and schedule cycles, the handle that the server holds
      and a turn of the background loop, which delivers reminders to the sessions
      above and runs the agent; [Safety.v] the permissions the agent asks for.
      They use the files of [Storage.v] and the sessions of [SessionStore.v]. The
      run of an agent, which may use the handle meanwhile, is an argument.
      [AmbientExamples.v] has a concrete format of the files.
    This file, [Utf8.v] (Rust strings as UTF-8 bytes) and [Text.v] (lines and
    patterns) are shared by all. A file [XTheorems.v] has
    the properties of [X.v] (a small component has them in [X.v] itself),
    [XExamples.v] concrete runs: witnesses of
    hypotheses, and inputs where the code does not do what it means to.

    ** Conventions

    Definitions keep the names of the code, prefixed where a method name is
    used by several types ([row_focus] is [WorkspaceRow::focus]); fields carry
    a short prefix of their record. A method that mutates returns the new
    value, paired with its result. [Result] is a sum with [inl] for [Ok]; a
    panic is a [None]. A fixed-width integer is a [Z] with its wrap-around
    written out ([wrap_u], [wrap_s]); [usize] is [nat]. A [HashMap] is a
    [gmap], and code that iterates one receives the order through
    [HashOrder]; a [BTreeMap] is visited by increasing key. Times are [Z]
    arguments of the operations. A call of the file system that may fail takes
    its outcome from its environment.

    Code that is not part of the program is a parameter: the order of hash
    tables ([HashOrder]), lower case and alphanumeric tests of Unicode
    ([UnicodeLower], [Alphanumeric]), JSON values, their fields and their
    printing ([Json], [JsonObject], [JsonFields], [PromptJson],
    [to_string_pretty]), the JSON text of a session ([SessionJson],
    [SessionCodec]), of the server's files ([ServerCodec]) and of ambient mode
    and its permissions ([AmbientCodec], [SafetyCodec]), the hash of a request
    ([RequestHash]), powers, exponentials and logarithms of floats
    ([PowI], [FloatFunctions]), the files of memories ([MemoryCodec]), the order
    of equal scores in a heap ([ScoreOrder]), the file system, with the paths
    that name one file ([FileSystem]), the differ of lines ([LineDiff]), models and
    their summaries ([Provider], [Embedder]), hashes ([CacheOrder]), the parser of Markdown ([Markdown]),
    printed dates ([Rfc3339]), the name in a greeting ([WelcomeName]), the
    context text of a new session ([SessionContextText]) and the version of
    the package. Each class has an instance or a witness that shows its laws
    can hold.

    ** What the theorems show

    - [SwarmPlanTheorems]: Kahn's
      algorithm finds exactly the items from which a dependency cycle can be
      reached; the summary means what its headings say and partitions the
      items; the next items are the ready ones by rank; a plan without cycles
      makes progress; completions only unblock; control actions and assignments
      pick the first candidate by rank; nothing depends on hash order.
    - [SwarmChannels], [SwarmCore]: the index of channels refines a set of
      subscriptions and is canonical; round trips and bounds of the texts.
    - [SwarmPersistenceTheorems], [SwarmServerTheorems],
      [SwarmMutations]: stored swarms load back with what ran marked,
      unless an outdated backup is read after the current file;
      a sweep marks exactly the stale tasks, and stores and announces the
      changed plans;
      a coordinator that leaves is replaced by the least member with a window,
      who is told;
      a finished member is reported once to the session that should hear of it;
      in every interleaving a request is answered at most once and a key has
      one worker.
    - [SwarmTasks], [SwarmRequests]: an automatic assignment goes to the best
      agent of the swarm; a request is answered exactly once while it is handled,
      unless it joins the line of the same change of another request. [SwarmRequests] has
      their witnesses and runs that show faults of the handlers.
    - [Safety], [Ambient], [AmbientRunner]: a permission that was asked for is
      pending, decided or expired, and decisions survive a restart; due reminders
      are taken once and are on disk until the new queue is, if only in a
      backup; the time between cycles
      is bounded and doubles with each rate limit; a cycle leaves a stored state
      that lets the next one run. [AmbientExamples] has their witnesses and runs
      that show faults of the loop.
    - [Ranking], [MemoryGraphInvariants], [MemoryGraphCounts],
      [MemoryGraphRetrieval]: the bounded heap selects the top scores; the
      reverse index and the tag counts stay sound, and exact under the
      discipline of the memory tools; removal leaves no trace; the cascade
      terminates and returns memories within the permitted depth; migration
      equals adding the entries one by one.
    - [MemoryPrompt], [MemoryActivity], [MemoryManagerTheorems]: the text of a
      prompt holds the selected memories once each; payloads of a session come
      apart until its tracking is cleared; a context is the end of its
      conversation; a search keeps the best
      scores; remembering repeats nothing and what is saved is loaded; a check
      ends and lets the next one begin, whatever fails. [MemoryManagerTheorems]
      also has runs on small stores.
    - [Messages], [CompactionTheorems], [CompactionManagerTheorems]:
      dynamic context is inserted at the latest user turn and changes nothing
      else; cuts respect characters; a cut-off never separates a tool result
      from its call; emergency truncation and prompts keep their bounds; the
      manager's books fit the conversation through every sequence of its calls,
      and its counts are exact as long as each message is reported once.
    - [SessionOpsTheorems], [CacheTracker]: the cached messages for the
      provider are the ones a rebuild would give, the counts of the profile are
      those of the stored messages, a rewind keeps a prefix; the tracker
      reports a violation exactly when the prefix changed.
    - [StorageTheorems], [SessionStoreTheorems], [SessionSearch],
      [SessionRender], [SessionCrash]: saved sessions load as they were, and
      stripped ones with what was stored of them, until they are stored whole; a
      save that fails leaves the old snapshot, the new one, or the backup, and one
      that succeeds is loaded if the files before it were in order; the remote
      start agrees with the local one; snippets stay inside their text; a
      recovered session has the conversation of the crashed one.
    - [OpenAiRequestTheorems], [OpenAiSchemaTheorems], [ProviderModels],
      [ProviderPricing]: every call is answered once and
      directly behind it; a strict schema is closed and requires every property;
      the order of fallbacks, status codes that stand alone, and prices.
    - [ApplyPatchTheorems], [ApplyPatchParse], [ApplyPatchExecute],
      [UnifiedPatch], [EditTools]: a patch written out is parsed
      back, an update rewrites what it names and keeps the rest, a unified diff
      that says where it inserts is applied, other files stay, and edits refuse what is ambiguous.
    - [WorkspaceMap]: insertion, focus and the visible window.
    - [MobileSimulatorTheorems], [MobileUi]: a dispatch terminates and
      logs a run of the reducer; traces replay; the state invariant; pairing
      and sending; the layout does not overlap and every offered action can be
      performed where its node is.
    - [DesktopWorkspaceTheorems]: the invariant of the workspace under all
      events; drafts are sent once and never lost; refreshes keep the focus;
      sideways moves reach the nearest column.
    - [SingleSessionTheorems], [SingleSessionText]: keys and events keep the
      session well formed and never panic; the draft is an editor of text with
      a cursor; queued prompts are sent once and in order; a selection copies
      the text it shows.

    ** Fuel

    Recursion that is not structural has a fuel, proved sufficient: the loop
    of Kahn's algorithm gets one round more than there are items, since each
    round settles a new one ([SwarmPlanTheorems]); the cascade gets the number of seeds
    plus the fan-out of all nodes, since a node is expanded at most once
    ([MemoryGraphRetrieval]); a dispatch of the simulator gets three rounds,
    since an action asks for at most one effect, answered by at most two
    actions that ask for none ([MobileSimulatorTheorems]); the parser of
    [apply_patch] gets two rounds more than there are lines and that of
    unified diffs one per line, since each consumes a line ([ApplyPatchParse],
    [UnifiedPatch]); the hard cut-off gets one round more than there
    are turns ([CompactionManager]); cursor movements get the distance to the
    end of the text they move to ([TextCursor]); a search gets the number of
    places where the pattern fits ([Text], [SessionSearch]); the candidates of a
    check are judged in batches, at most one more than there are candidates
    ([MemoryManagerTheorems]).

    ** What is not modelled

    Sockets, the agent loop and its streams, the HTTP clients of the providers,
    authentication, the command line, the tools that run processes, rendering
    with ratatui or a graphics card, telemetry, updates, and the code in other
    languages: input and output, serde data types, or tables. Of the server, the
    sockets and sessions of clients, the reports and status of one agent, the
    turns of the agents and the debug commands are left out, and so is the
    interleaving of handlers apart from the repeated requests; a check of the
    memory is one step, too. Of ambient mode,
    the notifications, the JSON answers of the debug socket and the texts about
    memory are left out.
    The memory agent, a task between a model and the memory manager, overnight
    runs and background tasks are left out too, which only drive
    processes and agents by the clock, and so are the small helpers of the task
    and usage types. Within the modelled parts, the drawing of the visual scene,
    the redaction of secrets, dates printed by chrono, the encoding by serde and
    the Markdown parser are left out.

    ** What the modelling showed

    Among others: an update whose move target is the same file deletes it
    ([ApplyPatchExecute]); removing one of two parallel edges of the memory
    graph drops both from the reverse index ([MemoryGraphCounts]); hard
    compaction while a summary is pending compacts the front twice
    ([CompactionManagerTheorems]); two calls with ids that differ only in
    replaced characters share an output ([OpenAiRequestTheorems]); the model
    picker opens at the wrong choice, and a prompt submitted while a response
    arrives drops the text received ([SingleSessionTheorems]); saves behind a
    torn line of a journal report success and are not loaded
    ([SessionStoreTheorems]); a slice inside a character panics in snippets
    ([SessionSearch]); the backup
    of a swarm's file is read as a newer state, and a repeated request may stay
    unanswered or be worked on twice ([SwarmServerExamples]); an old run ends
    the task of its new owner, and seven more ([SwarmRequests]); ambient
    mode does not run again after a crash or a stop, loses reminders it cannot
    deliver and undoes decisions taken through the files ([AmbientExamples]); a
    memory that one session was given is never offered to another
    ([MemoryManagerTheorems]), and a payload that is kept back lets the text
    before it come again ([MemoryActivity]). *)

From stdpp Require Export base list gmap sets strings sorting pretty relations.
From Stdlib Require Export Lia ZArith.

(** ** Scope and notations *)

Declare Scope gcode_scope.
Delimit Scope gcode_scope with gcode.

(** Rust's [==] on strings. *)
Infix "=s" := String.eqb (at level 70) : gcode_scope.
Open Scope gcode_scope.

Create HintDb gcode.

(** ** Tactics *)

(** Splits every conjunction and existential of the context. *)
Ltac destruct_all :=
  repeat match goal with
  | H : _ ∧ _ |- _ => destruct H
  | H : ∃ _, _ |- _ => destruct H
  end.

(** Case analysis on every boolean test and match that blocks the goal or a
    hypothesis, then clean-up. *)
Ltac case_all :=
  repeat (case_match || case_decide || case_bool_decide); simplify_eq/=.

(** ** Strings *)

(** [matches!(s, "a" | "b" | ..)] on a string. *)
Definition str_in (s : string) (l : list string) : bool :=
  existsb (String.eqb s) l.

Lemma str_in_spec s l : str_in s l = true ↔ s ∈ l.
Proof.
  unfold str_in. rewrite existsb_exists. setoid_rewrite String.eqb_eq.
  split; [intros (x & Hx & ->); by apply list_elem_of_In|].
  intros H. exists s. split; [by apply list_elem_of_In|done].
Qed.

Lemma str_in_false s l : str_in s l = false ↔ s ∉ l.
Proof. rewrite <- str_in_spec. by destruct (str_in s l). Qed.

Lemma eqb_true s t : (s =s t) = true ↔ s = t.
Proof. apply String.eqb_eq. Qed.

Lemma eqb_false s t : (s =s t) = false ↔ s ≠ t.
Proof. apply String.eqb_neq. Qed.

(** The newline character as a string. *)
Definition nl : string := String (Ascii.ascii_of_nat 10) "".

(** The double-quote character as a string. *)
Definition dquote : string := String (Ascii.ascii_of_nat 34) "".

(** [Vec<String>::join(sep)]. *)
Fixpoint join (sep : string) (l : list string) : string :=
  match l with
  | [] => ""
  | [s] => s
  | s :: l' => s +:+ sep +:+ join sep l'
  end.

(** ** Vectors used as stacks *)

(** [Vec::pop]: the last element and the rest. *)
Definition vec_pop {A} (v : list A) : option (A * list A) :=
  match reverse v with
  | [] => None
  | x :: r => Some (x, reverse r)
  end.

Lemma vec_pop_None {A} (v : list A) : vec_pop v = None ↔ v = [].
Proof.
  unfold vec_pop. split; [|by intros ->].
  destruct (reverse v) eqn:E; [|done].
  intros _. by rewrite <- (reverse_involutive v), E.
Qed.

Lemma vec_pop_Some {A} (v : list A) x v' :
  vec_pop v = Some (x, v') ↔ v = v' ++ [x].
Proof.
  unfold vec_pop. split.
  - destruct (reverse v) eqn:E; [done|]. intros [= -> <-].
    by rewrite <- (reverse_involutive v), E, reverse_cons.
  - intros ->. rewrite reverse_app. simpl. by rewrite reverse_involutive.
Qed.

Lemma StronglySorted_impl {A} (R1 R2 : A → A → Prop) l :
  (∀ x y, R1 x y → R2 x y) → StronglySorted R1 l → StronglySorted R2 l.
Proof.
  intros HR. induction 1 as [|x l _ IH Hx]; constructor; [done|].
  eapply Forall_impl; eauto.
Qed.

(** ** Stable sorting ([slice::sort_by]) *)

Section sort_by.
Context {A : Type} (leb : A → A → bool).

Fixpoint insert_by (x : A) (l : list A) : list A :=
  match l with
  | [] => [x]
  | y :: l' => if leb x y then x :: y :: l' else y :: insert_by x l'
  end.

Definition sort_by (l : list A) : list A := foldr insert_by [] l.

Lemma insert_by_perm x l : insert_by x l ≡ₚ x :: l.
Proof.
  induction l as [|y l IH]; simpl; [done|]. case_match; [done|].
  rewrite IH. apply Permutation_swap.
Qed.

Lemma sort_by_perm l : sort_by l ≡ₚ l.
Proof.
  induction l as [|x l IH]; simpl; [done|]. by rewrite insert_by_perm, IH.
Qed.

Lemma elem_of_sort_by x l : x ∈ sort_by l ↔ x ∈ l.
Proof. by rewrite sort_by_perm. Qed.

Lemma length_sort_by l : length (sort_by l) = length l.
Proof. by rewrite sort_by_perm. Qed.

Lemma NoDup_sort_by l : NoDup (sort_by l) ↔ NoDup l.
Proof. by rewrite sort_by_perm. Qed.

(** A sorted list stays as it is. *)
Lemma sort_by_id l : StronglySorted (λ a b, leb a b = true) l → sort_by l = l.
Proof.
  induction 1 as [|x l _ IH Hx]; [done|]. simpl. rewrite IH.
  destruct Hx as [|y l Hy]; simpl; [done|]. by rewrite Hy.
Qed.

Context (leb_total : ∀ x y, leb x y = true ∨ leb y x = true).
Context (leb_trans : ∀ x y z, leb x y = true → leb y z = true → leb x z = true).

Lemma insert_by_sorted x l :
  StronglySorted (λ a b, leb a b = true) l →
  StronglySorted (λ a b, leb a b = true) (insert_by x l).
Proof.
  induction 1 as [|y l Hl IH Hy]; simpl; [repeat constructor|].
  destruct (leb x y) eqn:E.
  - constructor; [by constructor|]. constructor; [done|].
    eapply Forall_impl; [done|]. eauto.
  - constructor; [done|]. rewrite insert_by_perm. constructor; [|done].
    destruct (leb_total x y); congruence.
Qed.

Lemma sort_by_sorted l : StronglySorted (λ a b, leb a b = true) (sort_by l).
Proof. induction l; simpl; [constructor|]. by apply insert_by_sorted. Qed.

Lemma sort_by_unique l1 l2 :
  (∀ x y, leb x y = true → leb y x = true → x = y) →
  l1 ≡ₚ l2 → sort_by l1 = sort_by l2.
Proof.
  intros Has Hp. eapply (StronglySorted_unique_strong (λ a b, leb a b = true));
    [eauto|apply sort_by_sorted..|]. by rewrite !sort_by_perm.
Qed.
End sort_by.

(** [Vec<String>::sort()]: the bytewise lexicographic order on strings. *)
Definition sort_strings : list string → list string := sort_by String.leb.

Lemma string_leb_trans x y z :
  String.leb x y = true → String.leb y z = true → String.leb x z = true.
Proof.
  pose proof (transitivity (R := String.le) (x := x) (y := y) (z := z)) as T.
  unfold String.le in T. rewrite !Is_true_true in T. auto.
Qed.

Definition sorted_strings : list string → Prop :=
  StronglySorted (λ a b, String.leb a b = true).

Lemma sort_strings_sorted l : sorted_strings (sort_strings l).
Proof. apply sort_by_sorted; [apply String.leb_total|apply string_leb_trans]. Qed.

Lemma sort_strings_perm l : sort_strings l ≡ₚ l.
Proof. apply sort_by_perm. Qed.

(** Sorting by distinct keys does not depend on the order at first. *)
Lemma sort_by_keys_unique {V} (l1 l2 : list (string * V)) :
  NoDup l1.*1 → l1 ≡ₚ l2 →
  sort_by (λ a b, String.leb a.1 b.1) l1 = sort_by (λ a b, String.leb a.1 b.1) l2.
Proof.
  intros Hnd Hp. set (leb := λ a b : string * V, String.leb a.1 b.1).
  assert (∀ l, StronglySorted (λ a b, leb a b = true) (sort_by leb l)) as Hs.
  { intros l. apply sort_by_sorted; unfold leb; [intros; apply String.leb_total|].
    intros x y z. apply string_leb_trans. }
  eapply (StronglySorted_unique_strong (λ a b, leb a b = true)); [|apply Hs..|by rewrite !sort_by_perm].
  intros [k1 v1] [k2 v2] H1 H2 L1 L2. rewrite sort_by_perm in H1, H2. rewrite <- Hp in H2.
  assert (k1 = k2) as <- by by apply String.leb_antisym.
  apply (elem_of_list_to_map_1 (M := gmap string)) in H1, H2; [|done..]. congruence.
Qed.

Lemma sort_strings_unique l1 l2 : l1 ≡ₚ l2 → sort_strings l1 = sort_strings l2.
Proof.
  apply sort_by_unique; [apply String.leb_total|apply string_leb_trans|].
  apply String.leb_antisym.
Qed.

Lemma sort_strings_id l : sorted_strings l → sort_strings l = l.
Proof.
  intros Hl. eapply (StronglySorted_unique_strong (λ a b, String.leb a b = true));
    [|apply sort_strings_sorted|done|by rewrite sort_strings_perm].
  intros. by apply String.leb_antisym.
Qed.

#[export] Hint Resolve sort_strings_sorted sort_strings_perm : gcode.

(** A [BTreeSet<String>] collected into a vector: its elements in order. *)
Definition btree_to_vec (s : gset string) : list string :=
  sort_strings (elements s).

Lemma elem_of_btree_to_vec x s : x ∈ btree_to_vec s ↔ x ∈ s.
Proof. unfold btree_to_vec, sort_strings. by rewrite elem_of_sort_by, elem_of_elements. Qed.

(** Selecting keys from a list of entries with distinct keys. *)
Lemma NoDup_omap_keys {V} (f : string * V → option string) (l : list (string * V)) :
  (∀ k v x, f (k, v) = Some x → x = k) → NoDup l.*1 → NoDup (omap f l).
Proof.
  intros Hf. induction l as [|[k v] l IH]; [constructor|]. rewrite fmap_cons. simpl.
  intros [Hk Hnd]%NoDup_cons. destruct (f (k, v)) as [x|] eqn:E; [|auto].
  apply Hf in E as ->. constructor; [|auto].
  rewrite list_elem_of_omap. intros ([k' v'] & Hin & ->%Hf).
  apply Hk, list_elem_of_fmap. by exists (k', v').
Qed.

(** ** Hash tables

    Rust's [HashMap] and [HashSet] are modelled by [gmap] and [gset]. Their
    iteration order is unspecified: a development that iterates is stated over
    this interface, whose laws say only that every entry is visited once. *)

Class HashOrder := {
  hash_entries : ∀ {V : Type}, gmap string V → list (string * V);
  hash_elements : gset string → list string;
  hash_entries_perm : ∀ {V : Type} (m : gmap string V),
    hash_entries m ≡ₚ map_to_list m;
  hash_elements_perm : ∀ s : gset string, hash_elements s ≡ₚ elements s;
}.

(** One iteration order, to run the model on concrete inputs. *)
#[export] Program Instance map_order : HashOrder := {
  hash_entries V := map_to_list;
  hash_elements := elements;
}.
Solve Obligations with done.

Section hash_order.
Context `{HashOrder}.

Lemma elem_of_hash_entries {V} (m : gmap string V) k v :
  (k, v) ∈ hash_entries m ↔ m !! k = Some v.
Proof. by rewrite hash_entries_perm, elem_of_map_to_list. Qed.

Lemma NoDup_hash_keys {V} (m : gmap string V) : NoDup (hash_entries m).*1.
Proof. rewrite hash_entries_perm. apply NoDup_fst_map_to_list. Qed.

Lemma elem_of_hash_elements s x : x ∈ hash_elements s ↔ x ∈ s.
Proof. by rewrite hash_elements_perm, elem_of_elements. Qed.

Lemma NoDup_hash_elements s : NoDup (hash_elements s).
Proof. rewrite hash_elements_perm. apply NoDup_elements. Qed.
End hash_order.

(** [*map.entry(k).or_default() += n] on a map of counters. *)
Definition bump (k : string) (n : nat) (m : gmap string nat) : gmap string nat :=
  <[k := default 0 (m !! k) + n]> m.

(** The value of a counter, absent counters reading as zero. *)
Definition counter (m : gmap string nat) (k : string) : nat := default 0 (m !! k).

#[global] Arguments bump : simpl never.
#[global] Arguments counter : simpl never.

Lemma counter_bump k n m k' :
  counter (bump k n m) k' = counter m k' + (if decide (k = k') then n else 0).
Proof.
  unfold counter, bump. rewrite lookup_insert.
  case_decide as E; [by subst|lia].
Qed.

(** ** Machine integers

    [usize] lengths and counts are natural numbers (a vector never holds more
    than memory allows); integers of a fixed width are [Z] with the wrap-around
    written out. *)

Abbreviation u64 := Z (only parsing).
Abbreviation u32 := Z (only parsing).
Abbreviation i32 := Z (only parsing).
Abbreviation u8 := Z (only parsing).
Abbreviation usize := nat (only parsing).

(** Wrap-around of an unsigned and of a signed integer of [w] bits. *)
Definition wrap_u (w : Z) (z : Z) : Z := (z mod 2 ^ w)%Z.
Definition wrap_s (w : Z) (z : Z) : Z := ((z + 2 ^ (w - 1)) mod 2 ^ w - 2 ^ (w - 1))%Z.

Definition in_i32 (z : Z) : Prop := (- 2 ^ 31 ≤ z < 2 ^ 31)%Z.
Definition in_u64 (z : Z) : Prop := (0 ≤ z < 2 ^ 64)%Z.

Lemma wrap_s_id z : in_i32 z → wrap_s 32 z = z.
Proof.
  unfold in_i32, wrap_s. intros H.
  change (2 ^ (32 - 1))%Z with 2147483648%Z.
  change (2 ^ 31)%Z with 2147483648%Z in H. change (2 ^ 32)%Z with 4294967296%Z.
  rewrite Z.mod_small; lia.
Qed.

Lemma wrap_u_id z : in_u64 z → wrap_u 64 z = z.
Proof. unfold in_u64, wrap_u. intros H. by rewrite Z.mod_small. Qed.

(** Additions that wrap around. *)
Definition i32_add (a b : Z) : Z := wrap_s 32 (a + b).
Definition u64_succ (x : Z) : Z := wrap_u 64 (x + 1).

Lemma i32_add_small a b : in_i32 (a + b) → i32_add a b = (a + b)%Z.
Proof. apply wrap_s_id. Qed.

Lemma u64_succ_small x : (0 ≤ x)%Z → (x + 1 < 2 ^ 64)%Z → u64_succ x = (x + 1)%Z.
Proof. intros ??. apply wrap_u_id. unfold in_u64. lia. Qed.

(** ** Occurrence counts *)

(** How often [x] occurs in [l]. *)
Definition occ (x : string) (l : list string) : nat :=
  length (filter (λ y, y = x) l).

#[global] Arguments occ : simpl never.

Lemma occ_nil x : occ x [] = 0.
Proof. done. Qed.

Lemma occ_cons x y l : occ x (y :: l) = (if decide (y = x) then 1 else 0) + occ x l.
Proof. unfold occ. rewrite filter_cons. by case_decide. Qed.

Lemma occ_app x l1 l2 : occ x (l1 ++ l2) = occ x l1 + occ x l2.
Proof. unfold occ. by rewrite filter_app, length_app. Qed.

Lemma occ_zero x l : occ x l = 0 ↔ x ∉ l.
Proof.
  induction l as [|y l IH]; [rewrite occ_nil; set_solver|].
  rewrite occ_cons, not_elem_of_cons, <- IH. case_decide as E; [subst|].
  - split; [lia|intros [? _]; congruence].
  - simpl. split; [auto|tauto].
Qed.

Lemma occ_perm l1 l2 : (∀ x, occ x l1 = occ x l2) → l1 ≡ₚ l2.
Proof.
  revert l2. induction l1 as [|x l1 IH]; intros l2 E.
  - destruct l2 as [|y l2]; [done|]. specialize (E y). rewrite occ_nil, occ_cons in E.
    by rewrite decide_True in E.
  - assert (x ∈ l2) as (a & b & ->)%list_elem_of_split.
    { destruct (decide (x ∈ l2)) as [|Hn]; [done|]. apply occ_zero in Hn.
      rewrite <- E, occ_cons, decide_True in Hn; done. }
    rewrite <- Permutation_middle. constructor. apply IH. intros y. specialize (E y).
    rewrite occ_cons, occ_app, occ_cons in E. rewrite occ_app. lia.
Qed.

Lemma occ_NoDup l : NoDup l ↔ ∀ x, occ x l ≤ 1.
Proof.
  induction l as [|y l IH]; [split; [intros _ x; rewrite occ_nil; lia|constructor]|].
  rewrite NoDup_cons, IH. setoid_rewrite occ_cons. rewrite <- occ_zero. split.
  - intros [Hy Hl] x. specialize (Hl x). case_decide; subst; lia.
  - intros Hl. split; [specialize (Hl y); rewrite decide_True in Hl by done; lia|].
    intros x. specialize (Hl x). lia.
Qed.

Lemma filter_all {A} (P : A → Prop) `{∀ x, Decision (P x)} (l : list A) :
  (∀ x, x ∈ l → P x) → filter P l = l.
Proof.
  induction l as [|x l IH]; intros Hall; [done|].
  rewrite filter_cons_True by (apply Hall; left). f_equal. apply IH. intros y Hy.
  apply Hall. by right.
Qed.

(** ** Iterator methods of Rust

    [position], [find] and [min_by_key] on the list of the items an iterator
    yields, and updates of a vector at an index. *)

(** [iter().position(..)] *)
Fixpoint position {A} (p : A → bool) (l : list A) : option usize :=
  match l with
  | [] => None
  | x :: l' => if p x then Some 0 else S <$> position p l'
  end.

(** [min_by_key] for a key compared by [ltb]: the first least element. *)
Definition min_by {A} (ltb : A → A → bool) (l : list A) : option A :=
  foldl (λ best x, match best with
                   | None => Some x
                   | Some b => if ltb x b then Some x else Some b
                   end) None l.

Lemma position_Some {A} (p : A → bool) l i :
  position p l = Some i ↔
  ∃ l1 x l2, l = l1 ++ x :: l2 ∧ length l1 = i ∧ p x = true ∧ ∀ y, y ∈ l1 → p y = false.
Proof.
  revert i. induction l as [|x l IH]; intros i; simpl.
  { split; [done|]. by intros ([] & ? & ? & ? & _). }
  destruct (p x) eqn:Ep.
  - split.
    + intros [= <-]. exists [], x, l. split_and!; [done..|set_solver].
    + intros ([|z l1] & y & l2 & E & <- & _ & Hall); [done|]. simplify_eq/=.
      rewrite Hall in Ep by left. done.
  - split.
    + intros (j & Hj & ->)%fmap_Some. apply IH in Hj as (l1 & y & l2 & -> & <- & Hy & Hall).
      exists (x :: l1), y, l2. split_and!; [done..|].
      intros z [->|Hz]%elem_of_cons; auto.
    + intros ([|z l1] & y & l2 & E & <- & Hy & Hall); [injection E as -> ->; congruence|].
      injection E as <- ->. apply fmap_Some. exists (length l1). split; [|done]. apply IH.
      exists l1, y, l2. split_and!; [done..|]. intros w Hw. apply Hall. by right.
Qed.

Lemma position_None {A} (p : A → bool) l :
  position p l = None ↔ ∀ x, x ∈ l → p x = false.
Proof.
  induction l as [|x l IH]; simpl; [set_solver|]. destruct (p x) eqn:Ep.
  - split; [done|]. intros Hall. rewrite Hall in Ep by left. done.
  - rewrite fmap_None, IH. set_solver.
Qed.

Lemma position_lookup {A} (p : A → bool) l i :
  position p l = Some i → ∃ x, l !! i = Some x ∧ p x = true.
Proof.
  rewrite position_Some. intros (l1 & x & l2 & -> & <- & Hx & _).
  exists x. split; [|done]. by rewrite list_lookup_middle.
Qed.

Lemma position_exists {A} (p : A → bool) l x :
  x ∈ l → p x = true → ∃ i, position p l = Some i.
Proof.
  intros Hx Hp. destruct (position p l) eqn:E; [by eexists|].
  rewrite position_None in E. rewrite E in Hp; done.
Qed.

Lemma min_by_app_one {A} (ltb : A → A → bool) l x :
  min_by ltb (l ++ [x]) =
  match min_by ltb l with
  | None => Some x
  | Some b => if ltb x b then Some x else Some b
  end.
Proof. unfold min_by. by rewrite foldl_app. Qed.

Lemma min_by_Some {A} (ltb : A → A → bool) l x : min_by ltb l = Some x → x ∈ l.
Proof.
  revert x. induction l as [|y l IH] using rev_ind; intros x; [done|].
  rewrite min_by_app_one. destruct (min_by ltb l) as [b|]; [case_match|];
    intros [= <-]; rewrite elem_of_app; set_solver.
Qed.

Lemma min_by_None {A} (ltb : A → A → bool) l : min_by ltb l = None ↔ l = [].
Proof.
  split; [|by intros ->]. destruct l as [|x l _] using rev_ind; [done|].
  rewrite min_by_app_one. repeat case_match; done.
Qed.

Lemma min_by_least {A} (ltb : A → A → bool) l x :
  (∀ a b c, ltb b a = false → ltb c b = false → ltb c a = false) →
  (∀ a b, ltb a b = true → ltb b a = false) →
  min_by ltb l = Some x → ∀ y, y ∈ l → ltb y x = false.
Proof.
  intros Htr Has. revert x. induction l as [|z l IH] using rev_ind; intros x; [done|].
  rewrite min_by_app_one. intros Hm y Hy. rewrite elem_of_app, list_elem_of_singleton in Hy.
  assert (∀ a, ltb a a = false) as Hirr
    by (intros a; destruct (ltb a a) eqn:E; [pose proof (Has _ _ E); congruence|done]).
  destruct (min_by ltb l) as [b|] eqn:Eb.
  - destruct (ltb z b) eqn:Ez; injection Hm as <-; destruct Hy as [Hy| ->]; auto.
    apply (Htr _ b); auto.
  - injection Hm as <-. apply min_by_None in Eb as ->. destruct Hy as [Hy| ->]; [set_solver|auto].
Qed.

Lemma find_is_Some {A} (p : A → bool) l x : x ∈ l → p x = true → ∃ y, List.find p l = Some y.
Proof.
  induction 1 as [x l|x y l _ IH]; intros H; cbn; [rewrite H; eauto|]. destruct (p y); eauto.
Qed.

Lemma find_Some_elem {A} (p : A → bool) l x : List.find p l = Some x → x ∈ l ∧ p x = true.
Proof. intros H. apply List.find_some in H. by rewrite list_elem_of_In. Qed.

Lemma fmap_alter_id {A B} (g : A → B) f i (l : list A) :
  (∀ x, g (f x) = g x) → g <$> alter f i l = g <$> l.
Proof.
  intros Hg. revert i. induction l as [|x l IH]; intros [|i]; cbn; try done.
  - by rewrite Hg.
  - f_equal. apply IH.
Qed.
