(* ===== verification/Utf8.v ===== *)
(** * Rust strings

    A Rust string is its UTF-8 bytes. A character is the string of its bytes:
    a byte that is not a continuation byte, then the continuation bytes that
    follow. The operations below are those of the Rust standard library the
    program uses: [chars], [trim], [split_whitespace], [contains],
    [is_char_boundary] and slicing at byte positions. *)

From S2P Require Import Prelude.

#[local] Arguments String.append !_ _ / : simpl nomatch.

(** ** Characters *)

(** A continuation byte, [0b10xxxxxx]. *)
Definition is_cont (b : Ascii.ascii) : bool :=
  let n := Ascii.nat_of_ascii b in (128 <=? n) && (n <? 192).

(** Whether a string is empty or begins at a character. *)
Definition starts_char (s : string) : bool :=
  match s with
  | EmptyString => true
  | String b _ => negb (is_cont b)
  end.

(** [s.chars()] *)
Fixpoint chars (s : string) : list string :=
  match s with
  | EmptyString => []
  | String b rest =>
      if starts_char rest then String b "" :: chars rest
      else match chars rest with
           | c :: cs => String b c :: cs
           | [] => [String b ""]
           end
  end.

(** [iter.collect::<String>()] *)
Definition str_concat : list string → string := foldr String.append "".

(** The bytes of one character: a first byte, then continuation bytes. *)
Fixpoint all_cont (s : string) : bool :=
  match s with
  | EmptyString => true
  | String b rest => is_cont b && all_cont rest
  end.

Definition one_char (c : string) : Prop :=
  match c with
  | EmptyString => False
  | String _ rest => all_cont rest = true
  end.

(** What [chars] produces: characters that all start at a first byte, the
    leading one excepted when the string itself does not. *)
Definition char_list (l : list string) : Prop :=
  Forall one_char l ∧ Forall (λ c, starts_char c = true) (tail l).

Lemma str_app_nil_r s : s +:+ "" = s.
Proof. induction s; simpl; congruence. Qed.

Lemma str_app_assoc s t u : (s +:+ t) +:+ u = s +:+ t +:+ u.
Proof. induction s; simpl; congruence. Qed.

Lemma str_length_app s t :
  String.length (s +:+ t) = String.length s + String.length t.
Proof. induction s; simpl; congruence. Qed.

Lemma str_concat_app l1 l2 : str_concat (l1 ++ l2) = str_concat l1 +:+ str_concat l2.
Proof. induction l1 as [|s l1 IH]; simpl; [done|]. by rewrite IH, str_app_assoc. Qed.

Lemma chars_nil s : chars s = [] ↔ s = "".
Proof.
  destruct s as [|b s]; [done|]. simpl.
  destruct (starts_char s), (chars s); done.
Qed.

Lemma str_concat_chars s : str_concat (chars s) = s.
Proof.
  induction s as [|b s IH]; [done|]. simpl. destruct (starts_char s).
  - simpl. by rewrite IH.
  - destruct (chars s) as [|c cs]; simpl in *; [by rewrite <- IH|by rewrite IH].
Qed.

Lemma chars_head s c cs : chars s = c :: cs → c ≠ "" ∧ starts_char c = starts_char s.
Proof.
  destruct s as [|b s]; [done|]. simpl.
  destruct (starts_char s), (chars s); intros [= <- <-]; done.
Qed.

Lemma chars_char_list s : char_list (chars s).
Proof.
  induction s as [|b s [IH1 IH2]]; [by split; constructor|]. simpl.
  destruct (chars s) as [|c cs] eqn:Ec.
  { destruct (starts_char s); by split; repeat constructor. }
  destruct (chars_head s c cs Ec) as [Hc <-]. destruct (starts_char c) eqn:E.
  - split; [by constructor|]. by constructor.
  - split; [|done]. apply Forall_cons in IH1 as [H1 H2]. constructor; [|done].
    destruct c as [|b' c]; [done|]. simpl in *. by destruct (is_cont b').
Qed.

Lemma chars_app s t :
  starts_char t = true → chars (s +:+ t) = chars s ++ chars t.
Proof.
  intros Ht. induction s as [|b s IH]; [done|]. simpl.
  assert (starts_char (s +:+ t) = starts_char s) as Hs.
  { destruct s; [|done]. simpl. by rewrite Ht. }
  rewrite Hs, IH. destruct (starts_char s) eqn:E; [done|].
  destruct (chars s) as [|c cs] eqn:Ec; [|done].
  apply chars_nil in Ec as ->. done.
Qed.

Lemma chars_one_char c : one_char c → chars c = [c].
Proof.
  destruct c as [|b c]; [done|]. simpl. revert b.
  induction c as [|b' c IH]; intros b; simpl; [done|].
  rewrite andb_true_iff. intros [-> Hc]. simpl. specialize (IH b' Hc). simpl in IH.
  destruct (starts_char c); [congruence|]. destruct (chars c); congruence.
Qed.

Lemma starts_char_concat l :
  Forall (λ c, starts_char c = true) l → starts_char (str_concat l) = true.
Proof.
  induction 1 as [|c l Hc _ IH]; [done|]. by destruct c.
Qed.

Lemma chars_concat l : char_list l → chars (str_concat l) = l.
Proof.
  intros [H1 H2]. induction H1 as [|c l Hc H1 IH]; [done|]. simpl in *.
  rewrite chars_app by by apply starts_char_concat.
  rewrite chars_one_char by done. simpl. f_equal. apply IH.
  destruct H2; [constructor|done].
Qed.

Lemma sublist_Forall {A} (P : A → Prop) l1 l2 :
  l1 `sublist_of` l2 → Forall P l2 → Forall P l1.
Proof. rewrite !Forall_forall. eauto using elem_of_sublist. Qed.

Lemma sublist_reverse {A} (l1 l2 : list A) :
  l1 `sublist_of` l2 → reverse l1 `sublist_of` reverse l2.
Proof.
  induction 1 as [|x l1 l2 _ IH|x l1 l2 _ IH]; [done|..]; rewrite !reverse_cons.
  - by apply sublist_app.
  - by apply sublist_inserts_r.
Qed.

Lemma char_list_sublist l1 l2 : l1 `sublist_of` l2 → char_list l2 → char_list l1.
Proof.
  intros Hl. unfold char_list. induction Hl as [|c l1 l2 Hl IH|c l1 l2 Hl IH]; [done|..]; simpl.
  - intros [[Hc H1]%Forall_cons H2]. split; [constructor; [done|]|].
    + by eapply sublist_Forall.
    + by eapply sublist_Forall.
  - intros [[_ H1]%Forall_cons H2]. apply IH. split; [done|].
    destruct H2; [constructor|done].
Qed.

Lemma char_list_app l1 l2 :
  char_list l1 → char_list l2 → Forall (λ c, starts_char c = true) l2 →
  char_list (l1 ++ l2).
Proof.
  intros [H1 H2] [H3 _] H4. split; [by apply Forall_app|].
  destruct l1; simpl in *; [by destruct H4|by apply Forall_app].
Qed.

Lemma length_chars_le s : length (chars s) ≤ String.length s.
Proof.
  induction s as [|b s IH]; simpl; [done|].
  destruct (starts_char s); simpl; [lia|]. destruct (chars s); simpl in *; lia.
Qed.

(** ** White space *)

Definition bytes (l : list nat) : string :=
  foldr (λ n s, String (Ascii.ascii_of_nat n) s) "" l.

(** The characters with the Unicode property White_Space. *)
Definition whitespace_chars : list string :=
  bytes <$> ([[9]; [10]; [11]; [12]; [13]; [32]; [194; 133]; [194; 160]; [225; 154; 128]]
    ++ ((λ n, [226; 128; n]) <$> seq 128 11)
    ++ [[226; 128; 168]; [226; 128; 169]; [226; 128; 175]; [226; 129; 159]; [227; 128; 128]]).

(** [char::is_whitespace] *)
Definition is_whitespace (c : string) : bool := str_in c whitespace_chars.

Fixpoint drop_while {A} (p : A → bool) (l : list A) : list A :=
  match l with
  | [] => []
  | x :: l' => if p x then drop_while p l' else l
  end.

Definition drop_while_end {A} (p : A → bool) (l : list A) : list A :=
  reverse (drop_while p (reverse l)).

(** [s.trim_start()], [s.trim_end()] and [s.trim()] *)
Definition trim_start (s : string) : string :=
  str_concat (drop_while is_whitespace (chars s)).
Definition trim_end (s : string) : string :=
  str_concat (drop_while_end is_whitespace (chars s)).
Definition trim (s : string) : string := trim_end (trim_start s).

(** [s.split_whitespace()]: the maximal runs of characters that are not white. *)
Fixpoint words_of (current : list string) (cs : list string) : list string :=
  match cs with
  | [] => match current with [] => [] | _ => [str_concat (reverse current)] end
  | c :: cs' =>
      if is_whitespace c then
        match current with
        | [] => words_of [] cs'
        | _ => str_concat (reverse current) :: words_of [] cs'
        end
      else words_of (c :: current) cs'
  end.

Definition split_whitespace (s : string) : list string := words_of [] (chars s).

Lemma drop_while_sublist {A} (p : A → bool) l : drop_while p l `sublist_of` l.
Proof.
  induction l as [|x l IH]; simpl; [constructor|].
  destruct (p x); [by apply sublist_cons|done].
Qed.

Lemma drop_while_head {A} (p : A → bool) l x l' :
  drop_while p l = x :: l' → p x = false.
Proof.
  induction l as [|y l IH]; simpl; [done|]. destruct (p y) eqn:E; [done|]. congruence.
Qed.

Lemma drop_while_id {A} (p : A → bool) x l : p x = false → drop_while p (x :: l) = x :: l.
Proof. simpl. by intros ->. Qed.

Lemma drop_while_app {A} (p : A → bool) l1 l2 :
  Forall (λ x, p x = true) l1 → drop_while p (l1 ++ l2) = drop_while p l2.
Proof. induction 1 as [|x l1 Hx _ IH]; simpl; [done|]. by rewrite Hx. Qed.

Lemma drop_while_prefix {A} (p : A → bool) l :
  ∃ l', l = l' ++ drop_while p l ∧ Forall (λ x, p x = true) l'.
Proof.
  induction l as [|x l (l' & IH & H)]; simpl; [by exists []|].
  destruct (p x) eqn:E; [|by exists []]. exists (x :: l'). simpl. by rewrite <- IH; auto.
Qed.

Lemma chars_trim_start s : chars (trim_start s) = drop_while is_whitespace (chars s).
Proof.
  apply chars_concat. eapply char_list_sublist; [apply drop_while_sublist|].
  apply chars_char_list.
Qed.

Lemma drop_while_end_sublist {A} (p : A → bool) (l : list A) :
  drop_while_end p l `sublist_of` l.
Proof.
  unfold drop_while_end. rewrite <- (reverse_involutive l) at 2.
  apply sublist_reverse, drop_while_sublist.
Qed.

Lemma chars_trim_end s : chars (trim_end s) = drop_while_end is_whitespace (chars s).
Proof.
  apply chars_concat. eapply char_list_sublist; [apply drop_while_end_sublist|].
  apply chars_char_list.
Qed.

Lemma chars_trim s :
  chars (trim s) = drop_while_end is_whitespace (drop_while is_whitespace (chars s)).
Proof. unfold trim. by rewrite chars_trim_end, chars_trim_start. Qed.

Lemma drop_while_end_id {A} (p : A → bool) l x : p x = false →
  drop_while_end p (l ++ [x]) = l ++ [x].
Proof.
  intros Hx. unfold drop_while_end. rewrite reverse_app. simpl.
  rewrite Hx. simpl. by rewrite reverse_cons, reverse_involutive.
Qed.

(** A string between two characters that are not white is not trimmed. *)
Definition trimmed (l : list string) : Prop :=
  (∀ c l', l = c :: l' → is_whitespace c = false)
  ∧ (∀ c l', l = l' ++ [c] → is_whitespace c = false).

Lemma chars_inj s t : chars s = chars t → s = t.
Proof. intros E. by rewrite <- (str_concat_chars s), E, str_concat_chars. Qed.

Lemma trim_id s : trimmed (chars s) → trim s = s.
Proof.
  intros [H1 H2]. apply chars_inj. rewrite chars_trim.
  destruct (chars s) as [|c l] eqn:E; [done|].
  rewrite drop_while_id by eauto.
  destruct (exists_last (l := c :: l)) as (l' & c' & El); [done|].
  rewrite El. apply drop_while_end_id. eauto.
Qed.

Lemma drop_while_end_last {A} (p : A → bool) l x l' :
  drop_while_end p l = l' ++ [x] → p x = false.
Proof.
  unfold drop_while_end. intros E. apply (f_equal reverse) in E.
  rewrite reverse_involutive, reverse_app in E. simpl in E.
  by apply drop_while_head in E.
Qed.

Lemma drop_while_end_head {A} (p : A → bool) l x l' :
  drop_while_end p l = x :: l' → ∃ l'', l = x :: l''.
Proof.
  unfold drop_while_end. intros E.
  destruct (drop_while_prefix p (reverse l)) as (d & Hl & _).
  apply (f_equal reverse) in Hl. rewrite reverse_involutive, reverse_app, E in Hl.
  by eexists.
Qed.

Lemma trim_trimmed s : trimmed (chars (trim s)).
Proof.
  rewrite chars_trim. split; intros c l' E.
  - apply drop_while_end_head in E as [l'' E]. by apply drop_while_head in E.
  - by apply drop_while_end_last in E.
Qed.

Lemma trim_idemp s : trim (trim s) = trim s.
Proof. apply trim_id, trim_trimmed. Qed.

(** ** Substrings *)

Fixpoint starts_with (prefix s : string) : bool :=
  match prefix, s with
  | EmptyString, _ => true
  | String _ _, EmptyString => false
  | String a p, String b s' => Ascii.eqb a b && starts_with p s'
  end.

(** [s.contains(needle)] *)
Fixpoint str_contains (needle s : string) : bool :=
  starts_with needle s
  || match s with
     | EmptyString => false
     | String _ s' => str_contains needle s'
     end.

Lemma starts_with_spec p s : starts_with p s = true ↔ ∃ t, s = p +:+ t.
Proof.
  revert s. induction p as [|a p IH]; intros s; simpl; [naive_solver|].
  destruct s as [|b s]; [naive_solver|].
  rewrite andb_true_iff, Ascii.eqb_eq, IH. naive_solver.
Qed.

Lemma str_contains_spec n s : str_contains n s = true ↔ ∃ t u, s = t +:+ n +:+ u.
Proof.
  induction s as [|b s IH]; cbn [str_contains]; rewrite orb_true_iff, starts_with_spec.
  - split; [intros [[t Ht]|]; [by exists "", t|done]|].
    intros (t & u & E). left. exists u. by destruct t.
  - rewrite IH. split.
    + intros [[t ->]|(t & u & ->)]; [by exists "", t|by exists (String b t), u].
    + intros ([|c t] & u & E); simpl in E; [left; by exists u|right].
      injection E as -> ->. by exists t, u.
Qed.

(** ** Byte positions *)

Fixpoint str_take (n : nat) (s : string) : string :=
  match n, s with
  | S n, String b s' => String b (str_take n s')
  | _, _ => ""
  end.

Fixpoint str_drop (n : nat) (s : string) : string :=
  match n, s with
  | S n, String _ s' => str_drop n s'
  | _, _ => s
  end.

(** [s.is_char_boundary(i)] *)
Definition is_char_boundary (s : string) (i : nat) : bool :=
  if i =? 0 then true
  else if String.length s <=? i then i =? String.length s
  else starts_char (str_drop i s).

Lemma str_take_drop n s : str_take n s +:+ str_drop n s = s.
Proof.
  revert s. induction n as [|n IH]; intros [|b s]; simpl; [done..|]. by rewrite IH.
Qed.

Lemma str_length_take n s : String.length (str_take n s) = n `min` String.length s.
Proof.
  revert s. induction n as [|n IH]; intros [|b s]; simpl; [done..|]. by rewrite IH.
Qed.

Lemma str_length_drop n s : String.length (str_drop n s) = String.length s - n.
Proof.
  revert s. induction n as [|n IH]; intros [|b s]; simpl; [done..|]. by rewrite IH.
Qed.

Lemma str_take_all n s : String.length s ≤ n → str_take n s = s.
Proof.
  revert s. induction n as [|n IH]; intros [|b s]; simpl; try done; [lia|].
  intros. by rewrite IH by lia.
Qed.
