(* ===== verification/Text.v ===== *)
(** * Lines and patterns of Rust strings

    Lower case, [split('\n')], [lines], [strip_prefix], [find], and searching and
    replacing a pattern ([split], [matches], [replace], [replacen]). The
    pattern and the separators are whole characters, so a search for bytes
    finds exactly their occurrences. *)

From S2P Require Import Prelude Utf8.
Open Scope nat_scope.

#[local] Arguments String.append !_ _ / : simpl nomatch.

(** ** Lower case *)

(** Lower case of Rust strings. It needs the tables of Unicode, which are not
    part of the program, and is a parameter; on ASCII text it maps A-Z to a-z. *)
Class UnicodeLower := to_lowercase : string → string.

Definition ascii_lower (b : Ascii.ascii) : Ascii.ascii :=
  let n := Ascii.nat_of_ascii b in
  if (65 <=? n) && (n <=? 90) then Ascii.ascii_of_nat (n + 32) else b.

Fixpoint ascii_lowercase (s : string) : string :=
  match s with
  | EmptyString => ""
  | String b s' => String (ascii_lower b) (ascii_lowercase s')
  end.

(** ASCII lower case, to run the model on concrete inputs. *)
#[export] Instance lower_ascii : UnicodeLower := ascii_lowercase.

(** ** Prefixes *)

(** [s.strip_prefix(prefix)] *)
Fixpoint strip_prefix (prefix s : string) : option string :=
  match prefix, s with
  | EmptyString, _ => Some s
  | String _ _, EmptyString => None
  | String a p, String b s' => if Ascii.eqb a b then strip_prefix p s' else None
  end.

(** [s.find(needle)] *)
Fixpoint str_find (needle s : string) : option nat :=
  if starts_with needle s then Some 0
  else match s with
       | EmptyString => None
       | String _ s' => S <$> str_find needle s'
       end.

Lemma strip_prefix_spec p s t : strip_prefix p s = Some t ↔ s = p +:+ t.
Proof.
  revert s. induction p as [|a p IH]; intros s; simpl; [naive_solver|].
  destruct s as [|b s]; simpl; [naive_solver|].
  destruct (Ascii.eqb_spec a b) as [->|]; [rewrite IH|]; split; congruence.
Qed.

Lemma strip_prefix_app p t : strip_prefix p (p +:+ t) = Some t.
Proof. by apply strip_prefix_spec. Qed.

Lemma starts_with_strip p s : starts_with p s = bool_decide (is_Some (strip_prefix p s)).
Proof.
  apply eq_bool_prop_intro. rewrite Is_true_true, starts_with_spec, bool_decide_spec.
  unfold is_Some. by setoid_rewrite strip_prefix_spec.
Qed.

(** The first occurrence, with the text before and after it. *)
Lemma str_find_spec n s i :
  str_find n s = Some i ↔
  (∃ t u, s = t +:+ n +:+ u ∧ String.length t = i) ∧
  (∀ t u, s = t +:+ n +:+ u → i ≤ String.length t).
Proof.
  revert i. induction s as [|b s IH]; intros i; cbn [str_find];
    destruct (starts_with n _) eqn:E.
  1, 3: apply starts_with_spec in E as [u E]; split;
    [intros [= <-]; split; [by exists "", u|intros; lia]
    |intros [_ H]; specialize (H "" u E); cbn in H; f_equal; lia].
  - split; [done|]. intros [(t & u & Es & _) _].
    destruct t; [|done]. cbn in Es. by rewrite (proj2 (starts_with_spec n "")) in E by eauto.
  - assert (∀ u, String b s ≠ n +:+ u) as Hno.
    { intros u Es. by rewrite (proj2 (starts_with_spec n _)) in E by eauto. }
    split.
    + intros (j & Hj & ->)%fmap_Some. apply IH in Hj as [(t & u & -> & <-) Hmin]. split.
      * by exists (String b t), u.
      * intros [|c t'] u' Es; [by destruct (Hno u')|]. injection Es as <- Es.
        cbn. apply Hmin in Es. lia.
    + intros [([|c t] & u & Es & <-) Hmin]; [by destruct (Hno u)|].
      injection Es as <- Es. apply fmap_Some. exists (String.length t). split; [|done].
      apply IH. split; [by eauto|]. intros t' u' Es'.
      specialize (Hmin (String b t') u'). cbn in Hmin. rewrite Es' in Hmin.
      specialize (Hmin eq_refl). lia.
Qed.

Lemma str_find_None n s : str_find n s = None ↔ str_contains n s = false.
Proof.
  induction s as [|b s IH]; cbn [str_find str_contains];
    destruct (starts_with n _); cbn [orb]; try done.
  by rewrite fmap_None.
Qed.

(** ** Splitting at newlines *)

Definition newline : Ascii.ascii := Ascii.ascii_of_nat 10.
Definition carriage_return : Ascii.ascii := Ascii.ascii_of_nat 13.

(** [s.split('\n')] *)
Fixpoint split_nl (s : string) : list string :=
  match s with
  | EmptyString => [""]
  | String c s' =>
      if Ascii.eqb c newline then "" :: split_nl s'
      else match split_nl s' with
           | piece :: rest => String c piece :: rest
           | [] => [String c ""]
           end
  end.

(** The last byte of a line, dropped when it is a carriage return. *)
Fixpoint strip_cr (s : string) : string :=
  match s with
  | EmptyString => ""
  | String c EmptyString => if Ascii.eqb c carriage_return then "" else s
  | String c s' => String c (strip_cr s')
  end.

(** Of the pieces between newlines: the last one is a line only when it is not
    empty, the others lose a final carriage return. *)
Fixpoint lines_of (pieces : list string) : list string :=
  match pieces with
  | [] => []
  | [last] => if last =s "" then [] else [last]
  | piece :: rest => strip_cr piece :: lines_of rest
  end.

(** [s.lines()] *)
Definition lines (s : string) : list string := lines_of (split_nl s).

(** Text of one line. *)
Fixpoint no_newline (s : string) : bool :=
  match s with
  | EmptyString => true
  | String c s' => negb (Ascii.eqb c newline) && no_newline s'
  end.

Lemma split_nl_not_nil s : split_nl s ≠ [].
Proof. destruct s as [|c s]; cbn; [done|]. repeat case_match; done. Qed.

Lemma split_nl_no_newline s : no_newline s = true → split_nl s = [s].
Proof.
  induction s as [|c s IH]; cbn; [done|].
  intros [Hc Hs]%andb_true_iff. apply negb_true_iff in Hc. by rewrite Hc, (IH Hs).
Qed.

Lemma split_nl_app s t :
  no_newline s = true → split_nl (s +:+ nl +:+ t) = s :: split_nl t.
Proof.
  induction s as [|c s IH]; [done|]. cbn [no_newline].
  intros [Hc Hs]%andb_true_iff. apply negb_true_iff in Hc.
  change (String c s +:+ ?x) with (String c (s +:+ x)). cbn [split_nl].
  by rewrite Hc, (IH Hs).
Qed.

Lemma split_nl_pieces s : Forall (λ p, no_newline p = true) (split_nl s).
Proof.
  induction s as [|c s IH]; cbn; [by repeat constructor|].
  destruct (Ascii.eqb c newline) eqn:E; [by constructor|].
  destruct (split_nl s) as [|p ps] eqn:Es; [by destruct (split_nl_not_nil s)|].
  inversion IH; subst. constructor; [|done]. cbn. by rewrite E.
Qed.

(** Splitting and joining are inverse. *)
Lemma join_split_nl s : join nl (split_nl s) = s.
Proof.
  induction s as [|c s IH]; [done|]. cbn [split_nl].
  pose proof (split_nl_not_nil s) as Hne.
  destruct (Ascii.eqb_spec c newline) as [->|Hc].
  - destruct (split_nl s) as [|p ps] eqn:E; [done|].
    change (join nl ("" :: p :: ps)) with ("" +:+ nl +:+ join nl (p :: ps)). by rewrite IH.
  - destruct (split_nl s) as [|p [|q qs]] eqn:E; [done|..].
    + cbn in *. by rewrite <- IH.
    + change (join nl (String c p :: q :: qs)) with (String c (join nl (p :: q :: qs))).
      by rewrite IH.
Qed.

Lemma split_nl_join ls :
  ls ≠ [] → Forall (λ l, no_newline l = true) ls → split_nl (join nl ls) = ls.
Proof.
  intros Hne Hall. induction Hall as [|l ls Hl Hls IH]; [done|].
  destruct ls as [|l' ls]; [by apply split_nl_no_newline|].
  change (join nl (l :: l' :: ls)) with (l +:+ nl +:+ join nl (l' :: ls)).
  rewrite split_nl_app by done. by rewrite IH.
Qed.

(** Lines that [lines] gives back as they are. *)
Definition plain_line (l : string) : Prop := no_newline l = true ∧ strip_cr l = l.

Lemma lines_of_terminated ls : Forall plain_line ls → lines_of (ls ++ [""]) = ls.
Proof.
  induction 1 as [|l ls [_ Hl] Hls IH]; [done|]. cbn [app lines_of].
  rewrite IH, Hl. by destruct ls.
Qed.

(** A text made of terminated lines. *)
Definition unlines (ls : list string) : string := str_concat ((λ l, l +:+ nl) <$> ls).

Lemma unlines_cons l ls : unlines (l :: ls) = l +:+ nl +:+ unlines ls.
Proof. unfold unlines. cbn. apply str_app_assoc. Qed.

Lemma unlines_app ls1 ls2 : unlines (ls1 ++ ls2) = unlines ls1 +:+ unlines ls2.
Proof. unfold unlines. by rewrite fmap_app, str_concat_app. Qed.

Lemma split_nl_unlines ls : Forall (λ l, no_newline l = true) ls → split_nl (unlines ls) = ls ++ [""].
Proof.
  induction 1 as [|l ls Hl _ IH]; [done|]. by rewrite unlines_cons, split_nl_app, IH.
Qed.

Lemma lines_unlines ls : Forall plain_line ls → lines (unlines ls) = ls.
Proof.
  intros H. unfold lines. rewrite split_nl_unlines; [by apply lines_of_terminated|].
  eapply Forall_impl; [done|]. by intros ? [? _].
Qed.

Lemma join_unlines ls : join nl (ls ++ [""]) = unlines ls.
Proof.
  induction ls as [|l ls IH]; [done|]. rewrite unlines_cons, <- IH.
  by destruct ls.
Qed.

(** ** Searching and replacing *)

(** The pieces between the occurrences of a non-empty [pattern], found from
    left to right without overlap; [skip] bytes of an occurrence are left. *)
Fixpoint split_from (pattern : string) (skip : nat) (s : string) : list string :=
  match s with
  | EmptyString => [""]
  | String c s' =>
      match skip with
      | S k => split_from pattern k s'
      | 0 =>
          if starts_with pattern s then
            "" :: split_from pattern (String.length pattern - 1) s'
          else match split_from pattern 0 s' with
               | piece :: rest => String c piece :: rest
               | [] => [String c ""]
               end
      end
  end.

(** [s.split(pattern)]: the empty pattern occurs around every character. *)
Definition split_str (pattern s : string) : list string :=
  if pattern =s "" then "" :: chars s ++ [""] else split_from pattern 0 s.

(** [s.matches(pattern).count()] *)
Definition count_matches (pattern s : string) : nat := length (split_str pattern s) - 1.

(** [s.replace(pattern, new)] *)
Definition replace (pattern new s : string) : string := join new (split_str pattern s).

(** [s.replacen(pattern, new, 1)] *)
Definition replace_first (pattern new s : string) : string :=
  match split_str pattern s with
  | piece :: next :: rest => piece +:+ new +:+ join pattern (next :: rest)
  | _ => s
  end.

Lemma split_from_drop p k s :
  k ≤ String.length s → split_from p k s = split_from p 0 (str_drop k s).
Proof.
  revert s. induction k as [|k IH]; intros [|c s] Hk; cbn in Hk; try done; try lia.
  cbn [split_from str_drop]. rewrite IH by lia. done.
Qed.

Lemma str_drop_app s t : str_drop (String.length s) (s +:+ t) = t.
Proof. induction s; simpl; auto. Qed.

Lemma split_from_not_nil p k s : split_from p k s ≠ [].
Proof.
  revert k. induction s as [|c s IH]; intros k; [done|]. cbn [split_from].
  destruct k; [|done]. repeat case_match; done.
Qed.

(** One step of the search. *)
Lemma split_from_match p u : p ≠ "" → split_from p 0 (p +:+ u) = "" :: split_from p 0 u.
Proof.
  intros Hp. destruct p as [|a p]; [done|].
  change (String a p +:+ u) with (String a (p +:+ u)). cbn [split_from].
  assert (starts_with (String a p) (String a (p +:+ u)) = true) as ->
    by (apply starts_with_spec; by exists u).
  replace (String.length (String a p) - 1) with (String.length p) by (cbn; lia).
  rewrite split_from_drop by (rewrite str_length_app; lia). by rewrite str_drop_app.
Qed.

Lemma split_from_skip p c s :
  starts_with p (String c s) = false →
  ∃ piece rest, split_from p 0 s = piece :: rest ∧
    split_from p 0 (String c s) = String c piece :: rest.
Proof.
  intros H. destruct (split_from p 0 s) as [|piece rest] eqn:E;
    [by destruct (split_from_not_nil p 0 s)|].
  exists piece, rest. split; [done|]. cbn [split_from]. by rewrite H, E.
Qed.

(** An induction along the search for occurrences. *)
Lemma split_ind p (P : string → Prop) :
  p ≠ "" → P "" → (∀ u, P u → P (p +:+ u)) →
  (∀ c s, starts_with p (String c s) = false → P s → P (String c s)) →
  ∀ s, P s.
Proof.
  intros Hp H0 Hm Hs s. remember (String.length s) as n eqn:En. revert s En.
  induction (Nat.lt_wf_0 n) as [n _ IH]. intros s ->.
  destruct s as [|c s]; [done|].
  destruct (starts_with p (String c s)) eqn:E.
  - apply starts_with_spec in E as [u E]. rewrite E. apply Hm.
    eapply IH; [|done]. rewrite E, str_length_app. destruct p; [done|]. cbn. lia.
  - apply Hs; [done|]. eapply IH; [|done]. cbn. lia.
Qed.

Lemma join_cons sep piece rest :
  rest ≠ [] → join sep (piece :: rest) = piece +:+ sep +:+ join sep rest.
Proof. by destruct rest. Qed.

Lemma join_push sep c piece rest :
  join sep (String c piece :: rest) = String c (join sep (piece :: rest)).
Proof. by destruct rest. Qed.

(** The pieces joined by the pattern are the text. *)
Lemma join_split_from p s : p ≠ "" → join p (split_from p 0 s) = s.
Proof.
  intros Hp. revert s. apply (split_ind p); [done|done|..].
  - intros u IH. rewrite split_from_match, join_cons, IH by (done || apply split_from_not_nil).
    done.
  - intros c s H IH. destruct (split_from_skip p c s H) as (piece & rest & E & ->).
    by rewrite join_push, <- E, IH.
Qed.

(** No piece holds the pattern. *)
Lemma split_from_pieces p s :
  p ≠ "" → Forall (λ piece, str_contains p piece = false) (split_from p 0 s).
Proof.
  intros Hp.
  assert (str_contains p "" = false) as Hempty by (by destruct p).
  revert s. apply (split_ind p); [done|by repeat constructor|..].
  - intros u IH. rewrite split_from_match by done. by constructor.
  - intros c s H IH. destruct (split_from_skip p c s H) as (piece & rest & E & ->).
    rewrite E in IH. inversion IH as [|?? Hpiece Hrest]; subst. constructor; [|done].
    cbn [str_contains]. rewrite Hpiece, orb_false_r.
    destruct (starts_with p (String c piece)) eqn:Ep; [|done].
    apply starts_with_spec in Ep as [t Et].
    assert (join p (String c piece :: rest) = String c s) as Ej.
    { by rewrite join_push, <- E, join_split_from. }
    exfalso. enough (starts_with p (String c s) = true) by congruence.
    apply starts_with_spec. destruct rest as [|q rest].
    + cbn in Ej. exists t. congruence.
    + rewrite join_cons in Ej by done. rewrite <- Ej, Et, str_app_assoc. eauto.
Qed.

Lemma count_matches_zero p s : count_matches p s = 0 ↔ str_contains p s = false.
Proof.
  unfold count_matches, split_str. destruct (String.eqb_spec p "") as [->|Hp].
  - split; [rewrite length_cons, length_app; cbn; lia|]. by destruct s.
  - pose proof (split_from_pieces p s Hp) as Hall. pose proof (join_split_from p s Hp) as Hj.
    pose proof (split_from_not_nil p 0 s) as Hne.
    destruct (split_from p 0 s) as [|piece [|q rest]]; [done|..].
    + cbn in Hj. subst. inversion Hall; subst. by split.
    + cbn. split; [lia|]. intros Hc. rewrite join_cons in Hj by done. exfalso.
      enough (str_contains p s = true) by congruence.
      apply str_contains_spec. eauto.
Qed.

(** With a single occurrence there is one way to cut the text at it. *)
Lemma count_matches_one p s :
  p ≠ "" → count_matches p s = 1 →
  ∃ before after, s = before +:+ p +:+ after ∧
    str_contains p before = false ∧ str_contains p after = false ∧
    ∀ new, replace p new s = before +:+ new +:+ after ∧
           replace_first p new s = before +:+ new +:+ after.
Proof.
  intros Hp. unfold count_matches, replace, replace_first, split_str.
  rewrite (proj2 (String.eqb_neq p "")) by done.
  pose proof (split_from_pieces p s Hp) as Hall. pose proof (join_split_from p s Hp) as Hj.
  destruct (split_from p 0 s) as [|before [|after [|]]]; cbn in *; try lia. intros _.
  inversion Hall as [|?? Hb Hr]; subst. inversion Hr; subst.
  exists before, after. by split_and!.
Qed.
