(* ===== verification/FileTools.v ===== *)
(** * The environment of the file tools

    What [apply_patch], [patch], [edit] and [multiedit] share: the file system
    and the line differ they call, which are interfaces with laws; the context
    and the output of a tool; the bus of file events; and the monad of an
    execution, which reads and changes the world and stops at the first error.

    Sources: [crates/gcode-tool-core/src/lib.rs],
    [crates/gcode-tool-types/src/lib.rs], [crates/gcode-core/src/util.rs],
    [src/bus.rs], [src/tool/apply_patch.rs]. *)

From S2P Require Import Prelude Utf8 Text.
Open Scope nat_scope.

(** ** Interfaces *)

(** The calls of [tokio::fs] and [std::path] the tools make. An error is the
    text of an [io::Error]. [create_parent] is [create_dir_all] on the parent
    of a path, when it has one. *)
Class FileSystem (F : Type) := {
  fs_exists : F → string → bool;
  fs_read : F → string → string + string;
  fs_write : F → string → string → F * (unit + string);
  fs_remove : F → string → F * (unit + string);
  fs_create_parent : F → string → F * (unit + string);
}.

(** What a path reads as: the text of a file, or nothing. *)
Definition fs_text `{FileSystem F} (fs : F) (path : string) : option string :=
  match fs_read fs path with inl text => Some text | inr _ => None end.

(** What the tools rely on. [one_file] holds of two paths that may have to do
    with the same file: other spellings of one path, links, or a link that one
    of them goes through. A file that was written reads back; one that was
    removed is gone; a removal that fails changes no text; writing and removing
    change no text under a path that has nothing to do with the one they are
    given; and making directories changes no text. *)
Class FileSystemLaws (F : Type) `{FileSystem F} := {
  one_file : string → string → Prop;
  one_file_sym path other : one_file path other → one_file other path;
  fs_write_read fs path text fs' :
    fs_write fs path text = (fs', inl ()) → fs_text fs' path = Some text;
  fs_write_other fs path text other :
    ¬ one_file path other → fs_text (fs_write fs path text).1 other = fs_text fs other;
  fs_remove_gone fs path fs' :
    fs_remove fs path = (fs', inl ()) → fs_exists fs' path = false;
  fs_remove_error fs path fs' e other :
    fs_remove fs path = (fs', inr e) → fs_text fs' other = fs_text fs other;
  fs_remove_other fs path other :
    ¬ one_file path other → fs_text (fs_remove fs path).1 other = fs_text fs other;
  fs_create_parent_text fs path other :
    fs_text (fs_create_parent fs path).1 other = fs_text fs other;
}.

(** Files without directories, where every call succeeds that can. *)
#[export] Instance map_files : FileSystem (gmap string string) := {
  fs_exists fs path := bool_decide (is_Some (fs !! path));
  fs_read fs path := match fs !! path with
                     | Some text => inl text
                     | None => inr "No such file or directory (os error 2)"
                     end;
  fs_write fs path text := (<[path := text]> fs, inl ());
  fs_remove fs path := match fs !! path with
                       | Some _ => (delete path fs, inl ())
                       | None => (fs, inr "No such file or directory (os error 2)")
                       end;
  fs_create_parent fs path := (fs, inl ());
}.

#[export] Instance map_files_laws : FileSystemLaws (gmap string string).
Proof.
  apply (Build_FileSystemLaws _ _ eq).
  - done.
  - intros fs path text fs' [= <-]. unfold fs_text. cbn. by rewrite lookup_insert_eq.
  - intros fs path text other Hne. unfold fs_text. cbn. by rewrite lookup_insert_ne.
  - intros fs path fs'. cbn. destruct (fs !! path); [|done]. intros [= <-].
    apply bool_decide_eq_false. rewrite lookup_delete_eq. by intros [].
  - intros fs path fs' e other. cbn. destruct (fs !! path) eqn:E; [done|]. by intros [= <- _].
  - intros fs path other Hne. unfold fs_text. cbn. destruct (fs !! path); cbn; [|done].
    by rewrite lookup_delete_ne.
  - done.
Defined.

Inductive ChangeTag := ChangeDelete | ChangeInsert | ChangeEqual.

(** [TextDiff::from_lines(old, new).iter_all_changes()] of the [similar] crate:
    the lines of both texts, each with its tag and with its newline. *)
Class LineDiff := diff_lines : string → string → list (ChangeTag * string).

(** ** Contexts, outputs, events *)

Record ToolContext := {
  ctx_session_id : string;
  ctx_working_dir : option string;
}.

Record ToolOutput := {
  to_output : string;
  to_title : option string;
}.

Definition output_new (output : string) : ToolOutput :=
  {| to_output := output; to_title := None |}.

Definition with_title (title : string) (o : ToolOutput) : ToolOutput :=
  {| to_output := to_output o; to_title := Some title |}.

Inductive FileOp := OpRead | OpWrite | OpEdit.

Record FileTouch := {
  ft_session_id : string;
  ft_path : string;
  ft_op : FileOp;
  ft_summary : option string;
  ft_detail : option string;
}.

Definition path_is_absolute (path : string) : bool := starts_with "/" path.

(** [PathBuf::join] *)
Definition path_join (base path : string) : string :=
  if path_is_absolute path then path
  else if (base =s "") || starts_with "/" (str_drop (String.length base - 1) base)
  then base +:+ path
  else base +:+ "/" +:+ path.

Definition resolve_path (ctx : ToolContext) (path : string) : string :=
  if path_is_absolute path then path
  else match ctx_working_dir ctx with
       | Some base => path_join base path
       | None => path
       end.

(** ** Executions *)

(** The file system, and the events published on the bus so far. *)
Record World (F : Type) := {
  w_files : F;
  w_events : list FileTouch;
}.
Arguments w_files {F}.
Arguments w_events {F}.
Arguments Build_World {F}.

(** An asynchronous function that returns [Result<A>]. *)
Definition Exec (F A : Type) : Type := World F → World F * (A + string).

Section exec.
Context {F : Type}.

Definition ret {A} (x : A) : Exec F A := λ w, (w, inl x).
Definition fail {A} (e : string) : Exec F A := λ w, (w, inr e).

Definition bind {A B} (m : Exec F A) (k : A → Exec F B) : Exec F B :=
  λ w, match m w with
       | (w', inl x) => k x w'
       | (w', inr e) => (w', inr e)
       end.

(** A step is taken, and its error ends the execution. *)
Lemma bind_inv {A B} (m : Exec F A) (k : A → Exec F B) w w' r :
  bind m k w = (w', r) →
  ∃ w1 r1, m w = (w1, r1) ∧
    match r1 with inl x => k x w1 = (w', r) | inr e => w' = w1 ∧ r = inr e end.
Proof.
  unfold bind. destruct (m w) as [w1 [x|e]] eqn:E; intros H; eexists _, _; (split; [done|]); [done|].
  by injection H as <- <-.
Qed.

(** [m.await.ok()] and the like: the result as a value. *)
Definition attempt {A} (m : Exec F A) : Exec F (A + string) :=
  λ w, let (w', r) := m w in (w', inl r).

Definition lift_result {A} (r : A + string) : Exec F A := λ w, (w, r).

Definition publish (event : FileTouch) : Exec F unit :=
  λ w, ({| w_files := w_files w; w_events := w_events w ++ [event] |}, inl ()).

(** A call that may change the files. *)
Definition on_files {A} (f : F → F * (A + string)) : Exec F A :=
  λ w, let (files, r) := f (w_files w) in
       ({| w_files := files; w_events := w_events w |}, r).

Context `{FileSystem F}.

Definition path_exists (path : string) : Exec F bool := λ w, (w, inl (fs_exists (w_files w) path)).
Definition read_to_string (path : string) : Exec F string :=
  λ w, (w, fs_read (w_files w) path).
Definition write_file (path text : string) : Exec F unit := on_files (λ f, fs_write f path text).
Definition remove_file (path : string) : Exec F unit := on_files (λ f, fs_remove f path).
Definition create_parent_dirs (path : string) : Exec F unit :=
  on_files (λ f, fs_create_parent f path).
End exec.

(** Takes the first step of an execution in [H]; an error is left for last. *)
Ltac step_in H :=
  let w1 := fresh "w" in let r1 := fresh "r" in let E := fresh "E" in
  apply bind_inv in H as (w1 & r1 & E & H); destruct r1 as [?|?]; [|destruct H as [-> ->]].

Notation "x <-? m ; k" := (bind m (λ x, k))
  (at level 100, m at next level, right associativity) : gcode_scope.
Notation "m ;? k" := (bind m (λ _, k)) (at level 100, right associativity) : gcode_scope.

(** ** Texts the tools share *)

(** The loop of [truncate_str]. *)
Fixpoint floor_boundary (s : string) (end_ : usize) : usize :=
  match end_ with
  | O => O
  | S previous => if negb (is_char_boundary s end_) then floor_boundary s previous else end_
  end.

Definition truncate_str (s : string) (max_bytes : usize) : string :=
  if String.length s <=? max_bytes then s else str_take (floor_boundary s max_bytes) s.

Definition FILE_TOUCH_PREVIEW_MAX_LINES : usize := 6.
Definition FILE_TOUCH_PREVIEW_MAX_BYTES : usize := 240.

Definition build_file_touch_preview (diff : string) : option string :=
  let trimmed := trim diff in
  if trimmed =s "" then None
  else
    let all := lines trimmed in
    let preview := join nl (take FILE_TOUCH_PREVIEW_MAX_LINES all) in
    let truncated := bool_decide (drop FILE_TOUCH_PREVIEW_MAX_LINES all ≠ []) in
    let '(preview, truncated) :=
      if FILE_TOUCH_PREVIEW_MAX_BYTES <? String.length preview
      then (trim_end (truncate_str preview FILE_TOUCH_PREVIEW_MAX_BYTES), true)
      else (preview, truncated) in
    Some (if truncated then preview +:+ nl +:+ "…" else preview).

(** [s.trim_end_matches('\n')] *)
Definition trim_end_newlines (s : string) : string :=
  str_concat (drop_while_end (String.eqb nl) (chars s)).

(** The loop of [generate_diff_summary] of [apply_patch] and of
    [generate_diff] of [patch]: numbered lines, thirty at most. *)
Fixpoint summary_loop (old_line new_line line_count : usize) (changes : list (ChangeTag * string))
    : string :=
  match changes with
  | [] => ""
  | (tag, value) :: changes =>
      if 30 <=? line_count then "... (diff truncated)" +:+ nl
      else
        let content := trim_end_newlines value in
        let blank := trim content =s "" in
        let entry num prefix := pretty num +:+ prefix +:+ " " +:+ content +:+ nl in
        match tag with
        | ChangeDelete =>
            if blank then summary_loop (old_line + 1) new_line line_count changes
            else entry old_line "-" +:+ summary_loop (old_line + 1) new_line (line_count + 1) changes
        | ChangeInsert =>
            if blank then summary_loop old_line (new_line + 1) line_count changes
            else entry new_line "+" +:+ summary_loop old_line (new_line + 1) (line_count + 1) changes
        | ChangeEqual => summary_loop (old_line + 1) (new_line + 1) line_count changes
        end
  end.

Section diff.
Context `{LineDiff}.

Definition generate_diff_from (old new : string) (start_line : usize) : string :=
  trim_end (summary_loop start_line start_line 0 (diff_lines old new)).
End diff.
