(* ===== verification/ApplyPatch.v ===== *)
(** * The [apply_patch] tool ([src/tool/apply_patch.rs])

    The parser of Codex-style patches, the search for the lines of a chunk, the
    replacement of the lines found, and the execution of a parsed patch on the
    file system. *)

From S2P Require Import Prelude Utf8 Text FileTools.
Open Scope nat_scope.

(** ** Data *)

Record UpdateFileChunk := {
  uc_change_context : option string;
  uc_old_lines : list string;
  uc_new_lines : list string;
  uc_is_end_of_file : bool;
}.

Inductive PatchHunk :=
| AddFile (path contents : string)
| DeleteFile (path : string)
| UpdateFile (path : string) (move_to : option string) (chunks : list UpdateFileChunk).

(** [l.last().is_some_and(String::is_empty)] *)
Definition last_is_empty (l : list string) : bool :=
  match last l with Some s => s =s "" | None => false end.

(** ** Searching a sequence of lines *)

(** The three comparisons of [seek_sequence], one after the other. *)
Inductive Match := Exact | IgnoreEnd | IgnoreBoth.

Definition same_line (m : Match) (line pat : string) : bool :=
  match m with
  | Exact => line =s pat
  | IgnoreEnd => trim_end line =s trim_end pat
  | IgnoreBoth => trim line =s trim pat
  end.

(** Whether the lines from the front match the pattern. *)
Fixpoint matches_here (m : Match) (lines pattern : list string) : bool :=
  match pattern, lines with
  | [], _ => true
  | pat :: pattern, line :: lines => same_line m line pat && matches_here m lines pattern
  | _ :: _, [] => false
  end.

(** [for i in search_start..=last { .. }], with the number of rounds left. *)
Fixpoint seek_from (m : Match) (lines pattern : list string) (i rounds : usize) : option usize :=
  match rounds with
  | O => None
  | S rounds =>
      if matches_here m (drop i lines) pattern then Some i
      else seek_from m lines pattern (S i) rounds
  end.

Definition seek_sequence (lines pattern : list string) (start : usize) (eof : bool)
    : option usize :=
  match pattern with
  | [] => Some start
  | _ =>
      if length lines <? length pattern then None
      else
        let search_start :=
          if eof && (length pattern <=? length lines)
          then length lines - length pattern else start in
        let rounds := S (length lines - length pattern) - search_start in
        match seek_from Exact lines pattern search_start rounds with
        | Some i => Some i
        | None =>
            match seek_from IgnoreEnd lines pattern search_start rounds with
            | Some i => Some i
            | None => seek_from IgnoreBoth lines pattern search_start rounds
            end
        end
  end.

(** ** Replacements *)

Record Replacement := {
  rp_start : usize;
  rp_old_len : usize;
  rp_new : list string;
}.

Definition failed_context (ctx_line path : string) : string :=
  "Failed to find context '" +:+ ctx_line +:+ "' in " +:+ path.

Definition failed_lines (old_lines : list string) (path : string) : string :=
  "Failed to find expected lines in " +:+ path +:+ ":" +:+ nl +:+ join nl old_lines.

(** Where the context line of a chunk moves the search to. *)
Definition after_context (original_lines : list string) (path : string) (line_index : usize)
    (chunk : UpdateFileChunk) : usize + string :=
  match uc_change_context chunk with
  | None => inl line_index
  | Some ctx_line =>
      match seek_sequence original_lines [ctx_line] line_index false with
      | Some idx => inl (idx + 1)
      | None => inr (failed_context ctx_line path)
      end
  end.

(** The second attempt, without a last line that is empty. *)
Definition seek_chunk (original_lines : list string) (line_index : usize)
    (chunk : UpdateFileChunk) : option (usize * list string * list string) :=
  let pattern := uc_old_lines chunk in
  let new_slice := uc_new_lines chunk in
  let eof := uc_is_end_of_file chunk in
  match seek_sequence original_lines pattern line_index eof with
  | Some i => Some (i, pattern, new_slice)
  | None =>
      if last_is_empty pattern then
        let pattern := take (length pattern - 1) pattern in
        let new_slice :=
          if last_is_empty new_slice then take (length new_slice - 1) new_slice else new_slice in
        match seek_sequence original_lines pattern line_index eof with
        | Some i => Some (i, pattern, new_slice)
        | None => None
        end
      else None
  end.

(** The replacement of one chunk, and the next line to search from. *)
Definition chunk_replacement (original_lines : list string) (path : string) (line_index : usize)
    (chunk : UpdateFileChunk) : (Replacement * usize) + string :=
  match after_context original_lines path line_index chunk with
  | inr e => inr e
  | inl line_index =>
      match uc_old_lines chunk with
      | [] =>
          let insertion_idx :=
            if last_is_empty original_lines then length original_lines - 1
            else length original_lines in
          inl ({| rp_start := insertion_idx; rp_old_len := 0; rp_new := uc_new_lines chunk |},
               line_index)
      | _ =>
          match seek_chunk original_lines line_index chunk with
          | Some (start_idx, pattern, new_slice) =>
              inl ({| rp_start := start_idx; rp_old_len := length pattern;
                      rp_new := new_slice |}, start_idx + length pattern)
          | None => inr (failed_lines (uc_old_lines chunk) path)
          end
      end
  end.

Fixpoint chunk_replacements (original_lines : list string) (path : string) (line_index : usize)
    (chunks : list UpdateFileChunk) : list Replacement + string :=
  match chunks with
  | [] => inl []
  | chunk :: chunks =>
      match chunk_replacement original_lines path line_index chunk with
      | inr e => inr e
      | inl (r, line_index) =>
          match chunk_replacements original_lines path line_index chunks with
          | inr e => inr e
          | inl rs => inl (r :: rs)
          end
      end
  end.

Definition compute_replacements (original_lines : list string) (path : string)
    (chunks : list UpdateFileChunk) : list Replacement + string :=
  match chunk_replacements original_lines path 0 chunks with
  | inl rs => inl (sort_by (λ a b, rp_start a <=? rp_start b) rs)
  | inr e => inr e
  end.

(** [for _ in 0..old_len { if start_idx < lines.len() { lines.remove(start_idx); } }] *)
Definition remove_lines (start_idx old_len : usize) (lines : list string) : list string :=
  Nat.iter old_len (delete start_idx) lines.

(** The insertions panic when they start after the end; the replacements
    computed from the lines never do. *)
Definition apply_replacement (r : Replacement) (lines : option (list string))
    : option (list string) :=
  lines ← lines;
  let lines := remove_lines (rp_start r) (rp_old_len r) lines in
  match rp_new r with
  | [] => Some lines
  | new =>
      if rp_start r <=? length lines
      then Some (take (rp_start r) lines ++ new ++ drop (rp_start r) lines)
      else None
  end.

(** The replacements are applied from the last one to the first; [None] is a
    panic. *)
Definition apply_replacements (lines : list string) (replacements : list Replacement)
    : option (list string) :=
  foldr apply_replacement (Some lines) replacements.

(** ** The parser

    The code walks the lines with an index; here the lines that are left are
    passed on. *)

(** The lines of an added file: up to the next directive, those with a [+]. *)
Fixpoint parse_added (contents : string) (ls : list string) : string * list string :=
  match ls with
  | [] => (contents, [])
  | current :: rest =>
      if starts_with "*** " current then (contents, ls)
      else match strip_prefix "+" current with
           | Some added => parse_added (contents +:+ added +:+ nl) rest
           | None => parse_added contents rest
           end
  end.

(** What the lines of a chunk have given so far. *)
Record DiffLines := {
  dl_old : list string;
  dl_new : list string;
  dl_had : bool;
}.

Definition diff_none : DiffLines := {| dl_old := []; dl_new := []; dl_had := false |}.
Definition diff_both (l : string) (d : DiffLines) : DiffLines :=
  {| dl_old := dl_old d ++ [l]; dl_new := dl_new d ++ [l]; dl_had := true |}.
Definition diff_old (l : string) (d : DiffLines) : DiffLines :=
  {| dl_old := dl_old d ++ [l]; dl_new := dl_new d; dl_had := true |}.
Definition diff_new (l : string) (d : DiffLines) : DiffLines :=
  {| dl_old := dl_old d; dl_new := dl_new d ++ [l]; dl_had := true |}.

(** The loop over the lines of one chunk: the lines found, whether it ended at
    the end-of-file marker, and the lines left. *)
Fixpoint parse_diff_lines (d : DiffLines) (ls : list string) : DiffLines * bool * list string :=
  match ls with
  | [] => (d, false, [])
  | cl :: rest =>
      if cl =s "*** End of File" then (d, true, rest)
      else if starts_with "*** " cl || starts_with "@@" cl then (d, false, ls)
      else
        match strip_prefix " " cl with
        | Some content => parse_diff_lines (diff_both content d) rest
        | None =>
            match strip_prefix "+" cl with
            | Some content => parse_diff_lines (diff_new content d) rest
            | None =>
                match strip_prefix "-" cl with
                | Some content => parse_diff_lines (diff_old content d) rest
                | None =>
                    if cl =s "" then parse_diff_lines (diff_both "" d) rest
                    else if dl_had d then (d, false, ls)
                    else parse_diff_lines d rest
                end
            end
        end
  end.

(** The header of a chunk: the context and the lines left, or the end of the
    chunks. *)
Definition parse_chunk_header (is_first_chunk : bool) (current : string) (ls : list string)
    : option (option string * list string) :=
  if current =s "@@" then Some (None, tail ls)
  else match strip_prefix "@@ " current with
       | Some ctx => Some (Some ctx, tail ls)
       | None => if is_first_chunk then Some (None, ls) else None
       end.

Definition skippable (current : string) : bool :=
  (trim current =s "") && negb (starts_with " " current)
  && negb (starts_with "+" current) && negb (starts_with "-" current).

(** One round of the loop over the chunks: [None] when it breaks. *)
Definition parse_chunk (is_first_chunk : bool) (ls : list string)
    : option (list UpdateFileChunk * bool * list string) :=
  match ls with
  | [] => None
  | line :: rest =>
      let current := trim_end line in
      if starts_with "*** " current && negb (current =s "*** End of File") then None
      else if skippable current then Some ([], is_first_chunk, rest)
      else
        match parse_chunk_header is_first_chunk current ls with
        | None => None
        | Some (change_context, ls) =>
            let '(d, is_end_of_file, ls) := parse_diff_lines diff_none ls in
            Some (if dl_had d || bool_decide (is_Some change_context)
                  then [{| uc_change_context := change_context; uc_old_lines := dl_old d;
                           uc_new_lines := dl_new d; uc_is_end_of_file := is_end_of_file |}]
                  else [], false, ls)
        end
  end.

(** The loop over the chunks, with the rounds it may take. *)
Fixpoint parse_chunks (rounds : nat) (is_first_chunk : bool) (ls : list string)
    : list UpdateFileChunk * list string :=
  match rounds with
  | O => ([], ls)
  | S rounds =>
      match parse_chunk is_first_chunk ls with
      | None => ([], ls)
      | Some (chunks, is_first_chunk, ls) =>
          let (more, ls) := parse_chunks rounds is_first_chunk ls in (chunks ++ more, ls)
      end
  end.

(** Every round but one takes a line. *)
Definition chunk_rounds (ls : list string) : nat := length ls + 2.

(** [*** Move to:] after the header of an update. *)
Definition parse_move (ls : list string) : option string * list string :=
  match ls with
  | line :: rest =>
      match strip_prefix "*** Move to: " (trim_end line) with
      | Some target => (Some (trim target), rest)
      | None => (None, ls)
      end
  | [] => (None, [])
  end.

(** One round of the main loop: the hunks it adds and the lines left, [None]
    at the end of the patch, or an error. *)
Definition parse_directive (ls : list string) : option (list PatchHunk * list string) + string :=
  match ls with
  | [] => inl None
  | line :: rest =>
      let line := trim_end line in
      if trim line =s "*** End Patch" then inl None
      else match strip_prefix "*** Add File: " line with
      | Some path =>
          let (contents, rest) := parse_added "" rest in
          inl (Some ([AddFile (trim path) contents], rest))
      | None =>
      match strip_prefix "*** Delete File: " line with
      | Some path => inl (Some ([DeleteFile (trim path)], rest))
      | None =>
      match strip_prefix "*** Update File: " line with
      | Some path =>
          let path := trim path in
          let (move_to, rest) := parse_move rest in
          let (chunks, rest) := parse_chunks (chunk_rounds rest) true rest in
          match chunks with
          | [] => inr ("Update file hunk for '" +:+ path +:+ "' has no changes")
          | _ => inl (Some ([UpdateFile path move_to chunks], rest))
          end
      | None => inl (Some ([], rest))
      end end end
  end.

(** The main loop; every round takes a line. *)
Fixpoint parse_directives (rounds : nat) (ls : list string) : list PatchHunk + string :=
  match rounds with
  | O => inl []
  | S rounds =>
      match parse_directive ls with
      | inr e => inr e
      | inl None => inl []
      | inl (Some (hunks, ls)) =>
          match parse_directives rounds ls with
          | inr e => inr e
          | inl more => inl (hunks ++ more)
          end
      end
  end.

Definition parse_apply_patch (input : string) : list PatchHunk + string :=
  let ls := lines input in
  match position (λ l, trim l =s "*** Begin Patch") ls with
  | None => inr "Patch must contain *** Begin Patch"
  | Some start =>
      let ls := drop (start + 1) ls in
      match parse_directives (length ls) ls with
      | inr e => inr e
      | inl [] => inr "No valid patch directives found"
      | inl hunks => inl hunks
      end
  end.

(** ** Execution *)

Section execute.
Context {F : Type} `{FileSystem F} `{LineDiff}.

Definition generate_diff_summary (old new : string) : string := generate_diff_from old new 1.

Definition publish_file_touch (ctx : ToolContext) (resolved verb diff : string) : Exec F unit :=
  publish {| ft_session_id := ctx_session_id ctx; ft_path := resolved; ft_op := OpEdit;
             ft_summary := Some (verb +:+ " via apply_patch");
             ft_detail := build_file_touch_preview diff |}.

(** The lines of a text for the replacements: without the empty piece after a
    final newline. *)
Definition original_lines (contents : string) : list string :=
  let ls := split_nl contents in
  if last_is_empty ls then take (length ls - 1) ls else ls.

(** The text of the lines, with a final newline. *)
Definition new_contents (new_lines : list string) : string :=
  join nl (if last_is_empty new_lines then new_lines else new_lines ++ [""]).

(** The pure part of [apply_update_chunks]; the inner [None] is a panic. *)
Definition update_contents (path contents : string) (chunks : list UpdateFileChunk)
    : option string + string :=
  match compute_replacements (original_lines contents) path chunks with
  | inr e => inr e
  | inl replacements =>
      inl (new_contents <$> apply_replacements (original_lines contents) replacements)
  end.

Definition apply_update_chunks (path : string) (chunks : list UpdateFileChunk)
    : Exec F (option (string * string)) :=
  contents <-? read_to_string path;
  new <-? lift_result (update_contents path contents chunks);
  ret (pair contents <$> new).

(** [✓ path: message], with the diff on the lines below. *)
Definition report (path message diff : string) : string :=
  "✓ " +:+ path +:+ ": " +:+ message +:+ (if diff =s "" then "" else nl +:+ diff).

(** One hunk: its line of the report and the paths it touched. [None] is a
    panic. *)
Definition execute_hunk (ctx : ToolContext) (hunk : PatchHunk)
    : Exec F (option (string * list string)) :=
  match hunk with
  | AddFile path contents =>
      let resolved := resolve_path ctx path in
      create_parent_dirs resolved ;?
      write_file resolved contents ;?
      let diff := generate_diff_summary "" contents in
      publish_file_touch ctx resolved "created" diff ;?
      ret (Some (report path "created" diff, [path]))
  | DeleteFile path =>
      let resolved := resolve_path ctx path in
      old <-? attempt (read_to_string resolved);
      let old_contents := match old with inl text => text | inr _ => "" end in
      removed <-? attempt (remove_file resolved);
      match removed with
      | inl _ =>
          let diff := generate_diff_summary old_contents "" in
          publish_file_touch ctx resolved "deleted" diff ;?
          ret (Some (report path "deleted" diff, [path]))
      | inr _ => ret (Some ("✗ " +:+ path +:+ ": failed to delete", []))
      end
  | UpdateFile path move_to chunks =>
      let resolved := resolve_path ctx path in
      updated <-? attempt (apply_update_chunks resolved chunks);
      match updated with
      | inr e => ret (Some ("✗ " +:+ path +:+ ": " +:+ e, []))
      | inl None => ret None
      | inl (Some (old_contents, contents)) =>
          let diff := generate_diff_summary old_contents contents in
          let message := "modified (" +:+ pretty (length chunks) +:+ " hunks)" in
          match move_to with
          | Some dest =>
              let dest_resolved := resolve_path ctx dest in
              create_parent_dirs dest_resolved ;?
              write_file dest_resolved contents ;?
              attempt (remove_file resolved) ;?
              publish_file_touch ctx resolved "modified" diff ;?
              publish_file_touch ctx dest_resolved "modified" diff ;?
              ret (Some (report path (message +:+ ", moved to " +:+ dest) diff, [path; dest]))
          | None =>
              write_file resolved contents ;?
              publish_file_touch ctx resolved "modified" diff ;?
              ret (Some (report path message diff, [path]))
          end
      end
  end.

Fixpoint execute_hunks (ctx : ToolContext) (hunks : list PatchHunk)
    (results touched_paths : list string) : Exec F (option (list string * list string)) :=
  match hunks with
  | [] => ret (Some (results, touched_paths))
  | hunk :: hunks =>
      done <-? execute_hunk ctx hunk;
      match done with
      | None => ret None
      | Some (line, touched) =>
          execute_hunks ctx hunks (results ++ [line]) (touched_paths ++ touched)
      end
  end.

Definition patch_output (results touched_paths : list string) : ToolOutput :=
  match results with
  | [] => output_new "No changes applied"
  | _ =>
      let output := output_new (join nl results) in
      match touched_paths with
      | [path] => with_title path output
      | _ => with_title (pretty (length touched_paths) +:+ " files") output
      end
  end.

(** [execute], from the text of the patch. *)
Definition apply_patch_execute (ctx : ToolContext) (patch_text : string)
    : Exec F (option ToolOutput) :=
  hunks <-? lift_result (parse_apply_patch patch_text);
  done <-? execute_hunks ctx hunks [] [];
  ret (match done with
       | None => None
       | Some (results, touched_paths) => Some (patch_output results touched_paths)
       end).
End execute.
