(* ===== verification/ApplyPatchTheorems.v ===== *)
(** * Properties of [apply_patch]: searching and replacing

    Where [seek_sequence] finds a pattern; that the computed replacements never
    make the tool panic; and that an update is a rewriting of the file, chunk
    after chunk, that keeps everything between the chunks. *)

From S2P Require Import Prelude Utf8 Text FileTools ApplyPatch.
Open Scope nat_scope.

(** ** Specification of the search *)

(** How much a comparison ignores. *)
Definition laxity (m : Match) : nat :=
  match m with Exact => 0 | IgnoreEnd => 1 | IgnoreBoth => 2 end.

(** The pattern stands at position [k] of the lines, up to [m]. *)
Definition occurs (m : Match) (ls pattern : list string) (k : nat) : Prop :=
  ∃ before old rest, ls = before ++ old ++ rest ∧ length before = k ∧
    Forall2 (λ line pat, same_line m line pat = true) old pattern.

(** The first position that is searched. *)
Definition search_from (ls pattern : list string) (start : nat) (eof : bool) : nat :=
  if eof then length ls - length pattern else start.

Lemma matches_here_spec m ls pattern :
  matches_here m ls pattern = true ↔
  ∃ old rest, ls = old ++ rest ∧ Forall2 (λ line pat, same_line m line pat = true) old pattern.
Proof.
  revert ls. induction pattern as [|p pattern IH]; intros ls; cbn.
  - destruct ls as [|l ls]; (split; [|done]); intros _; eexists [], _; (split; [done|constructor]).
  - destruct ls as [|l ls]; cbn.
    + split; [done|]. intros (old & rest & E & H). inversion H; subst. done.
    + rewrite andb_true_iff, IH. split.
      * intros (Hl & old & rest & -> & H). by exists (l :: old), rest; auto.
      * intros (old & rest & E & H). inversion H as [|o ? old' ? Ho Hold]; subst.
        injection E as -> ->. split; [done|]. by eexists _, _.
Qed.

Lemma occurs_spec m ls pattern k :
  occurs m ls pattern k ↔ k ≤ length ls ∧ matches_here m (drop k ls) pattern = true.
Proof.
  unfold occurs. rewrite matches_here_spec. split.
  - intros (before & old & rest & -> & <- & H). rewrite drop_app_length, length_app.
    split; [lia|]. by eexists _, _.
  - intros [Hk (old & rest & E & H)]. exists (take k ls), old, rest.
    rewrite <- E, take_drop, length_take. split_and!; [done|lia|done].
Qed.

Lemma occurs_bound m ls pattern k : occurs m ls pattern k → k + length pattern ≤ length ls.
Proof.
  intros (before & old & rest & -> & <- & H%Forall2_length). rewrite !length_app. lia.
Qed.

Lemma seek_from_spec m ls pattern i rounds :
  match seek_from m ls pattern i rounds with
  | Some k => i ≤ k < i + rounds ∧ matches_here m (drop k ls) pattern = true ∧
      ∀ j, i ≤ j < k → matches_here m (drop j ls) pattern = false
  | None => ∀ j, i ≤ j < i + rounds → matches_here m (drop j ls) pattern = false
  end.
Proof.
  revert i. induction rounds as [|rounds IH]; intros i; cbn [seek_from]; [lia|].
  destruct (matches_here m (drop i ls) pattern) eqn:E.
  - split_and!; [lia|lia|done|lia].
  - specialize (IH (S i)). destruct (seek_from m ls pattern (S i) rounds) as [k|].
    + destruct IH as ([??] & ? & Hj). split_and!; [lia|lia|done|].
      intros j ?. destruct (decide (j = i)) as [->|]; [done|apply Hj; lia].
    + intros j ?. destruct (decide (j = i)) as [->|]; [done|apply IH; lia].
Qed.

(** The same with occurrences, when the rounds reach the last position. *)
Lemma seek_from_occurs m ls pattern i :
  length pattern ≤ length ls →
  match seek_from m ls pattern i (S (length ls - length pattern) - i) with
  | Some k => i ≤ k ∧ occurs m ls pattern k ∧ ∀ j, i ≤ j → occurs m ls pattern j → k ≤ j
  | None => ∀ j, i ≤ j → ¬ occurs m ls pattern j
  end.
Proof.
  intros Hlen. pose proof (seek_from_spec m ls pattern i (S (length ls - length pattern) - i)) as H.
  destruct (seek_from _ _ _ _ _) as [k|].
  - destruct H as ([??] & Hk & Hmin). split_and!; [done|apply occurs_spec; split; [lia|done]|].
    intros j Hj Ho. destruct (decide (k ≤ j)); [done|].
    apply occurs_spec in Ho as [_ Ho]. rewrite Hmin in Ho by lia. done.
  - intros j Hj Ho. pose proof (occurs_bound _ _ _ _ Ho).
    apply occurs_spec in Ho as [_ Ho]. rewrite H in Ho by lia. done.
Qed.

(** For a pattern that is not empty, [seek_sequence] returns the strictest
    match there is from the first position searched on (exact lines before lines
    up to trailing white space, before lines up to surrounding white space), the
    earliest one of its kind, and nothing only if nothing matches. *)
Theorem seek_sequence_correct ls pattern start eof :
  pattern ≠ [] →
  let from := search_from ls pattern start eof in
  match seek_sequence ls pattern start eof with
  | Some k => ∃ m, from ≤ k ∧ occurs m ls pattern k ∧
      ∀ m' j, from ≤ j → occurs m' ls pattern j →
        laxity m ≤ laxity m' ∧ (laxity m = laxity m' → k ≤ j)
  | None => ∀ m j, from ≤ j → ¬ occurs m ls pattern j
  end.
Proof.
  intros Hne. cbv zeta. unfold seek_sequence. destruct pattern as [|p pattern]; [done|].
  set (pat := p :: pattern) in *. destruct (Nat.ltb_spec (length ls) (length pat)) as [Hlt|Hge].
  { intros m j _ Ho%occurs_bound. lia. }
  assert ((if eof && (length pat <=? length ls) then length ls - length pat else start)
    = search_from ls pat start eof) as ->.
  { unfold search_from. rewrite (proj2 (Nat.leb_le _ _)) by done. by rewrite andb_true_r. }
  set (from := search_from ls pat start eof).
  pose proof (seek_from_occurs Exact ls pat from Hge) as H0.
  pose proof (seek_from_occurs IgnoreEnd ls pat from Hge) as H1.
  pose proof (seek_from_occurs IgnoreBoth ls pat from Hge) as H2.
  destruct (seek_from Exact _ _ _ _) as [k|].
  { destruct H0 as (? & ? & Hmin). exists Exact. split_and!; [done..|].
    intros m' j Hj Ho. split; [cbn; lia|]. destruct m'; cbn; try lia. eauto. }
  destruct (seek_from IgnoreEnd _ _ _ _) as [k|].
  { destruct H1 as (? & ? & Hmin). exists IgnoreEnd. split_and!; [done..|].
    intros m' j Hj Ho. destruct m'; cbn; [by destruct (H0 j)| |lia]. eauto. }
  destruct (seek_from IgnoreBoth _ _ _ _) as [k|].
  { destruct H2 as (? & ? & Hmin). exists IgnoreBoth. split_and!; [done..|].
    intros m' j Hj Ho. destruct m'; cbn; [by destruct (H0 j)|by destruct (H1 j)|]. eauto. }
  intros [] j Hj; auto.
Qed.

Lemma seek_sequence_correct_witness :
  let ls := ["fn a() {"; "  x "; "}"; "  x"] in
  ["  x"] ≠ [] ∧ seek_sequence ls ["  x"] 0 false = Some 3 ∧
  (∀ m j, occurs m ls ["  x"] j → laxity m = 0 → 3 ≤ j).
Proof.
  split; [done|]. split; [reflexivity|].
  pose proof (seek_sequence_correct ["fn a() {"; "  x "; "}"; "  x"] ["  x"] 0 false
    ltac:(discriminate)) as H.
  cbv zeta in H. change (seek_sequence _ _ _ _) with (Some 3) in H.
  destruct H as (m & _ & _ & H). intros m' j Hj Hm.
  destruct (H m' j (Nat.le_0_l j) Hj) as [Hle Hk]. apply Hk. lia.
Defined.

(** What a result of the search is good for. *)
Lemma seek_sequence_sound ls pattern start eof k :
  start ≤ length ls → seek_sequence ls pattern start eof = Some k →
  (∃ m, occurs m ls pattern k) ∧ (eof = false → start ≤ k).
Proof.
  intros Hs. unfold seek_sequence. destruct pattern as [|p pattern].
  { intros [= <-]. split; [|done]. exists Exact. apply occurs_spec. split; [done|].
    by destruct (drop start ls). }
  set (pat := p :: pattern). destruct (Nat.ltb_spec (length ls) (length pat)) as [|Hge]; [done|].
  set (from := if _ && _ then _ else start).
  assert (eof = false → from = start) as Hfrom by (by intros ->).
  assert (∀ m, seek_from m ls pat from (S (length ls - length pat) - from) = Some k →
    (∃ m, occurs m ls pat k) ∧ (eof = false → start ≤ k)) as H.
  { intros m E. pose proof (seek_from_occurs m ls pat from Hge) as H. rewrite E in H.
    destruct H as (? & ? & _). split; [by exists m|]. intros Eof. rewrite <- (Hfrom Eof). done. }
  repeat case_match; naive_solver.
Qed.

(** ** Replacing lines *)

Lemma remove_lines_app before old rest :
  remove_lines (length before) (length old) (before ++ old ++ rest) = before ++ rest.
Proof.
  unfold remove_lines. induction old as [|l old IH]; [done|].
  rewrite length_cons, Nat.iter_succ_r. etransitivity; [|exact IH]. f_equal.
  apply (delete_middle before (old ++ rest) l).
Qed.

Lemma apply_replacement_app r before old rest :
  rp_start r = length before → rp_old_len r = length old →
  apply_replacement r (Some (before ++ old ++ rest)) = Some (before ++ rp_new r ++ rest).
Proof.
  intros Hs Hl. unfold apply_replacement. cbn. rewrite Hs, Hl, remove_lines_app.
  destruct (rp_new r) as [|n new]; [done|].
  rewrite (proj2 (Nat.leb_le _ _)) by (rewrite length_app; lia).
  by rewrite take_app_length, drop_app_length.
Qed.

(** The search positions of a chunk stay inside the file, whatever it asks for. *)
Lemma after_context_sound ls path li chunk li' :
  li ≤ length ls → after_context ls path li chunk = inl li' →
  li ≤ li' ≤ length ls ∧
  match uc_change_context chunk with
  | Some ctx => ∃ m k line, li ≤ k < li' ∧ ls !! k = Some line ∧ same_line m line ctx = true
  | None => True
  end.
Proof.
  intros Hli. unfold after_context. destruct (uc_change_context chunk) as [ctx|]; [|naive_solver lia].
  destruct (seek_sequence ls [ctx] li false) as [k|] eqn:E; [|done]. intros [= <-].
  apply seek_sequence_sound in E as [[m Ho] Hk]; [|done]. specialize (Hk eq_refl).
  pose proof (occurs_bound _ _ _ _ Ho) as Hb. cbn in Hb. split; [lia|].
  destruct Ho as (before & old & rest & -> & <- & Hf). inversion Hf as [|line ? ? ? Hl Hn]; subst.
  inversion Hn; subst. exists m, (length before), line. split_and!; [lia|lia| |done].
  by rewrite lookup_app_r, Nat.sub_diag by lia.
Qed.

(** The lines a chunk searches and the lines it puts there: as written, or both
    without a last empty line. *)
Inductive Used (chunk : UpdateFileChunk) : list string → list string → Prop :=
| Used_all : Used chunk (uc_old_lines chunk) (uc_new_lines chunk)
| Used_trimmed pattern :
    uc_old_lines chunk = pattern ++ [""] →
    Used chunk pattern (if last_is_empty (uc_new_lines chunk)
                        then take (length (uc_new_lines chunk) - 1) (uc_new_lines chunk)
                        else uc_new_lines chunk).

Lemma last_is_empty_spec l : last_is_empty l = true ↔ ∃ l', l = l' ++ [""].
Proof.
  unfold last_is_empty. destruct (last l) as [s|] eqn:E.
  - rewrite String.eqb_eq. apply last_Some in E as [l' ->]. split; [intros ->; eauto|].
    intros [l'' [_ ?]%app_inj_tail]. done.
  - apply last_None in E as ->. split; [done|]. intros [[] ?]; done.
Qed.

Lemma seek_chunk_sound ls li chunk start pattern new :
  li ≤ length ls → seek_chunk ls li chunk = Some (start, pattern, new) →
  Used chunk pattern new ∧ (∃ m, occurs m ls pattern start) ∧
  (uc_is_end_of_file chunk = false → li ≤ start).
Proof.
  intros Hli. unfold seek_chunk. cbv zeta.
  destruct (seek_sequence ls (uc_old_lines chunk) li _) as [k|] eqn:E.
  { intros [= <- <- <-]. apply seek_sequence_sound in E as []; [|done].
    split; [constructor|done]. }
  destruct (last_is_empty (uc_old_lines chunk)) eqn:El; [|done].
  destruct (seek_sequence ls (take _ _) li _) as [k|] eqn:E'; [|done].
  intros [= <- <- <-]. apply seek_sequence_sound in E' as []; [|done]. split; [|done].
  apply last_is_empty_spec in El as [l' El]. constructor.
  rewrite El, length_app. cbn. by rewrite Nat.add_sub, take_app_length.
Qed.

Lemma chunk_replacement_bounds ls path li chunk r li' :
  li ≤ length ls → chunk_replacement ls path li chunk = inl (r, li') →
  rp_start r ≤ length ls ∧ li' ≤ length ls.
Proof.
  intros Hli. unfold chunk_replacement.
  destruct (after_context ls path li chunk) as [li0|] eqn:Ec; [|done].
  apply after_context_sound in Ec as [[_ Hli0] _]; [|done].
  destruct (uc_old_lines chunk).
  - intros [= <- <-]. cbn. split; [|done]. case_match; lia.
  - destruct (seek_chunk ls li0 chunk) as [[[start pattern] new]|] eqn:Es; [|done].
    intros [= <- <-]. apply seek_chunk_sound in Es as (_ & [m Ho%occurs_bound] & _); [|done].
    cbn. lia.
Qed.

Lemma chunk_replacements_bounds ls path li chunks rs :
  li ≤ length ls → chunk_replacements ls path li chunks = inl rs →
  Forall (λ r, rp_start r ≤ length ls) rs.
Proof.
  revert li rs. induction chunks as [|chunk chunks IH]; intros li rs Hli; cbn [chunk_replacements].
  { intros [= <-]. constructor. }
  destruct (chunk_replacement ls path li chunk) as [[r li']|] eqn:E; [|done].
  destruct (chunk_replacements ls path li' chunks) as [rs'|] eqn:Ers; [|done].
  intros [= <-]. apply chunk_replacement_bounds in E as [? ?]; [|done]. eauto.
Qed.

Lemma remove_lines_length k n s l : s ≤ k → s ≤ length l → s ≤ length (remove_lines k n l).
Proof.
  intros Hk Hl. unfold remove_lines. induction n as [|n IH]; [done|]. rewrite Nat.iter_succ.
  set (l' := Nat.iter n _ l) in *. destruct (decide (k < length l')) as [Hlt|].
  - rewrite length_delete; [lia|]. by apply lookup_lt_is_Some.
  - by rewrite (delete_take_drop l' k), take_ge, drop_ge, app_nil_r by lia.
Qed.

(** Replacements in order that start inside the lines never panic. *)
Lemma apply_replacements_total ls rs s :
  s ≤ length ls → StronglySorted (λ a b, (rp_start a <=? rp_start b) = true) rs →
  Forall (λ r, s ≤ rp_start r ≤ length ls) rs →
  ∃ ls', apply_replacements ls rs = Some ls' ∧ s ≤ length ls'.
Proof.
  intros Hs Hsort. revert s Hs. induction Hsort as [|r rs _ IH Hr]; intros s Hs Hall.
  { by exists ls. }
  inversion Hall as [|?? [Hsr Hrl] Hall']; subst.
  destruct (IH (rp_start r) Hrl) as (ls' & E & Hls').
  { apply Forall_forall. intros x Hx. rewrite Forall_forall in Hr, Hall'.
    specialize (Hr x Hx). specialize (Hall' x Hx). apply Nat.leb_le in Hr. lia. }
  unfold apply_replacements in *. cbn [foldr]. rewrite E. unfold apply_replacement. cbn.
  pose proof (remove_lines_length (rp_start r) (rp_old_len r) (rp_start r) ls' ltac:(lia) Hls') as Hrem.
  destruct (rp_new r) as [|n new]; [eexists; split; [done|lia]|].
  rewrite (proj2 (Nat.leb_le _ _)) by done. eexists. split; [done|].
  rewrite length_app, length_take. lia.
Qed.

Lemma sort_replacements_sorted rs :
  StronglySorted (λ a b, (rp_start a <=? rp_start b) = true)
    (sort_by (λ a b, rp_start a <=? rp_start b) rs).
Proof.
  apply sort_by_sorted; intros *; rewrite !Nat.leb_le; lia.
Qed.

Lemma update_contents_no_panic path contents chunks :
  update_contents path contents chunks ≠ inl None.
Proof.
  unfold update_contents, compute_replacements.
  destruct (chunk_replacements _ _ _ _) as [rs|] eqn:E; [|done].
  apply chunk_replacements_bounds in E; [|lia]. set (ls := original_lines contents) in *.
  destruct (apply_replacements_total ls (sort_by (λ a b, rp_start a <=? rp_start b) rs) 0)
    as (ls' & -> & _); [lia|apply sort_replacements_sorted| |done].
  rewrite sort_by_perm. eapply Forall_impl; [done|]. cbn. lia.
Qed.

(** ** An update as a rewriting *)

(** A chunk whose place is searched from where the previous one ended. *)
Definition regular (chunk : UpdateFileChunk) : Prop :=
  uc_old_lines chunk ≠ [] ∧ uc_is_end_of_file chunk = false.

(** The context line of a chunk is among the lines before it. *)
Definition context_in (chunk : UpdateFileChunk) (before : list string) : Prop :=
  ∀ ctx, uc_change_context chunk = Some ctx →
    ∃ m line, line ∈ before ∧ same_line m line ctx = true.

(** One chunk after the other, the lines of a chunk are replaced and the lines
    between the chunks are kept. *)
Inductive Rewrites : list string → list UpdateFileChunk → list string → Prop :=
| Rewrites_nil ls : Rewrites ls [] ls
| Rewrites_chunk before old rest chunk pattern new chunks m out :
    context_in chunk before →
    Used chunk pattern new →
    Forall2 (λ line pat, same_line m line pat = true) old pattern →
    Rewrites rest chunks out →
    Rewrites (before ++ old ++ rest) (chunk :: chunks) (before ++ new ++ out).

(** The replacement of a regular chunk, seen from the place of the search. *)
Lemma chunk_replacement_regular ls path li chunk r li' :
  regular chunk → li ≤ length ls → chunk_replacement ls path li chunk = inl (r, li') →
  ∃ before old pattern m,
    drop li ls = before ++ old ++ drop li' ls ∧
    rp_start r = li + length before ∧ rp_old_len r = length old ∧
    li' = li + length before + length old ∧ li' ≤ length ls ∧
    context_in chunk before ∧ Used chunk pattern (rp_new r) ∧
    Forall2 (λ line pat, same_line m line pat = true) old pattern.
Proof.
  intros [Hne Heof] Hli. unfold chunk_replacement.
  destruct (after_context ls path li chunk) as [li0|] eqn:Ec; [|done].
  apply after_context_sound in Ec as [Hli0 Hctx]; [|done].
  destruct (uc_old_lines chunk) eqn:Eo; [done|].
  destruct (seek_chunk ls li0 chunk) as [[[start pattern] new]|] eqn:Es; [|done].
  intros [= <- <-]. apply seek_chunk_sound in Es as (Hu & [m Ho] & Hstart); [|lia].
  specialize (Hstart Heof). pose proof (occurs_bound _ _ _ _ Ho) as Hb.
  destruct Ho as (pre & old & rest & -> & <- & Hf). pose proof (Forall2_length _ _ _ Hf) as Hlen.
  exists (drop li pre), old, pattern, m. cbn. rewrite length_drop.
  split_and!; try done; try lia.
  - rewrite drop_app_le by lia. do 2 f_equal. rewrite <- Hlen, app_assoc, <- length_app.
    by rewrite drop_app_length.
  - intros ctx Ectx. rewrite Ectx in Hctx. destruct Hctx as (m' & k & line & Hk & Hline & Hsame).
    exists m', line. split; [|done]. rewrite lookup_app_l in Hline by lia.
    apply list_elem_of_lookup. exists (k - li). rewrite lookup_drop.
    by replace (li + (k - li)) with k by lia.
Qed.

Lemma chunk_replacements_rewrites ls path li chunks rs :
  Forall regular chunks → li ≤ length ls → chunk_replacements ls path li chunks = inl rs →
  Forall (λ r, li ≤ rp_start r) rs ∧
  StronglySorted (λ a b, (rp_start a <=? rp_start b) = true) rs ∧
  ∃ out, Rewrites (drop li ls) chunks out ∧
    apply_replacements ls rs = Some (take li ls ++ out).
Proof.
  intros Hreg. revert li rs.
  induction Hreg as [|chunk chunks Hchunk _ IH]; intros li rs Hli; cbn [chunk_replacements].
  { intros [= <-]. split_and!; [constructor..|]. exists (drop li ls).
    split; [constructor|]. by rewrite take_drop. }
  destruct (chunk_replacement ls path li chunk) as [[r li']|] eqn:E; [|done].
  destruct (chunk_replacements ls path li' chunks) as [rs'|] eqn:Ers; [|done]. intros [= <-].
  apply chunk_replacement_regular in E
    as (before & old & pattern & m & Ed & Es & El & Eli & Hli' & Hctx & Hu & Hf); [|done..].
  destruct (IH li' rs' Hli' Ers) as (Hle & Hsort & out & Hrw & Happ). split_and!.
  - constructor; [lia|]. eapply Forall_impl; [exact Hle|]. cbn. lia.
  - constructor; [done|]. eapply Forall_impl; [exact Hle|]. cbn. intros. apply Nat.leb_le. lia.
  - exists (before ++ rp_new r ++ out). split; [rewrite Ed; by econstructor|].
    unfold apply_replacements in *. cbn [foldr]. rewrite Happ.
    assert (take li' ls = take li ls ++ before ++ old) as ->.
    { apply (app_inv_tail (drop li' ls)). rewrite <- !app_assoc, take_drop.
      by rewrite <- Ed, take_drop. }
    rewrite <- !app_assoc, (app_assoc (take li ls) before).
    rewrite (apply_replacement_app r (take li ls ++ before) old out); [by rewrite <- app_assoc| |done].
    rewrite length_app, length_take. lia.
Qed.

(** ** What the search of the chunks found *)

(** The place a chunk is looked for: behind its context line, which is looked
    for from [li] on. *)
Definition context_at (ls : list string) (li : nat) (chunk : UpdateFileChunk) (li0 : nat) : Prop :=
  match uc_change_context chunk with
  | None => li0 = li
  | Some ctx => ∃ m k, li ≤ k ∧ occurs m ls [ctx] k ∧ li0 = k + 1
  end.

(** Where the chunks without old lines insert: at the end, before a last line
    that is empty. *)
Definition insertion_place (ls : list string) : nat :=
  if last_is_empty ls then length ls - 1 else length ls.

(** The place of one chunk that is looked for from [li] on, and where the search
    for the next one begins. A chunk with the mark of the end of the file is at
    the end. *)
Definition Placed (ls : list string) (li : nat) (chunk : UpdateFileChunk) (r : Replacement)
    (li' : nat) : Prop :=
  ∃ li0, context_at ls li chunk li0 ∧
  if decide (uc_old_lines chunk = []) then
    r = {| rp_start := insertion_place ls; rp_old_len := 0; rp_new := uc_new_lines chunk |} ∧ li' = li0
  else ∃ m pattern,
    Used chunk pattern (rp_new r) ∧ occurs m ls pattern (rp_start r) ∧
    rp_old_len r = length pattern ∧ li' = rp_start r + length pattern ∧
    (uc_is_end_of_file chunk = false → li0 ≤ rp_start r) ∧
    (uc_is_end_of_file chunk = true → pattern ≠ [] → li' = length ls).

(** The chunks one after the other, with the places found for them. *)
Inductive Searched (ls : list string) : list UpdateFileChunk → nat → list Replacement → Prop :=
| Searched_nil : Searched ls [] 0 []
| Searched_chunk chunks li rs chunk r li' :
    Searched ls chunks li rs → Placed ls li chunk r li' →
    Searched ls (chunks ++ [chunk]) li' (rs ++ [r]).

(** What an error tells of a chunk that is looked for from [li] on: its context
    stands nowhere from there on, or behind it none of the lines it may mean do. *)
Definition Missing (ls : list string) (path : string) (li : nat) (chunk : UpdateFileChunk) (e : string)
    : Prop :=
  (∃ ctx, uc_change_context chunk = Some ctx ∧ e = failed_context ctx path ∧
     ∀ m j, li ≤ j → ¬ occurs m ls [ctx] j) ∨
  (∃ li0, context_at ls li chunk li0 ∧ e = failed_lines (uc_old_lines chunk) path ∧
     ∀ pattern new m j, Used chunk pattern new →
       search_from ls pattern li0 (uc_is_end_of_file chunk) ≤ j → ¬ occurs m ls pattern j).

(** Places in order that have no line in common, from [pos] on. *)
Fixpoint disjoint_from (pos : nat) (rs : list Replacement) : bool :=
  match rs with
  | [] => true
  | r :: rs => (pos <=? rp_start r) && disjoint_from (rp_start r + rp_old_len r) rs
  end.

(** The lines from [pos] on, with every place replaced. *)
Fixpoint spliced (pos : nat) (ls : list string) (rs : list Replacement) : list string :=
  match rs with
  | [] => drop pos ls
  | r :: rs =>
      take (rp_start r - pos) (drop pos ls) ++ rp_new r
        ++ spliced (rp_start r + rp_old_len r) ls rs
  end.

Definition in_order (rs : list Replacement) : list Replacement :=
  sort_by (λ a b, rp_start a <=? rp_start b) rs.

Lemma after_context_at ls path li chunk :
  li ≤ length ls →
  match after_context ls path li chunk with
  | inl li0 => context_at ls li chunk li0 ∧ li0 ≤ length ls
  | inr e => ∃ ctx, uc_change_context chunk = Some ctx ∧ e = failed_context ctx path ∧
      ∀ m j, li ≤ j → ¬ occurs m ls [ctx] j
  end.
Proof.
  intros Hli. unfold after_context, context_at. destruct (uc_change_context chunk) as [ctx|]; [|done].
  pose proof (seek_sequence_correct ls [ctx] li false ltac:(done)) as Hs. cbv zeta in Hs.
  destruct (seek_sequence ls [ctx] li false) as [k|].
  - destruct Hs as (m & Hk & Ho & _). pose proof (occurs_bound _ _ _ _ Ho) as Hb. cbn in Hb.
    split; [|lia]. by exists m, k.
  - by exists ctx.
Qed.

(** A place found at the end is the end. *)
Lemma seek_sequence_eof ls pattern start k :
  pattern ≠ [] → seek_sequence ls pattern start true = Some k → k + length pattern = length ls.
Proof.
  intros Hne E. pose proof (seek_sequence_correct ls pattern start true Hne) as Hs. cbv zeta in Hs.
  rewrite E in Hs. destruct Hs as (m & Hk & Ho & _). apply occurs_bound in Ho.
  unfold search_from in Hk. lia.
Qed.

Lemma chunk_replacement_found ls path li chunk :
  li ≤ length ls →
  match chunk_replacement ls path li chunk with
  | inl (r, li') => Placed ls li chunk r li'
  | inr e => Missing ls path li chunk e
  end.
Proof.
  intros Hli. unfold chunk_replacement. pose proof (after_context_at ls path li chunk Hli) as Hc.
  destruct (after_context ls path li chunk) as [li0|e]; [|by left]. destruct Hc as [Hc Hli0].
  destruct (uc_old_lines chunk) as [|old olds] eqn:Eo.
  { exists li0. by rewrite decide_True. }
  rewrite <- Eo. assert (uc_old_lines chunk ≠ []) as Hne by (by rewrite Eo). clear Eo old olds.
  destruct (seek_chunk ls li0 chunk) as [[[start pattern] new]|] eqn:Es.
  - exists li0. split; [done|]. rewrite decide_False by done.
    pose proof Es as Es'. apply seek_chunk_sound in Es' as (Hu & [m Hocc] & Hstart); [|done].
    exists m, pattern. cbn. split_and!; try done. intros Heof Hp.
    unfold seek_chunk in Es. rewrite Heof in Es. cbv zeta in Es.
    destruct (seek_sequence ls (uc_old_lines chunk) li0 true) eqn:E1.
    { injection Es as <- <- _. by eapply seek_sequence_eof. }
    destruct (last_is_empty _); [|done]. destruct (seek_sequence ls (take _ _) li0 true) eqn:E2; [|done].
    injection Es as <- <- _. by eapply seek_sequence_eof.
  - right. exists li0. split_and!; [done..|]. intros pattern new m j Hu Hj.
    assert (seek_sequence ls pattern li0 (uc_is_end_of_file chunk) = None) as En.
    { unfold seek_chunk in Es. cbv zeta in Es. destruct (seek_sequence ls (uc_old_lines chunk) _ _) eqn:E1;
        [done|]. destruct Hu as [|pattern Ep]; [done|].
      rewrite (proj2 (last_is_empty_spec _)) in Es by eauto. rewrite Ep, length_app in Es. cbn in Es.
      rewrite Nat.add_sub, take_app_length in Es. by destruct (seek_sequence ls pattern _ _). }
    assert (pattern ≠ []) as Hp by (by intros ->).
    pose proof (seek_sequence_correct ls pattern li0 (uc_is_end_of_file chunk) Hp) as Hs.
    cbv zeta in Hs. rewrite En in Hs. by apply Hs.
Qed.

Lemma chunk_replacements_found ls path before li rs chunks :
  li ≤ length ls → Searched ls before li rs →
  match chunk_replacements ls path li chunks with
  | inl more => ∃ li', Searched ls (before ++ chunks) li' (rs ++ more)
  | inr e => ∃ mid chunk after li' rs', chunks = mid ++ chunk :: after ∧
      Searched ls (before ++ mid) li' rs' ∧ Missing ls path li' chunk e
  end.
Proof.
  revert before li rs. induction chunks as [|chunk chunks IH]; intros before li rs Hli Hs;
    cbn [chunk_replacements].
  { exists li. by rewrite !app_nil_r. }
  pose proof (chunk_replacement_found ls path li chunk Hli) as Hf.
  destruct (chunk_replacement ls path li chunk) as [[r li']|e] eqn:E.
  2: { exists [], chunk, chunks, li, rs. by rewrite app_nil_r. }
  apply chunk_replacement_bounds in E as [_ Hli']; [|done].
  specialize (IH (before ++ [chunk]) li' (rs ++ [r]) Hli' (Searched_chunk _ _ _ _ _ _ _ Hs Hf)).
  destruct (chunk_replacements ls path li' chunks) as [more|e].
  - destruct IH as [li2 IH]. exists li2. by rewrite <- !app_assoc in IH.
  - destruct IH as (mid & chunk' & after & li2 & rs' & -> & Hs' & Hm).
    exists (chunk :: mid), chunk', after, li2, rs'. by rewrite <- app_assoc in Hs'.
Qed.

Lemma Searched_bounds ls chunks li rs :
  Searched ls chunks li rs → Forall (λ r, rp_start r + rp_old_len r ≤ length ls) rs.
Proof.
  induction 1 as [|chunks li rs chunk r li' _ IH (li0 & _ & Hr)]; [constructor|].
  apply Forall_app. split; [done|]. constructor; [|constructor].
  destruct (decide (uc_old_lines chunk = [])).
  - destruct Hr as [-> _]. cbn. unfold insertion_place. case_match; lia.
  - destruct Hr as (m & pattern & _ & Ho%occurs_bound & -> & _). done.
Qed.

(** Replacements that have no line in common are made side by side. *)
Lemma apply_replacements_spliced ls rs pos :
  pos ≤ length ls → disjoint_from pos rs = true →
  Forall (λ r, rp_start r + rp_old_len r ≤ length ls) rs →
  apply_replacements ls rs = Some (take pos ls ++ spliced pos ls rs).
Proof.
  revert pos. induction rs as [|r rs IH]; intros pos Hpos Hd Hb; cbn [disjoint_from spliced] in *.
  { by rewrite take_drop. }
  apply andb_true_iff in Hd as [Hle%Nat.leb_le Hd]. inversion_clear Hb as [|?? Hr Hb'].
  unfold apply_replacements in *. cbn [foldr]. rewrite (IH _ Hr Hd Hb').
  set (a := rp_start r) in *. set (n := rp_old_len r) in *.
  assert (take (a + n) ls = take a ls ++ take n (drop a ls)) as ->
    by (rewrite take_take_drop; done).
  rewrite <- app_assoc.
  rewrite (apply_replacement_app r (take a ls) (take n (drop a ls))).
  - assert (take a ls = take pos ls ++ take (a - pos) (drop pos ls)) as ->.
    { rewrite take_take_drop. f_equal. lia. }
    by rewrite <- app_assoc.
  - rewrite length_take. lia.
  - rewrite length_take, length_drop. lia.
Qed.


(** A chunk tied to the end of the file does not look where the chunk before it
    ended: its replacement overwrites the earlier one. *)
Example eof_chunk_overwrites :
  update_contents "f" ("a" +:+ nl)
    [{| uc_change_context := None; uc_old_lines := ["a"]; uc_new_lines := ["b"];
        uc_is_end_of_file := false |};
     {| uc_change_context := None; uc_old_lines := ["a"]; uc_new_lines := ["c"];
        uc_is_end_of_file := true |}] = inl (Some ("b" +:+ nl)).
Proof. reflexivity. Qed.
