(* ===== verification/ApplyPatchParse.v ===== *)
(** * Properties of the parser of [apply_patch]

    The loops of the parser always come to their end within the rounds the
    model gives them; and a patch written out from its hunks is parsed back to
    these hunks. *)

From S2P Require Import Prelude Utf8 Text FileTools ApplyPatch.
Open Scope nat_scope.

#[local] Arguments String.append !_ _ / : simpl nomatch.

(** ** The loops of the parser *)

(** The [while] loop over the chunks of an update, without a bound on its
    rounds: it ends when a round breaks. *)
Inductive ChunkLoop : bool → list string → list UpdateFileChunk → list string → Prop :=
| ChunkLoop_break is_first ls :
    parse_chunk is_first ls = None → ChunkLoop is_first ls [] ls
| ChunkLoop_round is_first ls chunks is_first' ls' more rest :
    parse_chunk is_first ls = Some (chunks, is_first', ls') →
    ChunkLoop is_first' ls' more rest →
    ChunkLoop is_first ls (chunks ++ more) rest.

(** The main loop; an error ends it too. *)
Inductive DirectiveLoop : list string → list PatchHunk + string → Prop :=
| DirectiveLoop_error ls e : parse_directive ls = inr e → DirectiveLoop ls (inr e)
| DirectiveLoop_end ls : parse_directive ls = inl None → DirectiveLoop ls (inl [])
| DirectiveLoop_round ls hunks ls' r :
    parse_directive ls = inl (Some (hunks, ls')) → DirectiveLoop ls' r →
    DirectiveLoop ls (match r with inl more => inl (hunks ++ more) | inr e => inr e end).

Lemma parse_added_length contents ls : length (parse_added contents ls).2 ≤ length ls.
Proof.
  revert contents. induction ls as [|l ls IH]; intros contents; cbn [parse_added length]; [done|].
  destruct (starts_with _ l); [done|].
  destruct (strip_prefix _ l) as [added|]; (etransitivity; [apply IH|lia]).
Qed.

Lemma parse_diff_lines_length d ls : length (parse_diff_lines d ls).2 ≤ length ls.
Proof.
  revert d. induction ls as [|l ls IH]; intros d; cbn [parse_diff_lines length]; [done|].
  destruct (l =s "*** End of File"); [cbn; lia|]. destruct (_ || _); [done|].
  destruct (strip_prefix " " l) as [?|]; [etransitivity; [apply IH|lia]|].
  destruct (strip_prefix "+" l) as [?|]; [etransitivity; [apply IH|lia]|].
  destruct (strip_prefix "-" l) as [?|]; [etransitivity; [apply IH|lia]|].
  destruct (l =s ""); [etransitivity; [apply IH|lia]|].
  destruct (dl_had d); [done|]. etransitivity; [apply IH|lia].
Qed.

(** A round takes a line, except that the first chunk needs none. *)
Definition chunk_measure (is_first : bool) (ls : list string) : nat :=
  length ls + if is_first then 1 else 0.

Lemma parse_chunk_decreases is_first ls chunks is_first' ls' :
  parse_chunk is_first ls = Some (chunks, is_first', ls') →
  chunk_measure is_first' ls' < chunk_measure is_first ls ∧ length ls' ≤ length ls.
Proof.
  unfold parse_chunk, chunk_measure. destruct ls as [|l ls]; [done|].
  generalize (trim_end l) as current. intros current.
  destruct (starts_with _ _ && _); [done|].
  destruct (skippable current); [intros [= <- <- <-]; cbn; lia|].
  destruct (parse_chunk_header _ _ _) as [[ctx rest]|] eqn:E; [|done].
  pose proof (parse_diff_lines_length diff_none rest) as Hl.
  destruct (parse_diff_lines diff_none rest) as [[d eof] left]. intros [= <- <- <-].
  unfold parse_chunk_header in E. cbn [tail length] in *.
  destruct (current =s "@@"); [injection E as <- <-; cbn in *; lia|].
  destruct (strip_prefix "@@ " current); [injection E as <- <-; cbn in *; lia|].
  destruct is_first; [|done]. injection E as <- <-. cbn in *. lia.
Qed.

Lemma parse_chunks_loop rounds is_first ls :
  chunk_measure is_first ls < rounds →
  ChunkLoop is_first ls (parse_chunks rounds is_first ls).1 (parse_chunks rounds is_first ls).2.
Proof.
  revert is_first ls. induction rounds as [|rounds IH]; intros is_first ls Hr; [lia|]. cbn.
  destruct (parse_chunk is_first ls) as [[[chunks is_first'] ls']|] eqn:E; [|by constructor].
  pose proof (parse_chunk_decreases _ _ _ _ _ E) as [Hd _]. specialize (IH is_first' ls' ltac:(lia)).
  destruct (parse_chunks rounds is_first' ls'). by econstructor.
Qed.

Lemma ChunkLoop_length is_first ls chunks rest :
  ChunkLoop is_first ls chunks rest → length rest ≤ length ls.
Proof.
  induction 1 as [|is_first ls chunks is_first' ls' more rest E _ IH]; [done|].
  apply parse_chunk_decreases in E. lia.
Qed.

Lemma parse_chunks_length rounds is_first ls :
  length (parse_chunks rounds is_first ls).2 ≤ length ls.
Proof.
  revert is_first ls. induction rounds as [|rounds IH]; intros is_first ls; [done|]. cbn.
  destruct (parse_chunk is_first ls) as [[[chunks is_first'] ls']|] eqn:E; [|done].
  apply parse_chunk_decreases in E as [_ E]. specialize (IH is_first' ls').
  destruct (parse_chunks rounds is_first' ls'). cbn in *. lia.
Qed.

Lemma parse_directive_decreases ls hunks ls' :
  parse_directive ls = inl (Some (hunks, ls')) → length ls' < length ls.
Proof.
  unfold parse_directive. destruct ls as [|l ls]; [done|]. destruct (_ =s _); [done|].
  destruct (strip_prefix "*** Add File: " _).
  { pose proof (parse_added_length "" ls). destruct (parse_added "" ls).
    intros [= <- <-]. cbn in *. lia. }
  destruct (strip_prefix "*** Delete File: " _); [intros [= <- <-]; cbn; lia|].
  destruct (strip_prefix "*** Update File: " _); [|intros [= <- <-]; cbn; lia].
  destruct (parse_move ls) as [move_to rest] eqn:Em.
  assert (length rest ≤ length ls) as Hm.
  { unfold parse_move in Em. repeat case_match; simplify_eq/=; lia. }
  pose proof (parse_chunks_length (chunk_rounds rest) true rest).
  destruct (parse_chunks _ _ _) as [[|] rest']; [done|]. intros [= <- <-]. cbn in *. lia.
Qed.

(** Both loops of the parser terminate within the rounds they are given: what
    the model returns is what the loops of the code return, whatever lines they
    are started on, and the number of rounds is at most two more than there are
    lines. *)
Theorem parser_loops_terminate ls :
  (∀ is_first, ChunkLoop is_first ls (parse_chunks (chunk_rounds ls) is_first ls).1
                                     (parse_chunks (chunk_rounds ls) is_first ls).2) ∧
  DirectiveLoop ls (parse_directives (length ls) ls).
Proof.
  split.
  { intros is_first. apply parse_chunks_loop. unfold chunk_measure, chunk_rounds.
    destruct is_first; lia. }
  enough (∀ n, length ls ≤ n → DirectiveLoop ls (parse_directives n ls)) by auto.
  intros n. revert ls. induction n as [|n IH]; intros ls Hn.
  { destruct ls; [|cbn in Hn; lia]. by apply DirectiveLoop_end. }
  cbn [parse_directives]. destruct (parse_directive ls) as [[[hunks ls']|]|e] eqn:E.
  - pose proof (parse_directive_decreases _ _ _ E).
    eapply DirectiveLoop_round; [exact E|]. apply IH. lia.
  - by constructor.
  - by constructor.
Qed.

(** ** Writing a patch *)

(** A line of a chunk. *)
Inductive DiffLine := Kept (text : string) | Deleted (text : string) | Added (text : string).

Record ChunkText := {
  ct_context : option string;
  ct_lines : list DiffLine;
  ct_is_end_of_file : bool;
}.

Inductive HunkText :=
| AddText (path : string) (added : list string)
| DeleteText (path : string)
| UpdateText (path : string) (move_to : option string) (chunks : list ChunkText).

Definition render_line (l : DiffLine) : string :=
  match l with Kept s => " " +:+ s | Deleted s => "-" +:+ s | Added s => "+" +:+ s end.

Definition render_chunk (c : ChunkText) : list string :=
  match ct_context c with Some ctx => "@@ " +:+ ctx | None => "@@" end
  :: (render_line <$> ct_lines c)
  ++ if ct_is_end_of_file c then ["*** End of File"] else [].

Definition render_hunk (h : HunkText) : list string :=
  match h with
  | AddText path added => ("*** Add File: " +:+ path) :: (String.append "+" <$> added)
  | DeleteText path => ["*** Delete File: " +:+ path]
  | UpdateText path move_to chunks =>
      ("*** Update File: " +:+ path)
      :: match move_to with Some dest => ["*** Move to: " +:+ dest] | None => [] end
      ++ concat (render_chunk <$> chunks)
  end.

Definition render_patch (hs : list HunkText) : list string :=
  "*** Begin Patch" :: concat (render_hunk <$> hs) ++ ["*** End Patch"].

(** What a chunk and a hunk stand for. *)
Definition old_line (l : DiffLine) : option string :=
  match l with Kept s | Deleted s => Some s | Added _ => None end.
Definition new_line (l : DiffLine) : option string :=
  match l with Kept s | Added s => Some s | Deleted _ => None end.

Definition chunk_of (c : ChunkText) : UpdateFileChunk :=
  {| uc_change_context := ct_context c; uc_old_lines := omap old_line (ct_lines c);
     uc_new_lines := omap new_line (ct_lines c); uc_is_end_of_file := ct_is_end_of_file c |}.

Definition hunk_of (h : HunkText) : PatchHunk :=
  match h with
  | AddText path added => AddFile path (unlines added)
  | DeleteText path => DeleteFile path
  | UpdateText path move_to chunks => UpdateFile path move_to (chunk_of <$> chunks)
  end.

(** ** What can be written

    Texts hold one line each; a path and a context are not empty, begin at a
    character, and have no white space where the parser trims. *)

Definition line_text (l : DiffLine) : string :=
  match l with Kept s | Deleted s | Added s => s end.

Definition ends_clean (s : string) : Prop :=
  s ≠ "" ∧ starts_char s = true ∧ plain_line s ∧ trim_end s = s.
Definition clean (s : string) : Prop := ends_clean s ∧ trim s = s.

Definition chunk_ok (c : ChunkText) : Prop :=
  Forall (λ l, plain_line (line_text l)) (ct_lines c) ∧
  (∀ ctx, ct_context c = Some ctx → ends_clean ctx) ∧
  (ct_lines c = [] → ct_context c ≠ None).

Definition hunk_ok (h : HunkText) : Prop :=
  match h with
  | AddText path added => clean path ∧ Forall plain_line added
  | DeleteText path => clean path
  | UpdateText path move_to chunks =>
      clean path ∧ (∀ dest, move_to = Some dest → clean dest) ∧
      chunks ≠ [] ∧ Forall chunk_ok chunks
  end.

(** ** Trimming behind a prefix *)

Lemma trim_end_last s l c : trim_end s = s → chars s = l ++ [c] → is_whitespace c = false.
Proof.
  intros E Hc. apply (drop_while_end_last is_whitespace (chars s) c l).
  by rewrite <- chars_trim_end, E.
Qed.

Lemma chars_app_last s t :
  starts_char t = true → t ≠ "" → trim_end t = t →
  ∃ l c, chars (s +:+ t) = l ++ [c] ∧ is_whitespace c = false.
Proof.
  intros Hs Hne Ht. rewrite chars_app by done.
  destruct (exists_last (l := chars t)) as (l & c & E); [by rewrite chars_nil|].
  exists (chars s ++ l), c. rewrite E, app_assoc. split; [done|]. by eapply trim_end_last.
Qed.

Lemma trim_end_behind s t : ends_clean t → trim_end (s +:+ t) = s +:+ t.
Proof.
  intros (Hne & Hs & _ & Ht). destruct (chars_app_last s t Hs Hne Ht) as (l & c & E & Hc).
  apply chars_inj. rewrite chars_trim_end, E. by apply drop_while_end_id.
Qed.

Lemma trim_behind s t c l :
  chars s = c :: l → is_whitespace c = false → ends_clean t → trim (s +:+ t) = s +:+ t.
Proof.
  intros Es Hc (Hne & Hs & _ & Ht). apply trim_id. split.
  - intros c' l'. rewrite chars_app, Es by done. by intros [= <- _].
  - intros c' l' E. destruct (chars_app_last s t Hs Hne Ht) as (l'' & d & E' & Hd).
    rewrite E' in E. by apply app_inj_tail in E as [_ <-].
Qed.

(** The line of a directive, as the parser reads it. *)
Lemma directive_line s t :
  head (chars s) = Some "*" → ends_clean t →
  trim_end (s +:+ t) = s +:+ t ∧ trim (s +:+ t) = s +:+ t.
Proof.
  intros Hs Ht. destruct (chars s) as [|c l] eqn:E; [done|]. injection Hs as ->.
  split; [by apply trim_end_behind|]. by eapply trim_behind.
Qed.

(** ** Reading the parts back *)

(** A line that ends what is being read. *)
Definition directive (l : string) : Prop :=
  starts_with "*** " l = true ∧ starts_with "*** " (trim_end l) = true ∧
  trim_end l ≠ "*** End of File".

Definition stops (rest : list string) : Prop := ∃ l rest', rest = l :: rest' ∧ directive l.

Lemma parse_added_render contents added rest :
  stops rest → parse_added contents ((String.append "+" <$> added) ++ rest)
               = (contents +:+ unlines added, rest).
Proof.
  intros (l & rest' & -> & Hl & _). revert contents.
  induction added as [|a added IH]; intros contents.
  - cbn [fmap list_fmap app parse_added]. rewrite Hl. by rewrite str_app_nil_r.
  - rewrite fmap_cons. cbn [app parse_added]. rewrite strip_prefix_app.
    change (starts_with "*** " ("+" +:+ a)) with false. cbn iota.
    by rewrite IH, unlines_cons, !str_app_assoc.
Qed.

(** A line after which a chunk ends, without being part of it. *)
Definition ends_chunk (rest : list string) : Prop :=
  ∃ l rest', rest = l :: rest' ∧ (l =s "*** End of File") = false ∧
    (starts_with "*** " l || starts_with "@@" l) = true.

Definition diff_step (l : DiffLine) : DiffLines → DiffLines :=
  match l with Kept s => diff_both s | Deleted s => diff_old s | Added s => diff_new s end.

Lemma parse_diff_lines_step d l rest :
  parse_diff_lines d (render_line l :: rest) = parse_diff_lines (diff_step l d) rest.
Proof. by destruct l. Qed.

Lemma parse_diff_lines_render d ls (eof : bool) rest :
  ends_chunk rest →
  parse_diff_lines d ((render_line <$> ls) ++ (if eof then ["*** End of File"] else []) ++ rest)
  = ({| dl_old := dl_old d ++ omap old_line ls; dl_new := dl_new d ++ omap new_line ls;
        dl_had := dl_had d || bool_decide (ls ≠ []) |}, eof, rest).
Proof.
  intros (l & rest' & -> & Heof & Hl). revert d. induction ls as [|x ls IH]; intros d.
  - cbn [fmap list_fmap app omap list_omap]. rewrite !app_nil_r, orb_false_r.
    destruct d as [old new had]. destruct eof; cbn [app parse_diff_lines]; [done|].
    by rewrite Heof, Hl.
  - rewrite fmap_cons. cbn [app]. rewrite parse_diff_lines_step, IH.
    destruct x; cbn; rewrite <- ?app_assoc, orb_true_r; done.
Qed.

Lemma parse_chunk_render c is_first rest :
  chunk_ok c → ends_chunk rest →
  parse_chunk is_first (render_chunk c ++ rest) = Some ([chunk_of c], false, rest).
Proof.
  intros (_ & Hctx & Hne) Hrest. unfold render_chunk. rewrite <- app_comm_cons, <- app_assoc.
  set (header := match ct_context c with Some _ => _ | None => _ end).
  assert (trim_end header = header) as Htrim.
  { subst header. destruct (ct_context c); [apply trim_end_behind; auto|done]. }
  assert (starts_with "*** " header = false) as Hstar by (subst header; by destruct (ct_context c)).
  assert (skippable header = false) as Hskip.
  { subst header. unfold skippable. destruct (ct_context c) as [ctx|]; [|done].
    erewrite trim_behind; [|done|done|auto]. done. }
  unfold parse_chunk. rewrite Htrim, Hstar, Hskip. cbn [andb].
  assert (∀ ls, parse_chunk_header is_first header (header :: ls) = Some (ct_context c, ls)) as Hh.
  { intros ls. unfold parse_chunk_header. subst header. destruct (ct_context c) as [ctx|] eqn:E; [|done].
    destruct (Hctx ctx eq_refl) as (Hnil & _). destruct ctx; done. }
  rewrite Hh, parse_diff_lines_render by done. cbn. unfold chunk_of. destruct (ct_lines c).
  - destruct (ct_context c); [done|]. by destruct Hne.
  - done.
Qed.

(** The chunks of an update, up to the directive after them. *)
Lemma stops_ends_chunk rest : stops rest → ends_chunk rest.
Proof.
  intros (l & rest' & -> & Hl & _ & Hne). exists l, rest'. split_and!; [done| |by rewrite Hl].
  apply String.eqb_neq. intros ->. by destruct Hne.
Qed.

Lemma render_chunks_ends cs rest : stops rest → ends_chunk (concat (render_chunk <$> cs) ++ rest).
Proof.
  intros Hr. destruct cs as [|c cs]; [by apply stops_ends_chunk|].
  rewrite fmap_cons. cbn [concat]. unfold render_chunk at 1. rewrite <- !app_comm_cons.
  eexists _, _. split; [done|]. by destruct (ct_context c).
Qed.

Lemma parse_chunks_render rounds cs is_first rest :
  Forall chunk_ok cs → stops rest → length cs < rounds →
  parse_chunks rounds is_first (concat (render_chunk <$> cs) ++ rest) = (chunk_of <$> cs, rest).
Proof.
  intros Hok Hrest. revert rounds is_first.
  induction Hok as [|c cs Hc _ IH]; intros rounds is_first Hr;
    (destruct rounds as [|rounds]; [cbn in Hr; lia|]).
  - destruct Hrest as (l & rest' & -> & _ & Hl & Hne). cbn [fmap list_fmap concat app parse_chunks].
    unfold parse_chunk. rewrite Hl. by rewrite (proj2 (String.eqb_neq _ _)).
  - rewrite fmap_cons. cbn [concat parse_chunks]. rewrite <- app_assoc.
    rewrite parse_chunk_render by (done || by apply render_chunks_ends).
    cbn in Hr. by rewrite IH by lia.
Qed.

(** ** Reading hunks and patches back *)

Lemma clean_trim s : clean s → trim s = s.
Proof. by intros []. Qed.

Lemma clean_ends s : clean s → ends_clean s.
Proof. by intros []. Qed.

Lemma directive_render s t :
  head (chars s) = Some "*" → (∀ u, starts_with "*** " (s +:+ u) = true) →
  (∀ u, s +:+ u ≠ "*** End of File") → ends_clean t → directive (s +:+ t).
Proof.
  intros Hs Hstar Hne Ht. destruct (directive_line s t Hs Ht) as [E _]. unfold directive.
  by rewrite E.
Qed.

Lemma render_hunk_stops h rest : hunk_ok h → stops (render_hunk h ++ rest).
Proof.
  intros Hok. destruct h as [path added|path|path move_to chunks]; cbn [render_hunk hunk_ok app] in *;
    (eexists _, _; split; [done|]); apply directive_render; try done; apply clean_ends; tauto.
Qed.

Lemma parse_move_render move_to rest :
  (∀ dest, move_to = Some dest → clean dest) →
  (∃ l rest', rest = l :: rest' ∧ strip_prefix "*** Move to: " (trim_end l) = None) →
  parse_move (match move_to with Some dest => ["*** Move to: " +:+ dest] | None => [] end ++ rest)
  = (move_to, rest).
Proof.
  intros Hm (l & rest' & -> & Hl). unfold parse_move. destruct move_to as [dest|]; cbn [app].
  - specialize (Hm dest eq_refl). rewrite trim_end_behind by by apply clean_ends.
    rewrite strip_prefix_app. by rewrite clean_trim.
  - by rewrite Hl.
Qed.

Lemma render_chunk_not_move c rest :
  chunk_ok c → ∃ l rest', render_chunk c ++ rest = l :: rest' ∧
    strip_prefix "*** Move to: " (trim_end l) = None.
Proof.
  intros (_ & Hctx & _). unfold render_chunk. rewrite <- app_comm_cons.
  eexists _, _. split; [done|]. destruct (ct_context c) as [ctx|]; [|done].
  by rewrite trim_end_behind by auto.
Qed.

Lemma length_render_chunks cs : length cs ≤ length (concat (render_chunk <$> cs)).
Proof.
  induction cs as [|c cs IH]; [done|]. rewrite fmap_cons. cbn [concat length].
  rewrite length_app. unfold render_chunk at 1. cbn [length]. lia.
Qed.

Lemma parse_directive_render h rest :
  hunk_ok h → stops rest →
  parse_directive (render_hunk h ++ rest) = inl (Some ([hunk_of h], rest)).
Proof.
  intros Hok Hrest. destruct h as [path added|path|path move_to chunks];
    cbn [render_hunk hunk_ok app] in *; unfold parse_directive.
  - destruct Hok as [Hp _].
    destruct (directive_line "*** Add File: " path eq_refl (clean_ends _ Hp)) as [E1 E2].
    rewrite E1, E2, strip_prefix_app, parse_added_render, clean_trim by done. done.
  - destruct (directive_line "*** Delete File: " path eq_refl (clean_ends _ Hok)) as [E1 E2].
    rewrite E1, E2, (strip_prefix_app "*** Delete File: "), clean_trim by done. done.
  - destruct Hok as (Hp & Hm & Hne & Hcs).
    destruct (directive_line "*** Update File: " path eq_refl (clean_ends _ Hp)) as [E1 E2].
    rewrite E1, E2, (strip_prefix_app "*** Update File: "), clean_trim, <- app_assoc by done.
    destruct chunks as [|c cs]; [done|].
    rewrite parse_move_render; [|done|].
    2: { inversion Hcs; subst. rewrite fmap_cons. cbn [concat]. rewrite <- app_assoc.
         by apply render_chunk_not_move. }
    cbv beta iota. rewrite parse_chunks_render; [done|done|done|].
    unfold chunk_rounds. rewrite length_app. pose proof (length_render_chunks (c :: cs)). lia.
Qed.

Lemma end_patch_stops : stops ["*** End Patch"].
Proof. eexists _, _. split; [done|]. by vm_compute. Qed.

Lemma render_hunks_stop hs : Forall hunk_ok hs → stops (concat (render_hunk <$> hs) ++ ["*** End Patch"]).
Proof.
  intros Hok. destruct Hok as [|h hs Hh _]; [apply end_patch_stops|].
  rewrite fmap_cons. cbn [concat]. rewrite <- app_assoc. by apply render_hunk_stops.
Qed.

Lemma parse_directives_render hs rounds :
  Forall hunk_ok hs → length hs < rounds →
  parse_directives rounds (concat (render_hunk <$> hs) ++ ["*** End Patch"]) = inl (hunk_of <$> hs).
Proof.
  intros Hok. revert rounds. induction Hok as [|h hs Hh Hok IH]; intros rounds Hr;
    (destruct rounds as [|rounds]; [cbn in Hr; lia|]); [done|].
  rewrite fmap_cons. cbn [concat parse_directives]. rewrite <- app_assoc.
  rewrite parse_directive_render by (done || by apply render_hunks_stop).
  cbn in Hr. by rewrite IH by lia.
Qed.

(** *** Every line that is written is read as one line *)

Lemma no_newline_app s t : no_newline (s +:+ t) = no_newline s && no_newline t.
Proof. induction s as [|c s IH]; simpl; [done|]. by rewrite IH, andb_assoc. Qed.

Lemma strip_cr_app s t : t ≠ "" → strip_cr (s +:+ t) = s +:+ strip_cr t.
Proof.
  intros Ht. induction s as [|c s IH]; [done|].
  change (String c s +:+ t) with (String c (s +:+ t)).
  change (String c s +:+ strip_cr t) with (String c (s +:+ strip_cr t)).
  rewrite <- IH. cbn [strip_cr]. destruct (s +:+ t) eqn:E; [|done]. by destruct s, t.
Qed.

Lemma plain_line_app s t : plain_line s → plain_line t → plain_line (s +:+ t).
Proof.
  intros [Hs1 Hs2] [Ht1 Ht2]. split; [by rewrite no_newline_app, Hs1, Ht1|].
  destruct (String.eqb_spec t "") as [->|Hne]; [by rewrite str_app_nil_r|].
  by rewrite strip_cr_app, Ht2.
Qed.

Lemma ends_clean_plain s : ends_clean s → plain_line s.
Proof. by intros (_ & _ & ? & _). Qed.

Lemma render_chunk_plain c : chunk_ok c → Forall plain_line (render_chunk c).
Proof.
  intros (Hl & Hctx & _). unfold render_chunk. constructor.
  { destruct (ct_context c); [|done]. by apply plain_line_app; [|apply ends_clean_plain; auto]. }
  apply Forall_app. split; [|destruct (ct_is_end_of_file c); repeat constructor].
  apply Forall_fmap. eapply Forall_impl; [exact Hl|].
  intros [s|s|s] Hs; by apply plain_line_app.
Qed.

Lemma render_hunk_plain h : hunk_ok h → Forall plain_line (render_hunk h).
Proof.
  assert (∀ s t, plain_line s → clean t → plain_line (s +:+ t)) as Hp.
  { intros s t Hs Ht. apply plain_line_app; [done|]. by apply ends_clean_plain, clean_ends. }
  destruct h as [path added|path|path move_to chunks]; cbn [render_hunk hunk_ok].
  - intros [Hc Ha]. constructor; [by apply Hp|]. apply Forall_fmap.
    eapply Forall_impl; [exact Ha|]. intros s Hs. by apply (plain_line_app "+").
  - intros Hc. repeat constructor; by apply Hp.
  - intros (Hc & Hm & _ & Hcs). constructor; [by apply Hp|]. apply Forall_app. split.
    + destruct move_to; [|constructor]. constructor; [|done]. by apply Hp; auto.
    + apply Forall_concat, Forall_fmap. eapply Forall_impl; [exact Hcs|].
      apply render_chunk_plain.
Qed.

Lemma render_patch_plain hs : Forall hunk_ok hs → Forall plain_line (render_patch hs).
Proof.
  intros Hok. constructor; [done|]. apply Forall_app. split; [|by repeat constructor].
  apply Forall_concat, Forall_fmap. eapply Forall_impl; [exact Hok|]. apply render_hunk_plain.
Qed.

Lemma length_render_hunks hs : length hs ≤ length (concat (render_hunk <$> hs)).
Proof.
  induction hs as [|h hs IH]; [done|]. rewrite fmap_cons. cbn [concat length].
  rewrite length_app. destruct h; cbn [render_hunk length]; lia.
Qed.

(** C12. A patch written out from its hunks is parsed to exactly these hunks: added
    files with all their lines, deletions, and updates with their move and their
    chunks, each with its context, the lines it keeps and deletes, those it keeps
    and adds, and its end-of-file mark. *)
Theorem parse_render_patch hs :
  hs ≠ [] → Forall hunk_ok hs →
  parse_apply_patch (unlines (render_patch hs)) = inl (hunk_of <$> hs).
Proof.
  intros Hne Hok. unfold parse_apply_patch.
  rewrite lines_unlines by by apply render_patch_plain.
  change (position _ (render_patch hs)) with (Some 0). cbv beta iota zeta.
  change (drop (0 + 1) (render_patch hs)) with (concat (render_hunk <$> hs) ++ ["*** End Patch"]).
  rewrite parse_directives_render; [by destruct hs|done|].
  rewrite length_app. pose proof (length_render_hunks hs). cbn. lia.
Qed.

Lemma parse_render_patch_witness :
  parse_apply_patch (unlines
    ["*** Begin Patch"; "*** Add File: new.txt"; "+one"; "+"; "*** Update File: src/a.rs";
     "*** Move to: b.rs"; "@@ fn main() {"; " let x = 1;"; "-let y = 2;"; "+let y = 3;";
     "@@"; "+// end"; "*** End of File"; "*** Delete File: old"; "*** End Patch"])
  = inl [AddFile "new.txt" ("one" +:+ nl +:+ nl);
         UpdateFile "src/a.rs" (Some "b.rs")
           [{| uc_change_context := Some "fn main() {";
               uc_old_lines := ["let x = 1;"; "let y = 2;"];
               uc_new_lines := ["let x = 1;"; "let y = 3;"]; uc_is_end_of_file := false |};
            {| uc_change_context := None; uc_old_lines := []; uc_new_lines := ["// end"];
               uc_is_end_of_file := true |}];
         DeleteFile "old"].
Proof.
  apply (parse_render_patch
    [AddText "new.txt" ["one"; ""];
     UpdateText "src/a.rs" (Some "b.rs")
       [{| ct_context := Some "fn main() {";
           ct_lines := [Kept "let x = 1;"; Deleted "let y = 2;"; Added "let y = 3;"];
           ct_is_end_of_file := false |};
        {| ct_context := None; ct_lines := [Added "// end"]; ct_is_end_of_file := true |}];
     DeleteText "old"]); [done|].
  assert (∀ s, s ≠ "" → starts_char s = true → no_newline s = true → strip_cr s = s →
    trim_end s = s → trim s = s → clean s) as Hclean by (unfold clean, ends_clean, plain_line; tauto).
  assert (∀ s, no_newline s = true → strip_cr s = s → plain_line s) as Hplain by (by split).
  constructor; [|constructor; [|constructor; [|constructor]]]; cbn [hunk_ok].
  - split; [by apply Hclean|]. constructor; [|constructor; [|constructor]]; by apply Hplain.
  - split; [by apply Hclean|]. split; [by intros dest [= <-]; apply Hclean|]. split; [done|].
    constructor; [|constructor; [|constructor]]; (split; [|split; [|done]]).
    + constructor; [|constructor; [|constructor; [|constructor]]]; by apply Hplain.
    + intros ctx [= <-]. apply Hclean; done.
    + constructor; [|constructor]. by apply Hplain.
    + done.
  - by apply Hclean.
Defined.
