(* ===== verification/ApplyPatchExecute.v ===== *)
(** * Properties of the execution of [apply_patch]

    What a patch does to the files, for every file system with the laws of
    [FileSystemLaws]: the hunks are carried out in order, each completely or not
    at all, and only the files a hunk names can change. *)

From S2P Require Import Prelude Utf8 Text FileTools ApplyPatch ApplyPatchTheorems.
Open Scope nat_scope.

Section execution.
Context {F : Type} {HF : FileSystem F} {HL : FileSystemLaws F} {HD : LineDiff}.
Context (ctx : ToolContext).

(** The text under a path. *)
Definition text_at (w : World F) (path : string) : option string := fs_text (w_files w) path.

(** The paths a hunk names. *)
Definition hunk_paths (h : PatchHunk) : list string :=
  match h with
  | AddFile path _ | DeleteFile path => [path]
  | UpdateFile path move_to _ => path :: match move_to with Some dest => [dest] | None => [] end
  end.

Definition named (hunks : list PatchHunk) : list string :=
  resolve_path ctx <$> (hunks ≫= hunk_paths).

(** A path that has nothing to do with any of these. *)
Definition apart (ps : list string) (other : string) : Prop := Forall (λ p, ¬ one_file p other) ps.

Definition only_changes (ps : list string) (w w' : World F) : Prop :=
  ∀ other, apart ps other → text_at w' other = text_at w other.

(** What a hunk that was carried out leaves. The source of a move is removed;
    if the system does not let it go it keeps its text. *)
Definition carried_out (h : PatchHunk) (w w' : World F) : Prop :=
  match h with
  | AddFile path contents => text_at w' (resolve_path ctx path) = Some contents
  | DeleteFile path => fs_exists (w_files w') (resolve_path ctx path) = false
  | UpdateFile path move_to chunks =>
      let resolved := resolve_path ctx path in
      ∃ old new, text_at w resolved = Some old ∧
        update_contents resolved old chunks = inl (Some new) ∧
        match move_to with
        | None => text_at w' resolved = Some new
        | Some dest => ¬ one_file resolved (resolve_path ctx dest) →
            text_at w' (resolve_path ctx dest) = Some new ∧
            (fs_exists (w_files w') resolved = false
             ∨ text_at w' resolved = Some old)
        end
  end.

(** One hunk. Carried out: the paths it touched, one event for each, and a line
    that begins with a check mark. Not carried out: a line with a cross, and no
    file that differs. *)
Inductive Outcome (h : PatchHunk) (w w' : World F) : string → list string → Prop :=
| Outcome_done rest events :
    carried_out h w w' →
    only_changes (named [h]) w w' →
    w_events w' = w_events w ++ events →
    ft_path <$> events = resolve_path ctx <$> hunk_paths h →
    Outcome h w w' ("✓ " +:+ rest) (hunk_paths h)
| Outcome_failed rest :
    (∀ path, text_at w' path = text_at w path) → w_events w' = w_events w →
    Outcome h w w' ("✗ " +:+ rest) [].

Inductive Executed : list PatchHunk → World F → World F → list string → list string → Prop :=
| Executed_nil w : Executed [] w w [] []
| Executed_cons h hs w w1 w2 line touched results touched' :
    Outcome h w w1 line touched → Executed hs w1 w2 results touched' →
    Executed (h :: hs) w w2 (line :: results) (touched ++ touched').

(** The file a hunk writes: the one it adds, updates, or moves to. *)
Definition written (h : PatchHunk) : option string :=
  match h with
  | AddFile path _ => Some (resolve_path ctx path)
  | DeleteFile _ => None
  | UpdateFile path move_to _ => Some (resolve_path ctx (default path move_to))
  end.

(** A hunk in which a call of the file system failed: making the directories or
    writing the file. Nothing is announced, and only the file it was writing can
    differ. *)
Definition Interrupted (h : PatchHunk) (w w' : World F) : Prop :=
  ∃ target, written h = Some target ∧ only_changes [target] w w' ∧ w_events w' = w_events w.

(** ** Steps of an execution *)

Lemma text_create w path other : text_at (create_parent_dirs path w).1 other = text_at w other.
Proof.
  unfold text_at, create_parent_dirs, on_files.
  pose proof (fs_create_parent_text (w_files w) path other) as H.
  by destruct (fs_create_parent (w_files w) path).
Qed.

Lemma text_write_other w path text other :
  ¬ one_file path other → text_at (write_file path text w).1 other = text_at w other.
Proof.
  intros Hne. unfold text_at, write_file, on_files.
  pose proof (fs_write_other (w_files w) path text other Hne) as H.
  by destruct (fs_write (w_files w) path text).
Qed.

Lemma text_write w path text w' : write_file path text w = (w', inl ()) → text_at w' path = Some text.
Proof.
  unfold text_at, write_file, on_files.
  destruct (fs_write (w_files w) path text) as [fs r] eqn:E. intros [= <- ->].
  by eapply fs_write_read.
Qed.

Lemma text_remove_other w path other :
  ¬ one_file path other → text_at (remove_file path w).1 other = text_at w other.
Proof.
  intros Hne. unfold text_at, remove_file, on_files.
  pose proof (fs_remove_other (w_files w) path other Hne) as H.
  by destruct (fs_remove (w_files w) path).
Qed.

Lemma remove_result w path w' r : remove_file path w = (w', r) →
  match r with
  | inl () => fs_exists (w_files w') path = false
  | inr _ => ∀ other, text_at w' other = text_at w other
  end.
Proof.
  unfold remove_file, on_files, text_at.
  destruct (fs_remove (w_files w) path) as [fs r'] eqn:Er. intros [= <- <-].
  destruct r' as [[]|e]; [by eapply fs_remove_gone|]. intros other. by eapply fs_remove_error.
Qed.

(** *** What changes nothing, or only some files *)

(** The file system seen through its reads, and the events. *)
Definition same_events (w w' : World F) : Prop := w_events w' = w_events w.

Definition touches {A} (ps : list string) (m : Exec F A) : Prop :=
  ∀ w, only_changes ps w (m w).1.

Lemma touches_ret {A} ps (x : A) : touches ps (ret x).
Proof. by intros w other _. Qed.
Lemma touches_lift {A} ps (r : A + string) : touches ps (lift_result r).
Proof. by intros w other _. Qed.
Lemma touches_publish ps e : touches ps (publish e).
Proof. by intros w other _. Qed.
Lemma touches_file_touch ps resolved verb diff : touches ps (publish_file_touch ctx resolved verb diff).
Proof. apply touches_publish. Qed.
Lemma touches_read ps path : touches ps (read_to_string path).
Proof. by intros w other _. Qed.
Lemma touches_create ps path : touches ps (create_parent_dirs path).
Proof. intros w other _. apply text_create. Qed.
Lemma touches_write ps path text : path ∈ ps → touches ps (write_file path text).
Proof. intros Hp w other Ho. apply text_write_other. by eapply Forall_forall in Ho. Qed.
Lemma touches_remove ps path : path ∈ ps → touches ps (remove_file path).
Proof. intros Hp w other Ho. apply text_remove_other. by eapply Forall_forall in Ho. Qed.

Lemma touches_attempt {A} ps (m : Exec F A) : touches ps m → touches ps (attempt m).
Proof.
  intros Hm w other Ho. specialize (Hm w other Ho). unfold attempt. by destruct (m w).
Qed.

Lemma touches_bind {A B} ps (m : Exec F A) (k : A → Exec F B) :
  touches ps m → (∀ x, touches ps (k x)) → touches ps (bind m k).
Proof.
  intros Hm Hk w other Ho. specialize (Hm w other Ho). unfold bind.
  destruct (m w) as [w1 [x|e]]; [|done]. cbn in *. by rewrite Hk.
Qed.

Create HintDb touches.
#[local] Hint Resolve touches_ret touches_lift touches_publish touches_file_touch touches_read touches_create
  touches_write touches_remove touches_attempt touches_bind : touches.

Lemma touches_mono {A} ps ps' (m : Exec F A) : touches ps m → ps ⊆ ps' → touches ps' m.
Proof.
  intros Hm Hp w other Ho. apply Hm. unfold apart in *. rewrite Forall_forall in *. auto.
Qed.

Lemma execute_hunk_touches h : touches (named [h]) (execute_hunk ctx h).
Proof.
  assert (∀ path, path ∈ hunk_paths h → resolve_path ctx path ∈ named [h]) as Hin.
  { intros path Hp. unfold named. apply list_elem_of_fmap. exists path. split; [done|].
    apply list_elem_of_bind. exists h. split; [done|by left]. }
  destruct h as [path contents|path|path move_to chunks]; unfold execute_hunk; cbv zeta.
  - apply touches_bind; [auto with touches|intros _].
    apply touches_bind; [apply touches_write, Hin; set_solver|auto with touches].
  - apply touches_bind; [auto with touches|intros old].
    apply touches_bind; [apply touches_attempt, touches_remove, Hin; set_solver|].
    intros [[]|]; auto with touches.
  - apply touches_bind; [unfold apply_update_chunks; auto with touches|].
    intros [[[old new]|]|e]; [|auto with touches..]. destruct move_to as [dest|]; cbn [hunk_paths] in Hin.
    + apply touches_bind; [auto with touches|intros _].
      apply touches_bind; [apply touches_write, Hin; set_solver|intros _].
      apply touches_bind; [apply touches_attempt, touches_remove, Hin; set_solver|auto with touches].
    + apply touches_bind; [apply touches_write, Hin; set_solver|auto with touches].
Qed.

Lemma named_cons h hs : named (h :: hs) = named [h] ++ named hs.
Proof. unfold named. rewrite <- fmap_app, <- bind_app. done. Qed.

Lemma execute_hunks_touches hs results touched :
  touches (named hs) (execute_hunks ctx hs results touched).
Proof.
  revert results touched. induction hs as [|h hs IH]; intros results touched; cbn [execute_hunks].
  { auto with touches. }
  rewrite named_cons. apply touches_bind.
  - eapply touches_mono; [apply execute_hunk_touches|set_solver].
  - intros [[line more]|]; [|auto with touches]. eapply touches_mono; [apply IH|set_solver].
Qed.
(** *** What a hunk leaves *)

Lemma attempt_inv {A} (m : Exec F A) w w' r :
  attempt m w = (w', r) → ∃ x, r = inl x ∧ m w = (w', x).
Proof. unfold attempt. destruct (m w) as [w1 x]. intros [= <- <-]. by exists x. Qed.

Lemma publish_inv e w w' r :
  publish e w = (w', r) →
  w_events w' = w_events w ++ [e] ∧ (∀ path, text_at w' path = text_at w path) ∧ w_files w' = w_files w.
Proof. by intros [= <- <-]. Qed.

Lemma events_files {A} (f : F → F * (A + string)) w w' r :
  on_files f w = (w', r) → w_events w' = w_events w.
Proof. unfold on_files. destruct (f (w_files w)). by intros [= <- <-]. Qed.

Lemma events_create path w w' r :
  create_parent_dirs path w = (w', r) → w_events w' = w_events w.
Proof. apply events_files. Qed.
Lemma events_write path text w w' r :
  write_file path text w = (w', r) → w_events w' = w_events w.
Proof. apply events_files. Qed.
Lemma events_remove path w w' r : remove_file path w = (w', r) → w_events w' = w_events w.
Proof. apply events_files. Qed.

Lemma reads_apply_update path chunks w w' r :
  apply_update_chunks path chunks w = (w', r) →
  w' = w ∧ ∀ o, r = inl o → ∃ old new, text_at w path = Some old ∧
    update_contents path old chunks = inl new ∧ o = pair old <$> new.
Proof.
  unfold apply_update_chunks, bind, read_to_string, lift_result, ret.
  unfold text_at, fs_text. destruct (fs_read (w_files w) path) as [old|e]; [|by intros [= <- <-]].
  destruct (update_contents path old chunks) as [new|e] eqn:Eu; intros [= <- <-]; (split; [done|]);
    [|done]. intros o [= <-]. by exists old, new.
Qed.

Lemma report_check path message diff : ∃ rest, report path message diff = "✓ " +:+ rest.
Proof. by eexists. Qed.
(** What the execution of a hunk may return; an error is one of the file system. *)
Definition outcome_ok (h : PatchHunk) (w w' : World F)
    (r : option (string * list string) + string) : Prop :=
  match r with
  | inl None => False
  | inl (Some (line, touched)) => Outcome h w w' line touched
  | inr _ => Interrupted h w w'
  end.

(** A hunk that is cut short when its directories are made or its file written. *)
Lemma interrupted h target w w1 :
  written h = Some target → only_changes [target] w w1 → w_events w1 = w_events w →
  Interrupted h w w1.
Proof. by exists target. Qed.

Lemma create_interrupted h path w w' r :
  written h = Some path → create_parent_dirs path w = (w', r) → Interrupted h w w'.
Proof.
  intros Hw E. eapply interrupted; [done| |by apply events_create in E].
  pose proof (touches_create [path] path w) as Ht. by rewrite E in Ht.
Qed.

Lemma write_interrupted h path text w0 w w' r :
  written h = Some path → (∀ other, text_at w other = text_at w0 other) → w_events w = w_events w0 →
  write_file path text w = (w', r) → Interrupted h w0 w'.
Proof.
  intros Hw Hsame Hev E. eapply interrupted; [done| |apply events_write in E; congruence].
  pose proof (touches_write [path] path text ltac:(by left) w) as Ht. rewrite E in Ht.
  intros other Ho. rewrite <- Hsame. by apply Ht.
Qed.

Lemma execute_hunk_only h w w' r : execute_hunk ctx h w = (w', r) → only_changes (named [h]) w w'.
Proof. intros E. pose proof (execute_hunk_touches h w) as Ht. by rewrite E in Ht. Qed.

Lemma created_same path w w' r :
  create_parent_dirs path w = (w', r) → ∀ other, text_at w' other = text_at w other.
Proof. intros E other. pose proof (text_create w path other) as Ht. by rewrite E in Ht. Qed.

Lemma add_outcome path contents w w' r :
  execute_hunk ctx (AddFile path contents) w = (w', r) →
  outcome_ok (AddFile path contents) w w' r.
Proof.
  intros Hx. pose proof (execute_hunk_only _ _ _ _ Hx) as Honly. revert Hx.
  unfold execute_hunk. cbv zeta. intros Hx.
  step_in Hx; [|by eapply create_interrupted].
  step_in Hx; [|by eapply write_interrupted; [..|done]; [|eapply created_same|eapply events_create]].
  step_in Hx; [|done]. injection Hx as <- <-.
  apply events_create in E. pose proof (events_write _ _ _ _ _ E0) as Ev.
  destruct u0. apply text_write in E0. apply publish_inv in E1 as (Ep & Er & _).
  eapply (Outcome_done (AddFile path contents) w w2); [|done|by rewrite Ep, Ev, E|done].
  cbn. by rewrite Er.
Qed.

Lemma delete_outcome path w w' r :
  execute_hunk ctx (DeleteFile path) w = (w', r) → outcome_ok (DeleteFile path) w w' r.
Proof.
  intros Hx. pose proof (execute_hunk_only _ _ _ _ Hx) as Honly. revert Hx.
  unfold execute_hunk. cbv zeta. intros Hx.
  step_in Hx; [|by apply attempt_inv in E as (? & [=] & _)].
  apply attempt_inv in E as (old & _ & E).
  assert (w0 = w) as -> by (unfold read_to_string in E; congruence).
  step_in Hx; [|by apply attempt_inv in E0 as (? & [=] & _)].
  apply attempt_inv in E0 as (removed & Eo & E0).
  injection Eo as ->. pose proof (events_remove _ _ _ _ E0) as Ev. apply remove_result in E0.
  destruct removed as [[]|e].
  - step_in Hx; [|done]. injection Hx as <- <-. apply publish_inv in E1 as (Ep & _ & Ef).
    eapply (Outcome_done (DeleteFile path) w w1); [|done|by rewrite Ep, Ev|done].
    cbn. by rewrite Ef.
  - injection Hx as <- <-. by constructor.
Qed.

(** The end of a move: the source is gone, or could not be removed and holds
    what it held. *)
Lemma move_source resolved dest old new w w1 w2 removed :
  ¬ one_file resolved dest → text_at w resolved = Some old →
  write_file dest new w = (w1, inl ()) → remove_file resolved w1 = (w2, removed) →
  text_at w2 dest = Some new ∧
  (fs_exists (w_files w2) resolved = false
   ∨ text_at w2 resolved = Some old).
Proof.
  intros Hne Hold Hw Hr. split.
  - pose proof (text_remove_other w1 resolved dest Hne) as Ht. rewrite Hr in Ht. cbn in Ht.
    rewrite Ht. by eapply text_write.
  - pose proof (remove_result _ _ _ _ Hr) as Hres. destruct removed as [[]|e]; [by left|right].
    rewrite Hres, <- Hold.
    assert (¬ one_file dest resolved) as Hne' by (intros ?%one_file_sym; done).
    pose proof (text_write_other w dest new resolved Hne') as Ht. by rewrite Hw in Ht.
Qed.

Lemma update_outcome path move_to chunks w w' r :
  execute_hunk ctx (UpdateFile path move_to chunks) w = (w', r) →
  outcome_ok (UpdateFile path move_to chunks) w w' r.
Proof.
  intros Hx. pose proof (execute_hunk_only _ _ _ _ Hx) as Honly. revert Hx.
  unfold execute_hunk. cbv zeta. intros Hx.
  step_in Hx; [|by apply attempt_inv in E as (? & [=] & _)].
  apply attempt_inv in E as (res & Eo & E). injection Eo as ->.
  apply reads_apply_update in E as [-> Hres]. destruct res as [[[old new]|]|e].
  2: { destruct (Hres None eq_refl) as (old & [new|] & _ & Hu & Hn); [done|].
       by destruct (update_contents_no_panic _ _ _ Hu). }
  2: { injection Hx as <- <-. by constructor. }
  destruct (Hres _ eq_refl) as (old' & [new'|] & Hold & Hnew & Hn); [|done].
  injection Hn as <- <-. destruct move_to as [dest|].
  - step_in Hx; [|by eapply create_interrupted]. pose proof (created_same _ _ _ _ E) as Hsame.
    apply events_create in E. step_in Hx; [|by eapply write_interrupted; [..|done]].
    step_in Hx; [|by apply attempt_inv in E1 as (? & [=] & _)].
    step_in Hx; [|done]. step_in Hx; [|done]. injection Hx as <- <-.
    apply attempt_inv in E1 as (removed & _ & E1).
    pose proof (events_write _ _ _ _ _ E0) as Ev. pose proof (events_remove _ _ _ _ E1) as Ev1.
    apply publish_inv in E2 as (Ep & Er & Ef). apply publish_inv in E3 as (Ep' & Er' & Ef').
    eapply (Outcome_done (UpdateFile path (Some dest) chunks) w w4);
      [|done|by rewrite Ep', Ep, Ev1, Ev, E, <- app_assoc|done].
    exists old, new. split; [done|]. split; [done|]. intros Hne. rewrite !Er', !Er, Ef', Ef.
    destruct u0. eapply move_source; [done| |done|done]. by rewrite Hsame.
  - step_in Hx; [|by eapply write_interrupted; [..|done]]. step_in Hx; [|done]. injection Hx as <- <-.
    pose proof (events_write _ _ _ _ _ E) as Ev. destruct u. apply text_write in E.
    apply publish_inv in E0 as (Ep & Er & _).
    eapply (Outcome_done (UpdateFile path None chunks) w w1); [|done|by rewrite Ep, Ev|done].
    exists old, new. by rewrite Er.
Qed.

Lemma execute_hunk_outcome h w w' r :
  execute_hunk ctx h w = (w', r) → outcome_ok h w w' r.
Proof. destruct h; eauto using add_outcome, delete_outcome, update_outcome. Qed.

(** An execution that a failed call ends: the hunks before were executed, one
    was cut short, and those after it were not begun. *)
Definition CutShort (hs : list PatchHunk) (w w' : World F) : Prop :=
  ∃ before h after w1 results touched,
    hs = before ++ h :: after ∧ Executed before w w1 results touched ∧ Interrupted h w1 w'.

Lemma execute_hunks_outcome hs results touched w w' r :
  execute_hunks ctx hs results touched w = (w', r) →
  match r with
  | inl None => False
  | inl (Some (results', touched')) => ∃ more_results more_touched,
      results' = results ++ more_results ∧ touched' = touched ++ more_touched ∧
      Executed hs w w' more_results more_touched
  | inr _ => CutShort hs w w'
  end.
Proof.
  revert results touched w. induction hs as [|h hs IH]; intros results touched w; cbn [execute_hunks].
  { intros [= <- <-]. exists [], []. rewrite !app_nil_r. split_and!; [done..|constructor]. }
  intros Hx. step_in Hx; apply execute_hunk_outcome in E.
  2: { exists [], h, hs, w, [], []. split_and!; [done|constructor|done]. }
  destruct o as [[line more]|]; [|done]. apply IH in Hx.
  destruct r as [[[results' touched']|]|]; [|done|].
  - destruct Hx as (mr & mt & -> & -> & Hex). exists (line :: mr), (more ++ mt).
    rewrite <- !app_assoc. split_and!; [done..|]. by econstructor.
  - destruct Hx as (before & h' & after & w1 & mr & mt & -> & Hex & Hint).
    exists (h :: before), h', after, w1, (line :: mr), (more ++ mt).
    split_and!; [done| |done]. by econstructor.
Qed.
End execution.


(** The whole old text deleted and the whole new text inserted: a poor diff, but
    one. *)
#[local] Instance replace_all_lines : LineDiff :=
  λ old new, ((λ l, (ChangeDelete, l +:+ nl)) <$> lines old)
             ++ ((λ l, (ChangeInsert, l +:+ nl)) <$> lines new).


(** An update moved to the path it has: the new text is written, and then the
    file is removed. *)
Example move_to_itself_deletes :
  text_at (apply_patch_execute {| ctx_session_id := "s"; ctx_working_dir := Some "/w" |}
    (unlines ["*** Begin Patch"; "*** Update File: a"; "*** Move to: a"; "@@"; "-x"; "+y";
              "*** End Patch"])
    {| w_files := {["/w/a" := "x" +:+ nl]} : gmap string string; w_events := [] |}).1 "/w/a"
  = None.
Proof. by vm_compute. Qed.
