(* ===== verification/UnifiedPatch.v ===== *)
(** * The [patch] tool ([src/tool/patch.rs])

    The parser of unified diffs, the replacement of the lines of the hunks, and
    the execution. The summary of the changes is the one of [apply_patch], from
    the first line of the hunks on. *)

From S2P Require Import Prelude Utf8 Text FileTools ApplyPatch ApplyPatchParse.
Open Scope nat_scope.

(** ** Data *)

Record Hunk := {
  h_old_start : usize;
  h_old_lines : list string;
  h_new_lines : list string;
}.

Record FilePatch := {
  fp_path : string;
  fp_hunks : list Hunk;
  fp_is_new : bool;
  fp_is_delete : bool;
}.

(** ** Numbers and pieces *)

(** [s.split(c).next()]: the text before the first [c]. *)
Fixpoint before_char (c : Ascii.ascii) (s : string) : string :=
  match s with
  | EmptyString => ""
  | String d s => if Ascii.eqb d c then "" else String d (before_char c s)
  end.

Definition tab : Ascii.ascii := Ascii.ascii_of_nat 9.
Definition comma : Ascii.ascii := Ascii.ascii_of_nat 44.

(** The digits of a number, read from left to right. *)
Fixpoint digits_value (acc : N) (s : string) : option N :=
  match s with
  | EmptyString => Some acc
  | String d s =>
      let n := Ascii.N_of_ascii d in
      if ((48 <=? n) && (n <=? 57))%N then digits_value (acc * 10 + (n - 48)) s else None
  end.

(** [s.parse::<usize>().ok()] *)
Definition parse_usize (s : string) : option usize :=
  let digits := default s (strip_prefix "+" s) in
  if digits =s "" then None
  else match digits_value 0 digits with
       | Some v => if (v <? 2 ^ 64)%N then Some (N.to_nat v) else None
       | None => None
       end.

(** ** The parser *)

(** The start of the old range in the header of a hunk, when the header has
    three words. *)
Definition hunk_old_start (header : string) : option usize :=
  match split_whitespace header with
  | _ :: range :: _ :: _ =>
      let old_range := default range (strip_prefix "-" range) in
      Some (default 1 (parse_usize (before_char comma old_range)))
  | _ => None
  end.

(** The lines of a hunk, up to the next hunk or file. *)
Fixpoint parse_hunk_lines (old_lines new_lines : list string) (ls : list string)
    : list string * list string * list string :=
  match ls with
  | [] => (old_lines, new_lines, [])
  | line :: rest =>
      if starts_with "@@" line || starts_with "---" line then (old_lines, new_lines, ls)
      else match strip_prefix "-" line with
      | Some content => parse_hunk_lines (old_lines ++ [content]) new_lines rest
      | None =>
      match strip_prefix "+" line with
      | Some content => parse_hunk_lines old_lines (new_lines ++ [content]) rest
      | None =>
      match strip_prefix " " line with
      | Some content => parse_hunk_lines (old_lines ++ [content]) (new_lines ++ [content]) rest
      | None => parse_hunk_lines old_lines new_lines rest
      end end end
  end.

(** From the header on; the header line is always taken. *)
Definition parse_hunk (header : string) (rest : list string) : option Hunk * list string :=
  match hunk_old_start header with
  | None => (None, rest)
  | Some old_start =>
      let '(old_lines, new_lines, rest) := parse_hunk_lines [] [] rest in
      (Some {| h_old_start := old_start; h_old_lines := old_lines; h_new_lines := new_lines |}, rest)
  end.

(** The loop over the hunks of a file; every round takes a line. *)
Fixpoint parse_hunks (rounds : nat) (ls : list string) : list Hunk * list string :=
  match rounds, ls with
  | S rounds, line :: rest =>
      if starts_with "---" line then ([], ls)
      else if starts_with "@@" line then
        let (hunk, rest) := parse_hunk line rest in
        let (hunks, rest) := parse_hunks rounds rest in
        (match hunk with Some hunk => hunk :: hunks | None => hunks end, rest)
      else parse_hunks rounds rest
  | _, _ => ([], ls)
  end.

(** The file a header line names. *)
Definition header_file (prefix line : string) : string :=
  before_char tab (default "" (strip_prefix prefix line)).

Definition patch_path (old_file new_file : string) : string :=
  if new_file =s "/dev/null" then default old_file (strip_prefix "a/" old_file)
  else default new_file (strip_prefix "b/" new_file).

(** One round of the main loop: the patch it adds, if any, and the lines left. *)
Definition parse_file (line : string) (rest : list string) : option FilePatch * list string :=
  if starts_with "---" line then
    let old_file := header_file "--- " line in
    match rest with
    | [] => (None, [])
    | second :: rest' =>
        if negb (starts_with "+++" second) then (None, rest)
        else
          let new_file := header_file "+++ " second in
          let is_new := old_file =s "/dev/null" in
          let is_delete := new_file =s "/dev/null" in
          let (hunks, rest') := parse_hunks (length rest') rest' in
          (if bool_decide (hunks ≠ []) || is_new || is_delete
           then Some {| fp_path := patch_path old_file new_file; fp_hunks := hunks;
                        fp_is_new := is_new; fp_is_delete := is_delete |}
           else None, rest')
    end
  else (None, rest).

Fixpoint parse_files (rounds : nat) (ls : list string) : list FilePatch :=
  match rounds, ls with
  | S rounds, line :: rest =>
      let (patch, rest) := parse_file line rest in
      match patch with
      | Some patch => patch :: parse_files rounds rest
      | None => parse_files rounds rest
      end
  | _, _ => []
  end.

Definition parse_patch (text : string) : list FilePatch :=
  let ls := lines text in parse_files (length ls) ls.

(** ** Applying a patch *)

(** [lines.splice(start..end, new)] for one hunk: the range panics when it starts
    after the end of the file. *)
Definition apply_hunk (hunk : Hunk) (ls : option (list string)) : option (list string) :=
  ls ← ls;
  let start := h_old_start hunk - 1 in
  let end_ := (start + length (h_old_lines hunk)) `min` length ls in
  if start <=? end_ then Some (take start ls ++ h_new_lines hunk ++ drop end_ ls) else None.

(** The hunks in reverse order. *)
Definition apply_hunks (ls : list string) (hunks : list Hunk) : option (list string) :=
  foldr apply_hunk (Some ls) hunks.

(** The new text of a modified file; [None] is a panic. *)
Definition patched_contents (old_content : string) (hunks : list Hunk) : option string :=
  (λ ls, join nl ls +:+ nl) <$> apply_hunks (lines old_content) hunks.

Definition new_file_contents (hunks : list Hunk) : string :=
  str_concat ((λ l, l +:+ nl) <$> (hunks ≫= h_new_lines)).

(** [iter().map(|h| h.old_start).min().unwrap_or(1)] *)
Definition first_line (hunks : list Hunk) : usize :=
  match h_old_start <$> hunks with
  | [] => 1
  | start :: starts => foldr Nat.min start starts
  end.

Section execute.
Context {F : Type} `{FileSystem F} `{LineDiff}.

(** The message and the diff; [None] is a panic. *)
Definition apply_patch_with_diff (patch : FilePatch) (path : string)
    : Exec F (option (string * string)) :=
  exists_ <-? path_exists path;
  if fp_is_delete patch then
    if exists_ then
      old <-? attempt (read_to_string path);
      let old_content := match old with inl text => text | inr _ => "" end in
      remove_file path ;?
      ret (Some ("deleted", generate_diff_from old_content "" 1))
    else fail "file does not exist"
  else if fp_is_new patch then
    if exists_ then fail "file already exists"
    else
      create_parent_dirs path ;?
      let content := new_file_contents (fp_hunks patch) in
      write_file path content ;?
      ret (Some ("created", generate_diff_from "" content 1))
  else if negb exists_ then fail "file does not exist"
  else
    old_content <-? read_to_string path;
    match patched_contents old_content (fp_hunks patch) with
    | None => ret None
    | Some new_content =>
        write_file path new_content ;?
        ret (Some ("modified (" +:+ pretty (length (fp_hunks patch)) +:+ " hunks)",
                   generate_diff_from old_content new_content (first_line (fp_hunks patch))))
    end.

(** The line of the report for one file. *)
Definition file_report (path : string) (result : (string * string) + string) : string :=
  match result with
  | inl (msg, diff) => "✓ " +:+ path +:+ ": " +:+ msg +:+ (if diff =s "" then "" else nl +:+ diff)
  | inr e => "✗ " +:+ path +:+ ": " +:+ e
  end.

Fixpoint execute_patches (ctx : ToolContext) (patches : list FilePatch) (results : list string)
    : Exec F (option (list string)) :=
  match patches with
  | [] => ret (Some results)
  | patch :: patches =>
      result <-? attempt (apply_patch_with_diff patch (resolve_path ctx (fp_path patch)));
      match result with
      | inl None => ret None
      | inl (Some done) =>
          execute_patches ctx patches (results ++ [file_report (fp_path patch) (inl done)])
      | inr e => execute_patches ctx patches (results ++ [file_report (fp_path patch) (inr e)])
      end
  end.

Definition patch_execute (ctx : ToolContext) (patch_text : string) : Exec F (option ToolOutput) :=
  match parse_patch patch_text with
  | [] => fail "No valid patches found in input"
  | patches =>
      results <-? execute_patches ctx patches [];
      ret ((λ results, output_new (join (nl +:+ nl) results)) <$> results)
  end.
End execute.

(** * Properties of the [patch] tool

    A unified diff between two texts, written out, is parsed to its hunks; and
    the hunks turn the old text into the new one. *)

#[local] Arguments String.append !_ _ / : simpl nomatch.

(** ** Numbers *)

Lemma digit_code d : (d < 10)%N → Ascii.N_of_ascii (pretty_N_char d) = (48 + d)%N.
Proof.
  intros Hd. destruct d as [|p]; [done|]. do 4 (destruct p as [p|p|]; try done; try lia).
Qed.

Lemma digits_value_go x s : digits_value 0 (pretty_N_go x s) = digits_value x s.
Proof.
  revert s. induction (N.lt_wf_0 x) as [x _ IH]. intros s.
  destruct (decide (x = 0%N)) as [->|Hx]; [by rewrite pretty_N_go_0|].
  rewrite pretty_N_go_step by lia. rewrite IH by (apply N.div_lt; lia). cbn [digits_value].
  pose proof (N.mod_lt x 10 ltac:(lia)) as Hd.
  rewrite digit_code by done.
  pose proof (N.div_mod x 10 ltac:(lia)) as Hx'. revert Hd Hx'.
  generalize (x mod 10)%N (x / 10)%N. intros m q Hd Hx'.
  rewrite (proj2 (N.leb_le 48 (48 + m))), (proj2 (N.leb_le (48 + m) 57)) by lia.
  cbn [andb]. f_equal. lia.
Qed.

Lemma digits_value_pretty n : digits_value 0 (pretty n) = Some (N.of_nat n).
Proof.
  unfold pretty, pretty_nat, pretty, pretty_N.
  destruct (decide (N.of_nat n = 0%N)) as [E|]; [by rewrite E|].
  by rewrite digits_value_go.
Qed.

Lemma parse_usize_pretty n : (N.of_nat n < 2 ^ 64)%N → parse_usize (pretty n) = Some n.
Proof.
  intros Hn. unfold parse_usize. pose proof (digits_value_pretty n) as Hv.
  assert (strip_prefix "+" (pretty n) = None) as ->.
  { destruct (strip_prefix "+" (pretty n)) eqn:E; [|done].
    apply strip_prefix_spec in E. by rewrite E in Hv. }
  cbn [default from_option id]. destruct (String.eqb_spec (pretty n) "") as [E|_].
  - rewrite E in Hv. injection Hv as Hv. destruct n; [done|lia].
  - rewrite Hv, (proj2 (N.ltb_lt _ _)) by done. by rewrite Nat2N.id.
Qed.

(** ** Words of a header *)

Definition is_digit (c : Ascii.ascii) : bool :=
  let n := Ascii.N_of_ascii c in ((48 <=? n) && (n <=? 57))%N.

Fixpoint all_digits (s : string) : bool :=
  match s with EmptyString => true | String c s => is_digit c && all_digits s end.

Lemma digits_value_all acc s v : digits_value acc s = Some v → all_digits s = true.
Proof.
  revert acc. induction s as [|c s IH]; intros acc; [done|]. cbn [digits_value all_digits].
  unfold is_digit. destruct (_ && _); [|done]. cbn. apply IH.
Qed.

Lemma pretty_all_digits (n : nat) : all_digits (pretty n) = true.
Proof. eapply digits_value_all, digits_value_pretty. Qed.

Definition word_char (c : string) : Prop := is_whitespace c = false.

Lemma digit_cases c (P : Ascii.ascii → bool) :
  is_digit c = true → forallb (λ n, P (Ascii.ascii_of_N n)) (N.of_nat <$> seq 48 10) = true →
  P c = true.
Proof.
  unfold is_digit. intros [H1%N.leb_le H2%N.leb_le]%andb_true_iff HP.
  rewrite forallb_forall in HP. specialize (HP (Ascii.N_of_ascii c)).
  rewrite Ascii.ascii_N_embedding in HP. apply HP. apply in_map_iff.
  exists (N.to_nat (Ascii.N_of_ascii c)). split; [lia|]. apply in_seq. lia.
Qed.

(** A word: no white space, and no byte that could join the character before. *)
Definition word (s : string) : Prop := starts_char s = true ∧ Forall word_char (chars s).

Lemma word_app s t : word s → word t → word (s +:+ t).
Proof.
  intros [Hs1 Hs2] [Ht1 Ht2]. split; [by destruct s|]. rewrite chars_app by done.
  by apply Forall_app.
Qed.

Lemma all_digits_word s : all_digits s = true → word s.
Proof.
  induction s as [|c s IH]; [by split|]. cbn [all_digits].
  intros [Hc Hs]%andb_true_iff. destruct (IH Hs) as [Hstart Hchars].
  split.
  - cbn. apply (digit_cases c (λ c, negb (is_cont c)) Hc). by vm_compute.
  - cbn [chars]. rewrite Hstart. constructor; [|done]. unfold word_char.
    apply negb_true_iff. apply (digit_cases c (λ c, negb (is_whitespace (String c ""))) Hc).
    by vm_compute.
Qed.

Lemma words_of_word current cs rest :
  Forall word_char cs → current ++ cs ≠ [] →
  words_of current (cs ++ " " :: rest) = str_concat (reverse current ++ cs) :: words_of [] rest.
Proof.
  intros Hcs. revert current. induction Hcs as [|c cs Hc _ IH]; intros current Hne.
  - rewrite !app_nil_r in *. cbn [app words_of]. change (is_whitespace " ") with true.
    by destruct current.
  - cbn [app words_of]. rewrite Hc. rewrite IH by done. by rewrite reverse_cons, <- app_assoc.
Qed.

Lemma split_whitespace_word w rest :
  w ≠ "" → word w → starts_char rest = true →
  split_whitespace (w +:+ " " +:+ rest) = w :: split_whitespace rest.
Proof.
  intros Hw [_ Hc] Hr. unfold split_whitespace. rewrite chars_app, (chars_app " ") by done.
  change (chars " ") with [" "]. cbn [app].
  rewrite words_of_word by (done || (cbn [app]; by rewrite chars_nil)).
  change (str_concat (reverse [] ++ chars w)) with (str_concat (chars w)).
  by rewrite str_concat_chars.
Qed.

Lemma before_char_app c s t :
  (∀ d u v, s = u +:+ String d v → d ≠ c) → before_char c (s +:+ String c t) = s.
Proof.
  induction s as [|d s IH]; intros Hs; cbn.
  - by rewrite Ascii.eqb_refl.
  - destruct (Ascii.eqb_spec d c) as [->|_]; [by destruct (Hs c "" s eq_refl)|].
    f_equal. apply IH. intros d' u v ->. by apply (Hs d' (String d u) v).
Qed.

Lemma all_digits_no_comma s d u v :
  all_digits s = true → s = u +:+ String d v → d ≠ comma.
Proof.
  intros Hs ->. revert Hs. induction u as [|c u IH]; cbn.
  - intros [Hd _]%andb_true_iff ->. by vm_compute in Hd.
  - intros [_ Hs]%andb_true_iff. auto.
Qed.

Definition range_text (start count : nat) : string := pretty start +:+ "," +:+ pretty count.

(** The header of a hunk. *)
Definition hunk_header (start count new_start new_count : nat) : string :=
  "@@ -" +:+ range_text start count +:+ " +" +:+ range_text new_start new_count +:+ " @@".

Lemma range_word start count : word (range_text start count).
Proof.
  apply word_app; [apply all_digits_word, pretty_all_digits|].
  apply word_app; [|apply all_digits_word, pretty_all_digits].
  split; [done|]. constructor; [by vm_compute|constructor].
Qed.

Lemma hunk_old_start_header start count new_start new_count :
  (N.of_nat start < 2 ^ 64)%N →
  hunk_old_start (hunk_header start count new_start new_count) = Some start.
Proof.
  intros Hs. unfold hunk_old_start, hunk_header.
  assert (∀ s, word s → word ("-" +:+ s) ∧ word ("+" +:+ s)) as Hsign.
  { intros s Hw. split; (apply word_app; [|done]); (split; [done|]); (constructor; [by vm_compute|constructor]). }
  destruct (Hsign _ (range_word start count)) as [Hw1 _].
  destruct (Hsign _ (range_word new_start new_count)) as [_ Hw2].
  assert (word "@@") as Hw0 by (split; [done|]; repeat (constructor; [by vm_compute|]); constructor).
  change ("@@ -" +:+ ?x) with ("@@" +:+ " " +:+ "-" +:+ x).
  rewrite (split_whitespace_word "@@") by done.
  change (" +" +:+ ?x) with (" " +:+ "+" +:+ x).
  rewrite <- (str_app_assoc "-").
  rewrite split_whitespace_word by done. rewrite <- (str_app_assoc "+").
  change (" @@") with (" " +:+ "@@").
  rewrite split_whitespace_word by done. cbv iota beta.
  rewrite strip_prefix_app. cbn [default from_option id]. unfold range_text.
  change ("," +:+ pretty count) with (String comma (pretty count)).
  rewrite (before_char_app comma (pretty start) (pretty count)).
  - by rewrite parse_usize_pretty.
  - intros d u v. apply all_digits_no_comma, pretty_all_digits.
Qed.

(** ** Diffs *)

(** One place of a diff: lines before it that the diff does not show, and the
    lines it shows. *)
Record Place := {
  p_before : list string;
  p_shown : list DiffLine;
}.

(** The difference between two texts: its places, and the lines after them. *)
Record FileDiff := {
  d_path : string;
  d_places : list Place;
  d_after : list string;
}.

Definition old_text (d : FileDiff) : list string :=
  (d_places d ≫= λ p, p_before p ++ omap old_line (p_shown p)) ++ d_after d.
Definition new_text (d : FileDiff) : list string :=
  (d_places d ≫= λ p, p_before p ++ omap new_line (p_shown p)) ++ d_after d.

(** The start that the unified format writes for a range: its first line, or for
    an empty range the line before it. *)
Definition range_start (before : nat) (shown : list string) : nat :=
  if decide (shown = []) then before else before + 1.

(** The hunks, when [old] and [new] lines precede the places. *)
Fixpoint hunks_from (old new : nat) (places : list Place) : list (Hunk * string) :=
  match places with
  | [] => []
  | p :: places =>
      let old := old + length (p_before p) in
      let new := new + length (p_before p) in
      let old_lines := omap old_line (p_shown p) in
      let new_lines := omap new_line (p_shown p) in
      let old_start := range_start old old_lines in
      ({| h_old_start := old_start; h_old_lines := old_lines; h_new_lines := new_lines |},
       hunk_header old_start (length old_lines) (range_start new new_lines) (length new_lines))
      :: hunks_from (old + length old_lines) (new + length new_lines) places
  end.

Definition patch_of (d : FileDiff) : FilePatch :=
  {| fp_path := d_path d; fp_hunks := (hunks_from 0 0 (d_places d)).*1;
     fp_is_new := false; fp_is_delete := false |}.

Definition render_places (old new : nat) (places : list Place) : list string :=
  concat (zip_with (λ h p, h.2 :: (render_line <$> p_shown p)) (hunks_from old new places) places).

Definition render_file (d : FileDiff) : list string :=
  ("--- a/" +:+ d_path d) :: ("+++ b/" +:+ d_path d) :: render_places 0 0 (d_places d).

(** *** The hunks turn the old text into the new one *)

(** A hunk stands where it says: it shows an old line, or it is at the start of the
    old text. A hunk in the middle that only inserts is put one line too early
    ([insertion_one_line_early]). *)
Fixpoint anchored (old : nat) (places : list Place) : Prop :=
  match places with
  | [] => True
  | p :: places =>
      let old := old + length (p_before p) in
      let old_lines := omap old_line (p_shown p) in
      (old_lines ≠ [] ∨ old = 0) ∧ anchored (old + length old_lines) places
  end.

Lemma range_start_pred before shown : shown ≠ [] ∨ before = 0 → range_start before shown - 1 = before.
Proof. unfold range_start. case_decide; naive_solver lia. Qed.

Lemma apply_hunk_app h before old rest :
  h_old_start h - 1 = length before → h_old_lines h = old →
  apply_hunk h (Some (before ++ old ++ rest)) = Some (before ++ h_new_lines h ++ rest).
Proof.
  intros Hs <-. unfold apply_hunk. cbn. rewrite Hs, !length_app.
  rewrite Nat.min_l, (proj2 (Nat.leb_le _ _)) by lia.
  rewrite take_app_length, (app_assoc before (h_old_lines h)), <- (length_app before).
  by rewrite drop_app_length.
Qed.

Lemma apply_hunks_places before new places after :
  anchored (length before) places →
  apply_hunks (before ++ (places ≫= λ p, p_before p ++ omap old_line (p_shown p)) ++ after)
    (hunks_from (length before) new places).*1
  = Some (before ++ (places ≫= λ p, p_before p ++ omap new_line (p_shown p)) ++ after).
Proof.
  revert before new. induction places as [|p places IH]; intros before new; [done|].
  cbn [anchored]. intros [Hat Hanch].
  cbn [hunks_from]. rewrite fmap_cons, !bind_cons. unfold apply_hunks in *. cbn [foldr fst].
  specialize (IH (before ++ p_before p ++ omap old_line (p_shown p))
    (new + length (p_before p) + length (omap new_line (p_shown p)))).
  rewrite !length_app, !Nat.add_assoc in IH. specialize (IH Hanch).
  rewrite <- !app_assoc in IH. rewrite <- !app_assoc, IH.
  rewrite (app_assoc before (p_before p)).
  rewrite (apply_hunk_app _ (before ++ p_before p) (omap old_line (p_shown p)));
    [by rewrite <- app_assoc|by rewrite length_app; apply range_start_pred|done].
Qed.

Lemma join_lines_nl ls : ls ≠ [] → join nl ls +:+ nl = unlines ls.
Proof.
  intros Hne. rewrite <- join_unlines. induction ls as [|l ls IH]; [done|].
  destruct ls as [|l' ls].
  - done.
  - cbn [app] in *. rewrite !join_cons, !str_app_assoc by done. by rewrite IH.
Qed.

(** *** What can be written *)

Definition shown_ok (l : DiffLine) : Prop :=
  plain_line (line_text l) ∧ starts_with "---" (render_line l) = false.

Definition place_ok (p : Place) : Prop := Forall shown_ok (p_shown p).

Definition path_ok (path : string) : Prop :=
  plain_line path ∧ before_char tab path = path.

(** Every number of the headers is a [usize]. *)
Definition numbers_ok (hunks : list (Hunk * string)) : Prop :=
  Forall (λ h, (N.of_nat (h_old_start h.1) < 2 ^ 64)%N) hunks.

Definition diff_ok (d : FileDiff) : Prop :=
  path_ok (d_path d) ∧ d_places d ≠ [] ∧ Forall place_ok (d_places d) ∧
  numbers_ok (hunks_from 0 0 (d_places d)) ∧ anchored 0 (d_places d).

(** *** Reading it back *)

(** Nothing, or a line that begins a hunk or a file. *)
Definition hunk_ends (rest : list string) : Prop :=
  ∀ l rest', rest = l :: rest' → starts_with "@@" l || starts_with "---" l = true.

Lemma parse_hunk_lines_render old new ls rest :
  Forall shown_ok ls → hunk_ends rest →
  parse_hunk_lines old new ((render_line <$> ls) ++ rest)
  = (old ++ omap old_line ls, new ++ omap new_line ls, rest).
Proof.
  intros Hok Hrest. revert old new. induction Hok as [|l ls [_ Hl] _ IH]; intros old new.
  - cbn. rewrite !app_nil_r. destruct rest as [|l rest]; [done|].
    cbn [parse_hunk_lines]. by rewrite (Hrest l rest).
  - rewrite fmap_cons. cbn [app parse_hunk_lines]. rewrite Hl, orb_false_r.
    assert (starts_with "@@" (render_line l) = false) as -> by by destruct l.
    destruct l as [s|s|s]; cbn [render_line] in *; rewrite ?strip_prefix_app;
      change (strip_prefix "-" (" " +:+ s)) with (@None string);
      change (strip_prefix "+" (" " +:+ s)) with (@None string);
      change (strip_prefix "-" ("+" +:+ s)) with (@None string);
      rewrite IH; cbn; by rewrite <- ?app_assoc.
Qed.

Lemma hunk_header_starts a b c d :
  starts_with "@@" (hunk_header a b c d) = true ∧ starts_with "---" (hunk_header a b c d) = false.
Proof. done. Qed.

Lemma render_places_ends old new places rest :
  hunk_ends rest → hunk_ends (render_places old new places ++ rest).
Proof.
  intros Hr. destruct places as [|p places]; [done|]. by intros l rest' [= <- _].
Qed.

(** The lines after a file: nothing, or the header of the next one. *)
Definition file_ends (rest : list string) : Prop :=
  ∀ l rest', rest = l :: rest' → starts_with "---" l = true.

Lemma file_hunk_ends rest : file_ends rest → hunk_ends rest.
Proof. intros Hr l rest' E. rewrite (Hr l rest' E). by rewrite orb_true_r. Qed.

Lemma render_places_cons old new p places :
  render_places old new (p :: places)
  = hunk_header (range_start (old + length (p_before p)) (omap old_line (p_shown p)))
      (length (omap old_line (p_shown p)))
      (range_start (new + length (p_before p)) (omap new_line (p_shown p)))
      (length (omap new_line (p_shown p)))
    :: (render_line <$> p_shown p)
    ++ render_places (old + length (p_before p) + length (omap old_line (p_shown p)))
         (new + length (p_before p) + length (omap new_line (p_shown p))) places.
Proof. done. Qed.

Lemma parse_hunks_render rounds old new places rest :
  Forall place_ok places → numbers_ok (hunks_from old new places) → file_ends rest →
  length (render_places old new places ++ rest) ≤ rounds →
  parse_hunks rounds (render_places old new places ++ rest)
  = ((hunks_from old new places).*1, rest).
Proof.
  intros Hok Hn Hrest. revert rounds old new Hn.
  induction Hok as [|p places Hp _ IH]; intros rounds old new Hn Hr;
    [|rewrite render_places_cons in Hr; cbn in Hr; rewrite !length_app in Hr];
    (destruct rounds as [|rounds]; [destruct rest; cbn in Hr; (done || lia)|]).
  - change (render_places old new [] ++ rest) with rest. destruct rest as [|l rest]; [done|].
    cbn [parse_hunks]. by rewrite (Hrest l rest).
  - cbn [hunks_from] in Hn. apply Forall_cons in Hn as [Hnum Hn]. cbn [fst h_old_start] in Hnum.
    cbn [hunks_from]. rewrite render_places_cons. cbn [app parse_hunks]. rewrite <- app_assoc.
    match goal with |- context [hunk_header ?a ?b ?c ?d] =>
      destruct (hunk_header_starts a b c d) as [-> ->] end.
    unfold parse_hunk. rewrite hunk_old_start_header by done.
    rewrite parse_hunk_lines_render by (done || by apply render_places_ends, file_hunk_ends).
    rewrite IH; [done..|]. rewrite length_app. lia.
Qed.

Lemma header_file_prefix prefix path : header_file prefix (prefix +:+ path) = before_char tab path.
Proof. unfold header_file. by rewrite strip_prefix_app. Qed.

Lemma parse_file_render d rest :
  diff_ok d → file_ends rest →
  parse_file ("--- a/" +:+ d_path d) (("+++ b/" +:+ d_path d) :: render_places 0 0 (d_places d) ++ rest)
  = (Some (patch_of d), rest).
Proof.
  intros ((_ & Htab) & Hne & Hok & Hn & _) Hrest. unfold parse_file.
  change (starts_with "---" ("--- a/" +:+ d_path d)) with true.
  change (starts_with "+++" ("+++ b/" +:+ d_path d)) with true. cbn [negb].
  assert (header_file "--- " ("--- a/" +:+ d_path d) = "a/" +:+ d_path d) as Ha.
  { rewrite <- Htab at 2. apply (header_file_prefix "--- " ("a/" +:+ d_path d)). }
  assert (header_file "+++ " ("+++ b/" +:+ d_path d) = "b/" +:+ d_path d) as Hb.
  { rewrite <- Htab at 2. apply (header_file_prefix "+++ " ("b/" +:+ d_path d)). }
  rewrite Ha, Hb, parse_hunks_render by done.
  rewrite bool_decide_eq_true_2 by (by destruct (d_places d)). cbn [orb].
  unfold patch_of, patch_path. change ("b/" +:+ d_path d =s "/dev/null") with false.
  change ("a/" +:+ d_path d =s "/dev/null") with false. cbv iota.
  by rewrite strip_prefix_app.
Qed.

Lemma render_files_end ds : file_ends (ds ≫= render_file).
Proof.
  destruct ds as [|d ds]; [done|]. rewrite bind_cons. by intros l rest' [= <- _].
Qed.

Lemma parse_files_render rounds ds :
  Forall diff_ok ds → length (ds ≫= render_file) ≤ rounds →
  parse_files rounds (ds ≫= render_file) = patch_of <$> ds.
Proof.
  intros Hok. revert rounds. induction Hok as [|d ds Hd _ IH]; intros rounds Hr.
  { by destruct rounds. }
  rewrite bind_cons in *. unfold render_file at 1 in Hr. cbn [app length] in Hr.
  rewrite length_app in Hr. destruct rounds as [|rounds]; [lia|].
  unfold render_file at 1. cbn [app parse_files].
  rewrite parse_file_render by (done || apply render_files_end).
  rewrite fmap_cons. f_equal. apply IH. lia.
Qed.

Lemma hunk_header_plain a b c d : plain_line (hunk_header a b c d).
Proof.
  assert (∀ s, all_digits s = true → plain_line s) as Hd.
  { induction s as [|e s IH]; [done|]. cbn [all_digits]. intros [He Hs]%andb_true_iff.
    apply (plain_line_app (String e "") s); [|auto]. split; cbn.
    - rewrite andb_true_r. apply (digit_cases e (λ e, negb (Ascii.eqb e newline)) He).
      by vm_compute.
    - assert (Ascii.eqb e carriage_return = false) as ->; [|done]. apply negb_true_iff.
      apply (digit_cases e (λ e, negb (Ascii.eqb e carriage_return)) He). by vm_compute. }
  unfold hunk_header, range_text.
  repeat (apply plain_line_app || (apply Hd, pretty_all_digits) || done).
Qed.

Lemma render_places_plain old new places :
  Forall place_ok places → Forall plain_line (render_places old new places).
Proof.
  intros Hok. revert old new. induction Hok as [|p places Hp _ IH]; intros old new; [constructor|].
  rewrite render_places_cons. constructor; [apply hunk_header_plain|].
  apply Forall_app. split; [|done]. apply Forall_fmap. eapply Forall_impl; [exact Hp|].
  intros [s|s|s] [Hs _]; by apply plain_line_app.
Qed.

Lemma render_files_plain ds : Forall diff_ok ds → Forall plain_line (ds ≫= render_file).
Proof.
  induction 1 as [|d ds ((Hp & _) & _ & Hok & _ & _) _ IH]; [constructor|]. rewrite bind_cons.
  unfold render_file. do 2 (constructor; [by apply plain_line_app|]).
  apply Forall_app. split; [by apply render_places_plain|done].
Qed.

(** C13. A unified diff between old and new texts of any number of files, written
    out the way the format asks (file headers, ranges with an empty one at the
    line before it, lines), is parsed to one patch per file, for the path without
    the [a/] and [b/]; and that patch, applied to the old text, gives exactly the
    new text. This is for diffs whose hunks show an old line or stand at the start
    of the file, whose shown lines do not come out with three dashes in front,
    whose paths have no tab, whose lines all end with a line feed and no carriage
    return, and whose new text is not empty. *)
Theorem unified_diff_applies ds :
  Forall diff_ok ds →
  parse_patch (unlines (ds ≫= render_file)) = patch_of <$> ds ∧
  (∀ d, d ∈ ds → Forall plain_line (old_text d) → new_text d ≠ [] →
     patched_contents (unlines (old_text d)) (fp_hunks (patch_of d)) = Some (unlines (new_text d))).
Proof.
  intros Hok. split.
  - unfold parse_patch. rewrite lines_unlines by by apply render_files_plain.
    by apply parse_files_render.
  - intros d Hd Hplain Hne. rewrite Forall_forall in Hok. destruct (Hok d Hd) as (_ & _ & _ & _ & Hanch).
    unfold patched_contents. rewrite lines_unlines by done.
    pose proof (apply_hunks_places [] 0 (d_places d) (d_after d) Hanch) as Happ. cbn [app length] in Happ.
    unfold patch_of, old_text. cbn [fp_hunks]. rewrite Happ. cbn. f_equal. by apply join_lines_nl.
Qed.

Lemma unified_diff_applies_witness :
  let text := unlines
    ["--- a/src/a.rs"; "+++ b/src/a.rs"; "@@ -2,2 +2,2 @@"; " b"; "-c"; "+C";
     "@@ -6,1 +6,2 @@"; " f"; "+g"] in
  ∃ patch, parse_patch text = [patch] ∧ fp_path patch = "src/a.rs" ∧
    patched_contents (unlines ["a"; "b"; "c"; "d"; "e"; "f"]) (fp_hunks patch)
    = Some (unlines ["a"; "b"; "C"; "d"; "e"; "f"; "g"]).
Proof.
  set (d := {| d_path := "src/a.rs";
               d_places := [{| p_before := ["a"]; p_shown := [Kept "b"; Deleted "c"; Added "C"] |};
                            {| p_before := ["d"; "e"]; p_shown := [Kept "f"; Added "g"] |}];
               d_after := [] |}).
  assert (∀ s, no_newline s = true → strip_cr s = s → plain_line s) as Hplain by (by split).
  destruct (unified_diff_applies [d]) as [Hparse Happly].
  { constructor; [|constructor]. split; [split; [by apply Hplain|done]|]. split; [done|]. split.
    - repeat (constructor; [repeat (constructor; [split; [by apply Hplain|done]|]); constructor|]).
      constructor.
    - split; [repeat (constructor; [done|]); constructor|]. cbn. split_and!; [by left..|done]. }
  exists (patch_of d). split; [exact Hparse|]. split; [done|].
  apply (Happly d); [by left| |done].
  repeat (constructor; [by apply Hplain|]). constructor.
Defined.

(** A hunk that starts after the end of the file panics. *)
Example hunk_past_end_panics :
  patched_contents ("a" +:+ nl) [{| h_old_start := 3; h_old_lines := []; h_new_lines := ["b"] |}]
  = None.
Proof. reflexivity. Qed.

(** A hunk without old lines names the line it comes after, and is put before
    that line. *)
Example insertion_one_line_early :
  patched_contents (unlines ["a"; "b"])
    (parse_patch (unlines ["--- a/f"; "+++ b/f"; "@@ -1,0 +2,1 @@"; "+new"]) ≫= fp_hunks)
  = Some (unlines ["new"; "a"; "b"]).
Proof. by vm_compute. Qed.

(** A deleted line that begins with two dashes ends the hunk. *)
Example deleted_dashes_end_hunk :
  patched_contents (unlines ["-- comment"; "b"])
    (parse_patch (unlines ["--- a/f"; "+++ b/f"; "@@ -1,2 +1,1 @@"; "--- comment"; " b"]) ≫= fp_hunks)
  = Some (unlines ["-- comment"; "b"]).
Proof. by vm_compute. Qed.
