(* ===== verification/EditTools.v ===== *)
(** * The [edit] and [multiedit] tools ([src/tool/edit.rs],
    [src/tool/multiedit.rs])

    Replacing a text by another one in a file: the only occurrence, or all of
    them. An inner [None] is a panic; the theorems show there is none. *)

From S2P Require Import Prelude Utf8 Text FileTools.
Open Scope nat_scope.

(** ** [edit] *)

Record EditInput := {
  ei_file_path : string;
  ei_old_string : string;
  ei_new_string : string;
  ei_replace_all : bool;
}.

(** Find the 1-based line number where a substring starts *)
Definition find_line_number (content substring : string) : usize :=
  match str_find substring content with
  | Some pos => length (lines (str_take pos content)) + 1
  | None => 1
  end.

(** The loop of [generate_diff]. *)
Fixpoint diff_loop (old_line new_line : usize) (changes : list (ChangeTag * string)) : string :=
  match changes with
  | [] => ""
  | (tag, value) :: changes =>
      let content := trim value in
      let entry num prefix :=
        if content =s "" then "" else pretty num +:+ prefix +:+ " " +:+ content +:+ nl in
      match tag with
      | ChangeDelete => entry old_line "-" +:+ diff_loop (old_line + 1) new_line changes
      | ChangeInsert => entry new_line "+" +:+ diff_loop old_line (new_line + 1) changes
      | ChangeEqual => diff_loop (old_line + 1) (new_line + 1) changes
      end
  end.

Definition generate_diff `{LineDiff} (old new : string) (start_line : usize) : string :=
  let output := diff_loop start_line start_line (diff_lines old new) in
  if output =s "" then "" else trim_end output.

(** [format!("{:>4}", n)] *)
Definition pad_left (width : usize) (s : string) : string :=
  Nat.iter (width - String.length s) (String.append " ") s.

Definition context_line (start i : usize) (line : string) : string :=
  pad_left 4 (pretty (start + i + 1)) +:+ "│ " +:+ line.

(** The slice [lines[start..end]] panics when it starts after it ends. *)
Definition extract_context (content : string) (edit_start edit_end padding : usize)
    : option (usize * usize * string) :=
  let all := lines content in
  let total_lines := length all in
  let start := edit_start - (padding + 1) in
  let end_ := (edit_end + padding) `min` total_lines in
  if start <=? end_ then
    let context_lines := imap (context_line start) (take (end_ - start) (drop start all)) in
    Some (start + 1, end_, join nl context_lines)
  else None.

(** [iter().windows(size)] *)
Fixpoint windows {A} (size : usize) (l : list A) : list (list A) :=
  match l with
  | [] => []
  | _ :: rest => if size <=? length l then take size l :: windows size rest else []
  end.

Definition flexible_window (window old_lines : list string) : bool :=
  forallb (λ p, trim p.1 =s trim p.2) (zip window old_lines).

Definition trimmed_hint : string :=
  "old_string not found exactly, but found after trimming whitespace." +:+ nl +:+
  "Try using the exact string from the file, including leading/trailing whitespace.".

Definition indentation_hint (line : usize) : string :=
  "old_string not found exactly, but found with different indentation around line "
  +:+ pretty line +:+ "." +:+ nl +:+
  "Make sure to preserve the exact whitespace from the file.".

Definition not_found (file_path : string) : string :=
  "old_string not found in " +:+ file_path +:+ "." +:+ nl +:+
  "Use the read tool to see the current file contents.".

(** The error for a text that does not occur; [windows(0)] panics. *)
Definition try_flexible_match (content old_string file_path : string) : option string :=
  let trimmed := trim old_string in
  if str_contains trimmed content && negb (trimmed =s old_string) then Some trimmed_hint
  else
    let old_lines := lines old_string in
    let content_lines := lines content in
    match old_lines with
    | [] => None
    | _ =>
        match list_find (λ window, flexible_window window old_lines = true)
                (windows (length old_lines) content_lines) with
        | Some (i, _) => Some (indentation_hint (i + 1))
        | None => Some (not_found file_path)
        end
    end.

Definition several_found (occurrences : usize) : string :=
  "old_string found " +:+ pretty occurrences +:+ " times in the file. Either:" +:+ nl +:+
  "1. Provide more context to make it unique, or" +:+ nl +:+
  "2. Set replace_all: true to replace all occurrences".

Section edit.
Context {F : Type} `{FileSystem F} `{LineDiff}.

Definition edit_summary (start_line end_line occurrences : usize) : string :=
  "edited lines " +:+ pretty start_line +:+ "-" +:+ pretty end_line +:+ " ("
  +:+ pretty occurrences +:+ " occurrence" +:+ (if occurrences =? 1 then "" else "s") +:+ ")".

Definition edit_output (params : EditInput) (occurrences : usize) (diff : string)
    (context : usize * usize * string) : ToolOutput :=
  let '(first, last, text) := context in
  with_title (ei_file_path params)
    (output_new ("Edited " +:+ ei_file_path params +:+ ": replaced " +:+ pretty occurrences
       +:+ " occurrence(s)" +:+ nl +:+ diff +:+ nl +:+ nl +:+ "Context after edit (lines "
       +:+ pretty first +:+ "-" +:+ pretty last +:+ "):" +:+ nl +:+ text)).

(** The replacement, once the text occurs as it must. *)
Definition replaced (content old_string new_string : string) (replace_all : bool) : string :=
  if replace_all then replace old_string new_string content
  else replace_first old_string new_string content.

(** After the file was read; [None] is a panic. *)
Definition edit_content (ctx : ToolContext) (params : EditInput) (path content : string)
    : Exec F (option ToolOutput) :=
  let old_string := ei_old_string params in
  let new_string := ei_new_string params in
  let occurrences := count_matches old_string content in
  if occurrences =? 0 then
    match try_flexible_match content old_string (ei_file_path params) with
    | Some e => fail e
    | None => ret None
    end
  else if (1 <? occurrences) && negb (ei_replace_all params) then fail (several_found occurrences)
  else
    let new_content := replaced content old_string new_string (ei_replace_all params) in
    let start_line := find_line_number content old_string in
    write_file path new_content ;?
    let diff := generate_diff old_string new_string start_line in
    let end_line := start_line + (length (lines new_string) - 1) in
    publish {| ft_session_id := ctx_session_id ctx; ft_path := path; ft_op := OpEdit;
               ft_summary := Some (edit_summary start_line end_line occurrences);
               ft_detail := build_file_touch_preview diff |} ;?
    ret (edit_output params occurrences diff <$> extract_context new_content start_line end_line 3).

Definition edit_execute (ctx : ToolContext) (params : EditInput) : Exec F (option ToolOutput) :=
  if ei_old_string params =s ei_new_string params then
    fail "old_string and new_string must be different"
  else
    let path := resolve_path ctx (ei_file_path params) in
    exists_ <-? path_exists path;
    if negb exists_ then fail ("File not found: " +:+ ei_file_path params)
    else
      content <-? read_to_string path;
      edit_content ctx params path content.

(** ** [multiedit] *)

Record EditOperation := {
  eo_old_string : string;
  eo_new_string : string;
  eo_replace_all : bool;
}.

(** One edit, the number of which is [i + 1]: the new content with a message,
    or the message of a failure. *)
Definition apply_edit (i : usize) (edit : EditOperation) (content : string)
    : (string * string) + string :=
  let number := "Edit " +:+ pretty (i + 1) in
  if eo_old_string edit =s eo_new_string edit then
    inr (number +:+ ": old_string equals new_string")
  else
    let occurrences := count_matches (eo_old_string edit) content in
    if occurrences =? 0 then inr (number +:+ ": old_string not found")
    else if (1 <? occurrences) && negb (eo_replace_all edit) then
      inr (number +:+ ": found " +:+ pretty occurrences
           +:+ " occurrences, use replace_all or be more specific")
    else if eo_replace_all edit then
      inl (replace (eo_old_string edit) (eo_new_string edit) content,
           number +:+ ": replaced " +:+ pretty occurrences +:+ " occurrences")
    else
      inl (replace_first (eo_old_string edit) (eo_new_string edit) content,
           number +:+ ": replaced 1 occurrence").

(** The loop over the edits: the content and the messages. *)
Fixpoint apply_edits (i : usize) (edits : list EditOperation)
    (state : string * list string * list string) : string * list string * list string :=
  let '(content, applied, failed) := state in
  match edits with
  | [] => state
  | edit :: edits =>
      apply_edits (i + 1) edits
        match apply_edit i edit content with
        | inl (content, message) => (content, applied ++ [message], failed)
        | inr message => (content, applied, failed ++ [message])
        end
  end.

(** The loop of [generate_diff_summary]. *)
Fixpoint changes_loop (old_line new_line lines_shown : usize) (changes : list (ChangeTag * string))
    : string :=
  match changes with
  | [] => ""
  | (tag, value) :: changes =>
      let content := trim value in
      match tag with
      | ChangeEqual => changes_loop (old_line + 1) (new_line + 1) lines_shown changes
      | ChangeDelete =>
          if content =s "" then changes_loop (old_line + 1) new_line lines_shown changes
          else if 30 <=? lines_shown then "..." +:+ nl
          else pretty old_line +:+ "- " +:+ content +:+ nl
               +:+ changes_loop (old_line + 1) new_line (lines_shown + 1) changes
      | ChangeInsert =>
          if content =s "" then changes_loop old_line (new_line + 1) lines_shown changes
          else if 30 <=? lines_shown then "..." +:+ nl
          else pretty new_line +:+ "+ " +:+ content +:+ nl
               +:+ changes_loop old_line (new_line + 1) (lines_shown + 1) changes
      end
  end.

Definition changes_summary (old new : string) : string := changes_loop 1 1 0 (diff_lines old new).

Definition bullet (mark message : string) : string := "  " +:+ mark +:+ " " +:+ message +:+ nl.

Definition multiedit_output (file_path original_content content : string)
    (applied failed : list string) : ToolOutput :=
  with_title file_path (output_new (
    "Edited " +:+ file_path +:+ nl +:+ nl
    +:+ match applied with
        | [] => ""
        | _ => "Applied:" +:+ nl +:+ str_concat (bullet "✓" <$> applied)
        end
    +:+ match failed with
        | [] => ""
        | _ => nl +:+ "Failed:" +:+ nl +:+ str_concat (bullet "✗" <$> failed)
        end
    +:+ nl +:+ "Total: " +:+ pretty (length applied) +:+ " applied, " +:+ pretty (length failed)
    +:+ " failed" +:+ nl
    +:+ match applied with
        | [] => ""
        | _ => nl +:+ "Diff:" +:+ nl +:+ changes_summary original_content content
        end)).

Definition multiedit_execute (ctx : ToolContext) (file_path : string) (edits : list EditOperation)
    : Exec F ToolOutput :=
  let path := resolve_path ctx file_path in
  exists_ <-? path_exists path;
  if negb exists_ then fail ("File not found: " +:+ file_path)
  else
    original_content <-? read_to_string path;
    let '(content, applied, failed) := apply_edits 0 edits (original_content, [], []) in
    write_file path content ;?
    ret (multiedit_output file_path original_content content applied failed).
End edit.

(** * Properties of [edit] and [multiedit]

    Both tools replace texts as one abstract rewriting says, refuse what is
    ambiguous, and touch no other file; neither panics. *)

#[local] Arguments String.append !_ _ / : simpl nomatch.

(** ** Replacing a text *)

(** [content'] is [content] with each of the [n] places of [old] replaced: what
    is between them is kept and holds no further occurrence. *)
Definition Rewritten (old new content content' : string) (n : nat) : Prop :=
  ∃ pieces, content = join old pieces ∧ content' = join new pieces ∧ length pieces = S n ∧
    (old ≠ "" → Forall (λ p, str_contains old p = false) pieces).

Lemma join_empty l : join "" l = str_concat l.
Proof.
  induction l as [|s l IH]; [done|]. change (str_concat (s :: l)) with (s +:+ str_concat l).
  rewrite <- IH. destruct l; [|done]. cbn. by rewrite str_app_nil_r.
Qed.

Lemma split_str_spec old content :
  join old (split_str old content) = content ∧ split_str old content ≠ [] ∧
  (old ≠ "" → Forall (λ p, str_contains old p = false) (split_str old content)).
Proof.
  unfold split_str. destruct (String.eqb_spec old "") as [->|Hne].
  - split; [|done]. rewrite join_empty. cbn. rewrite str_concat_app, str_concat_chars.
    cbn. by rewrite str_app_nil_r.
  - split_and!; [by apply join_split_from|apply split_from_not_nil|intros; by apply split_from_pieces].
Qed.

Lemma replaced_spec old new content (all : bool) :
  0 < count_matches old content → count_matches old content = 1 ∨ all = true →
  Rewritten old new content (replaced content old new all) (count_matches old content).
Proof.
  intros Hpos Hn. destruct (split_str_spec old content) as (Hj & _ & Hp).
  exists (split_str old content). unfold replaced, replace, replace_first, count_matches in *.
  split_and!; [done| |lia|done]. destruct all; [done|]. destruct Hn as [Hn|]; [|done].
  destruct (split_str old content) as [|a [|b [|]]]; cbn in *; (done || lia).
Qed.

(** ** Counting lines *)

Lemma length_lines_cons c s :
  length (lines (String c s))
  = if Ascii.eqb c newline then S (length (lines s)) else 1 `max` length (lines s).
Proof.
  unfold lines. cbn [split_nl]. pose proof (split_nl_not_nil s) as Hne.
  destruct (Ascii.eqb c newline).
  - destruct (split_nl s) eqn:E; [done|]. by cbn.
  - destruct (split_nl s) as [|p [|q ps]]; [done| |]; cbn; [by case_match|lia].
Qed.

Lemma length_lines_app s t : length (lines s) ≤ length (lines (s +:+ t)).
Proof.
  induction s as [|c s IH]; [cbn; lia|].
  change (String c s +:+ t) with (String c (s +:+ t)). rewrite !length_lines_cons.
  case_match; lia.
Qed.

(** The number of newlines, and whether the text ends inside a line. *)
Fixpoint count_newlines (s : string) : nat :=
  match s with
  | EmptyString => 0
  | String c s => (if Ascii.eqb c newline then 1 else 0) + count_newlines s
  end.

Fixpoint inside_line (s : string) : bool :=
  match s with
  | EmptyString => false
  | String c EmptyString => negb (Ascii.eqb c newline)
  | String _ s => inside_line s
  end.

Lemma length_lines s : length (lines s) = count_newlines s + if inside_line s then 1 else 0.
Proof.
  induction s as [|c s IH]; [done|]. rewrite length_lines_cons.
  destruct s as [|d s].
  - cbn. by destruct (Ascii.eqb c newline).
  - change (inside_line (String c (String d s))) with (inside_line (String d s)).
    change (count_newlines (String c (String d s)))
      with ((if Ascii.eqb c newline then 1 else 0) + count_newlines (String d s)).
    assert (1 ≤ length (lines (String d s))) as H1.
    { rewrite length_lines_cons. destruct (Ascii.eqb d newline); lia. }
    rewrite IH in *. destruct (Ascii.eqb c newline); lia.
Qed.

(** The line number is that of the first occurrence when it begins a line, and
    one too large when it begins inside a line. *)
Lemma find_line_number_spec content substring :
  str_contains substring content = true →
  ∃ before after, content = before +:+ substring +:+ after ∧
    (∀ t u, content = t +:+ substring +:+ u → String.length before ≤ String.length t) ∧
    find_line_number content substring
    = 1 + count_newlines before + if inside_line before then 1 else 0.
Proof.
  intros Hc. unfold find_line_number. destruct (str_find substring content) as [pos|] eqn:E.
  - apply str_find_spec in E as [(before & after & -> & <-) Hmin].
    exists before, after. split_and!; [done|done|].
    assert (str_take (String.length before) (before +:+ substring +:+ after) = before) as ->.
    { clear. induction before as [|c b IH]; [by destruct (substring +:+ after)|].
      cbn. by rewrite IH. }
    rewrite length_lines. lia.
  - apply str_find_None in E. congruence.
Qed.

Example line_number_inside_line : find_line_number ("let x = 1;" +:+ nl) "x" = 2.
Proof. reflexivity. Qed.

(** ** No panic *)

Lemma str_take_app n s t : n ≤ String.length s → str_take n (s +:+ t) = str_take n s.
Proof.
  revert s. induction n as [|n IH]; intros [|c s] Hn; simpl in *; try done; try lia.
  by rewrite IH by lia.
Qed.

(** What stands before the first occurrence begins the new text too. *)
Lemma rewritten_prefix old new content content' n pos :
  Rewritten old new content content' n → 0 < n → str_find old content = Some pos →
  ∃ rest, content' = str_take pos content +:+ rest.
Proof.
  intros (pieces & -> & -> & Hlen & _) Hn Hpos.
  destruct pieces as [|p [|q pieces]]; [done|cbn in Hlen; lia|].
  rewrite (join_cons old), (join_cons new) in * by done. apply str_find_spec in Hpos as [_ Hmin].
  specialize (Hmin p _ eq_refl). rewrite str_take_app by done.
  exists (str_drop pos p +:+ new +:+ join new (q :: pieces)).
  by rewrite <- (str_app_assoc (str_take pos p)), str_take_drop.
Qed.

Lemma extract_context_total old new content content' n end_line :
  Rewritten old new content content' n → 0 < n → find_line_number content old ≤ end_line →
  is_Some (extract_context content' (find_line_number content old) end_line 3).
Proof.
  intros Hr Hn Hend. unfold extract_context, find_line_number in *. cbv zeta.
  destruct (str_find old content) as [pos|] eqn:E.
  - destruct (rewritten_prefix _ _ _ _ _ _ Hr Hn E) as [rest ->].
    pose proof (length_lines_app (str_take pos content) rest) as Hl.
    rewrite (proj2 (Nat.leb_le _ _)) by lia. by eexists.
  - rewrite (proj2 (Nat.leb_le _ _)) by lia. by eexists.
Qed.

Lemma lines_not_nil s : s ≠ "" → lines s ≠ [].
Proof.
  intros Hs E. apply (f_equal length) in E. destruct s as [|c s]; [done|].
  rewrite length_lines_cons in E. cbn in E. destruct (Ascii.eqb c newline); lia.
Qed.

Lemma flexible_match_total content old file_path :
  old ≠ "" → is_Some (try_flexible_match content old file_path).
Proof.
  intros Hne. unfold try_flexible_match. pose proof (lines_not_nil old Hne) as Hl.
  destruct (_ && _); [by eexists|]. destruct (lines old); [done|].
  destruct (list_find _ _) as [[]|]; by eexists.
Qed.

Lemma count_matches_empty s : 0 < count_matches "" s.
Proof. unfold count_matches. cbn. rewrite length_app. cbn. lia. Qed.

(** ** [edit] *)

Section correct.
Context {F : Type} {HF : FileSystem F} {HL : FileSystemLaws F} {HD : LineDiff}.

Definition read_file (w : World F) (path : string) : string + string := fs_read (w_files w) path.

(** The files that have nothing to do with a path hold what they held. *)
Definition others_kept (path : string) (w w' : World F) : Prop :=
  ∀ other, ¬ one_file path other → fs_text (w_files w') other = fs_text (w_files w) other.

Lemma write_file_inv path text (w w' : World F) r :
  write_file path text w = (w', r) →
  w_events w' = w_events w ∧
  others_kept path w w' ∧
  (r = inl () → read_file w' path = inl text).
Proof.
  unfold write_file, on_files, read_file. destruct (fs_write (w_files w) path text) as [fs x] eqn:E.
  intros [= <- <-]. cbn. split_and!; [done|..].
  - intros other Hne. pose proof (fs_write_other (w_files w) path text other Hne) as H.
    by rewrite E in H.
  - intros ->. apply fs_write_read in E. unfold fs_text in E.
    destruct (fs_read fs path); congruence.
Qed.

(** Whether an edit may be made: the texts differ, and the old one occurs, once
    unless all are to be replaced. *)
Definition applicable (old new content : string) (all : bool) : Prop :=
  old ≠ new ∧ 0 < count_matches old content ∧ (count_matches old content = 1 ∨ all = true).

Lemma count_matches_contains old content :
  0 < count_matches old content ↔ str_contains old content = true.
Proof.
  pose proof (count_matches_zero old content). destruct (str_contains old content);
    split; try done; naive_solver lia.
Qed.

(** What the tool leaves when it reports success. *)
Definition edited (params : EditInput) (path content : string) (w w' : World F) : Prop :=
  let old := ei_old_string params in
  let new := ei_new_string params in
  applicable old new content (ei_replace_all params) ∧
  (∃ content', Rewritten old new content content' (count_matches old content) ∧
     read_file w' path = inl content') ∧
  others_kept path w w' ∧
  ∃ event last, w_events w' = w_events w ++ [event] ∧ ft_path event = path ∧
    ft_summary event = Some (edit_summary (find_line_number content old) last
                               (count_matches old content)).

Lemma edit_content_correct ctx params path content w w' r :
  ei_old_string params ≠ ei_new_string params →
  edit_content ctx params path content w = (w', r) →
  match r with
  | inl None => False
  | inl (Some output) => edited params path content w w'
  | inr e =>
      (w' = w ∧ ¬ applicable (ei_old_string params) (ei_new_string params) content
                    (ei_replace_all params)) ∨
      ∃ text, write_file path text w = (w', inr e)
  end.
Proof.
  intros Hdiff. unfold edit_content, edited, applicable. cbv zeta.
  set (old := ei_old_string params) in *. set (new := ei_new_string params) in *.
  set (n := count_matches old content). destruct (Nat.eqb_spec n 0) as [Hn|Hn].
  { assert (old ≠ "") as Hold.
    { intros E. pose proof (count_matches_empty content). subst n. rewrite E in Hn. lia. }
    destruct (flexible_match_total content old (ei_file_path params) Hold) as [e ->].
    intros [= <- <-]. left. split; [done|]. lia. }
  destruct (_ && _) eqn:Es.
  { intros [= <- <-]. left. split; [done|]. apply andb_true_iff in Es as [H1%Nat.ltb_lt H2].
    intros (_ & _ & [?|Hall]); [lia|]. by rewrite Hall in H2. }
  assert (n = 1 ∨ ei_replace_all params = true) as Hone.
  { apply andb_false_iff in Es as [H1%Nat.ltb_ge|H2]; [left; lia|right].
    by destruct (ei_replace_all params). }
  pose proof (replaced_spec old new content (ei_replace_all params) ltac:(subst n; lia) Hone) as Hrw.
  intros E. apply bind_inv in E as (w1 & r1 & E1 & E). destruct r1 as [[]|e]; cycle 1.
  { destruct E as [-> ->]. right. by eexists. }
  apply write_file_inv in E1 as (Hev & Hother & Hread). specialize (Hread eq_refl).
  injection E as <- <-.
  destruct (extract_context_total old new content _ n
    (find_line_number content old + (length (lines new) - 1)) Hrw ltac:(lia) ltac:(lia)) as [c ->].
  cbn [fmap option_fmap option_map]. split_and!; [done|lia|done|by eexists|done|].
  eexists _, _. cbn [w_events]. by rewrite Hev.
Qed.

(** The [edit] tool never panics. When it reports success, the file held the old
    text, once or with leave to replace all, and now holds the rewritten text;
    no other file changed, and one event was published, for this file, whose
    summary has the line of the first occurrence. When it reports an error, the
    edit was not applicable or the file system failed, and unless it was the
    writing that failed nothing changed. *)
Theorem edit_correct (ctx : ToolContext) (params : EditInput) (w : World F) :
  let path := resolve_path ctx (ei_file_path params) in
  let (w', r) := edit_execute ctx params w in
  match r with
  | inl None => False
  | inl (Some output) => ∃ content,
      read_file w path = inl content ∧ edited params path content w w'
  | inr e =>
      (w' = w ∧ ∀ content, fs_exists (w_files w) path = true → read_file w path = inl content →
         ¬ applicable (ei_old_string params) (ei_new_string params) content
             (ei_replace_all params)) ∨
      ∃ text, write_file path text w = (w', inr e)
  end.
Proof.
  intros path. destruct (edit_execute ctx params w) as [w' r] eqn:E.
  unfold edit_execute in E. fold path in E. cbv zeta in E.
  destruct (String.eqb_spec (ei_old_string params) (ei_new_string params)) as [Heq|Hdiff].
  { injection E as <- <-. left. split; [done|]. by intros content _ _ []. }
  unfold path_exists in E. unfold bind at 1 in E.
  destruct (fs_exists (w_files w) path) eqn:Hex; [|injection E as <- <-; by left].
  cbn [negb] in E. apply bind_inv in E as (w1 & r1 & E1 & E).
  unfold read_to_string in E1. fold (read_file w path) in E1. injection E1 as <- E1.
  destruct r1 as [content|e].
  - apply edit_content_correct in E; [|done]. destruct r as [[output|]|e].
    + by exists content.
    + done.
    + destruct E as [[-> Hn]|Hw]; [left|by right]. split; [done|].
      intros content' _ Hc. assert (content' = content) as -> by congruence. done.
  - destruct E as [-> ->]. left. split; [done|]. intros content _ Hc. congruence.
Qed.

(** ** [multiedit] *)

(** The edits one after the other, each on the text the ones before it left:
    those that are applicable are made, the others change nothing. The numbers
    are those of the edits made and refused. *)
Inductive EditsRun : list EditOperation → string → string → nat → nat → Prop :=
| EditsRun_nil content : EditsRun [] content content 0 0
| EditsRun_made e edits content content1 content2 made refused :
    applicable (eo_old_string e) (eo_new_string e) content (eo_replace_all e) →
    Rewritten (eo_old_string e) (eo_new_string e) content content1
      (count_matches (eo_old_string e) content) →
    EditsRun edits content1 content2 made refused →
    EditsRun (e :: edits) content content2 (S made) refused
| EditsRun_refused e edits content content2 made refused :
    ¬ applicable (eo_old_string e) (eo_new_string e) content (eo_replace_all e) →
    EditsRun edits content content2 made refused →
    EditsRun (e :: edits) content content2 made (S refused).

Lemma apply_edit_spec i e content :
  match apply_edit i e content with
  | inl (content1, _) =>
      applicable (eo_old_string e) (eo_new_string e) content (eo_replace_all e) ∧
      Rewritten (eo_old_string e) (eo_new_string e) content content1
        (count_matches (eo_old_string e) content)
  | inr _ => ¬ applicable (eo_old_string e) (eo_new_string e) content (eo_replace_all e)
  end.
Proof.
  unfold apply_edit, applicable. cbv zeta.
  destruct (String.eqb_spec (eo_old_string e) (eo_new_string e)) as [Heq|Hne]; [by intros []|].
  destruct (Nat.eqb_spec (count_matches (eo_old_string e) content) 0) as [|Hn]; [lia|].
  destruct (_ && _) eqn:Es.
  { apply andb_true_iff in Es as [H1%Nat.ltb_lt H2]. intros (_ & _ & [?|Hall]); [lia|].
    by rewrite Hall in H2. }
  assert (count_matches (eo_old_string e) content = 1 ∨ eo_replace_all e = true) as Hone.
  { apply andb_false_iff in Es as [H1%Nat.ltb_ge|H2]; [left; lia|right].
    by destruct (eo_replace_all e). }
  pose proof (replaced_spec (eo_old_string e) (eo_new_string e) content (eo_replace_all e)
    ltac:(lia) Hone) as Hrw. unfold replaced in Hrw.
  destruct (eo_replace_all e); (split; [split_and!; [done|lia|done]|exact Hrw]).
Qed.

Lemma apply_edits_run i edits content applied failed :
  ∃ content' more_applied more_failed,
    apply_edits i edits (content, applied, failed)
      = (content', applied ++ more_applied, failed ++ more_failed) ∧
    EditsRun edits content content' (length more_applied) (length more_failed).
Proof.
  revert i content applied failed. induction edits as [|e edits IH]; intros i content applied failed.
  { exists content, [], []. rewrite !app_nil_r. split; [done|constructor]. }
  cbn [apply_edits]. pose proof (apply_edit_spec i e content) as He.
  destruct (apply_edit i e content) as [[content1 message]|message].
  - destruct (IH (i + 1) content1 (applied ++ [message]) failed) as (c' & ma & mf & -> & Hrun).
    exists c', (message :: ma), mf. rewrite <- app_assoc. split; [done|].
    destruct He. by econstructor.
  - destruct (IH (i + 1) content applied (failed ++ [message])) as (c' & ma & mf & -> & Hrun).
    exists c', ma, (message :: mf). rewrite <- app_assoc. split; [done|]. by constructor.
Qed.

(** [multiedit] makes the applicable edits in order, each on the result of those
    before it, skips the others, counts both, and writes the result to the file
    and to nothing else; when it fails, only the writing can have changed
    anything. *)
Theorem multiedit_correct (ctx : ToolContext) (file_path : string) (edits : list EditOperation)
    (w : World F) :
  let path := resolve_path ctx file_path in
  let (w', r) := multiedit_execute ctx file_path edits w in
  match r with
  | inl output => ∃ content content' applied failed,
      read_file w path = inl content ∧ read_file w' path = inl content' ∧
      EditsRun edits content content' (length applied) (length failed) ∧
      length applied + length failed = length edits ∧
      others_kept path w w' ∧
      w_events w' = w_events w ∧
      output = multiedit_output file_path content content' applied failed
  | inr e => w' = w ∨ ∃ text, write_file path text w = (w', inr e)
  end.
Proof.
  intros path. destruct (multiedit_execute ctx file_path edits w) as [w' r] eqn:E.
  unfold multiedit_execute in E. fold path in E. cbv zeta in E.
  unfold path_exists in E. unfold bind at 1 in E.
  destruct (fs_exists (w_files w) path); [|injection E as <- <-; by left].
  cbn [negb] in E. apply bind_inv in E as (w1 & r1 & E1 & E).
  unfold read_to_string in E1. fold (read_file w path) in E1. injection E1 as <- E1.
  destruct r1 as [content|e]; [|destruct E as [-> ->]; by left].
  destruct (apply_edits_run 0 edits content [] []) as (content' & applied & failed & Ea & Hrun).
  rewrite Ea in E. apply bind_inv in E as (w1 & r1 & E2 & E).
  destruct r1 as [[]|e]; [|destruct E as [-> ->]; right; by eexists].
  injection E as <- <-. apply write_file_inv in E2 as (Hev & Hother & Hread).
  exists content, content', applied, failed. split_and!; try done; [by apply Hread|].
  clear -Hrun. induction Hrun; cbn; lia.
Qed.
End correct.

(** ** Witnesses *)

#[local] Instance no_line_diff : LineDiff := λ old new,
  [(ChangeDelete, old); (ChangeInsert, new)].

Lemma edit_correct_witness :
  let ctx := {| ctx_session_id := "s"; ctx_working_dir := Some "/w" |} in
  let w := {| w_files := {["/w/a" := "one" +:+ nl +:+ "two" +:+ nl; "/b" := "z"]}
                         : gmap string string; w_events := [] |} in
  let params := {| ei_file_path := "a"; ei_old_string := "two"; ei_new_string := "2";
                   ei_replace_all := false |} in
  let w' := (edit_execute ctx params w).1 in
  edited params "/w/a" ("one" +:+ nl +:+ "two" +:+ nl) w w' ∧
  read_file w' "/w/a" = inl ("one" +:+ nl +:+ "2" +:+ nl).
Proof.
  intros ctx w params w'. pose proof (edit_correct ctx params w) as H. cbv zeta in H.
  assert (w' = (edit_execute ctx params w).1) as Ew by done. clearbody w'.
  assert (read_file w' "/w/a" = inl ("one" +:+ nl +:+ "2" +:+ nl)) as Ea
    by (rewrite Ew; by vm_compute).
  assert (is_Some (match (edit_execute ctx params w).2 with inl o => o | _ => None end)) as Ho
    by (vm_compute; by eexists).
  destruct (edit_execute ctx params w) as [w1 [[output|]|e]];
    cbn in Ho, Ew; subst w1; [|by destruct Ho..].
  split; [|done]. destruct H as (content & Hc & H). vm_compute in Hc. injection Hc as <-. exact H.
Defined.

Lemma multiedit_correct_witness :
  let ctx := {| ctx_session_id := "s"; ctx_working_dir := Some "/w" |} in
  let w := {| w_files := {["/w/a" := "aXbXc"; "/b" := "z"]} : gmap string string;
              w_events := [] |} in
  let edits := [{| eo_old_string := "X"; eo_new_string := "Y"; eo_replace_all := false |};
                {| eo_old_string := "X"; eo_new_string := "-"; eo_replace_all := true |};
                {| eo_old_string := "b-"; eo_new_string := ""; eo_replace_all := false |}] in
  let w' := (multiedit_execute ctx "a" edits w).1 in
  read_file w' "/w/a" = inl "a-c" ∧ read_file w' "/b" = inl "z" ∧
  ∃ made refused, EditsRun edits "aXbXc" "a-c" made refused ∧ made + refused = 3.
Proof.
  intros ctx w edits w'. pose proof (multiedit_correct ctx "a" edits w) as H. cbv zeta in H.
  assert (w' = (multiedit_execute ctx "a" edits w).1) as Ew by done. clearbody w'.
  assert (read_file w' "/w/a" = inl "a-c") as Ea by (rewrite Ew; by vm_compute).
  assert (read_file w' "/b" = inl "z") as Eb by (rewrite Ew; by vm_compute).
  assert (is_Some (match (multiedit_execute ctx "a" edits w).2 with inl o => Some o | _ => None end))
    as Ho by (vm_compute; by eexists).
  destruct (multiedit_execute ctx "a" edits w) as [w1 [output|e]];
    cbn in Ho, Ew; subst w1; [|by destruct Ho].
  destruct H as (content & content' & applied & failed & Hc & Hc' & Hrun & Hlen & _).
  split_and!; [done..|]. exists (length applied), (length failed). split; [|exact Hlen].
  change (resolve_path ctx "a") with "/w/a" in Hc'. rewrite Ea in Hc'. injection Hc' as <-. vm_compute in Hc. injection Hc as <-. exact Hrun.
Defined.
