(* ===== verification/SwarmPlan.v ===== *)
(** * Swarm plans ([crates/gcode-plan/src/lib.rs])

    The shared plan of a swarm: its items, their statuses, the dependency
    graph with its cycle detection (Kahn's algorithm), the summary of the
    graph, the choice of the next runnable items and the control actions on
    assigned tasks. *)

From S2P Require Import Prelude.

(** ** Data *)

Record PlanItem := {
  pi_content : string;
  pi_status : string;
  pi_priority : string;
  pi_id : string;
  pi_subsystem : option string;
  pi_file_scope : list string;
  pi_blocked_by : list string;
  pi_assigned_to : option string;
}.

Record SwarmTaskProgress := {
  tp_assigned_session_id : option string;
  tp_assignment_summary : option string;
  tp_assigned_at_unix_ms : option u64;
  tp_started_at_unix_ms : option u64;
  tp_last_heartbeat_unix_ms : option u64;
  tp_last_detail : option string;
  tp_last_checkpoint_unix_ms : option u64;
  tp_checkpoint_summary : option string;
  tp_completed_at_unix_ms : option u64;
  tp_stale_since_unix_ms : option u64;
  tp_heartbeat_count : option u64;
  tp_checkpoint_count : option u64;
}.

Record SwarmPlanItemSpec := {
  is_id : string;
  is_content : string;
  is_priority : string;
  is_subsystem : option string;
  is_file_scope : list string;
  is_blocked_by : list string;
}.

Record SwarmPlanDefinition := {
  pd_version : u64;
  pd_participants : list string;
  pd_items : list SwarmPlanItemSpec;
}.

Record SwarmExecutionItemState := {
  es_task_id : string;
  es_status : string;
  es_assigned_to : option string;
  es_progress : option SwarmTaskProgress;
}.

Record SwarmExecutionState := { ex_items : list SwarmExecutionItemState }.

Record VersionedPlan := {
  vp_items : list PlanItem;
  vp_version : u64;
  vp_participants : gset string;
  vp_task_progress : gmap string SwarmTaskProgress;
}.

Definition plan_new : VersionedPlan :=
  {| vp_items := []; vp_version := 0; vp_participants := ∅; vp_task_progress := ∅ |}.

Definition item_spec (item : PlanItem) : SwarmPlanItemSpec := {|
  is_id := pi_id item;
  is_content := pi_content item;
  is_priority := pi_priority item;
  is_subsystem := pi_subsystem item;
  is_file_scope := pi_file_scope item;
  is_blocked_by := pi_blocked_by item;
|}.

Definition plan_definition `{HashOrder} (plan : VersionedPlan) : SwarmPlanDefinition := {|
  pd_version := vp_version plan;
  pd_participants := sort_strings (hash_elements (vp_participants plan));
  pd_items := item_spec <$> vp_items plan;
|}.

Definition execution_state (plan : VersionedPlan) : SwarmExecutionState := {|
  ex_items := (λ item, {|
    es_task_id := pi_id item;
    es_status := pi_status item;
    es_assigned_to := pi_assigned_to item;
    es_progress := vp_task_progress plan !! pi_id item;
  |}) <$> vp_items plan;
|}.

Record PlanGraphSummary := {
  ready_ids : list string;
  blocked_ids : list string;
  active_ids : list string;
  completed_ids : list string;
  terminal_ids : list string;
  unresolved_dependency_ids : list string;
  cycle_ids : list string;
}.

(** ** Statuses *)

Definition is_completed_status (status : string) : bool :=
  str_in status ["completed"; "done"].

Definition is_terminal_status (status : string) : bool :=
  str_in status ["completed"; "done"; "failed"; "stopped"; "crashed"].

Definition is_active_status (status : string) : bool :=
  str_in status ["running"; "running_stale"].

Definition is_runnable_status (status : string) : bool :=
  str_in status ["queued"; "ready"; "pending"; "todo"].

(** ** Control actions *)

Inductive TaskControlAction :=
| Start | Wake | Resume | Retry | Reassign | Replace | Salvage.

#[export] Instance TaskControlAction_eq_dec : EqDecision TaskControlAction.
Proof. solve_decision. Defined.

Definition action_parse (action : string) : option TaskControlAction :=
  if action =s "start" then Some Start
  else if action =s "wake" then Some Wake
  else if action =s "resume" then Some Resume
  else if action =s "retry" then Some Retry
  else if action =s "reassign" then Some Reassign
  else if action =s "replace" then Some Replace
  else if action =s "salvage" then Some Salvage
  else None.

Definition action_as_str (action : TaskControlAction) : string :=
  match action with
  | Start => "start"
  | Wake => "wake"
  | Resume => "resume"
  | Retry => "retry"
  | Reassign => "reassign"
  | Replace => "replace"
  | Salvage => "salvage"
  end.

Definition combine_assignment_text (content : string) (message : option string) : string :=
  match message with
  | Some extra =>
      content +:+ nl +:+ nl +:+ "Additional coordinator instructions:" +:+ nl +:+ extra
  | None => content
  end.

Definition restart_instruction_prefix (action : TaskControlAction) : option string :=
  match action with
  | Resume => Some
      "Resume your assigned task from the current session context and continue the work."
  | Retry => Some
      "Retry your assigned task. Fix any earlier issues and continue toward completion."
  | _ => None
  end.

Definition build_control_assignment_text
    (action : TaskControlAction) (content : string) (message : option string) : string :=
  let parts := [] in
  let parts := match restart_instruction_prefix action with
               | Some prefix => parts ++ [prefix]
               | None => parts
               end in
  let parts := parts ++ [content] in
  let parts := match message with
               | Some extra =>
                   parts ++ ["Additional coordinator instructions:" +:+ nl +:+ extra]
               | None => parts
               end in
  join (nl +:+ nl) parts.

Definition task_control_action_allows_status
    (action : TaskControlAction) (status : string) : bool :=
  match action with
  | Start | Wake => status =s "queued"
  | Resume => str_in status ["queued"; "running"; "running_stale"]
  | Retry => str_in status ["failed"; "running_stale"]
  | Reassign | Replace | Salvage => negb (str_in status ["done"])
  end.

Definition task_control_status_error
    (action : TaskControlAction) (status task_id : string) : string :=
  match action with
  | Start => "Task '" +:+ task_id +:+ "' is '" +:+ status +:+
      "' and cannot be started. Use start only for queued assignments."
  | Wake => "Task '" +:+ task_id +:+ "' is '" +:+ status +:+
      "' and cannot be woken. Use wake only for queued assignments."
  | Resume => "Task '" +:+ task_id +:+ "' is '" +:+ status +:+
      "' and cannot be resumed safely."
  | Retry => "Task '" +:+ task_id +:+ "' is '" +:+ status +:+
      "' and cannot be retried. Retry is only for failed or stale work."
  | Reassign => "Task '" +:+ task_id +:+
      "' is already complete. Reassign unfinished work instead."
  | Replace => "Task '" +:+ task_id +:+
      "' is already complete. Replace is only for unfinished work."
  | Salvage => "Task '" +:+ task_id +:+
      "' is already complete. Salvage is only for unfinished or failed work."
  end.

Definition priority_rank (priority : string) : nat :=
  if str_in priority ["high"; "urgent"; "p0"] then 0
  else if str_in priority ["medium"; "normal"; "p1"] then 1
  else if str_in priority ["low"; "p2"] then 2
  else 1.

(** ** Dependencies *)

Definition completed_item_ids (items : list PlanItem) : gset string :=
  list_to_set (pi_id <$> filter (λ item, is_completed_status (pi_status item)) items).

(** The set of the ids of the items, collected in several functions. *)
Definition known_item_ids (items : list PlanItem) : gset string :=
  list_to_set (pi_id <$> items).

Definition unresolved_dependencies
    (item : PlanItem) (known_ids completed_ids : gset string) : list string :=
  filter (λ dep, dep ∈ known_ids ∧ dep ∉ completed_ids) (pi_blocked_by item).

Definition missing_dependencies (item : PlanItem) (known_ids : gset string) : list string :=
  filter (λ dep, dep ∉ known_ids) (pi_blocked_by item).

Definition is_nil {A} (l : list A) : bool :=
  match l with [] => true | _ => false end.

Definition is_unblocked (item : PlanItem) (known_ids completed_ids : gset string) : bool :=
  is_nil (missing_dependencies item known_ids)
  && is_nil (unresolved_dependencies item known_ids completed_ids).

(** ** Cycle detection (Kahn's algorithm) *)

Abbreviation indegree_map := (gmap string nat).
Abbreviation dependents_map := (gmap string (list string)).

(** The first loop: [indegree.entry(id).or_insert(0)] for every item. *)
Definition indegree_init (items : list PlanItem) : indegree_map :=
  foldl (λ indegree item,
    match indegree !! pi_id item with
    | Some _ => indegree
    | None => <[pi_id item := 0]> indegree
    end) ∅ items.

(** The body of the second loop, for one dependency of the item [id]. *)
Definition add_dependency (id : string)
    (graph : indegree_map * dependents_map) (dependency : string)
    : indegree_map * dependents_map :=
  let '(indegree, dependents) := graph in
  (bump id 1 indegree,
   <[dependency := default [] (dependents !! dependency) ++ [id]]> dependents).

Definition add_item_dependencies (item_ids : gset string)
    (graph : indegree_map * dependents_map) (item : PlanItem)
    : indegree_map * dependents_map :=
  foldl (add_dependency (pi_id item)) graph
    (filter (λ dependency, dependency ∈ item_ids) (pi_blocked_by item)).

Definition build_graph (items : list PlanItem) : indegree_map * dependents_map :=
  foldl (add_item_dependencies (known_item_ids items)) (indegree_init items, ∅) items.

Record KahnState := {
  k_indegree : indegree_map;
  k_queue : list string;
  k_visited : gset string;
}.

(** One child of a visited item: its degree drops, and it is pushed at zero. *)
Definition relax_child (st : indegree_map * list string) (child : string)
    : indegree_map * list string :=
  let '(indegree, queue) := st in
  match indegree !! child with
  | Some degree =>
      let degree := degree - 1 in
      (<[child := degree]> indegree,
       if decide (degree = 0) then queue ++ [child] else queue)
  | None => st
  end.

(** The [while let Some(id) = queue.pop()] loop; [None] when the fuel runs out. *)
Fixpoint kahn_loop (fuel : nat) (dependents : dependents_map) (st : KahnState)
    : option KahnState :=
  match fuel with
  | O => None
  | S fuel =>
      match vec_pop (k_queue st) with
      | None => Some st
      | Some (id, queue) =>
          if decide (id ∈ k_visited st) then
            kahn_loop fuel dependents
              {| k_indegree := k_indegree st; k_queue := queue; k_visited := k_visited st |}
          else
            let visited := {[id]} ∪ k_visited st in
            let '(indegree, queue) :=
              match dependents !! id with
              | Some children => foldl relax_child (k_indegree st, queue) children
              | None => (k_indegree st, queue)
              end in
            kahn_loop fuel dependents
              {| k_indegree := indegree; k_queue := queue; k_visited := visited |}
      end
  end.

Section order.
Context `{HashOrder}.

Definition kahn_start (indegree : indegree_map) : KahnState := {|
  k_indegree := indegree;
  k_queue := omap (λ '(id, degree), if decide (degree = 0) then Some id else None)
               (hash_entries indegree);
  k_visited := ∅;
|}.

Definition cycle_item_ids (items : list PlanItem) : list string :=
  let '(indegree, dependents) := build_graph items in
  match kahn_loop (S (size indegree)) dependents (kahn_start indegree) with
  | Some st =>
      sort_strings (omap
        (λ '(id, degree),
          if decide (0 < degree ∧ id ∉ k_visited st) then Some id else None)
        (hash_entries (k_indegree st)))
  | None => []
  end.


(** ** The summary of the graph *)

(** The accumulators of the loop of [summarize_plan_graph]. *)
Record SummaryAcc := {
  sa_ready : list string;
  sa_blocked : list string;
  sa_active : list string;
  sa_completed : gset string;
  sa_terminal : gset string;
  sa_unresolved : gset string;
}.

Definition summary_start : SummaryAcc := {|
  sa_ready := []; sa_blocked := []; sa_active := [];
  sa_completed := ∅; sa_terminal := ∅; sa_unresolved := ∅;
|}.

Definition item_is_ready (known_ids completed_ids cycle_set : gset string)
    (item : PlanItem) : bool :=
  let missing := missing_dependencies item known_ids in
  let unresolved_for_item := unresolved_dependencies item known_ids completed_ids in
  let is_cyclic := bool_decide (pi_id item ∈ cycle_set) in
  let has_dependency_blocker := negb (is_nil unresolved_for_item) || is_cyclic in
  is_runnable_status (pi_status item) && is_nil missing && negb has_dependency_blocker.

Definition item_is_blocked (known_ids completed_ids cycle_set : gset string)
    (item : PlanItem) : bool :=
  let missing := missing_dependencies item known_ids in
  let unresolved_for_item := unresolved_dependencies item known_ids completed_ids in
  let is_cyclic := bool_decide (pi_id item ∈ cycle_set) in
  let has_dependency_blocker := negb (is_nil unresolved_for_item) || is_cyclic in
  negb (is_terminal_status (pi_status item))
  && negb (is_active_status (pi_status item))
  && (negb (is_nil missing) || has_dependency_blocker || (pi_status item =s "blocked")).

(** The body of the loop of [summarize_plan_graph]. *)
Definition summarize_item (known_ids completed_ids cycle_set : gset string)
    (acc : SummaryAcc) (item : PlanItem) : SummaryAcc :=
  let push (b : bool) (l : list string) := if b then l ++ [pi_id item] else l in
  let insert (b : bool) (s : gset string) := if b then {[pi_id item]} ∪ s else s in
  let ready := item_is_ready known_ids completed_ids cycle_set item in
  {| sa_ready := push ready (sa_ready acc);
     sa_blocked :=
       push (negb ready && item_is_blocked known_ids completed_ids cycle_set item)
         (sa_blocked acc);
     sa_active := push (is_active_status (pi_status item)) (sa_active acc);
     sa_completed := insert (is_completed_status (pi_status item)) (sa_completed acc);
     sa_terminal := insert (is_terminal_status (pi_status item)) (sa_terminal acc);
     sa_unresolved :=
       list_to_set (missing_dependencies item known_ids) ∪ sa_unresolved acc |}.

Definition summarize_plan_graph (items : list PlanItem) : PlanGraphSummary :=
  let known_ids := known_item_ids items in
  let completed := completed_item_ids items in
  let cycles := cycle_item_ids items in
  let acc := foldl (summarize_item known_ids completed (list_to_set cycles))
               summary_start items in
  {| ready_ids := sort_strings (sa_ready acc);
     blocked_ids := sort_strings (sa_blocked acc);
     active_ids := sort_strings (sa_active acc);
     completed_ids := btree_to_vec (sa_completed acc);
     terminal_ids := btree_to_vec (sa_terminal acc);
     unresolved_dependency_ids := btree_to_vec (sa_unresolved acc);
     cycle_ids := cycles |}.

(** ** Choosing work *)

(** The comparison of [next_runnable_item_ids]: priority rank, then id. *)
Definition runnable_leb (left right : PlanItem) : bool :=
  let l := priority_rank (pi_priority left) in
  let r := priority_rank (pi_priority right) in
  if l =? r then String.leb (pi_id left) (pi_id right) else l <? r.

Definition next_runnable_item_ids (items : list PlanItem) (limit : option usize)
    : list string :=
  let ready : gset string := list_to_set (ready_ids (summarize_plan_graph items)) in
  let ready_items := sort_by runnable_leb (filter (λ item, pi_id item ∈ ready) items) in
  let iter := pi_id <$> ready_items in
  match limit with
  | Some limit => take limit iter
  | None => iter
  end.

(** [items.iter().find(|item| item.id == id)] *)
Definition find_item (id : string) (items : list PlanItem) : option PlanItem :=
  List.find (λ item, pi_id item =s id) items.

Definition assignment_loads (plan : VersionedPlan) : gmap string nat :=
  foldl (λ loads item,
    if is_terminal_status (pi_status item) then loads
    else match pi_assigned_to item with
         | Some assignee => bump assignee 1 loads
         | None => loads
         end) ∅ (vp_items plan).

Definition next_unassigned_runnable_item_id (plan : VersionedPlan) : option string :=
  List.find (λ candidate_id,
      from_option (λ item, bool_decide (pi_assigned_to item = None)) false
        (find_item candidate_id (vp_items plan)))
    (next_runnable_item_ids (vp_items plan) None).

(** The sort key of [task_control_target_item_id]. *)
Definition control_rank (item : PlanItem) : nat :=
  let status := pi_status item in
  if str_in status ["running"; "running_stale"] then 0
  else if str_in status ["queued"; "ready"; "pending"; "todo"] then 1
  else if str_in status ["failed"; "stopped"; "crashed"] then 2
  else if str_in status ["completed"; "done"] then 3
  else 4.

Definition control_candidates (items : list PlanItem) (target_session : string)
    (action : TaskControlAction) : list PlanItem :=
  sort_by (λ left right, control_rank left <=? control_rank right)
    (filter (λ item, task_control_action_allows_status action (pi_status item) = true)
      (filter (λ item, pi_assigned_to item = Some target_session) items)).

(** [Ok id] is [inl id], [Err message] is [inr message]. *)
Definition task_control_target_item_id (items : list PlanItem) (target_session : string)
    (action : TaskControlAction) : string + string :=
  let candidates := control_candidates items target_session action in
  let ambiguous :=
    inr ("Multiple tasks assigned to '" +:+ target_session +:+ "' can be "
         +:+ action_as_str action +:+ ": " +:+ join ", " (pi_id <$> candidates)
         +:+ ". Provide task_id explicitly.") in
  match candidates with
  | [] =>
      inr ("No task assigned to '" +:+ target_session +:+ "' can be "
           +:+ action_as_str action
           +:+ ". Provide task_id explicitly, or assign a task first.")
  | [item] => inl (pi_id item)
  | first :: second :: _ =>
      if negb (pi_status first =s pi_status second) then inl (pi_id first) else ambiguous
  end.

Definition explicit_task_blocked_reason (plan : VersionedPlan) (task_id : string)
    : option string :=
  let known_ids := known_item_ids (vp_items plan) in
  let completed := completed_item_ids (vp_items plan) in
  let cycles : gset string := list_to_set (cycle_item_ids (vp_items plan)) in
  match find_item task_id (vp_items plan) with
  | None => None
  | Some item =>
      let missing := missing_dependencies item known_ids in
      if negb (is_nil missing) then
        Some ("Task '" +:+ pi_id item +:+ "' has missing dependencies: "
              +:+ join ", " missing)
      else
        let unresolved := unresolved_dependencies item known_ids completed in
        if negb (is_nil unresolved) then
          Some ("Task '" +:+ pi_id item +:+ "' is still blocked by: "
                +:+ join ", " unresolved)
        else if decide (pi_id item ∈ cycles) then
          Some ("Task '" +:+ pi_id item
                +:+ "' is part of a dependency cycle and is not runnable")
        else None
  end.

Record AssignmentAffinities := {
  aa_loads : gmap string nat;
  aa_dependency_carryover : gmap string nat;
  aa_metadata_carryover : gmap string nat;
}.

(** The first loop of [assignment_affinities_for_task], for one dependency. *)
Definition carry_dependency (plan : VersionedPlan)
    (carryover : gmap string nat) (dependency_id : string) : gmap string nat :=
  let carryover :=
    match find_item dependency_id (vp_items plan) ≫= pi_assigned_to with
    | Some owner => bump owner 1 carryover
    | None => carryover
    end in
  match vp_task_progress plan !! dependency_id ≫= tp_assigned_session_id with
  | Some owner => bump owner 1 carryover
  | None => carryover
  end.

(** The second loop, for one item of the plan. *)
Definition carry_metadata (task : PlanItem)
    (carryover : gmap string nat) (item : PlanItem) : gmap string nat :=
  match pi_assigned_to item with
  | None => carryover
  | Some owner =>
      if pi_id item =s pi_id task then carryover
      else
        let carryover :=
          match pi_subsystem task, pi_subsystem item with
          | Some l, Some r =>
              if l =s r then bump owner 2 carryover else carryover
          | _, _ => carryover
          end in
        if negb (is_nil (pi_file_scope task)) && negb (is_nil (pi_file_scope item)) then
          let overlap :=
            length (filter (λ path, path ∈ pi_file_scope item) (pi_file_scope task)) in
          if 0 <? overlap then bump owner overlap carryover else carryover
        else carryover
  end.

Definition assignment_affinities_for_task (plan : VersionedPlan) (task_id : string)
    : AssignmentAffinities + string :=
  let loads := assignment_loads plan in
  match find_item task_id (vp_items plan) with
  | None => inr ("Task '" +:+ task_id +:+ "' not found in swarm plan")
  | Some task => inl {|
      aa_loads := loads;
      aa_dependency_carryover :=
        foldl (carry_dependency plan) ∅ (pi_blocked_by task);
      aa_metadata_carryover :=
        foldl (carry_metadata task) ∅ (vp_items plan);
    |}
  end.

Definition newly_ready_item_ids (before after : list PlanItem) : list string :=
  let before_ready : gset string := list_to_set (ready_ids (summarize_plan_graph before)) in
  filter (λ item_id, item_id ∉ before_ready) (ready_ids (summarize_plan_graph after)).

End order.
