(* ===== verification/SwarmPlanTheorems.v ===== *)
(** * Properties of swarm plans

    What the summary of a plan means, that it does not depend on the order of
    hash tables, how the next items are chosen, and that a plan without
    cycles always has an item to run. *)

From S2P Require Import Prelude SwarmPlan.

(** * The cycle detection of swarm plans is correct

    [cycle_item_ids] runs Kahn's algorithm with a stack. The loop terminates
    within its fuel, the set it visits is exactly the set of items from which
    no dependency cycle can be reached, and the answer does not depend on the
    iteration order of the hash table. *)

(** ** The dependency relation *)

(** [depends_on items id dep]: an item called [id] is blocked by [dep], which
    is the id of an item of the plan. *)
Definition depends_on (items : list PlanItem) (id dep : string) : Prop :=
  ∃ item, item ∈ items ∧ pi_id item = id
          ∧ dep ∈ pi_blocked_by item ∧ dep ∈ known_item_ids items.

(** [id] depends, in zero or more steps, on an item that depends on itself. *)
Definition reaches_cycle (items : list PlanItem) (id : string) : Prop :=
  ∃ c, rtc (depends_on items) id c ∧ tc (depends_on items) c c.

Lemma elem_of_known_item_ids id items :
  id ∈ known_item_ids items ↔ ∃ item, item ∈ items ∧ pi_id item = id.
Proof.
  unfold known_item_ids. rewrite elem_of_list_to_set, list_elem_of_fmap. naive_solver.
Qed.

Lemma depends_on_known items id dep :
  depends_on items id dep → id ∈ known_item_ids items ∧ dep ∈ known_item_ids items.
Proof. intros (item & ? & <- & ? & ?). rewrite !elem_of_known_item_ids in *. eauto. Qed.

(** ** Finite graphs *)

Section finite_graph.
Context (R : string → string → Prop).

(** A walk from [x] through the vertices of [l], inside [S]. *)
Fixpoint walk (S : gset string) (x : string) (l : list string) : Prop :=
  match l with
  | [] => True
  | y :: l' => R x y ∧ y ∈ S ∧ walk S y l'
  end.

Lemma walk_tc S x l y : walk S x l → y ∈ l → tc R x y.
Proof.
  revert x. induction l as [|z l IH]; intros x; simpl; [set_solver|].
  intros (Hxz & _ & Hw) [->|Hy]%elem_of_cons; [by apply tc_once|].
  eapply tc_l; eauto.
Qed.

Lemma walk_repeats S x l :
  walk S x l → ¬ NoDup l → ∃ c, rtc R x c ∧ tc R c c.
Proof.
  revert x. induction l as [|y l IH]; intros x; simpl; [intros _ []; constructor|].
  intros (Hxy & _ & Hw) Hdup. destruct (decide (y ∈ l)) as [Hy|Hy].
  - exists y. split; [by apply rtc_once|by eapply walk_tc].
  - destruct (IH y Hw) as (c & ? & ?); [by rewrite NoDup_cons in Hdup; tauto|].
    exists c. split; [by eapply rtc_l|done].
Qed.

Lemma walk_incl S x l : walk S x l → ∀ y, y ∈ l → y ∈ S.
Proof.
  revert x. induction l as [|z l IH]; intros x; simpl; [set_solver|].
  intros (_ & ? & Hw) y [->|Hy]%elem_of_cons; eauto.
Qed.

Lemma walk_exists S n x :
  (∀ y, y ∈ S → ∃ z, z ∈ S ∧ R y z) → x ∈ S →
  ∃ l, length l = n ∧ walk S x l.
Proof.
  intros Hstep. revert x. induction n as [|n IH]; intros x Hx; [by exists []|].
  destruct (Hstep x Hx) as (y & Hy & Hxy). destruct (IH y Hy) as (l & <- & Hl).
  by exists (y :: l).
Qed.

(** Where every vertex of a finite set has a successor in the set, every
    vertex reaches a cycle. *)
Lemma total_graph_cycle (S : gset string) x :
  (∀ y, y ∈ S → ∃ z, z ∈ S ∧ R y z) → x ∈ S → ∃ c, rtc R x c ∧ tc R c c.
Proof.
  intros Hstep Hx.
  destruct (walk_exists S (1 + size S) x Hstep Hx) as (l & Hlen & Hw).
  apply (walk_repeats S x l Hw). intros Hnd.
  assert (size (list_to_set l : gset string) ≤ size S) as Hle.
  { apply subseteq_size. intros y. rewrite elem_of_list_to_set. by apply (walk_incl _ x). }
  rewrite size_list_to_set in Hle by done. lia.
Qed.

(** A vertex from which every walk ends reaches no cycle. *)
Lemma Acc_tc_irrefl x : Acc (flip R) x → ¬ tc R x x.
Proof.
  intros Hacc. assert (∀ y, tc R x y → Acc (flip R) y) as Hdown.
  { intros y Hxy. revert Hacc.
    induction Hxy as [x y Hxy|x y z Hxy Hyz IH]; intros Hacc; [by destruct Hacc; auto|].
    apply IH. by destruct Hacc; auto. }
  intros Hxx. induction Hacc as [x Hacc IH].
  inversion Hxx as [? ? Hs|? y ? Hs Hr]; subst; [by eapply (IH x Hs); eauto using tc_once|].
  apply (IH y Hs).
  - intros z Hz. apply Hdown. by eapply tc_l.
  - eapply tc_r; eauto.
Qed.

Lemma Acc_no_cycle x : Acc (flip R) x → ¬ ∃ c, rtc R x c ∧ tc R c c.
Proof.
  intros Hacc (c & Hxc & Hcc).
  induction Hxc as [c|x y c Hxy _ IH]; [by eapply Acc_tc_irrefl|].
  apply IH; [by destruct Hacc; auto|done].
Qed.
End finite_graph.

(** ** The graph built by the two loops *)

(** The edges of the graph as (dependency, dependent) pairs, in the order the
    second loop adds them. *)
Definition plan_edges (items : list PlanItem) : list (string * string) :=
  items ≫= λ item,
    (λ dep, (dep, pi_id item)) <$>
      filter (λ dep, dep ∈ known_item_ids items) (pi_blocked_by item).

Lemma elem_of_plan_edges items id dep :
  (dep, id) ∈ plan_edges items ↔ depends_on items id dep.
Proof.
  unfold plan_edges, depends_on. rewrite list_elem_of_bind.
  setoid_rewrite list_elem_of_fmap. setoid_rewrite list_elem_of_filter.
  split; [|naive_solver].
  intros (item & (d & [= -> ->] & ? & ?) & ?). eauto.
Qed.

Definition add_edge (graph : indegree_map * dependents_map) (e : string * string) :=
  add_dependency e.2 graph e.1.

Lemma build_graph_edges items :
  build_graph items = foldl add_edge (indegree_init items, ∅) (plan_edges items).
Proof.
  unfold build_graph, plan_edges. generalize (known_item_ids items) as ids.
  generalize (indegree_init items, ∅ : dependents_map) as g.
  induction items as [|item items IH]; intros g ids; [done|]; simpl.
  rewrite foldl_app, IH. f_equal. unfold add_item_dependencies. clear IH items.
  revert g. induction (filter _ _) as [|d ds IH]; intros g; [done|]; simpl. by rewrite IH.
Qed.

Lemma fold_edges_spec es g :
  let g' := foldl add_edge g es in
  (∀ n, counter g'.1 n = counter g.1 n + occ n es.*2)
  ∧ (∀ d, default [] (g'.2 !! d)
        = default [] (g.2 !! d) ++ (filter (λ e, e.1 = d) es).*2)
  ∧ dom g'.1 = dom g.1 ∪ list_to_set es.*2.
Proof.
  revert g. induction es as [|[d n] es IH]; intros [ind deps].
  { cbn. split_and!; [intros; rewrite occ_nil; lia|intros; by rewrite app_nil_r|set_solver]. }
  cbn [foldl]. destruct (IH (add_edge (ind, deps) (d, n))) as (H1 & H2 & H3).
  cbn zeta in *. rewrite !fmap_cons. split_and!.
  - intros m. rewrite H1, occ_cons. cbn. rewrite counter_bump. case_decide; lia.
  - intros d'. rewrite H2, filter_cons. cbn. rewrite lookup_insert.
    case_decide as E; [subst|done]. cbn. by rewrite <- app_assoc.
  - rewrite H3. cbn. unfold bump. set_solver.
Qed.

Lemma indegree_init_spec items :
  dom (indegree_init items) = known_item_ids items
  ∧ ∀ n, counter (indegree_init items) n = 0.
Proof.
  unfold indegree_init, known_item_ids.
  assert (∀ m : indegree_map, (∀ n, counter m n = 0) →
    let m' := foldl (λ indegree item, match indegree !! pi_id item with
      | Some _ => indegree | None => <[pi_id item := 0]> indegree end) m items in
    dom m' = dom m ∪ list_to_set (pi_id <$> items) ∧ ∀ n, counter m' n = 0) as Hfold.
  { induction items as [|item items IH]; intros m Hm; simpl; [split; [set_solver|done]|].
    destruct (m !! pi_id item) eqn:E.
    - apply elem_of_dom_2 in E. destruct (IH m Hm) as [-> ?]. split; [set_solver|done].
    - destruct (IH (<[pi_id item := 0]> m)) as [-> ?]; [|split; [set_solver|done]].
      intros n. unfold counter. rewrite lookup_insert. case_decide; [done|apply Hm]. }
  destruct (Hfold ∅) as [-> ?]; [done|]. split; [set_solver|done].
Qed.

(** ** The loop *)

(** The edges into [n] whose source is not visited yet. *)
Definition pending (es : list (string * string)) (visited : gset string) (n : string) : nat :=
  length (filter (λ e, e.2 = n ∧ e.1 ∉ visited) es).

Lemma pending_empty es n : pending es ∅ n = occ n es.*2.
Proof.
  unfold pending. induction es as [|[d m] es IH]; [done|].
  rewrite filter_cons, fmap_cons, occ_cons, <- IH; simpl.
  repeat case_decide; simpl; set_solver by lia.
Qed.

Lemma pending_zero es visited n :
  pending es visited n = 0 ↔ ∀ d, (d, n) ∈ es → d ∈ visited.
Proof.
  unfold pending. rewrite length_zero_iff_nil. split.
  - intros Hnil d Hd. destruct (decide (d ∈ visited)); [done|].
    assert ((d, n) ∈ filter (λ e, e.2 = n ∧ e.1 ∉ visited) es) as He
      by (by rewrite list_elem_of_filter).
    rewrite Hnil in He. by apply elem_of_nil in He.
  - intros Hd. destruct (filter _ es) as [|[d m] l] eqn:E; [done|].
    assert ((d, m) ∈ filter (λ e, e.2 = n ∧ e.1 ∉ visited) es) as He
      by (rewrite E; set_solver).
    apply list_elem_of_filter in He as [[? Hf] ?]; simpl in *; subst.
    destruct Hf. auto.
Qed.

(** Visiting [id] settles its edges to [n]. *)
Lemma pending_visit es visited id n :
  id ∉ visited →
  pending es visited n
  = pending es ({[id]} ∪ visited) n + occ n (filter (λ e, e.1 = id) es).*2.
Proof.
  intros Hid. unfold pending. induction es as [|[d m] es IH]; [done|].
  rewrite !filter_cons; simpl. repeat case_decide; destruct_all; simpl;
    rewrite ?occ_cons; repeat case_decide; simplify_eq/=; set_solver by lia.
Qed.

Lemma relax_children_spec cs indegree queue :
  (∀ n, occ n cs ≤ counter indegree n) →
  let st := foldl relax_child (indegree, queue) cs in
  (∀ n, st.1 !! n = (λ degree, degree - occ n cs) <$> indegree !! n)
  ∧ ∃ new, st.2 = queue ++ new ∧ NoDup new
    ∧ ∀ n, n ∈ new ↔ 0 < occ n cs ∧ indegree !! n = Some (occ n cs).
Proof.
  revert indegree queue. induction cs as [|c cs IH]; intros indegree queue Hocc.
  { simpl. split.
    - intros n. destruct (indegree !! n); simpl; [|done]. f_equal. rewrite occ_nil. lia.
    - exists []. rewrite app_nil_r. split_and!; [done|constructor|].
      intros n. rewrite occ_nil. split; [set_solver|lia]. }
  pose proof (Hocc c) as Hc. rewrite occ_cons, decide_True in Hc by done.
  unfold counter in Hc. destruct (indegree !! c) as [degree|] eqn:Ec; simpl in Hc; [|lia].
  simpl. rewrite Ec. destruct (IH (<[c := degree - 1]> indegree)
    (if decide (degree - 1 = 0) then queue ++ [c] else queue)) as [Hst (new & Hq & Hnd & Hnew)].
  { intros n. specialize (Hocc n). rewrite occ_cons in Hocc. unfold counter in *.
    rewrite lookup_insert. case_decide; simplify_eq/=; [|done]. lia. }
  split.
  - intros n. rewrite Hst, occ_cons, lookup_insert.
    destruct (decide (c = n)) as [->|]; [rewrite Ec; simpl; f_equal; lia|done].
  - rewrite Hq. case_decide as E.
    + exists (c :: new). rewrite <- app_assoc. split_and!; [done| |].
      * constructor; [|done]. rewrite Hnew, lookup_insert_eq. intros [? [= ?]]. lia.
      * intros n. rewrite elem_of_cons, Hnew, occ_cons, lookup_insert.
        destruct (decide (c = n)) as [->|]; [|naive_solver].
        split; [intros _|auto]. split; [lia|]. rewrite Ec. f_equal. lia.
    + exists new. split_and!; [done|done|]. intros n.
      rewrite Hnew, occ_cons, lookup_insert.
      destruct (decide (c = n)) as [->|]; [|done]. rewrite Ec.
      split; intros [? [= ?]]; split; try f_equal; lia.
Qed.

(** The invariant of the loop over the graph with edges [es] and vertices
    [ids]; [dependents] lists the targets of every source. *)
Record kahn_inv (es : list (string * string)) (ids : gset string) (st : KahnState) : Prop := {
  ki_degree n : k_indegree st !! n
    = if decide (n ∈ ids) then Some (pending es (k_visited st) n) else None;
  ki_nodup : NoDup (k_queue st);
  ki_fresh n : n ∈ k_queue st → n ∉ k_visited st;
  ki_zero n : n ∈ ids →
    pending es (k_visited st) n = 0 ↔ n ∈ k_queue st ∨ n ∈ k_visited st;
  ki_queue n : n ∈ k_queue st → n ∈ ids;
  ki_visited n : n ∈ k_visited st → n ∈ ids;
  ki_acc n : n ∈ k_visited st → Acc (flip (λ a b, (b, a) ∈ es)) n;
}.

Section loop.
Context (es : list (string * string)) (ids : gset string) (dependents : dependents_map).
Context (Hes : ∀ d n, (d, n) ∈ es → n ∈ ids).
Context (Hdeps : ∀ d, default [] (dependents !! d) = (filter (λ e, e.1 = d) es).*2).

Lemma relax_dependents id st :
  match dependents !! id with
  | Some children => foldl relax_child st children
  | None => st
  end = foldl relax_child st (filter (λ e, e.1 = id) es).*2.
Proof. rewrite <- Hdeps. by destruct (dependents !! id). Qed.

(** One iteration on a fresh vertex preserves the invariant. *)
Lemma kahn_visit st id queue :
  kahn_inv es ids st → k_queue st = queue ++ [id] →
  let r := foldl relax_child (k_indegree st, queue) (filter (λ e, e.1 = id) es).*2 in
  kahn_inv es ids
    {| k_indegree := r.1; k_queue := r.2; k_visited := {[id]} ∪ k_visited st |}.
Proof.
  intros [Hdeg Hnd Hfresh Hzero Hq Hv Hacc] Eq. rewrite Eq in *. cbn zeta.
  apply NoDup_app in Hnd as (Hndq & Hidq & _).
  assert (id ∉ k_visited st) as Hid by (apply Hfresh; set_solver).
  assert (id ∈ ids) as Hids by (apply Hq; set_solver).
  pose proof (λ n, pending_visit es (k_visited st) id n Hid) as Hsplit.
  destruct (relax_children_spec (filter (λ e, e.1 = id) es).*2 (k_indegree st) queue)
    as [Hdeg' (new & -> & Hnd' & Hnew)].
  { intros n. unfold counter. rewrite Hdeg. specialize (Hsplit n).
    case_decide as Hn; simpl; [lia|].
    enough (occ n (filter (λ e, e.1 = id) es).*2 = 0) by lia.
    apply occ_zero. rewrite list_elem_of_fmap. intros ([d m] & -> & Hm).
    apply list_elem_of_filter in Hm as [_ Hm]. by apply Hn, (Hes d m). }
  assert (∀ n, n ∈ new ↔ n ∈ ids ∧ 0 < pending es (k_visited st) n
    ∧ pending es ({[id]} ∪ k_visited st) n = 0) as Hnew'.
  { intros n. rewrite Hnew, Hdeg. specialize (Hsplit n).
    case_decide; [|naive_solver]. split; [intros [? [= ?]]; split_and!; [done|lia|lia]|].
    intros (_ & ? & ?). split; [lia|f_equal; lia]. }
  constructor; simpl.
  - intros n. rewrite Hdeg', Hdeg. specialize (Hsplit n).
    case_decide; simpl; [f_equal; lia|done].
  - apply NoDup_app. split_and!; [done| |done]. intros n Hn Hn'.
    apply Hnew' in Hn' as (? & ? & _). assert (pending es (k_visited st) n = 0); [|lia].
    apply Hzero; set_solver.
  - intros n [Hn|Hn]%elem_of_app; [specialize (Hfresh n); set_solver|].
    apply Hnew' in Hn as (? & ? & _). specialize (Hzero n). set_solver by lia.
  - intros n Hn. rewrite elem_of_app, Hnew'. specialize (Hzero n Hn). specialize (Hsplit n).
    destruct (decide (pending es (k_visited st) n = 0)) as [E|E];
      [set_solver by lia|]. split; [intros ?; left; right; split_and!; [done|lia|lia]|].
    intros [[?|(_ & _ & ?)]|?]; set_solver by lia.
  - intros n [Hn|Hn]%elem_of_app; [set_solver|]. apply Hnew' in Hn. tauto.
  - set_solver.
  - intros n [->%elem_of_singleton|Hn]%elem_of_union; [|auto].
    constructor. intros d Hd. apply Hacc. revert d Hd. simpl.
    apply pending_zero. apply Hzero; set_solver.
Qed.

(** The loop ends within its fuel, in a state of the invariant whose queue is
    empty. *)
Lemma kahn_loop_spec fuel st :
  kahn_inv es ids st → size (ids ∖ k_visited st) < fuel →
  ∃ st', kahn_loop fuel dependents st = Some st' ∧ kahn_inv es ids st' ∧ k_queue st' = [].
Proof.
  revert st. induction fuel as [|fuel IH]; intros st Hinv Hfuel; [lia|]. simpl.
  destruct (vec_pop (k_queue st)) as [[id queue]|] eqn:E;
    [|apply vec_pop_None in E; eauto].
  apply vec_pop_Some in E.
  assert (id ∉ k_visited st) as Hid by (eapply ki_fresh; [done|rewrite E; set_solver]).
  assert (id ∈ ids) as Hids by (eapply ki_queue; [done|rewrite E; set_solver]).
  rewrite decide_False by done. rewrite relax_dependents.
  pose proof (kahn_visit st id queue Hinv E) as Hinv'.
  destruct (foldl relax_child _ _) as [indegree queue'] eqn:Er.
  apply IH; [done|]. simpl.
  assert (size (ids ∖ ({[id]} ∪ k_visited st)) < size (ids ∖ k_visited st)); [|lia].
  apply subset_size. set_solver.
Qed.
End loop.

(** ** The result *)

Section cycles.
Context `{HashOrder}.

Lemma kahn_start_inv (es : list (string * string)) (ids : gset string) (indegree : indegree_map) :
  (∀ n, indegree !! n = if decide (n ∈ ids) then Some (pending es ∅ n) else None) →
  kahn_inv es ids (kahn_start indegree).
Proof.
  intros Hdeg.
  assert (∀ n, n ∈ k_queue (kahn_start indegree) ↔ indegree !! n = Some 0) as Hq.
  { intros n. simpl. rewrite list_elem_of_omap. setoid_rewrite <- elem_of_hash_entries.
    split; [intros ([id d] & ? & ?); case_decide; by simplify_eq|].
    intros Hn. by exists (n, 0). }
  assert (∀ n, indegree !! n = Some 0 ↔ n ∈ ids ∧ pending es ∅ n = 0) as H0.
  { intros n. rewrite Hdeg. case_decide; naive_solver. }
  constructor; try done.
  - simpl. apply NoDup_omap_keys, NoDup_hash_keys.
    intros id d x Hx. case_match; by simplify_eq.
  - intros n Hn. rewrite Hq, H0. simpl. set_solver.
  - intros n. rewrite Hq, H0. tauto.
Qed.

(** What the loop of [cycle_item_ids] ends with. *)
Lemma cycle_loop_result items :
  ∃ st, kahn_loop (S (size (build_graph items).1)) (build_graph items).2
          (kahn_start (build_graph items).1) = Some st
  ∧ kahn_inv (plan_edges items) (known_item_ids items) st ∧ k_queue st = [].
Proof.
  pose proof (build_graph_edges items) as Eg.
  destruct (fold_edges_spec (plan_edges items) (indegree_init items, ∅)) as (H1 & H2 & H3).
  rewrite <- Eg in H1, H2, H3. cbn [fst snd] in *.
  destruct (indegree_init_spec items) as [Hdom Hcnt].
  assert (∀ d n, (d, n) ∈ plan_edges items → n ∈ known_item_ids items) as Hes.
  { intros d n [? _]%elem_of_plan_edges%depends_on_known. done. }
  assert (dom (build_graph items).1 = known_item_ids items) as Hdom'.
  { rewrite H3, Hdom. apply set_eq. intros n.
    rewrite elem_of_union, elem_of_list_to_set, list_elem_of_fmap.
    split; [|auto]. intros [?|([d m] & -> & ?)]; [done|by eapply Hes]. }
  apply (kahn_loop_spec _ (known_item_ids items)); [done| | |].
  - intros d. by rewrite H2, lookup_empty.
  - apply kahn_start_inv. intros n. rewrite pending_empty.
    specialize (H1 n). unfold counter in H1.
    case_decide as Hn; [|by rewrite <- Hdom' in Hn; apply not_elem_of_dom].
    rewrite <- Hdom' in Hn. apply elem_of_dom in Hn as [k Hk].
    rewrite Hk in *. specialize (Hcnt n). unfold counter in Hcnt. simpl in H1.
    f_equal. lia.
  - simpl. rewrite <- Hdom', <- (size_dom (D := gset string) (build_graph items).1).
    apply Nat.lt_succ_r, subseteq_size. set_solver.
Qed.

(** The final state separates the items that reach a cycle from the others,
    below which every chain of dependencies ends. *)
Lemma kahn_final_visited items st :
  kahn_inv (plan_edges items) (known_item_ids items) st → k_queue st = [] →
  ∀ id, id ∈ known_item_ids items →
    (id ∉ k_visited st ↔ reaches_cycle items id)
    ∧ (id ∈ k_visited st → Acc (flip (depends_on items)) id).
Proof.
  intros Hinv Hq id Hid.
  assert (id ∈ k_visited st → Acc (flip (depends_on items)) id) as Hacc.
  { intros Hv%(ki_acc _ _ _ Hinv). eapply Acc_impl; [done|].
    intros a b. unfold flip. by rewrite elem_of_plan_edges. }
  split; [|done]. split; intros Hc.
  - apply (total_graph_cycle _ (known_item_ids items ∖ k_visited st)); [|set_solver].
    intros n [Hn Hv]%elem_of_difference.
    assert (pending (plan_edges items) (k_visited st) n ≠ 0) as Hp.
    { intros Hp%(ki_zero _ _ _ Hinv); [|done]. rewrite Hq in Hp. set_solver. }
    rewrite pending_zero in Hp.
    destruct (decide (Exists (λ e, e.2 = n ∧ e.1 ∉ k_visited st) (plan_edges items)))
      as [Hex|Hno].
    + apply Exists_exists in Hex as ([d m] & Hin & Em & Hd). simpl in *. subst m.
      apply elem_of_plan_edges in Hin. exists d.
      split; [|done]. apply elem_of_difference. by apply depends_on_known in Hin as [_ ?].
    + destruct Hp. intros d Hd. destruct (decide (d ∈ k_visited st)); [done|].
      destruct Hno. apply Exists_exists. by exists (d, n).
  - intros Hv. by apply (Acc_no_cycle (depends_on items) id); auto.
Qed.

Lemma reaches_cycle_known items id : reaches_cycle items id → id ∈ known_item_ids items.
Proof.
  assert (∀ a b, tc (depends_on items) a b → a ∈ known_item_ids items) as Htc.
  { intros a b Hab. by destruct Hab as [? ? []%depends_on_known|? ? ? []%depends_on_known]. }
  intros (c & Hr & Hc). destruct Hr as [|? ? ? []%depends_on_known]; [by eapply Htc|done].
Qed.

Lemma elem_of_cycle_item_ids items id :
  id ∈ cycle_item_ids items ↔ reaches_cycle items id.
Proof.
  destruct (cycle_loop_result items) as (st & Hrun & Hinv & Hq).
  pose proof (kahn_final_visited items st Hinv Hq id) as Hfinal.
  assert (reaches_cycle items id ↔ id ∈ known_item_ids items ∧ id ∉ k_visited st) as ->.
  { split; [|naive_solver]. intros Hc. pose proof (reaches_cycle_known items id Hc).
    naive_solver. }
  unfold cycle_item_ids. destruct (build_graph items) as [indegree dependents].
  cbn [fst snd] in Hrun. rewrite Hrun. unfold sort_strings.
  rewrite elem_of_sort_by, list_elem_of_omap. split.
  - intros ([id' d] & Hin%elem_of_hash_entries & Hd).
    rewrite (ki_degree _ _ _ Hinv) in Hin. do 2 case_decide; naive_solver.
  - intros [Hid Hv]. exists (id, pending (plan_edges items) (k_visited st) id).
    rewrite elem_of_hash_entries, (ki_degree _ _ _ Hinv), decide_True by done.
    split; [done|]. rewrite decide_True; [done|]. split; [|done].
    assert (pending (plan_edges items) (k_visited st) id ≠ 0); [|lia].
    intros Hp%(ki_zero _ _ _ Hinv); [|done]. rewrite Hq in Hp. set_solver.
Qed.

Lemma NoDup_cycle_item_ids items : NoDup (cycle_item_ids items).
Proof.
  unfold cycle_item_ids. destruct (build_graph items). case_match; [|constructor].
  unfold sort_strings. rewrite NoDup_sort_by.
  apply NoDup_omap_keys, NoDup_hash_keys.
  intros id d x Hx. case_match; by simplify_eq.
Qed.

Lemma sorted_cycle_item_ids items : sorted_strings (cycle_item_ids items).
Proof.
  unfold cycle_item_ids. destruct (build_graph items).
  case_match; [apply sort_strings_sorted|constructor].
Qed.

(** Below an item that reaches no cycle, every chain of dependencies ends. *)
Lemma acyclic_Acc items id :
  id ∈ known_item_ids items → ¬ reaches_cycle items id → Acc (flip (depends_on items)) id.
Proof.
  intros Hid Hc. destruct (cycle_loop_result items) as (st & _ & Hinv & Hq).
  destruct (kahn_final_visited items st Hinv Hq id Hid) as [Hv Hacc].
  apply Hacc. destruct (decide (id ∈ k_visited st)); naive_solver.
Qed.
End cycles.

#[export] Hint Resolve sorted_cycle_item_ids NoDup_cycle_item_ids : gcode.

(** ** Specifications *)

(** Every dependency of the item is the id of a completed item. *)
Definition dependencies_met (items : list PlanItem) (item : PlanItem) : Prop :=
  ∀ dep, dep ∈ pi_blocked_by item → dep ∈ completed_item_ids items.

Definition ready_item (items : list PlanItem) (item : PlanItem) : Prop :=
  is_runnable_status (pi_status item) = true
  ∧ dependencies_met items item ∧ ¬ reaches_cycle items (pi_id item).

Definition blocked_item (items : list PlanItem) (item : PlanItem) : Prop :=
  is_terminal_status (pi_status item) = false
  ∧ is_active_status (pi_status item) = false
  ∧ (¬ dependencies_met items item ∨ reaches_cycle items (pi_id item)
     ∨ pi_status item = "blocked").

(** The ids of the items that satisfy [P]. *)
Definition ids_where (items : list PlanItem) (P : PlanItem → Prop) (id : string) : Prop :=
  ∃ item, item ∈ items ∧ pi_id item = id ∧ P item.

Lemma ids_where_cons item items P id :
  ids_where (item :: items) P id ↔ (pi_id item = id ∧ P item) ∨ ids_where items P id.
Proof.
  unfold ids_where. setoid_rewrite elem_of_cons. split.
  - intros (i & [->|Hi] & Hid & HP); [by left|right; eauto].
  - intros [[Hid HP]|(i & Hi & Hid & HP)]; eauto.
Qed.

(** The statuses the code knows about. *)
Definition known_status (status : string) : Prop :=
  is_runnable_status status = true ∨ is_active_status status = true
  ∨ is_terminal_status status = true ∨ status = "blocked".

(** ** Statuses *)

Lemma status_disjoint s :
  (is_runnable_status s = true → is_active_status s = false
     ∧ is_terminal_status s = false ∧ s ≠ "blocked")
  ∧ (is_active_status s = true → is_terminal_status s = false ∧ s ≠ "blocked")
  ∧ (is_terminal_status s = true → s ≠ "blocked")
  ∧ (is_completed_status s = true → is_terminal_status s = true).
Proof.
  unfold is_runnable_status, is_active_status, is_terminal_status, is_completed_status.
  rewrite !str_in_spec, !str_in_false. set_solver.
Qed.

(** ** Dependencies *)

Lemma is_nil_true {A} (l : list A) : is_nil l = true ↔ l = [].
Proof. by destruct l. Qed.

Lemma filter_nil_iff {A} (P : A → Prop) `{∀ x, Decision (P x)} (l : list A) :
  filter P l = [] ↔ ∀ x, x ∈ l → ¬ P x.
Proof.
  split.
  - intros Hnil x Hx HP. assert (x ∈ filter P l) as Hin by by rewrite list_elem_of_filter.
    rewrite Hnil in Hin. by apply elem_of_nil in Hin.
  - intros Hno. destruct (filter P l) as [|y l'] eqn:E; [done|].
    assert (y ∈ filter P l) as Hy by (rewrite E; set_solver).
    apply list_elem_of_filter in Hy as [HP Hy]. by destruct (Hno y).
Qed.

Lemma elem_of_completed_item_ids items id :
  id ∈ completed_item_ids items
  ↔ ids_where items (λ item, is_completed_status (pi_status item) = true) id.
Proof.
  unfold completed_item_ids, ids_where. rewrite elem_of_list_to_set, list_elem_of_fmap.
  setoid_rewrite list_elem_of_filter. setoid_rewrite Is_true_true. naive_solver.
Qed.

Lemma completed_known items id :
  id ∈ completed_item_ids items → id ∈ known_item_ids items.
Proof. rewrite elem_of_completed_item_ids, elem_of_known_item_ids. firstorder. Qed.

(** [is_unblocked] is the conjunction the code tests in two steps. *)
Lemma is_unblocked_spec items item :
  is_unblocked item (known_item_ids items) (completed_item_ids items) = true
  ↔ dependencies_met items item.
Proof.
  unfold is_unblocked, missing_dependencies, unresolved_dependencies, dependencies_met.
  rewrite andb_true_iff, !is_nil_true, !filter_nil_iff. split.
  - intros [Hm Hu] dep Hdep. specialize (Hm dep Hdep). specialize (Hu dep Hdep).
    destruct (decide (dep ∈ completed_item_ids items)); [done|].
    destruct (decide (dep ∈ known_item_ids items)); tauto.
  - intros Hmet. split; intros dep Hdep; pose proof (completed_known items dep); naive_solver.
Qed.

Section theorems.
Context `{HashOrder}.

Abbreviation cycles_of items := (list_to_set (cycle_item_ids items) : gset string).

Lemma elem_of_cycles_of items id : id ∈ cycles_of items ↔ reaches_cycle items id.
Proof. by rewrite elem_of_list_to_set, elem_of_cycle_item_ids. Qed.

Lemma item_is_ready_spec items item :
  item_is_ready (known_item_ids items) (completed_item_ids items) (cycles_of items) item = true
  ↔ ready_item items item.
Proof.
  unfold ready_item. rewrite <- is_unblocked_spec, <- (elem_of_cycles_of items).
  unfold item_is_ready, is_unblocked.
  rewrite negb_orb, negb_involutive, !andb_true_iff, negb_true_iff, bool_decide_eq_false.
  tauto.
Qed.

Lemma item_is_blocked_spec items item :
  item_is_blocked (known_item_ids items) (completed_item_ids items) (cycles_of items) item = true
  ↔ blocked_item items item.
Proof.
  unfold blocked_item. rewrite <- is_unblocked_spec, <- (elem_of_cycles_of items).
  unfold item_is_blocked, is_unblocked.
  rewrite !andb_true_iff, !orb_true_iff, !negb_true_iff, bool_decide_eq_true, eqb_true.
  destruct (is_nil (missing_dependencies _ _)), (is_nil (unresolved_dependencies _ _ _));
    naive_solver.
Qed.

Lemma blocked_not_ready items item : blocked_item items item → ¬ ready_item items item.
Proof.
  intros (_ & _ & Hb) (Hr & Hmet & Hc).
  destruct Hb as [?|[?|Hs]]; [done|done|]. by apply status_disjoint in Hr as (_ & _ & ?).
Qed.

(** ** The loop of [summarize_plan_graph] *)

Lemma summarize_lists k c cy items acc :
  let acc' := foldl (summarize_item k c cy) acc items in
  let ids P := pi_id <$> filter (λ item, P item = true) items in
  sa_ready acc' = sa_ready acc ++ ids (item_is_ready k c cy)
  ∧ sa_blocked acc' = sa_blocked acc
      ++ ids (λ item, negb (item_is_ready k c cy item) && item_is_blocked k c cy item)
  ∧ sa_active acc' = sa_active acc ++ ids (λ item, is_active_status (pi_status item)).
Proof.
  revert acc. induction items as [|item items IH]; intros acc; cbn zeta in *.
  { cbn. by rewrite !app_nil_r. }
  cbn [foldl]. destruct (IH (summarize_item k c cy acc item)) as (-> & -> & ->).
  rewrite !filter_cons. cbn [summarize_item sa_ready sa_blocked sa_active].
  assert (∀ (b : bool) (l l' : list string),
    (if b then l ++ [pi_id item] else l) ++ l'
    = l ++ (if b then pi_id item :: l' else l')) as push.
  { intros [] ??; by rewrite <- ?app_assoc. }
  rewrite !push. split_and!; f_equal; case_decide as E;
    first [rewrite E | apply not_true_iff_false in E; rewrite E]; done.
Qed.

Lemma summarize_sets k c cy items acc :
  let acc' := foldl (summarize_item k c cy) acc items in
  ∀ id,
  (id ∈ sa_completed acc' ↔ id ∈ sa_completed acc
     ∨ ids_where items (λ item, is_completed_status (pi_status item) = true) id)
  ∧ (id ∈ sa_terminal acc' ↔ id ∈ sa_terminal acc
     ∨ ids_where items (λ item, is_terminal_status (pi_status item) = true) id)
  ∧ (id ∈ sa_unresolved acc' ↔ id ∈ sa_unresolved acc
     ∨ ∃ item, item ∈ items ∧ id ∈ pi_blocked_by item ∧ id ∉ k).
Proof.
  cbn zeta. intros id.
  revert acc. induction items as [|item items IH]; intros acc; [set_solver|].
  cbn [foldl]. destruct (IH (summarize_item k c cy acc item)) as (-> & -> & ->).
  cbn [summarize_item sa_completed sa_terminal sa_unresolved].
  rewrite !ids_where_cons.
  assert (∀ (b : bool) (s : gset string),
    id ∈ (if b then {[pi_id item]} ∪ s else s) ↔ id ∈ s ∨ (pi_id item = id ∧ b = true)) as insert.
  { intros [] s; [set_solver|]. intuition congruence. }
  rewrite !insert, elem_of_union, elem_of_list_to_set. unfold missing_dependencies.
  rewrite list_elem_of_filter. setoid_rewrite elem_of_cons.
  split_and!; [tauto|tauto|]. split.
  - intros [[?|?]|(i & ? & ?)]; [right; exists item|left|right; exists i]; tauto.
  - intros [?|(i & [->|?] & ?)]; [tauto|tauto|right; eauto].
Qed.

Lemma elem_of_ids_filter items (f : PlanItem → bool) P id :
  (∀ item, f item = true ↔ P item) →
  id ∈ pi_id <$> filter (λ item, f item = true) items ↔ ids_where items P id.
Proof.
  intros Hf. unfold ids_where. rewrite list_elem_of_fmap.
  setoid_rewrite list_elem_of_filter. setoid_rewrite Hf. naive_solver.
Qed.

Lemma elem_of_ready_ids items id :
  id ∈ ready_ids (summarize_plan_graph items) ↔ ids_where items (ready_item items) id.
Proof.
  unfold summarize_plan_graph. cbn [ready_ids]. unfold sort_strings.
  rewrite elem_of_sort_by.
  destruct (summarize_lists (known_item_ids items) (completed_item_ids items)
    (cycles_of items) items summary_start) as (-> & _ & _).
  apply elem_of_ids_filter, item_is_ready_spec.
Qed.

Lemma elem_of_blocked_ids items id :
  id ∈ blocked_ids (summarize_plan_graph items) ↔ ids_where items (blocked_item items) id.
Proof.
  unfold summarize_plan_graph. cbn [blocked_ids]. unfold sort_strings.
  rewrite elem_of_sort_by.
  destruct (summarize_lists (known_item_ids items) (completed_item_ids items)
    (cycles_of items) items summary_start) as (_ & -> & _).
  apply elem_of_ids_filter. intros item.
  rewrite andb_true_iff, negb_true_iff, <- not_true_iff_false.
  rewrite item_is_ready_spec, item_is_blocked_spec.
  pose proof (blocked_not_ready items item). tauto.
Qed.

Lemma elem_of_active_ids items id :
  id ∈ active_ids (summarize_plan_graph items)
  ↔ ids_where items (λ item, is_active_status (pi_status item) = true) id.
Proof.
  unfold summarize_plan_graph. cbn [active_ids]. unfold sort_strings.
  rewrite elem_of_sort_by.
  destruct (summarize_lists (known_item_ids items) (completed_item_ids items)
    (cycles_of items) items summary_start) as (_ & _ & ->).
  by apply elem_of_ids_filter.
Qed.

Lemma elem_of_set_ids items id :
  (id ∈ completed_ids (summarize_plan_graph items)
   ↔ ids_where items (λ item, is_completed_status (pi_status item) = true) id)
  ∧ (id ∈ terminal_ids (summarize_plan_graph items)
   ↔ ids_where items (λ item, is_terminal_status (pi_status item) = true) id)
  ∧ (id ∈ unresolved_dependency_ids (summarize_plan_graph items)
   ↔ ∃ item, item ∈ items ∧ id ∈ pi_blocked_by item ∧ id ∉ known_item_ids items).
Proof.
  unfold summarize_plan_graph.
  cbn [completed_ids terminal_ids unresolved_dependency_ids].
  rewrite !elem_of_btree_to_vec.
  destruct (summarize_sets (known_item_ids items) (completed_item_ids items)
    (cycles_of items) items summary_start id) as (-> & -> & ->).
  cbn [summary_start sa_completed sa_terminal sa_unresolved]. set_solver.
Qed.

(** C1. [cycle_item_ids] lists, in order and without repetition, exactly the
    ids from which a dependency cycle can be reached: the loop never runs out
    of fuel, and neither repeated ids nor repeated, dangling or self
    dependencies disturb the count of degrees. *)
Theorem cycle_item_ids_correct items :
  sorted_strings (cycle_item_ids items) ∧ NoDup (cycle_item_ids items)
  ∧ ∀ id, id ∈ cycle_item_ids items ↔ reaches_cycle items id.
Proof. split_and!; [auto with gcode..|apply elem_of_cycle_item_ids]. Qed.

(** The summary of a plan lists under each heading exactly the ids of the
    items the heading describes. *)
Theorem summarize_plan_graph_correct items id :
  let summary := summarize_plan_graph items in
  (id ∈ ready_ids summary ↔ ids_where items (ready_item items) id)
  ∧ (id ∈ blocked_ids summary ↔ ids_where items (blocked_item items) id)
  ∧ (id ∈ active_ids summary
     ↔ ids_where items (λ item, is_active_status (pi_status item) = true) id)
  ∧ (id ∈ completed_ids summary
     ↔ ids_where items (λ item, is_completed_status (pi_status item) = true) id)
  ∧ (id ∈ terminal_ids summary
     ↔ ids_where items (λ item, is_terminal_status (pi_status item) = true) id)
  ∧ (id ∈ unresolved_dependency_ids summary
     ↔ ∃ item, item ∈ items ∧ id ∈ pi_blocked_by item ∧ id ∉ known_item_ids items)
  ∧ cycle_ids summary = cycle_item_ids items.
Proof.
  cbn zeta. split; [apply elem_of_ready_ids|]. split; [apply elem_of_blocked_ids|].
  split; [apply elem_of_active_ids|].
  destruct (elem_of_set_ids items id) as (? & ? & ?). done.
Qed.

Lemma unique_ids_inj items i j :
  NoDup (pi_id <$> items) → i ∈ items → j ∈ items → pi_id i = pi_id j → i = j.
Proof.
  intros Hnd [n Hi]%list_elem_of_lookup [m Hj]%list_elem_of_lookup E.
  assert (n = m) as ->; [|congruence].
  eapply NoDup_lookup; [done|..]; rewrite list_lookup_fmap.
  - by rewrite Hi.
  - rewrite Hj. simpl. by rewrite E.
Qed.

Lemma ids_where_unique items item P :
  NoDup (pi_id <$> items) → item ∈ items → ids_where items P (pi_id item) ↔ P item.
Proof.
  intros Hnd Hitem. split; [|by exists item].
  intros (j & Hj & E & HP). by rewrite <- (unique_ids_inj items j item).
Qed.

Lemma filter_one_of_four {A} (P : A → Prop) `{∀ x, Decision (P x)} a b c d :
  (P a ∧ ¬ P b ∧ ¬ P c ∧ ¬ P d) ∨ (¬ P a ∧ P b ∧ ¬ P c ∧ ¬ P d)
  ∨ (¬ P a ∧ ¬ P b ∧ P c ∧ ¬ P d) ∨ (¬ P a ∧ ¬ P b ∧ ¬ P c ∧ P d) →
  ∃ x, filter P [a; b; c; d] = [x].
Proof.
  rewrite !filter_cons.
  intros [(? & ? & ? & ?)|[(? & ? & ? & ?)|[(? & ? & ? & ?)|(? & ? & ? & ?)]]];
    repeat first [rewrite decide_True by done | rewrite decide_False by done]; eauto.
Qed.

(** An item with a known status is in exactly one of the four classes. *)
Lemma item_class items item :
  known_status (pi_status item) →
  let r := ready_item items item in
  let b := blocked_item items item in
  let a := is_active_status (pi_status item) = true in
  let t := is_terminal_status (pi_status item) = true in
  (r ∧ ¬ b ∧ ¬ a ∧ ¬ t) ∨ (¬ r ∧ b ∧ ¬ a ∧ ¬ t) ∨ (¬ r ∧ ¬ b ∧ a ∧ ¬ t)
  ∨ (¬ r ∧ ¬ b ∧ ¬ a ∧ t).
Proof.
  intros Hknown. cbn zeta. unfold ready_item, blocked_item.
  destruct (status_disjoint (pi_status item)) as (Hr & Ha & Ht & _).
  destruct Hknown as [E|[E|[E|E]]].
  - destruct (Hr E) as (-> & -> & ?). rewrite E.
    rewrite <- elem_of_cycle_item_ids, <- is_unblocked_spec.
    destruct (is_unblocked _ _ _), (decide (pi_id item ∈ cycle_item_ids items));
      intuition congruence.
  - destruct (Ha E) as (-> & ?). rewrite E.
    assert (is_runnable_status (pi_status item) ≠ true) by (intros ?%Hr; destruct_all; congruence).
    right; right; left. split_and!; [tauto|by intros (_ & [=] & _)|done|done].
  - rewrite E. assert (is_runnable_status (pi_status item) ≠ true)
      by (intros ?%Hr; destruct_all; congruence).
    assert (is_active_status (pi_status item) ≠ true) by (intros ?%Ha; destruct_all; congruence).
    right; right; right. split_and!; [tauto|by intros ([=] & _)|done|done].
  - rewrite E. cbn. right; left. split_and!; [by intros [[=] _]|done|done|tauto|by intros [=]|by intros [=]].
Qed.

(** With unique ids, an item with a status the code knows is in exactly
    one of the ready, blocked, active and terminal lists. *)
Theorem summary_partition items item :
  NoDup (pi_id <$> items) → item ∈ items → known_status (pi_status item) →
  let summary := summarize_plan_graph items in
  ∃ l, filter (λ l, pi_id item ∈ l)
    [ready_ids summary; blocked_ids summary; active_ids summary; terminal_ids summary] = [l].
Proof.
  intros Hnd Hitem Hknown summary. apply filter_one_of_four. unfold summary.
  destruct (elem_of_set_ids items (pi_id item)) as (_ & -> & _).
  rewrite elem_of_ready_ids, elem_of_blocked_ids, elem_of_active_ids.
  rewrite !ids_where_unique by done. by apply item_class.
Qed.

(** ** Choosing the next items *)

Lemma runnable_leb_total x y : runnable_leb x y = true ∨ runnable_leb y x = true.
Proof.
  unfold runnable_leb. rewrite (Nat.eqb_sym (priority_rank (pi_priority y))).
  destruct (Nat.eqb_spec (priority_rank (pi_priority x)) (priority_rank (pi_priority y)));
    [apply String.leb_total|]. rewrite !Nat.ltb_lt. lia.
Qed.

Lemma runnable_leb_trans x y z :
  runnable_leb x y = true → runnable_leb y z = true → runnable_leb x z = true.
Proof.
  unfold runnable_leb.
  destruct (Nat.eqb_spec (priority_rank (pi_priority x)) (priority_rank (pi_priority y))),
    (Nat.eqb_spec (priority_rank (pi_priority y)) (priority_rank (pi_priority z))),
    (Nat.eqb_spec (priority_rank (pi_priority x)) (priority_rank (pi_priority z)));
    rewrite ?Nat.ltb_lt; try lia; apply string_leb_trans.
Qed.

Lemma elem_of_next_runnable items id :
  id ∈ next_runnable_item_ids items None ↔ ids_where items (ready_item items) id.
Proof.
  pose proof (elem_of_ready_ids items id) as Hready. rewrite <- Hready.
  unfold next_runnable_item_ids.
  generalize dependent (ready_ids (summarize_plan_graph items)). intros ready Hready.
  rewrite list_elem_of_fmap. setoid_rewrite elem_of_sort_by.
  setoid_rewrite list_elem_of_filter. setoid_rewrite elem_of_list_to_set.
  split; [by intros (x & -> & ? & ?)|].
  intros Hid. pose proof Hid as (item & ? & <- & _)%Hready. by exists item.
Qed.

(** [next_runnable_item_ids] is the list of all items with a ready id, by
    increasing priority rank and, at equal rank, by id; a limit keeps a
    prefix. *)
Theorem next_runnable_item_ids_correct items limit :
  ∃ chosen : list PlanItem,
    chosen ≡ₚ filter (λ item, pi_id item ∈ ready_ids (summarize_plan_graph items)) items
    ∧ StronglySorted (λ i j, priority_rank (pi_priority i) < priority_rank (pi_priority j)
        ∨ priority_rank (pi_priority i) = priority_rank (pi_priority j)
          ∧ String.leb (pi_id i) (pi_id j) = true) chosen
    ∧ next_runnable_item_ids items limit
      = match limit with Some n => take n (pi_id <$> chosen) | None => pi_id <$> chosen end.
Proof.
  set (ready := ready_ids (summarize_plan_graph items)).
  exists (sort_by runnable_leb (filter (λ item, pi_id item ∈ (list_to_set ready : gset string)) items)).
  split_and!; [|eapply (StronglySorted_impl (λ i j, runnable_leb i j = true))|done].
  - rewrite sort_by_perm, (list_filter_iff _ (λ item, pi_id item ∈ ready)); [done|].
    intros item. apply elem_of_list_to_set.
  - intros i j. unfold runnable_leb. destruct (Nat.eqb_spec
      (priority_rank (pi_priority i)) (priority_rank (pi_priority j))); [intros ?; right; by split|].
    rewrite Nat.ltb_lt. auto.
  - apply sort_by_sorted; [apply runnable_leb_total|apply runnable_leb_trans].
Qed.

(** Below an incomplete item of an acyclic plan with no dangling dependency
    there is an incomplete item whose dependencies are all complete. *)
Lemma minimal_incomplete items id :
  (∀ item dep, item ∈ items → dep ∈ pi_blocked_by item → dep ∈ known_item_ids items) →
  Acc (flip (depends_on items)) id →
  ids_where items (λ item, is_completed_status (pi_status item) = false) id →
  ∃ item, item ∈ items ∧ is_completed_status (pi_status item) = false
    ∧ dependencies_met items item.
Proof.
  intros Hdangling. induction 1 as [id _ IH].
  intros (item & Hitem & <- & Hopen).
  destruct (decide (Forall (λ dep, dep ∈ completed_item_ids items) (pi_blocked_by item)))
    as [Hall|Hsome].
  { exists item. split_and!; [done..|]. by rewrite Forall_forall in Hall. }
  apply not_Forall_Exists in Hsome; [|intros x; apply _].
  apply Exists_exists in Hsome as (dep & Hdep & Hnot).
  apply (IH dep).
  - exists item. split_and!; eauto.
  - pose proof (Hdangling item dep Hitem Hdep) as Hk.
    apply elem_of_known_item_ids in Hk as (j & Hj & <-). exists j. split_and!; [done..|].
    apply not_true_iff_false. intros Hc. apply Hnot, elem_of_completed_item_ids. by exists j.
Qed.

(** C2. A plan cannot get stuck: when no item reaches a cycle, no dependency
    is dangling, and every item is either complete or runnable, an incomplete
    plan has a next runnable item. *)
Theorem plan_progress items :
  cycle_item_ids items = [] →
  unresolved_dependency_ids (summarize_plan_graph items) = [] →
  (∀ item, item ∈ items →
    is_completed_status (pi_status item) = true ∨ is_runnable_status (pi_status item) = true) →
  (∃ item, item ∈ items ∧ is_completed_status (pi_status item) = false) →
  next_runnable_item_ids items None ≠ [].
Proof.
  intros Hcyc Hdang Hstatus (start & Hstart & Hopen).
  assert (∀ id, ¬ reaches_cycle items id) as Hacyclic.
  { intros id. rewrite <- elem_of_cycle_item_ids, Hcyc. set_solver. }
  destruct (minimal_incomplete items (pi_id start)) as (item & Hitem & Ho & Hmet).
  - intros item dep Hi Hd. destruct (decide (dep ∈ known_item_ids items)); [done|].
    assert (dep ∈ unresolved_dependency_ids (summarize_plan_graph items)) as Hin
      by (apply elem_of_set_ids; eauto).
    rewrite Hdang in Hin. by apply elem_of_nil in Hin.
  - apply acyclic_Acc; [|apply Hacyclic]. apply elem_of_known_item_ids. eauto.
  - by exists start.
  - assert (pi_id item ∈ next_runnable_item_ids items None) as Hin.
    { apply elem_of_next_runnable. exists item. split_and!; [done..|].
      split; [|split; [done|apply Hacyclic]]. destruct (Hstatus item Hitem); congruence. }
    intros Hnil. rewrite Hnil in Hin. by apply elem_of_nil in Hin.
Qed.

(** ** Why a task is blocked *)

(** [explicit_task_blocked_reason] gives no reason exactly when the task's
    dependencies are complete and it reaches no cycle; for a runnable task
    with unique ids this is the same as being listed as ready. *)
Theorem explicit_reason_correct plan task_id item :
  find_item task_id (vp_items plan) = Some item →
  (explicit_task_blocked_reason plan task_id = None
   ↔ dependencies_met (vp_items plan) item ∧ ¬ reaches_cycle (vp_items plan) task_id)
  ∧ (NoDup (pi_id <$> vp_items plan) → is_runnable_status (pi_status item) = true →
     explicit_task_blocked_reason plan task_id = None
     ↔ task_id ∈ ready_ids (summarize_plan_graph (vp_items plan))).
Proof.
  intros Hfind. pose proof Hfind as [Hin Hid]%find_some.
  apply eqb_true in Hid. apply list_elem_of_In in Hin. subst task_id.
  assert (explicit_task_blocked_reason plan (pi_id item) = None
    ↔ dependencies_met (vp_items plan) item
      ∧ ¬ reaches_cycle (vp_items plan) (pi_id item)) as Hnone.
  { unfold explicit_task_blocked_reason. rewrite Hfind.
    rewrite <- is_unblocked_spec, <- elem_of_cycles_of. unfold is_unblocked.
    destruct (is_nil (missing_dependencies _ _)), (is_nil (unresolved_dependencies _ _ _)),
      (decide (pi_id item ∈ cycles_of (vp_items plan))); cbn [negb andb]; intuition congruence. }
  split; [done|]. intros Hnd Hrun.
  rewrite Hnone, elem_of_ready_ids, ids_where_unique by done. unfold ready_item. tauto.
Qed.

(** ** Completing an item *)

(** The plan after the items called [k] are marked as completed. *)
Definition complete_item (k : string) (items : list PlanItem) : list PlanItem :=
  (λ item,
    if pi_id item =s k then
      {| pi_content := pi_content item; pi_status := "completed";
         pi_priority := pi_priority item; pi_id := pi_id item;
         pi_subsystem := pi_subsystem item; pi_file_scope := pi_file_scope item;
         pi_blocked_by := pi_blocked_by item; pi_assigned_to := pi_assigned_to item |}
    else item) <$> items.

Lemma elem_of_complete_item k items item' :
  item' ∈ complete_item k items → ∃ item, item ∈ items
    ∧ pi_id item' = pi_id item ∧ pi_blocked_by item' = pi_blocked_by item
    ∧ (pi_id item = k ∧ pi_status item' = "completed" ∨ pi_id item ≠ k ∧ item' = item).
Proof.
  unfold complete_item. rewrite list_elem_of_fmap. intros (item & -> & Hin).
  exists item. destruct (String.eqb_spec (pi_id item) k); naive_solver.
Qed.

Lemma complete_item_elem k items item :
  item ∈ items → ∃ item', item' ∈ complete_item k items
    ∧ pi_id item' = pi_id item ∧ pi_blocked_by item' = pi_blocked_by item
    ∧ (pi_id item = k → pi_status item' = "completed") ∧ (pi_id item ≠ k → item' = item).
Proof.
  intros Hin. unfold complete_item.
  eexists. split; [by apply list_elem_of_fmap_2|]. cbn beta.
  destruct (String.eqb_spec (pi_id item) k); naive_solver.
Qed.

Lemma known_complete_item k items :
  known_item_ids (complete_item k items) = known_item_ids items.
Proof.
  apply set_eq. intros id. rewrite !elem_of_known_item_ids. split.
  - intros (i' & (i & ? & ? & _)%elem_of_complete_item & <-). by exists i.
  - intros (i & (i' & ? & ? & _)%(complete_item_elem k) & <-). by exists i'.
Qed.

Lemma depends_on_complete_item k items a b :
  depends_on (complete_item k items) a b ↔ depends_on items a b.
Proof.
  unfold depends_on. rewrite known_complete_item. split.
  - intros (i' & (i & ? & -> & -> & _)%elem_of_complete_item & <- & ?). by exists i.
  - intros (i & (i' & ? & <- & <- & _)%(complete_item_elem k) & <- & ?). by exists i'.
Qed.

Lemma reaches_cycle_complete_item k items id :
  reaches_cycle (complete_item k items) id ↔ reaches_cycle items id.
Proof.
  assert (∀ l l', (∀ a b, depends_on l a b → depends_on l' a b) →
    reaches_cycle l id → reaches_cycle l' id) as Hmono.
  { intros l l' Hl (c & Hr & Hc). exists c.
    split; [exact (rtc_congruence (λ x, x) (depends_on l') id c Hl Hr)
           |exact (tc_congruence (λ x, x) (depends_on l') c c Hl Hc)]. }
  split; apply Hmono; intros a b; by rewrite depends_on_complete_item.
Qed.

Lemma completed_complete_item k items id :
  id ∈ completed_item_ids (complete_item k items)
  ↔ id ∈ completed_item_ids items ∨ id = k ∧ k ∈ known_item_ids items.
Proof.
  rewrite !elem_of_completed_item_ids, elem_of_known_item_ids. unfold ids_where. split.
  - intros (i' & (i & Hi & -> & _ & Hs)%elem_of_complete_item & <- & Hc).
    destruct Hs as [[E _]|[_ ->]]; [right; split; [congruence|eauto]|left; eauto].
  - intros [(i & Hi & E & Hc)|[-> (i & Hi & E)]];
      apply (complete_item_elem k) in Hi as (i' & Hi' & Hid & _ & Hk & Hnk);
      exists i'; split_and!; try (congruence || done).
    + destruct (decide (pi_id i = k)) as [E'|E']; [by rewrite Hk|by rewrite Hnk].
    + by rewrite Hk.
Qed.

(** Completing an item keeps every other ready item ready, and what
    [newly_ready_item_ids] then reports are exactly the tasks that waited for
    it: each has the completed item among its dependencies. *)
Theorem completion_unblocks k items id :
  (id ∈ ready_ids (summarize_plan_graph items) → id ≠ k →
   id ∈ ready_ids (summarize_plan_graph (complete_item k items)))
  ∧ (id ∈ newly_ready_item_ids items (complete_item k items) →
     ∃ item, item ∈ items ∧ pi_id item = id ∧ k ∈ pi_blocked_by item
       ∧ k ∉ completed_item_ids items
       ∧ ∀ dep, dep ∈ pi_blocked_by item → dep = k ∨ dep ∈ completed_item_ids items).
Proof.
  unfold newly_ready_item_ids.
  rewrite list_elem_of_filter, elem_of_list_to_set, !elem_of_ready_ids. split.
  - intros (i & Hi & Hid & Hr & Hmet & Hc) Hk.
    apply (complete_item_elem k) in Hi as (i' & Hi' & E & Eb & _ & Hnk).
    rewrite Hnk in * by congruence. exists i. split_and!; [done..|].
    split; [done|]. rewrite reaches_cycle_complete_item. split; [|done].
    intros dep Hdep. apply completed_complete_item. left. by apply Hmet.
  - intros [Hnot (i' & Hi' & <- & Hr & Hmet & Hc)].
    apply elem_of_complete_item in Hi' as (i & Hi & E & Eb & Hs).
    destruct Hs as [[_ Hs]|[Hik ->]]; [by rewrite Hs in Hr|].
    rewrite reaches_cycle_complete_item in Hc.
    assert (∀ dep, dep ∈ pi_blocked_by i → dep = k ∨ dep ∈ completed_item_ids items) as Hdeps.
    { intros dep Hdep. specialize (Hmet dep Hdep). rewrite completed_complete_item in Hmet. tauto. }
    assert (¬ dependencies_met items i) as Hopen.
    { intros Hall. apply Hnot. exists i. by split_and!. }
    exists i. split_and!; [done..| | |done].
    + destruct (decide (k ∈ pi_blocked_by i)) as [|Hno]; [done|]. destruct Hopen.
      intros dep Hdep. destruct (Hdeps dep Hdep) as [->|]; done.
    + intros Hk. apply Hopen. intros dep Hdep. by destruct (Hdeps dep Hdep) as [->|].
Qed.
End theorems.

(** ** Concrete plans *)

Definition sample_item (id status : string) (blocked_by : list string)
    (assigned_to : option string) : PlanItem := {|
  pi_content := "content of " +:+ id; pi_status := status; pi_priority := "high";
  pi_id := id; pi_subsystem := None; pi_file_scope := [];
  pi_blocked_by := blocked_by; pi_assigned_to := assigned_to |}.

Definition sample_plan : VersionedPlan := {|
  vp_items := [sample_item "a" "done" [] (Some "s1"); sample_item "b" "queued" ["a"] None;
               sample_item "c" "queued" ["b"] None];
  vp_version := 3; vp_participants := {["s1"]}; vp_task_progress := ∅ |}.

Definition cyclic_items : list PlanItem :=
  [sample_item "x" "queued" ["y"; "y"] None; sample_item "y" "queued" ["x"] None;
   sample_item "z" "queued" ["y"; "missing"] None; sample_item "z" "done" [] None;
   sample_item "w" "queued" ["z"] None].

Example cyclic_items_summary :
  summarize_plan_graph cyclic_items = {|
    ready_ids := []; blocked_ids := ["w"; "x"; "y"; "z"]; active_ids := [];
    completed_ids := ["z"]; terminal_ids := ["z"];
    unresolved_dependency_ids := ["missing"]; cycle_ids := ["w"; "x"; "y"; "z"] |}.
Proof. vm_compute. reflexivity. Qed.

Lemma sample_plan_unique : NoDup (pi_id <$> vp_items sample_plan).
Proof. apply (bool_decide_unpack _). vm_compute. exact I. Qed.

Lemma summary_partition_witness :
  let summary := summarize_plan_graph (vp_items sample_plan) in
  ∃ l, filter (λ l, "b" ∈ l)
    [ready_ids summary; blocked_ids summary; active_ids summary; terminal_ids summary] = [l].
Proof.
  refine (summary_partition (vp_items sample_plan) (sample_item "b" "queued" ["a"] None)
    sample_plan_unique _ _); [right; left|left; reflexivity].
Defined.

Lemma plan_progress_witness : next_runnable_item_ids (vp_items sample_plan) None ≠ [].
Proof.
  apply plan_progress; [vm_compute; reflexivity|vm_compute; reflexivity|..].
  - intros item Hitem. apply (bool_decide_unpack _).
    repeat (apply elem_of_cons in Hitem as [->|Hitem]; [vm_compute; exact I|]).
    by apply elem_of_nil in Hitem.
  - exists (sample_item "b" "queued" ["a"] None). split; [right; left|reflexivity].
Defined.

Lemma explicit_reason_witness :
  dependencies_met (vp_items sample_plan) (sample_item "b" "queued" ["a"] None)
  ∧ ¬ reaches_cycle (vp_items sample_plan) "b".
Proof.
  apply (explicit_reason_correct sample_plan "b" (sample_item "b" "queued" ["a"] None) eq_refl).
  vm_compute. reflexivity.
Defined.

(** * Task control and assignment in swarm plans

    That nothing the plan computes depends on the order of hash tables, which
    task a control action targets, which unassigned task comes next, and what
    the assignment affinities count. *)

(** ** Specifications *)

(** The tasks of a session to which an action applies. *)
Definition controllable (items : list PlanItem) (target_session : string)
    (action : TaskControlAction) (item : PlanItem) : Prop :=
  item ∈ items ∧ pi_assigned_to item = Some target_session
  ∧ task_control_action_allows_status action (pi_status item) = true.

(** What one item adds to the metadata carry-over of [owner]. *)
Definition metadata_share (task : PlanItem) (owner : string) (item : PlanItem) : nat :=
  if decide (pi_assigned_to item = Some owner ∧ pi_id item ≠ pi_id task) then
    (if decide (is_Some (pi_subsystem task) ∧ pi_subsystem task = pi_subsystem item)
     then 2 else 0)
    + length (filter (λ path, path ∈ pi_file_scope item) (pi_file_scope task))
  else 0.

(** ** Independence of the order of hash tables *)

Lemma sorted_strings_ext l1 l2 :
  sorted_strings l1 → sorted_strings l2 → NoDup l1 → NoDup l2 →
  (∀ x, x ∈ l1 ↔ x ∈ l2) → l1 = l2.
Proof.
  intros H1 H2 N1 N2 E. rewrite <- (sort_strings_id l1), <- (sort_strings_id l2) by done.
  by apply sort_strings_unique, NoDup_Permutation.
Qed.

Lemma cycle_item_ids_order (O1 O2 : HashOrder) items :
  cycle_item_ids (H := O1) items = cycle_item_ids (H := O2) items.
Proof.
  apply sorted_strings_ext; [apply sorted_cycle_item_ids|apply sorted_cycle_item_ids
    |apply NoDup_cycle_item_ids|apply NoDup_cycle_item_ids|].
  intros id. by rewrite !elem_of_cycle_item_ids.
Qed.

Lemma summarize_order (O1 O2 : HashOrder) items :
  summarize_plan_graph (H := O1) items = summarize_plan_graph (H := O2) items.
Proof. unfold summarize_plan_graph. by rewrite (cycle_item_ids_order O1 O2). Qed.

(** Nothing the plan computes depends on the iteration order of the hash
    tables it uses inside: two runs give the same answers. *)
Theorem plan_order_irrelevant (O1 O2 : HashOrder) plan items after limit task_id :
  plan_definition (H := O1) plan = plan_definition (H := O2) plan
  ∧ summarize_plan_graph (H := O1) items = summarize_plan_graph (H := O2) items
  ∧ next_runnable_item_ids (H := O1) items limit = next_runnable_item_ids (H := O2) items limit
  ∧ next_unassigned_runnable_item_id (H := O1) plan
    = next_unassigned_runnable_item_id (H := O2) plan
  ∧ explicit_task_blocked_reason (H := O1) plan task_id
    = explicit_task_blocked_reason (H := O2) plan task_id
  ∧ newly_ready_item_ids (H := O1) items after = newly_ready_item_ids (H := O2) items after.
Proof.
  assert (∀ items limit, next_runnable_item_ids (H := O1) items limit
    = next_runnable_item_ids (H := O2) items limit) as Hnext.
  { intros items' limit'. unfold next_runnable_item_ids. by rewrite (summarize_order O1 O2). }
  split_and!.
  - unfold plan_definition. f_equal. apply sort_strings_unique. by rewrite !hash_elements_perm.
  - apply summarize_order.
  - apply Hnext.
  - unfold next_unassigned_runnable_item_id. by rewrite Hnext.
  - unfold explicit_task_blocked_reason. by rewrite (cycle_item_ids_order O1 O2).
  - unfold newly_ready_item_ids. by rewrite !(summarize_order O1 O2).
Qed.

(** ** Control actions *)

Lemma elem_of_control_candidates items target_session action item :
  item ∈ control_candidates items target_session action
  ↔ controllable items target_session action item.
Proof.
  unfold control_candidates, controllable. rewrite elem_of_sort_by, !list_elem_of_filter. tauto.
Qed.

Lemma control_candidates_sorted items target_session action :
  StronglySorted (λ i j, control_rank i ≤ control_rank j)
    (control_candidates items target_session action).
Proof.
  eapply (StronglySorted_impl (λ i j, (control_rank i <=? control_rank j) = true)).
  { intros i j. apply Nat.leb_le. }
  apply sort_by_sorted; intros *; rewrite ?Nat.leb_le; lia.
Qed.

(** The target of a control action is a task of the session that the
    action allows and that comes first among those (active work before queued
    work, queued before failed); there is an error exactly when there is no
    such task, or when the two first ones have the same status. *)
Theorem task_control_target_correct items target_session action :
  match task_control_target_item_id items target_session action with
  | inl id => ∃ item, controllable items target_session action item ∧ pi_id item = id
      ∧ ∀ other, controllable items target_session action other →
          control_rank item ≤ control_rank other
  | inr _ => (∀ item, ¬ controllable items target_session action item)
      ∨ ∃ first second others,
          control_candidates items target_session action = first :: second :: others
          ∧ pi_status first = pi_status second
  end.
Proof.
  pose proof (elem_of_control_candidates items target_session action) as Hin.
  pose proof (control_candidates_sorted items target_session action) as Hs.
  unfold task_control_target_item_id.
  destruct (control_candidates items target_session action) as [|i l].
  { left. intros item. rewrite <- Hin. apply not_elem_of_nil. }
  apply StronglySorted_inv in Hs as [_ Hall]. rewrite Forall_forall in Hall.
  assert (∃ item, controllable items target_session action item ∧ pi_id item = pi_id i
    ∧ ∀ other, controllable items target_session action other →
        control_rank item ≤ control_rank other) as Hfirst.
  { exists i. split_and!; [apply Hin, list_elem_of_here|done|].
    intros other. rewrite <- Hin, elem_of_cons. intros [->|Ho]; [done|by apply Hall]. }
  destruct l as [|j l]; [done|].
  destruct (String.eqb_spec (pi_status i) (pi_status j)) as [E|E]; cbn [negb]; [|done].
  right. by exists i, j, l.
Qed.

(** ** Unassigned work *)

Lemma find_item_unique items item :
  NoDup (pi_id <$> items) → item ∈ items → find_item (pi_id item) items = Some item.
Proof.
  intros Hnd Hitem. unfold find_item. destruct (List.find _ items) as [j|] eqn:E.
  - apply find_some in E as [Hj%list_elem_of_In E%eqb_true].
    f_equal. by apply (unique_ids_inj items).
  - pose proof (find_none _ _ E item) as Hn. rewrite <- list_elem_of_In in Hn.
    apply Hn in Hitem. by apply eqb_false in Hitem.
Qed.

Lemma find_split {A} (f : A → bool) l :
  match List.find f l with
  | Some x => ∃ l1 l2, l = l1 ++ x :: l2 ∧ f x = true ∧ ∀ y, y ∈ l1 → f y = false
  | None => ∀ y, y ∈ l → f y = false
  end.
Proof.
  induction l as [|x l IH]; simpl; [set_solver|].
  destruct (f x) eqn:E; [exists [], l; split_and!; [done..|set_solver]|].
  destruct (List.find f l) as [z|].
  - destruct IH as (l1 & l2 & -> & Hz & Hl1). exists (x :: l1), l2.
    split_and!; [done..|]. intros y [->|Hy]%elem_of_cons; auto.
  - intros y [->|Hy]%elem_of_cons; auto.
Qed.

Section unassigned.
Context `{HashOrder}.

Lemma next_runnable_items items :
  ∃ chosen, next_runnable_item_ids items None = pi_id <$> chosen
    ∧ (∀ item, item ∈ chosen → item ∈ items)
    ∧ StronglySorted (λ i j, runnable_leb i j = true) chosen.
Proof.
  eexists. split; [done|]. split.
  - intros item. rewrite elem_of_sort_by, list_elem_of_filter. tauto.
  - apply sort_by_sorted; [apply runnable_leb_total|apply runnable_leb_trans].
Qed.

(** With unique ids, the next unassigned task is a ready task without an
    assignee that precedes every other such task; there is none exactly when
    every ready task is assigned. *)
Theorem next_unassigned_correct plan :
  NoDup (pi_id <$> vp_items plan) →
  match next_unassigned_runnable_item_id plan with
  | Some id => ∃ item, item ∈ vp_items plan ∧ pi_id item = id
      ∧ ready_item (vp_items plan) item ∧ pi_assigned_to item = None
      ∧ ∀ other, other ∈ vp_items plan → ready_item (vp_items plan) other →
          pi_assigned_to other = None → runnable_leb item other = true
  | None => ∀ item, item ∈ vp_items plan → ready_item (vp_items plan) item →
      pi_assigned_to item ≠ None
  end.
Proof.
  intros Hnd. destruct (next_runnable_items (vp_items plan)) as (chosen & E & Hsub & Hs).
  assert (∀ item, item ∈ vp_items plan →
    item ∈ chosen ↔ ready_item (vp_items plan) item) as Hready.
  { intros item Hi. rewrite <- (ids_where_unique _ _ _ Hnd Hi), <- elem_of_next_runnable, E.
    rewrite list_elem_of_fmap. split; [eauto|]. intros (j & Ej & Hj).
    by rewrite (unique_ids_inj (vp_items plan) item j) by auto. }
  unfold next_unassigned_runnable_item_id. rewrite E.
  set (free := λ id, from_option _ _ (find_item id _)).
  assert (∀ item, item ∈ vp_items plan →
    free (pi_id item) = true ↔ pi_assigned_to item = None) as Hfree.
  { intros item Hi. unfold free. rewrite find_item_unique by done. simpl.
    by rewrite bool_decide_eq_true. }
  pose proof (find_split free (pi_id <$> chosen)) as Hfind.
  destruct (List.find free (pi_id <$> chosen)) as [id|].
  - destruct Hfind as (l1 & l2 & Hc & Hid & Hbefore).
    apply fmap_app_inv in Hc as (c1 & c2 & -> & Hc2 & ->).
    symmetry in Hc2. apply fmap_cons_inv in Hc2 as (item & c3 & -> & -> & ->).
    assert (item ∈ vp_items plan) as Hi by (apply Hsub; set_solver).
    exists item. split_and!; [done|done|apply Hready; set_solver|by apply Hfree|].
    intros other Ho Hr Hn. apply Hready in Hr; [|done].
    apply elem_of_app in Hr as [Hr|[->|Hr]%elem_of_cons].
    + apply (list_elem_of_fmap_2 pi_id), Hbefore in Hr. apply Hfree in Hn; congruence.
    + destruct (runnable_leb_total item item); done.
    + apply StronglySorted_app_1_r in Hs. apply StronglySorted_inv in Hs as [_ Hall].
      rewrite Forall_forall in Hall. by apply Hall.
  - intros item Hi Hr. apply Hready in Hr; [|done].
    apply (list_elem_of_fmap_2 pi_id), Hfind in Hr. rewrite <- Hfree by done. congruence.
Qed.
End unassigned.

(** ** Assignment affinities *)

(** A fold of counter updates adds up what every step adds. *)
Lemma counter_foldl {A} (step : gmap string nat → A → gmap string nat)
    (gain : A → nat) owner l m :
  (∀ m x, counter (step m x) owner = counter m owner + gain x) →
  counter (foldl step m l) owner = counter m owner + sum_list_with gain l.
Proof.
  intros Hstep. revert m. induction l as [|x l IH]; intros m; simpl; [lia|].
  rewrite IH, Hstep. lia.
Qed.

Lemma sum_list_with_filter {A} (P : A → Prop) `{∀ x, Decision (P x)} l :
  sum_list_with (λ x, if decide (P x) then 1 else 0) l = length (filter P l).
Proof.
  induction l as [|x l IH]; simpl; [done|]. rewrite IH, filter_cons. by case_decide.
Qed.

Lemma counter_bump_option (o : option string) n m owner :
  counter (match o with Some k => bump k n m | None => m end) owner
  = counter m owner + (if decide (o = Some owner) then n else 0).
Proof.
  destruct o as [k|]; [|by rewrite decide_False, Nat.add_0_r].
  rewrite counter_bump. repeat case_decide; simplify_eq; lia.
Qed.

Lemma assignment_loads_counter plan owner :
  counter (assignment_loads plan) owner
  = length (filter (λ item, is_terminal_status (pi_status item) = false
      ∧ pi_assigned_to item = Some owner) (vp_items plan)).
Proof.
  unfold assignment_loads. erewrite counter_foldl; [apply sum_list_with_filter|].
  intros m item. cbn beta. destruct (is_terminal_status (pi_status item)).
  - rewrite decide_False by (intros [[=] _]). lia.
  - rewrite counter_bump_option. f_equal. repeat case_decide; tauto.
Qed.

Lemma carry_dependency_counter plan owner m dep :
  counter (carry_dependency plan m dep) owner
  = counter m owner
    + ((if decide (find_item dep (vp_items plan) ≫= pi_assigned_to = Some owner) then 1 else 0)
       + (if decide (vp_task_progress plan !! dep ≫= tp_assigned_session_id = Some owner)
          then 1 else 0)).
Proof. unfold carry_dependency. rewrite !counter_bump_option. lia. Qed.

Lemma carry_metadata_counter task owner m item :
  counter (carry_metadata task m item) owner = counter m owner + metadata_share task owner item.
Proof.
  unfold carry_metadata, metadata_share.
  destruct (pi_assigned_to item) as [k|]; [|rewrite decide_False by (by intros [[=] _]); lia].
  destruct (String.eqb_spec (pi_id item) (pi_id task)) as [E|E].
  { rewrite decide_False by tauto. lia. }
  set (overlap := length _).
  set (m' := match pi_subsystem task with Some _ => _ | None => _ end).
  assert (counter m' owner = counter m owner
    + (if decide (k = owner) then
         if decide (is_Some (pi_subsystem task) ∧ pi_subsystem task = pi_subsystem item)
         then 2 else 0 else 0)) as Hm.
  { subst m'. destruct (pi_subsystem task) as [l|], (pi_subsystem item) as [r|];
      [destruct (String.eqb_spec l r) as [->|]; [rewrite counter_bump|]|..];
      repeat case_decide; destruct_all; simplify_eq; unfold is_Some in *; try lia; naive_solver. }
  assert (∀ n, counter (if negb (is_nil (pi_file_scope task)) && negb (is_nil (pi_file_scope item))
      then if 0 <? overlap then bump k overlap m' else m' else m') n
    = counter m' n + (if decide (k = n) then overlap else 0)) as Ho.
  { intros n. clear Hm. subst overlap. clearbody m'.
    destruct (pi_file_scope task) as [|p ps]; cbn [is_nil negb andb].
    { rewrite filter_nil. case_decide; cbn [length]; lia. }
    destruct (pi_file_scope item) as [|q qs]; cbn [is_nil negb andb].
    - assert (length (filter (λ path, path ∈ ([] : list string)) (p :: ps)) = 0) as ->.
      { apply length_zero_iff_nil, filter_nil_iff. intros x _. apply not_elem_of_nil. }
      case_decide; lia.
    - destruct (Nat.ltb_spec 0 (length (filter (λ path, path ∈ q :: qs) (p :: ps)))) as [|Hz];
        [by rewrite counter_bump|]. case_decide; lia. }
  rewrite Ho, Hm. repeat case_decide; destruct_all; simplify_eq; tauto || lia.
Qed.

(** The affinities of a task count, for every session: the unfinished
    items it is assigned to; the dependencies of the task it owns or last
    worked on; and over its other items, two for the subsystem of the task
    and one for every file of the task that is in their scope. *)
Theorem assignment_affinities_correct plan task_id :
  match assignment_affinities_for_task plan task_id with
  | inr _ => ∀ item, item ∈ vp_items plan → pi_id item ≠ task_id
  | inl affinities => ∃ task, find_item task_id (vp_items plan) = Some task ∧ ∀ owner,
      counter (aa_loads affinities) owner
      = length (filter (λ item, is_terminal_status (pi_status item) = false
          ∧ pi_assigned_to item = Some owner) (vp_items plan))
      ∧ counter (aa_dependency_carryover affinities) owner
        = sum_list_with (λ dep,
            (if decide (find_item dep (vp_items plan) ≫= pi_assigned_to = Some owner)
             then 1 else 0)
            + (if decide (vp_task_progress plan !! dep ≫= tp_assigned_session_id = Some owner)
               then 1 else 0)) (pi_blocked_by task)
      ∧ counter (aa_metadata_carryover affinities) owner
        = sum_list_with (metadata_share task owner) (vp_items plan)
  end.
Proof.
  unfold assignment_affinities_for_task. destruct (find_item task_id (vp_items plan)) as [task|] eqn:E.
  - exists task. split; [done|]. intros owner.
    cbn [aa_loads aa_dependency_carryover aa_metadata_carryover]. split_and!.
    + apply assignment_loads_counter.
    + exact (counter_foldl _ _ _ _ ∅ (carry_dependency_counter plan owner)).
    + exact (counter_foldl _ _ _ _ ∅ (carry_metadata_counter task owner)).
  - intros item Hi <-. pose proof (find_none _ _ E item) as Hn.
    rewrite <- list_elem_of_In in Hn. apply Hn in Hi. by apply eqb_false in Hi.
Qed.

Lemma next_unassigned_witness :
  ∃ item, item ∈ vp_items sample_plan ∧ pi_id item = "b"
    ∧ ready_item (vp_items sample_plan) item ∧ pi_assigned_to item = None
    ∧ ∀ other, other ∈ vp_items sample_plan → ready_item (vp_items sample_plan) other →
        pi_assigned_to other = None → runnable_leb item other = true.
Proof. exact (next_unassigned_correct sample_plan sample_plan_unique). Defined.
