(* ===== verification/SwarmCore.v ===== *)
(** * Swarm membership and channels
    ([crates/gcode-swarm-core/src/lib.rs], [src/server/swarm_channels.rs])

    Roles and lifecycle statuses, the bidirectional index of channel
    subscriptions and the server functions over it, and the texts of
    completion reports. *)

From S2P Require Import Prelude Utf8 SwarmPlan.

Definition MAX_SWARM_COMPLETION_REPORT_CHARS : usize := 4000.
Definition SWARM_COMPLETION_REPORT_MARKER : string := "SWARM COMPLETION REPORT REQUIRED".

(** ** Roles and statuses *)

Inductive SwarmRole :=
| Agent | Coordinator | WorktreeManager
| OtherRole (value : string).

#[export] Instance SwarmRole_eq_dec : EqDecision SwarmRole.
Proof. solve_decision. Defined.

Definition role_as_str (role : SwarmRole) : string :=
  match role with
  | Agent => "agent"
  | Coordinator => "coordinator"
  | WorktreeManager => "worktree_manager"
  | OtherRole value => value
  end.

Definition role_from (value : string) : SwarmRole :=
  if value =s "agent" then Agent
  else if value =s "coordinator" then Coordinator
  else if value =s "worktree_manager" then WorktreeManager
  else OtherRole value.

Inductive SwarmLifecycleStatus :=
| Spawned | Ready | Running | RunningStale | Completed | Done | Failed
| Stopped | Crashed | Queued | Blocked | Pending | Todo
| OtherStatus (value : string).

#[export] Instance SwarmLifecycleStatus_eq_dec : EqDecision SwarmLifecycleStatus.
Proof. solve_decision. Defined.

Definition status_as_str (status : SwarmLifecycleStatus) : string :=
  match status with
  | Spawned => "spawned"
  | Ready => "ready"
  | Running => "running"
  | RunningStale => "running_stale"
  | Completed => "completed"
  | Done => "done"
  | Failed => "failed"
  | Stopped => "stopped"
  | Crashed => "crashed"
  | Queued => "queued"
  | Blocked => "blocked"
  | Pending => "pending"
  | Todo => "todo"
  | OtherStatus value => value
  end.

Definition status_from (value : string) : SwarmLifecycleStatus :=
  if value =s "spawned" then Spawned
  else if value =s "ready" then Ready
  else if value =s "running" then Running
  else if value =s "running_stale" then RunningStale
  else if value =s "completed" then Completed
  else if value =s "done" then Done
  else if value =s "failed" then Failed
  else if value =s "stopped" then Stopped
  else if value =s "crashed" then Crashed
  else if value =s "queued" then Queued
  else if value =s "blocked" then Blocked
  else if value =s "pending" then Pending
  else if value =s "todo" then Todo
  else OtherStatus value.

Record SwarmMemberRecord := {
  sm_session_id : string;
  sm_working_dir : option string;
  sm_swarm_id : option string;
  sm_swarm_enabled : bool;
  sm_status : SwarmLifecycleStatus;
  sm_detail : option string;
  sm_friendly_name : option string;
  sm_report_back_to_session_id : option string;
  sm_latest_completion_report : option string;
  sm_role : SwarmRole;
  sm_is_headless : bool;
}.

(** ** The index of channel subscriptions *)

Abbreviation subscriptions := (gmap string (gmap string (gset string))).

Record ChannelIndex := {
  by_swarm_channel : subscriptions;
  by_session : subscriptions;
}.

Definition index_default : ChannelIndex := {| by_swarm_channel := ∅; by_session := ∅ |}.

(** [map.entry(k1).or_default().entry(k2).or_default().insert(x)] *)
Definition entry_insert (k1 k2 x : string) (map : subscriptions) : subscriptions :=
  let inner := default ∅ (map !! k1) in
  <[k1 := <[k2 := {[x]} ∪ default ∅ (inner !! k2)]> inner]> map.

Definition subscribe (index : ChannelIndex) (session_id swarm_id channel : string)
    : ChannelIndex := {|
  by_swarm_channel := entry_insert swarm_id channel session_id (by_swarm_channel index);
  by_session := entry_insert session_id swarm_id channel (by_session index);
|}.

(** [if let Some(members) = swarm_subs.get_mut(channel) { .. }]: the member
    leaves the channel, and an empty channel is removed. *)
Definition remove_member (session_id : string) (swarm_subs : gmap string (gset string))
    (channel : string) : gmap string (gset string) :=
  match swarm_subs !! channel with
  | Some members =>
      let members := members ∖ {[session_id]} in
      if decide (members = ∅) then delete channel swarm_subs
      else <[channel := members]> swarm_subs
  | None => swarm_subs
  end.

(** [if let Some(swarm_subs) = map.get_mut(swarm_id) { .. }], followed by the
    removal of the swarm when nothing of it is left. *)
Definition update_swarm (swarm_id : string)
    (update : gmap string (gset string) → gmap string (gset string))
    (map : subscriptions) : subscriptions :=
  match map !! swarm_id with
  | Some swarm_subs =>
      let swarm_subs := update swarm_subs in
      let remove_swarm := bool_decide (swarm_subs = ∅) in
      if remove_swarm then delete swarm_id map else <[swarm_id := swarm_subs]> map
  | None => map
  end.

(** The second half of [unsubscribe], on the entry of the session. *)
Definition unsubscribe_session (session_id swarm_id channel : string)
    (map : subscriptions) : subscriptions :=
  match map !! session_id with
  | Some session_subs =>
      let '(session_subs, remove_swarm_entry) :=
        match session_subs !! swarm_id with
        | Some channels =>
            let channels := channels ∖ {[channel]} in
            (<[swarm_id := channels]> session_subs, bool_decide (channels = ∅))
        | None => (session_subs, false)
        end in
      let session_subs :=
        if remove_swarm_entry : bool then delete swarm_id session_subs else session_subs in
      let remove_session_entry := bool_decide (session_subs = ∅) in
      if remove_session_entry then delete session_id map
      else <[session_id := session_subs]> map
  | None => map
  end.

Definition unsubscribe (index : ChannelIndex) (session_id swarm_id channel : string)
    : ChannelIndex := {|
  by_swarm_channel :=
    update_swarm swarm_id (λ swarm_subs, remove_member session_id swarm_subs channel)
      (by_swarm_channel index);
  by_session := unsubscribe_session session_id swarm_id channel (by_session index);
|}.

Section order.
Context `{HashOrder}.

(** The loop over the subscriptions of the session. *)
Definition remove_known (session_id : string)
    (session_subscriptions : gmap string (gset string)) (map : subscriptions)
    : subscriptions :=
  foldl (λ map '(swarm_id, channels),
    update_swarm swarm_id
      (λ swarm_subs, foldl (remove_member session_id) swarm_subs (hash_elements channels))
      map) map (hash_entries session_subscriptions).

(** The loop over every channel, for a session without an entry. *)
Definition remove_unknown (session_id : string) (map : subscriptions) : subscriptions :=
  let swarm_ids := (hash_entries map).*1 in
  foldl (λ map swarm_id,
    update_swarm swarm_id
      (λ swarm_subs,
        let channel_names := (hash_entries swarm_subs).*1 in
        foldl (remove_member session_id) swarm_subs channel_names)
      map) map swarm_ids.

Definition remove_session (index : ChannelIndex) (session_id : string) : ChannelIndex :=
  match by_session index !! session_id with
  | Some session_subscriptions => {|
      by_swarm_channel :=
        remove_known session_id session_subscriptions (by_swarm_channel index);
      by_session := delete session_id (by_session index);
    |}
  | None => {|
      by_swarm_channel := remove_unknown session_id (by_swarm_channel index);
      by_session := by_session index;
    |}
  end.

Definition members (index : ChannelIndex) (swarm_id channel : string) : list string :=
  sort_strings
    (default [] (hash_elements <$>
      (by_swarm_channel index !! swarm_id ≫= λ swarm_subs, swarm_subs !! channel))).

Definition channels_for_session (index : ChannelIndex) (session_id swarm_id : string)
    : list string :=
  sort_strings
    (default [] (hash_elements <$>
      (by_session index !! session_id ≫= λ session_subs, session_subs !! swarm_id))).

(** ** The server's functions over its two maps

    The server keeps the two maps of the index behind two locks, and takes both
    for every change: a change is one step on the pair of maps. *)

Definition with_channel_index_mut (mutate : ChannelIndex → ChannelIndex)
    (state : subscriptions * subscriptions) : subscriptions * subscriptions :=
  let '(subs, reverse) := state in
  let index := mutate {| by_swarm_channel := subs; by_session := reverse |} in
  (by_swarm_channel index, by_session index).

Definition remove_session_channel_subscriptions (session_id : string) :=
  with_channel_index_mut (λ index, remove_session index session_id).

Definition subscribe_session_to_channel (session_id swarm_id channel : string) :=
  with_channel_index_mut (λ index, subscribe index session_id swarm_id channel).

Definition unsubscribe_session_from_channel (session_id swarm_id channel : string) :=
  with_channel_index_mut (λ index, unsubscribe index session_id swarm_id channel).

Definition list_channels_for_swarm (swarm_id : string) (subs : subscriptions)
    : list (string * usize) :=
  let index := {| by_swarm_channel := subs; by_session := ∅ |} in
  sort_by (λ left right, String.leb left.1 right.1)
    (default [] ((λ swarm_channels,
        (λ '(channel, members), (channel, size members)) <$> hash_entries swarm_channels)
      <$> by_swarm_channel index !! swarm_id)).
End order.

(** ** Completion reports *)

Definition report_instructions : string :=
  nl +:+ "Before finishing, call the swarm tool with action=" +:+ dquote +:+ "report"
  +:+ dquote +:+ " to submit your completion report. "
  +:+ "Include a concise message, validation/tests performed, and blockers or follow-ups. "
  +:+ "After the report tool succeeds, also write a brief final assistant response. "
  +:+ "Do not finish with only tool output, a lifecycle status change, or no final response. "
  +:+ "Do not send a separate DM for the final report unless you need interactive coordination before finishing."
  +:+ nl.

Definition append_swarm_completion_report_instructions (message : string) : string :=
  if str_contains SWARM_COMPLETION_REPORT_MARKER message then message
  else
    let out := trim_end message in
    let out := if negb (out =s "") then out +:+ nl +:+ nl else out in
    let out := out +:+ "<system-reminder>" +:+ nl in
    let out := out +:+ SWARM_COMPLETION_REPORT_MARKER in
    let out := out +:+ report_instructions in
    out +:+ "</system-reminder>".

(** [option.map(str::trim).filter(|value| !value.is_empty())] *)
Definition trimmed_nonempty (value : option string) : option string :=
  match trim <$> value with
  | Some value => if value =s "" then None else Some value
  | None => None
  end.

(** Adds a titled section to a report. *)
Definition push_section (title : string) (section : option string) (report : string)
    : string :=
  match section with
  | Some text =>
      let report := if negb (report =s "") then report +:+ nl +:+ nl else report in
      report +:+ title +:+ nl +:+ text
  | None => report
  end.

Definition format_structured_completion_report
    (message : string) (validation follow_up : option string) : string :=
  let report := trim message in
  let report := push_section "Validation:" (trimmed_nonempty validation) report in
  push_section "Follow-ups/blockers:" (trimmed_nonempty follow_up) report.

Definition truncation_suffix : string :=
  nl +:+ nl +:+ "[Report truncated by gcode before delivery.]".

Definition normalize_completion_report (report : option string) : option string :=
  match report with
  | None => None
  | Some report =>
      let report := trim report in
      if report =s "" then None
      else
        let char_count := length (chars report) in
        if char_count <=? MAX_SWARM_COMPLETION_REPORT_CHARS then Some report
        else
          let suffix := truncation_suffix in
          let keep_chars := MAX_SWARM_COMPLETION_REPORT_CHARS - length (chars suffix) in
          Some (str_concat (take keep_chars (chars report)) +:+ suffix)
  end.

Definition completion_status_intro (name status : string) : string :=
  if status =s "ready" then
    "Agent " +:+ name +:+ " finished their work and is ready for more."
  else if status =s "failed" then "Agent " +:+ name +:+ " finished with status failed."
  else if status =s "stopped" then "Agent " +:+ name +:+ " stopped."
  else "Agent " +:+ name +:+ " completed their work.".

Definition completion_followup (status : string) (has_report : bool) : string :=
  if status =s "ready" then
    if has_report then
      "Use assign_task to give them more work, stop to remove them, or summary/read_context for full context."
    else
      "Use summary/read_context to inspect results, assign_task for more work, or stop to remove them."
  else if status =s "failed" then
    if has_report then
      "Use summary/read_context for full context, retry with guidance, or stop to remove them."
    else
      "Use summary/read_context to inspect results, assign_task to retry with guidance, or stop to remove them."
  else if status =s "stopped" then
    "Use summary/read_context to inspect results or stop to remove them."
  else if has_report then
    "Use assign_task to give them new work, stop to remove them, or summary/read_context for full context."
  else "Use assign_task to give them new work, or stop to remove them.".

Definition completion_notification_message (name status : string) (report : option string)
    : string :=
  let intro := completion_status_intro name status in
  let followup := completion_followup status (bool_decide (is_Some report)) in
  match report with
  | Some report =>
      intro +:+ nl +:+ nl +:+ "Report:" +:+ nl +:+ report +:+ nl +:+ nl +:+ followup
  | None =>
      intro +:+ nl +:+ nl +:+ "No final textual report was produced. " +:+ followup
  end.

Definition truncate_detail (text : string) (max_len : usize) : string :=
  let collapsed := join " " (split_whitespace text) in
  let trimmed := trim collapsed in
  let max_len := max_len `max` 1 in
  if length (chars trimmed) <=? max_len then trimmed
  else if max_len <=? 3 then str_concat (take max_len (chars trimmed))
  else str_concat (take (max_len - 3) (chars trimmed)) +:+ "...".

Definition summarize_plan_items (items : list PlanItem) (max_items : usize) : string :=
  if is_nil items then "no items"
  else
    let parts := pi_content <$> take (max_items `max` 1) items in
    let summary := join "; " parts in
    if max_items `max` 1 <? length items then
      summary +:+ " (+" +:+ pretty (length items - max_items `max` 1) +:+ " more)"
    else summary.

(** * Properties of roles, statuses and completion reports *)

(** ** Round trips *)

(** Roles and statuses survive the trip through their text: parsing keeps
    every string, and a value is read back as itself unless it is an
    [Other] that spells the name of another constructor. *)
Theorem role_status_roundtrip :
  (∀ value, role_as_str (role_from value) = value)
  ∧ (∀ value, status_as_str (status_from value) = value)
  ∧ (∀ role, role_from (role_as_str role) = role
       ↔ ∀ value, role = OtherRole value →
           value ∉ ["agent"; "coordinator"; "worktree_manager"])
  ∧ (∀ status, status_from (status_as_str status) = status
       ↔ ∀ value, status = OtherStatus value →
           value ∉ ["spawned"; "ready"; "running"; "running_stale"; "completed"; "done";
                    "failed"; "stopped"; "crashed"; "queued"; "blocked"; "pending"; "todo"]).
Proof.
  split_and!.
  - intros value. unfold role_from.
    repeat match goal with |- context [?a =s ?b] => destruct (String.eqb_spec a b) end; done.
  - intros value. unfold status_from.
    repeat match goal with |- context [?a =s ?b] => destruct (String.eqb_spec a b) end; done.
  - intros [| | |v]; try done. cbn [role_as_str]. unfold role_from. split.
    + intros E w [= <-]. rewrite !not_elem_of_cons. revert E.
      repeat case_match; try done; rewrite ?eqb_false in *; intros _; set_solver.
    + intros Hv. specialize (Hv v eq_refl). rewrite !not_elem_of_cons in Hv.
      destruct_all. by rewrite !(proj2 (eqb_false v _)) by done.
  - intros [| | | | | | | | | | | | |v]; try done. cbn [status_as_str]. unfold status_from. split.
    + intros E w [= <-]. rewrite !not_elem_of_cons. revert E.
      repeat case_match; try done; rewrite ?eqb_false in *; intros _; set_solver.
    + intros Hv. specialize (Hv v eq_refl). rewrite !not_elem_of_cons in Hv.
      destruct_all. by rewrite !(proj2 (eqb_false v _)) by done.
Qed.

(** ** Reports *)

Lemma length_truncation_suffix : length (chars truncation_suffix) = 46.
Proof. vm_compute. done. Qed.

(** A prefix of the characters of a string, followed by a string that starts
    at a character. *)
Lemma chars_take_app n s t :
  starts_char t = true →
  chars (str_concat (take n (chars s)) +:+ t) = take n (chars s) ++ chars t.
Proof.
  intros Ht. rewrite chars_app by done. f_equal. apply chars_concat.
  eapply char_list_sublist; [apply sublist_take|apply chars_char_list].
Qed.

(** The truncated report: a prefix of the trimmed text and the notice. *)
Definition truncated_report (report : string) : string :=
  str_concat (take (MAX_SWARM_COMPLETION_REPORT_CHARS - length (chars truncation_suffix))
    (chars report)) +:+ truncation_suffix.

Lemma normalize_cases report :
  normalize_completion_report (Some report)
  = if trim report =s "" then None
    else if length (chars (trim report)) <=? MAX_SWARM_COMPLETION_REPORT_CHARS
    then Some (trim report) else Some (truncated_report (trim report)).
Proof. reflexivity. Qed.

Lemma normalize_short report :
  report ≠ "" → trim report = report →
  length (chars report) ≤ MAX_SWARM_COMPLETION_REPORT_CHARS →
  normalize_completion_report (Some report) = Some report.
Proof.
  intros Hne Ht Hl. rewrite normalize_cases, Ht.
  rewrite (proj2 (eqb_false _ _) Hne). by rewrite (proj2 (Nat.leb_le _ _) Hl).
Qed.

Lemma chars_truncated_report report :
  chars (truncated_report report)
  = take (MAX_SWARM_COMPLETION_REPORT_CHARS - length (chars truncation_suffix))
      (chars report) ++ chars truncation_suffix.
Proof. by apply chars_take_app. Qed.

Lemma truncated_report_length report :
  length (chars report) > MAX_SWARM_COMPLETION_REPORT_CHARS →
  length (chars (truncated_report report)) = MAX_SWARM_COMPLETION_REPORT_CHARS.
Proof.
  intros Hl. rewrite chars_truncated_report, length_app, length_take, length_truncation_suffix.
  unfold MAX_SWARM_COMPLETION_REPORT_CHARS in *. lia.
Qed.

Lemma truncated_report_trimmed report :
  trimmed (chars report) → length (chars report) > MAX_SWARM_COMPLETION_REPORT_CHARS →
  trim (truncated_report report) = truncated_report report.
Proof.
  intros [Hfirst _] Hl. apply trim_id. rewrite chars_truncated_report.
  assert (∃ init, chars truncation_suffix = init ++ ["]"]) as [init Hinit].
  { exists (take 45 (chars truncation_suffix)). by vm_compute. }
  destruct (chars report) as [|c l] eqn:E; [simpl in Hl; lia|].
  rewrite length_truncation_suffix, Hinit. split.
  - intros c' l'. replace (_ - 46) with (S 3953) by done. cbn [take app].
    intros [= <- _]. by eapply Hfirst.
  - intros c' l'. rewrite app_assoc. intros [_ <-]%app_inj_tail. by vm_compute.
Qed.

(** A normalized report is never empty, has no white space at its ends
    and at most 4000 characters; it is the trimmed report when that is short
    enough and a prefix of it otherwise; normalizing again changes nothing;
    and there is no report exactly when nothing but white space was given. *)
Theorem normalize_completion_report_correct report :
  match normalize_completion_report (Some report) with
  | None => trim report = ""
  | Some out =>
      out ≠ "" ∧ trim out = out
      ∧ length (chars out) ≤ MAX_SWARM_COMPLETION_REPORT_CHARS
      ∧ (if decide (length (chars (trim report)) ≤ MAX_SWARM_COMPLETION_REPORT_CHARS)
         then out = trim report
         else ∃ n, out = str_concat (take n (chars (trim report))) +:+ truncation_suffix
           ∧ length (chars out) = MAX_SWARM_COMPLETION_REPORT_CHARS)
      ∧ normalize_completion_report (Some out) = Some out
  end.
Proof.
  pose proof (trim_trimmed report) as Ht. pose proof (trim_idemp report) as Hi.
  rewrite normalize_cases. generalize dependent (trim report). intros r Ht Hi.
  destruct (String.eqb_spec r "") as [|Hne]; [done|].
  destruct (Nat.leb_spec (length (chars r)) MAX_SWARM_COMPLETION_REPORT_CHARS) as [Hl|Hl].
  - rewrite decide_True by done. split_and!; [done..|]. by apply normalize_short.
  - rewrite decide_False by lia.
    pose proof (truncated_report_length r Hl) as Hlen.
    assert (truncated_report r ≠ "") as Hne'.
    { intros E. rewrite E in Hlen. discriminate Hlen. }
    split_and!; [done|by apply truncated_report_trimmed|lia| |].
    + by eexists.
    + apply normalize_short; [done|by apply truncated_report_trimmed|lia].
Qed.

Lemma str_contains_app n t u : str_contains n (t +:+ n +:+ u) = true.
Proof. apply str_contains_spec. eauto. Qed.

(** The instructions to report are in the message exactly once: they are
    added only when their marker is missing, after the message without its
    trailing white space, and adding them again changes nothing. *)
Theorem append_instructions_correct message :
  let out := append_swarm_completion_report_instructions message in
  str_contains SWARM_COMPLETION_REPORT_MARKER out = true
  ∧ append_swarm_completion_report_instructions out = out
  ∧ (str_contains SWARM_COMPLETION_REPORT_MARKER message = true → out = message)
  ∧ (str_contains SWARM_COMPLETION_REPORT_MARKER message = false →
     ∃ rest, out = trim_end message +:+ rest ∧ starts_with "<system-reminder>" (trim_start rest) = true).
Proof.
  cbn zeta.
  assert (str_contains SWARM_COMPLETION_REPORT_MARKER
    (append_swarm_completion_report_instructions message) = true) as Hin.
  { unfold append_swarm_completion_report_instructions.
    destruct (str_contains SWARM_COMPLETION_REPORT_MARKER message) eqn:E; [done|].
    rewrite !str_app_assoc. rewrite <- (str_app_assoc _ "<system-reminder>").
    rewrite <- (str_app_assoc _ nl). apply str_contains_app. }
  split_and!.
  - done.
  - unfold append_swarm_completion_report_instructions at 1. by rewrite Hin.
  - intros E. unfold append_swarm_completion_report_instructions. by rewrite E.
  - intros E. unfold append_swarm_completion_report_instructions. rewrite E.
    destruct (trim_end message =s "") eqn:Et; cbn [negb].
    + apply eqb_true in Et. rewrite Et. eexists. split; [reflexivity|]. by vm_compute.
    + rewrite !str_app_assoc. eexists. split; [reflexivity|]. by vm_compute.
Qed.

(** ** Details *)

(** A detail is never longer than its bound (one character at least), and
    a text whose words fit is only collapsed, not cut. *)
Theorem truncate_detail_bound text max_len :
  length (chars (truncate_detail text max_len)) ≤ max_len `max` 1
  ∧ (length (chars (trim (join " " (split_whitespace text)))) ≤ max_len `max` 1 →
     truncate_detail text max_len = trim (join " " (split_whitespace text))).
Proof.
  unfold truncate_detail. set (t := trim _).
  destruct (Nat.leb_spec (length (chars t)) (max_len `max` 1)) as [Hl|Hl]; [done|].
  split; [|lia]. destruct (Nat.leb_spec (max_len `max` 1) 3) as [H3|H3].
  - rewrite <- (str_app_nil_r (str_concat _)), chars_take_app by done.
    rewrite length_app, length_take. simpl. lia.
  - rewrite chars_take_app by done. rewrite length_app, length_take.
    change (length (chars "...")) with 3. lia.
Qed.
