(* ===== verification/SwarmChannels.v ===== *)
(** * Properties of the channel index

    The two maps of the index always describe one set of subscriptions, with
    nothing left over; the server's functions implement the operations on that
    set, whatever the order of hash tables. *)

From S2P Require Import Prelude SwarmCore.

(** ** The abstract specification: a set of subscriptions *)

Inductive ChannelOp :=
| Subscribe (session_id swarm_id channel : string)
| Unsubscribe (session_id swarm_id channel : string)
| RemoveSession (session_id : string).

(** A subscription: session, swarm, channel. *)
Abbreviation subscription_set := (gset (string * string * string)).

Definition spec_step (s : subscription_set) (op : ChannelOp) : subscription_set :=
  match op with
  | Subscribe session_id swarm_id channel => {[(session_id, swarm_id, channel)]} ∪ s
  | Unsubscribe session_id swarm_id channel => s ∖ {[(session_id, swarm_id, channel)]}
  | RemoveSession session_id => filter (λ t, t.1.1 ≠ session_id) s
  end.

Definition spec_run (ops : list ChannelOp) : subscription_set := foldl spec_step ∅ ops.

(** The server's functions, one step per operation on its two maps. *)
Definition server_step `{HashOrder} (state : subscriptions * subscriptions) (op : ChannelOp)
    : subscriptions * subscriptions :=
  match op with
  | Subscribe session_id swarm_id channel =>
      subscribe_session_to_channel session_id swarm_id channel state
  | Unsubscribe session_id swarm_id channel =>
      unsubscribe_session_from_channel session_id swarm_id channel state
  | RemoveSession session_id => remove_session_channel_subscriptions session_id state
  end.

Definition server_run `{HashOrder} (ops : list ChannelOp) : subscriptions * subscriptions :=
  foldl server_step (∅, ∅) ops.

Definition server_index (state : subscriptions * subscriptions) : ChannelIndex :=
  {| by_swarm_channel := state.1; by_session := state.2 |}.

(** ** Two-level maps of sets *)

Definition icell (inner : gmap string (gset string)) (k : string) : gset string :=
  default ∅ (inner !! k).
Definition cell (map : subscriptions) (k1 k2 : string) : gset string :=
  icell (default ∅ (map !! k1)) k2.

Definition icompact (inner : gmap string (gset string)) : Prop :=
  ∀ k s, inner !! k = Some s → s ≠ ∅.
Definition compact (map : subscriptions) : Prop :=
  ∀ k inner, map !! k = Some inner → inner ≠ ∅ ∧ icompact inner.

(** The state implements the set: both maps hold it, and nothing else. *)
Definition represents (state : subscriptions * subscriptions) (s : subscription_set) : Prop :=
  compact state.1 ∧ compact state.2
  ∧ ∀ session swarm channel,
      (session ∈ cell state.1 swarm channel ↔ (session, swarm, channel) ∈ s)
      ∧ (channel ∈ cell state.2 session swarm ↔ (session, swarm, channel) ∈ s).

Lemma icompact_ext i1 i2 :
  icompact i1 → icompact i2 → (∀ k x, x ∈ icell i1 k ↔ x ∈ icell i2 k) → i1 = i2.
Proof.
  intros H1 H2 E. apply map_eq. intros k.
  assert (icell i1 k = icell i2 k) as Ek by (apply set_eq; auto). unfold icell in Ek.
  destruct (i1 !! k) eqn:E1, (i2 !! k) eqn:E2; simpl in Ek; subst; try done.
  - by destruct (H1 k _ E1).
  - by destruct (H2 k _ E2).
Qed.

Lemma icompact_nonempty i : icompact i → i ≠ ∅ ↔ ∃ k x, x ∈ icell i k.
Proof.
  intros Hi. split.
  - intros (k & s & Hk)%map_choose. pose proof (Hi k s Hk) as Hs.
    apply set_choose_L in Hs as [x Hx]. exists k, x. unfold icell. by rewrite Hk.
  - intros (k & x & Hx) ->. unfold icell in Hx. rewrite lookup_empty in Hx. set_solver.
Qed.

Lemma compact_ext m1 m2 :
  compact m1 → compact m2 → (∀ k1 k2 x, x ∈ cell m1 k1 k2 ↔ x ∈ cell m2 k1 k2) → m1 = m2.
Proof.
  intros H1 H2 E. apply map_eq. intros k. specialize (E k). unfold cell in E.
  destruct (m1 !! k) as [i1|] eqn:E1, (m2 !! k) as [i2|] eqn:E2; simpl in E; [..|done].
  - f_equal. apply icompact_ext; [by eapply H1|by eapply H2|done].
  - destruct (H1 k i1 E1) as [Hne Hi]. apply icompact_nonempty in Hne as (k2 & x & Hx); [|done].
    apply E in Hx. unfold icell in Hx. rewrite lookup_empty in Hx. set_solver.
  - destruct (H2 k i2 E2) as [Hne Hi]. apply icompact_nonempty in Hne as (k2 & x & Hx); [|done].
    apply E in Hx. unfold icell in Hx. rewrite lookup_empty in Hx. set_solver.
Qed.

Lemma icell_insert i k s k' : icell (<[k := s]> i) k' = if decide (k = k') then s else icell i k'.
Proof. unfold icell. rewrite lookup_insert. by case_decide. Qed.

Lemma icell_delete i k k' : icell (delete k i) k' = if decide (k = k') then ∅ else icell i k'.
Proof. unfold icell. rewrite lookup_delete. by case_decide. Qed.

Lemma elem_of_entry_insert k1 k2 x m k1' k2' y :
  y ∈ cell (entry_insert k1 k2 x m) k1' k2'
  ↔ y ∈ cell m k1' k2' ∨ (k1' = k1 ∧ k2' = k2 ∧ y = x).
Proof.
  unfold cell, entry_insert. rewrite lookup_insert. case_decide as E1; [subst|naive_solver].
  simpl. rewrite icell_insert. fold (icell (default ∅ (m !! k1')) k2).
  case_decide as E2; [subst|naive_solver].
  rewrite elem_of_union, elem_of_singleton. tauto.
Qed.

Lemma compact_entry_insert k1 k2 x m : compact m → compact (entry_insert k1 k2 x m).
Proof.
  intros Hm k i. unfold entry_insert. rewrite lookup_insert. case_decide as E; [|by apply Hm].
  intros [= <-]. split; [apply insert_non_empty|].
  intros k' s. rewrite lookup_insert. case_decide; [intros [= <-]; set_solver|].
  destruct (m !! k1) as [i|] eqn:E1; simpl; [by apply (Hm k1 i E1)|].
  by rewrite lookup_empty.
Qed.

(** [f] takes away exactly the elements [x] of the cells [k] with [P k x]. *)
Definition removes (f : gmap string (gset string) → gmap string (gset string))
    (P : string → string → Prop) : Prop :=
  ∀ i, icompact i → icompact (f i) ∧ ∀ k x, x ∈ icell (f i) k ↔ x ∈ icell i k ∧ ¬ P k x.

Lemma remove_member_removes session_id channel :
  removes (λ i, remove_member session_id i channel) (λ k x, k = channel ∧ x = session_id).
Proof.
  intros i Hi. unfold remove_member. destruct (i !! channel) as [s|] eqn:E.
  - case_decide as Es; split.
    + intros k s'. rewrite lookup_delete. case_decide; [done|apply Hi].
    + intros k x. rewrite icell_delete. case_decide as Ek; [|naive_solver]. subst k.
      unfold icell. rewrite E. simpl. set_solver.
    + intros k s'. rewrite lookup_insert. case_decide; [by intros [= <-]|apply Hi].
    + intros k x. rewrite icell_insert. case_decide as Ek; [|naive_solver]. subst k.
      unfold icell. rewrite E. simpl. set_solver.
  - split; [done|]. intros k x. unfold icell. split; [|tauto].
    intros Hx. split; [done|]. intros [-> _]. rewrite E in Hx. simpl in Hx. set_solver.
Qed.

Lemma remove_members_removes session_id l :
  removes (λ i, foldl (remove_member session_id) i l) (λ k x, k ∈ l ∧ x = session_id).
Proof.
  induction l as [|c l IH]; intros i Hi; simpl; [set_solver|].
  destruct (remove_member_removes session_id c i Hi) as [Hc1 Hc2].
  destruct (IH _ Hc1) as [Hl1 Hl2]. split; [done|].
  intros k x. rewrite Hl2, Hc2, elem_of_cons. naive_solver.
Qed.

Lemma update_swarm_removes k f P m :
  removes f P → compact m →
  compact (update_swarm k f m)
  ∧ ∀ k1 k2 x, x ∈ cell (update_swarm k f m) k1 k2 ↔ x ∈ cell m k1 k2 ∧ ¬ (k1 = k ∧ P k2 x).
Proof.
  intros Hf Hm. unfold update_swarm. destruct (m !! k) as [i|] eqn:E.
  - destruct (Hm k i E) as [_ Hi]. destruct (Hf i Hi) as [Hfi Hrem].
    assert (∀ k2 x, x ∈ cell m k k2 ↔ x ∈ icell i k2) as Hcell.
    { intros k2 x. unfold cell. by rewrite E. }
    case_bool_decide as Ee; split.
    + intros k' i'. rewrite lookup_delete. case_decide; [done|apply Hm].
    + intros k1 k2 x. unfold cell at 1. rewrite lookup_delete. case_decide as E1; simpl.
      * subst k1. rewrite Hcell. specialize (Hrem k2 x). rewrite Ee in Hrem.
        unfold icell in Hrem at 1. unfold icell at 1. rewrite lookup_empty in *. naive_solver.
      * fold (cell m k1 k2). naive_solver.
    + intros k' i'. rewrite lookup_insert. case_decide; [by intros [= <-]|apply Hm].
    + intros k1 k2 x. unfold cell at 1. rewrite lookup_insert. case_decide as E1; simpl.
      * subst k1. rewrite Hcell, Hrem. naive_solver.
      * fold (cell m k1 k2). naive_solver.
  - split; [done|]. intros k1 k2 x. split; [|tauto]. intros Hx. split; [done|].
    intros [-> _]. unfold cell, icell in Hx. rewrite E in Hx. simpl in Hx.
    rewrite lookup_empty in Hx. set_solver.
Qed.

(** The two halves of [unsubscribe] do the same to their map. *)
Lemma unsubscribe_session_update session_id swarm_id channel m :
  unsubscribe_session session_id swarm_id channel m
  = update_swarm session_id (λ i, remove_member channel i swarm_id) m.
Proof.
  unfold unsubscribe_session, update_swarm, remove_member.
  destruct (m !! session_id) as [i|]; [|done].
  destruct (i !! swarm_id) as [s|]; [|done].
  destruct (decide (s ∖ {[channel]} = ∅)) as [Es|Es].
  - rewrite (bool_decide_eq_true_2 (s ∖ _ = _)) by done. by rewrite delete_insert_eq.
  - by rewrite (bool_decide_eq_false_2 (s ∖ _ = _)) by done.
Qed.

Section order.
Context `{HashOrder}.

Lemma remove_known_spec session_id l m :
  compact m →
  let m' := foldl (λ map '(swarm_id, channels),
    update_swarm swarm_id
      (λ swarm_subs, foldl (remove_member session_id) swarm_subs (hash_elements channels))
      map) m l in
  compact m' ∧ ∀ k1 k2 x, x ∈ cell m' k1 k2
    ↔ x ∈ cell m k1 k2 ∧ ¬ (x = session_id ∧ ∃ s : gset string, (k1, s) ∈ l ∧ k2 ∈ s).
Proof.
  revert m. induction l as [|[sw s] l IH]; intros m Hm; cbn zeta; cbn [foldl]; [set_solver|].
  destruct (update_swarm_removes sw _ _ m
    (remove_members_removes session_id (hash_elements s)) Hm) as [H1 H2].
  destruct (IH _ H1) as [H3 H4]. split; [done|].
  intros k1 k2 x. rewrite H4, H2, elem_of_hash_elements. setoid_rewrite elem_of_cons. split.
  - intros [[Hx Hn] Hn']. split; [done|]. intros [-> (s' & [[= -> ->]|Hin] & Hk)]; naive_solver.
  - intros [Hx Hn]. split; [split; [done|]|]; naive_solver.
Qed.

Lemma remove_unknown_spec session_id m :
  compact m → compact (remove_unknown session_id m)
    ∧ ∀ k1 k2 x, x ∈ cell (remove_unknown session_id m) k1 k2
      ↔ x ∈ cell m k1 k2 ∧ x ≠ session_id.
Proof.
  intros Hm.
  assert (removes (λ i, foldl (remove_member session_id) i (hash_entries i).*1)
    (λ _ x, x = session_id)) as Hall.
  { intros i Hi. destruct (remove_members_removes session_id (hash_entries i).*1 i Hi) as [H1 H2].
    split; [done|]. intros k x. rewrite H2. split; [|naive_solver]. intros [Hx Hn].
    split; [done|]. intros ->. apply Hn. split; [|done]. unfold icell in Hx.
    destruct (i !! k) as [s|] eqn:E; [|simpl in Hx; set_solver].
    apply list_elem_of_fmap. exists (k, s). by rewrite elem_of_hash_entries. }
  assert (∀ l m, compact m →
    let m' := foldl (λ map swarm_id, update_swarm swarm_id
      (λ i, foldl (remove_member session_id) i (hash_entries i).*1) map) m l in
    compact m' ∧ ∀ k1 k2 x, x ∈ cell m' k1 k2
      ↔ x ∈ cell m k1 k2 ∧ ¬ (x = session_id ∧ k1 ∈ l)) as Hl.
  { clear m Hm. induction l as [|sw l IH]; intros m Hm; cbn zeta; cbn [foldl]; [set_solver|].
    destruct (update_swarm_removes sw _ _ m Hall Hm) as [H1 H2].
    destruct (IH _ H1) as [H3 H4]. split; [done|].
    intros k1 k2 x. rewrite H4, H2, elem_of_cons. naive_solver. }
  destruct (Hl (hash_entries m).*1 m Hm) as [H1 H2]. split; [done|].
  intros k1 k2 x. unfold remove_unknown. rewrite H2. split; [|naive_solver].
  intros [Hx Hn]. split; [done|]. intros ->. apply Hn. split; [done|]. unfold cell in Hx.
  destruct (m !! k1) as [i|] eqn:E.
  - apply list_elem_of_fmap. exists (k1, i). by rewrite elem_of_hash_entries.
  - unfold icell in Hx. simpl in Hx. rewrite lookup_empty in Hx. set_solver.
Qed.

(** ** Every operation implements its specification *)

Lemma subscribe_represents session_id swarm_id channel st s :
  represents st s →
  represents (server_step st (Subscribe session_id swarm_id channel))
    (spec_step s (Subscribe session_id swarm_id channel)).
Proof.
  destruct st as [subs rev]. intros (H1 & H2 & E).
  cbn [server_step spec_step fst snd] in *. unfold represents, subscribe_session_to_channel,
    with_channel_index_mut, subscribe. cbn [fst snd by_swarm_channel by_session].
  split_and!; [by apply compact_entry_insert..|]. intros se sw ch.
  rewrite !elem_of_entry_insert. destruct (E se sw ch) as [-> ->].
  rewrite elem_of_union, elem_of_singleton. naive_solver.
Qed.

Lemma unsubscribe_represents session_id swarm_id channel st s :
  represents st s →
  represents (server_step st (Unsubscribe session_id swarm_id channel))
    (spec_step s (Unsubscribe session_id swarm_id channel)).
Proof.
  destruct st as [subs rev]. intros (H1 & H2 & E).
  cbn [server_step spec_step fst snd] in *. unfold represents, unsubscribe_session_from_channel,
    with_channel_index_mut, unsubscribe. cbn [fst snd by_swarm_channel by_session].
  rewrite unsubscribe_session_update.
  destruct (update_swarm_removes swarm_id _ _ subs
    (remove_member_removes session_id channel) H1) as [H3 H4].
  destruct (update_swarm_removes session_id _ _ rev
    (remove_member_removes channel swarm_id) H2) as [H5 H6].
  split_and!; [done..|]. intros se sw ch. cbn [fst snd].
  rewrite H4, H6. destruct (E se sw ch) as [-> ->].
  rewrite elem_of_difference, elem_of_singleton. naive_solver.
Qed.

Lemma remove_session_represents session_id st s :
  represents st s →
  represents (server_step st (RemoveSession session_id)) (spec_step s (RemoveSession session_id)).
Proof.
  destruct st as [subs rev]. intros (H1 & H2 & E).
  cbn [server_step spec_step remove_session_channel_subscriptions with_channel_index_mut
    fst snd] in *.
  unfold remove_session. cbn [by_session by_swarm_channel].
  destruct (rev !! session_id) as [i|] eqn:Ei; cbn [by_session by_swarm_channel].
  - destruct (remove_known_spec session_id (hash_entries i) subs H1) as [H3 H4].
    split_and!; [done| |]; cbn [fst snd].
    { intros k i'. rewrite lookup_delete. case_decide; [done|apply H2]. }
    intros se sw ch. unfold remove_known. rewrite H4. destruct (E se sw ch) as [-> Es].
    rewrite elem_of_filter. cbn [fst snd]. unfold cell at 1. rewrite lookup_delete.
    case_decide as Ed; cbn [default].
    + subst se. unfold cell, icell in Es. rewrite Ei in Es. simpl in Es.
      unfold icell. rewrite lookup_empty. split; [|set_solver].
      rewrite <- Es. split; [|naive_solver]. intros [Hin Hn].
      destruct Hn. split; [done|]. setoid_rewrite elem_of_hash_entries.
      destruct (i !! sw) as [cs|]; [by exists cs|set_solver].
    + fold (cell rev se sw). rewrite Es. naive_solver.
  - destruct (remove_unknown_spec session_id subs H1) as [H3 H4].
    split_and!; [done|done|]. cbn [fst snd]. intros se sw ch. rewrite H4.
    destruct (E se sw ch) as [-> Es]. rewrite elem_of_filter, Es. cbn [fst snd].
    split; [naive_solver|]. split; [|naive_solver]. intros Hin. split; [|done]. intros ->.
    apply Es in Hin. unfold cell, icell in Hin. rewrite Ei in Hin. simpl in Hin.
    rewrite lookup_empty in Hin. set_solver.
Qed.

Lemma server_run_represents ops : represents (server_run ops) (spec_run ops).
Proof.
  unfold server_run, spec_run.
  assert (∀ ops st s, represents st s →
    represents (foldl server_step st ops) (foldl spec_step s ops)) as Hrun.
  { clear ops. induction ops as [|op ops IH]; intros st s Hs; [done|]. cbn [foldl]. apply IH.
    destruct op; auto using subscribe_represents, unsubscribe_represents,
      remove_session_represents. }
  apply Hrun. split_and!; [done..|]. intros se sw ch. cbn.
  unfold cell, icell. rewrite !lookup_empty. simpl. rewrite lookup_empty. set_solver.
Qed.
End order.

(** ** Properties *)

Section properties.
Context `{HashOrder}.

Lemma members_spec st s swarm_id channel session_id :
  represents st s →
  session_id ∈ members (server_index st) swarm_id channel ↔ (session_id, swarm_id, channel) ∈ s.
Proof.
  intros (_ & _ & E). destruct (E session_id swarm_id channel) as [<- _].
  unfold members, sort_strings, cell, icell. cbn [server_index by_swarm_channel].
  rewrite elem_of_sort_by. destruct (st.1 !! swarm_id) as [i|]; simpl.
  - destruct (i !! channel); simpl; [apply elem_of_hash_elements|set_solver].
  - rewrite lookup_empty. set_solver.
Qed.

Lemma NoDup_members index swarm_id channel : NoDup (members index swarm_id channel).
Proof.
  unfold members, sort_strings. rewrite NoDup_sort_by.
  destruct (_ ≫= _); simpl; [apply NoDup_hash_elements|constructor].
Qed.

(** C3. For every sequence of subscriptions, unsubscriptions and session
    removals, the server's maps hold exactly the set of subscriptions that the
    sequence describes: [members] lists the sessions of a channel in order and
    without repetition, and the reverse map lists the channels of a session. *)
Theorem channel_index_refines ops swarm_id channel session_id :
  let index := server_index (server_run ops) in
  sorted_strings (members index swarm_id channel)
  ∧ NoDup (members index swarm_id channel)
  ∧ (session_id ∈ members index swarm_id channel
     ↔ (session_id, swarm_id, channel) ∈ spec_run ops)
  ∧ (channel ∈ channels_for_session index session_id swarm_id
     ↔ (session_id, swarm_id, channel) ∈ spec_run ops).
Proof.
  cbn zeta. pose proof (server_run_represents ops) as Hr. split_and!.
  - apply sort_strings_sorted.
  - apply NoDup_members.
  - by apply members_spec.
  - destruct Hr as (_ & _ & E). destruct (E session_id swarm_id channel) as [_ <-].
    unfold channels_for_session, sort_strings, cell, icell. cbn [server_index by_session].
    rewrite elem_of_sort_by. destruct ((server_run ops).2 !! session_id) as [i|]; simpl.
    + destruct (i !! swarm_id); simpl; [apply elem_of_hash_elements|set_solver].
    + rewrite lookup_empty. set_solver.
Qed.

Lemma hash_entries_members (i : gmap string (gset string)) :
  NoDup ((λ '(channel, members), (channel, size (members : gset string)))
    <$> hash_entries i).*1.
Proof.
  rewrite <- list_fmap_compose.
  rewrite (list_fmap_ext _ fst); [apply NoDup_hash_keys|by intros ? [] ?].
Qed.

(** The channels of a swarm are listed by name, each name once: exactly
    the channels with a subscriber, with the number of their members. *)
Theorem list_channels_correct ops swarm_id :
  let listed := list_channels_for_swarm swarm_id (server_run ops).1 in
  StronglySorted (λ a b, String.leb a.1 b.1 = true) listed ∧ NoDup listed.*1
  ∧ ∀ channel n, (channel, n) ∈ listed
    ↔ (∃ session_id, (session_id, swarm_id, channel) ∈ spec_run ops)
      ∧ n = length (members (server_index (server_run ops)) swarm_id channel).
Proof.
  cbn zeta. pose proof (server_run_represents ops) as Hr. split_and!.
  - apply sort_by_sorted; intros *; [apply String.leb_total|apply string_leb_trans].
  - unfold list_channels_for_swarm. rewrite sort_by_perm. cbn [by_swarm_channel].
    destruct ((server_run ops).1 !! swarm_id); simpl; [apply hash_entries_members|constructor].
  - intros channel n. unfold list_channels_for_swarm. rewrite elem_of_sort_by.
    setoid_rewrite <- (members_spec _ _ swarm_id channel _ Hr). unfold members.
    unfold sort_strings. rewrite length_sort_by. setoid_rewrite elem_of_sort_by.
    cbn [by_swarm_channel server_index]. destruct Hr as (Hc & _ & _).
    destruct ((server_run ops).1 !! swarm_id) as [i|] eqn:Ei; simpl; [|set_solver].
    apply Hc in Ei as [_ Hi]. rewrite list_elem_of_fmap. split.
    + intros ([c s] & [= -> ->] & Hin%elem_of_hash_entries). rewrite Hin. simpl.
      split; [|by rewrite hash_elements_perm].
      setoid_rewrite elem_of_hash_elements. by apply set_choose_L, (Hi c).
    + intros [[x Hx] ->]. destruct (i !! channel) as [s|] eqn:E; simpl in *; [|set_solver].
      exists (channel, s). rewrite elem_of_hash_entries. split; [|done].
      f_equal. by rewrite hash_elements_perm.
Qed.
End properties.

(** The index is canonical: two sequences of operations that describe the
    same subscriptions leave the same maps, on any order of hash tables; so
    nothing is left of what was removed. *)
Theorem channel_index_canonical (O1 O2 : HashOrder) ops1 ops2 :
  spec_run ops1 = spec_run ops2 ↔ server_run (H := O1) ops1 = server_run (H := O2) ops2.
Proof.
  destruct (server_run_represents (H := O1) ops1) as (C1 & D1 & E1).
  destruct (server_run_represents (H := O2) ops2) as (C2 & D2 & E2).
  destruct (server_run (H := O1) ops1) as [f1 r1], (server_run (H := O2) ops2) as [f2 r2].
  cbn [fst snd] in *. split.
  - intros Es. rewrite Es in E1. f_equal; apply compact_ext; try done.
    + intros k1 k2 x. by rewrite (proj1 (E1 x k1 k2)), (proj1 (E2 x k1 k2)).
    + intros k1 k2 x. by rewrite (proj2 (E1 k1 k2 x)), (proj2 (E2 k1 k2 x)).
  - intros [= -> ->]. apply set_eq. intros [[se sw] ch].
    by rewrite <- (proj1 (E1 se sw ch)), <- (proj1 (E2 se sw ch)).
Qed.

Example channel_run :
  let state := server_run [Subscribe "s2" "w" "build"; Subscribe "s1" "w" "build";
    Subscribe "s1" "w" "tests"; Subscribe "s3" "v" "build"; RemoveSession "s2";
    Unsubscribe "s3" "v" "build"] in
  list_channels_for_swarm "w" state.1 = [("build", 1); ("tests", 1)]
  ∧ members (server_index state) "w" "build" = ["s1"] ∧ state.1 !! "v" = None.
Proof. vm_compute. done. Qed.
