(* ===== verification/F32.v ===== *)
(** * Single-precision floats

    An [f32] is its 32 bits. Comparisons are those of the Rust standard library
    ([>], [==] and [total_cmp]); products are IEEE binary32 products, computed
    with the standard library's [SpecFloat]. The bits of a NaN result, which
    Rust leaves open, are those of the default NaN. *)

From Stdlib Require Import SpecFloat.
From S2P Require Import Prelude Text.
Open Scope Z_scope.

Abbreviation f32 := Z (only parsing).

Open Scope Z_scope.

(** ** Fields *)

Definition f32_negative (b : f32) : bool := 2 ^ 31 <=? b.
Definition f32_magnitude (b : f32) : Z := b mod 2 ^ 31.
Definition f32_infinite_magnitude : Z := 0x7f800000.
Definition f32_is_nan (b : f32) : bool := f32_infinite_magnitude <? f32_magnitude b.

(** ** Comparisons *)

(** The place of a number on the line; both zeros are at the origin. *)
Definition f32_key (b : f32) : Z :=
  if f32_negative b then - f32_magnitude b else f32_magnitude b.

(** The key of [total_cmp], which also tells the zeros and the NaNs apart. *)
Definition f32_total_key (b : f32) : Z :=
  if f32_negative b then -1 - f32_magnitude b else f32_magnitude b.

(** [a > b] *)
Definition f32_gt (a b : f32) : bool :=
  negb (f32_is_nan a) && negb (f32_is_nan b) && (f32_key b <? f32_key a).

(** [a == b] *)
Definition f32_eq (a b : f32) : bool :=
  negb (f32_is_nan a) && negb (f32_is_nan b) && (f32_key a =? f32_key b).

(** [a.total_cmp(&b) != Greater] *)
Definition f32_total_leb (a b : f32) : bool := f32_total_key a <=? f32_total_key b.

(** ** Arithmetic *)

Definition f32_decode (b : f32) : spec_float :=
  let s := f32_negative b in
  let m := f32_magnitude b in
  if f32_is_nan b then S754_nan
  else if m =? 0 then S754_zero s
  else if m =? f32_infinite_magnitude then S754_infinity s
  else
    let e := m / 2 ^ 23 in
    let f := m mod 2 ^ 23 in
    if e =? 0 then S754_finite s (Z.to_pos f) (-149)
    else S754_finite s (Z.to_pos (f + 2 ^ 23)) (e - 150).

Definition f32_encode (x : spec_float) : f32 :=
  let sign (s : bool) := if s then 2 ^ 31 else 0 in
  match x with
  | S754_nan => 0x7fc00000
  | S754_zero s => sign s
  | S754_infinity s => sign s + f32_infinite_magnitude
  | S754_finite s m e =>
      sign s + (if Z.pos m <? 2 ^ 23 then Z.pos m else (e + 149) * 2 ^ 23 + Z.pos m)
  end.

(** [a * b] *)
Definition f32_mul (a b : f32) : f32 :=
  f32_encode (SFmul 24 128 (f32_decode a) (f32_decode b)).

(** [a + b], [a / b] and [a.sqrt()] *)
Definition f32_add (a b : f32) : f32 :=
  f32_encode (SFadd 24 128 (f32_decode a) (f32_decode b)).
Definition f32_div (a b : f32) : f32 :=
  f32_encode (SFdiv 24 128 (f32_decode a) (f32_decode b)).
Definition f32_sqrt (a : f32) : f32 := f32_encode (SFsqrt 24 128 (f32_decode a)).

(** [n as f32] of an unsigned integer. *)
Definition f32_of_unsigned (n : Z) : f32 := f32_encode (binary_normalize 24 128 n 0 false).

(** [a >= b] and [a < b] *)
Definition f32_ge (a b : f32) : bool := f32_gt a b || f32_eq a b.
Definition f32_lt (a b : f32) : bool := f32_gt b a.

(** [iter.sum::<f32>()], which starts from the negative zero. *)
Definition f32_sum (l : list f32) : f32 := foldl f32_add (2 ^ 31) l.

(** [format!("{:.1}", a)] of a number that is not negative: the nearest tenth,
    the even one of two. *)
Definition f32_tenths (a : f32) : string :=
  match f32_decode a with
  | S754_nan => "NaN"
  | S754_infinity _ => "inf"
  | S754_zero _ => "0.0"
  | S754_finite _ m e =>
      let n := Z.pos m * 10 * 2 ^ Z.max e 0 in
      let d := 2 ^ Z.max (- e) 0 in
      let q := n / d in
      let r := n mod d in
      let up := (d <? 2 * r) || (d =? 2 * r) && Z.odd q in
      let t := if up then q + 1 else q in
      pretty (t / 10) +:+ "." +:+ pretty (t mod 10)
  end.

(** The decimal literals of the program. *)
Definition f32_0_0 : f32 := 0.
Definition f32_0_3 : f32 := 0x3e99999a.
Definition f32_0_6 : f32 := 0x3f19999a.
Definition f32_0_7 : f32 := 0x3f333333.
Definition f32_0_8 : f32 := 0x3f4ccccd.
Definition f32_0_9 : f32 := 0x3f666666.
Definition f32_1_0 : f32 := 0x3f800000.
Definition f32_0_10 : f32 := 0x3dcccccd.
Definition f32_0_40 : f32 := 0x3ecccccd.
Definition f32_0_45 : f32 := 0x3ee66666.
Definition f32_0_65 : f32 := 0x3f266666.
Definition f32_0_95 : f32 := 0x3f733333.
Definition f32_100_0 : f32 := 0x42c80000.

Example f32_mul_half : f32_mul 0x3f000000 0x3f000000 = 0x3e800000.
Proof. vm_compute. reflexivity. Qed.

Example f32_mul_0_7 : f32_mul f32_0_7 f32_0_8 = 0x3f0f5c29.
Proof. vm_compute. reflexivity. Qed.

Example f32_third : f32_div f32_1_0 (f32_of_unsigned 3) = 0x3eaaaaab.
Proof. vm_compute. reflexivity. Qed.

Example f32_sqrt_2 : f32_sqrt (f32_of_unsigned 2) = 0x3fb504f3.
Proof. vm_compute. reflexivity. Qed.

Example f32_tenths_ratio :
  f32_tenths (f32_mul (f32_div (f32_of_unsigned 5) (f32_of_unsigned 60)) f32_100_0) = "8.3".
Proof. vm_compute. reflexivity. Qed.

(** ** Laws *)

Lemma f32_gt_total a b : f32_gt a b = true → f32_total_leb a b = false.
Proof.
  unfold f32_gt, f32_total_leb, f32_key, f32_total_key. rewrite !andb_true_iff, Z.ltb_lt, Z.leb_gt.
  intros [_ H]. revert H. assert (0 ≤ f32_magnitude a ∧ 0 ≤ f32_magnitude b) as [? ?]
    by (split; apply Z.mod_pos_bound; lia).
  destruct (f32_negative a), (f32_negative b); lia.
Qed.

Lemma f32_gt_leb_trans a b c :
  f32_is_nan c = false → f32_gt a b = true → f32_total_leb c b = true → f32_gt a c = true.
Proof.
  unfold f32_gt, f32_total_leb, f32_key, f32_total_key.
  rewrite !andb_true_iff, !negb_true_iff, !Z.ltb_lt, Z.leb_le.
  intros Hc [[Ha Hb] H] Hcb. split; [done|]. revert H Hcb.
  assert (0 ≤ f32_magnitude a ∧ 0 ≤ f32_magnitude b ∧ 0 ≤ f32_magnitude c) as (? & ? & ?)
    by (split_and!; apply Z.mod_pos_bound; lia).
  destruct (f32_negative a), (f32_negative b), (f32_negative c); lia.
Qed.

(** * Double-precision numbers

    [f64] as [spec_float], with the operations, literals and conversions the
    program uses. *)

Abbreviation f64 := spec_float (only parsing).

(** [n as f64] of an integer. *)
Definition f64_of_Z (n : Z) : f64 := binary_normalize 53 1024 n 0 false.

(** [x as f64] of a single-precision number. *)
Definition f64_of_f32 (x : f32) : f64 :=
  match f32_decode x with
  | S754_finite s mantissa e =>
      binary_normalize 53 1024 (if s then Z.neg mantissa else Z.pos mantissa) e s
  | y => y
  end.

Definition f64_add : f64 → f64 → f64 := SFadd 53 1024.
Definition f64_sub : f64 → f64 → f64 := SFsub 53 1024.
Definition f64_mul : f64 → f64 → f64 := SFmul 53 1024.
Definition f64_div : f64 → f64 → f64 := SFdiv 53 1024.
Definition f64_lt : f64 → f64 → bool := SFltb.
Definition f64_le : f64 → f64 → bool := SFleb.

Definition f64_zero : f64 := S754_zero false.

(** [x.max(0.0)] *)
Definition f64_max_zero (x : f64) : f64 := if f64_lt f64_zero x then x else f64_zero.

(** The number nearest to [n / 10 ^ k], for positive [n]: a decimal literal. *)
Definition f64_decimal (n : positive) (k : N) : f64 :=
  f64_div (S754_finite false n 0) (S754_finite false (Z.to_pos (10 ^ Z.of_N k)) 0).

(** The integer nearest to a finite number that is not negative, away from zero
    when two are. *)
Definition round_half_up (m : positive) (e : Z) : Z :=
  if 0 <=? e then Z.pos m * 2 ^ e else (Z.pos m + 2 ^ (- e - 1)) / 2 ^ (- e).

(** [x.round() as u64] *)
Definition f64_round_to_u64 (x : f64) : u64 :=
  match x with
  | S754_finite false m e => Z.min (round_half_up m e) (2 ^ 64 - 1)
  | S754_infinity false => 2 ^ 64 - 1
  | _ => 0
  end.

(** [x as u64], which truncates. *)
Definition f64_to_u64 (x : f64) : u64 :=
  match x with
  | S754_finite false m e =>
      Z.min (if 0 <=? e then Z.pos m * 2 ^ e else Z.pos m / 2 ^ (- e)) (2 ^ 64 - 1)
  | S754_infinity false => 2 ^ 64 - 1
  | _ => 0
  end.

(** ** Parsing ([str::parse::<f64>]) *)

Definition digit_value (b : Ascii.ascii) : option Z :=
  let n := Z.of_nat (Ascii.nat_of_ascii b) in
  if (48 <=? n) && (n <=? 57) then Some (n - 48) else None.

(** Leading digits: their value after [acc], how many, and the rest. *)
Fixpoint take_digits (acc : Z) (count : nat) (s : string) : Z * nat * string :=
  match s with
  | String b s' =>
      match digit_value b with
      | Some d => take_digits (10 * acc + d) (S count) s'
      | None => (acc, count, s)
      end
  | EmptyString => (acc, count, s)
  end.

Definition take_sign (s : string) : bool * string :=
  match strip_prefix "-" s with
  | Some s => (true, s)
  | None => (false, default s (strip_prefix "+" s))
  end.

(** The exponent at the end of a number. *)
Definition parse_exponent (s : string) : option Z :=
  match s with
  | EmptyString => Some 0
  | String e s =>
      if (Ascii.nat_of_ascii e =? 101)%nat || (Ascii.nat_of_ascii e =? 69)%nat then
        let (negative, s) := take_sign s in
        match take_digits 0 0 s with
        | (n, S _, EmptyString) => Some (if negative then - n else n)
        | _ => None
        end
      else None
  end.

Definition f64_of_decimal (negative : bool) (n exponent : Z) : f64 :=
  match n with
  | Z.pos m =>
      let value :=
        if 0 <=? exponent then binary_normalize 53 1024 (n * 10 ^ exponent) 0 false
        else f64_div (S754_finite false m 0) (S754_finite false (Z.to_pos (10 ^ (- exponent))) 0) in
      if negative then SFopp value else value
  | _ => S754_zero negative
  end.

Definition parse_f64 (s : string) : option f64 :=
  let (negative, s) := take_sign s in
  let lower := ascii_lowercase s in
  if (lower =s "inf") || (lower =s "infinity") then Some (S754_infinity negative)
  else if lower =s "nan" then Some S754_nan
  else
    let '(n, int_digits, s) := take_digits 0 0 s in
    let '(n, frac_digits, s) :=
      match strip_prefix "." s with
      | Some s => take_digits n 0 s
      | None => (n, 0%nat, s)
      end in
    if (int_digits + frac_digits =? 0)%nat then None
    else
      exponent ← parse_exponent s;
      Some (f64_of_decimal negative n (exponent - Z.of_nat frac_digits)).

Example parse_f64_sample :
  parse_f64 "0.1" = Some (f64_decimal 1 1) ∧ parse_f64 "-2.5e1" = Some (f64_of_Z (-25))
  ∧ parse_f64 "." = None ∧ parse_f64 "1e" = None ∧ parse_f64 "NaN" = Some S754_nan.
Proof. vm_compute. repeat split. Qed.

Example round_sample :
  f64_round_to_u64 (f64_mul (f64_decimal 375 1) (f64_of_Z 1000000)) = 37500000
  ∧ f64_round_to_u64 (f64_decimal 5 1) = 1 ∧ f64_to_u64 (f64_decimal 19 1) = 1.
Proof. vm_compute. repeat split. Qed.
