(* ===== verification/Ranking.v ===== *)
(** * Selecting the best scores
    ([ranking] in [crates/gcode-memory-types/src/lib.rs], [top_k_scored] in
    [crates/gcode-memory-types/src/graph.rs])

    The selection keeps a heap of at most [limit] items, smallest first; an
    item replaces the smallest one when its score is greater. The heap of the
    Rust standard library is a list in the order of its comparison: [push]
    inserts, [peek] is the first item, [pop] removes it. *)

From S2P Require Import Prelude F32.
Open Scope nat_scope.

Section top_k.
Context {T K : Type} (gt leb : K → K → bool).

Record TopKItem := {
  tk_score : K;
  tk_ordinal : usize;
  tk_value : T;
}.

(** [self.score.total_cmp(&other.score).then_with(|| ordinal.cmp(..))] *)
Definition item_leb (a b : TopKItem) : bool :=
  if leb (tk_score a) (tk_score b) then
    if leb (tk_score b) (tk_score a) then tk_ordinal a <=? tk_ordinal b else true
  else false.

(** [b.score.total_cmp(&a.score).then_with(|| a.ordinal.cmp(&b.ordinal))] *)
Definition result_leb (a b : TopKItem) : bool :=
  if leb (tk_score b) (tk_score a) then
    if leb (tk_score a) (tk_score b) then tk_ordinal a <=? tk_ordinal b else true
  else false.

(** One item of the loop. *)
Definition top_k_step (limit : usize) (heap : list TopKItem) (candidate : TopKItem)
    : list TopKItem :=
  if length heap <? limit then insert_by item_leb candidate heap
  else
    match heap with
    | smallest :: rest =>
        if gt (tk_score candidate) (tk_score smallest)
        then insert_by item_leb candidate rest
        else heap
    | [] => heap
    end.

Definition top_k_heap (limit : usize) (items : list (T * K)) : list TopKItem :=
  foldl (top_k_step limit) []
    (imap (λ ordinal '(value, score),
       {| tk_score := score; tk_ordinal := ordinal; tk_value := value |}) items).

Definition top_k (items : list (T * K)) (limit : usize) : list (T * K) :=
  if limit =? 0 then []
  else (λ item, (tk_value item, tk_score item)) <$>
         sort_by result_leb (top_k_heap limit items).
End top_k.

#[global] Arguments top_k {T K} gt leb items limit.

Definition top_k_by_score {T} : list (T * f32) → usize → list (T * f32) :=
  top_k f32_gt f32_total_leb.

(** For an [Ord] key, [>] and the comparison are two sides of one order. *)
Definition top_k_by_ord {T K} (leb : K → K → bool)
    : list (T * K) → usize → list (T * K) :=
  top_k (λ a b, negb (leb a b)) leb.

(** The private copy of [top_k_by_score] in the graph module. *)
Definition top_k_scored {T} : list (T * f32) → usize → list (T * f32) :=
  top_k f32_gt f32_total_leb.

(** ** What a comparison of scores promises *)

Class ScoreOrder {K} (gt leb : K → K → bool) (proper_score : K → Prop) := {
  score_total : ∀ a b, leb a b = true ∨ leb b a = true;
  score_trans : ∀ a b c, leb a b = true → leb b c = true → leb a c = true;
  score_gt_leb : ∀ a b, gt a b = true → leb a b = false;
  score_gt_trans : ∀ a b c,
    proper_score c → gt a b = true → leb c b = true → gt a c = true;
}.

#[export] Program Instance f32_score_order :
  ScoreOrder f32_gt f32_total_leb (λ k, f32_is_nan k = false).
Next Obligation. intros a b. unfold f32_total_leb. rewrite !Z.leb_le. lia. Qed.
Next Obligation. intros a b c. unfold f32_total_leb. rewrite !Z.leb_le. lia. Qed.
Next Obligation. apply f32_gt_total. Qed.
Next Obligation. apply f32_gt_leb_trans. Qed.

(** ** Properties *)

Section top_k_properties.
Context {T K : Type} {gt leb : K → K → bool} {proper_score : K → Prop}.
Context `{!ScoreOrder gt leb proper_score}.

Abbreviation item := (@TopKItem T K).
Abbreviation key_of := (λ i : item, (tk_value i, tk_score i)).

Lemma item_leb_total (a b : item) : item_leb leb a b = true ∨ item_leb leb b a = true.
Proof.
  unfold item_leb. destruct (leb (tk_score a) (tk_score b)) eqn:E1, (leb (tk_score b) (tk_score a)) eqn:E2; auto.
  - rewrite !Nat.leb_le. lia.
  - destruct (score_total (leb := leb) (tk_score a) (tk_score b)); congruence.
Qed.

Lemma item_leb_trans (a b c : item) :
  item_leb leb a b = true → item_leb leb b c = true → item_leb leb a c = true.
Proof.
  unfold item_leb. pose proof (score_trans (leb := leb)) as T1.
  destruct (leb (tk_score a) (tk_score b)) eqn:E1; [|done].
  destruct (leb (tk_score b) (tk_score c)) eqn:E2; [|by destruct (leb (tk_score b) _)].
  rewrite (T1 _ _ _ E1 E2). destruct (leb (tk_score c) (tk_score a)) eqn:E3; [|done].
  rewrite (T1 _ _ _ E2 E3), (T1 _ _ _ E3 E1), !Nat.leb_le. lia.
Qed.

Lemma result_leb_total (a b : item) : result_leb leb a b = true ∨ result_leb leb b a = true.
Proof.
  unfold result_leb. destruct (leb (tk_score a) (tk_score b)) eqn:E1, (leb (tk_score b) (tk_score a)) eqn:E2; auto.
  - rewrite !Nat.leb_le. lia.
  - destruct (score_total (leb := leb) (tk_score a) (tk_score b)); congruence.
Qed.

Lemma result_leb_trans (a b c : item) :
  result_leb leb a b = true → result_leb leb b c = true → result_leb leb a c = true.
Proof.
  unfold result_leb. pose proof (score_trans (leb := leb)) as T1.
  destruct (leb (tk_score b) (tk_score a)) eqn:E1; [|done].
  destruct (leb (tk_score c) (tk_score b)) eqn:E2; [|by destruct (leb (tk_score b) _)].
  rewrite (T1 _ _ _ E2 E1). destruct (leb (tk_score a) (tk_score c)) eqn:E3; [|done].
  rewrite (T1 _ _ _ E3 E2), (T1 _ _ _ E1 E3), !Nat.leb_le. lia.
Qed.

Lemma item_leb_score (a b : item) :
  item_leb leb a b = true → leb (tk_score a) (tk_score b) = true.
Proof. unfold item_leb. by destruct (leb _ _). Qed.

Lemma result_leb_score (a b : item) :
  result_leb leb a b = true → leb (tk_score b) (tk_score a) = true.
Proof. unfold result_leb. by destruct (leb _ _). Qed.

(** The state of the loop: a sorted heap, and dropped items none of which
    beats an item of the heap. *)
Definition heap_inv (limit : usize) (seen heap dropped : list item) : Prop :=
  seen ≡ₚ heap ++ dropped
  ∧ StronglySorted (λ a b, item_leb leb a b = true) heap
  ∧ length heap = limit `min` length seen
  ∧ ∀ d k, d ∈ dropped → k ∈ heap → gt (tk_score d) (tk_score k) = false.

Lemma heap_step limit seen heap dropped c :
  0 < limit → (∀ i, i ∈ seen ++ [c] → proper_score (tk_score i)) →
  heap_inv limit seen heap dropped →
  ∃ dropped', heap_inv limit (seen ++ [c]) (top_k_step gt leb limit heap c) dropped'.
Proof.
  intros Hlimit Hproper (Hperm & Hs & Hlen & Hd). unfold top_k_step.
  pose proof item_leb_total as Htot. pose proof item_leb_trans as Htr.
  assert (∀ i, i ∈ heap ∨ i ∈ dropped ∨ i = c → proper_score (tk_score i)) as Hp.
  { intros i Hi. apply Hproper. rewrite Hperm, !elem_of_app, list_elem_of_singleton. tauto. }
  destruct (Nat.ltb_spec (length heap) limit) as [Hl|Hl].
  - (* The heap still grows: nothing has been dropped. *)
    assert (dropped = []) as ->.
    { apply Permutation_length in Hperm. rewrite length_app in Hperm.
      apply length_zero_iff_nil. lia. }
    exists []. split_and!.
    + by rewrite insert_by_perm, Hperm, !app_nil_r, Permutation_app_comm.
    + by apply insert_by_sorted.
    + rewrite insert_by_perm, length_app. simpl. lia.
    + set_solver.
  - destruct heap as [|s rest]; [simpl in *; lia|].
    apply StronglySorted_inv in Hs as [Hs Hall]. rewrite Forall_forall in Hall.
    assert (∀ k, k ∈ s :: rest → leb (tk_score s) (tk_score k) = true) as Hmin.
    { intros k [->|Hk]%elem_of_cons; [by destruct (score_total (tk_score s) (tk_score s))|].
      by apply item_leb_score, Hall. }
    destruct (gt (tk_score c) (tk_score s)) eqn:Eg.
    + exists (s :: dropped). split_and!.
      * rewrite insert_by_perm, Hperm. solve_Permutation.
      * by apply insert_by_sorted.
      * rewrite insert_by_perm, length_app. simpl in *. lia.
      * intros d k Hdin. rewrite insert_by_perm, elem_of_cons. intros Hk.
        apply not_true_iff_false. intros Hgt.
        apply elem_of_cons in Hdin as [->|Hdin].
        { destruct Hk as [->|Hk]; apply score_gt_leb in Hgt.
          - apply score_gt_leb in Eg. destruct (score_total (tk_score s) (tk_score c)); congruence.
          - rewrite Hmin in Hgt by set_solver. done. }
        destruct Hk as [->|Hk]; [|rewrite Hd in Hgt by set_solver; done].
        apply (score_gt_trans _ _ (tk_score s)) in Hgt; [|apply Hp; set_solver|].
        { rewrite Hd in Hgt by set_solver. done. }
        apply score_gt_leb in Eg. destruct (score_total (tk_score s) (tk_score c)); congruence.
    + exists (c :: dropped). split_and!.
      * rewrite Hperm. solve_Permutation.
      * constructor; [done|by rewrite Forall_forall].
      * rewrite length_app. simpl in *. lia.
      * intros d k [->|Hdin]%elem_of_cons Hk; [|by apply Hd].
        apply not_true_iff_false. intros Hgt.
        apply (score_gt_trans _ _ (tk_score s)) in Hgt; [congruence|apply Hp; set_solver|auto].
Qed.

Lemma heap_loop limit l seen heap dropped :
  0 < limit → (∀ i, i ∈ seen ++ l → proper_score (tk_score i)) →
  heap_inv limit seen heap dropped →
  ∃ dropped', heap_inv limit (seen ++ l) (foldl (top_k_step gt leb limit) heap l) dropped'.
Proof.
  intros Hlimit. revert seen heap dropped.
  induction l as [|c l IH]; intros seen heap dropped Hp Hinv; [rewrite app_nil_r; by eexists|].
  replace (seen ++ c :: l) with ((seen ++ [c]) ++ l) in * by by rewrite <- app_assoc.
  destruct (heap_step limit seen heap dropped c) as [dropped' H']; [done| |done|].
  { intros i Hi. apply Hp. set_solver. }
  by apply (IH _ _ dropped').
Qed.

Lemma top_k_items (n : nat) (items : list (T * K)) :
  key_of <$> imap (λ i '(value, score),
    {| tk_score := score; tk_ordinal := n + i; tk_value := value |}) items = items.
Proof.
  revert n. induction items as [|[v k] items IH]; intros n; [done|].
  rewrite imap_cons. simpl. f_equal. rewrite <- (IH (S n)) at 2. f_equal.
  apply imap_ext. intros i [v' k'] _. simpl. f_equal. lia.
Qed.

(** What [top_k] returns, for every order of scores. *)
Lemma top_k_spec (items : list (T * K)) limit :
  (∀ x, x ∈ items → proper_score x.2) →
  ∃ dropped,
    top_k gt leb items limit ++ dropped ≡ₚ items
    ∧ length (top_k gt leb items limit) = limit `min` length items
    ∧ StronglySorted (λ a b, leb b.2 a.2 = true) (top_k gt leb items limit)
    ∧ (0 < limit →
       ∀ d k, d ∈ dropped → k ∈ top_k gt leb items limit → gt d.2 k.2 = false).
Proof.
  intros Hp. unfold top_k. destruct (Nat.eqb_spec limit 0) as [->|Hl].
  { exists items. split_and!; [done|done|constructor|lia]. }
  set (tagged := imap (λ ordinal '(value, score),
    {| tk_score := score; tk_ordinal := ordinal; tk_value := value |}) items).
  assert (key_of <$> tagged = items) as Ht by apply (top_k_items 0).
  assert (length tagged = length items) as Hlen by (subst tagged; by rewrite length_imap).
  destruct (heap_loop limit tagged [] [] []) as (dropped & Hperm & Hs & Hn & Hd).
  - lia.
  - intros i Hi. apply (Hp (key_of i)). rewrite <- Ht.
    by apply (list_elem_of_fmap_2 key_of).
  - split_and!; [done|constructor|simpl; lia|set_solver].
  - unfold top_k_heap. fold tagged.
    pose proof (sort_by_perm (result_leb leb) (foldl (top_k_step gt leb limit) [] tagged)) as Hsort.
    pose proof (sort_by_sorted (result_leb leb) result_leb_total result_leb_trans
      (foldl (top_k_step gt leb limit) [] tagged)) as Hsorted.
    revert Hsort Hsorted. generalize (sort_by (result_leb leb)
      (foldl (top_k_step gt leb limit) [] tagged)). intros out Hsort Hsorted.
    exists (key_of <$> dropped). split_and!.
    + rewrite <- Ht, <- fmap_app, Hsort. apply fmap_Permutation. by rewrite <- Hperm.
    + by rewrite length_fmap, Hsort, Hn, <- Hlen.
    + clear -Hsorted. induction Hsorted as [|i out Hs IH Hall]; [constructor|].
      rewrite fmap_cons. constructor; [done|]. apply Forall_fmap.
      eapply Forall_impl; [done|]. intros j. apply result_leb_score.
    + intros _ d k (i & -> & Hi)%list_elem_of_fmap (j & -> & Hj)%list_elem_of_fmap.
      apply Hd; [done|]. by rewrite <- Hsort.
Qed.
End top_k_properties.

(** [top_k_by_score] keeps the best scores: it returns [limit] of the
    items (or all of them when there are fewer), by decreasing score, and no
    item it leaves out has a greater score than one it returns. A score may be
    infinite but must be a number: a NaN with a negative sign would stay at the
    bottom of the heap and keep every other item out. *)
Theorem top_k_by_score_correct {T} (items : list (T * f32)) limit :
  (∀ x, x ∈ items → f32_is_nan x.2 = false) →
  ∃ dropped,
    top_k_by_score items limit ++ dropped ≡ₚ items
    ∧ length (top_k_by_score items limit) = limit `min` length items
    ∧ StronglySorted (λ a b, f32_total_leb b.2 a.2 = true) (top_k_by_score items limit)
    ∧ (0 < limit → ∀ d k, d ∈ dropped → k ∈ top_k_by_score items limit →
       f32_gt d.2 k.2 = false).
Proof. exact (top_k_spec (proper_score := λ k, f32_is_nan k = false) items limit). Qed.

Lemma top_k_by_score_witness :
  ∃ dropped,
    [("b", f32_1_0); ("c", f32_0_7)] ++ dropped
    ≡ₚ [("a", f32_0_3); ("b", f32_1_0); ("d", f32_0_3); ("c", f32_0_7)].
Proof.
  destruct (top_k_by_score_correct
    [("a", f32_0_3); ("b", f32_1_0); ("d", f32_0_3); ("c", f32_0_7)] 2) as (dropped & H & _).
  - intros x Hx. repeat (apply elem_of_cons in Hx as [->|Hx]; [vm_compute; reflexivity|]).
    by apply elem_of_nil in Hx.
  - exists dropped. exact H.
Defined.

(** A negative NaN keeps a better score out. *)
Example top_k_negative_nan :
  top_k_by_score [("nan", 0xffc00000%Z); ("best", f32_1_0)] 1 = [("nan", 0xffc00000%Z)].
Proof. vm_compute. reflexivity. Qed.
