(* ===== verification/MemoryEntry.v ===== *)
(** * Memory entries and stores ([crates/gcode-memory-types/src/lib.rs])

    One remembered fact, its search text, and the flat store of entries that
    the graph of memories is migrated from. *)

From S2P Require Import Prelude Utf8 Text F32.
Open Scope nat_scope.

(** A point in time ([chrono::DateTime<Utc>]), as a count of nanoseconds. *)
Abbreviation datetime := Z (only parsing).

(** ** Data *)

Inductive TrustLevel := High | Medium | Low.

#[export] Instance TrustLevel_eq_dec : EqDecision TrustLevel.
Proof. solve_decision. Defined.

Definition trust_default : TrustLevel := Medium.

Inductive MemoryCategory :=
| Fact | Preference | Entity | Correction
| Custom (name : string).

#[export] Instance MemoryCategory_eq_dec : EqDecision MemoryCategory.
Proof. solve_decision. Defined.

Definition category_to_string (category : MemoryCategory) : string :=
  match category with
  | Fact => "fact"
  | Preference => "preference"
  | Entity => "entity"
  | Correction => "correction"
  | Custom s => s
  end.

Record Reinforcement := {
  rf_session_id : string;
  rf_message_index : usize;
  rf_timestamp : datetime;
}.

Record MemoryEntry := {
  me_id : string;
  me_category : MemoryCategory;
  me_content : string;
  me_tags : list string;
  me_search_text : string;
  me_created_at : datetime;
  me_updated_at : datetime;
  me_access_count : u32;
  me_source : option string;
  me_trust : TrustLevel;
  me_strength : u32;
  me_active : bool;
  me_superseded_by : option string;
  me_reinforcements : list Reinforcement;
  me_embedding : option (list f32);
  me_confidence : f32;
}.

Inductive MemoryScope := ScopeProject | ScopeGlobal | ScopeAll.

Definition includes_project (scope : MemoryScope) : bool :=
  match scope with ScopeProject | ScopeAll => true | _ => false end.

Definition includes_global (scope : MemoryScope) : bool :=
  match scope with ScopeGlobal | ScopeAll => true | _ => false end.

(** ** Search text *)

Section lower.
Context `{UnicodeLower}.

Definition category_from_str (s : string) : MemoryCategory :=
  let s := to_lowercase s in
  if s =s "fact" then Fact
  else if s =s "preference" then Preference
  else if s =s "entity" then Entity
  else if s =s "correction" then Correction
  else Custom s.

Definition category_from_extracted (s : string) : MemoryCategory :=
  let s := to_lowercase s in
  if str_in s ["fact"; "facts"] then Fact
  else if str_in s ["preference"; "preferences"; "pref"] then Preference
  else if str_in s ["correction"; "corrections"; "fix"; "bug"] then Correction
  else if str_in s ["entity"; "entities"] then Entity
  else if str_in s ["observation"; "lesson"; "learning"] then Fact
  else Fact.

(** The body of the loop of [normalize_search_text]: the text so far and
    whether a space was written last. *)
Definition normalize_char (st : string * bool) (ch : string) : string * bool :=
  let '(normalized, last_was_space) := st in
  let mapped :=
    if is_whitespace ch || str_in ch ["-"; "_"; "/"; "\"; "."; ":"] then " " else ch in
  if mapped =s " " then
    if negb last_was_space then (normalized +:+ " ", true) else (normalized, last_was_space)
  else (normalized +:+ mapped, false).

Definition normalize_search_text (text : string) : string :=
  let lowered := to_lowercase (trim text) in
  trim_end (foldl normalize_char ("", true) (chars lowered)).1.

Definition normalize_memory_search_text (content : string) (tags : list string) : string :=
  let normalized_content := normalize_search_text content in
  let normalized_tags := filter (λ tag, tag ≠ "") (normalize_search_text <$> tags) in
  match normalized_tags with
  | [] => normalized_content
  | _ =>
      if normalized_content =s "" then join " " normalized_tags
      else normalized_content +:+ " " +:+ join " " normalized_tags
  end.

(** ** Entries *)

Definition entry_new (id : string) (now : datetime) (category : MemoryCategory)
    (content : string) : MemoryEntry := {|
  me_id := id;
  me_category := category;
  me_content := content;
  me_tags := [];
  me_search_text := normalize_memory_search_text content [];
  me_created_at := now;
  me_updated_at := now;
  me_access_count := 0;
  me_source := None;
  me_trust := trust_default;
  me_strength := 1;
  me_active := true;
  me_superseded_by := None;
  me_reinforcements := [];
  me_embedding := None;
  me_confidence := f32_1_0;
|}.

(** The entry with other tags, search text, activity and successor; the
    assignments of single fields are written with it. *)
Definition entry_with (entry : MemoryEntry) (tags : list string) (search_text : string)
    (active : bool) (superseded_by : option string) : MemoryEntry := {|
  me_id := me_id entry;
  me_category := me_category entry;
  me_content := me_content entry;
  me_tags := tags;
  me_search_text := search_text;
  me_created_at := me_created_at entry;
  me_updated_at := me_updated_at entry;
  me_access_count := me_access_count entry;
  me_source := me_source entry;
  me_trust := me_trust entry;
  me_strength := me_strength entry;
  me_active := active;
  me_superseded_by := superseded_by;
  me_reinforcements := me_reinforcements entry;
  me_embedding := me_embedding entry;
  me_confidence := me_confidence entry;
|}.

Definition set_tags (tags : list string) (entry : MemoryEntry) : MemoryEntry :=
  entry_with entry tags (me_search_text entry) (me_active entry) (me_superseded_by entry).

Definition refresh_search_text (entry : MemoryEntry) : MemoryEntry :=
  entry_with entry (me_tags entry)
    (normalize_memory_search_text (me_content entry) (me_tags entry))
    (me_active entry) (me_superseded_by entry).

Definition searchable_text (entry : MemoryEntry) : string :=
  if me_search_text entry =s "" then
    normalize_memory_search_text (me_content entry) (me_tags entry)
  else me_search_text entry.

Definition with_tags (tags : list string) (entry : MemoryEntry) : MemoryEntry :=
  refresh_search_text (set_tags tags entry).

(** [MemoryEntry::supersede] *)
Definition entry_supersede (new_id : string) (entry : MemoryEntry) : MemoryEntry :=
  entry_with entry (me_tags entry) (me_search_text entry) false (Some new_id).

Definition has_embedding (entry : MemoryEntry) : bool :=
  match me_embedding entry with Some _ => true | None => false end.

Definition memory_matches_search (memory : MemoryEntry) (normalized_query : string) : bool :=
  str_contains normalized_query (searchable_text memory).

(** ** The flat store *)

Record MemoryStore := {
  ms_entries : list MemoryEntry;
  ms_metadata : gmap string string;
}.

Definition store_new : MemoryStore := {| ms_entries := []; ms_metadata := ∅ |}.

Definition store_add (entry : MemoryEntry) (store : MemoryStore) : MemoryStore * string :=
  let id := me_id entry in
  ({| ms_entries := ms_entries store ++ [entry]; ms_metadata := ms_metadata store |}, id).

Definition store_by_category (category : MemoryCategory) (store : MemoryStore)
    : list MemoryEntry :=
  filter (λ entry, me_category entry = category) (ms_entries store).

Definition store_search (query : string) (store : MemoryStore) : list MemoryEntry :=
  let query_lower := normalize_search_text query in
  if query_lower =s "" then []
  else filter (λ entry, memory_matches_search entry query_lower = true) (ms_entries store).

Definition store_get (id : string) (store : MemoryStore) : option MemoryEntry :=
  List.find (λ entry, me_id entry =s id) (ms_entries store).

(** The first entry with the id, and the entries without it. *)
Fixpoint remove_first (id : string) (entries : list MemoryEntry)
    : option (MemoryEntry * list MemoryEntry) :=
  match entries with
  | [] => None
  | entry :: rest =>
      if me_id entry =s id then Some (entry, rest)
      else
        match remove_first id rest with
        | Some (found, rest) => Some (found, entry :: rest)
        | None => None
        end
  end.

Definition store_remove (id : string) (store : MemoryStore)
    : MemoryStore * option MemoryEntry :=
  match remove_first id (ms_entries store) with
  | Some (entry, rest) =>
      ({| ms_entries := rest; ms_metadata := ms_metadata store |}, Some entry)
  | None => (store, None)
  end.
End lower.
