(* ===== verification/MemoryPrompt.v ===== *)
(** * Memories in prompts ([crates/gcode-memory-types/src/lib.rs])

    The changes of an entry in use, the scores of entries, and the text of the
    memories that a prompt gets. *)

From Stdlib Require Import SpecFloat.
From stdpp Require Import countable.
From S2P Require Import Prelude Utf8 Text SwarmPlan F32 Ranking MemoryEntry.
Open Scope nat_scope.

#[local] Arguments String.append !_ _ / : simpl nomatch.

(** ** The entry in use *)

(** The functions of floats that the hardware or the C library compute. *)
Class FloatFunctions := {
  f32_exp : f32 → f32;
  f32_ln : f32 → f32;
  f64_ln : f64 → f64;
}.

(** [-a], [a - b], [a.min(b)], [a.max(b)] and [n as f32] *)
Definition f32_neg (a : f32) : f32 := Z.lxor a (2 ^ 31).
Definition f32_sub (a b : f32) : f32 := f32_encode (SFsub 24 128 (f32_decode a) (f32_decode b)).
Definition f32_min (a b : f32) : f32 :=
  if f32_is_nan a then b else if f32_is_nan b then a else if f32_gt a b then b else a.
Definition f32_max (a b : f32) : f32 :=
  if f32_is_nan a then b else if f32_is_nan b then a else if f32_gt b a then b else a.
Definition f32_of_signed (n : Z) : f32 := f32_encode (binary_normalize 24 128 n 0 false).

(** [x as f32] of a double *)
Definition f32_of_f64 (x : f64) : f32 :=
  f32_encode match x with
             | S754_finite s m e => binary_normalize 24 128 (if s then Z.neg m else Z.pos m) e s
             | y => y
             end.

(** The assignments of the fields that use changes. *)
Definition entry_used (entry : MemoryEntry) (updated_at : datetime) (access_count strength : u32)
    (reinforcements : list Reinforcement) (confidence : f32) : MemoryEntry := {|
  me_id := me_id entry; me_category := me_category entry; me_content := me_content entry;
  me_tags := me_tags entry; me_search_text := me_search_text entry;
  me_created_at := me_created_at entry; me_updated_at := updated_at;
  me_access_count := access_count; me_source := me_source entry; me_trust := me_trust entry;
  me_strength := strength; me_active := me_active entry;
  me_superseded_by := me_superseded_by entry; me_reinforcements := reinforcements;
  me_embedding := me_embedding entry; me_confidence := confidence;
|}.

(** Those that describe where an entry comes from. *)
Definition entry_described (entry : MemoryEntry) (source : option string) (trust : TrustLevel)
    (embedding : option (list f32)) : MemoryEntry := {|
  me_id := me_id entry; me_category := me_category entry; me_content := me_content entry;
  me_tags := me_tags entry; me_search_text := me_search_text entry;
  me_created_at := me_created_at entry; me_updated_at := me_updated_at entry;
  me_access_count := me_access_count entry; me_source := source; me_trust := trust;
  me_strength := me_strength entry; me_active := me_active entry;
  me_superseded_by := me_superseded_by entry; me_reinforcements := me_reinforcements entry;
  me_embedding := embedding; me_confidence := me_confidence entry;
|}.

Definition with_source (source : string) (entry : MemoryEntry) : MemoryEntry :=
  entry_described entry (Some source) (me_trust entry) (me_embedding entry).
Definition with_trust (trust : TrustLevel) (entry : MemoryEntry) : MemoryEntry :=
  entry_described entry (me_source entry) trust (me_embedding entry).
Definition with_embedding (embedding : list f32) (entry : MemoryEntry) : MemoryEntry :=
  entry_described entry (me_source entry) (me_trust entry) (Some embedding).

Definition u32_succ (n : u32) : u32 := wrap_u 32 (n + 1).

Definition touch (now : datetime) (entry : MemoryEntry) : MemoryEntry :=
  entry_used entry now (u32_succ (me_access_count entry)) (me_strength entry)
    (me_reinforcements entry) (me_confidence entry).

Definition reinforce (now : datetime) (session_id : string) (message_index : usize)
    (entry : MemoryEntry) : MemoryEntry :=
  entry_used entry now (me_access_count entry) (u32_succ (me_strength entry))
    (me_reinforcements entry ++ [{| rf_session_id := session_id; rf_message_index := message_index;
                                    rf_timestamp := now |}]) (me_confidence entry).

Definition boost_confidence (now : datetime) (amount : f32) (entry : MemoryEntry) : MemoryEntry :=
  entry_used entry now (u32_succ (me_access_count entry)) (me_strength entry)
    (me_reinforcements entry) (f32_min (f32_add (me_confidence entry) amount) f32_1_0).

Definition decay_confidence (amount : f32) (entry : MemoryEntry) : MemoryEntry :=
  entry_used entry (me_updated_at entry) (me_access_count entry) (me_strength entry)
    (me_reinforcements entry) (f32_max (f32_sub (me_confidence entry) amount) f32_0_0).

(** [num_hours] and [num_days] of a time in nanoseconds. *)
Definition num_hours (d : Z) : Z := Z.quot d (3600 * 1000000000).
Definition num_days (d : Z) : Z := Z.quot d (86400 * 1000000000).

Section floats.
Context `{FloatFunctions}.

Definition half_life (category : MemoryCategory) : f32 :=
  f32_of_unsigned match category with
                  | Correction => 365 | Preference => 90 | Fact => 30 | Entity => 60 | Custom _ => 45
                  end.

Definition f32_0_693 : f32 := 0x3f316873.

Definition effective_confidence (now : datetime) (entry : MemoryEntry) : f32 :=
  let age_days := f32_of_signed (num_days (now - me_created_at entry)) in
  let decay := f32_exp (f32_mul (f32_div (f32_neg age_days) (half_life (me_category entry))) f32_0_693) in
  let access_boost :=
    f32_add f32_1_0 (f32_mul f32_0_10
      (f32_ln (f32_add (f32_of_unsigned (me_access_count entry)) f32_1_0))) in
  f32_min (f32_mul (f32_mul (me_confidence entry) decay) access_boost) f32_1_0.

(** ** Scores *)

Definition f64_sqrt : f64 → f64 := SFsqrt 53 1024.

Definition memory_score (now : datetime) (entry : MemoryEntry) : f64 :=
  if negb (me_active entry) then f64_zero
  else
    let age_hours := f64_of_Z (num_hours (now - me_updated_at entry)) in
    let score := f64_add f64_zero
      (f64_div (f64_of_Z 100) (f64_add (f64_of_Z 1) (f64_div age_hours (f64_of_Z 24)))) in
    let score := f64_add score (f64_mul (f64_sqrt (f64_of_Z (me_access_count entry))) (f64_of_Z 10)) in
    let score := f64_add score
      (f64_of_Z match me_category entry with
                | Correction => 50 | Preference => 30 | Fact => 20 | Entity => 10 | Custom _ => 5
                end) in
    let score := f64_mul score match me_trust entry with
                               | High => f64_decimal 15 1
                               | Medium => f64_of_Z 1
                               | Low => f64_decimal 7 1
                               end in
    f64_add score (f64_mul (f64_ln (f64_of_Z (me_strength entry))) (f64_of_Z 5)).

Definition get_relevant (now : datetime) (limit : usize) (store : MemoryStore) : list MemoryEntry :=
  (top_k_by_score ((λ entry, (entry, f32_of_f64 (memory_score now entry)))
                     <$> filter (λ entry, me_active entry = true) (ms_entries store)) limit).*1.
End floats.

(** ** The text for a prompt *)

#[export] Instance MemoryCategory_countable : Countable MemoryCategory.
Proof.
  apply (inj_countable'
    (λ c, match c with
          | Fact => inl 0 | Preference => inl 1 | Entity => inl 2 | Correction => inl 3 | Custom s => inr s
          end)
    (λ x : nat + string,
       match x with
       | inl 0 => Fact | inl 1 => Preference | inl 2 => Entity | inl _ => Correction | inr s => Custom s
       end)).
  by intros [].
Defined.

Section prompt.
Context `{UnicodeLower} (to_rfc3339 : datetime → string).

Definition dedupe_key (entry : MemoryEntry) : string :=
  to_lowercase (join " " (split_whitespace (me_content entry))).

(** The loop over the entries. *)
Definition select_entry (limit : usize) (st : list MemoryEntry * gset string) (entry : MemoryEntry)
    : list MemoryEntry * gset string :=
  let '(selected, seen_content) := st in
  if limit <=? length selected then st
  else
    let key := dedupe_key entry in
    if (key =s "") || bool_decide (key ∈ seen_content) then st
    else (selected ++ [entry], {[key]} ∪ seen_content).

Definition selected_entries_for_prompt (entries : list MemoryEntry) (limit : usize) : list MemoryEntry :=
  (foldl (select_entry limit) ([], ∅) (filter (λ entry, me_active entry = true) entries)).1.

Definition section_title (category : MemoryCategory) : string :=
  match category with
  | Correction => "Corrections" | Fact => "Facts" | Preference => "Preferences" | Entity => "Entities"
  | Custom _ => "Custom"
  end.

Definition item_text (include_updated_at_comments : bool) (idx : usize) (item : MemoryEntry) : string :=
  pretty (S idx) +:+ ". " +:+ trim (me_content item) +:+ nl
  +:+ (if include_updated_at_comments then
         "<!-- updated_at: " +:+ to_rfc3339 (me_updated_at item) +:+ " -->" +:+ nl
       else "").

Definition write_section (comments : bool) (output title : string) (items : list MemoryEntry) : string :=
  (if output =s "" then output else output +:+ nl)
  +:+ "## " +:+ title +:+ nl +:+ str_concat (imap (item_text comments) items).

(** The sections by category, each with its entries in order. *)
Definition group_entries (entries : list MemoryEntry) : gmap MemoryCategory (list MemoryEntry) :=
  foldl (λ sections entry,
    <[me_category entry := default [] (sections !! me_category entry) ++ [entry]]> sections) ∅ entries.

Definition section_order : list MemoryCategory := [Correction; Fact; Preference; Entity].

(** The sections that are left, by name. *)
Definition custom_sections (sections : gmap MemoryCategory (list MemoryEntry))
    : gmap string (list MemoryEntry) :=
  list_to_map (prod_map category_to_string id <$> map_to_list sections).

(** The loop over [section_order]. *)
Definition take_section (comments : bool) (st : string * gmap MemoryCategory (list MemoryEntry))
    (cat : MemoryCategory) : string * gmap MemoryCategory (list MemoryEntry) :=
  match st.2 !! cat with
  | Some items => (write_section comments st.1 (section_title cat) items, delete cat st.2)
  | None => st
  end.

Definition format_entries_for_prompt_with_header (entries : list MemoryEntry) (limit : usize)
    (include_header include_updated_at_comments : bool) : option string :=
  let sections := group_entries (selected_entries_for_prompt entries limit) in
  if bool_decide (sections = ∅) then None
  else
    let '(output, sections) :=
      foldl (take_section include_updated_at_comments) ("", sections) section_order in
    let customs := custom_sections sections in
    let output :=
      foldl (λ output name, write_section include_updated_at_comments output name
                              (default [] (customs !! name))) output (btree_to_vec (dom customs)) in
    if output =s "" then None
    else if include_header then Some ("# Memory" +:+ nl +:+ nl +:+ trim output)
    else Some (trim output).

Definition format_entries_for_prompt (entries : list MemoryEntry) (limit : usize) : option string :=
  format_entries_for_prompt_with_header entries limit false false.

Definition format_relevant_prompt (entries : list MemoryEntry) (limit : usize) : option string :=
  (λ formatted, "# Memory" +:+ nl +:+ nl +:+ formatted) <$> format_entries_for_prompt entries limit.

Definition format_relevant_display_prompt (entries : list MemoryEntry) (limit : usize) : option string :=
  format_entries_for_prompt_with_header entries limit true true.

Definition format_for_prompt `{FloatFunctions} (now : datetime) (limit : usize) (store : MemoryStore)
    : option string :=
  format_entries_for_prompt (get_relevant now limit store) limit.

(** ** Memories of skills *)

Definition is_skill_memory (entry : MemoryEntry) : bool :=
  starts_with "skill:" (me_id entry)
  || bool_decide (me_source entry = Some "skill_registry")
  || match me_category entry with
     | Custom name => ascii_lowercase name =s "skills"
     | _ => false
     end.

Definition STOPWORDS : list string :=
  ["about"; "after"; "before"; "could"; "from"; "have"; "just"; "make"; "ready"; "should";
   "start"; "that"; "their"; "there"; "they"; "this"; "what"; "when"; "where"; "which";
   "while"; "will"; "with"; "work"; "would"; "your"].

Definition collect_skill_query_terms (query_text : string) : gset string :=
  list_to_set
    (filter (λ term, term ∉ STOPWORDS)
       (filter (λ term, 4 ≤ String.length term) (split_whitespace (normalize_search_text query_text)))).

Definition skill_retrieval_bonus (entry : MemoryEntry) (query_terms : gset string) : f32 :=
  if negb (is_skill_memory entry) || bool_decide (query_terms = ∅) then f32_0_0
  else
    let searchable := searchable_text entry in
    match length (filter (λ term, str_contains term searchable = true) (elements query_terms)) with
    | 0 | 1 => f32_0_0
    | 2 => 0x3da3d70a%Z
    | 3 => 0x3e0f5c29%Z
    | _ => 0x3e4ccccd%Z
    end.
End prompt.

(** ** What a prompt gets *)

(** A section as text, and the sections of some entries: those of the four
    categories in their order, then those of the other names by name. *)
Definition section_text (to_rfc3339 : datetime → string) (comments : bool)
    (section : string * list MemoryEntry) : string :=
  "## " +:+ section.1 +:+ nl +:+ str_concat (imap (item_text to_rfc3339 comments) section.2).

Definition of_category (entries : list MemoryEntry) (category : MemoryCategory) : list MemoryEntry :=
  filter (λ entry, me_category entry = category) entries.

Definition custom_name (entry : MemoryEntry) : option string :=
  match me_category entry with Custom name => Some name | _ => None end.

Definition sections_of (entries : list MemoryEntry) : list (string * list MemoryEntry) :=
  filter (λ section, section.2 ≠ [])
    ((λ category, (section_title category, of_category entries category)) <$> section_order)
  ++ ((λ name, (name, of_category entries (Custom name)))
        <$> btree_to_vec (list_to_set (omap custom_name entries))).

Section theorems.
Context `{UnicodeLower} (to_rfc3339 : datetime → string).

(** *** Selecting *)

Definition selects (limit : usize) (entries : list MemoryEntry)
    (st : list MemoryEntry * gset string) : Prop :=
  st.1 `sublist_of` entries ∧ st.2 = list_to_set (dedupe_key <$> st.1)
  ∧ NoDup (dedupe_key <$> st.1) ∧ Forall (λ entry, dedupe_key entry ≠ "") st.1
  ∧ length st.1 ≤ limit
  ∧ (length st.1 < limit →
     ∀ entry, entry ∈ entries → dedupe_key entry ≠ "" → dedupe_key entry ∈ dedupe_key <$> st.1).

Lemma select_entry_selects limit entries st entry :
  selects limit entries st → selects limit (entries ++ [entry]) (select_entry limit st entry).
Proof.
  destruct st as [sel seen]. intros (Hsub & Hseen & Hnd & Hne & Hlen & Hall). cbn in *.
  assert (Hskip : (dedupe_key entry ≠ "" → length sel < limit → dedupe_key entry ∈ dedupe_key <$> sel) →
                  selects limit (entries ++ [entry]) (sel, seen)).
  { intros Hk. split_and!; try done; cbn; [by apply sublist_inserts_r|].
    intros Hl e [Hin|Hin]%elem_of_app Hne'; [by apply Hall|].
    apply list_elem_of_singleton in Hin as ->. auto. }
  destruct (limit <=? length sel) eqn:El.
  { apply Nat.leb_le in El. apply Hskip. lia. }
  apply Nat.leb_gt in El. destruct (dedupe_key entry =s "") eqn:Ek; cbn [orb].
  { apply String.eqb_eq in Ek. apply Hskip. by intros ?. }
  apply String.eqb_neq in Ek. case_bool_decide as Hin.
  { apply Hskip. intros _ _. rewrite Hseen in Hin. by apply elem_of_list_to_set in Hin. }
  rewrite Hseen, elem_of_list_to_set in Hin.
  split_and!; cbn.
  - by apply sublist_app.
  - rewrite Hseen, fmap_app, list_to_set_app_L. cbn. set_solver.
  - rewrite fmap_app, NoDup_app. split_and!; [done| |apply NoDup_singleton].
    intros x Hx Hx'%list_elem_of_singleton. by subst x.
  - by apply Forall_app_2; [|constructor].
  - rewrite length_app. cbn. lia.
  - intros _ e [He|He]%elem_of_app Hk; rewrite fmap_app, elem_of_app.
    + left. by apply Hall.
    + apply list_elem_of_singleton in He as ->. right. by left.
Qed.

Lemma selected_selects entries limit :
  selects limit (filter (λ entry, me_active entry = true) entries)
    (foldl (select_entry limit) ([], ∅) (filter (λ entry, me_active entry = true) entries)).
Proof.
  set (l := filter _ entries). clearbody l. induction l as [|entry l IH] using rev_ind.
  - split_and!; cbn; try done; [constructor|lia|]. intros _ e He. by apply elem_of_nil in He.
  - rewrite foldl_snoc. by apply select_entry_selects.
Qed.

(** *** Grouping *)

Lemma group_entries_lookup entries category :
  group_entries entries !! category
  = if is_nil (of_category entries category) then None else Some (of_category entries category).
Proof.
  unfold group_entries, of_category. induction entries as [|entry entries IH] using rev_ind; [done|].
  rewrite foldl_snoc, filter_app. destruct (decide (me_category entry = category)) as [Hc|Hc].
  - rewrite Hc, lookup_insert_eq, IH, filter_cons_True by done.
    destruct (filter _ entries); done.
  - rewrite lookup_insert_ne, IH, filter_cons_False by done. cbn. by rewrite app_nil_r.
Qed.

Lemma group_entries_empty entries : group_entries entries = ∅ ↔ entries = [].
Proof.
  split; [|by intros ->]. destruct entries as [|entry entries]; [done|]. intros Hg. exfalso.
  assert (Hl := group_entries_lookup (entry :: entries) (me_category entry)).
  rewrite Hg, lookup_empty in Hl. unfold of_category in Hl. by rewrite filter_cons_True in Hl.
Qed.

Definition write_sections (comments : bool) (output : string)
    (sections : list (string * list MemoryEntry)) : string :=
  foldl (λ output section, write_section to_rfc3339 comments output section.1 section.2)
    output sections.

Lemma write_sections_app comments output l l' :
  write_sections comments (write_sections comments output l) l'
  = write_sections comments output (l ++ l').
Proof. unfold write_sections. by rewrite foldl_app. Qed.

Lemma take_sections comments entries cats sections output :
  NoDup cats →
  (∀ cat, cat ∈ cats → sections !! cat = if is_nil (of_category entries cat) then None
                                         else Some (of_category entries cat)) →
  foldl (take_section to_rfc3339 comments) (output, sections) cats
  = (write_sections comments output
       (filter (λ section, section.2 ≠ [])
          ((λ cat, (section_title cat, of_category entries cat)) <$> cats)),
     foldl (λ sections cat, delete cat sections) sections cats).
Proof.
  revert sections output. induction cats as [|cat cats IH]; [done|].
  intros sections output [Hnin Hnd]%NoDup_cons Hs. cbn [foldl fmap list_fmap].
  unfold take_section at 2. cbn [fst snd]. rewrite (Hs cat) by by left.
  destruct (of_category entries cat) as [|item items] eqn:Ei; cbn [is_nil].
  - rewrite filter_cons_False by (cbn; congruence).
    rewrite (delete_id sections cat) by by rewrite (Hs cat), Ei by by left.
    apply IH; [done|]. intros; apply Hs; by right.
  - rewrite filter_cons_True by (cbn; congruence).
    rewrite IH; [done..|]. intros cat' Hin. rewrite lookup_delete_ne by set_solver.
    apply Hs. by right.
Qed.

Lemma lookup_foldl_delete {A} cats (sections : gmap MemoryCategory A) cat :
  foldl (λ sections cat, delete cat sections) sections cats !! cat
  = if bool_decide (cat ∈ cats) then None else sections !! cat.
Proof.
  revert sections. induction cats as [|cat' cats IH]; [done|]. intros sections. cbn. rewrite IH.
  repeat case_bool_decide; try set_solver.
  - destruct (decide (cat = cat')) as [->|]; [by rewrite lookup_delete_eq|set_solver].
  - by rewrite lookup_delete_ne by set_solver.
Qed.

(** The sections that are left are those of the other names. *)
Lemma custom_sections_lookup (sections : gmap MemoryCategory (list MemoryEntry)) name :
  (∀ cat, cat ∈ section_order → sections !! cat = None) →
  custom_sections sections !! name = sections !! Custom name.
Proof.
  intros Hs. unfold custom_sections. apply option_eq. intros items.
  assert (Hcustom : ∀ cat items, sections !! cat = Some items → ∃ name, cat = Custom name).
  { intros [] ? Hl; eauto; rewrite Hs in Hl; try done; cbv; set_solver. }
  rewrite <- elem_of_list_to_map.
  - rewrite list_elem_of_fmap. split.
    + intros ([cat items'] & [= -> ->] & Hl%elem_of_map_to_list).
      by destruct (Hcustom _ _ Hl) as [? ->].
    + intros Hl. exists (Custom name, items). split; [done|]. by apply elem_of_map_to_list.
  - rewrite <- list_fmap_compose.
    replace ((fst ∘ prod_map category_to_string id) <$> map_to_list sections)
      with (category_to_string <$> (map_to_list sections).*1) by by rewrite <- list_fmap_compose.
    apply NoDup_fmap_2_strong; [|apply NoDup_fst_map_to_list].
    intros cat cat' (p & -> & Hp)%list_elem_of_fmap (p' & -> & Hp')%list_elem_of_fmap.
    destruct p as [cat items1], p' as [cat' items2].
    apply elem_of_map_to_list in Hp as [? ->]%Hcustom, Hp' as [? ->]%Hcustom. by intros [= ->].
Qed.

Lemma group_entries_sections entries comments :
  let sections := foldl (λ sections cat, delete cat sections) (group_entries entries) section_order in
  let customs := custom_sections sections in
  ∀ output,
    foldl (λ output name, write_section to_rfc3339 comments output name (default [] (customs !! name)))
      output (btree_to_vec (dom customs))
    = write_sections comments output
        ((λ name, (name, of_category entries (Custom name)))
           <$> btree_to_vec (list_to_set (omap custom_name entries))).
Proof.
  intros sections customs output.
  assert (Hlook : ∀ name, customs !! name
    = if is_nil (of_category entries (Custom name)) then None
      else Some (of_category entries (Custom name))).
  { intros name. unfold customs. rewrite custom_sections_lookup.
    - unfold sections. rewrite lookup_foldl_delete, group_entries_lookup.
      by rewrite bool_decide_false by (cbv; set_solver).
    - intros cat Hc. unfold sections. rewrite lookup_foldl_delete. by rewrite bool_decide_true. }
  assert (Hdom : dom customs = list_to_set (omap custom_name entries)).
  { apply set_eq. intros name. rewrite elem_of_dom, Hlook, elem_of_list_to_set, list_elem_of_omap.
    split.
    - destruct (of_category entries (Custom name)) as [|e l] eqn:E; [by intros [? [=]]|]. intros _.
      assert (He : e ∈ of_category entries (Custom name)) by (rewrite E; by left).
      apply list_elem_of_filter in He as [Hc He]. exists e. unfold custom_name. by rewrite Hc.
    - intros (e & He & Hn). destruct (me_category e) eqn:Ec; unfold custom_name in Hn; rewrite Ec in Hn;
        try done. injection Hn as ->.
      destruct (of_category entries (Custom name)) as [|] eqn:E; [|by eexists].
      assert (Hf : e ∈ of_category entries (Custom name)) by by apply list_elem_of_filter.
      rewrite E in Hf. by apply elem_of_nil in Hf. }
  rewrite Hdom. clear Hdom. generalize (btree_to_vec (list_to_set (omap custom_name entries))).
  intros names. revert output. induction names as [|name names IH]; intros output; [done|].
  cbn. rewrite IH. unfold write_sections. f_equal. f_equal. rewrite Hlook.
  by destruct (of_category _ _).
Qed.

Lemma join_snoc sep pieces piece :
  join sep (pieces ++ [piece]) = if is_nil pieces then piece else join sep pieces +:+ sep +:+ piece.
Proof.
  induction pieces as [|p pieces IH]; [done|]. rewrite <- app_comm_cons, join_cons.
  - rewrite IH. cbn [is_nil]. destruct pieces as [|q pieces]; [done|].
    rewrite (join_cons sep p (q :: pieces)) by done. cbn [is_nil]. by rewrite !str_app_assoc.
  - by destruct pieces.
Qed.

Lemma section_text_head comments section :
  ∃ text, section_text to_rfc3339 comments section = String (Ascii.ascii_of_nat 35) text.
Proof. unfold section_text. by eexists. Qed.

(** The sections are parted by empty lines. *)
Lemma write_sections_text comments sections :
  write_sections comments "" sections = join nl (section_text to_rfc3339 comments <$> sections).
Proof.
  unfold write_sections. induction sections as [|[title items] sections IH] using rev_ind; [done|].
  rewrite foldl_snoc, IH, fmap_app. cbn [fmap list_fmap fst snd]. rewrite join_snoc.
  destruct sections as [|section sections]; [done|]. cbn [fmap list_fmap is_nil].
  destruct (section_text_head comments section) as [text ->]. rewrite join_push.
  unfold write_section, section_text. cbn [fst snd String.eqb].
  by rewrite !str_app_assoc.
Qed.

Lemma of_category_cons entry entries cat :
  of_category (entry :: entries) cat
  = if decide (me_category entry = cat) then entry :: of_category entries cat
    else of_category entries cat.
Proof. unfold of_category. rewrite filter_cons. done. Qed.

(** Each entry is in the section of its category. *)
Lemma categories_perm entries cats :
  NoDup cats → (∀ entry, entry ∈ entries → me_category entry ∈ cats) →
  concat (of_category entries <$> cats) ≡ₚ entries.
Proof.
  intros Hnd. induction entries as [|entry entries IH]; intros Hin.
  - clear. induction cats; [done|]. cbn. done.
  - assert (He : me_category entry ∈ cats) by (apply Hin; by left).
    assert (IH' := IH (λ e He, Hin e (list_elem_of_further _ _ _ He))). clear IH Hin.
    rewrite <- IH' at 2. clear IH'. induction cats as [|cat cats IH]; [by apply elem_of_nil in He|].
    apply NoDup_cons in Hnd as [Hnin Hnd]. rewrite !fmap_cons. cbn [concat].
    rewrite of_category_cons.
    destruct (decide (me_category entry = cat)) as [Hc|Hc].
    + cbn [app]. constructor. apply reflexive_eq. f_equal. f_equal.
      apply list_fmap_ext. intros i cat' Hl%list_elem_of_lookup_2.
      rewrite of_category_cons, decide_False; congruence.
    + rewrite IH by (done || set_solver). by rewrite Permutation_middle.
Qed.

Lemma concat_sections (sections : list (string * list MemoryEntry)) :
  concat (filter (λ section, section.2 ≠ []) sections).*2 = concat sections.*2.
Proof.
  induction sections as [|[title [|item items]] sections IH]; [done|..].
  - by rewrite filter_cons_False by (by intros []).
  - rewrite filter_cons_True by done. cbn. by rewrite IH.
Qed.

Lemma sections_of_perm entries : concat (sections_of entries).*2 ≡ₚ entries.
Proof.
  set (names := btree_to_vec (list_to_set (omap custom_name entries))).
  rewrite <- (categories_perm entries (section_order ++ (Custom <$> names))) at 2.
  - unfold sections_of. fold names.
    rewrite fmap_app, concat_app, concat_sections, fmap_app, concat_app, <- !list_fmap_compose. done.
  - apply NoDup_app. split_and!.
    + by apply (bool_decide_unpack (NoDup section_order)).
    + intros cat Hc (name & -> & _)%list_elem_of_fmap. revert Hc. cbv. set_solver.
    + apply NoDup_fmap_2; [by intros ?? [= ->]|]. unfold names, btree_to_vec. rewrite sort_strings_perm. apply NoDup_elements.
  - intros entry He. rewrite elem_of_app. destruct (me_category entry) as [| | | |name] eqn:E;
      try (left; cbv; set_solver). right. apply list_elem_of_fmap. exists name. split; [done|].
    apply elem_of_btree_to_vec, elem_of_list_to_set, list_elem_of_omap. exists entry.
    split; [done|]. unfold custom_name. by rewrite E.
Qed.

(** C35. What a prompt says of the memories: the text exists when some active
    entry has content, and then it is the sections parted by empty lines, the
    four categories first and the others by name, each with its entries
    numbered, under the heading when it is asked for. The sections hold, each
    exactly once, a sublist of the active entries, at most [limit] of them,
    without two of the same content up to case and space, which stops short of
    [limit] only when every content is there. *)
Theorem memory_prompt_correct entries limit header comments :
  let active := filter (λ entry, me_active entry = true) entries in
  let selected := selected_entries_for_prompt entries limit in
  selects limit active (selected, list_to_set (dedupe_key <$> selected))
  ∧ concat (sections_of selected).*2 ≡ₚ selected
  ∧ format_entries_for_prompt_with_header to_rfc3339 entries limit header comments
    = if is_nil selected then None
      else Some ((if header : bool then "# Memory" +:+ nl +:+ nl else "")
                 +:+ trim (join nl (section_text to_rfc3339 comments <$> sections_of selected))).
Proof.
  intros active selected. assert (Hsel := selected_selects entries limit). fold active in Hsel.
  split_and!; [|apply sections_of_perm|].
  { unfold selected, selected_entries_for_prompt. fold active. revert Hsel.
    destruct (foldl _ _ active) as [sel seen]. intros Hsel.
    by replace (list_to_set _) with seen by apply Hsel. }
  unfold format_entries_for_prompt_with_header. fold selected. clearbody selected. clear Hsel active.
  destruct selected as [|item items] eqn:Es; [done|]. rewrite <- Es.
  replace (is_nil selected) with false by by rewrite Es.
  rewrite bool_decide_false by (rewrite group_entries_empty; congruence).
  rewrite (take_sections comments selected); [|by apply (bool_decide_unpack (NoDup section_order))|
    intros; apply group_entries_lookup].
  rewrite group_entries_sections, write_sections_app. fold (sections_of selected).
  rewrite write_sections_text.
  destruct (sections_of selected) as [|section sections] eqn:Ef.
  { exfalso. assert (Hp := sections_of_perm selected). rewrite Ef, Es in Hp.
    by apply Permutation_nil_l in Hp. }
  rewrite fmap_cons. destruct (section_text_head comments section) as [text ->]. rewrite join_push.
  cbn [String.eqb]. destruct header; [by rewrite !str_app_assoc|done].
Qed.
End theorems.
