(* ===== verification/MemoryGraph.v ===== *)
(** * The memory graph ([crates/gcode-memory-types/src/graph.rs])

    Memories, tags and clusters with forward edges and a reverse index, the
    operations on them, and retrieval that cascades along the edges. *)

From S2P Require Import Prelude Utf8 Text F32 Ranking MemoryEntry.
Open Scope nat_scope.

Definition GRAPH_VERSION : u32 := 2.

(** ** Data *)

Inductive EdgeKind :=
| HasTag
| InCluster
| RelatesTo (weight : f32)
| Supersedes
| Contradicts
| DerivedFrom.

(** The derived [PartialEq]: weights are compared as floats, so an edge with a
    NaN weight differs from itself. *)
Definition kind_eqb (a b : EdgeKind) : bool :=
  match a, b with
  | HasTag, HasTag | InCluster, InCluster | Supersedes, Supersedes
  | Contradicts, Contradicts | DerivedFrom, DerivedFrom => true
  | RelatesTo v, RelatesTo w => f32_eq v w
  | _, _ => false
  end.

#[export] Instance EdgeKind_eq_dec : EqDecision EdgeKind.
Proof. solve_decision. Defined.

Definition is_has_tag (kind : EdgeKind) : bool :=
  match kind with HasTag => true | _ => false end.

Definition default_weight : f32 := f32_1_0.

Definition traversal_weight (kind : EdgeKind) : f32 :=
  match kind with
  | HasTag => f32_0_8
  | InCluster => f32_0_6
  | RelatesTo weight => weight
  | Supersedes => f32_0_9
  | Contradicts => f32_0_3
  | DerivedFrom => f32_0_7
  end.

Record Edge := { e_target : string; e_kind : EdgeKind }.

#[export] Instance Edge_eq_dec : EqDecision Edge.
Proof. solve_decision. Defined.

Definition edge_new (target : string) (kind : EdgeKind) : Edge :=
  {| e_target := target; e_kind := kind |}.

Record TagEntry := {
  t_id : string;
  t_name : string;
  t_description : option string;
  t_count : u32;
  t_created_at : datetime;
}.

(** [format!("tag:{}", name)] *)
Definition tag_id_of (name : string) : string := "tag:" +:+ name.

Definition tag_new (now : datetime) (name : string) : TagEntry := {|
  t_id := tag_id_of name;
  t_name := name;
  t_description := None;
  t_count := 0;
  t_created_at := now;
|}.

Definition tag_with_description (desc : string) (tag : TagEntry) : TagEntry := {|
  t_id := t_id tag;
  t_name := t_name tag;
  t_description := Some desc;
  t_count := t_count tag;
  t_created_at := t_created_at tag;
|}.

Record ClusterEntry := {
  c_id : string;
  c_name : option string;
  c_centroid : list f32;
  c_member_count : u32;
  c_created_at : datetime;
  c_updated_at : datetime;
}.

Definition cluster_new (now : datetime) (id : string) : ClusterEntry := {|
  c_id := "cluster:" +:+ id;
  c_name := None;
  c_centroid := [];
  c_member_count := 0;
  c_created_at := now;
  c_updated_at := now;
|}.

Record GraphMetadata := {
  last_cluster_update : option datetime;
  retrieval_count : u64;
  link_discovery_count : u64;
}.

Definition metadata_default : GraphMetadata :=
  {| last_cluster_update := None; retrieval_count := 0; link_discovery_count := 0 |}.

Record MemoryGraph := {
  graph_version : u32;
  memories : gmap string MemoryEntry;
  tags : gmap string TagEntry;
  clusters : gmap string ClusterEntry;
  edges : gmap string (list Edge);
  reverse_edges : gmap string (list string);
  metadata : GraphMetadata;
}.

Definition graph_new : MemoryGraph := {|
  graph_version := GRAPH_VERSION;
  memories := ∅;
  tags := ∅;
  clusters := ∅;
  edges := ∅;
  reverse_edges := ∅;
  metadata := metadata_default;
|}.

(** Assignments of single fields. *)
Definition set_memories (v : gmap string MemoryEntry) (g : MemoryGraph) : MemoryGraph :=
  {| graph_version := graph_version g; memories := v; tags := tags g; clusters := clusters g;
     edges := edges g; reverse_edges := reverse_edges g; metadata := metadata g |}.
Definition set_graph_tags (v : gmap string TagEntry) (g : MemoryGraph) : MemoryGraph :=
  {| graph_version := graph_version g; memories := memories g; tags := v;
     clusters := clusters g; edges := edges g; reverse_edges := reverse_edges g;
     metadata := metadata g |}.
Definition set_edges (f : gmap string (list Edge)) (r : gmap string (list string))
    (g : MemoryGraph) : MemoryGraph :=
  {| graph_version := graph_version g; memories := memories g; tags := tags g;
     clusters := clusters g; edges := f; reverse_edges := r; metadata := metadata g |}.
Definition set_metadata (v : GraphMetadata) (g : MemoryGraph) : MemoryGraph :=
  {| graph_version := graph_version g; memories := memories g; tags := tags g;
     clusters := clusters g; edges := edges g; reverse_edges := reverse_edges g;
     metadata := v |}.

(** [if let Some(tag) = self.tags.get_mut(&tag_id) { tag.count = .. }] *)
Definition update_tag_count (f : u32 → u32) (tag_id : string) (g : MemoryGraph)
    : MemoryGraph :=
  set_graph_tags (alter (λ tag, {|
    t_id := t_id tag; t_name := t_name tag; t_description := t_description tag;
    t_count := f (t_count tag); t_created_at := t_created_at tag |}) tag_id (tags g)) g.

(** [count += 1] and [count.saturating_sub(1)] on 32 bits. *)
Definition count_incr (n : u32) : u32 := wrap_u 32 (n + 1).
Definition count_decr (n : u32) : u32 := Z.max 0 (n - 1).

(** ** Edges *)

Definition add_edge_internal (from to : string) (kind : EdgeKind) (g : MemoryGraph)
    : MemoryGraph :=
  set_edges
    (<[from := default [] (edges g !! from) ++ [edge_new to kind]]> (edges g))
    (<[to := default [] (reverse_edges g !! to) ++ [from]]> (reverse_edges g)) g.

Definition add_edge (from to : string) (kind : EdgeKind) (g : MemoryGraph) : MemoryGraph :=
  if from_option (existsb (λ e, (e_target e =s to) && kind_eqb (e_kind e) kind))
       false (edges g !! from)
  then g
  else add_edge_internal from to kind g.

Definition remove_edge (from to : string) (kind : EdgeKind) (g : MemoryGraph)
    : MemoryGraph :=
  set_edges
    (alter (filter (λ e, negb ((e_target e =s to) && kind_eqb (e_kind e) kind) = true))
       from (edges g))
    (alter (filter (λ s, s ≠ from)) to (reverse_edges g)) g.

Definition get_edges (node_id : string) (g : MemoryGraph) : list Edge :=
  default [] (edges g !! node_id).

Definition get_incoming (node_id : string) (g : MemoryGraph) : list string :=
  default [] (reverse_edges g !! node_id).

Definition link_memories (from to : string) (weight : f32) (g : MemoryGraph) : MemoryGraph :=
  let g := add_edge from to (RelatesTo weight) g in
  let md := metadata g in
  set_metadata {|
    last_cluster_update := last_cluster_update md;
    retrieval_count := retrieval_count md;
    link_discovery_count := wrap_u 64 (link_discovery_count md + 1) |} g.

Definition supersede (newer_id older_id : string) (g : MemoryGraph) : MemoryGraph :=
  let g := add_edge newer_id older_id Supersedes g in
  set_memories (alter (entry_supersede newer_id) older_id (memories g)) g.

Definition mark_contradiction (id_a id_b : string) (g : MemoryGraph) : MemoryGraph :=
  let g := add_edge id_a id_b Contradicts g in
  add_edge id_b id_a Contradicts g.

(** ** Tags *)

Definition ensure_tag (now : datetime) (name : string) (g : MemoryGraph) : MemoryGraph :=
  let tag_id := tag_id_of name in
  match tags g !! tag_id with
  | Some _ => g
  | None => set_graph_tags (<[tag_id := tag_new now name]> (tags g)) g
  end.

Section lower.
Context `{UnicodeLower}.

Definition tag_memory (now : datetime) (memory_id tag_name : string) (g : MemoryGraph)
    : MemoryGraph :=
  let g := ensure_tag now tag_name g in
  let tag_id := tag_id_of tag_name in
  if from_option (existsb (λ e, (e_target e =s tag_id) && is_has_tag (e_kind e)))
       false (edges g !! memory_id)
  then g
  else
    let g := add_edge_internal memory_id tag_id HasTag g in
    let g := update_tag_count count_incr tag_id g in
    set_memories (alter (λ memory,
      if decide (tag_name ∈ me_tags memory) then memory
      else refresh_search_text (set_tags (me_tags memory ++ [tag_name]) memory))
      memory_id (memories g)) g.

Definition untag_memory (memory_id tag_name : string) (g : MemoryGraph) : MemoryGraph :=
  let tag_id := tag_id_of tag_name in
  let g := set_edges
    (alter (filter (λ e, negb ((e_target e =s tag_id) && is_has_tag (e_kind e)) = true))
       memory_id (edges g))
    (alter (filter (λ s, s ≠ memory_id)) tag_id (reverse_edges g)) g in
  let g := update_tag_count count_decr tag_id g in
  set_memories (alter (λ memory,
    refresh_search_text (set_tags (filter (λ t, t ≠ tag_name) (me_tags memory)) memory))
    memory_id (memories g)) g.

Definition get_memories_by_tag (tag_name : string) (g : MemoryGraph) : list MemoryEntry :=
  let tag_id := tag_id_of tag_name in
  match reverse_edges g !! tag_id with
  | Some sources => omap (λ id, memories g !! id) sources
  | None => []
  end.

(** ** Memories *)

(** The body of the loop over the tags of a new entry. *)
Definition link_tag (now : datetime) (id : string) (g : MemoryGraph) (tag_name : string)
    : MemoryGraph :=
  let g := ensure_tag now tag_name g in
  let tag_id := tag_id_of tag_name in
  let g := add_edge_internal id tag_id HasTag g in
  update_tag_count count_incr tag_id g.

Definition add_memory (now : datetime) (entry : MemoryEntry) (g : MemoryGraph)
    : MemoryGraph * string :=
  let entry := refresh_search_text entry in
  let id := me_id entry in
  let g := foldl (link_tag now id) g (me_tags entry) in
  let g :=
    match me_superseded_by entry with
    | Some superseded_by => add_edge_internal superseded_by id Supersedes g
    | None => g
    end in
  (set_memories (<[id := entry]> (memories g)) g, id).

Definition get_memory (id : string) (g : MemoryGraph) : option MemoryEntry :=
  memories g !! id.

(** [get_memory_mut]: a change of one entry through the reference. *)
Definition update_memory (id : string) (change : MemoryEntry → MemoryEntry)
    (g : MemoryGraph) : MemoryGraph :=
  set_memories (alter change id (memories g)) g.

(** The loop over the edges of a removed memory. *)
Definition unlink_outgoing (id : string) (g : MemoryGraph) (edge : Edge) : MemoryGraph :=
  let g := set_edges (edges g)
    (alter (filter (λ src, src ≠ id)) (e_target edge) (reverse_edges g)) g in
  if is_has_tag (e_kind edge) then update_tag_count count_decr (e_target edge) g else g.

(** The loop over the sources that point to a removed memory. *)
Definition unlink_incoming (id : string) (g : MemoryGraph) (source : string) : MemoryGraph :=
  set_edges (alter (filter (λ e, e_target e ≠ id)) source (edges g)) (reverse_edges g) g.

Definition remove_memory (id : string) (g : MemoryGraph)
    : MemoryGraph * option MemoryEntry :=
  let g :=
    match edges g !! id with
    | Some removed =>
        foldl (unlink_outgoing id)
          (set_edges (delete id (edges g)) (reverse_edges g) g) removed
    | None => g
    end in
  let g :=
    match reverse_edges g !! id with
    | Some sources =>
        foldl (unlink_incoming id)
          (set_edges (edges g) (delete id (reverse_edges g)) g) sources
    | None => g
    end in
  (set_memories (delete id (memories g)) g, memories g !! id).

(** ** Counts *)

Definition memory_count (g : MemoryGraph) : usize := size (memories g).

Definition node_count (g : MemoryGraph) : usize :=
  size (memories g) + size (tags g) + size (clusters g).

Definition edge_count (g : MemoryGraph) : usize :=
  map_fold (λ _ v n, length v + n) 0 (edges g).

Definition is_migrated (g : MemoryGraph) : bool := (graph_version g =? GRAPH_VERSION)%Z.

(** ** Migration *)

(** One entry of the legacy store. *)
Definition migrate_entry (now : datetime) (g : MemoryGraph) (entry : MemoryEntry)
    : MemoryGraph :=
  let memory_id := me_id entry in
  let g := set_memories (<[memory_id := entry]> (memories g)) g in
  let g := foldl (link_tag now memory_id) g (me_tags entry) in
  match me_superseded_by entry with
  | Some newer_id => add_edge_internal newer_id memory_id Supersedes g
  | None => g
  end.

Definition from_legacy_store (now : datetime) (store : MemoryStore) : MemoryGraph :=
  foldl (migrate_entry now) graph_new (ms_entries store).
End lower.

(** ** Cascade retrieval *)

(** [f32::powi]. Its precision is left open by Rust, so it is a parameter. *)
Class PowI := f32_powi : f32 → i32 → f32.

Record CascadeState := {
  cs_visited : gset string;
  cs_results : gmap string f32;
  cs_queue : list (string * f32 * usize);
}.

(** The seeds, as far as both lists go, that are memories of the graph. *)
Definition cascade_seed (g : MemoryGraph) (st : CascadeState) (seed : string * f32)
    : CascadeState :=
  let '(id, score) := seed in
  match memories g !! id with
  | Some _ => {|
      cs_visited := cs_visited st;
      cs_results := <[id := score]> (cs_results st);
      cs_queue := cs_queue st ++ [(id, score, 0)] |}
  | None => st
  end.

(** A node is offered a score: a better one is recorded and queued. *)
Definition cascade_offer (new_score : f32) (depth : usize) (id : string)
    (st : CascadeState) : CascadeState :=
  let existing := default f32_0_0 (cs_results st !! id) in
  if f32_gt new_score existing then {|
    cs_visited := cs_visited st;
    cs_results := <[id := new_score]> (cs_results st);
    cs_queue := cs_queue st ++ [(id, new_score, depth + 1)] |}
  else st.

Section cascade.
Context `{PowI} (g : MemoryGraph).

(** The body of the loop over the edges of a node. *)
Definition cascade_edge (score : f32) (depth : usize) (st : CascadeState) (edge : Edge)
    : CascadeState :=
  let target := e_target edge in
  if decide (target ∈ cs_visited st) then st
  else
    let edge_weight := traversal_weight (e_kind edge) in
    let decay := f32_powi f32_0_7 (wrap_s 32 (wrap_s 32 (Z.of_nat depth) + 1)) in
    let new_score := f32_mul (f32_mul score edge_weight) decay in
    if starts_with "tag:" target then
      foldl (λ st source_id,
        if decide (source_id ∉ cs_visited st ∧ is_Some (memories g !! source_id))
        then cascade_offer new_score depth source_id st else st)
        st (get_incoming target g)
    else
      match memories g !! target with
      | Some _ => cascade_offer new_score depth target st
      | None => st
      end.

(** The [while let] loop; [None] when the fuel runs out. *)
Fixpoint cascade_loop (fuel : nat) (max_depth : usize) (st : CascadeState)
    : option CascadeState :=
  match fuel with
  | O => None
  | S fuel =>
      match cs_queue st with
      | [] => Some st
      | (node_id, score, depth) :: queue =>
          let popped := {| cs_visited := cs_visited st; cs_results := cs_results st;
                           cs_queue := queue |} in
          if decide (node_id ∈ cs_visited st) then cascade_loop fuel max_depth popped
          else
            let entered := {| cs_visited := {[node_id]} ∪ cs_visited st;
                              cs_results := cs_results st; cs_queue := queue |} in
            if max_depth <=? depth then cascade_loop fuel max_depth entered
            else
              cascade_loop fuel max_depth
                (foldl (cascade_edge score depth) entered (get_edges node_id g))
      end
  end.

(** How many entries visiting a node can add to the queue, and the fuel that
    is always enough: every node with edges is visited at most once. *)
Definition node_fanout (v : list Edge) : nat :=
  sum_list_with (λ e, length (get_incoming (e_target e) g) + 1) v.

Definition cascade_fuel (seed_ids : list string) : nat :=
  S (length seed_ids + map_fold (λ _ v n, node_fanout v + n) 0 (edges g)).
End cascade.

Definition cascade_retrieve `{HashOrder, PowI} (seed_ids : list string)
    (seed_scores : list f32) (max_depth max_results : usize) (g : MemoryGraph)
    : option (MemoryGraph * list (string * f32)) :=
  let md := metadata g in
  let g := set_metadata {|
    last_cluster_update := last_cluster_update md;
    retrieval_count := wrap_u 64 (retrieval_count md + 1);
    link_discovery_count := link_discovery_count md |} g in
  let start := foldl (cascade_seed g)
    {| cs_visited := ∅; cs_results := ∅; cs_queue := [] |} (zip seed_ids seed_scores) in
  st ← cascade_loop g (cascade_fuel g seed_ids) max_depth start;
  Some (g, top_k_scored (hash_entries (cs_results st)) max_results).
