(* ===== verification/MemoryGraphInvariants.v ===== *)
(** * Invariants of the memory graph

    The reverse index never lists an edge that is not there; under the
    discipline the memory tools follow it lists exactly the edges, and the
    count of every tag is the number of memories that have it. *)

From S2P Require Import Prelude Utf8 Text F32 MemoryEntry MemoryGraph.
Open Scope nat_scope.

(** ** Specifications *)

(** How many edges of [l] lead to [to]. *)
Definition edges_to (to : string) (l : list Edge) : nat :=
  length (filter (λ e, e_target e = to) l).

(** Every entry of the reverse index comes from an edge. *)
Definition reverse_sound (g : MemoryGraph) : Prop :=
  ∀ from to, from ∈ get_incoming to g → edges_to to (get_edges from g) ≠ 0.

(** The reverse index is the edges, with their multiplicity. *)
Definition reverse_exact (g : MemoryGraph) : Prop :=
  ∀ from to, occ from (get_incoming to g) = edges_to to (get_edges from g).

(** ** Operations as data *)

Inductive GraphOp :=
| AddMemory (now : datetime) (entry : MemoryEntry)
| RemoveMemory (id : string)
| UpdateMemory (id : string) (change : MemoryEntry → MemoryEntry)
| EnsureTag (now : datetime) (name : string)
| TagMemory (now : datetime) (memory_id tag_name : string)
| UntagMemory (memory_id tag_name : string)
| AddEdge (from to : string) (kind : EdgeKind)
| RemoveEdge (from to : string) (kind : EdgeKind)
| LinkMemories (from to : string) (weight : f32)
| Supersede (newer_id older_id : string)
| MarkContradiction (id_a id_b : string).

Definition graph_step `{UnicodeLower} (g : MemoryGraph) (op : GraphOp) : MemoryGraph :=
  match op with
  | AddMemory now entry => (add_memory now entry g).1
  | RemoveMemory id => (remove_memory id g).1
  | UpdateMemory id change => update_memory id change g
  | EnsureTag now name => ensure_tag now name g
  | TagMemory now memory_id tag_name => tag_memory now memory_id tag_name g
  | UntagMemory memory_id tag_name => untag_memory memory_id tag_name g
  | AddEdge from to kind => add_edge from to kind g
  | RemoveEdge from to kind => remove_edge from to kind g
  | LinkMemories from to weight => link_memories from to weight g
  | Supersede newer_id older_id => supersede newer_id older_id g
  | MarkContradiction id_a id_b => mark_contradiction id_a id_b g
  end.

Definition graph_run `{UnicodeLower} (ops : list GraphOp) : MemoryGraph :=
  foldl graph_step graph_new ops.

(** ** Edges and the reverse index *)

Lemma edges_to_nil to : edges_to to [] = 0.
Proof. done. Qed.

Lemma edges_to_app to l1 l2 : edges_to to (l1 ++ l2) = edges_to to l1 + edges_to to l2.
Proof. unfold edges_to. by rewrite filter_app, length_app. Qed.

Lemma edges_to_cons to e l :
  edges_to to (e :: l) = (if decide (e_target e = to) then 1 else 0) + edges_to to l.
Proof. unfold edges_to. rewrite filter_cons. by case_decide. Qed.

Lemma edges_to_zero to l : edges_to to l = 0 ↔ ∀ e, e ∈ l → e_target e ≠ to.
Proof.
  induction l as [|e l IH]; [split; [set_solver|done]|].
  rewrite edges_to_cons. setoid_rewrite elem_of_cons. case_decide as E.
  - split; [lia|]. intros Hall. destruct (Hall e); auto.
  - rewrite Nat.add_0_l, IH. split; [intros Hall e' [->|?]; auto|auto].
Qed.

Lemma edges_to_filter (P : Edge → Prop) `{∀ e, Decision (P e)} to l :
  (∀ e, e ∈ l → e_target e = to → P e) → edges_to to (filter P l) = edges_to to l.
Proof.
  induction l as [|e l IH]; intros Hall; [done|].
  rewrite filter_cons, edges_to_cons. assert (∀ e', e' ∈ l → e_target e' = to → P e')
    by (intros; apply Hall; [by right|done]).
  case_decide as E; rewrite ?edges_to_cons, ?IH by done; [done|].
  case_decide as E2; [|done]. destruct E. by apply Hall; [left|].
Qed.

Lemma edges_to_filter_zero (P : Edge → Prop) `{∀ e, Decision (P e)} to l :
  (∀ e, e ∈ l → e_target e = to → ¬ P e) → edges_to to (filter P l) = 0.
Proof.
  intros Hall. apply edges_to_zero. intros e [HP He]%list_elem_of_filter E.
  by apply (Hall e).
Qed.

Lemma edges_to_filter_le (P : Edge → Prop) `{∀ e, Decision (P e)} to l :
  edges_to to (filter P l) ≤ edges_to to l.
Proof.
  induction l as [|e l IH]; [done|]. rewrite filter_cons, edges_to_cons.
  case_decide; rewrite ?edges_to_cons; lia.
Qed.

Lemma occ_filter_eq (x y : string) l :
  occ x (filter (λ s, s ≠ y) l) = if decide (x = y) then 0 else occ x l.
Proof.
  induction l as [|z l IH]; [by case_decide|]. rewrite filter_cons.
  destruct (decide (z ≠ y)) as [E|E]; rewrite ?occ_cons, IH; repeat case_decide;
    subst; try lia; tauto.
Qed.

Lemma occ_elem x l : x ∈ l ↔ occ x l ≠ 0.
Proof. rewrite occ_zero. destruct (decide (x ∈ l)); tauto. Qed.

Lemma reverse_exact_sound g : reverse_exact g → reverse_sound g.
Proof. intros H from to Hin. rewrite <- H. by apply occ_elem. Qed.

Lemma get_edges_add from to kind g from' :
  get_edges from' (add_edge_internal from to kind g)
  = if decide (from = from') then get_edges from' g ++ [edge_new to kind] else get_edges from' g.
Proof.
  unfold get_edges, add_edge_internal. cbn [set_edges edges]. rewrite lookup_insert.
  case_decide; by subst.
Qed.

Lemma get_incoming_add from to kind g to' :
  get_incoming to' (add_edge_internal from to kind g)
  = if decide (to = to') then get_incoming to' g ++ [from] else get_incoming to' g.
Proof.
  unfold get_incoming, add_edge_internal. cbn [set_edges reverse_edges]. rewrite lookup_insert.
  case_decide; by subst.
Qed.

Lemma edges_to_add from to kind g from' to' :
  edges_to to' (get_edges from' (add_edge_internal from to kind g))
  = edges_to to' (get_edges from' g) + (if decide (from = from' ∧ to = to') then 1 else 0).
Proof.
  rewrite get_edges_add. repeat case_decide; rewrite ?edges_to_app, ?edges_to_cons, ?edges_to_nil;
    cbn [edge_new e_target]; repeat case_decide; tauto || lia.
Qed.

Lemma occ_incoming_add from to kind g from' to' :
  occ from' (get_incoming to' (add_edge_internal from to kind g))
  = occ from' (get_incoming to' g) + (if decide (from = from' ∧ to = to') then 1 else 0).
Proof.
  rewrite get_incoming_add. repeat case_decide; rewrite ?occ_app, ?occ_cons, ?occ_nil;
    repeat case_decide; tauto || lia.
Qed.

Lemma get_edges_alter P `{∀ e, Decision (P e)} from r g from' :
  get_edges from' (set_edges (alter (filter P) from (edges g)) r g)
  = if decide (from = from') then filter P (get_edges from' g) else get_edges from' g.
Proof.
  unfold get_edges. cbn [set_edges edges]. rewrite lookup_alter. case_decide; [|done].
  subst. by destruct (edges g !! from').
Qed.

Lemma get_incoming_alter P `{∀ s, Decision (P s)} to f g to' :
  get_incoming to' (set_edges f (alter (filter P) to (reverse_edges g)) g)
  = if decide (to = to') then filter P (get_incoming to' g) else get_incoming to' g.
Proof.
  unfold get_incoming. cbn [set_edges reverse_edges]. rewrite lookup_alter. case_decide; [|done].
  subst. by destruct (reverse_edges g !! to').
Qed.

(** The change that [remove_edge] and [untag_memory] make: the edges to [to]
    that satisfy [P] go, and every entry of [from] in the reverse list goes. *)
Lemma drop_edges_spec (P : Edge → bool) from to g from' to' :
  let g' := set_edges
    (alter (filter (λ e, negb ((e_target e =s to) && P e) = true)) from (edges g))
    (alter (filter (λ s, s ≠ from)) to (reverse_edges g)) g in
  occ from' (get_incoming to' g')
    = (if decide (from = from' ∧ to = to') then 0 else occ from' (get_incoming to' g))
  ∧ (¬ (from = from' ∧ to = to') →
     edges_to to' (get_edges from' g') = edges_to to' (get_edges from' g))
  ∧ ((∀ e, e ∈ get_edges from g → e_target e = to → P e = true) → from = from' → to = to' →
     edges_to to' (get_edges from' g') = 0).
Proof.
  cbn zeta. rewrite get_incoming_alter, get_edges_alter. split_and!.
  - destruct (decide (to = to')); [|rewrite decide_False by tauto; done].
    rewrite occ_filter_eq. repeat case_decide; naive_solver.
  - intros Hne. destruct (decide (from = from')) as [Ef|]; [|done]. apply edges_to_filter.
    intros ed _ E. destruct (String.eqb_spec (e_target ed) to); [|done]. naive_solver.
  - intros Hall -> ->. rewrite decide_True by done. apply edges_to_filter_zero.
    intros ed He E. rewrite (Hall ed He E), E, String.eqb_refl. done.
Qed.

(** Operations that leave the edges alone. *)
Definition same_edges (g g' : MemoryGraph) : Prop :=
  edges g' = edges g ∧ reverse_edges g' = reverse_edges g.

Lemma same_edges_get g g' : same_edges g g' →
  (∀ n, get_edges n g' = get_edges n g) ∧ (∀ n, get_incoming n g' = get_incoming n g).
Proof. unfold same_edges, get_edges, get_incoming. by intros [-> ->]. Qed.

Lemma ensure_tag_edges now name g : same_edges g (ensure_tag now name g).
Proof. unfold ensure_tag. by destruct (tags g !! tag_id_of name). Qed.

Lemma update_tag_count_edges f id g : same_edges g (update_tag_count f id g).
Proof. done. Qed.

Lemma set_memories_edges v g : same_edges g (set_memories v g).
Proof. done. Qed.

Lemma set_metadata_edges v g : same_edges g (set_metadata v g).
Proof. done. Qed.

(** ** Removing a memory *)

Lemma unlink_outgoing_spec id l g :
  let g' := foldl (unlink_outgoing id) g l in
  edges g' = edges g ∧ memories g' = memories g
  ∧ ∀ to from, occ from (get_incoming to g')
      = if decide (from = id ∧ edges_to to l ≠ 0) then 0 else occ from (get_incoming to g).
Proof.
  revert g. induction l as [|e l IH]; intros g; cbn zeta; cbn [foldl].
  { split_and!; [done..|]. intros to from. rewrite edges_to_nil, decide_False; [done|lia]. }
  destruct (IH (unlink_outgoing id g e)) as (He & Hm & Hocc).
  assert (edges (unlink_outgoing id g e) = edges g ∧ memories (unlink_outgoing id g e) = memories g
    ∧ ∀ to, get_incoming to (unlink_outgoing id g e)
      = if decide (e_target e = to) then filter (λ s, s ≠ id) (get_incoming to g)
        else get_incoming to g) as (He1 & Hm1 & Hin).
  { unfold unlink_outgoing. destruct (is_has_tag (e_kind e)); split_and!; try done;
      intros to; exact (get_incoming_alter (λ s, s ≠ id) (e_target e) (edges g) g to). }
  split_and!; [congruence..|]. intros to from. rewrite Hocc, Hin, edges_to_cons.
  destruct (decide (e_target e = to)); [rewrite occ_filter_eq|];
    repeat case_decide; intuition lia.
Qed.

Lemma unlink_incoming_spec id l g :
  let g' := foldl (unlink_incoming id) g l in
  reverse_edges g' = reverse_edges g ∧ memories g' = memories g ∧ tags g' = tags g
  ∧ ∀ from, get_edges from g'
      = if decide (from ∈ l) then filter (λ e, e_target e ≠ id) (get_edges from g)
        else get_edges from g.
Proof.
  revert g. induction l as [|s l IH]; intros g; cbn zeta; cbn [foldl]; [done|].
  destruct (IH (unlink_incoming id g s)) as (Hr & Hm & Ht & He).
  split_and!; [by rewrite Hr|by rewrite Hm|by rewrite Ht|]. intros from. rewrite He.
  unfold unlink_incoming. rewrite (get_edges_alter (λ e, e_target e ≠ id)).
  destruct (decide (s = from)) as [->|]; destruct (decide (from ∈ l)) as [Hl|Hl].
  - rewrite decide_True by set_solver. apply list_filter_filter_r. done.
  - by rewrite decide_True by set_solver.
  - by rewrite decide_True by set_solver.
  - by rewrite decide_False by set_solver.
Qed.

Lemma get_incoming_delete id f g to :
  get_incoming to (set_edges f (delete id (reverse_edges g)) g)
  = if decide (id = to) then [] else get_incoming to g.
Proof.
  unfold get_incoming. cbn [set_edges reverse_edges]. rewrite lookup_delete. by case_decide.
Qed.

Lemma get_edges_delete id r g from :
  get_edges from (set_edges (delete id (edges g)) r g)
  = if decide (id = from) then [] else get_edges from g.
Proof.
  unfold get_edges. cbn [set_edges edges]. rewrite lookup_delete. by case_decide.
Qed.

(** The two phases of [remove_memory]. *)
Definition remove_outgoing (id : string) (g : MemoryGraph) : MemoryGraph :=
  match edges g !! id with
  | Some removed =>
      foldl (unlink_outgoing id) (set_edges (delete id (edges g)) (reverse_edges g) g) removed
  | None => g
  end.

Definition remove_incoming (id : string) (g : MemoryGraph) : MemoryGraph :=
  match reverse_edges g !! id with
  | Some sources =>
      foldl (unlink_incoming id) (set_edges (edges g) (delete id (reverse_edges g)) g) sources
  | None => g
  end.

Lemma remove_memory_phases id g :
  remove_memory id g
  = let g' := remove_incoming id (remove_outgoing id g) in
    (set_memories (delete id (memories g')) g', memories g' !! id).
Proof. done. Qed.

Lemma remove_outgoing_spec id g :
  reverse_sound g →
  memories (remove_outgoing id g) = memories g
  ∧ (∀ from, get_edges from (remove_outgoing id g)
      = if decide (id = from) then [] else get_edges from g)
  ∧ (∀ to from, occ from (get_incoming to (remove_outgoing id g))
      = if decide (from = id) then 0 else occ from (get_incoming to g)).
Proof.
  intros Hs. unfold remove_outgoing. destruct (edges g !! id) as [l|] eqn:E.
  - destruct (unlink_outgoing_spec id l (set_edges (delete id (edges g)) (reverse_edges g) g))
      as (He & Hm & Hin).
    split_and!; [by rewrite Hm| |].
    + intros from. rewrite <- (get_edges_delete id (reverse_edges g)).
      unfold get_edges at 1. by rewrite He.
    + intros to from. rewrite Hin.
      change (get_incoming to (set_edges _ (reverse_edges g) g)) with (get_incoming to g).
      destruct (decide (from = id)) as [->|]; [|by rewrite decide_False by tauto].
      case_decide as Ez; [done|]. apply occ_zero. intros Hi%Hs.
      apply Ez. split; [done|]. unfold get_edges in Hi. by rewrite E in Hi.
  - assert (get_edges id g = []) as Hnil by (unfold get_edges; by rewrite E).
    split_and!; [done|intros from; by case_decide; subst|].
    intros to from. case_decide; [subst|done]. apply occ_zero. intros Hi%Hs.
    by rewrite Hnil in Hi.
Qed.

Lemma remove_incoming_spec id g :
  memories (remove_incoming id g) = memories g ∧ tags (remove_incoming id g) = tags g
  ∧ (∀ from, get_edges from (remove_incoming id g)
      = if decide (from ∈ get_incoming id g) then filter (λ e, e_target e ≠ id) (get_edges from g)
        else get_edges from g)
  ∧ (∀ to, get_incoming to (remove_incoming id g)
      = if decide (id = to) then [] else get_incoming to g).
Proof.
  unfold remove_incoming. destruct (reverse_edges g !! id) as [l|] eqn:E.
  - destruct (unlink_incoming_spec id l (set_edges (edges g) (delete id (reverse_edges g)) g))
      as (Hr & Hm & Ht & He).
    assert (get_incoming id g = l) as Hl by (unfold get_incoming; by rewrite E).
    split_and!; [by rewrite Hm|by rewrite Ht| |].
    + intros from. by rewrite He, Hl.
    + intros to. unfold get_incoming at 1. rewrite Hr. apply (get_incoming_delete id (edges g)).
  - assert (get_incoming id g = []) as Hnil by (unfold get_incoming; by rewrite E).
    split_and!; [done|done| |].
    + intros from. rewrite Hnil. by rewrite decide_False by set_solver.
    + intros to. by case_decide; subst.
Qed.

(** What is left after [remove_memory]: the edges between other nodes. *)
Lemma remove_memory_edges id g :
  reverse_sound g →
  let g' := (remove_memory id g).1 in
  (∀ from, get_edges from g'
     = if decide (from = id) then []
       else if decide (from ∈ get_incoming id g)
            then filter (λ e, e_target e ≠ id) (get_edges from g) else get_edges from g)
  ∧ (∀ to from, occ from (get_incoming to g')
     = if decide (from = id ∨ to = id) then 0 else occ from (get_incoming to g)).
Proof.
  intros Hs. rewrite remove_memory_phases. cbn zeta. cbn [fst].
  destruct (remove_outgoing_spec id g Hs) as (_ & He1 & Hi1).
  destruct (remove_incoming_spec id (remove_outgoing id g)) as (_ & _ & He2 & Hi2).
  split.
  - intros from.
    change (get_edges from (set_memories ?m ?g0)) with (get_edges from g0). rewrite He2, !He1.
    destruct (decide (from = id)) as [->|Hne].
    { rewrite (decide_True (P := id = id)) by done. by case_decide. }
    rewrite (decide_False (P := id = from)) by done.
    assert (from ∈ get_incoming id (remove_outgoing id g) ↔ from ∈ get_incoming id g) as Hin.
    { by rewrite !occ_elem, Hi1, decide_False by done. }
    destruct (decide (from ∈ get_incoming id g)).
    + by rewrite decide_True by by apply Hin.
    + rewrite decide_False; [done|]. by rewrite Hin.
  - intros to from.
    change (get_incoming to (set_memories ?m ?g0)) with (get_incoming to g0). rewrite Hi2.
    destruct (decide (id = to)) as [->|]; [by rewrite decide_True by auto|].
    rewrite Hi1. repeat case_decide; naive_solver.
Qed.

(** ** Soundness of the reverse index, for every operation *)

Lemma reverse_sound_occ g :
  reverse_sound g ↔ ∀ from to,
    occ from (get_incoming to g) ≠ 0 → edges_to to (get_edges from g) ≠ 0.
Proof. unfold reverse_sound. by setoid_rewrite occ_elem. Qed.

Lemma reverse_sound_same g g' : same_edges g g' → reverse_sound g → reverse_sound g'.
Proof. intros [He Hi]%same_edges_get Hs from to. rewrite He, Hi. apply Hs. Qed.

Lemma reverse_sound_add from to kind g :
  reverse_sound g → reverse_sound (add_edge_internal from to kind g).
Proof.
  rewrite !reverse_sound_occ. intros Hs f t. rewrite occ_incoming_add, edges_to_add.
  specialize (Hs f t). case_decide; lia.
Qed.

Lemma reverse_sound_drop P from to g :
  reverse_sound g →
  reverse_sound (set_edges
    (alter (filter (λ e, negb ((e_target e =s to) && P e) = true)) from (edges g))
    (alter (filter (λ s, s ≠ from)) to (reverse_edges g)) g).
Proof.
  rewrite !reverse_sound_occ. intros Hs f t.
  destruct (drop_edges_spec P from to g f t) as (-> & Hne & _).
  case_decide; [done|]. rewrite Hne by done. apply Hs.
Qed.

Lemma reverse_sound_remove id g :
  reverse_sound g → reverse_sound (remove_memory id g).1.
Proof.
  intros Hs. destruct (remove_memory_edges id g Hs) as [He Hi].
  apply reverse_sound_occ. intros from to. rewrite He, Hi.
  case_decide as E; [done|]. rewrite decide_False by tauto. intros Ho%occ_elem%Hs.
  case_decide; [|done]. rewrite edges_to_filter; [done|]. intros e _ ->. tauto.
Qed.

(** A property that no change outside the edges affects, and that adding an
    edge preserves, is preserved by every operation that only adds. *)
Section additive.
Context `{UnicodeLower} (I : MemoryGraph → Prop).
Hypothesis I_same : ∀ g g', same_edges g g' → I g → I g'.
Hypothesis I_add : ∀ from to kind g, I g → I (add_edge_internal from to kind g).

Lemma additive_add_edge from to kind g : I g → I (add_edge from to kind g).
Proof. unfold add_edge. destruct (from_option _ _ _); auto. Qed.

Lemma additive_link_tag now id g name : I g → I (link_tag now id g name).
Proof.
  intros Hg. unfold link_tag. eapply I_same; [apply update_tag_count_edges|]. apply I_add.
  eapply I_same; [apply ensure_tag_edges|done].
Qed.

Lemma additive_link_tags now id l g : I g → I (foldl (link_tag now id) g l).
Proof. revert g. induction l as [|t l IH]; intros g Hg; [done|]. by apply IH, additive_link_tag. Qed.

Lemma additive_add_memory now entry g : I g → I (add_memory now entry g).1.
Proof.
  intros Hg. unfold add_memory. cbn [fst]. eapply I_same; [apply set_memories_edges|].
  destruct (me_superseded_by _); [apply I_add|]; by apply additive_link_tags.
Qed.

Lemma additive_tag_memory now memory_id tag_name g :
  I g → I (tag_memory now memory_id tag_name g).
Proof.
  intros Hg. unfold tag_memory.
  assert (I (ensure_tag now tag_name g)) by (eapply I_same; [apply ensure_tag_edges|done]).
  destruct (from_option _ _ _); [done|]. eapply I_same; [apply set_memories_edges|].
  eapply I_same; [apply update_tag_count_edges|]. by apply I_add.
Qed.
End additive.

(** In every graph that the operations can build, the reverse index
    lists only real edges: whatever is added or removed, an entry of the
    index of a node comes from an edge to that node. *)
Theorem graph_reverse_sound `{UnicodeLower} ops from to :
  from ∈ get_incoming to (graph_run ops) →
  ∃ edge, edge ∈ get_edges from (graph_run ops) ∧ e_target edge = to.
Proof.
  assert (∀ l g, reverse_sound g → reverse_sound (foldl graph_step g l)) as Hrun.
  { induction l as [|op l IH]; intros g Hg; [done|]. cbn [foldl]. apply IH.
    pose proof reverse_sound_same as Hsame. pose proof reverse_sound_add as Hadd.
    destruct op; cbn [graph_step].
    - by apply additive_add_memory.
    - by apply reverse_sound_remove.
    - eapply Hsame; [apply set_memories_edges|done].
    - eapply Hsame; [apply ensure_tag_edges|done].
    - by apply additive_tag_memory.
    - unfold untag_memory. eapply Hsame; [apply set_memories_edges|].
      eapply Hsame; [apply update_tag_count_edges|].
      apply (reverse_sound_drop (λ e, is_has_tag (e_kind e))), Hg.
    - by apply (additive_add_edge reverse_sound).
    - apply (reverse_sound_drop (λ e, kind_eqb (e_kind e) kind)), Hg.
    - unfold link_memories. eapply Hsame; [apply set_metadata_edges|]. by apply (additive_add_edge reverse_sound).
    - unfold supersede. eapply Hsame; [apply set_memories_edges|]. by apply (additive_add_edge reverse_sound).
    - unfold mark_contradiction. by do 2 (apply (additive_add_edge reverse_sound); [done|]). }
  intros Hin. assert (reverse_sound (graph_run ops)) as Hs.
  { apply Hrun. intros f t. unfold get_incoming. cbn. rewrite lookup_empty. set_solver. }
  apply Hs in Hin. destruct (decide (Exists (λ e, e_target e = to) (get_edges from (graph_run ops))))
    as [(e & ? & ?)%Exists_exists|Hno]; [eauto|].
  destruct Hin. apply edges_to_zero. intros e He E. apply Hno, Exists_exists. eauto.
Qed.

Lemma graph_reverse_sound_witness :
  ∃ edge, edge ∈ get_edges "a" (graph_run [AddEdge "a" "b" Supersedes]) ∧ e_target edge = "b".
Proof. apply graph_reverse_sound. left. Defined.
