(* ===== verification/MemoryGraphCounts.v ===== *)
(** * The memory graph under discipline: exact index and tag counts *)

From S2P Require Import Prelude Utf8 Text F32 MemoryEntry MemoryGraph MemoryGraphInvariants.
Open Scope nat_scope.

Definition is_tag_id (id : string) : bool := starts_with "tag:" id.

Definition tag_count (g : MemoryGraph) (id : string) : option Z := t_count <$> tags g !! id.

(** Whether a memory has an edge to a node. *)
Definition has_edge (from to : string) (g : MemoryGraph) : bool :=
  existsb (λ e, e_target e =s to) (get_edges from g).

(** There is room for one more in the 32-bit count of a tag. *)
Definition tag_room (name : string) (g : MemoryGraph) : bool :=
  (Z.of_nat (length (get_incoming (tag_id_of name) g)) + 1 <? 2 ^ 32)%Z.

(** The way the memory manager uses the graph: a memory is added with distinct
    tags it does not have yet, a tag is given to a memory of the graph (the
    manager looks for the graph that has it) and taken from one that has it,
    the other edges do not lead to tags, and an edge is removed only where no
    edge of another kind runs between the same nodes. *)
Definition disciplined (g : MemoryGraph) (op : GraphOp) : bool :=
  match op with
  | AddMemory _ entry =>
      negb (is_tag_id (me_id entry)) && bool_decide (NoDup (me_tags entry))
      && forallb (λ t, negb (has_edge (me_id entry) (tag_id_of t) g) && tag_room t g)
           (me_tags entry)
  | RemoveMemory id => negb (is_tag_id id)
  | UpdateMemory _ _ | EnsureTag _ _ => true
  | TagMemory _ memory_id tag_name =>
      bool_decide (is_Some (memories g !! memory_id)) && tag_room tag_name g
  | UntagMemory memory_id tag_name => has_edge memory_id (tag_id_of tag_name) g
  | AddEdge _ to _ | LinkMemories _ to _ | Supersede _ to => negb (is_tag_id to)
  | RemoveEdge from to kind =>
      negb (is_tag_id to)
      && forallb (λ e, negb (e_target e =s to) || kind_eqb (e_kind e) kind) (get_edges from g)
  | MarkContradiction id_a id_b => negb (is_tag_id id_a) && negb (is_tag_id id_b)
  end.

Fixpoint disciplined_run `{UnicodeLower} (g : MemoryGraph) (ops : list GraphOp) : bool :=
  match ops with
  | [] => true
  | op :: ops => disciplined g op && disciplined_run (graph_step g op) ops
  end.

(** ** The invariant *)

Record graph_ok (g : MemoryGraph) : Prop := {
  ok_exact : reverse_exact g;
  ok_tag_edges : ∀ from e, e ∈ get_edges from g → is_tag_id (e_target e) = true →
    is_has_tag (e_kind e) = true;
  ok_tag_once : ∀ from id, is_tag_id id = true → occ from (get_incoming id g) ≤ 1;
  ok_tag_count : ∀ id, is_tag_id id = true →
    default 0%Z (tag_count g id) = Z.of_nat (length (get_incoming id g));
}.

Lemma starts_with_app p s : starts_with p (p +:+ s) = true.
Proof. apply starts_with_spec. eauto. Qed.

Lemma is_tag_id_of name : is_tag_id (tag_id_of name) = true.
Proof. apply starts_with_app. Qed.

Lemma tag_id_of_inj a b : tag_id_of a = tag_id_of b → a = b.
Proof. intros E. injection E. done. Qed.

Lemma tag_count_update f id g id' :
  tag_count (update_tag_count f id g) id'
  = if decide (id = id') then f <$> tag_count g id' else tag_count g id'.
Proof.
  unfold tag_count, update_tag_count. cbn [tags set_graph_tags]. rewrite lookup_alter.
  case_decide; [subst|done]. by destruct (tags g !! id').
Qed.

Lemma tag_count_ensure now name g id :
  tag_count (ensure_tag now name g) id
  = if decide (tag_id_of name = id) then Some (default 0%Z (tag_count g id)) else tag_count g id.
Proof.
  unfold tag_count, ensure_tag. destruct (tags g !! tag_id_of name) as [t|] eqn:E.
  - case_decide; [subst; by rewrite E|done].
  - cbn [tags set_graph_tags]. rewrite lookup_insert. case_decide; [subst; by rewrite E|done].
Qed.

Lemma has_edge_spec from to g :
  has_edge from to g = true ↔ edges_to to (get_edges from g) ≠ 0.
Proof.
  unfold has_edge. rewrite existsb_exists. setoid_rewrite eqb_true. split.
  - intros (e & He%list_elem_of_In & E) Hz. by apply (proj1 (edges_to_zero to _) Hz e).
  - intros Hnz. destruct (decide (Exists (λ e, e_target e = to) (get_edges from g)))
      as [(e & He & E)%Exists_exists|Hno]; [exists e; by rewrite <- list_elem_of_In|].
    destruct Hnz. apply edges_to_zero. intros e He E. apply Hno, Exists_exists. eauto.
Qed.

(** Changes outside the edges and the counts. *)
Lemma graph_ok_same g g' :
  same_edges g g' → (∀ id, default 0%Z (tag_count g' id) = default 0%Z (tag_count g id)) →
  graph_ok g → graph_ok g'.
Proof.
  intros [He Hi]%same_edges_get Ht [H1 H2 H3 H4]. constructor.
  - intros from to. rewrite He, Hi. apply H1.
  - intros from e. rewrite He. apply H2.
  - intros from id. rewrite Hi. apply H3.
  - intros id. rewrite Hi, Ht. apply H4.
Qed.

Lemma graph_ok_new : graph_ok graph_new.
Proof.
  assert (∀ id, get_edges id graph_new = []) as He.
  { intros id. unfold get_edges. cbn. by rewrite lookup_empty. }
  assert (∀ id, get_incoming id graph_new = []) as Hi.
  { intros id. unfold get_incoming. cbn. by rewrite lookup_empty. }
  constructor.
  - intros from to. by rewrite He, Hi.
  - intros from e. rewrite He. set_solver.
  - intros from id. rewrite Hi, occ_nil. lia.
  - intros id. rewrite Hi. unfold tag_count. cbn. by rewrite lookup_empty.
Qed.

Lemma get_edges_add_elem from to kind g from' e :
  e ∈ get_edges from' (add_edge_internal from to kind g) →
  e ∈ get_edges from' g ∨ e = edge_new to kind.
Proof. rewrite get_edges_add. case_decide; set_solver. Qed.

(** An edge to a node that is not a tag. *)
Lemma graph_ok_add from to kind g :
  is_tag_id to = false → graph_ok g → graph_ok (add_edge_internal from to kind g).
Proof.
  intros Hto [H1 H2 H3 H4]. constructor.
  - intros f t. by rewrite occ_incoming_add, edges_to_add, H1.
  - intros f e [He| ->]%get_edges_add_elem; [by eapply H2|].
    cbn [edge_new e_target]. by rewrite Hto.
  - intros f id Hid. rewrite get_incoming_add. rewrite decide_False by congruence. by apply H3.
  - intros id Hid. rewrite get_incoming_add. rewrite decide_False by congruence. by apply H4.
Qed.

(** A new edge to a tag, with its count. *)
Lemma graph_ok_link_tag now id name g :
  edges_to (tag_id_of name) (get_edges id g) = 0 → tag_room name g = true →
  graph_ok g → graph_ok (link_tag now id g name).
Proof.
  intros Hno Hroom Hg. unfold link_tag. pose proof (is_tag_id_of name) as Htag.
  assert (graph_ok (ensure_tag now name g)) as [H1 H2 H3 H4].
  { apply (graph_ok_same g); [apply ensure_tag_edges| |done].
    intros t. rewrite tag_count_ensure. by case_decide. }
  destruct (same_edges_get _ _ (ensure_tag_edges now name g)) as [He Hi].
  assert (∃ n, tag_count (ensure_tag now name g) (tag_id_of name) = Some n) as [n Hn].
  { rewrite tag_count_ensure, decide_True by done. by eexists. }
  unfold tag_room in Hroom. apply Z.ltb_lt in Hroom. rewrite <- Hi in Hroom. rewrite <- He in Hno.
  revert H1 H2 H3 H4 Hno Hn Hroom. generalize (ensure_tag now name g). clear.
  intros g H1 H2 H3 H4 Hno Hn Hroom. constructor.
  - intros f t. rewrite !(proj1 (same_edges_get _ _ (update_tag_count_edges _ _ _))),
      !(proj2 (same_edges_get _ _ (update_tag_count_edges _ _ _))).
    by rewrite occ_incoming_add, edges_to_add, H1.
  - intros f e. rewrite (proj1 (same_edges_get _ _ (update_tag_count_edges _ _ _))).
    intros [He| ->]%get_edges_add_elem; [by eapply H2|done].
  - intros f t Ht. rewrite (proj2 (same_edges_get _ _ (update_tag_count_edges _ _ _))).
    rewrite occ_incoming_add. specialize (H3 f t Ht). rewrite H1 in *.
    case_decide; destruct_all; subst; lia.
  - intros t Ht. rewrite (proj2 (same_edges_get _ _ (update_tag_count_edges _ _ _))).
    rewrite tag_count_update, get_incoming_add.
    change (tag_count (add_edge_internal _ _ _ g) t) with (tag_count g t).
    specialize (H4 t Ht). case_decide; [subst|done]. rewrite Hn in *. cbn in *.
    rewrite length_app. cbn. unfold count_incr, wrap_u. rewrite H4, Z.mod_small; lia.
Qed.

Lemma length_filter_ne (x : string) l : length (filter (λ s, s ≠ x) l) = length l - occ x l.
Proof.
  induction l as [|y l IH]; [done|]. rewrite filter_cons, occ_cons.
  assert (occ x l ≤ length l) by apply length_filter.
  repeat case_decide; simpl; try tauto; rewrite ?IH; lia.
Qed.

(** ** Removing edges *)

(** [remove_edge] and [untag_memory] where [P] holds of every edge between
    the two nodes. *)
Lemma drop_edges_exact P from to g :
  (∀ e, e ∈ get_edges from g → e_target e = to → P e = true) →
  reverse_exact g →
  reverse_exact (set_edges
    (alter (filter (λ e, negb ((e_target e =s to) && P e) = true)) from (edges g))
    (alter (filter (λ s, s ≠ from)) to (reverse_edges g)) g).
Proof.
  intros HP Hg f t. destruct (drop_edges_spec P from to g f t) as (-> & Hne & Heq).
  case_decide as E; [destruct E; by rewrite Heq|]. by rewrite Hne.
Qed.

Lemma drop_edges_elem P from to g f e :
  e ∈ get_edges f (set_edges
    (alter (filter (λ e, negb ((e_target e =s to) && P e) = true)) from (edges g))
    (alter (filter (λ s, s ≠ from)) to (reverse_edges g)) g) →
  e ∈ get_edges f g.
Proof. rewrite get_edges_alter. case_decide; [|done]. by intros [_ ?]%list_elem_of_filter. Qed.

Lemma occ_filter_le (P : string → Prop) `{∀ s, Decision (P s)} x l :
  occ x (filter P l) ≤ occ x l.
Proof.
  induction l as [|y l IH]; [done|]. rewrite filter_cons, occ_cons.
  case_decide; rewrite ?occ_cons; lia.
Qed.

Lemma graph_ok_remove_edge from to kind g :
  is_tag_id to = false →
  (∀ e, e ∈ get_edges from g → e_target e = to → kind_eqb (e_kind e) kind = true) →
  graph_ok g → graph_ok (remove_edge from to kind g).
Proof.
  intros Hto HP [H1 H2 H3 H4]. unfold remove_edge. constructor.
  - by apply (drop_edges_exact (λ e, kind_eqb (e_kind e) kind)).
  - intros f e He%(drop_edges_elem (λ e, kind_eqb (e_kind e) kind)). by eapply H2.
  - intros f id Hid. rewrite get_incoming_alter, decide_False by congruence. by apply H3.
  - intros id Hid. rewrite get_incoming_alter, decide_False by congruence. by apply H4.
Qed.

(** The graph after the edges of [untag_memory] are gone and the count is
    lowered. *)
Lemma graph_ok_untag memory_id tag_id g :
  is_tag_id tag_id = true → has_edge memory_id tag_id g = true → graph_ok g →
  graph_ok (update_tag_count count_decr tag_id (set_edges
    (alter (filter (λ e, negb ((e_target e =s tag_id) && is_has_tag (e_kind e)) = true))
       memory_id (edges g))
    (alter (filter (λ s, s ≠ memory_id)) tag_id (reverse_edges g)) g)).
Proof.
  intros Htag Hhas [H1 H2 H3 H4]. apply has_edge_spec in Hhas. rewrite <- H1 in Hhas.
  set (g' := set_edges _ _ g). constructor.
  - apply (drop_edges_exact (λ e, is_has_tag (e_kind e))); [|done].
    intros e He E. apply (H2 memory_id); [done|]. by rewrite E.
  - intros f e He%(drop_edges_elem (λ e, is_has_tag (e_kind e))). by eapply H2.
  - intros f id Hid. change (get_incoming id (update_tag_count _ _ g')) with (get_incoming id g').
    subst g'. rewrite get_incoming_alter. case_decide; [|by apply H3].
    etrans; [apply occ_filter_le|by apply H3].
  - intros id Hid. rewrite tag_count_update.
    change (get_incoming id (update_tag_count _ _ g')) with (get_incoming id g').
    change (tag_count g' id) with (tag_count g id). subst g'. rewrite get_incoming_alter.
    specialize (H4 id Hid). case_decide as E; [subst id|done].
    rewrite length_filter_ne. specialize (H3 memory_id tag_id Hid).
    assert (occ memory_id (get_incoming tag_id g) ≤ length (get_incoming tag_id g))
      by apply length_filter.
    destruct (tag_count g tag_id) as [n|]; cbn in *; [unfold count_decr; lia|].
    assert (length (get_incoming tag_id g) = 0) by lia. lia.
Qed.

(** The counts after the outgoing edges of a memory are removed. *)
Lemma unlink_outgoing_count id l g tid :
  is_tag_id tid = true →
  (∀ e, e ∈ l → is_tag_id (e_target e) = true → is_has_tag (e_kind e) = true) →
  edges_to tid l ≤ 1 →
  tag_count (foldl (unlink_outgoing id) g l) tid
  = if decide (edges_to tid l = 0) then tag_count g tid else count_decr <$> tag_count g tid.
Proof.
  intros Htid. revert g. induction l as [|e l IH]; intros g Hall Hle; [done|].
  cbn [foldl]. rewrite edges_to_cons in *.
  rewrite IH by (first [by intros; apply Hall; [right|] | lia]).
  assert (tag_count (unlink_outgoing id g e) tid
    = if decide (e_target e = tid) then count_decr <$> tag_count g tid else tag_count g tid) as ->.
  { unfold unlink_outgoing. destruct (is_has_tag (e_kind e)) eqn:Ek.
    - by rewrite tag_count_update.
    - case_decide; [|done]. subst tid. rewrite Hall in Ek by (done || left). done. }
  repeat case_decide; lia || done.
Qed.

Lemma graph_ok_remove_memory id g :
  is_tag_id id = false → graph_ok g → graph_ok (remove_memory id g).1.
Proof.
  intros Hid [H1 H2 H3 H4]. pose proof (reverse_exact_sound g H1) as Hs.
  destruct (remove_memory_edges id g Hs) as [He Hi]. constructor.
  - intros from to. rewrite He, Hi. destruct (decide (from = id)) as [->|Hf].
    { by rewrite decide_True by auto. }
    destruct (decide (to = id)) as [->|Ht].
    + rewrite decide_True by auto. symmetry. destruct (decide (from ∈ get_incoming id g)) as [Hin|Hin].
      * apply edges_to_filter_zero. intros e _ E. tauto.
      * rewrite <- H1. by apply occ_zero.
    + rewrite decide_False by tauto. rewrite H1. case_decide; [|done].
      symmetry. apply edges_to_filter. intros e _ ->. done.
  - intros from e. rewrite He. repeat case_decide; [set_solver| |by apply H2].
    intros [_ ?]%list_elem_of_filter. by eapply H2.
  - intros from tid Htid. rewrite Hi. case_decide; [lia|]. by apply H3.
  - intros tid Htid. specialize (H4 tid Htid). pose proof (H3 id tid Htid) as Honce.
    rewrite remove_memory_phases. cbn zeta. cbn [fst].
    destruct (remove_incoming_spec id (remove_outgoing id g)) as (_ & Ht & _ & Hin).
    change (tag_count (set_memories ?m ?g0) tid) with (tag_count g0 tid).
    change (get_incoming tid (set_memories ?m ?g0)) with (get_incoming tid g0).
    rewrite Hin, decide_False by congruence. unfold tag_count at 1. rewrite Ht.
    fold (tag_count (remove_outgoing id g) tid). unfold remove_outgoing.
    destruct (edges g !! id) as [l|] eqn:El; [|done].
    assert (get_edges id g = l) as Hl by (unfold get_edges; by rewrite El).
    rewrite H1, Hl in Honce. rewrite unlink_outgoing_count; [|done|rewrite <- Hl; apply H2|done].
    assert (length (get_incoming tid (foldl (unlink_outgoing id)
      (set_edges (delete id (edges g)) (reverse_edges g) g) l))
      = length (get_incoming tid g) - edges_to tid l) as ->.
    { rewrite <- Hl, <- H1, <- length_filter_ne, Hl. apply Permutation_length.
      apply occ_perm. intros x. rewrite occ_filter_eq.
      destruct (unlink_outgoing_spec id l (set_edges (delete id (edges g)) (reverse_edges g) g))
        as (_ & _ & ->).
      change (get_incoming tid (set_edges _ (reverse_edges g) g)) with (get_incoming tid g).
      destruct (decide (x = id)) as [->|]; [|by rewrite decide_False by tauto].
      case_decide as E; [done|]. rewrite H1, Hl.
      destruct (decide (edges_to tid l = 0)); [lia|tauto]. }
    change (tag_count (set_edges _ _ g) tid) with (tag_count g tid).
    case_decide; [rewrite H4; lia|]. assert (edges_to tid l ≤ length (get_incoming tid g)).
    { rewrite <- Hl, <- H1. apply length_filter. }
    destruct (tag_count g tid); cbn in *; [unfold count_decr; lia|lia].
Qed.

(** ** Every disciplined operation preserves the invariant *)

Section run.
Context `{UnicodeLower}.

Lemma graph_ok_link_tags now id l g :
  NoDup l →
  (∀ t, t ∈ l → edges_to (tag_id_of t) (get_edges id g) = 0 ∧ tag_room t g = true) →
  graph_ok g → graph_ok (foldl (link_tag now id) g l).
Proof.
  intros Hnd. revert g. induction Hnd as [|t l Ht Hnd IH]; intros g Hl Hg; [done|].
  cbn [foldl]. destruct (Hl t ltac:(by left)) as [Hno Hroom].
  apply IH; [|by apply graph_ok_link_tag]. intros t' Ht'.
  destruct (Hl t' ltac:(by right)) as [Hno' Hroom'].
  assert (tag_id_of t ≠ tag_id_of t') as Hne by (intros ->%tag_id_of_inj; done).
  destruct (same_edges_get _ _ (ensure_tag_edges now t g)) as [He Hi].
  unfold link_tag, tag_room.
  rewrite !(proj1 (same_edges_get _ _ (update_tag_count_edges _ _ _))),
    !(proj2 (same_edges_get _ _ (update_tag_count_edges _ _ _))).
  rewrite edges_to_add, get_incoming_add, He, Hi.
  rewrite decide_False by tauto. rewrite decide_False by done. split; [lia|done].
Qed.

Lemma graph_ok_add_edge from to kind g :
  is_tag_id to = false → graph_ok g → graph_ok (add_edge from to kind g).
Proof. intros Hto Hg. unfold add_edge. destruct (from_option _ _ _); [done|]. by apply graph_ok_add. Qed.

Lemma graph_ok_tag_memory now memory_id tag_name g :
  tag_room tag_name g = true → graph_ok g → graph_ok (tag_memory now memory_id tag_name g).
Proof.
  intros Hroom Hg. unfold tag_memory.
  destruct (same_edges_get _ _ (ensure_tag_edges now tag_name g)) as [He _].
  destruct (from_option _ _ _) eqn:E.
  - apply (graph_ok_same g); [apply ensure_tag_edges| |done].
    intros t. rewrite tag_count_ensure. by case_decide.
  - eapply graph_ok_same; [apply set_memories_edges|done|].
    apply (graph_ok_link_tag now memory_id tag_name g); [|done|done].
    apply edges_to_zero. intros e Hin Et. apply not_true_iff_false in E. apply E.
    pose proof Hin as Hin'. rewrite <- He in Hin. unfold get_edges in Hin.
    destruct (edges (ensure_tag now tag_name g) !! memory_id) as [l|]; simpl in *; [|set_solver].
    apply existsb_exists. exists e. rewrite <- list_elem_of_In, andb_true_iff, eqb_true.
    split_and!; [done..|]. apply (ok_tag_edges g Hg memory_id).
    + done.
    + rewrite Et. apply is_tag_id_of.
Qed.

Lemma graph_ok_step g op :
  disciplined g op = true → graph_ok g → graph_ok (graph_step g op).
Proof.
  intros Hd Hg. destruct op; cbn [disciplined graph_step] in *.
  - rewrite !andb_true_iff, negb_true_iff, bool_decide_eq_true, forallb_forall in Hd.
    destruct Hd as [[Hid Hnd] Hall]. unfold add_memory. cbn [fst].
    eapply graph_ok_same; [apply set_memories_edges|done|].
    assert (graph_ok (foldl (link_tag now (me_id entry)) g (me_tags entry))) as Hl.
    { apply graph_ok_link_tags; [done| |done]. intros t Ht%list_elem_of_In%Hall.
      rewrite andb_true_iff, negb_true_iff in Ht. destruct Ht as [Hno Hroom].
      split; [|done]. apply not_true_iff_false in Hno. rewrite has_edge_spec in Hno. lia. }
    change (me_tags (refresh_search_text entry)) with (me_tags entry).
    change (me_superseded_by (refresh_search_text entry)) with (me_superseded_by entry).
    change (me_id (refresh_search_text entry)) with (me_id entry).
    destruct (me_superseded_by entry); [by apply graph_ok_add|done].
  - apply negb_true_iff in Hd. by apply graph_ok_remove_memory.
  - eapply graph_ok_same; [apply set_memories_edges|done|done].
  - apply (graph_ok_same g); [apply ensure_tag_edges| |done].
    intros t. rewrite tag_count_ensure. by case_decide.
  - rewrite andb_true_iff in Hd. destruct Hd. by apply graph_ok_tag_memory.
  - unfold untag_memory. eapply graph_ok_same; [apply set_memories_edges|done|].
    apply graph_ok_untag; [apply is_tag_id_of|done|done].
  - apply negb_true_iff in Hd. by apply graph_ok_add_edge.
  - rewrite andb_true_iff, negb_true_iff, forallb_forall in Hd. destruct Hd as [Hto Hall].
    apply graph_ok_remove_edge; [done| |done]. intros e He%list_elem_of_In%Hall E.
    by rewrite E, String.eqb_refl in He.
  - apply negb_true_iff in Hd. unfold link_memories.
    eapply graph_ok_same; [apply set_metadata_edges|done|]. by apply graph_ok_add_edge.
  - apply negb_true_iff in Hd. unfold supersede.
    eapply graph_ok_same; [apply set_memories_edges|done|]. by apply graph_ok_add_edge.
  - rewrite andb_true_iff, !negb_true_iff in Hd. destruct Hd as [Ha Hb].
    unfold mark_contradiction. apply graph_ok_add_edge; [done|]. by apply graph_ok_add_edge.
Qed.

(** ** Tags lead from memories *)

Definition tags_on_memories (g : MemoryGraph) : Prop :=
  ∀ from e, e ∈ get_edges from g → is_tag_id (e_target e) = true → is_Some (memories g !! from).

Lemma tags_on_mono g g' :
  (∀ from e, e ∈ get_edges from g' → is_tag_id (e_target e) = true →
     e ∈ get_edges from g ∨ is_Some (memories g' !! from)) →
  (∀ id, is_Some (memories g !! id) → is_Some (memories g' !! id)) →
  tags_on_memories g → tags_on_memories g'.
Proof. intros He Hm Hg from e Hin Htag. destruct (He from e Hin Htag); eauto. Qed.

Lemma tags_on_add_edge from to kind g :
  is_tag_id to = false → tags_on_memories g → tags_on_memories (add_edge from to kind g).
Proof.
  intros Hto. unfold add_edge. destruct (from_option _ _ _); [done|]. apply tags_on_mono; [|done].
  intros f e [He| ->]%get_edges_add_elem Htag; [by left|]. cbn [edge_new e_target] in Htag. congruence.
Qed.

(** Tagging: a new edge comes from the tagged memory. *)
Lemma link_tags_elem now id l g f e :
  e ∈ get_edges f (foldl (link_tag now id) g l) → f = id ∨ e ∈ get_edges f g.
Proof.
  revert g. induction l as [|t l IH]; intros g; cbn [foldl]; [by right|].
  intros [->|Hin]%IH; [by left|]. unfold link_tag in Hin.
  rewrite (proj1 (same_edges_get _ _ (update_tag_count_edges _ _ _))) in Hin.
  rewrite get_edges_add in Hin. rewrite (proj1 (same_edges_get _ _ (ensure_tag_edges now t g))) in Hin.
  case_decide; [by left|by right].
Qed.

Lemma link_tags_memories now id l g : memories (foldl (link_tag now id) g l) = memories g.
Proof.
  revert g. induction l as [|t l IH]; intros g; cbn [foldl]; [done|]. rewrite IH.
  unfold link_tag, ensure_tag. by destruct (tags g !! tag_id_of t).
Qed.

Lemma tags_on_add_memory now entry g :
  is_tag_id (me_id entry) = false → tags_on_memories g →
  tags_on_memories (add_memory now entry g).1.
Proof.
  intros Hid. unfold add_memory. cbn [fst].
  change (me_id (refresh_search_text entry)) with (me_id entry).
  change (me_superseded_by (refresh_search_text entry)) with (me_superseded_by entry).
  change (me_tags (refresh_search_text entry)) with (me_tags entry).
  set (g1 := foldl _ _ _). set (g2 := match _ with Some _ => _ | None => _ end).
  assert (memories g2 = memories g) as Hm.
  { subst g2 g1. destruct (me_superseded_by entry); cbn [add_edge_internal set_edges memories];
      apply link_tags_memories. }
  apply tags_on_mono.
  - intros f e Hin Htag. change (get_edges f (set_memories ?m g2)) with (get_edges f g2) in Hin.
    assert (e ∈ get_edges f g1) as [->|]%link_tags_elem; [| |by left].
    { subst g2. destruct (me_superseded_by entry) as [old|]; [|done].
      apply get_edges_add_elem in Hin as [?| ->]; [done|]. cbn [edge_new e_target] in Htag. congruence. }
    right. cbn. by rewrite lookup_insert_eq.
  - intros k Hk. cbn. rewrite Hm, lookup_insert. case_decide; [done|exact Hk].
Qed.

Lemma tags_on_tag_memory now memory_id tag_name g :
  is_Some (memories g !! memory_id) → tags_on_memories g →
  tags_on_memories (tag_memory now memory_id tag_name g).
Proof.
  intros Hmem. assert (memories (ensure_tag now tag_name g) = memories g) as Hens
    by (unfold ensure_tag; by destruct (tags g !! tag_id_of tag_name)).
  destruct (same_edges_get _ _ (ensure_tag_edges now tag_name g)) as [He _].
  unfold tag_memory. destruct (from_option _ _ _).
  - apply tags_on_mono; [|by rewrite Hens]. intros f e. rewrite He. auto.
  - assert (∀ change k, is_Some (memories g !! k) → is_Some (alter change memory_id (memories g) !! k)) as Halt.
    { intros change k. rewrite lookup_alter_is_Some. done. }
    apply tags_on_mono.
    + intros f e Hin _. change (get_edges f (set_memories ?m (update_tag_count ?c ?t ?g0)))
        with (get_edges f g0) in Hin. rewrite get_edges_add, He in Hin.
      cbn [set_memories update_tag_count add_edge_internal set_edges memories set_graph_tags].
      rewrite Hens. case_decide; [subst; right; by apply Halt|by left].
    + cbn [set_memories update_tag_count add_edge_internal set_edges memories set_graph_tags].
      rewrite Hens. apply Halt.
Qed.

Lemma tags_on_remove_memory id g :
  reverse_exact g → tags_on_memories g → tags_on_memories (remove_memory id g).1.
Proof.
  intros Hx Hg from e. pose proof (reverse_exact_sound g Hx) as Hs.
  destruct (remove_memory_edges id g Hs) as [He _].
  destruct (remove_outgoing_spec id g Hs) as (Hm1 & _ & _).
  destruct (remove_incoming_spec id (remove_outgoing id g)) as (Hm2 & _ & _ & _).
  assert (memories (remove_memory id g).1 = delete id (memories g)) as Hm.
  { rewrite remove_memory_phases. cbn zeta. cbn [fst].
    change (memories (set_memories ?m ?g0)) with m. by rewrite Hm2, Hm1. }
  rewrite He, Hm. case_decide as E; [set_solver|]. rewrite lookup_delete_ne by done.
  case_decide; [rewrite list_elem_of_filter; intros [_ Hin]|intros Hin]; by apply (Hg _ e).
Qed.

Lemma tags_on_step g op :
  disciplined g op = true → graph_ok g → tags_on_memories g → tags_on_memories (graph_step g op).
Proof.
  intros Hd Hok Hg. destruct op; cbn [disciplined graph_step] in *;
    rewrite ?andb_true_iff, ?negb_true_iff in Hd.
  - apply tags_on_add_memory; [tauto|done].
  - apply tags_on_remove_memory; [apply Hok|done].
  - apply (tags_on_mono g); [by left| |done]. intros k. unfold update_memory.
    cbn [set_memories memories]. by rewrite lookup_alter_is_Some.
  - apply (tags_on_mono g); [|by unfold ensure_tag; destruct (tags g !! _)|done].
    intros f e. rewrite (proj1 (same_edges_get _ _ (ensure_tag_edges _ _ g))). auto.
  - rewrite bool_decide_eq_true in Hd. apply tags_on_tag_memory; tauto.
  - apply (tags_on_mono g); [| |done].
    2: { intros k. unfold untag_memory. cbn [set_memories memories]. by rewrite lookup_alter_is_Some. }
    intros f e Hin _. left. by apply (drop_edges_elem (λ e, is_has_tag (e_kind e))) in Hin.
  - by apply tags_on_add_edge.
  - apply (tags_on_mono g); [|done|done].
    intros f e Hin _. left. by apply (drop_edges_elem (λ e, kind_eqb (e_kind e) kind)) in Hin.
  - by apply (tags_on_add_edge from to (RelatesTo weight) g).
  - apply (tags_on_mono (add_edge newer_id older_id Supersedes g)); [by left| |by apply tags_on_add_edge].
    intros k. unfold supersede. cbn [set_memories memories]. by rewrite lookup_alter_is_Some.
  - unfold mark_contradiction. destruct Hd. apply tags_on_add_edge; [done|]. by apply tags_on_add_edge.
Qed.

Lemma graph_ok_run ops :
  disciplined_run graph_new ops = true →
  graph_ok (graph_run ops) ∧ tags_on_memories (graph_run ops).
Proof.
  unfold graph_run. assert (tags_on_memories graph_new) as Hnew.
  { intros f e. unfold get_edges. cbn. rewrite lookup_empty. set_solver. }
  revert Hnew. generalize graph_ok_new. generalize graph_new.
  induction ops as [|op ops IH]; intros g Hok Hg; cbn [disciplined_run foldl]; [done|].
  rewrite andb_true_iff. intros [Hd Hrun].
  apply IH; [by apply graph_ok_step|by apply tags_on_step|done].
Qed.

(** The memories of a graph that have a tag. *)
Definition tagged (name : string) (g : MemoryGraph) : gmap string MemoryEntry :=
  filter (λ kv, edge_new (tag_id_of name) HasTag ∈ get_edges kv.1 g) (memories g).

(** What the index says about a tag, in a graph in order. *)
Lemma incoming_tag g name id :
  graph_ok g →
  id ∈ get_incoming (tag_id_of name) g ↔ edge_new (tag_id_of name) HasTag ∈ get_edges id g.
Proof.
  intros [H1 H2 _ _]. rewrite occ_elem, H1. split.
  - intros Hnz. destruct (decide (edge_new (tag_id_of name) HasTag ∈ get_edges id g))
      as [|Hno]; [done|]. destruct Hnz. apply edges_to_zero. intros [t k] He E. cbn in E. subst t.
    apply Hno. pose proof (H2 id _ He (is_tag_id_of name)) as Hk. by destruct k.
  - intros Hin Hz. by apply (proj1 (edges_to_zero _ _) Hz _ Hin).
Qed.

Lemma tagged_size g name :
  graph_ok g → tags_on_memories g →
  size (tagged name g) = length (get_incoming (tag_id_of name) g).
Proof.
  intros Hok Hg. rewrite <- size_dom.
  rewrite <- (size_list_to_set (C := gset string)).
  - f_equal. apply set_eq. intros id. rewrite elem_of_list_to_set, (incoming_tag g name id Hok).
    unfold tagged. rewrite elem_of_dom. split.
    + intros [m [_ Hin]%map_lookup_filter_Some]. exact Hin.
    + intros Hin. destruct (Hg id _ Hin (is_tag_id_of name)) as [m Hm]. exists m.
      by apply map_lookup_filter_Some.
  - apply occ_NoDup. intros x. apply Hok, is_tag_id_of.
Qed.

Lemma get_memories_by_tag_length g name :
  graph_ok g → tags_on_memories g →
  length (get_memories_by_tag name g) = length (get_incoming (tag_id_of name) g).
Proof.
  intros Hok Hg. assert (∀ id, id ∈ get_incoming (tag_id_of name) g → is_Some (memories g !! id)) as Hall.
  { intros id Hin%(incoming_tag g name id Hok). by apply (Hg id _ Hin), is_tag_id_of. }
  revert Hall. unfold get_memories_by_tag, get_incoming. destruct (_ !! _) as [l|]; [|done].
  cbn. clear. induction l as [|x l IH]; intros Hall; [done|]. cbn.
  destruct (Hall x ltac:(by left)) as [m ->]. cbn. rewrite IH; [done|]. intros; apply Hall. by right.
Qed.

End run.

(** ** Concrete graphs *)

Definition sample_entry (id : string) (tags : list string) (superseded_by : option string)
    : MemoryEntry :=
  entry_with (entry_new id 0 Fact ("Content of " +:+ id)) tags "" true superseded_by.

Definition sample_ops : list GraphOp :=
  [AddMemory 1 (sample_entry "m1" ["rust"; "tests"] None);
   AddMemory 2 (sample_entry "m2" ["rust"] (Some "m1"));
   TagMemory 3 "m2" "tests"; TagMemory 4 "m2" "tests"; LinkMemories "m1" "m2" f32_0_7;
   UntagMemory "m1" "rust"; MarkContradiction "m1" "m2"; RemoveEdge "m2" "m1" Contradicts;
   RemoveMemory "m1"].

Example sample_run :
  let g := graph_run sample_ops in
  tag_count g "tag:rust" = Some 1%Z ∧ tag_count g "tag:tests" = Some 1%Z
  ∧ get_edges "m2" g = [edge_new "tag:rust" HasTag; edge_new "tag:tests" HasTag]
  ∧ get_incoming "m2" g = [] ∧ edge_count g = 2.
Proof. vm_compute. split_and!; reflexivity. Qed.


(** Without the discipline the index and the counts go wrong: [remove_edge]
    forgets every edge between the two nodes when one of another kind is left,
    after which removing the target leaves an edge to a memory that is gone; and
    [untag_memory] lowers the count of a tag that the memory does not have. *)
Example undisciplined_edges :
  let g := graph_run [AddEdge "a" "b" Supersedes; AddEdge "a" "b" Contradicts;
    RemoveEdge "a" "b" Contradicts] in
  get_edges "a" g = [edge_new "b" Supersedes] ∧ get_incoming "b" g = []
  ∧ get_edges "a" (graph_step g (RemoveMemory "b")) = [edge_new "b" Supersedes].
Proof. vm_compute. split_and!; reflexivity. Qed.

Example undisciplined_untag :
  let g := graph_run [AddMemory 1 (sample_entry "m1" ["rust"] None);
    AddMemory 2 (sample_entry "m2" [] None); UntagMemory "m2" "rust"] in
  get_incoming "tag:rust" g = ["m1"] ∧ tag_count g "tag:rust" = Some 0%Z.
Proof. vm_compute. split_and!; reflexivity. Qed.

(** A tag given to an identifier that is no memory is counted all the same;
    the manager's [tag_memory] asks first. *)
Example undisciplined_ghost :
  let g := graph_run [TagMemory 1 "ghost" "rust"] in
  tag_count g "tag:rust" = Some 1%Z ∧ get_memories_by_tag "rust" g = [].
Proof. vm_compute. split; reflexivity. Qed.

(** ** Removing a memory *)

(** Removing a memory returns it and takes every trace of it from a graph
    with an exact index: it is no longer a memory, has no edges, no edge leads
    to it and no list of the index names it; the other memories, the edges
    between other nodes and their index entries are untouched. *)
Theorem remove_memory_clean id g :
  reverse_exact g →
  let g' := (remove_memory id g).1 in
  (remove_memory id g).2 = memories g !! id
  ∧ memories g' = delete id (memories g)
  ∧ get_edges id g' = [] ∧ get_incoming id g' = []
  ∧ (∀ from, id ∉ get_incoming from g')
  ∧ (∀ from, from ≠ id →
       get_edges from g' = filter (λ e, e_target e ≠ id) (get_edges from g))
  ∧ (∀ from to, from ≠ id → to ≠ id →
       occ from (get_incoming to g') = occ from (get_incoming to g)).
Proof.
  intros Hg. pose proof (reverse_exact_sound g Hg) as Hs. cbn zeta.
  destruct (remove_memory_edges id g Hs) as [He Hi].
  destruct (remove_outgoing_spec id g Hs) as (Hm1 & _ & _).
  destruct (remove_incoming_spec id (remove_outgoing id g)) as (Hm2 & _ & _ & Hin).
  split_and!.
  - rewrite remove_memory_phases. cbn zeta. cbn [snd]. by rewrite Hm2, Hm1.
  - rewrite remove_memory_phases. cbn zeta. cbn [fst].
    change (memories (set_memories ?m ?g0)) with m. by rewrite Hm2, Hm1.
  - by rewrite He, decide_True.
  - rewrite remove_memory_phases. cbn zeta. cbn [fst].
    change (get_incoming id (set_memories ?m ?g0)) with (get_incoming id g0).
    by rewrite Hin, decide_True.
  - intros from. apply occ_zero. by rewrite Hi, decide_True by auto.
  - intros from Hne. rewrite He, decide_False by done.
    destruct (decide (from ∈ get_incoming id g)) as [|Hn]; [done|].
    symmetry. apply filter_all. intros e Hin' E.
    apply Hn, occ_elem. rewrite Hg. intros Hz.
    by apply (proj1 (edges_to_zero id (get_edges from g)) Hz e).
  - intros from to H1 H2. rewrite Hi, decide_False; [done|tauto].
Qed.

Lemma remove_memory_clean_witness :
  let g := graph_run (take 3 sample_ops) in
  get_edges "m2" g ≠ [] ∧ get_edges "m2" (remove_memory "m2" g).1 = []
  ∧ ∀ from, "m2" ∉ get_incoming from (remove_memory "m2" g).1.
Proof.
  split_and!; [by vm_compute|..]; apply (remove_memory_clean "m2" (graph_run (take 3 sample_ops)));
    apply graph_ok_run; vm_compute; reflexivity.
Defined.
