(* ===== verification/MemoryGraphRetrieval.v ===== *)
(** * Cascade retrieval and migration of the memory graph *)

From S2P Require Import Prelude Utf8 Text F32 Ranking MemoryEntry MemoryGraph.
From S2P Require Import MemoryGraphInvariants MemoryGraphCounts.
Open Scope nat_scope.

(** One hop of the cascade, from a node to a memory: along an edge, or through
    a tag to a memory that the reverse index lists under it. *)
Definition cascade_hop (g : MemoryGraph) (a b : string) : Prop :=
  is_Some (memories g !! b)
  ∧ ∃ e, e ∈ get_edges a g
    ∧ (if starts_with "tag:" (e_target e) then b ∈ get_incoming (e_target e) g
       else b = e_target e).

Section cascade.
Context `{PowI} (g : MemoryGraph) (seed_ids : list string) (max_depth : usize).

(** A memory within [n] hops of a seed. *)
Definition cascade_reach (n : nat) (id : string) : Prop :=
  is_Some (memories g !! id)
  ∧ ∃ seed, seed ∈ seed_ids ∧ is_Some (memories g !! seed) ∧ nsteps (cascade_hop g) n seed id.

Record cascade_inv (st : CascadeState) : Prop := {
  ci_queue : ∀ id score depth, (id, score, depth) ∈ cs_queue st →
    depth ≤ max_depth ∧ cascade_reach depth id;
  ci_results : ∀ id score, cs_results st !! id = Some score →
    f32_is_nan score = false ∧ ∃ n, n ≤ max_depth ∧ cascade_reach n id;
}.

(** ** Steps preserve the invariant and only add results *)

Lemma f32_gt_not_nan a b : f32_gt a b = true → f32_is_nan a = false.
Proof. unfold f32_gt. rewrite !andb_true_iff, negb_true_iff. tauto. Qed.

Definition cascade_grows (n : nat) (st st' : CascadeState) : Prop :=
  cs_visited st' = cs_visited st
  ∧ length (cs_queue st') ≤ length (cs_queue st) + n
  ∧ (cascade_inv st → cascade_inv st')
  ∧ ∀ id, is_Some (cs_results st !! id) → is_Some (cs_results st' !! id).

Lemma cascade_grows_refl n st : cascade_grows n st st.
Proof. split_and!; auto; lia. Qed.

Lemma cascade_grows_trans n m st1 st2 st3 :
  cascade_grows n st1 st2 → cascade_grows m st2 st3 → cascade_grows (n + m) st1 st3.
Proof.
  intros (V1 & L1 & I1 & R1) (V2 & L2 & I2 & R2).
  split_and!; [congruence|lia|auto|auto].
Qed.

Lemma cascade_offer_grows score depth id st :
  depth < max_depth → cascade_reach (S depth) id →
  cascade_grows 1 st (cascade_offer score depth id st).
Proof.
  intros Hd Hr. unfold cascade_offer. destruct (f32_gt score _) eqn:E;
    [|apply cascade_grows_refl].
  split_and!; [done|cbn; rewrite length_app; simpl; lia| |].
  - intros [Hq Hres]. constructor; cbn [cs_queue cs_results].
    + intros i s d [Hin|Hin]%elem_of_app; [by eapply Hq|].
      apply list_elem_of_singleton in Hin as [= -> -> ->]. rewrite Nat.add_1_r. split; [lia|done].
    + intros i s. rewrite lookup_insert. case_decide; [|apply Hres].
      intros [= <-]. subst. split; [by eapply f32_gt_not_nan|]. exists (S depth). split; [lia|done].
  - intros i Hi. cbn [cs_results]. rewrite lookup_insert. by case_decide.
Qed.

Lemma cascade_foldl {A} (f : CascadeState → A → CascadeState) (cost : A → nat) l st :
  (∀ st x, x ∈ l → cascade_grows (cost x) st (f st x)) →
  cascade_grows (sum_list_with cost l) st (foldl f st l).
Proof.
  revert st. induction l as [|x l IH]; intros st Hf; [apply cascade_grows_refl|].
  simpl. eapply cascade_grows_trans; [apply Hf; left|]. apply IH. intros st' y Hy.
  apply Hf. by right.
Qed.

Lemma cascade_edge_grows node score depth e st :
  depth < max_depth → cascade_reach depth node → e ∈ get_edges node g →
  cascade_grows (length (get_incoming (e_target e) g) + 1) st (cascade_edge g score depth st e).
Proof.
  intros Hd (Hm & seed & Hseed & Hms & Hpath) He. unfold cascade_edge.
  case_decide as Hv; [apply cascade_grows_refl|].
  assert (∀ b, cascade_hop g node b → cascade_reach (S depth) b) as Hhop.
  { intros b Hb. split; [apply Hb|]. exists seed. split_and!; [done..|].
    by eapply nsteps_r. }
  destruct (starts_with "tag:" (e_target e)) eqn:Et.
  - eapply (cascade_grows_trans (length (get_incoming (e_target e) g)) 1);
      [|apply cascade_grows_refl].
    replace (length (get_incoming (e_target e) g))
      with (sum_list_with (λ _ : string, 1) (get_incoming (e_target e) g)).
    2:{ induction (get_incoming (e_target e) g); simpl; congruence. }
    apply cascade_foldl. intros st' b Hb. case_decide as Hdec; [|apply cascade_grows_refl].
    apply cascade_offer_grows; [done|]. apply Hhop. split; [tauto|].
    exists e. by rewrite Et.
  - destruct (memories g !! e_target e) as [m|] eqn:Em; [|apply cascade_grows_refl].
    rewrite Nat.add_comm. eapply (cascade_grows_trans 1); [|apply cascade_grows_refl].
    apply cascade_offer_grows; [done|]. apply Hhop. split; [by rewrite Em|].
    exists e. by rewrite Et.
Qed.

(** ** Termination *)

(** The work that the nodes not visited yet can still cause. *)
Definition pending_work (visited : gset string) (l : list (string * list Edge)) : nat :=
  sum_list_with (λ '(n, v), if decide (n ∈ visited) then 0 else node_fanout g v) l.

Lemma pending_work_fuel :
  cascade_fuel g seed_ids = S (length seed_ids + pending_work ∅ (map_to_list (edges g))).
Proof.
  unfold cascade_fuel, pending_work. do 2 f_equal. rewrite map_fold_foldr.
  induction (map_to_list (edges g)) as [|[n v] l IH]; simpl; [done|].
  rewrite decide_False by set_solver. by rewrite IH.
Qed.

Lemma pending_work_le visited id l :
  pending_work ({[id]} ∪ visited) l ≤ pending_work visited l.
Proof.
  unfold pending_work. induction l as [|[n v] l IH]; simpl; [done|].
  repeat case_decide; set_solver by lia || lia.
Qed.

Lemma pending_work_visit visited id v l :
  id ∉ visited → (id, v) ∈ l →
  pending_work ({[id]} ∪ visited) l + node_fanout g v ≤ pending_work visited l.
Proof.
  intros Hid. induction l as [|[n w] l IH]; [set_solver|].
  intros [[= <- <-]|Hin]%elem_of_cons; cbn [pending_work sum_list_with].
  - pose proof (pending_work_le visited id l) as Hle. unfold pending_work in Hle.
    unfold pending_work. simpl. rewrite decide_True by set_solver.
    rewrite decide_False by done. lia.
  - specialize (IH Hin). unfold pending_work in *. simpl.
    destruct (decide (n ∈ visited)) as [Hn|Hn].
    + rewrite decide_True by set_solver. lia.
    + case_decide; lia.
Qed.

Lemma pending_work_node visited id :
  id ∉ visited →
  pending_work ({[id]} ∪ visited) (map_to_list (edges g)) + node_fanout g (get_edges id g)
  ≤ pending_work visited (map_to_list (edges g)).
Proof.
  intros Hid. unfold get_edges. destruct (edges g !! id) as [v|] eqn:E; simpl.
  - apply pending_work_visit; [done|]. by apply elem_of_map_to_list.
  - pose proof (pending_work_le visited id (map_to_list (edges g))). unfold node_fanout. simpl. lia.
Qed.

(** The loop ends, keeps the invariant and only adds results. *)
Lemma cascade_loop_spec fuel st :
  cascade_inv st →
  length (cs_queue st) + pending_work (cs_visited st) (map_to_list (edges g)) < fuel →
  ∃ st', cascade_loop g fuel max_depth st = Some st' ∧ cascade_inv st'
    ∧ ∀ id, is_Some (cs_results st !! id) → is_Some (cs_results st' !! id).
Proof.
  revert st. induction fuel as [|fuel IH]; intros st Hinv Hfuel; [lia|].
  cbn [cascade_loop]. destruct (cs_queue st) as [|[[id score] depth] queue] eqn:Eq.
  { by exists st. }
  pose proof Hinv as [Hq Hr]. rewrite Eq in Hq. simpl in Hfuel.
  assert (∀ visited, cascade_inv {| cs_visited := visited; cs_results := cs_results st;
    cs_queue := queue |}) as Hpop.
  { intros visited. constructor; [|done]. intros i s d Hin. apply (Hq i s d). by right. }
  destruct (decide (id ∈ cs_visited st)) as [Hv|Hv].
  { apply (IH _ (Hpop (cs_visited st))). cbn [cs_queue cs_visited]. lia. }
  pose proof (pending_work_node (cs_visited st) id Hv) as Hwork.
  destruct (Nat.leb_spec max_depth depth) as [Hd|Hd].
  { apply (IH _ (Hpop ({[id]} ∪ cs_visited st))). cbn [cs_queue cs_visited]. lia. }
  destruct (Hq id score depth) as [_ Hreach]; [left|].
  set (entered := {| cs_visited := {[id]} ∪ cs_visited st; cs_results := cs_results st;
    cs_queue := queue |}).
  assert (cascade_grows (node_fanout g (get_edges id g)) entered
    (foldl (cascade_edge g score depth) entered (get_edges id g))) as (V & L & I & R).
  { apply cascade_foldl. intros st' e He. by apply (cascade_edge_grows id). }
  destruct (IH (foldl (cascade_edge g score depth) entered (get_edges id g)))
    as (st' & E & Hinv' & R').
  - apply I, Hpop.
  - rewrite V. subst entered. cbn [cs_visited cs_queue] in *. lia.
  - exists st'. split_and!; [done..|]. intros i Hi. by apply R', R.
Qed.
End cascade.

Section retrieve.
Context `{HashOrder, PowI}.

Lemma cascade_seeds_spec g seed_ids max_depth l st :
  (∀ id score, (id, score) ∈ l → id ∈ seed_ids ∧ f32_is_nan score = false) →
  cascade_inv g seed_ids max_depth st →
  let st' := foldl (cascade_seed g) st l in
  cascade_inv g seed_ids max_depth st' ∧ cs_visited st' = cs_visited st
  ∧ length (cs_queue st') ≤ length (cs_queue st) + length l
  ∧ (∀ id, is_Some (cs_results st !! id) → is_Some (cs_results st' !! id))
  ∧ (∀ id score, (id, score) ∈ l → is_Some (memories g !! id) → is_Some (cs_results st' !! id)).
Proof.
  revert st. induction l as [|[id score] l IH]; intros st Hl Hinv; cbn zeta; cbn [foldl].
  { split_and!; [done|done|lia|done|set_solver]. }
  destruct (Hl id score) as [Hseed Hnan]; [left|].
  assert (cascade_inv g seed_ids max_depth (cascade_seed g st (id, score))
    ∧ cs_visited (cascade_seed g st (id, score)) = cs_visited st
    ∧ length (cs_queue (cascade_seed g st (id, score))) ≤ length (cs_queue st) + 1
    ∧ (∀ i, is_Some (cs_results st !! i) →
         is_Some (cs_results (cascade_seed g st (id, score)) !! i))
    ∧ (is_Some (memories g !! id) →
         is_Some (cs_results (cascade_seed g st (id, score)) !! id))) as (I1 & V1 & L1 & R1 & S1).
  { unfold cascade_seed. destruct (memories g !! id) as [m|] eqn:Em;
      [|split_and!; [done|done|lia|done|by intros []]].
    assert (cascade_reach g seed_ids 0 id) as Hreach.
    { split; [by rewrite Em|]. exists id. split_and!; [done|by rewrite Em|constructor]. }
    split_and!; cbn [cs_visited cs_queue cs_results].
    - destruct Hinv as [Hq Hr]. constructor; cbn [cs_queue cs_results].
      + intros i s d [Hin|Hin]%elem_of_app; [by eapply Hq|].
        apply list_elem_of_singleton in Hin as [= -> -> ->]. split; [lia|done].
      + intros i s. rewrite lookup_insert. case_decide; [|apply Hr].
        intros [= <-]. subst. split; [done|]. exists 0. split; [lia|done].
    - done.
    - rewrite length_app. simpl. lia.
    - intros i Hi. rewrite lookup_insert. by case_decide.
    - intros _. rewrite lookup_insert_eq. by eexists. }
  destruct (IH _ (λ i s Hin, Hl i s (list_elem_of_further _ _ _ Hin)) I1) as (I2 & V2 & L2 & R2 & S2).
  split_and!; [done|congruence|cbn [length]; lia|auto|].
  intros i s [[= -> ->]|Hin]%elem_of_cons Hm; [auto|by eapply S2].
Qed.

(** With room for every memory the ranking drops nothing. *)
Lemma top_k_drops_nothing (found : gmap string f32) (mems : gmap string MemoryEntry) max_results
    results dropped :
  (∀ i v, found !! i = Some v → is_Some (mems !! i)) → size mems ≤ max_results →
  results ++ dropped ≡ₚ hash_entries found → length results = max_results `min` length (hash_entries found) →
  results ≡ₚ hash_entries found.
Proof.
  intros Hin Hroom Hperm Hlen.
  assert (length (hash_entries found) ≤ max_results) as Hsmall.
  { etrans; [|exact Hroom]. rewrite hash_entries_perm, length_map_to_list, <- !size_dom.
    apply subseteq_size. intros j [w Hw]%elem_of_dom. apply elem_of_dom. by eapply Hin. }
  assert (dropped = []) as ->; [|by rewrite app_nil_r in Hperm].
  apply Permutation_length in Hperm. rewrite length_app in Hperm. apply length_zero_iff_nil. lia.
Qed.

(** C5. Cascade retrieval always ends. It returns at most [max_results]
    memories, none twice, by decreasing score; each is a memory of the graph
    that can be reached from a seed in at most [max_depth] hops; and with room
    for every memory no seed is lost. *)
Theorem cascade_retrieve_correct seed_ids seed_scores max_depth max_results g :
  (∀ score, score ∈ seed_scores → f32_is_nan score = false) →
  ∃ g' results,
    cascade_retrieve seed_ids seed_scores max_depth max_results g = Some (g', results)
    ∧ g' = set_metadata (metadata g') g
    ∧ length results ≤ max_results
    ∧ NoDup results.*1
    ∧ StronglySorted (λ a b, f32_total_leb b.2 a.2 = true) results
    ∧ (∀ id score, (id, score) ∈ results → ∃ n, n ≤ max_depth ∧ cascade_reach g seed_ids n id)
    ∧ (size (memories g) ≤ max_results →
       ∀ id score, (id, score) ∈ zip seed_ids seed_scores → is_Some (memories g !! id) →
         id ∈ results.*1).
Proof.
  intros Hnan. unfold cascade_retrieve.
  set (g' := set_metadata _ g).
  set (start := {| cs_visited := ∅; cs_results := ∅; cs_queue := [] |}).
  assert (cascade_inv g' seed_ids max_depth start) as Hstart.
  { constructor; [set_solver|]. intros i s. subst start. cbn. by rewrite lookup_empty. }
  destruct (cascade_seeds_spec g' seed_ids max_depth (zip seed_ids seed_scores) start)
    as (I1 & V1 & L1 & _ & S1); [|done|].
  { intros i s Hin. split; [by eapply elem_of_zip_l|]. apply Hnan. by eapply elem_of_zip_r. }
  destruct (cascade_loop_spec g' seed_ids max_depth (cascade_fuel g' seed_ids) _ I1)
    as (st & E & [_ Hres] & R1).
  { rewrite pending_work_fuel, V1. rewrite length_zip in L1.
    change (cs_visited start) with (∅ : gset string).
    change (length (cs_queue start)) with 0 in L1. lia. }
  rewrite E. simpl.
  destruct (top_k_spec (gt := f32_gt) (leb := f32_total_leb)
    (proper_score := λ k, f32_is_nan k = false) (hash_entries (cs_results st)) max_results)
    as (dropped & Hperm & Hlen & Hsorted & _).
  { intros [i s] Hin%elem_of_hash_entries. by eapply Hres. }
  fold (@top_k_scored string (hash_entries (cs_results st)) max_results) in *.
  set (results := top_k_scored _ _) in *.
  assert (NoDup (results.*1 ++ dropped.*1)) as Hnd.
  { rewrite <- fmap_app, Hperm. apply NoDup_hash_keys. }
  exists g', results. split_and!.
  - done.
  - done.
  - lia.
  - by apply NoDup_app in Hnd as [? _].
  - done.
  - intros i s Hin. assert ((i, s) ∈ hash_entries (cs_results st)) as Hin'.
    { rewrite <- Hperm, elem_of_app. by left. }
    apply elem_of_hash_entries, Hres in Hin' as [_ Hn]. exact Hn.
  - intros Hroom i s Hin Hm. destruct (R1 i (S1 i s Hin Hm)) as [v Hv].
    apply list_elem_of_fmap. exists (i, v). split; [done|].
    rewrite (top_k_drops_nothing (cs_results st) (memories g) max_results results dropped);
      [by apply elem_of_hash_entries| |done|done|lia].
    intros j w Hw. destruct (Hres j w Hw) as [_ (n & _ & Hj & _)]. exact Hj.
Qed.
End retrieve.

(** ** Migration *)

Section migration.
Context `{UnicodeLower}.

Lemma link_tag_set_memories now id v g name :
  link_tag now id (set_memories v g) name = set_memories v (link_tag now id g name).
Proof. unfold link_tag, ensure_tag. cbn. by destruct (tags g !! tag_id_of name). Qed.

Lemma link_tags_set_memories now id v l g :
  foldl (link_tag now id) (set_memories v g) l = set_memories v (foldl (link_tag now id) g l).
Proof.
  revert g. induction l as [|t l IH]; intros g; [done|]. cbn [foldl].
  by rewrite link_tag_set_memories, IH.
Qed.

Lemma migrate_entry_add now g g' entry :
  g' = set_memories (refresh_search_text <$> memories g) g →
  (add_memory now entry g').1
  = set_memories (refresh_search_text <$> memories (migrate_entry now g entry))
      (migrate_entry now g entry).
Proof.
  intros ->. unfold add_memory, migrate_entry. cbn [fst].
  change (me_tags (refresh_search_text entry)) with (me_tags entry).
  change (me_superseded_by (refresh_search_text entry)) with (me_superseded_by entry).
  change (me_id (refresh_search_text entry)) with (me_id entry).
  rewrite !link_tags_set_memories.
  destruct (me_superseded_by entry); cbn; rewrite fmap_insert, ?link_tags_memories; done.
Qed.

(** Migrating a legacy store gives the graph that adding its entries one
    by one gives, with one difference: the migrated entries keep the search
    text they had, while [add_memory] computes it anew. *)
Theorem migration_adds_entries now store :
  foldl (λ g entry, (add_memory now entry g).1) graph_new (ms_entries store)
  = set_memories (refresh_search_text <$> memories (from_legacy_store now store))
      (from_legacy_store now store).
Proof.
  unfold from_legacy_store.
  assert (∀ l g g', g' = set_memories (refresh_search_text <$> memories g) g →
    foldl (λ g entry, (add_memory now entry g).1) g' l
    = set_memories (refresh_search_text <$> memories (foldl (migrate_entry now) g l))
        (foldl (migrate_entry now) g l)) as Hfold.
  { induction l as [|entry l IH]; intros g g' Hg; [done|]. cbn [foldl]. apply IH.
    by apply migrate_entry_add. }
  apply Hfold. reflexivity.
Qed.
End migration.

(** ** A concrete retrieval *)

(** Powers by repeated products, to run the model. *)
Definition powi_by_products : PowI :=
  λ x n, Nat.iter (Z.to_nat n) (f32_mul x) f32_1_0.

Definition retrieval_ops : list GraphOp :=
  [AddMemory 1 (sample_entry "m1" ["rust"] None);
   AddMemory 2 (sample_entry "m2" ["rust"] None);
   AddMemory 3 (sample_entry "m3" [] None);
   LinkMemories "m2" "m3" f32_0_9].

Example retrieval_run :
  snd <$> cascade_retrieve (H0 := powi_by_products) ["m1"; "gone"] [f32_1_0; f32_1_0] 2 5
    (graph_run retrieval_ops)
  = Some [("m1", f32_1_0); ("m2", 0x3f0f5c29%Z); ("m3", 0x3e7ce315%Z)].
Proof. vm_compute. reflexivity. Qed.

Lemma cascade_retrieve_witness :
  ∃ g' results,
    cascade_retrieve (H0 := powi_by_products) ["m1"] [f32_1_0] 2 5 (graph_run retrieval_ops)
    = Some (g', results) ∧ "m1" ∈ results.*1.
Proof.
  destruct (cascade_retrieve_correct (H0 := powi_by_products) ["m1"] [f32_1_0] 2 5
    (graph_run retrieval_ops)) as (g' & results & E & _ & _ & _ & _ & _ & Hall).
  - intros score ->%list_elem_of_singleton. vm_compute. reflexivity.
  - exists g', results. split; [exact E|]. apply (Hall ltac:(vm_compute; lia) "m1" f32_1_0).
    + left.
    + vm_compute. eauto.
Defined.
