(* ===== verification/Messages.v ===== *)
(** * Conversation messages ([crates/gcode-message-types/src/lib.rs])

    Messages and their content blocks, the stable hash of a message, and the
    placement of dynamic system context in a conversation. *)

From S2P Require Import Prelude Utf8.
Open Scope nat_scope.

(** JSON values come from the [serde_json] package: they are a type with the
    text that [Value::to_string] gives. *)
Class Json := {
  json : Type;
  json_to_string : json → string;
}.

(** JSON by its text, to run the model on concrete inputs. *)
#[export] Instance json_text : Json := {| json := string; json_to_string := λ s, s |}.

Abbreviation datetime := Z (only parsing).

(** ** Data *)

Inductive Role := User | Assistant.

#[export] Instance Role_eq_dec : EqDecision Role.
Proof. solve_decision. Defined.

Record CacheControl := {
  cc_kind : string;
  cc_ttl : option string;
}.

Definition cache_control_ephemeral (ttl : option string) : CacheControl :=
  {| cc_kind := "ephemeral"; cc_ttl := ttl |}.

Section json.
Context `{Json}.

Inductive ContentBlock :=
| Text (text : string) (cache_control : option CacheControl)
| Reasoning (text : string)
| ToolUse (id name : string) (input : json)
| ToolResult (tool_use_id content : string) (is_error : option bool)
| Image (media_type data : string)
| OpenAICompaction (encrypted_content : string).

Record Message := {
  msg_role : Role;
  msg_content : list ContentBlock;
  msg_timestamp : option datetime;
  msg_tool_duration_ms : option u64;
}.

(** ** Constructors *)

Definition message_user (now : datetime) (text : string) : Message := {|
  msg_role := User;
  msg_content := [Text text None];
  msg_timestamp := Some now;
  msg_tool_duration_ms := None;
|}.

Definition user_with_images (now : datetime) (text : string)
    (images : list (string * string)) : Message :=
  let content := (λ '(media_type, data), Image media_type data) <$> images in
  let content := content ++ [Text text None] in
  {| msg_role := User; msg_content := content;
     msg_timestamp := Some now; msg_tool_duration_ms := None |}.

Definition assistant_text (now : datetime) (text : string) : Message := {|
  msg_role := Assistant;
  msg_content := [Text text None];
  msg_timestamp := Some now;
  msg_tool_duration_ms := None;
|}.

Definition tool_result_with_duration (now : datetime) (tool_use_id content : string)
    (is_error : bool) (tool_duration_ms : option u64) : Message := {|
  msg_role := User;
  msg_content := [ToolResult tool_use_id content (if is_error then Some true else None)];
  msg_timestamp := Some now;
  msg_tool_duration_ms := tool_duration_ms;
|}.

Definition tool_result (now : datetime) (tool_use_id content : string) (is_error : bool)
    : Message :=
  tool_result_with_duration now tool_use_id content is_error None.

(** ** Recognising user turns *)

(** [find_map] on the text blocks: the first text, without leading white space. *)
Fixpoint first_text (content : list ContentBlock) : option string :=
  match content with
  | [] => None
  | Text text _ :: _ => Some (trim_start text)
  | _ :: rest => first_text rest
  end.

Definition is_internal_system_reminder (msg : Message) : bool :=
  match first_text (msg_content msg) with
  | Some text => starts_with "<system-reminder>" text
  | None => false
  end.

(** The test on a text block: text of the user, not a reminder. *)
Definition is_user_text (text : string) : bool :=
  let trimmed := trim text in
  negb (trimmed =s "") && negb (starts_with "<system-reminder>" trimmed).

Definition is_tool_result (block : ContentBlock) : bool :=
  match block with ToolResult _ _ _ => true | _ => false end.

(** The loop over the blocks; [None] is the early [return false]. *)
Fixpoint scan_text_blocks (allow_images : bool) (saw_user_text : bool)
    (content : list ContentBlock) : option bool :=
  match content with
  | [] => Some saw_user_text
  | Text text _ :: rest =>
      scan_text_blocks allow_images (if is_user_text text then true else saw_user_text) rest
  | Image _ _ :: rest =>
      if allow_images then scan_text_blocks allow_images saw_user_text rest else None
  | _ :: _ => None
  end.

(** The loop of [ends_with_fresh_user_turn], from the last message back. *)
Fixpoint fresh_user_turn_rev (messages : list Message) : bool :=
  match messages with
  | [] => false
  | msg :: earlier =>
      if decide (msg_role msg ≠ User) then false
      else if existsb is_tool_result (msg_content msg) then false
      else
        match msg_content msg with
        | [] => false
        | content =>
            match scan_text_blocks false false content with
            | None => false
            | Some true => true
            | Some false =>
                if is_internal_system_reminder msg then fresh_user_turn_rev earlier else false
            end
        end
  end.

Definition ends_with_fresh_user_turn (messages : list Message) : bool :=
  fresh_user_turn_rev (reverse messages).

Definition is_fresh_user_text_message (message : Message) : bool :=
  if decide (msg_role message ≠ User) then false
  else default false (scan_text_blocks true false (msg_content message)).

(** ** Dynamic system context *)

Definition dynamic_system_context_message (now : datetime) (system_dynamic : string)
    : option Message :=
  let trimmed := trim system_dynamic in
  if trimmed =s "" then None
  else Some (message_user now
    ("<system-reminder>" +:+ nl +:+ trimmed +:+ nl +:+ "</system-reminder>")).

(** [iter().rposition(..)]: the index of the last element that satisfies [p]. *)
Fixpoint rposition {A} (p : A → bool) (l : list A) : option usize :=
  match l with
  | [] => None
  | x :: l' =>
      match rposition p l' with
      | Some i => Some (S i)
      | None => if p x then Some 0 else None
      end
  end.

Definition messages_with_dynamic_system_context (now : datetime) (messages : list Message)
    (system_dynamic : string) : list Message :=
  match dynamic_system_context_message now system_dynamic with
  | None => messages
  | Some dynamic_message =>
      let insert_at :=
        match rposition is_fresh_user_text_message messages with
        | Some idx => idx + 1
        | None => length messages
        end in
      take insert_at messages ++ dynamic_message :: drop insert_at messages
  end.
End json.

(** ** The stable hash (FNV-1a on 64 bits) *)

Definition TOOL_OUTPUT_MISSING_TEXT : string :=
  "Tool output missing (session interrupted before tool execution completed)".

Definition STABLE_HASH_SEED : u64 := 0xcbf29ce484222325%Z.
Definition STABLE_HASH_PRIME : u64 := 0x100000001b3%Z.

Definition stable_hash_bytes (bytes : list u8) : u64 :=
  foldl (λ hash byte, wrap_u 64 (Z.lxor hash byte * STABLE_HASH_PRIME)) STABLE_HASH_SEED bytes.

(** [u64::to_le_bytes] *)
Definition to_le_bytes (n : u64) : list u8 :=
  (λ i, Z.land (Z.shiftr n (8 * Z.of_nat i)) 255) <$> seq 0 8.

Definition extend_stable_hash (acc next : u64) : u64 :=
  stable_hash_bytes (to_le_bytes acc ++ to_le_bytes next).

(** ** Tool identifiers *)

(** [c.is_ascii_alphanumeric() || c == '_' || c == '-'] *)
Definition is_tool_id_char (c : string) : bool :=
  match c with
  | String b EmptyString =>
      let n := Ascii.nat_of_ascii b in
      ((48 <=? n) && (n <=? 57)) || ((65 <=? n) && (n <=? 90)) || ((97 <=? n) && (n <=? 122))
      || (n =? 95) || (n =? 45)
  | _ => false
  end.

Definition sanitize_tool_id (id : string) : string :=
  if id =s "" then "unknown"
  else
    let sanitized :=
      str_concat ((λ c, if is_tool_id_char c then c else "_") <$> chars id) in
    if sanitized =s "" then "unknown" else sanitized.

(** * Properties of conversations: dynamic context and tool identifiers *)

Section json.
Context `{Json}.

(** ** The text of a reminder *)

Definition reminder_text (trimmed : string) : string :=
  "<system-reminder>" +:+ nl +:+ trimmed +:+ nl +:+ "</system-reminder>".

Lemma reminder_first trimmed :
  ∃ rest, chars (reminder_text trimmed) = "<" :: rest.
Proof.
  unfold reminder_text.
  change ("<system-reminder>" +:+ ?t) with ("<" +:+ "system-reminder>" +:+ t).
  rewrite chars_app by done. by eexists.
Qed.

Lemma reminder_last trimmed :
  ∃ init, chars (reminder_text trimmed) = init ++ [">"].
Proof.
  unfold reminder_text. change "</system-reminder>" with ("</system-reminder" +:+ ">").
  rewrite <- !str_app_assoc. rewrite chars_app by done. by eexists.
Qed.

Lemma reminder_trimmed trimmed : Utf8.trimmed (chars (reminder_text trimmed)).
Proof.
  destruct (reminder_first trimmed) as [rest Hf], (reminder_last trimmed) as [init Hl]. split.
  - intros c l'. rewrite Hf. intros [= <- _]. by vm_compute.
  - intros c l'. rewrite Hl. intros [_ <-]%app_inj_tail. by vm_compute.
Qed.

Lemma reminder_trim_start trimmed : trim_start (reminder_text trimmed) = reminder_text trimmed.
Proof.
  apply chars_inj. rewrite chars_trim_start. destruct (reminder_first trimmed) as [rest ->].
  by apply drop_while_id.
Qed.

Lemma reminder_starts trimmed : starts_with "<system-reminder>" (reminder_text trimmed) = true.
Proof. apply starts_with_spec. by eexists. Qed.

Lemma reminder_message now trimmed :
  let reminder := message_user now (reminder_text trimmed) in
  is_internal_system_reminder reminder = true
  ∧ is_fresh_user_text_message reminder = false
  ∧ ∀ earlier, fresh_user_turn_rev (reminder :: earlier) = fresh_user_turn_rev earlier.
Proof.
  cbn zeta.
  assert (is_user_text (reminder_text trimmed) = false) as Hu.
  { unfold is_user_text. rewrite trim_id by apply reminder_trimmed.
    rewrite reminder_starts. apply andb_false_r. }
  assert (is_internal_system_reminder (message_user now (reminder_text trimmed)) = true) as Hi.
  { unfold is_internal_system_reminder. cbn [message_user msg_content first_text].
    rewrite reminder_trim_start. apply reminder_starts. }
  split_and!; [done| |].
  - unfold is_fresh_user_text_message. cbn [message_user msg_role msg_content scan_text_blocks].
    rewrite Hu. done.
  - intros earlier. cbn [fresh_user_turn_rev].
    rewrite decide_False by (cbn; tauto). cbn [message_user msg_content existsb is_tool_result orb].
    cbn [scan_text_blocks]. rewrite Hu. by rewrite Hi.
Qed.

(** A message that is skipped makes no difference wherever it is. *)
Lemma fresh_rev_insert reminder l1 l2 :
  (∀ earlier, fresh_user_turn_rev (reminder :: earlier) = fresh_user_turn_rev earlier) →
  fresh_user_turn_rev (l1 ++ reminder :: l2) = fresh_user_turn_rev (l1 ++ l2).
Proof.
  intros Hskip. induction l1 as [|m l1 IH]; [by rewrite !app_nil_l|].
  cbn [app fresh_user_turn_rev]. by rewrite IH.
Qed.

Lemma rposition_Some {A} (p : A → bool) l i :
  rposition p l = Some i →
  ∃ x, l !! i = Some x ∧ p x = true ∧ ∀ y, y ∈ drop (S i) l → p y = false.
Proof.
  revert i. induction l as [|x l IH]; intros i; cbn [rposition]; [done|].
  destruct (rposition p l) as [j|] eqn:E.
  - intros [= <-]. destruct (IH j eq_refl) as (y & ? & ? & ?). by exists y.
  - destruct (p x) eqn:Ep; [|done]. intros [= <-]. exists x. split_and!; [done..|].
    cbn [drop]. clear IH. revert E. induction l as [|z l IH]; [set_solver|].
    cbn [rposition]. destruct (rposition p l); [done|]. destruct (p z) eqn:Ez; [done|].
    intros _ y [->|Hy]%elem_of_cons; auto.
Qed.

Lemma rposition_None {A} (p : A → bool) l :
  rposition p l = None → ∀ y, y ∈ l → p y = false.
Proof.
  induction l as [|z l IH]; [set_solver|].
  cbn [rposition]. destruct (rposition p l); [done|]. destruct (p z) eqn:Ez; [done|].
  intros _ y [->|Hy]%elem_of_cons; auto.
Qed.

(** Dynamic context is one reminder message put right after the latest
    fresh text of the user (at the end when there is none), so the history
    before it keeps its cached prefix; the other messages are untouched, blank
    context adds nothing, and it never changes whether the conversation ends
    with a fresh user turn. *)
Theorem dynamic_context_correct now messages system_dynamic :
  let out := messages_with_dynamic_system_context now messages system_dynamic in
  ends_with_fresh_user_turn out = ends_with_fresh_user_turn messages
  ∧ (trim system_dynamic = "" → out = messages)
  ∧ (trim system_dynamic ≠ "" → ∃ before reminder after,
       messages = before ++ after ∧ out = before ++ reminder :: after
       ∧ is_internal_system_reminder reminder = true
       ∧ (∀ m, m ∈ after → is_fresh_user_text_message m = false)
       ∧ (after = [] ∨ ∃ init m, before = init ++ [m] ∧ is_fresh_user_text_message m = true)).
Proof.
  cbn zeta. unfold messages_with_dynamic_system_context, dynamic_system_context_message.
  destruct (String.eqb_spec (trim system_dynamic) "") as [E|E]; [done|].
  fold (reminder_text (trim system_dynamic)).
  destruct (reminder_message now (trim system_dynamic)) as (Hi & _ & Hskip).
  set (reminder := message_user now _) in *.
  set (at_ := match rposition _ _ with Some _ => _ | None => _ end).
  split_and!; [|done|].
  - unfold ends_with_fresh_user_turn. rewrite reverse_app, reverse_cons, <- app_assoc.
    cbn [app]. rewrite fresh_rev_insert by done.
    by rewrite <- reverse_app, take_drop.
  - intros _. exists (take at_ messages), reminder, (drop at_ messages).
    split_and!; [by rewrite take_drop|done|done|..]; subst at_;
      destruct (rposition is_fresh_user_text_message messages) as [i|] eqn:Er.
    + apply rposition_Some in Er as (x & _ & _ & Hall). by rewrite Nat.add_1_r.
    + intros m Hm. rewrite drop_all in Hm. by apply elem_of_nil in Hm.
    + right. apply rposition_Some in Er as (x & Hx & Hp & _).
      exists (take i messages), x. rewrite Nat.add_1_r. split; [|done]. by apply take_S_r.
    + left. apply drop_all.
Qed.
End json.

(** ** Tool identifiers *)

(** Every character of a sanitized identifier is a letter, a digit, an
    underscore or a hyphen. *)
Definition valid_tool_id (id : string) : Prop :=
  id ≠ "" ∧ Forall (λ c, is_tool_id_char c = true) (chars id).

Lemma is_tool_id_char_ascii c : is_tool_id_char c = true → one_char c ∧ starts_char c = true.
Proof.
  destruct c as [|b [|]]; [done| |done]. intros Hb. split; [done|]. cbn [starts_char].
  unfold is_tool_id_char in Hb. unfold is_cont.
  destruct (Nat.leb_spec 128 (Ascii.nat_of_ascii b)) as [Hl|]; [|done].
  rewrite !orb_true_iff, !andb_true_iff, !Nat.leb_le, !Nat.eqb_eq in Hb. lia.
Qed.

Lemma chars_tool_id l :
  Forall (λ c, is_tool_id_char c = true) l → chars (str_concat l) = l.
Proof.
  intros Hl. apply chars_concat. split.
  - eapply Forall_impl; [done|]. intros c Hc. by apply is_tool_id_char_ascii.
  - apply Forall_tail. eapply Forall_impl; [done|]. intros c Hc. by apply is_tool_id_char_ascii.
Qed.

(** A sanitized tool id is never empty and holds only the characters
    every provider accepts, one for each character of the original; valid ids
    are left alone, so sanitizing again changes nothing. *)
Theorem sanitize_tool_id_correct id :
  valid_tool_id (sanitize_tool_id id)
  ∧ (id ≠ "" → length (chars (sanitize_tool_id id)) = length (chars id))
  ∧ (valid_tool_id id → sanitize_tool_id id = id)
  ∧ sanitize_tool_id (sanitize_tool_id id) = sanitize_tool_id id.
Proof.
  assert (∀ id, valid_tool_id (sanitize_tool_id id)
    ∧ (id ≠ "" → length (chars (sanitize_tool_id id)) = length (chars id))) as Hvalid.
  { clear id. intros id. unfold sanitize_tool_id.
    destruct (String.eqb_spec id "") as [->|Hne].
    { split; [|done]. split; [done|]. vm_compute. repeat constructor. }
    set (l := _ <$> chars id).
    assert (Forall (λ c, is_tool_id_char c = true) l) as Hl.
    { apply Forall_fmap, Forall_true. intros c. cbn.
      destruct (is_tool_id_char c) eqn:E; [done|by vm_compute]. }
    pose proof (chars_tool_id l Hl) as Hc.
    assert (str_concat l ≠ "") as Hs.
    { intros E. rewrite E in Hc. apply Hne, chars_nil.
      apply length_zero_iff_nil. rewrite <- (length_fmap (λ c, if is_tool_id_char c then c else "_")).
      fold l. by rewrite <- Hc. }
    rewrite (proj2 (eqb_false _ _) Hs). split; [split; [done|by rewrite Hc]|].
    intros _. rewrite Hc. apply length_fmap. }
  assert (∀ id, valid_tool_id id → sanitize_tool_id id = id) as Hid.
  { clear id. intros id [Hne Hall]. unfold sanitize_tool_id.
    rewrite (proj2 (eqb_false _ _) Hne).
    assert ((λ c, if is_tool_id_char c then c else "_") <$> chars id = chars id) as ->.
    { rewrite <- (list_fmap_id (chars id)) at 2. apply list_fmap_ext. intros i c Hc.
      rewrite Forall_forall in Hall. rewrite Hall; [done|]. by eapply list_elem_of_lookup_2. }
    rewrite str_concat_chars. by rewrite (proj2 (eqb_false _ _) Hne). }
  split_and!; [apply Hvalid|apply Hvalid|apply Hid|apply Hid, Hvalid].
Qed.
