(* ===== verification/MemoryActivity.v ===== *)
(** * Memory at work ([src/memory/activity.rs], [src/memory/pending.rs],
      [src/memory_prompt.rs], [crates/gcode-memory-types/src/lib.rs])

    What the memory system shows of itself, the payloads it holds for the next
    turns, and the part of a conversation it looks at. The statics of these
    files are values that the functions take and give back; a map that was
    never made is an empty one. Logging and telemetry are left out. *)

From S2P Require Import Prelude Utf8 Text SwarmPlan F32 MemoryEntry Messages.
Open Scope nat_scope.

#[local] Arguments String.append !_ _ / : simpl nomatch.

(** An [Instant]: nanoseconds since the earliest that the platform has. *)
Abbreviation instant := Z (only parsing).

(** [at_.elapsed()] in seconds and in milliseconds. *)
Definition elapsed_secs (now at_ : instant) : Z := (Z.max 0 (now - at_) / 1000000000)%Z.
Definition elapsed_millis (now at_ : instant) : Z := (Z.max 0 (now - at_) / 1000000)%Z.

(** ** Activity *)

Inductive StepStatus := StepPending | StepRunning | StepDone | StepError | StepSkipped.

#[export] Instance StepStatus_eq_dec : EqDecision StepStatus.
Proof. solve_decision. Defined.

Record StepResult := { st_summary : string; st_latency_ms : u64 }.

Record PipelineState := {
  pl_search : StepStatus;
  pl_search_result : option StepResult;
  pl_verify : StepStatus;
  pl_verify_result : option StepResult;
  pl_verify_progress : option (usize * usize);
  pl_inject : StepStatus;
  pl_inject_result : option StepResult;
  pl_maintain : StepStatus;
  pl_maintain_result : option StepResult;
  pl_started_at : instant;
}.

Definition pipeline_new (now : instant) : PipelineState := {|
  pl_search := StepPending; pl_search_result := None; pl_verify := StepPending;
  pl_verify_result := None; pl_verify_progress := None; pl_inject := StepPending;
  pl_inject_result := None; pl_maintain := StepPending; pl_maintain_result := None;
  pl_started_at := now;
|}.

Definition step_ended (status : StepStatus) : bool :=
  match status with StepDone | StepError | StepSkipped => true | _ => false end.

Definition is_complete (p : PipelineState) : bool :=
  step_ended (pl_search p) && step_ended (pl_verify p) && step_ended (pl_inject p)
  && step_ended (pl_maintain p).

Definition step_runs (status : StepStatus) : bool :=
  match status with StepRunning => true | _ => false end.

Definition has_running_step (p : PipelineState) : bool :=
  step_runs (pl_search p) || step_runs (pl_verify p) || step_runs (pl_inject p)
  || step_runs (pl_maintain p).

Inductive MemoryState :=
| MemoryIdle
| MemoryEmbedding
| MemorySidecarChecking (count : usize)
| MemoryFoundRelevant (count : usize)
| MemoryExtracting (reason : string)
| MemoryMaintaining (phase : string)
| MemoryToolAction (action detail : string).

Record InjectedMemoryItem := { im_section : string; im_content : string }.

Inductive MemoryEventKind :=
| EmbeddingStarted
| EmbeddingComplete (latency_ms : u64) (hits : usize)
| SidecarStarted
| SidecarRelevant (memory_preview : string)
| SidecarNotRelevant
| SidecarComplete (latency_ms : u64)
| MemorySurfaced (memory_preview : string)
| MemoryInjected (count prompt_chars : usize) (age_ms : u64) (preview : string)
    (items : list InjectedMemoryItem)
| MaintenanceStarted (verified rejected : usize)
| MaintenanceLinked (links : usize)
| MaintenanceConfidence (boosted decayed : usize)
| MaintenanceCluster (clusters members : usize)
| MaintenanceTagInferred (tag : string) (applied : usize)
| MaintenanceGap (candidates : usize)
| MaintenanceComplete (latency_ms : u64)
| ExtractionStarted (reason : string)
| ExtractionComplete (count : usize)
| MemoryError (message : string)
| ToolRemembered (content scope category : string)
| ToolRecalled (query : string) (count : usize)
| ToolForgot (id : string)
| ToolTagged (id tags : string)
| ToolLinked (from to : string)
| ToolListed (count : usize).

Record MemoryEvent := {
  ev_kind : MemoryEventKind;
  ev_timestamp : instant;
  ev_detail : option string;
}.

Record MemoryActivity := {
  ma_state : MemoryState;
  ma_state_since : instant;
  ma_pipeline : option PipelineState;
  ma_recent_events : list MemoryEvent;
}.

Definition is_processing (a : MemoryActivity) : bool :=
  match ma_state a with MemoryIdle => false | _ => true end
  || from_option has_running_step false (ma_pipeline a).

(** ** The state shown ([activity.rs]) *)

Definition MAX_RECENT_EVENTS : usize := 10.
Definition STALENESS_TIMEOUT_SECS : u64 := 10.

Definition activity_of (state : MemoryState) (now : instant) (pipeline : option PipelineState)
    (recent_events : list MemoryEvent) : MemoryActivity :=
  {| ma_state := state; ma_state_since := now; ma_pipeline := pipeline;
     ma_recent_events := recent_events |}.

Definition set_state (now : instant) (state : MemoryState) (guard : option MemoryActivity)
    : option MemoryActivity :=
  Some match guard with
       | Some activity => activity_of state now (ma_pipeline activity) (ma_recent_events activity)
       | None => activity_of state now None []
       end.

Definition add_event (now : instant) (kind : MemoryEventKind) (guard : option MemoryActivity)
    : option MemoryActivity :=
  let event := {| ev_kind := kind; ev_timestamp := now; ev_detail := None |} in
  Some match guard with
       | Some activity =>
           activity_of (ma_state activity) (ma_state_since activity) (ma_pipeline activity)
             (take MAX_RECENT_EVENTS (event :: ma_recent_events activity))
       | None => activity_of MemoryIdle now None [event]
       end.

Definition set_pipeline (pipeline : option PipelineState) (activity : MemoryActivity) : MemoryActivity :=
  activity_of (ma_state activity) (ma_state_since activity) pipeline (ma_recent_events activity).

Definition pipeline_start (now : instant) (guard : option MemoryActivity) : option MemoryActivity :=
  Some match guard with
       | Some activity => set_pipeline (Some (pipeline_new now)) activity
       | None => activity_of MemoryIdle now (Some (pipeline_new now)) []
       end.

Definition pipeline_update (f : PipelineState → PipelineState) (guard : option MemoryActivity)
    : option MemoryActivity :=
  (λ activity, set_pipeline (f <$> ma_pipeline activity) activity) <$> guard.

Definition check_staleness (now : instant) (guard : option MemoryActivity) : bool * option MemoryActivity :=
  match guard with
  | Some activity =>
      if match ma_state activity with MemoryIdle => false | _ => true end
         && (STALENESS_TIMEOUT_SECS <=? elapsed_secs now (ma_state_since activity))%Z
      then (true, Some (activity_of MemoryIdle now (ma_pipeline activity) (ma_recent_events activity)))
      else (false, guard)
  | None => (false, guard)
  end.

Definition clear_activity (guard : option MemoryActivity) : option MemoryActivity := None.

(** *** Snapshots *)

Inductive MemoryStateSnapshot :=
| SnapIdle
| SnapEmbedding
| SnapSidecarChecking (count : usize)
| SnapFoundRelevant (count : usize)
| SnapExtracting (reason : string)
| SnapMaintaining (phase : string)
| SnapToolAction (action detail : string).

Inductive MemoryStepStatusSnapshot := SnapPending | SnapRunning | SnapDone | SnapError | SnapSkipped.

Record MemoryStepResultSnapshot := { rs_summary : string; rs_latency_ms : u64 }.

Record MemoryPipelineSnapshot := {
  ps_search : MemoryStepStatusSnapshot;
  ps_search_result : option MemoryStepResultSnapshot;
  ps_verify : MemoryStepStatusSnapshot;
  ps_verify_result : option MemoryStepResultSnapshot;
  ps_verify_progress : option (usize * usize);
  ps_inject : MemoryStepStatusSnapshot;
  ps_inject_result : option MemoryStepResultSnapshot;
  ps_maintain : MemoryStepStatusSnapshot;
  ps_maintain_result : option MemoryStepResultSnapshot;
}.

Record MemoryActivitySnapshot := {
  as_state : MemoryStateSnapshot;
  as_state_age_ms : u64;
  as_pipeline : option MemoryPipelineSnapshot;
}.

Definition snapshot_state (state : MemoryState) : MemoryStateSnapshot :=
  match state with
  | MemoryIdle => SnapIdle
  | MemoryEmbedding => SnapEmbedding
  | MemorySidecarChecking count => SnapSidecarChecking count
  | MemoryFoundRelevant count => SnapFoundRelevant count
  | MemoryExtracting reason => SnapExtracting reason
  | MemoryMaintaining phase => SnapMaintaining phase
  | MemoryToolAction action detail => SnapToolAction action detail
  end.

Definition from_snapshot_state (snapshot : MemoryStateSnapshot) : MemoryState :=
  match snapshot with
  | SnapIdle => MemoryIdle
  | SnapEmbedding => MemoryEmbedding
  | SnapSidecarChecking count => MemorySidecarChecking count
  | SnapFoundRelevant count => MemoryFoundRelevant count
  | SnapExtracting reason => MemoryExtracting reason
  | SnapMaintaining phase => MemoryMaintaining phase
  | SnapToolAction action detail => MemoryToolAction action detail
  end.

Definition snapshot_step_status (status : StepStatus) : MemoryStepStatusSnapshot :=
  match status with
  | StepPending => SnapPending | StepRunning => SnapRunning | StepDone => SnapDone
  | StepError => SnapError | StepSkipped => SnapSkipped
  end.

Definition from_snapshot_step_status (snapshot : MemoryStepStatusSnapshot) : StepStatus :=
  match snapshot with
  | SnapPending => StepPending | SnapRunning => StepRunning | SnapDone => StepDone
  | SnapError => StepError | SnapSkipped => StepSkipped
  end.

Definition snapshot_step_result (result : StepResult) : MemoryStepResultSnapshot :=
  {| rs_summary := st_summary result; rs_latency_ms := st_latency_ms result |}.

Definition from_snapshot_step_result (snapshot : MemoryStepResultSnapshot) : StepResult :=
  {| st_summary := rs_summary snapshot; st_latency_ms := rs_latency_ms snapshot |}.

Definition snapshot_pipeline (p : PipelineState) : MemoryPipelineSnapshot := {|
  ps_search := snapshot_step_status (pl_search p);
  ps_search_result := snapshot_step_result <$> pl_search_result p;
  ps_verify := snapshot_step_status (pl_verify p);
  ps_verify_result := snapshot_step_result <$> pl_verify_result p;
  ps_verify_progress := pl_verify_progress p;
  ps_inject := snapshot_step_status (pl_inject p);
  ps_inject_result := snapshot_step_result <$> pl_inject_result p;
  ps_maintain := snapshot_step_status (pl_maintain p);
  ps_maintain_result := snapshot_step_result <$> pl_maintain_result p;
|}.

Definition from_snapshot_pipeline (now : instant) (p : MemoryPipelineSnapshot) : PipelineState := {|
  pl_search := from_snapshot_step_status (ps_search p);
  pl_search_result := from_snapshot_step_result <$> ps_search_result p;
  pl_verify := from_snapshot_step_status (ps_verify p);
  pl_verify_result := from_snapshot_step_result <$> ps_verify_result p;
  pl_verify_progress := ps_verify_progress p;
  pl_inject := from_snapshot_step_status (ps_inject p);
  pl_inject_result := from_snapshot_step_result <$> ps_inject_result p;
  pl_maintain := from_snapshot_step_status (ps_maintain p);
  pl_maintain_result := from_snapshot_step_result <$> ps_maintain_result p;
  pl_started_at := now;
|}.

Definition memory_activity_snapshot (now : instant) (activity : MemoryActivity) : MemoryActivitySnapshot := {|
  as_state := snapshot_state (ma_state activity);
  as_state_age_ms := wrap_u 64 (elapsed_millis now (ma_state_since activity));
  as_pipeline := snapshot_pipeline <$> ma_pipeline activity;
|}.

Definition activity_snapshot (now : instant) (guard : option MemoryActivity)
    : option MemoryActivitySnapshot := memory_activity_snapshot now <$> guard.

(** [now.checked_sub(Duration::from_millis(..)).unwrap_or(now)] *)
Definition instant_before (now : instant) (millis : u64) : instant :=
  (let at_ := now - millis * 1000000 in if at_ <? 0 then now else at_)%Z.

Definition apply_remote_activity_snapshot (now : instant) (snapshot : MemoryActivitySnapshot)
    (guard : option MemoryActivity) : option MemoryActivity :=
  Some {|
    ma_state := from_snapshot_state (as_state snapshot);
    ma_state_since := instant_before now (as_state_age_ms snapshot);
    ma_pipeline := from_snapshot_pipeline now <$> as_pipeline snapshot;
    ma_recent_events := from_option ma_recent_events [] guard;
  |}.

(** *** What a payload holds *)

(** [s.split_once(". ")] *)
Definition split_once (sep s : string) : option (string * string) :=
  (λ i, (str_take i s, str_drop (i + String.length sep) s)) <$> str_find sep s.

Definition is_ascii_digit (c : string) : bool :=
  match c with
  | String b EmptyString => let n := Ascii.nat_of_ascii b in (48 <=? n) && (n <=? 57)
  | _ => false
  end.

(** The text after the number of a list item. *)
Definition numbered_item (line : string) : option string :=
  match split_once ". " line with
  | Some (prefix, rest) =>
      if negb (prefix =s "") && forallb is_ascii_digit (chars prefix) then Some (trim rest) else None
  | None => None
  end.

Definition item_content (line : string) : option string :=
  match strip_prefix "- " line with
  | Some rest => Some (trim rest)
  | None => numbered_item line
  end.

(** The loop over the lines, from the section and the items so far. *)
Fixpoint parse_item_lines (max_items : usize) (section : string) (items : list InjectedMemoryItem)
    (lines : list string) : string * list InjectedMemoryItem :=
  match lines with
  | [] => (section, items)
  | raw_line :: lines =>
      let line := trim raw_line in
      if (line =s "") || (line =s "# Memory") then parse_item_lines max_items section items lines
      else
        match strip_prefix "## " line with
        | Some header =>
            let header := trim header in
            parse_item_lines max_items (if header =s "" then section else header) items lines
        | None =>
            match item_content line with
            | Some content =>
                if content =s "" then parse_item_lines max_items section items lines
                else
                  let items := items ++ [{| im_section := section; im_content := content |}] in
                  if max_items <=? length items then (section, items)
                  else parse_item_lines max_items section items lines
            | None => parse_item_lines max_items section items lines
            end
        end
  end.

Definition parse_injected_items (prompt : string) (max_items : usize) : list InjectedMemoryItem :=
  let '(section, items) := parse_item_lines max_items "Memory" [] (lines prompt) in
  match items with
  | [] =>
      let fallback :=
        join " " (filter (λ line, negb (line =s "") && negb (starts_with "#" line)
                                  && negb (starts_with "## " line) && negb (starts_with "- " line) = true)
                    (trim <$> lines prompt)) in
      if fallback =s "" then [] else [{| im_section := section; im_content := fallback |}]
  | _ => items
  end.

(** [line.trim_start_matches("- ")] *)
Fixpoint strip_dashes (fuel : nat) (line : string) : string :=
  match fuel with
  | 0 => line
  | S fuel => match strip_prefix "- " line with Some rest => strip_dashes fuel rest | None => line end
  end.

Definition trim_start_dashes (line : string) : string := strip_dashes (String.length line) line.

Definition preview_line (line : string) : option string :=
  if starts_with "- " line then Some (trim (trim_start_dashes line)) else numbered_item line.

Fixpoint find_map {A B} (f : A → option B) (l : list A) : option B :=
  match l with
  | [] => None
  | x :: l => match f x with Some y => Some y | None => find_map f l end
  end.

Definition prompt_preview (prompt : string) (max_chars : usize) : string :=
  let bullet := default (trim prompt) (find_map preview_line (trim <$> lines prompt)) in
  if length (chars bullet) <=? max_chars then bullet
  else str_concat (take (max_chars - 3) (chars bullet)) +:+ "...".

Definition record_injected_prompt (now : instant) (prompt : string) (count : usize) (age_ms : u64)
    (guard : option MemoryActivity) : option MemoryActivity :=
  let items := parse_injected_items prompt 8 in
  let preview := prompt_preview prompt 72 in
  let guard := add_event now (MemoryInjected count (length (chars prompt)) age_ms preview items) guard in
  add_event now (MemorySurfaced preview) guard.

(** ** Payloads for the next turns ([pending.rs]) *)

Definition MEMORY_REPEAT_SUPPRESSION_SECS : u64 := 90.
Definition MEMORY_SET_REPEAT_SUPPRESSION_SECS : u64 := 180.
Definition MEMORY_SET_OVERLAP_SUPPRESSION_RATIO : f32 := f32_0_8.

Record PendingMemory := {
  pm_prompt : string;
  pm_display_prompt : option string;
  pm_computed_at : instant;
  pm_count : usize;
  pm_memory_ids : list string;
}.

Definition is_fresh (now : instant) (pending : PendingMemory) : bool :=
  (elapsed_secs now (pm_computed_at pending) <? 120)%Z.

(** The statics, each by session. *)
Record PendingState := {
  pending_memory : gmap string PendingMemory;
  last_injected_prompt_signature : gmap string (string * instant);
  last_injected_memory_set : gmap string (gset string * instant);
  injected_memory_ids : gmap string (gset string);
  memory_check_in_progress : gset string;
}.

Definition pending_empty : PendingState := {|
  pending_memory := ∅; last_injected_prompt_signature := ∅; last_injected_memory_set := ∅;
  injected_memory_ids := ∅; memory_check_in_progress := ∅;
|}.

Definition set_pending_map pending st := {|
  pending_memory := pending; last_injected_prompt_signature := last_injected_prompt_signature st;
  last_injected_memory_set := last_injected_memory_set st; injected_memory_ids := injected_memory_ids st;
  memory_check_in_progress := memory_check_in_progress st;
|}.
Definition set_signatures signatures st := {|
  pending_memory := pending_memory st; last_injected_prompt_signature := signatures;
  last_injected_memory_set := last_injected_memory_set st; injected_memory_ids := injected_memory_ids st;
  memory_check_in_progress := memory_check_in_progress st;
|}.
Definition set_memory_sets sets st := {|
  pending_memory := pending_memory st;
  last_injected_prompt_signature := last_injected_prompt_signature st;
  last_injected_memory_set := sets; injected_memory_ids := injected_memory_ids st;
  memory_check_in_progress := memory_check_in_progress st;
|}.
Definition set_injected_ids ids st := {|
  pending_memory := pending_memory st;
  last_injected_prompt_signature := last_injected_prompt_signature st;
  last_injected_memory_set := last_injected_memory_set st; injected_memory_ids := ids;
  memory_check_in_progress := memory_check_in_progress st;
|}.
Definition set_checks checks st := {|
  pending_memory := pending_memory st;
  last_injected_prompt_signature := last_injected_prompt_signature st;
  last_injected_memory_set := last_injected_memory_set st; injected_memory_ids := injected_memory_ids st;
  memory_check_in_progress := checks;
|}.

Definition memory_overlap_ratio (left right : gset string) : f32 :=
  if bool_decide (left = ∅) || bool_decide (right = ∅) then f32_0_0
  else
    let intersection := f32_of_unsigned (Z.of_nat (size (left ∩ right))) in
    let baseline := f32_of_unsigned (Z.of_nat (size left `max` size right)) in
    f32_div intersection baseline.

Section pending.
Context `{UnicodeLower}.

Definition prompt_signature (prompt : string) : string :=
  to_lowercase (join nl (filter (λ line, line ≠ "") (trim <$> lines prompt))).

Definition mark_memories_injected (session_id : string) (ids : list string) (st : PendingState)
    : PendingState :=
  set_injected_ids
    (<[session_id := list_to_set ids ∪ default ∅ (injected_memory_ids st !! session_id)]>
       (injected_memory_ids st)) st.

(** The check against the last payload's text, which is noted when it passes. *)
Definition take_signature (now : instant) (session_id : string) (pending : PendingMemory)
    (st : PendingState) : option PendingState :=
  let sig := prompt_signature (pm_prompt pending) in
  if match last_injected_prompt_signature st !! session_id with
     | Some (last_sig, last_at) =>
         (last_sig =s sig) && (elapsed_secs now last_at <? MEMORY_REPEAT_SUPPRESSION_SECS)%Z
     | None => false
     end
  then None
  else Some (set_signatures (<[session_id := (sig, now)]> (last_injected_prompt_signature st)) st).

(** That against its memories. *)
Definition take_memory_set (now : instant) (session_id : string) (pending : PendingMemory)
    (st : PendingState) : option PendingState :=
  if is_nil (pm_memory_ids pending) then Some st
  else
    let pending_set := list_to_set (pm_memory_ids pending) in
    if match last_injected_memory_set st !! session_id with
       | Some (last_set, last_at) =>
           f32_ge (memory_overlap_ratio last_set pending_set) MEMORY_SET_OVERLAP_SUPPRESSION_RATIO
           && (elapsed_secs now last_at <? MEMORY_SET_REPEAT_SUPPRESSION_SECS)%Z
       | None => false
       end
    then None
    else Some (set_memory_sets (<[session_id := (pending_set, now)]> (last_injected_memory_set st)) st).

Definition take_pending_memory (now : instant) (session_id : string) (st : PendingState)
    : option PendingMemory * PendingState :=
  match pending_memory st !! session_id with
  | Some pending =>
      let st := set_pending_map (delete session_id (pending_memory st)) st in
      if negb (is_fresh now pending) then (None, st)
      else
        match take_signature now session_id pending st with
        | None => (None, st)
        | Some st =>
            match take_memory_set now session_id pending st with
            | None => (None, st)
            | Some st =>
                (Some pending,
                 if is_nil (pm_memory_ids pending) then st
                 else mark_memories_injected session_id (pm_memory_ids pending) st)
            end
        end
  | None => (None, st)
  end.

Definition set_pending_memory_with_ids_and_display (now : instant) (session_id prompt : string)
    (count : usize) (memory_ids : list string) (display_prompt : option string) (st : PendingState)
    : PendingState :=
  let new_memory_set := list_to_set memory_ids in
  if match pending_memory st !! session_id with
     | Some existing =>
         is_fresh now existing
         && ((prompt_signature (pm_prompt existing) =s prompt_signature prompt)
             || f32_ge (memory_overlap_ratio (list_to_set (pm_memory_ids existing)) new_memory_set)
                  MEMORY_SET_OVERLAP_SUPPRESSION_RATIO)
     | None => false
     end
  then st
  else
    set_pending_map
      (<[session_id := {| pm_prompt := prompt; pm_display_prompt := display_prompt;
                          pm_computed_at := now; pm_count := count; pm_memory_ids := memory_ids |}]>
         (pending_memory st)) st.

Definition set_pending_memory_with_ids now session_id prompt count memory_ids :=
  set_pending_memory_with_ids_and_display now session_id prompt count memory_ids None.

Definition set_pending_memory now session_id prompt count :=
  set_pending_memory_with_ids now session_id prompt count [].

Definition sync_injected_memories (session_id : string) (ids : list string) (st : PendingState)
    : PendingState :=
  set_injected_ids
    (if is_nil ids then delete session_id (injected_memory_ids st)
     else <[session_id := list_to_set ids]> (injected_memory_ids st)) st.

Definition is_memory_injected (session_id id : string) (st : PendingState) : bool :=
  bool_decide (id ∈ default ∅ (injected_memory_ids st !! session_id)).

Definition is_memory_injected_any (id : string) (st : PendingState) : bool :=
  existsb (λ set : gset string, bool_decide (id ∈ set)) (map_to_list (injected_memory_ids st)).*2.

Definition clear_injected_memories (session_id : string) (st : PendingState) : PendingState :=
  let st := set_signatures (delete session_id (last_injected_prompt_signature st)) st in
  let st := set_memory_sets (delete session_id (last_injected_memory_set st)) st in
  set_injected_ids (delete session_id (injected_memory_ids st)) st.

Definition clear_all_injected_memories (st : PendingState) : PendingState :=
  set_injected_ids ∅ (set_memory_sets ∅ (set_signatures ∅ st)).

Definition clear_pending_memory (session_id : string) (st : PendingState) : PendingState :=
  let st := set_pending_map (delete session_id (pending_memory st)) st in
  clear_injected_memories session_id st.

Definition clear_all_pending_memory (st : PendingState) : PendingState :=
  clear_all_injected_memories (set_pending_map ∅ st).

Definition has_pending_memory (session_id : string) (st : PendingState) : bool :=
  bool_decide (is_Some (pending_memory st !! session_id)).

Definition has_any_pending_memory (st : PendingState) : bool :=
  negb (bool_decide (pending_memory st = ∅)).

Definition begin_memory_check (session_id : string) (st : PendingState) : bool * PendingState :=
  (bool_decide (session_id ∉ memory_check_in_progress st),
   set_checks ({[session_id]} ∪ memory_check_in_progress st) st).

Definition finish_memory_check (session_id : string) (st : PendingState) : PendingState :=
  set_checks (memory_check_in_progress st ∖ {[session_id]}) st.
End pending.

(** ** The conversation as context ([memory_prompt.rs]) *)

Definition MEMORY_CONTEXT_MAX_CHARS : usize := Z.to_nat 8000.
Definition MEMORY_CONTEXT_MAX_MESSAGES : usize := 12.
Definition MEMORY_CONTEXT_MAX_BLOCK_CHARS : usize := Z.to_nat 1200.
Definition EXTRACTION_CONTEXT_MAX_MESSAGES : usize := 40.
Definition EXTRACTION_CONTEXT_MAX_CHARS : usize := Z.to_nat 24000.

Definition truncate_chars (value : string) (max_chars : usize) : string :=
  if length (chars value) <=? max_chars then value else str_concat (take max_chars (chars value)).

Section context.
Context `{Json}.

Definition text_block (text : string) : option string :=
  let trimmed := trim text in
  if trimmed =s "" then None else Some (truncate_chars trimmed MEMORY_CONTEXT_MAX_BLOCK_CHARS).

Definition format_content_block_for_relevance (block : ContentBlock) : option string :=
  match block with
  | Text text _ => text_block text
  | ToolUse _ name _ => Some ("[Tool: " +:+ name +:+ "]")
  | ToolResult _ content is_error =>
      if default false is_error then
        Some ("[Tool error: " +:+ truncate_chars (trim content) (MEMORY_CONTEXT_MAX_BLOCK_CHARS / 4) +:+ "]")
      else None
  | Reasoning _ => None
  | Image _ _ => Some "[Image]"
  | OpenAICompaction _ => Some "[OpenAI native compaction]"
  end.

Definition format_content_block_for_extraction (block : ContentBlock) : option string :=
  match block with
  | Text text _ => text_block text
  | ToolUse _ name input =>
      let input_str := truncate_chars (json_to_string input) (MEMORY_CONTEXT_MAX_BLOCK_CHARS / 2) in
      Some ("[Tool: " +:+ name +:+ " input: " +:+ input_str +:+ "]")
  | ToolResult _ content is_error =>
      let label := if default false is_error then "Tool error" else "Tool result" in
      let content := truncate_chars content (MEMORY_CONTEXT_MAX_BLOCK_CHARS / 2) in
      Some ("[" +:+ label +:+ ": " +:+ content +:+ "]")
  | Reasoning _ => None
  | Image _ _ => Some "[Image]"
  | OpenAICompaction _ => Some "[OpenAI native compaction]"
  end.

Definition format_message_context_with (format_block : ContentBlock → option string) (message : Message)
    : string :=
  let role := match msg_role message with User => "User" | Assistant => "Assistant" end in
  let '(chunk, has_content) :=
    foldl (λ st block,
      match format_block block with
      | Some text => if text =s "" then st else (st.1 +:+ text +:+ nl, true)
      | None => st
      end) (role +:+ ":" +:+ nl, false) (msg_content message) in
  if has_content : bool then chunk else "".

(** The loop from the last message back. *)
Fixpoint collect_chunks (max_chars : usize) (format_block : ContentBlock → option string)
    (messages : list Message) (chunks : list string) (total_chars : usize) : list string :=
  match messages with
  | [] => chunks
  | message :: messages =>
      let chunk := format_message_context_with format_block message in
      if chunk =s "" then collect_chunks max_chars format_block messages chunks total_chars
      else
        let chunk_len := length (chars chunk) in
        if max_chars <? total_chars + chunk_len then
          if total_chars =? 0 then chunks ++ [truncate_chars chunk max_chars] else chunks
        else collect_chunks max_chars format_block messages (chunks ++ [chunk]) (total_chars + chunk_len)
  end.

Definition format_context (max_messages max_chars : usize) (format_block : ContentBlock → option string)
    (messages : list Message) : string :=
  trim (join nl (reverse (collect_chunks max_chars format_block
                            (take max_messages (reverse messages)) [] 0))).

Definition format_context_for_relevance : list Message → string :=
  format_context MEMORY_CONTEXT_MAX_MESSAGES MEMORY_CONTEXT_MAX_CHARS format_content_block_for_relevance.

Definition format_context_for_extraction : list Message → string :=
  format_context EXTRACTION_CONTEXT_MAX_MESSAGES EXTRACTION_CONTEXT_MAX_CHARS
    format_content_block_for_extraction.
End context.

(** ** Runs of the payload functions *)

Inductive PendingEvent :=
| SetPending (prompt : string) (count : usize) (ids : list string) (display : option string)
| TakePending
| MarkInjected (ids : list string)
| SyncInjected (ids : list string)
| ClearInjected
| ClearPending
| ClearAllInjected
| ClearAllPending.

(** A payload handed to a session. *)
Record Handed := { hd_session : string; hd_at : instant; hd_payload : PendingMemory }.

Section runs.
Context `{UnicodeLower}.

(** An event of a session at a time, with the payloads handed out since the
    tracking of their session was last cleared, the last one first. *)
Definition pending_step (st : PendingState * list Handed) (event : string * instant * PendingEvent)
    : PendingState * list Handed :=
  let '(st, handed) := st in
  let '(session, now, event) := event in
  let others := filter (λ h, hd_session h ≠ session) handed in
  match event with
  | SetPending prompt count ids display =>
      (set_pending_memory_with_ids_and_display now session prompt count ids display st, handed)
  | TakePending =>
      match take_pending_memory now session st with
      | (Some pending, st) =>
          (st, {| hd_session := session; hd_at := now; hd_payload := pending |} :: handed)
      | (None, st) => (st, handed)
      end
  | MarkInjected ids => (mark_memories_injected session ids st, handed)
  | SyncInjected ids => (sync_injected_memories session ids st, handed)
  | ClearInjected => (clear_injected_memories session st, others)
  | ClearPending => (clear_pending_memory session st, others)
  | ClearAllInjected => (clear_all_injected_memories st, [])
  | ClearAllPending => (clear_all_pending_memory st, [])
  end.

Definition pending_run (events : list (string * instant * PendingEvent)) : PendingState * list Handed :=
  foldl pending_step (pending_empty, []) events.

(** The payloads of a session that name their memories. *)
Definition with_memories (session : string) (handed : list Handed) : list Handed :=
  filter (λ h, hd_session h = session ∧ pm_memory_ids (hd_payload h) ≠ []) handed.

Definition payload_set (h : Handed) : gset string := list_to_set (pm_memory_ids (hd_payload h)).

(** The later payload comes three minutes after the earlier, or four fifths of
    the larger of the two sets are not shared. *)
Definition apart (later earlier : Handed) : Prop :=
  (MEMORY_SET_REPEAT_SUPPRESSION_SECS ≤ elapsed_secs (hd_at later) (hd_at earlier))%Z
  ∨ f32_ge (memory_overlap_ratio (payload_set earlier) (payload_set later))
      MEMORY_SET_OVERLAP_SUPPRESSION_RATIO = false.

Fixpoint all_apart (handed : list Handed) : Prop :=
  match handed with
  | later :: ((earlier :: _) as rest) => apart later earlier ∧ all_apart rest
  | _ => True
  end.

Definition is_sync (event : string * instant * PendingEvent) : bool :=
  match event.2 with SyncInjected _ => true | _ => false end.
End runs.

Section pending_theorems.
Context `{UnicodeLower}.

Lemma with_memories_cons session h handed :
  with_memories session (h :: handed)
  = if decide (hd_session h = session ∧ pm_memory_ids (hd_payload h) ≠ []) then h :: with_memories session handed
    else with_memories session handed.
Proof. unfold with_memories. by rewrite filter_cons. Qed.

Lemma with_memories_others session session' handed :
  with_memories session (filter (λ h, hd_session h ≠ session') handed)
  = if decide (session = session') then [] else with_memories session handed.
Proof.
  induction handed as [|h handed IH]; [by destruct (decide _)|].
  rewrite filter_cons, with_memories_cons. destruct (decide (hd_session h ≠ session')) as [Hn|Hn].
  - rewrite with_memories_cons, IH. destruct (decide (session = session')) as [->|]; [|done].
    by rewrite decide_False by (by intros [? _]).
  - rewrite IH. apply dec_stable in Hn. destruct (decide (session = session')) as [->|]; [done|].
    by rewrite decide_False by (intros [? _]; congruence).
Qed.

(** What the statics say of the payloads handed out. *)
Definition tracks (st : PendingState) (handed : list Handed) : Prop :=
  ∀ session,
    last_injected_memory_set st !! session
    = (λ h, (payload_set h, hd_at h)) <$> head (with_memories session handed)
    ∧ all_apart (with_memories session handed).

Definition counts (st : PendingState) (handed : list Handed) : Prop :=
  ∀ h, h ∈ handed → payload_set h ⊆ default ∅ (injected_memory_ids st !! hd_session h).

Lemma take_signature_sets now session pending st st' :
  take_signature now session pending st = Some st' →
  last_injected_memory_set st' = last_injected_memory_set st
  ∧ injected_memory_ids st' = injected_memory_ids st.
Proof. unfold take_signature. case_match; [done|]. by intros [= <-]. Qed.

(** A payload that is handed out was there, was fresh, and its memories pass
    the comparison with the last ones, which they replace. *)
Lemma take_pending_some now session st pending st' :
  take_pending_memory now session st = (Some pending, st') →
  pending_memory st !! session = Some pending ∧ is_fresh now pending = true
  ∧ injected_memory_ids st'
    = (if is_nil (pm_memory_ids pending) then injected_memory_ids st
       else <[session := list_to_set (pm_memory_ids pending)
                         ∪ default ∅ (injected_memory_ids st !! session)]> (injected_memory_ids st))
  ∧ (if is_nil (pm_memory_ids pending) then last_injected_memory_set st' = last_injected_memory_set st
     else last_injected_memory_set st'
          = <[session := (list_to_set (pm_memory_ids pending), now)]> (last_injected_memory_set st)
          ∧ ∀ last_set last_at, last_injected_memory_set st !! session = Some (last_set, last_at) →
            (MEMORY_SET_REPEAT_SUPPRESSION_SECS ≤ elapsed_secs now last_at)%Z
            ∨ f32_ge (memory_overlap_ratio last_set (list_to_set (pm_memory_ids pending)))
                MEMORY_SET_OVERLAP_SUPPRESSION_RATIO = false).
Proof.
  unfold take_pending_memory. destruct (pending_memory st !! session) as [p|] eqn:Ep; [|done].
  destruct (is_fresh now p) eqn:Ef; cbn [negb]; [|done].
  destruct (take_signature _ _ _ _) as [st1|] eqn:E1; [|done].
  apply take_signature_sets in E1 as [E1 E1']. cbn in E1, E1'.
  unfold take_memory_set. destruct (is_nil (pm_memory_ids p)) eqn:En.
  - intros [= <- <-]. by rewrite En.
  - rewrite E1. destruct (last_injected_memory_set st !! session) as [[last_set last_at]|] eqn:El.
    + destruct (f32_ge _ _ && _) eqn:Eg; [done|]. intros [= <- <-]. rewrite En. cbn. rewrite E1'.
      split_and!; [done..|]. intros ? ? [= <- <-]. apply andb_false_iff in Eg as [Eg|Eg]; [by right|].
      left. lia.
    + intros [= <- <-]. rewrite En. cbn. by rewrite E1'.
Qed.

Lemma take_pending_none now session st st' :
  take_pending_memory now session st = (None, st') →
  last_injected_memory_set st' = last_injected_memory_set st
  ∧ injected_memory_ids st' = injected_memory_ids st.
Proof.
  unfold take_pending_memory. destruct (pending_memory st !! session) as [p|]; [|by intros [= <-]].
  destruct (negb (is_fresh now p)); [by intros [= <-]|].
  destruct (take_signature _ _ _ _) as [st1|] eqn:E1; [|by intros [= <-]].
  apply take_signature_sets in E1 as [E1 E1']. cbn in E1, E1'.
  destruct (take_memory_set _ _ _ _) as [st2|]; [done|]. intros [= <-]. done.
Qed.

Lemma set_pending_sets now session prompt count ids display st :
  let st' := set_pending_memory_with_ids_and_display now session prompt count ids display st in
  last_injected_memory_set st' = last_injected_memory_set st
  ∧ injected_memory_ids st' = injected_memory_ids st.
Proof. cbn. unfold set_pending_memory_with_ids_and_display. by case_match. Qed.

Lemma tracks_same st st' handed :
  last_injected_memory_set st' = last_injected_memory_set st → tracks st handed → tracks st' handed.
Proof. unfold tracks. by intros ->. Qed.

Lemma tracks_cleared session st st' handed :
  last_injected_memory_set st' = delete session (last_injected_memory_set st) →
  tracks st handed → tracks st' (filter (λ h, hd_session h ≠ session) handed).
Proof.
  intros Hs Ht session'. rewrite Hs, with_memories_others.
  destruct (decide (session' = session)) as [->|]; [by rewrite lookup_delete_eq|].
  rewrite lookup_delete_ne by done. apply Ht.
Qed.

Lemma tracks_taken now session st pending st' handed :
  take_pending_memory now session st = (Some pending, st') → tracks st handed →
  tracks st' ({| hd_session := session; hd_at := now; hd_payload := pending |} :: handed).
Proof.
  intros (_ & _ & _ & Hs)%take_pending_some Ht session'. rewrite with_memories_cons. cbn [hd_session hd_payload].
  destruct (pm_memory_ids pending) as [|id ids] eqn:Ei; cbn [is_nil] in Hs.
  { rewrite decide_False by naive_solver. rewrite Hs. apply Ht. }
  destruct Hs as [-> Hall]. destruct (decide (session' = session)) as [->|Hn].
  - rewrite decide_True by done. rewrite lookup_insert_eq. cbn [head fmap option_fmap option_map].
    split; [by unfold payload_set; cbn; rewrite Ei|].
    destruct (Ht session) as [Hlast Hapart].
    destruct (with_memories session handed) as [|h rest]; [done|]. split; [|done].
    specialize (Hall _ _ Hlast). unfold apart, payload_set. cbn. by rewrite Ei.
  - rewrite decide_False by naive_solver. rewrite lookup_insert_ne by done. apply Ht.
Qed.

Lemma counts_taken now session st pending st' handed :
  take_pending_memory now session st = (Some pending, st') → counts st handed →
  counts st' ({| hd_session := session; hd_at := now; hd_payload := pending |} :: handed).
Proof.
  intros (_ & _ & Hs & _)%take_pending_some Ht h [->|Hin]%elem_of_cons; unfold payload_set; cbn.
  - rewrite Hs. destruct (pm_memory_ids pending); [done|]. cbn [is_nil].
    rewrite lookup_insert_eq. cbn. set_solver.
  - rewrite Hs. specialize (Ht h Hin). unfold payload_set in Ht.
    destruct (is_nil _); [done|]. destruct (decide (hd_session h = session)) as [E|].
    + rewrite E, lookup_insert_eq. rewrite E in Ht. etrans; [exact Ht|]. cbn [from_option]. unfold id. apply union_subseteq_r.
    + by rewrite lookup_insert_ne.
Qed.

Lemma counts_more st st' handed :
  (∀ session, default ∅ (injected_memory_ids st !! session)
              ⊆ default ∅ (injected_memory_ids st' !! session)) →
  counts st handed → counts st' handed.
Proof. intros Hs Hc h Hin. etrans; [by apply Hc|apply Hs]. Qed.

Lemma counts_cleared session st st' handed :
  injected_memory_ids st' = delete session (injected_memory_ids st) →
  counts st handed → counts st' (filter (λ h, hd_session h ≠ session) handed).
Proof.
  intros Hs Hc h [Hn Hin]%list_elem_of_filter. rewrite Hs, lookup_delete_ne by done. by apply Hc.
Qed.

Lemma pending_step_tracks st handed event :
  tracks st handed →
  let '(st', handed') := pending_step (st, handed) event in tracks st' handed'.
Proof.
  destruct event as [[session now] event]. intros Ht. destruct event; cbn.
  - eapply tracks_same; [apply set_pending_sets|done].
  - destruct (take_pending_memory now session st) as [[pending|] st'] eqn:E.
    + by eapply tracks_taken.
    + apply take_pending_none in E as [E _]. by eapply tracks_same.
  - by eapply tracks_same.
  - by eapply tracks_same.
  - by eapply tracks_cleared.
  - by eapply tracks_cleared.
  - by intros session'.
  - by intros session'.
Qed.

Lemma pending_step_counts st handed event :
  is_sync event = false → counts st handed →
  let '(st', handed') := pending_step (st, handed) event in counts st' handed'.
Proof.
  destruct event as [[session now] event]. intros He Hc. destruct event; cbn.
  - eapply counts_more, Hc. intros s. by rewrite (proj2 (set_pending_sets _ _ _ _ _ _ _)).
  - destruct (take_pending_memory now session st) as [[pending|] st'] eqn:E.
    + by eapply counts_taken.
    + apply take_pending_none in E as [_ E]. eapply counts_more, Hc. intros s. by rewrite E.
  - eapply counts_more, Hc. intros s. cbn. destruct (decide (s = session)) as [->|].
    + rewrite lookup_insert_eq. cbn. set_solver.
    + by rewrite lookup_insert_ne.
  - done.
  - by eapply counts_cleared.
  - by eapply counts_cleared.
  - intros h Hh. by apply elem_of_nil in Hh.
  - intros h Hh. by apply elem_of_nil in Hh.
Qed.

(** C36. Over any run of the functions, at any times, the payloads with
    memories that a session gets one after the other, since its tracking was
    last cleared (its injected memories or its pending one), come three minutes
    apart or share less than four fifths of the larger set; and, if no
    synchronisation replaces the tracked ids during the run, every memory handed
    out since then still counts as injected. A clearing forgets both
    ([cleared_payload_comes_again]). *)
Theorem payloads_apart events :
  let '(st, handed) := pending_run events in
  (∀ session, all_apart (with_memories session handed))
  ∧ (forallb (λ event, negb (is_sync event)) events = true →
     ∀ h id, h ∈ handed → id ∈ pm_memory_ids (hd_payload h) → is_memory_injected (hd_session h) id st = true).
Proof.
  assert (Hrun : let '(st, handed) := pending_run events in
    tracks st handed
    ∧ (forallb (λ event, negb (is_sync event)) events = true → counts st handed)).
  { unfold pending_run. induction events as [|event events IH] using rev_ind.
    - split; [by intros session|]. intros _ h Hh. by apply elem_of_nil in Hh.
    - rewrite foldl_snoc. destruct (foldl _ _ events) as [st handed]. destruct IH as [Ht Hc].
      assert (Ht' := pending_step_tracks st handed event Ht).
      assert (Hc' := pending_step_counts st handed event).
      destruct (pending_step (st, handed) event) as [st' handed']. split; [done|].
      rewrite forallb_app, andb_true_iff. intros [Hs He]. apply Hc'; [|by apply Hc].
      cbn in He. by destruct (is_sync event). }
  destruct (pending_run events) as [st handed]. destruct Hrun as [Ht Hc].
  split; [intros session; apply Ht|]. intros Hs h id Hin Hid. unfold is_memory_injected.
  apply bool_decide_eq_true, (Hc Hs h Hin), elem_of_list_to_set, Hid.
Qed.
End pending_theorems.

(** Between two payloads, one that is kept back for its memories replaces the
    text that the next is compared with: the first text comes again after
    fifteen seconds. *)
Example suppressed_text_forgets :
  let take := TakePending in
  let second := 1000000000%Z in
  let events :=
    [("s", 0%Z, SetPending "first" 1 ["m"] None); ("s", second, take);
     ("s", 2 * second, SetPending "plain" 1 [] None); ("s", 3 * second, take);
     ("s", 4 * second, SetPending "other" 1 ["m"] None); ("s", 5 * second, take);
     ("s", 6 * second, SetPending "plain" 1 [] None); ("s", 18 * second, take)]%Z in
  pm_prompt ∘ hd_payload <$> (pending_run events).2 = ["plain"; "plain"; "first"].
Proof. vm_compute. reflexivity. Qed.

(** After a clearing the same memories come again at once. *)
Example cleared_payload_comes_again :
  let second := 1000000000%Z in
  let events :=
    [("s", 0%Z, SetPending "text" 1 ["m"] None); ("s", second, TakePending);
     ("s", 2 * second, ClearInjected);
     ("s", 2 * second, SetPending "text" 1 ["m"] None); ("s", 3 * second, TakePending)]%Z in
  pm_prompt ∘ hd_payload <$> (pending_run (firstn 2 events)).2 = ["text"]
  ∧ is_memory_injected "s" "m" (pending_run (firstn 3 events)).1 = false
  ∧ pm_prompt ∘ hd_payload <$> (pending_run events).2 = ["text"].
Proof. vm_compute. repeat split. Qed.

(** ** What the context holds *)

Lemma length_chars_app s t : length (chars (s +:+ t)) ≤ length (chars s) + length (chars t).
Proof.
  induction s as [|b s IH]; [done|]. cbn [String.append chars].
  destruct s as [|b' s]; cbn [String.append] in *.
  - destruct (starts_char t); cbn; [done|]. destruct (chars t); cbn; lia.
  - cbn [starts_char] in *. destruct (negb (is_cont b')); [cbn [length]; lia|].
    destruct (chars (String b' s)) as [|c cs] eqn:Ec; [by apply chars_nil in Ec|].
    destruct (chars (String b' (s +:+ t))) as [|d ds] eqn:Ed; [by apply chars_nil in Ed|].
    cbn in *. lia.
Qed.

Lemma length_chars_trim s : length (chars (trim s)) ≤ length (chars s).
Proof.
  rewrite chars_trim. etrans; [apply sublist_length, drop_while_end_sublist|].
  apply sublist_length, drop_while_sublist.
Qed.

Lemma length_truncate_chars s n : length (chars (truncate_chars s n)) ≤ n.
Proof.
  unfold truncate_chars. destruct (length (chars s) <=? n) eqn:E; [by apply Nat.leb_le|].
  rewrite chars_concat; [rewrite length_take; lia|].
  eapply char_list_sublist; [apply sublist_take|]. apply chars_char_list.
Qed.

Definition total_chars (pieces : list string) : nat := sum_list_with (λ s, length (chars s)) pieces.

Lemma length_chars_join pieces :
  length (chars (join nl pieces)) ≤ total_chars pieces + (length pieces - 1).
Proof.
  induction pieces as [|piece [|piece' pieces] IH]; [done|cbn; lia|].
  rewrite join_cons by done. etrans; [apply length_chars_app|].
  assert (Hnl := length_chars_app nl (join nl (piece' :: pieces))).
  change (length (chars nl)) with 1 in Hnl. cbn [total_chars sum_list_with length] in *. unfold total_chars in *.
  cbn [sum_list_with] in *. lia.
Qed.

Section context_theorems.
Context `{Json}.

#[local] Arguments Nat.ltb _ _ : simpl never.

Lemma collect_chunks_spec max_chars format_block messages chunks total :
  let all := filter (λ chunk, chunk ≠ "") (format_message_context_with format_block <$> messages) in
  total ≤ max_chars →
  ∃ picked, collect_chunks max_chars format_block messages chunks total = chunks ++ picked
  ∧ length picked ≤ length messages
  ∧ ((∃ rest, all = picked ++ rest ∧ total + total_chars picked ≤ max_chars
        ∧ (∀ chunk rest', rest = chunk :: rest' → max_chars < total + total_chars (picked ++ [chunk])))
     ∨ (∃ chunk rest, total = 0 ∧ all = chunk :: rest ∧ max_chars < length (chars chunk)
        ∧ picked = [truncate_chars chunk max_chars])).
Proof.
  revert chunks total. induction messages as [|message messages IH]; cbn; intros chunks total Ht.
  { exists []. rewrite app_nil_r. split_and!; [done..|]. left. exists []. cbn. split_and!; [done|lia|done]. }
  destruct (String.eqb_spec (format_message_context_with format_block message) "") as [E|E].
  { destruct (IH chunks total Ht) as (picked & -> & Hl & Hp). exists picked.
    rewrite decide_False by by intros ?. split_and!; [done|lia|done]. }
  set (chunk := format_message_context_with format_block message) in *.
  rewrite decide_True by done. destruct (max_chars <? total + length (chars chunk)) eqn:El.
  - apply Nat.ltb_lt in El. destruct (total =? 0) eqn:E0.
    + apply Nat.eqb_eq in E0 as ->. eexists. split; [done|]. split; [cbn; lia|]. right. eexists _, _. by split_and!.
    + exists []. rewrite app_nil_r. split_and!; [done|cbn; lia|]. left. eexists. split; [done|].
      split; [cbn; lia|]. intros ? ? [= <- _]. cbn. lia.
  - apply Nat.ltb_ge in El. assert (0 < length (chars chunk)).
    { destruct (chars chunk) eqn:Ec; [by apply chars_nil in Ec|cbn; lia]. }
    destruct (IH (chunks ++ [chunk]) (total + length (chars chunk)) El) as (picked & -> & Hl & Hp).
    exists (chunk :: picked). rewrite <- app_assoc. split_and!; [done|cbn; lia|]. left.
    destruct Hp as [(rest & Hall & Hsum & Hmax)|(? & ? & ? & _)]; [|lia].
    exists rest. split_and!; [cbn; f_equal; exact Hall|cbn in *; unfold total_chars in *; lia|].
    intros chunk' rest' Hr. specialize (Hmax chunk' rest' Hr). cbn in *. unfold total_chars in *. lia.
Qed.

(** C37. The context of a conversation is made of the texts of its last
    messages that have one, in order and as many as fit, or of the head of the
    very last when that alone is too long; at most the given number of
    characters, and a line break between two of them. *)
Theorem context_is_the_end max_messages max_chars format_block messages :
  let all := filter (λ chunk, chunk ≠ "")
    (format_message_context_with format_block <$> drop (length messages - max_messages) messages) in
  let context := format_context max_messages max_chars format_block messages in
  length (chars context) ≤ max_chars + (max_messages - 1)
  ∧ ∃ kept, context = trim (join nl kept) ∧ total_chars kept ≤ max_chars
    ∧ ((∃ before, all = before ++ kept
        ∧ ∀ chunk before', before = before' ++ [chunk] → max_chars < total_chars (chunk :: kept))
       ∨ ∃ before chunk, all = before ++ [chunk] ∧ max_chars < length (chars chunk)
         ∧ kept = [truncate_chars chunk max_chars]).
Proof.
  intros all context.
  destruct (collect_chunks_spec max_chars format_block (take max_messages (reverse messages)) [] 0)
    as (picked & Hcol & Hlen & Hp); [lia|].
  assert (Hall : filter (λ chunk, chunk ≠ "") (format_message_context_with format_block
      <$> take max_messages (reverse messages)) = reverse all).
  { unfold all. rewrite <- filter_reverse, <- fmap_reverse. do 2 f_equal. by rewrite take_reverse. }
  rewrite Hall in Hp. clear Hall.
  assert (Hkept : total_chars (reverse picked) ≤ max_chars
    ∧ ((∃ before, all = before ++ reverse picked
        ∧ ∀ chunk before', before = before' ++ [chunk] → max_chars < total_chars (chunk :: reverse picked))
       ∨ ∃ before chunk, all = before ++ [chunk] ∧ max_chars < length (chars chunk)
         ∧ reverse picked = [truncate_chars chunk max_chars])).
  { assert (Hrev : ∀ l, total_chars (reverse l) = total_chars l).
    { intros l. unfold total_chars. apply sum_list_with_reverse. }
    rewrite Hrev. destruct Hp as [(rest & Hr & Hs & Hmax)|(chunk & rest & _ & Hr & Hl & ->)].
    - split; [done|]. left. exists (reverse rest). apply (f_equal reverse) in Hr.
      rewrite reverse_involutive, reverse_app in Hr. split; [done|].
      intros chunk before' Hb. apply (f_equal reverse) in Hb.
      rewrite reverse_involutive, reverse_app in Hb. specialize (Hmax _ _ Hb).
      unfold total_chars in *. cbn. rewrite sum_list_with_app in Hmax. cbn in Hmax.
      rewrite sum_list_with_reverse. lia.
    - split; [cbn; assert (Ht := length_truncate_chars chunk max_chars); lia|]. right.
      exists (reverse rest), chunk. apply (f_equal reverse) in Hr.
      rewrite reverse_involutive, reverse_cons in Hr. done. }
  assert (Hctx : context = trim (join nl (reverse picked))).
  { unfold context, format_context. by rewrite Hcol. }
  split; [|exists (reverse picked); done]. rewrite Hctx.
  etrans; [apply length_chars_trim|]. etrans; [apply length_chars_join|].
  rewrite length_reverse. rewrite length_take in Hlen. lia.
Qed.
End context_theorems.
