(* ===== verification/Compaction.v ===== *)
(** * Context compaction ([crates/gcode-compaction-core/src/lib.rs])

    The pure part of compaction: prompts, cut-offs that keep tool calls and
    results together, token estimates, and emergency truncation. *)

From S2P Require Import Prelude Utf8 Messages.
Open Scope nat_scope.

(** ** Constants *)

Definition DEFAULT_TOKEN_BUDGET : usize := 200 * 1000.
Definition EMERGENCY_TOOL_RESULT_MAX_CHARS : usize := 4000.
Definition CHARS_PER_TOKEN : usize := 4.
Definition SYSTEM_OVERHEAD_TOKENS : usize := 18 * 1000.
Definition EMBED_MAX_CHARS_PER_MSG : usize := 512.

Definition SUMMARY_PROMPT : string :=
  "Summarize our conversation so you can continue this work later." +:+ nl
  +:+ nl
  +:+ "Write in natural language with these sections:" +:+ nl
  +:+ "- **Context:** What we're working on and why (1-2 sentences)" +:+ nl
  +:+ "- **What we did:** Key actions taken, files changed, problems solved" +:+ nl
  +:+ "- **Current state:** What works, what's broken, what's next" +:+ nl
  +:+ "- **User preferences:** Specific requirements or decisions they made" +:+ nl
  +:+ nl
  +:+ "Be concise but preserve important details. You can search the full conversation later if you need exact error messages or code snippets.".

(** ** Data *)

Record Summary := {
  su_text : string;
  su_openai_encrypted_content : option string;
  su_covers_up_to_turn : usize;
  su_original_turn_count : usize;
}.

Inductive CompactionAction :=
| NoAction
| BackgroundStarted (trigger : string)
| HardCompacted (dropped : usize).

Definition compacted_summary_text_block (summary : string) : string :=
  "## Previous Conversation Summary" +:+ nl +:+ nl +:+ summary +:+ nl +:+ nl +:+ "---"
  +:+ nl +:+ nl.

(** ** Cutting strings at characters *)

(** The loop of [truncate_str_boundary]. *)
Fixpoint boundary_below (value : string) (end_ : usize) : usize :=
  match end_ with
  | O => O
  | S previous =>
      if negb (is_char_boundary value end_) then boundary_below value previous else end_
  end.

Definition truncate_str_boundary (value : string) (max_bytes : usize) : string :=
  if String.length value <=? max_bytes then value
  else
    let end_ := max_bytes `min` String.length value in
    str_take (boundary_below value end_) value.

(** The loop of [tail_str_boundary], with the bytes that are left as fuel. *)
Fixpoint boundary_above (value : string) (fuel start : usize) : usize :=
  match fuel with
  | O => start
  | S fuel =>
      if (start <? String.length value) && negb (is_char_boundary value start)
      then boundary_above value fuel (start + 1)
      else start
  end.

Definition tail_str_boundary (value : string) (max_bytes : usize) : string :=
  if String.length value <=? max_bytes then value
  else
    let start := String.length value - max_bytes in
    str_drop (boundary_above value (String.length value - start) start) value.

Section json.
Context `{Json}.

(** ** The prompt *)

Definition role_str (role : Role) : string :=
  match role with User => "User" | Assistant => "Assistant" end.

(** What one content block adds to the conversation text. *)
Definition block_text (block : ContentBlock) : string :=
  match block with
  | Text text _ => text +:+ nl
  | ToolUse _ name input => "[Tool: " +:+ name +:+ " - " +:+ json_to_string input +:+ "]" +:+ nl
  | ToolResult _ content _ =>
      let truncated :=
        if 500 <? String.length content
        then truncate_str_boundary content 500 +:+ "... (truncated)"
        else content in
      "[Result: " +:+ truncated +:+ "]" +:+ nl
  | Reasoning _ => ""
  | Image _ _ => "[Image]" +:+ nl
  | OpenAICompaction _ => "[OpenAI native compaction]" +:+ nl
  end.

Definition message_text (text : string) (msg : Message) : string :=
  let text := text +:+ "**" +:+ role_str (msg_role msg) +:+ ":**" +:+ nl in
  let text := foldl (λ text block, text +:+ block_text block) text (msg_content msg) in
  text +:+ nl.

Definition build_compaction_conversation_text (messages : list Message)
    (existing_summary : option Summary) : string :=
  let text :=
    match existing_summary with
    | Some summary =>
        "## Previous Summary" +:+ nl +:+ nl +:+ su_text summary +:+ nl +:+ nl
        +:+ "## New Conversation" +:+ nl +:+ nl
    | None => ""
    end in
  foldl message_text text messages.

Definition truncation_marker : string :=
  nl +:+ nl +:+ "... [earlier conversation truncated to fit context window]" +:+ nl.

Definition build_compaction_prompt (messages : list Message)
    (existing_summary : option Summary) (max_prompt_chars : usize) : string :=
  let conversation_text := build_compaction_conversation_text messages existing_summary in
  let overhead := String.length SUMMARY_PROMPT + 50 in
  let conversation_text :=
    if (max_prompt_chars <? String.length conversation_text + overhead)
       && (overhead <? max_prompt_chars)
    then
      let budget := max_prompt_chars - overhead in
      truncate_str_boundary conversation_text budget +:+ truncation_marker
    else conversation_text in
  conversation_text +:+ nl +:+ nl +:+ "---" +:+ nl +:+ nl +:+ SUMMARY_PROMPT.

(** ** Safe cut-offs *)

Record ToolIds := {
  available_tool_ids : gset string;
  missing_tool_ids : gset string;
}.

(** The body of both loops over content blocks. *)
Definition track_block (ids : ToolIds) (block : ContentBlock) : ToolIds :=
  match block with
  | ToolUse id _ _ => {|
      available_tool_ids := {[id]} ∪ available_tool_ids ids;
      missing_tool_ids := missing_tool_ids ids ∖ {[id]} |}
  | ToolResult tool_use_id _ _ =>
      if decide (tool_use_id ∈ available_tool_ids ids) then ids
      else {|
        available_tool_ids := available_tool_ids ids;
        missing_tool_ids := {[tool_use_id]} ∪ missing_tool_ids ids |}
  | _ => ids
  end.

Definition track_message (ids : ToolIds) (msg : Message) : ToolIds :=
  foldl track_block ids (msg_content msg).

(** The walk backward over the messages before [cutoff]. *)
Fixpoint walk_back (messages : list Message) (ids : ToolIds) (cutoff : usize) : usize :=
  match cutoff with
  | O => 0
  | S idx =>
      match messages !! idx with
      | Some msg =>
          let ids := track_message ids msg in
          if decide (missing_tool_ids ids = ∅) then idx else walk_back messages ids idx
      | None => 0
      end
  end.

Definition safe_compaction_cutoff (messages : list Message) (initial_cutoff : usize)
    : usize :=
  let cutoff := initial_cutoff `min` length messages in
  let ids := foldl track_message
    {| available_tool_ids := ∅; missing_tool_ids := ∅ |} (drop cutoff messages) in
  if decide (missing_tool_ids ids = ∅) then cutoff
  else walk_back messages ids cutoff.

(** ** Sizes *)

Definition block_char_count (block : ContentBlock) : usize :=
  match block with
  | Text text _ => String.length text
  | Reasoning text => String.length text
  | ToolUse _ _ input => String.length (json_to_string input) + 50
  | ToolResult _ content _ => String.length content + 20
  | Image _ data => String.length data
  | OpenAICompaction encrypted_content => String.length encrypted_content
  end.

Definition content_char_count (content : list ContentBlock) : usize :=
  sum_list_with block_char_count content.

Definition message_char_count (msg : Message) : usize := content_char_count (msg_content msg).

Definition summary_payload_char_count (summary : Summary) : usize :=
  match su_openai_encrypted_content summary with
  | Some value => String.length value
  | None => String.length (su_text summary)
  end.

Definition estimate_compaction_tokens_from_chars (total_chars token_budget : usize)
    : usize :=
  let msg_tokens := total_chars / CHARS_PER_TOKEN in
  let overhead :=
    if DEFAULT_TOKEN_BUDGET / 2 <=? token_budget then SYSTEM_OVERHEAD_TOKENS else 0 in
  msg_tokens + overhead.

Definition estimate_compaction_tokens (summary : option Summary)
    (active_message_chars token_budget : usize) : usize :=
  let summary_chars := from_option summary_payload_char_count 0 summary in
  estimate_compaction_tokens_from_chars (summary_chars + active_message_chars) token_budget.

(** ** Semantic excerpts *)

Definition push_semantic_excerpt (target source : string) (max_chars : usize) : string :=
  if source =s "" then target
  else
    let target := if negb (target =s "") then target +:+ " " else target in
    target +:+ str_concat (take max_chars (chars source)).

Definition goal_block (text : string) (block : ContentBlock) : string :=
  match block with
  | Text block_text _ => push_semantic_excerpt text block_text 200
  | ToolResult _ content _ => push_semantic_excerpt text content 100
  | _ => text
  end.

Definition semantic_goal_text (messages : list Message) : string :=
  foldl (λ text msg, foldl goal_block text (msg_content msg)) "" messages.

Definition semantic_message_text (msg : Message) : string :=
  foldl (λ text block,
    match block with
    | Text block_text _ => push_semantic_excerpt text block_text EMBED_MAX_CHARS_PER_MSG
    | _ => text
    end) "" (msg_content msg).

(** ** Emergency truncation *)

Definition emergency_truncated_tool_result (content : string) (max_chars : usize)
    : string :=
  let original_len := String.length content in
  let keep_head := max_chars / 2 in
  let keep_tail := max_chars / 4 in
  let head := truncate_str_boundary content keep_head in
  let tail := tail_str_boundary content keep_tail in
  let truncated_len := original_len - (String.length head + String.length tail) in
  head +:+ nl +:+ nl +:+ "... [" +:+ pretty truncated_len
  +:+ " chars truncated for context recovery] ..." +:+ nl +:+ nl +:+ tail.

(** One block: whether it was truncated, and what it becomes. *)
Definition truncate_block (max_chars : usize) (block : ContentBlock) : ContentBlock * usize :=
  match block with
  | ToolResult tool_use_id content is_error =>
      if max_chars <? String.length content then
        (ToolResult tool_use_id (emergency_truncated_tool_result content max_chars) is_error, 1)
      else (block, 0)
  | _ => (block, 0)
  end.

Definition truncate_message (max_chars : usize) (msg : Message) : Message * usize :=
  let blocks := truncate_block max_chars <$> msg_content msg in
  ({| msg_role := msg_role msg; msg_content := blocks.*1;
      msg_timestamp := msg_timestamp msg;
      msg_tool_duration_ms := msg_tool_duration_ms msg |}, sum_list blocks.*2).

Definition emergency_truncate_tool_results (messages : list Message) (max_chars : usize)
    : list Message * usize :=
  let results := truncate_message max_chars <$> messages in
  (results.*1, sum_list results.*2).
End json.

(** ** The emergency summary *)

Definition ends_or_contains_source_suffix (word : string) : bool :=
  str_contains ".rs" word || str_contains ".ts" word || str_contains ".py" word
  || str_contains ".toml" word || str_contains ".json" word
  || starts_with "src/" word || starts_with "./" word.

Definition looks_like_file_reference (word : string) : bool :=
  (str_contains "/" word || str_contains "." word)
  && (3 <? String.length word)
  && (String.length word <? 120)
  && negb (starts_with "http" word)
  && ends_or_contains_source_suffix word.

(** [char::is_alphanumeric] needs the tables of Unicode and is a parameter. *)
Class Alphanumeric := char_is_alphanumeric : string → bool.

(** The ASCII part of it, to run the model. *)
#[export] Instance alphanumeric_ascii : Alphanumeric :=
  λ c, is_tool_id_char c && negb (c =s "_") && negb (c =s "-").

Section summary.
Context `{Json, Alphanumeric}.

Definition clean_file_reference (word : string) : string :=
  let junk c := negb (char_is_alphanumeric c) && negb (c =s "/") && negb (c =s ".")
                && negb (c =s "_") && negb (c =s "-") in
  str_concat (drop_while_end junk (drop_while junk (chars word))).

Definition extract_file_mentions (text : string) (file_mentions : list string)
    : list string :=
  foldl (λ file_mentions word,
    if looks_like_file_reference word then
      let cleaned := clean_file_reference word in
      if negb (cleaned =s "") then file_mentions ++ [cleaned] else file_mentions
    else file_mentions) file_mentions (split_whitespace text).

Definition hint_block (hints : gset string * list string) (block : ContentBlock)
    : gset string * list string :=
  let '(tool_names, file_mentions) := hints in
  match block with
  | ToolUse _ name _ => ({[name]} ∪ tool_names, file_mentions)
  | Text text _ => (tool_names, extract_file_mentions text file_mentions)
  | _ => hints
  end.

Definition collect_emergency_summary_hints (hints : gset string * list string)
    (msg : Message) : gset string * list string :=
  foldl hint_block hints (msg_content msg).

(** [Vec::dedup]: of equal neighbours the first stays. *)
Fixpoint dedup_from (previous : string) (l : list string) : list string :=
  match l with
  | [] => []
  | x :: l' => if x =s previous then dedup_from previous l' else x :: dedup_from x l'
  end.

Definition dedup (l : list string) : list string :=
  match l with [] => [] | x :: l' => x :: dedup_from x l' end.

Definition build_emergency_summary_text `{HashOrder} (existing_summary : option string)
    (dropped_count : usize) (pre_tokens : u64) (token_budget : usize)
    (dropped_messages : list Message) : string :=
  let summary_parts :=
    match existing_summary with
    | Some existing => if negb (existing =s "") then [existing] else []
    | None => []
    end in
  let summary_parts := summary_parts ++
    ["**[Emergency compaction]**: " +:+ pretty dropped_count
     +:+ " messages were dropped to recover from context overflow. The conversation had ~"
     +:+ pretty (pre_tokens / 1000)%Z +:+ "k tokens which exceeded the "
     +:+ pretty (token_budget / 1000) +:+ "k limit."] in
  let '(tool_names, file_mentions) :=
    foldl collect_emergency_summary_hints (∅, []) dropped_messages in
  let summary_parts :=
    if decide (tool_names ≠ ∅) then
      let tools := sort_strings (hash_elements tool_names) in
      summary_parts ++ ["Tools used: " +:+ join ", " tools]
    else summary_parts in
  let file_mentions := dedup (sort_strings file_mentions) in
  let summary_parts :=
    match file_mentions with
    | [] => summary_parts
    | _ => summary_parts ++ ["Files referenced: " +:+ join ", " (take 30 file_mentions)]
    end in
  join (nl +:+ nl) summary_parts.
End summary.
