(* ===== verification/CompactionTheorems.v ===== *)
(** * Properties of compaction *)

From S2P Require Import Prelude Utf8 Messages Compaction.
Open Scope nat_scope.

(** ** Cuts at character boundaries *)

Lemma boundary_zero value : is_char_boundary value 0 = true.
Proof. done. Qed.

Lemma boundary_length value : is_char_boundary value (String.length value) = true.
Proof.
  unfold is_char_boundary. rewrite Nat.leb_refl, Nat.eqb_refl. by destruct (_ =? 0).
Qed.

Lemma boundary_below_spec value n :
  boundary_below value n ≤ n ∧ is_char_boundary value (boundary_below value n) = true
  ∧ ∀ i, boundary_below value n < i → i ≤ n → is_char_boundary value i = false.
Proof.
  induction n as [|n (H1 & H2 & H3)]; cbn [boundary_below].
  { split_and!; [done|done|lia]. }
  destruct (is_char_boundary value (S n)) eqn:E; cbn [negb].
  - split_and!; [done|done|lia].
  - split_and!; [lia|done|]. intros i Hi Hle. destruct (decide (i = S n)) as [->|]; [done|].
    apply H3; lia.
Qed.

Lemma boundary_above_spec value fuel start :
  start + fuel = String.length value →
  let i := boundary_above value fuel start in
  start ≤ i ≤ String.length value ∧ is_char_boundary value i = true
  ∧ ∀ j, start ≤ j → j < i → is_char_boundary value j = false.
Proof.
  revert start. induction fuel as [|fuel IH]; intros start Hf; cbn [boundary_above].
  - cbn zeta. split_and!; [lia|lia| |lia]. replace start with (String.length value) by lia.
    apply boundary_length.
  - cbn zeta. destruct (is_char_boundary value start) eqn:E.
    + rewrite andb_false_r. split_and!; [lia|lia|done|lia].
    + rewrite (proj2 (Nat.ltb_lt start (String.length value))) by lia. cbn [negb andb].
      destruct (IH (start + 1) ltac:(lia)) as (H1 & H2 & H3).
      split_and!; [lia|lia|done|]. intros j Hj Hlt.
      destruct (decide (j = start)) as [->|]; [done|]. apply H3; lia.
Qed.

Lemma str_drop_take_length i value :
  i ≤ String.length value → String.length (str_take i value) = i.
Proof. rewrite str_length_take. lia. Qed.

(** The two cuts keep as much of the text as fits in [max_bytes] bytes
    without splitting a character: the head ends and the tail begins at the
    boundary nearest to the limit, so the cut never fails, and text that fits
    is kept whole. *)
Theorem boundary_cuts_correct value max_bytes :
  (∃ i, truncate_str_boundary value max_bytes = str_take i value
    ∧ i ≤ String.length value ∧ is_char_boundary value i = true
    ∧ i ≤ max_bytes
    ∧ ∀ j, j ≤ String.length value → j ≤ max_bytes → is_char_boundary value j = true → j ≤ i)
  ∧ (∃ i, tail_str_boundary value max_bytes = str_drop i value
    ∧ i ≤ String.length value ∧ is_char_boundary value i = true
    ∧ String.length value - i ≤ max_bytes
    ∧ ∀ j, String.length value - j ≤ max_bytes → is_char_boundary value j = true → i ≤ j).
Proof.
  unfold truncate_str_boundary, tail_str_boundary.
  destruct (Nat.leb_spec (String.length value) max_bytes) as [Hl|Hl]; split.
  - exists (String.length value). split_and!; [by rewrite str_take_all|done|apply boundary_length|done|done].
  - exists 0. split_and!; [done|lia|done|lia|lia].
  - destruct (boundary_below_spec value (max_bytes `min` String.length value)) as (H1 & H2 & H3).
    eexists. split_and!; [done|lia|done|lia|]. intros j Hj Hm Hb.
    destruct (decide (j ≤ boundary_below value (max_bytes `min` String.length value))); [done|].
    rewrite H3 in Hb; [done|lia|lia].
  - destruct (boundary_above_spec value (String.length value - (String.length value - max_bytes))
      (String.length value - max_bytes) ltac:(lia)) as (H1 & H2 & H3).
    eexists. split_and!; [done|lia|done|lia|]. intros j Hm Hb.
    destruct (decide (boundary_above value (String.length value - (String.length value - max_bytes))
      (String.length value - max_bytes) ≤ j)); [done|].
    rewrite H3 in Hb; [done|lia|lia].
Qed.

Lemma truncate_length value max_bytes :
  String.length (truncate_str_boundary value max_bytes) ≤ max_bytes.
Proof.
  unfold truncate_str_boundary. destruct (Nat.leb_spec (String.length value) max_bytes); [done|].
  destruct (boundary_below_spec value (max_bytes `min` String.length value)) as (Hle & _ & _).
  rewrite str_length_take. lia.
Qed.

Lemma tail_length value max_bytes :
  String.length (tail_str_boundary value max_bytes) ≤ max_bytes.
Proof.
  unfold tail_str_boundary. destruct (Nat.leb_spec (String.length value) max_bytes); [done|].
  destruct (boundary_above_spec value (String.length value - (String.length value - max_bytes))
    (String.length value - max_bytes) ltac:(lia)) as (Hle & _ & _).
  rewrite str_length_drop. lia.
Qed.

Section json.
Context `{Json}.

(** ** Safe cut-offs *)

(** Every tool result among the messages has its tool call among them. *)
Definition tool_closed (messages : list Message) : Prop :=
  ∀ m id content e, m ∈ messages → ToolResult id content e ∈ msg_content m →
    ∃ m' name input, m' ∈ messages ∧ ToolUse id name input ∈ msg_content m'.

Definition uses_tool (id : string) (block : ContentBlock) : Prop :=
  ∃ name input, block = ToolUse id name input.
Definition has_result (id : string) (block : ContentBlock) : Prop :=
  ∃ content e, block = ToolResult id content e.

(** What the two sets mean for the blocks that were scanned. *)
Definition tool_ids_of (ids : ToolIds) (blocks : list ContentBlock) : Prop :=
  ∀ id, (id ∈ available_tool_ids ids ↔ ∃ b, b ∈ blocks ∧ uses_tool id b)
    ∧ (id ∈ missing_tool_ids ids
       ↔ (∃ b, b ∈ blocks ∧ has_result id b) ∧ ¬ ∃ b, b ∈ blocks ∧ uses_tool id b).

Lemma exists_snoc {A} (P : A → Prop) l x :
  (∃ b, b ∈ l ++ [x] ∧ P b) ↔ (∃ b, b ∈ l ∧ P b) ∨ P x.
Proof. setoid_rewrite elem_of_app. setoid_rewrite list_elem_of_singleton. naive_solver. Qed.

Lemma track_block_spec ids blocks block :
  tool_ids_of ids blocks → tool_ids_of (track_block ids block) (blocks ++ [block]).
Proof.
  intros Hids id. rewrite !exists_snoc. destruct (Hids id) as [Ha Hm].
  assert (∀ b, (∀ i n j, b ≠ ToolUse i n j) → ¬ uses_tool id b) as Hnu.
  { intros b Hb (n & j & ->). by eapply Hb. }
  assert (∀ b, (∀ i c e, b ≠ ToolResult i c e) → ¬ has_result id b) as Hnr.
  { intros b Hb (c & e & ->). by eapply Hb. }
  assert (∀ b, (∀ i n j, b ≠ ToolUse i n j) → (∀ i c e, b ≠ ToolResult i c e) →
    (id ∈ available_tool_ids ids ↔ (∃ b, b ∈ blocks ∧ uses_tool id b) ∨ uses_tool id b)
    ∧ (id ∈ missing_tool_ids ids
       ↔ ((∃ b, b ∈ blocks ∧ has_result id b) ∨ has_result id b)
         ∧ ¬ ((∃ b, b ∈ blocks ∧ uses_tool id b) ∨ uses_tool id b))) as Hneutral.
  { intros b Hb1%Hnu Hb2%Hnr. rewrite Ha, Hm. tauto. }
  destruct block as [t cc|t|i n j|i c e|mt d|ec]; cbn [track_block];
    try (apply Hneutral; intros *; discriminate).
  - cbn [available_tool_ids missing_tool_ids].
    rewrite elem_of_union, elem_of_difference, elem_of_singleton, Ha, Hm.
    assert (uses_tool id (ToolUse i n j) ↔ id = i) as ->.
    { split; [by intros (? & ? & [= -> -> ->])|intros ->; by eexists _, _]. }
    pose proof (Hnr (ToolUse i n j) ltac:(intros *; discriminate)). tauto.
  - assert (has_result id (ToolResult i c e) ↔ id = i) as Hr.
    { split; [by intros (? & ? & [= -> -> ->])|intros ->; by eexists _, _]. }
    pose proof (Hnu (ToolResult i c e) ltac:(intros *; discriminate)). rewrite Hr.
    case_decide as Ed; cbn [available_tool_ids missing_tool_ids].
    + rewrite Ha, Hm. split; [tauto|]. split; [tauto|]. intros [[?| ->] Hno]; [tauto|].
      destruct Hno. left. by apply Ha.
    + rewrite elem_of_union, elem_of_singleton, Ha, Hm. split; [tauto|]. split; [|tauto].
      intros [->|]; [|tauto]. rewrite Ha in Ed. tauto.
Qed.

Lemma track_message_spec ids blocks msg :
  tool_ids_of ids blocks → tool_ids_of (track_message ids msg) (blocks ++ msg_content msg).
Proof.
  unfold track_message. revert ids blocks.
  induction (msg_content msg) as [|b bs IH]; intros ids blocks Hids; [by rewrite app_nil_r|].
  cbn [foldl]. replace (blocks ++ b :: bs) with ((blocks ++ [b]) ++ bs) by by rewrite <- app_assoc.
  by apply IH, track_block_spec.
Qed.

(** The sets describe blocks up to their order. *)
Lemma tool_ids_of_ext ids bs1 bs2 :
  (∀ b, b ∈ bs1 ↔ b ∈ bs2) → tool_ids_of ids bs1 → tool_ids_of ids bs2.
Proof. intros E Hids id. setoid_rewrite <- E. apply Hids. Qed.

Definition blocks_of (messages : list Message) : list ContentBlock :=
  messages ≫= msg_content.

Lemma track_messages_spec ids blocks messages :
  tool_ids_of ids blocks →
  tool_ids_of (foldl track_message ids messages) (blocks ++ blocks_of messages).
Proof.
  revert ids blocks. induction messages as [|m ms IH]; intros ids blocks Hids;
    [by rewrite app_nil_r|].
  cbn [foldl]. unfold blocks_of. rewrite bind_cons, app_assoc.
  by apply IH, track_message_spec.
Qed.

Lemma tool_closed_missing ids messages :
  tool_ids_of ids (blocks_of messages) →
  tool_closed messages ↔ missing_tool_ids ids = ∅.
Proof.
  intros Hids. unfold blocks_of in Hids.
  assert (∀ b, b ∈ messages ≫= msg_content ↔ ∃ m, m ∈ messages ∧ b ∈ msg_content m) as Hin.
  { intros b. rewrite list_elem_of_bind. naive_solver. }
  split.
  - intros Hc. apply set_eq. intros id. split; [|set_solver]. intros Hm.
    apply Hids in Hm as [(b & Hb & c & e & ->) Hno].
    apply Hin in Hb as (m & Hm & Hb). destruct (Hc m id c e Hm Hb) as (m' & n & j & Hm' & Hb').
    destruct Hno. exists (ToolUse id n j). split; [apply Hin; eauto|by eexists _, _].
  - intros Hemp m id c e Hm Hb.
    destruct (decide (id ∈ available_tool_ids ids)) as [Ha|Ha].
    + apply Hids in Ha as (b & Hb' & n & j & ->). apply Hin in Hb' as (m' & ? & ?). eauto.
    + assert (id ∈ missing_tool_ids ids) as Hmiss; [|rewrite Hemp in Hmiss; set_solver].
      apply Hids. rewrite <- (proj1 (Hids id)). split; [|done].
      exists (ToolResult id c e). split; [apply Hin; eauto|by eexists _, _].
Qed.

Lemma tool_ids_empty : tool_ids_of {| available_tool_ids := ∅; missing_tool_ids := ∅ |} [].
Proof. intros id. cbn. set_solver. Qed.

Lemma drop_snoc_blocks (messages : list Message) idx msg b :
  messages !! idx = Some msg →
  b ∈ blocks_of (drop (S idx) messages) ++ msg_content msg ↔ b ∈ blocks_of (drop idx messages).
Proof.
  intros Hm. rewrite (drop_S _ _ _ Hm). unfold blocks_of. rewrite bind_cons, !elem_of_app. tauto.
Qed.

Lemma walk_back_spec messages ids cutoff :
  cutoff ≤ length messages →
  tool_ids_of ids (blocks_of (drop cutoff messages)) →
  let c := walk_back messages ids cutoff in
  (c = 0 ∨ tool_closed (drop c messages) ∧ c < cutoff)
  ∧ ∀ c', c < c' → c' < cutoff → ¬ tool_closed (drop c' messages).
Proof.
  revert ids. induction cutoff as [|idx IH]; intros ids Hle Hids; cbn zeta; cbn [walk_back].
  { split; [by left|lia]. }
  destruct (lookup_lt_is_Some_2 messages idx) as [msg Hm]; [lia|]. rewrite Hm.
  assert (tool_ids_of (track_message ids msg) (blocks_of (drop idx messages))) as Hids'.
  { eapply tool_ids_of_ext; [|by apply track_message_spec]. intros b. by apply drop_snoc_blocks. }
  case_decide as E.
  - split; [right; split; [by eapply tool_closed_missing|lia]|lia].
  - destruct (IH _ ltac:(lia) Hids') as [H1 H2]. split.
    + destruct H1 as [|[? ?]]; [by left|right; split; [done|lia]].
    + intros c' Hc Hlt. destruct (decide (c' = idx)) as [->|]; [|apply H2; lia].
      by rewrite (tool_closed_missing _ _ Hids').
Qed.

(** The part of it that other components use. *)
Lemma safe_cutoff_safe messages initial_cutoff :
  safe_compaction_cutoff messages initial_cutoff ≤ initial_cutoff `min` length messages
  ∧ (safe_compaction_cutoff messages initial_cutoff = 0
     ∨ tool_closed (drop (safe_compaction_cutoff messages initial_cutoff) messages)).
Proof.
  unfold safe_compaction_cutoff. set (cutoff := initial_cutoff `min` length messages).
  pose proof (track_messages_spec _ _ (drop cutoff messages) tool_ids_empty) as Hids.
  rewrite app_nil_l in Hids. set (ids := foldl _ _ _) in *. case_decide as E.
  - split; [done|right; by eapply tool_closed_missing].
  - destruct (walk_back_spec messages ids cutoff ltac:(lia) Hids) as [[->|[? ?]] _];
      (split; [lia|tauto]).
Qed.

(** C6. The cut-off never separates a kept tool result from its call: the
    messages from it on are closed under the calls of their results, or nothing
    is compacted; and it is the latest such cut-off that is not after the one
    asked for, so no more is kept than needed. *)
Theorem safe_compaction_cutoff_correct messages initial_cutoff :
  let cutoff := safe_compaction_cutoff messages initial_cutoff in
  cutoff ≤ initial_cutoff `min` length messages
  ∧ (cutoff = 0 ∨ tool_closed (drop cutoff messages))
  ∧ ∀ later, cutoff < later → later ≤ initial_cutoff `min` length messages →
      ¬ tool_closed (drop later messages).
Proof.
  cbn zeta. destruct (safe_cutoff_safe messages initial_cutoff) as [H1 H2].
  split_and!; [done..|]. unfold safe_compaction_cutoff.
  set (cutoff := initial_cutoff `min` length messages).
  pose proof (track_messages_spec _ _ (drop cutoff messages) tool_ids_empty) as Hids.
  rewrite app_nil_l in Hids. set (ids := foldl _ _ _) in *. case_decide as E; [lia|].
  destruct (walk_back_spec messages ids cutoff ltac:(lia) Hids) as [_ Hlater].
  intros later Hlt Hle. destruct (decide (later = cutoff)) as [->|]; [|apply Hlater; lia].
  by rewrite (tool_closed_missing _ _ Hids).
Qed.

(** ** Emergency truncation *)

Lemma pretty_N_go_length k (x : N) s :
  (x < 10 ^ N.of_nat k)%N → String.length (pretty_N_go x s) ≤ k + String.length s.
Proof.
  revert x s. induction k as [|k IH]; intros x s Hx.
  - assert (x = 0%N) as -> by (cbn in Hx; lia). by rewrite pretty_N_go_0.
  - destruct (decide (x = 0%N)) as [->|Hne]; [rewrite pretty_N_go_0; lia|].
    rewrite pretty_N_go_step by lia. etrans; [apply IH|simpl; lia].
    apply N.Div0.div_lt_upper_bound. rewrite Nat2N.inj_succ, N.pow_succ_r' in Hx. lia.
Qed.

Lemma pretty_nat_length k n :
  1 ≤ k → (N.of_nat n < 10 ^ N.of_nat k)%N → String.length (pretty n) ≤ k.
Proof.
  intros Hk Hn. unfold pretty, pretty_nat, pretty, pretty_N.
  case_decide; [simpl; lia|]. etrans; [by apply (pretty_N_go_length k)|]. simpl. lia.
Qed.

Lemma str_take_drop_middle i j s :
  i ≤ j → s = str_take i s +:+ str_take (j - i) (str_drop i s) +:+ str_drop j s.
Proof.
  revert j s. induction i as [|i IH]; intros j s Hij.
  - rewrite Nat.sub_0_r. cbn [str_take str_drop]. exact (eq_sym (str_take_drop j s)).
  - destruct j as [|j]; [lia|]. destruct s as [|b s]; [by destruct (S j - S i)|].
    cbn [str_take str_drop]. change (S j - S i) with (j - i).
    change (String b (str_take i s) +:+ ?t) with (String b (str_take i s +:+ t)).
    f_equal. apply IH. lia.
Qed.

(** What truncation keeps: a head, a tail, and the number of bytes between. *)
Lemma emergency_truncated_spec content max_chars :
  max_chars < String.length content →
  ∃ head dropped tail,
    content = head +:+ dropped +:+ tail
    ∧ emergency_truncated_tool_result content max_chars
      = head +:+ nl +:+ nl +:+ "... [" +:+ pretty (String.length dropped)
        +:+ " chars truncated for context recovery] ..." +:+ nl +:+ nl +:+ tail
    ∧ String.length head ≤ max_chars / 2 ∧ String.length tail ≤ max_chars / 4.
Proof.
  intros Hlen.
  assert (max_chars / 2 + max_chars / 4 ≤ max_chars) as Hsum.
  { pose proof (Nat.Div0.mul_div_le max_chars 2). pose proof (Nat.Div0.mul_div_le max_chars 4). lia. }
  pose proof (truncate_length content (max_chars / 2)) as Hh.
  pose proof (tail_length content (max_chars / 4)) as Ht.
  unfold emergency_truncated_tool_result. revert Hh Ht.
  unfold truncate_str_boundary, tail_str_boundary.
  rewrite !(proj2 (Nat.leb_gt _ _)) by lia.
  set (i := boundary_below _ _). set (j := boundary_above _ _ _). intros Hh Ht.
  assert (i ≤ max_chars / 2) as Hi.
  { destruct (boundary_below_spec content ((max_chars / 2) `min` String.length content)) as (? & _ & _).
    subst i. lia. }
  assert (String.length content - max_chars / 4 ≤ j) as Hj.
  { destruct (boundary_above_spec content
      (String.length content - (String.length content - max_chars / 4))
      (String.length content - max_chars / 4) ltac:(lia)) as ([? _] & _ & _). done. }
  exists (str_take i content), (str_take (j - i) (str_drop i content)), (str_drop j content).
  split_and!; [apply str_take_drop_middle; lia| |done|done].
  do 5 f_equal. rewrite !str_length_take, !str_length_drop. f_equal. lia.
Qed.

Lemma truncated_result_length content max_chars :
  max_chars < String.length content → (Z.of_nat (String.length content) < 2 ^ 64)%Z →
  284 ≤ max_chars →
  String.length (emergency_truncated_tool_result content max_chars) ≤ max_chars.
Proof.
  intros Hlen Hbig Hmax.
  destruct (emergency_truncated_spec content max_chars Hlen) as (h & d & t & E & -> & Hh & Ht).
  assert (String.length (pretty (String.length d)) ≤ 20) as Hp.
  { apply pretty_nat_length; [lia|]. apply (f_equal String.length) in E.
    rewrite !str_length_app in E. change (10 ^ N.of_nat 20)%N with 100000000000000000000%N.
    change (2 ^ 64)%Z with 18446744073709551616%Z in Hbig. lia. }
  rewrite !str_length_app.
  change (String.length nl) with 1. change (String.length "... [") with 5.
  change (String.length " chars truncated for context recovery] ...") with 42.
  pose proof (Nat.Div0.mul_div_le max_chars 2). pose proof (Nat.Div0.mul_div_le max_chars 4). lia.
Qed.

(** What happens to one block. *)
Definition block_truncated (max_chars : usize) (block block' : ContentBlock) : Prop :=
  match block with
  | ToolResult id content is_error =>
      if decide (max_chars < String.length content) then
        ∃ head dropped tail,
          content = head +:+ dropped +:+ tail
          ∧ block' = ToolResult id
              (head +:+ nl +:+ nl +:+ "... [" +:+ pretty (String.length dropped)
               +:+ " chars truncated for context recovery] ..." +:+ nl +:+ nl +:+ tail) is_error
      else block' = block
  | _ => block' = block
  end.

Definition oversized (max_chars : usize) (block : ContentBlock) : bool :=
  match block with
  | ToolResult _ content _ => max_chars <? String.length content
  | _ => false
  end.

Lemma truncate_block_spec max_chars block :
  block_truncated max_chars block (truncate_block max_chars block).1
  ∧ (truncate_block max_chars block).2 = (if oversized max_chars block then 1 else 0).
Proof.
  destruct block as [| | |id content e| |]; try done. cbn [truncate_block block_truncated oversized].
  destruct (Nat.ltb_spec max_chars (String.length content)) as [Hl|Hl].
  - rewrite decide_True by done. split; [|done]. cbn [fst].
    destruct (emergency_truncated_spec content max_chars Hl) as (h & d & t & E & -> & _ & _).
    by exists h, d, t.
  - rewrite decide_False by lia. done.
Qed.

Lemma truncate_block_id max_chars block :
  oversized max_chars block = false → truncate_block max_chars block = (block, 0).
Proof. destruct block; try done. cbn [oversized truncate_block]. by intros ->. Qed.

(** Blocks that fit in a 64-bit address space, as every block does. *)
Definition addressable (block : ContentBlock) : Prop :=
  match block with
  | ToolResult _ content _ => (Z.of_nat (String.length content) < 2 ^ 64)%Z
  | _ => True
  end.

Lemma truncate_block_fits max_chars block :
  addressable block → 284 ≤ max_chars →
  oversized max_chars (truncate_block max_chars block).1 = false.
Proof.
  intros Ha Hmax. destruct block as [| | |id content e| |]; try done. cbn [truncate_block].
  destruct (Nat.ltb_spec max_chars (String.length content)) as [Hl|Hl]; cbn [fst oversized].
  - apply Nat.ltb_ge. by apply truncated_result_length.
  - by apply Nat.ltb_ge.
Qed.

Lemma sum_list_fmap {A} (f : A → nat) l : sum_list (f <$> l) = sum_list_with f l.
Proof. induction l as [|x l IH]; [done|]. rewrite fmap_cons. simpl. by rewrite IH. Qed.

Lemma sum_list_zeros {A} (l : list A) : sum_list_with (snd ∘ (λ x, (x, 0))) l = 0.
Proof. by induction l. Qed.

Lemma truncate_message_spec max_chars msg :
  let msg' := (truncate_message max_chars msg).1 in
  msg_role msg' = msg_role msg ∧ msg_timestamp msg' = msg_timestamp msg
  ∧ msg_tool_duration_ms msg' = msg_tool_duration_ms msg
  ∧ Forall2 (block_truncated max_chars) (msg_content msg) (msg_content msg')
  ∧ (truncate_message max_chars msg).2
    = length (filter (λ b, oversized max_chars b = true) (msg_content msg)).
Proof.
  cbn. split_and!; [done..| |].
  - rewrite <- list_fmap_compose. apply Forall2_fmap_r, Forall_Forall2_diag, Forall_true.
    intros b. apply truncate_block_spec.
  - rewrite <- list_fmap_compose, sum_list_fmap.
    induction (msg_content msg) as [|b bs IH]; [done|]. rewrite filter_cons. simpl.
    rewrite (proj2 (truncate_block_spec max_chars b)), IH.
    case_decide as E; [by rewrite E|]. apply not_true_iff_false in E. by rewrite E.
Qed.

Lemma truncate_message_fits max_chars msg :
  Forall addressable (msg_content msg) → 284 ≤ max_chars →
  truncate_message max_chars (truncate_message max_chars msg).1
  = ((truncate_message max_chars msg).1, 0).
Proof.
  intros Ha Hmax.
  assert (truncate_block max_chars <$> (truncate_block max_chars <$> msg_content msg).*1
    = (λ b, (b, 0)) <$> (truncate_block max_chars <$> msg_content msg).*1) as E.
  { apply list_fmap_ext. intros i b Hb. apply truncate_block_id.
    apply list_elem_of_lookup_2, list_elem_of_fmap in Hb as (p & -> & Hp).
    apply list_elem_of_fmap in Hp as (b0 & -> & Hb0).
    apply truncate_block_fits; [|done]. rewrite Forall_forall in Ha. by apply Ha. }
  unfold truncate_message at 1. cbn [msg_content truncate_message fst].
  rewrite E. f_equal.
  - f_equal. rewrite <- list_fmap_compose. apply list_fmap_id.
  - rewrite <- list_fmap_compose, sum_list_fmap. apply sum_list_zeros.
Qed.

(** Emergency truncation replaces exactly the tool results longer than
    the limit, and reports how many; what it keeps of one is a head and a tail,
    with the number of bytes left out in between; nothing else in the
    conversation changes. From a limit of 284 bytes on (the program uses 4000)
    the shortened results fit, so truncating again changes nothing. *)
Theorem emergency_truncation_correct messages max_chars :
  (∀ m, m ∈ messages → Forall addressable (msg_content m)) → 284 ≤ max_chars →
  let '(messages', count) := emergency_truncate_tool_results messages max_chars in
  Forall2 (λ m m',
    msg_role m' = msg_role m ∧ msg_timestamp m' = msg_timestamp m
    ∧ msg_tool_duration_ms m' = msg_tool_duration_ms m
    ∧ Forall2 (block_truncated max_chars) (msg_content m) (msg_content m')) messages messages'
  ∧ count = length (filter (λ b, oversized max_chars b = true) (blocks_of messages))
  ∧ emergency_truncate_tool_results messages' max_chars = (messages', 0).
Proof.
  intros Ha Hmax. unfold emergency_truncate_tool_results. split_and!.
  - rewrite <- list_fmap_compose. apply Forall2_fmap_r, Forall_Forall2_diag, Forall_true.
    intros m. destruct (truncate_message_spec max_chars m) as (? & ? & ? & ? & _). done.
  - rewrite <- list_fmap_compose, sum_list_fmap. unfold blocks_of.
    clear Ha. induction messages as [|m ms IH]; [done|].
    rewrite bind_cons, filter_app, length_app. simpl. rewrite IH. f_equal.
    apply (truncate_message_spec max_chars m).
  - assert (truncate_message max_chars <$> (truncate_message max_chars <$> messages).*1
      = (λ m, (m, 0)) <$> (truncate_message max_chars <$> messages).*1) as E.
    { apply list_fmap_ext. intros i m Hm.
      apply list_elem_of_lookup_2, list_elem_of_fmap in Hm as (p & -> & Hp).
      apply list_elem_of_fmap in Hp as (m0 & -> & Hm0). apply truncate_message_fits; auto. }
    rewrite E. f_equal.
    + rewrite <- list_fmap_compose. apply list_fmap_id.
    + rewrite <- list_fmap_compose, sum_list_fmap. apply sum_list_zeros.
Qed.

(** ** The prompt *)

(** The compaction prompt ends with the instructions, and never exceeds
    the limit by more than 18 bytes once the limit leaves room for more than the
    instructions: the 50 bytes the code reserves do not cover the 61 bytes of
    the truncation notice and the 7 of the separator. *)
Theorem compaction_prompt_bound messages existing_summary max_prompt_chars :
  (∃ text, build_compaction_prompt messages existing_summary max_prompt_chars
     = text +:+ nl +:+ nl +:+ "---" +:+ nl +:+ nl +:+ SUMMARY_PROMPT)
  ∧ (String.length SUMMARY_PROMPT + 50 < max_prompt_chars →
     String.length (build_compaction_prompt messages existing_summary max_prompt_chars)
     ≤ max_prompt_chars + 18).
Proof.
  unfold build_compaction_prompt. set (text := build_compaction_conversation_text _ _).
  split; [by eexists|]. intros Hmax. set (overhead := String.length SUMMARY_PROMPT + 50) in *.
  rewrite !str_length_app. change (String.length nl) with 1. change (String.length "---") with 3.
  rewrite (proj2 (Nat.ltb_lt overhead max_prompt_chars) Hmax), andb_true_r.
  destruct (Nat.ltb_spec max_prompt_chars (String.length text + overhead)) as [Hl|Hl].
  - rewrite str_length_app. change (String.length truncation_marker) with 61.
    pose proof (truncate_length text (max_prompt_chars - overhead)).
    subst overhead. lia.
  - subst overhead. lia.
Qed.
End json.

(** ** Concrete conversations *)

Definition long_text : string := str_concat (replicate 400 "a").

Definition sample_messages : list Message :=
  [message_user 0 "Run the tests";
   {| msg_role := Assistant; msg_content := [ToolUse "call-1" "bash" "{}"];
      msg_timestamp := None; msg_tool_duration_ms := None |};
   tool_result 1 "call-1" long_text false;
   assistant_text 2 "Done"].

Example sample_cutoffs :
  safe_compaction_cutoff sample_messages <$> [0; 1; 2; 3; 4; 9] = [0; 1; 1; 3; 4; 4].
Proof. vm_compute. reflexivity. Qed.

Lemma emergency_truncation_witness :
  (emergency_truncate_tool_results sample_messages 300).2 = 1
  ∧ emergency_truncate_tool_results (emergency_truncate_tool_results sample_messages 300).1 300
    = ((emergency_truncate_tool_results sample_messages 300).1, 0).
Proof.
  split; [vm_compute; reflexivity|].
  apply (emergency_truncation_correct sample_messages 300); [|lia].
  intros m Hm. repeat (apply elem_of_cons in Hm as [->|Hm];
    [repeat (constructor; [vm_compute; first [exact I|reflexivity]|]); constructor|]).
  by apply elem_of_nil in Hm.
Defined.

(** The prompt does exceed its limit by 18 bytes. *)
Example compaction_prompt_exceeds :
  let limit := String.length SUMMARY_PROMPT + 50 + 100 in
  String.length (build_compaction_prompt sample_messages None limit) = limit + 18.
Proof. vm_compute. reflexivity. Qed.
