(* ===== verification/CompactionState.v ===== *)
(** * The state of the compaction manager ([src/compaction.rs])

    The configuration, the data of a summary task and of an event, the state of
    the manager with an update per field, and what the manager asks of its
    surroundings: providers, the embedding model, and the hash of a text. *)

From S2P Require Import Prelude F32 Messages Compaction.
Open Scope nat_scope.

(** ** Configuration ([crates/gcode-config-types]) *)

Inductive CompactionMode := Reactive | Proactive | Semantic.

Definition mode_as_str (mode : CompactionMode) : string :=
  match mode with
  | Reactive => "reactive"
  | Proactive => "proactive"
  | Semantic => "semantic"
  end.

Record CompactionConfig := {
  cc_mode : CompactionMode;
  cc_lookahead_turns : usize;
  cc_ewma_alpha : f32;
  cc_proactive_floor : f32;
  cc_min_samples : usize;
  cc_stall_window : usize;
  cc_min_turns_between_compactions : usize;
  cc_topic_shift_threshold : f32;
  cc_relevance_keep_threshold : f32;
  cc_goal_window_turns : usize;
}.

Definition compaction_config_default : CompactionConfig := {|
  cc_mode := Reactive;
  cc_lookahead_turns := 15;
  cc_ewma_alpha := f32_0_3;
  cc_proactive_floor := f32_0_40;
  cc_min_samples := 3;
  cc_stall_window := 5;
  cc_min_turns_between_compactions := 10;
  cc_topic_shift_threshold := f32_0_45;
  cc_relevance_keep_threshold := f32_0_65;
  cc_goal_window_turns := 5;
|}.

Definition set_config_mode (mode : CompactionMode) (c : CompactionConfig) : CompactionConfig := {|
  cc_mode := mode;
  cc_lookahead_turns := cc_lookahead_turns c;
  cc_ewma_alpha := cc_ewma_alpha c;
  cc_proactive_floor := cc_proactive_floor c;
  cc_min_samples := cc_min_samples c;
  cc_stall_window := cc_stall_window c;
  cc_min_turns_between_compactions := cc_min_turns_between_compactions c;
  cc_topic_shift_threshold := cc_topic_shift_threshold c;
  cc_relevance_keep_threshold := cc_relevance_keep_threshold c;
  cc_goal_window_turns := cc_goal_window_turns c;
|}.

(** ** Thresholds and windows ([crates/gcode-compaction-core]) *)

Definition COMPACTION_THRESHOLD : f32 := f32_0_8.
Definition CRITICAL_THRESHOLD : f32 := f32_0_95.
Definition MANUAL_COMPACT_MIN_THRESHOLD : f32 := f32_0_10.
Definition RECENT_TURNS_TO_KEEP : usize := 10.
Definition MIN_TURNS_TO_KEEP : usize := 2.
Definition TOKEN_HISTORY_WINDOW : usize := 20.
Definition EMBEDDING_HISTORY_WINDOW : usize := 10.
Definition SEMANTIC_EMBED_CACHE_CAPACITY : usize := 256.

(** ** Events and results *)

Record CompactionEvent := {
  ce_trigger : string;
  ce_pre_tokens : option u64;
  ce_post_tokens : option u64;
  ce_tokens_saved : option u64;
  ce_duration_ms : option u64;
  ce_messages_dropped : option usize;
  ce_messages_compacted : option usize;
  ce_summary_chars : option usize;
  ce_active_messages : option usize;
}.

Record CompactionStats := {
  cs_total_turns : usize;
  cs_active_messages : usize;
  cs_has_summary : bool;
  cs_is_compacting : bool;
  cs_token_estimate : usize;
  cs_effective_tokens : usize;
  cs_observed_input_tokens : option u64;
  cs_context_usage : f32;
}.

Record CompactionResult := {
  cr_summary_text : string;
  cr_openai_encrypted_content : option string;
  cr_covers_up_to_turn : usize;
  cr_duration_ms : u64;
  cr_summarized_messages : usize;
}.

Record StoredCompactionState := {
  st_summary_text : string;
  st_openai_encrypted_content : option string;
  st_covers_up_to_turn : usize;
  st_original_turn_count : usize;
  st_compacted_count : usize;
}.

Section json.
Context `{Json}.

(** A stored message; the manager reads its content only. *)
Record StoredMessage := {
  sm_id : string;
  sm_role : Role;
  sm_content : list ContentBlock;
}.

(** ** Surroundings *)

Record NativeCompactionResult := {
  nc_summary_text : option string;
  nc_openai_encrypted_content : option string;
}.

(** The calls of a provider the summary task makes, by their answers. *)
Record Provider := {
  native_compact : list Message → option string → option string → NativeCompactionResult + string;
  complete_simple : string → string → string + string;
  context_window : usize;
}.

End json.

(** The embedding model, and the hash of the default hasher. *)
Class Embedder := {
  embed : string → option (list f32);
  semantic_cache_key : string → u64;
}.

(** The order in which the cache is iterated. *)
Class CacheOrder := {
  cache_entries : ∀ {V : Type}, gmap u64 V → list (u64 * V);
  cache_entries_perm : ∀ {V : Type} (m : gmap u64 V), cache_entries m ≡ₚ map_to_list m;
}.

#[export] Program Instance cache_order : CacheOrder := {
  cache_entries V := map_to_list;
}.
Solve Obligations with done.

Section manager.
Context `{Json}.

(** The background task: what it was started with, or what it returned (an
    error, or a panic, as a text). *)
Inductive CompactionTask :=
| Running (provider : Provider) (messages : list Message) (existing_summary : option Summary)
| Finished (result : CompactionResult + string).

(** ** The manager *)

Record CompactionManager := {
  cm_compacted_count : usize;
  cm_active_summary : option Summary;
  cm_active_message_chars : usize;
  cm_active_message_chars_dirty : bool;
  cm_pending_task : option CompactionTask;
  cm_pending_trigger : option string;
  cm_pending_cutoff : usize;
  cm_total_turns : usize;
  cm_suppress_compaction_until_new_message : bool;
  cm_token_budget : usize;
  cm_observed_input_tokens : option u64;
  cm_last_compaction : option CompactionEvent;
  cm_mode : CompactionMode;
  cm_compaction_config : CompactionConfig;
  cm_token_history : list u64;
  cm_turns_since_last_compact : usize;
  cm_embedding_history : list (list f32);
  cm_semantic_embed_cache : gmap u64 (option (list f32) * u64);
  cm_semantic_embed_cache_counter : u64;
}.

Definition set_compacted_count (v : usize) (m : CompactionManager)
    : CompactionManager := {|
  cm_compacted_count := v; cm_active_summary := cm_active_summary m;
  cm_active_message_chars := cm_active_message_chars m;
  cm_active_message_chars_dirty := cm_active_message_chars_dirty m;
  cm_pending_task := cm_pending_task m; cm_pending_trigger := cm_pending_trigger m;
  cm_pending_cutoff := cm_pending_cutoff m; cm_total_turns := cm_total_turns m;
  cm_suppress_compaction_until_new_message := cm_suppress_compaction_until_new_message m;
  cm_token_budget := cm_token_budget m; cm_observed_input_tokens := cm_observed_input_tokens m;
  cm_last_compaction := cm_last_compaction m; cm_mode := cm_mode m;
  cm_compaction_config := cm_compaction_config m; cm_token_history := cm_token_history m;
  cm_turns_since_last_compact := cm_turns_since_last_compact m;
  cm_embedding_history := cm_embedding_history m;
  cm_semantic_embed_cache := cm_semantic_embed_cache m;
  cm_semantic_embed_cache_counter := cm_semantic_embed_cache_counter m;
|}.

Definition set_active_summary (v : option Summary) (m : CompactionManager)
    : CompactionManager := {|
  cm_compacted_count := cm_compacted_count m; cm_active_summary := v;
  cm_active_message_chars := cm_active_message_chars m;
  cm_active_message_chars_dirty := cm_active_message_chars_dirty m;
  cm_pending_task := cm_pending_task m; cm_pending_trigger := cm_pending_trigger m;
  cm_pending_cutoff := cm_pending_cutoff m; cm_total_turns := cm_total_turns m;
  cm_suppress_compaction_until_new_message := cm_suppress_compaction_until_new_message m;
  cm_token_budget := cm_token_budget m; cm_observed_input_tokens := cm_observed_input_tokens m;
  cm_last_compaction := cm_last_compaction m; cm_mode := cm_mode m;
  cm_compaction_config := cm_compaction_config m; cm_token_history := cm_token_history m;
  cm_turns_since_last_compact := cm_turns_since_last_compact m;
  cm_embedding_history := cm_embedding_history m;
  cm_semantic_embed_cache := cm_semantic_embed_cache m;
  cm_semantic_embed_cache_counter := cm_semantic_embed_cache_counter m;
|}.

Definition set_active_message_chars (v : usize) (m : CompactionManager)
    : CompactionManager := {|
  cm_compacted_count := cm_compacted_count m; cm_active_summary := cm_active_summary m;
  cm_active_message_chars := v; cm_active_message_chars_dirty := cm_active_message_chars_dirty m;
  cm_pending_task := cm_pending_task m; cm_pending_trigger := cm_pending_trigger m;
  cm_pending_cutoff := cm_pending_cutoff m; cm_total_turns := cm_total_turns m;
  cm_suppress_compaction_until_new_message := cm_suppress_compaction_until_new_message m;
  cm_token_budget := cm_token_budget m; cm_observed_input_tokens := cm_observed_input_tokens m;
  cm_last_compaction := cm_last_compaction m; cm_mode := cm_mode m;
  cm_compaction_config := cm_compaction_config m; cm_token_history := cm_token_history m;
  cm_turns_since_last_compact := cm_turns_since_last_compact m;
  cm_embedding_history := cm_embedding_history m;
  cm_semantic_embed_cache := cm_semantic_embed_cache m;
  cm_semantic_embed_cache_counter := cm_semantic_embed_cache_counter m;
|}.

Definition set_active_message_chars_dirty (v : bool) (m : CompactionManager)
    : CompactionManager := {|
  cm_compacted_count := cm_compacted_count m; cm_active_summary := cm_active_summary m;
  cm_active_message_chars := cm_active_message_chars m; cm_active_message_chars_dirty := v;
  cm_pending_task := cm_pending_task m; cm_pending_trigger := cm_pending_trigger m;
  cm_pending_cutoff := cm_pending_cutoff m; cm_total_turns := cm_total_turns m;
  cm_suppress_compaction_until_new_message := cm_suppress_compaction_until_new_message m;
  cm_token_budget := cm_token_budget m; cm_observed_input_tokens := cm_observed_input_tokens m;
  cm_last_compaction := cm_last_compaction m; cm_mode := cm_mode m;
  cm_compaction_config := cm_compaction_config m; cm_token_history := cm_token_history m;
  cm_turns_since_last_compact := cm_turns_since_last_compact m;
  cm_embedding_history := cm_embedding_history m;
  cm_semantic_embed_cache := cm_semantic_embed_cache m;
  cm_semantic_embed_cache_counter := cm_semantic_embed_cache_counter m;
|}.

Definition set_pending_task (v : option CompactionTask) (m : CompactionManager)
    : CompactionManager := {|
  cm_compacted_count := cm_compacted_count m; cm_active_summary := cm_active_summary m;
  cm_active_message_chars := cm_active_message_chars m;
  cm_active_message_chars_dirty := cm_active_message_chars_dirty m; cm_pending_task := v;
  cm_pending_trigger := cm_pending_trigger m; cm_pending_cutoff := cm_pending_cutoff m;
  cm_total_turns := cm_total_turns m;
  cm_suppress_compaction_until_new_message := cm_suppress_compaction_until_new_message m;
  cm_token_budget := cm_token_budget m; cm_observed_input_tokens := cm_observed_input_tokens m;
  cm_last_compaction := cm_last_compaction m; cm_mode := cm_mode m;
  cm_compaction_config := cm_compaction_config m; cm_token_history := cm_token_history m;
  cm_turns_since_last_compact := cm_turns_since_last_compact m;
  cm_embedding_history := cm_embedding_history m;
  cm_semantic_embed_cache := cm_semantic_embed_cache m;
  cm_semantic_embed_cache_counter := cm_semantic_embed_cache_counter m;
|}.

Definition set_pending_trigger (v : option string) (m : CompactionManager)
    : CompactionManager := {|
  cm_compacted_count := cm_compacted_count m; cm_active_summary := cm_active_summary m;
  cm_active_message_chars := cm_active_message_chars m;
  cm_active_message_chars_dirty := cm_active_message_chars_dirty m;
  cm_pending_task := cm_pending_task m; cm_pending_trigger := v;
  cm_pending_cutoff := cm_pending_cutoff m; cm_total_turns := cm_total_turns m;
  cm_suppress_compaction_until_new_message := cm_suppress_compaction_until_new_message m;
  cm_token_budget := cm_token_budget m; cm_observed_input_tokens := cm_observed_input_tokens m;
  cm_last_compaction := cm_last_compaction m; cm_mode := cm_mode m;
  cm_compaction_config := cm_compaction_config m; cm_token_history := cm_token_history m;
  cm_turns_since_last_compact := cm_turns_since_last_compact m;
  cm_embedding_history := cm_embedding_history m;
  cm_semantic_embed_cache := cm_semantic_embed_cache m;
  cm_semantic_embed_cache_counter := cm_semantic_embed_cache_counter m;
|}.

Definition set_pending_cutoff (v : usize) (m : CompactionManager)
    : CompactionManager := {|
  cm_compacted_count := cm_compacted_count m; cm_active_summary := cm_active_summary m;
  cm_active_message_chars := cm_active_message_chars m;
  cm_active_message_chars_dirty := cm_active_message_chars_dirty m;
  cm_pending_task := cm_pending_task m; cm_pending_trigger := cm_pending_trigger m;
  cm_pending_cutoff := v; cm_total_turns := cm_total_turns m;
  cm_suppress_compaction_until_new_message := cm_suppress_compaction_until_new_message m;
  cm_token_budget := cm_token_budget m; cm_observed_input_tokens := cm_observed_input_tokens m;
  cm_last_compaction := cm_last_compaction m; cm_mode := cm_mode m;
  cm_compaction_config := cm_compaction_config m; cm_token_history := cm_token_history m;
  cm_turns_since_last_compact := cm_turns_since_last_compact m;
  cm_embedding_history := cm_embedding_history m;
  cm_semantic_embed_cache := cm_semantic_embed_cache m;
  cm_semantic_embed_cache_counter := cm_semantic_embed_cache_counter m;
|}.

Definition set_total_turns (v : usize) (m : CompactionManager)
    : CompactionManager := {|
  cm_compacted_count := cm_compacted_count m; cm_active_summary := cm_active_summary m;
  cm_active_message_chars := cm_active_message_chars m;
  cm_active_message_chars_dirty := cm_active_message_chars_dirty m;
  cm_pending_task := cm_pending_task m; cm_pending_trigger := cm_pending_trigger m;
  cm_pending_cutoff := cm_pending_cutoff m; cm_total_turns := v;
  cm_suppress_compaction_until_new_message := cm_suppress_compaction_until_new_message m;
  cm_token_budget := cm_token_budget m; cm_observed_input_tokens := cm_observed_input_tokens m;
  cm_last_compaction := cm_last_compaction m; cm_mode := cm_mode m;
  cm_compaction_config := cm_compaction_config m; cm_token_history := cm_token_history m;
  cm_turns_since_last_compact := cm_turns_since_last_compact m;
  cm_embedding_history := cm_embedding_history m;
  cm_semantic_embed_cache := cm_semantic_embed_cache m;
  cm_semantic_embed_cache_counter := cm_semantic_embed_cache_counter m;
|}.

Definition set_suppress_compaction_until_new_message (v : bool) (m : CompactionManager)
    : CompactionManager := {|
  cm_compacted_count := cm_compacted_count m; cm_active_summary := cm_active_summary m;
  cm_active_message_chars := cm_active_message_chars m;
  cm_active_message_chars_dirty := cm_active_message_chars_dirty m;
  cm_pending_task := cm_pending_task m; cm_pending_trigger := cm_pending_trigger m;
  cm_pending_cutoff := cm_pending_cutoff m; cm_total_turns := cm_total_turns m;
  cm_suppress_compaction_until_new_message := v; cm_token_budget := cm_token_budget m;
  cm_observed_input_tokens := cm_observed_input_tokens m;
  cm_last_compaction := cm_last_compaction m; cm_mode := cm_mode m;
  cm_compaction_config := cm_compaction_config m; cm_token_history := cm_token_history m;
  cm_turns_since_last_compact := cm_turns_since_last_compact m;
  cm_embedding_history := cm_embedding_history m;
  cm_semantic_embed_cache := cm_semantic_embed_cache m;
  cm_semantic_embed_cache_counter := cm_semantic_embed_cache_counter m;
|}.

Definition set_token_budget (v : usize) (m : CompactionManager)
    : CompactionManager := {|
  cm_compacted_count := cm_compacted_count m; cm_active_summary := cm_active_summary m;
  cm_active_message_chars := cm_active_message_chars m;
  cm_active_message_chars_dirty := cm_active_message_chars_dirty m;
  cm_pending_task := cm_pending_task m; cm_pending_trigger := cm_pending_trigger m;
  cm_pending_cutoff := cm_pending_cutoff m; cm_total_turns := cm_total_turns m;
  cm_suppress_compaction_until_new_message := cm_suppress_compaction_until_new_message m;
  cm_token_budget := v; cm_observed_input_tokens := cm_observed_input_tokens m;
  cm_last_compaction := cm_last_compaction m; cm_mode := cm_mode m;
  cm_compaction_config := cm_compaction_config m; cm_token_history := cm_token_history m;
  cm_turns_since_last_compact := cm_turns_since_last_compact m;
  cm_embedding_history := cm_embedding_history m;
  cm_semantic_embed_cache := cm_semantic_embed_cache m;
  cm_semantic_embed_cache_counter := cm_semantic_embed_cache_counter m;
|}.

Definition set_observed_input_tokens (v : option u64) (m : CompactionManager)
    : CompactionManager := {|
  cm_compacted_count := cm_compacted_count m; cm_active_summary := cm_active_summary m;
  cm_active_message_chars := cm_active_message_chars m;
  cm_active_message_chars_dirty := cm_active_message_chars_dirty m;
  cm_pending_task := cm_pending_task m; cm_pending_trigger := cm_pending_trigger m;
  cm_pending_cutoff := cm_pending_cutoff m; cm_total_turns := cm_total_turns m;
  cm_suppress_compaction_until_new_message := cm_suppress_compaction_until_new_message m;
  cm_token_budget := cm_token_budget m; cm_observed_input_tokens := v;
  cm_last_compaction := cm_last_compaction m; cm_mode := cm_mode m;
  cm_compaction_config := cm_compaction_config m; cm_token_history := cm_token_history m;
  cm_turns_since_last_compact := cm_turns_since_last_compact m;
  cm_embedding_history := cm_embedding_history m;
  cm_semantic_embed_cache := cm_semantic_embed_cache m;
  cm_semantic_embed_cache_counter := cm_semantic_embed_cache_counter m;
|}.

Definition set_last_compaction (v : option CompactionEvent) (m : CompactionManager)
    : CompactionManager := {|
  cm_compacted_count := cm_compacted_count m; cm_active_summary := cm_active_summary m;
  cm_active_message_chars := cm_active_message_chars m;
  cm_active_message_chars_dirty := cm_active_message_chars_dirty m;
  cm_pending_task := cm_pending_task m; cm_pending_trigger := cm_pending_trigger m;
  cm_pending_cutoff := cm_pending_cutoff m; cm_total_turns := cm_total_turns m;
  cm_suppress_compaction_until_new_message := cm_suppress_compaction_until_new_message m;
  cm_token_budget := cm_token_budget m; cm_observed_input_tokens := cm_observed_input_tokens m;
  cm_last_compaction := v; cm_mode := cm_mode m; cm_compaction_config := cm_compaction_config m;
  cm_token_history := cm_token_history m;
  cm_turns_since_last_compact := cm_turns_since_last_compact m;
  cm_embedding_history := cm_embedding_history m;
  cm_semantic_embed_cache := cm_semantic_embed_cache m;
  cm_semantic_embed_cache_counter := cm_semantic_embed_cache_counter m;
|}.

Definition set_mode (v : CompactionMode) (m : CompactionManager)
    : CompactionManager := {|
  cm_compacted_count := cm_compacted_count m; cm_active_summary := cm_active_summary m;
  cm_active_message_chars := cm_active_message_chars m;
  cm_active_message_chars_dirty := cm_active_message_chars_dirty m;
  cm_pending_task := cm_pending_task m; cm_pending_trigger := cm_pending_trigger m;
  cm_pending_cutoff := cm_pending_cutoff m; cm_total_turns := cm_total_turns m;
  cm_suppress_compaction_until_new_message := cm_suppress_compaction_until_new_message m;
  cm_token_budget := cm_token_budget m; cm_observed_input_tokens := cm_observed_input_tokens m;
  cm_last_compaction := cm_last_compaction m; cm_mode := v;
  cm_compaction_config := cm_compaction_config m; cm_token_history := cm_token_history m;
  cm_turns_since_last_compact := cm_turns_since_last_compact m;
  cm_embedding_history := cm_embedding_history m;
  cm_semantic_embed_cache := cm_semantic_embed_cache m;
  cm_semantic_embed_cache_counter := cm_semantic_embed_cache_counter m;
|}.

Definition set_compaction_config (v : CompactionConfig) (m : CompactionManager)
    : CompactionManager := {|
  cm_compacted_count := cm_compacted_count m; cm_active_summary := cm_active_summary m;
  cm_active_message_chars := cm_active_message_chars m;
  cm_active_message_chars_dirty := cm_active_message_chars_dirty m;
  cm_pending_task := cm_pending_task m; cm_pending_trigger := cm_pending_trigger m;
  cm_pending_cutoff := cm_pending_cutoff m; cm_total_turns := cm_total_turns m;
  cm_suppress_compaction_until_new_message := cm_suppress_compaction_until_new_message m;
  cm_token_budget := cm_token_budget m; cm_observed_input_tokens := cm_observed_input_tokens m;
  cm_last_compaction := cm_last_compaction m; cm_mode := cm_mode m; cm_compaction_config := v;
  cm_token_history := cm_token_history m;
  cm_turns_since_last_compact := cm_turns_since_last_compact m;
  cm_embedding_history := cm_embedding_history m;
  cm_semantic_embed_cache := cm_semantic_embed_cache m;
  cm_semantic_embed_cache_counter := cm_semantic_embed_cache_counter m;
|}.

Definition set_token_history (v : list u64) (m : CompactionManager)
    : CompactionManager := {|
  cm_compacted_count := cm_compacted_count m; cm_active_summary := cm_active_summary m;
  cm_active_message_chars := cm_active_message_chars m;
  cm_active_message_chars_dirty := cm_active_message_chars_dirty m;
  cm_pending_task := cm_pending_task m; cm_pending_trigger := cm_pending_trigger m;
  cm_pending_cutoff := cm_pending_cutoff m; cm_total_turns := cm_total_turns m;
  cm_suppress_compaction_until_new_message := cm_suppress_compaction_until_new_message m;
  cm_token_budget := cm_token_budget m; cm_observed_input_tokens := cm_observed_input_tokens m;
  cm_last_compaction := cm_last_compaction m; cm_mode := cm_mode m;
  cm_compaction_config := cm_compaction_config m; cm_token_history := v;
  cm_turns_since_last_compact := cm_turns_since_last_compact m;
  cm_embedding_history := cm_embedding_history m;
  cm_semantic_embed_cache := cm_semantic_embed_cache m;
  cm_semantic_embed_cache_counter := cm_semantic_embed_cache_counter m;
|}.

Definition set_turns_since_last_compact (v : usize) (m : CompactionManager)
    : CompactionManager := {|
  cm_compacted_count := cm_compacted_count m; cm_active_summary := cm_active_summary m;
  cm_active_message_chars := cm_active_message_chars m;
  cm_active_message_chars_dirty := cm_active_message_chars_dirty m;
  cm_pending_task := cm_pending_task m; cm_pending_trigger := cm_pending_trigger m;
  cm_pending_cutoff := cm_pending_cutoff m; cm_total_turns := cm_total_turns m;
  cm_suppress_compaction_until_new_message := cm_suppress_compaction_until_new_message m;
  cm_token_budget := cm_token_budget m; cm_observed_input_tokens := cm_observed_input_tokens m;
  cm_last_compaction := cm_last_compaction m; cm_mode := cm_mode m;
  cm_compaction_config := cm_compaction_config m; cm_token_history := cm_token_history m;
  cm_turns_since_last_compact := v; cm_embedding_history := cm_embedding_history m;
  cm_semantic_embed_cache := cm_semantic_embed_cache m;
  cm_semantic_embed_cache_counter := cm_semantic_embed_cache_counter m;
|}.

Definition set_embedding_history (v : list (list f32)) (m : CompactionManager)
    : CompactionManager := {|
  cm_compacted_count := cm_compacted_count m; cm_active_summary := cm_active_summary m;
  cm_active_message_chars := cm_active_message_chars m;
  cm_active_message_chars_dirty := cm_active_message_chars_dirty m;
  cm_pending_task := cm_pending_task m; cm_pending_trigger := cm_pending_trigger m;
  cm_pending_cutoff := cm_pending_cutoff m; cm_total_turns := cm_total_turns m;
  cm_suppress_compaction_until_new_message := cm_suppress_compaction_until_new_message m;
  cm_token_budget := cm_token_budget m; cm_observed_input_tokens := cm_observed_input_tokens m;
  cm_last_compaction := cm_last_compaction m; cm_mode := cm_mode m;
  cm_compaction_config := cm_compaction_config m; cm_token_history := cm_token_history m;
  cm_turns_since_last_compact := cm_turns_since_last_compact m; cm_embedding_history := v;
  cm_semantic_embed_cache := cm_semantic_embed_cache m;
  cm_semantic_embed_cache_counter := cm_semantic_embed_cache_counter m;
|}.

Definition set_semantic_embed_cache (v : gmap u64 (option (list f32) * u64)) (m : CompactionManager)
    : CompactionManager := {|
  cm_compacted_count := cm_compacted_count m; cm_active_summary := cm_active_summary m;
  cm_active_message_chars := cm_active_message_chars m;
  cm_active_message_chars_dirty := cm_active_message_chars_dirty m;
  cm_pending_task := cm_pending_task m; cm_pending_trigger := cm_pending_trigger m;
  cm_pending_cutoff := cm_pending_cutoff m; cm_total_turns := cm_total_turns m;
  cm_suppress_compaction_until_new_message := cm_suppress_compaction_until_new_message m;
  cm_token_budget := cm_token_budget m; cm_observed_input_tokens := cm_observed_input_tokens m;
  cm_last_compaction := cm_last_compaction m; cm_mode := cm_mode m;
  cm_compaction_config := cm_compaction_config m; cm_token_history := cm_token_history m;
  cm_turns_since_last_compact := cm_turns_since_last_compact m;
  cm_embedding_history := cm_embedding_history m; cm_semantic_embed_cache := v;
  cm_semantic_embed_cache_counter := cm_semantic_embed_cache_counter m;
|}.

Definition set_semantic_embed_cache_counter (v : u64) (m : CompactionManager)
    : CompactionManager := {|
  cm_compacted_count := cm_compacted_count m; cm_active_summary := cm_active_summary m;
  cm_active_message_chars := cm_active_message_chars m;
  cm_active_message_chars_dirty := cm_active_message_chars_dirty m;
  cm_pending_task := cm_pending_task m; cm_pending_trigger := cm_pending_trigger m;
  cm_pending_cutoff := cm_pending_cutoff m; cm_total_turns := cm_total_turns m;
  cm_suppress_compaction_until_new_message := cm_suppress_compaction_until_new_message m;
  cm_token_budget := cm_token_budget m; cm_observed_input_tokens := cm_observed_input_tokens m;
  cm_last_compaction := cm_last_compaction m; cm_mode := cm_mode m;
  cm_compaction_config := cm_compaction_config m; cm_token_history := cm_token_history m;
  cm_turns_since_last_compact := cm_turns_since_last_compact m;
  cm_embedding_history := cm_embedding_history m;
  cm_semantic_embed_cache := cm_semantic_embed_cache m; cm_semantic_embed_cache_counter := v;
|}.
End manager.

(** * Arithmetic of embeddings

    The mean of a set of embeddings ([crates/gcode-compaction-core]) and the
    similarity of two ([crates/gcode-embedding]). Sums run in the order of the
    code. *)

(** [for (i, v) in emb.iter().enumerate() { if i < dim { mean[i] += v; } }] *)
Fixpoint add_into (mean emb : list f32) : list f32 :=
  match mean, emb with
  | m :: mean, v :: emb => f32_add m v :: add_into mean emb
  | _, _ => mean
  end.

Definition dot (a b : list f32) : f32 := f32_sum (zip_with f32_mul a b).
Definition l2_norm (a : list f32) : f32 := f32_sqrt (f32_sum ((λ x, f32_mul x x) <$> a)).

Definition mean_embedding (embeddings : list (list f32)) (dim : usize) : list f32 :=
  let mean := foldl add_into (replicate dim f32_0_0) embeddings in
  let n := f32_of_unsigned (Z.of_nat (length embeddings `max` 1)) in
  let mean := (λ v, f32_div v n) <$> mean in
  let norm := l2_norm mean in
  if f32_gt norm f32_0_0 then (λ v, f32_div v norm) <$> mean else mean.

Definition cosine_similarity (a b : list f32) : f32 :=
  if negb (length a =? length b) || bool_decide (a = []) then f32_0_0
  else
    let norm_a := l2_norm a in
    let norm_b := l2_norm b in
    if f32_eq norm_a f32_0_0 || f32_eq norm_b f32_0_0 then f32_0_0
    else f32_div (dot a b) (f32_mul norm_a norm_b).

Example mean_of_axes :
  mean_embedding [[f32_1_0; f32_0_0]; [f32_0_0; f32_1_0]] 2 = [0x3f3504f3; 0x3f3504f3]%Z.
Proof. vm_compute. reflexivity. Qed.

Example cosine_of_axes :
  cosine_similarity [f32_1_0; f32_0_0] [f32_0_0; f32_1_0] = f32_0_0 ∧
  cosine_similarity [f32_1_0; f32_0_0] [f32_1_0; f32_0_0] = f32_1_0.
Proof. by vm_compute. Qed.

(** The mean has the dimension asked for. *)
Lemma length_add_into mean emb : length (add_into mean emb) = length mean.
Proof.
  revert emb. induction mean as [|m mean IH]; intros [|v emb]; [done..|]. cbn. by rewrite IH.
Qed.

Lemma length_mean_embedding embeddings dim : length (mean_embedding embeddings dim) = dim.
Proof.
  unfold mean_embedding. cbv zeta.
  assert (∀ mean, length (foldl add_into mean embeddings) = length mean) as Hlen.
  { induction embeddings as [|e es IH]; intros mean; [done|]. cbn. by rewrite IH, length_add_into. }
  case_match; rewrite !length_fmap, Hlen, ?length_replicate; done.
Qed.
