(* ===== verification/CompactionManager.v ===== *)
(** * The compaction manager ([src/compaction.rs])

    When to summarize the front of a conversation, the background task that
    does it, the emergency compaction, and the view of the conversation the
    model gets. The caller owns the messages and passes them in. A [None] of
    the methods that decide is a panic. *)

From S2P Require Import Prelude Utf8 Text F32 Messages Compaction CompactionState.
Open Scope nat_scope.

(** ** Encrypted summaries ([crates/gcode-provider-openai/src/request.rs]) *)

Definition OPENAI_ENCRYPTED_CONTENT_PROVIDER_MAX_CHARS : Z := 10485760.
Definition OPENAI_ENCRYPTED_CONTENT_SAFE_MAX_CHARS : Z := 9500000.

Definition openai_encrypted_content_is_sendable (encrypted_content : string) : bool :=
  (Z.of_nat (String.length encrypted_content) <=? OPENAI_ENCRYPTED_CONTENT_SAFE_MAX_CHARS)%Z.

Definition openai_encrypted_content_fallback_summary (encrypted_content_len : usize) : string :=
  "OpenAI native compaction state was discarded because its encrypted payload was "
  +:+ pretty encrypted_content_len +:+ " chars, above Jcode's safe replay limit of "
  +:+ pretty OPENAI_ENCRYPTED_CONTENT_SAFE_MAX_CHARS +:+ " chars (provider hard limit: "
  +:+ pretty OPENAI_ENCRYPTED_CONTENT_PROVIDER_MAX_CHARS
  +:+ " chars). Earlier compacted details may be unavailable; use the recent visible messages and session search/tools if exact prior details are needed.".

(** A summary that loses its encrypted content: the text with the notice. *)
Definition discard_encrypted (summary : Summary) (encrypted_content : string) : Summary :=
  let fallback := openai_encrypted_content_fallback_summary (String.length encrypted_content) in
  {| su_text :=
       if trim (su_text summary) =s "" then fallback
       else if str_contains "OpenAI native compaction state was discarded" (su_text summary)
       then su_text summary
       else su_text summary +:+ nl +:+ nl +:+ fallback;
     su_openai_encrypted_content := None;
     su_covers_up_to_turn := su_covers_up_to_turn summary;
     su_original_turn_count := su_original_turn_count summary |}.

(** The encrypted content of a summary, when it is too large to be sent. *)
Definition oversized_encrypted (summary : Summary) : option string :=
  match su_openai_encrypted_content summary with
  | Some encrypted_content =>
      if openai_encrypted_content_is_sendable encrypted_content then None
      else Some encrypted_content
  | None => None
  end.

(** ** Construction and bookkeeping *)

Section manager.
Context `{Json}.

Definition manager_new (cfg : CompactionConfig) : CompactionManager := {|
  cm_compacted_count := 0; cm_active_summary := None; cm_active_message_chars := 0;
  cm_active_message_chars_dirty := false; cm_pending_task := None; cm_pending_trigger := None;
  cm_pending_cutoff := 0; cm_total_turns := 0; cm_suppress_compaction_until_new_message := false;
  cm_token_budget := DEFAULT_TOKEN_BUDGET; cm_observed_input_tokens := None;
  cm_last_compaction := None; cm_mode := cc_mode cfg; cm_compaction_config := cfg;
  cm_token_history := []; cm_turns_since_last_compact := 0; cm_embedding_history := [];
  cm_semantic_embed_cache := ∅; cm_semantic_embed_cache_counter := 0%Z |}.

Definition active_messages {A} (m : CompactionManager) (all_messages : list A) : list A :=
  if cm_compacted_count m <=? length all_messages then drop (cm_compacted_count m) all_messages
  else all_messages.

Definition active_messages_count (m : CompactionManager) : usize :=
  cm_total_turns m - cm_compacted_count m.

Definition is_compacting (m : CompactionManager) : bool :=
  bool_decide (is_Some (cm_pending_task m)).

Definition mode_trigger_label (m : CompactionManager) : string := mode_as_str (cm_mode m).

Definition set_manager_mode (mode : CompactionMode) (m : CompactionManager) : CompactionManager :=
  set_compaction_config (set_config_mode mode (cm_compaction_config m)) (set_mode mode m).

Definition update_observed_input_tokens (tokens : u64) (m : CompactionManager)
    : CompactionManager := set_observed_input_tokens (Some tokens) m.

Definition take_compaction_event (m : CompactionManager)
    : option CompactionEvent * CompactionManager :=
  (cm_last_compaction m, set_last_compaction None m).

(** Pushing to a window of a bounded length. *)
Definition push_window {A} (window : usize) (x : A) (l : list A) : list A :=
  let l := l ++ [x] in if window <? length l then tail l else l.

Definition push_token_snapshot (tokens : u64) (m : CompactionManager) : CompactionManager :=
  set_turns_since_last_compact (cm_turns_since_last_compact m + 1)
    (set_token_history (push_window TOKEN_HISTORY_WINDOW tokens (cm_token_history m)) m).

Definition notify_message_added (m : CompactionManager) : CompactionManager :=
  set_active_message_chars_dirty true
    (set_suppress_compaction_until_new_message false
      (set_total_turns (cm_total_turns m + 1) m)).

Definition discard_oversized_openai_native_compaction (m : CompactionManager)
    : bool * CompactionManager :=
  match cm_active_summary m with
  | None => (false, m)
  | Some summary =>
      match oversized_encrypted summary with
      | None => (false, m)
      | Some encrypted_content =>
          (true, set_observed_input_tokens None
                   (set_active_summary (Some (discard_encrypted summary encrypted_content)) m))
      end
  end.

Definition persisted_state (m : CompactionManager) : option StoredCompactionState :=
  (λ summary, {|
    st_summary_text := su_text summary;
    st_openai_encrypted_content := su_openai_encrypted_content summary;
    st_covers_up_to_turn := su_covers_up_to_turn summary;
    st_original_turn_count := su_original_turn_count summary;
    st_compacted_count := cm_compacted_count m |}) <$> cm_active_summary m.

Definition stored_summary (state : StoredCompactionState) : Summary := {|
  su_text := st_summary_text state;
  su_openai_encrypted_content := st_openai_encrypted_content state;
  su_covers_up_to_turn := st_covers_up_to_turn state;
  su_original_turn_count := st_original_turn_count state |}.

Definition restore_persisted_state (state : StoredCompactionState) (total_messages : usize)
    (m : CompactionManager) : CompactionManager :=
  let compacted_count := st_compacted_count state `min` total_messages in {|
  cm_compacted_count := compacted_count; cm_active_summary := Some (stored_summary state);
  cm_active_message_chars := 0;
  cm_active_message_chars_dirty := compacted_count <? total_messages;
  cm_pending_task := None; cm_pending_trigger := None; cm_pending_cutoff := 0;
  cm_total_turns := total_messages;
  cm_suppress_compaction_until_new_message := 0 <? total_messages;
  cm_token_budget := cm_token_budget m; cm_observed_input_tokens := None;
  cm_last_compaction := None; cm_mode := cm_mode m;
  cm_compaction_config := cm_compaction_config m; cm_token_history := [];
  cm_turns_since_last_compact := 0; cm_embedding_history := [];
  cm_semantic_embed_cache := ∅; cm_semantic_embed_cache_counter := 0%Z |}.

Definition chars_of_all (messages : list Message) : usize :=
  sum_list (message_char_count <$> messages).
Definition stored_chars_of_all (messages : list StoredMessage) : usize :=
  sum_list ((λ message, content_char_count (sm_content message)) <$> messages).

Definition notify_message_added_blocks (content : list ContentBlock) (m : CompactionManager)
    : CompactionManager :=
  set_active_message_chars_dirty false
    (set_active_message_chars (cm_active_message_chars m + content_char_count content)
      (set_suppress_compaction_until_new_message false
        (set_total_turns (cm_total_turns m + 1) m))).

Definition notify_message_added_with (message : Message) (m : CompactionManager)
    : CompactionManager := notify_message_added_blocks (msg_content message) m.

Definition seed_restored (count chars : usize) (dirty : bool) (m : CompactionManager)
    : CompactionManager :=
  set_active_message_chars_dirty dirty
    (set_active_message_chars chars
      (set_suppress_compaction_until_new_message (0 <? count) (set_total_turns count m))).

Definition seed_restored_messages (count : usize) (m : CompactionManager) : CompactionManager :=
  seed_restored count 0 (0 <? count) m.

Definition seed_restored_messages_with (all_messages : list Message) (m : CompactionManager)
    : CompactionManager :=
  seed_restored (length all_messages) (chars_of_all all_messages) false m.

Definition seed_restored_stored_messages_with (all_messages : list StoredMessage)
    (m : CompactionManager) : CompactionManager :=
  seed_restored (length all_messages) (stored_chars_of_all all_messages) false m.

Definition restore_persisted_state_with (state : StoredCompactionState)
    (all_messages : list Message) (m : CompactionManager) : CompactionManager :=
  let m := restore_persisted_state state (length all_messages) m in
  set_active_message_chars_dirty false
    (set_active_message_chars (chars_of_all (active_messages m all_messages)) m).

Definition restore_persisted_stored_state_with (state : StoredCompactionState)
    (all_messages : list StoredMessage) (m : CompactionManager) : CompactionManager :=
  let m := restore_persisted_state state (length all_messages) m in
  let start := cm_compacted_count m `min` length all_messages in
  set_active_message_chars_dirty false
    (set_active_message_chars (stored_chars_of_all (drop start all_messages)) m).

(** ** Estimates *)

Definition active_message_chars_with (m : CompactionManager) (all_messages : list Message)
    : usize :=
  let active := active_messages m all_messages in
  if cm_active_message_chars_dirty m || negb (active_messages_count m =? length active)
  then chars_of_all active
  else cm_active_message_chars m.

Definition token_estimate_with (m : CompactionManager) (all_messages : list Message) : usize :=
  estimate_compaction_tokens (cm_active_summary m) (active_message_chars_with m all_messages)
    (cm_token_budget m).

Definition token_estimate (m : CompactionManager) : usize :=
  estimate_compaction_tokens (cm_active_summary m) 0 (cm_token_budget m).

Definition observed_tokens (m : CompactionManager) : usize :=
  from_option Z.to_nat 0 (cm_observed_input_tokens m).

Definition effective_token_count_with (m : CompactionManager) (all_messages : list Message)
    : usize := token_estimate_with m all_messages `max` observed_tokens m.

Definition effective_token_count (m : CompactionManager) : usize :=
  token_estimate m `max` observed_tokens m.

Definition usage_of (tokens budget : usize) : f32 :=
  f32_div (f32_of_unsigned (Z.of_nat tokens)) (f32_of_unsigned (Z.of_nat budget)).

Definition context_usage_with (m : CompactionManager) (all_messages : list Message) : f32 :=
  usage_of (effective_token_count_with m all_messages) (cm_token_budget m).

Definition context_usage (m : CompactionManager) : f32 :=
  usage_of (effective_token_count m) (cm_token_budget m).

(** ** Triggers

    The projections of the proactive mode are double-precision. *)

(** Growth from one snapshot to the next, never negative. *)
Definition growth (previous next : u64) : f64 :=
  f64_max_zero (f64_sub (f64_of_Z next) (f64_of_Z previous)).

(** The loop over the later snapshots. *)
Fixpoint ewma_loop (alpha ewma_delta : f64) (previous : u64) (snapshots : list u64)
    : f64 :=
  match snapshots with
  | [] => ewma_delta
  | next :: snapshots =>
      let delta := growth previous next in
      let ewma_delta :=
        f64_add (f64_mul alpha delta) (f64_mul (f64_sub (f64_of_Z 1) alpha) ewma_delta) in
      ewma_loop alpha ewma_delta next snapshots
  end.

Definition anti_signals_block (m : CompactionManager) (all_messages : list Message)
    : option bool :=
  let cfg := cm_compaction_config m in
  let history := cm_token_history m in
  if is_compacting m then Some true
  else if f32_lt (context_usage_with m all_messages) (cc_proactive_floor cfg) then Some true
  else if length history <? cc_min_samples cfg then Some true
  else
    stalled ←
      (if cc_stall_window cfg <=? length history then
         match take (cc_stall_window cfg) (reverse history) with
         | [] => None
         | newest :: older => Some (newest <=? List.last older newest)%Z
         end
       else Some false);
    Some (stalled || (cm_turns_since_last_compact m <? cc_min_turns_between_compactions cfg)).

(** The projection of the proactive mode, once nothing speaks against it. *)
Definition projection_exceeds (m : CompactionManager) : bool :=
  let cfg := cm_compaction_config m in
  let threshold := f64_mul (f64_of_f32 COMPACTION_THRESHOLD)
                     (f64_of_Z (Z.of_nat (cm_token_budget m))) in
  match cm_token_history m with
  | first :: second :: later =>
      let ewma_delta := ewma_loop (f64_of_f32 (cc_ewma_alpha cfg)) (growth first second) second later in
      let current := f64_of_Z (List.last later second) in
      let projected := f64_add current
        (f64_mul ewma_delta (f64_of_Z (Z.of_nat (cc_lookahead_turns cfg)))) in
      f64_le threshold projected
  | _ => false
  end.

Definition should_compact_proactively (m : CompactionManager) (all_messages : list Message)
    : option bool :=
  blocked ← anti_signals_block m all_messages;
  Some (negb blocked && projection_exceeds m).

Definition should_compact_semantic (m : CompactionManager) (all_messages : list Message)
    : option bool :=
  blocked ← anti_signals_block m all_messages;
  if (blocked : bool) then Some false
  else
    let history := cm_embedding_history m in
    if length history <? 4 then should_compact_proactively m all_messages
    else
      let half := length history / 2 in
      let old_embeddings := take half history in
      let new_embeddings := drop half history in
      let dim := from_option length 0 (head old_embeddings) in
      let mean_old := mean_embedding old_embeddings dim in
      let mean_new := mean_embedding new_embeddings dim in
      let similarity := cosine_similarity mean_old mean_new in
      if f32_lt similarity (cc_topic_shift_threshold (cm_compaction_config m)) then Some true
      else should_compact_proactively m all_messages.

Definition should_compact_with (m : CompactionManager) (all_messages : list Message)
    : option bool :=
  if cm_suppress_compaction_until_new_message m then Some false
  else
    let enough := RECENT_TURNS_TO_KEEP <? length (active_messages m all_messages) in
    match cm_mode m with
    | Reactive =>
        Some (negb (is_compacting m)
              && f32_ge (context_usage_with m all_messages) COMPACTION_THRESHOLD && enough)
    | Proactive => if enough then should_compact_proactively m all_messages else Some false
    | Semantic => if enough then should_compact_semantic m all_messages else Some false
    end.

Definition stats_of (m : CompactionManager) (active_count tokens effective : usize) (usage : f32)
    : CompactionStats := {|
  cs_total_turns := cm_total_turns m; cs_active_messages := active_count;
  cs_has_summary := bool_decide (is_Some (cm_active_summary m)); cs_is_compacting := is_compacting m;
  cs_token_estimate := tokens; cs_effective_tokens := effective;
  cs_observed_input_tokens := cm_observed_input_tokens m; cs_context_usage := usage |}.

Definition stats (m : CompactionManager) : CompactionStats :=
  stats_of m 0 (token_estimate m) (effective_token_count m) (context_usage m).

Definition stats_with (m : CompactionManager) (all_messages : list Message) : CompactionStats :=
  stats_of m (length (active_messages m all_messages)) (token_estimate_with m all_messages)
    (effective_token_count_with m all_messages) (context_usage_with m all_messages).

(** ** The cache of embeddings *)

Section semantic.
Context `{Embedder, CacheOrder}.

Definition insert_semantic_embedding_cache (key : u64) (embedding : option (list f32))
    (m : CompactionManager) : CompactionManager :=
  let cache := cm_semantic_embed_cache m in
  let cache :=
    if SEMANTIC_EMBED_CACHE_CAPACITY <=? size cache then
      match min_by (λ a b, a.2.2 <? b.2.2)%Z (cache_entries cache) with
      | Some (oldest_key, _) => delete oldest_key cache
      | None => cache
      end
    else cache in
  let counter := cm_semantic_embed_cache_counter m in
  set_semantic_embed_cache (<[key := (embedding, counter)]> cache)
    (set_semantic_embed_cache_counter (u64_succ counter) m).

Definition cached_semantic_embedding (text : string) (m : CompactionManager)
    : option (list f32) * CompactionManager :=
  let key := semantic_cache_key text in
  match cm_semantic_embed_cache m !! key with
  | Some (cached, _) =>
      let counter := cm_semantic_embed_cache_counter m in
      (cached, set_semantic_embed_cache (<[key := (cached, counter)]> (cm_semantic_embed_cache m))
                 (set_semantic_embed_cache_counter (u64_succ counter) m))
  | None =>
      let embedding := embed text in
      (embedding, insert_semantic_embedding_cache key embedding m)
  end.

Definition push_embedding_snapshot (text : string) (m : CompactionManager) : CompactionManager :=
  let snippet := str_concat (take EMBED_MAX_CHARS_PER_MSG (chars text)) in
  let (embedding, m) := cached_semantic_embedding snippet m in
  match embedding with
  | Some emb =>
      set_embedding_history (push_window EMBEDDING_HISTORY_WINDOW emb (cm_embedding_history m)) m
  | None => m
  end.

(** One candidate of the relevance scoring. *)
Definition score_message (goal_emb : list f32) (relevance_keep_threshold : f32)
    (state : usize * usize * CompactionManager) (candidate : usize * Message)
    : usize * usize * CompactionManager :=
  let '(high_relevance_count, earliest_high_relevance, m) := state in
  let '(idx, msg) := candidate in
  let text := semantic_message_text msg in
  if text =s "" then state
  else
    let (embedding, m) := cached_semantic_embedding text m in
    match embedding with
    | Some embedding =>
        if f32_ge (cosine_similarity goal_emb embedding) relevance_keep_threshold
        then (high_relevance_count + 1, earliest_high_relevance `min` idx, m)
        else (high_relevance_count, earliest_high_relevance, m)
    | None => (high_relevance_count, earliest_high_relevance, m)
    end.

Definition semantic_cutoff (active : list Message) (m : CompactionManager)
    : usize * CompactionManager :=
  let cfg := cm_compaction_config m in
  let standard_cutoff := length active - RECENT_TURNS_TO_KEEP in
  if standard_cutoff =? 0 then (0, m)
  else
    let goal_turns := cc_goal_window_turns cfg `min` length active in
    let goal_text := semantic_goal_text (drop (length active - goal_turns) active) in
    if goal_text =s "" then (standard_cutoff, m)
    else
      let (goal_emb, m) := cached_semantic_embedding goal_text m in
      match goal_emb with
      | None => (standard_cutoff, m)
      | Some goal_emb =>
          let '(high_relevance_count, adjusted_cutoff, m) :=
            foldl (score_message goal_emb (cc_relevance_keep_threshold cfg)) (0, standard_cutoff, m)
              (imap pair (take standard_cutoff active)) in
          if high_relevance_count =? 0 then (standard_cutoff, m)
          else if adjusted_cutoff <? 2 then (standard_cutoff, m)
          else (adjusted_cutoff, m)
      end.

(** ** Starting a summary *)

Definition start_task (provider : Provider) (trigger : string) (active : list Message)
    (cutoff : usize) (m : CompactionManager) : CompactionManager :=
  set_pending_task (Some (Running provider (take cutoff active) (cm_active_summary m)))
    (set_pending_trigger (Some trigger) (set_pending_cutoff cutoff m)).

Definition maybe_start_compaction_with (all_messages : list Message) (provider : Provider)
    (m : CompactionManager) : option CompactionManager :=
  should ← should_compact_with m all_messages;
  if negb should then Some m
  else
    let active := active_messages m all_messages in
    let (cutoff, m) :=
      match cm_mode m with
      | Semantic => semantic_cutoff active m
      | _ => (length active - RECENT_TURNS_TO_KEEP, m)
      end in
    if cutoff =? 0 then Some m
    else
      let cutoff := safe_compaction_cutoff active cutoff in
      if cutoff =? 0 then Some m
      else Some (start_task provider (mode_trigger_label m) active cutoff m).
End semantic.

Definition force_compact_with (all_messages : list Message) (provider : Provider)
    (m : CompactionManager) : (unit + string) * CompactionManager :=
  let active := active_messages m all_messages in
  if is_compacting m then (inr "Compaction already in progress", m)
  else if length active <=? RECENT_TURNS_TO_KEEP then
    (inr ("Not enough messages to compact (need more than " +:+ pretty RECENT_TURNS_TO_KEEP
          +:+ ", have " +:+ pretty (length active) +:+ ")"), m)
  else if f32_lt (context_usage_with m all_messages) MANUAL_COMPACT_MIN_THRESHOLD then
    (inr ("Context usage too low ("
          +:+ f32_tenths (f32_mul (context_usage_with m all_messages) f32_100_0)
          +:+ "%) - nothing to compact"), m)
  else
    let cutoff := length active - RECENT_TURNS_TO_KEEP in
    if cutoff =? 0 then
      (inr "No messages available to compact after keeping recent turns", m)
    else
      let cutoff := safe_compaction_cutoff active cutoff in
      if cutoff =? 0 then (inr "Cannot compact - would split tool call/result pairs", m)
      else (inl (), start_task provider "manual" active cutoff m).

(** ** Finishing a summary *)

(** [generate_compaction_artifact]; the durations are measured by the caller. *)
Definition generate_compaction_artifact (provider : Provider) (messages : list Message)
    (existing_summary : option Summary) (duration_ms : u64) : CompactionResult + string :=
  let existing_summary :=
    (λ summary, match oversized_encrypted summary with
                | Some encrypted_content => discard_encrypted summary encrypted_content
                | None => summary
                end) <$> existing_summary in
  let result summary_text openai_encrypted_content := {|
    cr_summary_text := summary_text;
    cr_openai_encrypted_content := openai_encrypted_content;
    cr_covers_up_to_turn := length messages;
    cr_duration_ms := duration_ms;
    cr_summarized_messages := length messages |} in
  let native :=
    match native_compact provider messages (su_text <$> existing_summary)
            (existing_summary ≫= su_openai_encrypted_content) with
    | inl native =>
        match nc_openai_encrypted_content native with
        | Some encrypted_content =>
            if openai_encrypted_content_is_sendable encrypted_content then Some native else None
        | None => Some native
        end
    | inr _ => None
    end in
  match native with
  | Some native =>
      inl (result (default "" (nc_summary_text native)) (nc_openai_encrypted_content native))
  | None =>
      let max_prompt_chars := (context_window provider - 4000) * CHARS_PER_TOKEN in
      let prompt := build_compaction_prompt messages existing_summary max_prompt_chars in
      match complete_simple provider prompt
              "You are a helpful assistant that summarizes conversations." with
      | inl summary => inl (result summary None)
      | inr e => inr e
      end
  end.

(** The task runs to its end; [panics] when it does not return. *)
Definition finish_task (duration_ms : u64) (panics : option string) (task : CompactionTask)
    : CompactionTask :=
  match task with
  | Running provider messages existing_summary =>
      Finished (match panics with
                | Some e => inr e
                | None => generate_compaction_artifact provider messages existing_summary duration_ms
                end)
  | Finished _ => task
  end.

(** A successful result is taken over. *)
Definition apply_result (all_messages : list Message) (result : CompactionResult)
    (m : CompactionManager) : CompactionManager :=
  let pre_tokens := Z.of_nat (effective_token_count_with m all_messages) in
  let compacted_chars :=
    chars_of_all (take (cm_pending_cutoff m) (active_messages m all_messages)) in
  let summary := {|
    su_text := cr_summary_text result;
    su_openai_encrypted_content := cr_openai_encrypted_content result;
    su_covers_up_to_turn := cr_covers_up_to_turn result;
    su_original_turn_count := cm_pending_cutoff m |} in
  let m := set_compacted_count (cm_compacted_count m + cm_pending_cutoff m) m in
  let m := set_active_message_chars
             (active_message_chars_with m all_messages - compacted_chars) m in
  let m := set_active_message_chars_dirty false m in
  let m := set_active_summary (Some summary) m in
  let m := (discard_oversized_openai_native_compaction m).2 in
  let m := set_observed_input_tokens None m in
  let post_tokens := Z.of_nat (effective_token_count_with m all_messages) in
  let event := {|
    ce_trigger := default (mode_trigger_label m) (cm_pending_trigger m);
    ce_pre_tokens := Some pre_tokens;
    ce_post_tokens := Some post_tokens;
    ce_tokens_saved := Some (Z.max (pre_tokens - post_tokens) 0);
    ce_duration_ms := Some (cr_duration_ms result);
    ce_messages_dropped := None;
    ce_messages_compacted := Some (cr_summarized_messages result);
    ce_summary_chars := (λ summary, String.length (su_text summary)) <$> cm_active_summary m;
    ce_active_messages := Some (active_messages_count m) |} in
  set_pending_cutoff 0 (set_turns_since_last_compact 0
    (set_last_compaction (Some event) (set_pending_trigger None m))).

Definition check_and_apply_compaction_with (all_messages : list Message) (m : CompactionManager)
    : CompactionManager :=
  match cm_pending_task m with
  | None | Some (Running _ _ _) => m
  | Some (Finished (inl result)) => apply_result all_messages result (set_pending_task None m)
  | Some (Finished (inr _)) =>
      set_pending_cutoff 0 (set_pending_trigger None (set_pending_task None m))
  end.

Definition check_and_apply_compaction (m : CompactionManager) : CompactionManager :=
  set_active_message_chars_dirty true (check_and_apply_compaction_with [] m).

Definition poll_compaction_event_with (all_messages : list Message) (m : CompactionManager)
    : option CompactionEvent * CompactionManager :=
  take_compaction_event (check_and_apply_compaction_with all_messages m).

Definition poll_compaction_event (m : CompactionManager)
    : option CompactionEvent * CompactionManager :=
  take_compaction_event (check_and_apply_compaction m).

(** ** The view of the model *)

Definition summary_message (summary : Summary) : Message := {|
  msg_role := User;
  msg_content :=
    [match su_openai_encrypted_content summary with
     | Some encrypted_content => OpenAICompaction encrypted_content
     | None => Text (compacted_summary_text_block (su_text summary)) None
     end];
  msg_timestamp := None;
  msg_tool_duration_ms := None |}.

Definition messages_for_api_with (all_messages : list Message) (m : CompactionManager)
    : list Message * CompactionManager :=
  let m := check_and_apply_compaction_with all_messages m in
  let m := (discard_oversized_openai_native_compaction m).2 in
  let active := active_messages m all_messages in
  (match cm_active_summary m with
   | Some summary => summary_message summary :: active
   | None => active
   end, m).

Definition messages_for_api (m : CompactionManager) : list Message * CompactionManager :=
  let m := check_and_apply_compaction m in
  let m := (discard_oversized_openai_native_compaction m).2 in
  (match cm_active_summary m with Some summary => [summary_message summary] | None => [] end, m).

(** ** Emergencies *)

Section hard.
Context `{Alphanumeric, HashOrder}.

(** [remaining_suffix_chars]: the characters from each message on. *)
Fixpoint remaining_suffix_chars (active_char_counts : list usize) : list usize :=
  match active_char_counts with
  | [] => [0]
  | count :: counts =>
      let rest := remaining_suffix_chars counts in
      (default 0 (head rest) + count) :: rest
  end.

(** The loop over the turns to keep, with its rounds as fuel. *)
Fixpoint hard_cutoff (fuel : nat) (active : list Message) (suffix_chars : list usize)
    (token_budget turns_to_keep : usize) : usize :=
  match fuel with
  | O => 0
  | S fuel =>
      let cutoff := safe_compaction_cutoff active (length active - turns_to_keep) in
      if (0 <? cutoff)
         && (default 0 (suffix_chars !! cutoff) / CHARS_PER_TOKEN <=? token_budget)
      then cutoff
      else if turns_to_keep <=? MIN_TURNS_TO_KEEP
      then safe_compaction_cutoff active (length active - MIN_TURNS_TO_KEEP)
      else hard_cutoff fuel active suffix_chars token_budget
             ((turns_to_keep / 2) `max` MIN_TURNS_TO_KEEP)
  end.

Definition hard_compact_with (all_messages : list Message) (m : CompactionManager)
    : (usize + string) * CompactionManager :=
  let active := active_messages m all_messages in
  if length active <=? MIN_TURNS_TO_KEEP then
    (inr ("Not enough messages to compact (have " +:+ pretty (length active)
          +:+ ", need more than " +:+ pretty MIN_TURNS_TO_KEEP +:+ ")"), m)
  else
    let pre_tokens := Z.of_nat (effective_token_count_with m all_messages) in
    let suffix_chars := remaining_suffix_chars (message_char_count <$> active) in
    let turns_to_keep := RECENT_TURNS_TO_KEEP `min` (length active - 1) in
    let cutoff :=
      hard_cutoff (S turns_to_keep) active suffix_chars (cm_token_budget m) turns_to_keep in
    if cutoff =? 0 then (inr "Cannot compact — would split tool call/result pairs", m)
    else
      let summary := {|
        su_text := build_emergency_summary_text (su_text <$> cm_active_summary m) cutoff pre_tokens
                     (cm_token_budget m) (take cutoff active);
        su_openai_encrypted_content := None;
        su_covers_up_to_turn := cutoff;
        su_original_turn_count := cutoff |} in
      let m := set_compacted_count (cm_compacted_count m + cutoff) m in
      let m := set_active_message_chars (default 0 (suffix_chars !! cutoff)) m in
      let m := set_active_message_chars_dirty false m in
      let m := set_observed_input_tokens None (set_active_summary (Some summary) m) in
      let post_tokens := Z.of_nat (effective_token_count m) in
      let event := {|
        ce_trigger := "hard_compact";
        ce_pre_tokens := Some pre_tokens;
        ce_post_tokens := Some post_tokens;
        ce_tokens_saved := Some (Z.max (pre_tokens - post_tokens) 0);
        ce_duration_ms := Some 0%Z;
        ce_messages_dropped := Some cutoff;
        ce_messages_compacted := Some cutoff;
        ce_summary_chars := (λ summary, String.length (su_text summary)) <$> cm_active_summary m;
        ce_active_messages := Some (active_messages_count m) |} in
      (inl cutoff, set_last_compaction (Some event) m).

Definition emergency_truncate_with (all_messages : list Message) (m : CompactionManager)
    : usize * list Message * CompactionManager :=
  let start := cm_compacted_count m `min` length all_messages in
  let (active, truncated) :=
    emergency_truncate_tool_results (drop start all_messages) EMERGENCY_TOOL_RESULT_MAX_CHARS in
  (truncated, take start all_messages ++ active,
   if 0 <? truncated then set_observed_input_tokens None m else m).

Definition ensure_context_fits `{Embedder, CacheOrder} (all_messages : list Message)
    (provider : Provider) (m : CompactionManager) : option (CompactionAction * CompactionManager) :=
  let was_compacting := is_compacting m in
  m ← maybe_start_compaction_with all_messages provider m;
  let bg_started := negb was_compacting && is_compacting m in
  let background :=
    if bg_started then BackgroundStarted (default (mode_trigger_label m) (cm_pending_trigger m))
    else NoAction in
  Some (if f32_ge (context_usage_with m all_messages) CRITICAL_THRESHOLD then
          match hard_compact_with all_messages m with
          | (inl dropped, m) => (HardCompacted dropped, m)
          | (inr _, m) => (background, m)
          end
        else (background, m)).
End hard.

(** The state handed to another session. *)
Definition build_transfer_compaction_state (provider : Provider) (messages : list Message)
    (existing_state : option StoredCompactionState) (duration_ms : u64)
    : option StoredCompactionState + string :=
  match messages with
  | [] =>
      inl ((λ state, {|
        st_summary_text := st_summary_text state;
        st_openai_encrypted_content := st_openai_encrypted_content state;
        st_covers_up_to_turn := st_covers_up_to_turn state;
        st_original_turn_count := st_original_turn_count state;
        st_compacted_count := 0 |}) <$> existing_state)
  | _ =>
      let prior_turns :=
        from_option (λ state, st_original_turn_count state `max` st_covers_up_to_turn state) 0
          existing_state in
      match generate_compaction_artifact provider messages (stored_summary <$> existing_state)
              duration_ms with
      | inr e => inr e
      | inl result =>
          let total_turns := prior_turns + length messages in
          inl (Some {|
            st_summary_text := cr_summary_text result;
            st_openai_encrypted_content := cr_openai_encrypted_content result;
            st_covers_up_to_turn := total_turns;
            st_original_turn_count := total_turns;
            st_compacted_count := 0 |})
      end
  end.
End manager.
