(* ===== verification/CompactionManagerTheorems.v ===== *)
(** * Properties of the compaction manager

    A session is the conversation of the caller and the manager over it; its
    steps are the calls of the agent. Through every sequence of steps the
    manager's books describe the conversation, and what the model is sent never
    holds a tool result without its call. *)

From S2P Require Import Prelude Utf8 F32 Messages Compaction CompactionTheorems CompactionState CompactionManager.
Open Scope nat_scope.

#[local] Arguments chars_of_all : simpl never.
#[local] Arguments safe_compaction_cutoff : simpl never.

Section theorems.
Context `{Json, Alphanumeric, HashOrder, Embedder, CacheOrder}.

(** ** Sums of characters *)

Lemma chars_of_all_app l1 l2 : chars_of_all (l1 ++ l2) = chars_of_all l1 + chars_of_all l2.
Proof. unfold chars_of_all. rewrite fmap_app. apply sum_list_with_app. Qed.

Lemma chars_of_all_cons msg l : chars_of_all (msg :: l) = message_char_count msg + chars_of_all l.
Proof. done. Qed.

Lemma chars_of_one msg : chars_of_all [msg] = content_char_count (msg_content msg).
Proof. rewrite chars_of_all_cons. unfold message_char_count. apply Nat.add_0_r. Qed.

Lemma chars_of_all_take_drop n l : chars_of_all (take n l) + chars_of_all (drop n l) = chars_of_all l.
Proof. by rewrite <- chars_of_all_app, take_drop. Qed.

Lemma suffix_chars_spec active cutoff :
  cutoff ≤ length active →
  default 0 (remaining_suffix_chars (message_char_count <$> active) !! cutoff)
  = chars_of_all (drop cutoff active).
Proof.
  revert cutoff. induction active as [|msg active IH]; intros cutoff Hle.
  { cbn in Hle. by replace cutoff with 0 by lia. }
  destruct cutoff as [|cutoff]; cbn [remaining_suffix_chars fmap list_fmap].
  - specialize (IH 0 ltac:(lia)). rewrite drop_0 in *. rewrite chars_of_all_cons, <- IH.
    destruct (remaining_suffix_chars _); cbn; lia.
  - cbn [lookup list_lookup drop]. apply IH. cbn in Hle. lia.
Qed.

(** ** The books of the manager *)

(** The manager knows the length of the conversation, and a front of it is
    compacted. *)
Record fronts (messages : list Message) (m : CompactionManager) : Prop := {
  f_turns : cm_total_turns m = length messages;
  f_count : cm_compacted_count m ≤ length messages;
}.

(** Its count of characters is the one of the messages that are left, or is
    marked to be made again. *)
Definition counted (messages : list Message) (m : CompactionManager) : Prop :=
  cm_active_message_chars_dirty m = true ∨
  cm_active_message_chars m = chars_of_all (drop (cm_compacted_count m) messages).

(** The manager describes the conversation: it has seen every message, a front of
    it is compacted, and the characters of the rest are counted. *)
Record books (messages : list Message) (m : CompactionManager) : Prop := {
  b_turns : cm_total_turns m = length messages;
  b_count : cm_compacted_count m ≤ length messages;
  b_clean : cm_active_message_chars_dirty m = false;
  b_chars : cm_active_message_chars m = chars_of_all (drop (cm_compacted_count m) messages);
}.

Lemma books_fronts messages m : books messages m → fronts messages m.
Proof. by intros []. Qed.

Lemma books_counted messages m : books messages m → counted messages m.
Proof. intros []. by right. Qed.

Lemma fronts_active messages m :
  fronts messages m → active_messages m messages = drop (cm_compacted_count m) messages.
Proof. intros B. unfold active_messages. by rewrite (proj2 (Nat.leb_le _ _)) by apply B. Qed.

Lemma counted_chars messages m :
  fronts messages m → counted messages m →
  active_message_chars_with m messages = chars_of_all (drop (cm_compacted_count m) messages).
Proof.
  intros B [D|E]; unfold active_message_chars_with; rewrite fronts_active by done; [by rewrite D|].
  rewrite E. by destruct (_ || _).
Qed.

(** A cut-off after which nothing is missing and the latest turns are kept. *)
Record cut_safe (messages : list Message) (cutoff : nat) : Prop := {
  c_kept : cutoff + MIN_TURNS_TO_KEEP ≤ length messages;
  c_closed : tool_closed (drop cutoff messages);
}.

(** The state of a session between two calls: a pending summary will move the
    front to a safe place too. [exact] says that the count can be relied on. *)
Record manager_ok (exact : bool) (messages : list Message) (m : CompactionManager) : Prop := {
  ok_fronts : fronts messages m;
  ok_counted : exact = true → counted messages m;
  ok_front : cm_compacted_count m = 0 ∨ cut_safe messages (cm_compacted_count m);
  ok_closed : tool_closed (drop (cm_compacted_count m) messages);
  ok_whole : tool_closed messages;
  ok_pending : is_Some (cm_pending_task m) →
    cut_safe messages (cm_compacted_count m + cm_pending_cutoff m);
  ok_summary : cm_compacted_count m = 0 ∨ is_Some (cm_active_summary m);
}.

(** ** Updates that leave the books alone *)

(** The fields the books and the pending summary are about. *)
Definition same_front (m m' : CompactionManager) : Prop :=
  cm_total_turns m' = cm_total_turns m ∧ cm_compacted_count m' = cm_compacted_count m ∧
  cm_active_message_chars_dirty m' = cm_active_message_chars_dirty m ∧
  cm_active_message_chars m' = cm_active_message_chars m.

Definition same_summary (m m' : CompactionManager) : Prop :=
  is_Some (cm_active_summary m) → is_Some (cm_active_summary m').

Definition same_pending (m m' : CompactionManager) : Prop :=
  cm_pending_cutoff m' = cm_pending_cutoff m ∧
  (is_Some (cm_pending_task m') → is_Some (cm_pending_task m)).

Lemma same_front_fronts messages m m' : same_front m m' → fronts messages m → fronts messages m'.
Proof. intros (E1 & E2 & _) []. by split; rewrite ?E1, ?E2. Qed.

Lemma same_front_counted messages m m' : same_front m m' → counted messages m → counted messages m'.
Proof. intros (E1 & E2 & E3 & E4). unfold counted. by rewrite E2, E3, E4. Qed.

Lemma same_front_ok exact messages m m' :
  same_front m m' → same_pending m m' → same_summary m m' →
  manager_ok exact messages m → manager_ok exact messages m'.
Proof.
  intros Hf [Ep Ht] Hs [B ? ? ? ? ? Hsum]. pose proof Hf as (_ & Ec & _).
  split; rewrite ?Ec, ?Ep; auto; [by eapply same_front_fronts| |].
  - intros He. eapply same_front_counted; [done|auto].
  - destruct Hsum; auto.
Qed.

(** Tactic for updates of other fields. *)
Ltac untouched :=
  intros; (eapply same_front_ok; [..|eassumption]);
    [by repeat split|split; [done|intros; first [done|by eexists]]
    |intros ?; first [done|by eexists]].

Lemma discard_ok exact messages m :
  manager_ok exact messages m → manager_ok exact messages (discard_oversized_openai_native_compaction m).2.
Proof.
  unfold discard_oversized_openai_native_compaction.
  destruct (cm_active_summary m) as [summary|]; [|done].
  destruct (oversized_encrypted summary); [|done]. untouched.
Qed.

(** ** New messages *)

(** The results of a new message answer calls of the latest turns. *)
Definition answers_recent (messages : list Message) (msg : Message) : Prop :=
  ∀ id content e, ToolResult id content e ∈ msg_content msg →
    ∃ m' name input, m' ∈ drop (length messages - MIN_TURNS_TO_KEEP) messages ++ [msg] ∧
      ToolUse id name input ∈ msg_content m'.

Lemma drop_recent {A} k n (l : list A) x :
  k + n ≤ length l → x ∈ drop (length l - n) l → x ∈ drop k l.
Proof.
  intros Hk Hx. replace (length l - n) with (k + (length l - n - k)) in Hx by lia.
  rewrite <- drop_drop in Hx. apply list_elem_of_lookup in Hx as [i Hi].
  rewrite lookup_drop in Hi. by eapply list_elem_of_lookup_2.
Qed.

Lemma tool_closed_app k messages msg :
  k = 0 ∨ k + MIN_TURNS_TO_KEEP ≤ length messages →
  tool_closed (drop k messages) → answers_recent messages msg →
  tool_closed (drop k (messages ++ [msg])).
Proof.
  intros Hk Hc Ha. rewrite drop_app_le by (unfold MIN_TURNS_TO_KEEP in *; lia).
  assert (∀ x, x ∈ drop (length messages - MIN_TURNS_TO_KEEP) messages → x ∈ drop k messages) as Hin.
  { intros x Hx. destruct Hk as [->|Hk]; [|by eapply drop_recent].
    rewrite drop_0. apply list_elem_of_lookup in Hx as [i Hi]. rewrite lookup_drop in Hi.
    by eapply list_elem_of_lookup_2. }
  intros m id content e [Hm|Hm]%elem_of_app Hb.
  - destruct (Hc m id content e Hm Hb) as (m' & n & j & Hm' & Hb'). exists m', n, j. set_solver.
  - apply list_elem_of_singleton in Hm as ->. destruct (Ha id content e Hb) as (m' & n & j & Hm' & Hb').
    exists m', n, j. split; [|done]. set_solver.
Qed.

Lemma cut_safe_app cutoff messages msg :
  cut_safe messages cutoff → answers_recent messages msg → cut_safe (messages ++ [msg]) cutoff.
Proof.
  intros [Hk Hc] Ha. split; [rewrite length_app; cbn; lia|]. apply tool_closed_app; auto.
Qed.

(** A message that is added: whatever the new characters are. *)
Lemma append_ok exact exact' messages msg m m' :
  manager_ok exact messages m → answers_recent messages msg →
  cm_total_turns m' = cm_total_turns m + 1 → cm_compacted_count m' = cm_compacted_count m →
  cm_pending_task m' = cm_pending_task m → cm_pending_cutoff m' = cm_pending_cutoff m →
  cm_active_summary m' = cm_active_summary m →
  (exact' = true → counted (messages ++ [msg]) m') →
  manager_ok exact' (messages ++ [msg]) m'.
Proof.
  intros [[B1 B2] _ Hf Hc Hw Hp Hs] Ha E1 E2 E3 E4 E5 Hcount.
  assert (cm_compacted_count m = 0 ∨ cm_compacted_count m + MIN_TURNS_TO_KEEP ≤ length messages) as Hk
    by (destruct Hf as [?|[? _]]; auto).
  split; rewrite ?E2, ?E3, ?E4, ?E5; [|done|..].
  - split; rewrite ?E1, ?E2, length_app; cbn; lia.
  - destruct Hf; [by left|right; by apply cut_safe_app].
  - by apply tool_closed_app.
  - rewrite <- (drop_0 (messages ++ [msg])). apply tool_closed_app; [by left|done..].
  - intros Ht. apply cut_safe_app; auto.
  - done.
Qed.

Lemma notify_ok exact messages m msg :
  manager_ok exact messages m → answers_recent messages msg →
  manager_ok (exact && negb (cm_active_message_chars_dirty m)) (messages ++ [msg])
    (notify_message_added_with msg m).
Proof.
  intros Hok Ha. eapply append_ok; [done..|]. intros [He Hd]%andb_true_iff. right.
  destruct Hok as [[_ B2] Hcount _ _ _ _ _]. cbn.
  destruct (Hcount He) as [D|E]; [by rewrite D in Hd|].
  by rewrite drop_app_le, chars_of_all_app, chars_of_one, E.
Qed.

(** ** Truncated tool results *)

(** The tools a message calls, and those it answers. *)
Definition same_tools (msg msg' : Message) : Prop :=
  (∀ id name input, ToolUse id name input ∈ msg_content msg → ToolUse id name input ∈ msg_content msg') ∧
  ∀ id content e, ToolResult id content e ∈ msg_content msg' →
    ∃ content' e', ToolResult id content' e' ∈ msg_content msg.

Lemma same_tools_closed messages messages' :
  Forall2 same_tools messages messages' → tool_closed messages → tool_closed messages'.
Proof.
  intros Hs Hc msg' id content e Hm Hb.
  apply list_elem_of_lookup in Hm as [k Hk].
  destruct (Forall2_lookup_r _ _ _ _ _ Hs Hk) as (msg & Hmsg & _ & Hres).
  destruct (Hres _ _ _ Hb) as (content' & e' & Hb').
  destruct (Hc msg id content' e') as (use & name & input & Hin & Huse);
    [by eapply list_elem_of_lookup_2|done|].
  apply list_elem_of_lookup in Hin as [k' Hk'].
  destruct (Forall2_lookup_l _ _ _ _ _ Hs Hk') as (use' & Huse' & Hsame & _).
  exists use', name, input. split; [by eapply list_elem_of_lookup_2|by apply Hsame].
Qed.

Lemma truncate_message_tools max_chars msg : same_tools msg (truncate_message max_chars msg).1.
Proof.
  unfold truncate_message. cbn [fst msg_content]. split.
  - intros id name input Hin. apply list_elem_of_fmap. exists (ToolUse id name input, 0).
    split; [done|]. apply list_elem_of_fmap. by exists (ToolUse id name input).
  - intros id content e Hin. apply list_elem_of_fmap in Hin as ([b n] & E & Hin).
    apply list_elem_of_fmap in Hin as (block & Eb & Hin). cbn in E. subst b.
    destruct block as [| | |id' content' e'| |]; try discriminate. cbn [truncate_block] in Eb.
    destruct (max_chars <? String.length content'); injection Eb as -> _ -> _; eauto.
Qed.

Lemma truncated_tools messages m :
  Forall2 same_tools messages (emergency_truncate_with messages m).1.2.
Proof.
  unfold emergency_truncate_with, emergency_truncate_tool_results. cbn [fst snd].
  rewrite <- (take_drop (cm_compacted_count m `min` length messages) messages) at 1.
  apply Forall2_app.
  - apply Forall_Forall2_diag, Forall_forall. intros msg _. split; eauto.
  - rewrite <- list_fmap_compose. apply Forall2_fmap_r, Forall_Forall2_diag, Forall_forall.
    intros msg _. apply truncate_message_tools.
Qed.

Lemma truncate_ok exact messages m :
  manager_ok exact messages m →
  manager_ok (cm_active_message_chars_dirty m) (emergency_truncate_with messages m).1.2
    (emergency_truncate_with messages m).2.
Proof.
  intros [[B1 B2] _ Hf Hc Hw Hp Hs]. pose proof (truncated_tools messages m) as Ht.
  set (messages' := (emergency_truncate_with messages m).1.2) in *.
  pose proof (Forall2_length _ _ _ Ht) as Hl.
  assert (∀ k, tool_closed (drop k messages) → tool_closed (drop k messages')) as Hd
    by (intros k; by apply same_tools_closed, Forall2_drop).
  assert (∀ k, cut_safe messages k → cut_safe messages' k) as Hcut
    by (intros k [? ?]; split; [lia|auto]).
  assert (manager_ok (cm_active_message_chars_dirty m) messages' m) as Hok.
  { split; [split; lia|by left|naive_solver|auto| |auto|done].
    rewrite <- (drop_0 messages'). apply Hd. by rewrite drop_0. }
  unfold emergency_truncate_with. destruct (emergency_truncate_tool_results _ _) as [active truncated].
  cbn [snd]. destruct (0 <? truncated); [|done]. revert Hok. untouched.
Qed.

(** ** The cache of embeddings *)

(** Only the cache and its counter differ. *)
Definition same_but_cache (m m' : CompactionManager) : Prop :=
  ∃ cache counter, m' = set_semantic_embed_cache cache (set_semantic_embed_cache_counter counter m).

Lemma same_but_cache_refl m : same_but_cache m m.
Proof. exists (cm_semantic_embed_cache m), (cm_semantic_embed_cache_counter m). by destruct m. Qed.

Lemma same_but_cache_trans m1 m2 m3 :
  same_but_cache m1 m2 → same_but_cache m2 m3 → same_but_cache m1 m3.
Proof. intros (c1 & k1 & ->) (c2 & k2 & ->). by exists c2, k2. Qed.

Lemma cached_same text m : same_but_cache m (cached_semantic_embedding text m).2.
Proof.
  unfold cached_semantic_embedding. cbv zeta.
  destruct (cm_semantic_embed_cache m !! _) as [[cached ?]|]; by eexists _, _.
Qed.

Lemma score_messages_same goal_emb keep candidates count earliest m :
  let '(_, earliest', m') := foldl (score_message goal_emb keep) (count, earliest, m) candidates in
  earliest' ≤ earliest ∧ same_but_cache m m'.
Proof.
  revert count earliest m. induction candidates as [|[idx msg] candidates IH]; intros count earliest m.
  { split; [done|apply same_but_cache_refl]. }
  cbn [foldl]. destruct (score_message goal_emb keep (count, earliest, m) (idx, msg))
    as [[count1 earliest1] m1] eqn:E.
  assert (earliest1 ≤ earliest ∧ same_but_cache m m1) as [He Hm].
  { unfold score_message in E. destruct (_ =s ""); [injection E as <- <- <-; split; [done|apply same_but_cache_refl]|].
    pose proof (cached_same (semantic_message_text msg) m) as Hc.
    destruct (cached_semantic_embedding _ m) as [embedding m2].
    destruct embedding; [destruct (f32_ge _ _)|]; injection E as <- <- <-; (split; [lia|exact Hc]). }
  specialize (IH count1 earliest1 m1).
  destruct (foldl _ _ candidates) as [[count2 earliest2] m2]. destruct IH as [He' Hm'].
  split; [lia|]. by eapply same_but_cache_trans.
Qed.

Lemma semantic_cutoff_same active m :
  (semantic_cutoff active m).1 ≤ length active - RECENT_TURNS_TO_KEEP ∧
  same_but_cache m (semantic_cutoff active m).2.
Proof.
  unfold semantic_cutoff. cbv zeta. set (standard := length active - RECENT_TURNS_TO_KEEP).
  destruct (standard =? 0); [split; [cbn; lia|apply same_but_cache_refl]|].
  destruct (_ =s ""); [split; [done|apply same_but_cache_refl]|].
  match goal with |- context [cached_semantic_embedding ?text m] =>
    pose proof (cached_same text m) as Hc; destruct (cached_semantic_embedding text m) as [goal_emb m1] end.
  destruct goal_emb as [goal_emb|]; [|by split].
  pose proof (score_messages_same goal_emb
    (cc_relevance_keep_threshold (cm_compaction_config m)) (imap pair (take standard active)) 0 standard m1) as Hs.
  destruct (foldl _ _ _) as [[count adjusted] m2]. destruct Hs as [He Hm].
  pose proof (same_but_cache_trans _ _ _ Hc Hm).
  repeat case_match; by split.
Qed.

Lemma same_but_cache_ok exact messages m m' :
  same_but_cache m m' → manager_ok exact messages m → manager_ok exact messages m'.
Proof. intros (c & k & ->). untouched. Qed.

(** ** Starting a summary *)

Lemma start_compaction_ok exact messages m provider trigger initial :
  let active := active_messages m messages in
  let cutoff := safe_compaction_cutoff active initial in
  manager_ok exact messages m → initial ≤ length active - RECENT_TURNS_TO_KEEP → cutoff ≠ 0 →
  manager_ok exact messages (start_task provider trigger active cutoff m).
Proof.
  cbv zeta. intros [B Hcount Hf Hc Hw Hp Hs] Hi Hne. rewrite (fronts_active _ _ B) in *.
  destruct (safe_cutoff_safe (drop (cm_compacted_count m) messages) initial) as [Hle [|Hclosed]];
    [done|]. rewrite drop_drop in Hclosed. rewrite length_drop in Hi, Hle.
  split; [| |done|done|done| |done].
  - eapply same_front_fronts; [|exact B]. by repeat split.
  - intros He. eapply same_front_counted; [|exact (Hcount He)]. by repeat split.
  - intros _. cbn. split; [unfold RECENT_TURNS_TO_KEEP, MIN_TURNS_TO_KEEP in *; lia|done].
Qed.

Lemma maybe_start_ok exact messages m m' provider :
  manager_ok exact messages m → maybe_start_compaction_with messages provider m = Some m' →
  manager_ok exact messages m'.
Proof.
  intros Hok. unfold maybe_start_compaction_with. intros E. apply bind_Some in E as (should & _ & E).
  destruct (negb should); [by injection E as <-|].
  set (active := active_messages m messages) in E.
  assert (∃ cutoff m1, (match cm_mode m with
      | Semantic => semantic_cutoff active m
      | _ => (length active - RECENT_TURNS_TO_KEEP, m)
      end) = (cutoff, m1) ∧ cutoff ≤ length active - RECENT_TURNS_TO_KEEP ∧ same_but_cache m m1)
    as (cutoff & m1 & E1 & Hle & Hm1).
  { pose proof (semantic_cutoff_same active m) as Hs. pose proof (same_but_cache_refl m).
    destruct (semantic_cutoff active m) as [c0 m0]. destruct (cm_mode m); by eexists _, _. }
  rewrite E1 in E. pose proof (same_but_cache_ok _ _ _ _ Hm1 Hok) as Hok1.
  destruct (cutoff =? 0); [by injection E as <-|].
  assert (active = active_messages m1 messages) as Ea by (destruct Hm1 as (? & ? & ->); done).
  rewrite Ea in *. destruct (Nat.eqb_spec (safe_compaction_cutoff (active_messages m1 messages) cutoff) 0) as [|Hne];
    injection E as <-; [done|]. by apply start_compaction_ok.
Qed.

Lemma force_ok exact messages m provider :
  manager_ok exact messages m → manager_ok exact messages (force_compact_with messages provider m).2.
Proof.
  intros Hok. unfold force_compact_with. cbv zeta. destruct (is_compacting m); [done|].
  destruct (_ <=? _); [done|]. destruct (f32_lt _ _); [done|]. destruct (_ =? 0); [done|].
  match goal with |- context [if ?c =? 0 then _ else _] => destruct (Nat.eqb_spec c 0) end; [done|].
  by apply start_compaction_ok.
Qed.

(** ** Taking over a summary *)

(** The front moves by the pending cut-off. *)
Definition moved_front (messages : list Message) (m m' : CompactionManager) (cutoff : nat) : Prop :=
  fronts messages m' ∧ cm_compacted_count m' = cm_compacted_count m + cutoff ∧
  cm_total_turns m' = cm_total_turns m.

(** What taking over a summary does to the fields of the front; the characters
    are counted on some list [seen], which need not be the conversation. *)
Lemma apply_result_fields seen result m :
  let m1 := set_compacted_count (cm_compacted_count m + cm_pending_cutoff m) m in
  let m' := apply_result seen result m in
  cm_total_turns m' = cm_total_turns m ∧
  cm_compacted_count m' = cm_compacted_count m + cm_pending_cutoff m ∧
  cm_active_message_chars_dirty m' = false ∧
  cm_active_message_chars m' = active_message_chars_with m1 seen
    - chars_of_all (take (cm_pending_cutoff m) (active_messages m seen)) ∧
  cm_pending_task m' = cm_pending_task m ∧ is_Some (cm_active_summary m').
Proof.
  cbv zeta. unfold apply_result. cbv zeta. set (m2 := set_active_summary _ _).
  assert (same_front m2 (discard_oversized_openai_native_compaction m2).2
    ∧ cm_pending_task (discard_oversized_openai_native_compaction m2).2 = cm_pending_task m2
    ∧ is_Some (cm_active_summary (discard_oversized_openai_native_compaction m2).2)) as (Hd & Ht & Hs).
  { unfold discard_oversized_openai_native_compaction. cbn [cm_active_summary m2 set_active_summary].
    destruct (oversized_encrypted _); (split; [by repeat split|split; [done|by eexists]]). }
  destruct Hd as (D1 & D2 & D3 & D4). set (m3 := (discard_oversized_openai_native_compaction m2).2) in *.
  cbn. by rewrite D1, D2, D3, D4, Ht.
Qed.

Lemma apply_result_front messages seen result m :
  fronts messages m → cm_compacted_count m + cm_pending_cutoff m ≤ length messages →
  moved_front messages m (apply_result seen result m) (cm_pending_cutoff m).
Proof.
  intros [B1 B2] Hle. destruct (apply_result_fields seen result m) as (E1 & E2 & _).
  split; [split; rewrite ?E1, ?E2; [done|lia]|by split].
Qed.

(** The characters that are taken off are those of the messages the front passes,
    when the count is not marked. *)
Lemma apply_result_counted messages result m :
  fronts messages m → cm_compacted_count m + cm_pending_cutoff m ≤ length messages →
  counted messages m → cm_active_message_chars_dirty m = false →
  counted messages (apply_result messages result m).
Proof.
  intros B Hle [D|Hc] Hclean; [congruence|]. right.
  destruct (apply_result_fields messages result m) as (_ & E2 & _ & E4 & _). rewrite E2, E4.
  assert (active_message_chars_with
    (set_compacted_count (cm_compacted_count m + cm_pending_cutoff m) m) messages
    = cm_active_message_chars m) as ->.
  { unfold active_message_chars_with, active_messages_count, active_messages. cbn.
    rewrite Hclean, (f_turns _ _ B), (proj2 (Nat.leb_le _ _)) by done.
    by rewrite length_drop, Nat.eqb_refl. }
  rewrite (fronts_active _ _ B), Hc, <- drop_drop.
  rewrite <- (chars_of_all_take_drop (cm_pending_cutoff m) (drop _ messages)) at 1. lia.
Qed.

(** A finished summary is there to be taken over. *)
Definition takes_over (m : CompactionManager) : bool :=
  match cm_pending_task m with Some (Finished (inl _)) => true | _ => false end.

(** Whether the count can still be relied on when a finished summary is taken
    over: with a marked count the characters of the front are taken off twice
    ([marked_count_subtracts_twice]). *)
Definition check_exact (exact : bool) (m : CompactionManager) : bool :=
  exact && negb (cm_active_message_chars_dirty m && takes_over m).

Lemma check_seen_ok exact exact' messages seen m :
  manager_ok exact messages m →
  (exact' = true → counted messages (check_and_apply_compaction_with seen m)) →
  manager_ok exact' messages (check_and_apply_compaction_with seen m).
Proof.
  intros [B _ Hf Hc Hw Hp Hs]. unfold check_and_apply_compaction_with.
  destruct (cm_pending_task m) as [[?|[result|e]]|] eqn:E; intros Hcount.
  - split; try done. by rewrite E.
  - specialize (Hp ltac:(done)). destruct (Hp) as [Hk Hclosed].
    set (m0 := set_pending_task None m) in *.
    assert (fronts messages m0) as B0 by (eapply same_front_fronts; [|exact B]; by repeat split).
    destruct (apply_result_front messages seen result m0 B0) as (B1 & E1 & _);
      [cbn; unfold MIN_TURNS_TO_KEEP in Hk; lia|].
    destruct (apply_result_fields seen result m0) as (_ & _ & _ & _ & Et & Esum).
    cbn [cm_compacted_count cm_pending_cutoff cm_pending_task set_pending_task m0] in E1, Et.
    split; [done|done|right; by rewrite E1|by rewrite E1|done|rewrite Et; by intros []|by right].
  - split; [|done|done|done|done|by intros []|done]. eapply same_front_fronts; [|exact B]. by repeat split.
  - split; try done. by rewrite E.
Qed.

Lemma check_ok exact messages m :
  manager_ok exact messages m →
  manager_ok (check_exact exact m) messages (check_and_apply_compaction_with messages m).
Proof.
  intros Hok. eapply check_seen_ok; [exact Hok|]. destruct Hok as [B Hcount _ _ _ Hp _].
  unfold check_exact, takes_over, check_and_apply_compaction_with.
  destruct (cm_pending_task m) as [[?|[result|e]]|] eqn:E; intros [He Hd]%andb_true_iff;
    [auto| |eapply same_front_counted; [|by apply Hcount]; by repeat split|auto].
  rewrite andb_true_r in Hd. apply negb_true_iff in Hd.
  destruct (Hp ltac:(done)) as [Hk _]. apply apply_result_counted; [| | |done].
  - eapply same_front_fronts; [|exact B]. by repeat split.
  - cbn. unfold MIN_TURNS_TO_KEEP in Hk. lia.
  - eapply same_front_counted; [|by apply Hcount]. by repeat split.
Qed.

Lemma check_plain_ok exact messages m :
  manager_ok exact messages m → manager_ok true messages (check_and_apply_compaction m).
Proof.
  intros Hok. unfold check_and_apply_compaction.
  pose proof (check_seen_ok _ false messages [] m Hok ltac:(done)) as [[B1 B2] _ ? ? ? ? ?].
  split; try done. intros _. by left.
Qed.

Lemma api_ok exact messages m :
  manager_ok exact messages m →
  manager_ok (check_exact exact m) messages (messages_for_api_with messages m).2.
Proof. intros Hok. unfold messages_for_api_with. cbn [snd]. by apply discard_ok, check_ok. Qed.

(** ** Emergency compaction *)

(** The cut-off that is chosen is the safe one for some number of turns to keep,
    the least number when nothing fits the budget. *)
Lemma hard_cutoff_spec fuel active token_budget turns :
  MIN_TURNS_TO_KEEP ≤ turns → turns < fuel →
  let cutoff := hard_cutoff fuel active
    (remaining_suffix_chars (message_char_count <$> active)) token_budget turns in
  ∃ kept, MIN_TURNS_TO_KEEP ≤ kept ≤ turns ∧
    cutoff = safe_compaction_cutoff active (length active - kept) ∧
    (kept = MIN_TURNS_TO_KEEP ∨
     chars_of_all (drop cutoff active) / CHARS_PER_TOKEN ≤ token_budget).
Proof.
  revert turns. induction fuel as [|fuel IH]; intros turns Hmin Hfuel; [lia|]. cbv zeta.
  cbn [hard_cutoff]. set (cutoff := safe_compaction_cutoff active (length active - turns)).
  destruct ((0 <? cutoff) && _) eqn:E.
  - exists turns. split; [lia|]. split; [done|]. right.
    apply andb_true_iff in E as [_ E%Nat.leb_le].
    rewrite suffix_chars_spec in E; [done|].
    destruct (safe_cutoff_safe active (length active - turns)). lia.
  - destruct (Nat.leb_spec turns MIN_TURNS_TO_KEEP).
    + exists MIN_TURNS_TO_KEEP. split; [lia|]. split; [done|by left].
    + pose proof (Nat.div_lt turns 2 ltac:(unfold MIN_TURNS_TO_KEEP in *; lia) ltac:(lia)).
      destruct (IH ((turns / 2) `max` MIN_TURNS_TO_KEEP)) as (kept & Hk & E' & Hfit);
        [lia|unfold MIN_TURNS_TO_KEEP in *; lia|]. exists kept. split; [lia|]. by split.
Qed.

(** What an emergency compaction leaves, or why there was none. *)
Lemma hard_compact_front messages m :
  fronts messages m →
  match (hard_compact_with messages m).1 with
  | inl dropped =>
      moved_front messages m (hard_compact_with messages m).2 dropped ∧
      books messages (hard_compact_with messages m).2 ∧ dropped ≠ 0 ∧
      is_Some (cm_active_summary (hard_compact_with messages m).2) ∧
      cm_pending_task (hard_compact_with messages m).2 = cm_pending_task m ∧
      ∃ kept, MIN_TURNS_TO_KEEP ≤ kept ∧
        dropped = safe_compaction_cutoff (drop (cm_compacted_count m) messages)
                    (length messages - cm_compacted_count m - kept) ∧
        (kept = MIN_TURNS_TO_KEEP ∨
         chars_of_all (drop dropped (drop (cm_compacted_count m) messages)) / CHARS_PER_TOKEN
         ≤ cm_token_budget m)
  | inr _ => (hard_compact_with messages m).2 = m ∧
      (length messages - cm_compacted_count m ≤ MIN_TURNS_TO_KEEP ∨
       ∃ kept, MIN_TURNS_TO_KEEP ≤ kept ∧
         safe_compaction_cutoff (drop (cm_compacted_count m) messages)
           (length messages - cm_compacted_count m - kept) = 0)
  end.
Proof.
  intros B. unfold hard_compact_with. cbv zeta. rewrite (fronts_active _ _ B).
  set (active := drop (cm_compacted_count m) messages).
  assert (length active = length messages - cm_compacted_count m) as Hla by apply length_drop.
  rewrite <- Hla.
  destruct (Nat.leb_spec (length active) MIN_TURNS_TO_KEEP) as [Hlen|Hlen]; [by split; [|left]|].
  set (turns := RECENT_TURNS_TO_KEEP `min` (length active - 1)).
  set (cutoff := hard_cutoff (S turns) active
    (remaining_suffix_chars (message_char_count <$> active)) (cm_token_budget m) turns).
  destruct (hard_cutoff_spec (S turns) active (cm_token_budget m) turns) as (kept & Hk & Ec & Hfit);
    [unfold turns, RECENT_TURNS_TO_KEEP, MIN_TURNS_TO_KEEP in *; lia|lia|]. fold cutoff in Ec, Hfit.
  destruct (Nat.eqb_spec cutoff 0) as [E0|Hne].
  { split; [done|right]. exists kept. split; [lia|]. by rewrite <- Ec. }
  cbn [fst snd].
  destruct (safe_cutoff_safe active (length active - kept)) as [Hle _]. rewrite <- Ec in Hle.
  destruct B as [B1 B2]. assert (cm_compacted_count m + cutoff ≤ length messages) as Hcl by lia.
  split; [split; [split; [exact B1|exact Hcl]|by split]|].
  split; [|split; [done|split; [by eexists|split; [done|exists kept; split; [lia|by split]]]]].
  split; [exact B1|exact Hcl|done|].
  transitivity (chars_of_all (drop cutoff active)); [|unfold active; by rewrite drop_drop].
  change (default 0 (remaining_suffix_chars (message_char_count <$> active) !! cutoff)
    = chars_of_all (drop cutoff active)).
  apply suffix_chars_spec. lia.
Qed.

Lemma hard_ok exact messages m :
  manager_ok exact messages m → cm_pending_task m = None →
  manager_ok exact messages (hard_compact_with messages m).2.
Proof.
  intros Hok Ht. pose proof Hok as [B Hcount Hf Hc Hw Hp _].
  pose proof (hard_compact_front messages m B) as Hh.
  destruct (hard_compact_with messages m) as [[dropped|e] m']; cbn [fst snd] in *;
    [|by destruct Hh as [-> _]].
  destruct Hh as ((B' & E & _) & Hbooks & Hne & Hs & Ht' & kept & Hk & Ed & _).
  destruct (safe_cutoff_safe (drop (cm_compacted_count m) messages)
    (length messages - cm_compacted_count m - kept)) as [Hle Hclosed].
  rewrite <- Ed, length_drop in Hle. rewrite <- Ed, drop_drop, <- E in Hclosed.
  destruct Hclosed as [|Hclosed]; [done|].
  split; [done|intros _; by apply books_counted| |done|done| |by right].
  - right. split; [|done]. unfold MIN_TURNS_TO_KEEP in *. lia.
  - rewrite Ht', Ht. by intros [].
Qed.

Lemma ensure_context_ok exact messages m provider action m' :
  manager_ok exact messages m → ensure_context_fits messages provider m = Some (action, m') →
  (∀ dropped, action = HardCompacted dropped → cm_pending_task m' = None) →
  manager_ok exact messages m'.
Proof.
  intros Hok E Hhard. unfold ensure_context_fits in E.
  apply bind_Some in E as (m1 & E1 & E). cbv zeta in E.
  pose proof (maybe_start_ok _ _ _ _ _ Hok E1) as Hok1. injection E as E.
  destruct (f32_ge _ _); [|by injection E as _ <-].
  pose proof (hard_compact_front messages m1 (ok_fronts _ _ _ Hok1)) as Hh.
  pose proof (hard_ok _ messages m1 Hok1) as Hok2.
  destruct (hard_compact_with messages m1) as [[dropped|e] m2]; cbn [fst snd] in *.
  - injection E as <- <-. apply Hok2. destruct Hh as (_ & _ & _ & _ & <- & _). by eapply Hhard.
  - injection E as _ <-. by destruct Hh as [-> _].
Qed.

(** ** Sessions *)

(** Every call that changes the manager or the conversation, and the end of the
    background task, with what becomes of the count of characters:
    - a message that is added with its content on a marked count clears the mark
      without counting ([notify_clears_dirty]), and truncating tool results
      leaves an unmarked count as it was ([truncation_keeps_estimate]): the
      count is not to be relied on;
    - a manager that is seeded with the conversation or restored over it from the
      state it would store, a message added without its content and a check
      without the conversation count anew, or set the mark.
    An emergency compaction while a summary is pending is left out: see
    [pending_summary_drops] below. *)
Inductive Step : bool * list Message * CompactionManager → bool * list Message * CompactionManager → Prop :=
| Step_append exact messages m msg :
    answers_recent messages msg →
    Step (exact, messages, m)
      (exact && negb (cm_active_message_chars_dirty m), messages ++ [msg], notify_message_added_with msg m)
| Step_append_uncounted exact messages m msg :
    answers_recent messages msg →
    Step (exact, messages, m) (true, messages ++ [msg], notify_message_added m)
| Step_truncate exact messages m :
    Step (exact, messages, m)
      (cm_active_message_chars_dirty m, (emergency_truncate_with messages m).1.2,
       (emergency_truncate_with messages m).2)
| Step_ensure exact messages m provider action m' :
    ensure_context_fits messages provider m = Some (action, m') →
    (∀ dropped, action = HardCompacted dropped → cm_pending_task m' = None) →
    Step (exact, messages, m) (exact, messages, m')
| Step_start exact messages m provider m' :
    maybe_start_compaction_with messages provider m = Some m' →
    Step (exact, messages, m) (exact, messages, m')
| Step_force exact messages m provider :
    Step (exact, messages, m) (exact, messages, (force_compact_with messages provider m).2)
| Step_task_ends exact messages m task duration panics :
    cm_pending_task m = Some task →
    Step (exact, messages, m)
      (exact, messages, set_pending_task (Some (finish_task duration panics task)) m)
| Step_check exact messages m :
    Step (exact, messages, m)
      (check_exact exact m, messages, check_and_apply_compaction_with messages m)
| Step_check_unseen exact messages m :
    Step (exact, messages, m) (true, messages, check_and_apply_compaction m)
| Step_poll exact messages m :
    Step (exact, messages, m)
      (check_exact exact m, messages, (poll_compaction_event_with messages m).2)
| Step_poll_unseen exact messages m :
    Step (exact, messages, m) (true, messages, (poll_compaction_event m).2)
| Step_api exact messages m :
    Step (exact, messages, m) (check_exact exact m, messages, (messages_for_api_with messages m).2)
| Step_api_unseen exact messages m :
    Step (exact, messages, m) (true, messages, (messages_for_api m).2)
| Step_hard exact messages m :
    cm_pending_task m = None →
    Step (exact, messages, m) (exact, messages, (hard_compact_with messages m).2)
| Step_discard exact messages m :
    Step (exact, messages, m) (exact, messages, (discard_oversized_openai_native_compaction m).2)
| Step_take exact messages m :
    Step (exact, messages, m) (exact, messages, (take_compaction_event m).2)
| Step_snapshot exact messages m tokens :
    Step (exact, messages, m) (exact, messages, push_token_snapshot tokens m)
| Step_embedding exact messages m text :
    Step (exact, messages, m) (exact, messages, push_embedding_snapshot text m)
| Step_observe exact messages m tokens :
    Step (exact, messages, m) (exact, messages, update_observed_input_tokens tokens m)
| Step_budget exact messages m budget :
    Step (exact, messages, m) (exact, messages, set_token_budget budget m)
| Step_mode exact messages m mode :
    Step (exact, messages, m) (exact, messages, set_manager_mode mode m)
| Step_seed exact messages m cfg m' :
    m' = seed_restored_messages (length messages) (manager_new cfg)
    ∨ m' = seed_restored_messages_with messages (manager_new cfg)
    ∨ (∃ stored, sm_content <$> stored = msg_content <$> messages
         ∧ m' = seed_restored_stored_messages_with stored (manager_new cfg)) →
    Step (exact, messages, m) (true, messages, m')
| Step_restore exact messages m m0 state m' :
    persisted_state m = Some state →
    m' = restore_persisted_state state (length messages) m0
    ∨ m' = restore_persisted_state_with state messages m0
    ∨ (∃ stored, sm_content <$> stored = msg_content <$> messages
         ∧ m' = restore_persisted_stored_state_with state stored m0) →
    Step (exact, messages, m) (true, messages, m').

(** Stored messages with the contents of the conversation have its characters. *)
Lemma stored_chars stored messages :
  sm_content <$> stored = msg_content <$> messages →
  stored_chars_of_all stored = chars_of_all messages ∧ length stored = length messages.
Proof.
  intros E. split; [|by rewrite <- (length_fmap sm_content), E, length_fmap].
  unfold stored_chars_of_all, chars_of_all, message_char_count. f_equal.
  change (λ message, content_char_count (sm_content message)) with (content_char_count ∘ sm_content).
  change (λ msg, content_char_count (msg_content msg)) with (content_char_count ∘ msg_content).
  by rewrite !list_fmap_compose, E.
Qed.

Lemma seed_ok messages cfg chars dirty :
  tool_closed messages → dirty = true ∨ chars = chars_of_all messages →
  manager_ok true messages (seed_restored (length messages) chars dirty (manager_new cfg)).
Proof.
  intros Hc Hd. split; cbn; rewrite ?drop_0; [split; cbn; [done|lia]|intros _|by left|done|done|by intros []|by left].
  exact Hd.
Qed.

Lemma seeds_ok messages cfg m' :
  tool_closed messages →
  m' = seed_restored_messages (length messages) (manager_new cfg)
  ∨ m' = seed_restored_messages_with messages (manager_new cfg)
  ∨ (∃ stored, sm_content <$> stored = msg_content <$> messages
       ∧ m' = seed_restored_stored_messages_with stored (manager_new cfg)) →
  manager_ok true messages m'.
Proof.
  intros Hw [->|[->|(stored & [E El]%stored_chars & ->)]].
  - apply seed_ok; [done|]. by destruct messages; [right|left].
  - apply seed_ok; [done|by right].
  - unfold seed_restored_stored_messages_with. rewrite El. apply seed_ok; [done|by right].
Qed.

(** A restored manager: whatever its count of characters, if it is right or
    marked. *)
Lemma restored_ok exact messages m m0 state m' :
  manager_ok exact messages m → persisted_state m = Some state →
  counted messages m' →
  (∃ chars dirty, m' = set_active_message_chars_dirty dirty (set_active_message_chars chars
     (restore_persisted_state state (length messages) m0))) →
  manager_ok true messages m'.
Proof.
  intros [[B1 B2] _ Hf Hc Hw _ _] Hs Hcount (chars & dirty & ->). unfold persisted_state in Hs.
  apply fmap_Some in Hs as (summary & _ & ->).
  assert (cm_compacted_count m `min` length messages = cm_compacted_count m) as Hmin by lia.
  split; cbn; rewrite ?Hmin; [|done|done|done|done|by intros []|by right].
  split; cbn; lia.
Qed.

Lemma restore_ok exact messages m m0 state m' :
  manager_ok exact messages m → persisted_state m = Some state →
  m' = restore_persisted_state state (length messages) m0
  ∨ m' = restore_persisted_state_with state messages m0
  ∨ (∃ stored, sm_content <$> stored = msg_content <$> messages
       ∧ m' = restore_persisted_stored_state_with state stored m0) →
  manager_ok true messages m'.
Proof.
  intros Hok Hs Hm'. set (m1 := restore_persisted_state state (length messages) m0).
  assert (drop (cm_compacted_count m1) messages = active_messages m1 messages) as Ea.
  { unfold active_messages. rewrite (proj2 (Nat.leb_le _ _)); [done|]. cbn. lia. }
  eapply restored_ok; [exact Hok|exact Hs|..]; destruct Hm' as [->|[->|(stored & E & ->)]].
  - unfold counted, restore_persisted_state.
    cbn [cm_active_message_chars_dirty cm_active_message_chars cm_compacted_count].
    destruct (Nat.ltb_spec (st_compacted_count state `min` length messages) (length messages));
      [by left|right]. rewrite drop_ge by lia. done.
  - right. change (chars_of_all (active_messages m1 messages)
      = chars_of_all (drop (cm_compacted_count m1) messages)). by rewrite Ea.
  - right. destruct (stored_chars _ _ E) as [_ El]. cbn. rewrite El, Nat.min_l by lia.
    apply stored_chars. by rewrite !fmap_drop, E.
  - eexists _, _. reflexivity.
  - eexists _, _. reflexivity.
  - destruct (stored_chars _ _ E) as [_ El]. unfold restore_persisted_stored_state_with.
    rewrite El. eexists _, _. reflexivity.
Qed.

Definition state_ok (s : bool * list Message * CompactionManager) : Prop :=
  manager_ok s.1.1 s.1.2 s.2.

Lemma step_ok s s' : Step s s' → state_ok s → state_ok s'.
Proof.
  intros Hstep Hok. destruct Hstep; unfold state_ok in *; cbn [fst snd] in *; try by (revert Hok; untouched).
  - by apply notify_ok.
  - eapply append_ok; [done..|]. intros _. by left.
  - by eapply truncate_ok.
  - by eapply ensure_context_ok.
  - by eapply maybe_start_ok.
  - by apply force_ok.
  - by apply check_ok.
  - by eapply check_plain_ok.
  - unfold poll_compaction_event_with, take_compaction_event. cbn [snd].
    apply check_ok in Hok. revert Hok. untouched.
  - unfold poll_compaction_event, take_compaction_event. cbn [snd].
    apply check_plain_ok in Hok. revert Hok. untouched.
  - by apply api_ok.
  - unfold messages_for_api. cbn [snd]. by eapply discard_ok, check_plain_ok.
  - by apply hard_ok.
  - by apply discard_ok.
  - unfold push_embedding_snapshot.
    match goal with |- context [cached_semantic_embedding ?text m] =>
      pose proof (cached_same text m) as Hc; destruct (cached_semantic_embedding text m) as [emb m1] end.
    pose proof (same_but_cache_ok _ _ _ _ Hc Hok) as Hok1. destruct emb; [|done]. revert Hok1. untouched.
  - eapply seeds_ok; [by apply Hok|eassumption].
  - by eapply restore_ok.
Qed.

Lemma new_ok cfg : state_ok (true, [], manager_new cfg).
Proof.
  split; cbn; [by split|by right|by left|..]; try (by intros []); try (by left);
    by intros ? ? ? ? []%not_elem_of_nil.
Qed.

Lemma steps_ok s s' : rtc Step s s' → state_ok s → state_ok s'.
Proof. induction 1; eauto using step_ok. Qed.

(** ** What the model is sent *)

(** C14. Through every sequence of steps from an empty conversation (every call
    that changes the manager, messages that are added with or without their
    content, tool results that are truncated, restored sessions), in which no
    emergency compaction succeeds while a summary is pending: what the model is
    sent is the conversation from some message on, behind one summary message
    when anything is left out; it holds no tool result without its call, and at
    least the two latest messages when anything is left out; and the manager's
    token estimate is the one of exactly what is sent, unless its count of
    characters was spoiled since it was last made anew: by truncated tool
    results, or by a message or a summary taken in while the count was marked. *)
Theorem session_view_correct cfg exact messages m :
  rtc Step (true, [], manager_new cfg) (exact, messages, m) →
  let '(sent, m') := messages_for_api_with messages m in
  ∃ left_out rest,
    messages = left_out ++ rest ∧ tool_closed rest ∧
    sent = match cm_active_summary m' with Some s => [summary_message s] | None => [] end ++ rest ∧
    (left_out = [] ∨ is_Some (cm_active_summary m') ∧ MIN_TURNS_TO_KEEP ≤ length rest) ∧
    (check_exact exact m = true →
     token_estimate_with m' messages
     = estimate_compaction_tokens (cm_active_summary m') (chars_of_all rest) (cm_token_budget m')).
Proof.
  intros Hsteps. apply steps_ok in Hsteps; [|apply new_ok]. unfold state_ok in Hsteps.
  cbn [fst snd] in Hsteps.
  apply api_ok in Hsteps as Hok. destruct (messages_for_api_with messages m) as [sent m'] eqn:E.
  cbn [snd] in Hok. pose proof Hok as [B Hcount Hf Hc _ _ Hs]. unfold messages_for_api_with in E.
  injection E as Esent Em. rewrite Em in Esent. rewrite (fronts_active _ _ B) in Esent.
  exists (take (cm_compacted_count m') messages), (drop (cm_compacted_count m') messages).
  rewrite take_drop. split; [done|]. split; [done|]. split; [|split].
  - rewrite <- Esent. by destruct (cm_active_summary m').
  - destruct Hf as [->|[Hk _]]; [by left|]. rewrite length_drop.
    destruct Hs as [->|Hs]; [by left|right]. split; [done|lia].
  - intros He. unfold token_estimate_with. by rewrite (counted_chars _ _ B (Hcount He)).
Qed.

(** C15. An emergency compaction, whatever state the manager is in, drops a safe front
    of the active messages: what stays holds no tool result without its call and
    at least the two latest messages; it fits the budget unless only the least
    number of turns was left to keep; the drop is counted and announced, and a
    summary with the names of the dropped tools stands for it. An error leaves
    the manager as it was. *)
Theorem hard_compact_correct messages m :
  books messages m →
  let active := drop (cm_compacted_count m) messages in
  let '(r, m') := hard_compact_with messages m in
  match r with
  | inl dropped =>
      0 < dropped ∧ dropped + MIN_TURNS_TO_KEEP ≤ length active ∧
      active_messages m' messages = drop dropped active ∧
      tool_closed (active_messages m' messages) ∧
      books messages m' ∧ is_Some (cm_active_summary m') ∧
      (chars_of_all (active_messages m' messages) / CHARS_PER_TOKEN ≤ cm_token_budget m ∨
       dropped = safe_compaction_cutoff active (length active - MIN_TURNS_TO_KEEP))
  | inr _ => m' = m ∧ (length active ≤ MIN_TURNS_TO_KEEP ∨
      ∃ kept, MIN_TURNS_TO_KEEP ≤ kept ∧ safe_compaction_cutoff active (length active - kept) = 0)
  end.
Proof.
  intros B active. apply books_fronts in B. pose proof (hard_compact_front messages m B) as Hh.
  assert (length active = length messages - cm_compacted_count m) as Hla by apply length_drop.
  rewrite <- Hla in Hh. fold active in Hh.
  destruct (hard_compact_with messages m) as [[dropped|e] m']; cbn [fst snd] in *; [|done].
  destruct Hh as ((B' & E & _) & Hbooks & Hne & Hs & _ & kept & Hk & Ed & Hfit).
  destruct (safe_cutoff_safe active (length active - kept)) as [Hle Hclosed].
  rewrite <- Ed in Hle, Hclosed. destruct Hclosed as [|Hclosed]; [done|].
  assert (active_messages m' messages = drop dropped active) as Ea.
  { rewrite (fronts_active _ _ B'), E. unfold active. by rewrite drop_drop. }
  rewrite Ea. unfold MIN_TURNS_TO_KEEP in *.
  split_and!; [lia|lia|done|done|done|done|]. destruct Hfit as [->|?]; [by right|by left].
Qed.
End theorems.

(** * The compaction manager on concrete sessions

    Sessions that meet the hypotheses of the properties, and sessions that show
    where the manager does not do what it means to. *)

(** A provider without native compaction, and no embedding model. *)
Definition sample_provider : Provider := {|
  native_compact _ _ _ := inr "unsupported";
  complete_simple _ _ := inl "the summary";
  context_window := 200000;
|}.

#[local] Instance no_embedder : Embedder := {|
  embed _ := None; semantic_cache_key text := Z.of_nat (String.length text) |}.

Definition forty : string := "0123456789012345678901234567890123456789".
Definition sample_turns (n : nat) : list Message := replicate n (message_user 0 forty).

(** A session whose messages were seeded; a new message ends the suppression. *)
Definition seeded (budget n : nat) : CompactionManager :=
  notify_message_added_with (message_user 0 forty)
    (seed_restored_messages_with (sample_turns (n - 1))
      (set_token_budget budget (manager_new compaction_config_default))).

Definition finish (m : CompactionManager) : CompactionManager :=
  set_pending_task (finish_task 5 None <$> cm_pending_task m) m.

Definition critical : CompactionManager :=
  match ensure_context_fits (sample_turns 30) sample_provider (seeded 300 30) with
  | Some (_, m) => m
  | None => seeded 300 30
  end.

(** ** A session that meets the hypotheses *)

Definition appended (n : nat) : CompactionManager :=
  Nat.iter n (notify_message_added_with (message_user 0 forty))
    (set_token_budget 100 (manager_new compaction_config_default)).

Lemma appends_step n :
  rtc Step (true, [], manager_new compaction_config_default) (true, sample_turns n, appended n).
Proof.
  induction n as [|n IH]; [apply rtc_once, Step_budget|].
  assert (cm_active_message_chars_dirty (appended n) = false) as Hd by by destruct n.
  eapply rtc_r; [exact IH|]. unfold sample_turns. rewrite replicate_S_end.
  pose proof (Step_append true (replicate n (message_user 0 forty)) (appended n)
    (message_user 0 forty)) as Hs. rewrite Hd in Hs. apply Hs. intros id content e Hin. cbn in Hin. by apply list_elem_of_singleton in Hin.
Qed.

Definition compacted : CompactionManager := (hard_compact_with (sample_turns 12) (appended 12)).2.

Lemma session_view_correct_witness :
  rtc Step (true, [], manager_new compaction_config_default) (true, sample_turns 12, compacted)
  ∧ let '(sent, m) := messages_for_api_with (sample_turns 12) compacted in
    ∃ left_out rest,
      sample_turns 12 = left_out ++ rest ∧ tool_closed rest ∧
      sent = match cm_active_summary m with Some s => [summary_message s] | None => [] end ++ rest ∧
      (left_out = [] ∨ is_Some (cm_active_summary m) ∧ MIN_TURNS_TO_KEEP ≤ length rest) ∧
      token_estimate_with m (sample_turns 12)
      = estimate_compaction_tokens (cm_active_summary m) (chars_of_all rest) (cm_token_budget m).
Proof.
  assert (rtc Step (true, [], manager_new compaction_config_default)
    (true, sample_turns 12, compacted)) as Hs.
  { eapply rtc_r; [apply appends_step|]. apply Step_hard. reflexivity. }
  split; [exact Hs|]. pose proof (session_view_correct _ _ _ _ Hs) as Hv.
  destruct (messages_for_api_with (sample_turns 12) compacted) as [sent m].
  destruct Hv as (left_out & rest & E1 & E2 & E3 & E4 & E5). exists left_out, rest.
  split_and!; [done..|]. apply E5. vm_compute. reflexivity.
Defined.

Lemma hard_compact_correct_witness :
  books (sample_turns 12) (appended 12)
  ∧ match hard_compact_with (sample_turns 12) (appended 12) with
    | (inl dropped, m) => dropped = 2 ∧ active_messages m (sample_turns 12) = drop dropped (sample_turns 12)
    | (inr _, _) => False
    end.
Proof.
  assert (books (sample_turns 12) (appended 12)) as B by (split; vm_compute; try reflexivity; lia).
  split; [exact B|]. pose proof (hard_compact_correct _ _ B) as Hc. cbv zeta in Hc.
  destruct (hard_compact_with (sample_turns 12) (appended 12)) as [[dropped|e] m] eqn:E.
  - split; [|exact (proj1 (proj2 (proj2 Hc)))].
    change dropped with (match (inl dropped : nat + string, m).1 with inl d => d | _ => 0 end).
    rewrite <- E. vm_compute. reflexivity.
  - apply (f_equal fst) in E. vm_compute in E. discriminate E.
Defined.

(** ** Errors of the manager *)

(** At critical usage a summary of the front is started and then the same front is
    dropped. When the summary arrives the front moves a second time: of 45
    messages the first 20 are in the summary and the last 5 are sent, the 20
    between are lost. *)
Example pending_summary_drops :
  fst <$> ensure_context_fits (sample_turns 30) sample_provider (seeded 300 30)
  = Some (HardCompacted 20)
  ∧ cm_compacted_count critical = 20
  ∧ let later := Nat.iter 15 (notify_message_added_with (message_user 0 forty)) (finish critical) in
    let '(sent, m) := messages_for_api_with (sample_turns 45) later in
    length sent = 1 + 5 ∧ su_covers_up_to_turn <$> cm_active_summary m = Some 20.
Proof. vm_compute. repeat split. Qed.

(** With no message in between, the front passes the end of the conversation, and
    the whole conversation is sent again behind its summary. *)
Example pending_summary_resends :
  let '(sent, m) := messages_for_api_with (sample_turns 30) (finish critical) in
  cm_compacted_count m = 40 ∧ length sent = 1 + 30.
Proof. vm_compute. by split. Qed.

(** A message with its content clears the mark that the characters are to be
    counted again: the estimate knows the new message only. *)
Example notify_clears_dirty :
  let messages := sample_turns 30 in
  let m := notify_message_added_with (message_user 0 forty)
             (seed_restored_messages 29 (set_token_budget 300 (manager_new compaction_config_default))) in
  token_estimate_with m messages = 10 ∧ chars_of_all messages / CHARS_PER_TOKEN = 300.
Proof. vm_compute. by split. Qed.

(** Truncating tool results leaves the count of characters as it was. *)
Example truncation_keeps_estimate :
  let result := tool_result 0 "t" (str_concat (replicate 125 forty)) false in
  let m := notify_message_added_with result
             (set_token_budget 300 (manager_new compaction_config_default)) in
  let '(truncated, messages, m') := emergency_truncate_with [result] m in
  truncated = 1 ∧ token_estimate_with m' messages = 1255
  ∧ chars_of_all messages / CHARS_PER_TOKEN = 768.
Proof. vm_compute. repeat apply conj; reflexivity. Qed.

(** A summary taken over while the count is marked: the characters are counted
    from the new front on, and those of the old front are taken off once more.
    Of 10 messages that are sent the estimate knows nothing. *)
Example marked_count_subtracts_twice :
  let messages := sample_turns 30 in
  let m := set_active_message_chars_dirty true
             (finish (force_compact_with messages sample_provider (seeded 300 30)).2) in
  let m' := check_and_apply_compaction_with messages m in
  cm_compacted_count m' = 20 ∧ active_message_chars_with m' messages = 0
  ∧ chars_of_all (active_messages m' messages) = 400.
Proof. vm_compute. repeat apply conj; reflexivity. Qed.

(** A stall window of no turns makes the proactive mode panic. *)
Definition no_stall_window : CompactionConfig := {|
  cc_mode := Proactive; cc_lookahead_turns := 15; cc_ewma_alpha := f32_0_3;
  cc_proactive_floor := f32_0_40; cc_min_samples := 3; cc_stall_window := 0;
  cc_min_turns_between_compactions := 10; cc_topic_shift_threshold := f32_0_45;
  cc_relevance_keep_threshold := f32_0_65; cc_goal_window_turns := 5 |}.

Example no_stall_window_panics :
  let m := set_compaction_config no_stall_window (set_mode Proactive (seeded 300 30)) in
  let m := push_token_snapshot 3 (push_token_snapshot 2 (push_token_snapshot 1 m)) in
  should_compact_with m (sample_turns 30) = None.
Proof. vm_compute. reflexivity. Qed.
