(* ===== verification/OpenAiRequest.v ===== *)
(** * The input of an OpenAI request ([crates/gcode-provider-openai/src/request.rs])

    [build_responses_input] turns a conversation into the items of a request.
    The provider refuses a call without its output and an output without its
    call, so results that come early, late, twice or never are set right in four
    passes. The JSON objects of the items are constructors here. *)

From S2P Require Import Prelude Utf8 Text Messages CompactionManager.
Open Scope nat_scope.

(** What [serde_json] tells about a value besides its text. *)
Class JsonObject `{Json} := json_is_object : json → bool.

#[export] Instance json_text_object : JsonObject := starts_with "{".

Inductive OpenAiRequestLogLevel := Info | Warn.

Definition is_openai_encrypted_content_too_large_error (error : string) : bool :=
  let lower := ascii_lowercase error in
  str_contains "encrypted_content" lower
  && (str_contains "string_above_max_length" lower
      || str_contains "string too long" lower
      || str_contains "maximum length" lower
      || str_contains "large_string_param" lower
      || str_contains "largestringparam" lower).

(** ** Items *)

Inductive InputPart :=
| InputText (text : string)
| InputImage (image_url : string).

Inductive InputItem :=
| UserMessage (content : list InputPart)
| AssistantMessage (text : string)
| CompactionItem (encrypted_content : string)
| FunctionCall (name arguments call_id : string)
| FunctionCallOutput (call_id output : string).

#[export] Instance InputPart_eq_dec : EqDecision InputPart.
Proof. solve_decision. Defined.
#[export] Instance InputItem_eq_dec : EqDecision InputItem.
Proof. solve_decision. Defined.

Definition missing_output : string := "[Error] " +:+ TOOL_OUTPUT_MISSING_TEXT.

Definition orphan_tool_output_to_user_message (call_id output : string) : option InputItem :=
  let output := trim output in
  if (output =s "") || (output =s missing_output) then None
  else Some (UserMessage [InputText ("[Recovered orphaned tool output: " +:+ call_id +:+ "]"
                                     +:+ nl +:+ output)]).

(** ** The first pass *)

(** The variables of the loop over the messages. *)
Record Build := {
  bd_items : list InputItem;
  bd_open_calls : gset string;
  bd_pending_outputs : gmap string string;
  bd_used_outputs : gset string;
  bd_skipped_results : usize;
  bd_delayed_results : usize;
  bd_injected_missing : usize;
  bd_logs : list (OpenAiRequestLogLevel * string);
}.

Definition build_start : Build := {|
  bd_items := []; bd_open_calls := ∅; bd_pending_outputs := ∅; bd_used_outputs := ∅;
  bd_skipped_results := 0; bd_delayed_results := 0; bd_injected_missing := 0; bd_logs := [] |}.

Definition push_items (items : list InputItem) (b : Build) : Build := {|
  bd_items := bd_items b ++ items; bd_open_calls := bd_open_calls b;
  bd_pending_outputs := bd_pending_outputs b; bd_used_outputs := bd_used_outputs b;
  bd_skipped_results := bd_skipped_results b; bd_delayed_results := bd_delayed_results b;
  bd_injected_missing := bd_injected_missing b; bd_logs := bd_logs b |}.

Definition set_calls (open_calls : gset string) (pending_outputs : gmap string string)
    (used_outputs : gset string) (b : Build) : Build := {|
  bd_items := bd_items b; bd_open_calls := open_calls; bd_pending_outputs := pending_outputs;
  bd_used_outputs := used_outputs; bd_skipped_results := bd_skipped_results b;
  bd_delayed_results := bd_delayed_results b; bd_injected_missing := bd_injected_missing b;
  bd_logs := bd_logs b |}.

Definition count_results (skipped delayed injected : usize) (b : Build) : Build := {|
  bd_items := bd_items b; bd_open_calls := bd_open_calls b;
  bd_pending_outputs := bd_pending_outputs b; bd_used_outputs := bd_used_outputs b;
  bd_skipped_results := bd_skipped_results b + skipped;
  bd_delayed_results := bd_delayed_results b + delayed;
  bd_injected_missing := bd_injected_missing b + injected; bd_logs := bd_logs b |}.

Definition log_build (logs : list (OpenAiRequestLogLevel * string)) (b : Build) : Build := {|
  bd_items := bd_items b; bd_open_calls := bd_open_calls b;
  bd_pending_outputs := bd_pending_outputs b; bd_used_outputs := bd_used_outputs b;
  bd_skipped_results := bd_skipped_results b; bd_delayed_results := bd_delayed_results b;
  bd_injected_missing := bd_injected_missing b; bd_logs := bd_logs b ++ logs |}.

(** A message is pushed for the parts collected so far, if any. *)
Definition flush_parts (content_parts : list InputPart) : list InputItem :=
  match content_parts with [] => [] | _ => [UserMessage content_parts] end.

Definition log_when (n : usize) (level : OpenAiRequestLogLevel) (text : string)
    : list (OpenAiRequestLogLevel * string) := if 0 <? n then [(level, text)] else [].

(** What is sent for native compaction state, and the warning when it is too large. *)
Definition compaction_item (encrypted_content : string) : InputItem :=
  if openai_encrypted_content_is_sendable encrypted_content then CompactionItem encrypted_content
  else UserMessage
         [InputText (openai_encrypted_content_fallback_summary (String.length encrypted_content))].

Definition compaction_logs (encrypted_content : string)
    : list (OpenAiRequestLogLevel * string) :=
  if openai_encrypted_content_is_sendable encrypted_content then []
  else [(Warn, "[openai] Dropping oversized native compaction payload before request build ("
               +:+ pretty (String.length encrypted_content) +:+ " chars > safe limit "
               +:+ pretty OPENAI_ENCRYPTED_CONTENT_SAFE_MAX_CHARS +:+ " chars)")].

Definition result_output (content : string) (is_error : option bool) : string :=
  if bool_decide (is_error = Some true) then "[Error] " +:+ content else content.

Section build.
Context `{Json, !JsonObject, HashOrder}.

(** One tool result of a user message. *)
Definition place_result (tool_use_id output : string) (b : Build) : Build :=
  if decide (tool_use_id ∈ bd_used_outputs b) then count_results 1 0 0 b
  else if decide (tool_use_id ∈ bd_open_calls b) then
    set_calls (bd_open_calls b ∖ {[tool_use_id]}) (bd_pending_outputs b)
      ({[tool_use_id]} ∪ bd_used_outputs b)
      (push_items [FunctionCallOutput (sanitize_tool_id tool_use_id) output] b)
  else
    match bd_pending_outputs b !! tool_use_id with
    | Some _ => count_results 1 0 0 b
    | None =>
        count_results 0 1 0
          (set_calls (bd_open_calls b) (<[tool_use_id := output]> (bd_pending_outputs b))
             (bd_used_outputs b) b)
    end.

Definition user_block (state : list InputPart * Build) (block : ContentBlock)
    : list InputPart * Build :=
  let (content_parts, b) := state in
  match block with
  | Image media_type data =>
      (content_parts ++ [InputImage ("data:" +:+ media_type +:+ ";base64," +:+ data)], b)
  | Messages.Text text _ => (content_parts ++ [InputText text], b)
  | OpenAICompaction encrypted_content =>
      ([], push_items [compaction_item encrypted_content]
             (log_build (compaction_logs encrypted_content)
                (push_items (flush_parts content_parts) b)))
  | ToolResult tool_use_id content is_error =>
      ([], place_result tool_use_id (result_output content is_error)
             (push_items (flush_parts content_parts) b))
  | Reasoning _ | ToolUse _ _ _ => state
  end.

(** The position of the last user message with a result, by the call. *)
Definition result_ids (msg : Message) : list string :=
  match msg_role msg with
  | User => omap (λ block, match block with ToolResult id _ _ => Some id | _ => None end)
              (msg_content msg)
  | Assistant => []
  end.

Definition tool_result_last_pos (messages : list Message) : gmap string usize :=
  foldl (λ last_pos '(idx, msg),
           foldl (λ last_pos id, <[id := idx]> last_pos) last_pos (result_ids msg))
    ∅ (imap pair messages).

Definition call_item (id name : string) (input : json) : InputItem :=
  let arguments := if json_is_object input then json_to_string input else "{}" in
  FunctionCall name arguments (sanitize_tool_id id).

(** A call of an assistant message, and its output when the output is known. *)
Definition place_call (last_pos : gmap string usize) (idx : usize) (id name : string)
    (input : json) (b : Build) : Build :=
  let b := push_items [call_item id name input] b in
  match bd_pending_outputs b !! id with
  | Some output =>
      set_calls (bd_open_calls b) (delete id (bd_pending_outputs b))
        ({[id]} ∪ bd_used_outputs b)
        (push_items [FunctionCallOutput (sanitize_tool_id id) output] b)
  | None =>
      if from_option (λ pos, idx <? pos) false (last_pos !! id) then
        set_calls ({[id]} ∪ bd_open_calls b) (bd_pending_outputs b) (bd_used_outputs b) b
      else
        count_results 0 0 1
          (set_calls (bd_open_calls b) (bd_pending_outputs b) ({[id]} ∪ bd_used_outputs b)
             (push_items [FunctionCallOutput (sanitize_tool_id id) missing_output] b))
  end.

Definition assistant_block (last_pos : gmap string usize) (idx : usize) (b : Build)
    (block : ContentBlock) : Build :=
  match block with
  | Messages.Text text _ => push_items [AssistantMessage text] b
  | ToolUse id name input => place_call last_pos idx id name input b
  | _ => b
  end.

Definition build_message (last_pos : gmap string usize) (b : Build) (entry : usize * Message)
    : Build :=
  let (idx, msg) := entry in
  match msg_role msg with
  | User =>
      let (content_parts, b) := foldl user_block ([], b) (msg_content msg) in
      push_items (flush_parts content_parts) b
  | Assistant => foldl (assistant_block last_pos idx) b (msg_content msg)
  end.

(** The calls that are open after the last message. *)
Definition close_call (b : Build) (call_id : string) : Build :=
  if decide (call_id ∈ bd_used_outputs b) then b
  else
    match bd_pending_outputs b !! call_id with
    | Some output =>
        set_calls (bd_open_calls b) (delete call_id (bd_pending_outputs b)) (bd_used_outputs b)
          (push_items [FunctionCallOutput (sanitize_tool_id call_id) output] b)
    | None =>
        count_results 0 0 1
          (push_items [FunctionCallOutput (sanitize_tool_id call_id) missing_output] b)
    end.

(** The results that no call claimed, in the order of their ids. *)
Definition key_leb (a b : string * string) : bool := String.leb a.1 b.1.

Definition recover_pending (state : usize * Build) (entry : string * string) : usize * Build :=
  let (rewritten, b) := state in
  match orphan_tool_output_to_user_message (sanitize_tool_id entry.1) entry.2 with
  | Some message_item => (rewritten + 1, push_items [message_item] b)
  | None => (rewritten, count_results 1 0 0 b)
  end.

(** [REWRITTEN_ORPHAN_TOOL_OUTPUTS], a counter of the process, is passed along. *)
Definition first_pass (messages : list Message) (rewritten_total : u64) : Build * u64 :=
  let last_pos := tool_result_last_pos messages in
  let b := foldl (build_message last_pos) build_start (imap pair messages) in
  let b := foldl close_call b (hash_elements (bd_open_calls b)) in
  let b := log_build (log_when (bd_delayed_results b) Info
    ("[openai] Delayed " +:+ pretty (bd_delayed_results b)
     +:+ " tool output(s) to preserve call ordering")) b in
  let pending_entries := sort_by key_leb (hash_entries (bd_pending_outputs b)) in
  let (rewritten, b) := foldl recover_pending (0, b) pending_entries in
  let b := log_build (log_when (bd_injected_missing b) Info
    ("[openai] Injected " +:+ pretty (bd_injected_missing b)
     +:+ " synthetic tool output(s) to prevent API error")) b in
  let total := wrap_u 64 (rewritten_total + Z.of_nat rewritten) in
  let b := log_build (log_when rewritten Info
    ("[openai] Rewrote " +:+ pretty rewritten
     +:+ " pending orphaned tool output(s) as user messages (total=" +:+ pretty total +:+ ")")) b in
  let b := log_build (log_when (bd_skipped_results b) Info
    ("[openai] Filtered " +:+ pretty (bd_skipped_results b)
     +:+ " orphaned tool result(s) to prevent API error")) b in
  (b, total).

(** ** The later passes *)

Definition output_id (item : InputItem) : option string :=
  match item with FunctionCallOutput call_id _ => Some call_id | _ => None end.

(** The second pass gives a call that has no output anywhere a missing one. *)
Definition normalize_item (state : list InputItem * gset string * usize) (item : InputItem)
    : list InputItem * gset string * usize :=
  let '(normalized, output_ids, extra_injected) := state in
  match item with
  | FunctionCall _ _ call_id =>
      if decide (call_id ∈ output_ids) then (normalized ++ [item], output_ids, extra_injected)
      else (normalized ++ [item; FunctionCallOutput call_id missing_output],
            {[call_id]} ∪ output_ids, extra_injected + 1)
  | _ => (normalized ++ [item], output_ids, extra_injected)
  end.

(** The third pass chooses an output for every id: the first that is not missing. *)
Definition choose_output (output_map : gmap string string) (item : InputItem)
    : gmap string string :=
  match item with
  | FunctionCallOutput call_id output =>
      match output_map !! call_id with
      | Some existing =>
          if (existing =s missing_output) && negb (output =s missing_output)
          then <[call_id := output]> output_map else output_map
      | None => <[call_id := output]> output_map
      end
  | _ => output_map
  end.

(** The fourth pass puts every output behind its call. *)
Record Ordered := {
  od_items : list InputItem;
  od_used_outputs : gset string;
  od_injected_ordered : usize;
  od_dropped_duplicate_outputs : usize;
  od_rewritten_orphans : usize;
  od_skipped_empty_orphans : usize;
}.

Definition ordered_start : Ordered := {|
  od_items := []; od_used_outputs := ∅; od_injected_ordered := 0;
  od_dropped_duplicate_outputs := 0; od_rewritten_orphans := 0; od_skipped_empty_orphans := 0 |}.

Definition order_push (items : list InputItem) (used : gset string)
    (injected dropped rewritten skipped : usize) (o : Ordered) : Ordered := {|
  od_items := od_items o ++ items; od_used_outputs := used ∪ od_used_outputs o;
  od_injected_ordered := od_injected_ordered o + injected;
  od_dropped_duplicate_outputs := od_dropped_duplicate_outputs o + dropped;
  od_rewritten_orphans := od_rewritten_orphans o + rewritten;
  od_skipped_empty_orphans := od_skipped_empty_orphans o + skipped |}.

Definition order_item (output_map : gmap string string) (o : Ordered) (item : InputItem)
    : Ordered :=
  match item with
  | FunctionCall _ _ call_id =>
      match output_map !! call_id with
      | Some output =>
          order_push [item; FunctionCallOutput call_id output] {[call_id]} 0 0 0 0 o
      | None =>
          order_push [item; FunctionCallOutput call_id missing_output] {[call_id]} 1 0 0 0 o
      end
  | FunctionCallOutput call_id output =>
      if decide (call_id ∈ od_used_outputs o) then order_push [] ∅ 0 1 0 0 o
      else
        match orphan_tool_output_to_user_message call_id output with
        | Some message_item => order_push [message_item] ∅ 0 0 1 0 o
        | None => order_push [] ∅ 0 0 0 1 o
        end
  | _ => order_push [item] ∅ 0 0 0 0 o
  end.

Definition build_responses_input_with_logger (messages : list Message) (rewritten_total : u64)
    : list InputItem * list (OpenAiRequestLogLevel * string) * u64 :=
  let (b, total) := first_pass messages rewritten_total in
  let items := bd_items b in
  let '(normalized, _, extra_injected) :=
    foldl normalize_item ([], list_to_set (omap output_id items), 0) items in
  let output_map := foldl choose_output ∅ normalized in
  let o := foldl (order_item output_map) ordered_start normalized in
  let rewritten := od_rewritten_orphans o in
  let total' := wrap_u 64 (total + Z.of_nat rewritten) in
  (od_items o,
   bd_logs b
   ++ log_when extra_injected Info
        ("[openai] Safety-injected " +:+ pretty extra_injected
         +:+ " missing tool output(s) at request build")
   ++ log_when (od_injected_ordered o) Info
        ("[openai] Inserted " +:+ pretty (od_injected_ordered o)
         +:+ " tool output(s) to enforce call ordering")
   ++ log_when (od_dropped_duplicate_outputs o) Info
        ("[openai] Dropped " +:+ pretty (od_dropped_duplicate_outputs o)
         +:+ " duplicate tool output(s) during re-ordering")
   ++ log_when rewritten Info
        ("[openai] Rewrote " +:+ pretty rewritten
         +:+ " orphaned tool output(s) as user messages (total=" +:+ pretty total' +:+ ")")
   ++ log_when (od_skipped_empty_orphans o) Info
        ("[openai] Skipped " +:+ pretty (od_skipped_empty_orphans o)
         +:+ " empty orphaned tool output(s) during re-ordering"),
   total').

Definition build_responses_input (messages : list Message) (rewritten_total : u64)
    : list InputItem * u64 :=
  let '(items, _, total) := build_responses_input_with_logger messages rewritten_total in
  (items, total).
End build.
