(* ===== verification/OpenAiRequestTheorems.v ===== *)
(** * Properties of the input of an OpenAI request

    The four passes together give the plain translation of the conversation,
    with every call directly followed by its output, and the results without a
    call behind it. *)

From S2P Require Import Prelude Utf8 Text Messages CompactionManager OpenAiRequest.
Open Scope nat_scope.

Section theorems.
Context `{Json, !JsonObject, HashOrder}.

(** ** The reference translation *)

(** A user message without its results; a result ends the message before it. *)
Fixpoint plain_user (content_parts : list InputPart) (blocks : list ContentBlock)
    : list InputItem :=
  match blocks with
  | [] => flush_parts content_parts
  | Image media_type data :: blocks =>
      plain_user (content_parts ++ [InputImage ("data:" +:+ media_type +:+ ";base64," +:+ data)])
        blocks
  | Messages.Text text _ :: blocks => plain_user (content_parts ++ [InputText text]) blocks
  | OpenAICompaction encrypted_content :: blocks =>
      flush_parts content_parts ++ compaction_item encrypted_content :: plain_user [] blocks
  | ToolResult _ _ _ :: blocks => flush_parts content_parts ++ plain_user [] blocks
  | _ :: blocks => plain_user content_parts blocks
  end.

Definition plain_assistant (block : ContentBlock) : list InputItem :=
  match block with
  | Messages.Text text _ => [AssistantMessage text]
  | ToolUse id name input => [call_item id name input]
  | _ => []
  end.

Definition plain_message (msg : Message) : list InputItem :=
  match msg_role msg with
  | User => plain_user [] (msg_content msg)
  | Assistant => msg_content msg ≫= plain_assistant
  end.

Definition plain_items (messages : list Message) : list InputItem := messages ≫= plain_message.

(** The results of the users and the calls of the assistant, in order. *)
Definition block_results (blocks : list ContentBlock) : list (string * string) :=
  omap (λ block, match block with
                 | ToolResult id content e => Some (id, result_output content e)
                 | _ => None
                 end) blocks.
Definition block_calls (blocks : list ContentBlock) : list string :=
  omap (λ block, match block with ToolUse id _ _ => Some id | _ => None end) blocks.

Definition message_results (msg : Message) : list (string * string) :=
  match msg_role msg with User => block_results (msg_content msg) | Assistant => [] end.
Definition message_calls (msg : Message) : list string :=
  match msg_role msg with User => [] | Assistant => block_calls (msg_content msg) end.

Definition results (messages : list Message) : list (string * string) := messages ≫= message_results.
Definition calls (messages : list Message) : list string := messages ≫= message_calls.

(** The first result of a call is its result. *)
Definition first_results (rs : list (string * string)) : gmap string string := list_to_map rs.

Definition expected_output (messages : list Message) (id : string) : string :=
  default missing_output (first_results (results messages) !! id).

Definition with_output (outputs : string → string) (item : InputItem) : list InputItem :=
  match item with
  | FunctionCall _ _ call_id => [item; FunctionCallOutput call_id (outputs call_id)]
  | _ => [item]
  end.

(** Results that no call asked for. *)
Definition unclaimed (messages : list Message) : gmap string string :=
  filter (λ entry, entry.1 ∉ calls messages) (first_results (results messages)).

Definition recovered (messages : list Message) : list InputItem :=
  omap (λ entry, orphan_tool_output_to_user_message (sanitize_tool_id entry.1) entry.2)
    (sort_by key_leb (map_to_list (unclaimed messages))).

(** ** Items *)

Definition is_output (item : InputItem) : bool :=
  match item with FunctionCallOutput _ _ => true | _ => false end.

Definition strip (items : list InputItem) : list InputItem :=
  filter (λ item, is_output item = false) items.

Lemma strip_app l1 l2 : strip (l1 ++ l2) = strip l1 ++ strip l2.
Proof. apply filter_app. Qed.

Lemma strip_one item : strip [item] = if is_output item then [] else [item].
Proof. by destruct item. Qed.

(** Neither a call nor an output. *)
Definition plain (item : InputItem) : Prop :=
  match item with FunctionCall _ _ _ | FunctionCallOutput _ _ => False | _ => True end.

Lemma strip_plain items : Forall plain items → strip items = items.
Proof.
  induction 1 as [|item items Hp _ IH]; [done|]. unfold strip in *.
  rewrite filter_cons_True, IH; [done|]. by destruct item.
Qed.

Lemma flush_plain parts : Forall plain (flush_parts parts).
Proof. destruct parts; repeat constructor. Qed.

Lemma compaction_plain e : plain (compaction_item e).
Proof. unfold compaction_item. by case_match. Qed.

(** Every output comes after a call with its id. *)
Definition outputs_after (items : list InputItem) : Prop :=
  ∀ i cid o, items !! i = Some (FunctionCallOutput cid o) →
    ∃ j n a, j < i ∧ items !! j = Some (FunctionCall n a cid).

Lemma outputs_after_app l1 l2 :
  outputs_after l1 →
  (∀ cid o, FunctionCallOutput cid o ∈ l2 → ∃ n a, FunctionCall n a cid ∈ l1) →
  outputs_after (l1 ++ l2).
Proof.
  intros Hl1 Hl2 i cid o [Hi|[Hle Hi]]%lookup_app_Some.
  - destruct (Hl1 _ _ _ Hi) as (j & n & a & Hj & E). exists j, n, a.
    split; [done|]. by apply lookup_app_l_Some.
  - destruct (Hl2 cid o) as (n & a & [j Hj]%list_elem_of_lookup); [by eapply list_elem_of_lookup_2|].
    exists j, n, a. split; [apply lookup_lt_Some in Hj; lia|by apply lookup_app_l_Some].
Qed.

Lemma outputs_after_prefix l1 l2 : outputs_after (l1 ++ l2) → outputs_after l1.
Proof.
  intros Ho i cid o Hi. destruct (Ho i cid o) as (j & n & a & Hj & E);
    [by apply lookup_app_l_Some|]. exists j, n, a. split; [done|].
  rewrite lookup_app_l in E; [done|]. apply lookup_lt_Some in Hi. lia.
Qed.

(** ** The first pass *)

(** The items hold an output for every answered call: its result, or nothing but
    missing outputs when it has none. *)
Record items_ok (final : gmap string string) (cs : list string) (used : gset string)
    (items : list InputItem) : Prop := {
  io_outputs : ∀ cid o, FunctionCallOutput cid o ∈ items →
    ∃ id, id ∈ used ∧ cid = sanitize_tool_id id ∧
      (o = default missing_output (final !! id) ∨ o = missing_output);
  io_answered : ∀ id, id ∈ used →
    FunctionCallOutput (sanitize_tool_id id) (default missing_output (final !! id)) ∈ items;
  io_calls : ∀ id, id ∈ cs → ∃ n a, FunctionCall n a (sanitize_tool_id id) ∈ items;
  io_call_ids : ∀ n a cid, FunctionCall n a cid ∈ items → ∃ id, id ∈ cs ∧ cid = sanitize_tool_id id;
  io_after : outputs_after items;
}.

(** After some results and calls of a conversation whose first results are
    [final], a call is answered, or open and its result is to come; the results
    without a call so far are pending. *)
Record calls_ok (final : gmap string string) (rs : list (string * string)) (cs : list string)
    (pending : gmap string string) (open used : gset string) : Prop := {
  co_pending : ∀ id, pending !! id = if decide (id ∈ cs) then None else first_results rs !! id;
  co_open : ∀ id, id ∈ open → id ∈ cs;
  co_used : ∀ id, id ∈ used → id ∈ cs;
  co_called : ∀ id, id ∈ cs → id ∈ used ∨
    (id ∈ open ∧ first_results rs !! id = None ∧ is_Some (final !! id));
}.

Definition pass_ok (final : gmap string string) (rs : list (string * string)) (cs : list string)
    (b : Build) : Prop :=
  items_ok final cs (bd_used_outputs b) (bd_items b) ∧
  calls_ok final rs cs (bd_pending_outputs b) (bd_open_calls b) (bd_used_outputs b).

Lemma start_ok final : pass_ok final [] [] build_start.
Proof.
  split; split; try (intros *; cbn; set_solver). intros i cid o Hi. by destruct i.
Qed.

Lemma plain_items_ok final cs used l items :
  Forall plain items → items_ok final cs used l → items_ok final cs used (l ++ items).
Proof.
  intros Hp [I A Ca Ci Af]. rewrite Forall_forall in Hp. split.
  - intros cid o [?|Hin]%elem_of_app; [auto|]. by apply Hp in Hin.
  - intros id Hid. apply elem_of_app. left. auto.
  - intros id Hid. destruct (Ca id Hid) as (n & a & Hin). exists n, a. apply elem_of_app. by left.
  - intros n a cid [?|Hin]%elem_of_app; [eauto|]. by apply Hp in Hin.
  - apply outputs_after_app; [done|]. intros cid o Hin. by apply Hp in Hin.
Qed.

Lemma answer_items_ok final cs used l id o :
  id ∈ cs → o = default missing_output (final !! id) ∨ o = missing_output ∧ id ∈ used →
  items_ok final cs used l →
  items_ok final cs ({[id]} ∪ used) (l ++ [FunctionCallOutput (sanitize_tool_id id) o]).
Proof.
  intros Hid Ho [I A Ca Ci Af]. split.
  - intros cid o' [Hin|Hin]%elem_of_app.
    + destruct (I _ _ Hin) as (id' & Hid' & ?). exists id'. split; [set_solver|done].
    + apply list_elem_of_singleton in Hin as [= -> ->]. exists id. split; [set_solver|].
      split; [done|]. by destruct Ho as [?|[? _]]; [left|right].
  - intros id' [->%elem_of_singleton|?]%elem_of_union; apply elem_of_app; [|left; auto].
    destruct Ho as [<-|[_ ?]]; [right; by apply list_elem_of_singleton|left; auto].
  - intros id' Hc. destruct (Ca id' Hc) as (n & a & ?). exists n, a. apply elem_of_app. by left.
  - intros n a cid [?|Hin]%elem_of_app; [eauto|]. by apply list_elem_of_singleton in Hin.
  - apply outputs_after_app; [done|]. intros cid o' Hin.
    apply list_elem_of_singleton in Hin as [= -> _]. auto.
Qed.

Lemma call_items_ok final cs used l id name input :
  items_ok final cs used l → items_ok final (cs ++ [id]) used (l ++ [call_item id name input]).
Proof.
  intros [I A Ca Ci Af]. split.
  - intros cid o [?|Hin]%elem_of_app; [auto|]. by apply list_elem_of_singleton in Hin.
  - intros id' Hid'. apply elem_of_app. left. auto.
  - intros id' [Hid'|Hid']%elem_of_app.
    + destruct (Ca id' Hid') as (n & a & Hin). exists n, a. apply elem_of_app. by left.
    + apply list_elem_of_singleton in Hid' as ->. eexists _, _. apply elem_of_app. right.
      by apply list_elem_of_singleton.
  - intros n a cid [Hin|Hin]%elem_of_app.
    + destruct (Ci _ _ _ Hin) as (id' & ? & ?). exists id'. split; [apply elem_of_app; by left|done].
    + apply list_elem_of_singleton in Hin. injection Hin as _ _ ->. exists id.
      split; [|done]. apply elem_of_app. right. by apply list_elem_of_singleton.
  - apply outputs_after_app; [done|]. intros cid o Hin. by apply list_elem_of_singleton in Hin.
Qed.

Lemma push_plain_ok final rs cs b items :
  Forall plain items → pass_ok final rs cs b → pass_ok final rs cs (push_items items b).
Proof. intros Hp [Hi Hc]. split; [by apply plain_items_ok|done]. Qed.

Lemma first_results_app rs1 rs2 id :
  first_results (rs1 ++ rs2) !! id
  = match first_results rs1 !! id with Some o => Some o | None => first_results rs2 !! id end.
Proof. unfold first_results. rewrite list_to_map_app, lookup_union. by destruct (_ !! id), (_ !! id). Qed.

Lemma first_results_snoc rs id o id' :
  first_results (rs ++ [(id, o)]) !! id'
  = match first_results rs !! id' with
    | Some o' => Some o'
    | None => if decide (id' = id) then Some o else None
    end.
Proof.
  rewrite first_results_app. destruct (first_results rs !! id'); [done|].
  unfold first_results. cbn. rewrite lookup_insert. repeat case_decide; congruence || done.
Qed.

Lemma first_results_next rs id o later :
  first_results rs !! id = None → first_results (rs ++ (id, o) :: later) !! id = Some o.
Proof.
  intros E. rewrite first_results_app, E. unfold first_results. cbn. by rewrite lookup_insert_eq.
Qed.

(** A result of a call that already has one, or of no open call. *)
Lemma later_result_ok final rs cs pending open used id o :
  id ∈ used ∨ (id ∉ cs ∧ is_Some (first_results rs !! id)) →
  calls_ok final rs cs pending open used → calls_ok final (rs ++ [(id, o)]) cs pending open used.
Proof.
  intros Hid [P O U C]. split; try done.
  - intros id'. rewrite P, first_results_snoc. case_decide as Hcs; [done|].
    destruct (first_results rs !! id') eqn:E; [done|]. case_decide as Eid; [|done]. subst id'.
    destruct Hid as [?|[_ [? ?]]]; [by destruct Hcs; apply U|congruence].
  - intros id' Hc. rewrite first_results_snoc. destruct (C _ Hc) as [?|(? & En & ?)]; [by left|].
    rewrite En. case_decide as Eid; [|by right]. subst id'. left. by destruct Hid as [?|[? _]].
Qed.

Lemma place_result_ok final rs cs b id o later :
  final = first_results (rs ++ (id, o) :: later) →
  pass_ok final rs cs b → pass_ok final (rs ++ [(id, o)]) cs (place_result id o b).
Proof.
  intros Ef [Hi Hcalls]. pose proof Hcalls as [P O U C]. unfold place_result.
  destruct (decide (id ∈ bd_used_outputs b)) as [Hu|Hu]; [|destruct (decide (id ∈ bd_open_calls b)) as [Ho|Ho]].
  - split; [done|]. apply later_result_ok; auto.
  - destruct (C id (O id Ho)) as [?|(_ & En & _)]; [done|].
    assert (final !! id = Some o) as Hf by (rewrite Ef; by apply first_results_next).
    split; [apply answer_items_ok; [auto|left; by rewrite Hf|done]|].
    split; cbn [set_calls push_items bd_pending_outputs bd_open_calls bd_used_outputs].
    + intros id'. rewrite P, first_results_snoc. case_decide; [done|].
      destruct (first_results rs !! id'); [done|]. case_decide; [subst; by apply O in Ho|done].
    + set_solver.
    + intros id' [->%elem_of_singleton|?]%elem_of_union; auto.
    + intros id' Hc. destruct (decide (id' = id)) as [->|Hne]; [left; set_solver|].
      destruct (C id' Hc) as [?|(Ho' & En' & ?)]; [left; set_solver|right].
      rewrite first_results_snoc, En', decide_False by done. split; [set_solver|done].
  - assert (id ∉ cs) as Hc by (intros Hc; by destruct (C id Hc) as [?|[? _]]).
    pose proof (P id) as Hp. rewrite decide_False in Hp by done. rewrite Hp.
    destruct (first_results rs !! id) as [o'|] eqn:E.
    { split; [done|]. apply later_result_ok; [right|done]. by rewrite E. }
    split; [done|]. split; cbn [set_calls count_results bd_pending_outputs bd_open_calls bd_used_outputs];
      try done.
    + intros id'. rewrite lookup_insert, first_results_snoc, P.
      destruct (decide (id = id')) as [<-|Hne]; [by rewrite E, decide_False, decide_True by done|].
      case_decide; [done|]. destruct (first_results rs !! id'); [done|]. by rewrite decide_False.
    + intros id' Hc'. destruct (C id' Hc') as [?|(? & En' & ?)]; [by left|right].
      rewrite first_results_snoc, En', decide_False; [done|]. by intros ->.
Qed.

(** A call, when its output was pending, is to come, or will not come. *)
Lemma call_calls_ok final rs cs pending open used open' used' id :
  calls_ok final rs cs pending open used →
  open ⊆ open' → open' ⊆ {[id]} ∪ open → used ⊆ used' → used' ⊆ {[id]} ∪ used →
  id ∈ used' ∨ (id ∈ open' ∧ first_results rs !! id = None ∧ is_Some (final !! id)) →
  calls_ok final rs (cs ++ [id]) (delete id pending) open' used'.
Proof.
  intros [P O U C] Ho Ho' Hu Hu' Hid.
  assert (∀ id', id' ∈ cs ++ [id] ↔ id' ∈ cs ∨ id' = id) as Hin
    by (intros id'; by rewrite elem_of_app, list_elem_of_singleton).
  split.
  - intros id'. destruct (decide (id' = id)) as [->|Hne].
    + rewrite lookup_delete_eq, decide_True; [done|]. apply Hin. by right.
    + rewrite lookup_delete_ne, P by done. specialize (Hin id').
      do 2 case_decide; tauto.
  - intros id' Hid'. apply Hin. specialize (Ho' _ Hid'). set_solver.
  - intros id' Hid'. apply Hin. specialize (Hu' _ Hid'). set_solver.
  - intros id' [Hc| ->]%Hin; [|done]. destruct (C id' Hc) as [?|(? & ? & ?)]; [left|right]; auto.
Qed.

Lemma place_call_ok final rs cs b last_pos idx id name input later :
  final = first_results (rs ++ later) →
  from_option (λ pos, idx <? pos) false (last_pos !! id)
  = bool_decide (is_Some (first_results later !! id)) →
  pass_ok final rs cs b →
  pass_ok final rs (cs ++ [id]) (place_call last_pos idx id name input b).
Proof.
  intros Ef Hfuture [Hi Hcalls]. pose proof Hcalls as [P O U C]. unfold place_call. cbv zeta.
  rewrite Hfuture. apply (call_items_ok _ _ _ _ id name input) in Hi.
  assert (id ∈ cs ++ [id]) as Hid by (apply elem_of_app; right; by apply list_elem_of_singleton).
  cbn [push_items bd_pending_outputs]. destruct (bd_pending_outputs b !! id) as [o|] eqn:E.
  - rewrite P in E. case_decide as Hc; [done|].
    assert (final !! id = Some o) as Hf by (by rewrite Ef, first_results_app, E).
    split; [apply answer_items_ok; [done|left; by rewrite Hf|done]|].
    eapply call_calls_ok; [done|set_solver..].
  - assert (delete id (bd_pending_outputs b) = bd_pending_outputs b) as Ed by by apply delete_id.
    case_bool_decide as Hlater.
    + split; [done|]. cbn [set_calls bd_pending_outputs]. rewrite <- Ed.
      eapply call_calls_ok; [done|set_solver..|]. cbn [set_calls push_items bd_open_calls bd_used_outputs].
      destruct (decide (id ∈ cs)) as [Hc|Hc].
      * destruct (C id Hc) as [?|(? & ? & ?)]; [by left|right]. split; [set_solver|done].
      * rewrite P, decide_False in E by done. right. split; [set_solver|]. split; [done|].
        by rewrite Ef, first_results_app, E.
    + assert (final !! id = first_results rs !! id) as Ef'.
      { rewrite Ef, first_results_app. destruct (first_results rs !! id); [done|].
        by apply eq_None_not_Some. }
      split.
      * apply answer_items_ok; [done| |done]. cbn [push_items bd_used_outputs].
        destruct (decide (id ∈ cs)) as [Hc|Hc].
        -- destruct (C id Hc) as [?|(_ & En & [? Hs])]; [by right|]. by rewrite Ef', En in Hs.
        -- rewrite P, decide_False in E by done. left. by rewrite Ef', E.
      * cbn [count_results set_calls bd_pending_outputs]. rewrite <- Ed.
        eapply call_calls_ok; [done|set_solver..].
Qed.

(** ** Whole messages *)

Lemma strip_push items b : strip (bd_items (push_items items b)) = strip (bd_items b) ++ strip items.
Proof. apply strip_app. Qed.

Lemma strip_place_result id o b : strip (bd_items (place_result id o b)) = strip (bd_items b).
Proof.
  unfold place_result. repeat case_match; cbn; rewrite ?strip_app; unfold strip; cbn; by rewrite ?app_nil_r.
Qed.

Lemma strip_place_call last_pos idx id name input b :
  strip (bd_items (place_call last_pos idx id name input b))
  = strip (bd_items b) ++ [call_item id name input].
Proof.
  unfold place_call. cbv zeta. repeat case_match; cbn; rewrite ?strip_app; unfold strip; cbn;
    by rewrite ?app_nil_r.
Qed.

Lemma user_blocks_ok final cs blocks : ∀ rs later parts b,
  final = first_results (rs ++ block_results blocks ++ later) → pass_ok final rs cs b →
  let '(parts', b') := foldl user_block (parts, b) blocks in
  pass_ok final (rs ++ block_results blocks) cs b' ∧
  strip (bd_items b') ++ flush_parts parts' = strip (bd_items b) ++ plain_user parts blocks.
Proof.
  induction blocks as [|block blocks IH]; intros rs later parts b Ef Hok.
  { cbn. rewrite app_nil_r. by split. }
  destruct block as [t c|t|? ? ?|id content e|mt d|enc]; cbn [foldl user_block plain_user block_results omap list_omap].
  1,2,3,5: by eapply IH.
  - specialize (IH (rs ++ [(id, result_output content e)]) later []
      (place_result id (result_output content e) (push_items (flush_parts parts) b))).
    rewrite <- app_assoc in IH. specialize (IH Ef).
    destruct (foldl _ _ blocks) as [parts' b'].
    destruct IH as [Hok' Hs].
    { eapply place_result_ok; [exact Ef|]. apply push_plain_ok; [apply flush_plain|done]. }
    split; [by rewrite <- app_assoc in Hok'|].
    rewrite Hs, strip_place_result, strip_push, (strip_plain (flush_parts parts)), app_assoc by apply flush_plain. done.
  - match goal with |- context [foldl user_block ([], ?b1)] => specialize (IH rs later [] b1 Ef) end.
    destruct (foldl _ _ blocks) as [parts' b']. destruct IH as [Hok' Hs].
    { apply push_plain_ok; [repeat constructor; apply compaction_plain|].
      apply push_plain_ok; [apply flush_plain|done]. }
    split; [done|]. rewrite Hs, strip_push. cbn [log_build bd_items].
    rewrite strip_push, (strip_plain (flush_parts parts)), (strip_plain [_]), <- !app_assoc; [done| |apply flush_plain].
    repeat constructor. apply compaction_plain.
Qed.

Lemma assistant_blocks_ok final rs later last_pos idx blocks :
  final = first_results (rs ++ later) →
  (∀ id, from_option (λ pos, idx <? pos) false (last_pos !! id)
         = bool_decide (is_Some (first_results later !! id))) →
  ∀ cs b, pass_ok final rs cs b →
  let b' := foldl (assistant_block last_pos idx) b blocks in
  pass_ok final rs (cs ++ block_calls blocks) b' ∧
  strip (bd_items b') = strip (bd_items b) ++ (blocks ≫= plain_assistant).
Proof.
  intros Ef Hfuture. induction blocks as [|block blocks IH]; intros cs b Hok.
  { cbn. by rewrite !app_nil_r. }
  destruct block as [t c|t|id name input|? ? ?|? ?|?]; cbn [foldl assistant_block block_calls omap list_omap].
  2,4,5,6: by apply IH.
  - destruct (IH cs (push_items [AssistantMessage t] b)) as [Hok' Hs];
      [apply push_plain_ok; [by repeat constructor|done]|].
    split; [done|]. rewrite Hs, strip_push, (strip_plain [_]), <- app_assoc by by repeat constructor. done.
  - destruct (IH (cs ++ [id]) (place_call last_pos idx id name input b)) as [Hok' Hs];
      [by eapply place_call_ok|].
    split; [by rewrite <- app_assoc in Hok'|]. rewrite Hs, strip_place_call, <- app_assoc. done.
Qed.

(** ** Results to come *)

Lemma imap_pair_snoc {A} (l : list A) x : imap pair (l ++ [x]) = imap pair l ++ [(length l, x)].
Proof. rewrite imap_app. cbn. by rewrite Nat.add_0_r. Qed.

Lemma result_ids_results msg : result_ids msg = (message_results msg).*1.
Proof.
  unfold result_ids, message_results. destruct (msg_role msg); [|done].
  unfold block_results. induction (msg_content msg) as [|[] blocks IH]; cbn in *; by rewrite ?IH.
Qed.

Lemma last_pos_snoc messages msg id :
  tool_result_last_pos (messages ++ [msg]) !! id
  = if decide (id ∈ result_ids msg) then Some (length messages)
    else tool_result_last_pos messages !! id.
Proof.
  unfold tool_result_last_pos. rewrite imap_pair_snoc, foldl_app. cbn [foldl].
  set (m := foldl _ ∅ _). clearbody m. generalize (result_ids msg) as ids. intros ids. revert m.
  induction ids as [|id' ids IH]; intros m; cbn [foldl]; [by rewrite decide_False by set_solver|].
  rewrite IH, lookup_insert. repeat case_decide; try done; set_solver.
Qed.

Lemma last_pos_lt messages id pos :
  tool_result_last_pos messages !! id = Some pos → pos < length messages.
Proof.
  revert pos. induction messages as [|msg messages IH] using rev_ind; intros pos; [done|].
  rewrite last_pos_snoc, length_app. cbn. case_decide; [intros [= <-]; lia|]. intros E. apply IH in E. lia.
Qed.

Lemma results_app l1 l2 : results (l1 ++ l2) = results l1 ++ results l2.
Proof. apply bind_app. Qed.

Lemma calls_app l1 l2 : calls (l1 ++ l2) = calls l1 ++ calls l2.
Proof. apply bind_app. Qed.

Lemma first_results_dom rs id : is_Some (first_results rs !! id) ↔ id ∈ rs.*1.
Proof.
  unfold first_results. rewrite <- elem_of_dom, dom_list_to_map, elem_of_list_to_set. done.
Qed.

(** The position of the last result tells whether a result is to come. *)
Lemma future_result front msg later id :
  message_results msg = [] →
  from_option (λ pos, length front <? pos) false (tool_result_last_pos (front ++ msg :: later) !! id)
  = bool_decide (is_Some (first_results (results later) !! id)).
Proof.
  intros Hmsg. induction later as [|m later IH] using rev_ind.
  - rewrite last_pos_snoc, result_ids_results, Hmsg, decide_False by set_solver.
    rewrite bool_decide_eq_false_2 by (rewrite first_results_dom; set_solver).
    destruct (_ !! id) as [pos|] eqn:E; [|done]. apply last_pos_lt in E.
    cbn. by apply Nat.ltb_ge; lia.
  - change (front ++ msg :: later ++ [m]) with (front ++ (msg :: later) ++ [m]).
    rewrite app_assoc, last_pos_snoc, length_app, result_ids_results. case_decide as Hin.
    + cbn [from_option length]. rewrite (proj2 (Nat.ltb_lt _ _)) by lia. symmetry.
      apply bool_decide_eq_true. rewrite first_results_dom, results_app, fmap_app, elem_of_app.
      right. unfold results. cbn. by rewrite app_nil_r.
    + rewrite IH. apply bool_decide_ext. rewrite !first_results_dom, results_app, fmap_app, elem_of_app.
      unfold results at 3. cbn. rewrite app_nil_r. tauto.
Qed.

(** ** The passes *)

Lemma results_cons msg l : results (msg :: l) = message_results msg ++ results l.
Proof. done. Qed.

Lemma singles msg :
  results [msg] = message_results msg ∧ calls [msg] = message_calls msg ∧
  plain_items [msg] = plain_message msg.
Proof. unfold results, calls, plain_items. cbn. by rewrite !app_nil_r. Qed.

Lemma messages_ok messages front later :
  messages = front ++ later →
  let b := foldl (build_message (tool_result_last_pos messages)) build_start (imap pair front) in
  pass_ok (first_results (results messages)) (results front) (calls front) b ∧
  strip (bd_items b) = plain_items front.
Proof.
  revert later. induction front as [|msg front IH] using rev_ind; intros later Em; cbv zeta.
  { split; [apply start_ok|done]. }
  rewrite <- app_assoc in Em. destruct (IH _ Em) as [Hok Hs]. cbv zeta in *. clear IH.
  rewrite imap_pair_snoc, foldl_app. cbn [foldl]. set (b := foldl _ _ _) in *.
  assert (plain_items (front ++ [msg]) = plain_items front ++ plain_message msg) as Ep.
  { unfold plain_items. rewrite bind_app. cbn. by rewrite app_nil_r. }
  destruct (singles msg) as (E1 & E2 & _). rewrite results_app, calls_app, E1, E2, Ep, <- Hs.
  assert (results messages = results front ++ message_results msg ++ results later) as Er
    by (by rewrite Em, !results_app, E1).
  unfold build_message, plain_message, message_calls.
  unfold message_results in Er |- *. destruct (msg_role msg) eqn:Erole.
  - pose proof (user_blocks_ok (first_results (results messages)) (calls front) (msg_content msg)
      (results front) (results later) [] b) as Hu.
    destruct (foldl user_block _ _) as [parts b']. destruct Hu as [Hok' Hs']; [by rewrite Er|done|].
    rewrite app_nil_r. split; [apply push_plain_ok; [apply flush_plain|done]|].
    by rewrite strip_push, (strip_plain (flush_parts parts)) by apply flush_plain.
  - rewrite app_nil_r.
    apply (assistant_blocks_ok _ _ (results later)); [by rewrite Er| |done].
    intros id. rewrite Em. apply future_result. unfold message_results. by rewrite Erole.
Qed.

(** After the first pass no call is open any more, so nothing is left to close. *)
Lemma close_nothing cs ids final rs b :
  pass_ok final rs cs b → final = first_results rs →
  (∀ id, id ∈ ids → id ∈ cs) → foldl close_call b ids = b.
Proof.
  intros [_ [_ _ _ C]] -> Hids. induction ids as [|id ids IH]; [done|]. cbn [foldl].
  assert (close_call b id = b) as ->; [|apply IH; set_solver].
  unfold close_call. rewrite decide_True; [done|].
  destruct (C id) as [?|(_ & -> & [? [=]])]; [set_solver|done].
Qed.

Lemma recover_items entries n b :
  bd_items (foldl recover_pending (n, b) entries).2
  = bd_items b
    ++ omap (λ entry, orphan_tool_output_to_user_message (sanitize_tool_id entry.1) entry.2) entries.
Proof.
  revert n b. induction entries as [|e entries IH]; intros n b; [by rewrite app_nil_r|].
  cbn [foldl recover_pending omap list_omap].
  destruct (orphan_tool_output_to_user_message _ _); rewrite IH; [|done].
  cbn [push_items bd_items]. by rewrite <- app_assoc.
Qed.

Lemma recovered_plain messages : Forall plain (recovered messages).
Proof.
  apply Forall_forall. intros item ([id o] & _ & E)%list_elem_of_omap. revert E.
  unfold orphan_tool_output_to_user_message. by case_match; intros [= <-].
Qed.

(** The items after the first pass. *)
Lemma first_pass_items messages total :
  ∃ items used,
    bd_items (first_pass messages total).1 = items ++ recovered messages ∧
    strip items = plain_items messages ∧
    items_ok (first_results (results messages)) (calls messages) used items ∧
    (∀ id, id ∈ used ↔ id ∈ calls messages).
Proof.
  unfold first_pass. cbv zeta.
  destruct (messages_ok messages messages [] ltac:(by rewrite app_nil_r)) as [Hok Hs].
  cbv zeta in *. set (b := foldl (build_message _) _ _) in *.
  destruct (Hok) as [Hi [P O U C]].
  rewrite (close_nothing (calls messages) _ (first_results (results messages)) (results messages) b);
    [|done..|intros id Hid; by apply O, elem_of_hash_elements].
  match goal with |- context [foldl recover_pending (0, ?b1) ?entries] =>
    pose proof (recover_items entries 0 b1) as Er; destruct (foldl recover_pending (0, b1) entries)
      as [n b2] end.
  cbn [fst snd log_build bd_items bd_pending_outputs] in *.
  exists (bd_items b), (bd_used_outputs b). split_and!; [|done..|].
  - rewrite Er. f_equal. unfold recovered. f_equal. apply sort_by_keys_unique;
      [apply NoDup_hash_keys|]. rewrite hash_entries_perm.
    assert (bd_pending_outputs b = unclaimed messages) as ->; [|done].
    apply map_eq. intros id. rewrite P. unfold unclaimed. case_decide as Hc.
    + symmetry. apply map_lookup_filter_None. right. intros o _ Hn. by apply Hn.
    + destruct (first_results (results messages) !! id) as [o|] eqn:E; symmetry.
      * by apply map_lookup_filter_Some.
      * apply map_lookup_filter_None. by left.
  - intros id. split; [apply U|]. intros Hid.
    destruct (C id Hid) as [?|(_ & E & [? Hs'])]; [done|]. by rewrite E in Hs'.
Qed.

(** The second pass finds an output for every call. *)
Lemma normalize_nothing ids n items front :
  (∀ name a cid, FunctionCall name a cid ∈ items → cid ∈ ids) →
  foldl normalize_item (front, ids, n) items = (front ++ items, ids, n).
Proof.
  revert front. induction items as [|item items IH]; intros front Hin; [by rewrite app_nil_r|].
  cbn [foldl].
  assert (normalize_item (front, ids, n) item = (front ++ [item], ids, n)) as E.
  { unfold normalize_item. destruct item; try done. rewrite decide_True; [done|].
    eapply Hin. by left. }
  rewrite E, IH, <- app_assoc; [done|]. intros name a cid Hc. eapply Hin. by right.
Qed.

(** The third pass chooses an output that is there, not a missing one if another is. *)
Lemma chosen_output items cid :
  let output_map := foldl choose_output ∅ items in
  (∀ o, output_map !! cid = Some o → FunctionCallOutput cid o ∈ items) ∧
  (∀ o, FunctionCallOutput cid o ∈ items → ∃ o', output_map !! cid = Some o' ∧
     (o ≠ missing_output → o' ≠ missing_output)).
Proof.
  induction items as [|item items [IH1 IH2]] using rev_ind; cbv zeta in *.
  { split; [done|set_solver]. }
  rewrite foldl_app. cbn [foldl]. set (m := foldl _ _ _) in *.
  split.
  - intros o Ho. apply elem_of_app. unfold choose_output in Ho.
    destruct item as [| | | |c o']; try (left; by apply IH1).
    destruct (m !! c) as [existing|] eqn:Ec; [destruct (_ && _); [|left; by apply IH1]|].
    all: apply lookup_insert_Some in Ho as [[-> ->]|[_ Ho]]; [right; by apply list_elem_of_singleton|left; auto].
  - intros o [Hin|Hin]%elem_of_app.
    + destruct (IH2 _ Hin) as (o' & Ho' & Hm). unfold choose_output.
      destruct item as [| | | |c o'']; try by exists o'.
      destruct (decide (c = cid)) as [->|Hne].
      * rewrite Ho'. destruct (_ && _) eqn:E; [|by exists o'].
        exists o''. rewrite lookup_insert_eq. split; [done|]. intros _.
        apply andb_true_iff in E as [_ E%negb_true_iff%eqb_false]. done.
      * exists o'. split; [|done].
        destruct (m !! c); [destruct (_ && _)|]; by rewrite ?lookup_insert_ne.
    + apply list_elem_of_singleton in Hin as <-. unfold choose_output.
      destruct (m !! cid) as [existing|] eqn:Ec; [|exists o; by rewrite lookup_insert_eq].
      destruct (_ && _) eqn:E; [exists o; by rewrite lookup_insert_eq|].
      exists existing. split; [done|]. intros Ho ->. rewrite <- eqb_false in Ho.
      rewrite Ho in E. by rewrite (proj2 (eqb_true _ _) eq_refl) in E.
Qed.

(** The fourth pass puts the chosen output behind every call. *)
Lemma ordered_items output_map items :
  outputs_after items →
  let o := foldl (order_item output_map) ordered_start items in
  od_items o = (strip items ≫= with_output (λ cid, default missing_output (output_map !! cid))) ∧
  (∀ name a cid, FunctionCall name a cid ∈ items → cid ∈ od_used_outputs o).
Proof.
  induction items as [|item items IH] using rev_ind; intros Hafter; cbv zeta in *.
  { split; [done|set_solver]. }
  destruct (IH (outputs_after_prefix _ _ Hafter)) as [IH1 IH2]. clear IH.
  rewrite foldl_app. cbn [foldl]. set (o := foldl _ _ _) in *.
  rewrite strip_app, bind_app, <- IH1.
  assert (∀ c out, item = FunctionCallOutput c out → c ∈ od_used_outputs o) as Hout.
  { intros c out ->. destruct (Hafter (length items) c out) as (j & n & a & Hj & E);
      [by rewrite list_lookup_middle|]. rewrite lookup_app_l in E by done.
    eapply IH2, list_elem_of_lookup_2. exact E. }
  unfold order_item. destruct item as [p|t|e|n a c|c out].
  1,2,3: rewrite strip_one; split; [done|]; intros n' a' cid [Hin|Hin]%elem_of_app;
    [cbn; apply IH2 in Hin; set_solver|by apply list_elem_of_singleton in Hin].
  - destruct (output_map !! c) as [out|] eqn:E; (split; [by rewrite strip_one; cbn; rewrite E|]);
      intros n' a' cid [Hin|Hin]%elem_of_app; cbn;
      first [apply IH2 in Hin; set_solver
            |apply list_elem_of_singleton in Hin; injection Hin as _ _ ->; set_solver].
  - rewrite decide_True by by eapply Hout. split; [done|].
    intros n' a' cid [Hin|Hin]%elem_of_app; [cbn; apply IH2 in Hin; set_solver|].
    by apply list_elem_of_singleton in Hin.
Qed.

(** Outputs are put behind calls only. *)
Lemma plain_with_output outputs items :
  Forall plain items → (items ≫= with_output outputs) = items.
Proof. induction 1 as [|item l Hi _ IH]; [done|]. cbn. rewrite IH. by destruct item. Qed.

(** ** The input of the request *)

(** C16. The input is the plain translation of the conversation, every call directly
    followed by one output, and behind it the results that no call asked for, as
    messages in the order of their ids, once each and not when empty. The output
    of a call whose id stays apart from the ids of the other calls when it is
    sanitized is the first result for it, wherever in the conversation it stands,
    and the notice of a missing output when there is none. Calls whose sanitized
    ids are the same all get one output, which is the one that belongs to one of
    them, and not the notice if any of them has a result. *)
Theorem openai_input_correct messages total :
  ∃ outputs : string → string,
    (build_responses_input messages total).1
    = (plain_items messages ≫= with_output outputs) ++ recovered messages ∧
    ∀ id, id ∈ calls messages →
      ((∀ id', id' ∈ calls messages → sanitize_tool_id id' = sanitize_tool_id id → id' = id) →
       outputs (sanitize_tool_id id) = expected_output messages id) ∧
      (∃ id', id' ∈ calls messages ∧ sanitize_tool_id id' = sanitize_tool_id id ∧
        outputs (sanitize_tool_id id) = expected_output messages id') ∧
      (expected_output messages id ≠ missing_output → outputs (sanitize_tool_id id) ≠ missing_output).
Proof.
  destruct (first_pass_items messages total) as (items & used & Ei & Es & [I A Ca Ci Af] & Hused).
  unfold build_responses_input, build_responses_input_with_logger.
  destruct (first_pass messages total) as [b t]. cbn [fst snd] in Ei |- *. rewrite Ei.
  pose proof (recovered_plain messages) as Hp. pose proof (proj1 (Forall_forall _ _) Hp) as Hp'.
  rewrite normalize_nothing; cbn [app].
  2: { intros n a cid [Hin|Hin]%elem_of_app; [|by apply Hp' in Hin].
       destruct (Ci _ _ _ Hin) as (id & Hid & ->). apply elem_of_list_to_set, list_elem_of_omap.
       exists (FunctionCallOutput (sanitize_tool_id id) (default missing_output
         (first_results (results messages) !! id))).
       split; [|done]. apply elem_of_app. left. by apply A, Hused. }
  set (output_map := foldl choose_output ∅ _).
  destruct (ordered_items output_map (items ++ recovered messages)) as [Eo _].
  { apply outputs_after_app; [done|]. intros cid o Hin. by apply Hp' in Hin. }
  exists (λ cid, default missing_output (output_map !! cid)). cbn [fst]. split.
  - rewrite Eo, strip_app, bind_app, Es, (strip_plain _ Hp). f_equal.
    by apply plain_with_output.
  - intros id Hid. destruct (chosen_output (items ++ recovered messages) (sanitize_tool_id id)) as [C1 C2].
    destruct (C2 (expected_output messages id)) as (o & Ho & Hm);
      [apply elem_of_app; left; by apply A, Hused|].
    fold output_map in C1, C2, Ho. rewrite Ho. cbn [from_option].
    assert (∃ id', id' ∈ calls messages ∧ sanitize_tool_id id' = sanitize_tool_id id ∧
      o = expected_output messages id') as Hone.
    2: { split_and!; [|done|done]. intros Halone. destruct Hone as (id' & Hid' & Esan & ->).
         by rewrite (Halone id' Hid' Esan). }
    destruct (decide (o = missing_output)) as [->|Hne].
    { exists id. split_and!; [done..|]. destruct (decide (expected_output messages id = missing_output)); [done|].
      by destruct Hm. }
    apply C1 in Ho as [Ho|Ho]%elem_of_app; [|by apply Hp' in Ho].
    destruct (I _ _ Ho) as (id' & Hid' & Esan & [->|?]); [|done].
    exists id'. split_and!; [by apply Hused|done..].
Qed.
End theorems.

(** ** Concrete conversations *)

Definition sample_call (id : string) : Message :=
  {| msg_role := Assistant; msg_content := [ToolUse id "read" "{}"];
     msg_timestamp := None; msg_tool_duration_ms := None |}.

(** An early result, a late one, a missing one and an orphan. *)
Example openai_sample :
  (build_responses_input
     [tool_result 0 "early" "1" false; sample_call "early"; sample_call "late";
      message_user 0 "wait"; tool_result 0 "late" "2" true; sample_call "never";
      tool_result 0 "orphan" " 3 " false] 0).1
  = [FunctionCall "read" "{}" "early"; FunctionCallOutput "early" "1";
     FunctionCall "read" "{}" "late"; FunctionCallOutput "late" "[Error] 2";
     UserMessage [InputText "wait"];
     FunctionCall "read" "{}" "never"; FunctionCallOutput "never" missing_output;
     UserMessage [InputText ("[Recovered orphaned tool output: orphan]" +:+ nl +:+ "3")]].
Proof. vm_compute. reflexivity. Qed.

(** Calls whose ids differ in a replaced character only get the same output. *)
Example colliding_ids :
  (build_responses_input
     [sample_call "a.b"; tool_result 0 "a.b" "1" false;
      sample_call "a:b"; tool_result 0 "a:b" "2" false] 0).1
  = [FunctionCall "read" "{}" "a_b"; FunctionCallOutput "a_b" "1";
     FunctionCall "read" "{}" "a_b"; FunctionCallOutput "a_b" "1"].
Proof. vm_compute. reflexivity. Qed.
