(* ===== verification/OpenAiSchema.v ===== *)
(** * JSON schemas for OpenAI ([crates/gcode-provider-core/src/openai_schema.rs])

    [openai_compatible_schema] flattens [allOf] and renames [oneOf];
    [strict_normalize_schema] closes every object, requires every property and
    lets the optional ones be null. *)

From S2P Require Import Prelude.
Open Scope nat_scope.

(** * JSON values ([serde_json])

    The data type of [serde_json::Value], for the code that looks inside a
    value. An object is a [BTreeMap]: the list of its entries by increasing key.
    A number is represented by its text. *)

Unset Elimination Schemes.
Inductive Value :=
| Null
| Bool (b : bool)
| Number (text : string)
| Str (s : string)
| Array (items : list Value)
| Object (entries : list (string * Value)).
Set Elimination Schemes.

Abbreviation Map := (list (string * Value)) (only parsing).

(** Induction on a value, with its items and the values of its entries. *)
Fixpoint Value_ind (P : Value → Prop)
    (HNull : P Null) (HBool : ∀ b, P (Bool b)) (HNumber : ∀ text, P (Number text))
    (HStr : ∀ s, P (Str s)) (HArray : ∀ items, Forall P items → P (Array items))
    (HObject : ∀ entries, Forall (λ e, P e.2) entries → P (Object entries)) (v : Value) : P v :=
  let rec := Value_ind P HNull HBool HNumber HStr HArray HObject in
  match v with
  | Null => HNull
  | Bool b => HBool b
  | Number text => HNumber text
  | Str s => HStr s
  | Array items =>
      HArray items
        ((fix go l : Forall P l :=
            match l with [] => Forall_nil_2 P | x :: l => Forall_cons_2 P x l (rec x) (go l) end)
           items)
  | Object entries =>
      HObject entries
        ((fix go l : Forall (λ e : string * Value, P e.2) l :=
            match l with
            | [] => Forall_nil_2 _
            | e :: l => Forall_cons_2 _ e l (rec e.2) (go l)
            end) entries)
  end.

(** Induction that reaches the children of an entry too. *)
Lemma Value_children_ind (P : Value → Prop) :
  P Null → (∀ b, P (Bool b)) → (∀ text, P (Number text)) → (∀ s, P (Str s)) →
  (∀ items, Forall P items → P (Array items)) →
  (∀ entries,
     Forall (λ e, P e.2 ∧ ∀ children, e.2 = Object children → Forall (λ c, P c.2) children) entries →
     P (Object entries)) →
  ∀ v, P v.
Proof.
  intros HNull HBool HNumber HStr HArray HObject v.
  enough (P v ∧ ∀ children, v = Object children → Forall (λ c, P c.2) children) by tauto.
  induction v as [| | | |items IH|entries IH] using Value_ind; try (split; [by auto|done]).
  - split; [|done]. apply HArray. eapply Forall_impl; [exact IH|]. by intros ? [].
  - split; [by apply HObject|]. intros ? [= <-]. eapply Forall_impl; [exact IH|]. by intros ? [].
Qed.

(** [==] on values. *)
Fixpoint value_eqb (v w : Value) : bool :=
  match v, w with
  | Null, Null => true
  | Bool a, Bool b => Bool.eqb a b
  | Number a, Number b | Str a, Str b => a =s b
  | Array l, Array l' =>
      (fix go l l' := match l, l' with
                      | [], [] => true
                      | x :: l, y :: l' => value_eqb x y && go l l'
                      | _, _ => false
                      end) l l'
  | Object l, Object l' =>
      (fix go l l' := match l, l' with
                      | [], [] => true
                      | (k, x) :: l, (k', y) :: l' => (k =s k') && value_eqb x y && go l l'
                      | _, _ => false
                      end) l l'
  | _, _ => false
  end.

Lemma value_eqb_spec v w : value_eqb v w = true ↔ v = w.
Proof.
  revert w. induction v as [|b|t|s|items IH|entries IH] using Value_ind; intros [|b'|t'|s'|items'|entries'];
    cbn; try done.
  - rewrite Bool.eqb_true_iff. split; congruence.
  - rewrite eqb_true. split; congruence.
  - rewrite eqb_true. split; congruence.
  - transitivity (items = items'); [|split; congruence].
    revert items'. induction IH as [|x items Hx _ IH]; intros [|y items']; try done.
    rewrite andb_true_iff, Hx, IH. split; [by intros [-> ->]|by intros [= -> ->]].
  - transitivity (entries = entries'); [|split; congruence].
    revert entries'. induction IH as [|[k x] entries Hx _ IH]; intros [|[k' y] entries']; try done.
    cbn [snd] in Hx. rewrite !andb_true_iff, eqb_true, Hx, IH. split; [by intros [[-> ->] ->]|by intros [= -> -> ->]].
Qed.

#[export] Instance Value_eq_dec : EqDecision Value.
Proof.
  intros v w. destruct (value_eqb v w) eqn:E; [left|right].
  - by apply value_eqb_spec.
  - intros Evw. apply value_eqb_spec in Evw. congruence.
Defined.

(** ** Reading *)

Definition as_str (v : Value) : option string := match v with Str s => Some s | _ => None end.
Definition as_array (v : Value) : option (list Value) :=
  match v with Array items => Some items | _ => None end.
Definition as_object (v : Value) : option Map :=
  match v with Object entries => Some entries | _ => None end.

(** ** Maps *)

Fixpoint map_get (key : string) (m : Map) : option Value :=
  match m with
  | [] => None
  | (k, v) :: m => if k =s key then Some v else map_get key m
  end.

Fixpoint map_insert (key : string) (value : Value) (m : Map) : Map :=
  match m with
  | [] => [(key, value)]
  | (k, v) :: m' =>
      match String.compare key k with
      | Eq => (key, value) :: m'
      | Lt => (key, value) :: m
      | Gt => (k, v) :: map_insert key value m'
      end
  end.

Definition map_remove (key : string) (m : Map) : Map := filter (λ e, e.1 ≠ key) m.

Definition contains_key (key : string) (m : Map) : bool := bool_decide (is_Some (map_get key m)).

(** [value.get(key)] *)
Definition value_get (key : string) (v : Value) : option Value := as_object v ≫= map_get key.

(** Collecting entries into a map. *)
Definition map_collect (entries : Map) : Map := foldl (λ m e, map_insert e.1 e.2 m) [] entries.

(** The order of the keys of a map. *)
Definition key_lt (a b : string * Value) : Prop := String.compare a.1 b.1 = Lt.
Definition sorted_map (m : Map) : Prop := StronglySorted key_lt m.

Lemma compare_refl s : String.compare s s = Eq.
Proof. pose proof (String.compare_antisym s s) as E. by destruct (String.compare s s). Qed.

Lemma compare_flip s t : String.compare s t = CompOpp (String.compare t s).
Proof. apply String.compare_antisym. Qed.

Lemma compare_trans s t u :
  String.compare s t = Lt → String.compare t u = Lt → String.compare s u = Lt.
Proof.
  intros H1 H2.
  assert (String.leb s u = true) as Hle.
  { apply (string_leb_trans s t u); unfold String.leb; [by rewrite H1|by rewrite H2]. }
  unfold String.leb in Hle. destruct (String.compare s u) eqn:E; [|done|done].
  apply String.compare_eq_iff in E as ->. by rewrite compare_flip, H1 in H2.
Qed.

Lemma compare_lt_ne s t : String.compare s t = Lt → s ≠ t.
Proof. intros H ->. by rewrite compare_refl in H. Qed.

Lemma map_get_insert key value m k :
  map_get k (map_insert key value m) = if key =s k then Some value else map_get k m.
Proof.
  induction m as [|[k' v'] m IH]; cbn [map_insert map_get]; [done|].
  destruct (String.compare key k') eqn:E; cbn [map_get].
  - apply String.compare_eq_iff in E as ->. by destruct (k' =s k).
  - done.
  - rewrite IH. destruct (String.eqb_spec k' k) as [->|]; [|done].
    destruct (String.eqb_spec key k) as [->|]; [|done]. by rewrite compare_refl in E.
Qed.

Lemma map_get_insert_eq key value m : map_get key (map_insert key value m) = Some value.
Proof. by rewrite map_get_insert, String.eqb_refl. Qed.

Lemma map_get_insert_ne key value m k :
  key ≠ k → map_get k (map_insert key value m) = map_get k m.
Proof. intros Hne%eqb_false. by rewrite map_get_insert, Hne. Qed.

Lemma elem_of_map_insert key value m e :
  e ∈ map_insert key value m → e = (key, value) ∨ e ∈ m.
Proof.
  induction m as [|[k' v'] m IH]; cbn [map_insert]; [set_solver|].
  destruct (String.compare key k'); set_solver.
Qed.

Lemma map_insert_sorted key value m : sorted_map m → sorted_map (map_insert key value m).
Proof.
  induction 1 as [|[k v] m Hm IH Hk]; cbn [map_insert]; [repeat constructor|].
  destruct (String.compare key k) eqn:E.
  - apply String.compare_eq_iff in E as ->. by constructor.
  - constructor; [by constructor|]. constructor; [done|].
    eapply Forall_impl; [done|]. intros e. by apply compare_trans.
  - constructor; [done|]. apply Forall_forall. intros e [->|He]%elem_of_map_insert.
    + unfold key_lt. cbn. by rewrite compare_flip, E.
    + rewrite Forall_forall in Hk. auto.
Qed.

Lemma map_get_None_lt k m : Forall (key_lt (k, Null)) m → map_get k m = None.
Proof.
  induction 1 as [|[k' v'] m Hk _ IH]; [done|]. cbn [map_get].
  apply compare_lt_ne in Hk. cbn in Hk. by rewrite (proj2 (eqb_false _ _)).
Qed.

(** Sorted maps with the same values are the same. *)
Lemma sorted_map_ext m1 m2 :
  sorted_map m1 → sorted_map m2 → (∀ k, map_get k m1 = map_get k m2) → m1 = m2.
Proof.
  intros H1. revert m2. induction H1 as [|[k1 v1] m1 Hm1 IH Hk1]; intros m2 H2 E.
  { destruct m2 as [|[k v] m2]; [done|]. specialize (E k). cbn in E. by rewrite String.eqb_refl in E. }
  destruct H2 as [|[k2 v2] m2 Hm2 Hk2].
  { specialize (E k1). cbn in E. by rewrite String.eqb_refl in E. }
  assert (k1 = k2) as <-.
  { pose proof (E k1) as E1. pose proof (E k2) as E2. cbn [map_get] in E1, E2.
    rewrite String.eqb_refl in E1, E2.
    destruct (String.compare k1 k2) eqn:Hc.
    - by apply String.compare_eq_iff.
    - assert (k2 =s k1 = false) as Hne
        by (apply eqb_false; intros ->; by rewrite compare_refl in Hc).
      rewrite Hne in E1. rewrite map_get_None_lt in E1; [done|].
      eapply Forall_impl; [exact Hk2|]. intros [k v]. by apply compare_trans.
    - assert (String.compare k2 k1 = Lt) as Hc' by (by rewrite compare_flip, Hc).
      assert (k1 =s k2 = false) as Hne by (apply eqb_false; intros ->; by rewrite compare_refl in Hc).
      rewrite Hne in E2. rewrite map_get_None_lt in E2; [done|].
      eapply Forall_impl; [exact Hk1|]. intros [k v]. by apply compare_trans. }
  pose proof (E k1) as E1. cbn [map_get] in E1. rewrite String.eqb_refl in E1. injection E1 as <-.
  f_equal. apply IH; [done|]. intros k. specialize (E k). cbn [map_get] in E.
  destruct (String.eqb_spec k1 k) as [->|]; [|done].
  rewrite !map_get_None_lt; [done|eapply Forall_impl; [exact Hk2|done]|eapply Forall_impl; [exact Hk1|done]].
Qed.

Lemma map_get_elem m k v : map_get k m = Some v → (k, v) ∈ m.
Proof.
  induction m as [|[k' v'] m IH]; [done|]. cbn [map_get].
  destruct (String.eqb_spec k' k) as [->|]; [intros [= ->]; by left|]. intros E. right. auto.
Qed.

Lemma elem_map_get m k v : sorted_map m → (k, v) ∈ m → map_get k m = Some v.
Proof.
  induction 1 as [|[k' v'] m Hm IH Hk]; [set_solver|]. intros [[= -> ->]|Hin]%elem_of_cons; cbn [map_get].
  - by rewrite String.eqb_refl.
  - rewrite Forall_forall in Hk. specialize (Hk _ Hin). apply compare_lt_ne in Hk. cbn in Hk.
    rewrite (proj2 (eqb_false _ _)); auto.
Qed.

(** ** Merging *)

Definition collect_strings (value : Value) : option (list string) :=
  match value with
  | Str s => Some [s]
  | Array items => mapM as_str items
  | _ => None
  end.

Definition push_new {A} `{EqDecision A} (combined : list A) (item : A) : list A :=
  if decide (item ∈ combined) then combined else combined ++ [item].

Definition merge_string_sets (existing incoming : Value) : option Value :=
  combined ← collect_strings existing;
  items ← collect_strings incoming;
  let combined := foldl push_new combined items in
  Some (match combined with
        | [s] => Str s
        | _ => Array (Str <$> combined)
        end).

(** The loops over the entries of a map, for a function that merges the entries
    of an object into a map. *)
Section merge.
Context (merge_into : Value → Map → Map).

(** [merge_schema_values] *)
Definition merge_values_with (existing incoming : Value) : Value :=
  if decide (existing = incoming) then existing
  else
    match incoming with
    | Object _ =>
        match existing with
        | Object existing_map => Object (merge_into incoming existing_map)
        | _ => incoming
        end
    | Array incoming_items =>
        match existing with
        | Array existing_items => Array (foldl push_new existing_items incoming_items)
        | _ => incoming
        end
    | _ => incoming
    end.

Fixpoint merge_children (existing_children incoming_children : Map) : Map :=
  match incoming_children with
  | [] => existing_children
  | (child_key, child_value) :: incoming_children =>
      let child :=
        match map_get child_key existing_children with
        | Some existing_child => merge_values_with existing_child child_value
        | None => child_value
        end in
      merge_children (map_insert child_key child existing_children) incoming_children
  end.

Definition merge_additional (existing incoming_value : Value) : Value :=
  let closed := if decide (incoming_value = Bool false) then Bool false else existing in
  match existing with
  | Object existing_obj =>
      match incoming_value with
      | Object _ => Object (merge_into incoming_value existing_obj)
      | _ => closed
      end
  | _ => closed
  end.

Definition merge_entry (target : Map) (key : string) (incoming_value : Value) : Map :=
  if str_in key ["properties"; "$defs"; "definitions"; "patternProperties"] then
    match incoming_value with
    | Object incoming_children =>
        match map_get key target with
        | Some (Object existing_children) =>
            map_insert key (Object (merge_children existing_children incoming_children)) target
        | _ => map_insert key incoming_value target
        end
    | _ => map_insert key incoming_value target
    end
  else
    match map_get key target with
    | None => map_insert key incoming_value target
    | Some existing_value =>
        if str_in key ["required"; "enum"; "type"] then
          match merge_string_sets existing_value incoming_value with
          | Some merged => map_insert key merged target
          | None => target
          end
        else if str_in key ["description"; "title"] then target
        else if key =s "additionalProperties" then
          map_insert key (merge_additional existing_value incoming_value) target
        else map_insert key (merge_values_with existing_value incoming_value) target
    end.

Fixpoint merge_entries (target incoming : Map) : Map :=
  match incoming with
  | [] => target
  | (key, incoming_value) :: incoming =>
      merge_entries (merge_entry target key incoming_value) incoming
  end.
End merge.

Fixpoint merge_into (incoming : Value) (target : Map) : Map :=
  match incoming with
  | Object entries => merge_entries merge_into target entries
  | _ => target
  end.

Definition merge_schema_objects (target incoming : Map) : Map := merge_into (Object incoming) target.
Definition merge_schema_values : Value → Value → Value := merge_values_with merge_into.

(** ** Schemas that OpenAI reads *)

(** One branch of [allOf]. *)
Definition flatten_item (state : Map * list Value) (item : Value) : Map * list Value :=
  let (merged, fallback_any_of) := state in
  match item with
  | Object item_map => (merge_schema_objects merged item_map, fallback_any_of)
  | other => (merged, fallback_any_of ++ [other])
  end.

Definition flatten_all_of_schema (map : Map) : Value :=
  match map_get "allOf" map with
  | Some (Array all_of_items) =>
      let (merged, fallback_any_of) := foldl flatten_item (map_remove "allOf" map, []) all_of_items in
      match fallback_any_of with
      | [] => Object merged
      | _ =>
          Object (map_insert "anyOf"
            (match map_get "anyOf" merged with
             | Some (Array existing_any_of) => Array (existing_any_of ++ fallback_any_of)
             | _ => Array fallback_any_of
             end) merged)
      end
  | _ => Object (map_remove "allOf" map)
  end.

Fixpoint openai_compatible_schema (schema : Value) : Value :=
  match schema with
  | Object map =>
      flatten_all_of_schema
        (foldl (λ out e, map_insert (if e.1 =s "oneOf" then "anyOf" else e.1)
                           (openai_compatible_schema e.2) out) [] map)
  | Array items => Array (openai_compatible_schema <$> items)
  | _ => schema
  end.

(** ** Strict schemas *)

Definition schema_is_object_typed (map : Map) : bool :=
  match map_get "type" map with
  | Some (Str t) => t =s "object"
  | Some (Array types) => existsb (λ v, bool_decide (as_str v = Some "object")) types
  | _ => false
  end.

Fixpoint schema_supports_strict (schema : Value) : bool :=
  match schema with
  | Object map =>
      let is_object_typed := schema_is_object_typed map in
      let has_properties :=
        match map_get "properties" map ≫= as_object with Some (_ :: _) => true | _ => false end in
      if is_object_typed && negb has_properties then false
      else if is_object_typed
              && match map_get "additionalProperties" map with
                 | Some (Bool true) | Some (Object _) => true
                 | _ => false
                 end
      then false
      else forallb (λ e, schema_supports_strict e.2) map
  | Array items => forallb schema_supports_strict items
  | _ => true
  end.

Definition schema_contains_null_type (schema : Value) : bool :=
  bool_decide (value_get "type" schema ≫= as_str = Some "null").

Definition null_schema : Value := Object [("type", Str "null")].
Definition any_of (items : list Value) : Value := Object [("anyOf", Array items)].

Definition make_schema_nullable (schema : Value) : Value :=
  match schema with
  | Object map =>
      match map_get "type" map with
      | Some (Str t) =>
          if t =s "null" then schema
          else Object (map_insert "type" (Array [Str t; Str "null"]) map)
      | Some (Array types) =>
          let types :=
            if existsb (λ v, bool_decide (as_str v = Some "null")) types then types
            else types ++ [Str "null"] in
          Object (map_insert "type" (Array types) map)
      | _ =>
          match map_get "anyOf" map with
          | Some (Array items) =>
              let items :=
                if existsb schema_contains_null_type items then items
                else items ++ [null_schema] in
              Object (map_insert "anyOf" (Array items) map)
          | _ => any_of [schema; null_schema]
          end
      end
  | other => any_of [other; null_schema]
  end.

Definition existing_required_keys (map : Map) : gset string :=
  match map_get "required" map with
  | Some (Array arr) => list_to_set (omap as_str arr)
  | _ => ∅
  end.

Definition normalize_required_properties (map : Map) : Map :=
  match map_get "properties" map with
  | Some (Object properties) =>
      let property_names := sort_strings properties.*1 in
      let existing_required := existing_required_keys map in
      let properties :=
        (λ e, (e.1, if decide (e.1 ∈ existing_required) then e.2 else make_schema_nullable e.2))
          <$> properties in
      map_insert "required" (Array (Str <$> property_names))
        (map_insert "properties" (Object properties) map)
  | _ => map
  end.

(** What is done to a map after its values. *)
Definition close_map (out : Map) : Map :=
  let is_object_typed := schema_is_object_typed out in
  let out := normalize_required_properties out in
  if is_object_typed || contains_key "properties" out
  then map_insert "additionalProperties" (Bool false) out else out.

Definition holds_children (key : string) : bool :=
  str_in key ["properties"; "$defs"; "definitions"; "patternProperties"].

Fixpoint strict_normalize_schema (schema : Value) : Value :=
  match schema with
  | Object map =>
      Object (close_map
        (foldl (λ out e,
           map_insert e.1
             (match e.2 with
              | Object children =>
                  if holds_children e.1
                  then Object (foldl (λ out child,
                         map_insert child.1 (strict_normalize_schema child.2) out) [] children)
                  else strict_normalize_schema e.2
              | _ => strict_normalize_schema e.2
              end) out) [] map))
  | Array items => Array (strict_normalize_schema <$> items)
  | _ => schema
  end.

(** [normalize_strict_schema_keyword] *)
Definition normalize_strict_schema_keyword (key : string) (value : Value) : Value :=
  match value with
  | Object children =>
      if holds_children key
      then Object (foldl (λ out child,
             map_insert child.1 (strict_normalize_schema child.2) out) [] children)
      else strict_normalize_schema value
  | _ => strict_normalize_schema value
  end.

(** ** Tools ([build_tools] of [crates/gcode-provider-openai/src/request.rs]) *)

Record ToolDefinition := {
  td_name : string;
  td_description : string;
  td_input_schema : Value;
}.

Definition build_tool (t : ToolDefinition) : Value :=
  let compatible_schema := openai_compatible_schema (td_input_schema t) in
  let supports_strict := schema_supports_strict compatible_schema in
  let parameters :=
    if supports_strict then strict_normalize_schema compatible_schema else compatible_schema in
  Object (map_collect
    [("type", Str "function"); ("name", Str (td_name t)); ("description", Str (td_description t));
     ("strict", Bool supports_strict); ("parameters", parameters)]).

Definition build_tools (tools : list ToolDefinition) : list Value := build_tool <$> tools.

(** ** Concrete schemas *)

Definition str_type (t : string) : Value := Object [("type", Str t)].

Example strict_sample :
  strict_normalize_schema
    (Object [("properties", Object [("optional_age", str_type "integer"); ("required_name", str_type "string")]);
             ("required", Array [Str "required_name"]); ("type", Str "object")])
  = Object [("additionalProperties", Bool false);
            ("properties", Object
               [("optional_age", Object [("type", Array [Str "integer"; Str "null"])]);
                ("required_name", str_type "string")]);
            ("required", Array [Str "optional_age"; Str "required_name"]);
            ("type", Str "object")].
Proof. vm_compute. reflexivity. Qed.

(** A property may have the name of a keyword: [allOf] is dropped, [oneOf]
    renamed, while the list of required properties keeps the names. *)
Example property_names_rewritten :
  openai_compatible_schema
    (Object [("properties", Object [("allOf", str_type "string"); ("oneOf", str_type "string")]);
             ("required", Array [Str "allOf"; Str "oneOf"])])
  = Object [("properties", Object [("anyOf", str_type "string")]);
            ("required", Array [Str "allOf"; Str "oneOf"])].
Proof. vm_compute. reflexivity. Qed.

(** Two branches that require the same one property give a string, which is no
    list of required properties: strict mode then takes it for optional. *)
Example single_required_lost :
  let branch := Object [("properties", Object [("a", str_type "string")]); ("required", Array [Str "a"]);
                        ("type", Str "object")] in
  let flat := openai_compatible_schema (Object [("allOf", Array [branch; branch])]) in
  value_get "required" flat = Some (Str "a")
  ∧ value_get "properties" (strict_normalize_schema flat)
    = Some (Object [("a", Object [("type", Array [Str "string"; Str "null"])])]).
Proof. vm_compute. by split. Qed.
