(* ===== verification/OpenAiSchemaTheorems.v ===== *)
(** * Properties of the schemas for OpenAI

    Flattening leaves neither [allOf] nor [oneOf] at any depth and changes
    nothing else; normalizing closes every object and requires every property. *)

From S2P Require Import Prelude OpenAiSchema.
Open Scope nat_scope.

#[local] Arguments map_insert : simpl never.

(** ** Collecting maps *)

Lemma map_insert_last key value m :
  Forall (λ e, String.compare e.1 key = Lt) m → map_insert key value m = m ++ [(key, value)].
Proof.
  induction 1 as [|[k v] m Hk _ IH]; [done|]. unfold map_insert; fold map_insert.
  cbn in Hk. rewrite compare_flip, Hk. cbn [CompOpp]. by rewrite IH.
Qed.

(** Inserting the entries of a sorted map one by one. *)
Lemma collect_sorted (f : string * Value → Value) m :
  sorted_map m → foldl (λ out e, map_insert e.1 (f e) out) [] m = (λ e, (e.1, f e)) <$> m.
Proof.
  intros Hm. change ((λ e, (e.1, f e)) <$> m) with ([] ++ ((λ e, (e.1, f e)) <$> m)).
  assert (Forall (λ a, Forall (λ e, String.compare a.1 e.1 = Lt) m) ([] : list (string * Value))) as Hacc
    by constructor. revert Hacc. generalize ([] : list (string * Value)) as acc.
  induction Hm as [|e m Hm IH He]; intros acc Hacc; cbn [foldl]; [by rewrite app_nil_r|].
  rewrite map_insert_last.
  2: { eapply Forall_impl; [exact Hacc|]. intros a Ha. by inversion Ha. }
  rewrite IH, fmap_cons, <- app_assoc; [done|]. apply Forall_app. split.
  - eapply Forall_impl; [exact Hacc|]. intros a Ha. by inversion Ha.
  - repeat constructor. cbn. exact He.
Qed.

Lemma foldl_insert_sorted {A} (g : A → string) (f : A → Value) l m :
  sorted_map m → sorted_map (foldl (λ out e, map_insert (g e) (f e) out) m l).
Proof.
  revert m. induction l as [|x l IH]; intros m Hm; [done|]. apply IH. by apply map_insert_sorted.
Qed.

Lemma elem_of_foldl_insert {A} (g : A → string) (f : A → Value) l m e :
  e ∈ foldl (λ out x, map_insert (g x) (f x) out) m l → e ∈ m ∨ ∃ x, x ∈ l ∧ e = (g x, f x).
Proof.
  revert m. induction l as [|x l IH]; intros m He; [by left|].
  apply IH in He as [He|(y & Hy & ->)]; [|right; exists y; split; [by right|done]].
  apply elem_of_map_insert in He as [->|He]; [right; exists x; split; [by left|done]|by left].
Qed.

Lemma map_get_fmap (f : string → Value → Value) (m : list (string * Value)) k :
  map_get k ((λ e, (e.1, f e.1 e.2)) <$> m) = f k <$> map_get k m.
Proof.
  induction m as [|[k' v] m IH]; [done|]. cbn [fmap list_fmap map_get].
  change (map_get k ((k', f k' v) :: ((λ e, (e.1, f e.1 e.2)) <$> m)) = f k <$> map_get k ((k', v) :: m)).
  cbn [map_get]. destruct (String.eqb_spec k' k) as [->|]; [done|exact IH].
Qed.

Lemma map_fmap_id (f : string * Value → Value) (m : list (string * Value)) :
  (∀ e, e ∈ m → f e = e.2) → (λ e, (e.1, f e)) <$> m = m.
Proof.
  intros Hf. rewrite <- (list_fmap_id m) at 2. apply list_fmap_ext. intros i [k v] Hi.
  rewrite Hf by by eapply list_elem_of_lookup_2. done.
Qed.

Lemma sorted_map_nil : sorted_map [].
Proof. constructor. Qed.

(** ** Flat schemas *)

(** No key [allOf] or [oneOf] at any depth. *)
Inductive flat : Value → Prop :=
| flat_Null : flat Null
| flat_Bool b : flat (Bool b)
| flat_Number text : flat (Number text)
| flat_Str s : flat (Str s)
| flat_Array items : Forall flat items → flat (Array items)
| flat_Object m :
    sorted_map m → Forall (λ e, (e.1 ≠ "allOf" ∧ e.1 ≠ "oneOf") ∧ flat e.2) m → flat (Object m).

Definition flat_map (m : list (string * Value)) : Prop := flat (Object m).

Lemma flat_Object_inv m :
  flat_map m → sorted_map m ∧ ∀ k v, (k, v) ∈ m → k ≠ "allOf" ∧ k ≠ "oneOf" ∧ flat v.
Proof.
  intros Hf. inversion Hf as [| | | | |m' Hs Hm]. split; [done|]. intros k v Hin.
  rewrite Forall_forall in Hm. by destruct (Hm _ Hin) as [[? ?] ?].
Qed.

Lemma flat_get m k v : flat_map m → map_get k m = Some v → k ≠ "allOf" ∧ k ≠ "oneOf" ∧ flat v.
Proof. intros Hf Hk. by eapply flat_Object_inv, map_get_elem. Qed.

Lemma flat_insert m k v :
  flat_map m → k ≠ "allOf" → k ≠ "oneOf" → flat v → flat_map (map_insert k v m).
Proof.
  intros [Hs Hm]%flat_Object_inv Ha Ho Hv. constructor; [by apply map_insert_sorted|].
  apply Forall_forall. intros [k' v'] [[= -> ->]|Hin]%elem_of_map_insert; [done|].
  by destruct (Hm _ _ Hin) as (? & ? & ?).
Qed.

Lemma flat_array_inv items : flat (Array items) → ∀ v, v ∈ items → flat v.
Proof. intros Hf. inversion Hf as [| | | |l Hl|]. by apply Forall_forall. Qed.

Lemma flat_push_new items l :
  Forall flat items → Forall flat l → Forall flat (foldl push_new items l).
Proof.
  intros Hi Hl. revert items Hi. induction Hl as [|v l Hv _ IH]; intros items Hi; [done|].
  apply IH. unfold push_new. case_decide; [done|]. apply Forall_app. by repeat constructor.
Qed.

Lemma flat_strings l : Forall flat (Str <$> l).
Proof. apply Forall_fmap, Forall_true. intros. constructor. Qed.

Lemma flat_string_sets a b v : merge_string_sets a b = Some v → flat v.
Proof.
  unfold merge_string_sets. intros (l & _ & (l' & _ & [= <-])%bind_Some)%bind_Some.
  destruct (foldl push_new l l') as [|s [|s' r]]; constructor; apply flat_strings.
Qed.

(** Merging keeps maps flat, for a function on the entries that does. *)
Section merge_flat.
Context (rec : Value → list (string * Value) → list (string * Value)).

Definition keeps_flat (v : Value) : Prop := flat v → ∀ target, flat_map target → flat_map (rec v target).

Lemma merge_values_flat existing incoming :
  keeps_flat incoming → flat existing → flat incoming → flat (merge_values_with rec existing incoming).
Proof.
  intros Hrec He Hi. unfold merge_values_with. case_decide; [done|].
  destruct incoming as [| | | |items|m]; try done.
  - destruct existing as [| | | |items'|]; try done. constructor. apply flat_push_new;
      by apply Forall_forall, flat_array_inv.
  - destruct existing; try done. by apply Hrec.
Qed.

Lemma merge_children_flat existing children :
  Forall (λ e, keeps_flat e.2) children → flat_map existing →
  Forall (λ e, (e.1 ≠ "allOf" ∧ e.1 ≠ "oneOf") ∧ flat e.2) children →
  flat_map (merge_children rec existing children).
Proof.
  intros Hrec He Hc. revert existing He Hrec. induction Hc as [|[k v] children [[Ha Ho] Hv] _ IH];
    intros existing He Hrec; [done|]. inversion Hrec as [|? ? Hr Hrec']. subst. cbn [merge_children].
  apply IH; [|done]. apply flat_insert; [done..|].
  destruct (map_get k existing) as [c|] eqn:E; [|done].
  apply merge_values_flat; [done| |done]. by eapply flat_get.
Qed.

Lemma merge_additional_flat existing v :
  keeps_flat v → flat existing → flat v → flat (merge_additional rec existing v).
Proof.
  intros Hrec He Hv. unfold merge_additional. cbv zeta.
  assert (flat (if decide (v = Bool false) then Bool false else existing)) as Hclosed
    by (case_decide; [constructor|done]).
  destruct existing; try done. destruct v; try done. by apply Hrec.
Qed.

Lemma merge_entry_flat target k v :
  keeps_flat v → (∀ children, v = Object children → Forall (λ e, keeps_flat e.2) children) →
  flat_map target → k ≠ "allOf" → k ≠ "oneOf" → flat v → flat_map (merge_entry rec target k v).
Proof.
  intros Hrec Hchildren Ht Ha Ho Hv. unfold merge_entry.
  destruct (str_in k _).
  - destruct v as [| | | | |children]; try (by apply flat_insert).
    destruct (map_get k target) as [[| | | | |existing]|] eqn:E; try (by apply flat_insert).
    apply flat_insert; [done..|]. apply merge_children_flat; [by apply Hchildren|by eapply flat_get in E as (_ & _ & ?)|].
    by inversion Hv.
  - destruct (map_get k target) as [existing|] eqn:E; [|by apply flat_insert].
    destruct (flat_get _ _ _ Ht E) as (_ & _ & He).
    destruct (str_in k _).
    { destruct (merge_string_sets existing v) eqn:Em; [|done].
      apply flat_insert; [done..|]. by eapply flat_string_sets. }
    destruct (str_in k _); [done|]. destruct (k =s _); apply flat_insert; try done.
    + by apply merge_additional_flat.
    + by apply merge_values_flat.
Qed.
End merge_flat.

Lemma merge_into_flat v : keeps_flat merge_into v.
Proof.
  induction v as [| | | | |entries IH] using Value_children_ind; try by intros ? ? ?.
  intros Hf target Ht. inversion Hf as [| | | | |? Hs Hm]. subst. clear Hf Hs. cbn [merge_into].
  revert target Ht. induction Hm as [|[k v] entries [[Ha Ho] Hv] _ IHm]; intros target Ht; [done|].
  inversion IH as [|? ? [Hrec Hch] IH']. subst. cbn [merge_entries]. apply IHm; [done|].
  by apply merge_entry_flat.
Qed.

(** ** Flattening *)

(** A map whose only keyword to flatten is its own [allOf]. *)
Definition nearly_flat (m : list (string * Value)) : Prop :=
  sorted_map m ∧ Forall (λ e, e.1 ≠ "oneOf" ∧ flat e.2) m.

Lemma filter_sorted k m : sorted_map m → sorted_map (map_remove k m).
Proof.
  induction 1 as [|e m Hm IH He]; [constructor|]. unfold map_remove in *. rewrite filter_cons.
  case_decide; [|done]. constructor; [done|]. apply Forall_forall. intros x [_ Hx]%list_elem_of_filter.
  rewrite Forall_forall in He. auto.
Qed.

Lemma remove_flat m : nearly_flat m → flat_map (map_remove "allOf" m).
Proof.
  intros [Hs Hm]. constructor; [by apply filter_sorted|]. apply Forall_forall.
  intros [k v] [Hk Hin]%list_elem_of_filter. rewrite Forall_forall in Hm.
  by destruct (Hm _ Hin) as [? ?].
Qed.

Lemma flatten_items_flat items merged fallback :
  Forall flat items → flat_map merged → Forall flat fallback →
  let '(merged', fallback') := foldl flatten_item (merged, fallback) items in
  flat_map merged' ∧ Forall flat fallback'.
Proof.
  intros Hi. revert merged fallback. induction Hi as [|v items Hv _ IH]; intros merged fallback Hm Hf;
    [done|]. cbn [foldl]. unfold flatten_item at 2.
  destruct v; apply IH; try done; try (by apply Forall_app; split; [done|]; apply Forall_singleton).
  unfold merge_schema_objects. by apply merge_into_flat.
Qed.

Lemma flatten_flat m : nearly_flat m → flat (flatten_all_of_schema m).
Proof.
  intros Hm. pose proof (remove_flat m Hm) as Hr. unfold flatten_all_of_schema.
  destruct (map_get "allOf" m) as [[| | | |items|]|] eqn:E; try done.
  destruct Hm as [_ Hm]. rewrite Forall_forall in Hm. apply map_get_elem, Hm in E as [_ Hitems].
  pose proof (flatten_items_flat items (map_remove "allOf" m) []) as Hfold.
  destruct (foldl flatten_item _ items) as [merged fallback].
  destruct Hfold as [Hmerged Hfall]; [by apply Forall_forall, flat_array_inv|done|done|].
  destruct fallback as [|f fallback]; [done|]. apply flat_insert; [done..|].
  destruct (map_get "anyOf" merged) as [[| | | |any|]|] eqn:Ea; constructor; try done.
  apply Forall_app. split; [|done]. apply Forall_forall, flat_array_inv.
  by eapply flat_get in Ea as (_ & _ & ?).
Qed.

Lemma compatible_flat schema : flat (openai_compatible_schema schema).
Proof.
  induction schema as [| | | |items IH|entries IH] using Value_ind; try constructor.
  - by apply Forall_fmap.
  - cbn [openai_compatible_schema]. apply flatten_flat. split.
    + apply (foldl_insert_sorted (λ e, if e.1 =s "oneOf" then "anyOf" else e.1)), sorted_map_nil.
    + apply Forall_forall. intros e He.
      apply (elem_of_foldl_insert (λ e, if e.1 =s "oneOf" then "anyOf" else e.1)) in He
        as [?%not_elem_of_nil|([k v] & Hin & ->)]; [done|].
      rewrite Forall_forall in IH. split; [|by apply (IH (k, v))]. cbn.
      destruct (String.eqb_spec k "oneOf"); [done|done].
Qed.

Lemma compatible_id schema : flat schema → openai_compatible_schema schema = schema.
Proof.
  induction schema as [| | | |items IH|entries IH] using Value_ind; intros Hf; try done.
  - cbn. f_equal. rewrite <- (list_fmap_id items) at 2. apply list_fmap_ext.
    intros i v Hi%list_elem_of_lookup_2. rewrite Forall_forall in IH. apply IH; [done|].
    by eapply flat_array_inv.
  - cbn [openai_compatible_schema]. pose proof (flat_Object_inv _ Hf) as [Hs Hm].
    assert (foldl (λ out e, map_insert (if e.1 =s "oneOf" then "anyOf" else e.1)
              (openai_compatible_schema e.2) out) [] entries = entries) as ->.
    { transitivity (foldl (λ out e, map_insert e.1 (openai_compatible_schema e.2) out) [] entries).
      - generalize ([] : list (string * Value)) as acc.
        assert (∀ e, e ∈ entries → e.1 ≠ "oneOf") as Hone by (intros [k v] Hin; by destruct (Hm _ _ Hin) as (_ & ? & _)).
        clear - Hone. induction entries as [|e entries IH]; intros acc; [done|]. cbn [foldl].
        rewrite (proj2 (eqb_false _ _)) by (apply Hone; by left). apply IH. intros e' He'. apply Hone. by right.
      - rewrite (collect_sorted (λ e, openai_compatible_schema e.2)) by done.
        apply (map_fmap_id (λ e, openai_compatible_schema e.2)). intros [k v] Hin.
        rewrite Forall_forall in IH. apply (IH (k, v)); [done|]. by eapply Hm. }
    unfold flatten_all_of_schema.
    destruct (map_get "allOf" entries) as [v|] eqn:E; [by apply flat_get in E as (? & _); [|done]|].
    f_equal. unfold map_remove. clear -Hm. induction entries as [|[k v] entries IH]; [done|].
    rewrite filter_cons_True, IH; [done| |].
    + intros k' v' Hin. apply Hm. by right.
    + by destruct (Hm k v) as (? & _); [left|].
Qed.

Lemma flat_unchanged schema : openai_compatible_schema schema = schema ↔ flat schema.
Proof. split; [|apply compatible_id]. intros <-. apply compatible_flat. Qed.

(** Flattening leaves no [allOf] and no [oneOf] at any depth, whatever the
    branches hold; a schema without them is not changed, so flattening twice
    changes nothing more. *)
Theorem compatible_schema_correct schema :
  flat (openai_compatible_schema schema) ∧
  (openai_compatible_schema schema = schema ↔ flat schema).
Proof. split; [apply compatible_flat|apply flat_unchanged]. Qed.

(** ** Strict schemas *)

Notation keyword := normalize_strict_schema_keyword.

Lemma strict_object m :
  strict_normalize_schema (Object m)
  = Object (close_map (foldl (λ out e, map_insert e.1 (keyword e.1 e.2) out) [] m)).
Proof. done. Qed.

(** The properties after closing: the optional ones may be null. *)
Definition close_properties (required : gset string) (properties : list (string * Value))
    : list (string * Value) :=
  (λ e, (e.1, if decide (e.1 ∈ required) then e.2 else make_schema_nullable e.2)) <$> properties.

Lemma close_properties_keys required ps : (close_properties required ps).*1 = ps.*1.
Proof. unfold close_properties. rewrite <- list_fmap_compose. by apply list_fmap_ext. Qed.

(** The values of a map after closing, by their key. *)
Lemma get_close_map m k :
  map_get k (close_map m)
  = match map_get "properties" m with
    | Some (Object ps) =>
        if k =s "additionalProperties" then Some (Bool false)
        else if k =s "required" then Some (Array (Str <$> sort_strings ps.*1))
        else if k =s "properties" then Some (Object (close_properties (existing_required_keys m) ps))
        else map_get k m
    | p =>
        if (k =s "additionalProperties") && (schema_is_object_typed m || bool_decide (is_Some p))
        then Some (Bool false) else map_get k m
    end.
Proof.
  unfold close_map, normalize_required_properties. cbv zeta.
  assert (∀ a b : string, a =s b = (b =s a)) as Hsym by (intros; apply String.eqb_sym).
  destruct (map_get "properties" m) as [[| | | | |ps]|] eqn:E.
  6: { unfold contains_key. rewrite map_get_insert_ne, map_get_insert_eq by done.
       rewrite bool_decide_eq_true_2, orb_true_r by by eexists. rewrite !map_get_insert.
       rewrite (Hsym "additionalProperties"), (Hsym "required"), (Hsym "properties"). done. }
  all: unfold contains_key; rewrite E; destruct (_ || _); rewrite ?map_get_insert, ?andb_true_r, ?andb_false_r;
    rewrite ?(Hsym "additionalProperties"); done.
Qed.

Lemma close_map_sorted m : sorted_map m → sorted_map (close_map m).
Proof.
  intros Hm. unfold close_map, normalize_required_properties. cbv zeta.
  destruct (map_get "properties" m) as [[| | | | |ps]|]; destruct (_ || _);
    repeat apply map_insert_sorted; done.
Qed.

Lemma typed_get m m' :
  map_get "type" m = map_get "type" m' → schema_is_object_typed m = schema_is_object_typed m'.
Proof. unfold schema_is_object_typed. by intros ->. Qed.

(** What closing does to the keys it reads. *)
Lemma get_closed_properties m :
  map_get "properties" (close_map m)
  = match map_get "properties" m with
    | Some (Object ps) => Some (Object (close_properties (existing_required_keys m) ps))
    | p => p
    end.
Proof. rewrite get_close_map. by destruct (map_get "properties" m) as [[| | | | |ps]|]. Qed.

Lemma typed_closed m : schema_is_object_typed (close_map m) = schema_is_object_typed m.
Proof.
  apply typed_get. rewrite get_close_map. by destruct (map_get "properties" m) as [[| | | | |ps]|].
Qed.

Lemma required_closed m ps :
  map_get "properties" m = Some (Object ps) →
  existing_required_keys (close_map m) = list_to_set ps.*1.
Proof.
  intros E. unfold existing_required_keys. rewrite get_close_map, E.
  change (list_to_set (omap as_str (Str <$> sort_strings ps.*1)) = list_to_set (C := gset string) ps.*1).
  assert (omap as_str (Str <$> sort_strings ps.*1) = sort_strings ps.*1) as ->.
  { generalize (sort_strings ps.*1) as l. intros l. induction l as [|x l IH]; [done|]. cbn in *. by rewrite IH. }
  apply set_eq. intros x. by rewrite !elem_of_list_to_set, sort_strings_perm.
Qed.

(** Closing a map twice changes nothing more. *)
Lemma close_map_idem m : sorted_map m → close_map (close_map m) = close_map m.
Proof.
  intros Hm. apply sorted_map_ext; [by apply close_map_sorted, close_map_sorted|by apply close_map_sorted|].
  intros k. rewrite (get_close_map (close_map m)), get_closed_properties, typed_closed.
  destruct (map_get "properties" m) as [[| | | | |ps]|] eqn:E.
  6: { rewrite (required_closed m ps), close_properties_keys, get_close_map, E by done.
       destruct (k =s "additionalProperties"); [done|]. destruct (k =s "required"); [done|].
       destruct (k =s "properties"); [|done]. f_equal. f_equal.
       unfold close_properties at 1. apply (map_fmap_id
         (λ e, if decide (e.1 ∈ list_to_set (C := gset string) ps.*1) then e.2 else make_schema_nullable e.2)).
       intros [p c] Hin. rewrite decide_True; [done|]. apply elem_of_list_to_set.
       rewrite <- (close_properties_keys (existing_required_keys m) ps).
       apply list_elem_of_fmap. by exists (p, c). }
  all: rewrite get_close_map, E; by destruct (_ && _).
Qed.

(** A change of another key that leaves the kind of the object as it is. *)
Lemma close_map_insert k v m :
  sorted_map m → close_map m = m →
  k ≠ "properties" → k ≠ "required" → k ≠ "additionalProperties" →
  schema_is_object_typed (map_insert k v m) = schema_is_object_typed m →
  close_map (map_insert k v m) = map_insert k v m.
Proof.
  intros Hs Hc Hp Hr Ha Ht. apply sorted_map_ext;
    [by apply close_map_sorted, map_insert_sorted|by apply map_insert_sorted|].
  intros k'. assert (map_get k' (close_map m) = map_get k' m) as Ek by by rewrite Hc.
  rewrite get_close_map in Ek |- *. rewrite map_get_insert_ne, Ht, map_get_insert by done.
  assert (existing_required_keys (map_insert k v m) = existing_required_keys m) as ->
    by (unfold existing_required_keys; by rewrite map_get_insert_ne).
  destruct (String.eqb_spec k k') as [<-|Hne].
  - rewrite !(proj2 (eqb_false k _)) by done. by destruct (map_get "properties" m) as [[| | | | |ps]|].
  - done.
Qed.

(** Schemas that normalizing leaves as they are: every map is closed. *)
Inductive fixed : Value → Prop :=
| fixed_Null : fixed Null
| fixed_Bool b : fixed (Bool b)
| fixed_Number text : fixed (Number text)
| fixed_Str s : fixed (Str s)
| fixed_Array items : Forall fixed items → fixed (Array items)
| fixed_Object m :
    sorted_map m → Forall (λ e, fixed_entry e.1 e.2) m → close_map m = m → fixed (Object m)
with fixed_entry : string → Value → Prop :=
| fixed_children k children :
    holds_children k = true → sorted_map children → Forall (λ c, fixed c.2) children →
    fixed_entry k (Object children)
| fixed_value k v : holds_children k = false ∨ as_object v = None → fixed v → fixed_entry k v.

Lemma keyword_fixed k v :
  (fixed v → strict_normalize_schema v = v) →
  (∀ children, v = Object children →
     Forall (λ c, fixed c.2 → strict_normalize_schema c.2 = c.2) children) →
  fixed_entry k v → keyword k v = v.
Proof.
  intros Hv Hc Hf. unfold keyword. destruct Hf as [k children Hk Hs Hch|k v Hk Hf].
  - rewrite Hk, (collect_sorted (λ c, strict_normalize_schema c.2)) by done.
    rewrite (map_fmap_id (λ c, strict_normalize_schema c.2)); [done|]. intros c Hin.
    specialize (Hc _ eq_refl). rewrite Forall_forall in Hc, Hch. auto.
  - destruct v; auto. destruct Hk as [->|?]; [auto|done].
Qed.

Lemma fixed_strict v : fixed v → strict_normalize_schema v = v.
Proof.
  induction v as [| | | |items IH|entries IH] using Value_children_ind; intros Hf; try done.
  - inversion Hf as [| | | |? Hi|]. subst. cbn. f_equal. rewrite <- (list_fmap_id items) at 2.
    apply list_fmap_ext. intros i v Hin%list_elem_of_lookup_2. rewrite Forall_forall in IH, Hi. auto.
  - inversion Hf as [| | | | |? Hs Hm Hclosed]. subst.
    rewrite strict_object, (collect_sorted (λ e, keyword e.1 e.2)) by done.
    rewrite (map_fmap_id (λ e, keyword e.1 e.2)), Hclosed; [done|]. intros e Hin.
    rewrite Forall_forall in IH, Hm. destruct (IH e Hin). by apply keyword_fixed; [| |apply Hm].
Qed.

(** ** Nullable schemas *)

Lemma fixed_object_inv m :
  fixed (Object m) →
  sorted_map m ∧ (∀ k v, (k, v) ∈ m → fixed_entry k v) ∧ close_map m = m.
Proof.
  intros Hf. inversion Hf as [| | | | |? Hs Hm Hc]. split_and!; [done| |done].
  intros k v Hin. rewrite Forall_forall in Hm. apply (Hm (k, v) Hin).
Qed.

Lemma fixed_insert k v m :
  fixed (Object m) → fixed_entry k v →
  k ≠ "properties" → k ≠ "required" → k ≠ "additionalProperties" →
  schema_is_object_typed (map_insert k v m) = schema_is_object_typed m →
  fixed (Object (map_insert k v m)).
Proof.
  intros (Hs & Hm & Hc)%fixed_object_inv Hv Hp Hr Ha Ht. constructor.
  - by apply map_insert_sorted.
  - apply Forall_forall. intros [k' v'] [[= -> ->]|Hin]%elem_of_map_insert; [done|by apply Hm].
  - by apply close_map_insert.
Qed.

Lemma fixed_strings l : fixed (Array (Str <$> l)).
Proof. constructor. apply Forall_fmap, Forall_true. intros. constructor. Qed.

Lemma fixed_null_schema : fixed null_schema.
Proof.
  constructor; [repeat constructor| |reflexivity].
  apply Forall_singleton, fixed_value; [by left|constructor].
Qed.

Lemma fixed_any_of items : Forall fixed items → fixed (any_of items).
Proof.
  intros Hi. constructor; [repeat constructor| |reflexivity].
  apply Forall_singleton, fixed_value; [by left|by constructor].
Qed.

Lemma fixed_get_array m k items :
  fixed (Object m) → map_get k m = Some (Array items) → Forall fixed items.
Proof.
  intros (_ & Hm & _)%fixed_object_inv E%map_get_elem. specialize (Hm _ _ E).
  inversion Hm as [|? ? _ Hf]. subst. by inversion Hf.
Qed.

Lemma typed_insert v m :
  match v with
  | Str t => t =s "object"
  | Array types => existsb (λ v, bool_decide (as_str v = Some "object")) types
  | _ => false
  end = schema_is_object_typed m →
  schema_is_object_typed (map_insert "type" v m) = schema_is_object_typed m.
Proof. intros <-. unfold schema_is_object_typed at 1. by rewrite map_get_insert_eq. Qed.

Lemma nullable_fixed v : fixed v → fixed (make_schema_nullable v).
Proof.
  intros Hf. assert (fixed (any_of [v; null_schema])) as Hany
    by (apply fixed_any_of, Forall_cons; split; [done|apply Forall_singleton, fixed_null_schema]).
  destruct v as [| | | | |m]; try done. cbn [make_schema_nullable].
  destruct (map_get "type" m) as [[| | |t|types|]|] eqn:E.
  4: { destruct (t =s "null"); [done|]. apply fixed_insert; try done.
       - apply fixed_value; [by right|]. apply (fixed_strings [t; "null"]).
       - apply typed_insert. unfold schema_is_object_typed. rewrite E. cbn.
         destruct (String.eqb_spec t "object") as [->|Hne]; [done|].
         rewrite orb_false_r, bool_decide_eq_false_2; [done|]. congruence. }
  4: { pose proof (fixed_get_array _ _ _ Hf E) as Ht. apply fixed_insert; try done.
       - apply fixed_value; [by right|]. constructor. destruct (existsb _ types); [done|].
         apply Forall_app; split; [done|]. repeat constructor.
       - apply typed_insert. unfold schema_is_object_typed. rewrite E.
         destruct (existsb (λ v, bool_decide (as_str v = Some "null")) types); [done|].
         rewrite existsb_app. cbn. by rewrite orb_false_r. }
  all: destruct (map_get "anyOf" m) as [[| | | |items|]|] eqn:Ea; try done.
  all: pose proof (fixed_get_array _ _ _ Hf Ea) as Hi; apply fixed_insert; try done;
    [apply fixed_value; [by right|]; constructor; destruct (existsb _ items); [done|];
       apply Forall_app; split; [done|apply Forall_singleton, fixed_null_schema]
    |apply typed_get; by rewrite map_get_insert_ne].
Qed.

(** ** Normalized schemas *)

Lemma closed_entries_fixed m :
  sorted_map m → (∀ k v, (k, v) ∈ m → fixed_entry k v) → fixed (Object (close_map m)).
Proof.
  intros Hs Hm. constructor; [by apply close_map_sorted| |by apply close_map_idem].
  apply Forall_forall. intros [k v] Hin. cbn.
  apply elem_map_get in Hin; [|by apply close_map_sorted]. rewrite get_close_map in Hin.
  assert (∀ b, fixed_entry k (Bool b)) as Hbool by (intros; apply fixed_value; [by right|constructor]).
  destruct (map_get "properties" m) as [[| | | | |ps]|] eqn:E.
  6: { destruct (k =s "additionalProperties"); [injection Hin as <-; done|].
       destruct (k =s "required"); [injection Hin as <-; apply fixed_value; [by right|apply fixed_strings]|].
       destruct (String.eqb_spec k "properties") as [->|]; [|by apply Hm, map_get_elem].
       injection Hin as <-. apply map_get_elem in E. specialize (Hm _ _ E).
       inversion Hm as [? ? _ Hps Hc|? ? [?|?] ?]; [|done..]. subst. apply fixed_children; [done| |].
       - unfold sorted_map in *. clear -Hps. induction Hps as [|e ps Hps IH He]; [constructor|].
         constructor; [done|]. apply Forall_fmap. exact He.
       - apply Forall_fmap. eapply Forall_impl; [exact Hc|]. intros [p c] Hf. cbn in *.
         case_decide; [done|by apply nullable_fixed]. }
  all: destruct (_ && _); [injection Hin as <-; done|by apply Hm, map_get_elem].
Qed.

Lemma strict_fixed schema : fixed (strict_normalize_schema schema).
Proof.
  induction schema as [| | | |items IH|entries IH] using Value_children_ind;
    [constructor..| |].
  - constructor. by apply Forall_fmap.
  - rewrite strict_object. apply closed_entries_fixed.
    + apply (foldl_insert_sorted fst (λ e, keyword e.1 e.2)), sorted_map_nil.
    + intros k v Hin. apply (elem_of_foldl_insert fst (λ e, keyword e.1 e.2)) in Hin
        as [?%not_elem_of_nil|([k' w] & Hin & [= -> ->])]; [done|]. cbn.
      rewrite Forall_forall in IH. destruct (IH _ Hin) as [Hw Hc]. cbn in Hw, Hc.
      unfold keyword. destruct w as [| | | | |children]; try (apply fixed_value; [by right|done]).
      destruct (holds_children k') eqn:Hk; [|apply fixed_value; [by left|done]].
      apply fixed_children; [done| |].
      * apply (foldl_insert_sorted fst (λ c, strict_normalize_schema c.2)), sorted_map_nil.
      * apply Forall_forall. intros c Hc'.
        apply (elem_of_foldl_insert fst (λ c, strict_normalize_schema c.2)) in Hc'
          as [?%not_elem_of_nil|(c' & Hc' & ->)]; [done|].
        specialize (Hc _ eq_refl). rewrite Forall_forall in Hc. by apply Hc.
Qed.

(** Null is a value of the schema. *)
Definition accepts_null (schema : Value) : bool :=
  match value_get "type" schema with
  | Some (Str t) => t =s "null"
  | Some (Array types) => existsb (λ v, bool_decide (as_str v = Some "null")) types
  | _ =>
      match value_get "anyOf" schema with
      | Some (Array items) => existsb schema_contains_null_type items
      | _ => false
      end
  end.

Lemma nullable_accepts_null schema : accepts_null (make_schema_nullable schema) = true.
Proof.
  destruct schema as [| | | | |m]; try done. unfold accepts_null, value_get. cbn [make_schema_nullable].
  assert (∀ A (p : A → bool) l x, p x = true → existsb p (if existsb p l then l else l ++ [x]) = true) as Hex.
  { intros A p l x Hx. destruct (existsb p l) eqn:E; [done|]. rewrite existsb_app. cbn. by rewrite Hx, orb_true_r. }
  destruct (map_get "type" m) as [[| | |t|types|]|] eqn:E.
  4: { destruct (t =s "null") eqn:En; cbn [as_object mbind option_bind]; [by rewrite E|].
       rewrite map_get_insert_eq. cbn. by rewrite orb_true_r. }
  4: { cbn [as_object mbind option_bind]. rewrite map_get_insert_eq. by apply Hex. }
  all: destruct (map_get "anyOf" m) as [[| | | |items|]|] eqn:Ea; cbn [as_object mbind option_bind];
    try (cbn; by rewrite orb_true_r).
  all: rewrite map_get_insert_ne, E, map_get_insert_eq by done; by apply Hex.
Qed.

(** Normalizing does not change which strings a list holds. *)
Lemma required_normalized m mid :
  (∀ k, map_get k mid = keyword k <$> map_get k m) →
  existing_required_keys mid = existing_required_keys m.
Proof.
  intros Hget. unfold existing_required_keys. rewrite Hget.
  destruct (map_get "required" m) as [[| | | |arr|]|]; try done. cbn. f_equal.
  induction arr as [|v arr IH]; [done|]. cbn. rewrite IH. by destruct v.
Qed.

(** C17. Normalizing a flat schema closes it: an object, and whatever has properties,
    allows no additional properties; the list of required properties is the
    sorted list of all of them, and those that were not required accept null
    besides their own normalized schema. Other keywords are normalized in
    place, and normalizing again changes nothing. *)
Theorem strict_schema_correct m :
  flat (Object m) →
  ∃ out, strict_normalize_schema (Object m) = Object out ∧
    strict_normalize_schema (Object out) = Object out ∧
    (schema_is_object_typed m ∨ contains_key "properties" m →
       map_get "additionalProperties" out = Some (Bool false)) ∧
    (∀ children, map_get "properties" m = Some (Object children) →
       map_get "required" out = Some (Array (Str <$> sort_strings children.*1)) ∧
       ∃ children', map_get "properties" out = Some (Object children') ∧
         children' = (λ c, (c.1, if decide (c.1 ∈ existing_required_keys m)
                                 then strict_normalize_schema c.2
                                 else make_schema_nullable (strict_normalize_schema c.2))) <$> children ∧
         ∀ p c, (p, c) ∈ children' → p ∈ existing_required_keys m ∨ accepts_null c) ∧
    (∀ key, key ∉ ["properties"; "required"; "additionalProperties"] →
       map_get key out = keyword key <$> map_get key m).
Proof.
  intros Hf. pose proof (flat_Object_inv _ Hf) as [Hs Hm].
  set (mid := foldl (λ out e, map_insert e.1 (keyword e.1 e.2) out) [] m).
  assert (mid = (λ e, (e.1, keyword e.1 e.2)) <$> m) as Emid by by apply (collect_sorted (λ e, keyword e.1 e.2)).
  assert (∀ k, map_get k mid = keyword k <$> map_get k m) as Hget.
  { intros k. rewrite Emid. apply map_get_fmap. }
  exists (close_map mid). split; [done|]. split.
  { change (Object (close_map mid)) with (strict_normalize_schema (Object m)).
    apply fixed_strict, strict_fixed. }
  assert (schema_is_object_typed mid = schema_is_object_typed m) as Et.
  { unfold schema_is_object_typed. rewrite Hget.
    destruct (map_get "type" m) as [[| | |t|types|]|]; try done. cbn.
    induction types as [|t types IH]; [done|]. cbn. rewrite IH. f_equal. by destruct t. }
  split_and!.
  - intros Hor. rewrite get_close_map, Et, Hget.
    destruct (map_get "properties" m) as [p|] eqn:E; cbn [fmap option_fmap option_map].
    + destruct (keyword "properties" p); try done; by rewrite bool_decide_eq_true_2, orb_true_r by by eexists.
    + destruct Hor as [Hor|Hor]; [|unfold contains_key in Hor; by rewrite E in Hor].
      by destruct (schema_is_object_typed m).
  - intros children E. pose proof (flat_get _ _ _ Hf E) as (_ & _ & [Hcs _]%flat_Object_inv).
    set (children1 := (λ c, (c.1, strict_normalize_schema c.2)) <$> children).
    assert (map_get "properties" mid = Some (Object children1)) as Emp.
    { rewrite Hget, E. cbn. by rewrite (collect_sorted (λ c, strict_normalize_schema c.2)). }
    rewrite !get_close_map, Emp, (required_normalized m mid Hget).
    assert (children1.*1 = children.*1) as ->
      by (unfold children1; rewrite <- list_fmap_compose; by apply list_fmap_ext).
    split; [done|]. eexists. split; [done|]. split.
    + unfold close_properties, children1. rewrite <- list_fmap_compose. by apply list_fmap_ext.
    + intros p c ([p' c'] & [= -> ->] & _)%list_elem_of_fmap. cbn.
      case_decide; [by left|right]. by rewrite nullable_accepts_null.
  - intros key Hkey. rewrite get_close_map, <- Hget.
    rewrite !(proj2 (eqb_false key _)) by set_solver.
    by destruct (map_get "properties" mid) as [[]|].
Qed.

Lemma strict_schema_correct_witness :
  flat (Object [("properties", Object [("a", str_type "string")]); ("type", Str "object")])
  ∧ ∃ out, strict_normalize_schema
      (Object [("properties", Object [("a", str_type "string")]); ("type", Str "object")]) = Object out
    ∧ map_get "additionalProperties" out = Some (Bool false).
Proof.
  assert (flat (Object [("properties", Object [("a", str_type "string")]); ("type", Str "object")])) as Hf.
  { apply flat_unchanged. vm_compute. reflexivity. }
  split; [exact Hf|]. destruct (strict_schema_correct _ Hf) as (out & E & _ & Ha & _).
  exists out. split; [exact E|]. apply Ha. left. vm_compute. exact I.
Defined.
