(* ===== verification/ProviderModels.v ===== *)
(** * Models and providers ([crates/gcode-provider-core/src])

    The catalog of models, which provider serves a model and with how much
    context ([models.rs]), the choice of a provider and the order of fallbacks
    ([selection.rs]), and the names Anthropic wants ([anthropic.rs]). *)

From S2P Require Import Prelude Utf8 Text.
Open Scope nat_scope.

(** ** Models ([models.rs]) *)

Definition ALL_CLAUDE_MODELS : list string :=
  ["claude-opus-4-6"; "claude-opus-4-6[1m]"; "claude-sonnet-4-6"; "claude-sonnet-4-6[1m]";
   "claude-haiku-4-5"; "claude-opus-4-5"; "claude-sonnet-4-5"; "claude-sonnet-4-20250514"].

Definition ALL_OPENAI_MODELS : list string :=
  ["gpt-5.5"; "gpt-5.4"; "gpt-5.4-pro"; "gpt-5.3-codex"; "gpt-5.3-codex-spark";
   "gpt-5.2-chat-latest"; "gpt-5.2-codex"; "gpt-5.2-pro"; "gpt-5.1-codex-mini";
   "gpt-5.1-codex-max"; "gpt-5.2"; "gpt-5.1-chat-latest"; "gpt-5.1"; "gpt-5.1-codex";
   "gpt-5-chat-latest"; "gpt-5-codex"; "gpt-5-codex-mini"; "gpt-5-pro"; "gpt-5-mini";
   "gpt-5-nano"; "gpt-5"].

(** Context sizes reach a million and are integers. *)
Definition DEFAULT_CONTEXT_LIMIT : Z := 200000.

Definition normalize_provider_id (provider : string) : string := ascii_lowercase (trim provider).

Definition provider_key_from_hint (provider_hint : option string) : option string :=
  hint ← provider_hint;
  let normalized := normalize_provider_id hint in
  if str_in normalized ["anthropic"; "claude"] then Some "claude"
  else if normalized =s "openai" then Some "openai"
  else if normalized =s "openrouter" then Some "openrouter"
  else if str_in normalized ["copilot"; "github copilot"] then Some "copilot"
  else if normalized =s "antigravity" then Some "antigravity"
  else if str_in normalized ["gemini"; "google gemini"] then Some "gemini"
  else if normalized =s "cursor" then Some "cursor"
  else None.

Definition is_listable_model_name (model : string) : bool :=
  let trimmed := trim model in
  negb (trimmed =s "") && negb (str_in trimmed ["copilot models"; "openrouter models"]).

(** [s.strip_suffix(suffix)] and [s.ends_with(suffix)] *)
Definition strip_suffix (suffix s : string) : option string :=
  let n := String.length s - String.length suffix in
  if (String.length suffix <=? String.length s) && (str_drop n s =s suffix)
  then Some (str_take n s) else None.
Definition ends_with (suffix s : string) : bool := bool_decide (is_Some (strip_suffix suffix s)).

(** [s.rsplit('/').next()]: the text after the last slash. *)
Fixpoint after_last_slash (s : string) : string :=
  match s with
  | EmptyString => ""
  | String b s' =>
      if str_contains "/" s' then after_last_slash s'
      else if starts_with "/" s then s' else s
  end.

Definition model_id_for_capability_lookup (model : string) (provider : option string)
    : string * bool :=
  let normalized := ascii_lowercase (trim model) in
  let (base, is_1m) :=
    match strip_suffix "[1m]" normalized with
    | Some base => (base, true)
    | None => (normalized, false)
    end in
  let lookup :=
    if bool_decide (provider = Some "openrouter") || str_contains "/" base
    then after_last_slash base else base in
  (lookup, is_1m).

Definition copilot_context_limit_for_model (model : string) : Z :=
  if str_in model ["claude-sonnet-4"; "claude-sonnet-4-6"; "claude-sonnet-4.6"] then 128000
  else if str_in model ["claude-opus-4-6"; "claude-opus-4.6"; "claude-opus-4.6-fast"] then 200000
  else if str_in model ["claude-opus-4.5"; "claude-opus-4-5"] then 200000
  else if str_in model ["claude-sonnet-4.5"; "claude-sonnet-4-5"] then 200000
  else if str_in model ["claude-haiku-4.5"; "claude-haiku-4-5"] then 200000
  else if str_in model ["gpt-4o"; "gpt-4o-mini"] then 128000
  else if starts_with "gpt-4o" model then 128000
  else if starts_with "gpt-4.1" model then 128000
  else if starts_with "gpt-5" model then 128000
  else if str_in model ["o3-mini"; "o4-mini"] then 128000
  else if starts_with "gemini-2.0-flash" model then 1000000
  else if starts_with "gemini-2.5" model then 1000000
  else if starts_with "gemini-3" model then 1000000
  else 128000.

Definition provider_for_model_with_hint (model : string) (provider_hint : option string)
    : option string :=
  match provider_key_from_hint provider_hint with
  | Some provider => Some provider
  | None =>
      let model := trim model in
      if str_contains "@" model then Some "openrouter"
      else if str_in model ALL_CLAUDE_MODELS then Some "claude"
      else if str_in model ALL_OPENAI_MODELS then Some "openai"
      else if str_contains "/" model then Some "openrouter"
      else if starts_with "claude-" model then Some "claude"
      else if starts_with "gpt-" model then Some "openai"
      else if starts_with "gemini-" model then Some "gemini"
      else None
  end.

Definition provider_for_model (model : string) : option string :=
  provider_for_model_with_hint model None.

Definition context_limit_for_model_with_provider_and_cache (model : string)
    (provider_hint : option string) (cached_context_limit : string → option Z) : option Z :=
  let provider :=
    match provider_key_from_hint provider_hint with
    | Some provider => Some provider
    | None => provider_for_model model
    end in
  let (model, is_1m) := model_id_for_capability_lookup model provider in
  if bool_decide (provider = Some "copilot") then Some (copilot_context_limit_for_model model)
  else if starts_with "gpt-5.3-codex-spark" model then Some 128000%Z
  else if starts_with "gpt-5.2-chat" model || starts_with "gpt-5.1-chat" model
          || starts_with "gpt-5-chat" model then Some 128000%Z
  else if starts_with "gpt-5.4" model then Some 1000000%Z
  else if starts_with "gpt-5" model then Some 272000%Z
  else if starts_with "claude-opus-4-6" model || starts_with "claude-opus-4.6" model
  then Some (if is_1m : bool then 1048576%Z else 200000%Z)
  else if starts_with "claude-sonnet-4-6" model || starts_with "claude-sonnet-4.6" model
  then Some (if is_1m : bool then 1048576%Z else 200000%Z)
  else if starts_with "claude-opus-4-5" model || starts_with "claude-opus-4.5" model
  then Some 200000%Z
  else
    match cached_context_limit model with
    | Some limit => Some limit
    | None =>
        if starts_with "gemini-2.0-flash" model || starts_with "gemini-2.5" model
           || starts_with "gemini-3" model
        then Some 1000000%Z else None
    end.

Definition context_limit_for_model_with_provider (model : string) (provider_hint : option string)
    : option Z :=
  context_limit_for_model_with_provider_and_cache model provider_hint (λ _, None).

Definition context_limit_for_model (model : string) : option Z :=
  context_limit_for_model_with_provider model None.

Definition normalize_copilot_model_name (model : string) : option string :=
  if str_in model (ALL_CLAUDE_MODELS ++ ALL_OPENAI_MODELS) then None
  else
    let normalized := replace "." "-" model in
    find (String.eqb normalized) (ALL_CLAUDE_MODELS ++ ALL_OPENAI_MODELS).

(** ** Providers ([selection.rs]) *)

Inductive ActiveProvider :=
| Claude | OpenAI | Copilot | Antigravity | Gemini | Cursor | OpenRouter.

#[export] Instance ActiveProvider_eq_dec : EqDecision ActiveProvider.
Proof. solve_decision. Defined.

Record ProviderAvailability := {
  pa_openai : bool;
  pa_claude : bool;
  pa_copilot : bool;
  pa_antigravity : bool;
  pa_gemini : bool;
  pa_cursor : bool;
  pa_openrouter : bool;
  pa_copilot_premium_zero : bool;
}.

Definition is_configured (a : ProviderAvailability) (provider : ActiveProvider) : bool :=
  match provider with
  | Claude => pa_claude a
  | OpenAI => pa_openai a
  | Copilot => pa_copilot a
  | Antigravity => pa_antigravity a
  | Gemini => pa_gemini a
  | Cursor => pa_cursor a
  | OpenRouter => pa_openrouter a
  end.

Definition auto_default_provider (a : ProviderAvailability) : ActiveProvider :=
  if pa_copilot_premium_zero a && pa_copilot a then Copilot
  else if pa_openai a then OpenAI
  else if pa_claude a then Claude
  else if pa_copilot a then Copilot
  else if pa_antigravity a then Antigravity
  else if pa_gemini a then Gemini
  else if pa_cursor a then Cursor
  else if pa_openrouter a then OpenRouter
  else Claude.

Definition provider_label (provider : ActiveProvider) : string :=
  match provider with
  | Claude => "Anthropic" | OpenAI => "OpenAI" | Copilot => "GitHub Copilot"
  | Antigravity => "Antigravity" | Gemini => "Gemini" | Cursor => "Cursor"
  | OpenRouter => "OpenRouter"
  end.

Definition provider_key (provider : ActiveProvider) : string :=
  match provider with
  | Claude => "claude" | OpenAI => "openai" | Copilot => "copilot"
  | Antigravity => "antigravity" | Gemini => "gemini" | Cursor => "cursor"
  | OpenRouter => "openrouter"
  end.

Definition provider_from_model_key (key : string) : option ActiveProvider :=
  if key =s "claude" then Some Claude
  else if key =s "openai" then Some OpenAI
  else if key =s "copilot" then Some Copilot
  else if key =s "antigravity" then Some Antigravity
  else if key =s "gemini" then Some Gemini
  else if key =s "cursor" then Some Cursor
  else if key =s "openrouter" then Some OpenRouter
  else None.

Definition parse_provider_hint (value : string) : option ActiveProvider :=
  let value := ascii_lowercase (trim value) in
  if str_in value ["claude"; "anthropic"] then Some Claude
  else if value =s "openai" then Some OpenAI
  else if value =s "copilot" then Some Copilot
  else if value =s "antigravity" then Some Antigravity
  else if value =s "gemini" then Some Gemini
  else if value =s "cursor" then Some Cursor
  else if value =s "openrouter" then Some OpenRouter
  else None.

Definition explicit_model_provider_prefix (model : string)
    : option (ActiveProvider * string * string) :=
  match strip_prefix "copilot:" model with
  | Some rest => Some (Copilot, "copilot:", rest)
  | None =>
      match strip_prefix "antigravity:" model with
      | Some rest => Some (Antigravity, "antigravity:", rest)
      | None =>
          match strip_prefix "cursor:" model with
          | Some rest => Some (Cursor, "cursor:", rest)
          | None => None
          end
      end
  end.

Definition model_name_for_provider (provider : ActiveProvider) (model : string) : string :=
  match provider with
  | Claude => default model (normalize_copilot_model_name model)
  | _ => model
  end.

Definition fallback_sequence (active : ActiveProvider) : list ActiveProvider :=
  match active with
  | Claude => [Claude; OpenAI; Copilot; Gemini; Cursor; OpenRouter]
  | OpenAI => [OpenAI; Claude; Copilot; Gemini; Cursor; OpenRouter]
  | Copilot => [Copilot; Claude; OpenAI; Antigravity; Gemini; Cursor; OpenRouter]
  | Antigravity => [Antigravity; Claude; OpenAI; Copilot; Gemini; Cursor; OpenRouter]
  | Gemini => [Gemini; Claude; OpenAI; Antigravity; Copilot; Cursor; OpenRouter]
  | Cursor => [Cursor; Claude; OpenAI; Copilot; Antigravity; Gemini; OpenRouter]
  | OpenRouter => [OpenRouter; Claude; OpenAI; Copilot; Antigravity; Gemini; Cursor]
  end.

(** ** Anthropic ([anthropic.rs]) *)

Definition anthropic_is_1m_model (model : string) : bool := ends_with "[1m]" model.
Definition anthropic_effectively_1m (model : string) : bool := anthropic_is_1m_model model.
Definition anthropic_strip_1m_suffix (model : string) : string :=
  default model (strip_suffix "[1m]" model).

Definition ANTHROPIC_OAUTH_BETA_HEADERS : string :=
  "claude-code-20250219,oauth-2025-04-20,interleaved-thinking-2025-05-14,context-management-2025-06-27,prompt-caching-scope-2026-01-05,advisor-tool-2026-03-01,advanced-tool-use-2025-11-20,effort-2025-11-24".
Definition ANTHROPIC_OAUTH_BETA_HEADERS_1M : string :=
  "claude-code-20250219,oauth-2025-04-20,interleaved-thinking-2025-05-14,context-management-2025-06-27,prompt-caching-scope-2026-01-05,advisor-tool-2026-03-01,advanced-tool-use-2025-11-20,effort-2025-11-24,context-1m-2025-08-07".

Definition anthropic_oauth_beta_headers (model : string) : string :=
  if anthropic_is_1m_model model then ANTHROPIC_OAUTH_BETA_HEADERS_1M
  else ANTHROPIC_OAUTH_BETA_HEADERS.

(** The names of the tools, here and at Anthropic. *)
Definition oauth_tool_names : list (string * string) :=
  [("bash", "Bash"); ("read", "Read"); ("write", "Write"); ("edit", "Edit"); ("glob", "Glob");
   ("grep", "Grep"); ("subagent", "Agent"); ("schedule", "ScheduleWakeup"); ("skill_manage", "Skill")].

Definition anthropic_map_tool_name_for_oauth (name : string) : string :=
  from_option snd name (find (λ p, p.1 =s name) oauth_tool_names).

Definition anthropic_map_tool_name_from_oauth (name : string) : string :=
  from_option fst name (find (λ p, p.2 =s name) oauth_tool_names).

(** ** Examples *)

(** The catalog of the server cannot override the window of a GPT model, although
    a comment says so: the built-in sizes come first. *)
Example cache_does_not_override :
  context_limit_for_model_with_provider_and_cache "gpt-5.4" None (λ _, Some 123%Z) = Some 1000000%Z
  ∧ context_limit_for_model_with_provider_and_cache "claude-haiku-4-5" None (λ _, Some 123%Z)
    = Some 123%Z.
Proof. vm_compute. by split. Qed.

Example provider_samples :
  context_limit_for_model "anthropic/Claude-Opus-4.6[1m]" = Some 1048576%Z
  ∧ normalize_copilot_model_name "claude-opus-4.6" = Some "claude-opus-4-6"
  ∧ after_last_slash "a/b/c" = "c" ∧ after_last_slash "a/" = "" ∧ after_last_slash "a" = "a".
Proof. vm_compute. repeat split. Qed.

(** The providers by their keys. *)
Lemma provider_key_roundtrip p : provider_from_model_key (provider_key p) = Some p.
Proof. by destruct p. Qed.

(** A fallback starts with the active provider and tries none twice. *)
Lemma fallback_sequence_NoDup p : NoDup (fallback_sequence p) ∧ head (fallback_sequence p) = Some p.
Proof. split; [apply (bool_decide_unpack _); by destruct p|by destruct p]. Qed.

(** The default is a configured provider when there is one. *)
Lemma auto_default_configured a p :
  is_configured a p = true → is_configured a (auto_default_provider a) = true.
Proof.
  destruct a as [[] [] [] [] [] [] [] []], p; cbn; intros; done.
Qed.

(** * Provider failover ([crates/gcode-provider-core/src/failover.rs])

    Whether an error of a provider is worth trying the next one. Errors are
    known by phrases and by status codes that stand alone. *)

(** ** The prompt *)

Record ProviderFailoverPrompt := {
  fp_from_provider : string;
  fp_from_label : string;
  fp_to_provider : string;
  fp_to_label : string;
  fp_reason : string;
  fp_estimated_input_chars : usize;
  fp_estimated_input_tokens : usize;
}.

(** The JSON of a prompt, which serde derives. *)
Class PromptJson := {
  prompt_to_json : ProviderFailoverPrompt → string;
  prompt_from_json : string → option ProviderFailoverPrompt;
}.

Definition PROVIDER_FAILOVER_PROMPT_PREFIX : string := "[gcode-provider-failover]".

Section prompt.
Context `{PromptJson}.

Definition to_error_message (p : ProviderFailoverPrompt) : string :=
  PROVIDER_FAILOVER_PROMPT_PREFIX +:+ prompt_to_json p +:+ nl +:+ fp_from_label p
  +:+ " is unavailable; switching to " +:+ fp_to_label p +:+ " would resend about "
  +:+ pretty (fp_estimated_input_tokens p) +:+ " input tokens (~"
  +:+ pretty (fp_estimated_input_chars p) +:+ " chars).".

Definition parse_failover_prompt_message (message : string) : option ProviderFailoverPrompt :=
  line ← head (lines message);
  payload ← strip_prefix PROVIDER_FAILOVER_PROMPT_PREFIX (trim line);
  prompt_from_json payload.
End prompt.

(** ** Decisions *)

Inductive FailoverDecision := NoFailover | RetryNextProvider | RetryAndMarkUnavailable.

#[export] Instance FailoverDecision_eq_dec : EqDecision FailoverDecision.
Proof. solve_decision. Defined.

Definition should_failover (d : FailoverDecision) : bool :=
  match d with NoFailover => false | _ => true end.
Definition should_mark_provider_unavailable (d : FailoverDecision) : bool :=
  match d with RetryAndMarkUnavailable => true | _ => false end.
Definition decision_as_str (d : FailoverDecision) : string :=
  match d with
  | NoFailover => "none"
  | RetryNextProvider => "retry-next-provider"
  | RetryAndMarkUnavailable => "retry-and-mark-unavailable"
  end.

(** ** Status codes *)

Definition is_ascii_digit (b : Ascii.ascii) : bool :=
  let n := Ascii.nat_of_ascii b in (48 <=? n) && (n <=? 57).

(** [haystack.match_indices(needle)]: the matches from the left that do not
    overlap, from position [pos] on after skipping [skip] bytes. *)
Fixpoint match_indices (needle s : string) (pos skip : nat) : list nat :=
  match s with
  | EmptyString => []
  | String _ s' =>
      match skip with
      | S skip => match_indices needle s' (S pos) skip
      | O =>
          if starts_with needle s
          then pos :: match_indices needle s' (S pos) (String.length needle - 1)
          else match_indices needle s' (S pos) 0
      end
  end.

Definition byte_is_digit (s : string) (i : nat) : bool :=
  from_option is_ascii_digit false (String.get i s).

Definition contains_independent_status_code (haystack code : string) : bool :=
  existsb (λ start,
    ((start =? 0) || negb (byte_is_digit haystack (start - 1)))
    && ((start + String.length code =? String.length haystack)
        || negb (byte_is_digit haystack (start + String.length code))))
    (match_indices code haystack 0 0).

(** ** Classification *)

Definition request_size_phrases : list string :=
  ["context length"; "context_length"; "context window"; "maximum context"; "prompt is too long";
   "input is too long"; "too many tokens"; "max tokens"; "token limit"; "token_limit";
   "413 payload too large"; "413 request entity too large"].
Definition rate_or_quota_phrases : list string :=
  ["rate limit"; "rate-limited"; "too many requests"; "quota"; "credit balance";
   "credits have run out"; "insufficient credit"; "billing"; "payment required"; "usage tier"].
Definition auth_or_access_phrases : list string :=
  ["access denied"; "not accessible by integration"; "provider unavailable";
   "provider not available"; "provider is unavailable"; "provider currently unavailable";
   "provider not configured"; "credentials are not configured"; "no credentials";
   "token exchange failed"; "authentication failed"; "unauthorized"; "forbidden"].

Definition mentions (lower : string) (phrases codes : list string) : bool :=
  existsb (λ needle, str_contains needle lower) phrases
  || existsb (contains_independent_status_code lower) codes.

Definition classify_failover_error_message (message : string) : FailoverDecision :=
  let lower := ascii_lowercase message in
  if mentions lower request_size_phrases ["413"] then RetryNextProvider
  else if mentions lower rate_or_quota_phrases ["429"; "402"] then RetryAndMarkUnavailable
  else if mentions lower auth_or_access_phrases ["401"; "403"] then RetryAndMarkUnavailable
  else NoFailover.

Example classify_samples :
  classify_failover_error_message "429 Too Many Requests" = RetryAndMarkUnavailable
  ∧ classify_failover_error_message "HTTP 413" = RetryNextProvider
  ∧ classify_failover_error_message "model version 4130 failed" = NoFailover
  ∧ classify_failover_error_message "ids 14013, 403" = RetryAndMarkUnavailable.
Proof. vm_compute. repeat split. Qed.

(** ** Codes that stand alone *)

Lemma get_app_l s t i : i < String.length s → String.get i (s +:+ t) = String.get i s.
Proof. revert i. induction s as [|b s IH]; intros [|i]; cbn; intros; try lia; [done|]. apply IH. lia. Qed.

Lemma get_app_r s t i : String.get (String.length s + i) (s +:+ t) = String.get i t.
Proof. by induction s. Qed.

(** The positions found are occurrences. *)
Lemma match_indices_sound needle s pos skip p :
  p ∈ match_indices needle s pos skip →
  ∃ a b, s = a +:+ needle +:+ b ∧ p = pos + String.length a.
Proof.
  revert pos skip. induction s as [|c s IH]; intros pos skip; cbn [match_indices]; [set_solver|].
  assert (∀ skip, p ∈ match_indices needle s (S pos) skip →
    ∃ a b, String c s = a +:+ needle +:+ b ∧ p = pos + String.length a) as Hnext.
  { intros skip' (a & b & -> & ->)%IH. exists (String c a), b. split; [done|]. cbn. lia. }
  destruct skip; [|apply Hnext]. destruct (starts_with needle (String c s)) eqn:E; [|apply Hnext].
  intros [->|Hp]%elem_of_cons; [|by eapply Hnext].
  apply starts_with_spec in E as [b E]. exists "", b. split; [done|]. cbn. lia.
Qed.

Lemma match_here needle s pos :
  s ≠ "" → starts_with needle s = true → pos ∈ match_indices needle s pos 0.
Proof. destruct s as [|c s]; [done|]. intros _ E. cbn [match_indices]. rewrite E. left. Qed.

(** An occurrence is found, or begins inside one that is. *)
Lemma match_indices_complete needle a b pos skip :
  needle ≠ "" →
  pos + String.length a ∈ match_indices needle (a +:+ needle +:+ b) pos skip
  ∨ String.length a < skip
  ∨ ∃ q, q ∈ match_indices needle (a +:+ needle +:+ b) pos skip ∧
      q < pos + String.length a < q + String.length needle.
Proof.
  intros Hn. revert pos skip. induction a as [|c a IH]; intros pos skip; cbn [String.length].
  - destruct skip; [|right; left; lia]. left. rewrite Nat.add_0_r. apply match_here.
    + by destruct needle.
    + apply starts_with_spec. by eexists.
  - change (String c a +:+ needle +:+ b) with (String c (a +:+ needle +:+ b)). cbn [match_indices].
    destruct skip as [|skip]; [destruct (starts_with needle _) eqn:E|].
    + destruct (IH (S pos) (String.length needle - 1)) as [Hin|[Hlt|(q & Hq & Hlt)]].
      * left. right. by replace (pos + S (String.length a)) with (S pos + String.length a) by lia.
      * right. right. exists pos. split; [left|]. lia.
      * right. right. exists q. split; [by right|]. lia.
    + destruct (IH (S pos) 0) as [Hin|[?|(q & Hq & Hlt)]]; [|lia|].
      * left. by replace (pos + S (String.length a)) with (S pos + String.length a) by lia.
      * right. right. exists q. split; [done|]. lia.
    + destruct (IH (S pos) skip) as [Hin|[?|(q & Hq & Hlt)]]; [|right; left; lia|].
      * left. by replace (pos + S (String.length a)) with (S pos + String.length a) by lia.
      * right. right. exists q. split; [done|]. lia.
Qed.

Definition all_digits (s : string) : Prop :=
  ∀ i b, String.get i s = Some b → is_ascii_digit b = true.

(** A place where a code begins or ends: no digit next to it. *)
Definition no_digit_before (a : string) : Prop :=
  a = "" ∨ byte_is_digit a (String.length a - 1) = false.
Definition no_digit_after (b : string) : Prop := byte_is_digit b 0 = false.

Lemma get_Some_lt s i b : String.get i s = Some b → i < String.length s.
Proof. revert i. induction s as [|c s IH]; intros [|i]; cbn; try done; [lia|]. intros E. apply IH in E. lia. Qed.

Lemma get_lt_Some s i : i < String.length s → ∃ b, String.get i s = Some b.
Proof. revert i. induction s as [|c s IH]; intros [|i]; cbn; intros; [lia|lia|by eexists|]. apply IH. lia. Qed.

(** The two conditions at an occurrence, by the text around it. *)
Lemma occurrence_independent a code b :
  ((String.length a =? 0) || negb (byte_is_digit (a +:+ code +:+ b) (String.length a - 1)))
  && ((String.length a + String.length code =? String.length (a +:+ code +:+ b))
      || negb (byte_is_digit (a +:+ code +:+ b) (String.length a + String.length code))) = true
  ↔ no_digit_before a ∧ no_digit_after b.
Proof.
  rewrite andb_true_iff, !orb_true_iff, !Nat.eqb_eq, !negb_true_iff.
  unfold no_digit_before, no_digit_after, byte_is_digit. rewrite !str_length_app.
  replace (String.get (String.length a + String.length code) (a +:+ code +:+ b)) with (String.get 0 b).
  2: { rewrite get_app_r. rewrite <- (Nat.add_0_r (String.length code)). by rewrite get_app_r. }
  assert (String.length a = 0 ↔ a = "") as -> by (by destruct a).
  assert (String.length a + String.length code = String.length a + (String.length code + String.length b)
    ↔ b = "") as -> by (destruct b; cbn; split; intros; try done; lia).
  split.
  - intros [Ha [->|Hb]]; (split; [|done]); destruct Ha as [?|Ha]; [by left| |by left|];
      (destruct (decide (a = "")) as [|Hne]; [by left|right]);
      (rewrite get_app_l in Ha; [done|]); destruct a; [done|cbn; lia|done|cbn; lia].
  - intros [Ha Hb]. split; [|by right]. destruct Ha as [?|Ha]; [by left|].
    destruct (decide (a = "")) as [|Hne]; [by left|right].
    rewrite get_app_l; [done|]. destruct a; [done|cbn; lia].
Qed.

(** A status code is found exactly when it stands in the message with no
    digit next to it; that matches do not overlap never hides one. *)
Theorem independent_status_code_correct haystack code :
  code ∈ ["413"; "429"; "402"; "401"; "403"] →
  contains_independent_status_code haystack code = true ↔
  ∃ a b, haystack = a +:+ code +:+ b ∧ no_digit_before a ∧ no_digit_after b.
Proof.
  intros Hcode.
  assert (all_digits code ∧ code ≠ "") as [Hdigits Hne].
  { repeat (apply elem_of_cons in Hcode as [->|Hcode]; [split; [|done];
      intros [|[|[|i]]] c; cbn; try done; intros [= <-]; done|]). by apply elem_of_nil in Hcode. }
  unfold contains_independent_status_code. rewrite existsb_exists. split.
  - intros (p & Hp%list_elem_of_In & Hok).
    apply match_indices_sound in Hp as (a & b & -> & ->). rewrite Nat.add_0_l in Hok.
    apply occurrence_independent in Hok. by exists a, b.
  - intros (a & b & -> & Hok). exists (String.length a).
    split; [|by apply occurrence_independent]. apply list_elem_of_In.
    destruct (match_indices_complete code a b 0 0 Hne) as [?|[?|(q & Hq & Hlt)]]; [done|lia|].
    (* a match over the byte before: that byte would be a digit *)
    exfalso. apply match_indices_sound in Hq as (a' & b' & E & ->). rewrite Nat.add_0_l in Hlt.
    destruct Hok as [[->|Hbefore] _]; [cbn in Hlt; lia|].
    destruct (get_lt_Some code (String.length a - 1 - String.length a')) as [c Hc]; [lia|].
    unfold byte_is_digit in Hbefore.
    rewrite <- (get_app_l a (code +:+ b)), E in Hbefore by lia.
    replace (String.length a - 1) with
      (String.length a' + (String.length a - 1 - String.length a')) in Hbefore by lia.
    rewrite get_app_r, get_app_l, Hc in Hbefore by lia. cbn in Hbefore.
    by rewrite (Hdigits _ _ Hc) in Hbefore.
Qed.

Lemma independent_status_code_witness :
  "413" ∈ ["413"; "429"; "402"; "401"; "403"]
  ∧ (∃ a b, "4130 and 413." = a +:+ "413" +:+ b ∧ no_digit_before a ∧ no_digit_after b).
Proof.
  assert ("413" ∈ ["413"; "429"; "402"; "401"; "403"]) as Hin by left.
  split; [exact Hin|]. apply (independent_status_code_correct _ _ Hin). vm_compute. reflexivity.
Defined.
