(* ===== verification/ProviderPricing.v ===== *)
(** * Prices of routes ([crates/gcode-provider-core/src])

    Estimates of what a route costs ([lib.rs], [pricing.rs]), routes without
    repetitions ([selection.rs]), and the summary of a refreshed catalog
    ([catalog_refresh.rs]). Prices are millionths of a dollar. *)

From S2P Require Import Prelude Utf8 Text F32 ProviderModels.
Open Scope nat_scope.

(** ** Estimates ([lib.rs]) *)

Inductive RouteBillingKind := Metered | Subscription | IncludedQuota | UnknownBilling.
Inductive RouteCostSource :=
| PublicApiPricing | PublicPlanPricing | RuntimePlan | OpenRouterEndpoint | OpenRouterCatalog
| Heuristic.
Inductive RouteCostConfidence := Exact | HighConfidence | MediumConfidence | LowConfidence | UnknownConfidence.

Record RouteCheapnessEstimate := {
  ch_billing_kind : RouteBillingKind;
  ch_source : RouteCostSource;
  ch_confidence : RouteCostConfidence;
  ch_monthly_price_micros : option u64;
  ch_input_price_per_mtok_micros : option u64;
  ch_output_price_per_mtok_micros : option u64;
  ch_cache_read_price_per_mtok_micros : option u64;
  ch_included_requests_per_month : option u64;
  ch_reference_input_tokens : u64;
  ch_reference_output_tokens : u64;
  ch_estimated_reference_cost_micros : option u64;
  ch_note : option string;
}.

Record ModelRoute := {
  mr_model : string;
  mr_provider : string;
  mr_api_method : string;
  mr_available : bool;
  mr_detail : string;
  mr_cheapness : option RouteCheapnessEstimate;
}.

Definition estimated_reference_cost_micros (route : ModelRoute) : option u64 :=
  mr_cheapness route ≫= ch_estimated_reference_cost_micros.

Definition CHEAPNESS_REFERENCE_INPUT_TOKENS : u64 := 25000%Z.
Definition CHEAPNESS_REFERENCE_OUTPUT_TOKENS : u64 := 5000%Z.

Definition u64_saturating_mul (a b : u64) : u64 := Z.min (a * b) (2 ^ 64 - 1).

Definition reference_request_cost_micros (input output : u64) : u64 :=
  wrap_u 64 (u64_saturating_mul input CHEAPNESS_REFERENCE_INPUT_TOKENS / 1000000
             + u64_saturating_mul output CHEAPNESS_REFERENCE_OUTPUT_TOKENS / 1000000).

Definition metered (source : RouteCostSource) (confidence : RouteCostConfidence)
    (input output : u64) (cache_read : option u64) (note : option string)
    : RouteCheapnessEstimate := {|
  ch_billing_kind := Metered; ch_source := source; ch_confidence := confidence;
  ch_monthly_price_micros := None; ch_input_price_per_mtok_micros := Some input;
  ch_output_price_per_mtok_micros := Some output;
  ch_cache_read_price_per_mtok_micros := cache_read; ch_included_requests_per_month := None;
  ch_reference_input_tokens := CHEAPNESS_REFERENCE_INPUT_TOKENS;
  ch_reference_output_tokens := CHEAPNESS_REFERENCE_OUTPUT_TOKENS;
  ch_estimated_reference_cost_micros := Some (reference_request_cost_micros input output);
  ch_note := note |}.

Definition subscription (source : RouteCostSource) (confidence : RouteCostConfidence)
    (monthly_price : u64) (included : option u64) (note : option string)
    : RouteCheapnessEstimate := {|
  ch_billing_kind := Subscription; ch_source := source; ch_confidence := confidence;
  ch_monthly_price_micros := Some monthly_price; ch_input_price_per_mtok_micros := None;
  ch_output_price_per_mtok_micros := None; ch_cache_read_price_per_mtok_micros := None;
  ch_included_requests_per_month := included;
  ch_reference_input_tokens := CHEAPNESS_REFERENCE_INPUT_TOKENS;
  ch_reference_output_tokens := CHEAPNESS_REFERENCE_OUTPUT_TOKENS;
  ch_estimated_reference_cost_micros := (λ count, (monthly_price / Z.max count 1)%Z) <$> included;
  ch_note := note |}.

Definition included_quota (source : RouteCostSource) (confidence : RouteCostConfidence)
    (monthly_price : u64) (included estimated : option u64) (note : option string)
    : RouteCheapnessEstimate := {|
  ch_billing_kind := IncludedQuota; ch_source := source; ch_confidence := confidence;
  ch_monthly_price_micros := Some monthly_price; ch_input_price_per_mtok_micros := None;
  ch_output_price_per_mtok_micros := None; ch_cache_read_price_per_mtok_micros := None;
  ch_included_requests_per_month := included;
  ch_reference_input_tokens := CHEAPNESS_REFERENCE_INPUT_TOKENS;
  ch_reference_output_tokens := CHEAPNESS_REFERENCE_OUTPUT_TOKENS;
  ch_estimated_reference_cost_micros := estimated; ch_note := note |}.

(** ** Price lists ([pricing.rs]) *)

Definition usd_to_micros (usd : f64) : u64 := f64_round_to_u64 (f64_mul usd (f64_of_Z 1000000)).

Definition usd_per_token_str_to_micros_per_mtok (raw : string) : option u64 :=
  (λ usd_per_token, f64_round_to_u64 (f64_mul usd_per_token (f64_of_Z 1000000000000)))
    <$> parse_f64 (trim raw).

(** [n / 10 ^ k] dollars. *)
Definition usd (n : positive) (k : N) : u64 := usd_to_micros (f64_decimal n k).

Definition anthropic_api_pricing (model : string) : option RouteCheapnessEstimate :=
  let base := default model (strip_suffix "[1m]" model) in
  let long_context := ends_with "[1m]" model in
  let note :=
    Some (if long_context then "Anthropic API long-context pricing" else "Anthropic API pricing") in
  let price (long short : u64) : u64 := if long_context then long else short in
  if base =s "claude-opus-4-6" then
    Some (metered PublicApiPricing Exact (price (usd 10 0) (usd 5 0)) (price (usd 375 1) (usd 25 0))
            (Some (price (usd 1 0) (usd 5 1))) note)
  else if base =s "claude-sonnet-4-6" then
    Some (metered PublicApiPricing Exact (price (usd 6 0) (usd 3 0)) (price (usd 225 1) (usd 15 0))
            (Some (price (usd 6 1) (usd 3 1))) note)
  else if base =s "claude-haiku-4-5" then
    Some (metered PublicApiPricing Exact (usd 1 0) (usd 5 0) (Some (usd 1 1))
            (Some "Anthropic API pricing"))
  else if base =s "claude-opus-4-5" then
    Some (metered Heuristic MediumConfidence (usd 5 0) (usd 25 0) (Some (usd 5 1))
            (Some "Estimated from Opus 4.6 API pricing"))
  else if str_in base ["claude-sonnet-4-5"; "claude-sonnet-4-20250514"] then
    Some (metered Heuristic MediumConfidence (usd 3 0) (usd 15 0) (Some (usd 3 1))
            (Some "Estimated from Sonnet 4.6 API pricing"))
  else None.

Definition anthropic_oauth_pricing (model : string) (subscription_type : option string)
    : RouteCheapnessEstimate :=
  let base := default model (strip_suffix "[1m]" model) in
  let is_opus := str_contains "opus" base in
  let is_1m := ends_with "[1m]" model in
  match (λ s, ascii_lowercase (trim s)) <$> subscription_type with
  | Some plan =>
      if plan =s "max" then
        subscription RuntimePlan MediumConfidence (usd 100 0) None
          (Some (if is_opus then "Claude Max plan; Opus access included; 1M context"
                 else "Claude Max plan; 1M context"))
      else if plan =s "pro" then
        subscription RuntimePlan MediumConfidence (usd 20 0) None
          (Some (if is_1m then "Claude Pro plan; 1M context requires extra usage"
                 else "Claude Pro plan"))
      else
        subscription RuntimePlan LowConfidence (usd 20 0) None
          (Some ("Claude OAuth plan '" +:+ plan +:+ "'; assumed Pro-like pricing"))
  | None =>
      subscription PublicPlanPricing LowConfidence (if is_opus then usd 100 0 else usd 20 0) None
        (Some (if is_opus then "Opus access implies Claude Max-like subscription pricing"
               else "Claude OAuth subscription pricing (plan not detected)"))
  end.

Definition openai_api_pricing (model : string) : option RouteCheapnessEstimate :=
  let base := default model (strip_suffix "[1m]" model) in
  let from_5_4 :=
    metered Heuristic LowConfidence (usd 25 1) (usd 15 0) (Some (usd 25 2))
      (Some "Estimated from GPT-5.4 API pricing") in
  if str_in base ["gpt-5.5"; "gpt-5.4"; "gpt-5.4-pro"] then
    Some (metered PublicApiPricing HighConfidence (usd 25 1) (usd 15 0) (Some (usd 25 2))
            (Some "OpenAI API pricing"))
  else if str_in base ["gpt-5.3-codex"; "gpt-5.2-codex"; "gpt-5.2"; "gpt-5.1"; "gpt-5.1-codex"]
  then Some from_5_4
  else if str_in base ["gpt-5.3-codex-spark"; "gpt-5.1-codex-mini"] then
    Some (metered Heuristic LowConfidence (usd 25 2) (usd 2 0) (Some (usd 25 3))
            (Some "Estimated from GPT-5 mini API pricing"))
  else if str_in base ["gpt-5.1-codex-max"; "gpt-5.2-pro"; "gpt-5-chat-latest";
            "gpt-5.1-chat-latest"; "gpt-5.2-chat-latest"; "gpt-5-codex"; "gpt-5"]
  then Some from_5_4
  else None.

Definition openai_oauth_pricing (model : string) : RouteCheapnessEstimate :=
  let base := default model (strip_suffix "[1m]" model) in
  let likely_pro := str_contains "pro" base || str_in base ["gpt-5.5"; "gpt-5.4"] in
  subscription PublicPlanPricing LowConfidence (if likely_pro then usd 200 0 else usd 20 0) None
    (Some (if likely_pro
           then "ChatGPT subscription estimate; advanced GPT-5 access treated as Pro-like"
           else "ChatGPT subscription estimate")).

Definition copilot_pricing (model : string) (zero_premium_mode : bool) : RouteCheapnessEstimate :=
  let likely_premium_model :=
    str_contains "opus" model || str_contains "gpt-5.5" model || str_contains "gpt-5.4" model in
  let monthly_price := if likely_premium_model then usd 39 0 else usd 10 0 in
  let included_requests : u64 := if likely_premium_model then 1500%Z else 300%Z in
  let estimated_reference : option u64 :=
    if zero_premium_mode then Some 0%Z else Some (monthly_price / included_requests)%Z in
  included_quota RuntimePlan (if zero_premium_mode then HighConfidence else MediumConfidence)
    monthly_price (Some included_requests) estimated_reference
    (Some (if zero_premium_mode
           then "Copilot zero-premium mode: gcode will send requests as agent/non-premium when possible"
           else if likely_premium_model
           then "Copilot premium-request estimate using Pro+/premium pricing"
           else "Copilot estimate using Pro included premium requests")).

Definition openrouter_pricing_from_token_prices (prompt completion input_cache_read : option string)
    (source : RouteCostSource) (confidence : RouteCostConfidence) (note : option string)
    : option RouteCheapnessEstimate :=
  input ← (prompt ≫= usd_per_token_str_to_micros_per_mtok);
  output ← (completion ≫= usd_per_token_str_to_micros_per_mtok);
  let cache := input_cache_read ≫= usd_per_token_str_to_micros_per_mtok in
  Some (metered source confidence input output cache note).

(** ** Routes without repetitions ([selection.rs]) *)

Definition route_identity (route : ModelRoute) : string * string * string :=
  (mr_provider route, mr_api_method route, mr_model route).

Definition keep_route (state : list ModelRoute * gset (string * string * string))
    (route : ModelRoute) : list ModelRoute * gset (string * string * string) :=
  let (kept, seen) := state in
  if decide (route_identity route ∈ seen) then state
  else (kept ++ [route], {[route_identity route]} ∪ seen).

Definition dedupe_model_routes (routes : list ModelRoute) : list ModelRoute :=
  (foldl keep_route ([], ∅) routes).1.

(** ** Refreshing the catalog ([catalog_refresh.rs]) *)

Record ModelCatalogRefreshSummary := {
  mc_model_count_before : usize;
  mc_model_count_after : usize;
  mc_models_added : usize;
  mc_models_removed : usize;
  mc_route_count_before : usize;
  mc_route_count_after : usize;
  mc_routes_added : usize;
  mc_routes_removed : usize;
  mc_routes_changed : usize;
}.

Definition is_display_only_age_suffix (detail : string) : bool :=
  let detail := trim detail in
  match strip_suffix "m ago" detail, strip_suffix "h ago" detail, strip_suffix "d ago" detail with
  | Some prefix, _, _ | None, Some prefix, _ | None, None, Some prefix =>
      negb (prefix =s "")
      && forallb (λ b, let n := Ascii.nat_of_ascii b in (48 <=? n) && (n <=? 57))
           (String.list_ascii_of_string prefix)
  | None, None, None => false
  end.

(** [s.rsplit_once(',')] *)
Fixpoint rsplit_comma (s : string) : option (string * string) :=
  match s with
  | EmptyString => None
  | String b s' =>
      match rsplit_comma s' with
      | Some (prefix, suffix) => Some (String b prefix, suffix)
      | None => if starts_with "," s then Some ("", s') else None
      end
  end.

(** [s.trim_end_matches(',')] *)
Fixpoint trim_end_commas (s : string) : string :=
  match s with
  | EmptyString => ""
  | String b s' =>
      let rest := trim_end_commas s' in
      if (rest =s "") && starts_with "," s then "" else String b rest
  end.

Definition normalize_route_refresh_detail (detail : string) : string :=
  let detail := trim detail in
  if detail =s "" then ""
  else if is_display_only_age_suffix detail then ""
  else
    match rsplit_comma detail with
    | Some (prefix, suffix) =>
        if is_display_only_age_suffix suffix then trim (trim_end_commas (trim_end prefix))
        else detail
    | None => detail
    end.

Definition route_key (route : ModelRoute) : string * string * string :=
  (mr_model route, mr_provider route, mr_api_method route).
Definition route_snapshot (route : ModelRoute) : bool * string * option u64 :=
  (mr_available route, normalize_route_refresh_detail (mr_detail route),
   estimated_reference_cost_micros route).

(** Later routes replace earlier ones with the same key. *)
Definition route_map (routes : list ModelRoute)
    : gmap (string * string * string) (bool * string * option u64) :=
  foldl (λ m route, <[route_key route := route_snapshot route]> m) ∅ routes.

Definition summarize_model_catalog_refresh (before_models after_models : list string)
    (before_routes after_routes : list ModelRoute) : ModelCatalogRefreshSummary :=
  let before_model_set : gset string := list_to_set before_models in
  let after_model_set : gset string := list_to_set after_models in
  let before_route_map := route_map before_routes in
  let after_route_map := route_map after_routes in {|
  mc_model_count_before := size before_model_set;
  mc_model_count_after := size after_model_set;
  mc_models_added := size (after_model_set ∖ before_model_set);
  mc_models_removed := size (before_model_set ∖ after_model_set);
  mc_route_count_before := size before_route_map;
  mc_route_count_after := size after_route_map;
  mc_routes_added := size (filter (λ e, before_route_map !! e.1 = None) after_route_map);
  mc_routes_removed := size (filter (λ e, after_route_map !! e.1 = None) before_route_map);
  mc_routes_changed :=
    size (filter (λ e, is_Some (before_route_map !! e.1) ∧ before_route_map !! e.1 ≠ Some e.2)
            after_route_map) |}.

Example detail_samples :
  normalize_route_refresh_detail " key, 5m ago " = "key"
  ∧ normalize_route_refresh_detail "12h ago" = ""
  ∧ normalize_route_refresh_detail "a, b" = "a, b".
Proof. vm_compute. repeat split. Qed.

Example price_samples :
  (openai_api_pricing "gpt-5.3-codex-spark" ≫= ch_cache_read_price_per_mtok_micros) = Some 25000%Z
  ∧ (openrouter_pricing_from_token_prices (Some " 0.000002") (Some "8e-6") None
       OpenRouterCatalog MediumConfidence None ≫= ch_estimated_reference_cost_micros)
    = Some 90000%Z.
Proof. vm_compute. by split. Qed.

(** ** Properties *)

(** The sum of the two costs fits its type, whatever the prices. *)
Lemma reference_cost_exact input output :
  (0 ≤ input)%Z → (0 ≤ output)%Z →
  reference_request_cost_micros input output
  = (Z.min (input * 25000) (2 ^ 64 - 1) / 1000000 + Z.min (output * 5000) (2 ^ 64 - 1) / 1000000)%Z.
Proof.
  intros Hi Ho. unfold reference_request_cost_micros, u64_saturating_mul,
    CHEAPNESS_REFERENCE_INPUT_TOKENS, CHEAPNESS_REFERENCE_OUTPUT_TOKENS.
  assert (∀ x, 0 ≤ x → 0 ≤ Z.min x (2 ^ 64 - 1) / 1000000 ≤ 18446744073710)%Z as Hb.
  { intros x Hx. split; [apply Z.div_pos; lia|]. apply Z.div_le_upper_bound; lia. }
  pose proof (Hb (input * 25000)%Z ltac:(lia)). pose proof (Hb (output * 5000)%Z ltac:(lia)).
  apply wrap_u_id. unfold in_u64. lia.
Qed.

Lemma keep_routes_spec routes kept seen :
  seen = list_to_set (route_identity <$> kept) → NoDup (route_identity <$> kept) →
  let '(kept', seen') := foldl keep_route (kept, seen) routes in
  ∃ added, kept' = kept ++ added ∧ added `sublist_of` routes ∧
    seen' = list_to_set (route_identity <$> kept') ∧ NoDup (route_identity <$> kept') ∧
    ∀ pre route post, routes = pre ++ route :: post →
      route ∈ added ∨ route_identity route ∈ route_identity <$> (kept ++ pre).
Proof.
  revert kept seen. induction routes as [|r routes IH]; intros kept seen Hs Hnd; cbn [foldl].
  { exists []. rewrite app_nil_r. split_and!; [done..|]. by intros []. }
  unfold keep_route at 2. case_decide as Hin.
  - specialize (IH kept seen Hs Hnd). destruct (foldl keep_route _ routes) as [kept' seen'].
    destruct IH as (added & -> & Hsub & Hs' & Hnd' & Hall). exists added.
    split_and!; [done|by constructor|done..|].
    intros [|x pre] route post [= <- E].
    + right. rewrite app_nil_r. rewrite Hs in Hin. by apply elem_of_list_to_set in Hin.
    + destruct (Hall _ _ _ E) as [?|Hid]; [by left|right]. rewrite fmap_app in *. cbn.
      rewrite elem_of_app in *. destruct Hid; [by left|right; by right].
  - assert (NoDup (route_identity <$> (kept ++ [r]))) as Hnd1.
    { rewrite fmap_app. apply NoDup_app. split_and!; [done| |repeat constructor; set_solver].
      intros x Hx ->%list_elem_of_singleton. apply Hin. rewrite Hs. by apply elem_of_list_to_set. }
    specialize (IH (kept ++ [r]) ({[route_identity r]} ∪ seen)).
    destruct (foldl keep_route _ routes) as [kept' seen'].
    destruct IH as (added & -> & Hsub & Hs' & Hnd' & Hall);
      [rewrite Hs, fmap_app, list_to_set_app_L; cbn; set_solver|done|].
    exists (r :: added). rewrite <- app_assoc in *. split_and!; [done|by constructor|done..|].
    intros [|x pre] route post [= <- E]; [left; left|].
    destruct (Hall _ _ _ E) as [?|Hid]; [left; by right|right].
    by rewrite <- app_assoc in Hid.
Qed.

(** The routes that are kept are in their order and have distinct identities; of
    every identity the first route is kept. *)
Lemma dedupe_model_routes_correct routes :
  dedupe_model_routes routes `sublist_of` routes ∧
  NoDup (route_identity <$> dedupe_model_routes routes) ∧
  ∀ pre route post, routes = pre ++ route :: post →
    route_identity route ∉ route_identity <$> pre → route ∈ dedupe_model_routes routes.
Proof.
  unfold dedupe_model_routes. pose proof (keep_routes_spec routes [] ∅) as Hk.
  destruct (foldl keep_route _ routes) as [kept seen]. cbn [fst].
  destruct Hk as (added & -> & Hsub & _ & Hnd & Hall); [done|constructor|]. cbn [app] in *.
  split_and!; [done..|]. intros pre route post E Hno. by destruct (Hall _ _ _ E).
Qed.

(** A refresh accounts for every model and every route: what was there and was
    added is what is there and was removed, and no more routes changed than stayed. *)
Lemma catalog_refresh_balanced before_models after_models before_routes after_routes :
  let s := summarize_model_catalog_refresh before_models after_models before_routes after_routes in
  mc_model_count_before s + mc_models_added s = mc_model_count_after s + mc_models_removed s ∧
  mc_route_count_before s + mc_routes_added s = mc_route_count_after s + mc_routes_removed s ∧
  mc_routes_added s + mc_routes_changed s ≤ mc_route_count_after s.
Proof.
  cbv zeta. unfold summarize_model_catalog_refresh. cbn.
  set (bm := list_to_set before_models : gset string). set (am := list_to_set after_models : gset string).
  generalize (route_map before_routes) as br, (route_map after_routes) as ar. intros br ar.
  assert (∀ X Y : gset string, size X + size (Y ∖ X) = size (X ∪ Y)) as Hu.
  { intros X Y. rewrite <- size_union by set_solver. f_equal. apply set_eq. intros x.
    destruct (decide (x ∈ X)); set_solver. }
  assert (∀ X Y : gset (string * string * string), size X + size (Y ∖ X) = size (X ∪ Y)) as Hu'.
  { intros X Y. rewrite <- size_union by set_solver. f_equal. apply set_eq. intros x.
    destruct (decide (x ∈ X)); set_solver. }
  assert (∀ m n : gmap (string * string * string) (bool * string * option Z),
    size (filter (λ e, m !! e.1 = None) n) = size (dom n ∖ dom m)) as Hf.
  { intros m n. rewrite <- size_dom. f_equal. apply set_eq. intros k.
    rewrite elem_of_difference, !elem_of_dom, <- eq_None_not_Some. split.
    - intros [v [? ?]%map_lookup_filter_Some]. by split; [eexists|].
    - intros [[v Hv] Hk]. exists v. by apply map_lookup_filter_Some. }
  split_and!.
  - rewrite !Hu. f_equal. set_solver.
  - rewrite !Hf, <- !size_dom, !Hu'. f_equal. set_solver.
  - rewrite <- !size_dom, <- size_union.
    + apply subseteq_size. intros k [[v [? _]%map_lookup_filter_Some]%elem_of_dom
        |[v [? _]%map_lookup_filter_Some]%elem_of_dom]%elem_of_union; apply elem_of_dom; by eexists.
    + intros k [v [_ E]%map_lookup_filter_Some]%elem_of_dom [w [_ E']%map_lookup_filter_Some]%elem_of_dom.
      cbn in E, E'. destruct E' as [[? E'] _]. by rewrite E in E'.
Qed.
