(* ===== verification/WorkspaceMap.v ===== *)
(** * The session workspace map
    ([crates/gcode-tui-workspace/src/workspace_map.rs])

    Sessions in horizontal rows, one row per workspace number, with a focus
    remembered for each row. The rows are a [BTreeMap<i32, _>]: a finite map
    that is visited by increasing key. *)

From S2P Require Import Prelude.
Open Scope nat_scope.

(** ** Data *)

Inductive WorkspaceSessionVisualState :=
| VisualIdle | VisualRunning | VisualCompleted | VisualWaiting | VisualError | VisualDetached.

Record WorkspaceSessionTile := {
  wt_session_id : string;
  wt_state : WorkspaceSessionVisualState;
}.

Definition tile_new (session_id : string) : WorkspaceSessionTile :=
  {| wt_session_id := session_id; wt_state := VisualIdle |}.

Definition tile_with_state (session_id : string) (state : WorkspaceSessionVisualState)
    : WorkspaceSessionTile :=
  {| wt_session_id := session_id; wt_state := state |}.

Record WorkspaceRow := {
  wr_sessions : list WorkspaceSessionTile;
  wr_last_focused : option usize;
}.

Definition row_default : WorkspaceRow := {| wr_sessions := []; wr_last_focused := None |}.

(** ** Rows *)

Definition row_is_empty (row : WorkspaceRow) : bool :=
  match wr_sessions row with [] => true | _ => false end.

Definition focused_index (row : WorkspaceRow) : option usize :=
  let len := length (wr_sessions row) in
  match wr_last_focused row with
  | Some idx => if idx <? len then Some idx
                else if negb (row_is_empty row) then Some 0 else None
  | None => if negb (row_is_empty row) then Some 0 else None
  end.

Definition set_last_focused (index : option usize) (row : WorkspaceRow) : WorkspaceRow :=
  {| wr_sessions := wr_sessions row; wr_last_focused := index |}.

Definition row_focus (index : usize) (row : WorkspaceRow) : WorkspaceRow * bool :=
  if index <? length (wr_sessions row) then (set_last_focused (Some index) row, true)
  else (row, false).

(** [Vec::insert] *)
Definition vec_insert {A} (index : usize) (x : A) (v : list A) : list A :=
  take index v ++ x :: drop index v.

Definition insert_right_of_focus (tile : WorkspaceSessionTile) (row : WorkspaceRow)
    : WorkspaceRow * usize :=
  let insert_at :=
    match focused_index row with
    | Some idx => (idx + 1) `min` length (wr_sessions row)
    | None => length (wr_sessions row)
    end in
  ({| wr_sessions := vec_insert insert_at tile (wr_sessions row);
      wr_last_focused := Some insert_at |}, insert_at).

Definition move_focus_left (row : WorkspaceRow) : WorkspaceRow * bool :=
  match focused_index row with
  | None => (row, false)
  | Some current =>
      if current =? 0 then (row, false)
      else (set_last_focused (Some (current - 1)) row, true)
  end.

Definition move_focus_right (row : WorkspaceRow) : WorkspaceRow * bool :=
  match focused_index row with
  | None => (row, false)
  | Some current =>
      if length (wr_sessions row) <=? current + 1 then (row, false)
      else (set_last_focused (Some (current + 1)) row, true)
  end.

(** ** The map *)

Record WorkspaceMapModel := {
  wm_rows : gmap Z WorkspaceRow;
  wm_current_workspace : i32;
}.

Definition map_new : WorkspaceMapModel := {| wm_rows := ∅; wm_current_workspace := 0 |}.

(** The rows in the order of the [BTreeMap]. *)
Definition rows_in_order (rows : gmap Z WorkspaceRow) : list (Z * WorkspaceRow) :=
  sort_by (λ a b, (a.1 <=? b.1)%Z) (map_to_list rows).

(** [self.rows.entry(workspace).or_default()]: the row, created when missing. *)
Definition entry_or_default (workspace : i32) (m : WorkspaceMapModel) : WorkspaceMapModel :=
  match wm_rows m !! workspace with
  | Some _ => m
  | None => {| wm_rows := <[workspace := row_default]> (wm_rows m);
               wm_current_workspace := wm_current_workspace m |}
  end.

Definition set_current (workspace : i32) (m : WorkspaceMapModel) : WorkspaceMapModel :=
  {| wm_rows := wm_rows m; wm_current_workspace := workspace |}.

Definition set_current_workspace (workspace : i32) (m : WorkspaceMapModel)
    : WorkspaceMapModel :=
  entry_or_default workspace (set_current workspace m).

Definition row (workspace : i32) (m : WorkspaceMapModel) : option WorkspaceRow :=
  wm_rows m !! workspace.

(** [row_mut]: a change of the row, which is created when missing. *)
Definition row_mut {A} (workspace : i32) (change : WorkspaceRow → WorkspaceRow * A)
    (m : WorkspaceMapModel) : WorkspaceMapModel * A :=
  let '(r, a) := change (default row_default (wm_rows m !! workspace)) in
  ({| wm_rows := <[workspace := r]> (wm_rows m);
      wm_current_workspace := wm_current_workspace m |}, a).

Definition current_row (m : WorkspaceMapModel) : option WorkspaceRow :=
  row (wm_current_workspace m) m.

Definition current_row_mut {A} (change : WorkspaceRow → WorkspaceRow * A)
    (m : WorkspaceMapModel) : WorkspaceMapModel * A :=
  row_mut (wm_current_workspace m) change m.

Definition map_is_empty (m : WorkspaceMapModel) : bool :=
  forallb (λ '(_, r), row_is_empty r) (rows_in_order (wm_rows m)).

Definition add_session_to_current_workspace (tile : WorkspaceSessionTile)
    (m : WorkspaceMapModel) : WorkspaceMapModel * (i32 * usize) :=
  let workspace := wm_current_workspace m in
  let '(m, index) := current_row_mut (insert_right_of_focus tile) m in
  (m, (workspace, index)).

Definition focus_session_in_workspace (workspace : i32) (index : usize)
    (m : WorkspaceMapModel) : WorkspaceMapModel * bool :=
  row_mut workspace (row_focus index) m.

(** [iter().find_map(..)] *)
Fixpoint find_map {A B} (f : A → option B) (l : list A) : option B :=
  match l with
  | [] => None
  | x :: l' => match f x with Some y => Some y | None => find_map f l' end
  end.

Definition locate_session (session_id : string) (m : WorkspaceMapModel)
    : option (i32 * usize) :=
  find_map (λ '(workspace, r),
    (λ index, (workspace, index)) <$>
      position (λ tile, wt_session_id tile =s session_id) (wr_sessions r))
    (rows_in_order (wm_rows m)).

Definition focus_session_by_id (session_id : string) (m : WorkspaceMapModel)
    : WorkspaceMapModel * bool :=
  match locate_session session_id m with
  | None => (m, false)
  | Some (workspace, index) => row_mut workspace (row_focus index) (set_current workspace m)
  end.

Definition focused_session_in_workspace (workspace : i32) (m : WorkspaceMapModel)
    : option string :=
  r ← row workspace m;
  index ← focused_index r;
  wt_session_id <$> wr_sessions r !! index.

Definition current_focused_session_id (m : WorkspaceMapModel) : option string :=
  r ← current_row m;
  index ← focused_index r;
  wt_session_id <$> wr_sessions r !! index.

Definition set_row_sessions (workspace : i32) (sessions : list WorkspaceSessionTile)
    (focused : option usize) (m : WorkspaceMapModel) : WorkspaceMapModel :=
  (row_mut workspace (λ _,
    ({| wr_sessions := sessions;
        wr_last_focused :=
          match focused with
          | Some idx => if idx <? length sessions then Some idx else None
          | None => None
          end |}, ())) m).1.

Definition insert_session_in_workspace (workspace : i32) (tile : WorkspaceSessionTile)
    (m : WorkspaceMapModel) : WorkspaceMapModel * usize :=
  row_mut workspace (insert_right_of_focus tile) (set_current workspace m).

(** [iter.min()] and [iter.max()] of workspace numbers. *)
Definition min_of (l : list Z) : option Z :=
  match l with [] => None | x :: l' => Some (foldl Z.min x l') end.
Definition max_of (l : list Z) : option Z :=
  match l with [] => None | x :: l' => Some (foldl Z.max x l') end.

Definition nearest_populated_workspace_above (m : WorkspaceMapModel) : option i32 :=
  min_of (omap (λ '(workspace, r),
    if (wm_current_workspace m <? workspace)%Z && negb (row_is_empty r)
    then Some workspace else None) (rows_in_order (wm_rows m))).

Definition nearest_populated_workspace_below (m : WorkspaceMapModel) : option i32 :=
  max_of (omap (λ '(workspace, r),
    if (workspace <? wm_current_workspace m)%Z && negb (row_is_empty r)
    then Some workspace else None) (rows_in_order (wm_rows m))).

Definition move_left (m : WorkspaceMapModel) : WorkspaceMapModel * bool :=
  current_row_mut move_focus_left m.

Definition move_right (m : WorkspaceMapModel) : WorkspaceMapModel * bool :=
  current_row_mut move_focus_right m.

Definition move_up (m : WorkspaceMapModel) : WorkspaceMapModel :=
  let current := wrap_s 32 (wm_current_workspace m + 1) in
  entry_or_default current (set_current current m).

Definition move_down (m : WorkspaceMapModel) : WorkspaceMapModel :=
  let current := wrap_s 32 (wm_current_workspace m - 1) in
  entry_or_default current (set_current current m).

Definition populated_workspaces (m : WorkspaceMapModel) : list i32 :=
  omap (λ '(workspace, r), if negb (row_is_empty r) then Some workspace else None)
    (rows_in_order (wm_rows m)).

(** ** The visible rows *)

Record VisibleWorkspaceRow := {
  vr_workspace : i32;
  vr_is_current : bool;
  vr_focused_index : option usize;
  vr_sessions : list WorkspaceSessionTile;
}.

(** The candidates of [visible_rows], from the top. *)
Definition ordered_workspaces (m : WorkspaceMapModel) : list i32 :=
  let ordered := omap (λ '(workspace, r),
    if (workspace =? wm_current_workspace m)%Z || negb (row_is_empty r)
    then Some workspace else None) (rows_in_order (wm_rows m)) in
  let ordered := sort_by (λ a b, (b <=? a)%Z) ordered in
  match ordered with [] => [wm_current_workspace m] | _ => ordered end.

Definition visible_row (m : WorkspaceMapModel) (workspace : i32) : VisibleWorkspaceRow :=
  let r := default row_default (wm_rows m !! workspace) in
  {| vr_workspace := workspace;
     vr_is_current := (workspace =? wm_current_workspace m)%Z;
     vr_focused_index := focused_index r;
     vr_sessions := wr_sessions r |}.

Definition visible_rows (max_rows : usize) (m : WorkspaceMapModel)
    : list VisibleWorkspaceRow :=
  if max_rows =? 0 then []
  else
    let ordered := ordered_workspaces m in
    let current_pos :=
      default 0 (position (λ workspace, workspace =? wm_current_workspace m)%Z ordered) in
    let half := max_rows / 2 in
    let start := current_pos - half in
    let end_ := (start + max_rows) `min` length ordered in
    let start := if end_ - start <? max_rows then end_ - max_rows else start in
    let slice := take (end_ - start) (drop start ordered) in
    visible_row m <$> slice.

(** * Properties of the workspace map *)

(** ** Generic lemmas *)

Lemma find_map_Some {A B} (f : A → option B) l y :
  find_map f l = Some y →
  ∃ l1 x l2, l = l1 ++ x :: l2 ∧ f x = Some y ∧ ∀ z, z ∈ l1 → f z = None.
Proof.
  induction l as [|x l IH]; simpl; [done|]. destruct (f x) as [b|] eqn:E.
  - intros [= ->]. exists [], x, l. split_and!; [done..|set_solver].
  - intros (l1 & x' & l2 & -> & Hx & Hall)%IH. exists (x :: l1), x', l2.
    split_and!; [done..|]. intros z [->|Hz]%elem_of_cons; auto.
Qed.

Lemma find_map_None {A B} (f : A → option B) l :
  find_map f l = None ↔ ∀ x, x ∈ l → f x = None.
Proof.
  induction l as [|x l IH]; simpl; [set_solver|]. destruct (f x) eqn:E.
  - split; [done|]. intros Hall. rewrite Hall in E by left. done.
  - rewrite IH. set_solver.
Qed.

(** ** The order of the rows *)

Lemma elem_of_rows_in_order rows w r : (w, r) ∈ rows_in_order rows ↔ rows !! w = Some r.
Proof. unfold rows_in_order. by rewrite elem_of_sort_by, elem_of_map_to_list. Qed.

Lemma rows_in_order_keys rows : StronglySorted Z.lt (rows_in_order rows).*1.
Proof.
  assert (NoDup (rows_in_order rows).*1) as Hnd.
  { unfold rows_in_order. rewrite sort_by_perm. apply NoDup_fst_map_to_list. }
  assert (StronglySorted (λ a b, (a.1 <=? b.1)%Z = true) (rows_in_order rows)) as Hs.
  { apply sort_by_sorted; intros *; rewrite ?Z.leb_le; lia. }
  revert Hnd. induction Hs as [|[w r] l Hs IH Hall]; [constructor|].
  rewrite fmap_cons. intros [Hw Hnd]%NoDup_cons. constructor; [by apply IH|].
  apply Forall_fmap. rewrite Forall_forall in Hall |- *. intros [w' r'] Hin. cbn.
  pose proof (Hall _ Hin) as Hle. cbn in Hle. rewrite Z.leb_le in Hle.
  assert (w ≠ w'); [|lia]. intros <-. apply Hw, list_elem_of_fmap. by exists (w, r').
Qed.

(** The rows that satisfy [p], as the code collects them. *)
Lemma elem_of_selected rows (p : Z → WorkspaceRow → bool) w :
  w ∈ omap (λ '(workspace, r), if p workspace r then Some workspace else None) (rows_in_order rows)
  ↔ ∃ r, rows !! w = Some r ∧ p w r = true.
Proof.
  rewrite list_elem_of_omap. split.
  - intros ([w' r] & Hin%elem_of_rows_in_order & E). exists r.
    destruct (p w' r) eqn:Ep; by simplify_eq.
  - intros (r & Hr & Hp). exists (w, r). rewrite elem_of_rows_in_order. by rewrite Hp.
Qed.

Lemma NoDup_selected rows (p : Z → WorkspaceRow → bool) :
  NoDup (omap (λ '(workspace, r), if p workspace r then Some workspace else None)
    (rows_in_order rows)).
Proof.
  assert (NoDup (rows_in_order rows).*1) as Hnd.
  { unfold rows_in_order. rewrite sort_by_perm. apply NoDup_fst_map_to_list. }
  revert Hnd. induction (rows_in_order rows) as [|[w r] l IH]; [constructor|].
  rewrite fmap_cons. intros [Hw Hnd]%NoDup_cons. simpl. destruct (p w r); [|by apply IH].
  constructor; [|by apply IH]. rewrite list_elem_of_omap. intros ([w' r'] & Hin & E).
  destruct (p w' r'); simplify_eq. apply Hw, list_elem_of_fmap. by exists (w, r').
Qed.

(** ** Inserting and focusing sessions *)

Lemma focused_index_lt r i : focused_index r = Some i → i < length (wr_sessions r).
Proof.
  unfold focused_index, row_is_empty. destruct (wr_last_focused r) as [j|].
  - destruct (Nat.ltb_spec j (length (wr_sessions r))); [by intros [= <-]|].
    destruct (wr_sessions r); [done|]. intros [= <-]. simpl. lia.
  - destruct (wr_sessions r); [done|]. intros [= <-]. simpl. lia.
Qed.

Lemma focused_index_None r : focused_index r = None ↔ wr_sessions r = [].
Proof.
  unfold focused_index, row_is_empty. destruct (wr_last_focused r) as [j|];
    [destruct (Nat.ltb_spec j (length (wr_sessions r)))|];
    destruct (wr_sessions r); simpl in *; done || lia.
Qed.

Lemma focused_index_Some r i :
  wr_last_focused r = Some i → i < length (wr_sessions r) → focused_index r = Some i.
Proof. unfold focused_index. intros -> Hi. by rewrite (proj2 (Nat.ltb_lt _ _) Hi). Qed.

(** A session is inserted just right of the focus of its row (an empty row
    gets it as its only session), nothing else moves, and it becomes the
    focused session of the current workspace. *)
Theorem insert_session_correct workspace tile m :
  let '(m', index) := insert_session_in_workspace workspace tile m in
  let old := default row_default (row workspace m) in
  (∃ before after,
     wr_sessions old = before ++ after ∧ length before = index
     ∧ row workspace m' =
         Some {| wr_sessions := before ++ tile :: after; wr_last_focused := Some index |}
     ∧ match focused_index old with
       | Some focus => index = focus + 1
       | None => before = [] ∧ after = []
       end)
  ∧ (∀ other, other ≠ workspace → row other m' = row other m)
  ∧ wm_current_workspace m' = workspace
  ∧ current_focused_session_id m' = Some (wt_session_id tile).
Proof.
  unfold insert_session_in_workspace, row_mut. cbn [set_current wm_rows].
  fold (row workspace m). set (old := default row_default (row workspace m)).
  unfold insert_right_of_focus.
  set (index := match focused_index old with Some _ => _ | None => _ end).
  assert (index ≤ length (wr_sessions old)
    ∧ match focused_index old with Some focus => index = focus + 1 | None => index = 0 end)
    as [Hle Hindex].
  { subst index. destruct (focused_index old) as [i|] eqn:E.
    - apply focused_index_lt in E. lia.
    - apply focused_index_None in E. by rewrite E. }
  cbn [fst snd]. split_and!.
  - exists (take index (wr_sessions old)), (drop index (wr_sessions old)). split_and!.
    + by rewrite take_drop.
    + rewrite length_take. lia.
    + unfold row. cbn [wm_rows]. by rewrite lookup_insert_eq.
    + destruct (focused_index old) eqn:E; [done|].
      apply focused_index_None in E. by rewrite E, take_nil, drop_nil.
  - intros other Hne. unfold row. cbn [wm_rows]. by rewrite lookup_insert_ne by done.
  - done.
  - unfold current_focused_session_id, current_row, row. cbn [wm_rows wm_current_workspace set_current].
    rewrite lookup_insert_eq. cbn [mbind option_bind].
    assert (index < length (vec_insert index tile (wr_sessions old))) as Hlt.
    { unfold vec_insert. rewrite length_app, length_take. simpl. lia. }
    rewrite (focused_index_Some _ index) by done. cbn [mbind option_bind wr_sessions].
    unfold vec_insert. rewrite lookup_app_r; rewrite length_take; [|lia].
    by replace (index - index `min` length (wr_sessions old)) with 0 by lia.
Qed.

(** Whether a row holds a session. *)
Definition holds_session (session_id : string) (r : WorkspaceRow) : Prop :=
  ∃ tile, tile ∈ wr_sessions r ∧ wt_session_id tile = session_id.

Lemma position_session session_id r :
  position (λ tile, wt_session_id tile =s session_id) (wr_sessions r) = None
  ↔ ¬ holds_session session_id r.
Proof.
  rewrite position_None. unfold holds_session. setoid_rewrite eqb_false. naive_solver.
Qed.

Lemma locate_session_Some session_id m w i :
  locate_session session_id m = Some (w, i) →
  ∃ r tile, row w m = Some r ∧ wr_sessions r !! i = Some tile ∧ wt_session_id tile = session_id
    ∧ ∀ w' r', row w' m = Some r' → holds_session session_id r' → (w ≤ w')%Z.
Proof.
  unfold locate_session. intros (l1 & [w' r] & l2 & E & Hf & Hbefore)%find_map_Some.
  apply fmap_Some in Hf as (j & Hj & [= <- <-]).
  assert (row w m = Some r) as Hr.
  { apply elem_of_rows_in_order. rewrite E. set_solver. }
  apply position_lookup in Hj as (tile & Htile & Hid%eqb_true).
  exists r, tile. split_and!; [done..|]. intros w' r' Hr' Hholds.
  pose proof (rows_in_order_keys (wm_rows m)) as Hs. rewrite E, fmap_app, fmap_cons in Hs.
  apply elem_of_rows_in_order in Hr'. rewrite E in Hr'.
  apply elem_of_app in Hr' as [Hin|[[= <- <-]|Hin]%elem_of_cons].
  - pose proof (Hbefore _ Hin) as Hnone. cbn in Hnone. apply fmap_None in Hnone.
    by apply position_session in Hnone.
  - done.
  - apply StronglySorted_app_1_r in Hs. apply StronglySorted_inv in Hs as [_ Hall].
    rewrite Forall_forall in Hall. apply Z.lt_le_incl, Hall.
    apply list_elem_of_fmap. by exists (w', r').
Qed.

Lemma locate_session_None session_id m :
  locate_session session_id m = None ↔
  ∀ w r, row w m = Some r → ¬ holds_session session_id r.
Proof.
  unfold locate_session. rewrite find_map_None. unfold row. split.
  - intros Hall w r Hr%elem_of_rows_in_order. specialize (Hall _ Hr). cbn in Hall.
    by apply fmap_None, position_session in Hall.
  - intros Hall [w r] Hr%elem_of_rows_in_order. apply fmap_None, position_session. eauto.
Qed.

(** [focus_session_by_id] succeeds exactly when some row holds the
    session; then that session is the focused one of the current workspace,
    which is the lowest that holds it, and no row has lost or moved a session.
    When it fails nothing changes. *)
Theorem focus_session_by_id_correct session_id m :
  let '(m', found) := focus_session_by_id session_id m in
  (found = true ↔ ∃ w r, row w m = Some r ∧ holds_session session_id r)
  ∧ (found = false → m' = m)
  ∧ (found = true →
     current_focused_session_id m' = Some session_id
     ∧ (∀ w, wr_sessions <$> row w m' = wr_sessions <$> row w m)
     ∧ ∀ w r, row w m = Some r → holds_session session_id r →
         (wm_current_workspace m' ≤ w)%Z).
Proof.
  unfold focus_session_by_id. destruct (locate_session session_id m) as [[w i]|] eqn:E.
  - apply locate_session_Some in E as (r & tile & Hr & Htile & Hid & Hmin).
    assert (i < length (wr_sessions r)) as Hi by by eapply lookup_lt_Some.
    unfold row_mut. cbn [set_current wm_rows wm_current_workspace].
    fold (row w m). rewrite Hr. cbn [from_option id]. unfold row_focus.
    rewrite (proj2 (Nat.ltb_lt _ _) Hi). split_and!; [|done|intros _; split_and!].
    + split; [|done]. intros _. exists w, r. split; [done|]. exists tile. split; [|done].
      by eapply list_elem_of_lookup_2.
    + unfold current_focused_session_id, current_row, row. cbn [wm_rows wm_current_workspace].
      rewrite lookup_insert_eq. cbn [mbind option_bind].
      rewrite (focused_index_Some _ i) by done. cbn. rewrite Htile. cbn. by rewrite Hid.
    + intros w'. unfold row. cbn [wm_rows]. rewrite lookup_insert. case_decide; [subst|done].
      unfold row in Hr. by rewrite Hr.
    + done.
  - rewrite locate_session_None in E. split_and!; [|done|done].
    split; [done|]. intros (w & r & Hr & Hh). by destruct (E w r Hr).
Qed.

(** ** The visible rows *)

Lemma ordered_workspaces_spec m :
  StronglySorted Z.gt (ordered_workspaces m)
  ∧ (is_Some (row (wm_current_workspace m) m) →
     ∀ w, w ∈ ordered_workspaces m
       ↔ is_Some (row w m) ∧ (w = wm_current_workspace m ∨ row_is_empty <$> row w m = Some false)).
Proof.
  unfold ordered_workspaces.
  set (p := λ w r, ((w =? wm_current_workspace m)%Z || negb (row_is_empty r))).
  set (l := omap _ _).
  assert (NoDup l) as Hnd by apply (NoDup_selected (wm_rows m) p).
  assert (∀ w, w ∈ l ↔ ∃ r, row w m = Some r ∧ p w r = true) as Hin
    by apply (elem_of_selected (wm_rows m) p).
  assert (StronglySorted Z.gt (sort_by (λ a b, (b <=? a)%Z) l)) as Hs.
  { apply (NoDup_sort_by (λ a b, (b <=? a)%Z)) in Hnd.
    assert (StronglySorted (λ a b, (b <=? a)%Z = true) (sort_by (λ a b, (b <=? a)%Z) l)) as Hs.
    { apply sort_by_sorted; intros *; rewrite ?Z.leb_le; lia. }
    revert Hnd. induction Hs as [|w l' Hs IH Hall]; [constructor|].
    intros [Hw Hnd]%NoDup_cons. constructor; [by apply IH|].
    rewrite Forall_forall in Hall |- *. intros w' Hw'. pose proof (Hall w' Hw') as Hle.
    rewrite Z.leb_le in Hle. assert (w ≠ w') by congruence. lia. }
  assert (∀ w, w ∈ sort_by (λ a b, (b <=? a)%Z) l ↔ w ∈ l) as Hsort
    by (intros w; apply elem_of_sort_by).
  destruct (sort_by _ l) as [|w0 l0] eqn:E.
  - split; [repeat constructor|]. intros [r Hr]. exfalso.
    apply (not_elem_of_nil (wm_current_workspace m)), Hsort, Hin. exists r. split; [done|].
    subst p. cbn. by rewrite Z.eqb_refl.
  - split; [done|]. intros _ w. rewrite Hsort, Hin. subst p. cbn beta.
    setoid_rewrite orb_true_iff. setoid_rewrite Z.eqb_eq. setoid_rewrite negb_true_iff.
    split.
    + intros (r & Hr & [->|Hp]); rewrite Hr; (split; [by eexists|]); [by left|right]. cbn. by rewrite Hp.
    + intros [[r Hr] [->|Hp]]; exists r; (split; [done|]); [by left|right].
      rewrite Hr in Hp. cbn in Hp. congruence.
Qed.

(** With a row for the current workspace, the visible rows are a window
    of at most [max_rows] of the rows that are current or not empty, from the
    top down; the window is full when there are enough of them, it contains the
    current row, and each row is shown with its sessions and its focus. *)
Theorem visible_rows_correct max_rows m :
  is_Some (row (wm_current_workspace m) m) → 0 < max_rows →
  let shown := visible_rows max_rows m in
  (∃ above below, ordered_workspaces m = above ++ (vr_workspace <$> shown) ++ below)
  ∧ StronglySorted Z.gt (ordered_workspaces m)
  ∧ length shown = max_rows `min` length (ordered_workspaces m)
  ∧ wm_current_workspace m ∈ vr_workspace <$> shown
  ∧ ∀ r, r ∈ shown → ∃ old, row (vr_workspace r) m = Some old
      ∧ vr_sessions r = wr_sessions old ∧ vr_focused_index r = focused_index old
      ∧ vr_is_current r = bool_decide (vr_workspace r = wm_current_workspace m).
Proof.
  intros Hcur Hmax. cbn zeta. destruct (ordered_workspaces_spec m) as [Hs Hin].
  specialize (Hin Hcur). unfold visible_rows.
  rewrite (proj2 (Nat.eqb_neq max_rows 0)) by lia.
  assert (wm_current_workspace m ∈ ordered_workspaces m) as Hc by (apply Hin; auto).
  destruct (position_exists (λ w, (w =? wm_current_workspace m)%Z) _ _ Hc (Z.eqb_refl _))
    as [pos Hpos].
  pose proof (position_lookup _ _ _ Hpos) as (c & Hlookup & ->%Z.eqb_eq).
  rewrite Hpos. cbn [from_option id]. clear Hpos.
  assert (∀ w, w ∈ ordered_workspaces m → is_Some (row w m)) as Hrow by (intros w Hw; by apply Hin).
  revert Hs Hlookup Hrow. generalize (ordered_workspaces m). clear Hin Hc. intros l Hs Hlookup Hrow.
  assert (pos < length l) as Hlt by by eapply lookup_lt_Some.
  pose proof (Nat.div_lt max_rows 2 Hmax ltac:(lia)) as Hhalf.
  set (start := pos - max_rows / 2). set (end_ := (start + max_rows) `min` length l).
  set (start' := if end_ - start <? max_rows then end_ - max_rows else start).
  assert (start' ≤ pos < end_ ∧ end_ ≤ length l ∧ end_ - start' = max_rows `min` length l)
    as (Hwin & Hend & Hsize).
  { subst start' end_ start. destruct (Nat.ltb_spec
      ((pos - max_rows / 2 + max_rows) `min` length l - (pos - max_rows / 2)) max_rows); lia. }
  assert (vr_workspace <$> (visible_row m <$> take (end_ - start') (drop start' l))
    = take (end_ - start') (drop start' l)) as Hmap.
  { rewrite <- list_fmap_compose. apply list_fmap_id. }
  split_and!.
  - rewrite Hmap. exists (take start' l), (drop (end_ - start') (drop start' l)).
    by rewrite take_drop, take_drop.
  - done.
  - rewrite length_fmap, length_take, length_drop. lia.
  - rewrite Hmap. apply (list_elem_of_lookup_2 _ (pos - start')).
    rewrite lookup_take_lt by lia. rewrite lookup_drop. by replace (start' + (pos - start')) with pos by lia.
  - intros r (w & -> & Hw)%list_elem_of_fmap.
    assert (w ∈ l) as Hwl.
    { eapply elem_of_sublist; [done|]. etrans; [apply sublist_take|apply sublist_drop]. }
    destruct (Hrow w Hwl) as [old Hold]. exists old. unfold visible_row. unfold row in Hold.
    cbn [vr_workspace vr_sessions vr_focused_index vr_is_current]. rewrite Hold.
    split_and!; [done..|]. destruct (Z.eqb_spec w (wm_current_workspace m)); symmetry.
    + by apply bool_decide_eq_true_2.
    + by apply bool_decide_eq_false_2.
Qed.

(** ** Navigation *)

Lemma wrap_s_opposite z : in_i32 z →
  wrap_s 32 (wrap_s 32 (z + 1) - 1) = z ∧ wrap_s 32 (wrap_s 32 (z - 1) + 1) = z.
Proof.
  unfold in_i32, wrap_s. change (2 ^ (32 - 1))%Z with 2147483648%Z.
  change (2 ^ 31)%Z with 2147483648%Z. change (2 ^ 32)%Z with 4294967296%Z. intros Hz.
  split.
  - destruct (decide (z = 2147483647%Z)) as [->|]; [done|].
    rewrite (Z.mod_small (z + 1 + _)) by lia. rewrite Z.mod_small; lia.
  - destruct (decide (z = -2147483648)%Z) as [->|]; [done|].
    rewrite (Z.mod_small (z - 1 + _)) by lia. rewrite Z.mod_small; lia.
Qed.

Lemma entry_or_default_row w m w' :
  row w' (entry_or_default w m)
  = if decide (w = w') then Some (default row_default (row w m)) else row w' m.
Proof.
  unfold entry_or_default, row. destruct (wm_rows m !! w) as [r|] eqn:E; cbn [wm_rows].
  - case_decide; [subst; by rewrite E|done].
  - rewrite lookup_insert. by case_decide.
Qed.

Lemma entry_or_default_current w m :
  wm_current_workspace (entry_or_default w m) = wm_current_workspace m.
Proof. unfold entry_or_default. by destruct (wm_rows m !! w). Qed.

Lemma focused_session_default m m' :
  wm_current_workspace m' = wm_current_workspace m →
  default row_default (current_row m') = default row_default (current_row m) →
  current_focused_session_id m' = current_focused_session_id m.
Proof.
  unfold current_focused_session_id. intros _ E.
  destruct (current_row m') as [r'|], (current_row m) as [r|]; simpl in E |- *; by subst.
Qed.

Lemma current_row_set w r m :
  wm_current_workspace m = w →
  current_row {| wm_rows := <[w := r]> (wm_rows m); wm_current_workspace := wm_current_workspace m |}
  = Some r.
Proof. intros <-. unfold current_row, row. cbn. by rewrite lookup_insert_eq. Qed.

(** A horizontal move that succeeds, in terms of the row. *)
Lemma row_move_right r r' :
  move_focus_right r = (r', true) →
  ∃ i, focused_index r = Some i ∧ wr_sessions r' = wr_sessions r
    ∧ focused_index r' = Some (S i)
    ∧ move_focus_left r' = (set_last_focused (Some i) r', true).
Proof.
  unfold move_focus_right. destruct (focused_index r) as [i|] eqn:E; [|done].
  destruct (Nat.leb_spec (length (wr_sessions r)) (i + 1)); [done|]. intros [= <-].
  assert (focused_index (set_last_focused (Some (i + 1)) r) = Some (S i)) as Hf.
  { rewrite Nat.add_1_r. apply focused_index_Some; [done|]. cbn. lia. }
  exists i. split_and!; [done..|]. unfold move_focus_left. rewrite Hf. cbn.
  by rewrite Nat.sub_0_r.
Qed.

Lemma row_move_left r r' :
  move_focus_left r = (r', true) →
  ∃ i, focused_index r = Some (S i) ∧ wr_sessions r' = wr_sessions r
    ∧ focused_index r' = Some i
    ∧ move_focus_right r' = (set_last_focused (Some (S i)) r', true).
Proof.
  unfold move_focus_left. destruct (focused_index r) as [[|i]|] eqn:E; [done| |done].
  cbn [Nat.eqb Nat.sub]. rewrite Nat.sub_0_r. intros [= <-].
  pose proof (focused_index_lt _ _ E) as Hlt.
  assert (focused_index (set_last_focused (Some i) r) = Some i) as Hf.
  { apply focused_index_Some; [done|]. cbn. lia. }
  exists i. split_and!; [done..|]. unfold move_focus_right. rewrite Hf. cbn [wr_sessions set_last_focused].
  destruct (Nat.leb_spec (length (wr_sessions r)) (i + 1)); [lia|]. by rewrite Nat.add_1_r.
Qed.

(** The session in focus, from the row of the current workspace. *)
Lemma focused_session_row m r i :
  current_row m = Some r → wr_last_focused r = Some i → i < length (wr_sessions r) →
  current_focused_session_id m = wt_session_id <$> wr_sessions r !! i.
Proof.
  intros Hr Ef Hi. unfold current_focused_session_id. rewrite Hr. cbn.
  by rewrite (focused_index_Some r i).
Qed.

Lemma focused_session_default_row m i :
  focused_index (default row_default (current_row m)) = Some i →
  current_focused_session_id m
  = wt_session_id <$> wr_sessions (default row_default (current_row m)) !! i.
Proof.
  intros Ef. unfold current_focused_session_id.
  destruct (current_row m); cbn in *; [by rewrite Ef|done].
Qed.

(** A move within the row of the current workspace, and the one that takes it
    back: [i] is in focus before and after. *)
Lemma row_moves_back m r' r'' i :
  focused_index (default row_default (current_row m)) = Some i →
  wr_sessions r' = wr_sessions (default row_default (current_row m)) →
  r'' = set_last_focused (Some i) r' →
  let m'' := {| wm_rows := <[wm_current_workspace m := r'']> (<[wm_current_workspace m := r']> (wm_rows m));
                wm_current_workspace := wm_current_workspace m |} in
  current_focused_session_id m'' = current_focused_session_id m.
Proof.
  intros Ei Es ->. cbv zeta. rewrite (focused_session_default_row _ _ Ei), <- Es.
  apply (focused_session_row _ (set_last_focused (Some i) r')); [|done|].
  - unfold current_row, row. cbn [wm_rows wm_current_workspace]. by rewrite lookup_insert_eq.
  - cbn. rewrite Es. by eapply focused_index_lt.
Qed.

(** Passing through another workspace and back. *)
Lemma workspace_moves_back m w1 w2 :
  w2 = wm_current_workspace m →
  let m2 := entry_or_default w2 (set_current w2 (entry_or_default w1 (set_current w1 m))) in
  wm_current_workspace m2 = wm_current_workspace m
  ∧ current_focused_session_id m2 = current_focused_session_id m.
Proof.
  intros E2. cbn zeta. split; [by rewrite entry_or_default_current|].
  apply focused_session_default; [by rewrite entry_or_default_current|].
  unfold current_row. rewrite entry_or_default_current. cbn [set_current wm_current_workspace].
  rewrite entry_or_default_row, decide_True by done. cbn [from_option id].
  change (row w2 (set_current w2 ?x)) with (row w2 x). rewrite entry_or_default_row.
  change (row ?a (set_current w1 m)) with (row a m). rewrite <- E2. case_decide; [by subst|done].
Qed.

(** Moves undo each other: after a successful move to the right a move to
    the left succeeds and gives back the focused session, the other way round
    too, and moving up and down again (on 32-bit workspace numbers, wrapping
    around at the ends) comes back to the same workspace and session. *)
Theorem navigation_roundtrip m :
  (∀ m', move_right m = (m', true) → ∃ m'', move_left m' = (m'', true)
     ∧ wm_current_workspace m'' = wm_current_workspace m
     ∧ current_focused_session_id m'' = current_focused_session_id m)
  ∧ (∀ m', move_left m = (m', true) → ∃ m'', move_right m' = (m'', true)
     ∧ wm_current_workspace m'' = wm_current_workspace m
     ∧ current_focused_session_id m'' = current_focused_session_id m)
  ∧ (in_i32 (wm_current_workspace m) →
     wm_current_workspace (move_down (move_up m)) = wm_current_workspace m
     ∧ wm_current_workspace (move_up (move_down m)) = wm_current_workspace m
     ∧ current_focused_session_id (move_down (move_up m)) = current_focused_session_id m
     ∧ current_focused_session_id (move_up (move_down m)) = current_focused_session_id m).
Proof.
  split_and!.
  - intros m'. unfold move_right, current_row_mut, row_mut.
    fold (row (wm_current_workspace m) m) (current_row m).
    destruct (move_focus_right _) as [r' b] eqn:E. intros [= <- ->].
    apply row_move_right in E as (i & Ei & Es & Ef & El).
    eexists. unfold move_left, current_row_mut, row_mut. cbn [wm_rows wm_current_workspace].
    rewrite lookup_insert_eq. cbn [from_option id]. rewrite El. split_and!; [done|done|].
    by apply (row_moves_back m r' _ i).
  - intros m'. unfold move_left, current_row_mut, row_mut.
    fold (row (wm_current_workspace m) m) (current_row m).
    destruct (move_focus_left _) as [r' b] eqn:E. intros [= <- ->].
    apply row_move_left in E as (i & Ei & Es & Ef & El).
    eexists. unfold move_right, current_row_mut, row_mut. cbn [wm_rows wm_current_workspace].
    rewrite lookup_insert_eq. cbn [from_option id]. rewrite El. split_and!; [done|done|].
    by apply (row_moves_back m r' _ (S i)).
  - intros [Hud Hdu]%wrap_s_opposite.
    unfold move_up, move_down. rewrite !entry_or_default_current. cbn [set_current wm_current_workspace].
    destruct (workspace_moves_back m (wrap_s 32 (wm_current_workspace m + 1)) _ Hud).
    destruct (workspace_moves_back m (wrap_s 32 (wm_current_workspace m - 1)) _ Hdu). done.
Qed.

(** ** A concrete map *)

Definition sample_map : WorkspaceMapModel :=
  let m := (insert_session_in_workspace 1 (tile_new "fox") map_new).1 in
  let m := (insert_session_in_workspace 1 (tile_new "bear") m).1 in
  let m := (insert_session_in_workspace (-2) (tile_new "owl") m).1 in
  (move_left (move_up (move_up (move_up m)))).1.

Example sample_map_focus :
  current_focused_session_id sample_map = Some "fox"
  ∧ populated_workspaces sample_map = [-2; 1]%Z
  ∧ nearest_populated_workspace_below sample_map = Some (-2)%Z.
Proof. vm_compute. done. Qed.

Lemma visible_rows_witness :
  ∃ above below,
    ordered_workspaces sample_map = above ++ (vr_workspace <$> visible_rows 1 sample_map) ++ below.
Proof.
  apply (visible_rows_correct 1 sample_map); [|lia]. vm_compute. by eexists.
Defined.

(** A current workspace without a row is not shown while other rows are. *)
Example visible_rows_without_current :
  let m := set_row_sessions 5 [tile_new "fox"] None map_new in
  wm_current_workspace m = 0%Z ∧ vr_workspace <$> visible_rows 3 m = [5%Z].
Proof. vm_compute. done. Qed.
