(* ===== verification/MobileSimulator.v ===== *)
(** * The mobile simulator ([crates/gcode-mobile-core/src/lib.rs])

    The headless state machine behind the mobile app: the application state
    and its scenarios, the actions, [reduce], the simulated backend that
    answers the effects, the store that dispatches actions until no follow-up
    is pending, and the traces that record and replay a run.

    The counters of the store are [u64]; [env!("CARGO_PKG_VERSION")] is the
    parameter [package_version], and the pretty-printer of the JSON library,
    used only in the text of an error, is the parameter [to_string_pretty]. *)

From S2P Require Import Prelude Utf8.
Open Scope nat_scope.

(** ** Data *)

Inductive Screen := Onboarding | Pairing | Chat.
Inductive ConnectionState := Disconnected | Connecting | Connected.
Inductive MessageRole := RoleUser | RoleAssistant | RoleSystem.

#[export] Instance Screen_eq_dec : EqDecision Screen.
Proof. solve_decision. Defined.
#[export] Instance ConnectionState_eq_dec : EqDecision ConnectionState.
Proof. solve_decision. Defined.
#[export] Instance MessageRole_eq_dec : EqDecision MessageRole.
Proof. solve_decision. Defined.

Record ChatMessage := {
  cm_id : string;
  cm_role : MessageRole;
  cm_text : string;
}.

Record ServerSummary := {
  ss_host : string;
  ss_port : string;
  ss_server_name : string;
  ss_server_version : string;
}.

Record PairingForm := {
  pf_host : string;
  pf_port : string;
  pf_pair_code : string;
  pf_device_name : string;
}.

Definition pairing_default : PairingForm := {|
  pf_host := "";
  pf_port := "7643";
  pf_pair_code := "";
  pf_device_name := "gcode simulator";
|}.

#[export] Instance ChatMessage_eq_dec : EqDecision ChatMessage.
Proof. solve_decision. Defined.
#[export] Instance ServerSummary_eq_dec : EqDecision ServerSummary.
Proof. solve_decision. Defined.
#[export] Instance PairingForm_eq_dec : EqDecision PairingForm.
Proof. solve_decision. Defined.

Record SimulatorState := {
  screen : Screen;
  connection_state : ConnectionState;
  pairing : PairingForm;
  saved_servers : list ServerSummary;
  selected_server : option ServerSummary;
  status_message : option string;
  error_message : option string;
  messages : list ChatMessage;
  draft_message : string;
  active_session_id : option string;
  sessions : list string;
  available_models : list string;
  model_name : option string;
  is_processing : bool;
}.

#[export] Instance SimulatorState_eq_dec : EqDecision SimulatorState.
Proof. solve_decision. Defined.

(** Assignments to the fields of a [SimulatorState]. *)

Definition set_screen (v : Screen) (s : SimulatorState) : SimulatorState :=
  {| screen := v; connection_state := connection_state s; pairing := pairing s;
     saved_servers := saved_servers s; selected_server := selected_server s;
     status_message := status_message s; error_message := error_message s;
     messages := messages s; draft_message := draft_message s;
     active_session_id := active_session_id s; sessions := sessions s;
     available_models := available_models s; model_name := model_name s;
     is_processing := is_processing s |}.

Definition set_connection_state (v : ConnectionState) (s : SimulatorState) : SimulatorState :=
  {| screen := screen s; connection_state := v; pairing := pairing s;
     saved_servers := saved_servers s; selected_server := selected_server s;
     status_message := status_message s; error_message := error_message s;
     messages := messages s; draft_message := draft_message s;
     active_session_id := active_session_id s; sessions := sessions s;
     available_models := available_models s; model_name := model_name s;
     is_processing := is_processing s |}.

Definition set_pairing (v : PairingForm) (s : SimulatorState) : SimulatorState :=
  {| screen := screen s; connection_state := connection_state s; pairing := v;
     saved_servers := saved_servers s; selected_server := selected_server s;
     status_message := status_message s; error_message := error_message s;
     messages := messages s; draft_message := draft_message s;
     active_session_id := active_session_id s; sessions := sessions s;
     available_models := available_models s; model_name := model_name s;
     is_processing := is_processing s |}.

Definition set_saved_servers (v : list ServerSummary) (s : SimulatorState) : SimulatorState :=
  {| screen := screen s; connection_state := connection_state s; pairing := pairing s;
     saved_servers := v; selected_server := selected_server s;
     status_message := status_message s; error_message := error_message s;
     messages := messages s; draft_message := draft_message s;
     active_session_id := active_session_id s; sessions := sessions s;
     available_models := available_models s; model_name := model_name s;
     is_processing := is_processing s |}.

Definition set_selected_server (v : option ServerSummary) (s : SimulatorState) : SimulatorState :=
  {| screen := screen s; connection_state := connection_state s; pairing := pairing s;
     saved_servers := saved_servers s; selected_server := v; status_message := status_message s;
     error_message := error_message s; messages := messages s; draft_message := draft_message s;
     active_session_id := active_session_id s; sessions := sessions s;
     available_models := available_models s; model_name := model_name s;
     is_processing := is_processing s |}.

Definition set_status_message (v : option string) (s : SimulatorState) : SimulatorState :=
  {| screen := screen s; connection_state := connection_state s; pairing := pairing s;
     saved_servers := saved_servers s; selected_server := selected_server s; status_message := v;
     error_message := error_message s; messages := messages s; draft_message := draft_message s;
     active_session_id := active_session_id s; sessions := sessions s;
     available_models := available_models s; model_name := model_name s;
     is_processing := is_processing s |}.

Definition set_error_message (v : option string) (s : SimulatorState) : SimulatorState :=
  {| screen := screen s; connection_state := connection_state s; pairing := pairing s;
     saved_servers := saved_servers s; selected_server := selected_server s;
     status_message := status_message s; error_message := v; messages := messages s;
     draft_message := draft_message s; active_session_id := active_session_id s;
     sessions := sessions s; available_models := available_models s; model_name := model_name s;
     is_processing := is_processing s |}.

Definition set_messages (v : list ChatMessage) (s : SimulatorState) : SimulatorState :=
  {| screen := screen s; connection_state := connection_state s; pairing := pairing s;
     saved_servers := saved_servers s; selected_server := selected_server s;
     status_message := status_message s; error_message := error_message s; messages := v;
     draft_message := draft_message s; active_session_id := active_session_id s;
     sessions := sessions s; available_models := available_models s; model_name := model_name s;
     is_processing := is_processing s |}.

Definition set_draft_message (v : string) (s : SimulatorState) : SimulatorState :=
  {| screen := screen s; connection_state := connection_state s; pairing := pairing s;
     saved_servers := saved_servers s; selected_server := selected_server s;
     status_message := status_message s; error_message := error_message s;
     messages := messages s; draft_message := v; active_session_id := active_session_id s;
     sessions := sessions s; available_models := available_models s; model_name := model_name s;
     is_processing := is_processing s |}.

Definition set_active_session_id (v : option string) (s : SimulatorState) : SimulatorState :=
  {| screen := screen s; connection_state := connection_state s; pairing := pairing s;
     saved_servers := saved_servers s; selected_server := selected_server s;
     status_message := status_message s; error_message := error_message s;
     messages := messages s; draft_message := draft_message s; active_session_id := v;
     sessions := sessions s; available_models := available_models s; model_name := model_name s;
     is_processing := is_processing s |}.

Definition set_sessions (v : list string) (s : SimulatorState) : SimulatorState :=
  {| screen := screen s; connection_state := connection_state s; pairing := pairing s;
     saved_servers := saved_servers s; selected_server := selected_server s;
     status_message := status_message s; error_message := error_message s;
     messages := messages s; draft_message := draft_message s;
     active_session_id := active_session_id s; sessions := v;
     available_models := available_models s; model_name := model_name s;
     is_processing := is_processing s |}.

Definition set_available_models (v : list string) (s : SimulatorState) : SimulatorState :=
  {| screen := screen s; connection_state := connection_state s; pairing := pairing s;
     saved_servers := saved_servers s; selected_server := selected_server s;
     status_message := status_message s; error_message := error_message s;
     messages := messages s; draft_message := draft_message s;
     active_session_id := active_session_id s; sessions := sessions s; available_models := v;
     model_name := model_name s; is_processing := is_processing s |}.

Definition set_model_name (v : option string) (s : SimulatorState) : SimulatorState :=
  {| screen := screen s; connection_state := connection_state s; pairing := pairing s;
     saved_servers := saved_servers s; selected_server := selected_server s;
     status_message := status_message s; error_message := error_message s;
     messages := messages s; draft_message := draft_message s;
     active_session_id := active_session_id s; sessions := sessions s;
     available_models := available_models s; model_name := v; is_processing := is_processing s |}.

Definition set_is_processing (v : bool) (s : SimulatorState) : SimulatorState :=
  {| screen := screen s; connection_state := connection_state s; pairing := pairing s;
     saved_servers := saved_servers s; selected_server := selected_server s;
     status_message := status_message s; error_message := error_message s;
     messages := messages s; draft_message := draft_message s;
     active_session_id := active_session_id s; sessions := sessions s;
     available_models := available_models s; model_name := model_name s; is_processing := v |}.

(** Assignments to the fields of the pairing form. *)

Definition set_host (v : string) (s : SimulatorState) : SimulatorState :=
  set_pairing {| pf_host := v; pf_port := pf_port (pairing s);
                 pf_pair_code := pf_pair_code (pairing s); pf_device_name := pf_device_name (pairing s) |} s.

Definition set_port (v : string) (s : SimulatorState) : SimulatorState :=
  set_pairing {| pf_host := pf_host (pairing s); pf_port := v;
                 pf_pair_code := pf_pair_code (pairing s); pf_device_name := pf_device_name (pairing s) |} s.

Definition set_pair_code (v : string) (s : SimulatorState) : SimulatorState :=
  set_pairing {| pf_host := pf_host (pairing s); pf_port := pf_port (pairing s);
                 pf_pair_code := v; pf_device_name := pf_device_name (pairing s) |} s.

Definition set_device_name (v : string) (s : SimulatorState) : SimulatorState :=
  set_pairing {| pf_host := pf_host (pairing s); pf_port := pf_port (pairing s);
                 pf_pair_code := pf_pair_code (pairing s); pf_device_name := v |} s.

(** ** Scenarios *)

Inductive ScenarioName :=
| ScnOnboarding | ScnPairingReady | ScnConnectedChat | ScnPairingInvalidCode
| ScnServerUnreachable | ScnConnectedEmptyChat | ScnChatStreaming | ScnToolApprovalRequired
| ScnToolFailed | ScnNetworkReconnect | ScnOfflineQueuedMessage | ScnLongRunningTask.

#[export] Instance ScenarioName_eq_dec : EqDecision ScenarioName.
Proof. solve_decision. Defined.

Definition ALL_SCENARIOS : list ScenarioName :=
  [ScnOnboarding; ScnPairingReady; ScnConnectedChat; ScnPairingInvalidCode;
   ScnServerUnreachable; ScnConnectedEmptyChat; ScnChatStreaming; ScnToolApprovalRequired;
   ScnToolFailed; ScnNetworkReconnect; ScnOfflineQueuedMessage; ScnLongRunningTask].

Definition scenario_parse (value : string) : option ScenarioName :=
  if value =s "onboarding" then Some ScnOnboarding
  else if value =s "pairing_ready" then Some ScnPairingReady
  else if value =s "connected_chat" then Some ScnConnectedChat
  else if value =s "pairing_invalid_code" then Some ScnPairingInvalidCode
  else if value =s "server_unreachable" then Some ScnServerUnreachable
  else if value =s "connected_empty_chat" then Some ScnConnectedEmptyChat
  else if value =s "chat_streaming" then Some ScnChatStreaming
  else if value =s "tool_approval_required" then Some ScnToolApprovalRequired
  else if value =s "tool_failed" then Some ScnToolFailed
  else if value =s "network_reconnect" then Some ScnNetworkReconnect
  else if value =s "offline_queued_message" then Some ScnOfflineQueuedMessage
  else if value =s "long_running_task" then Some ScnLongRunningTask
  else None.

Definition scenario_as_str (scenario : ScenarioName) : string :=
  match scenario with
  | ScnOnboarding => "onboarding"
  | ScnPairingReady => "pairing_ready"
  | ScnConnectedChat => "connected_chat"
  | ScnPairingInvalidCode => "pairing_invalid_code"
  | ScnServerUnreachable => "server_unreachable"
  | ScnConnectedEmptyChat => "connected_empty_chat"
  | ScnChatStreaming => "chat_streaming"
  | ScnToolApprovalRequired => "tool_approval_required"
  | ScnToolFailed => "tool_failed"
  | ScnNetworkReconnect => "network_reconnect"
  | ScnOfflineQueuedMessage => "offline_queued_message"
  | ScnLongRunningTask => "long_running_task"
  end.

(** ** Actions, effects and their records *)

Inductive SimulatorAction :=
| ActReset
| LoadScenario (scenario : ScenarioName)
| SetHost (value : string)
| SetPort (value : string)
| SetPairCode (value : string)
| SetDeviceName (value : string)
| SetDraft (value : string)
| TapNode (node_id : string)
| PairingSucceeded (server_name server_version : string)
| PairingFailed (message : string)
| ActConnected (session_id : string)
| ConnectionFailed (message : string)
| AppendAssistantText (text : string)
| FinishTurn.

Inductive SimulatorEffect :=
| PairAndConnect (host port pair_code device_name : string)
| SendMessage (text : string).

#[export] Instance SimulatorAction_eq_dec : EqDecision SimulatorAction.
Proof. solve_decision. Defined.
#[export] Instance SimulatorEffect_eq_dec : EqDecision SimulatorEffect.
Proof. solve_decision. Defined.

Record TransitionRecord := {
  tr_seq : Z;
  tr_timestamp_ms : Z;
  tr_action : SimulatorAction;
  tr_before : SimulatorState;
  tr_after : SimulatorState;
  tr_effects : list SimulatorEffect;
}.

Record EffectRecord := {
  er_seq : Z;
  er_timestamp_ms : Z;
  er_effect : SimulatorEffect;
}.

Record DispatchReport := {
  dr_transitions : list TransitionRecord;
  dr_effect_records : list EffectRecord;
  dr_final_state : SimulatorState;
}.

Definition REPLAY_TRACE_SCHEMA_VERSION : Z := 1.

Record ReplayTrace := {
  rt_schema_version : Z;
  rt_name : string;
  rt_initial_state : SimulatorState;
  rt_actions : list SimulatorAction;
  rt_transitions : list TransitionRecord;
  rt_effects : list EffectRecord;
  rt_final_state : SimulatorState;
}.

#[export] Instance TransitionRecord_eq_dec : EqDecision TransitionRecord.
Proof. solve_decision. Defined.
#[export] Instance EffectRecord_eq_dec : EqDecision EffectRecord.
Proof. solve_decision. Defined.
#[export] Instance ReplayTrace_eq_dec : EqDecision ReplayTrace.
Proof. solve_decision. Defined.

Record SimulatorStore := {
  sto_initial_state : SimulatorState;
  sto_state : SimulatorState;
  sto_action_log : list SimulatorAction;
  sto_transition_log : list TransitionRecord;
  sto_effect_log : list EffectRecord;
  sto_next_seq : Z;
  sto_now_ms : Z;
}.

Record Reduction := {
  red_after : SimulatorState;
  red_effects : list SimulatorEffect;
}.

Section simulator.
Context (package_version : string).

(** ** The state of each scenario *)

Definition onboarding_state : SimulatorState := {|
  screen := Onboarding;
  connection_state := Disconnected;
  pairing := pairing_default;
  saved_servers := [];
  selected_server := None;
  status_message := Some "Ready to pair with a gcode server.";
  error_message := None;
  messages := [];
  draft_message := "";
  active_session_id := None;
  sessions := [];
  available_models := [];
  model_name := None;
  is_processing := false;
|}.

(** [Self { pairing, status_message, error_message, ..Self::for_scenario(Onboarding) }] *)
Definition prefilled_state (host pair_code : string) (status error : option string)
    : SimulatorState :=
  set_pairing {| pf_host := host; pf_port := "7643"; pf_pair_code := pair_code;
                 pf_device_name := "gcode simulator" |}
    (set_status_message status (set_error_message error onboarding_state)).

Definition simulated_server : ServerSummary := {|
  ss_host := "devbox.tailnet.ts.net";
  ss_port := "7643";
  ss_server_name := "gcode";
  ss_server_version := package_version;
|}.

Definition connected_chat_state : SimulatorState := {|
  screen := Chat;
  connection_state := Connected;
  pairing := {| pf_host := ss_host simulated_server; pf_port := ss_port simulated_server;
                pf_pair_code := ""; pf_device_name := "gcode simulator" |};
  saved_servers := [simulated_server];
  selected_server := Some simulated_server;
  status_message := Some "Connected to simulated gcode server.";
  error_message := None;
  messages :=
    [{| cm_id := "msg-user-1"; cm_role := RoleUser;
        cm_text := "Can you summarize the simulator architecture?" |};
     {| cm_id := "msg-assistant-1"; cm_role := RoleAssistant;
        cm_text := "The simulator is headless-first, automation-first, and shares state semantics with the future iOS app." |}];
  draft_message := "";
  active_session_id := Some "session_sim_1";
  sessions := ["session_sim_1"; "session_sim_2"];
  available_models := ["gpt-5"; "claude-sonnet-4"];
  model_name := Some "gpt-5";
  is_processing := false;
|}.

Definition push_message (id : string) (role : MessageRole) (text : string)
    (state : SimulatorState) : SimulatorState :=
  set_messages (messages state ++ [{| cm_id := id; cm_role := role; cm_text := text |}]) state.

Definition for_scenario (scenario : ScenarioName) : SimulatorState :=
  match scenario with
  | ScnOnboarding => onboarding_state
  | ScnPairingReady =>
      prefilled_state "devbox.tailnet.ts.net" "123456"
        (Some "Fields prefilled for simulated pairing.") (error_message onboarding_state)
  | ScnConnectedChat => connected_chat_state
  | ScnPairingInvalidCode =>
      prefilled_state "devbox.tailnet.ts.net" "000000"
        None (Some "Invalid or expired pairing code.")
  | ScnServerUnreachable =>
      prefilled_state "offline.tailnet.ts.net" "123456"
        None (Some "Server unreachable. Confirm host/port and gateway status.")
  | ScnConnectedEmptyChat =>
      let state := connected_chat_state in
      let state := set_messages [] state in
      set_status_message (Some "Connected to simulated empty chat.") state
  | ScnChatStreaming =>
      let state := connected_chat_state in
      let state := push_message "msg-user-streaming" RoleUser
                     "Run the mobile simulator smoke test." state in
      let state := push_message "msg-assistant-streaming" RoleAssistant
                     "Running the Linux-native simulator" state in
      let state := set_status_message (Some "Assistant response is streaming.") state in
      set_is_processing true state
  | ScnToolApprovalRequired =>
      let state := connected_chat_state in
      let state := push_message "msg-tool-approval" RoleSystem
                     "Tool approval required: bash: cargo test -p gcode-mobile-core." state in
      let state := set_status_message (Some "Waiting for simulated tool approval.") state in
      set_is_processing true state
  | ScnToolFailed =>
      let state := connected_chat_state in
      let state := push_message "msg-tool-failed" RoleSystem
                     "Simulated tool failed: exit status 1." state in
      set_error_message (Some "Last simulated tool failed.") state
  | ScnNetworkReconnect =>
      let state := connected_chat_state in
      let state := set_connection_state Connecting state in
      set_status_message (Some "Reconnecting to simulated gcode server...") state
  | ScnOfflineQueuedMessage =>
      let state := connected_chat_state in
      let state := set_connection_state Disconnected state in
      let state := set_draft_message "Queued while offline" state in
      set_status_message (Some "Message queued until simulated reconnect.") state
  | ScnLongRunningTask =>
      let state := connected_chat_state in
      let state := push_message "msg-long-running" RoleAssistant
                     "Long-running simulated task is still in progress." state in
      let state := set_status_message (Some "Long-running simulated task in progress.") state in
      set_is_processing true state
  end.

Definition state_default : SimulatorState := for_scenario ScnOnboarding.

(** ** The reducer *)

Definition reduce_pair_submit (state : SimulatorState) : Reduction :=
  let form := pairing state in
  if trim (pf_host form) =s "" then
    {| red_after := set_error_message (Some "Host cannot be empty.") state;
       red_effects := [] |}
  else if trim (pf_pair_code form) =s "" then
    {| red_after := set_error_message (Some "Enter a simulated pairing code first.") state;
       red_effects := [] |}
  else if trim (pf_device_name form) =s "" then
    {| red_after := set_error_message (Some "Device name cannot be empty.") state;
       red_effects := [] |}
  else
    let state := set_screen Pairing state in
    let state := set_connection_state Connecting state in
    let state := set_status_message
      (Some ("Pairing to " +:+ pf_host form +:+ ":" +:+ pf_port form +:+ "...")) state in
    let state := set_error_message None state in
    {| red_after := state;
       red_effects := [PairAndConnect (pf_host form) (pf_port form) (pf_pair_code form)
                         (pf_device_name form)] |}.

Definition reduce_chat_send (state : SimulatorState) : Reduction :=
  if negb (bool_decide (connection_state state = Connected)) then
    {| red_after := set_error_message (Some "Not connected.") state; red_effects := [] |}
  else if trim (draft_message state) =s "" then
    {| red_after := set_error_message (Some "Draft is empty.") state; red_effects := [] |}
  else
    let text := trim (draft_message state) in
    let state := push_message ("msg-user-" +:+ pretty (length (messages state) + 1))
                   RoleUser text state in
    let state := set_draft_message "" state in
    let state := set_status_message (Some "Sending simulated message...") state in
    let state := set_error_message None state in
    let state := set_is_processing true state in
    {| red_after := state; red_effects := [SendMessage text] |}.

Definition reduce_tap (node_id : string) (state : SimulatorState) : Reduction :=
  if node_id =s "pair.submit" then reduce_pair_submit state
  else if node_id =s "chat.send" then reduce_chat_send state
  else if node_id =s "chat.interrupt" then
    let state := set_is_processing false state in
    {| red_after := set_status_message (Some "Interrupted simulated turn.") state;
       red_effects := [] |}
  else
    {| red_after := set_error_message (Some ("Unknown node id: " +:+ node_id)) state;
       red_effects := [] |}.

Definition reduce_failure (message : string) (state : SimulatorState) : SimulatorState :=
  let state := set_screen Onboarding state in
  let state := set_connection_state Disconnected state in
  let state := set_status_message None state in
  let state := set_error_message (Some message) state in
  set_is_processing false state.

(** [existing.host != server.host || existing.port != server.port] *)
Definition other_address (server existing : ServerSummary) : bool :=
  negb (ss_host existing =s ss_host server) || negb (ss_port existing =s ss_port server).

Definition reduce_pairing_succeeded (server_name server_version : string)
    (state : SimulatorState) : SimulatorState :=
  let server := {| ss_host := pf_host (pairing state); ss_port := pf_port (pairing state);
                   ss_server_name := server_name; ss_server_version := server_version |} in
  let retained := filter (λ existing, other_address server existing = true)
                    (saved_servers state) in
  let state := set_saved_servers (retained ++ [server]) state in
  let state := set_selected_server (Some server) state in
  let state := set_status_message (Some "Simulated pairing succeeded.") state in
  set_error_message None state.

Definition reduce_connected (session_id : string) (state : SimulatorState) : SimulatorState :=
  let state := set_screen Chat state in
  let state := set_connection_state Connected state in
  let state := set_active_session_id (Some session_id) state in
  let state := set_sessions [session_id] state in
  let state := set_available_models ["gpt-5"; "claude-sonnet-4"] state in
  let state := set_model_name (Some "gpt-5") state in
  let state := set_status_message (Some "Connected to simulated gcode server.") state in
  let state := set_error_message None state in
  match messages state with
  | [] => push_message "msg-system-connected" RoleSystem
            "Simulator connected. Send a message to begin." state
  | _ => state
  end.

Definition reduce (state : SimulatorState) (action : SimulatorAction) : Reduction :=
  let only state := {| red_after := state; red_effects := [] |} in
  match action with
  | ActReset => only state_default
  | LoadScenario scenario => only (for_scenario scenario)
  | SetHost value => only (set_error_message None (set_host value state))
  | SetPort value => only (set_error_message None (set_port value state))
  | SetPairCode value => only (set_error_message None (set_pair_code value state))
  | SetDeviceName value => only (set_error_message None (set_device_name value state))
  | SetDraft value => only (set_error_message None (set_draft_message value state))
  | TapNode node_id => reduce_tap node_id state
  | PairingSucceeded server_name server_version =>
      only (reduce_pairing_succeeded server_name server_version state)
  | PairingFailed message | ConnectionFailed message => only (reduce_failure message state)
  | ActConnected session_id => only (reduce_connected session_id state)
  | AppendAssistantText text =>
      only (push_message ("msg-assistant-" +:+ pretty (length (messages state) + 1))
              RoleAssistant text state)
  | FinishTurn =>
      only (set_status_message (Some "Simulated turn finished.") (set_is_processing false state))
  end.

(** ** The simulated backend *)

Definition pair_and_connect (host pair_code : string) : list SimulatorAction :=
  if str_contains "offline" host || str_contains "unreachable" host then
    [ConnectionFailed "Server unreachable. Confirm host/port and gateway status."]
  else if negb (pair_code =s "123456") then
    [PairingFailed "Invalid or expired pairing code."]
  else
    [PairingSucceeded "gcode" package_version; ActConnected "session_sim_1"].

Definition send_message (text : string) : list SimulatorAction :=
  [AppendAssistantText ("Simulated response to: " +:+ text); FinishTurn].

Definition handle_effect (effect : SimulatorEffect) : list SimulatorAction :=
  match effect with
  | PairAndConnect host _ pair_code _ => pair_and_connect host pair_code
  | SendMessage text => send_message text
  end.

(** ** The store *)

Definition store_new (initial_state : SimulatorState) : SimulatorStore := {|
  sto_initial_state := initial_state;
  sto_state := initial_state;
  sto_action_log := [];
  sto_transition_log := [];
  sto_effect_log := [];
  sto_next_seq := 1;
  sto_now_ms := 0;
|}.

(** What the loop of [dispatch] works on: the stack of pending actions (its
    top is the last element), the store, and the records of the report. *)
Record LoopState := {
  lp_pending : list SimulatorAction;
  lp_store : SimulatorStore;
  lp_transitions : list TransitionRecord;
  lp_effect_records : list EffectRecord;
}.

(** The body of [for effect in reduction.effects]. *)
Definition run_effect (seq : Z) (lp : LoopState) (effect : SimulatorEffect) : LoopState :=
  let store := lp_store lp in
  let now := u64_succ (sto_now_ms store) in
  let record := {| er_seq := seq; er_timestamp_ms := now; er_effect := effect |} in
  {| lp_pending := lp_pending lp ++ reverse (handle_effect effect);
     lp_store := {| sto_initial_state := sto_initial_state store;
                    sto_state := sto_state store;
                    sto_action_log := sto_action_log store;
                    sto_transition_log := sto_transition_log store;
                    sto_effect_log := sto_effect_log store ++ [record];
                    sto_next_seq := sto_next_seq store;
                    sto_now_ms := now |};
     lp_transitions := lp_transitions lp;
     lp_effect_records := lp_effect_records lp ++ [record] |}.

(** One round of [while let Some(action) = pending.pop()]; nothing happens
    once the stack is empty. *)
Definition dispatch_round (lp : LoopState) : LoopState :=
  match vec_pop (lp_pending lp) with
  | None => lp
  | Some (action, pending) =>
      let store := lp_store lp in
      let before := sto_state store in
      let reduction := reduce before action in
      let seq := sto_next_seq store in
      let now := u64_succ (sto_now_ms store) in
      let transition := {| tr_seq := seq; tr_timestamp_ms := now; tr_action := action;
                           tr_before := before; tr_after := red_after reduction;
                           tr_effects := red_effects reduction |} in
      foldl (run_effect seq)
        {| lp_pending := pending;
           lp_store := {| sto_initial_state := sto_initial_state store;
                          sto_state := red_after reduction;
                          sto_action_log := sto_action_log store;
                          sto_transition_log := sto_transition_log store ++ [transition];
                          sto_effect_log := sto_effect_log store;
                          sto_next_seq := u64_succ seq;
                          sto_now_ms := now |};
           lp_transitions := lp_transitions lp ++ [transition];
           lp_effect_records := lp_effect_records lp |}
        (red_effects reduction)
  end.

Definition log_action (action : SimulatorAction) (store : SimulatorStore) : SimulatorStore :=
  {| sto_initial_state := sto_initial_state store;
     sto_state := sto_state store;
     sto_action_log := sto_action_log store ++ [action];
     sto_transition_log := sto_transition_log store;
     sto_effect_log := sto_effect_log store;
     sto_next_seq := sto_next_seq store;
     sto_now_ms := sto_now_ms store |}.

Definition loop_start (store : SimulatorStore) (action : SimulatorAction) : LoopState :=
  {| lp_pending := [action]; lp_store := log_action action store;
     lp_transitions := []; lp_effect_records := [] |}.

Definition dispatch_loop (fuel : nat) (store : SimulatorStore) (action : SimulatorAction)
    : LoopState :=
  Nat.iter fuel dispatch_round (loop_start store action).

(** Three rounds empty the stack whatever the action is. *)
Definition dispatch_fuel : nat := 3.

Definition dispatch (store : SimulatorStore) (action : SimulatorAction)
    : SimulatorStore * DispatchReport :=
  let lp := dispatch_loop dispatch_fuel store action in
  (lp_store lp, {| dr_transitions := lp_transitions lp;
                   dr_effect_records := lp_effect_records lp;
                   dr_final_state := sto_state (lp_store lp) |}).

(** ** Traces *)

Definition dispatch_all (store : SimulatorStore) (actions : list SimulatorAction)
    : SimulatorStore :=
  foldl (λ store action, (dispatch store action).1) store actions.

Definition replay_trace (name : string) (store : SimulatorStore) : ReplayTrace := {|
  rt_schema_version := REPLAY_TRACE_SCHEMA_VERSION;
  rt_name := name;
  rt_initial_state := sto_initial_state store;
  rt_actions := sto_action_log store;
  rt_transitions := sto_transition_log store;
  rt_effects := sto_effect_log store;
  rt_final_state := sto_state store;
|}.

Definition record (name : string) (initial_state : SimulatorState)
    (actions : list SimulatorAction) : ReplayTrace :=
  let store := dispatch_all (store_new initial_state) actions in
  {| rt_schema_version := REPLAY_TRACE_SCHEMA_VERSION;
     rt_name := name;
     rt_initial_state := initial_state;
     rt_actions := actions;
     rt_transitions := sto_transition_log store;
     rt_effects := sto_effect_log store;
     rt_final_state := sto_state store |}.

Definition replay (trace : ReplayTrace) : ReplayTrace :=
  record (rt_name trace) (rt_initial_state trace) (rt_actions trace).

(** The JSON printer may fail, with an error text. *)
Context (to_string_pretty : ReplayTrace → string + string).

Definition assert_replays (trace : ReplayTrace) : unit + string :=
  if negb (rt_schema_version trace =? REPLAY_TRACE_SCHEMA_VERSION)%Z then
    inr ("unsupported replay trace schema version " +:+ pretty (rt_schema_version trace)
         +:+ ", expected " +:+ pretty REPLAY_TRACE_SCHEMA_VERSION)
  else
    let replayed := replay trace in
    if negb (bool_decide (replayed = trace)) then
      match to_string_pretty trace with
      | inr e => inr e
      | inl expected =>
          match to_string_pretty replayed with
          | inr e => inr e
          | inl actual =>
              inr ("replay trace mismatch for " +:+ rt_name trace +:+ nl +:+ "expected:" +:+ nl
                   +:+ expected +:+ nl +:+ "actual:" +:+ nl +:+ actual)
          end
      end
    else inl tt.

End simulator.
