(* ===== verification/MobileSimulatorTheorems.v ===== *)
(** * The mobile simulator: dispatch, traces and the state invariant

    [dispatch] empties its stack of pending actions in at most three rounds
    and its report is the run of the reducer over the action and the follow-ups
    of its effect; recorded traces replay; and the state keeps its invariant
    whatever actions are dispatched. *)

From S2P Require Import Prelude Utf8 MobileSimulator.
Open Scope nat_scope.

Section dispatch.
Context (ver : string).

Notation reduce := (reduce ver).
Notation dispatch := (dispatch ver).

(** ** Specification of one dispatch *)

(** The follow-up actions of some effects, first one first. *)
Definition follow_ups (effects : list SimulatorEffect) : list SimulatorAction :=
  effects ≫= handle_effect ver.

Definition quiet (action : SimulatorAction) : Prop :=
  ∀ state, red_effects (reduce state action) = [].

Definition step (state : SimulatorState) (action : SimulatorAction) : SimulatorState :=
  red_after (reduce state action).

(** The actions one dispatch performs in [state]. *)
Definition performed (state : SimulatorState) (action : SimulatorAction) : list SimulatorAction :=
  action :: follow_ups (red_effects (reduce state action)).

(** The state a list of dispatched actions leads to. *)
Definition run_state (state : SimulatorState) (actions : list SimulatorAction)
    : SimulatorState :=
  foldl (λ s a, foldl step s (performed s a)) state actions.

(** [transitions] is a run of the reducer from [s] to [s']. *)
Inductive run : SimulatorState → list TransitionRecord → SimulatorState → Prop :=
| run_nil s : run s [] s
| run_cons s t ts s' :
    tr_before t = s → tr_after t = step s (tr_action t) →
    tr_effects t = red_effects (reduce s (tr_action t)) →
    run (tr_after t) ts s' → run s (t :: ts) s'.

Lemma quiet_effects action state : quiet action → red_effects (reduce state action) = [].
Proof. auto. Qed.

Lemma reduce_effects_cases state action :
  red_effects (reduce state action) = [] ∨
  (∃ h p c d, red_effects (reduce state action) = [PairAndConnect h p c d]) ∨
  (∃ t, red_effects (reduce state action) = [SendMessage t]).
Proof.
  destruct action; simpl; auto.
  unfold reduce_tap, reduce_pair_submit, reduce_chat_send.
  repeat case_match; simpl; eauto 8.
Qed.

Lemma quiet_action action :
  (∀ id, action ≠ TapNode id) → quiet action.
Proof. intros H state. destruct action; try done. by destruct (H node_id). Qed.

(** The follow-ups of what one action asks for: at most two, all quiet. *)
Lemma follow_ups_cases state action :
  let fs := follow_ups (red_effects (reduce state action)) in
  fs = [] ∧ red_effects (reduce state action) = [] ∨
  ∃ e, red_effects (reduce state action) = [e] ∧ fs = handle_effect ver e ∧
    ((∃ f, fs = [f] ∧ quiet f) ∨ (∃ f g, fs = [f; g] ∧ quiet f ∧ quiet g)).
Proof.
  destruct (reduce_effects_cases state action) as [->|[(h & p & c & d & ->)|(t & ->)]].
  - by left.
  - right. exists (PairAndConnect h p c d). split; [done|].
    unfold follow_ups. cbn [mbind list_bind handle_effect]. rewrite app_nil_r.
    split; [done|]. unfold pair_and_connect. repeat case_match.
    1, 2: left; eexists; split; [done|]; by apply quiet_action.
    right. do 2 eexists. split; [done|]. split; by apply quiet_action.
  - right. exists (SendMessage t). repeat split. right. do 2 eexists.
    split; [done|]. split; by apply quiet_action.
Qed.

Lemma dispatch_round_quiet action pending store trs ers :
  quiet action →
  dispatch_round ver {| lp_pending := pending ++ [action]; lp_store := store;
                        lp_transitions := trs; lp_effect_records := ers |} =
  let t := {| tr_seq := sto_next_seq store; tr_timestamp_ms := u64_succ (sto_now_ms store);
              tr_action := action; tr_before := sto_state store;
              tr_after := step (sto_state store) action; tr_effects := [] |} in
  {| lp_pending := pending;
     lp_store := {| sto_initial_state := sto_initial_state store;
                    sto_state := step (sto_state store) action;
                    sto_action_log := sto_action_log store;
                    sto_transition_log := sto_transition_log store ++ [t];
                    sto_effect_log := sto_effect_log store;
                    sto_next_seq := u64_succ (sto_next_seq store);
                    sto_now_ms := u64_succ (sto_now_ms store) |};
     lp_transitions := trs ++ [t]; lp_effect_records := ers |}.
Proof.
  intros Hq. unfold dispatch_round. cbn [lp_pending].
  replace (vec_pop (pending ++ [action])) with (Some (action, pending))
    by (symmetry; by apply vec_pop_Some).
  cbn [lp_store lp_transitions lp_effect_records]. by rewrite Hq.
Qed.

(** What one dispatch does to [store]. [ts] and [es] are the transitions and
    effect records of the report. *)
Record dispatched (store : SimulatorStore) (action : SimulatorAction)
    (store' : SimulatorStore) (ts : list TransitionRecord) (es : list EffectRecord) : Prop := {
  dd_run : run (sto_state store) ts (sto_state store');
  dd_actions : tr_action <$> ts = performed (sto_state store) action;
  dd_effects : er_effect <$> es = ts ≫= tr_effects;
  dd_length : length ts ≤ 3 ∧ length es ≤ 1;
  dd_initial : sto_initial_state store' = sto_initial_state store;
  dd_action_log : sto_action_log store' = sto_action_log store ++ [action];
  dd_transition_log : sto_transition_log store' = sto_transition_log store ++ ts;
  dd_effect_log : sto_effect_log store' = sto_effect_log store ++ es;
  dd_seq : (0 ≤ sto_next_seq store)%Z → (sto_next_seq store + 3 < 2 ^ 64)%Z →
    tr_seq <$> ts = seqZ (sto_next_seq store) (Z.of_nat (length ts)) ∧
    sto_next_seq store' = (sto_next_seq store + Z.of_nat (length ts))%Z;
  dd_clock : (0 ≤ sto_now_ms store)%Z → (sto_now_ms store + 4 < 2 ^ 64)%Z →
    (tr_timestamp_ms <$> take 1 ts) ++ (er_timestamp_ms <$> es)
      ++ (tr_timestamp_ms <$> drop 1 ts) =
      seqZ (sto_now_ms store + 1) (Z.of_nat (length ts + length es)) ∧
    sto_now_ms store' = (sto_now_ms store + Z.of_nat (length ts + length es))%Z;
}.

Lemma dispatch_round_done lp : lp_pending lp = [] → dispatch_round ver lp = lp.
Proof. intros H. unfold dispatch_round. by rewrite H. Qed.

Lemma dispatch_rounds_done n lp :
  lp_pending lp = [] → Nat.iter n (dispatch_round ver) lp = lp.
Proof.
  intros H. induction n as [|n IH]; simpl; [done|].
  by rewrite IH, dispatch_round_done.
Qed.

(** Follows the rounds of one dispatch whose effects and follow-ups are known. *)
Ltac solve_dispatched Heff :=
  split; cbn [lp_pending lp_store lp_transitions lp_effect_records sto_state sto_initial_state
              sto_action_log sto_transition_log sto_effect_log sto_next_seq sto_now_ms log_action];
  [ repeat first
      [ apply run_nil
      | apply run_cons; [done|done| |];
        cbn [tr_action tr_effects tr_after]; [first [by rewrite Heff | by rewrite quiet_effects]|] ]
  | cbn; unfold performed; rewrite Heff; unfold follow_ups; cbn; rewrite ?app_nil_r; congruence
  | cbn; by rewrite ?Heff
  | cbn; lia | done | done
  | by rewrite <- ?app_assoc | by rewrite <- ?app_assoc, ?app_nil_r
  | | ];
  intros; cbn -[seqZ Z.add Z.pow Z.of_nat u64_succ];
  rewrite !u64_succ_small by (rewrite ?u64_succ_small; lia);
  (split; [|lia]); repeat (rewrite seqZ_cons by lia);
  rewrite seqZ_nil by lia; repeat (f_equal; try lia).

(** The first round, for an action with the given effects. *)
Lemma first_round store action :
  let t := {| tr_seq := sto_next_seq store; tr_timestamp_ms := u64_succ (sto_now_ms store);
              tr_action := action; tr_before := sto_state store;
              tr_after := step (sto_state store) action;
              tr_effects := red_effects (reduce (sto_state store) action) |} in
  dispatch_round ver (loop_start store action) =
  foldl (run_effect ver (sto_next_seq store))
    {| lp_pending := [];
       lp_store := {| sto_initial_state := sto_initial_state store;
                      sto_state := step (sto_state store) action;
                      sto_action_log := sto_action_log store ++ [action];
                      sto_transition_log := sto_transition_log store ++ [t];
                      sto_effect_log := sto_effect_log store;
                      sto_next_seq := u64_succ (sto_next_seq store);
                      sto_now_ms := u64_succ (sto_now_ms store) |};
       lp_transitions := [t]; lp_effect_records := [] |}
    (red_effects (reduce (sto_state store) action)).
Proof. done. Qed.

Lemma dispatch_loop_dispatched store action :
  let lp := dispatch_loop ver 3 store action in
  lp_pending lp = [] ∧
  dispatched store action (lp_store lp) (lp_transitions lp) (lp_effect_records lp).
Proof.
  pose proof (follow_ups_cases (sto_state store) action) as Hf.
  cbv zeta. unfold dispatch_loop.
  change (Nat.iter 3 (dispatch_round ver) ?x) with
    (dispatch_round ver (dispatch_round ver (dispatch_round ver x))).
  rewrite first_round.
  destruct Hf as [[Hfs Heff]|(e & Heff & Hfs & [(f & Hf & Hq)|(f & g & Hf & Hqf & Hqg)])];
    rewrite Heff; cbn [foldl]; unfold run_effect; cbn [lp_pending lp_store lp_transitions
      lp_effect_records sto_now_ms].
  - rewrite !dispatch_round_done by done. split; [done|]. solve_dispatched Heff.
  - rewrite Hfs in Hf. rewrite Hf. change ([] ++ reverse [f]) with ([] ++ [f]).
    rewrite (dispatch_round_quiet f) by done. cbn zeta.
    rewrite dispatch_round_done by done. split; [done|]. solve_dispatched Heff.
  - rewrite Hfs in Hf. rewrite Hf. change ([] ++ reverse [f; g]) with ([g] ++ [f]).
    rewrite (dispatch_round_quiet f) by done. cbn zeta.
    rewrite (dispatch_round_quiet g []) by done. split; [done|].
    solve_dispatched Heff.
Qed.


Lemma dispatch_dispatched store action :
  dispatched store action (dispatch store action).1
    (dr_transitions (dispatch store action).2) (dr_effect_records (dispatch store action).2).
Proof. apply dispatch_loop_dispatched. Qed.

Lemma run_app s1 ts1 s2 ts2 s3 : run s1 ts1 s2 → run s2 ts2 s3 → run s1 (ts1 ++ ts2) s3.
Proof. induction 1; simpl; [done|]. intros. by constructor; auto. Qed.

Lemma run_foldl s ts s' : run s ts s' → s' = foldl step s (tr_action <$> ts).
Proof. induction 1 as [|s t ts s' _ Ha _ _ IH]; [done|]. cbn. by rewrite <- Ha. Qed.

(** A property that every reducer step keeps holds in all states of a run. *)
Lemma run_invariant (P : SimulatorState → Prop) s ts s' :
  (∀ s a, P s → P (step s a)) → P s → run s ts s' →
  P s' ∧ Forall (λ t, P (tr_before t) ∧ P (tr_after t)) ts.
Proof.
  intros HP Hs Hr. induction Hr as [|s t ts s' Hb Ha _ _ IH]; [by split|].
  assert (P (tr_after t)) as Ht by (rewrite Ha; by apply HP).
  destruct (IH Ht). split; [done|]. constructor; [|done]. by rewrite Hb.
Qed.

Lemma dispatch_state store action :
  sto_state (dispatch store action).1 = run_state (sto_state store) [action].
Proof.
  destruct (dispatch_dispatched store action) as [Hr Ha _ _ _ _ _ _ _ _].
  apply run_foldl in Hr. by rewrite Ha in Hr.
Qed.

Lemma dispatch_all_log store actions :
  let store' := dispatch_all ver store actions in
  sto_initial_state store' = sto_initial_state store ∧
  sto_action_log store' = sto_action_log store ++ actions ∧
  sto_state store' = run_state (sto_state store) actions ∧
  ∃ ts, sto_transition_log store' = sto_transition_log store ++ ts ∧
        run (sto_state store) ts (sto_state store').
Proof.
  revert store. induction actions as [|a actions IH]; intros store; cbv zeta.
  - cbn. rewrite !app_nil_r. repeat split. exists []. rewrite app_nil_r. split; [done|constructor].
  - pose proof (dispatch_state store a) as Hs.
    destruct (dispatch_dispatched store a) as [Hr _ _ _ Hi Hl Ht _ _ _].
    specialize (IH (dispatch store a).1). cbv zeta in IH.
    change (dispatch_all ver store (a :: actions))
      with (dispatch_all ver (dispatch store a).1 actions).
    destruct IH as (-> & -> & Hs' & ts & -> & Hr').
    rewrite Hi, Hl, Ht, <- !app_assoc. repeat split.
    + by rewrite Hs', Hs.
    + exists (dr_transitions (dispatch store a).2 ++ ts). split; [done|]. by eapply run_app.
Qed.
End dispatch.

(** ** Theorems *)

(** C7. One dispatch performs the action and then the backend's answers to
    the effect it asks for, in order, and nothing else: the loop empties its
    stack in three rounds whatever the state (more rounds change nothing), the
    reported transitions are a run of the reducer from the old to the new
    state, the report is appended to the logs, and the sequence numbers and
    the ticks of the clock are consecutive while the counters have room. *)
Theorem dispatch_correct ver store action :
  (∀ fuel, let lp := dispatch_loop ver (3 + fuel) store action in
     lp_pending lp = [] ∧ lp = dispatch_loop ver dispatch_fuel store action) ∧
  dr_final_state (dispatch ver store action).2 = sto_state (dispatch ver store action).1 ∧
  dispatched ver store action (dispatch ver store action).1
    (dr_transitions (dispatch ver store action).2)
    (dr_effect_records (dispatch ver store action).2).
Proof.
  split; [|split; [done|apply dispatch_dispatched]]. intros fuel. cbv zeta.
  destruct (dispatch_loop_dispatched ver store action) as [Hp _]. cbv zeta in Hp.
  unfold dispatch_loop, dispatch_fuel in *. rewrite Nat.add_comm, Nat.iter_add.
  rewrite dispatch_rounds_done by done. done.
Qed.

(** The trace a store exports after any sequence of dispatches is the
    one [record] makes of these actions, its transitions run from the initial
    to the final state, it passes [assert_replays], and a trace passes exactly
    when it has the supported version and is such a recording. *)
Theorem replay_correct ver json name s0 actions :
  let trace := replay_trace name (dispatch_all ver (store_new s0) actions) in
  trace = record ver name s0 actions ∧
  run ver s0 (rt_transitions trace) (rt_final_state trace) ∧
  rt_final_state trace = run_state ver s0 actions ∧
  assert_replays ver json trace = inl () ∧
  ∀ t, assert_replays ver json t = inl () ↔ ∃ n s l, t = record ver n s l.
Proof.
  cbv zeta. destruct (dispatch_all_log ver (store_new s0) actions) as (Hi & Hl & Hs & ts & Ht & Hr).
  cbv zeta in *. cbn in Hi, Hl.
  assert (replay_trace name (dispatch_all ver (store_new s0) actions) = record ver name s0 actions)
    as Hrec by (unfold replay_trace, record; by rewrite Hi, Hl).
  assert (∀ t, assert_replays ver json t = inl () ↔ ∃ n s l, t = record ver n s l) as Hiff.
  { intros t. unfold assert_replays. split.
    - intros H. case_match; [done|]. destruct (decide (replay ver t = t)) as [E|E].
      + rewrite <- E. unfold replay. by do 3 eexists.
      + rewrite bool_decide_eq_false_2 in H by done. by repeat case_match.
    - intros (n & s & l & ->). cbn -[record replay]. by rewrite bool_decide_eq_true_2. }
  refine (conj Hrec (conj _ (conj Hs (conj _ Hiff)))).
  - unfold replay_trace. cbn. by rewrite Ht.
  - rewrite Hrec. apply Hiff. eauto.
Qed.

(** ** The state invariant *)

Definition address (server : ServerSummary) : string * string :=
  (ss_host server, ss_port server).

(** The id a message pushed at position [n] (from one) gets. *)
Definition user_id (n : nat) : string := "msg-user-" +:+ pretty n.
Definition assistant_id (n : nat) : string := "msg-assistant-" +:+ pretty n.

(** Message ids are distinct, and the ids of later positions are free. *)
Definition fresh_ids (ms : list ChatMessage) : Prop :=
  NoDup (cm_id <$> ms) ∧
  ∀ n, length ms < n → user_id n ∉ cm_id <$> ms ∧ assistant_id n ∉ cm_id <$> ms.

Record state_ok (s : SimulatorState) : Prop := {
  so_servers : NoDup (address <$> saved_servers s);
  so_selected : ∀ server, selected_server s = Some server → server ∈ saved_servers s;
  so_session : ∀ id, active_session_id s = Some id → id ∈ sessions s;
  so_model : ∀ model, model_name s = Some model → model ∈ available_models s;
  so_connected : connection_state s = Connected →
    screen s = Chat ∧ is_Some (active_session_id s);
  so_onboarding : screen s = Onboarding → connection_state s = Disconnected;
  so_pairing : screen s = Pairing → connection_state s = Connecting;
  so_messages : fresh_ids (messages s);
}.

(** *** Decimal numerals *)

Fixpoint all_digits (s : string) : bool :=
  match s with
  | EmptyString => true
  | String a s' => (48 <=? Ascii.nat_of_ascii a) && (Ascii.nat_of_ascii a <=? 57) && all_digits s'
  end.

Lemma pretty_N_go_digits x s : all_digits s = true → all_digits (pretty_N_go x s) = true.
Proof.
  revert s. induction (N.lt_wf_0 x) as [x _ IH]; intros s Hs.
  destruct (decide (x = 0%N)) as [->|Hne]; [by rewrite pretty_N_go_0|].
  rewrite pretty_N_go_step by lia. apply IH.
  { apply N.div_lt; lia. }
  cbn [all_digits]. rewrite Hs, andb_true_r. unfold pretty_N_char.
  by repeat case_match.
Qed.

Lemma pretty_digits (n : nat) : all_digits (pretty n) = true.
Proof.
  unfold pretty, pretty_nat, pretty, pretty_N. case_decide; [done|]. by apply pretty_N_go_digits.
Qed.

(** *** Fresh message ids *)

Lemma user_id_inj n m : user_id n = user_id m → n = m.
Proof. unfold user_id. cbn. intros [= H]. by apply (inj pretty). Qed.

Lemma assistant_id_inj n m : assistant_id n = assistant_id m → n = m.
Proof. unfold assistant_id. cbn. intros [= H]. by apply (inj pretty). Qed.

Lemma user_not_assistant n m : user_id n ≠ assistant_id m.
Proof. by unfold user_id, assistant_id. Qed.

(** Ids outside the two numbered families. *)
Definition special_id (id : string) : Prop := ∀ n, id ≠ user_id n ∧ id ≠ assistant_id n.

Ltac solve_special_id :=
  let Hd := fresh in let E := fresh in
  intros n; unfold user_id, assistant_id; pose proof (pretty_digits n) as Hd;
  split; intros E; cbv [String.append] in E; simplify_eq; by rewrite <- E in Hd.

Lemma fresh_ids_nil : fresh_ids [].
Proof. split; [constructor|]. intros n _. cbn. set_solver. Qed.

Lemma fresh_ids_push ms id role text :
  fresh_ids ms → id ∉ cm_id <$> ms →
  (∀ n, length ms + 1 < n → id ≠ user_id n ∧ id ≠ assistant_id n) →
  fresh_ids (ms ++ [{| cm_id := id; cm_role := role; cm_text := text |}]).
Proof.
  intros [Hnd Hfree] Hid Hlater. split.
  - rewrite fmap_app. apply NoDup_app. split; [done|]. split; [|by apply NoDup_singleton].
    cbn. set_solver.
  - intros n. rewrite length_app. cbn. intros Hn.
    destruct (Hfree n) as [??]; [lia|]. destruct (Hlater n) as [??]; [lia|].
    rewrite fmap_app. cbn. set_solver.
Qed.

Lemma fresh_ids_user ms role text :
  fresh_ids ms →
  fresh_ids (ms ++ [{| cm_id := user_id (length ms + 1); cm_role := role; cm_text := text |}]).
Proof.
  intros Hf. apply fresh_ids_push; [done|apply Hf; lia|]. intros n Hn.
  split; [intros ?%user_id_inj; lia|apply user_not_assistant].
Qed.

Lemma fresh_ids_assistant ms role text :
  fresh_ids ms →
  fresh_ids (ms ++ [{| cm_id := assistant_id (length ms + 1); cm_role := role;
                       cm_text := text |}]).
Proof.
  intros Hf. apply fresh_ids_push; [done|apply Hf; lia|]. intros n Hn.
  split; [intros ?%eq_sym%user_not_assistant; done|intros ?%assistant_id_inj; lia].
Qed.

Lemma fresh_ids_connected ver : fresh_ids (messages (connected_chat_state ver)).
Proof.
  split; [apply NoDup_cons; split; cbn; [set_solver|apply NoDup_singleton]|].
  intros n Hn. cbn in Hn. cbn. rewrite !not_elem_of_cons.
  repeat split; try (by unfold user_id, assistant_id); try set_solver.
  - intros H. apply (user_id_inj n 1) in H. lia.
  - intros H. apply (assistant_id_inj n 1) in H. lia.
Qed.

(** *** Preservation *)

Lemma connected_state_ok ver : state_ok (connected_chat_state ver).
Proof.
  split; try done; cbn.
  - apply NoDup_singleton.
  - intros ? [= <-]. set_solver.
  - intros ? [= <-]. set_solver.
  - intros ? [= <-]. set_solver.
  - apply (fresh_ids_connected ver).
Qed.

Lemma onboarding_state_ok : state_ok onboarding_state.
Proof. split; try done; cbn; [constructor|apply fresh_ids_nil]. Qed.

(** Only the fields of the invariant matter. *)
Ltac keep_state_ok H :=
  destruct H; split; cbn in *; try done.

Lemma push_special_ok id role text s :
  special_id id → id ∉ cm_id <$> messages s → state_ok s → state_ok (push_message id role text s).
Proof.
  intros Hsp Hid H. keep_state_ok H. by apply fresh_ids_push; auto.
Qed.

Lemma for_scenario_ok ver scenario : state_ok (for_scenario ver scenario).
Proof.
  pose proof (connected_state_ok ver) as Hc. pose proof onboarding_state_ok as Ho.
  assert (∀ id role text, special_id id → id ∉ cm_id <$> messages (connected_chat_state ver) →
    state_ok (push_message id role text (connected_chat_state ver))) as Hpush
    by (intros; by apply push_special_ok).
  destruct scenario; cbn [for_scenario]; try done.
  all: try (keep_state_ok Ho; fail).
  all: try (keep_state_ok Hc; apply fresh_ids_nil).
  all: try (keep_state_ok Hc; fail).
  - assert (state_ok (push_message "msg-assistant-streaming" RoleAssistant
        "Running the Linux-native simulator"
        (push_message "msg-user-streaming" RoleUser "Run the mobile simulator smoke test."
           (connected_chat_state ver)))) as H.
    { apply push_special_ok; [solve_special_id|cbn; set_solver|].
      apply Hpush; [solve_special_id|cbn; set_solver]. }
    keep_state_ok H.
  - assert (H := Hpush "msg-tool-approval" RoleSystem
      "Tool approval required: bash: cargo test -p gcode-mobile-core."
      ltac:(solve_special_id) ltac:(cbn; set_solver)). keep_state_ok H.
  - assert (H := Hpush "msg-tool-failed" RoleSystem "Simulated tool failed: exit status 1."
      ltac:(solve_special_id) ltac:(cbn; set_solver)). keep_state_ok H.
  - assert (H := Hpush "msg-long-running" RoleAssistant
      "Long-running simulated task is still in progress."
      ltac:(solve_special_id) ltac:(cbn; set_solver)). keep_state_ok H.
Qed.

Lemma other_address_spec server existing :
  other_address server existing = true ↔ address existing ≠ address server.
Proof.
  unfold other_address, address. rewrite orb_true_iff, !negb_true_iff, !eqb_false.
  split; [intros [?|?] [= ??]; done|]. intros H.
  destruct (decide (ss_host existing = ss_host server)) as [E|]; [|by left].
  right. intros E'. apply H. by rewrite E, E'.
Qed.

Lemma pairing_succeeded_ok name version s :
  state_ok s → state_ok (reduce_pairing_succeeded name version s).
Proof.
  intros H. destruct H as [Hnd _ ? ? ? ? ? ?]. split; cbn; try done.
  - rewrite fmap_app. apply NoDup_app. split; [|split; [|by apply NoDup_singleton]].
    + eapply sublist_NoDup; [exact Hnd|]. apply fmap_sublist, sublist_filter.
    + intros a (x & -> & [Hx _]%list_elem_of_filter)%list_elem_of_fmap Ha.
      apply other_address_spec in Hx. apply list_elem_of_singleton in Ha. by apply Hx.
  - intros ? [= <-]. apply elem_of_app. right. by apply list_elem_of_singleton.
Qed.

Lemma connected_ok id s : state_ok s → state_ok (reduce_connected id s).
Proof.
  intros H. unfold reduce_connected. cbn. case_match eqn:Em; cbn in Em;
    destruct H; split; cbn in *; try done; try (intros ? [= <-]; set_solver).
  rewrite Em. cbn. apply (fresh_ids_push [] "msg-system-connected"); [apply fresh_ids_nil|cbn; set_solver|].
  intros n _. revert n. change (special_id "msg-system-connected"). solve_special_id.
Qed.

Lemma reduce_ok ver s a : state_ok s → state_ok (step ver s a).
Proof.
  intros H. destruct a; unfold step; cbn [reduce red_after]; try (keep_state_ok H; fail).
  - apply onboarding_state_ok.
  - apply for_scenario_ok.
  - unfold reduce_tap, reduce_pair_submit, reduce_chat_send.
    repeat case_match; cbn [red_after]; keep_state_ok H. by apply fresh_ids_user.
  - by apply pairing_succeeded_ok.
  - by apply connected_ok.
  - keep_state_ok H. by apply fresh_ids_assistant.
Qed.

(** No dispatch stops on the pairing screen: the backend has always answered. *)
Lemma run_state_not_pairing ver s a :
  screen s ≠ Pairing → screen (run_state ver s [a]) ≠ Pairing.
Proof.
  intros Hs. unfold run_state, performed. cbn [foldl]. destruct a; cbn; try done.
  - by destruct scenario.
  - unfold step. cbn [reduce]. unfold reduce_tap, reduce_pair_submit, reduce_chat_send.
    repeat case_match; cbn; try done. unfold pair_and_connect.
    repeat case_match; cbn; try done. unfold reduce_connected. by case_match.
  - unfold step. cbn. unfold reduce_connected. by case_match.
Qed.

Lemma run_state_cons ver s a actions :
  run_state ver s (a :: actions) = run_state ver (run_state ver s [a]) actions.
Proof. done. Qed.

(** C8. From every scenario and through every sequence of dispatched actions
    the state stays well formed, in every state the transition log shows: the
    saved servers have distinct addresses and the selected one is among them,
    the active session and model are among those listed, a connected app shows
    the chat with an active session, the onboarding screen is disconnected, the
    pairing screen is connecting, and message ids are distinct. A dispatch
    never stops on the pairing screen. *)
Theorem simulator_invariant ver scenario actions :
  let store := dispatch_all ver (store_new (for_scenario ver scenario)) actions in
  state_ok (sto_state store) ∧
  screen (sto_state store) ≠ Pairing ∧
  Forall (λ t, state_ok (tr_before t) ∧ state_ok (tr_after t)) (sto_transition_log store).
Proof.
  cbv zeta.
  destruct (dispatch_all_log ver (store_new (for_scenario ver scenario)) actions)
    as (_ & _ & Hs & ts & Ht & Hr).
  rewrite Ht. cbn [sto_transition_log store_new sto_state app] in *.
  destruct (run_invariant ver state_ok _ _ _ (reduce_ok ver) (for_scenario_ok ver scenario) Hr)
    as [Hok Hall].
  split; [done|]. split; [|done]. rewrite Hs.
  assert (screen (for_scenario ver scenario) ≠ Pairing) as H0 by by destruct scenario.
  revert H0. generalize (for_scenario ver scenario). clear.
  induction actions as [|a actions IH]; intros s H0; [done|].
  rewrite run_state_cons. by apply IH, run_state_not_pairing.
Qed.

(** ** The two buttons *)

Definition form_error (f : PairingForm) : option string :=
  if decide (trim (pf_host f) = "") then Some "Host cannot be empty."
  else if decide (trim (pf_pair_code f) = "") then Some "Enter a simulated pairing code first."
  else if decide (trim (pf_device_name f) = "") then Some "Device name cannot be empty."
  else None.

(** The error the backend answers a complete form with. *)
Definition pairing_error (f : PairingForm) : option string :=
  if str_contains "offline" (pf_host f) || str_contains "unreachable" (pf_host f) then
    Some "Server unreachable. Confirm host/port and gateway status."
  else if decide (pf_pair_code f = "123456") then None
  else Some "Invalid or expired pairing code.".

Record paired (ver : string) (s s' : SimulatorState) (server : ServerSummary) : Prop := {
  pd_address : address server = (pf_host (pairing s), pf_port (pairing s));
  pd_version : ss_server_version server = ver;
  pd_screen : screen s' = Chat ∧ connection_state s' = Connected ∧ error_message s' = None;
  pd_session : active_session_id s' = Some "session_sim_1";
  pd_selected : selected_server s' = Some server;
  pd_saved : server ∈ saved_servers s' ∧
    ∀ other, address other ≠ address server → other ∈ saved_servers s' ↔ other ∈ saved_servers s;
  pd_messages : messages s ≠ [] → messages s' = messages s;
  pd_greeting : messages s = [] → length (messages s') = 1;
}.

Lemma eqb_decide s t : (s =s t) = bool_decide (s = t).
Proof. destruct (String.eqb_spec s t); by case_bool_decide. Qed.

Lemma run_submit ver s :
  run_state ver s [TapNode "pair.submit"] =
  match form_error (pairing s) with
  | Some error => set_error_message (Some error) s
  | None => foldl (step ver) (red_after (reduce_pair_submit s))
              (pair_and_connect ver (pf_host (pairing s)) (pf_pair_code (pairing s)))
  end.
Proof.
  unfold run_state, performed. cbn [foldl]. unfold step at 2.
  change (reduce ver s (TapNode "pair.submit")) with (reduce_pair_submit s).
  unfold form_error, reduce_pair_submit. rewrite !eqb_decide.
  repeat (case_bool_decide; case_decide; try done). cbn [red_effects].
  unfold follow_ups. cbn. by rewrite app_nil_r.
Qed.

Lemma submit_keeps s :
  let s' := red_after (reduce_pair_submit s) in
  pairing s' = pairing s ∧ saved_servers s' = saved_servers s ∧ messages s' = messages s.
Proof. unfold reduce_pair_submit. by repeat case_match. Qed.

Lemma connected_paired ver s s1 :
  pairing s1 = pairing s → saved_servers s1 = saved_servers s → messages s1 = messages s →
  paired ver s
    (reduce_connected "session_sim_1" (reduce_pairing_succeeded "gcode" ver s1))
    {| ss_host := pf_host (pairing s); ss_port := pf_port (pairing s);
       ss_server_name := "gcode"; ss_server_version := ver |}.
Proof.
  destruct s1; cbn. intros -> -> ->. unfold reduce_connected. cbn.
  destruct (messages s) as [|m ms] eqn:Em; split; cbn; try done; try congruence.
  1, 2: split; [set_solver|]; intros other Hother;
    rewrite elem_of_app, list_elem_of_filter, other_address_spec; set_solver.
Qed.

(** Submitting the pairing form: an incomplete form changes nothing but
    the error shown, which names the first empty field; otherwise an unreachable
    host or a wrong code leads back to a disconnected onboarding screen with
    that error and the saved servers, form and messages kept, and a right one
    to the chat, connected to the server at the form's address, which replaces
    exactly the saved server with that address. *)
Theorem pair_submit_correct ver store :
  let s := sto_state store in
  let s' := sto_state (dispatch ver store (TapNode "pair.submit")).1 in
  match form_error (pairing s), pairing_error (pairing s) with
  | Some error, _ => s' = set_error_message (Some error) s
  | None, Some error =>
      screen s' = Onboarding ∧ connection_state s' = Disconnected ∧
      error_message s' = Some error ∧ is_processing s' = false ∧
      saved_servers s' = saved_servers s ∧ pairing s' = pairing s ∧ messages s' = messages s
  | None, None => ∃ server, paired ver s s' server
  end.
Proof.
  cbv zeta. rewrite dispatch_state. generalize (sto_state store). clear store. intros s.
  rewrite run_submit. destruct (form_error (pairing s)); [done|].
  destruct (submit_keeps s) as (Hf & Hs & Hm). revert Hf Hs Hm.
  generalize (red_after (reduce_pair_submit s)). intros s1 Hf Hs Hm.
  unfold pairing_error, pair_and_connect. rewrite eqb_decide.
  destruct (str_contains "offline" _ || str_contains "unreachable" _); [by cbn|].
  destruct (decide (pf_pair_code (pairing s) = "123456"));
    [rewrite bool_decide_eq_true_2 by done|by rewrite bool_decide_eq_false_2; cbn].
  eexists. by apply connected_paired.
Qed.

Lemma run_send ver s :
  run_state ver s [TapNode "chat.send"] =
  foldl (step ver) (red_after (reduce_chat_send s))
    (follow_ups ver (red_effects (reduce_chat_send s))).
Proof. done. Qed.

(** Sending: when connected with a draft that is not blank, the trimmed
    draft and the backend's answer are appended to the messages under fresh
    ids, the draft is emptied and the turn is finished; otherwise nothing
    changes but the error shown. *)
Theorem chat_send_correct ver store :
  let s := sto_state store in
  let s' := sto_state (dispatch ver store (TapNode "chat.send")).1 in
  let text := trim (draft_message s) in
  if decide (connection_state s = Connected) then
    if decide (text = "") then s' = set_error_message (Some "Draft is empty.") s
    else
      let n := length (messages s) in
      messages s' = messages s ++
        [{| cm_id := user_id (n + 1); cm_role := RoleUser; cm_text := text |};
         {| cm_id := assistant_id (n + 2); cm_role := RoleAssistant;
            cm_text := "Simulated response to: " +:+ text |}] ∧
      draft_message s' = "" ∧ is_processing s' = false ∧ error_message s' = None ∧
      screen s' = screen s ∧ connection_state s' = Connected
  else s' = set_error_message (Some "Not connected.") s.
Proof.
  cbv zeta. rewrite dispatch_state. generalize (sto_state store). clear store. intros s.
  rewrite run_send. unfold reduce_chat_send. rewrite eqb_decide.
  case_decide as Hc; [|by rewrite (bool_decide_eq_false_2 (connection_state s = Connected))].
  rewrite (bool_decide_eq_true_2 (connection_state s = Connected)) by done. cbn [negb].
  case_decide; [by rewrite bool_decide_eq_true_2|].
  rewrite bool_decide_eq_false_2 by done. cbn -[String.append pretty].
  unfold assistant_id. rewrite length_app, <- app_assoc. cbn -[String.append pretty].
  by replace (length (messages s) + 1 + 1) with (length (messages s) + 2) by lia.
Qed.
