(* ===== verification/MobileUi.v ===== *)
(** * The semantic UI tree of the mobile simulator
    ([crates/gcode-mobile-core/src/lib.rs] and [visual.rs])

    The tree [build_ui_tree] makes of a state, its layout in the viewport, the
    metadata for agents, and hit testing. Coordinates are [i32], with
    wrap-around additions. *)

From S2P Require Import Prelude Utf8 MobileSimulator.
Open Scope nat_scope.

(** ** Data *)

Inductive UiNodeRole :=
| UiScreen | UiTextInput | UiButton | UiBanner | UiMessageList | UiMessage | UiComposer.

Inductive UiNodeAction := UiTap | UiSetText | UiTypeText | UiScroll.

#[export] Instance UiNodeRole_eq_dec : EqDecision UiNodeRole.
Proof. solve_decision. Defined.
#[export] Instance UiNodeAction_eq_dec : EqDecision UiNodeAction.
Proof. solve_decision. Defined.

Definition DEFAULT_VIEWPORT_WIDTH : Z := 390.
Definition DEFAULT_VIEWPORT_HEIGHT : Z := 844.

Record UiRect := {
  rect_x : Z;
  rect_y : Z;
  rect_width : Z;
  rect_height : Z;
}.

(** Divisions of [i32] by a literal round towards zero. *)
Definition contains_point (r : UiRect) (x y : Z) : bool :=
  (rect_x r <=? x)%Z && (rect_y r <=? y)%Z
  && (x <? i32_add (rect_x r) (rect_width r))%Z
  && (y <? i32_add (rect_y r) (rect_height r))%Z.

Definition center (r : UiRect) : Z * Z :=
  (i32_add (rect_x r) (Z.quot (rect_width r) 2), i32_add (rect_y r) (Z.quot (rect_height r) 2)).

Inductive UiNode := {
  ui_id : string;
  ui_role : UiNodeRole;
  ui_label : string;
  ui_value : option string;
  ui_visible : bool;
  ui_enabled : bool;
  ui_focused : bool;
  ui_accessibility_label : option string;
  ui_accessibility_value : option string;
  ui_supported_actions : list UiNodeAction;
  ui_bounds : option UiRect;
  ui_children : list UiNode;
}.

Record UiTree := {
  tree_screen : Screen;
  tree_root : UiNode;
}.

(** ** Building the tree *)

(** A node as [build_ui_tree] writes it: visible, not focused, without
    accessibility texts, actions and bounds. *)
Definition plain_node (id : string) (role : UiNodeRole) (label : string) (value : option string)
    (enabled : bool) (children : list UiNode) : UiNode := {|
  ui_id := id;
  ui_role := role;
  ui_label := label;
  ui_value := value;
  ui_visible := true;
  ui_enabled := enabled;
  ui_focused := false;
  ui_accessibility_label := None;
  ui_accessibility_value := None;
  ui_supported_actions := [];
  ui_bounds := None;
  ui_children := children;
|}.

(** [format!("{:?}", role)] and [format!("{:?}", screen)] *)
Definition role_debug (role : MessageRole) : string :=
  match role with RoleUser => "User" | RoleAssistant => "Assistant" | RoleSystem => "System" end.

Definition screen_debug (screen : Screen) : string :=
  match screen with Onboarding => "Onboarding" | Pairing => "Pairing" | Chat => "Chat" end.

Definition banner (id label : string) (text : option string) : list UiNode :=
  match text with
  | Some text => [plain_node id UiBanner label (Some text) true []]
  | None => []
  end.

Definition message_node (idx : nat) (message : ChatMessage) : UiNode :=
  plain_node ("message." +:+ pretty idx) UiMessage (role_debug (cm_role message) +:+ " message")
    (Some (cm_text message)) true [].

Definition screen_nodes (state : SimulatorState) : list UiNode :=
  match screen state with
  | Onboarding | Pairing =>
      let form := pairing state in
      let enabled := negb (bool_decide (connection_state state = Connecting)) in
      [plain_node "pair.host" UiTextInput "Host" (Some (pf_host form)) enabled [];
       plain_node "pair.port" UiTextInput "Port" (Some (pf_port form)) enabled [];
       plain_node "pair.code" UiTextInput "Pair Code" (Some (pf_pair_code form)) enabled [];
       plain_node "pair.device_name" UiTextInput "Device Name" (Some (pf_device_name form))
         enabled [];
       plain_node "pair.submit" UiButton "Pair & Connect" None enabled []]
  | Chat =>
      [plain_node "chat.messages" UiMessageList "Messages" None true
         (imap message_node (messages state));
       plain_node "chat.draft" UiComposer "Draft" (Some (draft_message state)) true [];
       plain_node "chat.send" UiButton "Send" None
         (bool_decide (connection_state state = Connected)) [];
       plain_node "chat.interrupt" UiButton "Interrupt" None (is_processing state) []]
  end.

(** ** Agent metadata *)

Definition supported_actions_of (role : UiNodeRole) (enabled : bool) : list UiNodeAction :=
  match role with
  | UiTextInput | UiComposer => if enabled then [UiSetText; UiTypeText] else []
  | UiButton => if enabled then [UiTap] else []
  | UiMessageList => if enabled then [UiScroll] else []
  | _ => []
  end.

Fixpoint annotate_node_for_agents (node : UiNode) : UiNode := {|
  ui_id := ui_id node;
  ui_role := ui_role node;
  ui_label := ui_label node;
  ui_value := ui_value node;
  ui_visible := ui_visible node;
  ui_enabled := ui_enabled node;
  ui_focused := ui_focused node;
  ui_accessibility_label :=
    match ui_accessibility_label node with
    | None => Some (ui_label node)
    | label => label
    end;
  ui_accessibility_value :=
    match ui_accessibility_value node with
    | None => ui_value node
    | value => value
    end;
  ui_supported_actions := supported_actions_of (ui_role node) (ui_enabled node);
  ui_bounds := ui_bounds node;
  ui_children := List.map annotate_node_for_agents (ui_children node);
|}.

Definition with_agent_metadata (tree : UiTree) : UiTree :=
  {| tree_screen := tree_screen tree; tree_root := annotate_node_for_agents (tree_root tree) |}.

(** ** Layout *)

Definition set_bounds (r : UiRect) (node : UiNode) : UiNode := {|
  ui_id := ui_id node;
  ui_role := ui_role node;
  ui_label := ui_label node;
  ui_value := ui_value node;
  ui_visible := ui_visible node;
  ui_enabled := ui_enabled node;
  ui_focused := ui_focused node;
  ui_accessibility_label := ui_accessibility_label node;
  ui_accessibility_value := ui_accessibility_value node;
  ui_supported_actions := ui_supported_actions node;
  ui_bounds := Some r;
  ui_children := ui_children node;
|}.

Definition set_children (children : list UiNode) (node : UiNode) : UiNode := {|
  ui_id := ui_id node;
  ui_role := ui_role node;
  ui_label := ui_label node;
  ui_value := ui_value node;
  ui_visible := ui_visible node;
  ui_enabled := ui_enabled node;
  ui_focused := ui_focused node;
  ui_accessibility_label := ui_accessibility_label node;
  ui_accessibility_value := ui_accessibility_value node;
  ui_supported_actions := ui_supported_actions node;
  ui_bounds := ui_bounds node;
  ui_children := children;
|}.

Definition make_rect (x y width height : Z) : UiRect :=
  {| rect_x := x; rect_y := y; rect_width := width; rect_height := height |}.

(** [if let Some(node) = children.iter_mut().find(|node| node.id == id) { .. }];
    [None] when no child has the id. *)
Fixpoint update_child (id : string) (f : UiNode → UiNode) (children : list UiNode)
    : option (list UiNode) :=
  match children with
  | [] => None
  | c :: cs => if ui_id c =s id then Some (f c :: cs) else cons c <$> update_child id f cs
  end.

(** The loop over the banners, with its running [y]. *)
Fixpoint layout_banners (y : Z) (children : list UiNode) : list UiNode * Z :=
  match children with
  | [] => ([], y)
  | c :: cs =>
      if str_in (ui_id c) ["banner.status"; "banner.error"] then
        let c := set_bounds (make_rect 16 y (DEFAULT_VIEWPORT_WIDTH - 32) 44) c in
        let (cs, y') := layout_banners (i32_add y 56) cs in (c :: cs, y')
      else let (cs, y') := layout_banners y cs in (c :: cs, y')
  end.

Definition layout_pairing_screen (children : list UiNode) (y : Z) : list UiNode :=
  (foldl (λ '(children, y) id,
     match update_child id (set_bounds (make_rect 16 y (DEFAULT_VIEWPORT_WIDTH - 32) 52))
             children with
     | Some children => (children, i32_add y 64)
     | None => (children, y)
     end) (children, y)
     ["pair.host"; "pair.port"; "pair.code"; "pair.device_name"; "pair.submit"]).1.

Fixpoint layout_messages (message_y : Z) (children : list UiNode) : list UiNode :=
  match children with
  | [] => []
  | c :: cs => set_bounds (make_rect 24 message_y (DEFAULT_VIEWPORT_WIDTH - 48) 56) c
               :: layout_messages (i32_add message_y 64) cs
  end.

Definition layout_message_list (y : Z) (node : UiNode) : UiNode :=
  let node := set_bounds (make_rect 16 y (DEFAULT_VIEWPORT_WIDTH - 32) (610 - y)) node in
  set_children (layout_messages (i32_add y 8) (ui_children node)) node.

Definition layout_chat_screen (children : list UiNode) (y : Z) : list UiNode :=
  let update id f children := default children (update_child id f children) in
  let children := update "chat.messages" (layout_message_list y) children in
  let children := update "chat.draft"
    (set_bounds (make_rect 16 690 (DEFAULT_VIEWPORT_WIDTH - 32) 52)) children in
  let children := update "chat.send"
    (set_bounds (make_rect (DEFAULT_VIEWPORT_WIDTH - 110) 766 94 44)) children in
  update "chat.interrupt" (set_bounds (make_rect 16 766 120 44)) children.

Definition with_default_layout (tree : UiTree) : UiTree :=
  let root := set_bounds (make_rect 0 0 DEFAULT_VIEWPORT_WIDTH DEFAULT_VIEWPORT_HEIGHT)
                (tree_root tree) in
  let (children, y) := layout_banners 16 (ui_children root) in
  let children :=
    match tree_screen tree with
    | Onboarding | Pairing => layout_pairing_screen children y
    | Chat => layout_chat_screen children y
    end in
  {| tree_screen := tree_screen tree; tree_root := set_children children root |}.

Definition build_ui_tree (state : SimulatorState) : UiTree :=
  let children :=
    banner "banner.status" "Status" (status_message state)
    ++ banner "banner.error" "Error" (error_message state)
    ++ screen_nodes state in
  with_default_layout (with_agent_metadata
    {| tree_screen := screen state;
       tree_root := plain_node "root" UiScreen (screen_debug (screen state)) None true children |}).

(** ** Hit testing *)

(** [iter().rev().find_map(f)]: the result for the last element that has one. *)
Section rev_find_map.
Context {A B : Type} (f : A → option B).
Fixpoint rev_find_map (l : list A) : option B :=
  match l with
  | [] => None
  | x :: l' => match rev_find_map l' with Some y => Some y | None => f x end
  end.
End rev_find_map.

Definition hit_outside (node : UiNode) (x y : Z) : bool :=
  negb (ui_visible node)
  || negb (match ui_bounds node with Some r => contains_point r x y | None => false end).

Fixpoint hit_test_node (node : UiNode) (x y : Z) : option UiNode :=
  if hit_outside node x y then None
  else
    match rev_find_map (λ child, hit_test_node child x y) (ui_children node) with
    | Some hit => Some hit
    | None => Some node
    end.

Fixpoint hit_test_actionable_node (node : UiNode) (x y : Z) (action : UiNodeAction)
    : option UiNode :=
  if hit_outside node x y then None
  else
    match rev_find_map (λ child, hit_test_actionable_node child x y action)
            (ui_children node) with
    | Some hit => Some hit
    | None =>
        if ui_enabled node && bool_decide (action ∈ ui_supported_actions node)
        then Some node else None
    end.

Definition hit_test (tree : UiTree) (x y : Z) : option UiNode := hit_test_node (tree_root tree) x y.

Definition hit_test_actionable (tree : UiTree) (x y : Z) (action : UiNodeAction)
    : option UiNode :=
  hit_test_actionable_node (tree_root tree) x y action.

(** * The UI tree: layout, offered actions and hit testing *)

(** ** Rectangles *)

Definition in_viewport (r : UiRect) : Prop :=
  (0 ≤ rect_x r ∧ 0 ≤ rect_y r ∧ 0 < rect_width r ∧ 0 < rect_height r ∧
   rect_x r + rect_width r ≤ DEFAULT_VIEWPORT_WIDTH ∧
   rect_y r + rect_height r ≤ DEFAULT_VIEWPORT_HEIGHT)%Z.

Definition disjoint_rects (r r' : UiRect) : Prop :=
  ∀ x y, ¬ (contains_point r x y = true ∧ contains_point r' x y = true).

(** [r] lies wholly above or beside [r']. *)
Definition apart (r r' : UiRect) : Prop :=
  (rect_x r + rect_width r ≤ rect_x r' ∨ rect_x r' + rect_width r' ≤ rect_x r ∨
   rect_y r + rect_height r ≤ rect_y r' ∨ rect_y r' + rect_height r' ≤ rect_y r)%Z.

Lemma in_viewport_contains r x y :
  in_viewport r →
  contains_point r x y = true ↔
    (rect_x r ≤ x < rect_x r + rect_width r ∧ rect_y r ≤ y < rect_y r + rect_height r)%Z.
Proof.
  unfold in_viewport, DEFAULT_VIEWPORT_WIDTH, DEFAULT_VIEWPORT_HEIGHT, contains_point.
  intros. rewrite !i32_add_small by (unfold in_i32; lia).
  rewrite !andb_true_iff, !Z.leb_le, !Z.ltb_lt. lia.
Qed.

Lemma center_inside r : in_viewport r → contains_point r (center r).1 (center r).2 = true.
Proof.
  intros H. apply in_viewport_contains; [done|].
  unfold in_viewport, DEFAULT_VIEWPORT_WIDTH, DEFAULT_VIEWPORT_HEIGHT in H.
  unfold center. cbn [fst snd].
  rewrite !Z.quot_div_nonneg by lia.
  pose proof (Z.div_mod (rect_width r) 2). pose proof (Z.mod_pos_bound (rect_width r) 2).
  pose proof (Z.div_mod (rect_height r) 2). pose proof (Z.mod_pos_bound (rect_height r) 2).
  rewrite !i32_add_small by (unfold in_i32; lia). lia.
Qed.

Lemma apart_disjoint r r' :
  in_viewport r → in_viewport r' → apart r r' → disjoint_rects r r'.
Proof.
  intros Hr Hr' Ha x y [H%in_viewport_contains H'%in_viewport_contains]; try done.
  unfold apart in Ha. lia.
Qed.

(** ** Hit testing among siblings *)

Lemma rev_find_map_app {A B} (f : A → option B) l1 l2 :
  rev_find_map f (l1 ++ l2) =
  match rev_find_map f l2 with Some y => Some y | None => rev_find_map f l1 end.
Proof.
  induction l1 as [|x l1 IH]; cbn; [by case_match|]. rewrite IH. by case_match.
Qed.

Lemma rev_find_map_None {A B} (f : A → option B) l :
  Forall (λ x, f x = None) l → rev_find_map f l = None.
Proof. induction 1 as [|x l Hx _ IH]; cbn; [done|]. by rewrite IH. Qed.

Definition inert (node : UiNode) : Prop := ui_supported_actions node = [] ∧ ui_children node = [].

Lemma hit_inert node x y a : inert node → hit_test_actionable_node node x y a = None.
Proof.
  destruct node. intros [H1 H2]. cbn in *. subst. case_match; [done|]. cbn.
  by rewrite andb_false_r.
Qed.

Lemma hit_outside_None node x y a :
  hit_outside node x y = true → hit_test_actionable_node node x y a = None.
Proof. destruct node. cbn. by intros ->. Qed.

(** A node all of whose children are inert answers for itself. *)
Lemma hit_self node x y a :
  hit_outside node x y = false → Forall inert (ui_children node) →
  ui_enabled node = true → a ∈ ui_supported_actions node →
  hit_test_actionable_node node x y a = Some node.
Proof.
  destruct node. cbn. intros Ho Hi -> Ha. rewrite Ho.
  rewrite rev_find_map_None; [by rewrite bool_decide_eq_true_2|].
  eapply Forall_impl; [done|]. intros c Hc. by apply hit_inert.
Qed.

Lemma hit_child node l1 c l2 x y a :
  hit_outside node x y = false → ui_children node = l1 ++ c :: l2 →
  Forall (λ d, hit_outside d x y = true) l2 →
  hit_test_actionable_node c x y a = Some c →
  hit_test_actionable_node node x y a = Some c.
Proof.
  destruct node. cbn. intros Ho -> Hl Hc. rewrite Ho, rev_find_map_app. cbn.
  rewrite rev_find_map_None; [by rewrite Hc|].
  eapply Forall_impl; [done|]. intros d Hd. by apply hit_outside_None.
Qed.

(** ** A well laid out list of siblings *)

Record child_ok (c : UiNode) (r : UiRect) : Prop := {
  co_bounds : ui_bounds c = Some r;
  co_viewport : in_viewport r;
  co_visible : ui_visible c = true;
  co_children : Forall inert (ui_children c);
  co_actions : ui_supported_actions c = supported_actions_of (ui_role c) (ui_enabled c);
}.

Fixpoint siblings_ok (l : list UiNode) : Prop :=
  match l with
  | [] => True
  | c :: l' =>
      (∃ r, child_ok c r ∧
            Forall (λ d, ∃ r', ui_bounds d = Some r' ∧ in_viewport r' ∧ apart r r') l')
      ∧ siblings_ok l'
  end.

Lemma siblings_ok_split l1 c l2 :
  siblings_ok (l1 ++ c :: l2) →
  ∃ r, child_ok c r ∧
       Forall (λ d, ∃ r', ui_bounds d = Some r' ∧ in_viewport r' ∧ disjoint_rects r r') l2.
Proof.
  induction l1 as [|b l1 IH]; cbn; [|naive_solver].
  intros [(r & Hc & Hl) _]. exists r. split; [done|].
  eapply Forall_impl; [done|]. intros d (r' & ? & ? & ?). exists r'.
  split; [done|]. split; [done|]. apply apart_disjoint; [apply Hc|done..].
Qed.

Lemma supported_actions_enabled role enabled a :
  a ∈ supported_actions_of role enabled → enabled = true.
Proof. destruct role, enabled; cbn; set_solver. Qed.

Lemma siblings_hit root l1 c l2 a :
  hit_outside root 0 0 = false → ui_bounds root =
    Some (make_rect 0 0 DEFAULT_VIEWPORT_WIDTH DEFAULT_VIEWPORT_HEIGHT) →
  siblings_ok (ui_children root) → ui_children root = l1 ++ c :: l2 →
  a ∈ ui_supported_actions c →
  ∃ r, ui_bounds c = Some r ∧
       hit_test_actionable_node root (center r).1 (center r).2 a = Some c.
Proof.
  intros Hroot Hb Hs Hl Ha. rewrite Hl in Hs.
  destruct (siblings_ok_split _ _ _ Hs) as (r & [Hcb Hv Hvis Hk Hact] & Hlater).
  exists r. split; [done|]. pose proof (center_inside r Hv) as Hin.
  revert Hin. generalize (center r).1 (center r).2. intros px py Hin.
  eapply hit_child; [|done|..].
  - unfold hit_outside in *. rewrite Hb in *. apply orb_false_iff in Hroot as [-> _]. cbn.
    apply negb_false_iff. apply in_viewport_contains; [done|].
    apply in_viewport_contains in Hin; [|done].
    unfold in_viewport, DEFAULT_VIEWPORT_WIDTH, DEFAULT_VIEWPORT_HEIGHT in *. cbn. lia.
  - eapply Forall_impl; [exact Hlater|]. intros d (r' & Hd & _ & Hdis).
    unfold hit_outside. rewrite Hd. apply orb_true_iff. right. apply negb_true_iff.
    destruct (contains_point r' _ _) eqn:E; [|done]. by destruct (Hdis _ _ (conj Hin E)).
  - rewrite Hact in Ha. apply hit_self; [|done| |by rewrite Hact].
    + unfold hit_outside. by rewrite Hvis, Hcb, Hin.
    + by eapply supported_actions_enabled.
Qed.

(** ** The built tree *)

Lemma annotated_messages_inert y ms :
  Forall inert (layout_messages y (List.map annotate_node_for_agents (imap message_node ms))).
Proof.
  assert (∀ k, Forall inert (List.map annotate_node_for_agents (imap (λ i, message_node (k + i)) ms)))
    as H.
  { induction ms as [|m ms IH]; intros k; cbn; constructor; [done|].
    rewrite (imap_ext _ (λ i, message_node (S k + i))); [apply IH|].
    intros i m' _. cbn. by rewrite Nat.add_succ_r. }
  generalize (H 0 : Forall inert (List.map annotate_node_for_agents (imap message_node ms))).
  generalize (List.map annotate_node_for_agents (imap message_node ms)).
  clear. intros l Hl. revert y. induction Hl as [|n l Hn _ IH]; intros y; cbn; by constructor.
Qed.

(** Arithmetic on the constants of the layout. *)
Ltac solve_rects := unfold in_viewport, apart; vm_compute; intuition discriminate.

(** Places one more sibling; the rows of the messages stay symbolic. *)
Ltac place_sibling :=
  split; [eexists; split;
    [ split; [reflexivity|solve_rects|reflexivity
             |first [by constructor|apply annotated_messages_inert]|reflexivity]
    | repeat first
        [ apply Forall_nil_2
        | apply Forall_cons_2; [eexists; split; [reflexivity|split; solve_rects]|] ] ] | ].

Lemma build_siblings_ok state : siblings_ok (ui_children (tree_root (build_ui_tree state))).
Proof.
  destruct state as [sc co pf sv sel st er ms dr ac ss av mn pr].
  destruct st, er, sc; cbn -[layout_messages imap message_node String.append in_viewport siblings_ok].
  all: cbn [siblings_ok].
  all: repeat place_sibling; done.
Qed.

(** ** Theorems *)

(** The ids of the nodes a tap can be aimed at. *)
Definition tappable (nodes : list UiNode) : list string :=
  ui_id <$> filter (λ c, UiTap ∈ ui_supported_actions c) nodes.

Definition offered_taps (state : SimulatorState) : list string :=
  match screen state with
  | Chat => (if decide (connection_state state = Connected) then ["chat.send"] else [])
            ++ (if is_processing state then ["chat.interrupt"] else [])
  | _ => if decide (connection_state state = Connecting) then [] else ["pair.submit"]
  end.

(** The tree of every state is usable by an agent: its nodes lie inside
    the viewport and do not overlap, every action a node offers reaches that very
    node when aimed at its centre, and taps are offered exactly for the buttons
    the state enables (sending when connected, interrupting while a turn runs,
    submitting the form unless a connection is being made). *)
Theorem ui_tree_correct state :
  let tree := build_ui_tree state in
  let children := ui_children (tree_root tree) in
  (∀ l1 c l2, children = l1 ++ c :: l2 → ∃ r, ui_bounds c = Some r ∧ in_viewport r ∧
     ∀ d, d ∈ l2 → ∃ r', ui_bounds d = Some r' ∧ disjoint_rects r r') ∧
  (∀ c a, c ∈ children → a ∈ ui_supported_actions c → ∃ r, ui_bounds c = Some r ∧
     hit_test_actionable tree (center r).1 (center r).2 a = Some c) ∧
  tappable children = offered_taps state.
Proof.
  cbv zeta. pose proof (build_siblings_ok state) as Hs. split; [|split].
  - intros l1 c l2 Hl. rewrite Hl in Hs.
    destruct (siblings_ok_split _ _ _ Hs) as (r & [Hb Hv _ _ _] & Hlater).
    exists r. split; [done|]. split; [done|]. intros d Hd.
    rewrite Forall_forall in Hlater. destruct (Hlater d Hd) as (r' & ? & _ & ?). eauto.
  - intros c a (l1 & l2 & Hl)%list_elem_of_split Ha.
    eapply siblings_hit; eauto; unfold build_ui_tree, with_default_layout;
      by destruct (layout_banners _ _).
  - unfold tappable, offered_taps.
    destruct state as [sc co pf sv sel st er ms dr ac ss av mn pr].
    destruct st, er, sc, co, pr; reflexivity.
Qed.
