(* ===== verification/DesktopWorkspace.v ===== *)
(** * The desktop workspace ([crates/gcode-desktop/src/workspace.rs])

    Surfaces in lanes (vertical workspaces) and columns, one of them focused,
    a navigation and an insert mode with a draft message. [i32] and [u64]
    arithmetic wraps around; [usize] is [nat]. *)

From S2P Require Import Prelude Utf8 F32.
Open Scope nat_scope.

(** ** Data *)

Inductive InputMode := Navigation | Insert.
Inductive Direction := DirLeft | DirDown | DirUp | DirRight.

#[export] Instance InputMode_eq_dec : EqDecision InputMode.
Proof. solve_decision. Defined.

Definition EMPTY_WORKSPACE_MARGIN : Z := 2.

Inductive PanelSizePreset := Quarter | Half | ThreeQuarter | Full.

(** The [f32] values 0.25, 0.50, 0.75 and 1.00, by their bits. *)
Definition screen_fraction (size : PanelSizePreset) : f32 :=
  match size with
  | Quarter => 0x3e800000
  | Half => 0x3f000000
  | ThreeQuarter => 0x3f400000
  | Full => f32_1_0
  end.

Definition panel_label (size : PanelSizePreset) : string :=
  match size with Quarter => "25%" | Half => "50%" | ThreeQuarter => "75%" | Full => "100%" end.

Definition storage_key (size : PanelSizePreset) : string :=
  match size with
  | Quarter => "quarter"
  | Half => "half"
  | ThreeQuarter => "three_quarter"
  | Full => "full"
  end.

Definition from_storage_key (raw : string) : option PanelSizePreset :=
  if str_in raw ["quarter"; "25"; "25%"] then Some Quarter
  else if str_in raw ["half"; "50"; "50%"] then Some Half
  else if str_in raw ["three_quarter"; "75"; "75%"] then Some ThreeQuarter
  else if str_in raw ["full"; "100"; "100%"] then Some Full
  else None.

Inductive KeyInput :=
| KeyEscape | KeyEnter | KeyBackspace | DeletePreviousWord | DeleteNextWord | DeleteNextChar
| MoveCursorWordLeft | MoveCursorWordRight | MoveCursorLeft | MoveCursorRight
| MoveToLineStart | MoveToLineEnd | DeleteToLineStart | DeleteToLineEnd | UndoInput
| CancelGeneration | ScrollBodyPages (pages : Z) | JumpPrompt (delta : Z) | CopyLatestResponse
| OpenModelPicker | OpenSessionSwitcher | ModelPickerMove (delta : Z) | CycleModel (delta : Z)
| AttachClipboardImage | ClearAttachedImages | PasteText | QueueDraft | SubmitDraft | SpawnPanel
| HotkeyHelp | RefreshSessions | SetPanelSize (size : PanelSizePreset) | Character (text : string)
| KeyOther.

#[export] Instance PanelSizePreset_eq_dec : EqDecision PanelSizePreset.
Proof. solve_decision. Defined.
#[export] Instance KeyInput_eq_dec : EqDecision KeyInput.
Proof. solve_decision. Defined.

Inductive KeyOutcome :=
| OutNone
| OutRedraw
| OutOpenSession (session_id title : string)
| OutSpawnSession
| OutSendDraft (session_id title message : string) (images : list (string * string))
| OutCancelGeneration
| OutCopyLatestResponse (text : string)
| OutLoadModelCatalog
| OutLoadSessionSwitcher
| OutSetModel (model : string)
| OutCycleModel (delta : Z)
| OutSendStdinResponse (request_id input : string)
| OutAttachClipboardImage
| OutPasteText
| OutStartFreshSession (message : string) (images : list (string * string))
| OutExit.

Record SessionCard := {
  sc_session_id : string;
  sc_title : string;
  sc_subtitle : string;
  sc_detail : string;
  sc_preview_lines : list string;
  sc_detail_lines : list string;
}.

Record DesktopPreferences := {
  dp_panel_size : PanelSizePreset;
  dp_focused_session_id : option string;
  dp_workspace_lane : Z;
}.

Record Surface := {
  su_id : Z;
  su_title : string;
  su_body_lines : list string;
  su_detail_lines : list string;
  su_session_id : option string;
  su_lane : Z;
  su_column : Z;
  su_color_index : usize;
}.

Record Workspace := {
  ws_mode : InputMode;
  ws_surfaces : list Surface;
  ws_focused_id : Z;
  ws_zoomed : bool;
  ws_detail_scroll : usize;
  ws_draft : string;
  ws_pending_images : list (string * string);
  ws_panel_size : PanelSizePreset;
  ws_next_id : Z;
}.

(** Assignments to the fields of a [Workspace]. *)

Definition set_mode (v : InputMode) (w : Workspace) : Workspace :=
  {| ws_mode := v; ws_surfaces := ws_surfaces w; ws_focused_id := ws_focused_id w;
     ws_zoomed := ws_zoomed w; ws_detail_scroll := ws_detail_scroll w; ws_draft := ws_draft w;
     ws_pending_images := ws_pending_images w; ws_panel_size := ws_panel_size w;
     ws_next_id := ws_next_id w |}.

Definition set_surfaces (v : list Surface) (w : Workspace) : Workspace :=
  {| ws_mode := ws_mode w; ws_surfaces := v; ws_focused_id := ws_focused_id w;
     ws_zoomed := ws_zoomed w; ws_detail_scroll := ws_detail_scroll w; ws_draft := ws_draft w;
     ws_pending_images := ws_pending_images w; ws_panel_size := ws_panel_size w;
     ws_next_id := ws_next_id w |}.

Definition set_focused_id (v : Z) (w : Workspace) : Workspace :=
  {| ws_mode := ws_mode w; ws_surfaces := ws_surfaces w; ws_focused_id := v;
     ws_zoomed := ws_zoomed w; ws_detail_scroll := ws_detail_scroll w; ws_draft := ws_draft w;
     ws_pending_images := ws_pending_images w; ws_panel_size := ws_panel_size w;
     ws_next_id := ws_next_id w |}.

Definition set_zoomed (v : bool) (w : Workspace) : Workspace :=
  {| ws_mode := ws_mode w; ws_surfaces := ws_surfaces w; ws_focused_id := ws_focused_id w;
     ws_zoomed := v; ws_detail_scroll := ws_detail_scroll w; ws_draft := ws_draft w;
     ws_pending_images := ws_pending_images w; ws_panel_size := ws_panel_size w;
     ws_next_id := ws_next_id w |}.

Definition set_detail_scroll (v : usize) (w : Workspace) : Workspace :=
  {| ws_mode := ws_mode w; ws_surfaces := ws_surfaces w; ws_focused_id := ws_focused_id w;
     ws_zoomed := ws_zoomed w; ws_detail_scroll := v; ws_draft := ws_draft w;
     ws_pending_images := ws_pending_images w; ws_panel_size := ws_panel_size w;
     ws_next_id := ws_next_id w |}.

Definition set_draft (v : string) (w : Workspace) : Workspace :=
  {| ws_mode := ws_mode w; ws_surfaces := ws_surfaces w; ws_focused_id := ws_focused_id w;
     ws_zoomed := ws_zoomed w; ws_detail_scroll := ws_detail_scroll w; ws_draft := v;
     ws_pending_images := ws_pending_images w; ws_panel_size := ws_panel_size w;
     ws_next_id := ws_next_id w |}.

Definition set_pending_images (v : list (string * string)) (w : Workspace) : Workspace :=
  {| ws_mode := ws_mode w; ws_surfaces := ws_surfaces w; ws_focused_id := ws_focused_id w;
     ws_zoomed := ws_zoomed w; ws_detail_scroll := ws_detail_scroll w; ws_draft := ws_draft w;
     ws_pending_images := v; ws_panel_size := ws_panel_size w; ws_next_id := ws_next_id w |}.

Definition set_panel_size (v : PanelSizePreset) (w : Workspace) : Workspace :=
  {| ws_mode := ws_mode w; ws_surfaces := ws_surfaces w; ws_focused_id := ws_focused_id w;
     ws_zoomed := ws_zoomed w; ws_detail_scroll := ws_detail_scroll w; ws_draft := ws_draft w;
     ws_pending_images := ws_pending_images w; ws_panel_size := v; ws_next_id := ws_next_id w |}.

Definition set_next_id (v : Z) (w : Workspace) : Workspace :=
  {| ws_mode := ws_mode w; ws_surfaces := ws_surfaces w; ws_focused_id := ws_focused_id w;
     ws_zoomed := ws_zoomed w; ws_detail_scroll := ws_detail_scroll w; ws_draft := ws_draft w;
     ws_pending_images := ws_pending_images w; ws_panel_size := ws_panel_size w;
     ws_next_id := v |}.

(** ** Machine arithmetic *)

Definition i32_sub (a b : Z) : Z := wrap_s 32 (a - b).
Definition i32_abs (a : Z) : Z := wrap_s 32 (Z.abs a).

(** ** Iterators *)

(** The order of [(i32, u64)] pairs. *)
Definition pair_ltb (a b : Z * Z) : bool :=
  (a.1 <? b.1)%Z || ((a.1 =? b.1)%Z && (a.2 <? b.2)%Z).

(** ** Surfaces *)

Definition surface_new (id : Z) (title : string) (lane column : Z) (color_index : usize)
    : Surface := {|
  su_id := id;
  su_title := title;
  su_body_lines := [];
  su_detail_lines := [];
  su_session_id := None;
  su_lane := lane;
  su_column := column;
  su_color_index := color_index;
|}.

Definition surface_session (id : Z) (card : SessionCard) (lane column : Z) (color_index : usize)
    : Surface :=
  let body_lines := [sc_subtitle card; sc_detail card] in
  let body_lines :=
    match sc_preview_lines card with
    | [] => body_lines
    | lines => body_lines ++ ["recent transcript"] ++ lines
    end in
  let detail_lines := "session metadata" :: take 2 body_lines in
  let detail_lines :=
    match sc_detail_lines card with
    | [] => detail_lines
    | lines => detail_lines ++ ["expanded transcript"] ++ lines
    end in
  {| su_id := id;
     su_title := sc_title card;
     su_body_lines := body_lines;
     su_detail_lines := detail_lines;
     su_session_id := Some (sc_session_id card);
     su_lane := lane;
     su_column := column;
     su_color_index := color_index |}.

Definition is_placeholder_workspace (surface : Surface) : bool :=
  su_title surface =s "workspace " +:+ pretty (su_lane surface).

Definition set_lane (v : Z) (s : Surface) : Surface :=
  {| su_id := su_id s; su_title := su_title s; su_body_lines := su_body_lines s;
     su_detail_lines := su_detail_lines s; su_session_id := su_session_id s; su_lane := v;
     su_column := su_column s; su_color_index := su_color_index s |}.

Definition set_column (v : Z) (s : Surface) : Surface :=
  {| su_id := su_id s; su_title := su_title s; su_body_lines := su_body_lines s;
     su_detail_lines := su_detail_lines s; su_session_id := su_session_id s;
     su_lane := su_lane s; su_column := v; su_color_index := su_color_index s |}.

Definition set_body_lines (v : list string) (s : Surface) : Surface :=
  {| su_id := su_id s; su_title := su_title s; su_body_lines := v;
     su_detail_lines := su_detail_lines s; su_session_id := su_session_id s;
     su_lane := su_lane s; su_column := su_column s; su_color_index := su_color_index s |}.

(** ** Construction *)

Definition empty_sessions : Workspace := {|
  ws_mode := Navigation;
  ws_surfaces := [{|
    su_id := 1;
    su_title := "no gcode sessions found";
    su_body_lines := ["start a session in the tui"; "then restart this desktop prototype"];
    su_detail_lines := [];
    su_session_id := None;
    su_lane := 0;
    su_column := 0;
    su_color_index := 0 |}];
  ws_focused_id := 1;
  ws_zoomed := false;
  ws_detail_scroll := 0;
  ws_draft := "";
  ws_pending_images := [];
  ws_panel_size := Quarter;
  ws_next_id := 2;
|}.

(** The surfaces of the cards from number [index] on, and the next free id. *)
Fixpoint card_surfaces (index : usize) (next_id : Z) (cards : list SessionCard)
    : list Surface * Z :=
  match cards with
  | [] => ([], next_id)
  | card :: cards' =>
      let (surfaces, next) := card_surfaces (S index) (u64_succ next_id) cards' in
      (surface_session next_id card 0 (wrap_s 32 (Z.of_nat index)) index :: surfaces, next)
  end.

Definition from_session_cards (cards : list SessionCard) : Workspace :=
  match cards with
  | [] => empty_sessions
  | _ =>
      let (surfaces, next_id) := card_surfaces 0 1 cards in
      {| ws_mode := Navigation;
         ws_surfaces := surfaces;
         ws_focused_id := from_option su_id 1%Z (head surfaces);
         ws_zoomed := false;
         ws_detail_scroll := 0;
         ws_draft := "";
         ws_pending_images := [];
         ws_panel_size := Quarter;
         ws_next_id := next_id |}
  end.

(** ** Queries *)

Definition focused_surface (w : Workspace) : option Surface :=
  List.find (λ surface, su_id surface =? ws_focused_id w)%Z (ws_surfaces w).

Definition focused_index (w : Workspace) : option usize :=
  position (λ surface, su_id surface =? ws_focused_id w)%Z (ws_surfaces w).

Definition current_workspace (w : Workspace) : Z := from_option su_lane 0%Z (focused_surface w).

Definition focused_session_id (w : Workspace) : option string :=
  focused_surface w ≫= su_session_id.

Definition focused_session_target (w : Workspace) : option (string * string) :=
  surface ← focused_surface w; id ← su_session_id surface; Some (id, su_title surface).

Definition focused_detail_line_count (w : Workspace) : usize :=
  from_option (λ surface, length (su_detail_lines surface)) 0 (focused_surface w).

Definition max_detail_scroll (w : Workspace) : usize := focused_detail_line_count w - 1.

Definition preferred_panel_screen_fraction (w : Workspace) : f32 :=
  screen_fraction (ws_panel_size w).

Definition preferences (w : Workspace) : DesktopPreferences := {|
  dp_panel_size := ws_panel_size w;
  dp_focused_session_id := focused_session_id w;
  dp_workspace_lane := current_workspace w;
|}.

Definition occupied_lane_bounds (w : Workspace) : Z * Z :=
  let occupied := filter (λ surface, is_placeholder_workspace surface = false) (ws_surfaces w) in
  default (current_workspace w, current_workspace w)
    (foldl (λ bounds lane,
       match bounds with
       | Some (lo, hi) => Some (lo `min` lane, hi `max` lane)%Z
       | None => Some (lane, lane)
       end) None (su_lane <$> occupied)).

Definition is_lane_navigable (w : Workspace) (lane : Z) : bool :=
  let (lo, hi) := occupied_lane_bounds w in
  (i32_sub lo EMPTY_WORKSPACE_MARGIN <=? lane)%Z && (lane <=? i32_add hi EMPTY_WORKSPACE_MARGIN)%Z.

Definition in_direction (direction : Direction) (current_column : Z) (surface : Surface) : bool :=
  match direction with
  | DirLeft => (su_column surface <? current_column)%Z
  | DirRight => (current_column <? su_column surface)%Z
  | DirUp | DirDown => false
  end.

(** The key [((surface.column - column).abs(), surface.id)]. *)
Definition column_distance (column : Z) (surface : Surface) : Z * Z :=
  (i32_abs (i32_sub (su_column surface) column), su_id surface).

Definition nearest_column (column : Z) (l : list Surface) : option Surface :=
  min_by (λ a b, pair_ltb (column_distance column a) (column_distance column b)) l.

Definition column_neighbor_id (w : Workspace) (direction : Direction) : option Z :=
  current ← focused_surface w;
  su_id <$> nearest_column (su_column current)
    (filter (λ surface, in_direction direction (su_column current) surface = true)
       (filter (λ surface, su_lane surface = su_lane current) (ws_surfaces w))).

Definition hotkey_help_lines (w : Workspace) : list string :=
  match ws_mode w with
  | Navigation =>
      ["NAV mode"; "h l focus columns"; "j k focus workspaces"; "H L swap columns";
       "J K move panel workspaces"; "ctrl 1 2 3 4 panel width"; "ctrl r refresh sessions";
       "ctrl semicolon new panel"; "ctrl slash help"; "x close panel  z zoom"]
      ++ match focused_session_target w with
         | Some _ => ["o or enter open session"; "zoomed j k scroll detail";
                      "zoomed g G top bottom"]
         | None => ["enter insert mode"]
         end
      ++ ["i insert  esc quit"]
  | Insert =>
      ["INSERT mode"; "type appends draft text"; "ctrl enter send draft"; "enter newline";
       "backspace delete char"; "esc nav mode"; "ctrl r refresh sessions";
       "ctrl semicolon new panel"; "ctrl v paste text or image"; "ctrl i attach clipboard image";
       "ctrl shift i clear images"; "ctrl slash help"]
  end.

(** ** Focus and surfaces *)

(** [self.zoomed = false; self.detail_scroll = 0;] after a change of focus. *)
Definition focus_on (id : Z) (w : Workspace) : Workspace :=
  set_detail_scroll 0 (set_zoomed false (set_focused_id id w)).

Definition push_surface (surface : Surface) (w : Workspace) : Workspace :=
  set_surfaces (ws_surfaces w ++ [surface]) w.

Definition ensure_workspace_surface (lane preferred_column : Z) (w : Workspace) : Workspace * Z :=
  match nearest_column preferred_column
          (filter (λ surface, su_lane surface = lane) (ws_surfaces w)) with
  | Some surface => (w, su_id surface)
  | None =>
      let id := ws_next_id w in
      let w := set_next_id (u64_succ id) w in
      (push_surface (surface_new id ("workspace " +:+ pretty lane) lane preferred_column
                       (Z.to_nat id)) w, id)
  end.

Definition focus_column (direction : Direction) (w : Workspace) : Workspace * bool :=
  match column_neighbor_id w direction with
  | Some next_id => (set_detail_scroll 0 (set_focused_id next_id w), true)
  | None => (w, false)
  end.

Definition focus_lane (target_lane column : Z) (w : Workspace) : Workspace :=
  let (w, target_id) := ensure_workspace_surface target_lane column w in
  focus_on target_id w.

Definition lane_delta (direction : Direction) : option Z :=
  match direction with
  | DirUp => Some (-1)%Z
  | DirDown => Some 1%Z
  | DirLeft | DirRight => None
  end.

Definition focus_workspace (direction : Direction) (w : Workspace) : Workspace * bool :=
  match focused_surface w with
  | None => (w, false)
  | Some current =>
      match lane_delta direction with
      | None => (w, false)
      | Some delta =>
          let target_lane := i32_add (su_lane current) delta in
          if negb (is_lane_navigable w target_lane) then (w, false)
          else (focus_lane target_lane (su_column current) w, true)
      end
  end.

Definition move_focused_column (direction : Direction) (w : Workspace) : Workspace * bool :=
  match focused_index w, direction with
  | Some focused, (DirLeft | DirRight) =>
      match column_neighbor_id w direction with
      | Some neighbor_id =>
          match position (λ surface, su_id surface =? neighbor_id)%Z (ws_surfaces w) with
          | Some neighbor =>
              match ws_surfaces w !! focused, ws_surfaces w !! neighbor with
              | Some f, Some n =>
                  let surfaces := alter (set_column (su_column n)) focused (ws_surfaces w) in
                  let surfaces := alter (set_column (su_column f)) neighbor surfaces in
                  (set_detail_scroll 0 (set_surfaces surfaces w), true)
              | _, _ => (w, false)
              end
          | None => (w, false)
          end
      | None => (w, false)
      end
  | _, _ => (w, false)
  end.

Definition move_focused_workspace (direction : Direction) (w : Workspace) : Workspace * bool :=
  match focused_index w, lane_delta direction with
  | Some focused, Some delta =>
      let surfaces := alter (λ s, set_lane (i32_add (su_lane s) delta) s) focused (ws_surfaces w) in
      (set_detail_scroll 0 (set_zoomed false (set_surfaces surfaces w)), true)
  | _, _ => (w, false)
  end.

(** The column after the last one of a lane. *)
Definition next_column (w : Workspace) (lane : Z) : Z :=
  let columns := su_column <$> filter (λ surface, su_lane surface = lane) (ws_surfaces w) in
  let last := match columns with [] => (-1)%Z | c :: cs => foldl Z.max c cs end in
  i32_add last 1.

Definition push_focused (surface : Surface) (w : Workspace) : Workspace :=
  focus_on (su_id surface) (push_surface surface (set_next_id (u64_succ (ws_next_id w)) w)).

Definition add_surface (w : Workspace) : Workspace :=
  let lane := current_workspace w in
  let column := next_column w lane in
  let id := ws_next_id w in
  push_focused (surface_new id ("new session " +:+ pretty id) lane column (Z.to_nat id)) w.

Definition open_hotkey_help (w : Workspace) : Workspace :=
  let lane := current_workspace w in
  let body_lines := hotkey_help_lines w in
  match position (λ s, bool_decide (su_lane s = lane) && (su_title s =s "hotkey help"))
          (ws_surfaces w) with
  | Some index =>
      let surfaces := alter (set_body_lines body_lines) index (ws_surfaces w) in
      focus_on (from_option su_id 0%Z (surfaces !! index)) (set_surfaces surfaces w)
  | None =>
      let column := next_column w lane in
      let id := ws_next_id w in
      push_focused (set_body_lines body_lines
                      (surface_new id "hotkey help" lane column (Z.to_nat id))) w
  end.

Definition close_focused (w : Workspace) : Workspace * bool :=
  if length (ws_surfaces w) <=? 1 then (w, false)
  else
    match focused_index w with
    | None => (w, false)
    | Some index =>
        let lane := from_option su_lane 0%Z (ws_surfaces w !! index) in
        let surfaces := delete index (ws_surfaces w) in
        let w := set_surfaces surfaces w in
        match min_by (λ a b, i32_abs (su_column a) <? i32_abs (su_column b))%Z
                (filter (λ surface, su_lane surface = lane) surfaces) with
        | Some surface => (focus_on (su_id surface) w, true)
        | None =>
            let new_position := index `min` (length surfaces - 1) in
            (focus_on (from_option su_id 0%Z (surfaces !! new_position)) w, true)
        end
    end.

(** ** Scrolling *)

Definition scroll_detail (delta : Z) (w : Workspace) : Workspace * bool :=
  let max_scroll := max_detail_scroll w in
  let next :=
    (if (delta <? 0)%Z then ws_detail_scroll w - Z.abs_nat delta
     else ws_detail_scroll w + Z.to_nat delta) `min` max_scroll in
  if next =? ws_detail_scroll w then (w, false) else (set_detail_scroll next w, true).

Definition scroll_detail_to_top (w : Workspace) : Workspace * bool :=
  if ws_detail_scroll w =? 0 then (w, false) else (set_detail_scroll 0 w, true).

Definition scroll_detail_to_bottom (w : Workspace) : Workspace * bool :=
  let max_scroll := max_detail_scroll w in
  if ws_detail_scroll w =? max_scroll then (w, false) else (set_detail_scroll max_scroll w, true).

Definition clamp_detail_scroll (w : Workspace) : Workspace :=
  set_detail_scroll (ws_detail_scroll w `min` max_detail_scroll w) w.

(** ** The draft *)

(** [String::pop], for its effect. *)
Definition str_pop (s : string) : string := str_concat (List.removelast (chars s)).

(** The two loops of pops. *)
Definition delete_previous_word (text : string) : string :=
  str_concat (drop_while_end (λ c, negb (is_whitespace c))
                (drop_while_end is_whitespace (chars text))).

Definition paste_text (text : string) (w : Workspace) : Workspace * bool :=
  if negb (bool_decide (ws_mode w = Insert)) || (text =s "") then (w, false)
  else (set_draft (ws_draft w +:+ text) w, true).

Definition attach_image (media_type base64_data : string) (w : Workspace) : Workspace * bool :=
  if negb (bool_decide (ws_mode w = Insert)) then (w, false)
  else (set_pending_images (ws_pending_images w ++ [(media_type, base64_data)]) w, true).

Definition clear_attached_images (w : Workspace) : Workspace * bool :=
  match ws_pending_images w with
  | [] => (w, false)
  | _ => (set_pending_images [] w, true)
  end.

Definition submit_draft (w : Workspace) : Workspace * KeyOutcome :=
  let message := trim (ws_draft w) in
  if (message =s "") && bool_decide (ws_pending_images w = []) then (w, OutNone)
  else
    match focused_session_target w with
    | None => (w, OutNone)
    | Some (session_id, title) =>
        let images := ws_pending_images w in
        let w := set_pending_images [] w in
        let w := set_draft "" w in
        let w := set_mode Navigation w in
        (w, OutSendDraft session_id title message images)
    end.

(** ** Keys *)

(** [impl From<bool> for KeyOutcome] *)
Definition outcome_of (r : Workspace * bool) : Workspace * KeyOutcome :=
  (r.1, if r.2 then OutRedraw else OutNone).

(** Opens the focused session, or calls [otherwise]. *)
Definition open_or (w : Workspace) (otherwise : Workspace * KeyOutcome) : Workspace * KeyOutcome :=
  match focused_session_target w with
  | Some (session_id, title) => (w, OutOpenSession session_id title)
  | None => otherwise
  end.

Definition navigation_character (text : string) (w : Workspace) : Workspace * KeyOutcome :=
  let scrolls := ws_zoomed w && (0 <? focused_detail_line_count w) in
  if text =s "h" then outcome_of (focus_column DirLeft w)
  else if (text =s "j") && scrolls then outcome_of (scroll_detail 1 w)
  else if (text =s "k") && scrolls then outcome_of (scroll_detail (-1) w)
  else if text =s "j" then outcome_of (focus_workspace DirDown w)
  else if text =s "k" then outcome_of (focus_workspace DirUp w)
  else if text =s "l" then outcome_of (focus_column DirRight w)
  else if (text =s "g") && scrolls then outcome_of (scroll_detail_to_top w)
  else if (text =s "G") && scrolls then outcome_of (scroll_detail_to_bottom w)
  else if str_in text ["o"; "O"] then open_or w (w, OutNone)
  else if text =s "H" then outcome_of (move_focused_column DirLeft w)
  else if text =s "J" then outcome_of (move_focused_workspace DirDown w)
  else if text =s "K" then outcome_of (move_focused_workspace DirUp w)
  else if text =s "L" then outcome_of (move_focused_column DirRight w)
  else if text =s "i" then (set_mode Insert w, OutRedraw)
  else if text =s "n" then (add_surface w, OutRedraw)
  else if text =s "x" then outcome_of (close_focused w)
  else if text =s "z" then
    (set_detail_scroll 0 (set_zoomed (negb (ws_zoomed w)) w), OutRedraw)
  else (w, OutNone).

Definition handle_navigation_key (key : KeyInput) (w : Workspace) : Workspace * KeyOutcome :=
  match key with
  | SpawnPanel => (w, OutSpawnSession)
  | HotkeyHelp => (open_hotkey_help w, OutRedraw)
  | RefreshSessions => (w, OutRedraw)
  | SetPanelSize size => (set_panel_size size w, OutRedraw)
  | SubmitDraft | KeyEnter => open_or w (set_mode Insert w, OutRedraw)
  | CancelGeneration | ScrollBodyPages _ | CycleModel _ | OpenModelPicker | OpenSessionSwitcher
  | ModelPickerMove _ | AttachClipboardImage | ClearAttachedImages | PasteText | QueueDraft =>
      (w, OutNone)
  | KeyEscape => (w, OutExit)
  | Character text => navigation_character text w
  | _ => (w, OutNone)
  end.

Definition handle_insert_key (key : KeyInput) (w : Workspace) : Workspace * KeyOutcome :=
  match key with
  | SpawnPanel => (w, OutSpawnSession)
  | HotkeyHelp => (open_hotkey_help w, OutRedraw)
  | RefreshSessions => (w, OutRedraw)
  | SetPanelSize size => (set_panel_size size w, OutRedraw)
  | SubmitDraft | QueueDraft => submit_draft w
  | KeyEscape => (set_mode Navigation w, OutRedraw)
  | KeyEnter => (set_draft (ws_draft w +:+ nl) w, OutRedraw)
  | KeyBackspace => (set_draft (str_pop (ws_draft w)) w, OutRedraw)
  | DeletePreviousWord => (set_draft (delete_previous_word (ws_draft w)) w, OutRedraw)
  | DeleteToLineStart => (set_draft "" w, OutRedraw)
  | AttachClipboardImage => (w, OutAttachClipboardImage)
  | ClearAttachedImages => outcome_of (clear_attached_images w)
  | DeleteNextChar | DeleteNextWord | MoveCursorLeft | MoveCursorRight | MoveCursorWordLeft
  | MoveCursorWordRight | MoveToLineStart | MoveToLineEnd | DeleteToLineEnd | UndoInput
  | CancelGeneration | ScrollBodyPages _ | JumpPrompt _ | CopyLatestResponse | OpenModelPicker
  | OpenSessionSwitcher | ModelPickerMove _ | CycleModel _ => (w, OutNone)
  | PasteText => (w, OutPasteText)
  | Character text => (set_draft (ws_draft w +:+ text) w, OutRedraw)
  | KeyOther => (w, OutNone)
  end.

Definition handle_key (key : KeyInput) (w : Workspace) : Workspace * KeyOutcome :=
  match ws_mode w with
  | Navigation => handle_navigation_key key w
  | Insert => handle_insert_key key w
  end.

(** ** Refreshing the sessions, preferences *)

Definition find_session (session_id : string) (w : Workspace) : option Surface :=
  List.find (λ surface, bool_decide (su_session_id surface = Some session_id)) (ws_surfaces w).

Definition replace_session_cards (cards : list SessionCard) (w : Workspace) : Workspace :=
  let replacement := from_session_cards cards in
  let replacement := set_mode (ws_mode w) replacement in
  let replacement := set_panel_size (ws_panel_size w) replacement in
  let replacement := set_detail_scroll (ws_detail_scroll w) replacement in
  let replacement := set_draft (ws_draft w) replacement in
  let replacement := set_pending_images (ws_pending_images w) replacement in
  let replacement :=
    match focused_session_id w with
    | Some session_id =>
        match find_session session_id replacement with
        | Some surface => set_focused_id (su_id surface) replacement
        | None => replacement
        end
    | None => replacement
    end in
  clamp_detail_scroll replacement.

Definition apply_preferences (prefs : DesktopPreferences) (w : Workspace) : Workspace :=
  let w := set_panel_size (dp_panel_size prefs) w in
  match dp_focused_session_id prefs ≫= λ session_id, find_session session_id w with
  | Some surface => focus_on (su_id surface) w
  | None =>
      if is_lane_navigable w (dp_workspace_lane prefs)
      then focus_lane (dp_workspace_lane prefs) 0 w
      else w
  end.

(** ** The status line *)

Definition status_title (w : Workspace) : string :=
  let mode := match ws_mode w with Navigation => "NAV" | Insert => "INSERT" end in
  let zoom := if ws_zoomed w then " · ZOOM" else "" in
  let focused := from_option su_title "no surface" (focused_surface w) in
  let workspace := pretty (current_workspace w) in
  let panel_size := panel_label (ws_panel_size w) in
  match ws_mode w with
  | Navigation =>
      "Jcode Desktop · " +:+ mode +:+ zoom +:+ " · workspace " +:+ workspace +:+ " · panel "
      +:+ panel_size +:+ " · " +:+ focused +:+
      (if ws_zoomed w
       then " · j/k scroll · g/G top/bottom · z unzoom · o/Enter open · Esc quit"
       else " · h/l columns · j/k workspaces · Ctrl+1-4 panel size · Ctrl+R refresh · Ctrl+; new · Ctrl+? help · z zoom · i insert · Esc quit")
  | Insert =>
      let images :=
        match length (ws_pending_images w) with
        | 0 => ""
        | 1 => " · 1 image"
        | count => " · " +:+ pretty count +:+ " images"
        end in
      "Jcode Desktop · " +:+ mode +:+ zoom +:+ " · workspace " +:+ workspace +:+ " · "
      +:+ focused +:+ images
      +:+ " · Enter send · Shift+Enter newline · Ctrl+I image · Esc NAV"
  end.
