(* ===== verification/DesktopWorkspaceTheorems.v ===== *)
(** * The desktop workspace: invariant, drafts and navigation *)

From S2P Require Import Prelude Utf8 DesktopWorkspace.
Open Scope nat_scope.

(** ** The invariant *)

(** Ids of surfaces: distinct, and below the next id. *)
Definition ids_ok (surfaces : list Surface) (next_id : Z) : Prop :=
  NoDup (su_id <$> surfaces) ∧ ∀ id, id ∈ su_id <$> surfaces → (id < next_id)%Z.

Record ws_wf (w : Workspace) : Prop := {
  wf_ids : ids_ok (ws_surfaces w) (ws_next_id w);
  wf_focus : ws_focused_id w ∈ su_id <$> ws_surfaces w;
}.

Record ws_ok (w : Workspace) : Prop := {
  ok_wf : ws_wf w;
  ok_scroll : ws_detail_scroll w ≤ max_detail_scroll w;
}.

(** The counter of ids has room for one more. *)
Definition room (w : Workspace) : Prop := (0 ≤ ws_next_id w)%Z ∧ (ws_next_id w + 1 < 2 ^ 64)%Z.

(** [w'] uses at most one new id. *)
Definition uses_one (w w' : Workspace) : Prop :=
  (ws_next_id w ≤ ws_next_id w' ≤ ws_next_id w + 1)%Z.

(** What an operation on a good workspace guarantees. *)
Definition keeps (w w' : Workspace) : Prop := ws_ok w' ∧ uses_one w w'.

Lemma uses_none w w' : ws_next_id w' = ws_next_id w → uses_one w w'.
Proof. unfold uses_one. lia. Qed.

Lemma ids_ok_push surfaces next s :
  ids_ok surfaces next → su_id s = next → (0 ≤ next)%Z → (next + 1 < 2 ^ 64)%Z →
  ids_ok (surfaces ++ [s]) (u64_succ next).
Proof.
  intros [Hnd Hlt] Hs H0 H1. unfold ids_ok. rewrite u64_succ_small, fmap_app by done. cbn.
  split.
  - apply NoDup_app. split; [done|]. split; [|apply NoDup_singleton].
    intros x Hx ->%list_elem_of_singleton. specialize (Hlt _ Hx). lia.
  - intros id [Hid| ->%list_elem_of_singleton]%elem_of_app; [specialize (Hlt _ Hid)|]; lia.
Qed.

Lemma focused_surface_is_Some w :
  ws_wf w → ∃ s, focused_surface w = Some s ∧ s ∈ ws_surfaces w ∧ su_id s = ws_focused_id w.
Proof.
  intros [_ (s & Hid & Hs)%list_elem_of_fmap]. unfold focused_surface.
  destruct (find_is_Some (λ surface, su_id surface =? ws_focused_id w)%Z _ s Hs) as [t Ht].
  { cbn. by apply Z.eqb_eq. }
  exists t. split; [done|]. apply find_Some_elem in Ht as [Ht Heq]. split; [done|].
  by apply Z.eqb_eq.
Qed.

Lemma focus_on_wf id w : ids_ok (ws_surfaces w) (ws_next_id w) →
  id ∈ su_id <$> ws_surfaces w → ws_ok (focus_on id w).
Proof. intros. split; [by split|cbn; lia]. Qed.

Lemma set_scroll_0_ok w : ws_wf w → ws_ok (set_detail_scroll 0 w).
Proof. intros [??]. split; [by split|cbn; lia]. Qed.

(** Fields that the invariant does not look at. *)
Lemma same_core_ok w w' :
  ws_surfaces w' = ws_surfaces w → ws_focused_id w' = ws_focused_id w →
  ws_detail_scroll w' = ws_detail_scroll w → ws_next_id w' = ws_next_id w →
  ws_ok w → keeps w w'.
Proof.
  intros Hs Hf Hd Hn [[??] Hsc]. split; [|unfold uses_one; lia].
  unfold max_detail_scroll, focused_detail_line_count, focused_surface in *.
  split; [split; congruence|]. unfold max_detail_scroll, focused_detail_line_count, focused_surface.
  by rewrite Hs, Hf, Hd.
Qed.

Lemma keeps_refl w : ws_ok w → keeps w w.
Proof. by apply same_core_ok. Qed.

Lemma nearest_column_elem column l s : nearest_column column l = Some s → s ∈ l.
Proof. apply min_by_Some. Qed.

Lemma elem_of_ids s w : s ∈ ws_surfaces w → su_id s ∈ su_id <$> ws_surfaces w.
Proof. apply list_elem_of_fmap_2. Qed.

Lemma column_neighbor_elem w d id :
  column_neighbor_id w d = Some id → id ∈ su_id <$> ws_surfaces w.
Proof.
  unfold column_neighbor_id. intros (current & _ & H)%bind_Some.
  apply fmap_Some in H as (s & Hs%nearest_column_elem & ->).
  apply list_elem_of_filter in Hs as [_ [_ Hs]%list_elem_of_filter]. by apply elem_of_ids.
Qed.

Lemma ids_ok_alter surfaces next f i :
  (∀ s, su_id (f s) = su_id s) → ids_ok surfaces next → ids_ok (alter f i surfaces) next.
Proof. intros Hf. unfold ids_ok. by rewrite (fmap_alter_id su_id f). Qed.

(** ** Operations *)

Lemma focus_column_ok d w : ws_ok w → keeps w (focus_column d w).1.
Proof.
  intros H. unfold focus_column. destruct (column_neighbor_id w d) as [id|] eqn:E;
    [|by apply keeps_refl].
  apply column_neighbor_elem in E. destruct H as [[Hi _] _]. split; [|by apply uses_none].
  split; [by split|cbn; lia].
Qed.

Lemma ensure_ok lane column w :
  ids_ok (ws_surfaces w) (ws_next_id w) → room w →
  let '(w', id) := ensure_workspace_surface lane column w in
  ids_ok (ws_surfaces w') (ws_next_id w') ∧ id ∈ su_id <$> ws_surfaces w' ∧ uses_one w w'.
Proof.
  intros Hi [H0 H1]. unfold ensure_workspace_surface.
  destruct (nearest_column column _) as [s|] eqn:E.
  - apply nearest_column_elem, list_elem_of_filter in E as [_ E].
    split; [done|]. split; [by apply elem_of_ids|by apply uses_none].
  - cbn. split; [by apply ids_ok_push|]. split.
    + rewrite fmap_app, elem_of_app. cbn. set_solver.
    + unfold uses_one. cbn. rewrite u64_succ_small by done. lia.
Qed.

Lemma focus_lane_ok lane column w :
  ids_ok (ws_surfaces w) (ws_next_id w) → room w → keeps w (focus_lane lane column w).
Proof.
  intros Hi Hr. unfold focus_lane. pose proof (ensure_ok lane column w Hi Hr) as H.
  destruct (ensure_workspace_surface lane column w) as [w' id]. destruct H as (? & ? & ?).
  split; [by apply focus_on_wf|done].
Qed.

Lemma focus_workspace_ok d w : ws_ok w → room w → keeps w (focus_workspace d w).1.
Proof.
  intros H Hr. unfold focus_workspace.
  repeat case_match; try (by apply keeps_refl). apply focus_lane_ok; [apply H|done].
Qed.

Lemma alter_scroll_ok f i w z :
  (∀ s, su_id (f s) = su_id s) → ws_wf w →
  keeps w (set_detail_scroll 0 (set_zoomed z (set_surfaces (alter f i (ws_surfaces w)) w))).
Proof.
  intros Hf [Hi Hfo]. split; [|by apply uses_none]. split; [|cbn; lia].
  split; cbn; [by apply ids_ok_alter|by rewrite (fmap_alter_id su_id f)].
Qed.

Lemma move_focused_workspace_ok d w : ws_ok w → keeps w (move_focused_workspace d w).1.
Proof.
  intros H. unfold move_focused_workspace.
  repeat case_match; try (by apply keeps_refl). by apply alter_scroll_ok; [|apply H].
Qed.

Lemma move_focused_column_ok d w : ws_ok w → keeps w (move_focused_column d w).1.
Proof.
  intros H. unfold move_focused_column.
  repeat case_match; try (by apply keeps_refl).
  all: split; [|by apply uses_none]; destruct H as [[Hi Hf] _]; split; [|cbn; lia].
  all: split; cbn; [by repeat apply ids_ok_alter|by rewrite !(fmap_alter_id su_id)].
Qed.

Lemma push_focused_ok s w : ws_ok w → room w → su_id s = ws_next_id w → keeps w (push_focused s w).
Proof.
  intros [[Hi _] _] [H0 H1] Hs. split.
  - apply focus_on_wf; cbn; [by apply ids_ok_push|].
    rewrite fmap_app, elem_of_app. cbn. set_solver.
  - unfold uses_one. cbn. rewrite u64_succ_small by done. lia.
Qed.

Lemma add_surface_ok w : ws_ok w → room w → keeps w (add_surface w).
Proof. intros. by apply push_focused_ok. Qed.

Lemma open_hotkey_help_ok w : ws_ok w → room w → keeps w (open_hotkey_help w).
Proof.
  intros H Hr. unfold open_hotkey_help. case_match eqn:E; [|by apply push_focused_ok].
  apply position_lookup in E as (s & Hs & _). split; [|by apply uses_none].
  apply focus_on_wf; cbn; [apply ids_ok_alter; [done|apply H]|].
  rewrite list_lookup_alter_eq, Hs. cbn. rewrite (fmap_alter_id su_id) by done.
  apply (elem_of_ids s). by eapply list_elem_of_lookup_2.
Qed.

Lemma close_focused_ok w : ws_ok w → keeps w (close_focused w).1.
Proof.
  intros H. unfold close_focused. destruct (Nat.leb_spec (length (ws_surfaces w)) 1) as [|Hlen];
    [by apply keeps_refl|].
  destruct (focused_index w) as [i|] eqn:Ei; [|by apply keeps_refl].
  apply position_lookup in Ei as (s & Hs & _).
  destruct H as [[[Hnd Hlt] _] _].
  assert (ids_ok (delete i (ws_surfaces w)) (ws_next_id w)) as Hids.
  { split; [|intros id Hid; apply Hlt];
      [eapply sublist_NoDup; [exact Hnd|]|
       eapply elem_of_submseteq; [exact Hid|apply sublist_submseteq]];
      apply fmap_sublist, sublist_delete. }
  split; [|by apply uses_none; case_match]. cbn zeta.
  destruct (min_by _ _) as [t|] eqn:Em; apply focus_on_wf; cbn; try done.
  - apply min_by_Some, list_elem_of_filter in Em as [_ Em]. by apply list_elem_of_fmap_2.
  - assert (length (delete i (ws_surfaces w)) = length (ws_surfaces w) - 1) as Hl.
    { apply length_delete. by eexists. }
    destruct (lookup_lt_is_Some_2 (delete i (ws_surfaces w))
      (i `min` (length (delete i (ws_surfaces w)) - 1))) as [t Ht]; [lia|].
    rewrite Ht. cbn. by eapply list_elem_of_fmap_2, list_elem_of_lookup_2.
Qed.

Lemma set_scroll_ok n w : ws_ok w → n ≤ max_detail_scroll w → keeps w (set_detail_scroll n w).
Proof. intros [[??] _] Hn. split; [split; [by split|exact Hn]|by apply uses_none]. Qed.

Lemma scroll_detail_ok delta w : ws_ok w → keeps w (scroll_detail delta w).1.
Proof.
  intros H. unfold scroll_detail. cbn zeta. case_match; [by apply keeps_refl|].
  apply set_scroll_ok; [done|lia].
Qed.

Lemma scroll_detail_to_top_ok w : ws_ok w → keeps w (scroll_detail_to_top w).1.
Proof.
  intros H. unfold scroll_detail_to_top. case_match; [by apply keeps_refl|].
  apply set_scroll_ok; [done|lia].
Qed.

Lemma scroll_detail_to_bottom_ok w : ws_ok w → keeps w (scroll_detail_to_bottom w).1.
Proof.
  intros H. unfold scroll_detail_to_bottom. cbn zeta. case_match; [by apply keeps_refl|].
  by apply set_scroll_ok.
Qed.

Create HintDb desktop.
#[local] Hint Resolve focus_column_ok focus_workspace_ok move_focused_column_ok
  move_focused_workspace_ok add_surface_ok open_hotkey_help_ok close_focused_ok
  scroll_detail_ok scroll_detail_to_top_ok scroll_detail_to_bottom_ok keeps_refl : desktop.

Lemma zoom_ok z w : ws_ok w → keeps w (set_detail_scroll 0 (set_zoomed z w)).
Proof. intros [[??] _]. split; [split; [by split|cbn; lia]|by apply uses_none]. Qed.

Lemma navigation_character_ok text w :
  ws_ok w → room w → keeps w (navigation_character text w).1.
Proof.
  intros H Hr. unfold navigation_character, open_or, outcome_of.
  repeat case_match; cbn [fst]; auto with desktop; [by apply same_core_ok|by apply zoom_ok].
Qed.

Lemma handle_key_ok key w : ws_ok w → room w → keeps w (handle_key key w).1.
Proof.
  intros H Hr. unfold handle_key, handle_navigation_key, handle_insert_key, open_or, outcome_of,
    submit_draft, clear_attached_images.
  repeat case_match; cbn [fst]; auto using navigation_character_ok with desktop;
    by apply same_core_ok.
Qed.

(** ** Construction *)

Lemma card_surfaces_spec index next cards surfaces next' :
  (0 ≤ next)%Z → (next + Z.of_nat (length cards) < 2 ^ 64)%Z →
  card_surfaces index next cards = (surfaces, next') →
  length surfaces = length cards ∧ next' = (next + Z.of_nat (length cards))%Z ∧
  su_session_id <$> surfaces = Some ∘ sc_session_id <$> cards ∧
  NoDup (su_id <$> surfaces) ∧ ∀ id, id ∈ su_id <$> surfaces → (next ≤ id < next')%Z.
Proof.
  revert index next surfaces next'.
  induction cards as [|card cards IH]; intros index next surfaces next' H0 H1; cbn.
  - intros [= <- <-]. repeat split; cbn; try set_solver; [lia|constructor].
  - cbn in H1. rewrite u64_succ_small by lia.
    destruct (card_surfaces (S index) (next + 1) cards) as [ss n] eqn:E. intros [= <- <-].
    destruct (IH (S index) (next + 1)%Z ss n) as (Hl & -> & Hs & Hnd & Hlt); [lia..|done|].
    cbn. rewrite Hl, Hs. split; [done|]. split; [lia|]. split; [done|]. split.
    + constructor; [|done]. intros Hin. specialize (Hlt _ Hin). lia.
    + intros id [->|Hin]%elem_of_cons; [lia|]. specialize (Hlt _ Hin). lia.
Qed.

Lemma from_session_cards_ok cards :
  (Z.of_nat (length cards) + 2 < 2 ^ 64)%Z →
  ws_ok (from_session_cards cards) ∧
  (0 < ws_next_id (from_session_cards cards) ≤ Z.of_nat (length cards) + 2)%Z.
Proof.
  intros Hlen. destruct cards as [|card cards].
  - cbn. split; [|lia]. split; [|cbn; lia]. split; [|cbn; set_solver].
    split; [apply NoDup_singleton|]. by intros id ->%list_elem_of_singleton.
  - unfold from_session_cards. destruct (card_surfaces 0 1 (card :: cards)) as [ss n] eqn:E.
    destruct (card_surfaces_spec 0 1 (card :: cards) ss n) as (Hl & -> & _ & Hnd & Hlt);
      [lia..|done|].
    cbn [ws_next_id]. split; [|lia]. split; [|cbn; lia].
    split; cbn [ws_surfaces ws_next_id ws_focused_id].
    + split; [done|]. intros id Hid. specialize (Hlt _ Hid). lia.
    + destruct ss; [done|]. cbn. set_solver.
Qed.

(** ** Everything the desktop does to its workspace *)

Inductive Event :=
| EvKey (key : KeyInput)
| EvReplace (cards : list SessionCard)
| EvPreferences (prefs : DesktopPreferences)
| EvPaste (text : string)
| EvImage (media_type base64_data : string)
| EvClearImages.

Definition apply_event (w : Workspace) (event : Event) : Workspace :=
  match event with
  | EvKey key => (handle_key key w).1
  | EvReplace cards => replace_session_cards cards w
  | EvPreferences prefs => apply_preferences prefs w
  | EvPaste text => (paste_text text w).1
  | EvImage media_type data => (attach_image media_type data w).1
  | EvClearImages => (clear_attached_images w).1
  end.

(** How far one event can push the counter of ids. *)
Definition event_cost (event : Event) : nat :=
  match event with EvReplace cards => length cards + 2 | _ => 1 end.

Lemma find_session_elem id w s :
  find_session id w = Some s → s ∈ ws_surfaces w ∧ su_session_id s = Some id.
Proof. intros [? ?%bool_decide_eq_true]%find_Some_elem. done. Qed.

Lemma replace_ok cards w :
  (Z.of_nat (length cards) + 2 < 2 ^ 64)%Z →
  ws_ok (replace_session_cards cards w) ∧
  (0 < ws_next_id (replace_session_cards cards w) ≤ Z.of_nat (length cards) + 2)%Z.
Proof.
  intros Hlen. destruct (from_session_cards_ok cards Hlen) as [[[Hi Hf] _] Hn].
  unfold replace_session_cards. cbn zeta.
  set (r := set_pending_images _ _).
  assert (ws_surfaces r = ws_surfaces (from_session_cards cards)) as Hs by done.
  assert (ws_next_id r = ws_next_id (from_session_cards cards)) as Hr by done.
  assert (∀ x, ws_surfaces x = ws_surfaces r → ws_next_id x = ws_next_id r →
    ws_focused_id x ∈ su_id <$> ws_surfaces x →
    ws_ok (clamp_detail_scroll x) ∧
    (0 < ws_next_id (clamp_detail_scroll x) ≤ Z.of_nat (length cards) + 2)%Z) as Hx.
  { intros x Hxs Hxn Hxf. split; [|cbn; by rewrite Hxn, Hr].
    split; [|apply Nat.le_min_r]. split; cbn; [by rewrite Hxs, Hxn, Hs, Hr|done]. }
  destruct (focused_session_id w) as [id|]; [|by apply Hx].
  destruct (find_session id r) as [s|] eqn:E; [|by apply Hx].
  apply find_session_elem in E as [E _]. apply Hx; [done..|]. cbn. by apply list_elem_of_fmap_2.
Qed.

Lemma apply_preferences_ok prefs w : ws_ok w → room w → keeps w (apply_preferences prefs w).
Proof.
  intros [[Hi Hf] Hsc] Hr. unfold apply_preferences. cbn zeta.
  destruct (_ ≫= _) as [s|] eqn:E.
  - apply bind_Some in E as (id & _ & [E _]%find_session_elem).
    split; [|by apply uses_none]. apply focus_on_wf; [done|]. by apply list_elem_of_fmap_2.
  - case_match; [|by apply same_core_ok].
    exact (focus_lane_ok _ _ (set_panel_size (dp_panel_size prefs) w) Hi Hr).
Qed.

Lemma apply_event_ok w event :
  ws_ok w → room w → (Z.of_nat (event_cost event) < 2 ^ 64)%Z →
  ws_ok (apply_event w event) ∧
  (0 ≤ ws_next_id (apply_event w event) ≤ ws_next_id w + Z.of_nat (event_cost event))%Z.
Proof.
  intros H Hr Hc.
  assert (∀ w', event_cost event = 1 → keeps w w' → ws_ok w' ∧
    (0 ≤ ws_next_id w' ≤ ws_next_id w + Z.of_nat (event_cost event))%Z) as Hk.
  { intros w' -> [Hok Hu]. split; [done|]. destruct Hr. unfold uses_one in Hu. lia. }
  destruct event; cbn [apply_event]; try (apply Hk; [done|]).
  - by apply handle_key_ok.
  - cbn [event_cost] in *. destruct (replace_ok cards w) as [Hok Hn]; [lia|].
    split; [done|]. destruct Hr. lia.
  - by apply apply_preferences_ok.
  - unfold paste_text. case_match; cbn; [by apply keeps_refl|by apply same_core_ok].
  - unfold attach_image. case_match; cbn; [by apply keeps_refl|by apply same_core_ok].
  - unfold clear_attached_images. case_match; cbn; [by apply keeps_refl|by apply same_core_ok].
Qed.

Lemma events_ok n events w :
  ws_ok w → (0 ≤ ws_next_id w ≤ Z.of_nat n)%Z →
  (Z.of_nat (n + list_sum (event_cost <$> events)) + 1 < 2 ^ 64)%Z →
  ws_ok (foldl apply_event w events).
Proof.
  revert n w. induction events as [|e events IH]; intros n w H Hn; [done|].
  cbn [fmap list_fmap list_sum foldr foldl]. intros Hlen.
  change (foldr Nat.add 0 (event_cost <$> events)) with (list_sum (event_cost <$> events)) in Hlen.
  destruct (apply_event_ok w e) as [H' Hn']; [done|split; lia|lia|].
  apply (IH (n + event_cost e)); [done|lia|lia].
Qed.

(** ** Theorems *)

(** C9. Whatever keys, refreshes, preferences and pastes the workspace of some
    session cards receives, surface ids stay distinct (and below the next id),
    the focused surface exists, and the scroll position stays within the detail
    lines of the focused surface, as long as the id counter has room. *)
Theorem workspace_invariant cards events :
  (Z.of_nat (length cards + 2 + list_sum (event_cost <$> events)) + 1 < 2 ^ 64)%Z →
  let w := foldl apply_event (from_session_cards cards) events in
  ws_ok w ∧ ∃ s, focused_surface w = Some s ∧ s ∈ ws_surfaces w ∧
    ws_detail_scroll w ≤ length (su_detail_lines s) - 1.
Proof.
  intros Hlen. cbv zeta.
  assert (ws_ok (foldl apply_event (from_session_cards cards) events)) as Hok.
  { destruct (from_session_cards_ok cards) as [H Hn]; [lia|].
    by apply (events_ok (length cards + 2)); [|lia|]. }
  split; [done|]. destruct Hok as [Hwf Hsc].
  destruct (focused_surface_is_Some _ Hwf) as (s & Hs & Hin & _).
  exists s. split; [done|]. split; [done|].
  unfold max_detail_scroll, focused_detail_line_count in Hsc. by rewrite Hs in Hsc.
Qed.

Definition card (id : string) : SessionCard :=
  {| sc_session_id := id; sc_title := id; sc_subtitle := "s"; sc_detail := "d";
     sc_preview_lines := []; sc_detail_lines := ["a"; "b"] |}.

Lemma workspace_invariant_witness :
  let events := [EvKey (Character "n"); EvKey (Character "x"); EvKey HotkeyHelp] in
  let w := foldl apply_event (from_session_cards [card "a"; card "b"]) events in
  ws_focused_id w = 4%Z ∧ ws_ok w.
Proof.
  split; [reflexivity|].
  apply (workspace_invariant [card "a"; card "b"]
           [EvKey (Character "n"); EvKey (Character "x"); EvKey HotkeyHelp]).
  reflexivity.
Defined.

(** The draft after a key of the insert mode that does not send it. *)
Definition edited_draft (key : KeyInput) (draft : string) : string :=
  match key with
  | KeyEnter => draft +:+ nl
  | KeyBackspace => str_pop draft
  | DeletePreviousWord => delete_previous_word draft
  | DeleteToLineStart => ""
  | Character text => draft +:+ text
  | _ => draft
  end.

(** A press of this key in this workspace sends the draft. *)
Definition sends (key : KeyInput) (w : Workspace) : Prop :=
  ws_mode w = Insert ∧ (key = SubmitDraft ∨ key = QueueDraft) ∧
  (trim (ws_draft w) ≠ "" ∨ ws_pending_images w ≠ []) ∧ is_Some (focused_session_target w).

Lemma focus_lane_draft lane column w :
  ws_draft (focus_lane lane column w) = ws_draft w ∧
  ws_pending_images (focus_lane lane column w) = ws_pending_images w.
Proof. unfold focus_lane, ensure_workspace_surface. by destruct (nearest_column _ _). Qed.

(** The draft and the images are those of [w], and [out] sends nothing. *)
Definition draft_kept (w : Workspace) (r : Workspace * KeyOutcome) : Prop :=
  ws_draft r.1 = ws_draft w ∧ ws_pending_images r.1 = ws_pending_images w ∧
  ∀ i t m im, r.2 ≠ OutSendDraft i t m im.

Lemma outcome_kept w r :
  ws_draft r.1 = ws_draft w → ws_pending_images r.1 = ws_pending_images w →
  draft_kept w (outcome_of r).
Proof. intros ??. split; [done|]. split; [done|]. unfold outcome_of. cbn. by case_match. Qed.

Lemma navigation_character_draft text w : draft_kept w (navigation_character text w).
Proof.
  unfold navigation_character, open_or.
  repeat match goal with
  | |- draft_kept _ (if ?b then _ else _) => destruct b
  | |- draft_kept _ (match ?o with _ => _ end) => destruct o as [[??]|]
  end; try (split; [done|]; by split); apply outcome_kept.
  all: unfold focus_column, focus_workspace, scroll_detail, scroll_detail_to_top,
    scroll_detail_to_bottom, move_focused_column, move_focused_workspace, close_focused; cbn zeta.
  all: repeat (case_match; try done); cbn [fst snd]; try apply focus_lane_draft; try done.
Qed.

Lemma open_hotkey_help_kept w : draft_kept w (open_hotkey_help w, OutRedraw).
Proof. unfold open_hotkey_help. by case_match. Qed.

Lemma navigation_key_kept key w : draft_kept w (handle_navigation_key key w).
Proof.
  destruct key; cbn [handle_navigation_key]; try (split; [done|]; by split);
    try apply open_hotkey_help_kept; try apply navigation_character_draft.
  all: unfold open_or; destruct (focused_session_target w) as [[??]|]; by repeat split.
Qed.

(** A send key either sends or leaves the workspace as it is. *)
Lemma submit_draft_cases w :
  (∃ id title, focused_session_target w = Some (id, title) ∧
     (trim (ws_draft w) ≠ "" ∨ ws_pending_images w ≠ []) ∧
     submit_draft w = (set_mode Navigation (set_draft "" (set_pending_images [] w)),
                       OutSendDraft id title (trim (ws_draft w)) (ws_pending_images w))) ∨
  (¬ ((trim (ws_draft w) ≠ "" ∨ ws_pending_images w ≠ []) ∧ is_Some (focused_session_target w)) ∧
   submit_draft w = (w, OutNone)).
Proof.
  unfold submit_draft. cbn zeta.
  destruct (String.eqb_spec (trim (ws_draft w)) ""), (decide (ws_pending_images w = []));
    [rewrite bool_decide_eq_true_2 by done; right; naive_solver
    |rewrite bool_decide_eq_false_2 by done| |]; cbn [andb].
  all: destruct (focused_session_target w) as [[id title]|] eqn:E.
  all: try (left; exists id, title; by auto).
  all: right; split; [intros [_ [? [=]]]|done].
Qed.

(** The draft is sent by the send keys of the insert mode exactly when
    there is a text or an image to send and the focused surface has a session;
    it goes to that session, trimmed, with every attached image, and then draft
    and images are empty and the mode is navigation. No other key press sends or
    loses it: outside the insert mode, and after a refused send, draft and images
    are untouched, and in the insert mode they change only by the editing keys. *)
Theorem draft_correct key w :
  let '(w', out) := handle_key key w in
  (sends key w → ∃ id title, focused_session_target w = Some (id, title) ∧
     out = OutSendDraft id title (trim (ws_draft w)) (ws_pending_images w) ∧
     w' = set_mode Navigation (set_draft "" (set_pending_images [] w))) ∧
  (¬ sends key w → (∀ id title message images, out ≠ OutSendDraft id title message images) ∧
     ws_draft w' = (if decide (ws_mode w = Insert) then edited_draft key (ws_draft w)
                    else ws_draft w) ∧
     ws_pending_images w' = match ws_mode w, key with
                            | Insert, ClearAttachedImages => []
                            | _, _ => ws_pending_images w
                            end).
Proof.
  destruct (handle_key key w) as [w' out] eqn:E. unfold handle_key in E. unfold sends.
  destruct (ws_mode w) eqn:Em.
  - pose proof (navigation_key_kept key w) as (Hd & Hi & Ho). rewrite E in Hd, Hi, Ho.
    split; [by intros []|done].
  - destruct (decide (key = SubmitDraft ∨ key = QueueDraft)) as [Hk|Hk].
    + assert (submit_draft w = (w', out)) as E' by (by destruct Hk as [-> | ->]).
      assert (edited_draft key (ws_draft w) = ws_draft w) as Hed by (by destruct Hk as [-> | ->]).
      rewrite decide_True, Hed by done.
      destruct (submit_draft_cases w) as [(id & t & Ht & Hne & Hs)|[Hno Hs]];
        rewrite Hs in E'; injection E' as <- <-.
      * rewrite Ht. split; [eauto 6|]. intros []. eauto.
      * split; [naive_solver|]. intros _. by destruct Hk as [-> | ->].
    + split; [naive_solver|]. intros _. rewrite decide_True by done.
      destruct key; cbn in E; try (injection E as <- <-; done); try naive_solver.
      * unfold outcome_of, clear_attached_images in E. by destruct (ws_pending_images w) eqn:Ei;
          injection E as <- <-.
      * injection E as <- <-. by destruct (open_hotkey_help_kept w) as (? & ? & ?).
Qed.

(** ** Refreshing the sessions *)

Lemma focused_unique w s :
  NoDup (su_id <$> ws_surfaces w) → s ∈ ws_surfaces w → ws_focused_id w = su_id s →
  focused_surface w = Some s.
Proof.
  intros Hnd Hs Hf. unfold focused_surface.
  destruct (find_is_Some (λ surface, su_id surface =? ws_focused_id w)%Z _ s Hs) as [t Ht];
    [by apply Z.eqb_eq|].
  rewrite Ht. apply find_Some_elem in Ht as [Ht Heq%Z.eqb_eq]. f_equal.
  apply list_elem_of_lookup in Hs as [i Hi]. apply list_elem_of_lookup in Ht as [j Hj].
  assert (i = j) as ->.
  { eapply NoDup_lookup; [exact Hnd|rewrite list_lookup_fmap, Hi; done|].
    rewrite list_lookup_fmap, Hj. cbn. congruence. }
  congruence.
Qed.

Lemma card_surfaces_sessions index next cards :
  su_session_id <$> (card_surfaces index next cards).1 = Some ∘ sc_session_id <$> cards.
Proof.
  revert index next. induction cards as [|c cards IH]; intros index next; cbn; [done|].
  specialize (IH (S index) (u64_succ next)).
  destruct (card_surfaces (S index) (u64_succ next) cards) as [ss n]. cbn in *. by rewrite IH.
Qed.

Lemma from_session_cards_sessions cards :
  cards ≠ [] →
  su_session_id <$> ws_surfaces (from_session_cards cards) = Some ∘ sc_session_id <$> cards.
Proof.
  intros H. destruct cards as [|c cards]; [done|]. unfold from_session_cards.
  rewrite <- (card_surfaces_sessions 0 1). by destruct (card_surfaces _ _ _).
Qed.

Lemma find_session_is_Some id w :
  Some id ∈ su_session_id <$> ws_surfaces w → is_Some (find_session id w).
Proof.
  intros (s & Hs & Hin)%list_elem_of_fmap.
  destruct (find_is_Some (λ surface, bool_decide (su_session_id surface = Some id)) _ s Hin)
    as [t Ht]; [by apply bool_decide_eq_true|]. by exists t.
Qed.

(** The surface the session [id] has among the given cards. *)
Lemma cards_find_session id cards w :
  ws_surfaces w = ws_surfaces (from_session_cards cards) → id ∈ sc_session_id <$> cards →
  ∃ s, find_session id w = Some s.
Proof.
  intros Hw (c & -> & Hc)%list_elem_of_fmap. apply find_session_is_Some. rewrite Hw.
  rewrite from_session_cards_sessions by (intros ->; by apply not_elem_of_nil in Hc).
  by apply (list_elem_of_fmap_2 (Some ∘ sc_session_id)).
Qed.

(** Focusing the surface found for a session makes it the focused session. *)
Lemma focused_session_found id w w' s :
  NoDup (su_id <$> ws_surfaces w) → find_session id w = Some s →
  ws_surfaces w' = ws_surfaces w → ws_focused_id w' = su_id s →
  focused_session_id w' = Some id.
Proof.
  intros Hnd [Hin Hid]%find_session_elem Hs Hf. unfold focused_session_id.
  rewrite (focused_unique w' s); [done| |by rewrite Hs|done]. by rewrite Hs.
Qed.

Lemma replace_fields cards w :
  let w' := replace_session_cards cards w in
  ws_mode w' = ws_mode w ∧ ws_panel_size w' = ws_panel_size w ∧ ws_draft w' = ws_draft w ∧
  ws_pending_images w' = ws_pending_images w ∧
  ws_detail_scroll w' = ws_detail_scroll w `min` max_detail_scroll w' ∧
  ws_surfaces w' = ws_surfaces (from_session_cards cards).
Proof.
  unfold replace_session_cards. cbv zeta.
  destruct (focused_session_id w) as [id|]; [destruct (find_session _ _)|]; done.
Qed.

(** A refresh shows one surface per session card, in order, keeps mode,
    panel size, draft and images, and keeps the focus on the same session while
    it is still listed; the scroll position is cut to the new detail. Saved
    preferences bring the focus back to the same session as well. *)
Theorem refresh_correct cards w :
  (Z.of_nat (length cards) + 2 < 2 ^ 64)%Z →
  let w' := replace_session_cards cards w in
  let restored := apply_preferences (preferences w) (from_session_cards cards) in
  (ws_mode w' = ws_mode w ∧ ws_panel_size w' = ws_panel_size w ∧ ws_draft w' = ws_draft w ∧
   ws_pending_images w' = ws_pending_images w ∧
   ws_detail_scroll w' = ws_detail_scroll w `min` max_detail_scroll w') ∧
  (cards ≠ [] → su_session_id <$> ws_surfaces w' = Some ∘ sc_session_id <$> cards) ∧
  ∀ id, focused_session_id w = Some id → id ∈ sc_session_id <$> cards →
    focused_session_id w' = Some id ∧
    focused_session_id restored = Some id ∧ ws_panel_size restored = ws_panel_size w.
Proof.
  intros Hlen. destruct (replace_fields cards w) as (? & ? & ? & ? & ? & Hs). cbv zeta.
  split; [by repeat split|]. split; [by rewrite Hs; apply from_session_cards_sessions|].
  intros id Hid Hin. destruct (from_session_cards_ok cards Hlen) as [[[[Hnd _] _] _] _].
  split; [|split].
  - unfold replace_session_cards. cbv zeta. rewrite Hid.
    set (r := set_pending_images _ _).
    destruct (cards_find_session id cards r) as [s Hf]; [done..|]. rewrite Hf.
    by apply (focused_session_found id r _ s).
  - unfold apply_preferences, preferences. cbn [dp_focused_session_id]. cbv zeta.
    rewrite Hid. cbn [mbind option_bind].
    set (r := set_panel_size _ _).
    destruct (cards_find_session id cards r) as [s Hf]; [done..|]. rewrite Hf.
    by apply (focused_session_found id r _ s).
  - unfold apply_preferences. cbv zeta. case_match; [done|].
    case_match; [|done]. unfold focus_lane, ensure_workspace_surface.
    by destruct (nearest_column _ _).
Qed.

Lemma refresh_correct_witness :
  let w := (handle_key (Character "l") (from_session_cards [card "a"; card "b"])).1 in
  focused_session_id (replace_session_cards [card "c"; card "b"; card "a"] w) = Some "b".
Proof.
  apply (refresh_correct [card "c"; card "b"; card "a"]
           (handle_key (Character "l") (from_session_cards [card "a"; card "b"])).1);
    [reflexivity|reflexivity|]. right. left.
Defined.

(** ** Moving the focus between columns *)

(** Columns far from overflow. *)
Definition small_columns (w : Workspace) : Prop :=
  ∀ s, s ∈ ws_surfaces w → (Z.abs (su_column s) < 2 ^ 30)%Z.

Definition toward (d : Direction) (s u : Surface) : Prop :=
  su_lane u = su_lane s ∧
  match d with
  | DirLeft => (su_column u < su_column s)%Z
  | DirRight => (su_column s < su_column u)%Z
  | _ => False
  end.

Definition opposite (d : Direction) : Direction :=
  match d with DirLeft => DirRight | DirRight => DirLeft | DirUp => DirDown | DirDown => DirUp end.

(** No two surfaces of a lane share a column. *)
Definition distinct_columns (w : Workspace) : Prop :=
  ∀ s u, s ∈ ws_surfaces w → u ∈ ws_surfaces w → su_lane s = su_lane u →
    su_column s = su_column u → s = u.

Lemma pair_ltb_spec a b : pair_ltb a b = true ↔ (a.1 < b.1 ∨ a.1 = b.1 ∧ a.2 < b.2)%Z.
Proof.
  unfold pair_ltb. by rewrite orb_true_iff, andb_true_iff, !Z.ltb_lt, Z.eqb_eq.
Qed.

Lemma pair_ltb_false a b : pair_ltb a b = false ↔ ¬ (a.1 < b.1 ∨ a.1 = b.1 ∧ a.2 < b.2)%Z.
Proof. by rewrite <- pair_ltb_spec, not_true_iff_false. Qed.

Lemma distance_small column s :
  (Z.abs column < 2 ^ 30)%Z → (Z.abs (su_column s) < 2 ^ 30)%Z →
  (column_distance column s).1 = Z.abs (su_column s - column).
Proof.
  intros. unfold column_distance, i32_abs, i32_sub. cbn [fst].
  rewrite (wrap_s_id (su_column s - column)) by (unfold in_i32; lia).
  apply wrap_s_id. unfold in_i32. lia.
Qed.

Lemma nearest_column_least column l s :
  (Z.abs column < 2 ^ 30)%Z → (∀ t, t ∈ l → (Z.abs (su_column t) < 2 ^ 30)%Z) →
  nearest_column column l = Some s →
  s ∈ l ∧ ∀ t, t ∈ l → (Z.abs (su_column s - column) ≤ Z.abs (su_column t - column))%Z.
Proof.
  intros Hc Hl Hs. assert (s ∈ l) as Hin by (by apply min_by_Some in Hs). split; [done|].
  intros t Ht. rewrite <- !distance_small by auto.
  assert (pair_ltb (column_distance column t) (column_distance column s) = false) as Hlt.
  { refine (min_by_least _ l s _ _ Hs t Ht); intros a b.
    - intros c. rewrite !pair_ltb_false. lia.
    - rewrite pair_ltb_spec, pair_ltb_false. lia. }
  apply pair_ltb_false in Hlt. lia.
Qed.

Lemma elem_of_neighbors d s w u :
  u ∈ filter (λ surface, in_direction d (su_column s) surface = true)
        (filter (λ surface, su_lane surface = su_lane s) (ws_surfaces w)) ↔
  u ∈ ws_surfaces w ∧ toward d s u.
Proof.
  rewrite !list_elem_of_filter. unfold toward, in_direction.
  destruct d; rewrite ?Z.ltb_lt; naive_solver.
Qed.

(** The neighbour [column_neighbor_id] picks. *)
Lemma column_neighbor_spec d w s :
  small_columns w → s ∈ ws_surfaces w → focused_surface w = Some s →
  match column_neighbor_id w d with
  | Some id => ∃ t, su_id t = id ∧ t ∈ ws_surfaces w ∧ toward d s t ∧
      ∀ u, u ∈ ws_surfaces w → toward d s u →
        (Z.abs (su_column t - su_column s) ≤ Z.abs (su_column u - su_column s))%Z
  | None => ∀ u, u ∈ ws_surfaces w → ¬ toward d s u
  end.
Proof.
  intros Hsm Hs Hf. unfold column_neighbor_id. rewrite Hf. cbn [mbind option_bind].
  destruct (nearest_column _ _) as [t|] eqn:E; cbn.
  - apply nearest_column_least in E as [Hin Hle]; [|by apply Hsm|].
    + apply elem_of_neighbors in Hin as [Ht Hd]. exists t.
      split; [done|]. split; [done|]. split; [done|].
      intros u Hu Htu. apply Hle. by apply elem_of_neighbors.
    + intros u [Hu _]%elem_of_neighbors. by apply Hsm.
  - intros u Hu Htu. apply min_by_None in E.
    assert (u ∈ @nil Surface) as Hn by (rewrite <- E; by apply elem_of_neighbors).
    by apply not_elem_of_nil in Hn.
Qed.

(** [h] and [l] move the focus to the nearest column of the lane on that
    side, with none in between, and do nothing exactly when there is none; when
    no two surfaces of a lane share a column, the opposite key goes back. *)
Theorem column_focus_correct d w :
  ws_ok w → small_columns w →
  ∃ s, focused_surface w = Some s ∧
  let '(w', moved) := focus_column d w in
  if moved then
    ∃ t, focused_surface w' = Some t ∧ toward d s t ∧ ws_surfaces w' = ws_surfaces w ∧
      (∀ u, u ∈ ws_surfaces w → toward d s u → ¬ toward d u t) ∧
      (distinct_columns w → ws_focused_id (focus_column (opposite d) w').1 = ws_focused_id w)
  else w' = w ∧ ∀ u, u ∈ ws_surfaces w → ¬ toward d s u.
Proof.
  intros [Hwf _] Hsm. destruct (focused_surface_is_Some w Hwf) as (s & Hs & Hin & Hid).
  exists s. split; [done|]. unfold focus_column at 1.
  pose proof (column_neighbor_spec d w s Hsm Hin Hs) as Hn.
  destruct (column_neighbor_id w d) as [id|]; [|done].
  destruct Hn as (t & <- & Ht & Htd & Hle). exists t.
  set (w' := set_detail_scroll 0 _).
  assert (focused_surface w' = Some t) as Hft by (apply focused_unique; [apply Hwf|done|done]).
  split; [done|]. split; [done|]. split; [done|]. split.
  - intros u Hu Hsu Hut. specialize (Hle u Hu Hsu). unfold toward in *. destruct d; lia.
  - intros Hdis. unfold focus_column.
    pose proof (column_neighbor_spec (opposite d) w' t Hsm Ht Hft) as Hb.
    assert (toward (opposite d) t s) as Hts by (unfold toward in *; destruct d; cbn; intuition lia).
    destruct (column_neighbor_id w' (opposite d)) as [id|]; [|by destruct (Hb s Hin)].
    destruct Hb as (r & <- & Hr & Hrd & Hrle). specialize (Hrle s Hin Hts). cbn.
    rewrite <- Hid. f_equal. apply Hdis; [done..| |].
    + unfold toward in *. destruct Hrd, Htd. congruence.
    + destruct (decide (su_column r = su_column s)) as [|Hne]; [done|].
      assert (toward d s r) as Hsr by (unfold toward in *; destruct d; cbn in *; intuition lia).
      specialize (Hle r Hr Hsr). unfold toward in *. destruct d; cbn in *; lia.
Qed.

Lemma column_focus_correct_witness :
  let w := from_session_cards [card "a"; card "b"; card "c"] in
  ∃ s, focused_surface w = Some s ∧ su_id s = 1%Z ∧
    ws_focused_id (focus_column DirLeft (focus_column DirRight w).1).1 = 1%Z.
Proof.
  assert (ws_ok (from_session_cards [card "a"; card "b"; card "c"])) as Hok
    by (apply from_session_cards_ok; reflexivity).
  assert (small_columns (from_session_cards [card "a"; card "b"; card "c"])) as Hsm
    by (intros s Hs; cbn in Hs; set_unfold; naive_solver).
  destruct (column_focus_correct DirRight (from_session_cards [card "a"; card "b"; card "c"])
    Hok Hsm) as (s & Hs & t & _ & _ & _ & _ & Hback).
  exists s. split; [exact Hs|]. split; [injection Hs as <-; reflexivity|].
  apply Hback. intros s1 s2 H1 H2. cbn in H1, H2. set_unfold. naive_solver.
Defined.
