(* ===== verification/TextCursor.v ===== *)
(** * Positions in a text ([crates/gcode-desktop/src/single_session.rs])

    The functions that move a cursor through a UTF-8 string: to the next and the
    previous character, word and line. A slice of a string panics unless both of
    its ends are character boundaries, so these functions return an option. *)

From S2P Require Import Prelude Utf8 Text.
Open Scope nat_scope.

#[local] Arguments String.append !_ _ / : simpl nomatch.

(** ** Slices *)

(** [&s[i..j]], with [None] for the panic *)
Definition slice (s : string) (i j : usize) : option string :=
  if (i <=? j) && is_char_boundary s i && is_char_boundary s j
  then Some (str_take (j - i) (str_drop i s)) else None.

Fixpoint char_indices_from (position : usize) (cs : list string) : list (usize * string) :=
  match cs with
  | [] => []
  | c :: cs' => (position, c) :: char_indices_from (position + String.length c) cs'
  end.

(** [s.char_indices()] *)
Definition char_indices (s : string) : list (usize * string) := char_indices_from 0 (chars s).

(** The character that [char::default] is. *)
Definition nul_char : string := String (Ascii.ascii_of_nat 0) "".

(** [s.chars().next().unwrap_or_default()] *)
Definition first_char (s : string) : string := default nul_char (head (chars s)).

(** [s.insert_str(index, text)] *)
Definition insert_str (s : string) (index : usize) (text : string) : option string :=
  if is_char_boundary s index then Some (str_take index s +:+ text +:+ str_drop index s) else None.

(** [s.replace_range(i..j, "")] *)
Definition remove_range (s : string) (i j : usize) : option string :=
  if (i <=? j) && is_char_boundary s i && is_char_boundary s j
  then Some (str_take i s +:+ str_drop j s) else None.

(** [s.rfind('\n')] *)
Fixpoint rfind_newline (s : string) : option usize :=
  match s with
  | EmptyString => None
  | String b s' =>
      match rfind_newline s' with
      | Some i => Some (S i)
      | None => if Ascii.eqb b newline then Some 0 else None
      end
  end.

(** ** Moving *)

Definition previous_char_boundary (text : string) (cursor : usize) : option usize :=
  before ← slice text 0 (cursor `min` String.length text);
  Some (from_option fst 0 (last (char_indices before))).

Definition next_char_boundary (text : string) (cursor : usize) : option usize :=
  if String.length text <=? cursor then Some (String.length text)
  else
    rest ← slice text cursor (String.length text);
    Some (from_option (λ c, cursor + c.1) (String.length text) (char_indices rest !! 1)).

(** One of the two loops of [previous_word_start]: back to where a character
    says to stop. Every round goes back, so [start] rounds are enough. *)
Fixpoint skip_back (stop : string → bool) (text : string) (fuel start : usize) : option usize :=
  match fuel with
  | O => Some start
  | S fuel =>
      if start =? 0 then Some start
      else
        previous ← previous_char_boundary text start;
        here ← slice text previous start;
        if stop (first_char here) then Some start else skip_back stop text fuel previous
  end.

Definition previous_word_start (text : string) (cursor : usize) : option usize :=
  let start := cursor `min` String.length text in
  start ← skip_back (λ c, negb (is_whitespace c)) text start start;
  skip_back is_whitespace text start start.

(** One of the two loops of [next_word_end]. *)
Fixpoint skip_forward (stop : string → bool) (text : string) (fuel end_ : usize) : option usize :=
  match fuel with
  | O => Some end_
  | S fuel =>
      if String.length text <=? end_ then Some end_
      else
        next ← next_char_boundary text end_;
        here ← slice text end_ next;
        if stop (first_char here) then Some end_ else skip_forward stop text fuel next
  end.

Definition next_word_end (text : string) (cursor : usize) : option usize :=
  let end_ := cursor `min` String.length text in
  end_ ← skip_forward (λ c, negb (is_whitespace c)) text (String.length text - end_) end_;
  skip_forward is_whitespace text (String.length text - end_) end_.

Definition line_start (text : string) (cursor : usize) : option usize :=
  before ← slice text 0 (cursor `min` String.length text);
  Some (from_option S 0 (rfind_newline before)).

Definition line_end (text : string) (cursor : usize) : option usize :=
  rest ← slice text (cursor `min` String.length text) (String.length text);
  Some (from_option (λ offset, cursor + offset) (String.length text) (str_find nl rest)).

(** The loop of [clamp_draft_cursor] *)
Fixpoint back_to_boundary (s : string) (cursor : usize) : usize :=
  if is_char_boundary s cursor then cursor
  else match cursor with O => O | S cursor' => back_to_boundary s cursor' end.

Example word_samples :
  previous_word_start "go on  now " 11 = Some 7 ∧ next_word_end "go on  now" 2 = Some 5
  ∧ line_start ("ab" +:+ nl +:+ "cd") 4 = Some 3 ∧ line_end ("ab" +:+ nl +:+ "cd") 0 = Some 2
  ∧ back_to_boundary "é" 1 = 0 ∧ slice "é" 0 1 = None.
Proof. vm_compute. repeat split. Qed.

(** ** A text split at its cursor *)

(** A character of a valid string: a first byte with the continuation bytes it
    announces, and none behind an ASCII byte. *)
Definition valid_char (c : string) : Prop :=
  match c with
  | EmptyString => False
  | String b rest =>
      is_cont b = false ∧ all_cont rest = true ∧ (Ascii.nat_of_ascii b < 128 → rest = "")
  end.

Definition valid_text (s : string) : Prop := Forall valid_char (chars s).

(** The cursor is behind the characters [b] and in front of the characters [a]. *)
Definition split_at (b a : list string) (text : string) (cursor : usize) : Prop :=
  text = str_concat b +:+ str_concat a ∧ cursor = String.length (str_concat b) ∧
  Forall valid_char b ∧ Forall valid_char a.

Lemma valid_char_starts c : valid_char c → one_char c ∧ starts_char c = true.
Proof. destruct c as [|b c]; [done|]. cbn. by intros (-> & ? & _). Qed.

Lemma valid_one l : Forall valid_char l → Forall one_char l.
Proof. intros Hl. eapply Forall_impl; [exact Hl|]. intros c. apply valid_char_starts. Qed.

Lemma valid_starting l : Forall valid_char l → Forall (λ c, starts_char c = true) l.
Proof. intros Hl. eapply Forall_impl; [exact Hl|]. intros c. apply valid_char_starts. Qed.

Lemma valid_chars_list l : Forall valid_char l → char_list l.
Proof.
  intros Hl. split; [by apply valid_one|]. destruct Hl; [constructor|by apply valid_starting].
Qed.

Lemma valid_starts l : Forall valid_char l → starts_char (str_concat l) = true.
Proof. intros Hl. by apply starts_char_concat, valid_starting. Qed.

Lemma chars_valid l : Forall valid_char l → chars (str_concat l) = l.
Proof. intros. by apply chars_concat, valid_chars_list. Qed.

Lemma valid_text_starts s : valid_text s → starts_char s = true.
Proof. intros Hs. rewrite <- (str_concat_chars s). by apply valid_starts. Qed.

Lemma valid_text_concat l : Forall valid_char l → valid_text (str_concat l).
Proof. intros Hl. unfold valid_text. by rewrite chars_valid. Qed.

Lemma valid_text_app s t : valid_text s → valid_text t → valid_text (s +:+ t).
Proof.
  unfold valid_text. intros Hs Ht. rewrite chars_app by by apply valid_text_starts.
  by apply Forall_app.
Qed.

Lemma valid_char_length c : valid_char c → 0 < String.length c.
Proof. destruct c; cbn; [done|lia]. Qed.

Lemma concat_length_pos b x : valid_char x →
  String.length (str_concat b) < String.length (str_concat (b ++ [x])).
Proof.
  intros Hx. rewrite str_concat_app, str_length_app. cbn [str_concat foldr].
  rewrite str_app_nil_r. apply valid_char_length in Hx. lia.
Qed.

Lemma str_take_length s t : str_take (String.length s) (s +:+ t) = s.
Proof. induction s; simpl; congruence. Qed.

Section at_cursor.
Context (b a : list string) (text : string) (cursor : usize).
Context (Hat : split_at b a text cursor).

Lemma split_length : String.length text = cursor + String.length (str_concat a).
Proof using Hat. destruct Hat as (-> & -> & _ & _). apply str_length_app. Qed.

Lemma split_le : cursor ≤ String.length text.
Proof using Hat. rewrite split_length. lia. Qed.

Lemma split_min : cursor `min` String.length text = cursor.
Proof using Hat. apply Nat.min_l, split_le. Qed.

Lemma split_take : str_take cursor text = str_concat b.
Proof using Hat. destruct Hat as (-> & -> & _ & _). apply str_take_length. Qed.

Lemma split_drop : str_drop cursor text = str_concat a.
Proof using Hat. destruct Hat as (-> & -> & _ & _). apply str_drop_app. Qed.

Lemma split_boundary : is_char_boundary text cursor = true.
Proof using Hat.
  unfold is_char_boundary. destruct (cursor =? 0); [done|]. pose proof split_le.
  destruct (String.length text <=? cursor) eqn:E.
  - apply Nat.leb_le in E. apply Nat.eqb_eq. lia.
  - rewrite split_drop. apply valid_starts, Hat.
Qed.

Lemma split_valid : valid_text text.
Proof using Hat.
  destruct Hat as (-> & _ & Hb & Ha). by apply valid_text_app; apply valid_text_concat.
Qed.

Lemma split_chars : chars text = b ++ a.
Proof using Hat.
  destruct Hat as (-> & _ & Hb & Ha). rewrite <- str_concat_app. apply chars_valid.
  by apply Forall_app.
Qed.
End at_cursor.

(** Every boundary of a valid text splits it. *)
Lemma boundary_split text cursor :
  valid_text text → is_char_boundary text cursor = true →
  split_at (chars (str_take cursor text)) (chars (str_drop cursor text)) text cursor.
Proof.
  intros Hv Hb. unfold split_at. rewrite !str_concat_chars, str_take_drop, str_length_take.
  assert (cursor ≤ String.length text ∧ starts_char (str_drop cursor text) = true) as [Hle Hs].
  { revert Hb. unfold is_char_boundary. destruct (Nat.eqb_spec cursor 0) as [->|].
    { intros _. split; [lia|]. rewrite <- (valid_text_starts _ Hv). by destruct text. }
    destruct (Nat.leb_spec (String.length text) cursor); [|by split; [lia|]].
    intros ->%Nat.eqb_eq. split; [done|]. pose proof (str_length_drop (String.length text) text) as Hl.
    destruct (str_drop _ text); [done|]. cbn in Hl. lia. }
  split_and!; [done|lia|..].
  all: rewrite <- (str_take_drop cursor text) in Hv; unfold valid_text in Hv.
  all:
    rewrite chars_app in Hv by done; by apply Forall_app in Hv as [].
Qed.

Lemma split_move b1 b2 a text cursor :
  split_at (b1 ++ b2) a text cursor →
  split_at b1 (b2 ++ a) text (String.length (str_concat b1)).
Proof.
  intros (-> & _ & [Hb1 Hb2]%Forall_app & Ha). split_and!; [|done..|by apply Forall_app].
  by rewrite !str_concat_app, str_app_assoc.
Qed.

Lemma split_move_forward b a1 a2 text cursor :
  split_at b (a1 ++ a2) text cursor →
  split_at (b ++ a1) a2 text (String.length (str_concat (b ++ a1))).
Proof.
  intros (-> & _ & Hb & [Ha1 Ha2]%Forall_app). split_and!; [|done|by apply Forall_app|done].
  by rewrite !str_concat_app, str_app_assoc.
Qed.

(** A slice between two places of a text. *)
Lemma slice_split b m a text cursor :
  split_at (b ++ m) a text cursor →
  slice text (String.length (str_concat b)) cursor = Some (str_concat m).
Proof.
  intros Hat. pose proof (split_move _ _ _ _ _ Hat) as Hb. unfold slice.
  assert (cursor = String.length (str_concat b) + String.length (str_concat m)) as ->.
  { destruct Hat as (_ & -> & _ & _). by rewrite str_concat_app, str_length_app. }
  rewrite (split_boundary _ _ _ _ Hb), (split_boundary _ _ _ _ Hat).
  rewrite (proj2 (Nat.leb_le _ _)) by lia. cbn [andb]. f_equal.
  rewrite (split_drop _ _ _ _ Hb), Nat.add_comm, Nat.add_sub, str_concat_app. apply str_take_length.
Qed.

Lemma slice_before b a text cursor :
  split_at b a text cursor → slice text 0 cursor = Some (str_concat b).
Proof. apply (slice_split []). Qed.

Lemma slice_after b a text cursor :
  split_at b a text cursor → slice text cursor (String.length text) = Some (str_concat a).
Proof.
  intros Hat. assert (split_at (b ++ a) [] text (String.length text)) as Hend.
  { pose proof Hat as (-> & _ & Hb & Ha). split_and!; [..|by apply Forall_app|done].
    - by rewrite str_concat_app, str_app_nil_r.
    - by rewrite str_concat_app. }
  pose proof (slice_split _ _ _ _ _ Hend) as E. by replace cursor with (String.length (str_concat b))
    by (by destruct Hat as (_ & -> & _)).
Qed.

(** ** Where the cursor goes *)

Lemma char_indices_from_app position l1 l2 :
  char_indices_from position (l1 ++ l2)
  = char_indices_from position l1 ++ char_indices_from (position + String.length (str_concat l1)) l2.
Proof.
  revert position. induction l1 as [|c l1 IH]; intros position; cbn; [by rewrite Nat.add_0_r|].
  rewrite IH, str_length_app, Nat.add_assoc. done.
Qed.

Lemma previous_at b x a text cursor :
  split_at (b ++ [x]) a text cursor →
  previous_char_boundary text cursor = Some (String.length (str_concat b)).
Proof.
  intros Hat. unfold previous_char_boundary.
  rewrite (split_min _ _ _ _ Hat), (slice_before _ _ _ _ Hat). cbn [mbind option_bind].
  unfold char_indices. rewrite chars_valid by apply Hat.
  rewrite char_indices_from_app. cbn [char_indices_from]. by rewrite last_snoc.
Qed.

Lemma previous_at_start a text cursor :
  split_at [] a text cursor → previous_char_boundary text cursor = Some 0.
Proof.
  intros Hat. unfold previous_char_boundary.
  by rewrite (split_min _ _ _ _ Hat), (slice_before _ _ _ _ Hat).
Qed.

Lemma next_at b x a text cursor :
  split_at b (x :: a) text cursor →
  next_char_boundary text cursor = Some (cursor + String.length x).
Proof.
  intros Hat. pose proof (split_length _ _ _ _ Hat) as Hl. cbn [str_concat foldr] in Hl.
  rewrite str_length_app in Hl. pose proof Hat as (_ & _ & _ & [Hx Ha]%Forall_cons).
  pose proof (valid_char_length x Hx) as Hpos. unfold next_char_boundary.
  rewrite (proj2 (Nat.leb_gt _ _)) by lia. rewrite (slice_after _ _ _ _ Hat). cbn [mbind option_bind].
  unfold char_indices. rewrite chars_valid by by constructor.
  destruct a as [|y a]; cbn in *; [|done]. rewrite Hl. f_equal. lia.
Qed.

Lemma next_at_end b text cursor :
  split_at b [] text cursor → next_char_boundary text cursor = Some cursor.
Proof.
  intros Hat. pose proof (split_length _ _ _ _ Hat) as Hl. cbn in Hl. unfold next_char_boundary.
  rewrite (proj2 (Nat.leb_le _ _)) by lia. f_equal. lia.
Qed.

Lemma drop_while_end_snoc {A} (p : A → bool) l x :
  drop_while_end p (l ++ [x]) = if p x then drop_while_end p l else l ++ [x].
Proof.
  unfold drop_while_end. rewrite reverse_snoc. cbn. destruct (p x); [done|].
  change (reverse (x :: reverse l) = l ++ [x]). by rewrite reverse_cons, reverse_involutive.
Qed.

Lemma drop_while_end_split {A} (p : A → bool) l : ∃ r, l = drop_while_end p l ++ r.
Proof.
  induction l as [|x l IH] using rev_ind; [by exists []|]. rewrite drop_while_end_snoc.
  destruct (p x); [|by exists []; rewrite app_nil_r].
  destruct IH as [r E]. exists (r ++ [x]). by rewrite app_assoc, <- E.
Qed.

Lemma skip_back_at stop b a text fuel start :
  split_at b a text start → start ≤ fuel →
  skip_back stop text fuel start
  = Some (String.length (str_concat (drop_while_end (λ c, negb (stop c)) b))).
Proof.
  revert a fuel start. induction b as [|x b IH] using rev_ind; intros a fuel start Hat Hf.
  - assert (start = 0) as -> by apply Hat. by destruct fuel.
  - pose proof Hat as (_ & Es & [_ [Hx _]%Forall_cons]%Forall_app & _).
    pose proof (concat_length_pos b x Hx). destruct fuel as [|fuel]; [lia|]. cbn [skip_back].
    rewrite (proj2 (Nat.eqb_neq _ _)) by lia. rewrite (previous_at _ _ _ _ _ Hat).
    cbn [mbind option_bind]. rewrite (slice_split _ _ _ _ _ Hat). cbn [mbind option_bind].
    unfold first_char. rewrite chars_valid by by constructor. cbn [head default from_option].
    rewrite drop_while_end_snoc. unfold Datatypes.id. destruct (stop x); cbn [negb]; [by rewrite Es|].
    eapply IH; [by apply split_move in Hat|lia].
Qed.

Lemma skip_forward_at stop b a text fuel end_ :
  split_at b a text end_ → String.length text - end_ ≤ fuel →
  skip_forward stop text fuel end_
  = Some (String.length text - String.length (str_concat (drop_while (λ c, negb (stop c)) a))).
Proof.
  revert b fuel end_. induction a as [|x a IH]; intros b fuel end_ Hat Hf;
    pose proof (split_length _ _ _ _ Hat) as Hl.
  - cbn [str_concat foldr drop_while String.length] in *. destruct fuel; cbn [skip_forward].
    { f_equal. lia. }
    rewrite (proj2 (Nat.leb_le _ _)) by lia. f_equal. lia.
  - pose proof Hat as (_ & _ & _ & [Hx Ha]%Forall_cons). pose proof (valid_char_length x Hx) as Hpos.
    pose proof (split_move_forward _ [x] _ _ _ Hat) as Hnext.
    assert (String.length (str_concat (b ++ [x])) = end_ + String.length x) as En.
    { destruct Hat as (_ & -> & _ & _). rewrite str_concat_app, str_length_app. cbn.
      by rewrite str_app_nil_r. }
    cbn [str_concat foldr] in Hl. rewrite str_length_app in Hl.
    destruct fuel as [|fuel]; [lia|]. cbn [skip_forward].
    rewrite (proj2 (Nat.leb_gt _ _)) by lia. rewrite (next_at _ _ _ _ _ Hat).
    cbn [mbind option_bind]. rewrite En in Hnext.
    replace end_ with (String.length (str_concat b)) at 1 by (by destruct Hat as (_ & -> & _)).
    rewrite (slice_split _ _ _ _ _ Hnext). cbn [mbind option_bind].
    unfold first_char. rewrite chars_valid by by constructor. cbn [head default from_option drop_while].
    unfold Datatypes.id. destruct (stop x); cbn [negb].
    + cbn [str_concat foldr]. rewrite str_length_app. f_equal. lia.
    + rewrite (IH _ _ _ Hnext) by lia. done.
Qed.

(** A word back: over white space, then over what is not. *)
Definition before_word (b : list string) : list string :=
  drop_while_end (λ c, negb (is_whitespace c)) (drop_while_end is_whitespace b).
Definition behind_word (a : list string) : list string :=
  drop_while (λ c, negb (is_whitespace c)) (drop_while is_whitespace a).

Definition not_newline (c : string) : bool := negb (c =s nl).

(** The lines before and behind the cursor. *)
Definition before_line (b : list string) : list string := drop_while_end not_newline b.
Definition behind_line (a : list string) : list string := drop_while not_newline a.

Lemma drop_while_end_ext {A} (p q : A → bool) l :
  (∀ x, p x = q x) → drop_while_end p l = drop_while_end q l.
Proof.
  intros Hpq. induction l as [|x l IH] using rev_ind; [done|].
  by rewrite !drop_while_end_snoc, Hpq, IH.
Qed.

Lemma drop_while_ext {A} (p q : A → bool) l :
  (∀ x, p x = q x) → drop_while p l = drop_while q l.
Proof. intros Hpq. induction l as [|x l IH]; [done|]. cbn. by rewrite Hpq, IH. Qed.

Lemma previous_word_at b a text cursor :
  split_at b a text cursor →
  previous_word_start text cursor = Some (String.length (str_concat (before_word b))).
Proof.
  intros Hat. unfold previous_word_start. rewrite (split_min _ _ _ _ Hat).
  rewrite (skip_back_at _ b a) by done. cbn [mbind option_bind].
  destruct (drop_while_end_split (λ c, negb (negb (is_whitespace c))) b) as [r E].
  rewrite E in Hat. apply split_move in Hat. rewrite (skip_back_at _ _ _ _ _ _ Hat) by done.
  unfold before_word. do 4 f_equal. apply drop_while_end_ext. intros c. apply negb_involutive.
Qed.

Lemma next_word_at b a text cursor :
  split_at b a text cursor →
  next_word_end text cursor
  = Some (String.length text - String.length (str_concat (behind_word a))).
Proof.
  intros Hat. unfold next_word_end. rewrite (split_min _ _ _ _ Hat).
  rewrite (skip_forward_at _ b a) by done. cbn [mbind option_bind].
  destruct (drop_while_prefix (λ c, negb (negb (is_whitespace c))) a) as (r & E & _).
  pose proof Hat as Hat'. rewrite E in Hat'. apply split_move_forward in Hat'.
  pose proof (split_length _ _ _ _ Hat') as Hl.
  rewrite Hl, Nat.add_sub, <- Hl.
  rewrite (skip_forward_at _ _ _ _ _ _ Hat') by lia.
  unfold behind_word. do 5 f_equal. apply drop_while_ext. intros c. apply negb_involutive.
Qed.

(** Only the newline holds the byte of a newline. *)
Lemma no_newline_cont s : all_cont s = true → no_newline s = true.
Proof.
  induction s as [|b s IH]; [done|]. cbn. intros [Hb Hs]%andb_true_iff.
  rewrite (IH Hs), andb_true_r. unfold is_cont in Hb.
  destruct (Ascii.eqb_spec b newline) as [->|]; [by vm_compute in Hb|done].
Qed.

Lemma valid_char_newline c : valid_char c → c = nl ∨ no_newline c = true.
Proof.
  destruct c as [|b c]; [done|]. intros (Hb & Hc & Ha). cbn [no_newline].
  destruct (Ascii.eqb_spec b newline) as [->|]; [left|right].
  - rewrite Ha; [done|]. vm_compute. lia.
  - cbn. by apply no_newline_cont.
Qed.

Lemma rfind_newline_app s t :
  rfind_newline (s +:+ t)
  = match rfind_newline t with Some i => Some (String.length s + i) | None => rfind_newline s end.
Proof.
  induction s as [|b s IH]; cbn; [by destruct (rfind_newline t)|]. rewrite IH.
  by destruct (rfind_newline t).
Qed.

Lemma rfind_no_newline s : no_newline s = true → rfind_newline s = None.
Proof.
  induction s as [|b s IH]; [done|]. cbn [no_newline rfind_newline]. intros [Hb Hs]%andb_true_iff.
  rewrite (IH Hs). by destruct (Ascii.eqb b newline).
Qed.

Lemma line_start_at b a text cursor :
  split_at b a text cursor →
  line_start text cursor = Some (String.length (str_concat (before_line b))).
Proof.
  intros Hat. unfold line_start. rewrite (split_min _ _ _ _ Hat), (slice_before _ _ _ _ Hat).
  cbn [mbind option_bind]. f_equal. destruct Hat as (_ & _ & Hb & _).
  induction b as [|c b IH] using rev_ind; [done|]. apply Forall_app in Hb as [Hb [Hc _]%Forall_cons].
  specialize (IH Hb).
  rewrite str_concat_app, rfind_newline_app. cbn [str_concat foldr]. rewrite str_app_nil_r.
  unfold before_line. rewrite drop_while_end_snoc. unfold not_newline at 1.
  destruct (String.eqb_spec c nl) as [->|Hne]; cbn [negb].
  - change (rfind_newline nl) with (Some 0). cbn [from_option].
    rewrite str_concat_app, str_length_app. change (String.length (str_concat [nl])) with 1. lia.
  - destruct (valid_char_newline c Hc) as [?|Hn]; [done|]. by rewrite rfind_no_newline.
Qed.

Lemma str_find_newline c s :
  valid_char c →
  str_find nl (c +:+ s) = if c =s nl then Some 0 else (Nat.add (String.length c)) <$> str_find nl s.
Proof.
  intros Hc. destruct (String.eqb_spec c nl) as [->|Hne]; [by destruct s|].
  destruct (valid_char_newline c Hc) as [?|Hn]; [done|]. clear Hc Hne.
  induction c as [|b c IH]; cbn [String.append]; [by destruct (str_find nl s)|].
  cbn [no_newline] in Hn. apply andb_true_iff in Hn as [Hb Hn].
  change (str_find nl (String b (c +:+ s))) with
    (if starts_with nl (String b (c +:+ s)) then Some 0 else S <$> str_find nl (c +:+ s)).
  rewrite (IH Hn). replace (starts_with nl _) with false.
  - by destruct (str_find nl s).
  - symmetry. cbn. fold newline. rewrite Ascii.eqb_sym. by destruct (Ascii.eqb b newline).
Qed.

Lemma line_end_at b a text cursor :
  split_at b a text cursor →
  line_end text cursor
  = Some (String.length text - String.length (str_concat (behind_line a))).
Proof.
  intros Hat. unfold line_end. rewrite (split_min _ _ _ _ Hat), (slice_after _ _ _ _ Hat).
  cbn [mbind option_bind]. f_equal. rewrite (split_length _ _ _ _ Hat).
  destruct Hat as (_ & _ & _ & Ha). revert cursor.
  induction Ha as [|c a Hc Ha IH]; intros cursor; [cbn; lia|]. cbn [str_concat foldr].
  rewrite str_find_newline by done. unfold behind_line. cbn [drop_while]. unfold not_newline at 1.
  rewrite str_length_app. destruct (c =s nl); cbn [negb from_option fst snd].
  - cbn [str_concat foldr]. rewrite str_length_app. lia.
  - specialize (IH (cursor + String.length c)). revert IH. unfold behind_line.
    destruct (str_find nl _); cbn [fmap option_fmap option_map from_option]; lia.
Qed.
