(* ===== verification/Composer.v ===== *)
(** * The composer of a desktop session ([crates/gcode-desktop/src/single_session.rs])

    The draft of a message with its cursor and its undo stack: the fields
    [draft], [draft_cursor] and [input_undo_stack] of [SingleSessionApp], and the
    methods that edit them. A method returns [None] where it panics. The
    theorems show that none does: each method implements an operation on two
    lists of characters, those before the cursor and those behind it. *)

From S2P Require Import Prelude Utf8 Text TextCursor.
Open Scope nat_scope.

Record Composer := {
  cp_draft : string;
  cp_draft_cursor : usize;
  cp_input_undo_stack : list (string * usize);
}.

Definition empty_composer : Composer :=
  {| cp_draft := ""; cp_draft_cursor := 0; cp_input_undo_stack := [] |}.

Definition set_text (draft : string) (cursor : usize) (c : Composer) : Composer :=
  {| cp_draft := draft; cp_draft_cursor := cursor;
     cp_input_undo_stack := cp_input_undo_stack c |}.
Definition set_cursor (cursor : usize) (c : Composer) : Composer := set_text (cp_draft c) cursor c.

(** ** Editing *)

Definition clamp_draft_cursor (c : Composer) : Composer :=
  set_cursor (back_to_boundary (cp_draft c) (cp_draft_cursor c `min` String.length (cp_draft c))) c.

Definition MAX_UNDO : usize := 64.

Definition remember_input_undo_state (c : Composer) : Composer :=
  if bool_decide (last (cp_input_undo_stack c) = Some (cp_draft c, cp_draft_cursor c)) then c
  else
    let stack := cp_input_undo_stack c ++ [(cp_draft c, cp_draft_cursor c)] in {|
    cp_draft := cp_draft c;
    cp_draft_cursor := cp_draft_cursor c;
    cp_input_undo_stack := if MAX_UNDO <? length stack then drop 1 stack else stack |}.

Definition remember_when (changes : bool) (c : Composer) : Composer :=
  if changes then remember_input_undo_state c else c.

Definition insert_draft_text (text : string) (c : Composer) : option Composer :=
  let c := clamp_draft_cursor (remember_when (negb (text =s "")) c) in
  draft ← insert_str (cp_draft c) (cp_draft_cursor c) text;
  Some (set_text draft (cp_draft_cursor c + String.length text) c).

Definition delete_previous_char (c : Composer) : option Composer :=
  let c := clamp_draft_cursor c in
  if cp_draft_cursor c =? 0 then Some c
  else
    let c := remember_input_undo_state c in
    previous ← previous_char_boundary (cp_draft c) (cp_draft_cursor c);
    draft ← remove_range (cp_draft c) previous (cp_draft_cursor c);
    Some (set_text draft previous c).

Definition delete_next_char (c : Composer) : option Composer :=
  let c := clamp_draft_cursor c in
  if String.length (cp_draft c) <=? cp_draft_cursor c then Some c
  else
    let c := remember_input_undo_state c in
    next ← next_char_boundary (cp_draft c) (cp_draft_cursor c);
    draft ← remove_range (cp_draft c) (cp_draft_cursor c) next;
    Some (set_text draft (cp_draft_cursor c) c).

(** Deleting from where [from] says up to the cursor: [delete_previous_word] and
    [delete_to_line_start]. *)
Definition delete_back (from : string → usize → option usize) (c : Composer) : option Composer :=
  let c := clamp_draft_cursor c in
  start ← from (cp_draft c) (cp_draft_cursor c);
  let c := remember_when (start <? cp_draft_cursor c) c in
  draft ← remove_range (cp_draft c) start (cp_draft_cursor c);
  Some (set_text draft start c).

(** Deleting from the cursor to where [to] says: [delete_next_word] and
    [delete_to_line_end]. *)
Definition delete_forward (to : string → usize → option usize) (c : Composer) : option Composer :=
  let c := clamp_draft_cursor c in
  end_ ← to (cp_draft c) (cp_draft_cursor c);
  let c := remember_when (cp_draft_cursor c <? end_) c in
  draft ← remove_range (cp_draft c) (cp_draft_cursor c) end_;
  Some (set_text draft (cp_draft_cursor c) c).

Definition delete_previous_word : Composer → option Composer := delete_back previous_word_start.
Definition delete_to_line_start : Composer → option Composer := delete_back line_start.
Definition delete_next_word : Composer → option Composer := delete_forward next_word_end.
Definition delete_to_line_end : Composer → option Composer := delete_forward line_end.

(** The six movements clamp the cursor and take it elsewhere. *)
Definition move_to (place : string → usize → option usize) (c : Composer) : option Composer :=
  let c := clamp_draft_cursor c in
  cursor ← place (cp_draft c) (cp_draft_cursor c);
  Some (set_cursor cursor c).

Definition move_cursor_left : Composer → option Composer := move_to previous_char_boundary.
Definition move_cursor_right : Composer → option Composer := move_to next_char_boundary.
Definition move_cursor_word_left : Composer → option Composer := move_to previous_word_start.
Definition move_cursor_word_right : Composer → option Composer := move_to next_word_end.
Definition move_to_line_start : Composer → option Composer := move_to line_start.
Definition move_to_line_end : Composer → option Composer := move_to line_end.

Definition undo_input_change (c : Composer) : Composer :=
  match vec_pop (cp_input_undo_stack c) with
  | Some ((draft, cursor), stack) =>
      clamp_draft_cursor {|
        cp_draft := draft;
        cp_draft_cursor := cursor `min` String.length draft;
        cp_input_undo_stack := stack |}
  | None => c
  end.

(** ** The place of the cursor *)

Definition newlines (s : string) : usize := length (filter (λ c, c = nl) (chars s)).

Definition draft_cursor_line_col (c : Composer) : option (usize * usize) :=
  before_cursor ← slice (cp_draft c) 0 (cp_draft_cursor c `min` String.length (cp_draft c));
  Some (newlines before_cursor,
        length (chars (default "" (last (split_nl before_cursor))))).

Definition draft_cursor_line_byte_index (c : Composer) : option (usize * usize) :=
  let cursor := cp_draft_cursor c `min` String.length (cp_draft c) in
  before_cursor ← slice (cp_draft c) 0 cursor;
  start ← line_start (cp_draft c) cursor;
  Some (newlines before_cursor, cursor - start).

Definition edits (ops : list (Composer → option Composer)) (c : Composer) : option Composer :=
  foldl (λ c op, c ← c; op c) (Some c) ops.

Example composer_samples :
  let typed ops := edits (insert_draft_text "hi  thére" :: ops) empty_composer in
  (cp_draft <$> typed [delete_previous_word]) = Some "hi  "
  ∧ (cp_draft <$> typed [move_cursor_left; move_cursor_left; delete_previous_char])
    = Some "hi  thre"
  ∧ ((λ c, cp_draft (undo_input_change c)) <$> typed [delete_previous_word]) = Some "hi  thére"
  ∧ (c ← typed [move_cursor_left]; draft_cursor_line_col c) = Some (0, 8).
Proof. vm_compute. repeat split. Qed.

(** ** The composer as two lists of characters *)

(** The characters before the cursor and behind it, and what came before. *)
Record Editor := {
  ed_before : list string;
  ed_behind : list string;
  ed_undo : list (list string * list string);
}.

Definition ed_text (ed : Editor) : list string * list string := (ed_before ed, ed_behind ed).

(** To change the text and remember the old one, but not twice, and at most the
    last 64 of them. *)
Definition ed_remember (ed : Editor) : list (list string * list string) :=
  if bool_decide (last (ed_undo ed) = Some (ed_text ed)) then ed_undo ed
  else
    let stack := ed_undo ed ++ [ed_text ed] in
    drop (length stack - MAX_UNDO) stack.

Definition ed_change (before behind : list string) (ed : Editor) : Editor :=
  if bool_decide ((before, behind) = ed_text ed) then ed
  else {| ed_before := before; ed_behind := behind; ed_undo := ed_remember ed |}.

Definition ed_move (before behind : list string) (ed : Editor) : Editor :=
  {| ed_before := before; ed_behind := behind; ed_undo := ed_undo ed |}.

Definition ed_back (before : list string) (ed : Editor) : Editor :=
  ed_move before (drop (length before) (ed_before ed) ++ ed_behind ed) ed.
Definition ed_forward (behind : list string) (ed : Editor) : Editor :=
  ed_move (ed_before ed ++ take (length (ed_behind ed) - length behind) (ed_behind ed)) behind ed.

Definition ed_undo_change (ed : Editor) : Editor :=
  match vec_pop (ed_undo ed) with
  | Some ((before, behind), stack) =>
      {| ed_before := before; ed_behind := behind; ed_undo := stack |}
  | None => ed
  end.

(** A composer shows an editor. *)
Definition shows (c : Composer) (ed : Editor) : Prop :=
  split_at (ed_before ed) (ed_behind ed) (cp_draft c) (cp_draft_cursor c) ∧
  Forall2 (λ u v, split_at v.1 v.2 u.1 u.2) (cp_input_undo_stack c) (ed_undo ed) ∧
  length (cp_input_undo_stack c) ≤ MAX_UNDO.

(** The method [op] is the operation [spec] of the editor, and it does not panic. *)
Definition implements (op : Composer → option Composer) (spec : Editor → Editor) : Prop :=
  ∀ c ed, shows c ed → ∃ c', op c = Some c' ∧ shows c' (spec ed).

Lemma split_unique b1 a1 b2 a2 text cursor :
  split_at b1 a1 text cursor → split_at b2 a2 text cursor → b1 = b2 ∧ a1 = a2.
Proof.
  intros H1 H2. pose proof (split_take _ _ _ _ H1) as E1. rewrite (split_take _ _ _ _ H2) in E1.
  pose proof (split_drop _ _ _ _ H1) as E2. rewrite (split_drop _ _ _ _ H2) in E2.
  destruct H1 as (_ & _ & Hb1 & Ha1), H2 as (_ & _ & Hb2 & Ha2).
  by rewrite <- (chars_valid b1), <- (chars_valid a1), <- E1, <- E2, !chars_valid.
Qed.

Lemma split_determined b a t1 c1 t2 c2 :
  split_at b a t1 c1 → split_at b a t2 c2 → t1 = t2 ∧ c1 = c2.
Proof. by intros (-> & -> & _) (-> & -> & _). Qed.

Lemma boundary_stays s cursor : is_char_boundary s cursor = true → back_to_boundary s cursor = cursor.
Proof. by destruct cursor; cbn [back_to_boundary]; intros ->. Qed.

(** Clamping changes nothing. *)
Lemma clamp_id c ed : shows c ed → clamp_draft_cursor c = c.
Proof.
  intros (Hs & _). unfold clamp_draft_cursor. rewrite (split_min _ _ _ _ Hs).
  rewrite boundary_stays by by eapply split_boundary. by destruct c.
Qed.

Lemma last_text_shown c ed :
  shows c ed →
  last (cp_input_undo_stack c) = Some (cp_draft c, cp_draft_cursor c)
  ↔ last (ed_undo ed) = Some (ed_text ed).
Proof.
  intros (Hs & Hu & _). destruct (Forall2_last _ _ _ Hu) as [[t n] [b a] Huv|]; [|done].
  cbn in Huv. split; intros [= -> ->].
  - f_equal. destruct (split_unique _ _ _ _ _ _ Hs Huv) as [E1 E2]. unfold ed_text. by rewrite E1, E2.
  - by destruct (split_determined _ _ _ _ _ _ Hs Huv) as [-> ->].
Qed.

Lemma remember_shows c ed :
  shows c ed →
  shows (remember_input_undo_state c)
    {| ed_before := ed_before ed; ed_behind := ed_behind ed; ed_undo := ed_remember ed |}.
Proof.
  intros Hs. pose proof (last_text_shown c ed Hs) as Hlast.
  destruct Hs as (Hs & Hu & Hl). unfold remember_input_undo_state, ed_remember.
  rewrite (bool_decide_ext _ _ Hlast). case_bool_decide; [done|].
  assert (length (ed_undo ed) = length (cp_input_undo_stack c)) as El
    by (symmetry; by eapply Forall2_length).
  unfold shows. cbn [cp_draft cp_draft_cursor cp_input_undo_stack ed_before ed_behind ed_undo].
  rewrite !length_app, El. cbn [length].
  assert (Forall2 (λ u v, split_at v.1 v.2 u.1 u.2)
    (cp_input_undo_stack c ++ [(cp_draft c, cp_draft_cursor c)]) (ed_undo ed ++ [ed_text ed])) as Hu'
    by (apply Forall2_app; [done|constructor; [done|constructor]]).
  destruct (Nat.ltb_spec MAX_UNDO (length (cp_input_undo_stack c) + 1)); split_and!; try done.
  - replace (_ - MAX_UNDO) with 1 by lia. by apply Forall2_drop.
  - rewrite length_drop, length_app. cbn [length]. lia.
  - replace (_ - MAX_UNDO) with 0 by lia. done.
  - rewrite length_app. cbn [length]. lia.
Qed.

Lemma set_text_shows c ed draft cursor b a :
  shows c ed → split_at b a draft cursor →
  shows (set_text draft cursor c) (ed_move b a ed).
Proof. by intros (_ & Hu & Hl) Hs. Qed.

(** A method that changes the text and remembers the old one. *)
Lemma change_shows c ed draft cursor b a :
  shows c ed → split_at b a draft cursor → (b, a) ≠ ed_text ed →
  shows (set_text draft cursor (remember_input_undo_state c)) (ed_change b a ed).
Proof.
  intros Hs Hat Hne. unfold ed_change. rewrite bool_decide_eq_false_2 by done.
  by apply (set_text_shows _ _ _ _ _ _ (remember_shows c ed Hs)).
Qed.

Lemma remember_draft c : cp_draft (remember_input_undo_state c) = cp_draft c.
Proof. unfold remember_input_undo_state. by case_bool_decide. Qed.
Lemma remember_cursor c : cp_draft_cursor (remember_input_undo_state c) = cp_draft_cursor c.
Proof. unfold remember_input_undo_state. by case_bool_decide. Qed.

Lemma remove_range_split b m a text cursor :
  split_at (b ++ m) a text cursor →
  ∃ text', remove_range text (String.length (str_concat b)) cursor = Some text' ∧
    split_at b a text' (String.length (str_concat b)).
Proof.
  intros Hat. pose proof (split_move _ _ _ _ _ Hat) as Hb. unfold remove_range.
  assert (String.length (str_concat b) ≤ cursor) as Hle.
  { destruct Hat as (_ & -> & _ & _). rewrite str_concat_app, str_length_app. lia. }
  rewrite (split_boundary _ _ _ _ Hb), (split_boundary _ _ _ _ Hat).
  rewrite (proj2 (Nat.leb_le _ _)) by done. cbn [andb]. eexists. split; [done|].
  rewrite (split_take _ _ _ _ Hb), (split_drop _ _ _ _ Hat).
  destruct Hat as (_ & _ & [Hb1 _]%Forall_app & Ha). by split_and!.
Qed.

Lemma insert_implements text :
  valid_text text →
  implements (insert_draft_text text) (λ ed, ed_change (ed_before ed ++ chars text) (ed_behind ed) ed).
Proof.
  intros Hv c ed Hs. unfold insert_draft_text.
  assert (clamp_draft_cursor (remember_when (negb (text =s "")) c)
    = remember_when (negb (text =s "")) c) as ->.
  { destruct (text =s ""); [by eapply clamp_id|]. eapply clamp_id, remember_shows, Hs. }
  assert (cp_draft (remember_when (negb (text =s "")) c) = cp_draft c) as ->
    by (destruct (text =s ""); [done|apply remember_draft]).
  assert (cp_draft_cursor (remember_when (negb (text =s "")) c) = cp_draft_cursor c) as ->
    by (destruct (text =s ""); [done|apply remember_cursor]).
  pose proof Hs as (Hat & _). unfold insert_str. rewrite (split_boundary _ _ _ _ Hat).
  cbn [mbind option_bind]. eexists. split; [done|].
  assert (split_at (ed_before ed ++ chars text) (ed_behind ed)
    (str_take (cp_draft_cursor c) (cp_draft c) +:+ text +:+ str_drop (cp_draft_cursor c) (cp_draft c))
    (cp_draft_cursor c + String.length text)) as Hat'.
  { rewrite (split_take _ _ _ _ Hat), (split_drop _ _ _ _ Hat). destruct Hat as (_ & -> & Hb & Ha).
    split_and!; [..|by apply Forall_app|done].
    - by rewrite str_concat_app, str_concat_chars, str_app_assoc.
    - by rewrite str_concat_app, str_concat_chars, str_length_app. }
  destruct (String.eqb_spec text "") as [->|Hne]; cbn [negb remember_when].
  - unfold ed_change. cbn [chars] in *. rewrite app_nil_r in *. rewrite bool_decide_eq_true_2 by done.
    apply (set_text_shows c ed _ _ _ _ Hs) in Hat'. by destruct ed.
  - apply change_shows; [done..|]. intros [= E].
    rewrite <- (app_nil_r (ed_before ed)) in E at 2. by apply app_inv_head, chars_nil in E.
Qed.

(** ** Places before and behind the cursor *)

(** [place] finds the end of a part [f] of what is before the cursor. *)
Definition place_before (place : string → usize → option usize) (f : list string → list string)
    : Prop :=
  (∀ b, ∃ r, b = f b ++ r) ∧
  ∀ b a text cursor, split_at b a text cursor →
    place text cursor = Some (String.length (str_concat (f b))).

(** [place] finds the start of a part [f] of what is behind the cursor. *)
Definition place_behind (place : string → usize → option usize) (f : list string → list string)
    : Prop :=
  (∀ a, ∃ r, a = r ++ f a) ∧
  ∀ b a text cursor, split_at b a text cursor →
    place text cursor = Some (String.length text - String.length (str_concat (f a))).

Lemma previous_char_place : place_before previous_char_boundary (@removelast _).
Proof.
  split; intros b; destruct b as [|x b _] using rev_ind.
  - by exists [].
  - exists [x]. by rewrite removelast_last.
  - intros a text cursor Hat. by rewrite (previous_at_start a).
  - intros a text cursor Hat. by rewrite removelast_last, (previous_at b x a).
Qed.

Lemma next_char_place : place_behind next_char_boundary tail.
Proof.
  split; [intros [|x a]; [by exists []|by exists [x]]|].
  intros b [|x a] text cursor Hat; pose proof (split_length _ _ _ _ Hat) as Hl.
  - rewrite (next_at_end b) by done. f_equal. cbn in *. lia.
  - rewrite (next_at b x a) by done. f_equal. change (str_concat (x :: a)) with (x +:+ str_concat a) in Hl.
    rewrite str_length_app in Hl. cbn [tail]. lia.
Qed.

Lemma drop_while_split {A} (p : A → bool) l : ∃ r, l = r ++ drop_while p l.
Proof. destruct (drop_while_prefix p l) as (r & E & _). by exists r. Qed.

Lemma word_start_place : place_before previous_word_start before_word.
Proof.
  split; [|apply previous_word_at]. intros b. unfold before_word.
  destruct (drop_while_end_split is_whitespace b) as [r E].
  destruct (drop_while_end_split (λ c, negb (is_whitespace c)) (drop_while_end is_whitespace b))
    as [r' E']. exists (r' ++ r). by rewrite app_assoc, <- E'.
Qed.

Lemma word_end_place : place_behind next_word_end behind_word.
Proof.
  split; [|apply next_word_at]. intros a. unfold behind_word.
  destruct (drop_while_split is_whitespace a) as [r E].
  destruct (drop_while_split (λ c, negb (is_whitespace c)) (drop_while is_whitespace a)) as [r' E'].
  exists (r ++ r'). by rewrite <- app_assoc, <- E'.
Qed.

Lemma line_start_place : place_before line_start before_line.
Proof. split; [apply drop_while_end_split|apply line_start_at]. Qed.

Lemma line_end_place : place_behind line_end behind_line.
Proof. split; [apply drop_while_split|apply line_end_at]. Qed.

(** The texts around a place. *)
Lemma split_back b r a text cursor :
  split_at (b ++ r) a text cursor → r ≠ [] → String.length (str_concat b) < cursor.
Proof.
  intros (_ & -> & [_ Hr]%Forall_app & _) Hne. destruct r as [|x r]; [done|].
  apply Forall_cons in Hr as [Hx _]. rewrite str_concat_app, str_length_app. cbn [str_concat foldr].
  rewrite str_length_app. apply valid_char_length in Hx. lia.
Qed.

Lemma app_same {A} (b r : list A) : b = b ++ r → r = [].
Proof. rewrite <- (app_nil_r b) at 1. intros E. by apply app_inv_head in E. Qed.

Lemma app_same_behind {A} (r a : list A) : a = r ++ a → r = [].
Proof. intros E%(f_equal length). rewrite length_app in E. destruct r; cbn in *; [done|lia]. Qed.

Lemma delete_back_change b r a c ed :
  shows c ed → ed_before ed = b ++ r → ed_behind ed = a → r ≠ [] →
  ∃ draft, remove_range (cp_draft c) (String.length (str_concat b)) (cp_draft_cursor c) = Some draft ∧
    shows (set_text draft (String.length (str_concat b)) (remember_input_undo_state c))
      (ed_change b a ed).
Proof.
  intros Hs Hb Ha Hr. pose proof Hs as (Hat & _). rewrite Hb, Ha in Hat.
  destruct (remove_range_split _ _ _ _ _ Hat) as (draft & E & Hat'). exists draft. split; [done|].
  apply change_shows; [done..|]. unfold ed_text. rewrite Hb. intros [= E' _]. by apply app_same in E'.
Qed.

Lemma remove_nothing text cursor :
  is_char_boundary text cursor = true → remove_range text cursor cursor = Some text.
Proof. intros Hb. unfold remove_range. by rewrite Hb, Nat.leb_refl, str_take_drop. Qed.

Lemma set_text_same c : set_text (cp_draft c) (cp_draft_cursor c) c = c.
Proof. by destruct c. Qed.

Lemma delete_back_implements from f :
  place_before from f →
  implements (delete_back from) (λ ed, ed_change (f (ed_before ed)) (ed_behind ed) ed).
Proof.
  intros [Hf Hplace] c ed Hs. unfold delete_back. rewrite (clamp_id c ed Hs). pose proof Hs as (Hat & _).
  rewrite (Hplace _ _ _ _ Hat). cbn [mbind option_bind].
  destruct (Hf (ed_before ed)) as [r E]. destruct (decide (r = [])) as [->|Hr].
  - rewrite app_nil_r in E. rewrite <- E. unfold ed_change. rewrite bool_decide_eq_true_2 by done.
    destruct Hat as (Et & Ec & Hv). rewrite <- Ec, Nat.ltb_irrefl. cbn [remember_when].
    rewrite remove_nothing by (eapply split_boundary, Hs). cbn [mbind option_bind].
    rewrite set_text_same. by eexists.
  - pose proof Hat as Hat'. rewrite E in Hat'. pose proof (split_back _ _ _ _ _ Hat' Hr) as Hlt.
    rewrite (proj2 (Nat.ltb_lt _ _)) by done. cbn [remember_when].
    rewrite remember_draft, remember_cursor.
    destruct (delete_back_change _ _ _ _ _ Hs E eq_refl Hr) as (draft & -> & Hshow). by eexists.
Qed.

Lemma delete_previous_char_implements :
  implements delete_previous_char (λ ed, ed_change (removelast (ed_before ed)) (ed_behind ed) ed).
Proof.
  intros c ed Hs. unfold delete_previous_char. rewrite (clamp_id c ed Hs). pose proof Hs as (Hat & _).
  destruct (ed_before ed) as [|x b _] eqn:Eb using rev_ind.
  - unfold ed_change, ed_text. rewrite Eb. rewrite bool_decide_eq_true_2 by done.
    destruct Hat as (_ & -> & _). by eexists.
  - rewrite removelast_last. pose proof (split_back _ _ _ _ _ Hat) as Hlt.
    rewrite (proj2 (Nat.eqb_neq _ _)) by (specialize (Hlt ltac:(done)); lia).
    rewrite remember_draft, remember_cursor, (previous_at _ _ _ _ _ Hat). cbn [mbind option_bind].
    destruct (delete_back_change b [x] (ed_behind ed) c ed Hs Eb eq_refl) as (draft & -> & Hshow); [done|].
    by eexists.
Qed.

(** Where a place behind the cursor is. *)
Lemma place_behind_at b r a text cursor :
  split_at b (r ++ a) text cursor →
  split_at (b ++ r) a text (String.length text - String.length (str_concat a)).
Proof.
  intros Hat%split_move_forward. pose proof (split_length _ _ _ _ Hat).
  by replace (_ - _) with (String.length (str_concat (b ++ r))) by lia.
Qed.

Lemma split_forward b r a text cursor :
  split_at b (r ++ a) text cursor → r ≠ [] →
  cursor < String.length text - String.length (str_concat a).
Proof.
  intros Hat Hr. pose proof (split_back _ _ _ _ _ (place_behind_at _ _ _ _ _ Hat) Hr) as Hlt.
  by destruct Hat as (_ & -> & _).
Qed.

Lemma delete_forward_change b r a c ed :
  shows c ed → ed_before ed = b → ed_behind ed = r ++ a → r ≠ [] →
  ∃ draft, remove_range (cp_draft c) (cp_draft_cursor c)
      (String.length (cp_draft c) - String.length (str_concat a)) = Some draft ∧
    shows (set_text draft (cp_draft_cursor c) (remember_input_undo_state c)) (ed_change b a ed).
Proof.
  intros Hs Hb Ha Hr. pose proof Hs as (Hat & _). rewrite Hb, Ha in Hat.
  destruct (remove_range_split _ _ _ _ _ (place_behind_at _ _ _ _ _ Hat)) as (draft & E & Hat').
  assert (String.length (str_concat b) = cp_draft_cursor c) as Ec by (by destruct Hat as (_ & -> & _)).
  rewrite Ec in *. exists draft. split; [done|]. apply change_shows; [done..|].
  unfold ed_text. rewrite Ha. intros [= _ E']. by apply app_same_behind in E'.
Qed.

Lemma delete_forward_implements to f :
  place_behind to f →
  implements (delete_forward to) (λ ed, ed_change (ed_before ed) (f (ed_behind ed)) ed).
Proof.
  intros [Hf Hplace] c ed Hs. unfold delete_forward. rewrite (clamp_id c ed Hs).
  pose proof Hs as (Hat & _). rewrite (Hplace _ _ _ _ Hat). cbn [mbind option_bind].
  destruct (Hf (ed_behind ed)) as [r E]. destruct (decide (r = [])) as [->|Hr].
  - cbn [app] in E. rewrite <- E. unfold ed_change. rewrite bool_decide_eq_true_2 by done.
    replace (_ - _) with (cp_draft_cursor c) by (rewrite (split_length _ _ _ _ Hat); lia).
    rewrite Nat.ltb_irrefl. cbn [remember_when].
    rewrite remove_nothing by (eapply split_boundary, Hs). cbn [mbind option_bind].
    rewrite set_text_same. by eexists.
  - pose proof Hat as Hat'. rewrite E in Hat'. pose proof (split_forward _ _ _ _ _ Hat' Hr) as Hlt.
    rewrite (proj2 (Nat.ltb_lt _ _)) by done. cbn [remember_when].
    rewrite remember_draft, remember_cursor.
    destruct (delete_forward_change _ _ _ _ _ Hs eq_refl E Hr) as (draft & -> & Hshow). by eexists.
Qed.

Lemma delete_next_char_implements :
  implements delete_next_char (λ ed, ed_change (ed_before ed) (tail (ed_behind ed)) ed).
Proof.
  intros c ed Hs. unfold delete_next_char. rewrite (clamp_id c ed Hs). pose proof Hs as (Hat & _).
  pose proof (split_length _ _ _ _ Hat) as Hl. destruct (ed_behind ed) as [|x a] eqn:Ea.
  - cbn in Hl. rewrite (proj2 (Nat.leb_le _ _)) by lia. unfold ed_change, ed_text. rewrite Ea.
    rewrite bool_decide_eq_true_2 by done. by eexists.
  - pose proof (split_forward _ [x] a _ _ Hat) as Hlt.
    rewrite (proj2 (Nat.leb_gt _ _)) by (specialize (Hlt ltac:(done)); lia).
    destruct next_char_place as [_ Hplace]. rewrite remember_draft, remember_cursor.
    rewrite (Hplace _ _ _ _ Hat). cbn [mbind option_bind tail].
    destruct (delete_forward_change _ [x] a c ed Hs eq_refl Ea) as (draft & -> & Hshow); [done|].
    by eexists.
Qed.

Lemma move_back_implements place f :
  place_before place f → implements (move_to place) (λ ed, ed_back (f (ed_before ed)) ed).
Proof.
  intros [Hf Hplace] c ed Hs. unfold move_to. rewrite (clamp_id c ed Hs). pose proof Hs as (Hat & _).
  rewrite (Hplace _ _ _ _ Hat). cbn [mbind option_bind]. eexists. split; [done|].
  destruct (Hf (ed_before ed)) as [r E]. unfold ed_back.
  assert (drop (length (f (ed_before ed))) (ed_before ed) = r) as ->
    by (rewrite E at 2; apply drop_app_length).
  rewrite E in Hat. apply split_move in Hat. unfold set_cursor. by apply set_text_shows.
Qed.

Lemma move_forward_implements place f :
  place_behind place f → implements (move_to place) (λ ed, ed_forward (f (ed_behind ed)) ed).
Proof.
  intros [Hf Hplace] c ed Hs. unfold move_to. rewrite (clamp_id c ed Hs). pose proof Hs as (Hat & _).
  rewrite (Hplace _ _ _ _ Hat). cbn [mbind option_bind]. eexists. split; [done|].
  destruct (Hf (ed_behind ed)) as [r E]. unfold ed_forward.
  assert (take (length (ed_behind ed) - length (f (ed_behind ed))) (ed_behind ed) = r) as ->.
  { rewrite E at 1 3. by rewrite length_app, Nat.add_sub, take_app_length. }
  rewrite E in Hat at 1.
  apply place_behind_at in Hat. unfold set_cursor. by apply set_text_shows.
Qed.

Lemma undo_implements : implements (λ c, Some (undo_input_change c)) ed_undo_change.
Proof.
  intros c ed (Hat & Hu & Hl). eexists. split; [done|]. unfold undo_input_change, ed_undo_change.
  destruct (vec_pop (cp_input_undo_stack c)) as [[[draft cursor] stack]|] eqn:E.
  - apply vec_pop_Some in E. rewrite E in *.
    apply Forall2_app_inv_l in Hu as (us & vs & Hus & Hv & Eu).
    inversion Hv as [|? [b a] ? ? Hba Hnil]; subst. inversion Hnil; subst. rewrite Eu.
    assert (vec_pop (us ++ [(b, a)]) = Some ((b, a), us)) as ->.
    { unfold vec_pop. rewrite reverse_snoc. cbn. by rewrite reverse_involutive. }
    cbn in Hba. rewrite length_app in Hl. cbn [length] in Hl.
    assert (shows {| cp_draft := draft; cp_draft_cursor := cursor `min` String.length draft;
        cp_input_undo_stack := stack |}
      {| ed_before := b; ed_behind := a; ed_undo := us |}) as Hs.
    { split_and!; cbn; [|done|lia]. by rewrite (split_min _ _ _ _ Hba). }
    by rewrite (clamp_id _ _ Hs).
  - apply vec_pop_None in E. pose proof Hu as Hu'. rewrite E in Hu'.
    apply Forall2_nil_inv_l in Hu' as E'. rewrite E'. cbn. by split_and!.
Qed.

(** Every shown editor is shown by one text only, and a composer shows one editor
    only. *)
Lemma shows_unique c ed1 ed2 : shows c ed1 → shows c ed2 → ed1 = ed2.
Proof.
  intros (H1 & Hu1 & _) (H2 & Hu2 & _). destruct (split_unique _ _ _ _ _ _ H1 H2) as [E1 E2].
  assert (ed_undo ed1 = ed_undo ed2) as E3; [|by destruct ed1, ed2; cbn in *; subst].
  clear - Hu1 Hu2. revert Hu2. generalize (ed_undo ed2). induction Hu1 as [|u [b a] us vs Huv _ IH].
  - intros l Hl. by inversion Hl.
  - intros l Hl. inversion Hl as [|? [b' a'] ? ? Huv' Hl']; subst. cbn in *.
    destruct (split_unique _ _ _ _ _ _ Huv Huv') as [-> ->]. f_equal. by apply IH.
Qed.

Lemma empty_shows : shows empty_composer {| ed_before := []; ed_behind := []; ed_undo := [] |}.
Proof. by split_and!; [split_and!| |unfold MAX_UNDO; cbn; lia]. Qed.
