(* ===== verification/SessionPickers.v ===== *)
(** * The pickers of a desktop session ([crates/gcode-desktop/src/single_session.rs])

    The picker of a model and the switcher between sessions: overlays with a list
    of choices, a filter text and a selected place in the filtered list. *)

From S2P Require Import Prelude Utf8 Text DesktopWorkspace.
Open Scope nat_scope.

(** ** What both pickers do *)

Section picker.
Context `{UnicodeLower}.

(** The indices of the items whose text contains the filter. *)
Definition matching_indices {A} (search_text : A → string) (filter_text : string) (items : list A)
    : list usize :=
  let query := to_lowercase (trim filter_text) in
  fst <$> filter (λ p, Is_true ((query =s "") || str_contains query (search_text p.2)))
            (imap pair items).
End picker.

(** [delta.unsigned_abs() as usize] for an [i32] *)
Definition steps (delta : Z) : usize := Z.to_nat (Z.abs delta).

Definition moved_selection (delta : Z) (visible_len selected : usize) : usize :=
  if visible_len =? 0 then 0
  else if (delta <? 0)%Z then selected - steps delta
  else (selected + Z.to_nat delta) `min` (visible_len - 1).

Definition clamped_selection (visible_len selected : usize) : usize :=
  if visible_len =? 0 then 0
  else if visible_len <=? selected then visible_len - 1 else selected.

(** [s.pop()] *)
Definition pop_char (s : string) : string := str_concat (removelast (chars s)).

(** ** The model picker *)

Record DesktopModelChoice := {
  dm_model : string;
  dm_provider : option string;
  dm_detail : option string;
  dm_available : bool;
}.

Record ModelPickerState := {
  mp_open : bool;
  mp_loading : bool;
  mp_filter : string;
  mp_selected : usize;
  mp_current_model : option string;
  mp_provider_name : option string;
  mp_choices : list DesktopModelChoice;
  mp_error : option string;
}.

Definition default_model_picker : ModelPickerState := {|
  mp_open := false; mp_loading := false; mp_filter := ""; mp_selected := 0;
  mp_current_model := None; mp_provider_name := None; mp_choices := []; mp_error := None |}.

(** Assignments to the fields *)
Definition mp_show (opened loading : bool) (error : option string) (p : ModelPickerState)
    : ModelPickerState := {|
  mp_open := opened; mp_loading := loading; mp_filter := mp_filter p; mp_selected := mp_selected p;
  mp_current_model := mp_current_model p; mp_provider_name := mp_provider_name p;
  mp_choices := mp_choices p; mp_error := error |}.
Definition mp_select (filter_text : string) (selected : usize) (p : ModelPickerState)
    : ModelPickerState := {|
  mp_open := mp_open p; mp_loading := mp_loading p; mp_filter := filter_text;
  mp_selected := selected; mp_current_model := mp_current_model p;
  mp_provider_name := mp_provider_name p; mp_choices := mp_choices p; mp_error := mp_error p |}.
Definition mp_catalog (current_model provider_name : option string)
    (choices : list DesktopModelChoice) (p : ModelPickerState) : ModelPickerState := {|
  mp_open := mp_open p; mp_loading := mp_loading p; mp_filter := mp_filter p;
  mp_selected := mp_selected p; mp_current_model := current_model;
  mp_provider_name := provider_name; mp_choices := choices; mp_error := mp_error p |}.

Definition current_choice_index (p : ModelPickerState) : option usize :=
  current ← mp_current_model p;
  position (λ choice, dm_model choice =s current) (mp_choices p).

Definition ensure_current_choice_present (p : ModelPickerState) : ModelPickerState :=
  match mp_current_model p with
  | None => p
  | Some current_model =>
      if existsb (λ choice, dm_model choice =s current_model) (mp_choices p) then p
      else
        mp_catalog (mp_current_model p) (mp_provider_name p)
          ({| dm_model := current_model; dm_provider := mp_provider_name p;
              dm_detail := Some "current model"; dm_available := true |} :: mp_choices p) p
  end.

Definition same_choice (existing choice : DesktopModelChoice) : bool :=
  (dm_model existing =s dm_model choice)
  && bool_decide (dm_provider existing = dm_provider choice)
  && bool_decide (dm_detail existing = dm_detail choice).

Definition dedupe_model_choices (choices : list DesktopModelChoice) : list DesktopModelChoice :=
  foldl (λ deduped choice,
    if existsb (λ existing, same_choice existing choice) deduped then deduped
    else deduped ++ [choice]) [] choices.

(** A missing option keeps the old one. *)
Definition or_keep {A} (new old : option A) : option A :=
  match new with Some _ => new | None => old end.

Section model_picker.
Context `{UnicodeLower}.

Definition model_choice_search_text (choice : DesktopModelChoice) : string :=
  to_lowercase (dm_model choice +:+ " " +:+ default "" (dm_provider choice)
    +:+ " " +:+ default "" (dm_detail choice)).

Definition mp_filtered_indices (p : ModelPickerState) : list usize :=
  matching_indices model_choice_search_text (mp_filter p) (mp_choices p).

Definition mp_current_visible_position (p : ModelPickerState) : option usize :=
  current ← current_choice_index p;
  position (λ index, index =? current) (mp_filtered_indices p).

Definition mp_clamp_selection (p : ModelPickerState) : ModelPickerState :=
  mp_select (mp_filter p) (clamped_selection (length (mp_filtered_indices p)) (mp_selected p)) p.

Definition mp_open_loading (p : ModelPickerState) : ModelPickerState :=
  let p := mp_show true true None p in
  mp_select (mp_filter p) (default 0 (current_choice_index p)) p.

Definition mp_close (p : ModelPickerState) : ModelPickerState := mp_show false false None p.

Definition mp_apply_catalog (current_model provider_name : option string)
    (choices : list DesktopModelChoice) (p : ModelPickerState) : ModelPickerState :=
  let p := mp_catalog (or_keep current_model (mp_current_model p))
             (or_keep provider_name (mp_provider_name p))
             (match choices with [] => mp_choices p | _ => dedupe_model_choices choices end) p in
  let p := ensure_current_choice_present (mp_show (mp_open p) false None p) in
  mp_clamp_selection (mp_select (mp_filter p) (default 0 (mp_current_visible_position p)) p).

Definition mp_apply_error (error : string) (p : ModelPickerState) : ModelPickerState :=
  mp_show true false (Some error) p.

Definition mp_apply_model_change (model : string) (provider_name : option string)
    (p : ModelPickerState) : ModelPickerState :=
  let p := ensure_current_choice_present
    (mp_catalog (Some model) (or_keep provider_name (mp_provider_name p)) (mp_choices p) p) in
  mp_clamp_selection
    (mp_select (mp_filter p) (default (mp_selected p) (mp_current_visible_position p)) p).

Definition selected_model (p : ModelPickerState) : option string :=
  index ← mp_filtered_indices p !! mp_selected p;
  dm_model <$> mp_choices p !! index.

Definition mp_move_selection (delta : Z) (p : ModelPickerState) : ModelPickerState :=
  mp_select (mp_filter p)
    (moved_selection delta (length (mp_filtered_indices p)) (mp_selected p)) p.

Definition mp_push_filter_text (text : string) (p : ModelPickerState) : ModelPickerState :=
  mp_select (mp_filter p +:+ text) 0 p.
Definition mp_pop_filter_char (p : ModelPickerState) : ModelPickerState :=
  mp_select (pop_char (mp_filter p)) 0 p.
End model_picker.

(** ** The session switcher *)

Record SessionSwitcherState := {
  sw_open : bool;
  sw_loading : bool;
  sw_filter : string;
  sw_selected : usize;
  sw_sessions : list SessionCard;
}.

Definition default_session_switcher : SessionSwitcherState :=
  {| sw_open := false; sw_loading := false; sw_filter := ""; sw_selected := 0; sw_sessions := [] |}.

(** Assignments to the fields *)
Definition sw_show (opened loading : bool) (s : SessionSwitcherState) : SessionSwitcherState :=
  {| sw_open := opened; sw_loading := loading; sw_filter := sw_filter s;
     sw_selected := sw_selected s; sw_sessions := sw_sessions s |}.
Definition sw_select (filter_text : string) (selected : usize) (s : SessionSwitcherState)
    : SessionSwitcherState :=
  {| sw_open := sw_open s; sw_loading := sw_loading s; sw_filter := filter_text;
     sw_selected := selected; sw_sessions := sw_sessions s |}.
Definition sw_load (sessions : list SessionCard) (s : SessionSwitcherState) : SessionSwitcherState :=
  {| sw_open := sw_open s; sw_loading := sw_loading s; sw_filter := sw_filter s;
     sw_selected := sw_selected s; sw_sessions := sessions |}.

Section session_switcher.
Context `{UnicodeLower}.

Definition session_card_search_text (session : SessionCard) : string :=
  to_lowercase (foldl (λ text line, text +:+ " " +:+ line)
    (sc_session_id session +:+ " " +:+ sc_title session +:+ " " +:+ sc_subtitle session
     +:+ " " +:+ sc_detail session)
    (sc_preview_lines session ++ sc_detail_lines session)).

Definition sw_filtered_indices (s : SessionSwitcherState) : list usize :=
  matching_indices session_card_search_text (sw_filter s) (sw_sessions s).

Definition sw_current_visible_position (current_session_id : option string)
    (s : SessionSwitcherState) : option usize :=
  current_session_id ← current_session_id;
  position (λ index,
    match sw_sessions s !! index with
    | Some session => sc_session_id session =s current_session_id
    | None => false
    end) (sw_filtered_indices s).

Definition sw_clamp_selection (s : SessionSwitcherState) : SessionSwitcherState :=
  sw_select (sw_filter s) (clamped_selection (length (sw_filtered_indices s)) (sw_selected s)) s.

Definition sw_open_loading (current_session_id : option string) (s : SessionSwitcherState)
    : SessionSwitcherState :=
  let s := sw_show true true s in
  sw_clamp_selection (sw_select (sw_filter s)
    (default (sw_selected s) (sw_current_visible_position current_session_id s)) s).

Definition sw_close (s : SessionSwitcherState) : SessionSwitcherState := sw_show false false s.

Definition sw_apply_sessions (sessions : list SessionCard) (current_session_id : option string)
    (s : SessionSwitcherState) : SessionSwitcherState :=
  let s := sw_load sessions (sw_show (sw_open s) false s) in
  sw_clamp_selection (sw_select (sw_filter s)
    (default 0 (sw_current_visible_position current_session_id s)) s).

Definition selected_session (s : SessionSwitcherState) : option SessionCard :=
  index ← sw_filtered_indices s !! sw_selected s;
  sw_sessions s !! index.

Definition sw_move_selection (delta : Z) (s : SessionSwitcherState) : SessionSwitcherState :=
  sw_select (sw_filter s)
    (moved_selection delta (length (sw_filtered_indices s)) (sw_selected s)) s.

Definition sw_push_filter_text (text : string) (s : SessionSwitcherState) : SessionSwitcherState :=
  sw_select (sw_filter s +:+ text) 0 s.
Definition sw_pop_filter_char (s : SessionSwitcherState) : SessionSwitcherState :=
  sw_select (pop_char (sw_filter s)) 0 s.
End session_switcher.
