(* ===== verification/SingleSessionState.v ===== *)
(** * The state of a desktop session ([crates/gcode-desktop/src/single_session.rs])

    One session with its transcript, composer, pickers and selection. The fields
    [draft], [draft_cursor] and [input_undo_stack] of [SingleSessionApp] are the
    [Composer], and [selection_anchor] and [selection_focus] are a pair. *)

From S2P Require Import Prelude Utf8 Text Composer DesktopWorkspace SessionPickers.
Open Scope nat_scope.

Record SelectionPoint := { sp_line : usize; sp_column : usize }.

#[export] Instance SelectionPoint_eq_dec : EqDecision SelectionPoint.
Proof. solve_decision. Defined.

Record SelectionLineSegment := {
  sl_line : usize;
  sl_start_column : usize;
  sl_end_column : usize;
}.

Inductive SingleSessionLineStyle :=
| StyleAssistant | StyleAssistantHeading | StyleAssistantQuote | StyleAssistantTable
| StyleAssistantLink | StyleCode | StyleUser | StyleUserContinuation | StyleTool | StyleMeta
| StyleStatus | StyleError | StyleOverlayTitle | StyleOverlay | StyleOverlaySelection | StyleBlank.

#[export] Instance SingleSessionLineStyle_eq_dec : EqDecision SingleSessionLineStyle.
Proof. solve_decision. Defined.

Record SingleSessionStyledLine := {
  ln_text : string;
  ln_style : SingleSessionLineStyle;
}.

Record StdinResponseState := {
  sr_request_id : string;
  sr_prompt : string;
  sr_is_password : bool;
  sr_tool_call_id : string;
  sr_input : string;
}.

Definition sr_set_input (input : string) (s : StdinResponseState) : StdinResponseState :=
  {| sr_request_id := sr_request_id s; sr_prompt := sr_prompt s;
     sr_is_password := sr_is_password s; sr_tool_call_id := sr_tool_call_id s;
     sr_input := input |}.

Inductive SingleSessionRole := UserRole | AssistantRole | ToolRole | SystemRole | MetaRole.

#[export] Instance SingleSessionRole_eq_dec : EqDecision SingleSessionRole.
Proof. solve_decision. Defined.

Definition is_user (role : SingleSessionRole) : bool :=
  match role with UserRole => true | _ => false end.

Record SingleSessionMessage := {
  sm_role : SingleSessionRole;
  sm_content : string;
}.

#[export] Instance SingleSessionMessage_eq_dec : EqDecision SingleSessionMessage.
Proof. solve_decision. Defined.

Definition user_message (content : string) : SingleSessionMessage :=
  {| sm_role := UserRole; sm_content := content |}.
Definition assistant_message (content : string) : SingleSessionMessage :=
  {| sm_role := AssistantRole; sm_content := content |}.
Definition tool_message (content : string) : SingleSessionMessage :=
  {| sm_role := ToolRole; sm_content := content |}.
Definition system_message (content : string) : SingleSessionMessage :=
  {| sm_role := SystemRole; sm_content := content |}.
Definition meta_message (content : string) : SingleSessionMessage :=
  {| sm_role := MetaRole; sm_content := content |}.

(** ** The worker of a session ([session_launch.rs]) *)

Inductive DesktopSessionCommand :=
| CommandCancel
| CommandStdinResponse (request_id input : string).

(** The sender of a channel: whether its receiver still exists, and what was sent. *)
Record DesktopSessionHandle := {
  sh_connected : bool;
  sh_sent : list DesktopSessionCommand;
}.

(** [command_tx.send(command)]: [None] when the receiver is gone *)
Definition handle_send (command : DesktopSessionCommand) (h : DesktopSessionHandle)
    : option DesktopSessionHandle :=
  if sh_connected h
  then Some {| sh_connected := true; sh_sent := sh_sent h ++ [command] |} else None.

Inductive DesktopSessionEvent :=
| EventStatus (status : string)
| EventSessionStarted (session_id : string)
| EventTextDelta (text : string)
| EventTextReplace (text : string)
| EventToolStarted (name : string)
| EventToolFinished (name summary : string) (is_error : bool)
| EventModelChanged (model : string) (provider_name error : option string)
| EventModelCatalog (current_model provider_name : option string)
    (models : list DesktopModelChoice)
| EventModelCatalogError (error : string)
| EventStdinRequest (request_id prompt : string) (is_password : bool) (tool_call_id : string)
| EventReloading (new_socket : option string)
| EventDone
| EventError (error : string).

(** ** The app *)

Record SingleSessionApp := {
  sa_session : option SessionCard;
  sa_composer : Composer;
  sa_detail_scroll : usize;
  sa_live_session_id : option string;
  sa_messages : list SingleSessionMessage;
  sa_streaming_response : string;
  sa_status : option string;
  sa_error : option string;
  sa_is_processing : bool;
  sa_body_scroll_lines : usize;
  sa_show_help : bool;
  sa_pending_images : list (string * string);
  sa_model_picker : ModelPickerState;
  sa_session_switcher : SessionSwitcherState;
  sa_stdin_response : option StdinResponseState;
  sa_welcome_name : option string;
  sa_queued_drafts : list (string * list (string * string));
  sa_selection : option SelectionPoint * option SelectionPoint;
  sa_session_handle : option DesktopSessionHandle;
}.

(** Assignments to the fields of an app. *)

Definition sa_set_session (v : option SessionCard) (a : SingleSessionApp) : SingleSessionApp :=
  {| sa_session := v; sa_composer := sa_composer a; sa_detail_scroll := sa_detail_scroll a;
     sa_live_session_id := sa_live_session_id a; sa_messages := sa_messages a;
     sa_streaming_response := sa_streaming_response a; sa_status := sa_status a;
     sa_error := sa_error a; sa_is_processing := sa_is_processing a;
     sa_body_scroll_lines := sa_body_scroll_lines a; sa_show_help := sa_show_help a;
     sa_pending_images := sa_pending_images a; sa_model_picker := sa_model_picker a;
     sa_session_switcher := sa_session_switcher a; sa_stdin_response := sa_stdin_response a;
     sa_welcome_name := sa_welcome_name a; sa_queued_drafts := sa_queued_drafts a;
     sa_selection := sa_selection a; sa_session_handle := sa_session_handle a |}.
Definition sa_set_composer (v : Composer) (a : SingleSessionApp) : SingleSessionApp :=
  {| sa_session := sa_session a; sa_composer := v; sa_detail_scroll := sa_detail_scroll a;
     sa_live_session_id := sa_live_session_id a; sa_messages := sa_messages a;
     sa_streaming_response := sa_streaming_response a; sa_status := sa_status a;
     sa_error := sa_error a; sa_is_processing := sa_is_processing a;
     sa_body_scroll_lines := sa_body_scroll_lines a; sa_show_help := sa_show_help a;
     sa_pending_images := sa_pending_images a; sa_model_picker := sa_model_picker a;
     sa_session_switcher := sa_session_switcher a; sa_stdin_response := sa_stdin_response a;
     sa_welcome_name := sa_welcome_name a; sa_queued_drafts := sa_queued_drafts a;
     sa_selection := sa_selection a; sa_session_handle := sa_session_handle a |}.
Definition sa_set_detail_scroll (v : usize) (a : SingleSessionApp) : SingleSessionApp :=
  {| sa_session := sa_session a; sa_composer := sa_composer a; sa_detail_scroll := v;
     sa_live_session_id := sa_live_session_id a; sa_messages := sa_messages a;
     sa_streaming_response := sa_streaming_response a; sa_status := sa_status a;
     sa_error := sa_error a; sa_is_processing := sa_is_processing a;
     sa_body_scroll_lines := sa_body_scroll_lines a; sa_show_help := sa_show_help a;
     sa_pending_images := sa_pending_images a; sa_model_picker := sa_model_picker a;
     sa_session_switcher := sa_session_switcher a; sa_stdin_response := sa_stdin_response a;
     sa_welcome_name := sa_welcome_name a; sa_queued_drafts := sa_queued_drafts a;
     sa_selection := sa_selection a; sa_session_handle := sa_session_handle a |}.
Definition sa_set_live_session_id (v : option string) (a : SingleSessionApp) : SingleSessionApp :=
  {| sa_session := sa_session a; sa_composer := sa_composer a;
     sa_detail_scroll := sa_detail_scroll a; sa_live_session_id := v;
     sa_messages := sa_messages a; sa_streaming_response := sa_streaming_response a;
     sa_status := sa_status a; sa_error := sa_error a; sa_is_processing := sa_is_processing a;
     sa_body_scroll_lines := sa_body_scroll_lines a; sa_show_help := sa_show_help a;
     sa_pending_images := sa_pending_images a; sa_model_picker := sa_model_picker a;
     sa_session_switcher := sa_session_switcher a; sa_stdin_response := sa_stdin_response a;
     sa_welcome_name := sa_welcome_name a; sa_queued_drafts := sa_queued_drafts a;
     sa_selection := sa_selection a; sa_session_handle := sa_session_handle a |}.
Definition sa_set_messages (v : list SingleSessionMessage) (a : SingleSessionApp) : SingleSessionApp :=
  {| sa_session := sa_session a; sa_composer := sa_composer a;
     sa_detail_scroll := sa_detail_scroll a; sa_live_session_id := sa_live_session_id a;
     sa_messages := v; sa_streaming_response := sa_streaming_response a;
     sa_status := sa_status a; sa_error := sa_error a; sa_is_processing := sa_is_processing a;
     sa_body_scroll_lines := sa_body_scroll_lines a; sa_show_help := sa_show_help a;
     sa_pending_images := sa_pending_images a; sa_model_picker := sa_model_picker a;
     sa_session_switcher := sa_session_switcher a; sa_stdin_response := sa_stdin_response a;
     sa_welcome_name := sa_welcome_name a; sa_queued_drafts := sa_queued_drafts a;
     sa_selection := sa_selection a; sa_session_handle := sa_session_handle a |}.
Definition sa_set_streaming_response (v : string) (a : SingleSessionApp) : SingleSessionApp :=
  {| sa_session := sa_session a; sa_composer := sa_composer a;
     sa_detail_scroll := sa_detail_scroll a; sa_live_session_id := sa_live_session_id a;
     sa_messages := sa_messages a; sa_streaming_response := v; sa_status := sa_status a;
     sa_error := sa_error a; sa_is_processing := sa_is_processing a;
     sa_body_scroll_lines := sa_body_scroll_lines a; sa_show_help := sa_show_help a;
     sa_pending_images := sa_pending_images a; sa_model_picker := sa_model_picker a;
     sa_session_switcher := sa_session_switcher a; sa_stdin_response := sa_stdin_response a;
     sa_welcome_name := sa_welcome_name a; sa_queued_drafts := sa_queued_drafts a;
     sa_selection := sa_selection a; sa_session_handle := sa_session_handle a |}.
Definition sa_set_status (v : option string) (a : SingleSessionApp) : SingleSessionApp :=
  {| sa_session := sa_session a; sa_composer := sa_composer a;
     sa_detail_scroll := sa_detail_scroll a; sa_live_session_id := sa_live_session_id a;
     sa_messages := sa_messages a; sa_streaming_response := sa_streaming_response a;
     sa_status := v; sa_error := sa_error a; sa_is_processing := sa_is_processing a;
     sa_body_scroll_lines := sa_body_scroll_lines a; sa_show_help := sa_show_help a;
     sa_pending_images := sa_pending_images a; sa_model_picker := sa_model_picker a;
     sa_session_switcher := sa_session_switcher a; sa_stdin_response := sa_stdin_response a;
     sa_welcome_name := sa_welcome_name a; sa_queued_drafts := sa_queued_drafts a;
     sa_selection := sa_selection a; sa_session_handle := sa_session_handle a |}.
Definition sa_set_error (v : option string) (a : SingleSessionApp) : SingleSessionApp :=
  {| sa_session := sa_session a; sa_composer := sa_composer a;
     sa_detail_scroll := sa_detail_scroll a; sa_live_session_id := sa_live_session_id a;
     sa_messages := sa_messages a; sa_streaming_response := sa_streaming_response a;
     sa_status := sa_status a; sa_error := v; sa_is_processing := sa_is_processing a;
     sa_body_scroll_lines := sa_body_scroll_lines a; sa_show_help := sa_show_help a;
     sa_pending_images := sa_pending_images a; sa_model_picker := sa_model_picker a;
     sa_session_switcher := sa_session_switcher a; sa_stdin_response := sa_stdin_response a;
     sa_welcome_name := sa_welcome_name a; sa_queued_drafts := sa_queued_drafts a;
     sa_selection := sa_selection a; sa_session_handle := sa_session_handle a |}.
Definition sa_set_is_processing (v : bool) (a : SingleSessionApp) : SingleSessionApp :=
  {| sa_session := sa_session a; sa_composer := sa_composer a;
     sa_detail_scroll := sa_detail_scroll a; sa_live_session_id := sa_live_session_id a;
     sa_messages := sa_messages a; sa_streaming_response := sa_streaming_response a;
     sa_status := sa_status a; sa_error := sa_error a; sa_is_processing := v;
     sa_body_scroll_lines := sa_body_scroll_lines a; sa_show_help := sa_show_help a;
     sa_pending_images := sa_pending_images a; sa_model_picker := sa_model_picker a;
     sa_session_switcher := sa_session_switcher a; sa_stdin_response := sa_stdin_response a;
     sa_welcome_name := sa_welcome_name a; sa_queued_drafts := sa_queued_drafts a;
     sa_selection := sa_selection a; sa_session_handle := sa_session_handle a |}.
Definition sa_set_body_scroll_lines (v : usize) (a : SingleSessionApp) : SingleSessionApp :=
  {| sa_session := sa_session a; sa_composer := sa_composer a;
     sa_detail_scroll := sa_detail_scroll a; sa_live_session_id := sa_live_session_id a;
     sa_messages := sa_messages a; sa_streaming_response := sa_streaming_response a;
     sa_status := sa_status a; sa_error := sa_error a; sa_is_processing := sa_is_processing a;
     sa_body_scroll_lines := v; sa_show_help := sa_show_help a;
     sa_pending_images := sa_pending_images a; sa_model_picker := sa_model_picker a;
     sa_session_switcher := sa_session_switcher a; sa_stdin_response := sa_stdin_response a;
     sa_welcome_name := sa_welcome_name a; sa_queued_drafts := sa_queued_drafts a;
     sa_selection := sa_selection a; sa_session_handle := sa_session_handle a |}.
Definition sa_set_show_help (v : bool) (a : SingleSessionApp) : SingleSessionApp :=
  {| sa_session := sa_session a; sa_composer := sa_composer a;
     sa_detail_scroll := sa_detail_scroll a; sa_live_session_id := sa_live_session_id a;
     sa_messages := sa_messages a; sa_streaming_response := sa_streaming_response a;
     sa_status := sa_status a; sa_error := sa_error a; sa_is_processing := sa_is_processing a;
     sa_body_scroll_lines := sa_body_scroll_lines a; sa_show_help := v;
     sa_pending_images := sa_pending_images a; sa_model_picker := sa_model_picker a;
     sa_session_switcher := sa_session_switcher a; sa_stdin_response := sa_stdin_response a;
     sa_welcome_name := sa_welcome_name a; sa_queued_drafts := sa_queued_drafts a;
     sa_selection := sa_selection a; sa_session_handle := sa_session_handle a |}.
Definition sa_set_pending_images (v : list (string * string)) (a : SingleSessionApp) : SingleSessionApp :=
  {| sa_session := sa_session a; sa_composer := sa_composer a;
     sa_detail_scroll := sa_detail_scroll a; sa_live_session_id := sa_live_session_id a;
     sa_messages := sa_messages a; sa_streaming_response := sa_streaming_response a;
     sa_status := sa_status a; sa_error := sa_error a; sa_is_processing := sa_is_processing a;
     sa_body_scroll_lines := sa_body_scroll_lines a; sa_show_help := sa_show_help a;
     sa_pending_images := v; sa_model_picker := sa_model_picker a;
     sa_session_switcher := sa_session_switcher a; sa_stdin_response := sa_stdin_response a;
     sa_welcome_name := sa_welcome_name a; sa_queued_drafts := sa_queued_drafts a;
     sa_selection := sa_selection a; sa_session_handle := sa_session_handle a |}.
Definition sa_set_model_picker (v : ModelPickerState) (a : SingleSessionApp) : SingleSessionApp :=
  {| sa_session := sa_session a; sa_composer := sa_composer a;
     sa_detail_scroll := sa_detail_scroll a; sa_live_session_id := sa_live_session_id a;
     sa_messages := sa_messages a; sa_streaming_response := sa_streaming_response a;
     sa_status := sa_status a; sa_error := sa_error a; sa_is_processing := sa_is_processing a;
     sa_body_scroll_lines := sa_body_scroll_lines a; sa_show_help := sa_show_help a;
     sa_pending_images := sa_pending_images a; sa_model_picker := v;
     sa_session_switcher := sa_session_switcher a; sa_stdin_response := sa_stdin_response a;
     sa_welcome_name := sa_welcome_name a; sa_queued_drafts := sa_queued_drafts a;
     sa_selection := sa_selection a; sa_session_handle := sa_session_handle a |}.
Definition sa_set_session_switcher (v : SessionSwitcherState) (a : SingleSessionApp) : SingleSessionApp :=
  {| sa_session := sa_session a; sa_composer := sa_composer a;
     sa_detail_scroll := sa_detail_scroll a; sa_live_session_id := sa_live_session_id a;
     sa_messages := sa_messages a; sa_streaming_response := sa_streaming_response a;
     sa_status := sa_status a; sa_error := sa_error a; sa_is_processing := sa_is_processing a;
     sa_body_scroll_lines := sa_body_scroll_lines a; sa_show_help := sa_show_help a;
     sa_pending_images := sa_pending_images a; sa_model_picker := sa_model_picker a;
     sa_session_switcher := v; sa_stdin_response := sa_stdin_response a;
     sa_welcome_name := sa_welcome_name a; sa_queued_drafts := sa_queued_drafts a;
     sa_selection := sa_selection a; sa_session_handle := sa_session_handle a |}.
Definition sa_set_stdin_response (v : option StdinResponseState) (a : SingleSessionApp) : SingleSessionApp :=
  {| sa_session := sa_session a; sa_composer := sa_composer a;
     sa_detail_scroll := sa_detail_scroll a; sa_live_session_id := sa_live_session_id a;
     sa_messages := sa_messages a; sa_streaming_response := sa_streaming_response a;
     sa_status := sa_status a; sa_error := sa_error a; sa_is_processing := sa_is_processing a;
     sa_body_scroll_lines := sa_body_scroll_lines a; sa_show_help := sa_show_help a;
     sa_pending_images := sa_pending_images a; sa_model_picker := sa_model_picker a;
     sa_session_switcher := sa_session_switcher a; sa_stdin_response := v;
     sa_welcome_name := sa_welcome_name a; sa_queued_drafts := sa_queued_drafts a;
     sa_selection := sa_selection a; sa_session_handle := sa_session_handle a |}.
Definition sa_set_welcome_name (v : option string) (a : SingleSessionApp) : SingleSessionApp :=
  {| sa_session := sa_session a; sa_composer := sa_composer a;
     sa_detail_scroll := sa_detail_scroll a; sa_live_session_id := sa_live_session_id a;
     sa_messages := sa_messages a; sa_streaming_response := sa_streaming_response a;
     sa_status := sa_status a; sa_error := sa_error a; sa_is_processing := sa_is_processing a;
     sa_body_scroll_lines := sa_body_scroll_lines a; sa_show_help := sa_show_help a;
     sa_pending_images := sa_pending_images a; sa_model_picker := sa_model_picker a;
     sa_session_switcher := sa_session_switcher a; sa_stdin_response := sa_stdin_response a;
     sa_welcome_name := v; sa_queued_drafts := sa_queued_drafts a;
     sa_selection := sa_selection a; sa_session_handle := sa_session_handle a |}.
Definition sa_set_queued_drafts (v : list (string * list (string * string))) (a : SingleSessionApp) : SingleSessionApp :=
  {| sa_session := sa_session a; sa_composer := sa_composer a;
     sa_detail_scroll := sa_detail_scroll a; sa_live_session_id := sa_live_session_id a;
     sa_messages := sa_messages a; sa_streaming_response := sa_streaming_response a;
     sa_status := sa_status a; sa_error := sa_error a; sa_is_processing := sa_is_processing a;
     sa_body_scroll_lines := sa_body_scroll_lines a; sa_show_help := sa_show_help a;
     sa_pending_images := sa_pending_images a; sa_model_picker := sa_model_picker a;
     sa_session_switcher := sa_session_switcher a; sa_stdin_response := sa_stdin_response a;
     sa_welcome_name := sa_welcome_name a; sa_queued_drafts := v; sa_selection := sa_selection a;
     sa_session_handle := sa_session_handle a |}.
Definition sa_set_selection (v : option SelectionPoint * option SelectionPoint) (a : SingleSessionApp) : SingleSessionApp :=
  {| sa_session := sa_session a; sa_composer := sa_composer a;
     sa_detail_scroll := sa_detail_scroll a; sa_live_session_id := sa_live_session_id a;
     sa_messages := sa_messages a; sa_streaming_response := sa_streaming_response a;
     sa_status := sa_status a; sa_error := sa_error a; sa_is_processing := sa_is_processing a;
     sa_body_scroll_lines := sa_body_scroll_lines a; sa_show_help := sa_show_help a;
     sa_pending_images := sa_pending_images a; sa_model_picker := sa_model_picker a;
     sa_session_switcher := sa_session_switcher a; sa_stdin_response := sa_stdin_response a;
     sa_welcome_name := sa_welcome_name a; sa_queued_drafts := sa_queued_drafts a;
     sa_selection := v; sa_session_handle := sa_session_handle a |}.
Definition sa_set_session_handle (v : option DesktopSessionHandle) (a : SingleSessionApp) : SingleSessionApp :=
  {| sa_session := sa_session a; sa_composer := sa_composer a;
     sa_detail_scroll := sa_detail_scroll a; sa_live_session_id := sa_live_session_id a;
     sa_messages := sa_messages a; sa_streaming_response := sa_streaming_response a;
     sa_status := sa_status a; sa_error := sa_error a; sa_is_processing := sa_is_processing a;
     sa_body_scroll_lines := sa_body_scroll_lines a; sa_show_help := sa_show_help a;
     sa_pending_images := sa_pending_images a; sa_model_picker := sa_model_picker a;
     sa_session_switcher := sa_session_switcher a; sa_stdin_response := sa_stdin_response a;
     sa_welcome_name := sa_welcome_name a; sa_queued_drafts := sa_queued_drafts a;
     sa_selection := sa_selection a; sa_session_handle := v |}.

(** [format!("{n}")] for a [usize] *)
Definition show_usize (n : usize) : string := pretty n.

(** The name a fresh session greets, which depends on the platform: the name of
    the user of the computer, or none. *)
Class WelcomeName := desktop_welcome_name : option string.
