(* ===== verification/SingleSessionLines.v ===== *)
(** * The lines of a desktop session ([crates/gcode-desktop/src/single_session.rs])

    What a session shows, line by line: its transcript with the Markdown of the
    assistant, the overlays of the pickers, the help and the welcome. The parser of
    Markdown is the crate pulldown_cmark and a parameter. *)

From S2P Require Import Prelude Utf8 Text Composer DesktopWorkspace SessionPickers.
From S2P Require Import SingleSessionState.
Open Scope nat_scope.

Definition styled_line (text : string) (style : SingleSessionLineStyle) : SingleSessionStyledLine :=
  {| ln_text := text; ln_style := style |}.
Definition blank_styled_line : SingleSessionStyledLine := styled_line "" StyleBlank.

(** ** Markdown *)

Inductive HeadingLevel := Level1 | Level2 | Level3 | Level4 | Level5 | Level6.

(** The events of the parser. A fenced code block carries its language. *)
Inductive MarkdownEvent :=
| StartHeading (level : HeadingLevel) | EndHeading
| StartBlockQuote | EndBlockQuote
| StartParagraph | EndParagraph
| StartList (start : option u64) | EndList
| StartItem | EndItem
| StartCodeBlock (fenced : option string) | EndCodeBlock
| StartTable | EndTable | StartTableHead | EndTableHead
| StartTableRow | EndTableRow | StartTableCell | EndTableCell
| StartLink (dest_url : string) | EndLink
| StartImage (dest_url : string) | EndImage
| StartEmphasis | EndEmphasis | StartStrong | EndStrong
| StartStrikethrough | EndStrikethrough
| TextEvent (text : string) | CodeEvent (code : string)
| SoftBreak | HardBreak | Rule | OtherEvent.

(** [Parser::new_ext(content, markdown_options)] *)
Class Markdown := parse_markdown : string → list MarkdownEvent.

Definition heading_prefix (level : HeadingLevel) : string :=
  match level with Level1 => "# " | Level2 => "## " | Level3 => "### " | _ => "#### " end.

Record MarkdownState := {
  md_lines : list SingleSessionStyledLine;
  md_current : string;
  md_list_stack : list (option u64);
  md_in_code_block : bool;
  md_in_quote : bool;
  md_in_table : bool;
  md_in_table_row : bool;
  md_table_cell_count : usize;
  md_link_stack : list string;
  md_current_style : SingleSessionLineStyle;
}.

(** Assignments to the fields *)

Definition md_set_lines (v : list SingleSessionStyledLine) (m : MarkdownState) : MarkdownState :=
  {| md_lines := v; md_current := md_current m; md_list_stack := md_list_stack m;
     md_in_code_block := md_in_code_block m; md_in_quote := md_in_quote m;
     md_in_table := md_in_table m; md_in_table_row := md_in_table_row m;
     md_table_cell_count := md_table_cell_count m; md_link_stack := md_link_stack m;
     md_current_style := md_current_style m |}.
Definition md_set_current (v : string) (m : MarkdownState) : MarkdownState :=
  {| md_lines := md_lines m; md_current := v; md_list_stack := md_list_stack m;
     md_in_code_block := md_in_code_block m; md_in_quote := md_in_quote m;
     md_in_table := md_in_table m; md_in_table_row := md_in_table_row m;
     md_table_cell_count := md_table_cell_count m; md_link_stack := md_link_stack m;
     md_current_style := md_current_style m |}.
Definition md_set_list_stack (v : list (option u64)) (m : MarkdownState) : MarkdownState :=
  {| md_lines := md_lines m; md_current := md_current m; md_list_stack := v;
     md_in_code_block := md_in_code_block m; md_in_quote := md_in_quote m;
     md_in_table := md_in_table m; md_in_table_row := md_in_table_row m;
     md_table_cell_count := md_table_cell_count m; md_link_stack := md_link_stack m;
     md_current_style := md_current_style m |}.
Definition md_set_in_code_block (v : bool) (m : MarkdownState) : MarkdownState :=
  {| md_lines := md_lines m; md_current := md_current m; md_list_stack := md_list_stack m;
     md_in_code_block := v; md_in_quote := md_in_quote m; md_in_table := md_in_table m;
     md_in_table_row := md_in_table_row m; md_table_cell_count := md_table_cell_count m;
     md_link_stack := md_link_stack m; md_current_style := md_current_style m |}.
Definition md_set_in_quote (v : bool) (m : MarkdownState) : MarkdownState :=
  {| md_lines := md_lines m; md_current := md_current m; md_list_stack := md_list_stack m;
     md_in_code_block := md_in_code_block m; md_in_quote := v; md_in_table := md_in_table m;
     md_in_table_row := md_in_table_row m; md_table_cell_count := md_table_cell_count m;
     md_link_stack := md_link_stack m; md_current_style := md_current_style m |}.
Definition md_set_in_table (v : bool) (m : MarkdownState) : MarkdownState :=
  {| md_lines := md_lines m; md_current := md_current m; md_list_stack := md_list_stack m;
     md_in_code_block := md_in_code_block m; md_in_quote := md_in_quote m; md_in_table := v;
     md_in_table_row := md_in_table_row m; md_table_cell_count := md_table_cell_count m;
     md_link_stack := md_link_stack m; md_current_style := md_current_style m |}.
Definition md_set_in_table_row (v : bool) (m : MarkdownState) : MarkdownState :=
  {| md_lines := md_lines m; md_current := md_current m; md_list_stack := md_list_stack m;
     md_in_code_block := md_in_code_block m; md_in_quote := md_in_quote m;
     md_in_table := md_in_table m; md_in_table_row := v;
     md_table_cell_count := md_table_cell_count m; md_link_stack := md_link_stack m;
     md_current_style := md_current_style m |}.
Definition md_set_table_cell_count (v : usize) (m : MarkdownState) : MarkdownState :=
  {| md_lines := md_lines m; md_current := md_current m; md_list_stack := md_list_stack m;
     md_in_code_block := md_in_code_block m; md_in_quote := md_in_quote m;
     md_in_table := md_in_table m; md_in_table_row := md_in_table_row m;
     md_table_cell_count := v; md_link_stack := md_link_stack m;
     md_current_style := md_current_style m |}.
Definition md_set_link_stack (v : list string) (m : MarkdownState) : MarkdownState :=
  {| md_lines := md_lines m; md_current := md_current m; md_list_stack := md_list_stack m;
     md_in_code_block := md_in_code_block m; md_in_quote := md_in_quote m;
     md_in_table := md_in_table m; md_in_table_row := md_in_table_row m;
     md_table_cell_count := md_table_cell_count m; md_link_stack := v;
     md_current_style := md_current_style m |}.
Definition md_set_current_style (v : SingleSessionLineStyle) (m : MarkdownState) : MarkdownState :=
  {| md_lines := md_lines m; md_current := md_current m; md_list_stack := md_list_stack m;
     md_in_code_block := md_in_code_block m; md_in_quote := md_in_quote m;
     md_in_table := md_in_table m; md_in_table_row := md_in_table_row m;
     md_table_cell_count := md_table_cell_count m; md_link_stack := md_link_stack m;
     md_current_style := v |}.

Definition markdown_start : MarkdownState := {|
  md_lines := []; md_current := ""; md_list_stack := []; md_in_code_block := false;
  md_in_quote := false; md_in_table := false; md_in_table_row := false; md_table_cell_count := 0;
  md_link_stack := []; md_current_style := StyleAssistant |}.

(** [lines.push(line)] and [current.push_str(text)] *)
Definition md_push_line (line : SingleSessionStyledLine) (m : MarkdownState) : MarkdownState :=
  md_set_lines (md_lines m ++ [line]) m.
Definition md_push (text : string) (m : MarkdownState) : MarkdownState :=
  md_set_current (md_current m +:+ text) m.

Definition flush_current_line (style : SingleSessionLineStyle) (m : MarkdownState) : MarkdownState :=
  let trimmed := trim_end (md_current m) in
  let m := if trimmed =s "" then m else md_push_line (styled_line trimmed style) m in
  md_set_current "" m.

(** [flush_current_line] with the current style *)
Definition md_flush (m : MarkdownState) : MarkdownState :=
  flush_current_line (md_current_style m) m.

Definition md_push_when (condition : bool) (text : string) (m : MarkdownState) : MarkdownState :=
  if condition then md_push text m else m.

Definition style_outside (m : MarkdownState) : SingleSessionLineStyle :=
  if md_in_quote m then StyleAssistantQuote else StyleAssistant.

(** A row of a table starts: its first cell follows the bar. *)
Definition md_start_row (m : MarkdownState) : MarkdownState :=
  md_push "┆ " (md_set_table_cell_count 0 (md_set_in_table_row true m)).

Definition md_event (event : MarkdownEvent) (m : MarkdownState) : MarkdownState :=
  match event with
  | StartHeading level =>
      md_push (heading_prefix level) (md_set_current_style StyleAssistantHeading (md_flush m))
  | EndHeading =>
      let m := flush_current_line StyleAssistantHeading m in
      md_set_current_style (style_outside m) m
  | StartBlockQuote =>
      md_push "▌ " (md_set_current_style StyleAssistantQuote (md_set_in_quote true (md_flush m)))
  | EndBlockQuote =>
      let m := if trim (md_current m) =s "▌" then md_set_current "" m else m in
      md_set_current_style StyleAssistant
        (md_set_in_quote false (flush_current_line StyleAssistantQuote m))
  | StartParagraph => m
  | EndParagraph => let m := md_flush m in md_push_when (md_in_quote m) "▌ " m
  | StartList start => md_set_list_stack (md_list_stack m ++ [start]) m
  | EndList => md_flush (md_set_list_stack (removelast (md_list_stack m)) m)
  | StartItem =>
      let m := md_flush m in
      let m := md_push_when (md_in_quote m) "▌ " m in
      match last (md_list_stack m) with
      | Some (Some next) =>
          md_set_list_stack (removelast (md_list_stack m) ++ [Some (u64_succ next)])
            (md_push (pretty next +:+ ". ") m)
      | _ => md_push "• " m
      end
  | EndItem => md_flush m
  | StartCodeBlock fenced =>
      let lang := match fenced with
                  | Some lang => if lang =s "" then "" else " " +:+ lang
                  | None => ""
                  end in
      md_set_in_code_block true
        (md_push_line (styled_line ("```" +:+ lang) StyleCode) (md_flush m))
  | EndCodeBlock =>
      md_set_in_code_block false
        (md_push_line (styled_line "```" StyleCode) (flush_current_line StyleCode m))
  | StartTable => md_set_current_style StyleAssistantTable (md_set_in_table true (md_flush m))
  | EndTable =>
      let m := md_set_in_table false (flush_current_line StyleAssistantTable m) in
      md_set_current_style (style_outside m) m
  | StartTableHead | StartTableRow => md_start_row (flush_current_line StyleAssistantTable m)
  | EndTableHead =>
      md_push_line (styled_line "┆ ─" StyleAssistantTable)
        (md_set_in_table_row false (flush_current_line StyleAssistantTable m))
  | EndTableRow => md_set_in_table_row false (flush_current_line StyleAssistantTable m)
  | StartTableCell =>
      let m := if md_in_table m && negb (md_in_table_row m) then md_start_row m else m in
      let m := md_push_when (md_in_table_row m && (0 <? md_table_cell_count m)) " │ " m in
      md_set_table_cell_count (S (md_table_cell_count m)) m
  | EndTableCell => m
  | StartLink dest_url => md_set_link_stack (md_link_stack m ++ [dest_url]) m
  | EndLink =>
      let opened := last (md_link_stack m) in
      let m := md_set_link_stack (removelast (md_link_stack m)) m in
      match opened with
      | Some dest_url =>
          if dest_url =s "" then m
          else md_set_current_style StyleAssistantLink (md_push dest_url (md_push " ↗ " m))
      | None => m
      end
  | StartImage dest_url =>
      let m := md_push "[image" m in
      let m := if dest_url =s "" then m else md_push dest_url (md_push " ↗ " m) in
      md_push "]" m
  | EndImage => m
  | StartEmphasis | EndEmphasis => md_push "_" m
  | StartStrong | EndStrong => md_push "**" m
  | StartStrikethrough | EndStrikethrough => md_push "~" m
  | TextEvent text =>
      if md_in_code_block m
      then md_set_lines (md_lines m ++ ((λ line, styled_line ("    " +:+ line) StyleCode) <$> lines text)) m
      else md_push text m
  | CodeEvent code => md_push "`" (md_push code (md_push "`" m))
  | SoftBreak | HardBreak => let m := md_flush m in md_push_when (md_in_quote m) "▌ " m
  | Rule => md_push_line (styled_line "───" StyleMeta) (md_flush m)
  | OtherEvent => m
  end.

(** Behind each event the style of a table ends with the table. *)
Definition md_step (m : MarkdownState) (event : MarkdownEvent) : MarkdownState :=
  let m := md_event event m in
  if negb (md_in_table m) && bool_decide (md_current_style m = StyleAssistantTable)
  then md_set_current_style StyleAssistant m else m.

Definition render_assistant_markdown_lines `{Markdown} (content : string)
    : list SingleSessionStyledLine :=
  let m := md_flush (foldl md_step markdown_start (parse_markdown content)) in
  match md_lines m with
  | [] =>
      if trim content =s "" then []
      else (λ line, styled_line line StyleAssistant) <$> lines content
  | rendered => rendered
  end.

(** ** The transcript *)

Section lines.
Context `{Markdown} `{UnicodeLower}.

Definition append_user_lines (turn : usize) (content : string)
    : list SingleSessionStyledLine :=
  match lines content with
  | [] => []
  | first :: content_lines =>
      styled_line (show_usize turn +:+ "  " +:+ first) StyleUser
      :: ((λ line, styled_line ("   " +:+ line) StyleUserContinuation) <$> content_lines)
  end.

Definition append_tool_lines (content : string) : list SingleSessionStyledLine :=
  if content =s "" then [] else [styled_line ("• " +:+ content) StyleTool].
Definition append_meta_lines (content : string) : list SingleSessionStyledLine :=
  if content =s "" then [] else [styled_line ("  " +:+ content) StyleMeta].

(** The lines of a message, of turn [user_turn] when it is a user's. *)
Definition chat_message_lines (message : SingleSessionMessage) (user_turn : usize)
    : list SingleSessionStyledLine :=
  let content := trim (sm_content message) in
  match sm_role message with
  | UserRole => append_user_lines user_turn content
  | AssistantRole => render_assistant_markdown_lines content
  | ToolRole => append_tool_lines content
  | SystemRole | MetaRole => append_meta_lines content
  end.

(** A blank line separates what follows from lines that are there. *)
Definition push_blank (ls : list SingleSessionStyledLine) : list SingleSessionStyledLine :=
  match ls with [] => [] | _ => ls ++ [blank_styled_line] end.

Definition append_chat_message_lines (state : list SingleSessionStyledLine * usize)
    (message : SingleSessionMessage) : list SingleSessionStyledLine * usize :=
  let (ls, user_turn) := state in
  (push_blank ls ++ chat_message_lines message user_turn,
   if is_user (sm_role message) then S user_turn else user_turn).

(** [line.split_once("  ")] *)
Definition split_once_two_spaces (line : string) : option (string * string) :=
  i ← str_find "  " line; Some (str_take i line, str_drop (i + 2) line).

Definition ascii_digits (s : string) : bool :=
  forallb (λ b, let n := Ascii.nat_of_ascii b in (48 <=? n) && (n <=? 57))
    (String.list_ascii_of_string s).

Definition is_user_prompt_line (line : string) : bool :=
  match split_once_two_spaces line with
  | None => false
  | Some (number, rest) =>
      negb (number =s "") && ascii_digits number && negb (trim rest =s "")
  end.

(** ** The overlays *)

Definition session_card_display_line (session : SessionCard) : string :=
  let subtitle := if sc_subtitle session =s "" then "" else " · " +:+ sc_subtitle session in
  let detail := if sc_detail session =s "" then "" else " · " +:+ sc_detail session in
  sc_title session +:+ subtitle +:+ detail.

(** [Some(text).filter(|text| !text.is_empty())] *)
Definition nonempty (text : option string) : option string :=
  match text with Some s => if s =s "" then None else Some s | None => None end.

Definition model_choice_display_line (choice : DesktopModelChoice) : string :=
  let provider := from_option (λ p, " · provider " +:+ p) "" (nonempty (dm_provider choice)) in
  let availability := if dm_available choice then "" else " · unavailable" in
  let detail := from_option (λ d, " · " +:+ d) "" (nonempty (dm_detail choice)) in
  dm_model choice +:+ provider +:+ availability +:+ detail.

Definition model_picker_current_label (provider_name current_model : option string) : string :=
  match nonempty provider_name, current_model with
  | Some provider, Some model => provider +:+ " · " +:+ model
  | _, Some model => model
  | Some provider, None => provider
  | None, None => "unknown"
  end.

Definition picker_limit : usize := 28.

(** The lines of the visible items, at most 28 of them, the selected one marked. *)
Definition picker_item_lines {A} (items : list A) (visible : list usize) (selected : usize)
    (is_current : A → bool) (display : A → string) : list SingleSessionStyledLine :=
  omap id (imap (λ position index,
    item ← items !! index;
    Some (styled_line
      ((if position =? selected then "›" else " ") +:+ " "
       +:+ (if is_current item then "✓" else " ") +:+ " " +:+ display item)
      (if position =? selected then StyleOverlaySelection else StyleOverlay)))
    (take picker_limit visible)).

Definition picker_more_line (visible : list usize) (what : string) : list SingleSessionStyledLine :=
  if picker_limit <? length visible
  then [styled_line ("… " +:+ show_usize (length visible - picker_limit) +:+ " more " +:+ what) StyleOverlay]
  else [].

Definition filter_label (filter_text : string) : string :=
  "filter: " +:+ (if filter_text =s "" then "<none>" else filter_text).

Definition session_switcher_styled_lines (switcher : SessionSwitcherState)
    (current_session_id : option string) : list SingleSessionStyledLine :=
  let head :=
    [styled_line "desktop session switcher" StyleOverlayTitle;
     styled_line "↑/↓ select · type filter · Backspace edit filter · Enter resume · Ctrl+R reload · Ctrl+P/Esc close" StyleOverlay;
     styled_line (filter_label (sw_filter switcher)) StyleMeta;
     blank_styled_line] in
  let loading :=
    if sw_loading switcher
    then [styled_line "loading recent sessions from ~/.gcode/sessions..." StyleStatus] else [] in
  let visible := sw_filtered_indices switcher in
  match visible, sw_loading switcher with
  | [], false =>
      head ++ loading ++
      [styled_line (match sw_sessions switcher with
                    | [] => "no recent sessions found"
                    | _ => "no matching sessions"
                    end) StyleStatus;
       styled_line "try clearing the filter, pressing Ctrl+R, or starting a fresh session with Ctrl+;" StyleOverlay]
  | _, _ =>
      head ++ loading
      ++ picker_item_lines (sw_sessions switcher) visible (sw_selected switcher)
           (λ session, bool_decide (Some (sc_session_id session) = current_session_id))
           session_card_display_line
      ++ picker_more_line visible "sessions"
  end.

Definition model_picker_styled_lines (picker : ModelPickerState) : list SingleSessionStyledLine :=
  let head :=
    [styled_line "desktop model/account picker" StyleOverlayTitle;
     styled_line ("current: " +:+ model_picker_current_label (mp_provider_name picker)
                    (mp_current_model picker)) StyleMeta;
     styled_line "↑/↓ select · type filter · Backspace edit filter · Enter switch · Ctrl+R reload · Esc close" StyleOverlay;
     styled_line (filter_label (mp_filter picker)) StyleMeta;
     blank_styled_line] in
  let loading :=
    if mp_loading picker then [styled_line "loading models from shared server..." StyleStatus]
    else [] in
  let failed :=
    match mp_error picker with
    | Some error => [styled_line ("error: " +:+ error) StyleError]
    | None => []
    end in
  let visible := mp_filtered_indices picker in
  match visible, mp_loading picker with
  | [], false =>
      head ++ loading ++ failed ++
      [styled_line "no matching models" StyleStatus;
       styled_line "try clearing the filter or pressing Ctrl+R to reload the catalog" StyleOverlay]
  | _, _ =>
      head ++ loading ++ failed
      ++ picker_item_lines (mp_choices picker) visible (mp_selected picker)
           (λ choice, bool_decide (Some (dm_model choice) = mp_current_model picker))
           model_choice_display_line
      ++ picker_more_line visible "models"
  end.

Definition stdin_response_styled_lines (state : StdinResponseState) : list SingleSessionStyledLine :=
  let kind := if sr_is_password state then "interactive password input" else "interactive input" in
  let input :=
    if sr_is_password state then str_concat (replicate (length (chars (sr_input state))) "•")
    else if sr_input state =s "" then "<empty>"
    else replace " " "·" (sr_input state) in
  [styled_line (kind +:+ " requested") StyleOverlayTitle;
   styled_line ("tool: " +:+ sr_tool_call_id state) StyleTool;
   styled_line ("request: " +:+ sr_request_id state) StyleMeta;
   styled_line ("prompt: " +:+ sr_prompt state) StyleMeta;
   blank_styled_line;
   styled_line ("input: " +:+ input) StyleOverlaySelection;
   blank_styled_line;
   styled_line "Enter send · Ctrl+Enter send · Shift+Enter newline · Ctrl+V paste · Ctrl+U clear · Ctrl+C cancel" StyleOverlay].

(** ** Help and welcome *)

Record HelpSection := {
  hs_title : string;
  hs_shortcuts : list (string * string);
}.

Definition SINGLE_SESSION_HELP_SECTIONS : list HelpSection :=
  [{| hs_title := "chat"; hs_shortcuts :=
       [("Enter", "send prompt");
        ("Shift+Enter", "insert newline");
        ("Ctrl+Enter", "queue while running, send when idle");
        ("Ctrl+C", "interrupt running generation");
        ("Ctrl+Shift+C", "copy latest assistant response");
        ("Ctrl+V", "paste clipboard text");
        ("Ctrl+V", "paste clipboard image when no text is present");
        ("Ctrl+I", "attach clipboard image to next prompt");
        ("Ctrl+Shift+I", "clear pending image attachments");
        ("Ctrl+Shift+M", "open model/account picker");
        ("Ctrl+M/N", "switch to next/previous model");
        ("Ctrl+P/O", "open recent session switcher")] |};
   {| hs_title := "navigation"; hs_shortcuts :=
       [("PageUp/PageDown", "scroll transcript");
        ("Alt+Up/Down", "jump between user prompts");
        ("Mouse wheel", "scroll transcript")] |};
   {| hs_title := "editing"; hs_shortcuts :=
       [("Ctrl+A/E", "start/end of line");
        ("Ctrl+U/K", "delete to line start/end");
        ("Ctrl+Backspace", "delete previous word");
        ("Alt+B/F", "move by word");
        ("Alt+D", "delete next word");
        ("Ctrl+Z", "undo input edit")] |};
   {| hs_title := "window"; hs_shortcuts :=
       [("Ctrl+;", "reset/spawn fresh desktop session");
        ("Ctrl+R", "reload sessions/models while a picker is open");
        ("Ctrl+?", "toggle this help");
        ("Esc", "close help or quit")] |}].

(** [format!("  {shortcut:<12}{separator}{description}")] *)
Definition help_line (shortcut description : string) : string :=
  "  " +:+ shortcut +:+ str_concat (replicate (12 - length (chars shortcut)) " ")
  +:+ (if 12 <=? String.length shortcut then " " else "") +:+ description.

Definition single_session_help_styled_lines : list SingleSessionStyledLine :=
  [styled_line "desktop shortcuts" StyleOverlayTitle; blank_styled_line] ++
  mjoin (imap (λ section_index section,
    (if 0 <? section_index then [blank_styled_line] else [])
    ++ styled_line (hs_title section) StyleOverlayTitle
    :: ((λ s, styled_line (help_line s.1 s.2) StyleOverlay) <$> hs_shortcuts section))
    SINGLE_SESSION_HELP_SECTIONS).

Definition welcome_styled_lines (name : option string) (tick : u64) : list SingleSessionStyledLine :=
  let greeting := from_option (λ name, "Welcome, " +:+ name) "Hello there" name in
  let prompts :=
    ["Start with a prompt"; "Ask anything"; "Ready when you are"; "Enter sends · Shift+Enter adds a line"] in
  let prompt := default "" (prompts !! Z.to_nat (tick / 42 mod 4)%Z) in
  let dots := (tick / 14 mod 4)%Z in
  let ellipsis :=
    if (dots =? 0)%Z then "" else if (dots =? 1)%Z then "." else if (dots =? 2)%Z then ".." else "..." in
  [styled_line greeting StyleAssistantHeading;
   blank_styled_line;
   styled_line (prompt +:+ ellipsis) StyleStatus;
   styled_line "Ctrl+P opens recent sessions" StyleMeta].

(** [s.trim_matches(|ch| ch == ',' || ch == ';')] *)
Definition trim_separators (s : string) : string :=
  let separator c := (c =s ",") || (c =s ";") in
  str_concat (drop_while_end separator (drop_while separator (chars s))).

Definition sanitize_welcome_name (raw : string) : option string :=
  name ← head (split_whitespace (trim_separators (trim raw)));
  if (name =s "") || (ascii_lowercase name =s "unknown") then None else Some name.

Definition single_session_styled_lines (session : option SessionCard) : list SingleSessionStyledLine :=
  match session with
  | None =>
      [styled_line "single session mode" StyleOverlayTitle;
       styled_line "fresh desktop-native session draft" StyleStatus;
       styled_line "type here without nav or insert modes" StyleOverlay;
       styled_line "Enter sends through the shared desktop session runtime" StyleOverlay;
       styled_line "ctrl+; clears this draft and starts another fresh desktop session" StyleOverlay;
       styled_line "run with --workspace for the niri layout wrapper" StyleOverlay]
  | Some session =>
      let transcript title ls :=
        match ls with
        | [] => []
        | _ => styled_line title StyleOverlayTitle :: ((λ line, styled_line line StyleAssistant) <$> ls)
        end in
      [styled_line "single session mode" StyleOverlayTitle;
       styled_line (sc_subtitle session) StyleStatus;
       styled_line (sc_detail session) StyleMeta]
      ++ transcript "recent transcript" (sc_preview_lines session)
      ++ transcript "expanded transcript" (sc_detail_lines session)
  end.

Definition single_session_lines (session : option SessionCard) : list string :=
  ln_text <$> single_session_styled_lines session.

Definition single_session_surface (session : option SessionCard) : Surface :=
  let ls := single_session_lines session in {|
  su_id := 1;
  su_title := from_option sc_title "new gcode session" session;
  su_body_lines := ls;
  su_detail_lines := ls;
  su_session_id := sc_session_id <$> session;
  su_lane := 0;
  su_column := 0;
  su_color_index := 0 |}.

(** ** The body of the window *)

Definition current_session_id (a : SingleSessionApp) : option string :=
  match sa_live_session_id a with
  | Some session_id => Some session_id
  | None => sc_session_id <$> sa_session a
  end.

Definition is_none {A} (x : option A) : bool := match x with None => true | Some _ => false end.
Definition is_empty {A} (l : list A) : bool := match l with [] => true | _ => false end.

Definition is_empty_fresh_session (a : SingleSessionApp) : bool :=
  is_none (sa_session a) && is_none (sa_live_session_id a) && is_empty (sa_messages a)
  && (sa_streaming_response a =s "") && is_none (sa_status a) && is_none (sa_error a)
  && negb (sa_show_help a) && negb (mp_open (sa_model_picker a))
  && negb (sw_open (sa_session_switcher a)) && is_none (sa_stdin_response a).

(** The transcript with the response that is arriving and the error. *)
Definition transcript_lines (a : SingleSessionApp) : list SingleSessionStyledLine :=
  let (ls, _) := foldl append_chat_message_lines ([], 1) (sa_messages a) in
  let ls :=
    if sa_streaming_response a =s "" then ls
    else push_blank ls ++ render_assistant_markdown_lines (trim_end (sa_streaming_response a)) in
  match sa_error a with
  | Some error => push_blank ls ++ [styled_line ("error: " +:+ error) StyleError]
  | None => ls
  end.

Definition body_styled_lines (a : SingleSessionApp) : list SingleSessionStyledLine :=
  match sa_stdin_response a with
  | Some stdin_response => stdin_response_styled_lines stdin_response
  | None =>
      if sw_open (sa_session_switcher a)
      then session_switcher_styled_lines (sa_session_switcher a) (current_session_id a)
      else if mp_open (sa_model_picker a) then model_picker_styled_lines (sa_model_picker a)
      else if sa_show_help a then single_session_help_styled_lines
      else if negb (is_empty (sa_messages a)) || negb (sa_streaming_response a =s "")
              || negb (is_none (sa_error a))
      then transcript_lines a
      else if is_empty_fresh_session a then welcome_styled_lines (sa_welcome_name a) 0
      else
        match sa_status a, sa_session a with
        | Some status, None => [styled_line status StyleStatus]
        | _, session => single_session_styled_lines session
        end
  end.

Definition body_styled_lines_for_tick (tick : u64) (a : SingleSessionApp)
    : list SingleSessionStyledLine :=
  if is_empty_fresh_session a then welcome_styled_lines (sa_welcome_name a) tick
  else body_styled_lines a.

Definition body_lines (a : SingleSessionApp) : list string := ln_text <$> body_styled_lines a.
End lines.
