(* ===== verification/SingleSession.v ===== *)
(** * A desktop session ([crates/gcode-desktop/src/single_session.rs])

    The methods of [SingleSessionApp]: what the keys do, what the events of the
    session's worker do, and the selection of text. A method that edits the draft
    returns an option, [None] for a panic. *)

From S2P Require Import Prelude Utf8 Text TextCursor DesktopWorkspace Composer SessionPickers.
From S2P Require Import SingleSessionState SingleSessionLines.
Open Scope nat_scope.

Definition fresh_app (session : option SessionCard) (name : option string) : SingleSessionApp := {|
  sa_session := session; sa_composer := empty_composer; sa_detail_scroll := 0;
  sa_live_session_id := None; sa_messages := []; sa_streaming_response := ""; sa_status := None;
  sa_error := None; sa_is_processing := false; sa_body_scroll_lines := 0; sa_show_help := false;
  sa_pending_images := []; sa_model_picker := default_model_picker;
  sa_session_switcher := default_session_switcher; sa_stdin_response := None;
  sa_welcome_name := name; sa_queued_drafts := []; sa_selection := (None, None);
  sa_session_handle := None |}.

Definition short_session_id (session_id : string) : string :=
  match strip_prefix "session_" session_id ≫= (λ rest, nonempty (head (split_str "_" rest))) with
  | Some name => name
  | None => session_id
  end.

Definition title (a : SingleSessionApp) : string :=
  match sa_session a, sa_live_session_id a with
  | Some session, _ => sc_title session
  | None, Some session_id => "session " +:+ short_session_id session_id
  | None, None => "fresh session"
  end.

Definition status_title (a : SingleSessionApp) : string :=
  "Jcode Desktop · single session · " +:+ title a +:+
  " · Enter send · Shift+Enter newline · Ctrl+Enter queue · Ctrl+P sessions · Ctrl+Shift+M models · Ctrl+; spawn · Esc quit · --workspace for Niri layout".

Definition should_show_session_title_header (a : SingleSessionApp) : bool :=
  is_empty (sa_messages a) && (sa_streaming_response a =s "") && is_none (sa_error a)
  && negb (mp_open (sa_model_picker a)) && negb (sw_open (sa_session_switcher a))
  && is_none (sa_stdin_response a) && negb (sa_show_help a) && negb (is_none (sa_session a)).

Definition header_title (a : SingleSessionApp) : string :=
  if should_show_session_title_header a then title a
  else if sa_is_processing a || negb (sa_streaming_response a =s "") then "active conversation"
  else if negb (is_none (sa_session a)) || negb (is_none (sa_live_session_id a))
  then "conversation" else "fresh session".

Definition user_turn_count (a : SingleSessionApp) : usize :=
  length (filter (λ m, is_user (sm_role m) = true) (sa_messages a)).
Definition next_prompt_number (a : SingleSessionApp) : usize := user_turn_count a + 1.
Definition composer_prompt (a : SingleSessionApp) : string := show_usize (next_prompt_number a) +:+ "› ".
Definition composer_text (a : SingleSessionApp) : string :=
  composer_prompt a +:+ cp_draft (sa_composer a).

Definition composer_cursor_line_byte_index (a : SingleSessionApp) : option (usize * usize) :=
  place ← draft_cursor_line_byte_index (sa_composer a);
  let '(line, index) := (place : usize * usize) in
  Some (if line =? 0 then (line, String.length (composer_prompt a) + index) else (line, index)).

Definition is_in_flight_status (status : string) : bool :=
  str_in status ["loading models"; "loading recent sessions"; "receiving"; "connected";
                 "sending interactive input"; "switching model"; "cancelling"]
  || starts_with "using tool " status || starts_with "attached " status.

Definition has_activity_indicator (a : SingleSessionApp) : bool :=
  sa_is_processing a || mp_loading (sa_model_picker a) || sw_loading (sa_session_switcher a)
  || from_option is_in_flight_status false (sa_status a).

Definition has_background_work (a : SingleSessionApp) : bool := has_activity_indicator a.
Definition has_frame_animation (a : SingleSessionApp) : bool := is_empty_fresh_session a.

(** [" · {count} {noun}s"], without the [s] for one and nothing for none *)
Definition counted (count : usize) (one many : string) : string :=
  match count with
  | 0 => ""
  | 1 => one
  | _ => many
  end.

Definition composer_status_line_for_tick (tick : u64) (a : SingleSessionApp) : string :=
  let status := default "ready" (sa_status a) in
  let mode :=
    if sa_is_processing a then "Ctrl+C interrupt"
    else "Enter send · Shift+Enter newline · Ctrl+Enter queue/send" in
  let scrolled := sa_body_scroll_lines a in
  let scroll := counted scrolled " · scrolled up 1 line"
    (" · scrolled up " +:+ show_usize scrolled +:+ " lines") in
  let count := length (sa_pending_images a) in
  let images := counted count " · 1 image" (" · " +:+ show_usize count +:+ " images") in
  let waiting := length (sa_queued_drafts a) in
  let queued := counted waiting " · 1 queued" (" · " +:+ show_usize waiting +:+ " queued") in
  let stdin :=
    match sa_stdin_response a with
    | Some state =>
        if sr_is_password state then " · password input requested"
        else " · interactive input requested"
    | None => ""
    end in
  let model :=
    match mp_current_model (sa_model_picker a), nonempty (mp_provider_name (sa_model_picker a)) with
    | Some model, Some provider => " · model " +:+ provider +:+ "/" +:+ model
    | Some model, None => " · model " +:+ model
    | None, _ => ""
    end in
  status +:+ images +:+ queued +:+ stdin +:+ model +:+ scroll +:+ " · " +:+ mode.

(** ** Transcript *)

Definition set_status (status : string) : SingleSessionApp → SingleSessionApp :=
  sa_set_status (Some status).
Definition push_message (m : SingleSessionMessage) (a : SingleSessionApp) : SingleSessionApp :=
  sa_set_messages (sa_messages a ++ [m]) a.

Definition scroll_body_lines (delta : Z) (a : SingleSessionApp) : SingleSessionApp :=
  sa_set_body_scroll_lines
    (if (0 <? delta)%Z then sa_body_scroll_lines a + Z.to_nat delta
     else sa_body_scroll_lines a - steps delta) a.
Definition scroll_body_to_bottom : SingleSessionApp → SingleSessionApp := sa_set_body_scroll_lines 0.

Definition latest_assistant_response (a : SingleSessionApp) : option string :=
  if negb (trim (sa_streaming_response a) =s "") then Some (trim (sa_streaming_response a))
  else
    message ← find (λ m, bool_decide (sm_role m = AssistantRole)) (reverse (sa_messages a));
    nonempty (Some (trim (sm_content message))).

Definition finish_streaming_response (a : SingleSessionApp) : SingleSessionApp :=
  let response := trim (sa_streaming_response a) in
  let a := if response =s "" then a else push_message (assistant_message response) a in
  sa_set_streaming_response "" a.

Definition record_user_submit (message : string) (a : SingleSessionApp) : SingleSessionApp :=
  let a := push_message (user_message message) a in
  let a := sa_set_composer empty_composer a in
  let a := sa_set_streaming_response "" a in
  let a := scroll_body_to_bottom a in
  let a := set_status "sending" a in
  sa_set_is_processing true (sa_set_error None a).

(** ** Submitting, queueing, images *)

Definition submit_draft (a : SingleSessionApp) : KeyOutcome * SingleSessionApp :=
  let message := trim (cp_draft (sa_composer a)) in
  if (message =s "") && is_empty (sa_pending_images a) then (OutNone, a)
  else
    let images := sa_pending_images a in
    let a := record_user_submit message (sa_set_pending_images [] a) in
    (match sa_session a with
     | None => OutStartFreshSession message images
     | Some session => OutSendDraft (sc_session_id session) (sc_title session) message images
     end, a).

Definition queue_draft (a : SingleSessionApp) : KeyOutcome * SingleSessionApp :=
  let message := trim (cp_draft (sa_composer a)) in
  if (message =s "") && is_empty (sa_pending_images a) then (OutNone, a)
  else
    let images := sa_pending_images a in
    let a := sa_set_pending_images [] a in
    let a := sa_set_queued_drafts (sa_queued_drafts a ++ [(message, images)]) a in
    let a := push_message (meta_message ("queued prompt: " +:+ message)) a in
    let a := sa_set_composer empty_composer a in
    (OutRedraw, set_status (show_usize (length (sa_queued_drafts a)) +:+ " prompt(s) queued") a).

Definition take_next_queued_draft (a : SingleSessionApp)
    : option (string * list (string * string)) * SingleSessionApp :=
  match sa_queued_drafts a with
  | (message, images) :: rest =>
      if sa_is_processing a then (None, a)
      else (Some (message, images), record_user_submit message (sa_set_queued_drafts rest a))
  | [] => (None, a)
  end.

Definition attach_image (media_type base64_data : string) (a : SingleSessionApp) : SingleSessionApp :=
  let a := sa_set_pending_images (sa_pending_images a ++ [(media_type, base64_data)]) a in
  set_status ("attached " +:+ show_usize (length (sa_pending_images a)) +:+ " image(s)") a.

Definition clear_attached_images (a : SingleSessionApp) : bool * SingleSessionApp :=
  if is_empty (sa_pending_images a) then (false, a)
  else (true, set_status "cleared image attachments" (sa_set_pending_images [] a)).

Definition accepts_clipboard_image_paste (a : SingleSessionApp) : bool :=
  is_none (sa_stdin_response a) && negb (mp_open (sa_model_picker a))
  && negb (sw_open (sa_session_switcher a)).

(** An edit of the composer. *)
Definition edit_draft (edit : Composer → option Composer) (a : SingleSessionApp)
    : option SingleSessionApp :=
  composer ← edit (sa_composer a); Some (sa_set_composer composer a).

Definition paste_text (text : string) (a : SingleSessionApp) : option SingleSessionApp :=
  if text =s "" then Some a
  else
    match sa_stdin_response a with
    | Some state => Some (sa_set_stdin_response (Some (sr_set_input (sr_input state +:+ text) state)) a)
    | None => edit_draft (insert_draft_text text) a
    end.

(** ** The worker *)

Definition closed_channel (doing : string) : string :=
  "failed to send " +:+ doing +:+ " to desktop session worker: sending on a closed channel".

(** Whether there was a session to cancel. *)
Definition cancel_generation (a : SingleSessionApp) : bool * SingleSessionApp :=
  match sa_session_handle a with
  | None => (false, a)
  | Some handle =>
      match handle_send CommandCancel handle with
      | Some handle =>
          let a := sa_set_session_handle (Some handle) a in
          (true, set_status "cancelling" (sa_set_stdin_response None a))
      | None =>
          let a := sa_set_error (Some (closed_channel "cancel")) a in
          let a := sa_set_stdin_response None (sa_set_is_processing false a) in
          (true, sa_set_session_handle None a)
      end
  end.

Definition set_session_handle (handle : DesktopSessionHandle) : SingleSessionApp → SingleSessionApp :=
  sa_set_session_handle (Some handle).

Definition send_stdin_response (request_id input : string) (a : SingleSessionApp)
    : (unit + string) * SingleSessionApp :=
  match sa_session_handle a with
  | None => (inr "no active desktop session to receive interactive input", a)
  | Some handle =>
      match handle_send (CommandStdinResponse request_id input) handle with
      | Some handle =>
          (inl (), set_status "interactive input sent" (sa_set_session_handle (Some handle) a))
      | None => (inr (closed_channel "stdin response"), a)
      end
  end.

Section app.
Context `{Markdown} `{UnicodeLower} `{WelcomeName}.

Definition new (session : option SessionCard) : SingleSessionApp :=
  fresh_app session desktop_welcome_name.
Definition reset_fresh_session (a : SingleSessionApp) : SingleSessionApp :=
  fresh_app None desktop_welcome_name.

Definition replace_session (session : option SessionCard) (a : SingleSessionApp) : SingleSessionApp :=
  let a := sa_set_session session a in
  let a := match session with
           | Some session => sa_set_live_session_id (Some (sc_session_id session)) a
           | None => a
           end in
  sa_set_detail_scroll 0 a.

(** ** Prompts in the transcript *)

Definition prompt_indices (ls : list string) : list usize :=
  fst <$> filter (λ p, is_user_prompt_line p.2 = true) (imap pair ls).

Definition jump_prompt (direction : Z) (a : SingleSessionApp) : SingleSessionApp :=
  let ls := body_lines a in
  let indices := prompt_indices ls in
  let current_line := length ls - sa_body_scroll_lines a - 1 in
  let go target := sa_set_body_scroll_lines (length ls - (target + 1)) a in
  match indices with
  | [] => a
  | first :: _ =>
      if (direction <? 0)%Z then
        match find (λ index, index <? current_line) (reverse indices) with
        | Some target => go target
        | None => go first
        end
      else
        match find (λ index, current_line <? index) indices with
        | Some target => go target
        | None => scroll_body_to_bottom a
        end
  end.

(** ** Opening the pickers *)

Definition open_model_picker (a : SingleSessionApp) : KeyOutcome * SingleSessionApp :=
  let a := sa_set_show_help false a in
  let a := sa_set_session_switcher (sw_close (sa_session_switcher a)) a in
  let a := sa_set_model_picker (mp_open_loading (sa_model_picker a)) a in
  (OutLoadModelCatalog, scroll_body_to_bottom (set_status "loading models" a)).

Definition switcher_loading (a : SingleSessionApp) : SingleSessionApp :=
  set_status "loading recent sessions"
    (sa_set_session_switcher (sw_open_loading (current_session_id a) (sa_session_switcher a)) a).

Definition open_session_switcher (a : SingleSessionApp) : KeyOutcome * SingleSessionApp :=
  let a := sa_set_show_help false a in
  let a := sa_set_model_picker (mp_close (sa_model_picker a)) a in
  (OutLoadSessionSwitcher, scroll_body_to_bottom (switcher_loading a)).

Definition handle_model_picker_key (key : KeyInput) (a : SingleSessionApp)
    : KeyOutcome * SingleSessionApp :=
  let picker := sa_model_picker a in
  let picked p := (OutRedraw, sa_set_model_picker p a) in
  match key with
  | KeyEscape | OpenModelPicker => picked (mp_close picker)
  | OpenSessionSwitcher => open_session_switcher (sa_set_model_picker (mp_close picker) a)
  | RefreshSessions =>
      (OutLoadModelCatalog,
       set_status "loading models" (sa_set_model_picker (mp_open_loading picker) a))
  | ModelPickerMove delta => picked (mp_move_selection delta picker)
  | CycleModel direction => (OutCycleModel direction, a)
  | SubmitDraft =>
      (match selected_model picker with Some model => OutSetModel model | None => OutNone end, a)
  | KeyBackspace => picked (mp_pop_filter_char picker)
  | Character text => picked (mp_push_filter_text text picker)
  | HotkeyHelp => (OutRedraw, sa_set_show_help true (sa_set_model_picker (mp_close picker) a))
  | _ => (OutNone, a)
  end.

Definition resume_selected_switcher_session (a : SingleSessionApp) : KeyOutcome * SingleSessionApp :=
  if sa_is_processing a then
    (OutRedraw, set_status
       "finish or Ctrl+C interrupt the running generation before switching sessions" a)
  else
    match selected_session (sa_session_switcher a) with
    | None => (OutNone, a)
    | Some session =>
        let a := sa_set_session (Some session) a in
        let a := sa_set_live_session_id (Some (sc_session_id session)) a in
        let a := sa_set_detail_scroll 0 a in
        let a := sa_set_messages [] a in
        let a := sa_set_streaming_response "" a in
        let a := sa_set_error None a in
        let a := sa_set_stdin_response None a in
        let a := sa_set_body_scroll_lines 0 a in
        let a := sa_set_show_help false a in
        let a := sa_set_session_switcher (sw_close (sa_session_switcher a)) a in
        (OutRedraw, set_status ("resumed " +:+ sc_title session) a)
    end.

Definition handle_session_switcher_key (key : KeyInput) (a : SingleSessionApp)
    : KeyOutcome * SingleSessionApp :=
  let switcher := sa_session_switcher a in
  let switched s := (OutRedraw, sa_set_session_switcher s a) in
  match key with
  | KeyEscape | OpenSessionSwitcher => switched (sw_close switcher)
  | RefreshSessions => (OutLoadSessionSwitcher, switcher_loading a)
  | ModelPickerMove delta => switched (sw_move_selection delta switcher)
  | SubmitDraft => resume_selected_switcher_session a
  | KeyBackspace => switched (sw_pop_filter_char switcher)
  | Character text => switched (sw_push_filter_text text switcher)
  | HotkeyHelp => (OutRedraw, sa_set_show_help true (sa_set_session_switcher (sw_close switcher) a))
  | OpenModelPicker => open_model_picker (sa_set_session_switcher (sw_close switcher) a)
  | SpawnPanel => (OutSpawnSession, sa_set_session_switcher (sw_close switcher) a)
  | _ => (OutNone, a)
  end.

Definition apply_session_switcher_cards (cards : list SessionCard) (a : SingleSessionApp)
    : SingleSessionApp :=
  let a := sa_set_session_switcher
    (sw_apply_sessions cards (current_session_id a) (sa_session_switcher a)) a in
  if sw_open (sa_session_switcher a)
  then set_status (show_usize (length (sw_sessions (sa_session_switcher a)))
         +:+ " recent session(s)") a
  else a.

Definition handle_stdin_response_key (key : KeyInput) (state : StdinResponseState)
    (a : SingleSessionApp) : KeyOutcome * SingleSessionApp :=
  let typed input := (OutRedraw, sa_set_stdin_response (Some (sr_set_input input state)) a) in
  match key with
  | SubmitDraft | QueueDraft =>
      (OutSendStdinResponse (sr_request_id state) (sr_input state),
       set_status "sending interactive input" (sa_set_stdin_response None a))
  | KeyEnter => typed (sr_input state +:+ nl)
  | KeyBackspace => typed (pop_char (sr_input state))
  | DeleteToLineStart => typed ""
  | PasteText => (OutPasteText, a)
  | Character text => typed (sr_input state +:+ text)
  | CancelGeneration => (OutCancelGeneration, a)
  | KeyEscape => (OutRedraw, set_status "interactive input pending · Ctrl+C to cancel" a)
  | _ => (OutNone, a)
  end.

(** ** Keys *)

Definition redraw (a : option SingleSessionApp) : option (KeyOutcome * SingleSessionApp) :=
  pair OutRedraw <$> a.

(** A key when no overlay takes it. *)
Definition handle_draft_key (key : KeyInput) (a : SingleSessionApp)
    : option (KeyOutcome * SingleSessionApp) :=
  let edited edit := redraw (edit_draft edit a) in
  match key with
  | SpawnPanel => Some (OutSpawnSession, a)
  | OpenSessionSwitcher => Some (open_session_switcher a)
  | OpenModelPicker => Some (open_model_picker a)
  | HotkeyHelp =>
      Some (OutRedraw, scroll_body_to_bottom (sa_set_show_help (negb (sa_show_help a)) a))
  | RefreshSessions => Some (OutRedraw, a)
  | CancelGeneration => Some (if sa_is_processing a then OutCancelGeneration else OutNone, a)
  | ScrollBodyPages pages => Some (OutRedraw, scroll_body_lines (wrap_s 32 (pages * 12)) a)
  | JumpPrompt direction => Some (OutRedraw, jump_prompt direction a)
  | CopyLatestResponse =>
      Some (match latest_assistant_response a with
            | Some response => OutCopyLatestResponse response
            | None => OutNone
            end, a)
  | ModelPickerMove _ => Some (OutNone, a)
  | CycleModel direction => Some (OutCycleModel direction, a)
  | AttachClipboardImage => Some (OutAttachClipboardImage, a)
  | ClearAttachedImages =>
      let (cleared, a) := clear_attached_images a in
      Some (if cleared : bool then OutRedraw else OutNone, a)
  | PasteText => Some (OutPasteText, a)
  | QueueDraft => Some (if sa_is_processing a then queue_draft a else submit_draft a)
  | SubmitDraft => Some (submit_draft a)
  | KeyEscape =>
      Some (if sa_show_help a then (OutRedraw, sa_set_show_help false a) else (OutExit, a))
  | KeyEnter => edited (insert_draft_text nl)
  | KeyBackspace => edited delete_previous_char
  | DeletePreviousWord => edited delete_previous_word
  | DeleteNextWord => edited delete_next_word
  | DeleteNextChar => edited delete_next_char
  | MoveCursorWordLeft => edited move_cursor_word_left
  | MoveCursorWordRight => edited move_cursor_word_right
  | MoveCursorLeft => edited move_cursor_left
  | MoveCursorRight => edited move_cursor_right
  | MoveToLineStart => edited move_to_line_start
  | MoveToLineEnd => edited move_to_line_end
  | DeleteToLineStart => edited delete_to_line_start
  | DeleteToLineEnd => edited delete_to_line_end
  | UndoInput => edited (λ c, Some (undo_input_change c))
  | Character text => edited (insert_draft_text text)
  | SetPanelSize _ | KeyOther => Some (OutNone, a)
  end.

Definition handle_key (key : KeyInput) (a : SingleSessionApp)
    : option (KeyOutcome * SingleSessionApp) :=
  match sa_stdin_response a with
  | Some state => Some (handle_stdin_response_key key state a)
  | None =>
      if sw_open (sa_session_switcher a) then Some (handle_session_switcher_key key a)
      else if mp_open (sa_model_picker a) then Some (handle_model_picker_key key a)
      else handle_draft_key key a
  end.

(** ** Events *)

Definition finish_session (status : string) (a : SingleSessionApp) : SingleSessionApp :=
  let a := finish_streaming_response a in
  let a := sa_set_stdin_response None (sa_set_is_processing false a) in
  set_status status (sa_set_session_handle None a).

Definition apply_session_event (event : DesktopSessionEvent) (a : SingleSessionApp)
    : SingleSessionApp :=
  match event with
  | EventStatus status => set_status status a
  | EventReloading _ => sa_set_is_processing true (set_status "server reloading, reconnecting" a)
  | EventSessionStarted session_id =>
      set_status "connected" (sa_set_live_session_id (Some session_id) a)
  | EventTextDelta text =>
      set_status "receiving" (sa_set_streaming_response (sa_streaming_response a +:+ text) a)
  | EventTextReplace text => set_status "receiving" (sa_set_streaming_response text a)
  | EventToolStarted name =>
      push_message (tool_message (name +:+ " running")) (set_status ("using tool " +:+ name) a)
  | EventToolFinished name summary is_error =>
      let marker := if is_error : bool then "failed" else "done" in
      push_message (tool_message (name +:+ " " +:+ marker +:+ ": " +:+ summary))
        (set_status ("tool " +:+ name +:+ " " +:+ marker) a)
  | EventModelChanged _ _ (Some error) =>
      let a := set_status "model switch failed" a in
      let a := sa_set_model_picker (mp_apply_error error (sa_model_picker a)) a in
      push_message (meta_message ("model switch failed: " +:+ error)) a
  | EventModelChanged model provider_name None =>
      let label :=
        match nonempty provider_name with
        | Some provider => provider +:+ " · " +:+ model
        | None => model
        end in
      let a := sa_set_model_picker
        (mp_apply_model_change model provider_name (sa_model_picker a)) a in
      push_message (meta_message ("model switched to " +:+ label)) (set_status ("model: " +:+ label) a)
  | EventModelCatalog current_model provider_name models =>
      set_status "models loaded"
        (sa_set_model_picker (mp_apply_catalog current_model provider_name models (sa_model_picker a)) a)
  | EventModelCatalogError error =>
      set_status "model picker error"
        (sa_set_model_picker (mp_apply_error error (sa_model_picker a)) a)
  | EventStdinRequest request_id prompt is_password tool_call_id =>
      let a := sa_set_show_help false (set_status "interactive input requested" a) in
      let a := sa_set_model_picker (mp_close (sa_model_picker a)) a in
      let raw_prompt := trim prompt in
      let display_prompt := if raw_prompt =s "" then "interactive input requested" else raw_prompt in
      let a := sa_set_stdin_response (Some {|
        sr_request_id := request_id; sr_prompt := display_prompt; sr_is_password := is_password;
        sr_tool_call_id := tool_call_id; sr_input := "" |}) a in
      push_message (meta_message
        ("interactive" +:+ (if is_password then " password" else "") +:+ " input requested by "
         +:+ tool_call_id +:+ " (" +:+ request_id +:+ "): " +:+ display_prompt)) a
  | EventDone => finish_session "ready" a
  | EventError error => sa_set_error (Some error) (finish_session "error" a)
  end.
End app.

(** ** Selecting text *)

Definition begin_selection (point : SelectionPoint) : SingleSessionApp → SingleSessionApp :=
  sa_set_selection (Some point, Some point).
Definition update_selection (point : SelectionPoint) (a : SingleSessionApp) : SingleSessionApp :=
  match (sa_selection a).1 with
  | Some anchor => sa_set_selection (Some anchor, Some point) a
  | None => a
  end.
Definition clear_selection : SingleSessionApp → SingleSessionApp := sa_set_selection (None, None).

(** [selection_point_cmp(left, right).is_gt()] *)
Definition point_gt (left right : SelectionPoint) : bool :=
  (sp_line right <? sp_line left)
  || ((sp_line left =? sp_line right) && (sp_column right <? sp_column left)).

Definition selection_points (a : SingleSessionApp) : option (SelectionPoint * SelectionPoint) :=
  match sa_selection a with
  | (Some anchor, Some focus) =>
      Some (if point_gt anchor focus then (focus, anchor) else (anchor, focus))
  | _ => None
  end.

(** The columns of line [line_index] between two points. *)
Definition selected_columns (from until : SelectionPoint) (end_line line_index line_len : usize)
    : usize * usize :=
  (if line_index =? sp_line from then sp_column from `min` line_len else 0,
   if line_index =? end_line then sp_column until `min` line_len else line_len).

Definition selection_segments (ls : list string) (a : SingleSessionApp)
    : list SelectionLineSegment :=
  match selection_points a with
  | None => []
  | Some (from, until) =>
      if bool_decide (from = until) || (length ls <=? sp_line from) then []
      else
        let end_line := sp_line until `min` (length ls - 1) in
        omap id ((λ line_index,
          line ← ls !! line_index;
          let line_len := length (chars line) in
          let (start_column, end_column) := selected_columns from until end_line line_index line_len in
          if negb (start_column =? end_column)
             || (negb (sp_line from =? sp_line until) && (line_len =? 0))
          then Some {| sl_line := line_index; sl_start_column := start_column;
                       sl_end_column := end_column |}
          else None) <$> seq (sp_line from) (S end_line - sp_line from))
  end.

Definition byte_index_at_char_column (line : string) (column : usize) : usize :=
  default (String.length line) (((fst <$> char_indices line) ++ [String.length line]) !! column).

(** [line.get(start..end).unwrap_or_default()] *)
Definition slice_by_char_columns (line : string) (start_column end_column : usize) : string :=
  let start := byte_index_at_char_column line start_column in
  let end_ := byte_index_at_char_column line (end_column `max` start_column) in
  default "" (slice line start end_).

(** The lines are all there: [selected_lines_exist] below. *)
Definition selected_text_from_lines (ls : list string) (a : SingleSessionApp)
    : option string :=
  points ← selection_points a;
  let '(from, until) := (points : SelectionPoint * SelectionPoint) in
  if bool_decide (from = until) || (length ls <=? sp_line from) then None
  else
    let end_line := sp_line until `min` (length ls - 1) in
    let selected := (λ line_index,
      let line := default "" (ls !! line_index) in
      let (start_column, end_column) :=
        selected_columns from until end_line line_index (length (chars line)) in
      slice_by_char_columns line start_column end_column)
      <$> seq (sp_line from) (S end_line - sp_line from) in
    let text := join nl selected in
    if text =s "" then None else Some text.
