(* ===== verification/SingleSessionText.v ===== *)
(** * Jumps and selections in a desktop session

    Where the keys that jump between prompts go, and that a selection copies the
    text between its two points. *)

From S2P Require Import Prelude Utf8 Text TextCursor DesktopWorkspace Composer.
From S2P Require Import SessionPickers SingleSessionState SingleSessionLines SingleSession.
Open Scope nat_scope.

(** ** Ascending lists of indices *)

Lemma sublist_StronglySorted {A} (R : relation A) l1 l2 :
  l1 `sublist_of` l2 → StronglySorted R l2 → StronglySorted R l1.
Proof.
  intros Hl. induction Hl as [|x l1 l2 Hl IH|x l1 l2 Hl IH]; [done|..]; intros Hs;
    apply StronglySorted_inv in Hs as [Hs Hx]; [|by apply IH].
  constructor; [by apply IH|]. by eapply sublist_Forall.
Qed.

Lemma fmap_sublist {A B} (f : A → B) l1 l2 : l1 `sublist_of` l2 → f <$> l1 `sublist_of` f <$> l2.
Proof. induction 1; cbn; by constructor. Qed.

Lemma seq_sorted n m : StronglySorted lt (seq n m).
Proof.
  revert n. induction m as [|m IH]; intros n; constructor; [apply IH|].
  apply Forall_forall. intros x Hx%elem_of_seq. lia.
Qed.

Lemma fst_imap_pair {A} (l : list A) : fst <$> imap pair l = seq 0 (length l).
Proof.
  rewrite fmap_imap. apply list_eq. intros i. rewrite list_lookup_imap.
  destruct (decide (i < length l)) as [Hlt|Hge].
  - rewrite lookup_seq_lt by done. by destruct (proj2 (lookup_lt_is_Some l i) Hlt) as [x ->].
  - rewrite lookup_seq_ge, lookup_ge_None_2 by lia. done.
Qed.

(** The indices of the items with a property ascend. *)
Lemma indices_sorted {A} (P : usize * A → Prop) `{∀ x, Decision (P x)} (l : list A) :
  StronglySorted lt (fst <$> filter P (imap pair l)).
Proof.
  eapply sublist_StronglySorted; [|apply (seq_sorted 0 (length l))].
  rewrite <- fst_imap_pair. apply fmap_sublist, sublist_filter.
Qed.

Lemma find_least c l t :
  StronglySorted lt l → find (λ i, c <? i) l = Some t →
  t ∈ l ∧ c < t ∧ ∀ j, j ∈ l → c < j → t ≤ j.
Proof.
  intros Hs E. pose proof E as [Ht Hc%Nat.ltb_lt]%find_Some_elem. split_and!; [done..|].
  induction Hs as [|x l Hs IH Hx]; [done|]. cbn [List.find] in E. intros j Hj Hcj.
  revert E. destruct (Nat.ltb_spec c x) as [Hcx|Hcx]; intros E.
  - injection E as ->. apply elem_of_cons in Hj as [->|Hj]; [lia|].
    rewrite Forall_forall in Hx. specialize (Hx _ Hj). lia.
  - apply elem_of_cons in Hj as [->|Hj]; [lia|]. apply IH; [done| |done..].
    by apply find_Some_elem in E as [? _].
Qed.

Lemma find_greatest c l t :
  StronglySorted lt l → find (λ i, i <? c) (reverse l) = Some t →
  t ∈ l ∧ t < c ∧ ∀ j, j ∈ l → j < c → j ≤ t.
Proof.
  intros Hs E. pose proof E as [Ht Hc%Nat.ltb_lt]%find_Some_elem. rewrite elem_of_reverse in Ht.
  split_and!; [done..|]. revert E. clear Ht.
  induction l as [|x l IH] using rev_ind; [done|]. rewrite reverse_snoc. cbn [List.find].
  pose proof (StronglySorted_app_1_l _ _ _ Hs) as Hs'. intros E j Hj Hjc. revert E.
  assert (∀ k, k ∈ l → k < x) as Hx.
  { intros k Hk. eapply StronglySorted_app_1_elem_of; [exact Hs|done|by apply list_elem_of_singleton]. }
  destruct (Nat.ltb_spec x c) as [Hxc|Hxc]; intros E.
  - injection E as ->. apply elem_of_app in Hj as [Hj|Hj%list_elem_of_singleton]; [|lia].
    specialize (Hx _ Hj). lia.
  - apply elem_of_app in Hj as [Hj|Hj%list_elem_of_singleton]; [|lia]. by apply IH.
Qed.

Lemma find_none_iff {A} (p : A → bool) l : find p l = None ↔ ∀ x, x ∈ l → p x = false.
Proof.
  split.
  - intros E x Hx%list_elem_of_In. by apply (find_none p l).
  - intros Hl. destruct (find p l) as [x|] eqn:E; [|done].
    apply find_Some_elem in E as [Hx E]. by rewrite Hl in E.
Qed.

(** ** Jumping between prompts *)

Section jump.
Context `{Markdown} `{UnicodeLower}.

(** The last line that is shown. *)
Definition bottom_line (a : SingleSessionApp) : usize :=
  length (body_lines a) - sa_body_scroll_lines a - 1.

Lemma prompt_index_lt ls i : i ∈ prompt_indices ls → i < length ls.
Proof.
  unfold prompt_indices. intros ([j x] & -> & [_ Hx]%list_elem_of_filter)%list_elem_of_fmap.
  apply elem_of_lookup_imap in Hx as (k & y & [= -> ->] & Hk). by apply lookup_lt_Some in Hk.
Qed.

Lemma bottom_of_target a t :
  t < length (body_lines a) →
  bottom_line (sa_set_body_scroll_lines (length (body_lines a) - (t + 1)) a) = t.
Proof.
  intros Ht. unfold bottom_line.
  change (body_lines (sa_set_body_scroll_lines _ a)) with (body_lines a). cbn. lia.
Qed.

Lemma jump_back_above a p :
  p ∈ prompt_indices (body_lines a) → p < bottom_line a →
  ∃ t, jump_prompt (-1) a = sa_set_body_scroll_lines (length (body_lines a) - (t + 1)) a ∧
    t ∈ prompt_indices (body_lines a) ∧ t < bottom_line a ∧
    ∀ j, j ∈ prompt_indices (body_lines a) → j < bottom_line a → j ≤ t.
Proof.
  intros Hp Hpb. unfold jump_prompt. fold (bottom_line a). cbn [Z.ltb Z.compare].
  destruct (find_is_Some (λ i, i <? bottom_line a) (reverse (prompt_indices (body_lines a))) p) as [t E];
    [by rewrite elem_of_reverse|by apply Nat.ltb_lt|].
  apply find_greatest in E as E'; [|apply indices_sorted]. destruct E' as (Ht & Htb & Hg).
  exists t. split_and!; [|done..]. rewrite E.
  by destruct (prompt_indices (body_lines a)); [apply not_elem_of_nil in Hp|].
Qed.

Lemma jump_back_none a :
  (∀ p, p ∈ prompt_indices (body_lines a) → bottom_line a ≤ p) →
  jump_prompt (-1) a = match prompt_indices (body_lines a) with
    | [] => a
    | first :: _ => sa_set_body_scroll_lines (length (body_lines a) - (first + 1)) a
    end.
Proof.
  intros Hall. unfold jump_prompt. fold (bottom_line a). cbn [Z.ltb Z.compare].
  replace (find _ _) with (@None nat); [done|]. symmetry. apply find_none_iff.
  intros x Hx. rewrite elem_of_reverse in Hx. apply Nat.ltb_ge. by apply Hall.
Qed.

Lemma jump_forward_below a p :
  p ∈ prompt_indices (body_lines a) → bottom_line a < p →
  ∃ t, jump_prompt 1 a = sa_set_body_scroll_lines (length (body_lines a) - (t + 1)) a ∧
    t ∈ prompt_indices (body_lines a) ∧ bottom_line a < t ∧
    ∀ j, j ∈ prompt_indices (body_lines a) → bottom_line a < j → t ≤ j.
Proof.
  intros Hp Hpb. unfold jump_prompt. fold (bottom_line a). cbn [Z.ltb Z.compare].
  destruct (find_is_Some (λ i, bottom_line a <? i) (prompt_indices (body_lines a)) p) as [t E];
    [done|by apply Nat.ltb_lt|].
  apply find_least in E as E'; [|apply indices_sorted]. destruct E' as (Ht & Htb & Hg).
  exists t. split_and!; [|done..]. rewrite E.
  by destruct (prompt_indices (body_lines a)); [apply not_elem_of_nil in Hp|].
Qed.

(** A jump back shows the last prompt above the bottom line, or the first one;
    a jump forward shows the next prompt below it, or the end; and a jump forward
    undoes a jump back from a prompt. *)
Theorem jump_prompt_correct a :
  let prompts := prompt_indices (body_lines a) in
  let back := jump_prompt (-1) a in
  let forward := jump_prompt 1 a in
  (∀ p, p ∈ prompts → p < bottom_line a →
   bottom_line back ∈ prompts ∧ bottom_line back < bottom_line a ∧ p ≤ bottom_line back) ∧
  (prompts ≠ [] → (∀ p, p ∈ prompts → bottom_line a ≤ p) → Some (bottom_line back) = head prompts) ∧
  (∀ p, p ∈ prompts → bottom_line a < p →
   bottom_line forward ∈ prompts ∧ bottom_line a < bottom_line forward ∧ bottom_line forward ≤ p) ∧
  (prompts ≠ [] → (∀ p, p ∈ prompts → p ≤ bottom_line a) → sa_body_scroll_lines forward = 0) ∧
  (bottom_line a ∈ prompts → bottom_line back < bottom_line a →
   bottom_line (jump_prompt 1 back) = bottom_line a).
Proof.
  cbv zeta. pose proof (prompt_index_lt (body_lines a)) as Hlt.
  assert (StronglySorted lt (prompt_indices (body_lines a))) as Hs by apply indices_sorted.
  split_and!.
  - intros p Hp Hpb. destruct (jump_back_above a p Hp Hpb) as (t & -> & Ht & Htb & Hg).
    rewrite bottom_of_target by by apply Hlt. split_and!; [done..|]. by apply Hg.
  - intros Hne Hall. rewrite (jump_back_none a Hall). revert Hne Hlt. destruct (prompt_indices (body_lines a)) as [|p ps]; [done|].
    intros _ Hlt. cbn [head]. f_equal. apply bottom_of_target, Hlt. left.
  - intros p Hp Hpb. destruct (jump_forward_below a p Hp Hpb) as (t & -> & Ht & Htb & Hl).
    rewrite bottom_of_target by by apply Hlt. split_and!; [done..|]. by apply Hl.
  - intros Hne Hall. unfold jump_prompt. fold (bottom_line a). revert Hne Hall.
    destruct (prompt_indices (body_lines a)) as [|p ps]; [done|]. cbn [Z.ltb Z.compare].
    intros _ Hall. replace (find _ _) with (@None nat); [done|]. symmetry. apply find_none_iff.
    intros x Hx. apply Nat.ltb_ge. by apply Hall.
  - intros Hp Hback.
    assert (∃ t, jump_prompt (-1) a = sa_set_body_scroll_lines (length (body_lines a) - (t + 1)) a ∧
      t < length (body_lines a) ∧ ∀ j, j ∈ prompt_indices (body_lines a) → t < j → bottom_line a ≤ j)
      as (t & E & Ht & Hg).
    { destruct (decide (Exists (λ p, p < bottom_line a) (prompt_indices (body_lines a)))) as [He|Hno];
        rewrite Exists_exists in *.
      - destruct He as (p & Hp1 & Hp2).
        destruct (jump_back_above a p Hp1 Hp2) as (t & E & Ht & Htb & Hg). exists t.
        split_and!; [done|by apply Hlt|]. intros j Hj Htj. apply Nat.nlt_ge. intros Hjb.
        specialize (Hg _ Hj Hjb). lia.
      - exfalso. rewrite jump_back_none in Hback. 2:{ intros p Hp'. apply Nat.nlt_ge. eauto. }
        destruct (prompt_indices (body_lines a)) as [|f fs]; [lia|].
        rewrite bottom_of_target in Hback by (apply Hlt; left). apply Hno. exists f. by split; [left|]. }
    rewrite E in *. rewrite bottom_of_target in Hback by done.
    set (a' := sa_set_body_scroll_lines _ a) in *.
    assert (bottom_line a' = t) as Et by by apply bottom_of_target.
    destruct (jump_forward_below a' (bottom_line a)) as (u & Eu & Hu & Hub & Hul); [done|by rewrite Et|].
    rewrite Eu, bottom_of_target by by apply Hlt. rewrite Et in *.
    apply Nat.le_antisymm; [by apply Hul|by apply Hg].
Qed.
End jump.

(** ** A text of lines *)

(** The characters of lines joined with newlines. *)
Fixpoint document (ls : list (list string)) : list string :=
  match ls with
  | [] => []
  | [l] => l
  | l :: ls => l ++ nl :: document ls
  end.

(** Where a column of a line is in the document. *)
Fixpoint offset (ls : list (list string)) (line column : usize) : usize :=
  match line, ls with
  | S line, l :: ls => length l + 1 + offset ls line column
  | _, _ => column
  end.

Lemma document_cons l ls : ls ≠ [] → document (l :: ls) = l ++ nl :: document ls.
Proof. by destruct ls. Qed.

Lemma document_push l1 l2 ls : document ((l1 ++ l2) :: ls) = l1 ++ document (l2 :: ls).
Proof. destruct ls; cbn; [done|]. by rewrite <- app_assoc. Qed.

Lemma document_split column l ls :
  document (l :: ls) = take column l ++ document (drop column l :: ls).
Proof. by rewrite <- document_push, take_drop. Qed.

(** The document up to a place. *)
Lemma document_take ls line column l :
  ls !! line = Some l → column ≤ length l →
  take (offset ls line column) (document ls) = document (take line ls ++ [take column l]).
Proof.
  revert line. induction ls as [|l0 ls IH]; intros [|line] E Hc; try done; cbn [lookup list_lookup] in E.
  - injection E as ->. cbn [offset take app].
    rewrite (document_split column), take_app_le by (rewrite length_take; lia). by rewrite take_idemp.
  - assert (ls ≠ []) by (by destruct ls). cbn [offset take app].
    rewrite !document_cons by (done || by destruct (take line ls)).
    rewrite take_app_ge by lia. f_equal.
    replace (length l0 + 1 + offset ls line column - length l0) with (S (offset ls line column)) by lia.
    cbn [take]. f_equal. by apply IH.
Qed.

(** The document from a place on. *)
Lemma document_drop ls line column l :
  ls !! line = Some l → column ≤ length l →
  drop (offset ls line column) (document ls) = document (drop column l :: drop (S line) ls).
Proof.
  revert line. induction ls as [|l0 ls IH]; intros [|line] E Hc; try done; cbn [lookup list_lookup] in E.
  - injection E as ->. cbn [offset drop]. rewrite drop_0.
    rewrite (document_split column), drop_app_ge, length_take, Nat.min_l, Nat.sub_diag, drop_0;
      [done|lia|rewrite length_take; lia].
  - assert (ls ≠ []) by (by destruct ls). cbn [offset].
    rewrite document_cons by done. rewrite drop_app_ge by lia.
    replace (length l0 + 1 + offset ls line column - length l0) with (S (offset ls line column)) by lia.
    cbn [drop]. by apply IH.
Qed.

Lemma offset_take ls line until column l :
  line < until → line < length ls →
  offset (take until ls ++ [l]) line column = offset ls line column.
Proof.
  revert line until. induction ls as [|l0 ls IH]; intros [|line] [|until] Hle Hl; cbn in *; try lia.
  rewrite IH; lia.
Qed.

Lemma offset_lt ls line0 column0 line1 column1 l0 :
  ls !! line0 = Some l0 → column0 ≤ length l0 → line0 < line1 →
  offset ls line0 column0 < offset ls line1 column1.
Proof.
  revert line0 line1. induction ls as [|l ls IH]; intros [|line0] [|line1] E Hc Hlt; try done; try lia.
  - injection E as ->. cbn. lia.
  - cbn [offset]. specialize (IH line0 line1 E Hc ltac:(lia)). lia.
Qed.

(** The document between two places. *)
Lemma document_between ls line0 column0 l0 line1 column1 l1 :
  ls !! line0 = Some l0 → ls !! line1 = Some l1 → column0 ≤ length l0 → column1 ≤ length l1 →
  line0 < line1 →
  take (offset ls line1 column1 - offset ls line0 column0) (drop (offset ls line0 column0) (document ls))
  = document (drop column0 l0 :: drop (S line0) (take line1 ls) ++ [take column1 l1]).
Proof.
  intros E0 E1 Hc0 Hc1 Hlt. pose proof (offset_lt ls line0 column0 line1 column1 l0 E0 Hc0 Hlt).
  pose proof (lookup_lt_Some _ _ _ E0). pose proof (lookup_lt_Some _ _ _ E1).
  rewrite take_drop_commute, Nat.add_comm, Nat.sub_add by lia.
  rewrite (document_take _ _ _ _ E1 Hc1).
  rewrite <- (offset_take ls line0 line1 column0 (take column1 l1)) by lia.
  rewrite (document_drop _ _ _ l0); [|by rewrite lookup_app_l, lookup_take_lt by (rewrite ?length_take; lia)|done].
  by rewrite drop_app_le by (rewrite length_take; lia).
Qed.

Lemma document_within ls line column0 column1 l :
  ls !! line = Some l → column0 ≤ column1 → column1 ≤ length l →
  take (offset ls line column1 - offset ls line column0) (drop (offset ls line column0) (document ls))
  = take (column1 - column0) (drop column0 l).
Proof.
  intros E Hc0 Hc1. rewrite (document_drop _ _ _ _ E) by lia.
  assert (∀ c, offset ls line c = offset ls line 0 + c) as Ho.
  { clear. revert line. induction ls as [|l0 ls IH]; intros [|line] c; cbn; try lia. rewrite (IH line c). lia. }
  rewrite (Ho column1), (Ho column0). replace (_ - _) with (column1 - column0) by lia.
  rewrite (document_split (column1 - column0)), take_app_le by (rewrite length_take, length_drop; lia).
  by rewrite take_idemp.
Qed.

(** ** Columns of characters *)

Lemma char_positions position cs k :
  k ≤ length cs →
  ((fst <$> char_indices_from position cs) ++ [position + String.length (str_concat cs)]) !! k
  = Some (position + String.length (str_concat (take k cs))).
Proof.
  revert position k. induction cs as [|c cs IH]; intros position [|k] Hk; cbn in Hk; try lia; cbn;
    rewrite ?Nat.add_0_r; try done.
  rewrite !str_length_app, !Nat.add_assoc. apply IH. lia.
Qed.

Lemma byte_index_correct line k :
  k ≤ length (chars line) →
  byte_index_at_char_column line k = String.length (str_concat (take k (chars line))).
Proof.
  intros Hk. unfold byte_index_at_char_column, char_indices.
  pose proof (char_positions 0 (chars line) k Hk) as E. rewrite str_concat_chars in E. cbn [Nat.add] in E.
  by rewrite E.
Qed.

Lemma slice_columns line column0 column1 :
  valid_text line → column0 ≤ column1 → column1 ≤ length (chars line) →
  slice_by_char_columns line column0 column1
  = str_concat (take (column1 - column0) (drop column0 (chars line))).
Proof.
  intros Hv H01 H1l. unfold slice_by_char_columns. rewrite Nat.max_l by done.
  rewrite !byte_index_correct by lia.
  assert (take column1 (chars line)
    = take column0 (chars line) ++ take (column1 - column0) (drop column0 (chars line))) as E.
  { rewrite take_drop_commute, Nat.add_comm, Nat.sub_add by done.
    rewrite <- (take_drop column0 (take column1 (chars line))) at 1.
    by rewrite take_take, Nat.min_l by done. }
  assert (split_at (take column0 (chars line) ++ take (column1 - column0) (drop column0 (chars line)))
    (drop column1 (chars line)) line (String.length (str_concat (take column1 (chars line))))) as Hat.
  { rewrite <- E. unfold valid_text in Hv. rewrite <- (take_drop column1 (chars line)) in Hv.
    apply Forall_app in Hv as [Hv1 Hv2]. split_and!; [|done..].
    by rewrite <- str_concat_app, take_drop, str_concat_chars. }
  by rewrite (slice_split _ _ _ _ _ Hat).
Qed.

Lemma chars_join ls : Forall valid_text ls → chars (join nl ls) = document (chars <$> ls).
Proof.
  induction 1 as [|l ls Hl Hls IH]; [done|]. destruct ls as [|l' ls]; [done|].
  change (join nl (l :: l' :: ls)) with (l +:+ nl +:+ join nl (l' :: ls)).
  rewrite fmap_cons, document_cons by done. rewrite <- IH.
  rewrite !chars_app; [done| |done]. apply valid_text_starts.
  clear - Hls. induction Hls as [|x xs Hx Hxs IH]; [constructor|]. destruct xs as [|y ys]; [done|].
  change (join nl (x :: y :: ys)) with (x +:+ nl +:+ join nl (y :: ys)).
  apply valid_text_app; [done|]. apply valid_text_app; [by repeat constructor|done].
Qed.

(** ** What a selection copies *)

Definition point_le (p q : SelectionPoint) : Prop :=
  sp_line p < sp_line q ∨ sp_line p = sp_line q ∧ sp_column p ≤ sp_column q.

Lemma selection_points_ordered a from until :
  selection_points a = Some (from, until) → point_le from until.
Proof.
  unfold selection_points. destruct (sa_selection a) as [[x|] [y|]]; try done. unfold point_gt, point_le.
  destruct (Nat.ltb_spec (sp_line y) (sp_line x)), (Nat.eqb_spec (sp_line x) (sp_line y)),
    (Nat.ltb_spec (sp_column y) (sp_column x)); cbn; intros [= <- <-]; lia.
Qed.

(** Where a point is in the document of the lines; a column behind the end of its
    line is that end. *)
Definition point_offset (ls : list string) (p : SelectionPoint) : usize :=
  offset (chars <$> ls) (sp_line p)
    (sp_column p `min` length (chars (default "" (ls !! sp_line p)))).

Definition selected_piece (ls : list string) (from until : SelectionPoint) (i : usize) : string :=
  let line := default "" (ls !! i) in
  let (start_column, end_column) :=
    selected_columns from until (sp_line until) i (length (chars line)) in
  slice_by_char_columns line start_column end_column.

Lemma piece_chars ls from until i line :
  Forall valid_text ls → point_le from until → ls !! i = Some line →
  sp_line from ≤ i ≤ sp_line until →
  let n := length (chars line) in
  let c0 := if i =? sp_line from then sp_column from `min` n else 0 in
  let c1 := if i =? sp_line until then sp_column until `min` n else n in
  c0 ≤ c1 ≤ n ∧ selected_piece ls from until i = str_concat (take (c1 - c0) (drop c0 (chars line))).
Proof.
  intros Hv Hle E Hi n c0 c1. unfold selected_piece, selected_columns. rewrite E. cbn [default from_option].
  assert (valid_text line) by (by eapply Forall_lookup_1).
  assert (c0 ≤ c1 ≤ n) as Hc.
  { unfold c0, c1. destruct Hle as [Hle|[Hl Hle]];
      destruct (Nat.eqb_spec i (sp_line from)), (Nat.eqb_spec i (sp_line until)); lia. }
  split; [done|]. by apply slice_columns; try apply Hc.
Qed.

Lemma selected_lines_exist (ls : list string) from until i :
  i ∈ seq (sp_line from) (S (sp_line until) - sp_line from) → sp_line until < length ls →
  is_Some (ls !! i).
Proof. intros Hi%elem_of_seq Hl. apply lookup_lt_is_Some. lia. Qed.

Lemma pieces_chars ls from until l0 l1 :
  Forall valid_text ls → point_le from until → sp_line from < sp_line until →
  ls !! sp_line from = Some l0 → ls !! sp_line until = Some l1 →
  chars <$> (selected_piece ls from until <$> seq (sp_line from) (S (sp_line until) - sp_line from))
  = drop (sp_column from `min` length (chars l0)) (chars l0)
    :: drop (S (sp_line from)) (take (sp_line until) (chars <$> ls))
    ++ [take (sp_column until `min` length (chars l1)) (chars l1)].
Proof.
  intros Hv Hle Hlt E0 E1. apply list_eq. intros k.
  assert (∀ i line, ls !! i = Some line → sp_line from ≤ i ≤ sp_line until →
    chars (selected_piece ls from until i)
    = let n := length (chars line) in
      let c0 := if i =? sp_line from then sp_column from `min` n else 0 in
      let c1 := if i =? sp_line until then sp_column until `min` n else n in
      take (c1 - c0) (drop c0 (chars line))) as Hpiece.
  { intros i line E Hi. destruct (piece_chars ls from until i line Hv Hle E Hi) as [_ ->].
    apply chars_valid, Forall_take, Forall_drop. exact (Forall_lookup_1 _ _ _ _ Hv E). }
  rewrite !list_lookup_fmap. pose proof (lookup_lt_Some _ _ _ E1) as Hl1.
  assert (length (take (sp_line until) (chars <$> ls)) = sp_line until) as Hlen
    by (rewrite length_take, length_fmap; lia).
  destruct (decide (k < S (sp_line until) - sp_line from)) as [Hk|Hk].
  2:{ rewrite lookup_seq_ge by lia. symmetry. apply lookup_ge_None_2. cbn.
      rewrite length_app, length_drop, Hlen. cbn. lia. }
  rewrite lookup_seq_lt by done. cbn [fmap option_fmap option_map].
  destruct (lookup_lt_is_Some_2 ls (sp_line from + k)) as [line E]; [lia|].
  rewrite (Hpiece _ _ E) by lia. cbv zeta. destruct k as [|k].
  - rewrite Nat.add_0_r in *. rewrite E0 in E. injection E as <-. rewrite Nat.eqb_refl.
    rewrite (proj2 (Nat.eqb_neq _ _)) by lia. cbn. f_equal. rewrite take_ge; [done|]. rewrite length_drop. lia.
  - rewrite lookup_cons_ne_0 by done. cbn [Nat.pred].
    rewrite (proj2 (Nat.eqb_neq (sp_line from + S k) (sp_line from))) by lia.
    rewrite Nat.sub_0_r, drop_0. destruct (Nat.eqb_spec (sp_line from + S k) (sp_line until)) as [Eu|Hne].
    + rewrite lookup_app_r by (rewrite length_drop, Hlen; lia). rewrite length_drop, Hlen.
      replace (k - _) with 0 by lia. rewrite Eu, E1 in E. by injection E as <-.
    + rewrite lookup_app_l by (rewrite length_drop, Hlen; lia). rewrite lookup_drop.
      rewrite lookup_take_lt by lia. replace (S (sp_line from) + k) with (sp_line from + S k) by lia.
      rewrite list_lookup_fmap, E. cbn. by rewrite firstn_all.
Qed.

Lemma pieces_valid ls from until i :
  Forall valid_text ls → point_le from until → sp_line from ≤ i ≤ sp_line until →
  sp_line until < length ls → valid_text (selected_piece ls from until i).
Proof.
  intros Hv Hle Hi Hl. destruct (lookup_lt_is_Some_2 ls i) as [line E]; [lia|].
  destruct (piece_chars ls from until i line Hv Hle E Hi) as [_ ->].
  apply valid_text_concat, Forall_take, Forall_drop. exact (Forall_lookup_1 _ _ _ _ Hv E).
Qed.

(** The pieces of the lines, joined, are the text between the points. *)
Lemma pieces_between ls from until :
  Forall valid_text ls → point_le from until → sp_line until < length ls →
  join nl (selected_piece ls from until <$> seq (sp_line from) (S (sp_line until) - sp_line from))
  = str_concat (take (point_offset ls until - point_offset ls from)
      (drop (point_offset ls from) (chars (join nl ls)))).
Proof.
  intros Hv Hle Hl. assert (sp_line from ≤ sp_line until) as Hll by (destruct Hle; lia).
  destruct (lookup_lt_is_Some_2 ls (sp_line from)) as [l0 E0]; [lia|].
  destruct (lookup_lt_is_Some_2 ls (sp_line until)) as [l1 E1]; [lia|].
  assert ((chars <$> ls) !! sp_line from = Some (chars l0)) as E0' by by rewrite list_lookup_fmap, E0.
  assert ((chars <$> ls) !! sp_line until = Some (chars l1)) as E1' by by rewrite list_lookup_fmap, E1.
  rewrite chars_join by done. unfold point_offset. rewrite E0, E1. cbn [default from_option].
  unfold Datatypes.id. destruct (decide (sp_line from = sp_line until)) as [El|Hne].
  - rewrite <- El in *. rewrite E0 in E1. injection E1 as <-.
    rewrite (document_within _ _ _ _ (chars l0)); [|done|destruct Hle; lia|lia].
    replace (S (sp_line from) - sp_line from) with 1 by lia. cbn [seq fmap list_fmap join].
    destruct (piece_chars ls from until (sp_line from) l0 Hv Hle E0) as [_ E]; [lia|].
    rewrite E. by rewrite El, Nat.eqb_refl.
  - rewrite (document_between _ _ _ (chars l0) _ _ (chars l1)); [|done|done|lia..].
    rewrite <- (pieces_chars ls from until l0 l1) by (done || lia). rewrite <- chars_join.
    { by rewrite str_concat_chars. }
    apply Forall_fmap, Forall_forall. intros i Hi%elem_of_seq. cbn. apply pieces_valid; (done || lia).
Qed.

(** A selection copies the characters between its two points in the text of the
    lines joined with newlines, in whichever direction it was dragged, and no
    text when there are none; and what is marked lies inside the lines. *)
Theorem selected_text_correct ls a from until :
  Forall valid_text ls → selection_points a = Some (from, until) → sp_line until < length ls →
  let p := point_offset ls from in
  let q := point_offset ls until in
  let text := str_concat (take (q - p) (drop p (chars (join nl ls)))) in
  selected_text_from_lines ls a = (if text =s "" then None else Some text) ∧
  ∀ s, s ∈ selection_segments ls a →
    ∃ line, ls !! sl_line s = Some line ∧ sl_start_column s ≤ sl_end_column s ≤ length (chars line).
Proof.
  intros Hv Hsel Hl p q text. pose proof (selection_points_ordered _ _ _ Hsel) as Hle.
  assert (sp_line from ≤ sp_line until) as Hll by (destruct Hle; lia).
  assert (sp_line until `min` (length ls - 1) = sp_line until) as Hend by lia.
  unfold selected_text_from_lines, selection_segments. rewrite Hsel. cbn [mbind option_bind].
  rewrite (proj2 (Nat.leb_gt _ _)) by lia. rewrite orb_false_r, Hend. split.
  - case_bool_decide as Heq.
    + unfold text. replace (q - p) with 0 by (unfold q, p; rewrite Heq; lia). done.
    + pose proof (pieces_between ls from until Hv Hle Hl) as E. unfold selected_piece in E. by rewrite E.
  - intros s. case_bool_decide; [by intros ?%not_elem_of_nil|].
    intros Hs%list_elem_of_omap. destruct Hs as (o & Ho & Es). unfold id in Es. subst o.
    apply list_elem_of_fmap in Ho as (i & Es & Hi%elem_of_seq).
    symmetry in Es. apply bind_Some in Es as (line & E & Es). unfold selected_columns in Es.
    destruct (piece_chars ls from until i line Hv Hle E) as [Hc _]; [lia|].
    destruct (_ || _) in Es; [|done]. injection Es as <-. by exists line.
Qed.
