(* ===== verification/SingleSessionTheorems.v ===== *)
(** * Properties of a desktop session

    Keys and events never panic and keep the state well formed; the keys that
    edit the draft do what their names say; prompts that are queued are sent once
    and in order; jumps between prompts and the text of a selection. *)

From S2P Require Import Prelude Utf8 Text TextCursor DesktopWorkspace Composer SessionPickers SingleSessionState SingleSessionLines SingleSession SingleSessionText.
Open Scope nat_scope.

(** ** The places of the pickers *)

Definition place_ok (visible_len selected : usize) : Prop := selected < visible_len ∨ selected = 0.

Lemma clamped_ok visible_len selected : place_ok visible_len (clamped_selection visible_len selected).
Proof.
  unfold place_ok, clamped_selection. destruct (Nat.eqb_spec visible_len 0); [by right|].
  destruct (Nat.leb_spec visible_len selected); lia.
Qed.

Lemma moved_ok delta visible_len selected :
  place_ok visible_len selected → place_ok visible_len (moved_selection delta visible_len selected).
Proof.
  unfold place_ok, moved_selection. destruct (Nat.eqb_spec visible_len 0); [by right|].
  destruct (delta <? 0)%Z; lia.
Qed.

(** An index of the filtered list is an index of the list. *)
Lemma matching_index `{UnicodeLower} {A} (search_text : A → string) filter_text items i index :
  matching_indices search_text filter_text items !! i = Some index → is_Some (items !! index).
Proof.
  unfold matching_indices. rewrite list_lookup_fmap_Some. intros ([j x] & -> & Hp).
  apply list_elem_of_lookup_2, list_elem_of_filter in Hp as [_ Hp].
  apply elem_of_lookup_imap in Hp as (k & y & E & Hk). injection E as -> ->. by eexists.
Qed.

Section theorems.
Context `{Markdown} `{UnicodeLower} `{WelcomeName}.

Definition switcher_ok (s : SessionSwitcherState) : Prop :=
  place_ok (length (sw_filtered_indices s)) (sw_selected s).

Lemma sw_clamp_ok s : switcher_ok (sw_clamp_selection s).
Proof. apply clamped_ok. Qed.

Lemma sw_close_ok s : switcher_ok s → switcher_ok (sw_close s).
Proof. done. Qed.

Lemma sw_move_ok delta s : switcher_ok s → switcher_ok (sw_move_selection delta s).
Proof. apply moved_ok. Qed.

(** ** The state of the app *)

Definition composer_ok (c : Composer) : Prop := ∃ ed, shows c ed.

Definition app_ok (a : SingleSessionApp) : Prop :=
  composer_ok (sa_composer a) ∧ switcher_ok (sa_session_switcher a) ∧
  (is_Some (sa_selection a).1 ↔ is_Some (sa_selection a).2).

Lemma empty_composer_ok : composer_ok empty_composer.
Proof. eexists. apply empty_shows. Qed.

Lemma default_switcher_ok : switcher_ok default_session_switcher.
Proof. by right. Qed.

Lemma fresh_ok session name : app_ok (fresh_app session name).
Proof. split_and!; [apply empty_composer_ok|apply default_switcher_ok|done]. Qed.

(** Everything that changes neither composer, switcher nor selection. *)
Definition same_parts (a a' : SingleSessionApp) : Prop :=
  sa_composer a' = sa_composer a ∧ sa_session_switcher a' = sa_session_switcher a ∧
  sa_selection a' = sa_selection a.

Lemma same_parts_ok a a' : same_parts a a' → app_ok a → app_ok a'.
Proof. intros (E1 & E2 & E3). unfold app_ok. by rewrite E1, E2, E3. Qed.

Lemma set_composer_ok c a : composer_ok c → app_ok a → app_ok (sa_set_composer c a).
Proof. by intros Hc (_ & Hs & Ha). Qed.

Lemma set_switcher_ok s a : switcher_ok s → app_ok a → app_ok (sa_set_session_switcher s a).
Proof. by intros Hs (Hc & _ & Ha). Qed.

Lemma set_selection_ok selection a :
  app_ok a → (is_Some selection.1 ↔ is_Some selection.2) → app_ok (sa_set_selection selection a).
Proof. by intros (Hc & Hs & _). Qed.

Lemma record_user_submit_ok message a : app_ok a → app_ok (record_user_submit message a).
Proof. intros (_ & Hs & Ha). split_and!; [apply empty_composer_ok|done..]. Qed.

Lemma submit_ok a : app_ok a → app_ok (submit_draft a).2.
Proof.
  intros Ha. unfold submit_draft. destruct (_ && _); [done|]. cbn [snd].
  by apply record_user_submit_ok.
Qed.

Lemma queue_ok a : app_ok a → app_ok (queue_draft a).2.
Proof.
  intros (Hc & Hs & Ha). unfold queue_draft. destruct (_ && _); [done|]. cbn [snd].
  split_and!; [apply empty_composer_ok|done..].
Qed.

Lemma take_queued_ok a : app_ok a → app_ok (take_next_queued_draft a).2.
Proof.
  intros Ha. unfold take_next_queued_draft. destruct (sa_queued_drafts a) as [|[message images] rest]; [done|].
  destruct (sa_is_processing a); [done|]. by apply record_user_submit_ok.
Qed.

Lemma open_model_picker_ok a : app_ok a → app_ok (open_model_picker a).2.
Proof. by intros (Hc & Hs & Ha). Qed.

Lemma switcher_loading_ok a : app_ok a → app_ok (switcher_loading a).
Proof. intros (Hc & Hs & Ha). split_and!; [done|apply sw_clamp_ok|done]. Qed.

Lemma open_session_switcher_ok a : app_ok a → app_ok (open_session_switcher a).2.
Proof.
  intros Ha. unfold open_session_switcher. cbn [snd].
  eapply same_parts_ok; [|apply switcher_loading_ok]; [done|]. by eapply same_parts_ok; [|exact Ha].
Qed.

Lemma resume_ok a : app_ok a → app_ok (resume_selected_switcher_session a).2.
Proof.
  intros (Hc & Hs & Ha). unfold resume_selected_switcher_session.
  destruct (sa_is_processing a); [done|]. by destruct (selected_session _).
Qed.

Lemma model_picker_key_ok key a : app_ok a → app_ok (handle_model_picker_key key a).2.
Proof.
  intros Ha. destruct key; cbn [handle_model_picker_key snd]; try done.
  apply open_session_switcher_ok. by eapply same_parts_ok; [|exact Ha].
Qed.

Lemma session_switcher_key_ok key a : app_ok a → app_ok (handle_session_switcher_key key a).2.
Proof.
  intros Ha. pose proof Ha as (Hc & Hs & Hsel).
  destruct key; cbn [handle_session_switcher_key snd]; try done.
  - split_and!; [done|by right|done].
  - by apply set_switcher_ok; [apply sw_move_ok|].
  - by apply resume_ok.
  - by apply switcher_loading_ok.
  - split_and!; [done|by right|done].
Qed.

Lemma stdin_key_ok key state a : app_ok a → app_ok (handle_stdin_response_key key state a).2.
Proof. by intros Ha; destruct key. Qed.

Lemma cards_ok cards a : app_ok a → app_ok (apply_session_switcher_cards cards a).
Proof.
  intros (Hc & Hs & Ha). unfold apply_session_switcher_cards.
  assert (switcher_ok (sw_apply_sessions cards (current_session_id a) (sa_session_switcher a)))
    by apply sw_clamp_ok.
  by destruct (sw_open _).
Qed.

Lemma jump_prompt_parts direction a : same_parts a (jump_prompt direction a).
Proof.
  unfold jump_prompt. destruct (prompt_indices (body_lines a)); [done|].
  destruct (direction <? 0)%Z; by destruct (find _ _).
Qed.

Lemma finish_parts status a : same_parts a (finish_session status a).
Proof. unfold finish_session, finish_streaming_response. by destruct (_ =s ""). Qed.

Lemma event_parts event a : same_parts a (apply_session_event event a).
Proof.
  destruct event as [| | | | | |model provider_name [error|]| | | | | |error];
    cbn [apply_session_event]; [split_and!; reflexivity..| |].
  - apply finish_parts.
  - generalize (finish_session "error" a), (finish_parts "error" a). by intros a' (? & ? & ?).
Qed.

Lemma event_ok event a : app_ok a → app_ok (apply_session_event event a).
Proof. apply same_parts_ok, event_parts. Qed.

Lemma edit_ok edit spec a :
  implements edit spec → app_ok a → ∃ a', edit_draft edit a = Some a' ∧ app_ok a'.
Proof.
  intros Hi (  (ed & Hed) & Hs & Ha). destruct (Hi _ _ Hed) as (c & E & Hc).
  exists (sa_set_composer c a). unfold edit_draft. rewrite E. split; [done|].
  split_and!; [by eexists|done..].
Qed.

(** ** Keys that edit the draft *)

(** What the keys do to the characters before the cursor and behind it. *)
Definition edit_of (key : KeyInput) : option (Editor → Editor) :=
  match key with
  | KeyEnter => Some (λ ed, ed_change (ed_before ed ++ [nl]) (ed_behind ed) ed)
  | Character text => Some (λ ed, ed_change (ed_before ed ++ chars text) (ed_behind ed) ed)
  | KeyBackspace => Some (λ ed, ed_change (removelast (ed_before ed)) (ed_behind ed) ed)
  | DeleteNextChar => Some (λ ed, ed_change (ed_before ed) (tail (ed_behind ed)) ed)
  | DeletePreviousWord => Some (λ ed, ed_change (before_word (ed_before ed)) (ed_behind ed) ed)
  | DeleteNextWord => Some (λ ed, ed_change (ed_before ed) (behind_word (ed_behind ed)) ed)
  | DeleteToLineStart => Some (λ ed, ed_change (before_line (ed_before ed)) (ed_behind ed) ed)
  | DeleteToLineEnd => Some (λ ed, ed_change (ed_before ed) (behind_line (ed_behind ed)) ed)
  | MoveCursorLeft => Some (λ ed, ed_back (removelast (ed_before ed)) ed)
  | MoveCursorRight => Some (λ ed, ed_forward (tail (ed_behind ed)) ed)
  | MoveCursorWordLeft => Some (λ ed, ed_back (before_word (ed_before ed)) ed)
  | MoveCursorWordRight => Some (λ ed, ed_forward (behind_word (ed_behind ed)) ed)
  | MoveToLineStart => Some (λ ed, ed_back (before_line (ed_before ed)) ed)
  | MoveToLineEnd => Some (λ ed, ed_forward (behind_line (ed_behind ed)) ed)
  | UndoInput => Some ed_undo_change
  | _ => None
  end.

(** The text of a key is a string of the program: valid UTF-8. *)
Definition key_ok (key : KeyInput) : Prop :=
  match key with Character text => valid_text text | _ => True end.

Lemma newline_valid : valid_text nl.
Proof. by repeat constructor. Qed.

Lemma edit_key_implements key spec :
  edit_of key = Some spec → key_ok key →
  ∃ edit, implements edit spec ∧ ∀ a, handle_draft_key key a = redraw (edit_draft edit a).
Proof.
  intros E Hkey. destruct key; try done; injection E as <-; eexists; (split; [|done]).
  all: unfold implements.
  - apply (insert_implements nl newline_valid).
  - apply delete_previous_char_implements.
  - apply (delete_back_implements _ _ word_start_place).
  - apply (delete_forward_implements _ _ word_end_place).
  - apply delete_next_char_implements.
  - apply (move_back_implements _ _ word_start_place).
  - apply (move_forward_implements _ _ word_end_place).
  - apply (move_back_implements _ _ previous_char_place).
  - apply (move_forward_implements _ _ next_char_place).
  - apply (move_back_implements _ _ line_start_place).
  - apply (move_forward_implements _ _ line_end_place).
  - apply (delete_back_implements _ _ line_start_place).
  - apply (delete_forward_implements _ _ line_end_place).
  - apply undo_implements.
  - by apply insert_implements.
Qed.

(** No overlay takes the keys. *)
Definition drafting (a : SingleSessionApp) : Prop :=
  sa_stdin_response a = None ∧ sw_open (sa_session_switcher a) = false ∧
  mp_open (sa_model_picker a) = false.

(** C18. A key that edits the draft changes the characters before the cursor and
    behind it as its name says, remembers the old text for undo, and changes
    nothing else of the session: whatever bytes the characters have, no slice of
    the draft panics. *)
Theorem draft_keys_correct key spec a ed :
  drafting a → key_ok key → edit_of key = Some spec → shows (sa_composer a) ed →
  ∃ c, handle_key key a = Some (OutRedraw, sa_set_composer c a) ∧ shows c (spec ed).
Proof.
  intros (E1 & E2 & E3) Hkey E Hs. unfold handle_key. rewrite E1, E2, E3.
  destruct (edit_key_implements key spec E Hkey) as (edit & Hedit & Hhandle).
  destruct (Hedit _ _ Hs) as (c & Ec & Hc). exists c. split; [|done].
  rewrite Hhandle. unfold edit_draft. by rewrite Ec.
Qed.

Lemma draft_key_ok key a :
  key_ok key → app_ok a → ∃ out a', handle_draft_key key a = Some (out, a') ∧ app_ok a'.
Proof.
  intros Hkey Ha. destruct (edit_of key) as [spec|] eqn:E.
  { destruct (edit_key_implements key spec E Hkey) as (edit & Hedit & ->).
    destruct (edit_ok _ _ _ Hedit Ha) as (a' & -> & Ha'). by exists OutRedraw, a'. }
  assert (∀ r : KeyOutcome * SingleSessionApp, app_ok r.2 →
    ∃ out a', Some r = Some (out, a') ∧ app_ok a') as Hr by (intros [out a'] Hr; by exists out, a').
  destruct key; try discriminate E; cbn [handle_draft_key]; try (by apply Hr).
  - apply Hr. by destruct (sa_show_help a).
  - apply Hr. apply (same_parts_ok a); [apply jump_prompt_parts|done].
  - apply Hr. by apply open_session_switcher_ok.
  - unfold clear_attached_images. destruct (is_empty _); by apply Hr.
  - apply Hr. destruct (sa_is_processing a); [by apply queue_ok|by apply submit_ok].
  - apply Hr. by apply submit_ok.
Qed.

Lemma session_key_ok key a :
  key_ok key → app_ok a → ∃ out a', handle_key key a = Some (out, a') ∧ app_ok a'.
Proof.
  intros Hkey Ha. unfold handle_key.
  assert (∀ r : KeyOutcome * SingleSessionApp, app_ok r.2 →
    ∃ out a', Some r = Some (out, a') ∧ app_ok a') as Hr by (intros [out a'] Hr; by exists out, a').
  destruct (sa_stdin_response a); [by apply Hr, stdin_key_ok|].
  destruct (sw_open _); [by apply Hr, session_switcher_key_ok|].
  destruct (mp_open _); [by apply Hr, model_picker_key_ok|]. by apply draft_key_ok.
Qed.

Lemma paste_ok text a :
  valid_text text → app_ok a → ∃ a', paste_text text a = Some a' ∧ app_ok a'.
Proof.
  intros Hv Ha. unfold paste_text. destruct (text =s ""); [by exists a|].
  destruct (sa_stdin_response a); [by eexists|].
  by apply (edit_ok _ _ _ (insert_implements text Hv)).
Qed.

(** ** Runs *)

(** What happens to a session, one call of a method at a time. *)
Inductive Step :=
| StepKey (key : KeyInput)
| StepEvent (event : DesktopSessionEvent)
| StepPaste (text : string)
| StepAttach (media_type base64_data : string)
| StepClearImages
| StepCards (cards : list SessionCard)
| StepTakeQueued
| StepCancel
| StepHandle (handle : DesktopSessionHandle)
| StepSendStdin (request_id input : string)
| StepScroll (delta : Z)
| StepBeginSelection (point : SelectionPoint)
| StepUpdateSelection (point : SelectionPoint)
| StepClearSelection
| StepReplace (session : option SessionCard)
| StepReset.

Definition Prompt : Type := string * list (string * string).

(** The queued prompt a step hands out, and the state behind it. *)
Definition run_step (step : Step) (a : SingleSessionApp) : option (list Prompt * SingleSessionApp) :=
  match step with
  | StepKey key => (λ r, ([], r.2)) <$> handle_key key a
  | StepPaste text => (λ a', ([], a')) <$> paste_text text a
  | StepTakeQueued =>
      let (taken, a') := take_next_queued_draft a in Some (option_list taken, a')
  | StepEvent event => Some ([], apply_session_event event a)
  | StepAttach media_type base64_data => Some ([], attach_image media_type base64_data a)
  | StepClearImages => Some ([], (clear_attached_images a).2)
  | StepCards cards => Some ([], apply_session_switcher_cards cards a)
  | StepCancel => Some ([], (cancel_generation a).2)
  | StepHandle handle => Some ([], set_session_handle handle a)
  | StepSendStdin request_id input => Some ([], (send_stdin_response request_id input a).2)
  | StepScroll delta => Some ([], scroll_body_lines delta a)
  | StepBeginSelection point => Some ([], begin_selection point a)
  | StepUpdateSelection point => Some ([], update_selection point a)
  | StepClearSelection => Some ([], clear_selection a)
  | StepReplace session => Some ([], replace_session session a)
  | StepReset => Some ([], reset_fresh_session a)
  end.

Fixpoint run (steps : list Step) (a : SingleSessionApp) : option (list Prompt * SingleSessionApp) :=
  match steps with
  | [] => Some ([], a)
  | step :: steps =>
      first ← run_step step a;
      let '(taken, a) := (first : list Prompt * SingleSessionApp) in
      rest ← run steps a;
      let '(more, a) := (rest : list Prompt * SingleSessionApp) in
      Some (taken ++ more, a)
  end.

Definition step_ok (step : Step) : Prop :=
  match step with
  | StepKey key => key_ok key
  | StepPaste text => valid_text text
  | _ => True
  end.

Lemma run_step_ok step a :
  step_ok step → app_ok a → ∃ taken a', run_step step a = Some (taken, a') ∧ app_ok a'.
Proof.
  intros Hstep Ha. pose proof Ha as (Hc & Hs & Hsel).
  assert (∀ taken a', app_ok a' →
    ∃ t a'', Some (taken : list Prompt, a') = Some (t, a'') ∧ app_ok a'') as Hr by (intros; by do 2 eexists).
  destruct step; cbn [run_step]; try (by apply Hr).
  - destruct (session_key_ok key a Hstep Ha) as (out & a' & -> & Ha'). by apply Hr.
  - apply Hr. by apply event_ok.
  - destruct (paste_ok text a Hstep Ha) as (a' & -> & Ha'). by apply Hr.
  - apply Hr. unfold clear_attached_images. by destruct (is_empty _).
  - apply Hr. by apply cards_ok.
  - pose proof (take_queued_ok a Ha) as Ha'. destruct (take_next_queued_draft a). by apply Hr.
  - apply Hr. unfold cancel_generation. destruct (sa_session_handle a); [|done]. by destruct (handle_send _ _).
  - apply Hr. unfold send_stdin_response. destruct (sa_session_handle a); [|done]. by destruct (handle_send _ _).
  - apply Hr. unfold update_selection. destruct (sa_selection a).1 eqn:E; [|done].
    apply set_selection_ok; [done|split; intros _; by eexists].
  - apply Hr. unfold replace_session. by destruct session.
  - apply Hr, fresh_ok.
Qed.

Lemma run_ok steps a :
  Forall step_ok steps → app_ok a → ∃ taken a', run steps a = Some (taken, a') ∧ app_ok a'.
Proof.
  intros Hs. revert a. induction Hs as [|step steps Hstep _ IH]; intros a Ha; [by do 2 eexists|].
  cbn [run]. destruct (run_step_ok step a Hstep Ha) as (taken & a1 & -> & Ha1). cbn [mbind option_bind].
  destruct (IH a1 Ha1) as (more & a2 & -> & Ha2). by do 2 eexists.
Qed.

Lemma selected_session_exists s :
  switcher_ok s → sw_filtered_indices s ≠ [] → is_Some (selected_session s).
Proof.
  intros Hs Hne. assert (sw_selected s < length (sw_filtered_indices s)) as Hlt.
  { destruct Hs as [Hs| ->]; [done|]. by destruct (sw_filtered_indices s); [|cbn; lia]. }
  apply lookup_lt_is_Some in Hlt as [index E]. unfold selected_session. rewrite E.
  by apply matching_index in E.
Qed.

Lemma cursor_places c :
  composer_ok c → is_Some (draft_cursor_line_col c) ∧ is_Some (draft_cursor_line_byte_index c).
Proof.
  intros (ed & Hat & _). unfold draft_cursor_line_col, draft_cursor_line_byte_index.
  rewrite (split_min _ _ _ _ Hat), (slice_before _ _ _ _ Hat). cbn [mbind option_bind].
  rewrite (line_start_at _ _ _ _ Hat). cbn [mbind option_bind]. by split; eexists.
Qed.

(** C19. Whatever keys, events and pastes come, no method of a session panics: the
    cursor of the draft stays at a boundary of its characters, so that its line
    and column can be shown, at most 64 texts are kept for undo, the selected
    session of the switcher is one of the visible ones when there are any, and a
    selection of text has both of its ends or none. (Not said: that the ends are
    in order or the model picker's selection is visible; see
    [segment_ends_before_it_starts] and [reopened_picker_selects_nothing].) *)
Theorem session_invariant steps session :
  Forall step_ok steps →
  ∃ taken a, run steps (new session) = Some (taken, a) ∧
    let c := sa_composer a in
    is_char_boundary (cp_draft c) (cp_draft_cursor c) = true ∧ valid_text (cp_draft c) ∧
    is_Some (draft_cursor_line_col c) ∧ is_Some (composer_cursor_line_byte_index a) ∧
    length (cp_input_undo_stack c) ≤ MAX_UNDO ∧
    (sw_filtered_indices (sa_session_switcher a) ≠ [] →
     is_Some (selected_session (sa_session_switcher a))) ∧
    (is_Some (selection_points a) ↔ is_Some (sa_selection a).1).
Proof.
  intros Hsteps. destruct (run_ok steps (new session) Hsteps (fresh_ok _ _)) as (taken & a & E & Hok).
  exists taken, a. split; [done|]. destruct Hok as (Hc & Hs & Hsel).
  destruct (cursor_places _ Hc) as [Hcol [place Hplace]]. destruct Hc as (ed & Hat & _ & Hundo).
  split_and!; [by eapply split_boundary|by eapply split_valid|done| |done| |..].
  - unfold composer_cursor_line_byte_index. rewrite Hplace. destruct place. by eexists.
  - by apply selected_session_exists.
  - unfold selection_points. destruct (sa_selection a) as [[anchor|] [focus|]]; cbn in *; split;
      intros; try done; naive_solver.
Qed.

(** ** Queued prompts *)

(** The prompt that a step queues: the draft, when a response is running and no
    overlay takes the key. *)
Definition queued_by (step : Step) (a : SingleSessionApp) : list Prompt :=
  match step with
  | StepKey QueueDraft =>
      let message := trim (cp_draft (sa_composer a)) in
      if is_none (sa_stdin_response a) && negb (sw_open (sa_session_switcher a))
         && negb (mp_open (sa_model_picker a)) && sa_is_processing a
         && negb ((message =s "") && is_empty (sa_pending_images a))
      then [(message, sa_pending_images a)] else []
  | _ => []
  end.

Fixpoint queued (steps : list Step) (a : SingleSessionApp) : list Prompt :=
  match steps with
  | [] => []
  | step :: steps =>
      queued_by step a ++
      match run_step step a with Some (_, a') => queued steps a' | None => [] end
  end.

Lemma jump_queue direction a : sa_queued_drafts (jump_prompt direction a) = sa_queued_drafts a.
Proof.
  unfold jump_prompt. destruct (prompt_indices (body_lines a)); [done|].
  destruct (direction <? 0)%Z; by destruct (find _ _).
Qed.

Lemma submit_queue a : sa_queued_drafts (submit_draft a).2 = sa_queued_drafts a.
Proof. unfold submit_draft. by destruct (_ && _). Qed.

Lemma edit_queue edit a a' :
  edit_draft edit a = Some a' → sa_queued_drafts a' = sa_queued_drafts a.
Proof. unfold edit_draft. intros E. by apply bind_Some in E as (c & _ & [= <-]). Qed.

Lemma draft_key_queue key a out a' :
  handle_draft_key key a = Some (out, a') → key ≠ QueueDraft →
  sa_queued_drafts a' = sa_queued_drafts a.
Proof.
  intros E Hkey.
  assert (∀ edit, redraw (edit_draft edit a) = Some (out, a') → sa_queued_drafts a' = sa_queued_drafts a)
    as Hedit.
  { intros edit Eedit. unfold redraw in Eedit. apply fmap_Some in Eedit as (a1 & E1 & [= -> ->]).
    by eapply edit_queue. }
  destruct key; try done; cbn [handle_draft_key] in E; try (by eapply Hedit);
    try (by injection E as _ <-).
  - destruct (sa_show_help a); by injection E as _ <-.
  - injection E as _ <-. apply jump_queue.
  - unfold clear_attached_images in E. destruct (is_empty _); by injection E as _ <-.
  - injection E as E. pose proof (submit_queue a) as Hq. rewrite E in Hq. done.
Qed.

Lemma overlay_key_queue key a :
  (∀ state, sa_queued_drafts (handle_stdin_response_key key state a).2 = sa_queued_drafts a) ∧
  sa_queued_drafts (handle_session_switcher_key key a).2 = sa_queued_drafts a ∧
  sa_queued_drafts (handle_model_picker_key key a).2 = sa_queued_drafts a.
Proof.
  split_and!; [intros state; by destruct key|..]; destruct key; try done.
  cbn [handle_session_switcher_key]. unfold resume_selected_switcher_session.
  destruct (sa_is_processing a); [done|]. by destruct (selected_session _).
Qed.

Lemma key_queue key a out a' :
  handle_key key a = Some (out, a') →
  sa_queued_drafts a' = sa_queued_drafts a ++ queued_by (StepKey key) a.
Proof.
  unfold handle_key. destruct (overlay_key_queue key a) as (Hstdin & Hsw & Hmp).
  destruct (sa_stdin_response a) as [state|] eqn:E1.
  { intros [= E]. specialize (Hstdin state). rewrite E in Hstdin. cbn in Hstdin. rewrite Hstdin.
    destruct key; cbn; by rewrite ?E1, app_nil_r. }
  destruct (sw_open _) eqn:E2.
  { intros [= E]. rewrite E in Hsw. cbn in Hsw. rewrite Hsw.
    destruct key; cbn; rewrite ?E1, ?E2; by rewrite app_nil_r. }
  destruct (mp_open _) eqn:E3.
  { intros [= E]. rewrite E in Hmp. cbn in Hmp. rewrite Hmp.
    destruct key; cbn; rewrite ?E1, ?E2, ?E3; by rewrite app_nil_r. }
  intros E. destruct (decide (key = QueueDraft)) as [->|Hne].
  - cbn [queued_by]. rewrite E1, E2, E3. cbn [is_none negb andb]. injection E as E. revert E.
    pose proof (submit_queue a) as Hq. unfold queue_draft.
    destruct (sa_is_processing a); cbn [andb].
    + destruct (_ && _); cbn [negb]; intros [= <- <-]; [by rewrite app_nil_r|done].
    + intros E. rewrite E in Hq. by rewrite app_nil_r.
  - rewrite (draft_key_queue _ _ _ _ E Hne). destruct key; try done; by rewrite app_nil_r.
Qed.

Lemma set_error_queue v a : sa_queued_drafts (sa_set_error v a) = sa_queued_drafts a.
Proof. done. Qed.

Lemma event_queue event a : sa_queued_drafts (apply_session_event event a) = sa_queued_drafts a.
Proof.
  assert (∀ status, sa_queued_drafts (finish_session status a) = sa_queued_drafts a) as Hf.
  { intros status. unfold finish_session, finish_streaming_response. by destruct (_ =s ""). }
  destruct event as [| | | | | |model provider_name [error|]| | | | | |error];
    cbn [apply_session_event]; try reflexivity; [apply Hf|].
  by rewrite set_error_queue.
Qed.

Lemma step_queue step a taken a' :
  step ≠ StepReset → run_step step a = Some (taken, a') →
  sa_queued_drafts a ++ queued_by step a = taken ++ sa_queued_drafts a'.
Proof.
  intros Hreset. destruct step as [key|event|text| | |cards| | | | | | | | |session|]; cbn [run_step queued_by];
    rewrite ?app_nil_r; try (by intros [= Et Ea]; subst).
  - intros ([out a1] & E & [= Et Ea])%fmap_Some. subst. cbn [snd app].
    pose proof (key_queue _ _ _ _ E) as Hq. cbn [queued_by] in Hq. by rewrite Hq.
  - intros [= Et Ea]; subst. by rewrite event_queue.
  - intros (a1 & E & [= Et Ea])%fmap_Some. subst. cbn [app]. revert E.
    unfold paste_text. destruct (text =s ""); [by intros [= <-]|].
    destruct (sa_stdin_response a); [by intros [= <-]|]. intros E. by rewrite (edit_queue _ _ _ E).
  - unfold clear_attached_images. destruct (is_empty _); intros [= Et Ea]; subst; done.
  - unfold apply_session_switcher_cards. destruct (sw_open _); intros [= Et Ea]; subst; done.
  - unfold take_next_queued_draft.
    destruct (sa_queued_drafts a) as [|[message images] rest] eqn:E; [by intros [= Et Ea]; subst|].
    destruct (sa_is_processing a); by intros [= Et Ea]; subst.
  - unfold cancel_generation. destruct (sa_session_handle a) as [handle|];
      [destruct (handle_send _ _)|]; intros [= Et Ea]; subst; done.
  - unfold send_stdin_response. destruct (sa_session_handle a) as [handle|];
      [destruct (handle_send _ _)|]; intros [= Et Ea]; subst; done.
  - unfold update_selection. destruct (sa_selection a).1; intros [= Et Ea]; subst; done.
  - unfold replace_session. destruct session; intros [= Et Ea]; subst; done.
Qed.

Lemma run_queue steps a taken a' :
  StepReset ∉ steps → run steps a = Some (taken, a') →
  sa_queued_drafts a ++ queued steps a = taken ++ sa_queued_drafts a'.
Proof.
  revert a taken. induction steps as [|step steps IH]; intros a taken Hreset E.
  - injection E as <- <-. by rewrite app_nil_r.
  - apply not_elem_of_cons in Hreset as [Hne Hreset]. cbn [run queued] in *.
    apply bind_Some in E as ([t1 a1] & E1 & E). apply bind_Some in E as ([t2 a2] & E2 & [= <- <-]).
    rewrite E1, (app_assoc (sa_queued_drafts a)), (step_queue _ _ _ _ (not_eq_sym Hne) E1), <- !app_assoc. f_equal.
    by apply IH.
Qed.

(** C20. Prompts that are queued while a response runs are handed out once each and
    in the order they were queued, whatever else happens, and only when no
    response runs; one that is handed out is the last message of the transcript. *)
Theorem queued_prompts_correct steps a taken a' :
  StepReset ∉ steps → run steps a = Some (taken, a') →
  sa_queued_drafts a ++ queued steps a = taken ++ sa_queued_drafts a' ∧
  ∀ message images a'', take_next_queued_draft a' = (Some (message, images), a'') →
    sa_is_processing a' = false ∧ sa_is_processing a'' = true ∧
    last (sa_messages a'') = Some (user_message message).
Proof.
  intros Hreset E. split; [by apply run_queue|]. intros message images a''.
  unfold take_next_queued_draft. destruct (sa_queued_drafts a') as [|[m i] rest]; [done|].
  destruct (sa_is_processing a'); [done|]. intros [= -> -> <-]. split_and!; [done..|].
  apply last_snoc.
Qed.
End theorems.

(** * A desktop session at work

    The theorems about a session at concrete states, and what the code does in
    some corners. *)

(** A parser that knows no Markdown, and a computer without a name. *)
#[local] Instance plain_markdown : Markdown := λ content, [TextEvent content].
#[local] Instance no_name : WelcomeName := None.

Definition typed (text : string) : Composer :=
  {| cp_draft := text; cp_draft_cursor := String.length text; cp_input_undo_stack := [] |}.

Lemma typed_shows text :
  valid_text text →
  shows (typed text) {| ed_before := chars text; ed_behind := []; ed_undo := [] |}.
Proof.
  intros Hv. split_and!; [split_and!|constructor|cbn; unfold MAX_UNDO; lia]; cbn.
  - by rewrite str_concat_chars, str_app_nil_r.
  - by rewrite str_concat_chars.
  - done.
  - constructor.
Qed.

Definition drafting_app : SingleSessionApp := sa_set_composer (typed "go on") (new None).

(** Deleting a word of the draft. *)
Lemma draft_keys_correct_witness :
  ∃ c, handle_key DeletePreviousWord drafting_app
       = Some (OutRedraw, sa_set_composer c drafting_app) ∧
    shows c {| ed_before := ["g"; "o"; " "]; ed_behind := [];
               ed_undo := [(chars "go on", [])] |}.
Proof.
  assert (valid_text "go on") as Hv
    by (repeat (constructor; [cbn; split_and!; [done|done|reflexivity]|]); constructor).
  destruct (draft_keys_correct DeletePreviousWord _ drafting_app
    {| ed_before := chars "go on"; ed_behind := []; ed_undo := [] |}
    ltac:(by split_and!) I eq_refl (typed_shows _ Hv)) as (c & E & Hs).
  exists c. split; [done|]. assert (∀ ed ed', shows c ed → ed = ed' → shows c ed') as Heq by (by intros ?? ? <-).
  apply (Heq _ _ Hs). vm_compute. reflexivity.
Defined.

(** Typing, an event, a movement and an undo. *)
Definition busy_steps : list Step :=
  [StepKey (Character "hi"); StepEvent (EventTextDelta "Hello"); StepKey MoveCursorLeft;
   StepKey UndoInput; StepPaste "x"; StepBeginSelection {| sp_line := 0; sp_column := 1 |}].

Lemma short_valid : valid_text "hi" ∧ valid_text "x".
Proof. split; repeat (constructor; [cbn; split_and!; [done|done|reflexivity]|]); constructor. Qed.

Lemma session_invariant_witness :
  Forall step_ok busy_steps ∧
  ∃ taken a, run busy_steps (new None) = Some (taken, a) ∧
    length (cp_input_undo_stack (sa_composer a)) ≤ MAX_UNDO.
Proof.
  assert (Forall step_ok busy_steps) as Hs
    by (destruct short_valid; repeat (constructor; [done|]); constructor).
  split; [done|]. destruct (session_invariant busy_steps None Hs) as (taken & a & E & H).
  exists taken, a. split; [done|]. apply H.
Defined.

(** Two prompts are queued while a response runs and one is handed out behind it. *)
Definition queue_steps : list Step :=
  [StepEvent (EventReloading None); StepKey (Character "a"); StepKey QueueDraft;
   StepKey (Character "b"); StepKey QueueDraft; StepTakeQueued; StepEvent EventDone; StepTakeQueued].

Lemma queued_prompts_correct_witness :
  StepReset ∉ queue_steps ∧
  ∃ a, run queue_steps (new None) = Some ([("a", [])], a) ∧
    queued queue_steps (new None) = [("a", []); ("b", [])] ∧ sa_queued_drafts a = [("b", [])].
Proof.
  assert (StepReset ∉ queue_steps) as Hr by (apply (bool_decide_unpack _) || (unfold queue_steps; set_solver)).
  assert (∃ a, run queue_steps (new None) = Some ([("a", [])], a)) as [a E]
    by (eexists; vm_compute; reflexivity).
  split; [done|]. exists a. split; [done|].
  destruct (queued_prompts_correct queue_steps (new None) _ a Hr E) as [Hq _].
  assert (queued queue_steps (new None) = [("a", []); ("b", [])]) as Eq by (vm_compute; reflexivity).
  split; [done|]. rewrite Eq in Hq. cbn in Hq. by injection Hq.
Defined.

(** Dragging from the second line up to the first. *)
Definition dragged : SingleSessionApp :=
  update_selection {| sp_line := 0; sp_column := 2 |}
    (begin_selection {| sp_line := 1; sp_column := 1 |} (new None)).

Lemma selected_text_correct_witness :
  selected_text_from_lines ["one"; "two"] dragged = Some ("e" +:+ nl +:+ "t").
Proof.
  assert (Forall valid_text ["one"; "two"]) as Hv.
  { constructor; [|constructor; [|constructor]];
      repeat (constructor; [cbn; split_and!; [done|done|reflexivity]|]); constructor. }
  exact (proj1 (selected_text_correct ["one"; "two"] dragged {| sp_line := 0; sp_column := 2 |}
    {| sp_line := 1; sp_column := 1 |} Hv eq_refl (le_n 2))).
Defined.

(** ** Corners *)

Definition choice (model : string) : DesktopModelChoice :=
  {| dm_model := model; dm_provider := None; dm_detail := None; dm_available := true |}.

(** Opening the model picker again with a filter selects by the place in the whole
    list, not by the one in the filtered list, and Enter switches to nothing. *)
Example reopened_picker_selects_nothing :
  let picker := mp_open_loading (mp_close (mp_push_filter_text "two"
    (mp_apply_catalog (Some "two") None [choice "one"; choice "two"] default_model_picker))) in
  mp_filtered_indices picker = [1] ∧ mp_selected picker = 1 ∧ selected_model picker = None.
Proof. vm_compute. repeat split. Qed.

(** A prompt that is submitted while a response arrives discards what has arrived. *)
Example submitting_discards_response :
  let a := apply_session_event (EventTextDelta "so far") (record_user_submit "first" (new None)) in
  let a' := (submit_draft (sa_set_composer (typed "second") a)).2 in
  sa_streaming_response a' = "" ∧ sa_messages a' = [user_message "first"; user_message "second"].
Proof. vm_compute. by split. Qed.

(** A line of the assistant that starts with a number and two spaces is taken for a
    prompt. *)
Example assistant_line_is_prompt :
  let a := push_message (assistant_message "42  is the answer") (new None) in
  prompt_indices (body_lines a) = [0].
Proof. vm_compute. done. Qed.

(** The end of a selection behind the last line keeps its column on that line, and
    may come to lie before the start. *)
Example segment_ends_before_it_starts :
  let a := update_selection {| sp_line := 5; sp_column := 1 |}
    (begin_selection {| sp_line := 0; sp_column := 3 |} (new None)) in
  selection_segments ["text"] a
  = [{| sl_line := 0; sl_start_column := 3; sl_end_column := 1 |}].
Proof. vm_compute. done. Qed.
