(* ===== verification/SessionTypes.v ===== *)
(** * The data of a stored session ([crates/gcode-session-types/src/lib.rs],
      [src/session/model.rs], [src/session/journal.rs])

    What a session keeps besides its messages: its status, snapshots of the
    environment, injected memories and replay events, and the journal entries
    that carry changes of a session to its file. The status of a swarm member
    is [crates/gcode-protocol/src/lib.rs]. *)

From S2P Require Import Prelude Utf8 Text SwarmPlan Messages.
Open Scope nat_scope.

(** ** Status *)

Inductive SessionStatus :=
| StatusActive
| StatusClosed
| StatusCrashed (message : option string)
| StatusReloaded
| StatusCompacted
| StatusRateLimited
| StatusError (message : string).

#[export] Instance SessionStatus_eq_dec : EqDecision SessionStatus.
Proof. solve_decision. Defined.

Definition status_display (status : SessionStatus) : string :=
  match status with
  | StatusActive => "active"
  | StatusClosed => "closed"
  | StatusCrashed _ => "crashed"
  | StatusReloaded => "reloaded"
  | StatusCompacted => "compacted"
  | StatusRateLimited => "rate limited"
  | StatusError _ => "error"
  end.

Definition status_detail (status : SessionStatus) : option string :=
  match status with
  | StatusCrashed message => message
  | StatusError message => Some message
  | _ => None
  end.

(** [matches!(s.status, SessionStatus::Crashed { .. })] *)
Definition is_crashed (status : SessionStatus) : bool :=
  match status with StatusCrashed _ => true | _ => false end.

Inductive SessionImproveMode := ImproveRun | ImprovePlan | RefactorRun | RefactorPlan.

#[export] Instance SessionImproveMode_eq_dec : EqDecision SessionImproveMode.
Proof. solve_decision. Defined.

(** ** Snapshots, injections, replay events *)

Record GitState := {
  gs_root : string;
  gs_head : option string;
  gs_branch : option string;
  gs_dirty : option bool;
}.

Record EnvSnapshot := {
  ev_captured_at : datetime;
  ev_reason : string;
  ev_session_id : string;
  ev_working_dir : option string;
  ev_provider : string;
  ev_model : string;
  ev_gcode_version : string;
  ev_gcode_git_hash : option string;
  ev_gcode_git_dirty : option bool;
  ev_os : string;
  ev_arch : string;
  ev_pid : u32;
  ev_is_selfdev : bool;
  ev_is_debug : bool;
  ev_is_canary : bool;
  ev_testing_build : option string;
  ev_working_git : option GitState;
}.

Record StoredMemoryInjection := {
  mi_summary : string;
  mi_content : string;
  mi_count : u32;
  mi_memory_ids : list string;
  mi_age_ms : option u64;
  mi_before_message : option usize;
  mi_timestamp : datetime;
}.

Record SwarmMemberStatus := {
  ms_session_id : string;
  ms_friendly_name : option string;
  ms_status : string;
  ms_detail : option string;
  ms_role : option string;
  ms_is_headless : option bool;
  ms_live_attachments : option usize;
  ms_status_age_secs : option u64;
}.

#[export] Instance SwarmMemberStatus_eq_dec : EqDecision SwarmMemberStatus.
Proof. solve_decision. Defined.

#[export] Instance PlanItem_eq_dec : EqDecision PlanItem.
Proof. solve_decision. Defined.

Inductive StoredReplayEventKind :=
| DisplayMessage (role : string) (title : option string) (content : string)
| SwarmStatusEvent (members : list SwarmMemberStatus)
| SwarmPlanEvent (swarm_id : string) (version : u64) (items : list PlanItem)
    (participants : list string) (reason : option string).

#[export] Instance StoredReplayEventKind_eq_dec : EqDecision StoredReplayEventKind.
Proof. solve_decision. Defined.

Record StoredReplayEvent := {
  re_timestamp : datetime;
  re_kind : StoredReplayEventKind;
}.

Definition SESSION_CONTEXT_PREFIX : string := "<system-reminder>" +:+ nl +:+ "# Session Context".

(** ** Stored messages *)

Inductive StoredDisplayRole := DisplaySystem | DisplayBackgroundTask.

#[export] Instance StoredDisplayRole_eq_dec : EqDecision StoredDisplayRole.
Proof. solve_decision. Defined.

Record StoredTokenUsage := {
  tu_input_tokens : u64;
  tu_output_tokens : u64;
  tu_cache_read_input_tokens : option u64;
  tu_cache_creation_input_tokens : option u64;
}.

Record StoredCompactionState := {
  sc_summary_text : string;
  sc_openai_encrypted_content : option string;
  sc_covers_up_to_turn : usize;
  sc_original_turn_count : usize;
  sc_compacted_count : usize;
}.

#[export] Instance StoredCompactionState_eq_dec : EqDecision StoredCompactionState.
Proof. solve_decision. Defined.

Section messages.
Context `{Json}.

Record StoredMessage := {
  st_id : string;
  st_role : Role;
  st_content : list ContentBlock;
  st_display_role : option StoredDisplayRole;
  st_timestamp : option datetime;
  st_tool_duration_ms : option u64;
  st_token_usage : option StoredTokenUsage;
}.

Definition st_set_content (content : list ContentBlock) (m : StoredMessage) : StoredMessage :=
  {| st_id := st_id m; st_role := st_role m; st_content := content;
     st_display_role := st_display_role m; st_timestamp := st_timestamp m;
     st_tool_duration_ms := st_tool_duration_ms m; st_token_usage := st_token_usage m |}.

Definition to_message (m : StoredMessage) : Message := {|
  msg_role := st_role m;
  msg_content := st_content m;
  msg_timestamp := st_timestamp m;
  msg_tool_duration_ms := st_tool_duration_ms m;
|}.

(** The preview that a block gives, [None] when the loop goes on. *)
Definition block_preview (block : ContentBlock) : option string :=
  match block with
  | Text text _ =>
      let text := trim text in
      if text =s "" then None else Some (replace nl " " text)
  | ToolUse _ name _ => Some ("[tool: " +:+ name +:+ "]")
  | ToolResult _ content _ =>
      let preview := replace nl " " (trim content) in
      if preview =s "" then None else Some ("[result: " +:+ preview +:+ "]")
  | _ => None
  end.

Definition content_preview (m : StoredMessage) : string :=
  match omap block_preview (st_content m) with
  | preview :: _ => preview
  | [] => "(empty)"
  end.

Definition is_internal_system_reminder_message (m : StoredMessage) : bool :=
  match first_text (st_content m) with
  | Some text => starts_with "<system-reminder>" text
  | None => false
  end.

Definition is_visible_conversation_message (m : StoredMessage) : bool :=
  bool_decide (st_display_role m = None) && negb (is_internal_system_reminder_message m).

Definition stored_messages_to_messages (messages : list StoredMessage) : list Message :=
  to_message <$> messages.

(** ** The journal *)

Record SessionJournalMeta := {
  jm_parent_id : option string;
  jm_title : option string;
  jm_updated_at : datetime;
  jm_compaction : option StoredCompactionState;
  jm_provider_session_id : option string;
  jm_provider_key : option string;
  jm_model : option string;
  jm_reasoning_effort : option string;
  jm_subagent_model : option string;
  jm_improve_mode : option SessionImproveMode;
  jm_autoreview_enabled : option bool;
  jm_autojudge_enabled : option bool;
  jm_is_canary : bool;
  jm_testing_build : option string;
  jm_working_dir : option string;
  jm_short_name : option string;
  jm_status : SessionStatus;
  jm_last_pid : option u32;
  jm_last_active_at : option datetime;
  jm_is_debug : bool;
  jm_saved : bool;
  jm_save_label : option string;
}.

Record SessionJournalEntry := {
  je_meta : SessionJournalMeta;
  je_append_messages : list StoredMessage;
  je_append_env_snapshots : list EnvSnapshot;
  je_append_memory_injections : list StoredMemoryInjection;
  je_append_replay_events : list StoredReplayEvent;
}.

Definition metadata_requires_snapshot (prev current : SessionJournalMeta) : bool :=
  bool_decide (jm_parent_id prev ≠ jm_parent_id current)
  || bool_decide (jm_title prev ≠ jm_title current)
  || bool_decide (jm_provider_key prev ≠ jm_provider_key current)
  || bool_decide (jm_reasoning_effort prev ≠ jm_reasoning_effort current)
  || bool_decide (jm_subagent_model prev ≠ jm_subagent_model current)
  || bool_decide (jm_improve_mode prev ≠ jm_improve_mode current)
  || bool_decide (jm_autoreview_enabled prev ≠ jm_autoreview_enabled current)
  || bool_decide (jm_autojudge_enabled prev ≠ jm_autojudge_enabled current)
  || bool_decide (jm_is_canary prev ≠ jm_is_canary current)
  || bool_decide (jm_testing_build prev ≠ jm_testing_build current)
  || bool_decide (jm_working_dir prev ≠ jm_working_dir current)
  || bool_decide (jm_short_name prev ≠ jm_short_name current)
  || bool_decide (jm_status prev ≠ jm_status current)
  || bool_decide (jm_is_debug prev ≠ jm_is_debug current)
  || bool_decide (jm_saved prev ≠ jm_saved current)
  || bool_decide (jm_save_label prev ≠ jm_save_label current).
End messages.

Inductive PersistVectorMode := ModeClean | ModeAppend | ModeFull.

#[export] Instance PersistVectorMode_eq_dec : EqDecision PersistVectorMode.
Proof. solve_decision. Defined.

Record SessionPersistState := {
  ps_snapshot_exists : bool;
  ps_messages_len : usize;
  ps_env_snapshots_len : usize;
  ps_memory_injections_len : usize;
  ps_replay_events_len : usize;
  ps_messages_mode : PersistVectorMode;
  ps_env_snapshots_mode : PersistVectorMode;
  ps_memory_injections_mode : PersistVectorMode;
  ps_replay_events_mode : PersistVectorMode;
  ps_last_meta : option SessionJournalMeta;
}.

(** [SessionPersistState::default()] *)
Definition persist_state_default : SessionPersistState := {|
  ps_snapshot_exists := false;
  ps_messages_len := 0;
  ps_env_snapshots_len := 0;
  ps_memory_injections_len := 0;
  ps_replay_events_len := 0;
  ps_messages_mode := ModeClean;
  ps_env_snapshots_mode := ModeClean;
  ps_memory_injections_mode := ModeClean;
  ps_replay_events_mode := ModeClean;
  ps_last_meta := None;
|}.
