(* ===== verification/SessionProfile.v ===== *)
(** * The memory profile of a session ([src/session/memory_profile.rs],
      [src/session/storage_paths.rs])

    Counts and sizes of the blocks of a transcript, gathered block by block and
    merged message by message, and the cache of them that a session keeps. *)

From S2P Require Import Prelude Messages SessionTypes.
Open Scope nat_scope.

(** The JSON texts that [serde_json::to_vec] gives for the parts of a session:
    only their sizes and the hash of a message are used here. *)
Class SessionJson `{Json} := {
  message_json : Message → string;
  stored_message_json : StoredMessage → string;
  env_snapshot_json : EnvSnapshot → string;
  memory_injection_json : StoredMemoryInjection → string;
  replay_event_json : StoredReplayEvent → string;
  compaction_json : StoredCompactionState → string;
}.

Definition LARGE_MEMORY_BLOB_THRESHOLD_BYTES : usize := 16 * 1024.

(** ** Statistics of content blocks *)

Record ContentBlockMemoryStats := {
  cb_block_count : usize;
  cb_text_blocks : usize;
  cb_text_bytes : usize;
  cb_reasoning_blocks : usize;
  cb_reasoning_bytes : usize;
  cb_tool_use_blocks : usize;
  cb_tool_use_input_json_bytes : usize;
  cb_tool_result_blocks : usize;
  cb_tool_result_bytes : usize;
  cb_image_blocks : usize;
  cb_image_data_bytes : usize;
  cb_openai_compaction_blocks : usize;
  cb_openai_compaction_bytes : usize;
  cb_large_block_count : usize;
  cb_large_block_bytes : usize;
  cb_large_tool_result_count : usize;
  cb_large_tool_result_bytes : usize;
  cb_max_block_bytes : usize;
  cb_max_tool_result_bytes : usize;
}.

Definition stats_default : ContentBlockMemoryStats :=
  Build_ContentBlockMemoryStats 0 0 0 0 0 0 0 0 0 0 0 0 0 0 0 0 0 0 0.

Definition merge_from (self other : ContentBlockMemoryStats) : ContentBlockMemoryStats := {|
  cb_block_count := cb_block_count self + cb_block_count other;
  cb_text_blocks := cb_text_blocks self + cb_text_blocks other;
  cb_text_bytes := cb_text_bytes self + cb_text_bytes other;
  cb_reasoning_blocks := cb_reasoning_blocks self + cb_reasoning_blocks other;
  cb_reasoning_bytes := cb_reasoning_bytes self + cb_reasoning_bytes other;
  cb_tool_use_blocks := cb_tool_use_blocks self + cb_tool_use_blocks other;
  cb_tool_use_input_json_bytes :=
    cb_tool_use_input_json_bytes self + cb_tool_use_input_json_bytes other;
  cb_tool_result_blocks := cb_tool_result_blocks self + cb_tool_result_blocks other;
  cb_tool_result_bytes := cb_tool_result_bytes self + cb_tool_result_bytes other;
  cb_image_blocks := cb_image_blocks self + cb_image_blocks other;
  cb_image_data_bytes := cb_image_data_bytes self + cb_image_data_bytes other;
  cb_openai_compaction_blocks :=
    cb_openai_compaction_blocks self + cb_openai_compaction_blocks other;
  cb_openai_compaction_bytes :=
    cb_openai_compaction_bytes self + cb_openai_compaction_bytes other;
  cb_large_block_count := cb_large_block_count self + cb_large_block_count other;
  cb_large_block_bytes := cb_large_block_bytes self + cb_large_block_bytes other;
  cb_large_tool_result_count :=
    cb_large_tool_result_count self + cb_large_tool_result_count other;
  cb_large_tool_result_bytes :=
    cb_large_tool_result_bytes self + cb_large_tool_result_bytes other;
  cb_max_block_bytes := cb_max_block_bytes self `max` cb_max_block_bytes other;
  cb_max_tool_result_bytes := cb_max_tool_result_bytes self `max` cb_max_tool_result_bytes other;
|}.

(** *** Assignments to one field *)

Definition cb_set_block_count (v : usize) (s : ContentBlockMemoryStats) : ContentBlockMemoryStats :=
  {| cb_block_count := v; cb_text_blocks := cb_text_blocks s; cb_text_bytes := cb_text_bytes s;
     cb_reasoning_blocks := cb_reasoning_blocks s; cb_reasoning_bytes := cb_reasoning_bytes s;
     cb_tool_use_blocks := cb_tool_use_blocks s;
     cb_tool_use_input_json_bytes := cb_tool_use_input_json_bytes s;
     cb_tool_result_blocks := cb_tool_result_blocks s;
     cb_tool_result_bytes := cb_tool_result_bytes s; cb_image_blocks := cb_image_blocks s;
     cb_image_data_bytes := cb_image_data_bytes s;
     cb_openai_compaction_blocks := cb_openai_compaction_blocks s;
     cb_openai_compaction_bytes := cb_openai_compaction_bytes s;
     cb_large_block_count := cb_large_block_count s;
     cb_large_block_bytes := cb_large_block_bytes s;
     cb_large_tool_result_count := cb_large_tool_result_count s;
     cb_large_tool_result_bytes := cb_large_tool_result_bytes s;
     cb_max_block_bytes := cb_max_block_bytes s;
     cb_max_tool_result_bytes := cb_max_tool_result_bytes s |}.
Definition cb_set_text_blocks (v : usize) (s : ContentBlockMemoryStats) : ContentBlockMemoryStats :=
  {| cb_block_count := cb_block_count s; cb_text_blocks := v; cb_text_bytes := cb_text_bytes s;
     cb_reasoning_blocks := cb_reasoning_blocks s; cb_reasoning_bytes := cb_reasoning_bytes s;
     cb_tool_use_blocks := cb_tool_use_blocks s;
     cb_tool_use_input_json_bytes := cb_tool_use_input_json_bytes s;
     cb_tool_result_blocks := cb_tool_result_blocks s;
     cb_tool_result_bytes := cb_tool_result_bytes s; cb_image_blocks := cb_image_blocks s;
     cb_image_data_bytes := cb_image_data_bytes s;
     cb_openai_compaction_blocks := cb_openai_compaction_blocks s;
     cb_openai_compaction_bytes := cb_openai_compaction_bytes s;
     cb_large_block_count := cb_large_block_count s;
     cb_large_block_bytes := cb_large_block_bytes s;
     cb_large_tool_result_count := cb_large_tool_result_count s;
     cb_large_tool_result_bytes := cb_large_tool_result_bytes s;
     cb_max_block_bytes := cb_max_block_bytes s;
     cb_max_tool_result_bytes := cb_max_tool_result_bytes s |}.
Definition cb_set_text_bytes (v : usize) (s : ContentBlockMemoryStats) : ContentBlockMemoryStats :=
  {| cb_block_count := cb_block_count s; cb_text_blocks := cb_text_blocks s; cb_text_bytes := v;
     cb_reasoning_blocks := cb_reasoning_blocks s; cb_reasoning_bytes := cb_reasoning_bytes s;
     cb_tool_use_blocks := cb_tool_use_blocks s;
     cb_tool_use_input_json_bytes := cb_tool_use_input_json_bytes s;
     cb_tool_result_blocks := cb_tool_result_blocks s;
     cb_tool_result_bytes := cb_tool_result_bytes s; cb_image_blocks := cb_image_blocks s;
     cb_image_data_bytes := cb_image_data_bytes s;
     cb_openai_compaction_blocks := cb_openai_compaction_blocks s;
     cb_openai_compaction_bytes := cb_openai_compaction_bytes s;
     cb_large_block_count := cb_large_block_count s;
     cb_large_block_bytes := cb_large_block_bytes s;
     cb_large_tool_result_count := cb_large_tool_result_count s;
     cb_large_tool_result_bytes := cb_large_tool_result_bytes s;
     cb_max_block_bytes := cb_max_block_bytes s;
     cb_max_tool_result_bytes := cb_max_tool_result_bytes s |}.
Definition cb_set_reasoning_blocks (v : usize) (s : ContentBlockMemoryStats) : ContentBlockMemoryStats :=
  {| cb_block_count := cb_block_count s; cb_text_blocks := cb_text_blocks s;
     cb_text_bytes := cb_text_bytes s; cb_reasoning_blocks := v;
     cb_reasoning_bytes := cb_reasoning_bytes s; cb_tool_use_blocks := cb_tool_use_blocks s;
     cb_tool_use_input_json_bytes := cb_tool_use_input_json_bytes s;
     cb_tool_result_blocks := cb_tool_result_blocks s;
     cb_tool_result_bytes := cb_tool_result_bytes s; cb_image_blocks := cb_image_blocks s;
     cb_image_data_bytes := cb_image_data_bytes s;
     cb_openai_compaction_blocks := cb_openai_compaction_blocks s;
     cb_openai_compaction_bytes := cb_openai_compaction_bytes s;
     cb_large_block_count := cb_large_block_count s;
     cb_large_block_bytes := cb_large_block_bytes s;
     cb_large_tool_result_count := cb_large_tool_result_count s;
     cb_large_tool_result_bytes := cb_large_tool_result_bytes s;
     cb_max_block_bytes := cb_max_block_bytes s;
     cb_max_tool_result_bytes := cb_max_tool_result_bytes s |}.
Definition cb_set_reasoning_bytes (v : usize) (s : ContentBlockMemoryStats) : ContentBlockMemoryStats :=
  {| cb_block_count := cb_block_count s; cb_text_blocks := cb_text_blocks s;
     cb_text_bytes := cb_text_bytes s; cb_reasoning_blocks := cb_reasoning_blocks s;
     cb_reasoning_bytes := v; cb_tool_use_blocks := cb_tool_use_blocks s;
     cb_tool_use_input_json_bytes := cb_tool_use_input_json_bytes s;
     cb_tool_result_blocks := cb_tool_result_blocks s;
     cb_tool_result_bytes := cb_tool_result_bytes s; cb_image_blocks := cb_image_blocks s;
     cb_image_data_bytes := cb_image_data_bytes s;
     cb_openai_compaction_blocks := cb_openai_compaction_blocks s;
     cb_openai_compaction_bytes := cb_openai_compaction_bytes s;
     cb_large_block_count := cb_large_block_count s;
     cb_large_block_bytes := cb_large_block_bytes s;
     cb_large_tool_result_count := cb_large_tool_result_count s;
     cb_large_tool_result_bytes := cb_large_tool_result_bytes s;
     cb_max_block_bytes := cb_max_block_bytes s;
     cb_max_tool_result_bytes := cb_max_tool_result_bytes s |}.
Definition cb_set_tool_use_blocks (v : usize) (s : ContentBlockMemoryStats) : ContentBlockMemoryStats :=
  {| cb_block_count := cb_block_count s; cb_text_blocks := cb_text_blocks s;
     cb_text_bytes := cb_text_bytes s; cb_reasoning_blocks := cb_reasoning_blocks s;
     cb_reasoning_bytes := cb_reasoning_bytes s; cb_tool_use_blocks := v;
     cb_tool_use_input_json_bytes := cb_tool_use_input_json_bytes s;
     cb_tool_result_blocks := cb_tool_result_blocks s;
     cb_tool_result_bytes := cb_tool_result_bytes s; cb_image_blocks := cb_image_blocks s;
     cb_image_data_bytes := cb_image_data_bytes s;
     cb_openai_compaction_blocks := cb_openai_compaction_blocks s;
     cb_openai_compaction_bytes := cb_openai_compaction_bytes s;
     cb_large_block_count := cb_large_block_count s;
     cb_large_block_bytes := cb_large_block_bytes s;
     cb_large_tool_result_count := cb_large_tool_result_count s;
     cb_large_tool_result_bytes := cb_large_tool_result_bytes s;
     cb_max_block_bytes := cb_max_block_bytes s;
     cb_max_tool_result_bytes := cb_max_tool_result_bytes s |}.
Definition cb_set_tool_use_input_json_bytes (v : usize) (s : ContentBlockMemoryStats) : ContentBlockMemoryStats :=
  {| cb_block_count := cb_block_count s; cb_text_blocks := cb_text_blocks s;
     cb_text_bytes := cb_text_bytes s; cb_reasoning_blocks := cb_reasoning_blocks s;
     cb_reasoning_bytes := cb_reasoning_bytes s; cb_tool_use_blocks := cb_tool_use_blocks s;
     cb_tool_use_input_json_bytes := v; cb_tool_result_blocks := cb_tool_result_blocks s;
     cb_tool_result_bytes := cb_tool_result_bytes s; cb_image_blocks := cb_image_blocks s;
     cb_image_data_bytes := cb_image_data_bytes s;
     cb_openai_compaction_blocks := cb_openai_compaction_blocks s;
     cb_openai_compaction_bytes := cb_openai_compaction_bytes s;
     cb_large_block_count := cb_large_block_count s;
     cb_large_block_bytes := cb_large_block_bytes s;
     cb_large_tool_result_count := cb_large_tool_result_count s;
     cb_large_tool_result_bytes := cb_large_tool_result_bytes s;
     cb_max_block_bytes := cb_max_block_bytes s;
     cb_max_tool_result_bytes := cb_max_tool_result_bytes s |}.
Definition cb_set_tool_result_blocks (v : usize) (s : ContentBlockMemoryStats) : ContentBlockMemoryStats :=
  {| cb_block_count := cb_block_count s; cb_text_blocks := cb_text_blocks s;
     cb_text_bytes := cb_text_bytes s; cb_reasoning_blocks := cb_reasoning_blocks s;
     cb_reasoning_bytes := cb_reasoning_bytes s; cb_tool_use_blocks := cb_tool_use_blocks s;
     cb_tool_use_input_json_bytes := cb_tool_use_input_json_bytes s; cb_tool_result_blocks := v;
     cb_tool_result_bytes := cb_tool_result_bytes s; cb_image_blocks := cb_image_blocks s;
     cb_image_data_bytes := cb_image_data_bytes s;
     cb_openai_compaction_blocks := cb_openai_compaction_blocks s;
     cb_openai_compaction_bytes := cb_openai_compaction_bytes s;
     cb_large_block_count := cb_large_block_count s;
     cb_large_block_bytes := cb_large_block_bytes s;
     cb_large_tool_result_count := cb_large_tool_result_count s;
     cb_large_tool_result_bytes := cb_large_tool_result_bytes s;
     cb_max_block_bytes := cb_max_block_bytes s;
     cb_max_tool_result_bytes := cb_max_tool_result_bytes s |}.
Definition cb_set_tool_result_bytes (v : usize) (s : ContentBlockMemoryStats) : ContentBlockMemoryStats :=
  {| cb_block_count := cb_block_count s; cb_text_blocks := cb_text_blocks s;
     cb_text_bytes := cb_text_bytes s; cb_reasoning_blocks := cb_reasoning_blocks s;
     cb_reasoning_bytes := cb_reasoning_bytes s; cb_tool_use_blocks := cb_tool_use_blocks s;
     cb_tool_use_input_json_bytes := cb_tool_use_input_json_bytes s;
     cb_tool_result_blocks := cb_tool_result_blocks s; cb_tool_result_bytes := v;
     cb_image_blocks := cb_image_blocks s; cb_image_data_bytes := cb_image_data_bytes s;
     cb_openai_compaction_blocks := cb_openai_compaction_blocks s;
     cb_openai_compaction_bytes := cb_openai_compaction_bytes s;
     cb_large_block_count := cb_large_block_count s;
     cb_large_block_bytes := cb_large_block_bytes s;
     cb_large_tool_result_count := cb_large_tool_result_count s;
     cb_large_tool_result_bytes := cb_large_tool_result_bytes s;
     cb_max_block_bytes := cb_max_block_bytes s;
     cb_max_tool_result_bytes := cb_max_tool_result_bytes s |}.
Definition cb_set_image_blocks (v : usize) (s : ContentBlockMemoryStats) : ContentBlockMemoryStats :=
  {| cb_block_count := cb_block_count s; cb_text_blocks := cb_text_blocks s;
     cb_text_bytes := cb_text_bytes s; cb_reasoning_blocks := cb_reasoning_blocks s;
     cb_reasoning_bytes := cb_reasoning_bytes s; cb_tool_use_blocks := cb_tool_use_blocks s;
     cb_tool_use_input_json_bytes := cb_tool_use_input_json_bytes s;
     cb_tool_result_blocks := cb_tool_result_blocks s;
     cb_tool_result_bytes := cb_tool_result_bytes s; cb_image_blocks := v;
     cb_image_data_bytes := cb_image_data_bytes s;
     cb_openai_compaction_blocks := cb_openai_compaction_blocks s;
     cb_openai_compaction_bytes := cb_openai_compaction_bytes s;
     cb_large_block_count := cb_large_block_count s;
     cb_large_block_bytes := cb_large_block_bytes s;
     cb_large_tool_result_count := cb_large_tool_result_count s;
     cb_large_tool_result_bytes := cb_large_tool_result_bytes s;
     cb_max_block_bytes := cb_max_block_bytes s;
     cb_max_tool_result_bytes := cb_max_tool_result_bytes s |}.
Definition cb_set_image_data_bytes (v : usize) (s : ContentBlockMemoryStats) : ContentBlockMemoryStats :=
  {| cb_block_count := cb_block_count s; cb_text_blocks := cb_text_blocks s;
     cb_text_bytes := cb_text_bytes s; cb_reasoning_blocks := cb_reasoning_blocks s;
     cb_reasoning_bytes := cb_reasoning_bytes s; cb_tool_use_blocks := cb_tool_use_blocks s;
     cb_tool_use_input_json_bytes := cb_tool_use_input_json_bytes s;
     cb_tool_result_blocks := cb_tool_result_blocks s;
     cb_tool_result_bytes := cb_tool_result_bytes s; cb_image_blocks := cb_image_blocks s;
     cb_image_data_bytes := v; cb_openai_compaction_blocks := cb_openai_compaction_blocks s;
     cb_openai_compaction_bytes := cb_openai_compaction_bytes s;
     cb_large_block_count := cb_large_block_count s;
     cb_large_block_bytes := cb_large_block_bytes s;
     cb_large_tool_result_count := cb_large_tool_result_count s;
     cb_large_tool_result_bytes := cb_large_tool_result_bytes s;
     cb_max_block_bytes := cb_max_block_bytes s;
     cb_max_tool_result_bytes := cb_max_tool_result_bytes s |}.
Definition cb_set_openai_compaction_blocks (v : usize) (s : ContentBlockMemoryStats) : ContentBlockMemoryStats :=
  {| cb_block_count := cb_block_count s; cb_text_blocks := cb_text_blocks s;
     cb_text_bytes := cb_text_bytes s; cb_reasoning_blocks := cb_reasoning_blocks s;
     cb_reasoning_bytes := cb_reasoning_bytes s; cb_tool_use_blocks := cb_tool_use_blocks s;
     cb_tool_use_input_json_bytes := cb_tool_use_input_json_bytes s;
     cb_tool_result_blocks := cb_tool_result_blocks s;
     cb_tool_result_bytes := cb_tool_result_bytes s; cb_image_blocks := cb_image_blocks s;
     cb_image_data_bytes := cb_image_data_bytes s; cb_openai_compaction_blocks := v;
     cb_openai_compaction_bytes := cb_openai_compaction_bytes s;
     cb_large_block_count := cb_large_block_count s;
     cb_large_block_bytes := cb_large_block_bytes s;
     cb_large_tool_result_count := cb_large_tool_result_count s;
     cb_large_tool_result_bytes := cb_large_tool_result_bytes s;
     cb_max_block_bytes := cb_max_block_bytes s;
     cb_max_tool_result_bytes := cb_max_tool_result_bytes s |}.
Definition cb_set_openai_compaction_bytes (v : usize) (s : ContentBlockMemoryStats) : ContentBlockMemoryStats :=
  {| cb_block_count := cb_block_count s; cb_text_blocks := cb_text_blocks s;
     cb_text_bytes := cb_text_bytes s; cb_reasoning_blocks := cb_reasoning_blocks s;
     cb_reasoning_bytes := cb_reasoning_bytes s; cb_tool_use_blocks := cb_tool_use_blocks s;
     cb_tool_use_input_json_bytes := cb_tool_use_input_json_bytes s;
     cb_tool_result_blocks := cb_tool_result_blocks s;
     cb_tool_result_bytes := cb_tool_result_bytes s; cb_image_blocks := cb_image_blocks s;
     cb_image_data_bytes := cb_image_data_bytes s;
     cb_openai_compaction_blocks := cb_openai_compaction_blocks s;
     cb_openai_compaction_bytes := v; cb_large_block_count := cb_large_block_count s;
     cb_large_block_bytes := cb_large_block_bytes s;
     cb_large_tool_result_count := cb_large_tool_result_count s;
     cb_large_tool_result_bytes := cb_large_tool_result_bytes s;
     cb_max_block_bytes := cb_max_block_bytes s;
     cb_max_tool_result_bytes := cb_max_tool_result_bytes s |}.
Definition cb_set_large_block_count (v : usize) (s : ContentBlockMemoryStats) : ContentBlockMemoryStats :=
  {| cb_block_count := cb_block_count s; cb_text_blocks := cb_text_blocks s;
     cb_text_bytes := cb_text_bytes s; cb_reasoning_blocks := cb_reasoning_blocks s;
     cb_reasoning_bytes := cb_reasoning_bytes s; cb_tool_use_blocks := cb_tool_use_blocks s;
     cb_tool_use_input_json_bytes := cb_tool_use_input_json_bytes s;
     cb_tool_result_blocks := cb_tool_result_blocks s;
     cb_tool_result_bytes := cb_tool_result_bytes s; cb_image_blocks := cb_image_blocks s;
     cb_image_data_bytes := cb_image_data_bytes s;
     cb_openai_compaction_blocks := cb_openai_compaction_blocks s;
     cb_openai_compaction_bytes := cb_openai_compaction_bytes s; cb_large_block_count := v;
     cb_large_block_bytes := cb_large_block_bytes s;
     cb_large_tool_result_count := cb_large_tool_result_count s;
     cb_large_tool_result_bytes := cb_large_tool_result_bytes s;
     cb_max_block_bytes := cb_max_block_bytes s;
     cb_max_tool_result_bytes := cb_max_tool_result_bytes s |}.
Definition cb_set_large_block_bytes (v : usize) (s : ContentBlockMemoryStats) : ContentBlockMemoryStats :=
  {| cb_block_count := cb_block_count s; cb_text_blocks := cb_text_blocks s;
     cb_text_bytes := cb_text_bytes s; cb_reasoning_blocks := cb_reasoning_blocks s;
     cb_reasoning_bytes := cb_reasoning_bytes s; cb_tool_use_blocks := cb_tool_use_blocks s;
     cb_tool_use_input_json_bytes := cb_tool_use_input_json_bytes s;
     cb_tool_result_blocks := cb_tool_result_blocks s;
     cb_tool_result_bytes := cb_tool_result_bytes s; cb_image_blocks := cb_image_blocks s;
     cb_image_data_bytes := cb_image_data_bytes s;
     cb_openai_compaction_blocks := cb_openai_compaction_blocks s;
     cb_openai_compaction_bytes := cb_openai_compaction_bytes s;
     cb_large_block_count := cb_large_block_count s; cb_large_block_bytes := v;
     cb_large_tool_result_count := cb_large_tool_result_count s;
     cb_large_tool_result_bytes := cb_large_tool_result_bytes s;
     cb_max_block_bytes := cb_max_block_bytes s;
     cb_max_tool_result_bytes := cb_max_tool_result_bytes s |}.
Definition cb_set_large_tool_result_count (v : usize) (s : ContentBlockMemoryStats) : ContentBlockMemoryStats :=
  {| cb_block_count := cb_block_count s; cb_text_blocks := cb_text_blocks s;
     cb_text_bytes := cb_text_bytes s; cb_reasoning_blocks := cb_reasoning_blocks s;
     cb_reasoning_bytes := cb_reasoning_bytes s; cb_tool_use_blocks := cb_tool_use_blocks s;
     cb_tool_use_input_json_bytes := cb_tool_use_input_json_bytes s;
     cb_tool_result_blocks := cb_tool_result_blocks s;
     cb_tool_result_bytes := cb_tool_result_bytes s; cb_image_blocks := cb_image_blocks s;
     cb_image_data_bytes := cb_image_data_bytes s;
     cb_openai_compaction_blocks := cb_openai_compaction_blocks s;
     cb_openai_compaction_bytes := cb_openai_compaction_bytes s;
     cb_large_block_count := cb_large_block_count s;
     cb_large_block_bytes := cb_large_block_bytes s; cb_large_tool_result_count := v;
     cb_large_tool_result_bytes := cb_large_tool_result_bytes s;
     cb_max_block_bytes := cb_max_block_bytes s;
     cb_max_tool_result_bytes := cb_max_tool_result_bytes s |}.
Definition cb_set_large_tool_result_bytes (v : usize) (s : ContentBlockMemoryStats) : ContentBlockMemoryStats :=
  {| cb_block_count := cb_block_count s; cb_text_blocks := cb_text_blocks s;
     cb_text_bytes := cb_text_bytes s; cb_reasoning_blocks := cb_reasoning_blocks s;
     cb_reasoning_bytes := cb_reasoning_bytes s; cb_tool_use_blocks := cb_tool_use_blocks s;
     cb_tool_use_input_json_bytes := cb_tool_use_input_json_bytes s;
     cb_tool_result_blocks := cb_tool_result_blocks s;
     cb_tool_result_bytes := cb_tool_result_bytes s; cb_image_blocks := cb_image_blocks s;
     cb_image_data_bytes := cb_image_data_bytes s;
     cb_openai_compaction_blocks := cb_openai_compaction_blocks s;
     cb_openai_compaction_bytes := cb_openai_compaction_bytes s;
     cb_large_block_count := cb_large_block_count s;
     cb_large_block_bytes := cb_large_block_bytes s;
     cb_large_tool_result_count := cb_large_tool_result_count s; cb_large_tool_result_bytes := v;
     cb_max_block_bytes := cb_max_block_bytes s;
     cb_max_tool_result_bytes := cb_max_tool_result_bytes s |}.
Definition cb_set_max_block_bytes (v : usize) (s : ContentBlockMemoryStats) : ContentBlockMemoryStats :=
  {| cb_block_count := cb_block_count s; cb_text_blocks := cb_text_blocks s;
     cb_text_bytes := cb_text_bytes s; cb_reasoning_blocks := cb_reasoning_blocks s;
     cb_reasoning_bytes := cb_reasoning_bytes s; cb_tool_use_blocks := cb_tool_use_blocks s;
     cb_tool_use_input_json_bytes := cb_tool_use_input_json_bytes s;
     cb_tool_result_blocks := cb_tool_result_blocks s;
     cb_tool_result_bytes := cb_tool_result_bytes s; cb_image_blocks := cb_image_blocks s;
     cb_image_data_bytes := cb_image_data_bytes s;
     cb_openai_compaction_blocks := cb_openai_compaction_blocks s;
     cb_openai_compaction_bytes := cb_openai_compaction_bytes s;
     cb_large_block_count := cb_large_block_count s;
     cb_large_block_bytes := cb_large_block_bytes s;
     cb_large_tool_result_count := cb_large_tool_result_count s;
     cb_large_tool_result_bytes := cb_large_tool_result_bytes s; cb_max_block_bytes := v;
     cb_max_tool_result_bytes := cb_max_tool_result_bytes s |}.
Definition cb_set_max_tool_result_bytes (v : usize) (s : ContentBlockMemoryStats) : ContentBlockMemoryStats :=
  {| cb_block_count := cb_block_count s; cb_text_blocks := cb_text_blocks s;
     cb_text_bytes := cb_text_bytes s; cb_reasoning_blocks := cb_reasoning_blocks s;
     cb_reasoning_bytes := cb_reasoning_bytes s; cb_tool_use_blocks := cb_tool_use_blocks s;
     cb_tool_use_input_json_bytes := cb_tool_use_input_json_bytes s;
     cb_tool_result_blocks := cb_tool_result_blocks s;
     cb_tool_result_bytes := cb_tool_result_bytes s; cb_image_blocks := cb_image_blocks s;
     cb_image_data_bytes := cb_image_data_bytes s;
     cb_openai_compaction_blocks := cb_openai_compaction_blocks s;
     cb_openai_compaction_bytes := cb_openai_compaction_bytes s;
     cb_large_block_count := cb_large_block_count s;
     cb_large_block_bytes := cb_large_block_bytes s;
     cb_large_tool_result_count := cb_large_tool_result_count s;
     cb_large_tool_result_bytes := cb_large_tool_result_bytes s;
     cb_max_block_bytes := cb_max_block_bytes s; cb_max_tool_result_bytes := v |}.

(** [stats.field += n] *)
Definition cb_add (get : ContentBlockMemoryStats → usize)
    (set : usize → ContentBlockMemoryStats → ContentBlockMemoryStats) (n : usize)
    (s : ContentBlockMemoryStats) : ContentBlockMemoryStats :=
  set (get s + n) s.

Definition record_bytes (bytes : usize) (s : ContentBlockMemoryStats) : ContentBlockMemoryStats :=
  let s := cb_set_max_block_bytes (cb_max_block_bytes s `max` bytes) s in
  if LARGE_MEMORY_BLOB_THRESHOLD_BYTES <=? bytes then
    cb_add cb_large_block_bytes cb_set_large_block_bytes bytes
      (cb_add cb_large_block_count cb_set_large_block_count 1 s)
  else s.

Section stats.
Context `{Json}.

(** [estimate_json_bytes] of the input of a tool call: the length of its text. *)
Definition json_input_bytes (input : json) : usize := String.length (json_to_string input).

Definition record_block (s : ContentBlockMemoryStats) (block : ContentBlock)
    : ContentBlockMemoryStats :=
  let s := cb_add cb_block_count cb_set_block_count 1 s in
  match block with
  | Text text _ =>
      record_bytes (String.length text)
        (cb_add cb_text_bytes cb_set_text_bytes (String.length text)
          (cb_add cb_text_blocks cb_set_text_blocks 1 s))
  | Reasoning text =>
      record_bytes (String.length text)
        (cb_add cb_reasoning_bytes cb_set_reasoning_bytes (String.length text)
          (cb_add cb_reasoning_blocks cb_set_reasoning_blocks 1 s))
  | ToolUse _ _ input =>
      let input_bytes := json_input_bytes input in
      record_bytes input_bytes
        (cb_add cb_tool_use_input_json_bytes cb_set_tool_use_input_json_bytes input_bytes
          (cb_add cb_tool_use_blocks cb_set_tool_use_blocks 1 s))
  | ToolResult _ content _ =>
      let len := String.length content in
      let s := cb_add cb_tool_result_blocks cb_set_tool_result_blocks 1 s in
      let s := cb_add cb_tool_result_bytes cb_set_tool_result_bytes len s in
      let s := cb_set_max_tool_result_bytes (cb_max_tool_result_bytes s `max` len) s in
      let s :=
        if LARGE_MEMORY_BLOB_THRESHOLD_BYTES <=? len then
          cb_add cb_large_tool_result_bytes cb_set_large_tool_result_bytes len
            (cb_add cb_large_tool_result_count cb_set_large_tool_result_count 1 s)
        else s in
      record_bytes len s
  | Image _ data =>
      record_bytes (String.length data)
        (cb_add cb_image_data_bytes cb_set_image_data_bytes (String.length data)
          (cb_add cb_image_blocks cb_set_image_blocks 1 s))
  | OpenAICompaction encrypted_content =>
      record_bytes (String.length encrypted_content)
        (cb_add cb_openai_compaction_bytes cb_set_openai_compaction_bytes
          (String.length encrypted_content)
          (cb_add cb_openai_compaction_blocks cb_set_openai_compaction_blocks 1 s))
  end.

Definition summarize_blocks (blocks : list ContentBlock) : ContentBlockMemoryStats :=
  foldl record_block stats_default blocks.

Definition summarize_message_content (messages : list (list ContentBlock))
    : ContentBlockMemoryStats :=
  foldl (foldl record_block) stats_default messages.
End stats.

Definition payload_text_bytes (s : ContentBlockMemoryStats) : usize :=
  cb_text_bytes s + cb_reasoning_bytes s + cb_tool_result_bytes s + cb_image_data_bytes s
  + cb_openai_compaction_bytes s.

(** ** Merging *)

Section merge_laws.
Context `{Json}.

Lemma merge_from_default_l s : merge_from stats_default s = s.
Proof. by destruct s. Qed.

Lemma merge_from_default_r s : merge_from s stats_default = s.
Proof. destruct s; unfold merge_from; cbn. f_equal; lia. Qed.

Lemma merge_from_assoc s t u : merge_from (merge_from s t) u = merge_from s (merge_from t u).
Proof. unfold merge_from; cbn. f_equal; lia. Qed.

Lemma stats_ext s t :
  cb_block_count s = cb_block_count t →
  cb_text_blocks s = cb_text_blocks t →
  cb_text_bytes s = cb_text_bytes t →
  cb_reasoning_blocks s = cb_reasoning_blocks t →
  cb_reasoning_bytes s = cb_reasoning_bytes t →
  cb_tool_use_blocks s = cb_tool_use_blocks t →
  cb_tool_use_input_json_bytes s = cb_tool_use_input_json_bytes t →
  cb_tool_result_blocks s = cb_tool_result_blocks t →
  cb_tool_result_bytes s = cb_tool_result_bytes t →
  cb_image_blocks s = cb_image_blocks t →
  cb_image_data_bytes s = cb_image_data_bytes t →
  cb_openai_compaction_blocks s = cb_openai_compaction_blocks t →
  cb_openai_compaction_bytes s = cb_openai_compaction_bytes t →
  cb_large_block_count s = cb_large_block_count t →
  cb_large_block_bytes s = cb_large_block_bytes t →
  cb_large_tool_result_count s = cb_large_tool_result_count t →
  cb_large_tool_result_bytes s = cb_large_tool_result_bytes t →
  cb_max_block_bytes s = cb_max_block_bytes t →
  cb_max_tool_result_bytes s = cb_max_tool_result_bytes t →
  s = t.
Proof. destruct s, t; cbn; intros; by subst. Qed.

Lemma record_block_merge s t b : merge_from s (record_block t b) = record_block (merge_from s t) b.
Proof.
  apply stats_ext; destruct b; cbn -[LARGE_MEMORY_BLOB_THRESHOLD_BYTES];
    unfold record_bytes; generalize LARGE_MEMORY_BLOB_THRESHOLD_BYTES; intros threshold;
    repeat case_match; cbn; lia.
Qed.

Lemma record_blocks_merge s t bs :
  merge_from s (foldl record_block t bs) = foldl record_block (merge_from s t) bs.
Proof.
  revert t. induction bs as [|b bs IH]; intros t; cbn; [done|].
  by rewrite IH, record_block_merge.
Qed.

(** Merging the statistics of a message equals recording its blocks. *)
Lemma merge_summarize s bs : merge_from s (summarize_blocks bs) = foldl record_block s bs.
Proof. unfold summarize_blocks. by rewrite record_blocks_merge, merge_from_default_r. Qed.

Lemma summarize_snoc ms bs :
  summarize_message_content (ms ++ [bs])
  = merge_from (summarize_message_content ms) (summarize_blocks bs).
Proof. unfold summarize_message_content. by rewrite foldl_snoc, merge_summarize. Qed.
End merge_laws.

(** ** The cache and its snapshot *)

Record SessionMemoryProfileCache := {
  mp_messages_count : usize;
  mp_messages_json_bytes : usize;
  mp_message_stats : ContentBlockMemoryStats;
  mp_env_snapshots_count : usize;
  mp_env_snapshots_json_bytes : usize;
  mp_memory_injections_count : usize;
  mp_memory_injections_json_bytes : usize;
  mp_replay_events_count : usize;
  mp_replay_events_json_bytes : usize;
  mp_provider_cache_count : usize;
  mp_provider_cache_json_bytes : usize;
  mp_provider_cache_stats : ContentBlockMemoryStats;
}.

(** [SessionMemoryProfileCache::default()] *)
Definition profile_default : SessionMemoryProfileCache :=
  Build_SessionMemoryProfileCache 0 0 stats_default 0 0 0 0 0 0 0 0 stats_default.

Record SessionMemoryProfileSnapshot := {
  sn_message_count : usize;
  sn_provider_cache_message_count : usize;
  sn_env_snapshot_count : usize;
  sn_memory_injection_count : usize;
  sn_replay_event_count : usize;
  sn_payload_text_bytes : usize;
  sn_total_json_bytes : usize;
  sn_provider_cache_json_bytes : usize;
  sn_canonical_tool_result_bytes : usize;
  sn_provider_cache_tool_result_bytes : usize;
  sn_canonical_large_blob_bytes : usize;
  sn_provider_cache_large_blob_bytes : usize;
}.
