(* ===== verification/SessionState.v ===== *)
(** * The state of a session ([src/session.rs])

    A session is its transcript and metadata together with the bookkeeping that
    is not stored: what has been written to its file, the messages converted
    for the provider, and the memory profile. Then the assignments to single
    fields that its operations make. *)

From S2P Require Import Prelude Messages SessionTypes SessionProfile.
Open Scope nat_scope.

Section session.
Context `{Json}.

(** ** State *)

Record Session := {
  se_id : string;
  se_parent_id : option string;
  se_title : option string;
  se_created_at : datetime;
  se_updated_at : datetime;
  se_messages : list StoredMessage;
  se_compaction : option StoredCompactionState;
  se_provider_session_id : option string;
  se_provider_key : option string;
  se_model : option string;
  se_reasoning_effort : option string;
  se_subagent_model : option string;
  se_improve_mode : option SessionImproveMode;
  se_autoreview_enabled : option bool;
  se_autojudge_enabled : option bool;
  se_is_canary : bool;
  se_testing_build : option string;
  se_working_dir : option string;
  se_short_name : option string;
  se_status : SessionStatus;
  se_last_pid : option u32;
  se_last_active_at : option datetime;
  se_is_debug : bool;
  se_saved : bool;
  se_save_label : option string;
  se_env_snapshots : list EnvSnapshot;
  se_memory_injections : list StoredMemoryInjection;
  se_replay_events : list StoredReplayEvent;
  se_persist_state : SessionPersistState;
  se_provider_messages_cache : list Message;
  se_provider_message_prefix_hashes_cache : list u64;
  se_provider_messages_cache_len : usize;
  se_provider_messages_cache_mode : PersistVectorMode;
  se_memory_profile_cache : SessionMemoryProfileCache;
  se_memory_profile_dirty : bool;
}.

(** *** Assignments to one field *)

Definition se_set_title (v : option string) (s : Session) : Session :=
  {| se_id := se_id s; se_parent_id := se_parent_id s; se_title := v;
     se_created_at := se_created_at s; se_updated_at := se_updated_at s;
     se_messages := se_messages s; se_compaction := se_compaction s;
     se_provider_session_id := se_provider_session_id s; se_provider_key := se_provider_key s;
     se_model := se_model s; se_reasoning_effort := se_reasoning_effort s;
     se_subagent_model := se_subagent_model s; se_improve_mode := se_improve_mode s;
     se_autoreview_enabled := se_autoreview_enabled s;
     se_autojudge_enabled := se_autojudge_enabled s; se_is_canary := se_is_canary s;
     se_testing_build := se_testing_build s; se_working_dir := se_working_dir s;
     se_short_name := se_short_name s; se_status := se_status s; se_last_pid := se_last_pid s;
     se_last_active_at := se_last_active_at s; se_is_debug := se_is_debug s;
     se_saved := se_saved s; se_save_label := se_save_label s;
     se_env_snapshots := se_env_snapshots s; se_memory_injections := se_memory_injections s;
     se_replay_events := se_replay_events s; se_persist_state := se_persist_state s;
     se_provider_messages_cache := se_provider_messages_cache s;
     se_provider_message_prefix_hashes_cache := se_provider_message_prefix_hashes_cache s;
     se_provider_messages_cache_len := se_provider_messages_cache_len s;
     se_provider_messages_cache_mode := se_provider_messages_cache_mode s;
     se_memory_profile_cache := se_memory_profile_cache s;
     se_memory_profile_dirty := se_memory_profile_dirty s |}.

Definition se_set_updated_at (v : datetime) (s : Session) : Session :=
  {| se_id := se_id s; se_parent_id := se_parent_id s; se_title := se_title s;
     se_created_at := se_created_at s; se_updated_at := v; se_messages := se_messages s;
     se_compaction := se_compaction s; se_provider_session_id := se_provider_session_id s;
     se_provider_key := se_provider_key s; se_model := se_model s;
     se_reasoning_effort := se_reasoning_effort s; se_subagent_model := se_subagent_model s;
     se_improve_mode := se_improve_mode s; se_autoreview_enabled := se_autoreview_enabled s;
     se_autojudge_enabled := se_autojudge_enabled s; se_is_canary := se_is_canary s;
     se_testing_build := se_testing_build s; se_working_dir := se_working_dir s;
     se_short_name := se_short_name s; se_status := se_status s; se_last_pid := se_last_pid s;
     se_last_active_at := se_last_active_at s; se_is_debug := se_is_debug s;
     se_saved := se_saved s; se_save_label := se_save_label s;
     se_env_snapshots := se_env_snapshots s; se_memory_injections := se_memory_injections s;
     se_replay_events := se_replay_events s; se_persist_state := se_persist_state s;
     se_provider_messages_cache := se_provider_messages_cache s;
     se_provider_message_prefix_hashes_cache := se_provider_message_prefix_hashes_cache s;
     se_provider_messages_cache_len := se_provider_messages_cache_len s;
     se_provider_messages_cache_mode := se_provider_messages_cache_mode s;
     se_memory_profile_cache := se_memory_profile_cache s;
     se_memory_profile_dirty := se_memory_profile_dirty s |}.

Definition se_set_messages (v : list StoredMessage) (s : Session) : Session :=
  {| se_id := se_id s; se_parent_id := se_parent_id s; se_title := se_title s;
     se_created_at := se_created_at s; se_updated_at := se_updated_at s; se_messages := v;
     se_compaction := se_compaction s; se_provider_session_id := se_provider_session_id s;
     se_provider_key := se_provider_key s; se_model := se_model s;
     se_reasoning_effort := se_reasoning_effort s; se_subagent_model := se_subagent_model s;
     se_improve_mode := se_improve_mode s; se_autoreview_enabled := se_autoreview_enabled s;
     se_autojudge_enabled := se_autojudge_enabled s; se_is_canary := se_is_canary s;
     se_testing_build := se_testing_build s; se_working_dir := se_working_dir s;
     se_short_name := se_short_name s; se_status := se_status s; se_last_pid := se_last_pid s;
     se_last_active_at := se_last_active_at s; se_is_debug := se_is_debug s;
     se_saved := se_saved s; se_save_label := se_save_label s;
     se_env_snapshots := se_env_snapshots s; se_memory_injections := se_memory_injections s;
     se_replay_events := se_replay_events s; se_persist_state := se_persist_state s;
     se_provider_messages_cache := se_provider_messages_cache s;
     se_provider_message_prefix_hashes_cache := se_provider_message_prefix_hashes_cache s;
     se_provider_messages_cache_len := se_provider_messages_cache_len s;
     se_provider_messages_cache_mode := se_provider_messages_cache_mode s;
     se_memory_profile_cache := se_memory_profile_cache s;
     se_memory_profile_dirty := se_memory_profile_dirty s |}.

Definition se_set_compaction (v : option StoredCompactionState) (s : Session) : Session :=
  {| se_id := se_id s; se_parent_id := se_parent_id s; se_title := se_title s;
     se_created_at := se_created_at s; se_updated_at := se_updated_at s;
     se_messages := se_messages s; se_compaction := v;
     se_provider_session_id := se_provider_session_id s; se_provider_key := se_provider_key s;
     se_model := se_model s; se_reasoning_effort := se_reasoning_effort s;
     se_subagent_model := se_subagent_model s; se_improve_mode := se_improve_mode s;
     se_autoreview_enabled := se_autoreview_enabled s;
     se_autojudge_enabled := se_autojudge_enabled s; se_is_canary := se_is_canary s;
     se_testing_build := se_testing_build s; se_working_dir := se_working_dir s;
     se_short_name := se_short_name s; se_status := se_status s; se_last_pid := se_last_pid s;
     se_last_active_at := se_last_active_at s; se_is_debug := se_is_debug s;
     se_saved := se_saved s; se_save_label := se_save_label s;
     se_env_snapshots := se_env_snapshots s; se_memory_injections := se_memory_injections s;
     se_replay_events := se_replay_events s; se_persist_state := se_persist_state s;
     se_provider_messages_cache := se_provider_messages_cache s;
     se_provider_message_prefix_hashes_cache := se_provider_message_prefix_hashes_cache s;
     se_provider_messages_cache_len := se_provider_messages_cache_len s;
     se_provider_messages_cache_mode := se_provider_messages_cache_mode s;
     se_memory_profile_cache := se_memory_profile_cache s;
     se_memory_profile_dirty := se_memory_profile_dirty s |}.

Definition se_set_working_dir (v : option string) (s : Session) : Session :=
  {| se_id := se_id s; se_parent_id := se_parent_id s; se_title := se_title s;
     se_created_at := se_created_at s; se_updated_at := se_updated_at s;
     se_messages := se_messages s; se_compaction := se_compaction s;
     se_provider_session_id := se_provider_session_id s; se_provider_key := se_provider_key s;
     se_model := se_model s; se_reasoning_effort := se_reasoning_effort s;
     se_subagent_model := se_subagent_model s; se_improve_mode := se_improve_mode s;
     se_autoreview_enabled := se_autoreview_enabled s;
     se_autojudge_enabled := se_autojudge_enabled s; se_is_canary := se_is_canary s;
     se_testing_build := se_testing_build s; se_working_dir := v;
     se_short_name := se_short_name s; se_status := se_status s; se_last_pid := se_last_pid s;
     se_last_active_at := se_last_active_at s; se_is_debug := se_is_debug s;
     se_saved := se_saved s; se_save_label := se_save_label s;
     se_env_snapshots := se_env_snapshots s; se_memory_injections := se_memory_injections s;
     se_replay_events := se_replay_events s; se_persist_state := se_persist_state s;
     se_provider_messages_cache := se_provider_messages_cache s;
     se_provider_message_prefix_hashes_cache := se_provider_message_prefix_hashes_cache s;
     se_provider_messages_cache_len := se_provider_messages_cache_len s;
     se_provider_messages_cache_mode := se_provider_messages_cache_mode s;
     se_memory_profile_cache := se_memory_profile_cache s;
     se_memory_profile_dirty := se_memory_profile_dirty s |}.

Definition se_set_is_canary (v : bool) (s : Session) : Session :=
  {| se_id := se_id s; se_parent_id := se_parent_id s; se_title := se_title s;
     se_created_at := se_created_at s; se_updated_at := se_updated_at s;
     se_messages := se_messages s; se_compaction := se_compaction s;
     se_provider_session_id := se_provider_session_id s; se_provider_key := se_provider_key s;
     se_model := se_model s; se_reasoning_effort := se_reasoning_effort s;
     se_subagent_model := se_subagent_model s; se_improve_mode := se_improve_mode s;
     se_autoreview_enabled := se_autoreview_enabled s;
     se_autojudge_enabled := se_autojudge_enabled s; se_is_canary := v;
     se_testing_build := se_testing_build s; se_working_dir := se_working_dir s;
     se_short_name := se_short_name s; se_status := se_status s; se_last_pid := se_last_pid s;
     se_last_active_at := se_last_active_at s; se_is_debug := se_is_debug s;
     se_saved := se_saved s; se_save_label := se_save_label s;
     se_env_snapshots := se_env_snapshots s; se_memory_injections := se_memory_injections s;
     se_replay_events := se_replay_events s; se_persist_state := se_persist_state s;
     se_provider_messages_cache := se_provider_messages_cache s;
     se_provider_message_prefix_hashes_cache := se_provider_message_prefix_hashes_cache s;
     se_provider_messages_cache_len := se_provider_messages_cache_len s;
     se_provider_messages_cache_mode := se_provider_messages_cache_mode s;
     se_memory_profile_cache := se_memory_profile_cache s;
     se_memory_profile_dirty := se_memory_profile_dirty s |}.

Definition se_set_testing_build (v : option string) (s : Session) : Session :=
  {| se_id := se_id s; se_parent_id := se_parent_id s; se_title := se_title s;
     se_created_at := se_created_at s; se_updated_at := se_updated_at s;
     se_messages := se_messages s; se_compaction := se_compaction s;
     se_provider_session_id := se_provider_session_id s; se_provider_key := se_provider_key s;
     se_model := se_model s; se_reasoning_effort := se_reasoning_effort s;
     se_subagent_model := se_subagent_model s; se_improve_mode := se_improve_mode s;
     se_autoreview_enabled := se_autoreview_enabled s;
     se_autojudge_enabled := se_autojudge_enabled s; se_is_canary := se_is_canary s;
     se_testing_build := v; se_working_dir := se_working_dir s; se_short_name := se_short_name s;
     se_status := se_status s; se_last_pid := se_last_pid s;
     se_last_active_at := se_last_active_at s; se_is_debug := se_is_debug s;
     se_saved := se_saved s; se_save_label := se_save_label s;
     se_env_snapshots := se_env_snapshots s; se_memory_injections := se_memory_injections s;
     se_replay_events := se_replay_events s; se_persist_state := se_persist_state s;
     se_provider_messages_cache := se_provider_messages_cache s;
     se_provider_message_prefix_hashes_cache := se_provider_message_prefix_hashes_cache s;
     se_provider_messages_cache_len := se_provider_messages_cache_len s;
     se_provider_messages_cache_mode := se_provider_messages_cache_mode s;
     se_memory_profile_cache := se_memory_profile_cache s;
     se_memory_profile_dirty := se_memory_profile_dirty s |}.

Definition se_set_status (v : SessionStatus) (s : Session) : Session :=
  {| se_id := se_id s; se_parent_id := se_parent_id s; se_title := se_title s;
     se_created_at := se_created_at s; se_updated_at := se_updated_at s;
     se_messages := se_messages s; se_compaction := se_compaction s;
     se_provider_session_id := se_provider_session_id s; se_provider_key := se_provider_key s;
     se_model := se_model s; se_reasoning_effort := se_reasoning_effort s;
     se_subagent_model := se_subagent_model s; se_improve_mode := se_improve_mode s;
     se_autoreview_enabled := se_autoreview_enabled s;
     se_autojudge_enabled := se_autojudge_enabled s; se_is_canary := se_is_canary s;
     se_testing_build := se_testing_build s; se_working_dir := se_working_dir s;
     se_short_name := se_short_name s; se_status := v; se_last_pid := se_last_pid s;
     se_last_active_at := se_last_active_at s; se_is_debug := se_is_debug s;
     se_saved := se_saved s; se_save_label := se_save_label s;
     se_env_snapshots := se_env_snapshots s; se_memory_injections := se_memory_injections s;
     se_replay_events := se_replay_events s; se_persist_state := se_persist_state s;
     se_provider_messages_cache := se_provider_messages_cache s;
     se_provider_message_prefix_hashes_cache := se_provider_message_prefix_hashes_cache s;
     se_provider_messages_cache_len := se_provider_messages_cache_len s;
     se_provider_messages_cache_mode := se_provider_messages_cache_mode s;
     se_memory_profile_cache := se_memory_profile_cache s;
     se_memory_profile_dirty := se_memory_profile_dirty s |}.

Definition se_set_last_pid (v : option u32) (s : Session) : Session :=
  {| se_id := se_id s; se_parent_id := se_parent_id s; se_title := se_title s;
     se_created_at := se_created_at s; se_updated_at := se_updated_at s;
     se_messages := se_messages s; se_compaction := se_compaction s;
     se_provider_session_id := se_provider_session_id s; se_provider_key := se_provider_key s;
     se_model := se_model s; se_reasoning_effort := se_reasoning_effort s;
     se_subagent_model := se_subagent_model s; se_improve_mode := se_improve_mode s;
     se_autoreview_enabled := se_autoreview_enabled s;
     se_autojudge_enabled := se_autojudge_enabled s; se_is_canary := se_is_canary s;
     se_testing_build := se_testing_build s; se_working_dir := se_working_dir s;
     se_short_name := se_short_name s; se_status := se_status s; se_last_pid := v;
     se_last_active_at := se_last_active_at s; se_is_debug := se_is_debug s;
     se_saved := se_saved s; se_save_label := se_save_label s;
     se_env_snapshots := se_env_snapshots s; se_memory_injections := se_memory_injections s;
     se_replay_events := se_replay_events s; se_persist_state := se_persist_state s;
     se_provider_messages_cache := se_provider_messages_cache s;
     se_provider_message_prefix_hashes_cache := se_provider_message_prefix_hashes_cache s;
     se_provider_messages_cache_len := se_provider_messages_cache_len s;
     se_provider_messages_cache_mode := se_provider_messages_cache_mode s;
     se_memory_profile_cache := se_memory_profile_cache s;
     se_memory_profile_dirty := se_memory_profile_dirty s |}.

Definition se_set_last_active_at (v : option datetime) (s : Session) : Session :=
  {| se_id := se_id s; se_parent_id := se_parent_id s; se_title := se_title s;
     se_created_at := se_created_at s; se_updated_at := se_updated_at s;
     se_messages := se_messages s; se_compaction := se_compaction s;
     se_provider_session_id := se_provider_session_id s; se_provider_key := se_provider_key s;
     se_model := se_model s; se_reasoning_effort := se_reasoning_effort s;
     se_subagent_model := se_subagent_model s; se_improve_mode := se_improve_mode s;
     se_autoreview_enabled := se_autoreview_enabled s;
     se_autojudge_enabled := se_autojudge_enabled s; se_is_canary := se_is_canary s;
     se_testing_build := se_testing_build s; se_working_dir := se_working_dir s;
     se_short_name := se_short_name s; se_status := se_status s; se_last_pid := se_last_pid s;
     se_last_active_at := v; se_is_debug := se_is_debug s; se_saved := se_saved s;
     se_save_label := se_save_label s; se_env_snapshots := se_env_snapshots s;
     se_memory_injections := se_memory_injections s; se_replay_events := se_replay_events s;
     se_persist_state := se_persist_state s;
     se_provider_messages_cache := se_provider_messages_cache s;
     se_provider_message_prefix_hashes_cache := se_provider_message_prefix_hashes_cache s;
     se_provider_messages_cache_len := se_provider_messages_cache_len s;
     se_provider_messages_cache_mode := se_provider_messages_cache_mode s;
     se_memory_profile_cache := se_memory_profile_cache s;
     se_memory_profile_dirty := se_memory_profile_dirty s |}.

Definition se_set_is_debug (v : bool) (s : Session) : Session :=
  {| se_id := se_id s; se_parent_id := se_parent_id s; se_title := se_title s;
     se_created_at := se_created_at s; se_updated_at := se_updated_at s;
     se_messages := se_messages s; se_compaction := se_compaction s;
     se_provider_session_id := se_provider_session_id s; se_provider_key := se_provider_key s;
     se_model := se_model s; se_reasoning_effort := se_reasoning_effort s;
     se_subagent_model := se_subagent_model s; se_improve_mode := se_improve_mode s;
     se_autoreview_enabled := se_autoreview_enabled s;
     se_autojudge_enabled := se_autojudge_enabled s; se_is_canary := se_is_canary s;
     se_testing_build := se_testing_build s; se_working_dir := se_working_dir s;
     se_short_name := se_short_name s; se_status := se_status s; se_last_pid := se_last_pid s;
     se_last_active_at := se_last_active_at s; se_is_debug := v; se_saved := se_saved s;
     se_save_label := se_save_label s; se_env_snapshots := se_env_snapshots s;
     se_memory_injections := se_memory_injections s; se_replay_events := se_replay_events s;
     se_persist_state := se_persist_state s;
     se_provider_messages_cache := se_provider_messages_cache s;
     se_provider_message_prefix_hashes_cache := se_provider_message_prefix_hashes_cache s;
     se_provider_messages_cache_len := se_provider_messages_cache_len s;
     se_provider_messages_cache_mode := se_provider_messages_cache_mode s;
     se_memory_profile_cache := se_memory_profile_cache s;
     se_memory_profile_dirty := se_memory_profile_dirty s |}.

Definition se_set_saved (v : bool) (s : Session) : Session :=
  {| se_id := se_id s; se_parent_id := se_parent_id s; se_title := se_title s;
     se_created_at := se_created_at s; se_updated_at := se_updated_at s;
     se_messages := se_messages s; se_compaction := se_compaction s;
     se_provider_session_id := se_provider_session_id s; se_provider_key := se_provider_key s;
     se_model := se_model s; se_reasoning_effort := se_reasoning_effort s;
     se_subagent_model := se_subagent_model s; se_improve_mode := se_improve_mode s;
     se_autoreview_enabled := se_autoreview_enabled s;
     se_autojudge_enabled := se_autojudge_enabled s; se_is_canary := se_is_canary s;
     se_testing_build := se_testing_build s; se_working_dir := se_working_dir s;
     se_short_name := se_short_name s; se_status := se_status s; se_last_pid := se_last_pid s;
     se_last_active_at := se_last_active_at s; se_is_debug := se_is_debug s; se_saved := v;
     se_save_label := se_save_label s; se_env_snapshots := se_env_snapshots s;
     se_memory_injections := se_memory_injections s; se_replay_events := se_replay_events s;
     se_persist_state := se_persist_state s;
     se_provider_messages_cache := se_provider_messages_cache s;
     se_provider_message_prefix_hashes_cache := se_provider_message_prefix_hashes_cache s;
     se_provider_messages_cache_len := se_provider_messages_cache_len s;
     se_provider_messages_cache_mode := se_provider_messages_cache_mode s;
     se_memory_profile_cache := se_memory_profile_cache s;
     se_memory_profile_dirty := se_memory_profile_dirty s |}.

Definition se_set_save_label (v : option string) (s : Session) : Session :=
  {| se_id := se_id s; se_parent_id := se_parent_id s; se_title := se_title s;
     se_created_at := se_created_at s; se_updated_at := se_updated_at s;
     se_messages := se_messages s; se_compaction := se_compaction s;
     se_provider_session_id := se_provider_session_id s; se_provider_key := se_provider_key s;
     se_model := se_model s; se_reasoning_effort := se_reasoning_effort s;
     se_subagent_model := se_subagent_model s; se_improve_mode := se_improve_mode s;
     se_autoreview_enabled := se_autoreview_enabled s;
     se_autojudge_enabled := se_autojudge_enabled s; se_is_canary := se_is_canary s;
     se_testing_build := se_testing_build s; se_working_dir := se_working_dir s;
     se_short_name := se_short_name s; se_status := se_status s; se_last_pid := se_last_pid s;
     se_last_active_at := se_last_active_at s; se_is_debug := se_is_debug s;
     se_saved := se_saved s; se_save_label := v; se_env_snapshots := se_env_snapshots s;
     se_memory_injections := se_memory_injections s; se_replay_events := se_replay_events s;
     se_persist_state := se_persist_state s;
     se_provider_messages_cache := se_provider_messages_cache s;
     se_provider_message_prefix_hashes_cache := se_provider_message_prefix_hashes_cache s;
     se_provider_messages_cache_len := se_provider_messages_cache_len s;
     se_provider_messages_cache_mode := se_provider_messages_cache_mode s;
     se_memory_profile_cache := se_memory_profile_cache s;
     se_memory_profile_dirty := se_memory_profile_dirty s |}.

Definition se_set_env_snapshots (v : list EnvSnapshot) (s : Session) : Session :=
  {| se_id := se_id s; se_parent_id := se_parent_id s; se_title := se_title s;
     se_created_at := se_created_at s; se_updated_at := se_updated_at s;
     se_messages := se_messages s; se_compaction := se_compaction s;
     se_provider_session_id := se_provider_session_id s; se_provider_key := se_provider_key s;
     se_model := se_model s; se_reasoning_effort := se_reasoning_effort s;
     se_subagent_model := se_subagent_model s; se_improve_mode := se_improve_mode s;
     se_autoreview_enabled := se_autoreview_enabled s;
     se_autojudge_enabled := se_autojudge_enabled s; se_is_canary := se_is_canary s;
     se_testing_build := se_testing_build s; se_working_dir := se_working_dir s;
     se_short_name := se_short_name s; se_status := se_status s; se_last_pid := se_last_pid s;
     se_last_active_at := se_last_active_at s; se_is_debug := se_is_debug s;
     se_saved := se_saved s; se_save_label := se_save_label s; se_env_snapshots := v;
     se_memory_injections := se_memory_injections s; se_replay_events := se_replay_events s;
     se_persist_state := se_persist_state s;
     se_provider_messages_cache := se_provider_messages_cache s;
     se_provider_message_prefix_hashes_cache := se_provider_message_prefix_hashes_cache s;
     se_provider_messages_cache_len := se_provider_messages_cache_len s;
     se_provider_messages_cache_mode := se_provider_messages_cache_mode s;
     se_memory_profile_cache := se_memory_profile_cache s;
     se_memory_profile_dirty := se_memory_profile_dirty s |}.

Definition se_set_memory_injections (v : list StoredMemoryInjection) (s : Session) : Session :=
  {| se_id := se_id s; se_parent_id := se_parent_id s; se_title := se_title s;
     se_created_at := se_created_at s; se_updated_at := se_updated_at s;
     se_messages := se_messages s; se_compaction := se_compaction s;
     se_provider_session_id := se_provider_session_id s; se_provider_key := se_provider_key s;
     se_model := se_model s; se_reasoning_effort := se_reasoning_effort s;
     se_subagent_model := se_subagent_model s; se_improve_mode := se_improve_mode s;
     se_autoreview_enabled := se_autoreview_enabled s;
     se_autojudge_enabled := se_autojudge_enabled s; se_is_canary := se_is_canary s;
     se_testing_build := se_testing_build s; se_working_dir := se_working_dir s;
     se_short_name := se_short_name s; se_status := se_status s; se_last_pid := se_last_pid s;
     se_last_active_at := se_last_active_at s; se_is_debug := se_is_debug s;
     se_saved := se_saved s; se_save_label := se_save_label s;
     se_env_snapshots := se_env_snapshots s; se_memory_injections := v;
     se_replay_events := se_replay_events s; se_persist_state := se_persist_state s;
     se_provider_messages_cache := se_provider_messages_cache s;
     se_provider_message_prefix_hashes_cache := se_provider_message_prefix_hashes_cache s;
     se_provider_messages_cache_len := se_provider_messages_cache_len s;
     se_provider_messages_cache_mode := se_provider_messages_cache_mode s;
     se_memory_profile_cache := se_memory_profile_cache s;
     se_memory_profile_dirty := se_memory_profile_dirty s |}.

Definition se_set_replay_events (v : list StoredReplayEvent) (s : Session) : Session :=
  {| se_id := se_id s; se_parent_id := se_parent_id s; se_title := se_title s;
     se_created_at := se_created_at s; se_updated_at := se_updated_at s;
     se_messages := se_messages s; se_compaction := se_compaction s;
     se_provider_session_id := se_provider_session_id s; se_provider_key := se_provider_key s;
     se_model := se_model s; se_reasoning_effort := se_reasoning_effort s;
     se_subagent_model := se_subagent_model s; se_improve_mode := se_improve_mode s;
     se_autoreview_enabled := se_autoreview_enabled s;
     se_autojudge_enabled := se_autojudge_enabled s; se_is_canary := se_is_canary s;
     se_testing_build := se_testing_build s; se_working_dir := se_working_dir s;
     se_short_name := se_short_name s; se_status := se_status s; se_last_pid := se_last_pid s;
     se_last_active_at := se_last_active_at s; se_is_debug := se_is_debug s;
     se_saved := se_saved s; se_save_label := se_save_label s;
     se_env_snapshots := se_env_snapshots s; se_memory_injections := se_memory_injections s;
     se_replay_events := v; se_persist_state := se_persist_state s;
     se_provider_messages_cache := se_provider_messages_cache s;
     se_provider_message_prefix_hashes_cache := se_provider_message_prefix_hashes_cache s;
     se_provider_messages_cache_len := se_provider_messages_cache_len s;
     se_provider_messages_cache_mode := se_provider_messages_cache_mode s;
     se_memory_profile_cache := se_memory_profile_cache s;
     se_memory_profile_dirty := se_memory_profile_dirty s |}.

Definition se_set_persist_state (v : SessionPersistState) (s : Session) : Session :=
  {| se_id := se_id s; se_parent_id := se_parent_id s; se_title := se_title s;
     se_created_at := se_created_at s; se_updated_at := se_updated_at s;
     se_messages := se_messages s; se_compaction := se_compaction s;
     se_provider_session_id := se_provider_session_id s; se_provider_key := se_provider_key s;
     se_model := se_model s; se_reasoning_effort := se_reasoning_effort s;
     se_subagent_model := se_subagent_model s; se_improve_mode := se_improve_mode s;
     se_autoreview_enabled := se_autoreview_enabled s;
     se_autojudge_enabled := se_autojudge_enabled s; se_is_canary := se_is_canary s;
     se_testing_build := se_testing_build s; se_working_dir := se_working_dir s;
     se_short_name := se_short_name s; se_status := se_status s; se_last_pid := se_last_pid s;
     se_last_active_at := se_last_active_at s; se_is_debug := se_is_debug s;
     se_saved := se_saved s; se_save_label := se_save_label s;
     se_env_snapshots := se_env_snapshots s; se_memory_injections := se_memory_injections s;
     se_replay_events := se_replay_events s; se_persist_state := v;
     se_provider_messages_cache := se_provider_messages_cache s;
     se_provider_message_prefix_hashes_cache := se_provider_message_prefix_hashes_cache s;
     se_provider_messages_cache_len := se_provider_messages_cache_len s;
     se_provider_messages_cache_mode := se_provider_messages_cache_mode s;
     se_memory_profile_cache := se_memory_profile_cache s;
     se_memory_profile_dirty := se_memory_profile_dirty s |}.

Definition se_set_provider_messages_cache (v : list Message) (s : Session) : Session :=
  {| se_id := se_id s; se_parent_id := se_parent_id s; se_title := se_title s;
     se_created_at := se_created_at s; se_updated_at := se_updated_at s;
     se_messages := se_messages s; se_compaction := se_compaction s;
     se_provider_session_id := se_provider_session_id s; se_provider_key := se_provider_key s;
     se_model := se_model s; se_reasoning_effort := se_reasoning_effort s;
     se_subagent_model := se_subagent_model s; se_improve_mode := se_improve_mode s;
     se_autoreview_enabled := se_autoreview_enabled s;
     se_autojudge_enabled := se_autojudge_enabled s; se_is_canary := se_is_canary s;
     se_testing_build := se_testing_build s; se_working_dir := se_working_dir s;
     se_short_name := se_short_name s; se_status := se_status s; se_last_pid := se_last_pid s;
     se_last_active_at := se_last_active_at s; se_is_debug := se_is_debug s;
     se_saved := se_saved s; se_save_label := se_save_label s;
     se_env_snapshots := se_env_snapshots s; se_memory_injections := se_memory_injections s;
     se_replay_events := se_replay_events s; se_persist_state := se_persist_state s;
     se_provider_messages_cache := v;
     se_provider_message_prefix_hashes_cache := se_provider_message_prefix_hashes_cache s;
     se_provider_messages_cache_len := se_provider_messages_cache_len s;
     se_provider_messages_cache_mode := se_provider_messages_cache_mode s;
     se_memory_profile_cache := se_memory_profile_cache s;
     se_memory_profile_dirty := se_memory_profile_dirty s |}.

Definition se_set_provider_message_prefix_hashes_cache (v : list u64) (s : Session) : Session :=
  {| se_id := se_id s; se_parent_id := se_parent_id s; se_title := se_title s;
     se_created_at := se_created_at s; se_updated_at := se_updated_at s;
     se_messages := se_messages s; se_compaction := se_compaction s;
     se_provider_session_id := se_provider_session_id s; se_provider_key := se_provider_key s;
     se_model := se_model s; se_reasoning_effort := se_reasoning_effort s;
     se_subagent_model := se_subagent_model s; se_improve_mode := se_improve_mode s;
     se_autoreview_enabled := se_autoreview_enabled s;
     se_autojudge_enabled := se_autojudge_enabled s; se_is_canary := se_is_canary s;
     se_testing_build := se_testing_build s; se_working_dir := se_working_dir s;
     se_short_name := se_short_name s; se_status := se_status s; se_last_pid := se_last_pid s;
     se_last_active_at := se_last_active_at s; se_is_debug := se_is_debug s;
     se_saved := se_saved s; se_save_label := se_save_label s;
     se_env_snapshots := se_env_snapshots s; se_memory_injections := se_memory_injections s;
     se_replay_events := se_replay_events s; se_persist_state := se_persist_state s;
     se_provider_messages_cache := se_provider_messages_cache s;
     se_provider_message_prefix_hashes_cache := v;
     se_provider_messages_cache_len := se_provider_messages_cache_len s;
     se_provider_messages_cache_mode := se_provider_messages_cache_mode s;
     se_memory_profile_cache := se_memory_profile_cache s;
     se_memory_profile_dirty := se_memory_profile_dirty s |}.

Definition se_set_provider_messages_cache_len (v : usize) (s : Session) : Session :=
  {| se_id := se_id s; se_parent_id := se_parent_id s; se_title := se_title s;
     se_created_at := se_created_at s; se_updated_at := se_updated_at s;
     se_messages := se_messages s; se_compaction := se_compaction s;
     se_provider_session_id := se_provider_session_id s; se_provider_key := se_provider_key s;
     se_model := se_model s; se_reasoning_effort := se_reasoning_effort s;
     se_subagent_model := se_subagent_model s; se_improve_mode := se_improve_mode s;
     se_autoreview_enabled := se_autoreview_enabled s;
     se_autojudge_enabled := se_autojudge_enabled s; se_is_canary := se_is_canary s;
     se_testing_build := se_testing_build s; se_working_dir := se_working_dir s;
     se_short_name := se_short_name s; se_status := se_status s; se_last_pid := se_last_pid s;
     se_last_active_at := se_last_active_at s; se_is_debug := se_is_debug s;
     se_saved := se_saved s; se_save_label := se_save_label s;
     se_env_snapshots := se_env_snapshots s; se_memory_injections := se_memory_injections s;
     se_replay_events := se_replay_events s; se_persist_state := se_persist_state s;
     se_provider_messages_cache := se_provider_messages_cache s;
     se_provider_message_prefix_hashes_cache := se_provider_message_prefix_hashes_cache s;
     se_provider_messages_cache_len := v;
     se_provider_messages_cache_mode := se_provider_messages_cache_mode s;
     se_memory_profile_cache := se_memory_profile_cache s;
     se_memory_profile_dirty := se_memory_profile_dirty s |}.

Definition se_set_provider_messages_cache_mode (v : PersistVectorMode) (s : Session) : Session :=
  {| se_id := se_id s; se_parent_id := se_parent_id s; se_title := se_title s;
     se_created_at := se_created_at s; se_updated_at := se_updated_at s;
     se_messages := se_messages s; se_compaction := se_compaction s;
     se_provider_session_id := se_provider_session_id s; se_provider_key := se_provider_key s;
     se_model := se_model s; se_reasoning_effort := se_reasoning_effort s;
     se_subagent_model := se_subagent_model s; se_improve_mode := se_improve_mode s;
     se_autoreview_enabled := se_autoreview_enabled s;
     se_autojudge_enabled := se_autojudge_enabled s; se_is_canary := se_is_canary s;
     se_testing_build := se_testing_build s; se_working_dir := se_working_dir s;
     se_short_name := se_short_name s; se_status := se_status s; se_last_pid := se_last_pid s;
     se_last_active_at := se_last_active_at s; se_is_debug := se_is_debug s;
     se_saved := se_saved s; se_save_label := se_save_label s;
     se_env_snapshots := se_env_snapshots s; se_memory_injections := se_memory_injections s;
     se_replay_events := se_replay_events s; se_persist_state := se_persist_state s;
     se_provider_messages_cache := se_provider_messages_cache s;
     se_provider_message_prefix_hashes_cache := se_provider_message_prefix_hashes_cache s;
     se_provider_messages_cache_len := se_provider_messages_cache_len s;
     se_provider_messages_cache_mode := v; se_memory_profile_cache := se_memory_profile_cache s;
     se_memory_profile_dirty := se_memory_profile_dirty s |}.

Definition se_set_memory_profile_cache (v : SessionMemoryProfileCache) (s : Session) : Session :=
  {| se_id := se_id s; se_parent_id := se_parent_id s; se_title := se_title s;
     se_created_at := se_created_at s; se_updated_at := se_updated_at s;
     se_messages := se_messages s; se_compaction := se_compaction s;
     se_provider_session_id := se_provider_session_id s; se_provider_key := se_provider_key s;
     se_model := se_model s; se_reasoning_effort := se_reasoning_effort s;
     se_subagent_model := se_subagent_model s; se_improve_mode := se_improve_mode s;
     se_autoreview_enabled := se_autoreview_enabled s;
     se_autojudge_enabled := se_autojudge_enabled s; se_is_canary := se_is_canary s;
     se_testing_build := se_testing_build s; se_working_dir := se_working_dir s;
     se_short_name := se_short_name s; se_status := se_status s; se_last_pid := se_last_pid s;
     se_last_active_at := se_last_active_at s; se_is_debug := se_is_debug s;
     se_saved := se_saved s; se_save_label := se_save_label s;
     se_env_snapshots := se_env_snapshots s; se_memory_injections := se_memory_injections s;
     se_replay_events := se_replay_events s; se_persist_state := se_persist_state s;
     se_provider_messages_cache := se_provider_messages_cache s;
     se_provider_message_prefix_hashes_cache := se_provider_message_prefix_hashes_cache s;
     se_provider_messages_cache_len := se_provider_messages_cache_len s;
     se_provider_messages_cache_mode := se_provider_messages_cache_mode s;
     se_memory_profile_cache := v; se_memory_profile_dirty := se_memory_profile_dirty s |}.

Definition se_set_memory_profile_dirty (v : bool) (s : Session) : Session :=
  {| se_id := se_id s; se_parent_id := se_parent_id s; se_title := se_title s;
     se_created_at := se_created_at s; se_updated_at := se_updated_at s;
     se_messages := se_messages s; se_compaction := se_compaction s;
     se_provider_session_id := se_provider_session_id s; se_provider_key := se_provider_key s;
     se_model := se_model s; se_reasoning_effort := se_reasoning_effort s;
     se_subagent_model := se_subagent_model s; se_improve_mode := se_improve_mode s;
     se_autoreview_enabled := se_autoreview_enabled s;
     se_autojudge_enabled := se_autojudge_enabled s; se_is_canary := se_is_canary s;
     se_testing_build := se_testing_build s; se_working_dir := se_working_dir s;
     se_short_name := se_short_name s; se_status := se_status s; se_last_pid := se_last_pid s;
     se_last_active_at := se_last_active_at s; se_is_debug := se_is_debug s;
     se_saved := se_saved s; se_save_label := se_save_label s;
     se_env_snapshots := se_env_snapshots s; se_memory_injections := se_memory_injections s;
     se_replay_events := se_replay_events s; se_persist_state := se_persist_state s;
     se_provider_messages_cache := se_provider_messages_cache s;
     se_provider_message_prefix_hashes_cache := se_provider_message_prefix_hashes_cache s;
     se_provider_messages_cache_len := se_provider_messages_cache_len s;
     se_provider_messages_cache_mode := se_provider_messages_cache_mode s;
     se_memory_profile_cache := se_memory_profile_cache s; se_memory_profile_dirty := v |}.

Definition se_set_provider_key (v : option string) (s : Session) : Session :=
  {| se_id := se_id s; se_parent_id := se_parent_id s; se_title := se_title s;
     se_created_at := se_created_at s; se_updated_at := se_updated_at s;
     se_messages := se_messages s; se_compaction := se_compaction s;
     se_provider_session_id := se_provider_session_id s; se_provider_key := v;
     se_model := se_model s; se_reasoning_effort := se_reasoning_effort s;
     se_subagent_model := se_subagent_model s; se_improve_mode := se_improve_mode s;
     se_autoreview_enabled := se_autoreview_enabled s;
     se_autojudge_enabled := se_autojudge_enabled s; se_is_canary := se_is_canary s;
     se_testing_build := se_testing_build s; se_working_dir := se_working_dir s;
     se_short_name := se_short_name s; se_status := se_status s; se_last_pid := se_last_pid s;
     se_last_active_at := se_last_active_at s; se_is_debug := se_is_debug s;
     se_saved := se_saved s; se_save_label := se_save_label s;
     se_env_snapshots := se_env_snapshots s; se_memory_injections := se_memory_injections s;
     se_replay_events := se_replay_events s; se_persist_state := se_persist_state s;
     se_provider_messages_cache := se_provider_messages_cache s;
     se_provider_message_prefix_hashes_cache := se_provider_message_prefix_hashes_cache s;
     se_provider_messages_cache_len := se_provider_messages_cache_len s;
     se_provider_messages_cache_mode := se_provider_messages_cache_mode s;
     se_memory_profile_cache := se_memory_profile_cache s;
     se_memory_profile_dirty := se_memory_profile_dirty s |}.

Definition se_set_model (v : option string) (s : Session) : Session :=
  {| se_id := se_id s; se_parent_id := se_parent_id s; se_title := se_title s;
     se_created_at := se_created_at s; se_updated_at := se_updated_at s;
     se_messages := se_messages s; se_compaction := se_compaction s;
     se_provider_session_id := se_provider_session_id s; se_provider_key := se_provider_key s;
     se_model := v; se_reasoning_effort := se_reasoning_effort s;
     se_subagent_model := se_subagent_model s; se_improve_mode := se_improve_mode s;
     se_autoreview_enabled := se_autoreview_enabled s;
     se_autojudge_enabled := se_autojudge_enabled s; se_is_canary := se_is_canary s;
     se_testing_build := se_testing_build s; se_working_dir := se_working_dir s;
     se_short_name := se_short_name s; se_status := se_status s; se_last_pid := se_last_pid s;
     se_last_active_at := se_last_active_at s; se_is_debug := se_is_debug s;
     se_saved := se_saved s; se_save_label := se_save_label s;
     se_env_snapshots := se_env_snapshots s; se_memory_injections := se_memory_injections s;
     se_replay_events := se_replay_events s; se_persist_state := se_persist_state s;
     se_provider_messages_cache := se_provider_messages_cache s;
     se_provider_message_prefix_hashes_cache := se_provider_message_prefix_hashes_cache s;
     se_provider_messages_cache_len := se_provider_messages_cache_len s;
     se_provider_messages_cache_mode := se_provider_messages_cache_mode s;
     se_memory_profile_cache := se_memory_profile_cache s;
     se_memory_profile_dirty := se_memory_profile_dirty s |}.

Definition se_set_improve_mode (v : option SessionImproveMode) (s : Session) : Session :=
  {| se_id := se_id s; se_parent_id := se_parent_id s; se_title := se_title s;
     se_created_at := se_created_at s; se_updated_at := se_updated_at s;
     se_messages := se_messages s; se_compaction := se_compaction s;
     se_provider_session_id := se_provider_session_id s; se_provider_key := se_provider_key s;
     se_model := se_model s; se_reasoning_effort := se_reasoning_effort s;
     se_subagent_model := se_subagent_model s; se_improve_mode := v;
     se_autoreview_enabled := se_autoreview_enabled s;
     se_autojudge_enabled := se_autojudge_enabled s; se_is_canary := se_is_canary s;
     se_testing_build := se_testing_build s; se_working_dir := se_working_dir s;
     se_short_name := se_short_name s; se_status := se_status s; se_last_pid := se_last_pid s;
     se_last_active_at := se_last_active_at s; se_is_debug := se_is_debug s;
     se_saved := se_saved s; se_save_label := se_save_label s;
     se_env_snapshots := se_env_snapshots s; se_memory_injections := se_memory_injections s;
     se_replay_events := se_replay_events s; se_persist_state := se_persist_state s;
     se_provider_messages_cache := se_provider_messages_cache s;
     se_provider_message_prefix_hashes_cache := se_provider_message_prefix_hashes_cache s;
     se_provider_messages_cache_len := se_provider_messages_cache_len s;
     se_provider_messages_cache_mode := se_provider_messages_cache_mode s;
     se_memory_profile_cache := se_memory_profile_cache s;
     se_memory_profile_dirty := se_memory_profile_dirty s |}.

Definition se_set_provider_session_id (v : option string) (s : Session) : Session :=
  {| se_id := se_id s; se_parent_id := se_parent_id s; se_title := se_title s;
     se_created_at := se_created_at s; se_updated_at := se_updated_at s;
     se_messages := se_messages s; se_compaction := se_compaction s; se_provider_session_id := v;
     se_provider_key := se_provider_key s; se_model := se_model s;
     se_reasoning_effort := se_reasoning_effort s; se_subagent_model := se_subagent_model s;
     se_improve_mode := se_improve_mode s; se_autoreview_enabled := se_autoreview_enabled s;
     se_autojudge_enabled := se_autojudge_enabled s; se_is_canary := se_is_canary s;
     se_testing_build := se_testing_build s; se_working_dir := se_working_dir s;
     se_short_name := se_short_name s; se_status := se_status s; se_last_pid := se_last_pid s;
     se_last_active_at := se_last_active_at s; se_is_debug := se_is_debug s;
     se_saved := se_saved s; se_save_label := se_save_label s;
     se_env_snapshots := se_env_snapshots s; se_memory_injections := se_memory_injections s;
     se_replay_events := se_replay_events s; se_persist_state := se_persist_state s;
     se_provider_messages_cache := se_provider_messages_cache s;
     se_provider_message_prefix_hashes_cache := se_provider_message_prefix_hashes_cache s;
     se_provider_messages_cache_len := se_provider_messages_cache_len s;
     se_provider_messages_cache_mode := se_provider_messages_cache_mode s;
     se_memory_profile_cache := se_memory_profile_cache s;
     se_memory_profile_dirty := se_memory_profile_dirty s |}.

End session.

(** *** Assignments to the profile and the state of persistence *)

Definition mp_set_messages_count (v : usize) (p : SessionMemoryProfileCache) : SessionMemoryProfileCache :=
  {| mp_messages_count := v; mp_messages_json_bytes := mp_messages_json_bytes p;
     mp_message_stats := mp_message_stats p; mp_env_snapshots_count := mp_env_snapshots_count p;
     mp_env_snapshots_json_bytes := mp_env_snapshots_json_bytes p;
     mp_memory_injections_count := mp_memory_injections_count p;
     mp_memory_injections_json_bytes := mp_memory_injections_json_bytes p;
     mp_replay_events_count := mp_replay_events_count p;
     mp_replay_events_json_bytes := mp_replay_events_json_bytes p;
     mp_provider_cache_count := mp_provider_cache_count p;
     mp_provider_cache_json_bytes := mp_provider_cache_json_bytes p;
     mp_provider_cache_stats := mp_provider_cache_stats p |}.

Definition mp_set_messages_json_bytes (v : usize) (p : SessionMemoryProfileCache) : SessionMemoryProfileCache :=
  {| mp_messages_count := mp_messages_count p; mp_messages_json_bytes := v;
     mp_message_stats := mp_message_stats p; mp_env_snapshots_count := mp_env_snapshots_count p;
     mp_env_snapshots_json_bytes := mp_env_snapshots_json_bytes p;
     mp_memory_injections_count := mp_memory_injections_count p;
     mp_memory_injections_json_bytes := mp_memory_injections_json_bytes p;
     mp_replay_events_count := mp_replay_events_count p;
     mp_replay_events_json_bytes := mp_replay_events_json_bytes p;
     mp_provider_cache_count := mp_provider_cache_count p;
     mp_provider_cache_json_bytes := mp_provider_cache_json_bytes p;
     mp_provider_cache_stats := mp_provider_cache_stats p |}.

Definition mp_set_message_stats (v : ContentBlockMemoryStats) (p : SessionMemoryProfileCache) : SessionMemoryProfileCache :=
  {| mp_messages_count := mp_messages_count p;
     mp_messages_json_bytes := mp_messages_json_bytes p; mp_message_stats := v;
     mp_env_snapshots_count := mp_env_snapshots_count p;
     mp_env_snapshots_json_bytes := mp_env_snapshots_json_bytes p;
     mp_memory_injections_count := mp_memory_injections_count p;
     mp_memory_injections_json_bytes := mp_memory_injections_json_bytes p;
     mp_replay_events_count := mp_replay_events_count p;
     mp_replay_events_json_bytes := mp_replay_events_json_bytes p;
     mp_provider_cache_count := mp_provider_cache_count p;
     mp_provider_cache_json_bytes := mp_provider_cache_json_bytes p;
     mp_provider_cache_stats := mp_provider_cache_stats p |}.

Definition mp_set_env_snapshots_count (v : usize) (p : SessionMemoryProfileCache) : SessionMemoryProfileCache :=
  {| mp_messages_count := mp_messages_count p;
     mp_messages_json_bytes := mp_messages_json_bytes p; mp_message_stats := mp_message_stats p;
     mp_env_snapshots_count := v; mp_env_snapshots_json_bytes := mp_env_snapshots_json_bytes p;
     mp_memory_injections_count := mp_memory_injections_count p;
     mp_memory_injections_json_bytes := mp_memory_injections_json_bytes p;
     mp_replay_events_count := mp_replay_events_count p;
     mp_replay_events_json_bytes := mp_replay_events_json_bytes p;
     mp_provider_cache_count := mp_provider_cache_count p;
     mp_provider_cache_json_bytes := mp_provider_cache_json_bytes p;
     mp_provider_cache_stats := mp_provider_cache_stats p |}.

Definition mp_set_env_snapshots_json_bytes (v : usize) (p : SessionMemoryProfileCache) : SessionMemoryProfileCache :=
  {| mp_messages_count := mp_messages_count p;
     mp_messages_json_bytes := mp_messages_json_bytes p; mp_message_stats := mp_message_stats p;
     mp_env_snapshots_count := mp_env_snapshots_count p; mp_env_snapshots_json_bytes := v;
     mp_memory_injections_count := mp_memory_injections_count p;
     mp_memory_injections_json_bytes := mp_memory_injections_json_bytes p;
     mp_replay_events_count := mp_replay_events_count p;
     mp_replay_events_json_bytes := mp_replay_events_json_bytes p;
     mp_provider_cache_count := mp_provider_cache_count p;
     mp_provider_cache_json_bytes := mp_provider_cache_json_bytes p;
     mp_provider_cache_stats := mp_provider_cache_stats p |}.

Definition mp_set_memory_injections_count (v : usize) (p : SessionMemoryProfileCache) : SessionMemoryProfileCache :=
  {| mp_messages_count := mp_messages_count p;
     mp_messages_json_bytes := mp_messages_json_bytes p; mp_message_stats := mp_message_stats p;
     mp_env_snapshots_count := mp_env_snapshots_count p;
     mp_env_snapshots_json_bytes := mp_env_snapshots_json_bytes p;
     mp_memory_injections_count := v;
     mp_memory_injections_json_bytes := mp_memory_injections_json_bytes p;
     mp_replay_events_count := mp_replay_events_count p;
     mp_replay_events_json_bytes := mp_replay_events_json_bytes p;
     mp_provider_cache_count := mp_provider_cache_count p;
     mp_provider_cache_json_bytes := mp_provider_cache_json_bytes p;
     mp_provider_cache_stats := mp_provider_cache_stats p |}.

Definition mp_set_memory_injections_json_bytes (v : usize) (p : SessionMemoryProfileCache) : SessionMemoryProfileCache :=
  {| mp_messages_count := mp_messages_count p;
     mp_messages_json_bytes := mp_messages_json_bytes p; mp_message_stats := mp_message_stats p;
     mp_env_snapshots_count := mp_env_snapshots_count p;
     mp_env_snapshots_json_bytes := mp_env_snapshots_json_bytes p;
     mp_memory_injections_count := mp_memory_injections_count p;
     mp_memory_injections_json_bytes := v; mp_replay_events_count := mp_replay_events_count p;
     mp_replay_events_json_bytes := mp_replay_events_json_bytes p;
     mp_provider_cache_count := mp_provider_cache_count p;
     mp_provider_cache_json_bytes := mp_provider_cache_json_bytes p;
     mp_provider_cache_stats := mp_provider_cache_stats p |}.

Definition mp_set_replay_events_count (v : usize) (p : SessionMemoryProfileCache) : SessionMemoryProfileCache :=
  {| mp_messages_count := mp_messages_count p;
     mp_messages_json_bytes := mp_messages_json_bytes p; mp_message_stats := mp_message_stats p;
     mp_env_snapshots_count := mp_env_snapshots_count p;
     mp_env_snapshots_json_bytes := mp_env_snapshots_json_bytes p;
     mp_memory_injections_count := mp_memory_injections_count p;
     mp_memory_injections_json_bytes := mp_memory_injections_json_bytes p;
     mp_replay_events_count := v; mp_replay_events_json_bytes := mp_replay_events_json_bytes p;
     mp_provider_cache_count := mp_provider_cache_count p;
     mp_provider_cache_json_bytes := mp_provider_cache_json_bytes p;
     mp_provider_cache_stats := mp_provider_cache_stats p |}.

Definition mp_set_replay_events_json_bytes (v : usize) (p : SessionMemoryProfileCache) : SessionMemoryProfileCache :=
  {| mp_messages_count := mp_messages_count p;
     mp_messages_json_bytes := mp_messages_json_bytes p; mp_message_stats := mp_message_stats p;
     mp_env_snapshots_count := mp_env_snapshots_count p;
     mp_env_snapshots_json_bytes := mp_env_snapshots_json_bytes p;
     mp_memory_injections_count := mp_memory_injections_count p;
     mp_memory_injections_json_bytes := mp_memory_injections_json_bytes p;
     mp_replay_events_count := mp_replay_events_count p; mp_replay_events_json_bytes := v;
     mp_provider_cache_count := mp_provider_cache_count p;
     mp_provider_cache_json_bytes := mp_provider_cache_json_bytes p;
     mp_provider_cache_stats := mp_provider_cache_stats p |}.

Definition mp_set_provider_cache_count (v : usize) (p : SessionMemoryProfileCache) : SessionMemoryProfileCache :=
  {| mp_messages_count := mp_messages_count p;
     mp_messages_json_bytes := mp_messages_json_bytes p; mp_message_stats := mp_message_stats p;
     mp_env_snapshots_count := mp_env_snapshots_count p;
     mp_env_snapshots_json_bytes := mp_env_snapshots_json_bytes p;
     mp_memory_injections_count := mp_memory_injections_count p;
     mp_memory_injections_json_bytes := mp_memory_injections_json_bytes p;
     mp_replay_events_count := mp_replay_events_count p;
     mp_replay_events_json_bytes := mp_replay_events_json_bytes p; mp_provider_cache_count := v;
     mp_provider_cache_json_bytes := mp_provider_cache_json_bytes p;
     mp_provider_cache_stats := mp_provider_cache_stats p |}.

Definition mp_set_provider_cache_json_bytes (v : usize) (p : SessionMemoryProfileCache) : SessionMemoryProfileCache :=
  {| mp_messages_count := mp_messages_count p;
     mp_messages_json_bytes := mp_messages_json_bytes p; mp_message_stats := mp_message_stats p;
     mp_env_snapshots_count := mp_env_snapshots_count p;
     mp_env_snapshots_json_bytes := mp_env_snapshots_json_bytes p;
     mp_memory_injections_count := mp_memory_injections_count p;
     mp_memory_injections_json_bytes := mp_memory_injections_json_bytes p;
     mp_replay_events_count := mp_replay_events_count p;
     mp_replay_events_json_bytes := mp_replay_events_json_bytes p;
     mp_provider_cache_count := mp_provider_cache_count p; mp_provider_cache_json_bytes := v;
     mp_provider_cache_stats := mp_provider_cache_stats p |}.

Definition mp_set_provider_cache_stats (v : ContentBlockMemoryStats) (p : SessionMemoryProfileCache) : SessionMemoryProfileCache :=
  {| mp_messages_count := mp_messages_count p;
     mp_messages_json_bytes := mp_messages_json_bytes p; mp_message_stats := mp_message_stats p;
     mp_env_snapshots_count := mp_env_snapshots_count p;
     mp_env_snapshots_json_bytes := mp_env_snapshots_json_bytes p;
     mp_memory_injections_count := mp_memory_injections_count p;
     mp_memory_injections_json_bytes := mp_memory_injections_json_bytes p;
     mp_replay_events_count := mp_replay_events_count p;
     mp_replay_events_json_bytes := mp_replay_events_json_bytes p;
     mp_provider_cache_count := mp_provider_cache_count p;
     mp_provider_cache_json_bytes := mp_provider_cache_json_bytes p;
     mp_provider_cache_stats := v |}.

Definition ps_set_messages_mode (v : PersistVectorMode) (p : SessionPersistState) : SessionPersistState :=
  {| ps_snapshot_exists := ps_snapshot_exists p; ps_messages_len := ps_messages_len p;
     ps_env_snapshots_len := ps_env_snapshots_len p;
     ps_memory_injections_len := ps_memory_injections_len p;
     ps_replay_events_len := ps_replay_events_len p; ps_messages_mode := v;
     ps_env_snapshots_mode := ps_env_snapshots_mode p;
     ps_memory_injections_mode := ps_memory_injections_mode p;
     ps_replay_events_mode := ps_replay_events_mode p; ps_last_meta := ps_last_meta p |}.

Definition ps_set_env_snapshots_mode (v : PersistVectorMode) (p : SessionPersistState) : SessionPersistState :=
  {| ps_snapshot_exists := ps_snapshot_exists p; ps_messages_len := ps_messages_len p;
     ps_env_snapshots_len := ps_env_snapshots_len p;
     ps_memory_injections_len := ps_memory_injections_len p;
     ps_replay_events_len := ps_replay_events_len p; ps_messages_mode := ps_messages_mode p;
     ps_env_snapshots_mode := v; ps_memory_injections_mode := ps_memory_injections_mode p;
     ps_replay_events_mode := ps_replay_events_mode p; ps_last_meta := ps_last_meta p |}.

Definition ps_set_memory_injections_mode (v : PersistVectorMode) (p : SessionPersistState) : SessionPersistState :=
  {| ps_snapshot_exists := ps_snapshot_exists p; ps_messages_len := ps_messages_len p;
     ps_env_snapshots_len := ps_env_snapshots_len p;
     ps_memory_injections_len := ps_memory_injections_len p;
     ps_replay_events_len := ps_replay_events_len p; ps_messages_mode := ps_messages_mode p;
     ps_env_snapshots_mode := ps_env_snapshots_mode p; ps_memory_injections_mode := v;
     ps_replay_events_mode := ps_replay_events_mode p; ps_last_meta := ps_last_meta p |}.

Definition ps_set_replay_events_mode (v : PersistVectorMode) (p : SessionPersistState) : SessionPersistState :=
  {| ps_snapshot_exists := ps_snapshot_exists p; ps_messages_len := ps_messages_len p;
     ps_env_snapshots_len := ps_env_snapshots_len p;
     ps_memory_injections_len := ps_memory_injections_len p;
     ps_replay_events_len := ps_replay_events_len p; ps_messages_mode := ps_messages_mode p;
     ps_env_snapshots_mode := ps_env_snapshots_mode p;
     ps_memory_injections_mode := ps_memory_injections_mode p; ps_replay_events_mode := v;
     ps_last_meta := ps_last_meta p |}.
