(* ===== verification/SessionOps.v ===== *)
(** * The operations of a session ([src/session.rs])

    Creation, metadata, the transcript and its visible part, the events kept
    for replay, the messages converted for the provider and the memory profile.
    [Utc::now()], the environment of the process and fresh identifiers are
    arguments; the operations that touch files are in [SessionStore.v]. *)

From S2P Require Import Prelude Utf8 Text Messages SwarmPlan SessionTypes SessionProfile SessionState.
Open Scope nat_scope.

(** What [create] reads of the process: its directory, its id and the flag of
    test sessions. *)
Record ProcessEnv := {
  pe_working_dir : option string;
  pe_test_session : bool;
  pe_pid : u32;
}.

(** [crate::prompt::build_session_context] *)
Class SessionContextText := build_session_context : option string → string.

Definition MAX_ENV_SNAPSHOTS : usize := 8.

(** ** Names and keys *)

(** [gcode_core::id::extract_session_name] *)
Definition extract_session_name (session_id : string) : option string :=
  match strip_prefix "session_" session_id with
  | Some rest => (λ pos, str_take pos rest) <$> str_find "_" rest
  | None => None
  end.

(** The values of [GCODE_OPENROUTER_CACHE_NAMESPACE] and [GCODE_ACTIVE_PROVIDER]. *)
Definition derive_session_provider_key (namespace active : option string)
    (provider_name : string) : option string :=
  let normalized_name := ascii_lowercase (trim provider_name) in
  if normalized_name =s "gcode" then Some "gcode"
  else
    let set_to value :=
      match ascii_lowercase ∘ trim <$> value with
      | Some value => if value =s "" then None else Some value
      | None => None
      end in
    match set_to namespace with
    | Some namespace => Some namespace
    | None =>
        match set_to active with
        | Some active => Some active
        | None =>
            if str_in normalized_name ["anthropic"; "claude"; "claude cli"] then Some "claude"
            else if normalized_name =s "openai" then Some "openai"
            else if str_in normalized_name ["github copilot"; "copilot"] then Some "copilot"
            else if normalized_name =s "openrouter" then Some "openrouter"
            else if normalized_name =s "cursor" then Some "cursor"
            else if normalized_name =s "gemini" then Some "gemini"
            else if normalized_name =s "antigravity" then Some "antigravity"
            else if normalized_name =s "" then None
            else Some normalized_name
        end
    end.

Section session.
Context `{SessionJson}.

(** ** The journal metadata *)

Definition journal_meta (s : Session) : SessionJournalMeta := {|
  jm_parent_id := se_parent_id s;
  jm_title := se_title s;
  jm_updated_at := se_updated_at s;
  jm_compaction := se_compaction s;
  jm_provider_session_id := se_provider_session_id s;
  jm_provider_key := se_provider_key s;
  jm_model := se_model s;
  jm_reasoning_effort := se_reasoning_effort s;
  jm_subagent_model := se_subagent_model s;
  jm_improve_mode := se_improve_mode s;
  jm_autoreview_enabled := se_autoreview_enabled s;
  jm_autojudge_enabled := se_autojudge_enabled s;
  jm_is_canary := se_is_canary s;
  jm_testing_build := se_testing_build s;
  jm_working_dir := se_working_dir s;
  jm_short_name := se_short_name s;
  jm_status := se_status s;
  jm_last_pid := se_last_pid s;
  jm_last_active_at := se_last_active_at s;
  jm_is_debug := se_is_debug s;
  jm_saved := se_saved s;
  jm_save_label := se_save_label s;
|}.

Definition mark_memory_profile_dirty (s : Session) : Session := se_set_memory_profile_dirty true s.

Definition apply_journal_meta (meta : SessionJournalMeta) (s : Session) : Session :=
  mark_memory_profile_dirty {|
    se_id := se_id s;
    se_parent_id := jm_parent_id meta;
    se_title := jm_title meta;
    se_created_at := se_created_at s;
    se_updated_at := jm_updated_at meta;
    se_messages := se_messages s;
    se_compaction := jm_compaction meta;
    se_provider_session_id := jm_provider_session_id meta;
    se_provider_key := jm_provider_key meta;
    se_model := jm_model meta;
    se_reasoning_effort := jm_reasoning_effort meta;
    se_subagent_model := jm_subagent_model meta;
    se_improve_mode := jm_improve_mode meta;
    se_autoreview_enabled := jm_autoreview_enabled meta;
    se_autojudge_enabled := jm_autojudge_enabled meta;
    se_is_canary := jm_is_canary meta;
    se_testing_build := jm_testing_build meta;
    se_working_dir := jm_working_dir meta;
    se_short_name := jm_short_name meta;
    se_status := jm_status meta;
    se_last_pid := jm_last_pid meta;
    se_last_active_at := jm_last_active_at meta;
    se_is_debug := jm_is_debug meta;
    se_saved := jm_saved meta;
    se_save_label := jm_save_label meta;
    se_env_snapshots := se_env_snapshots s;
    se_memory_injections := se_memory_injections s;
    se_replay_events := se_replay_events s;
    se_persist_state := se_persist_state s;
    se_provider_messages_cache := se_provider_messages_cache s;
    se_provider_message_prefix_hashes_cache := se_provider_message_prefix_hashes_cache s;
    se_provider_messages_cache_len := se_provider_messages_cache_len s;
    se_provider_messages_cache_mode := se_provider_messages_cache_mode s;
    se_memory_profile_cache := se_memory_profile_cache s;
    se_memory_profile_dirty := se_memory_profile_dirty s;
  |}.

Definition reset_persist_state (snapshot_exists : bool) (s : Session) : Session :=
  se_set_persist_state {|
    ps_snapshot_exists := snapshot_exists;
    ps_messages_len := length (se_messages s);
    ps_env_snapshots_len := length (se_env_snapshots s);
    ps_memory_injections_len := length (se_memory_injections s);
    ps_replay_events_len := length (se_replay_events s);
    ps_messages_mode := ModeClean;
    ps_env_snapshots_mode := ModeClean;
    ps_memory_injections_mode := ModeClean;
    ps_replay_events_mode := ModeClean;
    ps_last_meta := Some (journal_meta s);
  |} s.

(** ** Creation *)

Definition new_session (now : datetime) (env : ProcessEnv) (id : string)
    (parent_id title short_name : option string) : Session :=
  reset_persist_state false {|
    se_id := id;
    se_parent_id := parent_id;
    se_title := title;
    se_created_at := now;
    se_updated_at := now;
    se_messages := [];
    se_compaction := None;
    se_provider_session_id := None;
    se_provider_key := None;
    se_model := None;
    se_reasoning_effort := None;
    se_subagent_model := None;
    se_improve_mode := None;
    se_autoreview_enabled := None;
    se_autojudge_enabled := None;
    se_is_canary := false;
    se_testing_build := None;
    se_working_dir := pe_working_dir env;
    se_short_name := short_name;
    se_status := StatusActive;
    se_last_pid := Some (pe_pid env);
    se_last_active_at := Some now;
    se_is_debug := pe_test_session env;
    se_saved := false;
    se_save_label := None;
    se_env_snapshots := [];
    se_memory_injections := [];
    se_replay_events := [];
    se_persist_state := persist_state_default;
    se_provider_messages_cache := [];
    se_provider_message_prefix_hashes_cache := [];
    se_provider_messages_cache_len := 0;
    se_provider_messages_cache_mode := ModeFull;
    se_memory_profile_cache := profile_default;
    se_memory_profile_dirty := false;
  |}.

Definition create_with_id (now : datetime) (env : ProcessEnv) (session_id : string)
    (parent_id title : option string) : Session :=
  new_session now env session_id parent_id title (extract_session_name session_id).

(** [create], with the identifier and the word of [new_memorable_session_id]. *)
Definition create (now : datetime) (env : ProcessEnv) (memorable : string * string)
    (parent_id title : option string) : Session :=
  new_session now env memorable.1 parent_id title (Some memorable.2).

(** ** Metadata *)

Definition set_debug (is_debug : bool) (s : Session) : Session := se_set_is_debug is_debug s.

Definition mark_saved (label : option string) (s : Session) : Session :=
  let s := se_set_saved true s in
  match label with Some _ => se_set_save_label label s | None => s end.

Definition unmark_saved (s : Session) : Session := se_set_save_label None (se_set_saved false s).

Definition rename_title (now : datetime) (title : option string) (s : Session) : Session :=
  let title :=
    title ≫= λ title, let title := trim title in if title =s "" then None else Some title in
  se_set_updated_at now (se_set_title title s).

Definition display_name (s : Session) : string :=
  match se_short_name s with
  | Some short_name => short_name
  | None => default (se_id s) (extract_session_name (se_id s))
  end.

Definition set_canary (build_hash : string) (s : Session) : Session :=
  se_set_testing_build (Some build_hash) (se_set_is_canary true s).

Definition clear_canary (s : Session) : Session :=
  se_set_testing_build None (se_set_is_canary false s).

Definition set_status (status : SessionStatus) (s : Session) : Session := se_set_status status s.

Definition mark_error (message : string) (s : Session) : Session :=
  se_set_status (StatusError message) s.

(** ** What has changed since the last save *)

Definition set_unless_full (mode : PersistVectorMode) : PersistVectorMode :=
  match mode with ModeFull => ModeFull | _ => ModeAppend end.

Definition mark_messages_append_dirty (s : Session) : Session :=
  let p := se_persist_state s in
  let s := se_set_persist_state (ps_set_messages_mode (set_unless_full (ps_messages_mode p)) p) s in
  se_set_provider_messages_cache_mode (set_unless_full (se_provider_messages_cache_mode s)) s.

Definition mark_messages_full_dirty (s : Session) : Session :=
  se_set_provider_messages_cache_mode ModeFull
    (se_set_persist_state (ps_set_messages_mode ModeFull (se_persist_state s)) s).

Definition mark_env_snapshots_append_dirty (s : Session) : Session :=
  let p := se_persist_state s in
  se_set_persist_state (ps_set_env_snapshots_mode (set_unless_full (ps_env_snapshots_mode p)) p) s.

Definition mark_env_snapshots_full_dirty (s : Session) : Session :=
  se_set_persist_state (ps_set_env_snapshots_mode ModeFull (se_persist_state s)) s.

Definition mark_memory_injections_append_dirty (s : Session) : Session :=
  let p := se_persist_state s in
  se_set_persist_state
    (ps_set_memory_injections_mode (set_unless_full (ps_memory_injections_mode p)) p) s.

Definition mark_replay_events_append_dirty (s : Session) : Session :=
  let p := se_persist_state s in
  se_set_persist_state (ps_set_replay_events_mode (set_unless_full (ps_replay_events_mode p)) p) s.

(** ** The transcript *)

Definition map_profile (f : SessionMemoryProfileCache → SessionMemoryProfileCache)
    (s : Session) : Session :=
  se_set_memory_profile_cache (f (se_memory_profile_cache s)) s.

Definition append_stored_message (message : StoredMessage) (s : Session) : Session :=
  let s := map_profile (λ p,
    mp_set_message_stats (merge_from (mp_message_stats p) (summarize_blocks (st_content message)))
      (mp_set_messages_json_bytes
        (mp_messages_json_bytes p + String.length (stored_message_json message))
        (mp_set_messages_count (mp_messages_count p + 1) p))) s in
  mark_messages_append_dirty (se_set_messages (se_messages s ++ [message]) s).

Definition add_message_ext_with_display_role (now : datetime) (id : string) (role : Role)
    (content : list ContentBlock) (tool_duration_ms : option u64)
    (token_usage : option StoredTokenUsage) (display_role : option StoredDisplayRole)
    (s : Session) : string * Session :=
  (id, append_stored_message {|
     st_id := id; st_role := role; st_content := content; st_display_role := display_role;
     st_timestamp := Some now; st_tool_duration_ms := tool_duration_ms;
     st_token_usage := token_usage |} s).

Definition add_message (now : datetime) (id : string) (role : Role) (content : list ContentBlock)
    (s : Session) : string * Session :=
  add_message_ext_with_display_role now id role content None None None s.

Definition add_message_with_duration (now : datetime) (id : string) (role : Role)
    (content : list ContentBlock) (tool_duration_ms : option u64) (s : Session)
    : string * Session :=
  add_message_ext_with_display_role now id role content tool_duration_ms None None s.

Definition add_message_with_display_role (now : datetime) (id : string) (role : Role)
    (content : list ContentBlock) (display_role : option StoredDisplayRole) (s : Session)
    : string * Session :=
  add_message_ext_with_display_role now id role content None None display_role s.

Definition add_message_ext (now : datetime) (id : string) (role : Role)
    (content : list ContentBlock) (tool_duration_ms : option u64)
    (token_usage : option StoredTokenUsage) (s : Session) : string * Session :=
  add_message_ext_with_display_role now id role content tool_duration_ms token_usage None s.

(** [Vec::insert] panics beyond the end. *)
Definition insert_message (index : usize) (message : StoredMessage) (s : Session)
    : option Session :=
  if index <=? length (se_messages s) then
    Some (mark_messages_full_dirty (mark_memory_profile_dirty
      (se_set_messages
        (take index (se_messages s) ++ message :: drop index (se_messages s)) s)))
  else None.

Definition replace_messages (messages : list StoredMessage) (s : Session) : Session :=
  mark_messages_full_dirty (mark_memory_profile_dirty (se_set_messages messages s)).

Definition truncate_messages (len : usize) (s : Session) : Session :=
  if len <? length (se_messages s) then
    mark_messages_full_dirty (mark_memory_profile_dirty
      (se_set_messages (take len (se_messages s)) s))
  else s.

Definition is_tool_use (block : ContentBlock) : bool :=
  match block with ToolUse _ _ _ => true | _ => false end.

(** The loop over the messages, up to the first one with the identifier. *)
Fixpoint drop_tool_use_blocks (message_id : string) (messages : list StoredMessage)
    : option (list StoredMessage) :=
  match messages with
  | [] => None
  | m :: rest =>
      if st_id m =s message_id then
        Some (st_set_content (List.filter (λ b, negb (is_tool_use b)) (st_content m)) m :: rest)
      else cons m <$> drop_tool_use_blocks message_id rest
  end.

Definition remove_tool_use_blocks (message_id : string) (s : Session) : Session :=
  match drop_tool_use_blocks message_id (se_messages s) with
  | Some messages =>
      mark_messages_full_dirty (mark_memory_profile_dirty (se_set_messages messages s))
  | None => s
  end.

(** ** The visible conversation *)

Definition visible_conversation_messages (s : Session) : list StoredMessage :=
  List.filter is_visible_conversation_message (se_messages s).

Definition visible_conversation_message_count (s : Session) : usize :=
  length (visible_conversation_messages s).

(** The loop of [stored_len_for_visible_conversation_message]. *)
Fixpoint stored_len_from (count stored_index visible_index : usize)
    (messages : list StoredMessage) : option usize :=
  match messages with
  | [] => None
  | m :: rest =>
      if is_visible_conversation_message m then
        if S count =? visible_index then Some (stored_index + 1)
        else stored_len_from (S count) (S stored_index) visible_index rest
      else stored_len_from count (S stored_index) visible_index rest
  end.

Definition stored_len_for_visible_conversation_message (visible_index : usize) (s : Session)
    : option usize :=
  if visible_index =? 0 then None else stored_len_from 0 0 visible_index (se_messages s).

(** ** The session context *)

Definition is_context_block (block : ContentBlock) : bool :=
  match block with Text text _ => starts_with SESSION_CONTEXT_PREFIX text | _ => false end.

Definition is_context_message (m : StoredMessage) : bool := existsb is_context_block (st_content m).

Definition has_session_context_message (s : Session) : bool :=
  existsb is_context_message (se_messages s).

Section context_text.
Context `{SessionContextText}.

Definition wrapped_session_context (s : Session) : string :=
  "<system-reminder>" +:+ nl +:+ trim (build_session_context (se_working_dir s)) +:+ nl
  +:+ "</system-reminder>".

Definition ensure_initial_session_context_message (now : datetime) (env : ProcessEnv)
    (id : string) (s : Session) : bool * Session :=
  if negb (bool_decide (se_messages s = [])) || has_session_context_message s then (false, s)
  else
    let s := match pe_working_dir env with
             | Some dir => se_set_working_dir (Some dir) s
             | None => s
             end in
    let wrapped := wrapped_session_context s in
    (true, (add_message_with_display_role now id User [Text wrapped None]
              (Some DisplaySystem) s).2).

(** The loop over the blocks: [None] when no block is the context, otherwise
    whether it changed, and the blocks. *)
Fixpoint refresh_blocks (wrapped : string) (content : list ContentBlock)
    : option (bool * list ContentBlock) :=
  match content with
  | [] => None
  | block :: rest =>
      match block with
      | Text text cache_control =>
          if starts_with SESSION_CONTEXT_PREFIX text then
            if text =s wrapped then Some (false, content)
            else Some (true, Text wrapped cache_control :: rest)
          else prod_map id (cons block) <$> refresh_blocks wrapped rest
      | _ => prod_map id (cons block) <$> refresh_blocks wrapped rest
      end
  end.

(** [find], then the loop over the blocks of that message. *)
Fixpoint refresh_messages (wrapped : string) (messages : list StoredMessage)
    : option (bool * list StoredMessage) :=
  match messages with
  | [] => None
  | m :: rest =>
      if is_context_message m then
        prod_map id (λ content, st_set_content content m :: rest)
          <$> refresh_blocks wrapped (st_content m)
      else prod_map id (cons m) <$> refresh_messages wrapped rest
  end.

Definition refresh_initial_session_context_message (s : Session) : bool * Session :=
  if existsb is_visible_conversation_message (se_messages s) then (false, s)
  else
    match refresh_messages (wrapped_session_context s) (se_messages s) with
    | Some (true, messages) =>
        (true, mark_messages_full_dirty (mark_memory_profile_dirty (se_set_messages messages s)))
    | _ => (false, s)
    end.
End context_text.

(** ** Snapshots, injections, replay events *)

Definition record_env_snapshot (snapshot : EnvSnapshot) (s : Session) : Session :=
  let s := map_profile (λ p,
    mp_set_env_snapshots_json_bytes
      (mp_env_snapshots_json_bytes p + String.length (env_snapshot_json snapshot))
      (mp_set_env_snapshots_count (mp_env_snapshots_count p + 1) p)) s in
  let s := se_set_env_snapshots (se_env_snapshots s ++ [snapshot]) s in
  if MAX_ENV_SNAPSHOTS <? length (se_env_snapshots s) then
    let excess := length (se_env_snapshots s) - MAX_ENV_SNAPSHOTS in
    mark_env_snapshots_full_dirty (mark_memory_profile_dirty
      (se_set_env_snapshots (drop excess (se_env_snapshots s)) s))
  else mark_env_snapshots_append_dirty s.

Definition record_memory_injection (now : datetime) (summary content : string) (count : u32)
    (age_ms : u64) (memory_ids : list string) (s : Session) : Session :=
  let injection := {|
    mi_summary := summary; mi_content := content; mi_count := count;
    mi_memory_ids := memory_ids; mi_age_ms := Some age_ms;
    mi_before_message := Some (length (se_messages s)); mi_timestamp := now |} in
  let s := map_profile (λ p,
    mp_set_memory_injections_json_bytes
      (mp_memory_injections_json_bytes p + String.length (memory_injection_json injection))
      (mp_set_memory_injections_count (mp_memory_injections_count p + 1) p)) s in
  mark_memory_injections_append_dirty
    (se_set_memory_injections (se_memory_injections s ++ [injection]) s).

Definition injected_memory_ids `{HashOrder} (s : Session) : list string :=
  hash_elements
    (foldl (λ ids injection, ids ∪ list_to_set (mi_memory_ids injection)) ∅
      (se_memory_injections s) : gset string).

(** What the three recorders of replay events end with. *)
Definition push_replay_event (event : StoredReplayEvent) (s : Session) : Session :=
  let s := map_profile (λ p,
    mp_set_replay_events_json_bytes
      (mp_replay_events_json_bytes p + String.length (replay_event_json event))
      (mp_set_replay_events_count (mp_replay_events_count p + 1) p)) s in
  mark_replay_events_append_dirty (se_set_replay_events (se_replay_events s ++ [event]) s).

Definition record_replay_display_message (now : datetime) (role : string)
    (title : option string) (content : string) (s : Session) : Session :=
  push_replay_event {| re_timestamp := now; re_kind := DisplayMessage role title content |} s.

(** [self.replay_events.last().is_some_and(|last| last.kind == kind)] *)
Definition last_replay_event_is (kind : StoredReplayEventKind) (s : Session) : bool :=
  match last (se_replay_events s) with
  | Some event => bool_decide (re_kind event = kind)
  | None => false
  end.

Definition record_swarm_status_event (now : datetime) (members : list SwarmMemberStatus)
    (s : Session) : Session :=
  let kind := SwarmStatusEvent members in
  if last_replay_event_is kind s then s
  else push_replay_event {| re_timestamp := now; re_kind := kind |} s.

Definition record_swarm_plan_event (now : datetime) (swarm_id : string) (version : u64)
    (items : list PlanItem) (participants : list string) (reason : option string)
    (s : Session) : Session :=
  let kind := SwarmPlanEvent swarm_id version items participants reason in
  if last_replay_event_is kind s then s
  else push_replay_event {| re_timestamp := now; re_kind := kind |} s.

(** ** Messages for the provider *)

(** [message::stable_message_hash] *)
Definition stable_message_hash (message : Message) : u64 :=
  stable_hash_bytes ((λ b, Z.of_nat (Ascii.nat_of_ascii b)) <$> String.list_ascii_of_string (message_json message)).

(** The hash of a prefix, from that of the prefix before it. *)
Definition next_prefix_hash (previous : option u64) (message : Message) : u64 :=
  let message_hash := stable_message_hash message in
  match previous with
  | Some prev => extend_stable_hash prev message_hash
  | None => message_hash
  end.

Definition reset_provider_messages_cache (s : Session) : Session :=
  let s := se_set_provider_messages_cache [] s in
  let s := se_set_provider_message_prefix_hashes_cache [] s in
  let s := se_set_provider_messages_cache_len 0 s in
  let s := se_set_provider_messages_cache_mode ModeFull s in
  map_profile (λ p,
    mp_set_provider_cache_stats stats_default
      (mp_set_provider_cache_json_bytes 0 (mp_set_provider_cache_count 0 p))) s.

Definition push_provider_message_cache_entry (message : Message) (s : Session) : Session :=
  let prefix_hash := next_prefix_hash (last (se_provider_message_prefix_hashes_cache s)) message in
  let s := map_profile (λ p,
    mp_set_provider_cache_stats
      (merge_from (mp_provider_cache_stats p) (summarize_blocks (msg_content message)))
      (mp_set_provider_cache_json_bytes
        (mp_provider_cache_json_bytes p + String.length (message_json message))
        (mp_set_provider_cache_count (mp_provider_cache_count p + 1) p))) s in
  let s := se_set_provider_messages_cache (se_provider_messages_cache s ++ [message]) s in
  se_set_provider_message_prefix_hashes_cache
    (se_provider_message_prefix_hashes_cache s ++ [prefix_hash]) s.

(** The loop that converts stored messages into the cache. *)
Definition push_stored_messages (messages : list StoredMessage) (s : Session) : Session :=
  foldl (λ s m, push_provider_message_cache_entry (to_message m) s) s messages.

Definition finish_provider_messages (s : Session) : Session :=
  se_set_provider_messages_cache_mode ModeClean
    (se_set_provider_messages_cache_len (length (se_messages s)) s).

Definition refresh_provider_messages (s : Session) : Session :=
  if bool_decide (se_provider_messages_cache_mode s = ModeFull)
     || (length (se_messages s) <? se_provider_messages_cache_len s) then
    let s := se_set_provider_messages_cache [] s in
    let s := se_set_provider_message_prefix_hashes_cache [] s in
    finish_provider_messages (push_stored_messages (se_messages s) s)
  else if bool_decide (se_provider_messages_cache_mode s = ModeAppend)
          && (se_provider_messages_cache_len s <? length (se_messages s)) then
    finish_provider_messages
      (push_stored_messages (drop (se_provider_messages_cache_len s) (se_messages s)) s)
  else s.

Definition provider_messages (s : Session) : list Message * Session :=
  let s := refresh_provider_messages s in (se_provider_messages_cache s, s).

Definition provider_message_prefix_hashes (s : Session) : list u64 * Session :=
  let s := (provider_messages s).2 in (se_provider_message_prefix_hashes_cache s, s).

Definition messages_for_provider_uncached (s : Session) : list Message :=
  stored_messages_to_messages (se_messages s).

Definition messages_for_provider (s : Session) : list Message * Session := provider_messages s.

(** ** The memory profile *)

Definition json_bytes_sum {A} (to_json : A → string) (l : list A) : usize :=
  sum_list_with (λ x, String.length (to_json x)) l.

Definition rebuild_memory_profile_cache (s : Session) : Session :=
  let message_stats := summarize_message_content (st_content <$> se_messages s) in
  let provider_cache_stats :=
    summarize_message_content (msg_content <$> se_provider_messages_cache s) in
  se_set_memory_profile_dirty false (se_set_memory_profile_cache {|
    mp_messages_count := length (se_messages s);
    mp_messages_json_bytes := json_bytes_sum stored_message_json (se_messages s);
    mp_message_stats := message_stats;
    mp_env_snapshots_count := length (se_env_snapshots s);
    mp_env_snapshots_json_bytes := json_bytes_sum env_snapshot_json (se_env_snapshots s);
    mp_memory_injections_count := length (se_memory_injections s);
    mp_memory_injections_json_bytes :=
      json_bytes_sum memory_injection_json (se_memory_injections s);
    mp_replay_events_count := length (se_replay_events s);
    mp_replay_events_json_bytes := json_bytes_sum replay_event_json (se_replay_events s);
    mp_provider_cache_count := length (se_provider_messages_cache s);
    mp_provider_cache_json_bytes := json_bytes_sum message_json (se_provider_messages_cache s);
    mp_provider_cache_stats := provider_cache_stats;
  |} s).

Definition ensure_memory_profile_cache (s : Session) : Session :=
  if se_memory_profile_dirty s then rebuild_memory_profile_cache s else s.

Definition memory_profile_snapshot (s : Session) : SessionMemoryProfileSnapshot * Session :=
  let s := ensure_memory_profile_cache s in
  let compaction_json_bytes :=
    match se_compaction s with Some c => String.length (compaction_json c) | None => 0 end in
  let p := se_memory_profile_cache s in
  ({| sn_message_count := mp_messages_count p;
      sn_provider_cache_message_count := mp_provider_cache_count p;
      sn_env_snapshot_count := mp_env_snapshots_count p;
      sn_memory_injection_count := mp_memory_injections_count p;
      sn_replay_event_count := mp_replay_events_count p;
      sn_payload_text_bytes := payload_text_bytes (mp_message_stats p);
      sn_total_json_bytes :=
        mp_messages_json_bytes p + mp_provider_cache_json_bytes p + mp_env_snapshots_json_bytes p
        + mp_memory_injections_json_bytes p + mp_replay_events_json_bytes p
        + compaction_json_bytes;
      sn_provider_cache_json_bytes := mp_provider_cache_json_bytes p;
      sn_canonical_tool_result_bytes := cb_tool_result_bytes (mp_message_stats p);
      sn_provider_cache_tool_result_bytes := cb_tool_result_bytes (mp_provider_cache_stats p);
      sn_canonical_large_blob_bytes := cb_large_block_bytes (mp_message_stats p);
      sn_provider_cache_large_blob_bytes := cb_large_block_bytes (mp_provider_cache_stats p) |}, s).

(** ** Remote clients *)

Definition strip_transcript_for_remote_client (s : Session) : Session :=
  let s := se_set_messages [] s in
  let s := se_set_compaction None s in
  let s := se_set_env_snapshots [] s in
  let s := se_set_memory_injections [] s in
  let s := se_set_replay_events [] s in
  let s := rebuild_memory_profile_cache s in
  let s := reset_provider_messages_cache s in
  reset_persist_state true s.
End session.
