(* ===== verification/CacheTracker.v ===== *)
(** * Client-side cache tracking ([src/cache_tracker.rs], [src/agent.rs])

    Providers cache the prefix of a conversation, so a client that only appends
    keeps the cache. The tracker hashes every prefix of a request and reports
    when the messages of the previous request are no longer a prefix. The
    session keeps the hashes of its converted messages, so that the agent can
    record a request without hashing it again. *)

From S2P Require Import Prelude Utf8 Text Messages SessionTypes SessionProfile SessionState SessionOps.
Open Scope nat_scope.

Definition MAX_HISTORY : usize := 10.

Record CacheViolation := {
  cv_turn : u32;
  cv_message_count : usize;
  cv_expected_hash : string;
  cv_actual_hash : string;
  cv_reason : string;
}.

Record CacheTracker := {
  ct_previous_prefix_hash : option u64;
  ct_previous_message_count : usize;
  ct_turn_count : u32;
  ct_hash_history : list u64;
  ct_last_violation : option CacheViolation;
}.

Definition tracker_new : CacheTracker := {|
  ct_previous_prefix_hash := None;
  ct_previous_message_count := 0;
  ct_turn_count := 0;
  ct_hash_history := [];
  ct_last_violation := None;
|}.

(** [format!("{hash:016x}")] *)
Definition hex_digit (n : Z) : string :=
  default "0" (["0"; "1"; "2"; "3"; "4"; "5"; "6"; "7"; "8"; "9"; "a"; "b"; "c"; "d"; "e"; "f"]
               !! Z.to_nat n).

Definition hash_label (hash : u64) : string :=
  str_concat ((λ i, hex_digit (Z.land (Z.shiftr hash (4 * (15 - Z.of_nat i))) 15)) <$> seq 0 16).

(** [push_back], then [pop_front] above the bound. *)
Definition push_history (hash : u64) (history : list u64) : list u64 :=
  let history := history ++ [hash] in
  if MAX_HISTORY <? length history then tail history else history.

Definition removed_reason (previous_count current_count : usize) : string :=
  "Messages removed: had " +:+ pretty previous_count +:+ " messages, now have "
  +:+ pretty current_count.

Definition modified_reason (previous_count : usize) (previous_hash prefix_hash : u64) : string :=
  "Prefix modified: first " +:+ pretty previous_count +:+ " messages changed (hash "
  +:+ hash_label previous_hash +:+ " -> " +:+ hash_label prefix_hash +:+ ")".

Definition record_prefix_hash_snapshot (current_count : usize)
    (prefix_hash_at_previous_count current_full_hash : option u64) (t : CacheTracker)
    : option CacheViolation * CacheTracker :=
  let turn_count := wrap_u 32 (ct_turn_count t + 1) in
  let hash := default 0%Z current_full_hash in
  let next violation := {|
    ct_previous_prefix_hash := Some hash;
    ct_previous_message_count := current_count;
    ct_turn_count := turn_count;
    ct_hash_history := push_history hash (ct_hash_history t);
    ct_last_violation := violation |} in
  match ct_previous_prefix_hash t with
  | Some previous_hash =>
      if (turn_count =? 1)%Z then (None, next None)
      else
        let previous_count := ct_previous_message_count t in
        if current_count <? previous_count then
          let violation := {|
            cv_turn := turn_count;
            cv_message_count := current_count;
            cv_expected_hash := hash_label previous_hash;
            cv_actual_hash := hash_label hash;
            cv_reason := removed_reason previous_count current_count |} in
          (Some violation, next (Some violation))
        else
          let prefix_hash := default 0%Z prefix_hash_at_previous_count in
          if (prefix_hash =? previous_hash)%Z then (None, next None)
          else
            let violation := {|
              cv_turn := turn_count;
              cv_message_count := current_count;
              cv_expected_hash := hash_label previous_hash;
              cv_actual_hash := hash_label prefix_hash;
              cv_reason := modified_reason previous_count previous_hash prefix_hash |} in
            (Some violation, next (Some violation))
  | None => (None, next None)
  end.

(** The prefix hash a caller hands over: [None] when there is no such prefix.
    Indexing panics out of range, which the test excludes. *)
Definition hash_at_count (previous_count : usize) (prefix_hashes : list u64) : option u64 :=
  if (previous_count =? 0) || (length prefix_hashes <? previous_count) then None
  else prefix_hashes !! (previous_count - 1).

Definition record_prefix_hashes (prefix_hashes : list u64) (t : CacheTracker)
    : option CacheViolation * CacheTracker :=
  record_prefix_hash_snapshot (length prefix_hashes)
    (hash_at_count (ct_previous_message_count t) prefix_hashes) (last prefix_hashes) t.

Definition had_violation (t : CacheTracker) : bool := bool_decide (is_Some (ct_last_violation t)).

(** [reset] sets every field to its initial value. *)
Definition tracker_reset (t : CacheTracker) : CacheTracker := tracker_new.

Section requests.
Context `{SessionJson}.

Definition prefix_hashes_for_messages (messages : list Message) : list u64 :=
  foldl (λ prefix_hashes message,
    prefix_hashes ++ [next_prefix_hash (last prefix_hashes) message]) [] messages.

Definition record_request (messages : list Message) (t : CacheTracker)
    : option CacheViolation * CacheTracker :=
  record_prefix_hashes (prefix_hashes_for_messages messages) t.

(** [Agent::should_track_client_cache], of the value of its variable. *)
Definition should_track_client_cache (variable : option string) : bool :=
  match variable with
  | Some value =>
      let value := trim value in
      negb (value =s "") && negb (value =s "0") && negb (ascii_lowercase value =s "false")
  | None => false
  end.

(** [Agent::record_client_cache_request], without its log line. *)
Definition record_client_cache_request (variable : option string) (uses_gcode_compaction : bool)
    (messages : list Message) (session : Session) (t : CacheTracker)
    : option CacheViolation * (Session * CacheTracker) :=
  if should_track_client_cache variable then
    if negb uses_gcode_compaction && bool_decide (se_compaction session = None) then
      let previous_count := ct_previous_message_count t in
      let '(prefix_hashes, session) := provider_message_prefix_hashes session in
      let '(violation, t) :=
        record_prefix_hash_snapshot (length prefix_hashes)
          (hash_at_count previous_count prefix_hashes) (last prefix_hashes) t in
      (violation, (session, t))
    else
      let '(violation, t) := record_request messages t in (violation, (session, t))
  else (None, (session, t)).

(** ** Hashes of prefixes *)

(** The hash of the whole list: 0 for the empty one. *)
Definition full_hash (messages : list Message) : u64 :=
  default 0%Z (last (prefix_hashes_for_messages messages)).

Lemma prefix_hashes_snoc ms m :
  prefix_hashes_for_messages (ms ++ [m])
  = prefix_hashes_for_messages ms
    ++ [next_prefix_hash (last (prefix_hashes_for_messages ms)) m].
Proof. unfold prefix_hashes_for_messages. by rewrite foldl_snoc. Qed.

Lemma prefix_hashes_length ms : length (prefix_hashes_for_messages ms) = length ms.
Proof.
  induction ms as [|m ms IH] using rev_ind; [done|].
  rewrite prefix_hashes_snoc, !length_app, IH. done.
Qed.

(** The hashes of a prefix are a prefix of the hashes. *)
Lemma prefix_hashes_app ms ms' :
  prefix_hashes_for_messages ms = take (length ms) (prefix_hashes_for_messages (ms ++ ms')).
Proof.
  induction ms' as [|m ms' IH] using rev_ind.
  - rewrite app_nil_r, take_ge; [done|]. by rewrite prefix_hashes_length.
  - rewrite app_assoc, prefix_hashes_snoc, take_app_le; [done|].
    rewrite prefix_hashes_length, length_app. lia.
Qed.

Lemma prefix_hashes_take n ms :
  prefix_hashes_for_messages (take n ms) = take n (prefix_hashes_for_messages ms).
Proof.
  rewrite (prefix_hashes_app (take n ms) (drop n ms)), take_drop, length_take.
  destruct (decide (n ≤ length ms)); [by rewrite Nat.min_l|].
  rewrite Nat.min_r, !take_ge; [done| | |]; rewrite ?prefix_hashes_length; lia.
Qed.

Lemma hash_at_count_spec n ms :
  n ≤ length ms →
  default 0%Z (hash_at_count n (prefix_hashes_for_messages ms)) = full_hash (take n ms).
Proof.
  intros Hn. unfold hash_at_count, full_hash.
  rewrite prefix_hashes_take, prefix_hashes_length.
  destruct n as [|n]; [done|].
  replace (length ms <? S n) with false by (symmetry; apply Nat.ltb_ge; lia).
  cbn [Nat.eqb orb]. rewrite last_lookup, length_take, prefix_hashes_length, Nat.min_l by lia.
  replace (S n - 1) with n by lia. cbn [pred]. rewrite lookup_take_lt by lia. done.
Qed.

(** ** What is reported *)

(** The test of a request against the one before it: nothing is removed, and
    the messages that were sent hash to what they did. *)
Definition prefix_kept (previous current : list Message) : bool :=
  (length previous <=? length current)
  && (full_hash (take (length previous) current) =? full_hash previous)%Z.

(** The tracker has recorded [previous] at its last request. *)
Definition records (t : CacheTracker) (previous : list Message) : Prop :=
  ct_previous_prefix_hash t = Some (full_hash previous)
  ∧ ct_previous_message_count t = length previous.

Lemma record_request_records ms t : records (record_request ms t).2 ms.
Proof.
  unfold record_request, record_prefix_hashes, record_prefix_hash_snapshot.
  rewrite prefix_hashes_length. repeat case_match; done.
Qed.

Lemma record_request_turn ms t :
  ct_turn_count (record_request ms t).2 = wrap_u 32 (ct_turn_count t + 1).
Proof.
  unfold record_request, record_prefix_hashes, record_prefix_hash_snapshot.
  repeat case_match; done.
Qed.

Lemma push_history_bound h l : length l ≤ MAX_HISTORY → length (push_history h l) ≤ MAX_HISTORY.
Proof.
  unfold push_history. intros Hl. destruct (Nat.ltb_spec MAX_HISTORY (length (l ++ [h]))); [|lia].
  destruct l as [|x l]; cbn in *; [lia|]. rewrite length_app. cbn. lia.
Qed.

Lemma push_history_last h l : last (push_history h l) = Some h.
Proof.
  unfold push_history. destruct (Nat.ltb_spec MAX_HISTORY (length (l ++ [h]))) as [Hl|]; [|apply last_snoc].
  destruct l as [|x l]; [cbn in Hl; unfold MAX_HISTORY in Hl; lia|]. cbn. apply last_snoc.
Qed.

(** The invariant of a tracker: a bounded history that ends with the hash of
    the last request. *)
Definition tracker_wf (t : CacheTracker) : Prop :=
  length (ct_hash_history t) ≤ MAX_HISTORY
  ∧ last (ct_hash_history t) = ct_previous_prefix_hash t
  ∧ (ct_previous_prefix_hash t = None → ct_previous_message_count t = 0).

Lemma tracker_new_wf : tracker_wf tracker_new.
Proof. repeat split; cbn; unfold MAX_HISTORY; lia. Qed.

Lemma record_snapshot_wf n p f t : tracker_wf t → tracker_wf (record_prefix_hash_snapshot n p f t).2.
Proof.
  intros (Hl & Hlast & Hnone). unfold record_prefix_hash_snapshot.
  repeat case_match; (split; [|split]); cbn; try done;
    first [by apply push_history_bound | by apply push_history_last].
Qed.

(** A request after a recorded one is reported exactly when the prefix is not
    kept, except when the counter of turns comes back to one. *)
Lemma record_request_reports previous ms t :
  records t previous →
  is_Some (record_request ms t).1
  ↔ wrap_u 32 (ct_turn_count t + 1) ≠ 1%Z ∧ prefix_kept previous ms = false.
Proof.
  intros [Hh Hc]. unfold record_request, record_prefix_hashes, record_prefix_hash_snapshot.
  rewrite Hh, Hc, prefix_hashes_length. unfold prefix_kept.
  destruct (Z.eqb_spec (wrap_u 32 (ct_turn_count t + 1)) 1) as [E|E].
  { split; [by intros [??] | by intros []]. }
  destruct (Nat.ltb_spec (length ms) (length previous)) as [Hlt|Hge].
  { rewrite (proj2 (Nat.leb_gt _ _)) by lia. cbn. split; [done|]. intros _. by eexists. }
  rewrite (proj2 (Nat.leb_le _ _)) by lia. cbn [andb].
  rewrite hash_at_count_spec by lia.
  destruct (Z.eqb_spec (full_hash (take (length previous) ms)) (full_hash previous)); cbn.
  - split; [by intros [??] | by intros []].
  - split; [done|]. intros _. by eexists.
Qed.

Lemma prefix_kept_app ms ms' : prefix_kept ms (ms ++ ms') = true.
Proof.
  unfold prefix_kept. rewrite take_app_length, Z.eqb_refl, andb_true_r.
  apply Nat.leb_le. rewrite length_app. lia.
Qed.

(** ** Runs of requests *)

Fixpoint record_requests (requests : list (list Message)) (t : CacheTracker)
    : list (option CacheViolation) * CacheTracker :=
  match requests with
  | [] => ([], t)
  | ms :: rest =>
      let '(violation, t) := record_request ms t in
      let '(violations, t) := record_requests rest t in
      (violation :: violations, t)
  end.

(** The reference: every request against the one before it. *)
Fixpoint broken_prefixes (previous : list Message) (requests : list (list Message)) : list bool :=
  match requests with
  | [] => []
  | ms :: rest => negb (prefix_kept previous ms) :: broken_prefixes ms rest
  end.

Lemma record_requests_reports requests : ∀ previous t,
  records t previous →
  (1 ≤ ct_turn_count t)%Z → (ct_turn_count t + Z.of_nat (length requests) < 2 ^ 32)%Z →
  (λ v, bool_decide (is_Some v)) <$> (record_requests requests t).1
  = broken_prefixes previous requests.
Proof.
  induction requests as [|ms rest IH]; intros previous t Hr Hpos Hlt; [done|].
  cbn [record_requests broken_prefixes]. cbn [length] in Hlt.
  pose proof (record_request_reports previous ms t Hr) as Hrep.
  pose proof (record_request_records ms t) as Hrec.
  pose proof (record_request_turn ms t) as Hturn.
  unfold wrap_u in Hrep, Hturn. rewrite Z.mod_small in Hrep, Hturn by lia.
  destruct (record_request ms t) as [v t']. cbn [fst snd] in *.
  specialize (IH ms t' Hrec). rewrite Hturn in IH.
  destruct (record_requests rest t') as [vs t'']. cbn [fst] in *. cbn [fmap list_fmap].
  f_equal; [|apply IH; lia].
  destruct (prefix_kept previous ms); cbn [negb].
  - apply bool_decide_eq_false. rewrite Hrep. by intros [].
  - apply bool_decide_eq_true. rewrite Hrep. split; [lia|done].
Qed.

Lemma record_first ms t :
  ct_previous_prefix_hash t = None → (record_request ms t).1 = None.
Proof.
  intros Hn. unfold record_request, record_prefix_hashes, record_prefix_hash_snapshot.
  by rewrite Hn.
Qed.

(** C24. From a new or reset tracker, the reports on any sequence of requests
    (fewer than the counter of turns can count) are exactly those of comparing
    every request with the one before it: nothing for the first, and a
    violation when messages were removed or when the messages sent before no
    longer hash to the same. In particular requests that only append are never
    reported. *)
Theorem tracker_correct first requests t0 :
  (Z.of_nat (length requests) < 2 ^ 32 - 1)%Z →
  ((λ v, bool_decide (is_Some v)) <$> (record_requests (first :: requests) (tracker_reset t0)).1
   = false :: broken_prefixes first requests)
  ∧ (∀ ms more, prefix_kept ms (ms ++ more) = true)
  ∧ (∀ ms ms', prefix_kept ms ms' = true →
       ∃ kept more, ms' = kept ++ more ∧ length kept = length ms ∧ full_hash kept = full_hash ms).
Proof.
  intros Hlen. split; [|split].
  - cbn [record_requests]. pose proof (record_first first (tracker_reset t0) eq_refl) as Hn.
    pose proof (record_request_records first (tracker_reset t0)) as Hrec.
    pose proof (record_request_turn first (tracker_reset t0)) as Hturn.
    destruct (record_request first (tracker_reset t0)) as [v t]. cbn [fst snd] in *. subst v.
    change (wrap_u 32 (ct_turn_count (tracker_reset t0) + 1)) with 1%Z in Hturn.
    pose proof (record_requests_reports requests first t Hrec) as Hrun.
    rewrite Hturn in Hrun. destruct (record_requests requests t) as [vs t']. cbn [fst] in *.
    cbn [fmap list_fmap]. f_equal. apply Hrun; lia.
  - apply prefix_kept_app.
  - intros ms ms' [Hle Hh]%andb_true_iff. apply Nat.leb_le in Hle. apply Z.eqb_eq in Hh.
    exists (take (length ms) ms'), (drop (length ms) ms'). rewrite take_drop, length_take.
    repeat split; [lia|done].
Qed.
End requests.
