(* ===== verification/SessionOpsTheorems.v ===== *)
(** * What the operations of a session keep

    Runs of operations on a session: the messages converted for the provider
    and the hashes of their prefixes are always those of the transcript, the
    memory profile of what a session stores is exact, snapshots of the
    environment are bounded, and the visible part of a transcript is cut where
    it says. *)

From S2P Require Import Prelude Utf8 Text Messages SwarmPlan SessionTypes SessionProfile SessionState SessionOps CacheTracker.
Open Scope nat_scope.

#[local] Arguments prefix_hashes_for_messages : simpl never.
#[local] Arguments json_bytes_sum : simpl never.
#[local] Arguments summarize_message_content : simpl never.
#[local] Arguments MAX_ENV_SNAPSHOTS : simpl never.

Section theorems.
Context `{SessionJson, SessionContextText}.

(** ** Runs of operations *)

Inductive SessionOp :=
| OpAddMessage (now : datetime) (id : string) (role : Role) (content : list ContentBlock)
    (tool_duration_ms : option u64) (token_usage : option StoredTokenUsage)
    (display_role : option StoredDisplayRole)
| OpInsertMessage (index : usize) (message : StoredMessage)
| OpReplaceMessages (messages : list StoredMessage)
| OpTruncateMessages (len : usize)
| OpRemoveToolUseBlocks (message_id : string)
| OpEnsureContext (now : datetime) (env : ProcessEnv) (id : string)
| OpRefreshContext
| OpEnvSnapshot (snapshot : EnvSnapshot)
| OpMemoryInjection (now : datetime) (summary content : string) (count : u32) (age_ms : u64)
    (memory_ids : list string)
| OpDisplayMessage (now : datetime) (role : string) (title : option string) (content : string)
| OpSwarmStatus (now : datetime) (members : list SwarmMemberStatus)
| OpSwarmPlan (now : datetime) (swarm_id : string) (version : u64) (items : list PlanItem)
    (participants : list string) (reason : option string)
| OpRenameTitle (now : datetime) (title : option string)
| OpMarkSaved (label : option string)
| OpUnmarkSaved
| OpSetCanary (build_hash : string)
| OpClearCanary
| OpSetDebug (is_debug : bool)
| OpSetStatus (status : SessionStatus)
| OpMarkError (message : string)
| OpSetCompaction (compaction : option StoredCompactionState)
| OpSetModel (model : option string)
| OpSetProviderKey (provider_key : option string)
| OpSetProviderSessionId (id : option string)
| OpSetImproveMode (mode : option SessionImproveMode)
| OpProviderMessages
| OpMemoryProfile.

(** The last group assigns public fields, as the callers do. *)
Definition apply_op (op : SessionOp) (s : Session) : option Session :=
  match op with
  | OpAddMessage now id role content duration usage display =>
      Some (add_message_ext_with_display_role now id role content duration usage display s).2
  | OpInsertMessage index message => insert_message index message s
  | OpReplaceMessages messages => Some (replace_messages messages s)
  | OpTruncateMessages len => Some (truncate_messages len s)
  | OpRemoveToolUseBlocks message_id => Some (remove_tool_use_blocks message_id s)
  | OpEnsureContext now env id => Some (ensure_initial_session_context_message now env id s).2
  | OpRefreshContext => Some (refresh_initial_session_context_message s).2
  | OpEnvSnapshot snapshot => Some (record_env_snapshot snapshot s)
  | OpMemoryInjection now summary content count age_ms memory_ids =>
      Some (record_memory_injection now summary content count age_ms memory_ids s)
  | OpDisplayMessage now role title content =>
      Some (record_replay_display_message now role title content s)
  | OpSwarmStatus now members => Some (record_swarm_status_event now members s)
  | OpSwarmPlan now swarm_id version items participants reason =>
      Some (record_swarm_plan_event now swarm_id version items participants reason s)
  | OpRenameTitle now title => Some (rename_title now title s)
  | OpMarkSaved label => Some (mark_saved label s)
  | OpUnmarkSaved => Some (unmark_saved s)
  | OpSetCanary build_hash => Some (set_canary build_hash s)
  | OpClearCanary => Some (clear_canary s)
  | OpSetDebug is_debug => Some (set_debug is_debug s)
  | OpSetStatus status => Some (set_status status s)
  | OpMarkError message => Some (mark_error message s)
  | OpSetCompaction compaction => Some (se_set_compaction compaction s)
  | OpSetModel model => Some (se_set_model model s)
  | OpSetProviderKey provider_key => Some (se_set_provider_key provider_key s)
  | OpSetProviderSessionId id => Some (se_set_provider_session_id id s)
  | OpSetImproveMode mode => Some (se_set_improve_mode mode s)
  | OpProviderMessages => Some (provider_messages s).2
  | OpMemoryProfile => Some (memory_profile_snapshot s).2
  end.

(** A run, [None] when an insertion panics. *)
Fixpoint run_ops (ops : list SessionOp) (s : Session) : option Session :=
  match ops with
  | [] => Some s
  | op :: ops => apply_op op s ≫= run_ops ops
  end.

(** ** Refreshing the converted messages *)

Lemma push_stored_spec ms : ∀ s,
  let s' := push_stored_messages ms s in
  se_provider_messages_cache s' = se_provider_messages_cache s ++ (to_message <$> ms)
  ∧ se_messages s' = se_messages s
  ∧ (se_provider_message_prefix_hashes_cache s
     = prefix_hashes_for_messages (se_provider_messages_cache s) →
     se_provider_message_prefix_hashes_cache s'
     = prefix_hashes_for_messages (se_provider_messages_cache s')).
Proof.
  induction ms as [|m ms IH]; intros s; cbn zeta; cbn [fmap list_fmap].
  { by rewrite app_nil_r. }
  change (push_stored_messages (m :: ms) s)
    with (push_stored_messages ms (push_provider_message_cache_entry (to_message m) s)).
  destruct (IH (push_provider_message_cache_entry (to_message m) s)) as (Hc & Hm & Hh).
  cbn in Hc, Hm, Hh. split; [|split].
  - rewrite Hc. by rewrite <- app_assoc.
  - done.
  - intros Heq. apply Hh. rewrite prefix_hashes_snoc, Heq. done.
Qed.

(** The converted messages are those of the transcript, up to the length that
    was converted, unless the mode asks for a rebuild. *)
Definition cache_ok (s : Session) : Prop :=
  se_provider_messages_cache_mode s = ModeFull
  ∨ se_provider_messages_cache_len s ≤ length (se_messages s)
    ∧ se_provider_messages_cache s
      = to_message <$> take (se_provider_messages_cache_len s) (se_messages s)
    ∧ se_provider_message_prefix_hashes_cache s
      = prefix_hashes_for_messages (se_provider_messages_cache s)
    ∧ (se_provider_messages_cache_mode s = ModeClean →
       se_provider_messages_cache_len s = length (se_messages s)).

Lemma finish_after_push ms s :
  se_provider_messages_cache s ++ (to_message <$> ms) = to_message <$> se_messages s →
  se_provider_message_prefix_hashes_cache s
  = prefix_hashes_for_messages (se_provider_messages_cache s) →
  let s' := finish_provider_messages (push_stored_messages ms s) in
  se_provider_messages_cache s' = to_message <$> se_messages s
  ∧ se_provider_message_prefix_hashes_cache s'
    = prefix_hashes_for_messages (to_message <$> se_messages s)
  ∧ se_messages s' = se_messages s
  ∧ se_provider_messages_cache_mode s' = ModeClean
  ∧ se_provider_messages_cache_len s' = length (se_messages s).
Proof.
  intros Happ Hh. destruct (push_stored_spec ms s) as (Hc & Hm & Hhash).
  cbn. rewrite Hm, (Hhash Hh), Hc, Happ. done.
Qed.

Lemma refresh_spec s :
  cache_ok s →
  let s' := refresh_provider_messages s in
  se_provider_messages_cache s' = messages_for_provider_uncached s
  ∧ se_provider_message_prefix_hashes_cache s'
    = prefix_hashes_for_messages (messages_for_provider_uncached s)
  ∧ se_messages s' = se_messages s
  ∧ cache_ok s'.
Proof.
  intros Hok. unfold refresh_provider_messages, messages_for_provider_uncached,
    stored_messages_to_messages.
  assert (Hdone : ∀ s', se_provider_messages_cache s' = to_message <$> se_messages s →
    se_provider_message_prefix_hashes_cache s'
    = prefix_hashes_for_messages (to_message <$> se_messages s) →
    se_messages s' = se_messages s →
    se_provider_messages_cache_mode s' = ModeClean →
    se_provider_messages_cache_len s' = length (se_messages s) → cache_ok s').
  { intros s' Hf1 Hf2 Hf3 Hf4 Hf5. right. rewrite Hf1, Hf2, Hf3, Hf5.
    rewrite take_ge by lia. repeat split; auto. }
  destruct (bool_decide_reflect (se_provider_messages_cache_mode s = ModeFull)) as [Hf|Hf]; cbn [orb].
  { destruct (finish_after_push (se_messages s)
      (se_set_provider_message_prefix_hashes_cache [] (se_set_provider_messages_cache [] s)))
      as (Hf1 & Hf2 & Hf3 & Hf4 & Hf5); [done..|]. cbn zeta. eauto 10. }
  destruct Hok as [?|(Hle & Hc & Hh & Hclean)]; [done|].
  replace (length (se_messages s) <? se_provider_messages_cache_len s) with false
    by (symmetry; apply Nat.ltb_ge; lia).
  destruct (bool_decide_reflect (se_provider_messages_cache_mode s = ModeAppend)) as [Ha|Ha]; cbn [andb].
  - destruct (Nat.ltb_spec (se_provider_messages_cache_len s) (length (se_messages s))).
    + destruct (finish_after_push (drop (se_provider_messages_cache_len s) (se_messages s)) s)
        as (Hf1 & Hf2 & Hf3 & Hf4 & Hf5); [|done|cbn zeta; eauto 10].
      by rewrite Hc, <- fmap_app, take_drop.
    + rewrite Hh, Hc, take_ge by lia. repeat split; try done. right. auto.
  - assert (Hm : se_provider_messages_cache_mode s = ModeClean)
      by (destruct (se_provider_messages_cache_mode s); done).
    rewrite Hh, Hc, (Hclean Hm), take_ge by lia. repeat split; try done. right. auto.
Qed.

(** ** How an operation changes the transcript *)

Inductive transcript_change (s s' : Session) : Prop :=
| change_none :
    se_messages s' = se_messages s →
    se_provider_messages_cache s' = se_provider_messages_cache s →
    se_provider_message_prefix_hashes_cache s' = se_provider_message_prefix_hashes_cache s →
    se_provider_messages_cache_len s' = se_provider_messages_cache_len s →
    se_provider_messages_cache_mode s' = se_provider_messages_cache_mode s →
    transcript_change s s'
| change_append m :
    se_messages s' = se_messages s ++ [m] →
    se_provider_messages_cache s' = se_provider_messages_cache s →
    se_provider_message_prefix_hashes_cache s' = se_provider_message_prefix_hashes_cache s →
    se_provider_messages_cache_len s' = se_provider_messages_cache_len s →
    se_provider_messages_cache_mode s' = set_unless_full (se_provider_messages_cache_mode s) →
    transcript_change s s'
| change_full :
    se_provider_messages_cache_mode s' = ModeFull → transcript_change s s'
| change_refresh :
    s' = refresh_provider_messages s → transcript_change s s'.

Lemma apply_op_transcript op s s' : apply_op op s = Some s' → transcript_change s s'.
Proof.
  destruct op; cbn [apply_op]; unfold insert_message, truncate_messages, remove_tool_use_blocks,
    ensure_initial_session_context_message, refresh_initial_session_context_message,
    record_env_snapshot, record_swarm_status_event, record_swarm_plan_event, mark_saved,
    memory_profile_snapshot, ensure_memory_profile_cache;
    repeat case_match; intros [= <-];
    first [ by apply change_full | by eapply change_append | by apply change_none
          | by apply change_refresh ].
Qed.

Lemma transcript_change_ok s s' : transcript_change s s' → cache_ok s → cache_ok s'.
Proof.
  intros [Hf1 Hf2 Hf3 Hf4 Hf5|m Hf1 Hf2 Hf3 Hf4 Hf5|Hf| ->] Hok; [| | by left | by apply refresh_spec].
  - unfold cache_ok. by rewrite Hf1, Hf2, Hf3, Hf4, Hf5.
  - unfold cache_ok. rewrite Hf1, Hf2, Hf3, Hf4, Hf5.
    destruct Hok as [->|(Hle & Hc & Hh & _)]; [by left|].
    destruct (se_provider_messages_cache_mode s); [| |by left];
      right; (split; [|split; [|split; [done|done]]]);
      rewrite ?length_app; try lia; by rewrite take_app_le.
Qed.

Lemma run_ops_ind (P : Session → Prop) ops : ∀ s s',
  (∀ op s s', P s → apply_op op s = Some s' → P s') →
  P s → run_ops ops s = Some s' → P s'.
Proof.
  induction ops as [|op ops IH]; intros s s' Hstep HP; cbn [run_ops]; [by intros [= <-]|].
  destruct (apply_op op s) as [s1|] eqn:E; [|done]. apply (IH s1); eauto.
Qed.

Lemma run_ops_cache_ok ops s s' : cache_ok s → run_ops ops s = Some s' → cache_ok s'.
Proof.
  intros Hok Hrun. apply (run_ops_ind cache_ok ops s s'); try done.
  intros op t t' Hok' Hop. exact (transcript_change_ok _ _ (apply_op_transcript _ _ _ Hop) Hok').
Qed.

(** C23. However a session was made, changed and read, the messages handed to
    the provider are the conversion of its whole transcript, the hashes kept
    for them are the hashes of its prefixes, and reading them changes no
    message; so the agent's fast recording of a request is the recording of
    the transcript itself. *)
Theorem provider_messages_correct now env id parent title short ops s :
  run_ops ops (new_session now env id parent title short) = Some s →
  (provider_messages s).1 = messages_for_provider_uncached s
  ∧ (provider_message_prefix_hashes s).1
    = prefix_hashes_for_messages (messages_for_provider_uncached s)
  ∧ se_messages (provider_messages s).2 = se_messages s
  ∧ (∀ messages t, se_compaction s = None →
       let '(violation, (_, t')) := record_client_cache_request (Some "1") false messages s t in
       (violation, t') = record_request (messages_for_provider_uncached s) t).
Proof.
  intros Hrun. assert (Hok : cache_ok s) by (eapply run_ops_cache_ok, Hrun; by left).
  destruct (refresh_spec s Hok) as (Hc & Hh & Hm & _).
  repeat split; [done..|]. intros messages t Hnone.
  unfold record_client_cache_request, provider_message_prefix_hashes, provider_messages.
  rewrite bool_decide_true by done. cbn [fst snd negb andb should_track_client_cache].
  change (should_track_client_cache (Some "1")) with true. cbn [fst snd].
  rewrite Hh. unfold record_request, record_prefix_hashes.
  by destruct (record_prefix_hash_snapshot _ _ _ t).
Qed.

(** ** The memory profile *)

(** The part of the profile about what is stored, and what it should be. *)
Definition stored_profile (p : SessionMemoryProfileCache) :=
  (mp_messages_count p, mp_messages_json_bytes p, mp_message_stats p,
   mp_env_snapshots_count p, mp_env_snapshots_json_bytes p,
   mp_memory_injections_count p, mp_memory_injections_json_bytes p,
   mp_replay_events_count p, mp_replay_events_json_bytes p).

Definition exact_profile (s : Session) :=
  (length (se_messages s), json_bytes_sum stored_message_json (se_messages s),
   summarize_message_content (st_content <$> se_messages s),
   length (se_env_snapshots s), json_bytes_sum env_snapshot_json (se_env_snapshots s),
   length (se_memory_injections s),
   json_bytes_sum memory_injection_json (se_memory_injections s),
   length (se_replay_events s), json_bytes_sum replay_event_json (se_replay_events s)).

Definition profile_ok (s : Session) : Prop :=
  se_memory_profile_dirty s = true
  ∨ stored_profile (se_memory_profile_cache s) = exact_profile s.

Lemma json_bytes_sum_snoc {A} (f : A → string) l x :
  json_bytes_sum f (l ++ [x]) = json_bytes_sum f l + String.length (f x).
Proof. unfold json_bytes_sum. rewrite sum_list_with_app. cbn. lia. Qed.

(** Two sessions that agree on the stored parts and on the profile of them. *)
Definition same_stored (s s' : Session) : Prop :=
  se_messages s' = se_messages s ∧ se_env_snapshots s' = se_env_snapshots s
  ∧ se_memory_injections s' = se_memory_injections s ∧ se_replay_events s' = se_replay_events s
  ∧ stored_profile (se_memory_profile_cache s') = stored_profile (se_memory_profile_cache s)
  ∧ se_memory_profile_dirty s' = se_memory_profile_dirty s.

Lemma push_stored_same ms : ∀ s, same_stored s (push_stored_messages ms s).
Proof.
  induction ms as [|m ms IH]; intros s; [done|].
  change (push_stored_messages (m :: ms) s)
    with (push_stored_messages ms (push_provider_message_cache_entry (to_message m) s)).
  exact (IH (push_provider_message_cache_entry (to_message m) s)).
Qed.

Lemma refresh_same s : same_stored s (refresh_provider_messages s).
Proof.
  unfold refresh_provider_messages. repeat case_match; [| |done].
  - exact (push_stored_same _ (se_set_provider_message_prefix_hashes_cache []
      (se_set_provider_messages_cache [] s))).
  - exact (push_stored_same _ s).
Qed.

Lemma append_profile m s : profile_ok s → profile_ok (append_stored_message m s).
Proof.
  intros [Hd|He]; [by left|right]. revert He. unfold stored_profile, exact_profile. cbn.
  intros [= -> -> -> -> -> -> -> -> ->].
  rewrite length_app, json_bytes_sum_snoc, fmap_app. cbn. by rewrite summarize_snoc.
Qed.

Lemma ensure_context_cases now env id s :
  (ensure_initial_session_context_message now env id s).2 = s
  ∨ ∃ s1 m, (s1 = s ∨ ∃ d, s1 = se_set_working_dir d s)
      ∧ (ensure_initial_session_context_message now env id s).2 = append_stored_message m s1.
Proof.
  unfold ensure_initial_session_context_message. case_match; [by left|right].
  destruct (pe_working_dir env) as [d|]; eexists _, _; (split; [|reflexivity]); [right|left]; eauto.
Qed.

Lemma push_replay_profile event s : profile_ok s → profile_ok (push_replay_event event s).
Proof.
  intros [Hd|He]; [by left|right]. revert He. unfold stored_profile, exact_profile. cbn.
  intros [= -> -> -> -> -> -> -> -> ->]. by rewrite length_app, json_bytes_sum_snoc.
Qed.

Lemma apply_op_profile op s s' : profile_ok s → apply_op op s = Some s' → profile_ok s'.
Proof.
  intros Hok. destruct op; cbn [apply_op].
  - intros [= <-]. by apply append_profile.
  - unfold insert_message. case_match; [|done]. intros [= <-]. by left.
  - intros [= <-]. by left.
  - intros [= <-]. unfold truncate_messages. case_match; [by left|done].
  - intros [= <-]. unfold remove_tool_use_blocks. case_match; [by left|done].
  - intros [= <-].
    destruct (ensure_context_cases now env id s) as [->|(s1 & m & Hs1 & ->)]; [done|].
    apply append_profile. by destruct Hs1 as [->|[d ->]].
  - intros [= <-]. unfold refresh_initial_session_context_message. repeat case_match; first [done | by left].
  - intros [= <-]. unfold record_env_snapshot. case_match; [by left|].
    destruct Hok as [Hd|He]; [by left|right]. revert He. unfold stored_profile, exact_profile. cbn.
    intros [= -> -> -> -> -> -> -> -> ->]. by rewrite length_app, json_bytes_sum_snoc.
  - intros [= <-]. destruct Hok as [Hd|He]; [by left|right]. revert He.
    unfold stored_profile, exact_profile. cbn.
    intros [= -> -> -> -> -> -> -> -> ->]. by rewrite length_app, json_bytes_sum_snoc.
  - intros [= <-]. by apply push_replay_profile.
  - intros [= <-]. unfold record_swarm_status_event. case_match; [done|].
    by apply push_replay_profile.
  - intros [= <-]. unfold record_swarm_plan_event. case_match; [done|].
    by apply push_replay_profile.
  - by intros [= <-].
  - intros [= <-]. unfold mark_saved. by case_match.
  - by intros [= <-].
  - by intros [= <-].
  - by intros [= <-].
  - by intros [= <-].
  - by intros [= <-].
  - by intros [= <-].
  - by intros [= <-].
  - by intros [= <-].
  - by intros [= <-].
  - by intros [= <-].
  - by intros [= <-].
  - intros [= <-]. cbn [provider_messages snd].
    destruct (refresh_same s) as (Hm & He & Hi & Hr & Hp & Hd).
    unfold profile_ok, exact_profile. rewrite Hm, He, Hi, Hr, Hp, Hd. exact Hok.
  - intros [= <-]. cbn [memory_profile_snapshot snd]. unfold ensure_memory_profile_cache.
    case_match; [|done]. by right.
Qed.

(** The latest snapshots stay. *)
Lemma record_env_snapshot_kept snapshot s :
  se_env_snapshots (record_env_snapshot snapshot s)
  = drop (length (se_env_snapshots s) + 1 - MAX_ENV_SNAPSHOTS) (se_env_snapshots s ++ [snapshot]).
Proof.
  unfold record_env_snapshot. cbn -[Nat.ltb]. rewrite length_app. cbn [length].
  destruct (Nat.ltb_spec MAX_ENV_SNAPSHOTS (length (se_env_snapshots s) + 1)); cbn.
  - done.
  - by replace (length (se_env_snapshots s) + 1 - MAX_ENV_SNAPSHOTS) with 0 by lia.
Qed.

Lemma env_snapshots_bounded op s s' :
  length (se_env_snapshots s) ≤ MAX_ENV_SNAPSHOTS → apply_op op s = Some s' →
  length (se_env_snapshots s') ≤ MAX_ENV_SNAPSHOTS.
Proof.
  intros Hle. destruct op; cbn [apply_op]; try (by intros [= <-]);
    unfold insert_message, truncate_messages, remove_tool_use_blocks, mark_saved,
    refresh_initial_session_context_message, record_swarm_status_event, record_swarm_plan_event;
    try (repeat case_match; by intros [= <-]).
  - intros [= <-].
    destruct (ensure_context_cases now env id s) as [->|(s1 & m & [->|[d ->]] & ->)]; done.
  - intros [= <-]. rewrite record_env_snapshot_kept, length_drop, length_app. cbn. lia.
  - intros [= <-]. cbn [provider_messages snd].
    destruct (refresh_same s) as (_ & -> & _). done.
  - intros [= <-]. cbn [memory_profile_snapshot snd]. unfold ensure_memory_profile_cache.
    by case_match.
Qed.

(** However a session was made and changed, the profile it reports counts
    exactly the messages, snapshots, injections and replay events it stores,
    and the bytes of text in them, although the cache behind it is maintained
    by single additions and rebuilt only when marked; at most eight snapshots
    of the environment are kept, and recording one keeps the latest. *)
Theorem stored_profile_correct now env id parent title short ops s :
  run_ops ops (new_session now env id parent title short) = Some s →
  let report := (memory_profile_snapshot s).1 in
  sn_message_count report = length (se_messages s)
  ∧ sn_env_snapshot_count report = length (se_env_snapshots s)
  ∧ sn_memory_injection_count report = length (se_memory_injections s)
  ∧ sn_replay_event_count report = length (se_replay_events s)
  ∧ sn_payload_text_bytes report
    = payload_text_bytes (summarize_message_content (st_content <$> se_messages s))
  ∧ sn_total_json_bytes report
    = json_bytes_sum stored_message_json (se_messages s) + sn_provider_cache_json_bytes report
      + json_bytes_sum env_snapshot_json (se_env_snapshots s)
      + json_bytes_sum memory_injection_json (se_memory_injections s)
      + json_bytes_sum replay_event_json (se_replay_events s)
      + match se_compaction s with Some c => String.length (compaction_json c) | None => 0 end
  ∧ length (se_env_snapshots s) ≤ MAX_ENV_SNAPSHOTS
  ∧ (∀ snapshot, last (se_env_snapshots (record_env_snapshot snapshot s)) = Some snapshot).
Proof.
  intros Hrun.
  assert (Hinv : profile_ok s ∧ length (se_env_snapshots s) ≤ MAX_ENV_SNAPSHOTS).
  { apply (run_ops_ind (λ s, profile_ok s ∧ length (se_env_snapshots s) ≤ MAX_ENV_SNAPSHOTS)
      _ _ _) with (3 := Hrun).
    - intros op t t' [Hp He] Hop. eauto using apply_op_profile, env_snapshots_bounded.
    - split; [by right|]. cbn. lia. }
  destruct Hinv as [Hp Hle].
  assert (Hex : stored_profile (se_memory_profile_cache (ensure_memory_profile_cache s))
                = exact_profile s).
  { unfold ensure_memory_profile_cache. destruct Hp as [Hd|He]; [by rewrite Hd|].
    by case_match. }
  assert (Hcomp : se_compaction (ensure_memory_profile_cache s) = se_compaction s)
    by (unfold ensure_memory_profile_cache; by case_match).
  revert Hex. unfold stored_profile, exact_profile. cbn [memory_profile_snapshot fst].
  intros [= Hm Hb Hst He Heb Hi Hib Hr Hrb]. cbn.
  rewrite Hm, Hb, Hst, He, Heb, Hi, Hib, Hr, Hrb, Hcomp. repeat split; [done|].
  intros snapshot. rewrite record_env_snapshot_kept, drop_app_le by (unfold MAX_ENV_SNAPSHOTS; lia). apply last_snoc.
Qed.

(** The part of the profile about the converted messages is not exact: a
    rebuild of the cache adds to the counts of the cache it replaces, when a
    profile was reported between the change and the rebuild. *)
Lemma provider_profile_counts_twice now env id m :
  ∃ s, run_ops [OpReplaceMessages [m]; OpProviderMessages; OpReplaceMessages [m];
                OpMemoryProfile; OpProviderMessages; OpMemoryProfile]
         (new_session now env id None None None) = Some s
       ∧ length (se_provider_messages_cache s) = 1
       ∧ sn_provider_cache_message_count (memory_profile_snapshot s).1 = 2.
Proof. eexists. split; [reflexivity|]. split; reflexivity. Qed.

(** ** The visible conversation *)

Lemma filter_length_app {A} (p : A → bool) l1 l2 :
  length (List.filter p (l1 ++ l2)) = length (List.filter p l1) + length (List.filter p l2).
Proof. by rewrite List.filter_app, length_app. Qed.

Lemma stored_len_from_spec v ms : ∀ count idx n,
  count < v →
  stored_len_from count idx v ms = Some n ↔
  ∃ before m after, ms = before ++ m :: after ∧ n = idx + length before + 1
    ∧ is_visible_conversation_message m = true
    ∧ count + length (List.filter is_visible_conversation_message before) + 1 = v.
Proof.
  induction ms as [|x ms IH]; intros count idx n Hlt; cbn [stored_len_from].
  { split; [done|]. intros (before & m & after & Hms & _). by destruct before. }
  destruct (is_visible_conversation_message x) eqn:Hx.
  - destruct (Nat.eqb_spec (S count) v) as [Hv|Hv].
    + split.
      * intros [= <-]. exists [], x, ms. cbn. repeat split; [lia|done|lia].
      * intros (before & m & after & Hms & -> & Hm & Hc).
        destruct before as [|y before]; [cbn; f_equal; lia|].
        injection Hms as -> _. cbn in Hc. rewrite Hx in Hc. cbn in Hc. lia.
    + rewrite IH by lia. split.
      * intros (before & m & after & -> & -> & Hm & Hc).
        exists (x :: before), m, after. cbn. rewrite Hx. cbn. repeat split; [lia|done|lia].
      * intros (before & m & after & Hms & -> & Hm & Hc).
        destruct before as [|y before]; [cbn in Hc; lia|].
        injection Hms as -> ->. cbn in Hc. rewrite Hx in Hc. cbn in Hc.
        exists before, m, after. cbn. repeat split; [lia|done|lia].
  - rewrite IH by lia. split.
    + intros (before & m & after & -> & -> & Hm & Hc).
      exists (x :: before), m, after. cbn. rewrite Hx. repeat split; [lia|done|lia].
    + intros (before & m & after & Hms & -> & Hm & Hc).
      destruct before as [|y before]; [injection Hms as -> _; by rewrite Hm in Hx|].
      injection Hms as -> ->. cbn in Hc. rewrite Hx in Hc.
      exists before, m, after. cbn. repeat split; [lia|done|lia].
Qed.

Lemma stored_len_from_None v ms : ∀ count idx,
  count < v → stored_len_from count idx v ms = None ↔
  count + length (List.filter is_visible_conversation_message ms) < v.
Proof.
  induction ms as [|x ms IH]; intros count idx Hlt; cbn [stored_len_from List.filter length].
  { split; [lia|done]. }
  destruct (is_visible_conversation_message x); [|by rewrite IH].
  destruct (Nat.eqb_spec (S count) v); cbn [length].
  - split; [done|lia].
  - rewrite IH by lia. lia.
Qed.

(** Cutting the transcript at the length found for the i-th visible message
    leaves exactly i visible messages and ends with the i-th; a length is found
    for every visible message and for no other number. *)
Theorem rewind_correct i s :
  (∀ n, stored_len_for_visible_conversation_message i s = Some n →
     visible_conversation_messages (truncate_messages n s)
     = take i (visible_conversation_messages s)
     ∧ visible_conversation_message_count (truncate_messages n s) = i
     ∧ ∃ m, last (se_messages (truncate_messages n s)) = Some m
            ∧ is_visible_conversation_message m = true)
  ∧ (is_Some (stored_len_for_visible_conversation_message i s)
     ↔ 1 ≤ i ≤ visible_conversation_message_count s).
Proof.
  unfold stored_len_for_visible_conversation_message, visible_conversation_message_count,
    visible_conversation_messages.
  destruct (Nat.eqb_spec i 0) as [->|Hi].
  { split; [done|]. split; [by intros []|lia]. }
  split.
  - intros n Hn. apply stored_len_from_spec in Hn as (before & m & after & Hms & -> & Hm & Hc); [|lia].
    assert (Htr : se_messages (truncate_messages (0 + length before + 1) s) = before ++ [m]).
    { unfold truncate_messages. rewrite Hms, length_app. cbn [length].
      destruct (Nat.ltb_spec (0 + length before + 1) (length before + S (length after)));
        cbn [mark_messages_full_dirty mark_memory_profile_dirty se_messages se_set_messages
          se_set_provider_messages_cache_mode se_set_persist_state se_set_memory_profile_dirty].
      - rewrite take_app_ge by lia. f_equal.
        by replace (0 + length before + 1 - length before) with 1 by lia.
      - destruct after; [|cbn in *; lia]. done. }
    rewrite Htr, Hms. cbn [Nat.add] in Hc.
    assert (Hf : List.filter is_visible_conversation_message (before ++ [m])
                 = List.filter is_visible_conversation_message before ++ [m])
      by (rewrite List.filter_app; cbn; by rewrite Hm).
    rewrite Hf, (List.filter_app _ before (m :: after)). cbn [List.filter]. rewrite Hm.
    split; [|split].
    + rewrite take_app_ge by lia.
      by replace (i - length (List.filter is_visible_conversation_message before)) with 1 by lia.
    + rewrite length_app. cbn. lia.
    + exists m. by rewrite last_snoc.
  - rewrite <- not_eq_None_Some, stored_len_from_None by lia. lia.
Qed.
End theorems.
