(* ===== verification/Storage.v ===== *)
(** * Files ([crates/gcode-storage/src/lib.rs], [src/storage.rs])

    A file system whose calls may fail, and the helpers that write a file
    through a temporary one, append a line, and read with a backup. Failures
    are a list of outcomes that the calls consume in order; a crash of the
    process is a list in which every later call fails. *)

From S2P Require Import Prelude Utf8 Text.
Open Scope nat_scope.

(** ** UTF-8 *)

(** The state of the decoder of [std::str::from_utf8]: how many continuation
    bytes are due, and the range of the next one. *)
Definition utf8_step (state : nat * nat * nat) (b : nat) : option (nat * nat * nat) :=
  let '(due, lo, hi) := state in
  let between a c := (a <=? b) && (b <=? c) in
  match due with
  | 0 =>
      if b <? 128 then Some (0, 128, 191)
      else if between 194 223 then Some (1, 128, 191)
      else if b =? 224 then Some (2, 160, 191)
      else if between 225 236 || between 238 239 then Some (2, 128, 191)
      else if b =? 237 then Some (2, 128, 159)
      else if b =? 240 then Some (3, 144, 191)
      else if between 241 243 then Some (3, 128, 191)
      else if b =? 244 then Some (3, 128, 143)
      else None
  | S due => if between lo hi then Some (due, 128, 191) else None
  end.

Fixpoint utf8_from (state : nat * nat * nat) (s : string) : option (nat * nat * nat) :=
  match s with
  | EmptyString => Some state
  | String b s => utf8_step state (Ascii.nat_of_ascii b) ≫= λ state, utf8_from state s
  end.

Definition utf8_valid (s : string) : bool := bool_decide (utf8_from (0, 128, 191) s = Some (0, 128, 191)).

(** ** Paths *)

(** The text up to and with the last [c], and what follows it. *)
Fixpoint rsplit_at (c : Ascii.ascii) (s : string) : option (string * string) :=
  match s with
  | EmptyString => None
  | String b rest =>
      match rsplit_at c rest with
      | Some (before, after) => Some (String b before, after)
      | None => if Ascii.eqb b c then Some (String b "", rest) else None
      end
  end.

Definition slash : Ascii.ascii := Ascii.ascii_of_nat 47.
Definition dot : Ascii.ascii := Ascii.ascii_of_nat 46.

(** [Path::join]: an absolute path replaces the base. *)
Definition path_join (base part : string) : string :=
  if starts_with "/" part then part
  else if (base =s "") || match rsplit_at slash base with Some (_, after) => after =s "" | None => false end
  then base +:+ part
  else base +:+ "/" +:+ part.

(** The directory of a path, with its slash, and the file name. *)
Definition path_split (path : string) : string * string := default ("", path) (rsplit_at slash path).

(** [Path::parent], for paths with a file name. *)
Definition path_parent (path : string) : string :=
  match rsplit_at slash path with
  | Some (dir, _) => if dir =s "/" then "/" else str_take (String.length dir - 1) dir
  | None => ""
  end.

(** [Path::file_stem] of a file name: up to the last dot, unless that is the
    first character. *)
Definition file_stem (name : string) : string :=
  match rsplit_at dot name with
  | Some (before, _) => if before =s "." then name else str_take (String.length before - 1) before
  | None => name
  end.

(** [Path::extension] *)
Definition file_extension (name : string) : option string :=
  match rsplit_at dot name with
  | Some (before, after) => if before =s "." then None else Some after
  | None => None
  end.

Definition with_file_name (path name : string) : string := (path_split path).1 +:+ name.

Definition with_extension (path extension : string) : string :=
  with_file_name path (file_stem (path_split path).2 +:+ "." +:+ extension).

(** ** The file system *)

Inductive Outcome := Succeeds | Breaks (written : usize).

Record World := {
  w_files : gmap string string;
  w_dirs : gset string;
  w_faults : list Outcome;
  w_gcode_dir : string + string;
}.

Definition set_files (files : gmap string string) (w : World) : World :=
  {| w_files := files; w_dirs := w_dirs w; w_faults := w_faults w; w_gcode_dir := w_gcode_dir w |}.

Definition set_dirs (dirs : gset string) (w : World) : World :=
  {| w_files := w_files w; w_dirs := dirs; w_faults := w_faults w; w_gcode_dir := w_gcode_dir w |}.

Definition set_faults (faults : list Outcome) (w : World) : World :=
  {| w_files := w_files w; w_dirs := w_dirs w; w_faults := faults; w_gcode_dir := w_gcode_dir w |}.

(** Computations that change the world and may fail with a message. *)
Definition IO (A : Type) : Type := World → (A + string) * World.

Definition io_ret {A} (x : A) : IO A := λ w, (inl x, w).
Definition io_fail {A} (e : string) : IO A := λ w, (inr e, w).

Definition io_bind {A B} (m : IO A) (f : A → IO B) : IO B := λ w,
  match m w with
  | (inl x, w) => f x w
  | (inr e, w) => (inr e, w)
  end.

(** [let _ = m;] *)
Definition io_ignore {A} (m : IO A) : IO unit := λ w, (inl (), (m w).2).

Declare Scope io_scope.
Notation "x <-! m ; k" := (io_bind m (λ x, k))
  (at level 100, m at next level, right associativity) : io_scope.
Notation "m ;! k" := (io_bind m (λ _, k)) (at level 100, right associativity) : io_scope.
Open Scope io_scope.

(** The outcome of the next call; without a list every call succeeds. *)
Definition next_outcome : IO Outcome := λ w,
  match w_faults w with
  | [] => (inl Succeeds, w)
  | o :: rest => (inl o, set_faults rest w)
  end.

Definition io_error : string := "I/O error".
Definition not_found : string := "No such file or directory (os error 2)".

(** A call without partial effect. *)
Definition io_call {A} (m : IO A) : IO A :=
  o <-! next_outcome; match o with Succeeds => m | Breaks _ => io_fail io_error end.

Definition get_file (path : string) : World → option string := λ w, w_files w !! path.

Definition path_exists (path : string) (w : World) : bool :=
  bool_decide (is_Some (w_files w !! path)) || bool_decide (path ∈ w_dirs w).

Definition io_exists (path : string) : IO bool := λ w, (inl (path_exists path w), w).

Definition put_file (path text : string) : IO unit := λ w,
  (inl (), set_files (<[path := text]> (w_files w)) w).

(** [File::create] *)
Definition file_create (path : string) : IO unit := io_call (put_file path "").

(** [OpenOptions::new().create(true).append(true).open] *)
Definition open_append (path : string) : IO unit :=
  io_call (λ w, match w_files w !! path with
                | Some _ => (inl (), w)
                | None => put_file path "" w
                end).

(** Writing at the end of an open file; a failing call may have written a part. *)
Definition write_bytes (path bytes : string) : IO unit :=
  o <-! next_outcome;
  match o with
  | Succeeds => λ w, put_file path (default "" (w_files w !! path) +:+ bytes) w
  | Breaks n => λ w,
      (inr io_error, (put_file path (default "" (w_files w !! path) +:+ str_take n bytes) w).2)
  end.

(** [std::fs::rename] *)
Definition rename (from to : string) : IO unit :=
  io_call (λ w, match w_files w !! from with
                | Some text => (inl (), set_files (<[to := text]> (delete from (w_files w))) w)
                | None => (inr not_found, w)
                end).

(** [std::fs::remove_file] *)
Definition remove_file (path : string) : IO unit :=
  io_call (λ w, match w_files w !! path with
                | Some _ => (inl (), set_files (delete path (w_files w)) w)
                | None => (inr not_found, w)
                end).

(** [std::fs::read_to_string] *)
Definition read_to_string (path : string) : IO string :=
  io_call (λ w, match w_files w !! path with
                | Some text =>
                    if utf8_valid text then (inl text, w)
                    else (inr "stream did not contain valid UTF-8", w)
                | None => (inr not_found, w)
                end).

(** [std::fs::copy] *)
Definition copy_file (from to : string) : IO unit :=
  io_call (λ w, match w_files w !! from with
                | Some text => put_file to text w
                | None => (inr not_found, w)
                end).

Definition create_dir_all (path : string) : IO unit :=
  io_call (λ w, (inl (), set_dirs ({[path]} ∪ w_dirs w) w)).

(** A call that only touches what is not modelled: permissions, [sync_all]. *)
Definition other_call : IO unit := io_call (io_ret ()).

(** ** The helpers of gcode-storage *)

Definition gcode_dir : IO string := λ w, (w_gcode_dir w, w).

Definition ensure_dir (path : string) : IO unit :=
  exists_ <-! io_exists path;
  if exists_ then io_ret () else create_dir_all path ;! other_call.

(** [rand::random()] and the process id give the suffix of temporary files. *)
Definition write_bytes_inner (tmp_suffix path bytes : string) (durable : bool) : IO unit :=
  ensure_dir (path_parent path) ;!
  let tmp_path := with_extension path ("tmp." +:+ tmp_suffix) in
  let attempt : IO unit :=
    file_create tmp_path ;!
    write_bytes tmp_path bytes ;!
    (if durable then other_call else io_ret ()) ;!
    (exists_ <-! io_exists path;
     if exists_ then io_ignore (rename path (with_extension path "bak")) else io_ret ()) ;!
    rename tmp_path path ;!
    (if durable then io_ignore other_call else io_ret ()) in
  λ w, match attempt w with
       | (inl (), w) => (inl (), w)
       | (inr e, w) => (inr e, (io_ignore (remove_file tmp_path) w).2)
       end.

(** The JSON text of the value is an argument. *)
Definition write_json_fast (tmp_suffix path json : string) : IO unit :=
  write_bytes_inner tmp_suffix path json false.

Definition write_json (tmp_suffix path json : string) : IO unit :=
  write_bytes_inner tmp_suffix path json true.

Definition append_json_line_fast (path json : string) : IO unit :=
  ensure_dir (path_parent path) ;!
  open_append path ;!
  write_bytes path json ;!
  write_bytes path nl.

(** [read_json_with_recovery_handler], without its messages. *)
Definition read_json {A} (parse : string → option A) (path : string) : IO A :=
  data <-! read_to_string path;
  match parse data with
  | Some val => io_ret val
  | None =>
      let bak_path := with_extension path "bak" in
      exists_ <-! io_exists bak_path;
      if exists_ then
        bak_data <-! read_to_string bak_path;
        match parse bak_data with
        | Some val => io_ignore (copy_file bak_path path) ;! io_ret val
        | None => io_fail ("Corrupt JSON at " +:+ path +:+ ", backup also corrupt")
        end
      else io_fail ("Corrupt JSON at " +:+ path)
  end.

Definition write_text_secret (tmp_suffix path content : string) : IO unit :=
  write_bytes_inner tmp_suffix path content true ;! other_call ;! other_call.

(** ** Files of environment variables *)

Definition env_line (env_key value : string) : string := env_key +:+ "=" +:+ value.

Definition upsert_env_text (existing env_key : string) (value : option string) : string :=
  let prefix := env_key +:+ "=" in
  let is_key line := starts_with prefix line in
  let kept := concat ((λ line,
    if is_key line then match value with Some value => [env_line env_key value] | None => [] end
    else [line]) <$> lines existing) in
  let added := match value with
               | Some value => if existsb is_key (lines existing) then [] else [env_line env_key value]
               | None => []
               end in
  let content := join nl (kept ++ added) in
  if content =s "" then content else content +:+ nl.

Definition upsert_env_file_value (tmp_suffix path env_key : string) (value : option string)
    : IO unit := λ w,
  let '(existing, w) := read_to_string path w in
  let existing := match existing with inl text => text | inr _ => "" end in
  write_text_secret tmp_suffix path (upsert_env_text existing env_key value) w.
