(* ===== verification/StorageTheorems.v ===== *)
(** * What the file helpers guarantee

    The names of temporary and backup files are apart from those of the files
    themselves; a write either replaces the whole file or leaves it, except for
    the moment between its two renames; an append adds a line; reading gives
    back what was written; updating a file of variables changes one variable. *)

From S2P Require Import Prelude Utf8 Text Storage.
Open Scope nat_scope.
Open Scope io_scope.

#[local] Arguments String.append !_ _ / : simpl nomatch.

(** ** Names *)

Fixpoint char_in (c : Ascii.ascii) (s : string) : bool :=
  match s with EmptyString => false | String b s => Ascii.eqb b c || char_in c s end.

Lemma rsplit_at_last c a b :
  char_in c b = false → rsplit_at c (a +:+ String c b) = Some (a +:+ String c "", b).
Proof.
  intros Hb.
  assert (Hnone : ∀ s, char_in c s = false → rsplit_at c s = None).
  { induction s as [|x s IH]; [done|]. cbn. intros [Hx Hs]%orb_false_iff. by rewrite IH, Hx. }
  induction a as [|x a IH]; cbn.
  - by rewrite (Hnone b Hb), Ascii.eqb_refl.
  - by rewrite IH.
Qed.

Lemma rsplit_at_none c s : char_in c s = false → rsplit_at c s = None.
Proof.
  induction s as [|x s IH]; [done|]. cbn. intros [Hx Hs]%orb_false_iff. by rewrite IH, Hx.
Qed.

Lemma rsplit_at_app c s t :
  char_in c t = false →
  rsplit_at c (s +:+ t) = prod_map id (λ after, after +:+ t) <$> rsplit_at c s.
Proof.
  intros Ht. induction s as [|x s IH]; cbn; [by apply rsplit_at_none|].
  rewrite IH. destruct (rsplit_at c s) as [[a b]|]; cbn; [done|]. by destruct (Ascii.eqb x c).
Qed.

Lemma rsplit_at_join c s a b : rsplit_at c s = Some (a, b) → s = a +:+ b.
Proof.
  revert a b. induction s as [|x s IH]; intros a b; cbn; [done|].
  destruct (rsplit_at c s) as [[a' b']|].
  - intros [= <- <-]. by rewrite (IH a' b').
  - destruct (Ascii.eqb x c); [|done]. by intros [= <- <-].
Qed.

Lemma path_split_join path : path = (path_split path).1 +:+ (path_split path).2.
Proof.
  unfold path_split. destruct (rsplit_at slash path) as [[a b]|] eqn:E; [|done].
  by apply rsplit_at_join in E.
Qed.

Lemma str_take_front a b : str_take (String.length a) (a +:+ b) = a.
Proof. induction a as [|x a IH]; cbn; [by destruct b|]. by rewrite IH. Qed.

Lemma str_app_inj_l a b c : a +:+ b = a +:+ c → b = c.
Proof. induction a as [|x a IH]; cbn; [done|]. intros [= E]. auto. Qed.

Lemma str_app_ne_self a b : b ≠ "" → a +:+ b ≠ a.
Proof. intros Hb E. apply Hb, (str_app_inj_l a). by rewrite str_app_nil_r. Qed.

(** The directory and the stem of a path that ends in [.json]: with another
    extension it is a different path. *)
Lemma json_path_names s :
  let path := s +:+ ".json" in
  ∃ dir stem, (∀ ext, with_extension path ext = dir +:+ stem +:+ "." +:+ ext)
    ∧ file_stem (path_split path).2 = stem ∧ (path_split path).1 = dir
    ∧ (path = dir +:+ stem +:+ ".json" ∨ path = dir +:+ stem).
Proof.
  cbn zeta. unfold with_extension, with_file_name.
  pose proof (path_split_join (s +:+ ".json")) as Hj.
  set (dir := (path_split (s +:+ ".json")).1) in *.
  set (name := (path_split (s +:+ ".json")).2) in *.
  exists dir, (file_stem name). split; [done|]. split; [done|]. split; [done|].
  assert (Hname : ∃ n, name = n +:+ ".json").
  { subst name. unfold path_split. rewrite rsplit_at_app by done.
    destruct (rsplit_at slash s) as [[a b]|]; cbn; eauto. }
  destruct Hname as [n Hn]. rewrite Hn in *.
  unfold file_stem. change (n +:+ ".json") with (n +:+ String dot "json").
  rewrite rsplit_at_last by done. destruct (n +:+ String dot "" =s ".") eqn:E.
  - right. by rewrite Hj.
  - left. rewrite Hj. do 2 f_equal.
    rewrite str_length_app. cbn. replace (String.length n + 1 - 1) with (String.length n) by lia.
    by rewrite str_take_front.
Qed.

Lemma str_app_nonempty x y : y ≠ "" → x +:+ y ≠ "".
Proof. by destruct x. Qed.

(** A name in a directory whose own name has no slash. *)
Lemma path_join_dir base last name :
  starts_with "/" last = false → starts_with "/" name = false →
  last ≠ "" → char_in slash last = false →
  path_join (path_join base last) name = path_join base last +:+ "/" +:+ name.
Proof.
  intros Hl Hn Hne Hs. unfold path_join at 1. rewrite Hn.
  assert (∃ x, path_join base last = x +:+ last) as [x ->].
  { unfold path_join. rewrite Hl. destruct (_ || _); [by exists base|].
    exists (base +:+ "/"). by rewrite str_app_assoc. }
  rewrite rsplit_at_app by done.
  rewrite (proj2 (String.eqb_neq _ _) (str_app_nonempty x last Hne)). cbn [orb].
  destruct (rsplit_at slash x) as [[a b]|]; cbn; [|by rewrite str_app_assoc].
  by rewrite (proj2 (String.eqb_neq _ _) (str_app_nonempty b last Hne)), str_app_assoc.
Qed.

(** A file of [json] text, its temporary file and its backup are three files. *)
Lemma json_path_apart s suffix :
  let path := s +:+ ".json" in
  let tmp := with_extension path ("tmp." +:+ suffix) in
  let bak := with_extension path "bak" in
  tmp ≠ path ∧ bak ≠ path ∧ tmp ≠ bak.
Proof.
  cbn zeta.
  destruct (json_path_names s) as (dir & stem & Hext & _ & _ & Hname). rewrite !Hext. clear Hext.
  assert (Hne : ∀ a, a ≠ ".json" → a ≠ "" → dir +:+ stem +:+ a ≠ s +:+ ".json").
  { intros a Ha Ha0 E. destruct Hname as [Hn|Hn]; rewrite Hn in E; apply (str_app_inj_l dir) in E.
    - by apply (str_app_inj_l stem) in E.
    - by apply (str_app_ne_self stem a). }
  repeat split; try (apply Hne; done).
  intros E; apply (str_app_inj_l dir), (str_app_inj_l stem) in E; discriminate.
Qed.

(** The other names of a file of a directory. *)
Lemma with_extension_in dir name ext :
  char_in slash name = false →
  with_extension (dir +:+ "/" +:+ name) ext = dir +:+ "/" +:+ file_stem name +:+ "." +:+ ext.
Proof.
  intros Hs. unfold with_extension, with_file_name, path_split.
  change (dir +:+ "/" +:+ name) with (dir +:+ String slash name).
  rewrite rsplit_at_last by done. cbn [fst snd default]. unfold id. cbn [fst snd].
  by rewrite str_app_assoc.
Qed.

(** ** Calls *)

Definition reliable (w : World) : Prop := w_faults w = [].

Lemma io_call_reliable {A} (m : IO A) w : reliable w → io_call m w = m w.
Proof. unfold io_call, io_bind, next_outcome. by intros ->. Qed.

(** The files a computation may change. *)
Definition touches {A} (paths : list string) (m : IO A) : Prop :=
  ∀ w q, q ∉ paths → w_files (m w).2 !! q = w_files w !! q.

Lemma io_touches_ret {A} ps (x : A) : touches ps (io_ret x).
Proof. by intros w q _. Qed.

Lemma io_touches_bind {A B} ps (m : IO A) (f : A → IO B) :
  touches ps m → (∀ x, touches ps (f x)) → touches ps (io_bind m f).
Proof.
  intros Hm Hf w q Hq. unfold io_bind. specialize (Hm w q Hq).
  destruct (m w) as [[x|e] w1]; cbn in *; [by rewrite Hf|done].
Qed.

Lemma touches_ignore {A} ps (m : IO A) : touches ps m → touches ps (io_ignore m).
Proof. intros Hm w q Hq. apply (Hm w q Hq). Qed.

Lemma touches_next ps : touches ps next_outcome.
Proof. intros w q _. unfold next_outcome. by destruct (w_faults w). Qed.

Lemma touches_call {A} ps (m : IO A) : touches ps m → touches ps (io_call m).
Proof.
  intros Hm. apply io_touches_bind; [apply touches_next|]. intros []; [done|]. by intros w q _.
Qed.

Lemma touches_put ps path text : path ∈ ps → touches ps (put_file path text).
Proof.
  intros Hp w q Hq. cbn. rewrite lookup_insert_ne; [done|]. by intros ->.
Qed.

Lemma touches_exists ps path : touches ps (io_exists path).
Proof. by intros w q _. Qed.

Create HintDb touch.
#[export] Hint Resolve io_touches_ret io_touches_bind touches_ignore touches_next touches_call
  touches_put touches_exists : touch.
#[export] Hint Extern 5 (_ ∈ _) => set_solver : touch.

Lemma io_touches_create ps path : path ∈ ps → touches ps (file_create path).
Proof. intros. apply touches_call, touches_put. done. Qed.

Lemma touches_open_append ps path : path ∈ ps → touches ps (open_append path).
Proof.
  intros Hp. apply touches_call. intros w q Hq. destruct (w_files w !! path); [done|].
  by apply (touches_put ps).
Qed.

Lemma io_touches_write ps path bytes : path ∈ ps → touches ps (write_bytes path bytes).
Proof.
  intros Hp. apply io_touches_bind; [apply touches_next|].
  intros [|n] w q Hq; by apply (touches_put ps path _ Hp w q Hq).
Qed.

Lemma touches_rename ps from to : from ∈ ps → to ∈ ps → touches ps (rename from to).
Proof.
  intros Hf Ht. apply touches_call. intros w q Hq. destruct (w_files w !! from); [|done].
  cbn. rewrite lookup_insert_ne, lookup_delete_ne; [done| |]; by intros ->.
Qed.

Lemma io_touches_remove ps path : path ∈ ps → touches ps (remove_file path).
Proof.
  intros Hp. apply touches_call. intros w q Hq. destruct (w_files w !! path); [|done].
  cbn. rewrite lookup_delete_ne; [done|]. by intros ->.
Qed.

Lemma touches_ensure_dir ps path : touches ps (ensure_dir path).
Proof.
  apply io_touches_bind; [apply touches_exists|]. intros []; [apply io_touches_ret|].
  apply io_touches_bind; [|intros _]; by apply touches_call; intros w q _.
Qed.

(** ** Weakest preconditions over the files, whatever the calls' outcomes *)

Abbreviation files := (gmap string string) (only parsing).

Definition wp {A} (m : IO A) (Q : A → files → Prop) (E : files → Prop) (w : World) : Prop :=
  match m w with
  | (inl x, w') => Q x (w_files w')
  | (inr _, w') => E (w_files w')
  end.

Lemma wp_bind {A B} (m : IO A) (f : A → IO B) Q E w :
  (∀ r w', m w = (r, w') → match r with inl x => wp (f x) Q E w' | inr _ => E (w_files w') end) →
  wp (io_bind m f) Q E w.
Proof.
  unfold wp at 2, io_bind. destruct (m w) as [[x|e] w'] eqn:Em; intros Hb; exact (Hb _ _ eq_refl).
Qed.

(** Sequencing through an assertion on the files between. *)
Lemma wp_seq {A B} (R : A → files → Prop) (m : IO A) (f : A → IO B) Q E w :
  wp m R E w → (∀ x w', R x (w_files w') → wp (f x) Q E w') → wp (io_bind m f) Q E w.
Proof.
  intros Hm Hf. apply wp_bind. intros r w' Em. unfold wp in Hm. rewrite Em in Hm.
  destruct r; [by apply Hf|done].
Qed.

Lemma wp_ret {A} (x : A) Q E w : Q x (w_files w) → wp (io_ret x) Q E w.
Proof. done. Qed.

Lemma wp_ignore {A} (m : IO A) (Q : unit → files → Prop) E w :
  wp m (λ _, Q ()) (Q ()) w → wp (io_ignore m) Q E w.
Proof. unfold wp, io_ignore. destruct (m w) as [[] w']; done. Qed.

Lemma wp_exists path (Q : bool → files → Prop) E w :
  (∀ b, Q b (w_files w)) → wp (io_exists path) Q E w.
Proof. intros Hq. apply Hq. Qed.

Lemma wp_next (Q : Outcome → files → Prop) E w :
  (∀ o, Q o (w_files w)) → wp next_outcome Q E w.
Proof. unfold wp, next_outcome. destruct (w_faults w); cbn; eauto. Qed.

Lemma wp_call {A} (m : IO A) Q E w :
  E (w_files w) → (∀ w', w_files w' = w_files w → wp m Q E w') → wp (io_call m) Q E w.
Proof.
  intros He Hm. apply (wp_seq (λ _ f, f = w_files w)); [by apply wp_next|].
  intros [|n] w' Hw'; [by apply Hm|]. unfold wp. cbn. by rewrite Hw'.
Qed.

Lemma wp_create path (Q : unit → files → Prop) (E : files → Prop) w :
  E (w_files w) → Q () (<[path := ""]> (w_files w)) → wp (file_create path) Q E w.
Proof. intros He Hq. apply wp_call; [done|]. intros w' Hw'. unfold wp. cbn. by rewrite Hw'. Qed.

Lemma wp_open_append path (Q : unit → files → Prop) (E : files → Prop) w :
  E (w_files w) →
  Q () (match w_files w !! path with Some _ => w_files w | None => <[path := ""]> (w_files w) end) →
  wp (open_append path) Q E w.
Proof.
  intros He Hq. apply wp_call; [done|]. intros w' Hw'. unfold wp. rewrite Hw'.
  destruct (w_files w !! path); cbn; by rewrite ?Hw'.
Qed.

Lemma wp_write path bytes (Q : unit → files → Prop) (E : files → Prop) w :
  let text := default "" (w_files w !! path) in
  (∀ n, E (<[path := text +:+ str_take n bytes]> (w_files w))) →
  Q () (<[path := text +:+ bytes]> (w_files w)) → wp (write_bytes path bytes) Q E w.
Proof.
  intros text He Hq. apply (wp_seq (λ _ f, f = w_files w)); [by apply wp_next|].
  intros [|n] w' Hw'; unfold wp; cbn; rewrite Hw'; auto.
Qed.

Lemma wp_rename from to (Q : unit → files → Prop) (E : files → Prop) w :
  E (w_files w) →
  (∀ text, w_files w !! from = Some text → Q () (<[to := text]> (delete from (w_files w)))) →
  wp (rename from to) Q E w.
Proof.
  intros He Hq. apply wp_call; [done|]. intros w' Hw'. unfold wp. rewrite Hw'.
  destruct (w_files w !! from) eqn:Ef; cbn; rewrite ?Hw'; auto.
Qed.

Lemma wp_remove path (Q : unit → files → Prop) (E : files → Prop) w :
  E (w_files w) → Q () (delete path (w_files w)) → wp (remove_file path) Q E w.
Proof.
  intros He Hq. apply wp_call; [done|]. intros w' Hw'. unfold wp. rewrite Hw'.
  destruct (w_files w !! path) eqn:Ef; cbn; rewrite ?Hw'; done.
Qed.

Lemma wp_ensure_dir path (Q : unit → files → Prop) (E : files → Prop) w :
  E (w_files w) → Q () (w_files w) → wp (ensure_dir path) Q E w.
Proof.
  intros He Hq. apply (wp_seq (λ _ f, f = w_files w)); [by apply wp_exists|].
  intros [] w' Hw'; [apply wp_ret; by rewrite Hw'|].
  apply (wp_seq (λ _ f, f = w_files w)).
  - apply wp_call; [by rewrite Hw'|]. intros w'' Hw''. unfold wp. cbn. by rewrite Hw'', Hw'.
  - intros _ w'' Hw''. apply wp_call; [by rewrite Hw''|]. intros w3 Hw3. unfold wp. cbn.
    by rewrite Hw3, Hw''.
Qed.

Lemma wp_other (Q : unit → files → Prop) (E : files → Prop) w :
  E (w_files w) → Q () (w_files w) → wp other_call Q E w.
Proof. intros He Hq. apply wp_call; [done|]. intros w' Hw'. unfold wp. cbn. by rewrite Hw'. Qed.

(** ** Writing a file *)

Section write.
Context (suffix path : string) (durable : bool).
Let tmp := with_extension path ("tmp." +:+ suffix).
Let bak := with_extension path "bak".
Context (Htp : tmp ≠ path) (Hbp : bak ≠ path) (Htb : tmp ≠ bak).

(** After a write, whatever failed on the way: the file has the new bytes and
    the write succeeded, or the write failed and the file is as before, or it
    is gone and its old bytes are in the backup. *)
Lemma write_bytes_inner_wp bytes (f0 : files) w :
  w_files w = f0 →
  wp (write_bytes_inner suffix path bytes durable)
    (λ _ f, f !! path = Some bytes)
    (λ f, f !! path = f0 !! path ∨ (f !! path = None ∧ f !! bak = f0 !! path)) w.
Proof.
  intros Hw. unfold write_bytes_inner.
  set (lost := λ f : files, f !! path = f0 !! path ∨ (f !! path = None ∧ f !! bak = f0 !! path)).
  assert (Hsame : ∀ g : files, g !! path = f0 !! path → lost g) by (intros g Hg; by left).
  apply (wp_seq (λ _ f, f = f0)); [apply wp_ensure_dir; [apply Hsame|]; by rewrite Hw|].
  intros _ w1 Hw1. fold tmp. set (attempt := io_bind (file_create tmp) _).
  assert (Ha : wp attempt (λ _ f, f !! path = Some bytes) lost w1).
  { subst attempt. apply (wp_seq (λ _ f, f !! tmp = Some "" ∧ f !! path = f0 !! path)).
    { apply wp_create; [apply Hsame; by rewrite Hw1|].
      by rewrite lookup_insert_eq, lookup_insert_ne, Hw1. }
    intros _ w2 [Ht2 Hp2]. apply (wp_seq (λ _ f, f !! tmp = Some bytes ∧ f !! path = f0 !! path)).
    { apply wp_write; rewrite Ht2; [intros n; apply Hsame|];
        rewrite ?lookup_insert_eq, lookup_insert_ne by done; done. }
    intros _ w3 [Ht3 Hp3]. apply (wp_seq (λ _ f, f !! tmp = Some bytes ∧ f !! path = f0 !! path)).
    { destruct durable; [apply wp_other|apply wp_ret]; auto. }
    intros _ w4 [Ht4 Hp4]. apply (wp_seq (λ _ f, f !! tmp = Some bytes ∧ lost f)).
    { apply (wp_seq (λ _ f, f = w_files w4)); [by apply wp_exists|].
      intros [] w5 Hw5; [|apply wp_ret; rewrite Hw5; auto].
      apply wp_ignore, wp_rename; rewrite Hw5; [auto|]. intros text Htext.
      fold bak. rewrite lookup_insert_ne, lookup_delete_ne by done. split; [done|].
      right. rewrite lookup_insert_eq, lookup_insert_ne, lookup_delete_eq by done.
      by rewrite <- Hp4, Htext. }
    intros _ w5 [Ht5 Hl5]. apply (wp_seq (λ _ f, f !! path = Some bytes)).
    { apply wp_rename; [done|]. intros text. rewrite Ht5. intros [= <-].
      by rewrite lookup_insert_eq. }
    intros _ w6 Hw6. destruct durable; [apply wp_ignore, wp_other; done|by apply wp_ret]. }
  unfold wp in *. destruct (attempt w1) as [[[]|e] w2]; [done|]. cbn.
  pose proof (io_touches_remove [tmp] tmp (list_elem_of_here _ _) w2) as Hrm.
  unfold lost in *. cbn [snd] in *.
  rewrite !Hrm by set_solver. done.
Qed.

(** Only the file, its temporary file and its backup change. *)
Lemma write_bytes_inner_touches bytes :
  touches [path; tmp; bak] (write_bytes_inner suffix path bytes durable).
Proof.
  unfold write_bytes_inner. apply io_touches_bind; [apply touches_ensure_dir|].
  intros _ w q Hq. fold tmp bak. set (attempt := io_bind (B := unit) (file_create tmp) _).
  assert (Ha : touches [path; tmp; bak] attempt).
  { apply io_touches_bind; [apply io_touches_create; set_solver|]. intros _.
    apply io_touches_bind; [apply io_touches_write; set_solver|]. intros _.
    apply io_touches_bind; [destruct durable; auto with touch; apply touches_call; auto with touch|].
    intros _. apply io_touches_bind.
    - apply io_touches_bind; [apply touches_exists|]. intros []; [|apply io_touches_ret].
      apply touches_ignore, touches_rename; set_solver.
    - intros _. apply io_touches_bind; [apply touches_rename; set_solver|]. intros _.
      destruct durable; [|apply io_touches_ret]. apply touches_ignore, touches_call, io_touches_ret. }
  specialize (Ha w q Hq). destruct (attempt w) as [[[]|e] w1]; cbn in *; [done|].
  rewrite <- Ha. apply (io_touches_remove [path; tmp; bak] tmp); set_solver.
Qed.
End write.

(** ** When no call fails *)

(** The computation succeeds, and the next calls will not fail either. *)
Definition ok {A} (m : IO A) (Q : A → files → Prop) (w : World) : Prop :=
  reliable w → ∃ x w', m w = (inl x, w') ∧ reliable w' ∧ w_gcode_dir w' = w_gcode_dir w
                       ∧ Q x (w_files w').

Lemma ok_seq {A B} (R : A → files → Prop) (m : IO A) (f : A → IO B) Q w :
  ok m R w → (∀ x w', R x (w_files w') → ok (f x) Q w') → ok (io_bind m f) Q w.
Proof.
  intros Hm Hf Hr. destruct (Hm Hr) as (x & w1 & E1 & Hr1 & Hg1 & HR).
  destruct (Hf x w1 HR Hr1) as (y & w2 & E2 & Hr2 & Hg2 & HQ).
  exists y, w2. unfold io_bind. rewrite E1. repeat split; [done|done|congruence|done].
Qed.

Lemma ok_ret {A} (x : A) (Q : A → files → Prop) w : Q x (w_files w) → ok (io_ret x) Q w.
Proof. intros HQ Hr. by exists x, w. Qed.

Lemma ok_call {A} (m : IO A) Q w : ok m Q w → ok (io_call m) Q w.
Proof. intros Hm Hr. rewrite io_call_reliable by done. by apply Hm. Qed.

Lemma ok_exists path (Q : bool → files → Prop) w :
  Q (path_exists path w) (w_files w) → ok (io_exists path) Q w.
Proof. intros HQ Hr. by eexists _, w. Qed.

Lemma ok_put path text (Q : unit → files → Prop) w :
  Q () (<[path := text]> (w_files w)) → ok (put_file path text) Q w.
Proof. intros HQ Hr. by eexists (), (set_files _ w). Qed.

Lemma ok_write path bytes (Q : unit → files → Prop) w :
  Q () (<[path := default "" (w_files w !! path) +:+ bytes]> (w_files w)) →
  ok (write_bytes path bytes) Q w.
Proof.
  intros HQ Hr. unfold write_bytes, io_bind, next_outcome. rewrite Hr. by apply (ok_put _ _ Q w).
Qed.

Lemma ok_rename from to text (Q : unit → files → Prop) w :
  w_files w !! from = Some text → Q () (<[to := text]> (delete from (w_files w))) →
  ok (rename from to) Q w.
Proof.
  intros Hf HQ. apply ok_call. intros Hr. rewrite Hf. by eexists (), (set_files _ w).
Qed.

Lemma ok_open_append path (Q : unit → files → Prop) w :
  Q () (match w_files w !! path with Some _ => w_files w | None => <[path := ""]> (w_files w) end) →
  ok (open_append path) Q w.
Proof.
  intros HQ. apply ok_call. intros Hr. destruct (w_files w !! path).
  - by exists (), w.
  - by apply (ok_put _ _ Q w).
Qed.

Lemma ok_ensure_dir path (Q : unit → files → Prop) w : Q () (w_files w) → ok (ensure_dir path) Q w.
Proof.
  intros HQ. apply (ok_seq (λ _ f, f = w_files w)); [by apply ok_exists|].
  intros [] w1 H1; [apply ok_ret; by rewrite H1|].
  apply (ok_seq (λ _ f, f = w_files w)).
  - apply ok_call. intros Hr. by eexists (), (set_dirs _ w1).
  - intros _ w2 H2. apply ok_call, ok_ret. by rewrite H2.
Qed.

(** An ignored call cannot fail; what it leaves is known from [wp]. *)
Lemma ok_ignore_call (m : IO unit) (Q : unit → files → Prop) w :
  (∀ w, reliable w → reliable (m w).2 ∧ w_gcode_dir (m w).2 = w_gcode_dir w) →
  wp m (λ _, Q ()) (Q ()) w → ok (io_ignore m) Q w.
Proof.
  intros Hm Hq Hr. destruct (Hm w Hr) as [Hr' Hg]. exists (), (m w).2.
  unfold io_ignore. repeat split; [done|done|]. unfold wp in Hq. by destruct (m w) as [[] w'].
Qed.

Lemma rename_reliable from to w :
  reliable w → reliable (rename from to w).2 ∧ w_gcode_dir (rename from to w).2 = w_gcode_dir w.
Proof.
  intros Hr. unfold rename. rewrite io_call_reliable by done. by destruct (w_files w !! from).
Qed.

Lemma remove_reliable path w :
  reliable w → reliable (remove_file path w).2 ∧ w_gcode_dir (remove_file path w).2 = w_gcode_dir w.
Proof.
  intros Hr. unfold remove_file. rewrite io_call_reliable by done. by destruct (w_files w !! path).
Qed.

(** A write succeeds: the file has the new bytes. *)
Lemma write_bytes_inner_ok suffix path bytes durable w :
  let tmp := with_extension path ("tmp." +:+ suffix) in
  tmp ≠ path → tmp ≠ with_extension path "bak" →
  ok (write_bytes_inner suffix path bytes durable) (λ _ f, f !! path = Some bytes) w.
Proof.
  intros tmp Htp Htb. apply (ok_seq (λ _ _, True)); [by apply ok_ensure_dir|].
  intros _ w1 _ Hr. cbv beta zeta. fold tmp. set (attempt := io_bind (B := unit) (file_create tmp) _).
  assert (Ha : ok attempt (λ _ f, f !! path = Some bytes) w1).
  { subst attempt. apply (ok_seq (λ _ f, f !! tmp = Some "")).
    { apply ok_call, ok_put. apply lookup_insert_eq. }
    intros _ w2 H2. apply (ok_seq (λ _ f, f !! tmp = Some bytes)).
    { apply ok_write. by rewrite H2, lookup_insert_eq. }
    intros _ w3 H3. apply (ok_seq (λ _ f, f !! tmp = Some bytes)).
    { destruct durable; [apply ok_call, ok_ret|apply ok_ret]; done. }
    intros _ w4 H4. apply (ok_seq (λ _ f, f !! tmp = Some bytes)).
    { apply (ok_seq (λ _ f, f !! tmp = Some bytes)); [by apply ok_exists|].
      intros [] w5 H5; [|by apply ok_ret].
      apply ok_ignore_call; [by intros; apply rename_reliable|].
      apply wp_rename; [done|]. intros text _. by rewrite lookup_insert_ne, lookup_delete_ne. }
    intros _ w5 H5. apply (ok_seq (λ _ f, f !! path = Some bytes)).
    { eapply ok_rename; [done|]. apply lookup_insert_eq. }
    intros _ w6 H6. destruct durable; [|by apply ok_ret].
    intros Hr6. unfold io_ignore, other_call. rewrite io_call_reliable by done. by exists (), w6. }
  destruct (Ha Hr) as (x & w' & E & Hr' & Hg & Hf). destruct x. exists (), w'. by rewrite E.
Qed.

(** A write with all it leaves as it was. *)
Lemma write_json_done suffix path json w :
  let tmp := with_extension path ("tmp." +:+ suffix) in
  let bak := with_extension path "bak" in
  tmp ≠ path ∧ bak ≠ path ∧ tmp ≠ bak → reliable w →
  ∃ w', write_json suffix path json w = (inl (), w') ∧ reliable w' ∧ w_gcode_dir w' = w_gcode_dir w
    ∧ w_files w' !! path = Some json
    ∧ ∀ q, q ∉ [path; tmp; bak] → w_files w' !! q = w_files w !! q.
Proof.
  intros tmp bak (Htp & Hbp & Htb) Hr.
  destruct (write_bytes_inner_ok suffix path json true w Htp Htb Hr) as ([] & w' & E & Hr' & Hg & Hf).
  exists w'. repeat split; try done. intros q Hq.
  pose proof (write_bytes_inner_touches suffix path true Htp Hbp Htb json w q Hq) as Ht. by rewrite E in Ht.
Qed.

(** A computation makes no call fail, and stays in its home. *)
Definition steady {A} (m : IO A) : Prop :=
  ∀ w, reliable w → reliable (m w).2 ∧ w_gcode_dir (m w).2 = w_gcode_dir w.

Lemma steady_ret {A} (x : A) : steady (io_ret x).
Proof. by intros w. Qed.

Lemma steady_fail {A} e : steady (io_fail (A := A) e).
Proof. by intros w. Qed.

Lemma steady_bind {A B} (m : IO A) (f : A → IO B) : steady m → (∀ x, steady (f x)) → steady (io_bind m f).
Proof.
  intros Hm Hf w Hr. destruct (Hm w Hr) as [Hr1 Hg1]. unfold io_bind.
  destruct (m w) as [[x|e] w1]; [|done]. destruct (Hf x w1 Hr1) as [? ->]. done.
Qed.

Lemma steady_ignore {A} (m : IO A) : steady m → steady (io_ignore m).
Proof. intros Hm w Hr. apply (Hm w Hr). Qed.

Lemma steady_call {A} (m : IO A) : steady m → steady (io_call m).
Proof. intros Hm w Hr. rewrite io_call_reliable by done. by apply Hm. Qed.

Lemma steady_if {A} (b : bool) (m n : IO A) : steady m → steady n → steady (if b then m else n).
Proof. by destruct b. Qed.

Lemma steady_exists path : steady (io_exists path).
Proof. by intros w. Qed.

Lemma steady_gcode_dir : steady gcode_dir.
Proof. by intros w. Qed.

Create HintDb steady.
#[export] Hint Resolve steady_ret steady_fail steady_bind steady_ignore steady_call steady_if steady_exists
  steady_gcode_dir : steady.

Lemma steady_create path : steady (file_create path).
Proof. by apply steady_call. Qed.

Lemma steady_write path bytes : steady (write_bytes path bytes).
Proof. intros w Hr. unfold write_bytes, io_bind, next_outcome. by rewrite Hr. Qed.

Lemma steady_rename from to : steady (rename from to).
Proof. intros w. apply rename_reliable. Qed.

Lemma steady_remove path : steady (remove_file path).
Proof. intros w. apply remove_reliable. Qed.

Lemma steady_read path : steady (read_to_string path).
Proof. apply steady_call. intros w Hr. repeat case_match; done. Qed.

Lemma steady_copy from to : steady (copy_file from to).
Proof. apply steady_call. intros w Hr. by case_match. Qed.

Lemma steady_create_dir path : steady (create_dir_all path).
Proof. by apply steady_call. Qed.

Lemma steady_other : steady other_call.
Proof. by apply steady_call, steady_ret. Qed.
#[export] Hint Resolve steady_create steady_write steady_rename steady_remove steady_read steady_copy
  steady_create_dir steady_other : steady.

Lemma steady_ensure_dir path : steady (ensure_dir path).
Proof. unfold ensure_dir. auto 8 with steady. Qed.
#[export] Hint Resolve steady_ensure_dir : steady.

Lemma steady_write_bytes_inner suffix path bytes durable :
  steady (write_bytes_inner suffix path bytes durable).
Proof.
  unfold write_bytes_inner. apply steady_bind; [auto with steady|]. intros _.
  set (attempt := io_bind (B := unit) (file_create _) _).
  assert (Ha : steady attempt) by (subst attempt; auto 20 with steady).
  intros w Hr. destruct (Ha w Hr) as [Hr1 Hg1].
  destruct (attempt w) as [[[]|e] w1]; [done|]. cbn in *. rewrite <- Hg1. by apply remove_reliable.
Qed.

Lemma steady_write_json suffix path json : steady (write_json suffix path json).
Proof. apply steady_write_bytes_inner. Qed.

Lemma steady_read_json {A} (parse : string → option A) path : steady (read_json parse path).
Proof.
  unfold read_json. apply steady_bind; [auto with steady|]. intros data.
  destruct (parse data); [auto with steady|]. apply steady_bind; [auto with steady|]. intros [];
    [|auto with steady]. apply steady_bind; [auto with steady|]. intros text.
  destruct (parse text); auto with steady.
Qed.
#[export] Hint Resolve steady_write_json steady_read_json : steady.

(** Reading gives back what was written. *)
Lemma read_json_ok {T} (parse : string → option T) path text x w :
  reliable w → w_files w !! path = Some text → utf8_valid text = true → parse text = Some x →
  read_json parse path w = (inl x, w).
Proof.
  intros Hr Hf Hu Hp. unfold read_json, io_bind at 1, read_to_string.
  by rewrite io_call_reliable, Hf, Hu, Hp.
Qed.

(** An appended line is at the end of the file, and nothing else changes. *)
Lemma append_json_line_ok path json (f0 : files) w :
  w_files w = f0 →
  ok (append_json_line_fast path json)
    (λ _ f, f = <[path := default "" (f0 !! path) +:+ json +:+ nl]> f0) w.
Proof.
  intros Hw. apply (ok_seq (λ _ f, f = f0)); [by apply ok_ensure_dir|].
  intros _ w1 H1. apply (ok_seq (λ _ f, <[path := default "" (f0 !! path)]> f0 = f)).
  { apply ok_open_append. rewrite H1. destruct (f0 !! path) eqn:E; cbn; [|done].
    by rewrite insert_id. }
  intros _ w2 H2. apply (ok_seq (λ _ f, <[path := default "" (f0 !! path) +:+ json]> f0 = f)).
  { apply ok_write. rewrite <- H2, lookup_insert_eq. cbn. by rewrite insert_insert_eq. }
  intros _ w3 H3. apply ok_write. rewrite <- H3, lookup_insert_eq. cbn.
  by rewrite insert_insert_eq, str_app_assoc.
Qed.

(** A failing append leaves a part of the line. *)
Lemma append_json_line_wp path json (f0 : files) w :
  w_files w = f0 →
  wp (append_json_line_fast path json)
    (λ _ f, f = <[path := default "" (f0 !! path) +:+ json +:+ nl]> f0)
    (λ f, (∀ q, q ≠ path → f !! q = f0 !! q)
          ∧ ∃ n, default "" (f !! path) = default "" (f0 !! path) +:+ str_take n (json +:+ nl)) w.
Proof.
  intros Hw.
  set (part := λ f : files, (∀ q, q ≠ path → f !! q = f0 !! q)
    ∧ ∃ n, default "" (f !! path) = default "" (f0 !! path) +:+ str_take n (json +:+ nl)).
  assert (Hpart : ∀ n, part (<[path := default "" (f0 !! path) +:+ str_take n (json +:+ nl)]> f0)).
  { intros n. split; [intros q Hq; by rewrite lookup_insert_ne|].
    exists n. by rewrite lookup_insert_eq. }
  assert (H0 : part f0).
  { split; [done|]. exists 0. cbn. by rewrite str_app_nil_r. }
  assert (Htake : ∀ n, str_take n json = str_take (n `min` String.length json) (json +:+ nl)).
  { intros n. generalize json. induction n as [|n IH]; intros [|c t]; cbn; try done.
    by rewrite IH. }
  apply (wp_seq (λ _ f, f = f0)); [apply wp_ensure_dir; by rewrite Hw|].
  intros _ w1 H1. apply (wp_seq (λ _ f, <[path := default "" (f0 !! path)]> f0 = f)).
  { apply wp_open_append; rewrite H1; [done|]. destruct (f0 !! path) eqn:E; cbn; [|done].
    by rewrite insert_id. }
  intros _ w2 H2. apply (wp_seq (λ _ f, <[path := default "" (f0 !! path) +:+ json]> f0 = f)).
  { apply wp_write; rewrite <- H2, lookup_insert_eq; cbn; [intros n|by rewrite insert_insert_eq].
    rewrite insert_insert_eq, Htake. apply Hpart. }
  intros _ w3 H3. apply wp_write; rewrite <- H3, lookup_insert_eq; cbn;
    [intros n|by rewrite insert_insert_eq, str_app_assoc].
  rewrite insert_insert_eq, str_app_assoc.
  assert (Hjoin : json +:+ str_take n nl = str_take (String.length json + n) (json +:+ nl)).
  { generalize json. induction json0 as [|c t IH]; cbn; [done|]. by rewrite IH. }
  rewrite Hjoin. apply Hpart.
Qed.

(** ** Files of environment variables *)

Lemma join_terminated ls : ls ≠ [] → join nl ls +:+ nl = unlines ls.
Proof.
  induction ls as [|l ls IH]; [done|]. intros _. rewrite unlines_cons.
  destruct ls as [|l' ls]; [done|].
  change (join nl (l :: l' :: ls)) with (l +:+ nl +:+ join nl (l' :: ls)).
  rewrite !str_app_assoc, IH by done. done.
Qed.

Definition env_is_key (env_key line : string) : bool := starts_with (env_key +:+ "=") line.

(** The value of a variable: of its first line. *)
Definition env_value (env_key text : string) : option string :=
  head (omap (strip_prefix (env_key +:+ "=")) (lines text)).

(** The lines of other variables and comments. *)
Definition env_others (env_key text : string) : list string :=
  List.filter (λ line, negb (env_is_key env_key line) && negb (line =s "")) (lines text).

(** The lines that [upsert_env_text] writes. *)
Definition env_lines (existing env_key : string) (value : option string) : list string :=
  concat ((λ line,
    if env_is_key env_key line then
      match value with Some value => [env_line env_key value] | None => [] end
    else [line]) <$> lines existing)
  ++ match value with
     | Some value =>
         if existsb (env_is_key env_key) (lines existing) then [] else [env_line env_key value]
     | None => []
     end.

Lemma upsert_lines existing env_key value :
  Forall plain_line (env_lines existing env_key value) →
  env_lines existing env_key value ≠ [""] →
  lines (upsert_env_text existing env_key value) = env_lines existing env_key value.
Proof.
  intros Hp Hne. unfold upsert_env_text. fold (env_is_key env_key).
  change (lines (let content := join nl (env_lines existing env_key value) in
    if content =s "" then content else content +:+ nl) = env_lines existing env_key value).
  cbn zeta. set (ls := env_lines existing env_key value) in *.
  destruct (String.eqb_spec (join nl ls) "") as [E|E].
  - rewrite E. destruct ls as [|l [|l' ls']]; [done| |].
    + cbn in E. by subst.
    + change (join nl (l :: l' :: ls')) with (l +:+ nl +:+ join nl (l' :: ls')) in E.
      by destruct l.
  - assert (ls ≠ []) by (by intros ->). rewrite join_terminated by done. by apply lines_unlines.
Qed.

Lemma env_line_is_key env_key value : env_is_key env_key (env_line env_key value) = true.
Proof. apply starts_with_spec. exists value. unfold env_line. by rewrite str_app_assoc. Qed.

Section upsert.
Context (env_key : string) (value : option string).

(** What a line becomes. *)
Let new_lines (line : string) : list string :=
  if env_is_key env_key line then
    match value with Some value => [env_line env_key value] | None => [] end
  else [line].

(** Lines about the variable are the new one. *)
Let settled (ls : list string) : Prop :=
  ∀ line, line ∈ ls → env_is_key env_key line = true →
    ∃ v, value = Some v ∧ line = env_line env_key v.

Lemma env_lines_settled existing : settled (env_lines existing env_key value).
Proof.
  intros line Hin Hk. unfold env_lines in Hin. apply elem_of_app in Hin as [Hin|Hin].
  - apply list_elem_of_In, in_concat in Hin as (l & Hl & Hin).
    apply list_elem_of_In, list_elem_of_fmap in Hl as (old & -> & _).
    destruct (env_is_key env_key old) eqn:E; [destruct value as [v|]|]; cbn in Hin; [|done|].
    + destruct Hin as [<-|[]]. eauto.
    + destruct Hin as [<-|[]]. congruence.
  - destruct value as [v|]; [|by apply elem_of_nil in Hin].
    destruct (existsb _ _); [by apply elem_of_nil in Hin|].
    apply list_elem_of_singleton in Hin as ->. eauto.
Qed.

Lemma new_lines_others ls :
  List.filter (λ line, negb (env_is_key env_key line) && negb (line =s ""))
    (concat (new_lines <$> ls))
  = List.filter (λ line, negb (env_is_key env_key line) && negb (line =s "")) ls.
Proof.
  induction ls as [|l ls IH]; [done|]. cbn [fmap list_fmap concat List.filter].
  rewrite List.filter_app, IH. unfold new_lines. destruct (env_is_key env_key l) eqn:E; cbn.
  - destruct value; cbn; [by rewrite env_line_is_key|done].
  - rewrite E. cbn. by destruct (l =s "").
Qed.

Lemma new_lines_settled ls : settled ls → concat (new_lines <$> ls) = ls.
Proof.
  intros Hls. induction ls as [|l ls IH]; [done|]. cbn [fmap list_fmap concat].
  rewrite IH by (intros x Hx; apply Hls; by right). unfold new_lines.
  destruct (env_is_key env_key l) eqn:E; [|done].
  by destruct (Hls l (list_elem_of_here _ _) E) as (v & -> & ->).
Qed.

Lemma strip_env_line v : strip_prefix (env_key +:+ "=") (env_line env_key v) = Some v.
Proof. unfold env_line. rewrite <- str_app_assoc. apply strip_prefix_app. Qed.

(** The first value of settled lines is the new one, when there is any. *)
Lemma settled_value ls :
  settled ls →
  head (omap (strip_prefix (env_key +:+ "=")) ls)
  = if existsb (env_is_key env_key) ls then value else None.
Proof.
  intros Hls. induction ls as [|l ls IH]; [done|]. cbn.
  destruct (env_is_key env_key l) eqn:E.
  - destruct (Hls l (list_elem_of_here _ _) E) as (v & -> & ->). by rewrite strip_env_line.
  - cbn [orb]. rewrite <- IH by (intros x Hx; apply Hls; by right). unfold env_is_key in E.
    rewrite starts_with_strip in E. by destruct (strip_prefix (env_key +:+ "=") l).
Qed.

Lemma env_lines_has_key existing v :
  value = Some v → existsb (env_is_key env_key) (env_lines existing env_key value) = true.
Proof.
  intros ->. unfold env_lines. rewrite existsb_app.
  destruct (existsb (env_is_key env_key) (lines existing)) eqn:E.
  - apply orb_true_iff. left. apply existsb_exists in E as (l & Hl & Hk).
    apply existsb_exists. exists (env_line env_key v). split; [|apply env_line_is_key].
    apply in_concat. exists [env_line env_key v]. split; [|by left].
    apply list_elem_of_In, list_elem_of_fmap. exists l. rewrite Hk.
    split; [done|by apply list_elem_of_In].
  - cbn. rewrite env_line_is_key. by rewrite orb_true_r.
Qed.

Lemma env_lines_plain existing :
  Forall plain_line (lines existing) →
  (∀ v, value = Some v → plain_line (env_line env_key v)) →
  Forall plain_line (env_lines existing env_key value).
Proof.
  intros Hp Hv. unfold env_lines. apply Forall_app. split.
  - apply Forall_concat, Forall_fmap. eapply Forall_impl; [exact Hp|]. intros l Hl. cbn.
    destruct (env_is_key env_key l); [|by constructor]. destruct value; constructor; auto.
  - destruct value; [|constructor]. destruct (existsb _ _); constructor; auto.
Qed.

Lemma env_lines_again text existing :
  lines text = env_lines existing env_key value →
  env_lines text env_key value = env_lines existing env_key value.
Proof.
  intros Hlines. unfold env_lines at 1. rewrite Hlines.
  pose proof (new_lines_settled _ (env_lines_settled existing)) as Hid. unfold new_lines in Hid.
  rewrite Hid. destruct value as [v|] eqn:Ev; [|by rewrite app_nil_r].
  rewrite <- Ev, (env_lines_has_key existing v Ev). by rewrite app_nil_r.
Qed.
End upsert.

(** Setting or removing a variable of an environment file with plain lines:
    afterwards the variable has the new value, or none, on every line that is
    about it; all other lines that are not empty stay, in order; and doing it
    again changes nothing. *)
Theorem upsert_env_correct existing env_key value :
  Forall plain_line (lines existing) →
  (∀ v, value = Some v → plain_line (env_line env_key v)) →
  env_lines existing env_key value ≠ [""] →
  let text := upsert_env_text existing env_key value in
  env_value env_key text = value
  ∧ env_others env_key text = env_others env_key existing
  ∧ (∀ line, line ∈ lines text → env_is_key env_key line = true →
       ∃ v, value = Some v ∧ line = env_line env_key v)
  ∧ lines (upsert_env_text text env_key value) = lines text.
Proof.
  intros Hp Hv Hne. cbn zeta.
  pose proof (env_lines_plain env_key value existing Hp Hv) as Hpl.
  pose proof (upsert_lines existing env_key value Hpl Hne) as Hlines.
  set (text := upsert_env_text existing env_key value) in *.
  split; [|split; [|split]].
  - unfold env_value. rewrite Hlines, (settled_value env_key value) by apply env_lines_settled.
    destruct value as [v|] eqn:Ev; [|by destruct (existsb _ _)].
    by rewrite (env_lines_has_key env_key (Some v) existing v).
  - unfold env_others. rewrite Hlines. unfold env_lines. rewrite List.filter_app.
    rewrite (new_lines_others env_key value).
    destruct value as [v|]; cbn; [|by rewrite app_nil_r].
    destruct (existsb _ _); cbn; rewrite ?env_line_is_key; cbn; by rewrite app_nil_r.
  - rewrite Hlines. apply env_lines_settled.
  - pose proof (env_lines_again env_key value text existing Hlines) as Hagain.
    rewrite (upsert_lines text); rewrite Hagain; [by rewrite Hlines|done|done].
Qed.

Lemma upsert_env_witness :
  let existing := unlines ["# keys"; "A=1"; "B=2"; "A=3"] in
  env_value "A" (upsert_env_text existing "A" (Some "9")) = Some "9"
  ∧ upsert_env_text existing "A" (Some "9") = unlines ["# keys"; "A=9"; "B=2"; "A=9"]
  ∧ upsert_env_text existing "A" None = unlines ["# keys"; "B=2"].
Proof.
  cbn zeta. split; [|split; reflexivity].
  refine (proj1 (upsert_env_correct (unlines ["# keys"; "A=1"; "B=2"; "A=3"]) "A" (Some "9") _ _ _)).
  - vm_compute. repeat (constructor; [split; reflexivity|]). constructor.
  - intros v [= <-]. split; reflexivity.
  - vm_compute. discriminate.
Defined.
