(* ===== verification/MemoryManager.v ===== *)
(** * The memory manager ([src/memory.rs], [src/memory/cache.rs])

    The two stores of memories on disk, the cache of their graphs, and what is
    done with them: remembering without repeating, forgetting, searching by
    text and by embedding, and the check that prepares memories for a turn. The
    model that embeds texts, the model that judges relevance, the modification
    times of files and the registry of skills are parameters. *)

From S2P Require Import Prelude Utf8 Text SwarmPlan F32 Ranking MemoryEntry MemoryPrompt MemoryGraph Messages Compaction MemoryActivity Storage.
Open Scope nat_scope.
Open Scope io_scope.

(** ** What is used *)

Record LegacyNoteEntry := {
  ln_id : string;
  ln_content : string;
  ln_created_at : datetime;
  ln_tag : option string;
}.

(** The files as JSON text (serde). *)
Class MemoryCodec := {
  graph_to_json : MemoryGraph → string;
  graph_of_json : string → option MemoryGraph;
  store_to_json : MemoryStore → string;
  store_of_json : string → option MemoryStore;
  notes_of_json : string → option (list LegacyNoteEntry);
}.

(** [embed], from a text to a vector or an error. *)
Class Embedder := embed : string → list f32 + string.

(** ** Similarity ([crates/gcode-embedding/src/lib.rs]) *)

Definition dot (a b : list f32) : f32 := f32_sum (zip_with f32_mul a b).

Definition cosine_similarity (a b : list f32) : f32 :=
  if negb (length a =? length b) || is_nil a then f32_0_0
  else
    let norm_a := f32_sqrt (f32_sum ((λ x, f32_mul x x) <$> a)) in
    let norm_b := f32_sqrt (f32_sum ((λ x, f32_mul x x) <$> b)) in
    if f32_eq norm_a f32_0_0 || f32_eq norm_b f32_0_0 then f32_0_0
    else f32_div (dot a b) (f32_mul norm_a norm_b).

Definition batch_cosine_similarity (query : list f32) (candidates : list (list f32)) : list f32 :=
  let dim := length query in
  if (dim =? 0) || is_nil candidates then (λ _, f32_0_0) <$> candidates
  else (λ c, if negb (length c =? dim) then f32_0_0 else dot c query) <$> candidates.

(** ** The state *)

Record Memory := {
  mw_world : World;
  mw_cache : gmap string (MemoryGraph * option Z);
  mw_activity : option MemoryActivity;
  mw_pending : PendingState;
  mw_sent : list MemoryActivitySnapshot;
}.

Definition with_world w mw := {| mw_world := w; mw_cache := mw_cache mw; mw_activity := mw_activity mw;
  mw_pending := mw_pending mw; mw_sent := mw_sent mw |}.
Definition with_cache c mw := {| mw_world := mw_world mw; mw_cache := c; mw_activity := mw_activity mw;
  mw_pending := mw_pending mw; mw_sent := mw_sent mw |}.
Definition with_activity a mw := {| mw_world := mw_world mw; mw_cache := mw_cache mw; mw_activity := a;
  mw_pending := mw_pending mw; mw_sent := mw_sent mw |}.
Definition with_pending p mw := {| mw_world := mw_world mw; mw_cache := mw_cache mw;
  mw_activity := mw_activity mw; mw_pending := p; mw_sent := mw_sent mw |}.
Definition with_sent s mw := {| mw_world := mw_world mw; mw_cache := mw_cache mw;
  mw_activity := mw_activity mw; mw_pending := mw_pending mw; mw_sent := s |}.

(** Computations that return [Result<A>]. *)
Definition Mem (A : Type) : Type := Memory → (A + string) * Memory.

Definition mem_ret {A} (x : A) : Mem A := λ mw, (inl x, mw).
Definition mem_fail {A} (e : string) : Mem A := λ mw, (inr e, mw).
Definition mem_bind {A B} (m : Mem A) (f : A → Mem B) : Mem B := λ mw,
  match m mw with (inl x, mw) => f x mw | (inr e, mw) => (inr e, mw) end.

(** [if let Ok(x) = m] *)
Definition mem_ok {A} (m : Mem A) : Mem (option A) := λ mw,
  match m mw with (inl x, mw) => (inl (Some x), mw) | (inr _, mw) => (inl None, mw) end.

(** A call of the file system, and a change of the rest. *)
Definition on_disk {A} (m : IO A) : Mem A := λ mw,
  let '(r, w) := m (mw_world mw) in (r, with_world w mw).
Definition mem_do (f : Memory → Memory) : Mem unit := λ mw, (inl (), f mw).
Definition mem_get {A} (f : Memory → A) : Mem A := λ mw, (inl (f mw), mw).

Declare Scope mem_scope.
Notation "x <-? m ; k" := (mem_bind m (λ x, k))
  (at level 100, m at next level, right associativity) : mem_scope.
Notation "m ;? k" := (mem_bind m (λ _, k)) (at level 100, right associativity) : mem_scope.
Open Scope mem_scope.

Record MemoryManager := {
  mm_project_dir : option string;
  mm_test_mode : bool;
  mm_include_skills : bool;
}.

Definition manager_new : MemoryManager :=
  {| mm_project_dir := None; mm_test_mode := false; mm_include_skills := true |}.
Definition with_project_dir (dir : string) (m : MemoryManager) : MemoryManager :=
  {| mm_project_dir := Some dir; mm_test_mode := mm_test_mode m; mm_include_skills := mm_include_skills m |}.
Definition with_skills (include_skills : bool) (m : MemoryManager) : MemoryManager :=
  {| mm_project_dir := mm_project_dir m; mm_test_mode := mm_test_mode m; mm_include_skills := include_skills |}.
Definition new_test : MemoryManager :=
  {| mm_project_dir := None; mm_test_mode := true; mm_include_skills := true |}.
Definition is_test_mode (m : MemoryManager) : bool := mm_test_mode m.
Definition set_test_mode (test_mode : bool) (m : MemoryManager) : MemoryManager :=
  {| mm_project_dir := mm_project_dir m; mm_test_mode := test_mode; mm_include_skills := mm_include_skills m |}.

Definition LEGACY_NOTE_CATEGORY : string := "note".
Definition MEMORY_RELEVANCE_MAX_CANDIDATES : usize := 30.
Definition MEMORY_RELEVANCE_MAX_RESULTS : usize := 10.
Definition STORAGE_DEDUP_THRESHOLD : f32 := 0x3f59999a.
Definition EMBEDDING_SIMILARITY_THRESHOLD : f32 := 0x3f000000.
Definition EMBEDDING_MAX_HITS : usize := 10.

(** The store of the project and that of the user. *)
Inductive StoreKind := ProjectStore | GlobalStore.
Definition other_store (store : StoreKind) : StoreKind :=
  match store with ProjectStore => GlobalStore | GlobalStore => ProjectStore end.

(** ** Parts of the graph *)

Section graph.
Context `{UnicodeLower, HashOrder, Embedder}.

(** [ensure_embedding] *)
Definition ensure_embedding (entry : MemoryEntry) : bool * MemoryEntry :=
  match me_embedding entry with
  | Some _ => (false, entry)
  | None =>
      match embed (me_content entry) with
      | inl embedding => (true, with_embedding embedding entry)
      | inr _ => (false, entry)
      end
  end.

Definition all_memories (g : MemoryGraph) : list MemoryEntry := (hash_entries (memories g)).*2.
Definition active_memories (g : MemoryGraph) : list MemoryEntry :=
  filter (λ entry, me_active entry = true) (all_memories g).

Definition search_text_of (entry : MemoryEntry) : string :=
  normalize_memory_search_text (me_content entry) (me_tags entry).

Definition normalize_graph_search_text (g : MemoryGraph) : bool * MemoryGraph :=
  (negb (bool_decide (map_Forall (λ _ entry, me_search_text entry = search_text_of entry) (memories g))),
   set_memories (refresh_search_text <$> memories g) g).

(** The entry made of a legacy note. *)
Definition note_entry (now : datetime) (note : LegacyNoteEntry) : MemoryEntry :=
  let entry := entry_new (ln_id note) now (Custom LEGACY_NOTE_CATEGORY) (ln_content note) in
  {| me_id := ln_id note; me_category := me_category entry; me_content := me_content entry;
     me_tags := match ln_tag note with Some tag => [tag] | None => [] end;
     me_search_text := me_search_text entry; me_created_at := ln_created_at note;
     me_updated_at := ln_created_at note; me_access_count := me_access_count entry;
     me_source := Some "legacy_remember_migration"; me_trust := me_trust entry;
     me_strength := me_strength entry; me_active := me_active entry;
     me_superseded_by := me_superseded_by entry; me_reinforcements := me_reinforcements entry;
     me_embedding := me_embedding entry; me_confidence := me_confidence entry |}.

Definition import_note (now : datetime) (st : bool * MemoryGraph) (note : LegacyNoteEntry)
    : bool * MemoryGraph :=
  match memories st.2 !! ln_id note with
  | Some _ => st
  | None => (true, (add_memory now (ensure_embedding (note_entry now note)).2 st.2).1)
  end.

Definition find_duplicate_in_graph (g : MemoryGraph) (query_emb : list f32) (threshold : f32)
    : option string :=
  let best := foldl (λ (best : option (string * f32)) entry,
    match me_embedding entry with
    | Some emb =>
        let sim := cosine_similarity query_emb emb in
        if f32_ge sim threshold && from_option (λ b, f32_gt sim b.2) true best
        then Some (me_id entry, sim) else best
    | None => best
    end) None (active_memories g) in
  fst <$> best.

Definition should_generate_embedding_for_entry (m : MemoryManager) (entry : MemoryEntry) : bool :=
  if mm_test_mode m then false
  else negb match me_category entry with Custom category => category =s "goal" | _ => false end.

(** The assignments to an entry that is there. *)
Definition upsert_existing (should_generate_embedding : bool) (entry existing : MemoryEntry) : MemoryEntry :=
  let content_changed := negb (me_content existing =s me_content entry) in
  let updated := {|
    me_id := me_id existing; me_category := me_category entry; me_content := me_content entry;
    me_tags := me_tags entry; me_search_text := me_search_text existing;
    me_created_at := me_created_at existing; me_updated_at := me_updated_at entry;
    me_access_count := me_access_count existing; me_source := me_source entry;
    me_trust := me_trust entry; me_strength := me_strength existing; me_active := me_active entry;
    me_superseded_by := me_superseded_by entry; me_reinforcements := me_reinforcements existing;
    me_embedding := if content_changed then None else me_embedding existing;
    me_confidence := me_confidence entry |} in
  if content_changed && should_generate_embedding then (ensure_embedding updated).2 else updated.

Definition upsert_memory_in_graph (m : MemoryManager) (now : datetime) (g : MemoryGraph)
    (entry : MemoryEntry) : MemoryGraph * string :=
  let id := me_id entry in
  let should_generate_embedding := should_generate_embedding_for_entry m entry in
  let entry := if should_generate_embedding then (ensure_embedding entry).2 else entry in
  match get_memory id g with
  | None => add_memory now entry g
  | Some existing_snapshot =>
      let old_tags : gset string := list_to_set (me_tags existing_snapshot) in
      let new_tags : gset string := list_to_set (me_tags entry) in
      let g := foldl (λ g tag, untag_memory id tag g) g
                 (filter (λ tag, tag ∉ new_tags) (hash_elements old_tags)) in
      let g := foldl (λ g tag, tag_memory now id tag g) g
                 (filter (λ tag, tag ∉ old_tags) (hash_elements new_tags)) in
      (update_memory id (upsert_existing should_generate_embedding entry) g, id)
  end.
End graph.

(** ** Files *)

(** [std::fs::remove_dir_all] *)
Definition remove_dir_all (path : string) : IO unit :=
  let inside q := (q =s path) || starts_with (path +:+ "/") q in
  io_call (λ w,
    (inl (), set_dirs (filter (λ d, inside d = false) (w_dirs w))
               (set_files (filter (λ f, inside f.1 = false) (w_files w)) w))).

Section manager.
Context `{UnicodeLower, HashOrder, MemoryCodec, Embedder, FloatFunctions, PowI}.
(** The modification time of a file, the hash of a path by [DefaultHasher] in
    hexadecimal digits, the working directory, the suffix of temporary files
    and the memories of the skill registry. *)
Context (mtime : World → string → option Z) (path_hash : string → string) (current_dir : option string).
Context (tmp_suffix : string) (skills : list MemoryEntry).
Context (m : MemoryManager) (now : datetime).

Definition memory_dir (sub kind : string) : IO string :=
  dir <-! gcode_dir; io_ret (path_join (path_join dir sub) kind).

Definition test_dir (sub : string) : IO string :=
  test_dir <-! memory_dir sub "test";
  create_dir_all test_dir ;!
  io_ret test_dir.

Definition clear_test_storage : IO unit :=
  if negb (mm_test_mode m) then io_fail "clear_test_storage only allowed in test mode"
  else
    test_dir <-! memory_dir "memory" "test";
    exists_ <-! io_exists test_dir;
    if exists_ then remove_dir_all test_dir else io_ret ().

Definition get_project_dir : option string :=
  match mm_project_dir m with Some dir => Some dir | None => current_dir end.

Definition project_memory_path : IO (option string) :=
  if mm_test_mode m then
    test_dir <-! test_dir "memory";
    io_ret (Some (path_join test_dir "test_project.json"))
  else
    match get_project_dir with
    | None => io_ret None
    | Some project_dir =>
        memory_dir <-! memory_dir "memory" "projects";
        io_ret (Some (path_join memory_dir (path_hash project_dir +:+ ".json")))
    end.

Definition legacy_notes_path : IO (option string) :=
  if mm_test_mode m then
    test_dir <-! test_dir "notes";
    io_ret (Some (path_join test_dir "test_notes.json"))
  else
    match get_project_dir with
    | None => io_ret None
    | Some project_dir =>
        dir <-! gcode_dir;
        io_ret (Some (path_join (path_join dir "notes") (path_hash project_dir +:+ ".json")))
    end.

Definition global_memory_path : IO string :=
  if mm_test_mode m then
    test_dir <-! test_dir "memory";
    io_ret (path_join test_dir "test_global.json")
  else
    dir <-! gcode_dir;
    io_ret (path_join (path_join dir "memory") "global.json").

Definition store_path (store : StoreKind) : IO (option string) :=
  match store with
  | ProjectStore => project_memory_path
  | GlobalStore => path <-! global_memory_path; io_ret (Some path)
  end.

(** [load_project], [load_global], [save_project] and [save_global] *)
Definition load_store (store : StoreKind) : IO MemoryStore :=
  path <-! store_path store;
  match path with
  | Some path =>
      exists_ <-! io_exists path;
      if exists_ then read_json store_of_json path else io_ret store_new
  | None => io_ret store_new
  end.

Definition save_store (store : StoreKind) (value : MemoryStore) : IO unit :=
  path <-! store_path store;
  match path with
  | Some path => write_json tmp_suffix path (store_to_json value)
  | None => io_ret ()
  end.

Definition import_legacy_notes_into_graph (g : MemoryGraph) : IO (bool * MemoryGraph) :=
  path <-! legacy_notes_path;
  match path with
  | None => io_ret (false, g)
  | Some path =>
      exists_ <-! io_exists path;
      if negb exists_ then io_ret (false, g)
      else
        entries <-! read_json notes_of_json path;
        io_ret (foldl (import_note now) (false, g) entries)
  end.

(** *** The cache ([cache.rs]) *)

Definition cached_graph (path : string) (mw : Memory) : option MemoryGraph :=
  match mw_cache mw !! path with
  | Some (graph, modified) =>
      if bool_decide (modified = mtime (mw_world mw) path) then Some graph else None
  | None => None
  end.

Definition cache_graph (path : string) (graph : MemoryGraph) (mw : Memory) : Memory :=
  with_cache (<[path := (graph, mtime (mw_world mw) path)]> (mw_cache mw)) mw.

(** What follows [if !self.test_mode]. *)
Definition cache_unless_test (path : string) (graph : MemoryGraph) : Mem unit :=
  if mm_test_mode m then mem_ret () else mem_do (cache_graph path graph).

Definition save_graph (store : StoreKind) (graph : MemoryGraph) : Mem unit :=
  path <-? on_disk (store_path store);
  match path with
  | Some path =>
      on_disk (write_json tmp_suffix path (graph_to_json graph)) ;?
      cache_unless_test path graph
  | None => mem_ret ()
  end.

Definition save_project_graph : MemoryGraph → Mem unit := save_graph ProjectStore.
Definition save_global_graph : MemoryGraph → Mem unit := save_graph GlobalStore.

(** The graph of the current version, when the file holds one. *)
Definition read_graph (path : string) : Mem (option MemoryGraph) :=
  read <-? mem_ok (on_disk (read_json graph_of_json path));
  mem_ret (match read with
           | Some graph => if (graph_version graph =? GRAPH_VERSION)%Z then Some graph else None
           | None => None
           end).

(** The legacy store of a file, migrated; [import] adds to the graph. *)
Definition migrate_store (path : string) (import : MemoryGraph → IO (bool * MemoryGraph)) : Mem MemoryGraph :=
  store <-? on_disk (read_json store_of_json path);
  imported <-? on_disk (import (from_legacy_store now store));
  let graph := imported.2 in
  let backup_path := with_extension path "json.bak" in
  exists_ <-? on_disk (io_exists backup_path);
  (if exists_ then mem_ret () else on_disk (io_ignore (copy_file path backup_path))) ;?
  on_disk (write_json tmp_suffix path (graph_to_json graph)) ;?
  cache_unless_test path graph ;?
  mem_ret graph.

(** The graph of the cache, its search texts brought up to date. *)
Definition from_cache (path : string) (graph : MemoryGraph) : Mem MemoryGraph :=
  let '(changed, graph) := normalize_graph_search_text graph in
  (if changed then mem_do (cache_graph path graph) else mem_ret ()) ;?
  mem_ret graph.

Definition cache_lookup (path : string) : Mem (option MemoryGraph) :=
  if mm_test_mode m then mem_ret None else mem_get (cached_graph path).

Definition load_project_graph : Mem MemoryGraph :=
  path <-? on_disk project_memory_path;
  match path with
  | None => mem_ret graph_new
  | Some path =>
      cached <-? cache_lookup path;
      match cached with
      | Some graph => from_cache path graph
      | None =>
          exists_ <-? on_disk (io_exists path);
          if exists_ then
            graph <-? read_graph path;
            match graph with
            | Some graph =>
                let '(normalized, graph) := normalize_graph_search_text graph in
                imported <-? on_disk (import_legacy_notes_into_graph graph);
                let '(imported, graph) := imported in
                (if imported : bool then save_project_graph graph
                 else if normalized : bool then on_disk (write_json tmp_suffix path (graph_to_json graph))
                 else mem_ret ()) ;?
                cache_unless_test path graph ;?
                mem_ret graph
            | None => migrate_store path import_legacy_notes_into_graph
            end
          else
            imported <-? on_disk (import_legacy_notes_into_graph graph_new);
            let '(imported, graph) := imported in
            (if imported : bool then save_project_graph graph else mem_ret ()) ;?
            cache_unless_test path graph ;?
            mem_ret graph
      end
  end.

Definition load_global_graph : Mem MemoryGraph :=
  path <-? on_disk global_memory_path;
  cached <-? cache_lookup path;
  match cached with
  | Some graph => from_cache path graph
  | None =>
      exists_ <-? on_disk (io_exists path);
      if exists_ then
        graph <-? read_graph path;
        match graph with
        | Some graph =>
            let '(normalized, graph) := normalize_graph_search_text graph in
            (if normalized : bool then on_disk (write_json tmp_suffix path (graph_to_json graph))
             else mem_ret ()) ;?
            cache_unless_test path graph ;?
            mem_ret graph
        | None => migrate_store path (λ graph, io_ret (false, graph))
        end
      else
        cache_unless_test path graph_new ;?
        mem_ret graph_new
  end.

Definition load_graph (store : StoreKind) : Mem MemoryGraph :=
  match store with ProjectStore => load_project_graph | GlobalStore => load_global_graph end.

(** ** Remembering *)

(** The memory of a graph that the vector repeats, reinforced and saved. *)
Definition reinforce_duplicate (store : StoreKind) (graph : MemoryGraph) (emb : list f32) (session : string)
    : Mem (option string) :=
  match find_duplicate_in_graph graph emb STORAGE_DEDUP_THRESHOLD with
  | Some existing_id =>
      match get_memory existing_id graph with
      | Some _ =>
          save_graph store (update_memory existing_id (reinforce now session 0) graph) ;?
          mem_ret (Some existing_id)
      | None => mem_ret None
      end
  | None => mem_ret None
  end.

(** [remember_project] and [remember_global], which are one up to the stores. *)
Definition remember (store : StoreKind) (entry : MemoryEntry) : Mem string :=
  let entry := if should_generate_embedding_for_entry m entry then (ensure_embedding entry).2 else entry in
  graph <-? load_graph store;
  existing <-?
    match me_embedding entry with
    | Some emb =>
        existing <-? reinforce_duplicate store graph emb (default "dedup" (me_source entry));
        match existing with
        | Some id => mem_ret (Some id)
        | None =>
            other_graph <-? mem_ok (load_graph (other_store store));
            match other_graph with
            | Some other_graph =>
                reinforce_duplicate (other_store store) other_graph emb
                  (default "cross-dedup" (me_source entry))
            | None => mem_ret None
            end
        end
    | None => mem_ret None
    end;
  match existing with
  | Some id => mem_ret id
  | None =>
      let '(graph, id) := add_memory now entry graph in
      save_graph store graph ;?
      mem_ret id
  end.

Definition remember_project : MemoryEntry → Mem string := remember ProjectStore.
Definition remember_global : MemoryEntry → Mem string := remember GlobalStore.

Definition upsert_memory (store : StoreKind) (entry : MemoryEntry) : Mem string :=
  graph <-? load_graph store;
  let '(graph, id) := upsert_memory_in_graph m now graph entry in
  save_graph store graph ;?
  mem_ret id.

Definition upsert_project_memory : MemoryEntry → Mem string := upsert_memory ProjectStore.
Definition upsert_global_memory : MemoryEntry → Mem string := upsert_memory GlobalStore.

(** ** Collecting *)

Definition collect_from (store : StoreKind) (included : bool) (select : MemoryGraph → list MemoryEntry)
    : Mem (list MemoryEntry) :=
  if included then
    graph <-? mem_ok (load_graph store);
    mem_ret (from_option select [] graph)
  else mem_ret [].

Definition collect_scoped (scope : MemoryScope) (select : MemoryGraph → list MemoryEntry)
    : Mem (list MemoryEntry) :=
  project <-? collect_from ProjectStore (includes_project scope) select;
  global <-? collect_from GlobalStore (includes_global scope) select;
  mem_ret (project ++ global).

Definition collect_memories_with_embeddings_scoped (scope : MemoryScope) : Mem (list MemoryEntry) :=
  collect_scoped scope (λ g, filter (λ entry, has_embedding entry = true) (active_memories g)).

Definition collect_all_memories_with_embeddings : Mem (list MemoryEntry) :=
  collect_memories_with_embeddings_scoped ScopeAll.

Definition collect_memories_scoped (scope : MemoryScope) : Mem (list MemoryEntry) :=
  collect_scoped scope all_memories.

Definition synthetic_skill_entries : list MemoryEntry :=
  if negb (mm_include_skills m) then [] else skills.

Definition collect_retrieval_candidates_scoped (scope : MemoryScope) : Mem (list MemoryEntry) :=
  entries <-? collect_memories_scoped scope;
  mem_ret (entries ++ if includes_global scope then synthetic_skill_entries else []).

Definition collect_retrieval_candidates_with_embeddings_scoped (scope : MemoryScope)
    : Mem (list MemoryEntry) :=
  entries <-? collect_memories_with_embeddings_scoped scope;
  mem_ret (entries ++
    if includes_global scope then
      omap (λ entry, let '(generated, entry) := ensure_embedding entry in
                     if generated : bool then Some entry else None) synthetic_skill_entries
    else []).

(** ** Scoring *)

Definition GAP_FACTOR : f32 := 0x3e800000.
Definition gap_floor : f32 := 0x3c23d70a.

(** The results up to the first drop that is too large. *)
Fixpoint keep_close {T} (max_gap previous : f32) (scored : list (T * f32)) : list (T * f32) :=
  match scored with
  | [] => []
  | x :: scored =>
      if f32_gt (f32_sub previous x.2) max_gap then [] else x :: keep_close max_gap x.2 scored
  end.

Definition apply_gap_filter {T} (scored : list (T * f32)) : list (T * f32) :=
  match scored with
  | top :: ((_ :: _) as rest) =>
      let range := f32_max (f32_sub top.2 EMBEDDING_SIMILARITY_THRESHOLD) gap_floor in
      let max_gap := f32_mul range GAP_FACTOR in
      top :: keep_close max_gap top.2 rest
  | _ => scored
  end.

Definition score_and_filter (entries : list MemoryEntry) (query_embedding : list f32) (query_text : string)
    (threshold : f32) (limit : usize) : list (MemoryEntry * f32) :=
  let filtered_entries := filter (λ entry, has_embedding entry = true) entries in
  let scores := batch_cosine_similarity query_embedding (omap me_embedding filtered_entries) in
  let skill_query_terms := collect_skill_query_terms query_text in
  let scored := top_k_by_score
    (filter (λ scored, f32_ge scored.2 threshold = true)
       (zip_with (λ entry sim, (entry, f32_add sim (skill_retrieval_bonus entry skill_query_terms)))
          filtered_entries scores)) limit in
  apply_gap_filter scored.

Definition find_similar_with_embedding_scoped (query_embedding : list f32) (threshold : f32)
    (limit : usize) (scope : MemoryScope) : Mem (list (MemoryEntry * f32)) :=
  entries_with_emb <-? collect_memories_with_embeddings_scoped scope;
  mem_ret (score_and_filter entries_with_emb query_embedding "" threshold limit).

Definition find_similar_with_embedding query_embedding threshold limit :=
  find_similar_with_embedding_scoped query_embedding threshold limit ScopeAll.

Definition find_similar_scoped (text : string) (threshold : f32) (limit : usize) (scope : MemoryScope)
    : Mem (list (MemoryEntry * f32)) :=
  match embed text with
  | inl query_embedding => find_similar_with_embedding_scoped query_embedding threshold limit scope
  | inr _ => mem_ret []
  end.

Definition find_similar text threshold limit := find_similar_scoped text threshold limit ScopeAll.

Definition find_retrieval_candidates_similar_scoped (text : string) (threshold : f32) (limit : usize)
    (scope : MemoryScope) : Mem (list (MemoryEntry * f32)) :=
  match embed text with
  | inl query_embedding =>
      entries <-? collect_retrieval_candidates_with_embeddings_scoped scope;
      mem_ret (score_and_filter entries query_embedding text threshold limit)
  | inr _ => mem_ret []
  end.

(** ** Changes of what is stored *)

(** One memory of a graph without embedding. *)
Definition backfill_entry (entry : MemoryEntry) : MemoryEntry := (ensure_embedding entry).2.

Definition backfill_store (store : StoreKind) : Mem (nat * nat) :=
  graph <-? mem_ok (load_graph store);
  match graph with
  | Some graph =>
      let missing := filter (λ entry, me_embedding entry = None) (all_memories graph) in
      let generated := length (filter (λ entry, (ensure_embedding entry).1 = true) missing) in
      (if 0 <? generated then
         save_graph store (set_memories (backfill_entry <$> memories graph) graph)
       else mem_ret ()) ;?
      mem_ret (generated, length missing - generated)
  | None => mem_ret (0, 0)
  end.

Definition backfill_embeddings : Mem (nat * nat) :=
  project <-? backfill_store ProjectStore;
  global <-? backfill_store GlobalStore;
  mem_ret (project.1 + global.1, project.2 + global.2).

Definition touch_store (store : StoreKind) (id_set : gset string) : Mem unit :=
  graph <-? load_graph store;
  let touched entry := bool_decide (me_id entry ∈ id_set) in
  if existsb touched (all_memories graph) then
    save_graph store
      (set_memories ((λ entry, if touched entry then touch now entry else entry) <$> memories graph) graph)
  else mem_ret ().

Definition touch_entries (ids : list string) : Mem unit :=
  if is_nil ids then mem_ret ()
  else
    let id_set := list_to_set ids in
    touch_store ProjectStore id_set ;?
    touch_store GlobalStore id_set.

Definition forget_in (store : StoreKind) (id : string) : Mem bool :=
  graph <-? load_graph store;
  match remove_memory id graph with
  | (graph, Some _) => save_graph store graph ;? mem_ret true
  | (_, None) => mem_ret false
  end.

Definition forget (id : string) : Mem bool :=
  forgotten <-? forget_in ProjectStore id;
  if forgotten then mem_ret true else forget_in GlobalStore id.

(** [tag_memory] and [link_memories]: a change of the first store that has the
    memories. *)
Definition change_first (has : MemoryGraph → bool) (change : MemoryGraph → MemoryGraph) (error : string)
    : Mem unit :=
  graph <-? load_graph ProjectStore;
  if has graph then save_graph ProjectStore (change graph)
  else
    graph <-? load_graph GlobalStore;
    if has graph then save_graph GlobalStore (change graph)
    else mem_fail error.

Definition has_memory (id : string) (g : MemoryGraph) : bool := bool_decide (is_Some (memories g !! id)).

Definition tag_stored (memory_id tag : string) : Mem unit :=
  change_first (has_memory memory_id) (tag_memory now memory_id tag) ("Memory not found: " +:+ memory_id).

Definition link_stored (from_id to_id : string) (weight : f32) : Mem unit :=
  change_first (λ g, has_memory from_id g && has_memory to_id g) (link_memories from_id to_id weight)
    "Both memories must be in the same store (project or global)".

(** ** Looking *)

Definition updated_leb (a b : MemoryEntry) : bool := (me_updated_at b <=? me_updated_at a)%Z.

(** [timestamp_millis] *)
Definition timestamp_millis (at_ : datetime) : Z := (at_ / 1000000)%Z.

Definition newest (entries : list MemoryEntry) (limit : usize) : list MemoryEntry :=
  (top_k_by_ord Z.leb ((λ entry, (entry, timestamp_millis (me_updated_at entry))) <$> entries) limit).*1.

Definition get_prompt_memories_scoped (to_rfc3339 : datetime → string) (limit : usize) (scope : MemoryScope)
    : Mem (option string) :=
  entries <-? collect_memories_scoped scope;
  let all_entries := newest entries limit in
  mem_ret (if is_nil all_entries then None else format_entries_for_prompt to_rfc3339 all_entries limit).

Definition search_scoped (query : string) (scope : MemoryScope) : Mem (list MemoryEntry) :=
  let query_lower := normalize_search_text query in
  if query_lower =s "" then mem_ret []
  else
    entries <-? collect_memories_scoped scope;
    mem_ret (filter (λ memory, memory_matches_search memory query_lower = true) entries).

Definition search (query : string) : Mem (list MemoryEntry) := search_scoped query ScopeAll.

Definition list_all_scoped (scope : MemoryScope) : Mem (list MemoryEntry) :=
  all <-? collect_memories_scoped scope;
  mem_ret (sort_by updated_leb all).

Definition list_all : Mem (list MemoryEntry) := list_all_scoped ScopeAll.

Definition get_relevant_keywords (keywords : list string) (limit : usize) : Mem (list MemoryEntry) :=
  let normalized_keywords := filter (λ keyword, keyword ≠ "") (normalize_search_text <$> keywords) in
  if is_nil normalized_keywords then mem_ret []
  else
    entries <-? collect_memories_scoped ScopeAll;
    mem_ret (newest (filter (λ entry,
      existsb (λ kw, str_contains kw (normalize_search_text (me_content entry))) normalized_keywords = true)
      entries) limit).

(** [graph.cascade_retrieve(..)], whose loop ends ([MemoryGraphRetrieval]). *)
Definition cascade (graph : MemoryGraph) (seed_ids : list string) (seed_scores : list f32)
    (max_depth max_results : usize) : list (string * f32) :=
  from_option snd [] (cascade_retrieve seed_ids seed_scores max_depth max_results graph).

Definition get_related (memory_id : string) (depth : usize) : Mem (list MemoryEntry) :=
  let related graph :=
    omap (λ scored, get_memory scored.1 graph)
      (filter (λ scored, scored.1 ≠ memory_id) (cascade graph [memory_id] [f32_1_0] depth 20)) in
  project_graph <-? load_graph ProjectStore;
  if has_memory memory_id project_graph then mem_ret (related project_graph)
  else
    global_graph <-? load_graph GlobalStore;
    if has_memory memory_id global_graph then mem_ret (related global_graph)
    else mem_fail ("Memory not found: " +:+ memory_id).

Definition load_included (store : StoreKind) (included : bool) : Mem (option MemoryGraph) :=
  if included then graph <-? load_graph store; mem_ret (Some graph) else mem_ret None.

(** A result of a cascade, kept when it beats what is there. *)
Definition merge_score (merged : gmap string f32) (scored : string * f32) : gmap string f32 :=
  if f32_gt scored.2 (default f32_0_0 (merged !! scored.1)) then <[scored.1 := scored.2]> merged else merged.

Definition find_similar_with_cascade_scoped (text : string) (threshold : f32) (limit : usize)
    (scope : MemoryScope) : Mem (list (MemoryEntry * f32)) :=
  embedding_hits <-? find_similar_scoped text threshold limit scope;
  if is_nil embedding_hits then mem_ret []
  else
    let seed_ids := (λ hit, me_id hit.1) <$> embedding_hits in
    let seed_scores := embedding_hits.*2 in
    project_graph <-? load_included ProjectStore (includes_project scope);
    global_graph <-? load_included GlobalStore (includes_global scope);
    let cascade_of graph := from_option (λ graph, cascade graph seed_ids seed_scores 2 (limit * 2)) [] graph in
    let merged := foldl (λ merged hit, <[me_id hit.1 := hit.2]> merged) ∅ embedding_hits in
    let merged := foldl merge_score merged (cascade_of project_graph) in
    let merged := foldl merge_score merged (cascade_of global_graph) in
    mem_ret (top_k_by_score (omap (λ scored,
      (λ entry, (entry, scored.2)) <$>
        match project_graph ≫= get_memory scored.1 with
        | Some entry => Some entry
        | None => global_graph ≫= get_memory scored.1
        end) (hash_entries merged)) limit).

Definition find_similar_with_cascade text threshold limit :=
  find_similar_with_cascade_scoped text threshold limit ScopeAll.

Definition graph_stats : Mem (usize * usize * usize * usize) :=
  project <-? load_graph ProjectStore;
  global <-? load_graph GlobalStore;
  mem_ret (size (memories project) + size (memories global), size (tags project) + size (tags global),
           edge_count project + edge_count global, size (clusters project) + size (clusters global)).

(** ** The sidecar *)

Record ExtractedMemory := { xm_category : string; xm_content : string; xm_trust : string }.

(** Whether the sidecar is on, what it says of a memory in a context (with the
    milliseconds it takes) and what it finds in a transcript; the clock of the
    instants, and whether the check tells anyone of the activity. *)
Context (memory_sidecar_enabled : bool) (check_relevance : string → string → (bool + string) * u64).
Context (extract_memories : string → list ExtractedMemory + string).
Context (tick : instant) (listening : bool) (to_rfc3339 : datetime → string).

(** One extracted memory, with the id that is drawn for it. *)
Definition extracted_entry (session_id : string) (extracted : string * ExtractedMemory) : MemoryEntry :=
  let '(id, memory) := extracted in
  let trust :=
    if xm_trust memory =s "high" then High else if xm_trust memory =s "medium" then Medium else Low in
  with_trust trust (with_source session_id
    (entry_new id now (category_from_str (xm_category memory)) (xm_content memory))).

Fixpoint remember_all (entries : list MemoryEntry) : Mem (list string) :=
  match entries with
  | [] => mem_ret []
  | entry :: entries =>
      id <-? remember_project entry;
      ids <-? remember_all entries;
      mem_ret (id :: ids)
  end.

Definition extract_from_transcript (new_ids : list string) (transcript session_id : string)
    : Mem (list string) :=
  if negb memory_sidecar_enabled then mem_ret []
  else
    match extract_memories transcript with
    | inl extracted => remember_all (extracted_entry session_id <$> zip new_ids extracted)
    | inr e => mem_fail e
    end.

(** ** Activity *)

Definition show (f : option MemoryActivity → option MemoryActivity) : Mem unit :=
  mem_do (λ mw, with_activity (f (mw_activity mw)) mw).

Definition emit_memory_activity : Mem unit := mem_do (λ mw,
  match activity_snapshot tick (mw_activity mw) with
  | Some activity => if listening then with_sent (mw_sent mw ++ [activity]) mw else mw
  | None => mw
  end).

(** Assignments of the steps of a pipeline, and of their results. *)
Definition pipeline_steps (search verify inject maintain : option StepStatus) (p : PipelineState) := {|
  pl_search := default (pl_search p) search; pl_search_result := pl_search_result p;
  pl_verify := default (pl_verify p) verify; pl_verify_result := pl_verify_result p;
  pl_verify_progress := pl_verify_progress p; pl_inject := default (pl_inject p) inject;
  pl_inject_result := pl_inject_result p; pl_maintain := default (pl_maintain p) maintain;
  pl_maintain_result := pl_maintain_result p; pl_started_at := pl_started_at p;
|}.
Definition pipeline_results (search verify inject : option StepResult) (p : PipelineState) := {|
  pl_search := pl_search p; pl_search_result := union search (pl_search_result p);
  pl_verify := pl_verify p; pl_verify_result := union verify (pl_verify_result p);
  pl_verify_progress := pl_verify_progress p; pl_inject := pl_inject p;
  pl_inject_result := union inject (pl_inject_result p); pl_maintain := pl_maintain p;
  pl_maintain_result := pl_maintain_result p; pl_started_at := pl_started_at p;
|}.
Definition pipeline_progress (progress : usize * usize) (p : PipelineState) := {|
  pl_search := pl_search p; pl_search_result := pl_search_result p; pl_verify := pl_verify p;
  pl_verify_result := pl_verify_result p; pl_verify_progress := Some progress; pl_inject := pl_inject p;
  pl_inject_result := pl_inject_result p; pl_maintain := pl_maintain p;
  pl_maintain_result := pl_maintain_result p; pl_started_at := pl_started_at p;
|}.

Definition step_result (summary : string) (latency_ms : u64) : option StepResult :=
  Some {| st_summary := summary; st_latency_ms := latency_ms |}.

Definition skip_rest : PipelineState → PipelineState :=
  pipeline_steps None (Some StepSkipped) (Some StepSkipped) (Some StepSkipped).

(** ** Judging candidates *)

Definition truncate_str (s : string) (max_bytes : usize) : string := truncate_str_boundary s max_bytes.

Definition content_preview (memory : MemoryEntry) : string :=
  if 30 <? String.length (me_content memory) then truncate_str (me_content memory) 30 +:+ "..."
  else me_content memory.

(** What is made of the reply for one memory. *)
Definition judge (context : string) (relevant : list MemoryEntry) (memory : MemoryEntry)
    : Mem (list MemoryEntry) :=
  match check_relevance (me_content memory) context with
  | (inl is_relevant, latency_ms) =>
      show (add_event tick (SidecarComplete latency_ms)) ;?
      if is_relevant : bool then
        show (add_event tick (SidecarRelevant (content_preview memory))) ;?
        mem_ret (relevant ++ [memory])
      else
        show (add_event tick SidecarNotRelevant) ;?
        mem_ret relevant
  | (inr e, _) =>
      show (add_event tick (MemoryError e)) ;?
      mem_ret relevant
  end.

Fixpoint judge_all (context : string) (relevant memories : list MemoryEntry) : Mem (list MemoryEntry) :=
  match memories with
  | [] => mem_ret relevant
  | memory :: memories =>
      relevant <-? judge context relevant memory;
      judge_all context relevant memories
  end.

(** The candidates by their scores. *)
Definition scored_candidates (limit : usize) : Mem (list MemoryEntry) :=
  entries <-? collect_retrieval_candidates_scoped ScopeAll;
  mem_ret (top_k_by_score ((λ entry, (entry, f32_of_f64 (memory_score now entry)))
                             <$> filter (λ entry, me_active entry = true) entries) limit).*1.

Definition get_relevant_for_context (context : string) (max_candidates : usize) : Mem (list MemoryEntry) :=
  candidates <-? scored_candidates max_candidates;
  if is_nil candidates then mem_ret []
  else
    show (set_state tick (MemorySidecarChecking (length candidates))) ;?
    show (add_event tick SidecarStarted) ;?
    relevant <-? judge_all context [] candidates;
    mem_ok (touch_entries (me_id <$> relevant)) ;?
    show (set_state tick (if is_nil relevant then MemoryIdle
                          else MemoryFoundRelevant (length relevant))) ;?
    mem_ret relevant.

Definition relevant_prompt_for_context (context : string) (max_candidates limit : usize)
    : Mem (option string) :=
  relevant <-? get_relevant_for_context context max_candidates;
  mem_ret (if is_nil relevant then None else format_relevant_prompt to_rfc3339 relevant limit).

Definition relevant_prompt_for_messages `{Json} (messages : list Message) : Mem (option string) :=
  let context := format_context_for_relevance messages in
  if context =s "" then mem_ret None
  else relevant_prompt_for_context context MEMORY_RELEVANCE_MAX_CANDIDATES MEMORY_RELEVANCE_MAX_RESULTS.

(** ** The check for a turn *)

Definition BATCH_SIZE : nat := 5.

(** [candidates.chunks(BATCH_SIZE)], one batch after the other. *)
Fixpoint judge_batches (fuel : nat) (context : string) (total : usize) (relevant candidates : list MemoryEntry)
    : Mem (list MemoryEntry) :=
  match fuel with
  | 0 => mem_ret relevant
  | S fuel =>
      if is_nil candidates then mem_ret relevant
      else
        relevant <-? judge_all context relevant (take BATCH_SIZE candidates);
        show (pipeline_update (pipeline_progress (length relevant + (total - total `min` total), total))) ;?
        emit_memory_activity ;?
        judge_batches fuel context total relevant (drop BATCH_SIZE candidates)
  end.

(** The end of a check without a memory to give. *)
Definition nothing_found (f : PipelineState → PipelineState)
    : Mem (option string * list string * option string) :=
  show (pipeline_update f) ;?
  show (set_state tick MemoryIdle) ;?
  emit_memory_activity ;?
  mem_ret (None, [], None).

(** The end of one with memories: [f] notes how they were verified. *)
Definition found (f : PipelineState → PipelineState) (relevant : list MemoryEntry)
    : Mem (option string * list string * option string) :=
  show (pipeline_update (pipeline_steps None None (Some StepRunning) None ∘ f)) ;?
  show (set_state tick (MemoryFoundRelevant (length relevant))) ;?
  emit_memory_activity ;?
  let prompt := format_relevant_prompt to_rfc3339 relevant MEMORY_RELEVANCE_MAX_RESULTS in
  let display_prompt := format_relevant_display_prompt to_rfc3339 relevant MEMORY_RELEVANCE_MAX_RESULTS in
  show (pipeline_update (pipeline_results None None
          (step_result (pretty (length relevant) +:+ " memories") 0)
        ∘ pipeline_steps None None (Some StepDone) None)) ;?
  emit_memory_activity ;?
  mem_ret (prompt, me_id <$> relevant, display_prompt).

(** The search of [get_relevant_parallel]; [None] when it found nothing. *)
Definition search_candidates (embedding_ms : u64) (context : string)
    : Mem (option (list MemoryEntry)) :=
  hits <-? (λ mw, match find_retrieval_candidates_similar_scoped context EMBEDDING_SIMILARITY_THRESHOLD
                          EMBEDDING_MAX_HITS ScopeAll mw with
                  | (r, mw) => (inl r, mw)
                  end);
  match hits with
  | inl [] =>
      show (add_event tick (EmbeddingComplete embedding_ms 0)) ;?
      show (pipeline_update (skip_rest ∘ pipeline_results (step_result "0 hits" embedding_ms) None None
              ∘ pipeline_steps (Some StepDone) None None None)) ;?
      show (set_state tick MemoryIdle) ;?
      emit_memory_activity ;?
      mem_ret None
  | inl hits =>
      show (pipeline_update (pipeline_results
              (step_result (pretty (length hits) +:+ " hits") embedding_ms) None None
            ∘ pipeline_steps (Some StepDone) None None None)) ;?
      show (add_event tick (EmbeddingComplete embedding_ms (length hits))) ;?
      mem_ret (Some hits.*1)
  | inr e =>
      show (add_event tick (MemoryError e)) ;?
      show (pipeline_update (pipeline_results (step_result "fallback" embedding_ms) None None
            ∘ pipeline_steps (Some StepError) None None None)) ;?
      emit_memory_activity ;?
      candidates <-? scored_candidates MEMORY_RELEVANCE_MAX_CANDIDATES;
      mem_ret (Some candidates)
  end.

(** The check of the candidates that were not injected before. *)
Definition verify_candidates (verify_ms : u64) (context : string) (candidates : list MemoryEntry)
    : Mem (option string * list string * option string) :=
  if is_nil candidates then nothing_found skip_rest
  else if negb memory_sidecar_enabled then
    let relevant := take MEMORY_RELEVANCE_MAX_RESULTS candidates in
    mem_ok (touch_entries (me_id <$> relevant)) ;?
    if is_nil relevant then
      nothing_found (skip_rest ∘ pipeline_results None (step_result "semantic only" 0) None)
    else
      found (pipeline_results None (step_result ("semantic " +:+ pretty (length relevant)) 0) None
             ∘ pipeline_steps None (Some StepSkipped) None None) relevant
  else
    let total_candidates := length candidates in
    show (set_state tick (MemorySidecarChecking total_candidates)) ;?
    show (add_event tick SidecarStarted) ;?
    show (pipeline_update (pipeline_progress (0, total_candidates)
          ∘ pipeline_steps None (Some StepRunning) None None)) ;?
    emit_memory_activity ;?
    relevant <-? judge_batches (S total_candidates) context total_candidates [] candidates;
    mem_ok (touch_entries (me_id <$> relevant)) ;?
    if is_nil relevant then
      nothing_found (pipeline_steps None None (Some StepSkipped) (Some StepSkipped)
        ∘ pipeline_results None (step_result "0 relevant" verify_ms) None
        ∘ pipeline_steps None (Some StepDone) None None)
    else
      found (pipeline_results None
               (step_result (pretty (length relevant) +:+ " relevant") verify_ms) None
             ∘ pipeline_steps None (Some StepDone) None None) relevant.

Definition get_relevant_parallel `{Json} (embedding_ms verify_ms : u64) (messages : list Message)
    : Mem (option string * list string * option string) :=
  let context := format_context_for_relevance messages in
  if context =s "" then mem_ret (None, [], None)
  else
    show (pipeline_start tick) ;?
    show (set_state tick MemoryEmbedding) ;?
    show (add_event tick EmbeddingStarted) ;?
    show (pipeline_update (pipeline_steps (Some StepRunning) None None None)) ;?
    emit_memory_activity ;?
    candidates <-? search_candidates embedding_ms context;
    match candidates with
    | None => mem_ret (None, [], None)
    | Some candidates =>
        pending <-? mem_get mw_pending;
        verify_candidates verify_ms context
          (filter (λ entry, is_memory_injected_any (me_id entry) pending = false) candidates)
    end.

(** The lines of a prompt that are items. *)
Definition item_lines (prompt : string) : usize :=
  length (filter (λ line, starts_with "- " line || from_option (λ split,
    negb (split.1 =s "") && forallb is_ascii_digit (chars split.1)) false (split_once ". " line) = true)
    (trim_start <$> lines prompt)).

(** The task that [spawn_relevance_check] starts, as one computation: in the
    program it waits for the model and the sidecar, and meanwhile the tasks of
    other sessions may change the shared activity and the pending payloads. *)
Definition relevance_task `{Json} (embedding_ms verify_ms : u64) (sid : string) (messages : list Message)
    (mw : Memory) : Memory :=
  let act f mw := with_activity (f (mw_activity mw)) mw in
  let '(result, mw) := get_relevant_parallel embedding_ms verify_ms messages mw in
  let mw :=
    match result with
    | inl (Some prompt, memory_ids, display_prompt) =>
        let count := item_lines prompt `max` 1 in
        let mw := with_pending (set_pending_memory_with_ids_and_display tick sid prompt count memory_ids
                                  display_prompt (mw_pending mw)) mw in
        if memory_sidecar_enabled then act (add_event tick (SidecarComplete 0)) mw else mw
    | inl (None, _, _) => act (set_state tick MemoryIdle) mw
    | inr e => act (set_state tick MemoryIdle) (act (add_event tick (MemoryError e)) mw)
    end in
  let mw := (emit_memory_activity mw).2 in
  with_pending (finish_memory_check sid (mw_pending mw)) mw.

Definition spawn_relevance_check `{Json} (embedding_ms verify_ms : u64) (session_id : string)
    (messages : list Message) (mw : Memory) : Memory :=
  let '(begun, pending) := begin_memory_check session_id (mw_pending mw) in
  let mw := with_pending pending mw in
  if begun then relevance_task embedding_ms verify_ms session_id messages mw else mw.
End manager.
