(* ===== verification/MemoryManagerTheorems.v ===== *)
(** * Properties of the memory manager

    What a search by embedding gives, what remembering does to the stores, and
    how a check for a turn ends; then runs of the manager on small stores. *)

From S2P Require Import Prelude Utf8 Text SwarmPlan F32 Ranking MemoryEntry MemoryPrompt MemoryGraph MemoryGraphRetrieval Messages Compaction MemoryActivity Storage StorageTheorems MemoryManager.
Open Scope nat_scope.
Open Scope io_scope.
Open Scope mem_scope.

(** ** Scores *)

Section scores.
Context `{UnicodeLower}.

(** The score of an entry for a query. *)
Definition candidate_score (query_embedding : list f32) (query_text : string) (entry : MemoryEntry) : f32 :=
  let sim :=
    match me_embedding entry with
    | Some c => if (length query_embedding =? 0) || negb (length c =? length query_embedding)
                then f32_0_0 else dot c query_embedding
    | None => f32_0_0
    end in
  f32_add sim (skill_retrieval_bonus entry (collect_skill_query_terms query_text)).

Definition is_candidate (query_embedding : list f32) (query_text : string) (threshold : f32)
    (entry : MemoryEntry) : Prop :=
  has_embedding entry = true ∧ f32_ge (candidate_score query_embedding query_text entry) threshold = true.

Lemma zip_scores query_embedding query_text entries :
  Forall (λ entry, has_embedding entry = true) entries →
  zip_with (λ entry sim, (entry, f32_add sim (skill_retrieval_bonus entry (collect_skill_query_terms query_text))))
    entries (batch_cosine_similarity query_embedding (omap me_embedding entries))
  = (λ entry, (entry, candidate_score query_embedding query_text entry)) <$> entries.
Proof.
  intros Hall.
  assert (Hbatch : batch_cosine_similarity query_embedding (omap me_embedding entries)
    = (λ c, if (length query_embedding =? 0) || negb (length c =? length query_embedding)
            then f32_0_0 else dot c query_embedding) <$> omap me_embedding entries).
  { unfold batch_cosine_similarity. destruct (length query_embedding =? 0); cbn [orb]; [done|].
    by destruct (omap me_embedding entries). }
  rewrite Hbatch. clear Hbatch. induction Hall as [|entry entries He Hall IH]; [done|].
  unfold has_embedding in He. cbn. unfold candidate_score at 1.
  destruct (me_embedding entry) as [v|]; [|done]. cbn. by rewrite IH.
Qed.

Lemma f32_ge_number a b : f32_ge a b = true → f32_is_nan a = false.
Proof. unfold f32_ge, f32_gt, f32_eq. by destruct (f32_is_nan a), (f32_is_nan b). Qed.

(** *** The gap *)

Lemma keep_close_prefix {T} max_gap previous (scored : list (T * f32)) :
  ∃ rest, scored = keep_close max_gap previous scored ++ rest.
Proof.
  revert previous. induction scored as [|x scored IH]; intros previous; [by exists []|]. cbn.
  destruct (f32_gt _ _); [by exists (x :: scored)|]. destruct (IH x.2) as [rest E]. exists rest.
  cbn. by f_equal.
Qed.

Lemma keep_close_close {T} max_gap (scored : list (T * f32)) (a : T * f32) i x y :
  (a :: keep_close max_gap a.2 scored) !! i = Some x →
  (a :: keep_close max_gap a.2 scored) !! S i = Some y →
  f32_gt (f32_sub x.2 y.2) max_gap = false.
Proof.
  revert a i. induction scored as [|b scored IH]; intros a i; [done|]. cbn [keep_close].
  destruct (f32_gt (f32_sub a.2 b.2) max_gap) eqn:E; [done|]. destruct i as [|i].
  - by intros [= <-] [= <-].
  - cbn [lookup list_lookup]. apply IH.
Qed.

(** The largest drop that the filter keeps. *)
Definition largest_gap {T} (scored : list (T * f32)) : f32 :=
  f32_mul (f32_max (f32_sub (from_option snd f32_0_0 (head scored)) EMBEDDING_SIMILARITY_THRESHOLD) gap_floor)
    GAP_FACTOR.

Lemma apply_gap_filter_spec {T} (scored : list (T * f32)) :
  (∃ rest, scored = apply_gap_filter scored ++ rest)
  ∧ head (apply_gap_filter scored) = head scored
  ∧ ∀ i x y, apply_gap_filter scored !! i = Some x → apply_gap_filter scored !! S i = Some y →
    f32_gt (f32_sub x.2 y.2) (largest_gap scored) = false.
Proof.
  destruct scored as [|top [|next rest]].
  - by split_and!; [exists []|..].
  - split_and!; [by exists []|done|]. by intros [].
  - split_and!; [|done|].
    + destruct (keep_close_prefix (largest_gap (top :: next :: rest)) top.2 (next :: rest)) as [l E].
      exists l. cbn [apply_gap_filter]. cbn [app]. f_equal. exact E.
    + intros i x y. apply keep_close_close.
Qed.

Lemma score_and_filter_spec entries query_embedding query_text threshold limit :
  let results := score_and_filter entries query_embedding query_text threshold limit in
  let score := candidate_score query_embedding query_text in
  length results ≤ limit
  ∧ StronglySorted (λ a b, f32_total_leb b.2 a.2 = true) results
  ∧ Forall (λ r, r.1 ∈ entries ∧ is_candidate query_embedding query_text threshold r.1 ∧ r.2 = score r.1) results
  ∧ (∀ entry r, entry ∈ entries → is_candidate query_embedding query_text threshold entry →
     entry ∉ results.*1 → r ∈ results → f32_gt (score entry) r.2 = false)
  ∧ ∀ i x y, results !! i = Some x → results !! S i = Some y →
    f32_gt (f32_sub x.2 y.2) (largest_gap results) = false.
Proof.
  intros results score. subst results. unfold score_and_filter.
  rewrite zip_scores by (apply Forall_forall; intros e He; by apply list_elem_of_filter in He as [? _]).
  fold score. set (items := filter (λ scored, f32_ge scored.2 threshold = true) _).
  assert (Hitems : ∀ r, r ∈ items ↔ r.1 ∈ entries ∧ is_candidate query_embedding query_text threshold r.1
                              ∧ r.2 = score r.1).
  { intros r. unfold items, is_candidate. rewrite list_elem_of_filter, list_elem_of_fmap.
    setoid_rewrite list_elem_of_filter. split.
    - intros (Hge & entry & -> & He & Hin). done.
    - intros (Hin & [He Hge] & Hs). destruct r as [entry s]. cbn in *. subst s. naive_solver. }
  destruct (top_k_spec (proper_score := λ k, f32_is_nan k = false) items limit)
    as (dropped & Hperm & Hlen & Hsorted & Hbest).
  { intros x Hx. apply list_elem_of_filter in Hx as [Hx _]. by eapply f32_ge_number. }
  fold (top_k_by_score items limit) in *. set (scored := top_k_by_score items limit) in *.
  destruct (apply_gap_filter_spec scored) as ([rest Hrest] & Hhead & Hgap).
  assert (Hsub : apply_gap_filter scored `sublist_of` scored).
  { rewrite Hrest at 2. by apply sublist_inserts_r. }
  split_and!.
  - apply sublist_length in Hsub. lia.
  - rewrite Hrest in Hsorted. by apply StronglySorted_app_1_l in Hsorted.
  - apply Forall_forall. intros r Hr. apply Hitems. rewrite <- Hperm, elem_of_app. left.
    by eapply sublist_subseteq.
  - intros entry r He Hc Hout Hr.
    assert (Hin : (entry, score entry) ∈ scored ++ dropped) by (rewrite Hperm; by apply Hitems).
    apply elem_of_app in Hin as [Hin|Hin].
    + rewrite Hrest in Hin. apply elem_of_app in Hin as [Hin|Hin].
      { destruct Hout. by apply (list_elem_of_fmap_2 fst) in Hin. }
      rewrite Hrest in Hsorted.
      assert (Hs := StronglySorted_app_1_elem_of _ _ _ _ _ Hsorted Hr Hin). cbn in Hs.
      destruct (f32_gt (score entry) r.2) eqn:E; [|done]. apply f32_gt_total in E. congruence.
    + assert (Hr' : r ∈ scored) by by eapply sublist_subseteq.
      refine (Hbest _ (entry, score entry) r Hin Hr').
      apply list_elem_of_In, in_split in Hr' as (? & ? & E). rewrite E, length_app in Hlen.
      cbn in Hlen. lia.
  - unfold largest_gap. rewrite Hhead. exact Hgap.
Qed.

(** C38. What a search by embedding gives: at most [limit] memories with
    embeddings, by falling scores, each score the one of its memory and at
    least the threshold; no memory that is left out has a better score than
    one that is given; and no score falls below the one before it by more than
    a quarter of the best one's distance to the floor of similarity. *)
Theorem score_and_filter_correct entries query_embedding query_text threshold limit :
  let results := score_and_filter entries query_embedding query_text threshold limit in
  let score := candidate_score query_embedding query_text in
  length results ≤ limit
  ∧ StronglySorted (λ a b, f32_total_leb b.2 a.2 = true) results
  ∧ Forall (λ r, r.1 ∈ entries ∧ is_candidate query_embedding query_text threshold r.1 ∧ r.2 = score r.1) results
  ∧ (∀ entry r, entry ∈ entries → is_candidate query_embedding query_text threshold entry →
     entry ∉ results.*1 → r ∈ results → f32_gt (score entry) r.2 = false)
  ∧ ∀ i x y, results !! i = Some x → results !! S i = Some y →
    f32_gt (f32_sub x.2 y.2) (largest_gap results) = false.
Proof. apply score_and_filter_spec. Qed.
End scores.

(** ** Duplicates *)

Section duplicates.
Context `{UnicodeLower, HashOrder, Embedder}.

Definition repeats (emb : list f32) (entry : MemoryEntry) : bool :=
  from_option (λ e, f32_ge (cosine_similarity emb e) STORAGE_DEDUP_THRESHOLD) false (me_embedding entry).

(** Memories are kept under their ids. *)
Definition well_keyed (g : MemoryGraph) : Prop := map_Forall (λ id entry, me_id entry = id) (memories g).

Lemma elem_of_all_memories g entry : entry ∈ all_memories g ↔ ∃ id, memories g !! id = Some entry.
Proof.
  unfold all_memories. rewrite list_elem_of_fmap. split.
  - intros ([id e] & -> & Hin). exists id. by apply elem_of_hash_entries.
  - intros [id Hin]. exists (id, entry). split; [done|]. by apply elem_of_hash_entries.
Qed.

Lemma elem_of_active_memories g entry :
  entry ∈ active_memories g ↔ me_active entry = true ∧ ∃ id, memories g !! id = Some entry.
Proof. unfold active_memories. by rewrite list_elem_of_filter, elem_of_all_memories. Qed.

Definition better_duplicate (emb : list f32) (best : option (string * f32)) (entry : MemoryEntry)
    : option (string * f32) :=
  match me_embedding entry with
  | Some e =>
      let sim := cosine_similarity emb e in
      if f32_ge sim STORAGE_DEDUP_THRESHOLD && from_option (λ b, f32_gt sim b.2) true best
      then Some (me_id entry, sim) else best
  | None => best
  end.

Lemma better_duplicate_fold emb entries best :
  match foldl (better_duplicate emb) best entries with
  | Some b => best = Some b ∨ ∃ entry, entry ∈ entries ∧ me_id entry = b.1 ∧ repeats emb entry = true
  | None => best = None ∧ ∀ entry, entry ∈ entries → repeats emb entry = false
  end.
Proof.
  revert best. induction entries as [|entry entries IH]; intros best; cbn.
  { destruct best; [by left|]. split; [done|]. intros ? Hin. by apply elem_of_nil in Hin. }
  specialize (IH (better_duplicate emb best entry)).
  assert (Hstep : match better_duplicate emb best entry with
    | Some b => best = Some b ∨ me_id entry = b.1 ∧ repeats emb entry = true
    | None => best = None ∧ repeats emb entry = false end).
  { unfold better_duplicate, repeats. destruct (me_embedding entry) as [e|]; cbn; [|by destruct best; auto].
    destruct (f32_ge _ _) eqn:Eg; cbn [andb]; [|by destruct best; auto].
    destruct best as [[id s]|]; cbn [from_option]; [|by right].
    destruct (f32_gt _ _); [by right|by left]. }
  destruct (foldl _ _ entries) as [b|].
  - destruct IH as [E|(e & Hin & He)]; [|right; exists e; split; [by right|done]].
    rewrite E in Hstep. destruct Hstep as [?|?]; [by left|]. right. exists entry. split; [by left|done].
  - destruct IH as [E Hall]. rewrite E in Hstep. destruct Hstep as [-> Hr]. split; [done|].
    intros e [->|Hin]%elem_of_cons; [done|by apply Hall].
Qed.

Lemma find_duplicate_spec g emb :
  match find_duplicate_in_graph g emb STORAGE_DEDUP_THRESHOLD with
  | Some id => ∃ entry, entry ∈ active_memories g ∧ me_id entry = id ∧ repeats emb entry = true
  | None => ∀ entry, entry ∈ active_memories g → repeats emb entry = false
  end.
Proof.
  unfold find_duplicate_in_graph. fold (better_duplicate emb).
  assert (Hf := better_duplicate_fold emb (active_memories g) None).
  change (foldl _ None (active_memories g)) with (foldl (better_duplicate emb) None (active_memories g)).
  destruct (foldl (better_duplicate emb) None _) as [b|]; cbn.
  - destruct Hf as [|Hf]; [done|]. exact Hf.
  - apply Hf.
Qed.
End duplicates.

(** ** What is saved is loaded *)

Section storing.
Context `{UnicodeLower, HashOrder, MemoryCodec, Embedder}.
Context (mtime : World → string → option Z) (path_hash : string → string) (current_dir : option string).
Context (tmp_suffix : string) (m : MemoryManager) (now : datetime).

#[local] Abbreviation path_of := (store_path path_hash current_dir m).
#[local] Abbreviation save := (save_graph mtime path_hash current_dir tmp_suffix m).
#[local] Abbreviation load := (load_graph mtime path_hash current_dir tmp_suffix m now).
#[local] Abbreviation remember_in := (remember mtime path_hash current_dir tmp_suffix m now).
#[local] Abbreviation reinforce_in := (reinforce_duplicate mtime path_hash current_dir tmp_suffix m now).

(** The store has a file: there is a project, or the store is the user's. *)
Definition has_file (store : StoreKind) : Prop :=
  match store with ProjectStore => is_Some (get_project_dir current_dir m) | GlobalStore => True end.

Lemma path_of_real store w :
  mm_test_mode m = false → has_file store →
  ∃ name, path_of store w
    = (match w_gcode_dir w with inl dir => inl (Some (name dir)) | inr e => inr e end, w)
    ∧ ∀ w', w_gcode_dir w' = w_gcode_dir w →
      path_of store w' = (match w_gcode_dir w with inl dir => inl (Some (name dir)) | inr e => inr e end, w').
Proof.
  intros Ht Hf. unfold store_path, project_memory_path, global_memory_path. rewrite Ht. destruct store.
  - destruct Hf as [dir Hd]. rewrite Hd. unfold memory_dir, gcode_dir, io_bind, io_ret.
    exists (λ d, path_join (path_join (path_join d "memory") "projects") (path_hash dir +:+ ".json")).
    split; [by destruct (w_gcode_dir w)|]. intros w' E. rewrite E. by destruct (w_gcode_dir w).
  - unfold gcode_dir, io_bind, io_ret.
    exists (λ d, path_join (path_join d "memory") "global.json").
    split; [by destruct (w_gcode_dir w)|]. intros w' E. rewrite E. by destruct (w_gcode_dir w).
Qed.

Lemma load_cached store path g mw :
  mm_test_mode m = false → path_of store (mw_world mw) = (inl (Some path), mw_world mw) →
  mw_cache mw !! path = Some (g, mtime (mw_world mw) path) →
  ∃ mw', load store mw = (inl (normalize_graph_search_text g).2, mw').
Proof.
  intros Ht Hp Hc.
  assert (Hlookup : cache_lookup mtime m path mw = (inl (Some g), mw)).
  { unfold cache_lookup. rewrite Ht. unfold mem_get, cached_graph. rewrite Hc.
    by rewrite bool_decide_true. }
  assert (Hfrom : ∃ mw', from_cache mtime path g mw = (inl (normalize_graph_search_text g).2, mw')).
  { unfold from_cache. destruct (normalize_graph_search_text g) as [[] g']; by eexists. }
  assert (Hw : with_world (mw_world mw) mw = mw) by by destruct mw.
  destruct Hfrom as [mw' Hfrom]. exists mw'. destruct store; cbn [load_graph store_path] in *.
  - unfold load_project_graph, mem_bind at 1, on_disk. rewrite Hp, Hw.
    unfold mem_bind at 1. by rewrite Hlookup, Hfrom.
  - unfold io_bind, io_ret in Hp. unfold load_global_graph, mem_bind at 1, on_disk.
    destruct (global_memory_path m (mw_world mw)) as [[p|] w]; [|done]. injection Hp as -> ->.
    rewrite Hw. unfold mem_bind at 1. by rewrite Hlookup, Hfrom.
Qed.

Lemma save_cached store g mw mw' :
  mm_test_mode m = false → has_file store → reliable (mw_world mw) → save store g mw = (inl (), mw') →
  ∃ path, path_of store (mw_world mw') = (inl (Some path), mw_world mw')
    ∧ mw_cache mw' !! path = Some (g, mtime (mw_world mw') path).
Proof.
  intros Ht Hf Hr Hs. destruct (path_of_real store (mw_world mw) Ht Hf) as (name & Hp & Hp').
  unfold save_graph, mem_bind at 1, on_disk at 1 in Hs. rewrite Hp in Hs.
  destruct (w_gcode_dir (mw_world mw)) as [dir|e] eqn:Ed; [|done]. exists (name dir).
  unfold mem_bind, on_disk, cache_unless_test in Hs. rewrite Ht in Hs. cbn [mw_world with_world] in Hs.
  destruct (steady_write_json tmp_suffix (name dir) (graph_to_json g) (mw_world mw) Hr) as [_ Hg].
  destruct (write_json _ _ _ _) as [[[]|e] w]; [|done]. injection Hs as <-. cbn in *.
  split; [apply Hp'; congruence|]. by rewrite lookup_insert_eq.
Qed.

(** After a graph is saved it is what the store loads, its search texts
    brought up to date. *)
Lemma save_then_load store g mw mw' :
  mm_test_mode m = false → has_file store → reliable (mw_world mw) → save store g mw = (inl (), mw') →
  ∃ mw'', load store mw' = (inl (normalize_graph_search_text g).2, mw'').
Proof.
  intros Ht Hf Hr Hs. destruct (save_cached _ _ _ _ Ht Hf Hr Hs) as (path & Hp & Hc).
  by eapply load_cached.
Qed.

(** *** Operations that touch the disk and the cache alone *)

Definition disk_only {A} (op : Mem A) : Prop :=
  ∀ mw, (reliable (mw_world mw) → reliable (mw_world (op mw).2))
        ∧ mw_activity (op mw).2 = mw_activity mw ∧ mw_pending (op mw).2 = mw_pending mw.

Lemma disk_ret {A} (x : A) : disk_only (mem_ret x).
Proof. by intros mw. Qed.

Lemma disk_fail {A} e : disk_only (mem_fail (A := A) e).
Proof. by intros mw. Qed.

Lemma disk_get {A} (f : Memory → A) : disk_only (mem_get f).
Proof. by intros mw. Qed.

Lemma disk_bind {A B} (op : Mem A) (f : A → Mem B) :
  disk_only op → (∀ x, disk_only (f x)) → disk_only (mem_bind op f).
Proof.
  intros Hop Hf mw. destruct (Hop mw) as (H1' & H2' & H3'). unfold mem_bind.
  destruct (op mw) as [[x|e] mw1]; cbn in *; [|done].
  destruct (Hf x mw1) as (H4' & -> & ->). split_and!; auto.
Qed.

Lemma disk_ok {A} (op : Mem A) : disk_only op → disk_only (mem_ok op).
Proof. intros Hop mw. specialize (Hop mw). unfold mem_ok. by destruct (op mw) as [[]]. Qed.

Lemma disk_io {A} (io : IO A) : steady io → disk_only (on_disk io).
Proof.
  intros Hio mw. specialize (Hio (mw_world mw)). unfold on_disk.
  destruct (io (mw_world mw)) as [r w]. cbn in *. naive_solver.
Qed.

Lemma disk_if {A} (b : bool) (op1 op2 : Mem A) : disk_only op1 → disk_only op2 → disk_only (if b then op1 else op2).
Proof. by destruct b. Qed.

Lemma disk_cache_graph path g : disk_only (mem_do (cache_graph mtime path g)).
Proof. by intros mw. Qed.

Lemma disk_cache path g : disk_only (cache_unless_test mtime m path g).
Proof. unfold cache_unless_test. by apply disk_if. Qed.
End storing.

Create HintDb disk.
#[export] Hint Resolve disk_ret disk_fail disk_get disk_bind disk_ok disk_io disk_if disk_cache_graph disk_cache : disk.

Section disk_operations.
Context `{UnicodeLower, HashOrder, MemoryCodec, Embedder}.
Context (mtime : World → string → option Z) (path_hash : string → string) (current_dir : option string).
Context (tmp_suffix : string) (m : MemoryManager) (now : datetime).

Lemma steady_test_dir sub : steady (test_dir sub).
Proof. unfold test_dir, memory_dir. auto 10 with steady. Qed.
#[local] Hint Resolve steady_test_dir : steady.

Lemma steady_project_path : steady (project_memory_path path_hash current_dir m).
Proof.
  unfold project_memory_path, memory_dir. destruct (mm_test_mode m); [auto with steady|].
  destruct (get_project_dir current_dir m); auto 10 with steady.
Qed.

Lemma steady_global_path : steady (global_memory_path m).
Proof. unfold global_memory_path. destruct (mm_test_mode m); auto with steady. Qed.
#[local] Hint Resolve steady_project_path steady_global_path : steady.

Lemma steady_store_path store : steady (store_path path_hash current_dir m store).
Proof. destruct store; cbn; auto with steady. Qed.
#[local] Hint Resolve steady_store_path : steady.

Lemma steady_import g : steady (import_legacy_notes_into_graph path_hash current_dir m now g).
Proof.
  unfold import_legacy_notes_into_graph. apply steady_bind.
  - unfold legacy_notes_path. destruct (mm_test_mode m); [auto with steady|].
    destruct (get_project_dir current_dir m); auto with steady.
  - intros [path|]; [|auto with steady]. apply steady_bind; [auto with steady|].
    intros []; cbn; auto with steady.
Qed.
#[local] Hint Resolve steady_import : steady.

Lemma disk_save store g : disk_only (save_graph mtime path_hash current_dir tmp_suffix m store g).
Proof.
  unfold save_graph. apply disk_bind; [auto with disk steady|]. intros [path|]; auto with disk steady.
Qed.
#[local] Hint Resolve disk_save : disk.

Lemma disk_migrate path import :
  (∀ g, steady (import g)) → disk_only (migrate_store mtime tmp_suffix m now path import).
Proof.
  intros Hi. unfold migrate_store. apply disk_bind; [auto with disk steady|]. intros store.
  apply disk_bind; [auto with disk steady|]. intros imported.
  apply disk_bind; [auto with disk steady|]. intros []; auto 10 with disk steady.
Qed.

Lemma disk_read_graph path : disk_only (read_graph path).
Proof. unfold read_graph. auto with disk steady. Qed.

Lemma disk_from_cache path g : disk_only (from_cache mtime path g).
Proof. unfold from_cache. destruct (normalize_graph_search_text g) as [[] g']; auto with disk. Qed.

Lemma disk_cache_lookup path : disk_only (cache_lookup mtime m path).
Proof. unfold cache_lookup. auto with disk. Qed.
#[local] Hint Resolve disk_migrate disk_read_graph disk_from_cache disk_cache_lookup : disk.

Lemma disk_load store : disk_only (load_graph mtime path_hash current_dir tmp_suffix m now store).
Proof.
  destruct store; cbn.
  - unfold load_project_graph. apply disk_bind; [auto with disk steady|].
    intros [path|]; [|auto with disk]. apply disk_bind; [auto with disk|].
    intros [g|]; [auto with disk|]. apply disk_bind; [auto with disk steady|]. intros [].
    + apply disk_bind; [auto with disk|]. intros [g|]; [|auto with disk steady].
      destruct (normalize_graph_search_text g) as [normalized g1]. apply disk_bind; [auto with disk steady|].
      intros [imported g2]. apply disk_bind; [|auto with disk].
      unfold save_project_graph. destruct imported, normalized; auto with disk steady.
    + apply disk_bind; [auto with disk steady|]. intros [imported g]. apply disk_bind; [|auto with disk].
      unfold save_project_graph. auto with disk steady.
  - unfold load_global_graph. apply disk_bind; [auto with disk steady|]. intros path.
    apply disk_bind; [auto with disk|]. intros [g|]; [auto with disk|].
    apply disk_bind; [auto with disk steady|]. intros [].
    + apply disk_bind; [auto with disk|]. intros [g|]; [|auto with disk steady].
      destruct (normalize_graph_search_text g) as [[] g1]; auto 10 with disk steady.
    + auto with disk.
Qed.
End disk_operations.

#[export] Hint Resolve disk_save disk_load : disk.

(** ** Remembering *)

Section remembering.
Context `{UnicodeLower, HashOrder, MemoryCodec, Embedder}.
Context (mtime : World → string → option Z) (path_hash : string → string) (current_dir : option string).
Context (tmp_suffix : string) (m : MemoryManager) (now : datetime).

#[local] Abbreviation save := (save_graph mtime path_hash current_dir tmp_suffix m).
#[local] Abbreviation load := (load_graph mtime path_hash current_dir tmp_suffix m now).
#[local] Abbreviation remember_in := (remember mtime path_hash current_dir tmp_suffix m now).
#[local] Abbreviation reinforce_in := (reinforce_duplicate mtime path_hash current_dir tmp_suffix m now).

(** The graph with its search texts brought up to date. *)
Definition normalized (g : MemoryGraph) : MemoryGraph := (normalize_graph_search_text g).2.

(** The entry as it is stored: with its embedding, where one is wanted. *)
Definition embedded (entry : MemoryEntry) : MemoryEntry :=
  if should_generate_embedding_for_entry m entry then (ensure_embedding entry).2 else entry.

(** A store loads a graph. *)
Definition loads (store : StoreKind) (mw : Memory) (g : MemoryGraph) : Prop := (load store mw).1 = inl g.

(** The graph holds no active memory that the vector repeats. *)
Definition none_repeats (emb : list f32) (g : MemoryGraph) : Prop :=
  well_keyed g → ∀ x, x ∈ active_memories g → repeats emb x = false.

Lemma ensure_embedding_id entry : me_id (ensure_embedding entry).2 = me_id entry.
Proof. unfold ensure_embedding. by destruct (me_embedding entry), (embed (me_content entry)). Qed.

Lemma embedded_id entry : me_id (embedded entry) = me_id entry.
Proof. unfold embedded. destruct (should_generate_embedding_for_entry m entry); [apply ensure_embedding_id|done]. Qed.

Lemma saved_loads store g mw mw' :
  mm_test_mode m = false → has_file current_dir m store → reliable (mw_world mw) →
  save store g mw = (inl (), mw') → loads store mw' (normalized g).
Proof.
  intros Ht Hf Hr Hs. unfold loads.
  destruct (save_then_load mtime path_hash current_dir tmp_suffix m now store g mw mw' Ht Hf Hr Hs)
    as [mw'' E].
  by rewrite E.
Qed.

Lemma reinforce_spec store g emb session mw r mw' :
  mm_test_mode m = false → has_file current_dir m store → reliable (mw_world mw) →
  reinforce_in store g emb session mw = (inl r, mw') →
  match r with
  | Some id => loads store mw' (normalized (update_memory id (reinforce now session 0) g))
               ∧ ∃ x, x ∈ active_memories g ∧ me_id x = id ∧ repeats emb x = true
  | None => mw' = mw ∧ none_repeats emb g
  end.
Proof.
  intros Ht Hf Hr. unfold reinforce_duplicate. assert (Hd := find_duplicate_spec g emb).
  destruct (find_duplicate_in_graph _ _ _) as [id|]; [|intros [= <- <-]; by split; [|intros _]].
  destruct Hd as (x & Hx & Hid & Hrep).
  destruct (get_memory id g) as [e|] eqn:Ee.
  - unfold mem_bind. destruct (save_graph _ _ _ _ _ _ _ mw) as [[[]|er] mw1] eqn:Es; [|done].
    intros [= <- <-]. split; [by eapply saved_loads|]. by exists x.
  - intros [= <- <-]. split; [done|]. intros Hk. exfalso.
    apply elem_of_active_memories in Hx as (_ & k & Hl). specialize (Hk k x Hl). cbn in Hk.
    unfold get_memory in Ee. congruence.
Qed.

(** C39. Remembering: the store first loads its graph. Then either the memory
    is added to it, and the store loads that from then on; and if the memory
    has an embedding, no active memory of this store, nor of the other where
    that could be loaded, is similar to it. Or the id returned is the one of
    an active memory of one of the two stores that is similar, and that store
    now loads its graph with this memory reinforced, and nothing is added. *)
Theorem remember_correct store entry mw id mw' :
  mm_test_mode m = false → has_file current_dir m store → has_file current_dir m (other_store store) →
  reliable (mw_world mw) → remember_in store entry mw = (inl id, mw') →
  ∃ own mw1, load store mw = (inl own, mw1) ∧
    ((id = me_id entry ∧ loads store mw' (normalized (add_memory now (embedded entry) own).1)
      ∧ ∀ emb, me_embedding (embedded entry) = Some emb →
        none_repeats emb own ∧ ∀ others, loads (other_store store) mw1 others → none_repeats emb others)
     ∨ ∃ emb s g session x, me_embedding (embedded entry) = Some emb
       ∧ (s = store ∧ g = own ∨ s = other_store store ∧ loads s mw1 g)
       ∧ x ∈ active_memories g ∧ me_id x = id ∧ repeats emb x = true
       ∧ loads s mw' (normalized (update_memory id (reinforce now session 0) g))).
Proof.
  intros Ht Hf Hf' Hr. unfold remember. fold (embedded entry). unfold mem_bind at 1.
  destruct (disk_load mtime path_hash current_dir tmp_suffix m now store mw) as (Hr1 & _).
  destruct (load store mw) as [[own|e] mw1] eqn:El; [|done]. specialize (Hr1 Hr). cbn in Hr1.
  intros Hrun. exists own, mw1. split; [done|].
  assert (Hadd : ∀ mw2, reliable (mw_world mw2) →
    (let '(graph, id) := add_memory now (embedded entry) own in
     save store graph ;? mem_ret id) mw2 = (inl id, mw') →
    id = me_id entry ∧ loads store mw' (normalized (add_memory now (embedded entry) own).1)).
  { intros mw2 Hr2. unfold add_memory. cbn [fst]. unfold mem_bind.
    destruct (save _ _ mw2) as [[[]|e] mw3] eqn:Es; [|done]. intros [= <- <-].
    split; [exact (embedded_id entry)|]. by eapply saved_loads. }
  unfold mem_bind at 1 in Hrun. destruct (me_embedding (embedded entry)) as [emb|] eqn:Ee.
  2:{ cbn in Hrun. left. destruct (Hadd _ Hr1 Hrun). by split_and!. }
  unfold mem_bind at 1 in Hrun.
  destruct (reinforce_in store own emb _ mw1) as [[[id1|]|e] mw2] eqn:E1; [| |done].
  { apply reinforce_spec in E1 as [Hl (x & Hx & Hid & Hrep)]; [|done..].
    cbn in Hrun. injection Hrun as <- <-. right. eexists emb, store, own, _, x. split_and!; eauto. }
  apply reinforce_spec in E1 as [-> Hnone]; [|done..].
  unfold mem_bind at 1 in Hrun.
  destruct (disk_load mtime path_hash current_dir tmp_suffix m now (other_store store) mw1) as (Hr3 & _).
  specialize (Hr3 Hr1). unfold mem_ok in Hrun.
  destruct (load (other_store store) mw1) as [[others|e] mw3] eqn:Eo; cbn in Hr3.
  - destruct (reinforce_in (other_store store) others emb _ mw3) as [[[id1|]|e] mw4] eqn:E2; [| |done].
    + apply reinforce_spec in E2 as [Hl (x & Hx & Hid & Hrep)]; [|done..].
      cbn in Hrun. injection Hrun as <- <-. right.
      eexists emb, (other_store store), others, _, x. split_and!; eauto. right. split; [done|].
      unfold loads. by rewrite Eo.
    + apply reinforce_spec in E2 as [-> Hnone']; [|done..].
      destruct (Hadd _ Hr3 Hrun) as [Hid Hl]. left. split_and!; [done..|]. intros ? [= <-]. split; [done|].
      intros g Hg. unfold loads in Hg. rewrite Eo in Hg. by injection Hg as <-.
  - cbn in Hrun. destruct (Hadd _ Hr3 Hrun) as [Hid Hl]. left. split_and!; [done..|]. intros ? [= <-].
    split; [done|]. intros g Hg. unfold loads in Hg. by rewrite Eo in Hg.
Qed.
End remembering.

(** ** The check for a turn *)

Section checking.
Context `{UnicodeLower, HashOrder, MemoryCodec, Embedder, FloatFunctions, PowI}.
Context (mtime : World → string → option Z) (path_hash : string → string) (current_dir : option string).
Context (tmp_suffix : string) (skills : list MemoryEntry) (m : MemoryManager) (now : datetime).
Context (memory_sidecar_enabled : bool) (check_relevance : string → string → (bool + string) * u64).
Context (tick : instant) (listening : bool) (to_rfc3339 : datetime → string).

#[local] Abbreviation load := (load_graph mtime path_hash current_dir tmp_suffix m now).

(** *** Searches do not fail *)

Definition never_fails {A} (op : Mem A) : Prop := ∀ mw, ∃ x, (op mw).1 = inl x.

Lemma never_ret {A} (x : A) : never_fails (mem_ret x).
Proof. intros mw. by exists x. Qed.

Lemma never_ok {A} (op : Mem A) : never_fails (mem_ok op).
Proof. intros mw. unfold mem_ok. destruct (op mw) as [[x|e] mw']; by eexists. Qed.

Lemma never_bind {A B} (op : Mem A) (f : A → Mem B) :
  never_fails op → (∀ x, never_fails (f x)) → never_fails (mem_bind op f).
Proof.
  intros Hop Hf mw. destruct (Hop mw) as [x E]. unfold mem_bind.
  destruct (op mw) as [r mw1]. cbn in E. subst r. apply Hf.
Qed.

Lemma never_collect scope select :
  never_fails (collect_scoped mtime path_hash current_dir tmp_suffix m now scope select).
Proof.
  unfold collect_scoped, collect_from.
  apply never_bind; [|intros project; apply never_bind; [|intros global; apply never_ret]].
  - destruct (includes_project scope); [|apply never_ret].
    apply never_bind; [apply never_ok|intros ?; apply never_ret].
  - destruct (includes_global scope); [|apply never_ret].
    apply never_bind; [apply never_ok|intros ?; apply never_ret].
Qed.

Lemma disk_collect scope select :
  disk_only (collect_scoped mtime path_hash current_dir tmp_suffix m now scope select).
Proof.
  unfold collect_scoped, collect_from.
  apply disk_bind; [|intros project; apply disk_bind; [|auto with disk]].
  - destruct (includes_project scope); auto with disk.
  - destruct (includes_global scope); auto with disk.
Qed.

(** A search by text finds memories or none; it never reports that the text
    could not be embedded. *)
Lemma candidates_never_fail text threshold limit scope :
  never_fails (find_retrieval_candidates_similar_scoped mtime path_hash current_dir tmp_suffix skills m now
    text threshold limit scope).
Proof.
  unfold find_retrieval_candidates_similar_scoped. destruct (embed text); [|apply never_ret].
  apply never_bind; [|intros ?; apply never_ret].
  apply never_bind; [apply never_collect|intros ?; apply never_ret].
Qed.

Lemma disk_candidates text threshold limit scope :
  disk_only (find_retrieval_candidates_similar_scoped mtime path_hash current_dir tmp_suffix skills m now
    text threshold limit scope).
Proof.
  unfold find_retrieval_candidates_similar_scoped. destruct (embed text); [|apply disk_ret].
  apply disk_bind; [|intros ?; apply disk_ret].
  apply disk_bind; [apply disk_collect|intros ?; apply disk_ret].
Qed.

Lemma disk_touch ids : disk_only (touch_entries mtime path_hash current_dir tmp_suffix m now ids).
Proof.
  unfold touch_entries. destruct (is_nil ids); [apply disk_ret|].
  apply disk_bind; [|intros _]; unfold touch_store; apply disk_bind; [auto with disk| |auto with disk|];
    intros g; destruct (existsb _ _); auto with disk.
Qed.

(** *** What is shown *)

(** The activity has a pipeline, and it and the state are so. *)
Definition shown (P : MemoryState → PipelineState → Prop) (mw : Memory) : Prop :=
  ∃ a p, mw_activity mw = Some a ∧ ma_pipeline a = Some p ∧ P (ma_state a) p.

(** From what is shown before, the operation succeeds, leaves the payloads as
    they are, and this is shown after. *)
Definition runs {A} (before : MemoryState → PipelineState → Prop) (op : Mem A)
    (after : A → MemoryState → PipelineState → Prop) : Prop :=
  ∀ mw, shown before mw →
    ∃ x mw', op mw = (inl x, mw') ∧ mw_pending mw' = mw_pending mw ∧ shown (after x) mw'.

Lemma runs_ret {A} (x : A) (P : MemoryState → PipelineState → Prop) : runs P (mem_ret x) (λ y st p, y = x ∧ P st p).
Proof. intros mw (a & p & Ha & Hp & HP). exists x, mw. split_and!; [done..|]. by exists a, p. Qed.

Lemma runs_bind {A B} P (op : Mem A) Q (f : A → Mem B) R :
  runs P op Q → (∀ x, runs (Q x) (f x) R) → runs P (mem_bind op f) R.
Proof.
  intros Hop Hf mw HP. destruct (Hop mw HP) as (x & mw1 & E1 & Hp1 & HQ).
  destruct (Hf x mw1 HQ) as (y & mw2 & E2 & Hp2 & HR). exists y, mw2. unfold mem_bind. rewrite E1.
  split_and!; [done|congruence|done].
Qed.

Lemma runs_weaken {A} (P P' : MemoryState → PipelineState → Prop) (op : Mem A) Q Q' :
  runs P op Q → (∀ st p, P' st p → P st p) → (∀ x st p, Q x st p → Q' x st p) → runs P' op Q'.
Proof.
  intros Hop HP HQ mw (a & p & Ha & Hp & HP').
  destruct (Hop mw) as (x & mw1 & E & Hp1 & (a1 & p1 & Ha1 & Hpp1 & HQ1)); [exists a, p; auto|].
  exists x, mw1. split_and!; [done..|]. exists a1, p1. auto.
Qed.

Lemma runs_disk {A} P (op : Mem A) : disk_only op → never_fails op → runs P op (λ _, P).
Proof.
  intros Hd Hn mw (a & p & Ha & Hp & HP). destruct (Hn mw) as [x E], (Hd mw) as (_ & Hact & Hpen).
  destruct (op mw) as [r mw1]. cbn in *. subst r. exists x, mw1. split_and!; [done..|].
  exists a, p. by rewrite Hact.
Qed.

Lemma runs_event (P : MemoryState → PipelineState → Prop) kind : runs P (show (add_event tick kind)) (λ _, P).
Proof.
  intros mw (a & p & Ha & Hp & HP). exists (), (with_activity (add_event tick kind (mw_activity mw)) mw).
  split_and!; [done..|]. rewrite Ha. by eexists _, p.
Qed.

Lemma runs_state P st : runs P (show (set_state tick st)) (λ _ st' p, st' = st ∧ ∃ old, P old p).
Proof.
  intros mw (a & p & Ha & Hp & HP). exists (), (with_activity (set_state tick st (mw_activity mw)) mw).
  split_and!; [done..|]. rewrite Ha. eexists _, p. split_and!; [done..|]. by exists (ma_state a).
Qed.

Lemma runs_pipeline P f (Q : MemoryState → PipelineState → Prop) :
  (∀ st p, P st p → Q st (f p)) → runs P (show (pipeline_update f)) (λ _, Q).
Proof.
  intros Hf mw (a & p & Ha & Hp & HP). exists (), (with_activity (pipeline_update f (mw_activity mw)) mw).
  split_and!; [done..|]. rewrite Ha. eexists _, (f p). split_and!; [done|by cbn; rewrite Hp|]. by apply Hf.
Qed.

Lemma runs_emit P : runs P (emit_memory_activity tick listening) (λ _, P).
Proof.
  intros mw (a & p & Ha & Hp & HP). unfold emit_memory_activity, mem_do.
  eexists (), _. split; [done|]. rewrite Ha. cbn. destruct listening; (split; [done|]; by exists a, p).
Qed.

(** The steps of a pipeline. *)
Definition steps (search verify inject maintain : StepStatus) (p : PipelineState) : Prop :=
  pl_search p = search ∧ pl_verify p = verify ∧ pl_inject p = inject ∧ pl_maintain p = maintain.

Lemma steps_results s v i mt a b c p : steps s v i mt p → steps s v i mt (pipeline_results a b c p).
Proof. done. Qed.

Lemma steps_progress s v i mt n p : steps s v i mt p → steps s v i mt (pipeline_progress n p).
Proof. done. Qed.

Lemma steps_steps s v i mt s' v' i' mt' p :
  steps s v i mt p →
  steps (default s s') (default v v') (default i i') (default mt mt') (pipeline_steps s' v' i' mt' p).
Proof. by intros (<- & <- & <- & <-). Qed.

(** A memory that the sidecar finds relevant. *)
Definition approved (context : string) (memory : MemoryEntry) : bool :=
  match (check_relevance (me_content memory) context).1 with inl b => b | inr _ => false end.

Lemma runs_judge (P : MemoryState → PipelineState → Prop) context relevant memory :
  runs P (judge check_relevance tick context relevant memory)
    (λ r st p, r = relevant ++ filter (λ x, approved context x = true) [memory] ∧ P st p).
Proof.
  unfold judge. destruct (check_relevance (me_content memory) context) as [[b|e] ms] eqn:E.
  - eapply runs_bind; [apply runs_event|]. intros []. destruct b.
    + rewrite filter_cons_True by (unfold approved; rewrite E; done).
      eapply runs_bind; [apply runs_event|]. intros []. apply runs_ret.
    + rewrite filter_cons_False by (unfold approved; rewrite E; done). cbn. rewrite app_nil_r.
      eapply runs_bind; [apply runs_event|]. intros []. apply runs_ret.
  - rewrite filter_cons_False by (unfold approved; rewrite E; done). cbn. rewrite app_nil_r.
    eapply runs_bind; [apply runs_event|]. intros []. apply runs_ret.
Qed.

Lemma runs_step {A B} P (op : Mem A) Q (f : A → Mem B) (R : (B + string) * Memory → Prop) mw :
  runs P op Q → shown P mw →
  (∀ x mw1, mw_pending mw1 = mw_pending mw → shown (Q x) mw1 → R (f x mw1)) →
  R (mem_bind op f mw).
Proof.
  intros Hop HP Hf. destruct (Hop mw HP) as (x & mw1 & E & Hp & HQ). unfold mem_bind. rewrite E. auto.
Qed.

(** An equation that comes with what is shown. *)
Lemma runs_known {A} (e : Prop) P (op : Mem A) Q : (e → runs P op Q) → runs (λ st p, e ∧ P st p) op Q.
Proof. intros Hop mw (a & p & Ha & Hp & He & HP). apply (Hop He). by exists a, p. Qed.

Lemma runs_judge_all (P : MemoryState → PipelineState → Prop) context memories : ∀ relevant,
  runs P (judge_all check_relevance tick context relevant memories)
    (λ r st p, r = relevant ++ filter (λ x, approved context x = true) memories ∧ P st p).
Proof.
  induction memories as [|memory memories IH]; intros relevant; cbn [judge_all].
  - rewrite filter_nil, app_nil_r. apply runs_ret.
  - eapply runs_bind; [apply runs_judge|]. intros r. apply runs_known. intros ->.
    eapply runs_weaken; [apply IH|done|]. intros r st p [-> HP]. split; [|done].
    rewrite <- app_assoc. f_equal. by rewrite <- filter_app.
Qed.

Lemma runs_judge_batches s v i mt context total : ∀ fuel relevant candidates,
  length candidates ≤ fuel →
  runs (λ _, steps s v i mt)
    (judge_batches check_relevance tick listening fuel context total relevant candidates)
    (λ r _ p, r = relevant ++ filter (λ x, approved context x = true) candidates ∧ steps s v i mt p).
Proof.
  induction fuel as [|fuel IH]; intros relevant candidates Hf; cbn [judge_batches].
  { destruct candidates; [|cbn in Hf; lia]. rewrite filter_nil, app_nil_r. apply runs_ret. }
  destruct candidates as [|c cs]; cbn [is_nil]; [rewrite filter_nil, app_nil_r; apply runs_ret|].
  eapply runs_bind; [apply runs_judge_all|]. intros r. apply runs_known. intros ->.
  eapply runs_bind; [apply (runs_pipeline _ _ (λ _, steps s v i mt)); intros st p; apply steps_progress|]. intros [].
  eapply runs_bind; [apply runs_emit|]. intros [].
  eapply runs_weaken; [apply IH; rewrite length_drop; unfold BATCH_SIZE; lia|done|].
  intros r st p [-> Hs]. split; [|done].
  rewrite <- app_assoc. f_equal. rewrite <- filter_app. by rewrite take_drop.
Qed.

(** *** How a check ends *)

Definition Found : Type := option string * list string * option string.

(** With nothing, everything is done or skipped, and the system idles; with
    memories, their number is shown, and nothing runs. *)
Definition ended (limit : nat) (pending : PendingState) (r : Found) (st : MemoryState) (p : PipelineState) : Prop :=
  has_running_step p = false
  ∧ match r with
    | (prompt, [], _) => prompt = None ∧ st = MemoryIdle ∧ is_complete p = true
    | (_, ids, _) =>
        st = MemoryFoundRelevant (length ids) ∧ length ids ≤ limit
        ∧ Forall (λ id, is_memory_injected_any id pending = false) ids
    end.

Lemma runs_nothing (limit : nat) pending f (P : PipelineState → Prop) :
  (∀ p, P p → is_complete (f p) = true ∧ has_running_step (f p) = false) →
  runs (λ _, P) (nothing_found tick listening f) (ended limit pending).
Proof.
  intros Hf. unfold nothing_found.
  eapply runs_bind; [apply (runs_pipeline _ _ (λ _ p, is_complete p = true ∧ has_running_step p = false)); auto|].
  intros []. eapply runs_bind; [apply runs_state|]. intros []. eapply runs_bind; [apply runs_emit|].
  intros []. eapply runs_weaken; [apply runs_ret|intros ?? HP; exact HP|].
  intros r st p [-> (-> & old & Hc & Hr)]. by split.
Qed.

Lemma runs_found limit pending f relevant (P : PipelineState → Prop) :
  (∀ p, P p → ∃ v mt, steps StepDone v StepPending mt (f p) ∧ step_runs v = false ∧ step_runs mt = false) →
  relevant ≠ [] → length relevant ≤ limit →
  Forall (λ x, is_memory_injected_any (me_id x) pending = false) relevant →
  runs (λ _, P) (found tick listening to_rfc3339 f relevant) (ended limit pending).
Proof.
  intros Hf Hne Hlen Hall. unfold found.
  set (Q := λ inject (_ : MemoryState) p, ∃ v mt,
    steps StepDone v inject mt p ∧ step_runs v = false ∧ step_runs mt = false).
  eapply runs_bind; [apply (runs_pipeline _ _ (Q StepRunning))|].
  { intros st p HP. destruct (Hf p HP) as (v & mt & Hs & Hv & Hmt). exists v, mt. split; [|done].
    by apply (steps_steps _ _ _ _ None None (Some StepRunning) None) in Hs. }
  intros []. eapply runs_bind; [apply runs_state|]. intros []. eapply runs_bind; [apply runs_emit|].
  intros []. eapply runs_bind.
  { apply (runs_pipeline _ _ (λ st p, st = MemoryFoundRelevant (length relevant) ∧ Q StepDone st p)).
    intros st p [-> (old & v & mt & Hs & Hv & Hmt)]. split; [done|]. exists v, mt. split; [|done].
    by apply (steps_steps _ _ _ _ None None (Some StepDone) None) in Hs. }
  intros []. eapply runs_bind; [apply runs_emit|]. intros []. eapply runs_weaken; [apply runs_ret|intros ?? HP; exact HP|].
  intros r st p [-> [-> (v & mt & (Hs & Hv' & Hi & Hm) & Hv & Hmt)]]. unfold ended, has_running_step.
  rewrite Hs, Hv', Hi, Hm, Hv, Hmt. split; [done|].
  destruct relevant as [|x relevant]; [done|]. cbn [fmap list_fmap]. cbn [length] in *.
  rewrite length_fmap. split_and!; [done|done|].
  change (Forall (λ id, is_memory_injected_any id pending = false) (me_id <$> x :: relevant)).
  by apply Forall_fmap.
Qed.
#[local] Abbreviation search_in :=
  (search_candidates mtime path_hash current_dir tmp_suffix skills m now tick listening).

(** The candidates number at most [EMBEDDING_MAX_HITS]. *)
Lemma candidates_bounded text threshold limit scope mw x mw' :
  find_retrieval_candidates_similar_scoped mtime path_hash current_dir tmp_suffix skills m now
    text threshold limit scope mw = (inl x, mw') → length x ≤ limit.
Proof.
  unfold find_retrieval_candidates_similar_scoped. destruct (embed text) as [v|]; [|intros [= <- _]; cbn; lia].
  unfold mem_bind. destruct (collect_retrieval_candidates_with_embeddings_scoped _ _ _ _ _ _ _ _ mw) as [[l|e] mw1];
    [|done]. intros [= <- _]. apply score_and_filter_spec.
Qed.

Lemma runs_search embedding_ms context :
  runs (λ _, steps StepRunning StepPending StepPending StepPending)
    (search_in embedding_ms context)
    (λ r st p, match r with
               | None => st = MemoryIdle ∧ steps StepDone StepSkipped StepSkipped StepSkipped p
               | Some candidates => steps StepDone StepPending StepPending StepPending p
                                    ∧ length candidates ≤ EMBEDDING_MAX_HITS
               end).
Proof.
  unfold search_candidates. eapply (runs_bind _ _
    (λ hits _ p, (∃ l, hits = inl l ∧ length l ≤ EMBEDDING_MAX_HITS)
                 ∧ steps StepRunning StepPending StepPending StepPending p)).
  - intros mw (a & p & Ha & Hp & HP).
    assert (Hn := candidates_never_fail context EMBEDDING_SIMILARITY_THRESHOLD EMBEDDING_MAX_HITS ScopeAll mw).
    destruct (disk_candidates context EMBEDDING_SIMILARITY_THRESHOLD EMBEDDING_MAX_HITS ScopeAll mw)
      as (_ & Hact & Hpen).
    assert (Hb := candidates_bounded context EMBEDDING_SIMILARITY_THRESHOLD EMBEDDING_MAX_HITS ScopeAll mw).
    destruct (find_retrieval_candidates_similar_scoped _ _ _ _ _ _ _ _ _ _ _ mw) as [r mw1].
    destruct Hn as [l E]. cbn in *. subst r. eexists _, mw1. split_and!; [done..|].
    exists a, p. rewrite Hact. split_and!; [done..| |done]. exists l. split; [done|]. by eapply Hb.
  - intros hits. apply runs_known. intros (l & -> & Hl). destruct l as [|hit hits'].
    + eapply runs_bind; [apply runs_event|]. intros []. eapply runs_bind.
      { apply (runs_pipeline _ _ (λ _, steps StepDone StepSkipped StepSkipped StepSkipped)).
        intros st p Hs. by apply (steps_steps _ _ _ _ (Some StepDone) None None None) in Hs. }
      intros []. eapply runs_bind; [apply runs_state|]. intros []. eapply runs_bind; [apply runs_emit|].
      intros []. eapply runs_weaken; [apply runs_ret|intros ?? HP; exact HP|].
      by intros r st p [-> (-> & old & Hs)].
    + eapply runs_bind.
      { apply (runs_pipeline _ _ (λ _, steps StepDone StepPending StepPending StepPending)).
        intros st p Hs. by apply (steps_steps _ _ _ _ (Some StepDone) None None None) in Hs. }
      intros []. eapply runs_bind; [apply runs_event|]. intros [].
      eapply runs_weaken; [apply runs_ret|intros ?? HP; exact HP|].
      intros r st p [-> Hs]. split; [done|]. by rewrite length_fmap.
Qed.

Context `{Json}.

#[local] Abbreviation parallel := (get_relevant_parallel mtime path_hash current_dir tmp_suffix skills m now
  memory_sidecar_enabled check_relevance tick listening to_rfc3339).

#[local] Abbreviation verify_in := (verify_candidates mtime path_hash current_dir tmp_suffix m now
  memory_sidecar_enabled check_relevance tick listening to_rfc3339).

Lemma runs_touch (P : MemoryState → PipelineState → Prop) ids :
  runs P (mem_ok (touch_entries mtime path_hash current_dir tmp_suffix m now ids)) (λ _, P).
Proof. apply runs_disk; [apply disk_ok, disk_touch|apply never_ok]. Qed.

Lemma ended_steps s v i mt p :
  steps s v i mt p → step_ended s = true → step_ended v = true → step_ended i = true → step_ended mt = true →
  is_complete p = true ∧ has_running_step p = false.
Proof.
  unfold is_complete, has_running_step. intros (-> & -> & -> & ->) Hs Hv Hi Hm. rewrite Hs, Hv, Hi, Hm.
  split; [done|]. by destruct s, v, i, mt.
Qed.

Lemma runs_verify pending verify_ms context candidates :
  length candidates ≤ EMBEDDING_MAX_HITS →
  Forall (λ x, is_memory_injected_any (me_id x) pending = false) candidates →
  runs (λ _, steps StepDone StepPending StepPending StepPending)
    (verify_in verify_ms context candidates) (ended EMBEDDING_MAX_HITS pending).
Proof.
  intros Hlen Hall. unfold verify_candidates. destruct (is_nil candidates) eqn:En.
  { apply runs_nothing. intros p Hs.
    apply (ended_steps StepDone StepSkipped StepSkipped StepSkipped); [|done..].
    by apply (steps_steps _ _ _ _ None (Some StepSkipped) (Some StepSkipped) (Some StepSkipped)) in Hs. }
  destruct memory_sidecar_enabled; cbn [negb].
  - eapply runs_bind; [apply runs_state|]. intros []. eapply runs_bind; [apply runs_event|]. intros [].
    eapply runs_bind.
    { apply (runs_pipeline _ _ (λ _, steps StepDone StepRunning StepPending StepPending)).
      intros st p (-> & old & Hs). apply steps_progress.
      by apply (steps_steps _ _ _ _ None (Some StepRunning) None None) in Hs. }
    intros []. eapply runs_bind; [apply runs_emit|]. intros [].
    eapply runs_bind; [apply runs_judge_batches; lia|]. intros relevant. apply runs_known. intros ->.
    cbn [app]. set (relevant := filter _ candidates).
    eapply runs_bind; [apply runs_touch|]. intros ?. destruct (is_nil relevant) eqn:Er.
    + apply runs_nothing. intros p Hs.
      apply (ended_steps StepDone StepDone StepSkipped StepSkipped); [|done..].
      apply (steps_steps _ _ _ _ None (Some StepDone) None None) in Hs.
      by apply (steps_steps _ _ _ _ None None (Some StepSkipped) (Some StepSkipped)) in Hs.
    + apply runs_found; [|by intros E; rewrite E in Er| |].
      * intros p Hs. exists StepDone, StepPending. split; [|done]. apply steps_results.
        by apply (steps_steps _ _ _ _ None (Some StepDone) None None) in Hs.
      * etrans; [apply length_filter|done].
      * apply Forall_forall. intros y [_ Hy]%list_elem_of_filter. by eapply Forall_forall in Hall.
  - eapply runs_bind; [apply runs_touch|]. intros ?. destruct (is_nil (take _ _)) eqn:Er.
    + apply runs_nothing. intros p Hs.
      apply (ended_steps StepDone StepSkipped StepSkipped StepSkipped); [|done..].
      by apply (steps_steps _ _ _ _ None (Some StepSkipped) (Some StepSkipped) (Some StepSkipped)) in Hs.
    + apply runs_found; [|by intros E; rewrite E in Er| |by apply Forall_take].
      * intros p Hs. exists StepSkipped, StepPending. split; [|done]. apply steps_results.
        by apply (steps_steps _ _ _ _ None (Some StepSkipped) None None) in Hs.
      * rewrite length_take. unfold EMBEDDING_MAX_HITS in *. lia.
Qed.

(** From any state, a check of a conversation that says something ends. *)
Lemma parallel_ends embedding_ms verify_ms messages mw :
  format_context_for_relevance messages ≠ "" →
  ∃ r mw', parallel embedding_ms verify_ms messages mw = (inl r, mw')
    ∧ mw_pending mw' = mw_pending mw ∧ shown (ended EMBEDDING_MAX_HITS (mw_pending mw) r) mw'.
Proof.
  intros Hc. unfold get_relevant_parallel. rewrite (proj2 (String.eqb_neq _ _) Hc).
  set (R := λ res : (Found + string) * Memory, ∃ r mw', res = (inl r, mw')
    ∧ mw_pending mw' = mw_pending mw ∧ shown (ended EMBEDDING_MAX_HITS (mw_pending mw) r) mw').
  match goal with |- ∃ r mw', ?res = (inl r, mw') ∧ _ => change (R res) end.
  set (mw0 := with_activity (pipeline_start tick (mw_activity mw)) mw).
  assert (H0' : shown (λ _, steps StepPending StepPending StepPending StepPending) mw0).
  { unfold mw0, shown. cbn. destruct (mw_activity mw) as [a|]; by eexists _, _. }
  assert (Hp0 : mw_pending mw0 = mw_pending mw) by done.
  unfold mem_bind at 1. change (show (pipeline_start tick) mw) with (inl () : unit + string, mw0).
  cbv beta iota. clearbody mw0.
  eapply runs_step; [apply runs_state|done|]. intros [] mw1 Hp1 H1'.
  eapply runs_step; [apply runs_event|done|]. intros [] mw2 Hp2 H2'.
  eapply runs_step; [|done|].
  { apply (runs_pipeline _ _ (λ _, steps StepRunning StepPending StepPending StepPending)).
    intros st p (_ & old & Hs). by apply (steps_steps _ _ _ _ (Some StepRunning) None None None) in Hs. }
  intros [] mw3 Hp3 H3'. eapply runs_step; [apply runs_emit|done|]. intros [] mw4 Hp4 H4'.
  eapply runs_step; [apply runs_search|done|]. intros [candidates|] mw5 Hp5 H5'.
  - assert (Hlen : length candidates ≤ EMBEDDING_MAX_HITS).
    { by destruct H5' as (? & ? & _ & _ & _ & Hl). }
    unfold mem_bind at 1, mem_get at 1. cbv beta iota.
    edestruct (runs_verify (mw_pending mw5) verify_ms (format_context_for_relevance messages))
      as (r & mw6 & E & Hp6 & Hend); [| |by destruct H5' as (a & p & ? & ? & ? & _); exists a, p|].
    3:{ exists r, mw6. rewrite E. split_and!; [done|congruence|].
        replace (mw_pending mw) with (mw_pending mw5) by congruence. exact Hend. }
    + etrans; [apply length_filter|done].
    + apply Forall_forall. intros x Hx. by apply list_elem_of_filter in Hx as [? _].
  - destruct H5' as (a & p & Ha & Hp & Hst & Hs). exists (None, [], None), mw5.
    split_and!; [done|congruence|]. exists a, p. split_and!; [done..|].
    destruct (ended_steps _ _ _ _ _ Hs) as [? ?]; [done..|]. by split_and!.
Qed.
#[local] Abbreviation spawn := (spawn_relevance_check mtime path_hash current_dir tmp_suffix skills m now
  memory_sidecar_enabled check_relevance tick listening to_rfc3339).

(** What setting a payload leaves. *)
Lemma set_pending_payload now' session prompt count ids display st :
  let st' := set_pending_memory_with_ids_and_display now' session prompt count ids display st in
  memory_check_in_progress st' = memory_check_in_progress st
  ∧ has_pending_memory session st' = true
  ∧ ∀ payload, pending_memory st' !! session = Some payload →
    pending_memory st !! session = Some payload ∨ pm_memory_ids payload = ids.
Proof.
  cbn. unfold set_pending_memory_with_ids_and_display, has_pending_memory.
  destruct (pending_memory st !! session) as [old|] eqn:E.
  - destruct (_ && _); cbn.
    + rewrite E. split_and!; [done..|by left].
    + rewrite lookup_insert_eq. split_and!; [done..|]. intros ? [= <-]. by right.
  - cbn. rewrite lookup_insert_eq. split_and!; [done..|]. intros ? [= <-]. by right.
Qed.

(** C40. A check that is started for a session, on a conversation that says
    something, always ends, whatever fails on the way: the session can be
    checked again, no step of the pipeline runs on, and the system either
    idles, without a new payload, or shows at most ten memories found, with a
    payload waiting for the session. The waiting payload is the one that waited
    before the check, which stays as it is even if its memories were injected
    since, or a new one, with no memory that counted as injected, in any session,
    when the check started. The spawned task is taken as one computation. *)
Theorem check_settles embedding_ms verify_ms sid messages mw :
  format_context_for_relevance messages ≠ "" → sid ∉ memory_check_in_progress (mw_pending mw) →
  let mw' := spawn embedding_ms verify_ms sid messages mw in
  memory_check_in_progress (mw_pending mw') = memory_check_in_progress (mw_pending mw)
  ∧ shown (λ st p, has_running_step p = false
      ∧ (st = MemoryIdle ∧ pending_memory (mw_pending mw') = pending_memory (mw_pending mw)
         ∨ ∃ n, st = MemoryFoundRelevant n ∧ n ≤ EMBEDDING_MAX_HITS
           ∧ has_pending_memory sid (mw_pending mw') = true)) mw'
  ∧ ∀ payload, pending_memory (mw_pending mw') !! sid = Some payload →
    pending_memory (mw_pending mw) !! sid = Some payload
    ∨ Forall (λ id, is_memory_injected_any id (mw_pending mw) = false) (pm_memory_ids payload).
Proof.
  intros Hc Hsid mw'. subst mw'. unfold spawn_relevance_check, begin_memory_check.
  rewrite bool_decide_true by done. cbv beta iota.
  set (st0 := set_checks _ (mw_pending mw)). set (mw0 := with_pending st0 mw).
  assert (Hfin : ∀ st, memory_check_in_progress st = memory_check_in_progress st0 →
    memory_check_in_progress (finish_memory_check sid st) = memory_check_in_progress (mw_pending mw)).
  { intros st E. cbn. rewrite E. unfold st0. cbn. set_solver. }
  destruct (parallel_ends embedding_ms verify_ms messages mw0 Hc) as ([[prompt ids] display] & mw1 & E & Hp & Hs).
  unfold relevance_task. rewrite E. clear E. change (mw_pending mw0) with st0 in Hp, Hs.
  destruct Hs as (a & p & Ha & Hpl & Hrun & Hs).
  assert (Hemit : ∀ w, mw_activity (emit_memory_activity tick listening w).2 = mw_activity w
                  ∧ mw_pending (emit_memory_activity tick listening w).2 = mw_pending w).
  { intros w. unfold emit_memory_activity, mem_do. cbn [snd].
    by destruct (activity_snapshot tick (mw_activity w)), listening. }
  destruct prompt as [prompt|].
  - destruct ids as [|id ids]; [by destruct Hs as [? _]|]. destruct Hs as (Hst & Hlen & Hall).
    set (st1 := set_pending_memory_with_ids_and_display _ _ _ _ _ _ _).
    destruct (set_pending_payload tick sid prompt (item_lines prompt `max` 1) (id :: ids) display (mw_pending mw1))
      as (Hck & Hhas & Hpay). fold st1 in Hck, Hhas, Hpay. rewrite Hp in Hpay, Hck.
    set (mw2 := if memory_sidecar_enabled then _ else _).
    assert (H2' : mw_pending mw2 = st1 ∧ ∃ a2, mw_activity mw2 = Some a2 ∧ ma_pipeline a2 = Some p ∧ ma_state a2 = ma_state a).
    { unfold mw2. destruct memory_sidecar_enabled; cbn; (split; [done|]); rewrite Ha; by eexists. }
    destruct H2' as (Hp2 & a2 & Ha2 & Hpl2 & Hst2). destruct (Hemit mw2) as [Hea Hep].
    cbn [mw_pending with_pending]. rewrite Hep, Hp2. split_and!; [by apply Hfin| |].
    2:{ intros payload Hl. destruct (Hpay payload Hl) as [?|E]; [by left|]. right. rewrite E. exact Hall. }
    exists a2, p. cbn [mw_activity with_pending]. rewrite Hea. split_and!; [done..|]. right.
    exists (length (id :: ids)). rewrite Hst2. done.
  - set (mw2 := with_activity _ mw1). destruct (Hemit mw2) as [Hea Hep].
    cbn [mw_pending with_pending]. rewrite Hep. change (mw_pending mw2) with (mw_pending mw1). rewrite Hp.
    split_and!; [by apply Hfin| |by left].
    eexists _, p. cbn [mw_activity with_pending]. rewrite Hea.
    unfold mw2. cbn. rewrite Ha. split_and!; [done..|]. by left.
Qed.
End checking.

(** * Small stores

    The files are not read here: the graphs are in the cache. *)

Module Small.

#[local] Instance small_codec : MemoryCodec := {
  graph_to_json _ := "{}"; graph_of_json _ := None; store_to_json _ := "{}"; store_of_json _ := None;
  notes_of_json _ := None;
}.

(** Vectors of two numbers; what is not about rust is about tea, and there is
    no vector of the word [silence]. *)
#[local] Instance small_embedder : Embedder := λ text,
  if str_contains "silence" text then inr "no vector"
  else if str_contains "rust" text then inl [f32_1_0; f32_0_0] else inl [f32_0_0; f32_1_0].

#[local] Instance small_floats : FloatFunctions :=
  {| f32_exp x := x; f32_ln x := x; f64_ln x := x |}.

Definition mtime (w : World) (path : string) : option Z := Some 0%Z.
Definition path_hash (dir : string) : string := "0123456789abcdef".
Definition home : World :=
  {| w_files := ∅; w_dirs := ∅; w_faults := []; w_gcode_dir := inl "/home/me/.gcode" |}.

Definition remembered (id content : string) : MemoryEntry :=
  (ensure_embedding (entry_new id 0 Fact content)).2.

(** The user's store has the memories, that of the project none. *)
Definition store_of (entries : list MemoryEntry) : MemoryGraph :=
  foldl (λ g entry, (add_memory 0 entry g).1) graph_new entries.

Definition memory_of (entries : list MemoryEntry) (pending : PendingState) : Memory := {|
  mw_world := home;
  mw_cache := {[ "/home/me/.gcode/memory/projects/0123456789abcdef.json" := (graph_new, Some 0%Z);
                 "/home/me/.gcode/memory/global.json" := (store_of entries, Some 0%Z) ]};
  mw_activity := None; mw_pending := pending; mw_sent := [] |}.

Definition project : MemoryManager := with_project_dir "/work" manager_new.

Definition remember_small := remember mtime path_hash None "1" project 5.

Definition small : Memory := memory_of [remembered "m1" "rust is used here"] pending_empty.

(** The same thing said in other words is not stored twice. *)
Lemma remember_witness :
  (remember_small GlobalStore (entry_new "m2" 5 Fact "we write rust") small).1 = inl "m1"
  ∧ ∃ own mw1, load_graph mtime path_hash None "1" project 5 GlobalStore small = (inl own, mw1).
Proof.
  split; [vm_compute; reflexivity|].
  destruct (remember_correct mtime path_hash None "1" project 5 GlobalStore
    (entry_new "m2" 5 Fact "we write rust") small "m1"
    (remember_small GlobalStore (entry_new "m2" 5 Fact "we write rust") small).2)
    as (own & mw1 & E & _).
  - reflexivity.
  - exact I.
  - exists "/work". reflexivity.
  - reflexivity.
  - vm_compute. reflexivity.
  - exists own, mw1. exact E.
Defined.

(** A check of the session [me] on a message. *)
Definition ask (text : string) : list Message := [message_user 0 text].

Definition check (sidecar : bool) (relevance : string → string → (bool + string) * u64) (text : string)
    : Memory → Memory :=
  spawn_relevance_check mtime path_hash None "1" [] project 5 sidecar relevance 7 true (λ _, "") 1 2 "me"
    (ask text).

Definition no_sidecar (content context : string) : (bool + string) * u64 := (inr "off", 0%Z).

Lemma check_settles_witness :
  memory_check_in_progress (mw_pending (check false no_sidecar "how is rust built" small)) = ∅
  ∧ pm_memory_ids <$> pending_memory (mw_pending (check false no_sidecar "how is rust built" small)) !! "me"
    = Some ["m1"].
Proof.
  split; [|vm_compute; reflexivity].
  destruct (check_settles mtime path_hash None "1" [] project 5 false no_sidecar 7 true (λ _, "") 1 2 "me"
    (ask "how is rust built") small) as [E _].
  - vm_compute. discriminate.
  - vm_compute. apply (bool_decide_unpack _). vm_compute. exact I.
  - exact E.
Defined.

(** A memory that another session was given is never offered, although the
    code says that it leaves out those of this session. *)
Example injected_elsewhere_left_out :
  let given := mark_memories_injected "other" ["m1"] pending_empty in
  let mw := check false no_sidecar "how is rust built" (memory_of [remembered "m1" "rust is used here"] given) in
  pending_memory (mw_pending mw) !! "me" = None
  ∧ is_memory_injected "me" "m1" (mw_pending mw) = false
  ∧ ma_state <$> mw_activity mw = Some MemoryIdle.
Proof. vm_compute. done. Qed.

(** Two memories were judged and none was found relevant; the progress of the
    verification still says that none was checked. *)
Example progress_counts_relevant :
  let mw := check true (λ _ _, (inl false, 1%Z)) "how is rust built"
    (memory_of [remembered "m1" "rust is used here"; remembered "m2" "rust tests are slow"] pending_empty) in
  (mw_activity mw ≫= ma_pipeline) ≫= pl_verify_progress = Some (0, 2).
Proof. vm_compute. reflexivity. Qed.

(** Without a vector for the text, the search finds nothing although the words
    are there. *)
Example no_vector_no_search :
  let mw := memory_of [remembered "m1" "rust and silence"] pending_empty in
  (find_similar_scoped mtime path_hash None "1" project 5 "silence" f32_0_0 10 ScopeAll mw).1 = inl []
  ∧ match (search_scoped mtime path_hash None "1" project 5 "silence" ScopeAll mw).1 with
    | inl entries => me_id <$> entries = ["m1"]
    | inr _ => False
    end.
Proof. vm_compute. done. Qed.
End Small.
