(* ===== verification/SessionStore.v ===== *)
(** * Saving and loading sessions ([src/session/persistence.rs],
      [src/session/storage_paths.rs], [src/session/active_pids.rs],
      [src/session.rs])

    A session is a snapshot file and a journal of later changes beside it.
    Saving appends to the journal when the change since the last save is an
    extension, and writes a new snapshot otherwise. The files of the processes
    that own active sessions are here too. *)

From S2P Require Import Prelude Utf8 Text UnifiedPatch Messages SessionTypes SessionProfile SessionState SessionOps Storage.
Open Scope nat_scope.
Open Scope io_scope.

Definition MAX_SESSION_JOURNAL_BYTES : Z := 512 * 1024.

(** ** Paths *)

Definition session_path_in_dir (base session_id : string) : string :=
  path_join (path_join base "sessions") (session_id +:+ ".json").

Definition session_path (session_id : string) : IO string :=
  base <-! gcode_dir; io_ret (session_path_in_dir base session_id).

Definition session_journal_path_from_snapshot (path : string) : string :=
  with_file_name path (file_stem (path_split path).2 +:+ ".journal.jsonl").

Definition session_exists (session_id : string) : World → bool := λ w,
  match session_path session_id w with
  | (inl path, w) => path_exists path w
  | (inr _, _) => false
  end.

Definition file_len_or_zero (path : string) (w : World) : Z :=
  match w_files w !! path with Some text => Z.of_nat (String.length text) | None => 0%Z end.

(** ** What the startup loaders read *)

(** The fields of [SessionStartupStub]; the metadata among them are gathered. *)
Record SessionStartupStub := {
  ss_id : string;
  ss_created_at : datetime;
  ss_meta : SessionJournalMeta;
}.

(** ** JSON *)

(** The texts and parsers of [serde_json]. The fields a session skips have
    their default values after parsing. *)
Class SessionCodec `{SessionJson} := {
  session_json : Session → string;
  parse_session : string → option Session;
  entry_json : SessionJournalEntry → string;
  parse_entry : string → option SessionJournalEntry;
  parse_startup_stub : string → option SessionStartupStub;
  parse_remote_startup : string → option (SessionStartupStub * list StoredMessage);
}.

Section defaults.
Context `{Json}.

(** A session as its file has it: the skipped fields at their defaults, where
    [PersistVectorMode::default()] is [Clean]. *)
Definition persisted (s : Session) : Session := {|
  se_id := se_id s;
  se_parent_id := se_parent_id s;
  se_title := se_title s;
  se_created_at := se_created_at s;
  se_updated_at := se_updated_at s;
  se_messages := se_messages s;
  se_compaction := se_compaction s;
  se_provider_session_id := se_provider_session_id s;
  se_provider_key := se_provider_key s;
  se_model := se_model s;
  se_reasoning_effort := se_reasoning_effort s;
  se_subagent_model := se_subagent_model s;
  se_improve_mode := se_improve_mode s;
  se_autoreview_enabled := se_autoreview_enabled s;
  se_autojudge_enabled := se_autojudge_enabled s;
  se_is_canary := se_is_canary s;
  se_testing_build := se_testing_build s;
  se_working_dir := se_working_dir s;
  se_short_name := se_short_name s;
  se_status := se_status s;
  se_last_pid := se_last_pid s;
  se_last_active_at := se_last_active_at s;
  se_is_debug := se_is_debug s;
  se_saved := se_saved s;
  se_save_label := se_save_label s;
  se_env_snapshots := se_env_snapshots s;
  se_memory_injections := se_memory_injections s;
  se_replay_events := se_replay_events s;
  se_persist_state := persist_state_default;
  se_provider_messages_cache := [];
  se_provider_message_prefix_hashes_cache := [];
  se_provider_messages_cache_len := 0;
  se_provider_messages_cache_mode := ModeClean;
  se_memory_profile_cache := profile_default;
  se_memory_profile_dirty := false;
|}.
End defaults.

Definition stub_of `{Json} (s : Session) : SessionStartupStub :=
  {| ss_id := se_id s; ss_created_at := se_created_at s; ss_meta := journal_meta s |}.

(** What is relied on: texts are UTF-8 on one line without white space around
    it, and parsing inverts printing. *)
Class SessionCodecLaws `{SessionCodec} := {
  session_utf8 s : utf8_valid (session_json s) = true;
  parse_session_json s : parse_session (session_json s) = Some (persisted s);
  entry_utf8 e : utf8_valid (entry_json e) = true;
  entry_plain e : plain_line (entry_json e);
  entry_trim e : trim (entry_json e) = entry_json e;
  entry_not_empty e : entry_json e ≠ "";
  parse_entry_json e : parse_entry (entry_json e) = Some e;
  parse_stub_json s : parse_startup_stub (session_json s) = Some (stub_of s);
  parse_remote_json s :
    parse_remote_startup (session_json s) = Some (stub_of s, se_messages s);
}.

Section store.
Context `{SessionCodec}.

(** ** Saving *)

Definition checkpoint_snapshot (tmp_suffix snapshot_path journal_path : string) (s : Session)
    : World → (Session + string) * World := λ w,
  (write_json_fast tmp_suffix snapshot_path (session_json s) ;!
   exists_ <-! io_exists journal_path;
   (if exists_ then io_ignore (remove_file journal_path) else io_ret ()) ;!
   io_ret (reset_persist_state true s)) w.

Definition metadata_needs_snapshot (s : Session) : bool :=
  match ps_last_meta (se_persist_state s) with
  | Some prev => metadata_requires_snapshot prev (journal_meta s)
  | None => false
  end.

Definition vectors_need_snapshot (s : Session) : bool :=
  let p := se_persist_state s in
  negb (ps_snapshot_exists p)
  || bool_decide (ps_messages_mode p = ModeFull)
  || bool_decide (ps_env_snapshots_mode p = ModeFull)
  || bool_decide (ps_memory_injections_mode p = ModeFull)
  || bool_decide (ps_replay_events_mode p = ModeFull)
  || (length (se_messages s) <? ps_messages_len p)
  || (length (se_env_snapshots s) <? ps_env_snapshots_len p)
  || (length (se_memory_injections s) <? ps_memory_injections_len p)
  || (length (se_replay_events s) <? ps_replay_events_len p).

Definition journal_entry (s : Session) : SessionJournalEntry :=
  let p := se_persist_state s in
  {| je_meta := journal_meta s;
     je_append_messages := drop (ps_messages_len p) (se_messages s);
     je_append_env_snapshots := drop (ps_env_snapshots_len p) (se_env_snapshots s);
     je_append_memory_injections := drop (ps_memory_injections_len p) (se_memory_injections s);
     je_append_replay_events := drop (ps_replay_events_len p) (se_replay_events s) |}.

(** The session after a computation that returns it when it succeeds. *)
Definition keep_session (s : Session) (result : (Session + string) * World)
    : (unit + string) * Session * World :=
  match result with
  | (inl s, w) => (inl (), s, w)
  | (inr e, w) => (inr e, s, w)
  end.

(** [save]: the result, the session and the world afterwards. *)
Definition save (now : datetime) (tmp_suffix : string) (s : Session) (w : World)
    : (unit + string) * Session * World :=
  let s := se_set_updated_at now s in
  match session_path (se_id s) w with
  | (inr e, w) => (inr e, s, w)
  | (inl path, w) =>
      let journal_path := session_journal_path_from_snapshot path in
      if metadata_needs_snapshot s || vectors_need_snapshot s then
        keep_session s (checkpoint_snapshot tmp_suffix path journal_path s w)
      else
        match append_json_line_fast journal_path (entry_json (journal_entry s)) w with
        | (inl (), w) =>
            let s := reset_persist_state true s in
            if (MAX_SESSION_JOURNAL_BYTES <? file_len_or_zero journal_path w)%Z then
              keep_session s (checkpoint_snapshot tmp_suffix path journal_path s w)
            else (inl (), s, w)
        | (inr _, w) => keep_session s (checkpoint_snapshot tmp_suffix path journal_path s w)
        end
  end.

(** ** Loading *)

Definition apply_journal_entry (s : Session) (entry : SessionJournalEntry) : Session :=
  let s := apply_journal_meta (je_meta entry) s in
  let s := se_set_messages (se_messages s ++ je_append_messages entry) s in
  let s := se_set_env_snapshots (se_env_snapshots s ++ je_append_env_snapshots entry) s in
  let s :=
    se_set_memory_injections (se_memory_injections s ++ je_append_memory_injections entry) s in
  let s := se_set_replay_events (se_replay_events s ++ je_append_replay_events entry) s in
  mark_memory_profile_dirty s.

(** The loop over [reader.lines()]: an error of a line ends the load, an empty
    line is skipped and an entry that does not parse ends the loop. *)
Fixpoint apply_journal_lines (apply : Session → SessionJournalEntry → Session)
    (journal : list string) (s : Session) : Session + string :=
  match journal with
  | [] => inl s
  | line :: rest =>
      if negb (utf8_valid line) then inr "stream did not contain valid UTF-8"
      else
        let trimmed := trim line in
        if trimmed =s "" then apply_journal_lines apply rest s
        else match parse_entry trimmed with
             | Some entry => apply_journal_lines apply rest (apply s entry)
             | None => inl s
             end
  end.

(** Opening and reading the journal, when there is one. *)
Definition replay_journal (apply : Session → SessionJournalEntry → Session)
    (journal_path : string) (s : Session) : IO Session :=
  exists_ <-! io_exists journal_path;
  if exists_ then
    text <-! io_call (λ w, (inl (default "" (w_files w !! journal_path)), w));
    match apply_journal_lines apply (lines text) s with
    | inl s => io_ret s
    | inr e => io_fail e
    end
  else io_ret s.

(** What both loaders end with. *)
Definition finalize_load (path : string) (s : Session) : IO Session :=
  exists_ <-! io_exists path;
  io_ret (mark_memory_profile_dirty (reset_provider_messages_cache (reset_persist_state exists_ s))).

Definition load_from_path (path : string) : IO Session :=
  s <-! read_json parse_session path;
  s <-! replay_journal apply_journal_entry (session_journal_path_from_snapshot path) s;
  finalize_load path s.

Definition load (session_id : string) : IO Session :=
  path <-! session_path session_id; load_from_path path.

(** ** Startup *)

(** The assignments both constructors start with. *)
Definition assign_startup_fields (stub : SessionStartupStub) (s : Session) : Session :=
  let meta := ss_meta stub in {|
    se_id := se_id s;
    se_parent_id := jm_parent_id meta;
    se_title := jm_title meta;
    se_created_at := ss_created_at stub;
    se_updated_at := jm_updated_at meta;
    se_messages := se_messages s;
    se_compaction := jm_compaction meta;
    se_provider_session_id := jm_provider_session_id meta;
    se_provider_key := jm_provider_key meta;
    se_model := jm_model meta;
    se_reasoning_effort := jm_reasoning_effort meta;
    se_subagent_model := jm_subagent_model meta;
    se_improve_mode := jm_improve_mode meta;
    se_autoreview_enabled := jm_autoreview_enabled meta;
    se_autojudge_enabled := jm_autojudge_enabled meta;
    se_is_canary := jm_is_canary meta;
    se_testing_build := jm_testing_build meta;
    se_working_dir := jm_working_dir meta;
    se_short_name := jm_short_name meta;
    se_status := jm_status meta;
    se_last_pid := jm_last_pid meta;
    se_last_active_at := jm_last_active_at meta;
    se_is_debug := jm_is_debug meta;
    se_saved := jm_saved meta;
    se_save_label := jm_save_label meta;
    se_env_snapshots := se_env_snapshots s;
    se_memory_injections := se_memory_injections s;
    se_replay_events := se_replay_events s;
    se_persist_state := se_persist_state s;
    se_provider_messages_cache := se_provider_messages_cache s;
    se_provider_message_prefix_hashes_cache := se_provider_message_prefix_hashes_cache s;
    se_provider_messages_cache_len := se_provider_messages_cache_len s;
    se_provider_messages_cache_mode := se_provider_messages_cache_mode s;
    se_memory_profile_cache := se_memory_profile_cache s;
    se_memory_profile_dirty := se_memory_profile_dirty s;
  |}.

Definition clear_events (s : Session) : Session :=
  se_set_replay_events [] (se_set_memory_injections [] (se_set_env_snapshots [] s)).

Definition session_from_startup_stub (now : datetime) (env : ProcessEnv)
    (stub : SessionStartupStub) : Session :=
  let meta := ss_meta stub in
  let s := create_with_id now env (ss_id stub) (jm_parent_id meta) (jm_title meta) in
  let s := clear_events (se_set_messages [] (assign_startup_fields stub s)) in
  reset_persist_state true (rebuild_memory_profile_cache s).

Definition session_from_remote_startup_snapshot (now : datetime) (env : ProcessEnv)
    (snapshot : SessionStartupStub * list StoredMessage) : Session :=
  let '(stub, messages) := snapshot in
  let meta := ss_meta stub in
  let s := create_with_id now env (ss_id stub) (jm_parent_id meta) (jm_title meta) in
  let s := clear_events (se_set_messages messages (assign_startup_fields stub s)) in
  reset_provider_messages_cache (reset_persist_state true (mark_memory_profile_dirty s)).

Definition load_startup_stub (now : datetime) (env : ProcessEnv) (session_id : string)
    : IO Session :=
  path <-! session_path session_id;
  text <-! io_call (λ w, (match w_files w !! path with Some text => inl text
                                                     | None => inr not_found end, w));
  match parse_startup_stub text with
  | Some stub => io_ret (session_from_startup_stub now env stub)
  | None => io_fail "invalid session"
  end.

(** The remote loader takes less from an entry of the journal. *)
Definition apply_remote_entry (s : Session) (entry : SessionJournalEntry) : Session :=
  let s := apply_journal_meta (je_meta entry) s in
  let s := se_set_messages (se_messages s ++ je_append_messages entry) s in
  se_set_replay_events (se_replay_events s ++ je_append_replay_events entry) s.

Definition load_for_remote_startup (now : datetime) (env : ProcessEnv) (session_id : string)
    : IO Session :=
  path <-! session_path session_id;
  text <-! io_call (λ w, (match w_files w !! path with Some text => inl text
                                                     | None => inr not_found end, w));
  match parse_remote_startup text with
  | None => io_fail "invalid session"
  | Some snapshot =>
      let s := session_from_remote_startup_snapshot now env snapshot in
      s <-! replay_journal apply_remote_entry (session_journal_path_from_snapshot path) s;
      finalize_load path s
  end.

(** ** The processes of active sessions *)

Definition active_pids_dir (w : World) : option string :=
  match w_gcode_dir w with inl base => Some (path_join base "active_pids") | inr _ => None end.

(** [std::fs::write] *)
Definition fs_write (path text : string) : IO unit := file_create path ;! write_bytes path text.

Definition register_active_pid (session_id : string) (pid : u32) (w : World) : World :=
  match active_pids_dir w with
  | Some dir =>
      ((io_ignore (create_dir_all dir) ;!
        io_ignore (fs_write (path_join dir session_id) (pretty pid))) w).2
  | None => w
  end.

Definition unregister_active_pid (session_id : string) (w : World) : World :=
  match active_pids_dir w with
  | Some dir => (io_ignore (remove_file (path_join dir session_id)) w).2
  | None => w
  end.

(** [std::fs::read_dir]: the files directly in a directory, in some order. *)
Definition dir_entries `{HashOrder} (dir : string) (w : World) : list (string * string) :=
  omap (λ entry, match rsplit_at slash entry.1 with
                 | Some (d, name) => if d =s dir +:+ "/" then Some (name, entry.2) else None
                 | None => None
                 end) (hash_entries (w_files w)).

(** [s.parse::<u32>().ok()] *)
Definition parse_u32 (s : string) : option u32 :=
  let digits := default s (strip_prefix "+" s) in
  if digits =s "" then None
  else match digits_value 0 digits with
       | Some v => if (v <? 2 ^ 32)%N then Some (Z.of_N v) else None
       | None => None
       end.

(** The loop, where an entry that cannot be read as a number ends the search. *)
Fixpoint find_pid (pid : u32) (entries : list (string * string)) : option string :=
  match entries with
  | [] => None
  | (session_id, stored) :: rest =>
      if negb (utf8_valid stored) then None
      else match parse_u32 (trim stored) with
           | None => None
           | Some p => if (p =? pid)%Z then Some session_id else find_pid pid rest
           end
  end.

Definition find_active_session_id_by_pid `{HashOrder} (pid : u32) (w : World) : option string :=
  active_pids_dir w ≫= λ dir,
    if path_exists dir w then find_pid pid (dir_entries dir w) else None.

Definition active_session_ids `{HashOrder} (w : World) : list string :=
  match active_pids_dir w with
  | Some dir => if path_exists dir w then (dir_entries dir w).*1 else []
  | None => []
  end.

Definition mark_closed (s : Session) (w : World) : Session * World :=
  (se_set_status StatusClosed s, unregister_active_pid (se_id s) w).

Definition mark_crashed (message : option string) (s : Session) (w : World) : Session * World :=
  (se_set_status (StatusCrashed message) s, unregister_active_pid (se_id s) w).

Definition mark_active_with_pid (now : datetime) (pid : u32) (s : Session) (w : World)
    : Session * World :=
  let s := se_set_status StatusActive s in
  let s := se_set_last_pid (Some pid) s in
  let s := se_set_last_active_at (Some now) s in
  (s, register_active_pid (se_id s) pid w).

(** [mark_active] takes the id of this process. *)
Definition mark_active (now : datetime) (env : ProcessEnv) (s : Session) (w : World)
    : Session * World :=
  mark_active_with_pid now (pe_pid env) s w.

(** Times are nanoseconds; [num_seconds] truncates towards zero. *)
Definition num_seconds (d : Z) : Z := Z.quot d 1000000000.

Definition exited_message (pid : u32) : string :=
  "Process " +:+ pretty pid +:+ " exited unexpectedly (no shutdown signal captured)".

Definition detect_crash (now : datetime) (is_pid_running : u32 → bool) (s : Session) (w : World)
    : bool * Session * World :=
  if bool_decide (se_status s ≠ StatusActive) then (false, s, w)
  else
    match se_last_pid s with
    | Some pid =>
        if is_pid_running pid then (false, s, w)
        else let '(s, w) := mark_crashed (Some (exited_message pid)) s w in (true, s, w)
    | None =>
        if (120 <? num_seconds (now - se_updated_at s))%Z then
          let '(s, w) :=
            mark_crashed (Some "Stale active session (possible abrupt termination)") s w in
          (true, s, w)
        else (false, s, w)
    end.
End store.
