(* ===== verification/SessionText.v ===== *)
(** * A concrete text for sessions

    Every stored value as a tree of strings and numbers, and the tree as a text
    of digits between braces: an instance of the codec that [serde_json]
    provides, with its laws, to run the model on concrete inputs. *)

From S2P Require Import Prelude Utf8 Text Messages SwarmPlan SessionTypes SessionProfile SessionState SessionOps Storage SessionStore.
From stdpp Require Import countable.
Open Scope nat_scope.

#[local] Arguments String.append !_ _ / : simpl nomatch.

Abbreviation tree := (gen_tree (string + Z)) (only parsing).

Class Tree (A : Type) := {
  to_tree : A → tree;
  of_tree : tree → option A;
  tree_inv x : of_tree (to_tree x) = Some x;
}.

(** ** Base types *)

#[export, refine] Instance string_tree : Tree string := {
  to_tree s := GenLeaf (inl s);
  of_tree t := match t with GenLeaf (inl s) => Some s | _ => None end;
}.
Proof. done. Defined.

#[export, refine] Instance Z_tree : Tree Z := {
  to_tree z := GenLeaf (inr z);
  of_tree t := match t with GenLeaf (inr z) => Some z | _ => None end;
}.
Proof. done. Defined.

#[export, refine] Instance nat_tree : Tree nat := {
  to_tree n := GenLeaf (inr (Z.of_nat n));
  of_tree t := match t with GenLeaf (inr z) => Some (Z.to_nat z) | _ => None end;
}.
Proof. intros n. by rewrite Nat2Z.id. Defined.

#[export, refine] Instance bool_tree : Tree bool := {
  to_tree b := GenLeaf (inr (if b then 1 else 0)%Z);
  of_tree t := match t with GenLeaf (inr z) => Some (z =? 1)%Z | _ => None end;
}.
Proof. by intros []. Defined.

#[export, refine] Instance option_tree {A} `{Tree A} : Tree (option A) := {
  to_tree o := match o with Some x => GenNode 1 [to_tree x] | None => GenNode 0 [] end;
  of_tree t := match t with
               | GenNode 1 [t] => Some <$> of_tree t
               | GenNode 0 [] => Some None
               | _ => None
               end;
}.
Proof. intros [x|]; [|done]. by rewrite tree_inv. Defined.

#[export, refine] Instance list_tree {A} `{Tree A} : Tree (list A) := {
  to_tree l := GenNode 2 (to_tree <$> l);
  of_tree t := match t with GenNode 2 l => mapM of_tree l | _ => None end;
}.
Proof.
  induction x as [|x l IH]; [done|]. cbn in *. rewrite tree_inv. cbn. by rewrite IH.
Defined.

(** ** The stored types *)

#[export, refine] Instance Role_tree : Tree Role := {
  to_tree v := match v with
    | User => GenNode 0 []
    | Assistant => GenNode 1 []
    end;
  of_tree t := match t with
     | GenNode 0 [] => Some User
     | GenNode 1 [] => Some Assistant
    | _ => None
    end;
}.
Proof. intros []; by rewrite ?tree_inv. Defined.

#[export, refine] Instance CacheControl_tree : Tree CacheControl := {
   to_tree r := GenNode 0 [to_tree (cc_kind r); to_tree (cc_ttl r)];
   of_tree t := match t with GenNode 0 [x0; x1] =>
     x0 ← of_tree x0; x1 ← of_tree x1;
     Some (Build_CacheControl x0 x1)
    | _ => None end;
}.
Proof. intros r. rewrite !tree_inv. by destruct r. Defined.

#[export, refine] Instance ContentBlock_tree : Tree ContentBlock := {
  to_tree v := match v with
    | Text x0 x1 => GenNode 0 [to_tree x0; to_tree x1]
    | Reasoning x0 => GenNode 1 [to_tree x0]
    | ToolUse x0 x1 x2 => GenNode 2 [to_tree x0; to_tree x1; to_tree x2]
    | ToolResult x0 x1 x2 => GenNode 3 [to_tree x0; to_tree x1; to_tree x2]
    | Image x0 x1 => GenNode 4 [to_tree x0; to_tree x1]
    | OpenAICompaction x0 => GenNode 5 [to_tree x0]
    end;
  of_tree t := match t with
     | GenNode 0 [x0; x1] => x0 ← of_tree x0; x1 ← of_tree x1; Some (Text x0 x1)
     | GenNode 1 [x0] => x0 ← of_tree x0; Some (Reasoning x0)
     | GenNode 2 [x0; x1; x2] => x0 ← of_tree x0; x1 ← of_tree x1; x2 ← of_tree x2; Some (ToolUse
      x0 x1 x2)
     | GenNode 3 [x0; x1; x2] => x0 ← of_tree x0; x1 ← of_tree x1; x2 ← of_tree x2; Some
      (ToolResult x0 x1 x2)
     | GenNode 4 [x0; x1] => x0 ← of_tree x0; x1 ← of_tree x1; Some (Image x0 x1)
     | GenNode 5 [x0] => x0 ← of_tree x0; Some (OpenAICompaction x0)
    | _ => None
    end;
}.
Proof. intros []; by rewrite ?tree_inv. Defined.

#[export, refine] Instance StoredDisplayRole_tree : Tree StoredDisplayRole := {
  to_tree v := match v with
    | DisplaySystem => GenNode 0 []
    | DisplayBackgroundTask => GenNode 1 []
    end;
  of_tree t := match t with
     | GenNode 0 [] => Some DisplaySystem
     | GenNode 1 [] => Some DisplayBackgroundTask
    | _ => None
    end;
}.
Proof. intros []; by rewrite ?tree_inv. Defined.

#[export, refine] Instance SessionImproveMode_tree : Tree SessionImproveMode := {
  to_tree v := match v with
    | ImproveRun => GenNode 0 []
    | ImprovePlan => GenNode 1 []
    | RefactorRun => GenNode 2 []
    | RefactorPlan => GenNode 3 []
    end;
  of_tree t := match t with
     | GenNode 0 [] => Some ImproveRun
     | GenNode 1 [] => Some ImprovePlan
     | GenNode 2 [] => Some RefactorRun
     | GenNode 3 [] => Some RefactorPlan
    | _ => None
    end;
}.
Proof. intros []; by rewrite ?tree_inv. Defined.

#[export, refine] Instance SessionStatus_tree : Tree SessionStatus := {
  to_tree v := match v with
    | StatusActive => GenNode 0 []
    | StatusClosed => GenNode 1 []
    | StatusCrashed x0 => GenNode 2 [to_tree x0]
    | StatusReloaded => GenNode 3 []
    | StatusCompacted => GenNode 4 []
    | StatusRateLimited => GenNode 5 []
    | StatusError x0 => GenNode 6 [to_tree x0]
    end;
  of_tree t := match t with
     | GenNode 0 [] => Some StatusActive
     | GenNode 1 [] => Some StatusClosed
     | GenNode 2 [x0] => x0 ← of_tree x0; Some (StatusCrashed x0)
     | GenNode 3 [] => Some StatusReloaded
     | GenNode 4 [] => Some StatusCompacted
     | GenNode 5 [] => Some StatusRateLimited
     | GenNode 6 [x0] => x0 ← of_tree x0; Some (StatusError x0)
    | _ => None
    end;
}.
Proof. intros []; by rewrite ?tree_inv. Defined.

#[export, refine] Instance StoredTokenUsage_tree : Tree StoredTokenUsage := {
   to_tree r := GenNode 0 [to_tree (tu_input_tokens r); to_tree (tu_output_tokens r); to_tree
    (tu_cache_read_input_tokens r); to_tree (tu_cache_creation_input_tokens r)];
   of_tree t := match t with GenNode 0 [x0; x1; x2; x3] =>
     x0 ← of_tree x0; x1 ← of_tree x1; x2 ← of_tree x2; x3 ← of_tree x3;
     Some (Build_StoredTokenUsage x0 x1 x2 x3)
    | _ => None end;
}.
Proof. intros r. rewrite !tree_inv. by destruct r. Defined.

#[export, refine] Instance StoredMessage_tree : Tree StoredMessage := {
   to_tree r := GenNode 0 [to_tree (st_id r); to_tree (st_role r); to_tree (st_content r);
    to_tree (st_display_role r); to_tree (st_timestamp r); to_tree (st_tool_duration_ms r);
    to_tree (st_token_usage r)];
   of_tree t := match t with GenNode 0 [x0; x1; x2; x3; x4; x5; x6] =>
     x0 ← of_tree x0; x1 ← of_tree x1; x2 ← of_tree x2; x3 ← of_tree x3; x4 ← of_tree x4; x5 ←
      of_tree x5; x6 ← of_tree x6;
     Some (Build_StoredMessage x0 x1 x2 x3 x4 x5 x6)
    | _ => None end;
}.
Proof. intros r. rewrite !tree_inv. by destruct r. Defined.

#[export, refine] Instance Message_tree : Tree Message := {
   to_tree r := GenNode 0 [to_tree (msg_role r); to_tree (msg_content r); to_tree (msg_timestamp
    r); to_tree (msg_tool_duration_ms r)];
   of_tree t := match t with GenNode 0 [x0; x1; x2; x3] =>
     x0 ← of_tree x0; x1 ← of_tree x1; x2 ← of_tree x2; x3 ← of_tree x3;
     Some (Build_Message x0 x1 x2 x3)
    | _ => None end;
}.
Proof. intros r. rewrite !tree_inv. by destruct r. Defined.

#[export, refine] Instance GitState_tree : Tree GitState := {
   to_tree r := GenNode 0 [to_tree (gs_root r); to_tree (gs_head r); to_tree (gs_branch r);
    to_tree (gs_dirty r)];
   of_tree t := match t with GenNode 0 [x0; x1; x2; x3] =>
     x0 ← of_tree x0; x1 ← of_tree x1; x2 ← of_tree x2; x3 ← of_tree x3;
     Some (Build_GitState x0 x1 x2 x3)
    | _ => None end;
}.
Proof. intros r. rewrite !tree_inv. by destruct r. Defined.

#[export, refine] Instance EnvSnapshot_tree : Tree EnvSnapshot := {
   to_tree r := GenNode 0 [to_tree (ev_captured_at r); to_tree (ev_reason r); to_tree
    (ev_session_id r); to_tree (ev_working_dir r); to_tree (ev_provider r); to_tree (ev_model r);
    to_tree (ev_gcode_version r); to_tree (ev_gcode_git_hash r); to_tree (ev_gcode_git_dirty r);
    to_tree (ev_os r); to_tree (ev_arch r); to_tree (ev_pid r); to_tree (ev_is_selfdev r);
    to_tree (ev_is_debug r); to_tree (ev_is_canary r); to_tree (ev_testing_build r); to_tree
    (ev_working_git r)];
   of_tree t := match t with GenNode 0 [x0; x1; x2; x3; x4; x5; x6; x7; x8; x9; x10; x11; x12;
    x13; x14; x15; x16] =>
     x0 ← of_tree x0; x1 ← of_tree x1; x2 ← of_tree x2; x3 ← of_tree x3; x4 ← of_tree x4; x5 ←
      of_tree x5; x6 ← of_tree x6; x7 ← of_tree x7; x8 ← of_tree x8; x9 ← of_tree x9; x10 ←
      of_tree x10; x11 ← of_tree x11; x12 ← of_tree x12; x13 ← of_tree x13; x14 ← of_tree x14;
      x15 ← of_tree x15; x16 ← of_tree x16;
     Some (Build_EnvSnapshot x0 x1 x2 x3 x4 x5 x6 x7 x8 x9 x10 x11 x12 x13 x14 x15 x16)
    | _ => None end;
}.
Proof. intros r. rewrite !tree_inv. by destruct r. Defined.

#[export, refine] Instance StoredMemoryInjection_tree : Tree StoredMemoryInjection := {
   to_tree r := GenNode 0 [to_tree (mi_summary r); to_tree (mi_content r); to_tree (mi_count r);
    to_tree (mi_memory_ids r); to_tree (mi_age_ms r); to_tree (mi_before_message r); to_tree
    (mi_timestamp r)];
   of_tree t := match t with GenNode 0 [x0; x1; x2; x3; x4; x5; x6] =>
     x0 ← of_tree x0; x1 ← of_tree x1; x2 ← of_tree x2; x3 ← of_tree x3; x4 ← of_tree x4; x5 ←
      of_tree x5; x6 ← of_tree x6;
     Some (Build_StoredMemoryInjection x0 x1 x2 x3 x4 x5 x6)
    | _ => None end;
}.
Proof. intros r. rewrite !tree_inv. by destruct r. Defined.

#[export, refine] Instance SwarmMemberStatus_tree : Tree SwarmMemberStatus := {
   to_tree r := GenNode 0 [to_tree (ms_session_id r); to_tree (ms_friendly_name r); to_tree
    (ms_status r); to_tree (ms_detail r); to_tree (ms_role r); to_tree (ms_is_headless r);
    to_tree (ms_live_attachments r); to_tree (ms_status_age_secs r)];
   of_tree t := match t with GenNode 0 [x0; x1; x2; x3; x4; x5; x6; x7] =>
     x0 ← of_tree x0; x1 ← of_tree x1; x2 ← of_tree x2; x3 ← of_tree x3; x4 ← of_tree x4; x5 ←
      of_tree x5; x6 ← of_tree x6; x7 ← of_tree x7;
     Some (Build_SwarmMemberStatus x0 x1 x2 x3 x4 x5 x6 x7)
    | _ => None end;
}.
Proof. intros r. rewrite !tree_inv. by destruct r. Defined.

#[export, refine] Instance PlanItem_tree : Tree PlanItem := {
   to_tree r := GenNode 0 [to_tree (pi_content r); to_tree (pi_status r); to_tree (pi_priority
    r); to_tree (pi_id r); to_tree (pi_subsystem r); to_tree (pi_file_scope r); to_tree
    (pi_blocked_by r); to_tree (pi_assigned_to r)];
   of_tree t := match t with GenNode 0 [x0; x1; x2; x3; x4; x5; x6; x7] =>
     x0 ← of_tree x0; x1 ← of_tree x1; x2 ← of_tree x2; x3 ← of_tree x3; x4 ← of_tree x4; x5 ←
      of_tree x5; x6 ← of_tree x6; x7 ← of_tree x7;
     Some (Build_PlanItem x0 x1 x2 x3 x4 x5 x6 x7)
    | _ => None end;
}.
Proof. intros r. rewrite !tree_inv. by destruct r. Defined.

#[export, refine] Instance StoredReplayEventKind_tree : Tree StoredReplayEventKind := {
  to_tree v := match v with
    | DisplayMessage x0 x1 x2 => GenNode 0 [to_tree x0; to_tree x1; to_tree x2]
    | SwarmStatusEvent x0 => GenNode 1 [to_tree x0]
    | SwarmPlanEvent x0 x1 x2 x3 x4 => GenNode 2 [to_tree x0; to_tree x1; to_tree x2; to_tree x3; to_tree x4]
    end;
  of_tree t := match t with
     | GenNode 0 [x0; x1; x2] => x0 ← of_tree x0; x1 ← of_tree x1; x2 ← of_tree x2; Some
      (DisplayMessage x0 x1 x2)
     | GenNode 1 [x0] => x0 ← of_tree x0; Some (SwarmStatusEvent x0)
     | GenNode 2 [x0; x1; x2; x3; x4] => x0 ← of_tree x0; x1 ← of_tree x1; x2 ← of_tree x2; x3 ←
      of_tree x3; x4 ← of_tree x4; Some (SwarmPlanEvent x0 x1 x2 x3 x4)
    | _ => None
    end;
}.
Proof. intros []; by rewrite ?tree_inv. Defined.

#[export, refine] Instance StoredReplayEvent_tree : Tree StoredReplayEvent := {
   to_tree r := GenNode 0 [to_tree (re_timestamp r); to_tree (re_kind r)];
   of_tree t := match t with GenNode 0 [x0; x1] =>
     x0 ← of_tree x0; x1 ← of_tree x1;
     Some (Build_StoredReplayEvent x0 x1)
    | _ => None end;
}.
Proof. intros r. rewrite !tree_inv. by destruct r. Defined.

#[export, refine] Instance StoredCompactionState_tree : Tree StoredCompactionState := {
   to_tree r := GenNode 0 [to_tree (sc_summary_text r); to_tree (sc_openai_encrypted_content r);
    to_tree (sc_covers_up_to_turn r); to_tree (sc_original_turn_count r); to_tree
    (sc_compacted_count r)];
   of_tree t := match t with GenNode 0 [x0; x1; x2; x3; x4] =>
     x0 ← of_tree x0; x1 ← of_tree x1; x2 ← of_tree x2; x3 ← of_tree x3; x4 ← of_tree x4;
     Some (Build_StoredCompactionState x0 x1 x2 x3 x4)
    | _ => None end;
}.
Proof. intros r. rewrite !tree_inv. by destruct r. Defined.

#[export, refine] Instance SessionJournalMeta_tree : Tree SessionJournalMeta := {
   to_tree r := GenNode 0 [to_tree (jm_parent_id r); to_tree (jm_title r); to_tree (jm_updated_at
    r); to_tree (jm_compaction r); to_tree (jm_provider_session_id r); to_tree (jm_provider_key
    r); to_tree (jm_model r); to_tree (jm_reasoning_effort r); to_tree (jm_subagent_model r);
    to_tree (jm_improve_mode r); to_tree (jm_autoreview_enabled r); to_tree (jm_autojudge_enabled
    r); to_tree (jm_is_canary r); to_tree (jm_testing_build r); to_tree (jm_working_dir r);
    to_tree (jm_short_name r); to_tree (jm_status r); to_tree (jm_last_pid r); to_tree
    (jm_last_active_at r); to_tree (jm_is_debug r); to_tree (jm_saved r); to_tree (jm_save_label
    r)];
   of_tree t := match t with GenNode 0 [x0; x1; x2; x3; x4; x5; x6; x7; x8; x9; x10; x11; x12;
    x13; x14; x15; x16; x17; x18; x19; x20; x21] =>
     x0 ← of_tree x0; x1 ← of_tree x1; x2 ← of_tree x2; x3 ← of_tree x3; x4 ← of_tree x4; x5 ←
      of_tree x5; x6 ← of_tree x6; x7 ← of_tree x7; x8 ← of_tree x8; x9 ← of_tree x9; x10 ←
      of_tree x10; x11 ← of_tree x11; x12 ← of_tree x12; x13 ← of_tree x13; x14 ← of_tree x14;
      x15 ← of_tree x15; x16 ← of_tree x16; x17 ← of_tree x17; x18 ← of_tree x18; x19 ← of_tree
      x19; x20 ← of_tree x20; x21 ← of_tree x21;
     Some (Build_SessionJournalMeta x0 x1 x2 x3 x4 x5 x6 x7 x8 x9 x10 x11 x12 x13 x14 x15 x16 x17
      x18 x19 x20 x21)
    | _ => None end;
}.
Proof. intros r. rewrite !tree_inv. by destruct r. Defined.

#[export, refine] Instance SessionJournalEntry_tree : Tree SessionJournalEntry := {
   to_tree r := GenNode 0 [to_tree (je_meta r); to_tree (je_append_messages r); to_tree
    (je_append_env_snapshots r); to_tree (je_append_memory_injections r); to_tree
    (je_append_replay_events r)];
   of_tree t := match t with GenNode 0 [x0; x1; x2; x3; x4] =>
     x0 ← of_tree x0; x1 ← of_tree x1; x2 ← of_tree x2; x3 ← of_tree x3; x4 ← of_tree x4;
     Some (Build_SessionJournalEntry x0 x1 x2 x3 x4)
    | _ => None end;
}.
Proof. intros r. rewrite !tree_inv. by destruct r. Defined.

(** The stored fields of a session. *)
Record SessionParts := {
  sp_id : string;
  sp_created_at : datetime;
  sp_meta : SessionJournalMeta;
  sp_messages : list StoredMessage;
  sp_env_snapshots : list EnvSnapshot;
  sp_memory_injections : list StoredMemoryInjection;
  sp_replay_events : list StoredReplayEvent;
}.

#[export, refine] Instance SessionParts_tree : Tree SessionParts := {
   to_tree r := GenNode 0 [to_tree (sp_id r); to_tree (sp_created_at r); to_tree (sp_meta r);
    to_tree (sp_messages r); to_tree (sp_env_snapshots r); to_tree (sp_memory_injections r);
    to_tree (sp_replay_events r)];
   of_tree t := match t with GenNode 0 [x0; x1; x2; x3; x4; x5; x6] =>
     x0 ← of_tree x0; x1 ← of_tree x1; x2 ← of_tree x2; x3 ← of_tree x3; x4 ← of_tree x4; x5 ←
      of_tree x5; x6 ← of_tree x6;
     Some (Build_SessionParts x0 x1 x2 x3 x4 x5 x6)
    | _ => None end;
}.
Proof. intros r. rewrite !tree_inv. by destruct r. Defined.

Definition parts_of (s : Session) : SessionParts := {|
  sp_id := se_id s;
  sp_created_at := se_created_at s;
  sp_meta := journal_meta s;
  sp_messages := se_messages s;
  sp_env_snapshots := se_env_snapshots s;
  sp_memory_injections := se_memory_injections s;
  sp_replay_events := se_replay_events s;
|}.

Definition empty_session : Session :=
  new_session 0 {| pe_working_dir := None; pe_test_session := false; pe_pid := 0 |} "" None None None.

Definition session_of (p : SessionParts) : Session :=
  let s := assign_startup_fields
    {| ss_id := sp_id p; ss_created_at := sp_created_at p; ss_meta := sp_meta p |}
    (create_with_id 0 {| pe_working_dir := None; pe_test_session := false; pe_pid := 0 |}
      (sp_id p) None None) in
  persisted (se_set_messages (sp_messages p) (se_set_env_snapshots (sp_env_snapshots p)
    (se_set_memory_injections (sp_memory_injections p)
      (se_set_replay_events (sp_replay_events p) s)))).

Lemma session_of_parts s : session_of (parts_of s) = persisted s.
Proof. done. Qed.

(** ** Trees as text *)

Fixpoint digits_of (p : positive) : string :=
  match p with
  | xH => ""
  | xO p => "0" +:+ digits_of p
  | xI p => "1" +:+ digits_of p
  end.

Fixpoint of_digits (s : string) : option positive :=
  match s with
  | EmptyString => None
  | String c s =>
      if Ascii.eqb c (Ascii.ascii_of_nat 125) then Some xH
      else if Ascii.eqb c (Ascii.ascii_of_nat 48) then xO <$> of_digits s
      else if Ascii.eqb c (Ascii.ascii_of_nat 49) then xI <$> of_digits s
      else None
  end.

Lemma of_digits_inv p : of_digits (digits_of p +:+ "}") = Some p.
Proof.
  induction p as [p IH|p IH|]; [| |done].
  - change (xI <$> of_digits (digits_of p +:+ "}") = Some (xI p)). by rewrite IH.
  - change (xO <$> of_digits (digits_of p +:+ "}") = Some (xO p)). by rewrite IH.
Qed.

Definition tree_text (t : tree) : string := "{" +:+ digits_of (encode t) +:+ "}".

Definition text_tree (s : string) : option tree :=
  match s with String _ s => of_digits s ≫= decode | EmptyString => None end.

Lemma text_tree_inv t : text_tree (tree_text t) = Some t.
Proof.
  unfold tree_text. cbn [text_tree String.append].
  rewrite of_digits_inv. cbn. apply decode_encode.
Qed.

Fixpoint plain_char (s : string) : bool :=
  match s with
  | EmptyString => true
  | String c s => (Ascii.eqb c (Ascii.ascii_of_nat 48) || Ascii.eqb c (Ascii.ascii_of_nat 49)) && plain_char s
  end.

Lemma digits_plain p : plain_char (digits_of p) = true.
Proof. induction p; done. Qed.

Lemma plain_utf8 s t :
  plain_char s = true → utf8_from (0, 128, 191) (s +:+ t) = utf8_from (0, 128, 191) t.
Proof.
  intros Hs. induction s as [|c s IH]; [done|]. cbn [plain_char] in Hs.
  apply andb_true_iff in Hs as [[->%Ascii.eqb_eq| ->%Ascii.eqb_eq]%orb_true_iff Hs]; exact (IH Hs).
Qed.

Lemma plain_no_newline s t :
  plain_char s = true → no_newline t = true → no_newline (s +:+ t) = true.
Proof.
  intros Hs Ht. induction s as [|c s IH]; [done|]. cbn [plain_char] in Hs.
  apply andb_true_iff in Hs as [[->%Ascii.eqb_eq| ->%Ascii.eqb_eq]%orb_true_iff Hs]; exact (IH Hs).
Qed.

Lemma tree_text_utf8 t : utf8_valid (tree_text t) = true.
Proof.
  unfold utf8_valid. apply bool_decide_eq_true. unfold tree_text.
  change (utf8_from (0, 128, 191) (digits_of (encode t) +:+ "}") = Some (0, 128, 191)).
  by rewrite (plain_utf8 (digits_of (encode t)) "}" (digits_plain _)).
Qed.

Lemma strip_cr_brace s : strip_cr (s +:+ "}") = s +:+ "}".
Proof.
  induction s as [|c s IH]; [done|]. change (String c s +:+ "}") with (String c (s +:+ "}")).
  cbn [strip_cr]. rewrite IH. by destruct s.
Qed.

Lemma tree_text_plain t : plain_line (tree_text t).
Proof.
  split.
  - apply (plain_no_newline (digits_of (encode t)) "}"); [apply digits_plain|done].
  - unfold tree_text. rewrite <- str_app_assoc. apply strip_cr_brace.
Qed.

Lemma tree_text_trim t : trim (tree_text t) = tree_text t.
Proof.
  apply trim_id. unfold tree_text. set (d := digits_of (encode t)).
  assert (Hd : starts_char (d +:+ "}") = true).
  { pose proof (digits_plain (encode t)) as Hp. fold d in Hp. destruct d as [|c d]; [done|].
    cbn [plain_char] in Hp.
    by apply andb_true_iff in Hp as [[->%Ascii.eqb_eq| ->%Ascii.eqb_eq]%orb_true_iff _]. }
  rewrite chars_app by done. split.
  - intros c l' [= <- _]. done.
  - intros c l' E. rewrite chars_app in E by done. change (chars "}") with ["}"] in E.
    change (chars "{") with ["{"] in E. rewrite app_assoc in E.
    apply app_inj_tail in E as [_ <-]. done.
Qed.

(** ** The codec *)

#[export] Instance text_session_json : SessionJson := {
  message_json m := tree_text (to_tree m);
  stored_message_json m := tree_text (to_tree m);
  env_snapshot_json e := tree_text (to_tree e);
  memory_injection_json i := tree_text (to_tree i);
  replay_event_json e := tree_text (to_tree e);
  compaction_json c := tree_text (to_tree c);
}.

#[export] Instance text_codec : SessionCodec := {
  session_json s := tree_text (to_tree (parts_of s));
  parse_session text := session_of <$> (text_tree text ≫= of_tree);
  entry_json e := tree_text (to_tree e);
  parse_entry text := text_tree text ≫= of_tree;
  parse_startup_stub text := stub_of ∘ session_of <$> (text_tree text ≫= of_tree);
  parse_remote_startup text :=
    (λ p, (stub_of (session_of p), sp_messages p)) <$> (text_tree text ≫= of_tree);
}.

#[export] Instance text_codec_laws : SessionCodecLaws.
Proof.
  split; intros x; cbn [session_json entry_json parse_session parse_entry parse_startup_stub
    parse_remote_startup text_codec]; rewrite ?text_tree_inv; cbn [mbind option_bind];
    rewrite ?tree_inv.
  - apply tree_text_utf8.
  - done.
  - apply tree_text_utf8.
  - apply tree_text_plain.
  - apply tree_text_trim.
  - done.
  - done.
  - done.
  - done.
Qed.
