(* ===== verification/SessionStoreTheorems.v ===== *)
(** * Saved sessions are loaded back

    With a disk that does not fail, the file and the journal of a session hold
    what it was at its last save, whatever happened to it in between and however
    the saves were made: as journal entries, as snapshots, or as both; behind
    what was stored before, if the session was stripped for a remote client.
    When calls fail, what a save leaves, and when it can be loaded. *)

From S2P Require Import Prelude Utf8 Text Messages SessionTypes SessionProfile SessionState SessionOps SessionOpsTheorems Storage StorageTheorems SessionStore SwarmPlan CacheTracker SessionText.
Open Scope nat_scope.
Open Scope io_scope.

#[local] Arguments String.append !_ _ / : simpl nomatch.

(** ** The files of a session *)

Section paths.
Context (base id suffix : string).
Let path := session_path_in_dir base id.

Lemma session_path_ends : ∃ s, path = s +:+ ".json".
Proof.
  unfold path, session_path_in_dir. generalize (path_join base "sessions"). intros dir.
  unfold path_join. destruct (starts_with "/" (id +:+ ".json")); [|destruct (_ || _)].
  - by exists id.
  - exists (dir +:+ id). by rewrite str_app_assoc.
  - exists (dir +:+ "/" +:+ id). by rewrite !str_app_assoc.
Qed.

Lemma session_files_apart :
  let tmp := with_extension path ("tmp." +:+ suffix) in
  let bak := with_extension path "bak" in
  let journal := session_journal_path_from_snapshot path in
  tmp ≠ path ∧ bak ≠ path ∧ tmp ≠ bak ∧ journal ≠ path ∧ journal ≠ tmp ∧ journal ≠ bak.
Proof.
  cbn zeta. destruct session_path_ends as [s Hs].
  destruct (json_path_names s) as (dir & stem & Hext & Hstem & Hdir & Hname).
  rewrite <- Hs in *. unfold session_journal_path_from_snapshot, with_file_name.
  rewrite !Hext, Hstem, Hdir. clear Hext Hstem Hdir.
  assert (Hne : ∀ a, a ≠ ".json" → a ≠ "" → dir +:+ stem +:+ a ≠ path).
  { intros a Ha Ha0 E. destruct Hname as [Hn|Hn]; rewrite Hn in E;
      apply (str_app_inj_l dir) in E.
    - by apply (str_app_inj_l stem) in E.
    - by apply (str_app_ne_self stem a). }
  repeat split; try (apply Hne; done);
    intros E; apply (str_app_inj_l dir), (str_app_inj_l stem) in E; discriminate.
Qed.
End paths.

Section theorems.
Context `{SessionCodecLaws} `{SessionContextText}.

(** ** What the files hold *)

(** A snapshot and the entries of the journal beside it. *)
Definition holds (path : string) (base : Session) (entries : list SessionJournalEntry)
    (f : gmap string string) : Prop :=
  f !! path = Some (session_json base)
  ∧ default "" (f !! session_journal_path_from_snapshot path) = unlines (entry_json <$> entries).

(** The session a load makes of them. *)
Definition replayed (base : Session) (entries : list SessionJournalEntry) : Session :=
  foldl apply_journal_entry (persisted base) entries.

Lemma apply_entries_lines apply entries : ∀ s,
  apply_journal_lines apply (entry_json <$> entries) s = inl (foldl apply s entries).
Proof.
  induction entries as [|e entries IH]; intros s; [done|]. cbn [fmap list_fmap apply_journal_lines foldl].
  rewrite entry_utf8, entry_trim, parse_entry_json. cbn [negb].
  destruct (String.eqb_spec (entry_json e) "") as [E|_]; [by apply entry_not_empty in E|].
  apply IH.
Qed.

Lemma lines_entries entries : lines (unlines (entry_json <$> entries)) = entry_json <$> entries.
Proof.
  apply lines_unlines. induction entries; constructor; [apply entry_plain|done].
Qed.

(** ** Sessions and their copies on disk *)

(** A vector of the session and what is stored of it: a prefix, unless the mode
    asks for a snapshot. *)
Definition tracked {A} (mode : PersistVectorMode) (len : usize) (v stored : list A) : Prop :=
  mode = ModeFull ∨ len = length stored ∧ stored `prefix_of` v.

Definition synced (s stored : Session) : Prop :=
  let p := se_persist_state s in
  se_id s = se_id stored ∧ se_created_at s = se_created_at stored
  ∧ tracked (ps_messages_mode p) (ps_messages_len p) (se_messages s) (se_messages stored)
  ∧ tracked (ps_env_snapshots_mode p) (ps_env_snapshots_len p) (se_env_snapshots s)
      (se_env_snapshots stored)
  ∧ tracked (ps_memory_injections_mode p) (ps_memory_injections_len p) (se_memory_injections s)
      (se_memory_injections stored)
  ∧ tracked (ps_replay_events_mode p) (ps_replay_events_len p) (se_replay_events s)
      (se_replay_events stored).

Lemma tracked_append {A} mode len (v stored l : list A) :
  tracked mode len v stored → tracked (set_unless_full mode) len (v ++ l) stored.
Proof.
  intros [->|[Hl Hp]]; [by left|]. destruct mode; [| |by left];
    right; (split; [done|by apply prefix_app_r]).
Qed.

Lemma tracked_all {A} (v : list A) : tracked ModeClean (length v) v v.
Proof. by right. Qed.

Lemma tracked_drop {A} mode len (v stored : list A) :
  tracked mode len v stored → mode ≠ ModeFull → stored ++ drop len v = v.
Proof.
  intros [?|[-> [l ->]]]; [done|]. intros _. by rewrite drop_app_length.
Qed.

Lemma synced_refl s b : synced (reset_persist_state b s) s.
Proof. repeat split; apply tracked_all. Qed.

(** What the operations preserve of the bookkeeping. *)
Definition keeps (s s' : Session) : Prop :=
  se_id s' = se_id s ∧ se_created_at s' = se_created_at s
  ∧ ps_snapshot_exists (se_persist_state s') = ps_snapshot_exists (se_persist_state s)
  ∧ ∀ stored, synced s stored → synced s' stored.

Lemma keeps_self s : keeps s s.
Proof. unfold keeps. auto. Qed.

Lemma keeps_trans s t u : keeps s t → keeps t u → keeps s u.
Proof.
  intros (Hi & Hc & He & Hs) (Hi' & Hc' & He' & Hs').
  split; [congruence|]. split; [congruence|]. split; [congruence|]. auto.
Qed.

(** An operation that changes neither the vectors nor their bookkeeping. *)
Lemma keeps_same s s' :
  se_id s' = se_id s → se_created_at s' = se_created_at s →
  se_persist_state s' = se_persist_state s →
  se_messages s' = se_messages s → se_env_snapshots s' = se_env_snapshots s →
  se_memory_injections s' = se_memory_injections s →
  se_replay_events s' = se_replay_events s → keeps s s'.
Proof.
  intros Hi Hc Hp Hm He Hj Hr. unfold keeps, synced. rewrite Hi, Hc, Hp, Hm, He, Hj, Hr. auto.
Qed.

Lemma push_entry_keeps m s : keeps s (push_provider_message_cache_entry m s).
Proof. by apply keeps_same. Qed.

Lemma push_stored_keeps ms : ∀ s, keeps s (push_stored_messages ms s).
Proof.
  induction ms as [|m ms IH]; intros s; [apply keeps_self|].
  apply (keeps_trans _ (push_provider_message_cache_entry (to_message m) s));
    [apply push_entry_keeps|apply IH].
Qed.

Lemma refresh_keeps s : keeps s (refresh_provider_messages s).
Proof.
  unfold refresh_provider_messages. repeat case_match; [| |apply keeps_self].
  - eapply keeps_trans; [|by apply keeps_same].
    eapply keeps_trans; [|apply push_stored_keeps]. by apply keeps_same.
  - eapply keeps_trans; [apply push_stored_keeps|by apply keeps_same].
Qed.

Lemma append_message_keeps m s : keeps s (append_stored_message m s).
Proof.
  split; [done|]. split; [done|]. split; [done|].
  intros stored (Hi & Hc & Hm & He & Hj & Hr). repeat split; try done. cbn.
  by apply tracked_append.
Qed.

Lemma push_replay_keeps e s : keeps s (push_replay_event e s).
Proof.
  split; [done|]. split; [done|]. split; [done|].
  intros stored (Hi & Hc & Hm & He & Hj & Hr). repeat split; try done. cbn.
  by apply tracked_append.
Qed.

Lemma messages_full_keeps ms s :
  keeps s (mark_messages_full_dirty (mark_memory_profile_dirty (se_set_messages ms s))).
Proof.
  split; [done|]. split; [done|]. split; [done|].
  intros stored (Hi & Hc & Hm & He & Hj & Hr). repeat split; try done. by left.
Qed.

Lemma record_env_keeps e s : keeps s (record_env_snapshot e s).
Proof.
  unfold record_env_snapshot. case_match;
    (split; [done|]; split; [done|]; split; [done|]);
    intros stored (Hi & Hc & Hm & He & Hj & Hr); repeat split; try done.
  - by left.
  - cbn. by apply tracked_append.
Qed.

Lemma record_injection_keeps now summary content count age ids s :
  keeps s (record_memory_injection now summary content count age ids s).
Proof.
  split; [done|]. split; [done|]. split; [done|].
  intros stored (Hi & Hc & Hm & He & Hj & Hr). repeat split; try done. cbn.
  by apply tracked_append.
Qed.

Lemma apply_op_keeps op s s' : apply_op op s = Some s' → keeps s s'.
Proof.
  destruct op; cbn [apply_op]; try (intros [= <-]; by apply keeps_same).
  - intros [= <-]. apply append_message_keeps.
  - unfold insert_message. case_match; [|done]. intros [= <-]. apply messages_full_keeps.
  - intros [= <-]. apply messages_full_keeps.
  - intros [= <-]. unfold truncate_messages. case_match; [apply messages_full_keeps|apply keeps_self].
  - intros [= <-]. unfold remove_tool_use_blocks.
    case_match; [apply messages_full_keeps|apply keeps_self].
  - intros [= <-].
    destruct (ensure_context_cases now env id s) as [->|(s1 & m & Hs1 & ->)]; [apply keeps_self|].
    apply (keeps_trans _ s1); [|apply append_message_keeps].
    destruct Hs1 as [->|[d ->]]; [apply keeps_self|by apply keeps_same].
  - intros [= <-]. unfold refresh_initial_session_context_message.
    repeat case_match; first [apply keeps_self|apply messages_full_keeps].
  - intros [= <-]. apply record_env_keeps.
  - intros [= <-]. apply record_injection_keeps.
  - intros [= <-]. apply push_replay_keeps.
  - intros [= <-]. unfold record_swarm_status_event.
    case_match; [apply keeps_self|apply push_replay_keeps].
  - intros [= <-]. unfold record_swarm_plan_event.
    case_match; [apply keeps_self|apply push_replay_keeps].
  - intros [= <-]. unfold mark_saved. case_match; by apply keeps_same.
  - intros [= <-]. apply refresh_keeps.
  - intros [= <-]. cbn [memory_profile_snapshot snd]. unfold ensure_memory_profile_cache.
    case_match; [by apply keeps_same|apply keeps_self].
Qed.

(** ** One save *)

Lemma remove_ok path (Q : unit → gmap string string → Prop) w :
  Q () (delete path (w_files w)) → ok (io_ignore (remove_file path)) Q w.
Proof.
  intros HQ Hr. unfold io_ignore, remove_file. rewrite io_call_reliable by done.
  destruct (w_files w !! path) as [t|] eqn:E.
  - by eexists (), (set_files _ w).
  - exists (), w. repeat split; [done|]. by rewrite delete_id in HQ.
Qed.

Lemma checkpoint_ok base id suffix s w :
  let path := session_path_in_dir base id in
  let journal := session_journal_path_from_snapshot path in
  ok (checkpoint_snapshot suffix path journal s)
    (λ s' f, s' = reset_persist_state true s ∧ holds path s [] f ∧ f !! journal = None) w.
Proof.
  cbn zeta. destruct (session_files_apart base id suffix) as (Htp & Hbp & Htb & Hjp & Hjt & Hjb).
  set (path := session_path_in_dir base id) in *.
  set (journal := session_journal_path_from_snapshot path) in *.
  apply (ok_seq (λ _ f, f !! path = Some (session_json s))).
  { by apply write_bytes_inner_ok. }
  intros _ w1 Hw1. apply (ok_seq (λ b f, f = w_files w1 ∧ (b = false → f !! journal = None))).
  { apply ok_exists. split; [done|]. unfold path_exists. intros [Hb _]%orb_false_iff.
    apply bool_decide_eq_false in Hb. by apply eq_None_not_Some. }
  intros b w2 [Hw2 Hb]. apply (ok_seq (λ _ f, f !! path = Some (session_json s) ∧ f !! journal = None)).
  { destruct b.
    - apply remove_ok. rewrite lookup_delete_ne, lookup_delete_eq by done. by rewrite Hw2.
    - apply ok_ret. rewrite Hw2 in *. auto. }
  intros _ w3 [Hp Hj]. apply ok_ret. split; [done|]. split; [|done]. split; [done|].
  fold journal. by rewrite Hj.
Qed.

Lemma persisted_fields s t :
  persisted s = persisted t →
  se_id s = se_id t ∧ se_created_at s = se_created_at t ∧ se_messages s = se_messages t
  ∧ se_env_snapshots s = se_env_snapshots t ∧ se_memory_injections s = se_memory_injections t
  ∧ se_replay_events s = se_replay_events t ∧ journal_meta s = journal_meta t.
Proof. destruct s, t. cbn. intros [=]. subst. done. Qed.

Lemma persisted_intro s t :
  se_id s = se_id t → se_created_at s = se_created_at t → se_messages s = se_messages t →
  se_env_snapshots s = se_env_snapshots t → se_memory_injections s = se_memory_injections t →
  se_replay_events s = se_replay_events t → journal_meta s = journal_meta t →
  persisted s = persisted t.
Proof. destruct s, t. cbn. intros. simplify_eq. done. Qed.

Lemma synced_persisted b s d : persisted s = persisted d → synced (reset_persist_state b s) d.
Proof.
  intros (Hi & Hc & Hm & He & Hj & Hr & _)%persisted_fields.
  unfold synced. cbn. rewrite Hi, Hc, Hm, He, Hj, Hr. repeat split; apply tracked_all.
Qed.

(** The entry of an append carries what is missing on disk. *)
Lemma append_entry_persisted s d :
  synced s d → vectors_need_snapshot s = false →
  persisted (apply_journal_entry d (journal_entry s)) = persisted s.
Proof.
  intros (Hi & Hc & Hm & He & Hj & Hr) Hv. unfold vectors_need_snapshot in Hv.
  repeat match type of Hv with _ || _ = false => apply orb_false_iff in Hv as [Hv ?] end.
  repeat match goal with E : bool_decide _ = false |- _ => apply bool_decide_eq_false in E end.
  apply persisted_intro; cbn; [by symmetry|by symmetry|..|done]; by eapply tracked_drop.
Qed.

(** *** Stripped sessions *)

(** What is stored of a session's vectors in front of those it has in memory: a
    session that was stripped for a remote client has dropped them. *)
Record Hidden := {
  hd_messages : list StoredMessage;
  hd_env_snapshots : list EnvSnapshot;
  hd_memory_injections : list StoredMemoryInjection;
  hd_replay_events : list StoredReplayEvent;
}.

Definition nothing_hidden : Hidden :=
  {| hd_messages := []; hd_env_snapshots := []; hd_memory_injections := []; hd_replay_events := [] |}.

Definition set_vectors (messages : list StoredMessage) (env : list EnvSnapshot)
    (injections : list StoredMemoryInjection) (replay : list StoredReplayEvent) (s : Session) : Session :=
  se_set_replay_events replay
    (se_set_memory_injections injections (se_set_env_snapshots env (se_set_messages messages s))).

(** The session with the hidden front. *)
Definition behind (h : Hidden) (s : Session) : Session :=
  set_vectors (hd_messages h ++ se_messages s) (hd_env_snapshots h ++ se_env_snapshots s)
    (hd_memory_injections h ++ se_memory_injections s) (hd_replay_events h ++ se_replay_events s) s.

(** Stripping hides everything that is stored. *)
Definition hide (h : Hidden) (s : Session) : Hidden :=
  {| hd_messages := hd_messages h ++ se_messages s;
     hd_env_snapshots := hd_env_snapshots h ++ se_env_snapshots s;
     hd_memory_injections := hd_memory_injections h ++ se_memory_injections s;
     hd_replay_events := hd_replay_events h ++ se_replay_events s |}.

Lemma behind_nothing s : behind nothing_hidden s = s.
Proof. by destruct s. Qed.

Lemma behind_hide h s : behind (hide h s) (set_vectors [] [] [] [] s) = behind h s.
Proof. unfold behind, hide. cbn. by rewrite !app_nil_r. Qed.

Lemma behind_persisted h s t :
  persisted s = persisted t → persisted (behind h s) = persisted (behind h t).
Proof. destruct s, t. cbn. intros. simplify_eq. done. Qed.

Lemma apply_entry_persisted e s t :
  persisted s = persisted t →
  persisted (apply_journal_entry s e) = persisted (apply_journal_entry t e).
Proof. destruct s, t. cbn. intros. simplify_eq. done. Qed.

Lemma apply_entry_behind h s e :
  persisted (apply_journal_entry (behind h s) e) = persisted (behind h (apply_journal_entry s e)).
Proof. unfold behind. cbn. by rewrite !app_assoc. Qed.

Lemma strip_synced s d :
  synced s d → synced (strip_transcript_for_remote_client s) (set_vectors [] [] [] [] d).
Proof. intros (Hi & Hc & _). repeat split; try done; by right. Qed.

Lemma unlines_snoc entries e :
  unlines (entry_json <$> (entries ++ [e])) = unlines (entry_json <$> entries) +:+ entry_json e +:+ nl.
Proof. rewrite fmap_app, unlines_app. f_equal. cbn. by rewrite str_app_nil_r. Qed.

(** A save that leaves a journal has appended to it, so that the hidden front is
    still stored; a snapshot has none. *)
Definition kept_hidden (h : Hidden) (path : string) (w : World) : Hidden :=
  if decide (is_Some (w_files w !! session_journal_path_from_snapshot path)) then h
  else nothing_hidden.

Lemma behind_kept_nothing path w s : behind (kept_hidden nothing_hidden path w) s = s.
Proof. unfold kept_hidden. case_decide; apply behind_nothing. Qed.

(** A save succeeds and the files hold the session. *)
Lemma save_ok base now suffix h s w :
  let path := session_path_in_dir base (se_id s) in
  reliable w → w_gcode_dir w = inl base →
  (ps_snapshot_exists (se_persist_state s) = true →
   ∃ b entries d, holds path b entries (w_files w) ∧ synced s d
     ∧ persisted (replayed b entries) = persisted (behind h d)) →
  ∃ s' w', save now suffix s w = (inl (), s', w') ∧ reliable w' ∧ w_gcode_dir w' = inl base
    ∧ se_id s' = se_id s
    ∧ s' = reset_persist_state true (se_set_updated_at now s)
    ∧ ∃ b entries, holds path b entries (w_files w')
                   ∧ persisted (replayed b entries) = persisted (behind (kept_hidden h path w') s').
Proof.
  cbn zeta. intros Hr Hg Hinv. unfold save. set (s1 := se_set_updated_at now s).
  assert (Hkeep : keeps s s1) by by apply keeps_same.
  assert (Hcheck : ∀ w1 t, reliable w1 → w_gcode_dir w1 = inl base →
    se_id t = se_id s → reset_persist_state true t = reset_persist_state true s1 →
    persisted t = persisted s1 → ∀ t0, ∃ s' w',
      keep_session t0 (checkpoint_snapshot suffix (session_path_in_dir base (se_id s))
        (session_journal_path_from_snapshot (session_path_in_dir base (se_id s))) t w1)
      = (inl (), s', w') ∧ reliable w' ∧ w_gcode_dir w' = inl base ∧ se_id s' = se_id s
      ∧ s' = reset_persist_state true s1
      ∧ ∃ b entries, holds (session_path_in_dir base (se_id s)) b entries (w_files w')
          ∧ persisted (replayed b entries)
            = persisted (behind (kept_hidden h (session_path_in_dir base (se_id s)) w') s')).
  { intros w1 t Hr1 Hg1 Hid Hreset Hpers t0.
    destruct (checkpoint_ok base (se_id s) suffix t w1 Hr1) as (s' & w' & E & Hr' & Hg' & -> & Hh & Hnone).
    rewrite E. exists (reset_persist_state true t), w'. split; [done|]. split; [done|].
    split; [congruence|]. split; [done|]. split; [done|]. exists t, []. split; [done|].
    unfold kept_hidden. rewrite Hnone, decide_False by by intros [].
    by rewrite behind_nothing. }
  unfold session_path, gcode_dir, io_bind. rewrite Hg. cbn [io_ret].
  change (se_id s1) with (se_id s).
  destruct (metadata_needs_snapshot s1 || vectors_need_snapshot s1) eqn:Hneed.
  { apply (Hcheck w s1); done. }
  apply orb_false_iff in Hneed as [_ Hv].
  assert (Hex : ps_snapshot_exists (se_persist_state s) = true).
  { unfold vectors_need_snapshot in Hv. cbn in Hv.
    by destruct (ps_snapshot_exists (se_persist_state s)). }
  destruct (Hinv Hex) as (b & entries & d & [Hp Hj] & Hsync & Hd).
  destruct Hkeep as (_ & _ & _ & Hk). specialize (Hk _ Hsync).
  pose proof (append_entry_persisted s1 _ Hk Hv) as Hpers.
  destruct (session_files_apart base (se_id s) suffix) as (_ & _ & _ & Hjp & _ & _).
  set (path := session_path_in_dir base (se_id s)) in *.
  set (journal := session_journal_path_from_snapshot path) in *.
  destruct (append_json_line_ok journal (entry_json (journal_entry s1)) (w_files w) w eq_refl Hr)
    as ([] & w1 & E & Hr1 & Hg1 & Hf1).
  rewrite E.
  destruct (MAX_SESSION_JOURNAL_BYTES <? file_len_or_zero journal w1)%Z.
  { apply Hcheck; try done. congruence. }
  eexists _, w1. split; [done|]. split; [done|]. split; [congruence|]. split; [done|].
  split; [done|]. exists b, (entries ++ [journal_entry s1]). split.
  - split; fold journal; rewrite Hf1.
    + by rewrite lookup_insert_ne.
    + rewrite lookup_insert_eq. cbn. by rewrite unlines_snoc, Hj.
  - unfold kept_hidden. fold journal. rewrite Hf1, lookup_insert_eq, decide_True by done.
    unfold replayed in *. rewrite foldl_app. cbn [foldl].
    rewrite (apply_entry_persisted _ _ _ Hd), apply_entry_behind. by apply behind_persisted.
Qed.

(** ** One load *)

Lemma unlines_empty ls : unlines ls = "" → ls = [].
Proof. destruct ls as [|l ls]; [done|]. rewrite unlines_cons. by destruct l. Qed.

Lemma replay_ok apply path b entries s w :
  reliable w → holds path b entries (w_files w) →
  replay_journal apply (session_journal_path_from_snapshot path) s w
  = (inl (foldl apply s entries), w).
Proof.
  intros Hr [_ Hj]. unfold replay_journal, io_bind, io_exists. unfold path_exists at 1.
  destruct (bool_decide (is_Some _) || _) eqn:E.
  - rewrite io_call_reliable by done. rewrite Hj, lines_entries, apply_entries_lines. done.
  - apply orb_false_iff in E as [E _]. apply bool_decide_eq_false, eq_None_not_Some in E.
    rewrite E in Hj. symmetry in Hj. apply unlines_empty, fmap_nil_inv in Hj as ->. done.
Qed.

Lemma load_ok base id b entries w :
  let path := session_path_in_dir base id in
  reliable w → w_gcode_dir w = inl base → holds path b entries (w_files w) →
  ∃ s', load id w = (inl s', w) ∧ persisted s' = persisted (replayed b entries)
        ∧ ps_snapshot_exists (se_persist_state s') = true
        ∧ synced s' (replayed b entries).
Proof.
  cbn zeta. intros Hr Hg Hh. unfold load, session_path, gcode_dir, load_from_path, read_json.
  unfold io_bind at 1 2. rewrite Hg. cbn [io_ret]. unfold read_to_string.
  unfold io_bind at 1 2. rewrite io_call_reliable by done.
  rewrite (proj1 Hh), session_utf8, parse_session_json. cbn [io_ret].
  unfold io_bind at 1. rewrite (replay_ok _ _ b entries) by done.
  unfold finalize_load, io_bind, io_exists, path_exists. rewrite (proj1 Hh).
  eexists. split; [reflexivity|]. split; [done|]. split; [done|]. apply synced_refl.
Qed.

Lemma load_missing base id w :
  reliable w → w_gcode_dir w = inl base → w_files w !! session_path_in_dir base id = None →
  load id w = (inr not_found, w).
Proof.
  intros Hr Hg Hn. unfold load, session_path, gcode_dir, load_from_path, read_json.
  unfold io_bind at 1 2. rewrite Hg. cbn [io_ret]. unfold read_to_string.
  unfold io_bind at 1 2. rewrite io_call_reliable by done. by rewrite Hn.
Qed.

(** ** Runs of operations, saves and loads *)

Inductive StoreStep :=
| Do (op : SessionOp)
| Save (now : datetime) (tmp_suffix : string)
| Reload
| Strip.

(** The session, the world, and what the specification knows of the files: the
    session as it was last saved, and the front that is stored before its
    vectors. A save copies the session there; a stripped session that is saved as
    a journal entry keeps its front. A load that fails leaves the session. [None]
    is a panic, or a session stripped before it was ever stored: only a session
    that was loaded is stripped (see [strip_before_save_is_lost]). *)
Definition store_step (step : StoreStep) (state : Session * World * option (Hidden * Session))
    : option (Session * World * option (Hidden * Session)) :=
  let '(s, w, saved) := state in
  match step with
  | Do op => (λ s, (s, w, saved)) <$> apply_op op s
  | Save now tmp_suffix =>
      match save now tmp_suffix s w with
      | (inl (), s, w) =>
          let hidden :=
            match session_path (se_id s) w with
            | (inl path, w) => kept_hidden (default nothing_hidden (fst <$> saved)) path w
            | (inr _, _) => nothing_hidden
            end in
          Some (s, w, Some (hidden, persisted s))
      | (inr _, s, w) => Some (s, w, saved)
      end
  | Reload =>
      match load (se_id s) w with
      | (inl s, w) => Some (s, w, (λ '(h, t), (nothing_hidden, persisted (behind h t))) <$> saved)
      | (inr _, w) => Some (s, w, saved)
      end
  | Strip =>
      '(h, t) ← saved;
      Some (strip_transcript_for_remote_client s, w, Some (hide h t, set_vectors [] [] [] [] t))
  end.

Fixpoint run_store (steps : list StoreStep) (state : Session * World * option (Hidden * Session))
    : option (Session * World * option (Hidden * Session)) :=
  match steps with
  | [] => Some state
  | step :: steps => store_step step state ≫= run_store steps
  end.

Definition store_inv (base id : string) (state : Session * World * option (Hidden * Session)) : Prop :=
  let '(s, w, saved) := state in
  reliable w ∧ w_gcode_dir w = inl base ∧ se_id s = id
  ∧ match saved with
    | None => ps_snapshot_exists (se_persist_state s) = false
              ∧ w_files w !! session_path_in_dir base id = None
    | Some (h, t) => ∃ b entries d, holds (session_path_in_dir base id) b entries (w_files w)
        ∧ synced s d ∧ persisted (replayed b entries) = persisted (behind h d) ∧ persisted d = t
    end.

Lemma store_inv_disk base id s w saved :
  store_inv base id (s, w, saved) →
  ps_snapshot_exists (se_persist_state s) = true →
  ∃ b entries d, holds (session_path_in_dir base (se_id s)) b entries (w_files w)
    ∧ synced s d
    ∧ persisted (replayed b entries) = persisted (behind (default nothing_hidden (fst <$> saved)) d).
Proof.
  intros (_ & _ & Hid & Hs) Hex. rewrite Hid. destruct saved as [[h t]|].
  - destruct Hs as (b & entries & d & Hh & Hsync & Hd & _). by exists b, entries, d.
  - destruct Hs as [Hf _]. congruence.
Qed.

Lemma do_inv base id op s s' w saved :
  apply_op op s = Some s' → store_inv base id (s, w, saved) → store_inv base id (s', w, saved).
Proof.
  intros Hop (Hr & Hg & Hid & Hs). apply apply_op_keeps in Hop as (Hid' & Hc' & Hex' & Hk).
  split; [done|]. split; [done|]. split; [congruence|]. destruct saved as [[h t]|].
  - destruct Hs as (b & entries & d & Hh & Hsync & Ht). exists b, entries, d. auto.
  - destruct Hs as [Hex Hf]. split; [congruence|done].
Qed.

Lemma save_inv base id now suffix s w saved state' :
  store_inv base id (s, w, saved) → store_step (Save now suffix) (s, w, saved) = Some state' →
  store_inv base id state'.
Proof.
  intros Hinv. pose proof Hinv as (Hr & Hg & Hid & Hs). cbn [store_step].
  destruct (save_ok base now suffix _ s w Hr Hg (store_inv_disk _ _ _ _ _ Hinv))
    as (s' & w' & E & Hr' & Hg' & Hid' & Hs' & b & entries & Hh & Hp).
  rewrite E. unfold session_path, gcode_dir, io_bind. rewrite Hg', Hid'. cbn [io_ret].
  rewrite Hid in *. intros [= <-]. split; [done|]. split; [done|]. split; [congruence|].
  exists b, entries, s'. split; [done|]. split; [|by split].
  rewrite Hs'. apply synced_persisted. done.
Qed.

Lemma reload_inv base id s w saved state' :
  store_inv base id (s, w, saved) → store_step Reload (s, w, saved) = Some state' →
  store_inv base id state'.
Proof.
  intros Hinv. pose proof Hinv as (Hr & Hg & Hid & Hs). cbn [store_step]. rewrite Hid.
  destruct saved as [[h t]|].
  - destruct Hs as (b & entries & d & Hh & Hsync & Hd & Ht).
    destruct (load_ok base id b entries w Hr Hg Hh) as (s' & E & Hp & Hex & Hsync').
    rewrite E. intros [= <-]. split; [done|]. split; [done|]. split.
    + apply persisted_fields in Hp as (-> & _). apply persisted_fields in Hd as (-> & _).
      cbn. rewrite <- Hid. by destruct Hsync as [-> _].
    + exists b, entries, (replayed b entries). rewrite behind_nothing.
      split_and!; [done..|]. rewrite Hd. apply behind_persisted. by rewrite <- Ht.
  - rewrite (load_missing base) by (done || apply Hs). by intros [= <-].
Qed.

Lemma strip_inv base id s w saved state' :
  store_inv base id (s, w, saved) → store_step Strip (s, w, saved) = Some state' →
  store_inv base id state'.
Proof.
  intros (Hr & Hg & Hid & Hs). cbn [store_step]. destruct saved as [[h t]|]; [|done].
  cbn [mbind option_bind]. intros [= <-]. destruct Hs as (b & entries & d & Hh & Hsync & Hd & <-).
  split_and!; [done..|]. exists b, entries, (set_vectors [] [] [] [] d).
  split_and!; [done|by apply strip_synced| |done].
  change (hide h (persisted d)) with (hide h d). by rewrite behind_hide.
Qed.

Lemma store_step_inv base id step state state' :
  store_inv base id state → store_step step state = Some state' → store_inv base id state'.
Proof.
  destruct state as [[s w] saved]. intros Hinv Hstep. destruct step as [op|now suffix| |].
  - cbn [store_step] in Hstep. apply fmap_Some in Hstep as (s' & Hop & ->). by eapply do_inv.
  - by eapply save_inv.
  - by eapply reload_inv.
  - by eapply strip_inv.
Qed.

Lemma run_store_inv base id steps : ∀ state state',
  store_inv base id state → run_store steps state = Some state' → store_inv base id state'.
Proof.
  induction steps as [|step steps IH]; intros state state' Hinv; cbn [run_store].
  { by intros [= <-]. }
  destruct (store_step step state) as [st|] eqn:E; [|done].
  apply (IH st), (store_step_inv _ _ step state); done.
Qed.

(** A session that was never stripped has no hidden front. *)
Lemma run_store_unstripped steps : ∀ s w saved s' w' h t,
  Strip ∉ steps → run_store steps (s, w, saved) = Some (s', w', Some (h, t)) →
  default nothing_hidden (fst <$> saved) = nothing_hidden → h = nothing_hidden.
Proof.
  induction steps as [|step steps IH]; intros s w saved s' w' h t Hns; cbn [run_store].
  { by intros [= -> -> ->]. }
  apply not_elem_of_cons in Hns as [Hne Hns]. intros Hrun Hh.
  destruct (store_step step (s, w, saved)) as [[[s1 w1] saved1]|] eqn:E; [|done].
  eapply IH; [done|exact Hrun|]. clear Hrun. destruct step as [op|now suffix| |]; [| | |done];
    cbn [store_step] in E.
  - apply fmap_Some in E as (? & _ & E). by injection E as _ _ ->.
  - destruct (save now suffix s w) as [[[[]|] s2] w2]; injection E as _ _ <-; [|done].
    cbn. rewrite Hh. unfold kept_hidden. by repeat case_match.
  - destruct (load (se_id s) w) as [[|] ?]; injection E as _ _ <-; [|done]. by destruct saved as [[]|].
Qed.

(** C21. Take a new session in a directory that has no file for it, and any
    sequence of operations, saves and loads, on a disk without failures. Every
    save succeeds; and once there was one, a load always succeeds, changes no
    file and gives back every stored field of the session as it was at the last
    save, whether that save wrote a snapshot, a journal entry, or both. Before
    the first save a load fails. Stripping a stored session for a remote client
    drops its vectors from memory only: as long as its saves append to the
    journal, a load gives them back in front of what was saved since; a snapshot
    of the stripped session replaces them. *)
Theorem saved_sessions_load base w0 now env id parent title short steps s w saved :
  reliable w0 → w_gcode_dir w0 = inl base →
  w_files w0 !! session_path_in_dir base id = None →
  run_store steps (new_session now env id parent title short, w0, None) = Some (s, w, saved) →
  (∀ now suffix, (save now suffix s w).1.1 = inl ())
  ∧ match saved with
    | Some (hidden, t) => ∃ s', load id w = (inl s', w) ∧ persisted s' = persisted (behind hidden t)
        ∧ (Strip ∉ steps → persisted s' = t)
    | None => load id w = (inr not_found, w)
    end.
Proof.
  intros Hr0 Hg0 Hf0 Hrun.
  assert (Hinv : store_inv base id (s, w, saved)).
  { eapply run_store_inv, Hrun. repeat split; done. }
  pose proof Hinv as (Hr & Hg & Hid & Hs). split.
  - intros now' suffix.
    destruct (save_ok base now' suffix _ s w Hr Hg (store_inv_disk _ _ _ _ _ Hinv))
      as (s' & w' & E & _).
    by rewrite E.
  - destruct saved as [[h t]|].
    + destruct Hs as (b & entries & d & Hh & Hsync & Hd & Ht).
      destruct (load_ok base id b entries w Hr Hg Hh) as (s' & E & Hp & _).
      exists s'. split; [done|]. rewrite Hp, Hd.
      assert (persisted (behind h d) = persisted (behind h t)) as Eb
        by (apply behind_persisted; by rewrite <- Ht).
      split; [done|]. intros Hstrip.
      assert (h = nothing_hidden) as -> by by eapply run_store_unstripped in Hrun.
      by rewrite behind_nothing.
    + apply (load_missing base); [done|done|]. apply Hs.
Qed.

(** ** Saves that fail *)

(** What is left of the files by a save, with the name of the snapshot, of the
    journal and of the backup: the snapshot is the old one, or a new one of the
    same session, or it is gone and its bytes are in the backup. *)
Definition snapshot_left (path : string) (s : Session) (f f' : gmap string string) : Prop :=
  f' !! path = f !! path
  ∨ (∃ t, persisted t = persisted s ∧ f' !! path = Some (session_json t))
  ∨ (f' !! path = None ∧ f' !! with_extension path "bak" = f !! path).

Lemma checkpoint_wp base id suffix s t (f : gmap string string) w :
  let path := session_path_in_dir base id in
  let journal := session_journal_path_from_snapshot path in
  persisted t = persisted s → w_files w !! path = f !! path →
  wp (checkpoint_snapshot suffix path journal t)
    (λ s' f', s' = reset_persist_state true t ∧ f' !! path = Some (session_json t))
    (snapshot_left path s f) w.
Proof.
  cbn zeta. intros Hp Hw. destruct (session_files_apart base id suffix) as (Htp & Hbp & Htb & Hjp & Hjt & Hjb).
  set (path := session_path_in_dir base id) in *.
  set (journal := session_journal_path_from_snapshot path) in *.
  apply (wp_seq (λ _ f', f' !! path = Some (session_json t))).
  { pose proof (write_bytes_inner_wp suffix path false Htp Hbp Htb (session_json t) (w_files w) w eq_refl) as Hb.
    unfold wp, write_json_fast in *. destruct (write_bytes_inner suffix path (session_json t) false w) as [[x|e] w']; [done|].
    unfold snapshot_left. rewrite <- Hw. destruct Hb as [Hb|[Hb1 Hb2]]; auto. }
  intros _ w1 Hw1. apply (wp_seq (λ _ f', f' = w_files w1)); [by apply wp_exists|].
  intros b w2 Hw2. apply (wp_seq (λ _ f', f' !! path = Some (session_json t))).
  { destruct b; [|apply wp_ret; by rewrite Hw2].
    apply wp_ignore, wp_remove; rewrite Hw2; [done|]. by rewrite lookup_delete_ne. }
  intros _ w3 Hw3. by apply wp_ret.
Qed.

(** What a load makes of the files, when no file call fails any more. *)
Definition files_load (base id : string) (s : Session) (f : gmap string string) : Prop :=
  ∀ v, reliable v → w_gcode_dir v = inl base → w_files v = f →
  ∃ s', load id v = (inl s', v) ∧ persisted s' = persisted s.

(** What a save that reports success has written: the whole session as the new
    snapshot, or a whole line after the journal that was there. *)
Definition save_written (base : string) (s s1 : Session) (f f' : gmap string string) : Prop :=
  let path := session_path_in_dir base (se_id s) in
  let journal := session_journal_path_from_snapshot path in
  (∃ t, persisted t = persisted s1 ∧ f' !! path = Some (session_json t)
        ∧ (f' !! journal = None → files_load base (se_id s) s1 f'))
  ∨ f' = <[journal := default "" (f !! journal) +:+ entry_json (journal_entry s1) +:+ nl]> f
    ∧ ∀ b entries, holds path b entries f → synced s (replayed b entries) →
      files_load base (se_id s) s1 f'.

Lemma held_loads base id b entries s f :
  holds (session_path_in_dir base id) b entries f → persisted (replayed b entries) = persisted s →
  files_load base id s f.
Proof.
  intros Hh Hp v Hr Hg Hf. rewrite <- Hf in Hh.
  destruct (load_ok base id b entries v Hr Hg Hh) as (s' & E & Hs' & _).
  exists s'. split; [done|congruence].
Qed.

Lemma snapshot_written base s s1 t f f' :
  persisted t = persisted s1 →
  f' !! session_path_in_dir base (se_id s) = Some (session_json t) →
  save_written base s s1 f f'.
Proof.
  intros Ht Hf. left. exists t. split; [done|]. split; [done|]. intros Hj.
  apply (held_loads _ _ t []); [|done]. split; [done|]. by rewrite Hj.
Qed.

Lemma entry_written base now s f f' :
  let s1 := se_set_updated_at now s in
  let journal := session_journal_path_from_snapshot (session_path_in_dir base (se_id s)) in
  vectors_need_snapshot s1 = false →
  f' = <[journal := default "" (f !! journal) +:+ entry_json (journal_entry s1) +:+ nl]> f →
  save_written base s s1 f f'.
Proof.
  cbn zeta. intros Hv Hf. right. split; [done|]. intros b entries [Hp Hj] Hsync.
  destruct (session_files_apart base (se_id s) "") as (_ & _ & _ & Hjp & _ & _).
  apply (held_loads _ _ b (entries ++ [journal_entry (se_set_updated_at now s)])).
  - subst f'. split; [by rewrite lookup_insert_ne|].
    rewrite lookup_insert_eq. cbn [default]. by rewrite unlines_snoc, <- Hj.
  - unfold replayed in *. rewrite foldl_app.
    exact (append_entry_persisted (se_set_updated_at now s) _ Hsync Hv).
Qed.

(** C22. Whatever fails during a save, and wherever the process stops in it: the
    session in memory keeps all its stored fields; the snapshot file is the old
    one, or a whole new one, or it is gone and its bytes are in the backup file.
    When the save reports success it has written the whole session as the new
    snapshot, which loads back to the session unless the old journal could not
    be removed; or it has appended a whole line to the journal, and a load gives
    the session if the files held an earlier state of it before. (See
    [stale_journal_is_applied_again] and [torn_line_loses_later_saves] for the
    two conditions.) *)
Theorem save_failures base now suffix s w :
  w_gcode_dir w = inl base →
  let path := session_path_in_dir base (se_id s) in
  let s1 := se_set_updated_at now s in
  let '(result, s', w') := save now suffix s w in
  persisted s' = persisted s1
  ∧ snapshot_left path s1 (w_files w) (w_files w')
  ∧ (result = inl () → save_written base s s1 (w_files w) (w_files w')).
Proof.
  intros Hg. cbn zeta. unfold save. set (s1 := se_set_updated_at now s).
  unfold session_path, gcode_dir, io_bind. rewrite Hg. cbn [io_ret].
  change (se_id s1) with (se_id s).
  destruct (session_files_apart base (se_id s) suffix) as (_ & _ & _ & Hjp & _ & _).
  set (path := session_path_in_dir base (se_id s)) in *.
  set (journal := session_journal_path_from_snapshot path) in *.
  assert (Hcheck : ∀ w1 t t0, persisted t = persisted s1 → persisted t0 = persisted s1 →
    w_files w1 !! path = w_files w !! path →
    let '(result, s', w') := keep_session t0 (checkpoint_snapshot suffix path journal t w1) in
    persisted s' = persisted s1 ∧ snapshot_left path s1 (w_files w) (w_files w')
    ∧ (result = inl () → save_written base s s1 (w_files w) (w_files w'))).
  { intros w1 t t0 Ht Ht0 Hw1.
    pose proof (checkpoint_wp base (se_id s) suffix s1 t (w_files w) w1 Ht Hw1) as Hc.
    fold path journal in Hc. unfold wp in Hc.
    destruct (checkpoint_snapshot suffix path journal t w1) as [[s'|e] w']; cbn [keep_session].
    - destruct Hc as [-> Hf]. split; [done|]. split; [|intros _; exact (snapshot_written base s s1 t _ _ Ht Hf)].
      right. left. eauto.
    - split; [done|]. split; [done|]. discriminate. }
  destruct (metadata_needs_snapshot s1 || vectors_need_snapshot s1) eqn:Hv; [by apply Hcheck|].
  apply orb_false_iff in Hv as [_ Hv].
  pose proof (append_json_line_wp journal (entry_json (journal_entry s1)) (w_files w) w eq_refl) as Ha.
  unfold wp in Ha.
  destruct (append_json_line_fast journal (entry_json (journal_entry s1)) w) as [[[]|e] w1].
  - destruct (MAX_SESSION_JOURNAL_BYTES <? file_len_or_zero journal w1)%Z.
    + apply Hcheck; [done|done|]. by rewrite Ha, lookup_insert_ne.
    + split; [done|]. split; [left; by rewrite Ha, lookup_insert_ne|].
      intros _. by apply entry_written.
  - apply Hcheck; [done|done|]. by apply Ha.
Qed.

(** ** Loading for a remote client *)

Lemma apply_remote_spec entries : ∀ s t,
  se_id s = se_id t → se_created_at s = se_created_at t → journal_meta s = journal_meta t →
  se_messages s = se_messages t →
  let s' := foldl apply_remote_entry s entries in
  let t' := foldl apply_journal_entry t entries in
  se_id s' = se_id t' ∧ se_created_at s' = se_created_at t' ∧ journal_meta s' = journal_meta t'
  ∧ se_messages s' = se_messages t'
  ∧ se_replay_events s' = se_replay_events s ++ concat (je_append_replay_events <$> entries).
Proof.
  induction entries as [|e entries IH]; intros s t Hi Hc Hm Hs; cbn [foldl fmap list_fmap concat].
  { rewrite app_nil_r. auto. }
  destruct (IH (apply_remote_entry s e) (apply_journal_entry t e)) as (Ha1 & Ha2 & Ha3 & Ha4 & Ha5);
    [done|done|done|cbn; by rewrite Hs|].
  rewrite Ha5. cbn. rewrite <- app_assoc. auto.
Qed.

(** The fast load for a remote client agrees with the full load on the
    identity, every metadata field and the whole transcript; it leaves out the
    snapshots and injections and keeps only the replay events of the journal. *)
Theorem remote_startup_agrees base id b entries now env w :
  reliable w → w_gcode_dir w = inl base →
  holds (session_path_in_dir base id) b entries (w_files w) →
  ∃ full remote, load id w = (inl full, w)
    ∧ load_for_remote_startup now env id w = (inl remote, w)
    ∧ se_id remote = se_id full ∧ se_created_at remote = se_created_at full
    ∧ journal_meta remote = journal_meta full ∧ se_messages remote = se_messages full
    ∧ se_env_snapshots remote = [] ∧ se_memory_injections remote = []
    ∧ se_replay_events remote = concat (je_append_replay_events <$> entries).
Proof.
  intros Hr Hg Hh. destruct (load_ok base id b entries w Hr Hg Hh) as (full & E & Hp & _).
  apply persisted_fields in Hp as (Hi & Hc & Hm & _ & _ & _ & Hmeta).
  unfold load_for_remote_startup, session_path, gcode_dir.
  unfold io_bind at 1 2. rewrite Hg. cbn [io_ret].
  unfold io_bind at 1. rewrite io_call_reliable by done. rewrite (proj1 Hh), parse_remote_json.
  unfold io_bind at 1. rewrite (replay_ok _ _ b entries) by done.
  unfold finalize_load, io_bind, io_exists, path_exists. rewrite (proj1 Hh).
  set (start := session_from_remote_startup_snapshot now env (stub_of b, se_messages b)).
  destruct (apply_remote_spec entries start (persisted b)) as (Ha1 & Ha2 & Ha3 & Ha4 & Ha5);
    [done|done|done|done|].
  eexists full, _. split; [done|]. split; [reflexivity|].
  cbn -[apply_remote_entry foldl start].
  rewrite Ha1, Ha2, Ha4, Ha5, Hi, Hc, Hm. split; [done|]. split; [done|].
  split; [|split; [done|]].
  { rewrite Hmeta. etrans; [|exact Ha3]. done. }
  assert (Hnone : ∀ es s, se_env_snapshots (foldl apply_remote_entry s es) = se_env_snapshots s
    ∧ se_memory_injections (foldl apply_remote_entry s es) = se_memory_injections s).
  { induction es as [|e es IH]; intros s; [done|]. cbn [foldl].
    destruct (IH (apply_remote_entry s e)) as [-> ->]. done. }
  destruct (Hnone entries start) as [-> ->]. done.
Qed.

(** The startup stub reads the snapshot alone, so it has the metadata of the
    last snapshot and not those of the journal. *)
Lemma startup_stub_ignores_journal base id b entries now env w :
  reliable w → w_gcode_dir w = inl base →
  holds (session_path_in_dir base id) b entries (w_files w) →
  ∃ stub, load_startup_stub now env id w = (inl stub, w)
    ∧ journal_meta stub = journal_meta b ∧ se_messages stub = [].
Proof.
  intros Hr Hg Hh. unfold load_startup_stub, session_path, gcode_dir.
  unfold io_bind at 1 2. rewrite Hg. cbn [io_ret].
  unfold io_bind at 1. rewrite io_call_reliable by done. rewrite (proj1 Hh), parse_stub_json.
  by eexists.
Qed.
End theorems.

(** * Saving and loading on concrete inputs

    The theorems about stored sessions on a concrete run, and what the calls
    that fail in the middle of a save can lead to. *)

#[local] Instance example_context : SessionContextText := λ _, "# Session Context".

Definition example_env : ProcessEnv :=
  {| pe_working_dir := Some "/work"; pe_test_session := false; pe_pid := 7 |}.

Definition example_world (faults : list Outcome) : World :=
  {| w_files := ∅; w_dirs := ∅; w_faults := faults; w_gcode_dir := inl "/g" |}.

Definition example_session : Session := create_with_id 1 example_env "session_fox_1" None None.

Definition say (id text : string) : SessionOp := OpAddMessage 2 id User [Text text None] None None None.

Definition example_steps : list StoreStep :=
  [Save 1 "7.1"; Do (say "m1" "hello"); Save 2 "7.2"; Do (OpSetModel (Some "large"));
   Do (say "m2" "again"); Reload; Do (say "m3" "more"); Save 3 "7.3";
   Do (OpTruncateMessages 1); Save 4 "7.4"; Do OpProviderMessages; Do (say "m4" "unsaved")].

(** The texts of the messages. *)
Definition texts (s : Session) : list string :=
  omap (λ b, match b with Text text _ => Some text | _ => None end)
    (concat (st_content <$> se_messages s)).

Definition run_texts (steps : list StoreStep) : option (list string * option (list string)) :=
  match run_store steps (example_session, example_world [], None) with
  | Some (s, _, saved) => Some (texts s, match saved with Some (_, t) => Some (texts t) | None => None end)
  | None => None
  end.

Lemma run_texts_example :
  run_texts example_steps = Some (["hello"; "unsaved"], Some ["hello"]).
Proof. vm_compute. reflexivity. Qed.

Lemma run_is_saved : ∃ s w h t,
  run_store example_steps (example_session, example_world [], None) = Some (s, w, Some (h, t))
  ∧ texts s = ["hello"; "unsaved"] ∧ texts t = ["hello"].
Proof.
  pose proof run_texts_example as Hs. unfold run_texts in Hs.
  destruct (run_store example_steps (example_session, example_world [], None))
    as [[[s w] [[h t]|]]|]; [|discriminate Hs..].
  exists s, w, h, t. by injection Hs as -> ->.
Qed.

Lemma saved_sessions_load_witness : ∃ s w h t,
  run_store example_steps (example_session, example_world [], None) = Some (s, w, Some (h, t))
  ∧ texts t = ["hello"]
  ∧ ∃ s', load "session_fox_1" w = (inl s', w) ∧ persisted s' = t.
Proof.
  destruct run_is_saved as (s & w & h & t & E & _ & Ht). exists s, w, h, t. split; [exact E|].
  split; [exact Ht|].
  destruct (saved_sessions_load "/g" (example_world []) 1 example_env "session_fox_1" None None
    (Some "fox") example_steps s w (Some (h, t)) eq_refl eq_refl eq_refl E)
    as [_ (s' & El & _ & Hp)].
  exists s'. split; [exact El|]. apply Hp. unfold example_steps.
  repeat (apply not_elem_of_cons; split; [discriminate|]). apply not_elem_of_nil.
Defined.

(** A stripped session: what is said afterwards is stored behind the transcript
    that is no longer in memory; but a change that asks for a snapshot, such as
    a truncation, stores the stripped session over it. *)
Definition loaded_texts (steps : list StoreStep) : option (list string) :=
  state ← run_store steps (example_session, example_world [], None);
  let '(s, w, _) := (state : Session * World * option (Hidden * Session)) in
  match load (se_id s) w with (inl s', _) => Some (texts s') | (inr _, _) => None end.

Example stripped_saves :
  loaded_texts [Do (say "m1" "hello"); Save 1 "7.1"; Strip; Do (say "m2" "again"); Save 2 "7.2"]
  = Some ["hello"; "again"]
  ∧ loaded_texts [Do (say "m1" "hello"); Save 1 "7.1"; Strip; Do (say "m2" "again");
                  Do (OpReplaceMessages []); Save 2 "7.2"] = Some [].
Proof. vm_compute. by split. Qed.

(** Stripping marks a session as stored. One that never was is then saved to a
    journal without a snapshot, and cannot be loaded. *)
Example strip_before_save_is_lost :
  let '(result, s, w) := save 2 "7.2" (strip_transcript_for_remote_client example_session)
                           (example_world []) in
  result = inl () ∧ (load (se_id s) w).1 = inr not_found.
Proof. vm_compute. by split. Qed.

Lemma provider_messages_witness : ∃ s,
  run_ops [say "m1" "a"; OpProviderMessages; say "m2" "b"; OpTruncateMessages 1; OpProviderMessages;
           say "m3" "c"] (create_with_id 1 example_env "session_fox_1" None None) = Some s
  ∧ length (se_provider_messages_cache s) = 1
  ∧ length (se_messages s) = 2
  ∧ (provider_messages s).1 = messages_for_provider_uncached s.
Proof.
  eexists. split; [reflexivity|]. split; [reflexivity|]. split; [reflexivity|].
  exact (proj1 (provider_messages_correct 1 example_env "session_fox_1" None None (Some "fox")
    [say "m1" "a"; OpProviderMessages; say "m2" "b"; OpTruncateMessages 1; OpProviderMessages;
     say "m3" "c"] _ eq_refl)).
Defined.

Lemma stored_profile_witness : ∃ s,
  run_ops [say "m1" "a"; OpMemoryProfile; say "m2" "bcd"]
    (create_with_id 1 example_env "session_fox_1" None None) = Some s
  ∧ sn_message_count (memory_profile_snapshot s).1 = length (se_messages s)
  ∧ sn_payload_text_bytes (memory_profile_snapshot s).1 = 4.
Proof.
  eexists. split; [reflexivity|]. split; [|vm_compute; reflexivity].
  exact (proj1 (stored_profile_correct 1 example_env "session_fox_1" None None (Some "fox")
    [say "m1" "a"; OpMemoryProfile; say "m2" "bcd"] _ eq_refl)).
Defined.

Definition user_message (text : string) : Message :=
  {| msg_role := User; msg_content := [Text text None]; msg_timestamp := None;
     msg_tool_duration_ms := None |}.

Lemma tracker_witness :
  (Z.of_nat (length [[user_message "a"; user_message "b"]; [user_message "c"]]) < 2 ^ 32 - 1)%Z
  ∧ (λ v, bool_decide (is_Some v))
      <$> (record_requests [[user_message "a"]; [user_message "a"; user_message "b"];
                            [user_message "c"]] tracker_new).1
    = [false; false; true].
Proof.
  split; [done|].
  rewrite (proj1 (tracker_correct [user_message "a"]
    [[user_message "a"; user_message "b"]; [user_message "c"]] tracker_new eq_refl)).
  vm_compute. reflexivity.
Defined.

(** ** Saves interrupted in the middle *)

(** The session after a number of saves, each with its failures, and what a
    load then gives. *)
Definition after_saves (saves : list (list SessionOp * list Outcome))
    : option (list bool * list string * option (list string * option string)) :=
  let fix go saves s w results :=
    match saves with
    | [] =>
        match load (se_id s) (set_faults [] w) with
        | (inl s', _) => Some (rev results, texts s, Some (texts s', se_title s'))
        | (inr _, _) => Some (rev results, texts s, None)
        end
    | (ops, faults) :: rest =>
        match run_ops ops s with
        | Some s =>
            let '(result, s, w) := save 9 "7.9" s (set_faults faults w) in
            go rest s w (match result with inl _ => true | inr _ => false end :: results)
        | None => None
        end
    end in
  go saves example_session (example_world []) [].

(** An append stops after a part of its line and the snapshot that should
    replace it fails too. Later saves append after the torn line and report
    success, but a load stops at that line. *)
Lemma torn_line_loses_later_saves :
  after_saves [([], []);
               ([say "m1" "one"], [Succeeds; Breaks 5; Breaks 0]);
               ([say "m2" "two"], [])]
  = Some ([true; false; true], ["one"; "two"], Some ([], None)).
Proof. vm_compute. reflexivity. Qed.

(** A snapshot is written but its journal is not removed. The save reports
    success; a load applies the journal to the new snapshot, which doubles its
    messages and brings the old title back. *)
Lemma stale_journal_is_applied_again :
  after_saves [([], []);
               ([say "m1" "one"], []);
               ([OpRenameTitle 3 (Some "new")],
                [Succeeds; Succeeds; Succeeds; Succeeds; Breaks 0])]
  = Some ([true; true; true], ["one"], Some (["one"; "one"], None)).
Proof. vm_compute. reflexivity. Qed.

(** A process that stops between the two renames of a snapshot leaves the
    session only in the backup, which a load does not look at. *)
Lemma stop_between_renames_loses_session :
  after_saves [([], []);
               ([OpRenameTitle 3 (Some "new")],
                [Succeeds; Succeeds; Succeeds; Breaks 0; Breaks 0])]
  = Some ([true; false], [], None).
Proof. vm_compute. reflexivity. Qed.

Lemma save_failures_witness :
  let w := example_world [Succeeds; Breaks 0] in
  let '(result, s', w') := save 9 "7.9" example_session w in
  w_gcode_dir w = inl "/g"
  ∧ persisted s' = persisted (se_set_updated_at 9 example_session)
  ∧ snapshot_left (session_path_in_dir "/g" "session_fox_1")
      (se_set_updated_at 9 example_session) (w_files w) (w_files w').
Proof.
  pose proof (save_failures "/g" 9 "7.9" example_session (example_world [Succeeds; Breaks 0])
    eq_refl) as Hs.
  cbn zeta. destruct (save 9 "7.9" example_session (example_world [Succeeds; Breaks 0]))
    as [[result s'] w'].
  split; [reflexivity|]. exact (conj (proj1 Hs) (proj1 (proj2 Hs))).
Defined.

(** The world of one snapshot without a journal. *)
Definition saved_world : World :=
  set_files {[session_path_in_dir "/g" "session_fox_1" := session_json example_session]}
    (example_world []).

Lemma remote_startup_witness : ∃ full remote,
  load "session_fox_1" saved_world = (inl full, saved_world)
  ∧ load_for_remote_startup 5 example_env "session_fox_1" saved_world = (inl remote, saved_world)
  ∧ journal_meta remote = journal_meta full.
Proof.
  assert (Hh : holds (session_path_in_dir "/g" "session_fox_1") example_session [] (w_files saved_world)).
  { split; [apply lookup_insert_eq|]. vm_compute. reflexivity. }
  destruct (remote_startup_agrees "/g" "session_fox_1" example_session [] 5 example_env saved_world
    eq_refl eq_refl Hh) as (full & remote & Hl & Hr & _ & _ & Hm & _).
  exists full, remote. exact (conj Hl (conj Hr Hm)).
Defined.

(** The search for the session of a process gives up at a file that is not a
    number, although a later one names the process. *)
Lemma find_pid_stops_at_garbage :
  find_pid 7 [("a", "garbage"); ("b", "7")] = None ∧ find_pid 7 [("b", "7")] = Some "b".
Proof. split; reflexivity. Qed.
