(* ===== verification/SessionRender.v ===== *)
(** * Showing a stored session ([src/session/render.rs])

    The messages and images that a front end shows for a session: text and tool
    results in order, each result with the call it answers, and a notice in
    place of the compacted history that is hidden. Also the summary of the last
    tool calls. *)

From S2P Require Import Prelude Utf8 Text FileTools Messages SessionTypes SessionProfile SessionState SessionOps.
Open Scope nat_scope.

(** What is read of a JSON value: a string field of an object, and [null]. *)
Class JsonFields `{Json} := {
  json_get_str : string → json → option string;
  json_null : json;
}.

Definition DEFAULT_VISIBLE_COMPACTED_HISTORY_MESSAGES : usize := 64.

Record RenderedCompactedHistoryInfo := {
  ci_total_messages : usize;
  ci_visible_messages : usize;
  ci_remaining_messages : usize;
}.

Inductive RenderedImageSource :=
| SourceUserInput
| SourceToolResult (tool_name : string)
| SourceOther (role : string).

Record RenderedImage := {
  ri_media_type : string;
  ri_data : string;
  ri_label : option string;
  ri_source : RenderedImageSource;
}.

Definition ri_set_label (label : option string) (i : RenderedImage) : RenderedImage :=
  {| ri_media_type := ri_media_type i; ri_data := ri_data i; ri_label := label;
     ri_source := ri_source i |}.

Section render.
Context `{JsonFields}.

Record ToolCall := {
  tc_id : string;
  tc_name : string;
  tc_input : json;
  tc_intent : option string;
}.

Record RenderedMessage := {
  rm_role : string;
  rm_content : string;
  rm_tool_calls : list string;
  rm_tool_data : option ToolCall;
}.

(** [.map(str::trim).filter(|value| !value.is_empty())] *)
Definition trimmed_field (value : option string) : option string :=
  value ≫= λ value, let value := trim value in if value =s "" then None else Some value.

Definition intent_from_input (input : json) : option string :=
  trimmed_field (json_get_str "intent" input).

Definition image_source_for_message (role : Role) (tool : option ToolCall) : RenderedImageSource :=
  match tool with
  | Some tool => SourceToolResult (tc_name tool)
  | None => match role with User => SourceUserInput | Assistant => SourceOther "assistant" end
  end.

Definition fallback_image_label_for_tool (tool : ToolCall) : option string :=
  trimmed_field (json_get_str "file_path" (tc_input tool)).

(** [strip_suffix("]")] *)
Definition strip_bracket (s : string) : option string :=
  let n := String.length s in
  if (0 <? n) && (str_drop (n - 1) s =s "]") then Some (str_take (n - 1) s) else None.

Definition parse_attached_image_label (text : string) : option string :=
  trimmed_field
    (strip_prefix "[Attached image associated with the preceding tool result: " (trim text)
     ≫= strip_bracket).

Definition is_image (block : ContentBlock) : bool :=
  match block with Image _ _ => true | _ => false end.

Definition has_rendered_images (session : Session) : bool :=
  existsb (λ msg, existsb is_image (st_content msg)) (se_messages session).

(** ** The last tool calls *)

Record ToolCallSummary := {
  ts_tool_name : string;
  ts_brief_output : string;
  ts_timestamp_secs : option u64;
}.

(** Times are nanoseconds since 1970. *)
Definition timestamp_secs (ts : datetime) : u64 := Z.max 0 (ts / 1000000000).

Definition summary_text (block : ContentBlock) : option string :=
  match block with
  | Text text _ => Some text
  | OpenAICompaction _ => Some "[OpenAI native compaction]"
  | _ => None
  end.

(** The loop over the blocks of one message. *)
Definition summarize_block (limit : usize) (msg : StoredMessage) (text_summary : string)
    (calls : list ToolCallSummary) (block : ContentBlock) : list ToolCallSummary :=
  if limit <=? length calls then calls
  else match block with
       | ToolUse _ name input =>
           let brief := if trim text_summary =s "" then truncate_str (json_to_string input) 200
                        else truncate_str text_summary 200 in
           calls ++ [{| ts_tool_name := name; ts_brief_output := brief;
                        ts_timestamp_secs := timestamp_secs <$> st_timestamp msg |}]
       | _ => calls
       end.

Definition summarize_message (limit : usize) (calls : list ToolCallSummary) (msg : StoredMessage)
    : list ToolCallSummary :=
  if limit <=? length calls then calls
  else
    let text_summary := join nl (omap summary_text (st_content msg)) in
    foldl (summarize_block limit msg text_summary) calls (st_content msg).

Definition summarize_tool_calls (session : Session) (limit : usize) : list ToolCallSummary :=
  reverse (foldl (summarize_message limit) [] (reverse (se_messages session))).

(** ** Messages and images *)

(** What the loops build: the messages, the images and the calls seen so far;
    then, within a message, its text, its tool names, the tool of the last
    result and the last image. *)
Record RenderState := {
  rs_rendered : list RenderedMessage;
  rs_images : list RenderedImage;
  rs_tool_map : gmap string ToolCall;
}.

Record BlockState := {
  bs_out : RenderState;
  bs_text : string;
  bs_tool_calls : list string;
  bs_current_tool : option ToolCall;
  bs_last_image_idx : option usize;
}.

Definition push_rendered (m : RenderedMessage) (r : RenderState) : RenderState :=
  {| rs_rendered := rs_rendered r ++ [m]; rs_images := rs_images r; rs_tool_map := rs_tool_map r |}.

Definition set_images (images : list RenderedImage) (r : RenderState) : RenderState :=
  {| rs_rendered := rs_rendered r; rs_images := images; rs_tool_map := rs_tool_map r |}.

Definition insert_tool (id : string) (tool : ToolCall) (r : RenderState) : RenderState :=
  {| rs_rendered := rs_rendered r; rs_images := rs_images r;
     rs_tool_map := <[id := tool]> (rs_tool_map r) |}.

(** [if !text.is_empty() { rendered.push(..) }] *)
Definition flush_text (role text : string) (tool_calls : list string) (r : RenderState)
    : RenderState :=
  if text =s "" then r
  else push_rendered {| rm_role := role; rm_content := text; rm_tool_calls := tool_calls;
                        rm_tool_data := None |} r.

Definition unknown_tool (id : string) : ToolCall :=
  {| tc_id := id; tc_name := "tool"; tc_input := json_null; tc_intent := None |}.

Definition label_last_image (t : string) (last_image_idx : option usize) (r : RenderState)
    : RenderState :=
  match parse_attached_image_label t, last_image_idx with
  | Some label, Some last_idx =>
      set_images (alter (ri_set_label (Some label)) last_idx (rs_images r)) r
  | _, _ => r
  end.

Definition render_block (role : string) (message_role : Role) (b : BlockState)
    (block : ContentBlock) : BlockState :=
  match block with
  | Text t _ =>
      {| bs_out := label_last_image t (bs_last_image_idx b) (bs_out b); bs_text := bs_text b +:+ t;
         bs_tool_calls := bs_tool_calls b; bs_current_tool := bs_current_tool b;
         bs_last_image_idx := bs_last_image_idx b |}
  | ToolUse id name input =>
      let tool_call := {| tc_id := id; tc_name := name; tc_input := input;
                          tc_intent := intent_from_input input |} in
      {| bs_out := insert_tool id tool_call (bs_out b); bs_text := bs_text b;
         bs_tool_calls := bs_tool_calls b ++ [name]; bs_current_tool := bs_current_tool b;
         bs_last_image_idx := bs_last_image_idx b |}
  | ToolResult tool_use_id content _ =>
      let out := flush_text role (bs_text b) (bs_tool_calls b) (bs_out b) in
      let tool_data :=
        Some (default (unknown_tool tool_use_id) (rs_tool_map out !! tool_use_id)) in
      {| bs_out := push_rendered {| rm_role := "tool"; rm_content := content;
                                    rm_tool_calls := []; rm_tool_data := tool_data |} out;
         bs_text := ""; bs_tool_calls := bs_tool_calls b; bs_current_tool := tool_data;
         bs_last_image_idx := bs_last_image_idx b |}
  | Image media_type data =>
      let image := {|
        ri_media_type := media_type; ri_data := data;
        ri_label := bs_current_tool b ≫= fallback_image_label_for_tool;
        ri_source := image_source_for_message message_role (bs_current_tool b) |} in
      let images := rs_images (bs_out b) ++ [image] in
      {| bs_out := set_images images (bs_out b); bs_text := bs_text b;
         bs_tool_calls := bs_tool_calls b; bs_current_tool := bs_current_tool b;
         bs_last_image_idx := Some (length images - 1) |}
  | Reasoning _ | OpenAICompaction _ => b
  end.

Definition rendered_role (msg : StoredMessage) : string :=
  match st_display_role msg with
  | Some DisplaySystem => "system"
  | Some DisplayBackgroundTask => "background_task"
  | None => match st_role msg with User => "user" | Assistant => "assistant" end
  end.

Definition render_message (r : RenderState) (msg : StoredMessage) : RenderState :=
  if is_internal_system_reminder_message msg then r
  else
    let role := rendered_role msg in
    let b := foldl (render_block role (st_role msg))
      {| bs_out := r; bs_text := ""; bs_tool_calls := []; bs_current_tool := None;
         bs_last_image_idx := None |} (st_content msg) in
    flush_text role (bs_text b) (bs_tool_calls b) (bs_out b).

Definition compacted_notice (compacted_count visible_compacted remaining_compacted : usize)
    : string :=
  "Earlier conversation compacted — " +:+
  (if remaining_compacted =? 0 then
     "showing all " +:+ pretty compacted_count +:+
     " compacted historical messages. Redraw may be slower while this view is open."
   else if visible_compacted =? 0 then
     pretty compacted_count +:+
     " historical messages hidden from the UI. Scroll to the top to load older history."
   else
     pretty remaining_compacted +:+ " older historical messages hidden. Showing "
     +:+ pretty visible_compacted +:+ " of " +:+ pretty compacted_count
     +:+ " compacted messages. Scroll to the top to load more.").

Definition compacted_count (session : Session) : usize :=
  match se_compaction session with
  | Some state => sc_compacted_count state `min` length (se_messages session)
  | None => 0
  end.

Definition render_messages_and_images_with_compacted_history (session : Session)
    (compacted_history_visible : usize)
    : list RenderedMessage * list RenderedImage * option RenderedCompactedHistoryInfo :=
  let compacted_count := compacted_count session in
  let visible_compacted := compacted_history_visible `min` compacted_count in
  let render_start_idx := compacted_count - visible_compacted in
  let remaining_compacted := render_start_idx in
  let compacted_info :=
    if 0 <? compacted_count then
      Some {| ci_total_messages := compacted_count; ci_visible_messages := visible_compacted;
              ci_remaining_messages := remaining_compacted |}
    else None in
  let notice :=
    if 0 <? compacted_count then
      [{| rm_role := "system";
          rm_content := compacted_notice compacted_count visible_compacted remaining_compacted;
          rm_tool_calls := []; rm_tool_data := None |}]
    else [] in
  let r := foldl render_message
    {| rs_rendered := notice; rs_images := []; rs_tool_map := ∅ |}
    (drop render_start_idx (se_messages session)) in
  (rs_rendered r, rs_images r, compacted_info).

Definition render_messages_and_images (session : Session)
    : list RenderedMessage * list RenderedImage :=
  (render_messages_and_images_with_compacted_history session
    DEFAULT_VISIBLE_COMPACTED_HISTORY_MESSAGES).1.

Definition render_messages (session : Session) : list RenderedMessage :=
  (render_messages_and_images session).1.

Definition render_images (session : Session) : list RenderedImage :=
  (render_messages_and_images session).2.

(** ** What is shown *)

(** The blocks that are rendered, in order. *)
Definition shown_blocks (messages : list StoredMessage) : list ContentBlock :=
  concat (st_content <$> List.filter (λ m, negb (is_internal_system_reminder_message m)) messages).

(** The text of a block that appears on the screen. *)
Definition shown_text (block : ContentBlock) : string :=
  match block with Text t _ => t | ToolResult _ content _ => content | _ => "" end.

Definition image_of (block : ContentBlock) : option (string * string) :=
  match block with Image media_type data => Some (media_type, data) | _ => None end.

(** The last call with an identifier among some blocks. *)
Definition find_call (id : string) (blocks : list ContentBlock) : option ToolCall :=
  foldl (λ found block, match block with
    | ToolUse id' name input =>
        if id' =s id then Some {| tc_id := id'; tc_name := name; tc_input := input;
                                  tc_intent := intent_from_input input |} else found
    | _ => found end) None blocks.

(** The results among some blocks, with the calls they answer. *)
Fixpoint results_after (before blocks : list ContentBlock) : list (string * ToolCall) :=
  match blocks with
  | [] => []
  | block :: rest =>
      match block with
      | ToolResult id content _ => [(content, default (unknown_tool id) (find_call id before))]
      | _ => []
      end ++ results_after (before ++ [block]) rest
  end.

Definition tool_results (rendered : list RenderedMessage) : list (string * ToolCall) :=
  omap (λ m, pair (rm_content m) <$> rm_tool_data m) rendered.

(** The state after some blocks: everything but the text that waits is out. *)
Definition renders (notice : list RenderedMessage) (blocks : list ContentBlock) (waiting : string)
    (r : RenderState) : Prop :=
  (∃ shown, rs_rendered r = notice ++ shown
    ∧ str_concat (rm_content <$> shown) +:+ waiting = str_concat (shown_text <$> blocks)
    ∧ tool_results shown = results_after [] blocks)
  ∧ ((λ i, (ri_media_type i, ri_data i)) <$> rs_images r) = omap image_of blocks
  ∧ ∀ id, rs_tool_map r !! id = find_call id blocks.

Lemma results_after_app before blocks1 blocks2 :
  results_after before (blocks1 ++ blocks2)
  = results_after before blocks1 ++ results_after (before ++ blocks1) blocks2.
Proof.
  revert before. induction blocks1 as [|b bs IH]; intros before; cbn.
  - by rewrite app_nil_r.
  - rewrite IH. rewrite <- !app_assoc. done.
Qed.

Lemma find_call_snoc id blocks b :
  find_call id (blocks ++ [b])
  = match b with
    | ToolUse id' name input =>
        if id' =s id then Some {| tc_id := id'; tc_name := name; tc_input := input;
                                  tc_intent := intent_from_input input |}
        else find_call id blocks
    | _ => find_call id blocks
    end.
Proof. unfold find_call. by rewrite foldl_snoc. Qed.

Lemma flush_renders notice blocks waiting role calls r :
  renders notice blocks waiting r → renders notice blocks "" (flush_text role waiting calls r).
Proof.
  intros ((shown & Hr & Ht & Hres) & Hi & Hm). unfold flush_text.
  destruct (String.eqb_spec waiting "") as [->|Hw].
  - split; [|done]. by exists shown.
  - split; [|done]. eexists (shown ++ [_]). cbn. split; [by rewrite Hr, <- app_assoc|]. split.
    + rewrite fmap_app, str_concat_app. cbn. by rewrite !str_app_nil_r.
    + unfold tool_results in *. rewrite omap_app. cbn. by rewrite app_nil_r.
Qed.

Lemma label_images t idx r :
  ((λ i, (ri_media_type i, ri_data i)) <$> rs_images (label_last_image t idx r))
  = ((λ i, (ri_media_type i, ri_data i)) <$> rs_images r)
  ∧ rs_rendered (label_last_image t idx r) = rs_rendered r
  ∧ rs_tool_map (label_last_image t idx r) = rs_tool_map r.
Proof.
  unfold label_last_image. destruct (parse_attached_image_label t), idx as [idx|]; [|done..].
  cbn. split; [|done]. apply list_eq. intros j. rewrite !list_lookup_fmap.
  destruct (decide (j = idx)) as [->|Hne].
  - rewrite list_lookup_alter_eq. by destruct (rs_images r !! idx).
  - by rewrite list_lookup_alter_ne.
Qed.

Lemma render_block_renders notice blocks role mrole b block :
  renders notice blocks (bs_text b) (bs_out b) →
  let b' := render_block role mrole b block in
  renders notice (blocks ++ [block]) (bs_text b') (bs_out b').
Proof.
  intros Hren. destruct block as [t cc|t|id name input|id content err|mt data|ec];
    cbn [render_block bs_text bs_out].
  - destruct Hren as ((shown & Hr & Ht & Hres) & Hi & Hm).
    destruct (label_images t (bs_last_image_idx b) (bs_out b)) as (Hli & Hlr & Hlm).
    split; [|split].
    + exists shown. rewrite Hlr. split; [done|]. split.
      * rewrite fmap_app, str_concat_app, <- Ht, <- str_app_assoc. cbn. by rewrite str_app_nil_r.
      * by rewrite results_after_app, Hres, app_nil_r.
    + rewrite Hli, omap_app, Hi. cbn. by rewrite app_nil_r.
    + intros id. by rewrite Hlm, find_call_snoc.
  - destruct Hren as ((shown & Hr & Ht & Hres) & Hi & Hm). split; [|split].
    + exists shown. rewrite fmap_app, str_concat_app, results_after_app, <- Ht, Hres. cbn.
      by rewrite str_app_nil_r, app_nil_r.
    + rewrite omap_app, Hi. cbn. by rewrite app_nil_r.
    + intros id. by rewrite find_call_snoc.
  - destruct Hren as ((shown & Hr & Ht & Hres) & Hi & Hm). split; [|split].
    + exists shown. rewrite fmap_app, str_concat_app, results_after_app, <- Ht, Hres. cbn.
      by rewrite str_app_nil_r, app_nil_r.
    + rewrite omap_app. cbn. by rewrite Hi, app_nil_r.
    + intros id'. rewrite find_call_snoc. cbn.
      destruct (String.eqb_spec id id') as [->|Hne];
        [by rewrite lookup_insert_eq|by rewrite lookup_insert_ne].
  - destruct (flush_renders _ _ _ role (bs_tool_calls b) _ Hren)
      as ((shown & Hr & Ht & Hres) & Hi & Hm). rewrite str_app_nil_r in Ht.
    split; [|split].
    + eexists (shown ++ [_]). cbn. split; [by rewrite Hr, <- app_assoc|]. split.
      * rewrite !fmap_app, !str_concat_app, <- Ht. cbn. by rewrite !str_app_nil_r.
      * unfold tool_results in *. rewrite omap_app, Hres, results_after_app. cbn.
        by rewrite Hm.
    + rewrite omap_app. cbn. by rewrite Hi, app_nil_r.
    + intros id'. by rewrite find_call_snoc, <- Hm.
  - destruct Hren as ((shown & Hr & Ht & Hres) & Hi & Hm). split; [|split].
    + exists shown. rewrite fmap_app, str_concat_app, results_after_app, <- Ht, Hres. cbn.
      by rewrite str_app_nil_r, app_nil_r.
    + cbn. rewrite fmap_app, omap_app, Hi. done.
    + intros id. by rewrite find_call_snoc.
  - destruct Hren as ((shown & Hr & Ht & Hres) & Hi & Hm). split; [|split].
    + exists shown. rewrite fmap_app, str_concat_app, results_after_app, <- Ht, Hres. cbn.
      by rewrite str_app_nil_r, app_nil_r.
    + rewrite omap_app, Hi. cbn. by rewrite app_nil_r.
    + intros id. by rewrite find_call_snoc.
Qed.

Lemma render_blocks_renders notice role mrole content : ∀ blocks b,
  renders notice blocks (bs_text b) (bs_out b) →
  let b' := foldl (render_block role mrole) b content in
  renders notice (blocks ++ content) (bs_text b') (bs_out b').
Proof.
  induction content as [|block content IH]; intros blocks b Hren; cbn.
  - by rewrite app_nil_r.
  - rewrite cons_middle, app_assoc. apply IH, render_block_renders, Hren.
Qed.

Lemma render_messages_renders notice messages : ∀ blocks r,
  renders notice blocks "" r →
  renders notice (blocks ++ shown_blocks messages) "" (foldl render_message r messages).
Proof.
  induction messages as [|m messages IH]; intros blocks r Hren; cbn [foldl].
  { cbn. by rewrite app_nil_r. }
  unfold shown_blocks. cbn [List.filter]. unfold render_message at 2.
  destruct (is_internal_system_reminder_message m); cbn [negb]; [by apply IH|].
  cbn [fmap list_fmap concat]. rewrite app_assoc. apply IH, flush_renders.
  by apply (render_blocks_renders notice (rendered_role m) (st_role m) (st_content m) blocks
    {| bs_out := r; bs_text := ""; bs_tool_calls := []; bs_current_tool := None;
       bs_last_image_idx := None |}).
Qed.

(** C25. What is shown of a session, with at most [visible] messages of its
    compacted history: behind the notice, which is there exactly when something
    was compacted, the texts and tool results of the messages that are not
    reminders, all of them, once and in order; every tool result with the last
    call shown before it that has its identifier, or a placeholder; and every
    image of these messages in order. The counts of the notice add up. *)
Theorem render_correct session visible :
  let '(rendered, images, info) :=
    render_messages_and_images_with_compacted_history session visible in
  let start := compacted_count session - visible in
  let blocks := shown_blocks (drop start (se_messages session)) in
  (∃ notice shown, rendered = notice ++ shown
    ∧ length notice = (if decide (info = None) then 0 else 1)
    ∧ str_concat (rm_content <$> shown) = str_concat (shown_text <$> blocks)
    ∧ tool_results shown = results_after [] blocks)
  ∧ ((λ i, (ri_media_type i, ri_data i)) <$> images) = omap image_of blocks
  ∧ (info = None ↔ compacted_count session = 0)
  ∧ ∀ i, info = Some i →
      ci_visible_messages i + ci_remaining_messages i = ci_total_messages i
      ∧ ci_remaining_messages i = start ∧ ci_total_messages i ≤ length (se_messages session).
Proof.
  unfold render_messages_and_images_with_compacted_history.
  set (n := compacted_count session).
  assert (Hn : n ≤ length (se_messages session)).
  { subst n. unfold compacted_count. case_match; lia. }
  replace (n - visible `min` n) with (n - visible) by lia.
  set (notice := if 0 <? n then _ else _).
  destruct (render_messages_renders notice (drop (n - visible) (se_messages session)) []
    {| rs_rendered := notice; rs_images := []; rs_tool_map := ∅ |})
    as ((shown & Hr & Ht & Hres) & Hi & _).
  { split; [|split]; [|done|by intros id]. exists []. by rewrite app_nil_r. }
  rewrite str_app_nil_r in Ht. cbn [app] in Ht, Hres, Hi.
  subst notice. destruct (Nat.ltb_spec 0 n).
  - split; [eexists _, shown; split; [exact Hr|done]|]. split; [done|].
    split; [split; [done|lia]|]. intros i [= <-]. cbn. repeat split; lia.
  - split; [exists [], shown; split; [exact Hr|done]|]. split; [done|].
    split; [split; [lia|done]|]. intros i [=].
Qed.
End render.

#[export] Instance json_text_fields : JsonFields :=
  {| json_get_str key s := Some s; json_null := "null" |}.

(** The calls of one message come out in the opposite order. *)
Example summaries_reverse_one_message :
  ts_tool_name <$> summarize_tool_calls
    (se_set_messages
      [{| st_id := "1"; st_role := Assistant;
          st_content := [ToolUse "a" "read" "{}"; ToolUse "b" "edit" "{}"]; st_display_role := None;
          st_timestamp := None; st_tool_duration_ms := None; st_token_usage := None |};
       {| st_id := "2"; st_role := Assistant; st_content := [ToolUse "c" "bash" "{}"];
          st_display_role := None; st_timestamp := None; st_tool_duration_ms := None;
          st_token_usage := None |}]
      (create_with_id 0
        {| pe_working_dir := None; pe_test_session := false;
           pe_pid := 1 |} "s" None None)) 10
  = ["edit"; "read"; "bash"].
Proof. reflexivity. Qed.
