(* ===== verification/SessionSearch.v ===== *)
(** * Searching sessions ([crates/gcode-session-types/src/lib.rs])

    The profile of a query, the tests and the score of a text against it, the
    snippet around a match, and the texts of the results. *)

From S2P Require Import Prelude Utf8 Text F32 Messages Compaction TextCursor CompactionTheorems.
Open Scope nat_scope.

(** ** The query *)

Record SessionSearchQueryProfile := {
  qp_normalized : string;
  qp_terms : list string;
  qp_min_term_matches : usize;
}.

Definition is_session_search_stop_word (token : string) : bool :=
  str_in token
    ["a"; "an"; "and"; "are"; "as"; "at"; "be"; "but"; "by"; "for"; "from"; "how"; "i"; "in";
     "into"; "is"; "it"; "my"; "of"; "on"; "or"; "our"; "that"; "the"; "their"; "this"; "to";
     "we"; "what"; "when"; "where"; "which"; "with"; "you"; "your"].

Definition minimum_session_search_term_matches (term_count : usize) : usize :=
  match term_count with 0 => 0 | 1 => 1 | 2 | 3 | 4 | 5 => 2 | _ => 3 end.

(** [s.split(p)] for a test on characters. *)
Fixpoint split_by_char (p : string → bool) (current : list string) (cs : list string)
    : list string :=
  match cs with
  | [] => [str_concat current]
  | c :: cs =>
      if p c then str_concat current :: split_by_char p [] cs
      else split_by_char p (current ++ [c]) cs
  end.

Definition is_ascii_digit (c : string) : bool :=
  match c with
  | String b EmptyString => let n := Ascii.nat_of_ascii b in (48 <=? n) && (n <=? 57)
  | _ => false
  end.

Section query.
Context `{UnicodeLower, Alphanumeric}.

(** One round of the loop, on the terms so far and the set of them. *)
Definition add_token (terms : list string) (token : string) : list string :=
  if token =s "" then terms
  else
    let token := to_lowercase token in
    if is_session_search_stop_word token then terms
    else
      let keep := (2 <=? length (chars token)) || forallb is_ascii_digit (chars token) in
      if keep && negb (str_in token terms) then terms ++ [token] else terms.

Definition tokenize_session_search_query (query : string) : list string :=
  foldl add_token [] (split_by_char (λ c, negb (char_is_alphanumeric c)) [] (chars query)).

Definition query_profile (query : string) : SessionSearchQueryProfile :=
  let normalized := to_lowercase (trim query) in
  let terms := tokenize_session_search_query normalized in
  {| qp_normalized := normalized; qp_terms := terms;
     qp_min_term_matches := minimum_session_search_term_matches (length terms) |}.
End query.

Definition is_actionable (q : SessionSearchQueryProfile) : bool :=
  negb (qp_normalized q =s "") && negb (bool_decide (qp_terms q = [])).

(** ** Snippets *)

Definition floor_char_boundary (s : string) (i : usize) : usize :=
  if String.length s <=? i then String.length s else boundary_below s i.

Definition ceil_char_boundary (s : string) (i : usize) : usize :=
  if String.length s <=? i then String.length s
  else boundary_above s (String.length s - i) i `min` String.length s.

(** [s.find(char::is_whitespace)]: the first position. *)
Definition find_whitespace (s : string) : option usize :=
  head (omap (λ e, if is_whitespace e.2 then Some e.1 else None) (char_indices s)).

(** [s.rfind(char::is_whitespace)]: the last position. *)
Definition rfind_whitespace (s : string) : option usize :=
  last (omap (λ e, if is_whitespace e.2 then Some e.1 else None) (char_indices s)).

(** The bounds of the snippet around [pos]. *)
Definition snippet_bounds (text : string) (pos focus_len max_len : usize) : usize * usize :=
  let start := pos - max_len / 2 in
  let end_ := (pos + focus_len + max_len / 2) `min` String.length text in
  let start := floor_char_boundary text start in
  let end_ := ceil_char_boundary text end_ in
  let start := match rfind_whitespace (str_take start text) with
               | Some p => p + 1 | None => start end in
  let end_ := match find_whitespace (str_drop end_ text) with
              | Some p => end_ + p | None => end_ end in
  (start, end_).

Definition focus_length (q : SessionSearchQueryProfile) : usize :=
  if negb (qp_normalized q =s "") then String.length (qp_normalized q)
  else match qp_terms q with term :: _ => String.length term | [] => 0 end.

(** [None] is the panic of slicing inside a character. *)
Definition extract_session_search_snippet (text : string) (anchor : option usize)
    (q : SessionSearchQueryProfile) (max_len : usize) : option string :=
  match anchor with
  | Some pos =>
      let '(start, end_) := snippet_bounds text pos (focus_length q) max_len in
      snippet ← slice text start end_;
      let snippet := if 0 <? start then "..." +:+ snippet else snippet in
      Some (if end_ <? String.length text then snippet +:+ "..." else snippet)
  | None => Some (str_concat (take max_len (chars text)))
  end.

(** ** Matching *)

Record SessionSearchMatchScore := {
  sm_snippet : string;
  sm_score : f64;
  sm_matched_terms : list string;
  sm_exact_match : bool;
}.

Definition f64_of_nat (n : nat) : f64 := f64_of_Z (Z.of_nat n).

(** The loop over the terms: the terms that match, the hits and the first position. *)
Definition match_term (text_lower : string) (acc : list string * usize * option usize)
    (term : string) : list string * usize * option usize :=
  let '(matched, hits, first) := acc in
  match str_find term text_lower with
  | Some pos =>
      (matched ++ [term], hits + count_matches term text_lower,
       Some (match first with Some current => current `min` pos | None => pos end))
  | None => acc
  end.

Section matching.
Context `{UnicodeLower}.

(** [None] inside is the panic of the snippet. *)
Definition score_session_search_text_match (text : string) (q : SessionSearchQueryProfile)
    : option (option SessionSearchMatchScore) :=
  if negb (is_actionable q) then Some None
  else
    let text_lower := to_lowercase text in
    let exact_pos := if negb (qp_normalized q =s "") then str_find (qp_normalized q) text_lower
                     else None in
    let '(matched_terms, total_term_hits, first_term_pos) :=
      foldl (match_term text_lower) ([], 0, None) (qp_terms q) in
    if bool_decide (exact_pos = None) && (length matched_terms <? qp_min_term_matches q)
    then Some None
    else
      let anchor := match exact_pos with Some pos => Some pos | None => first_term_pos end in
      snippet ← extract_session_search_snippet text anchor q 280;
      let coverage :=
        f64_div (f64_of_nat (length matched_terms)) (f64_of_nat (length (qp_terms q))) in
      let score :=
        f64_add (f64_add (f64_add
          (if bool_decide (exact_pos = None) then f64_zero else f64_of_nat 4)
          (f64_mul coverage (f64_of_nat 3)))
          (f64_mul (f64_of_nat (length matched_terms)) (f64_decimal 25 2)))
          (f64_mul (f64_div (f64_of_nat total_term_hits)
                     (f64_add (f64_of_nat (String.length text)) (f64_of_nat 1)))
            (f64_of_nat 200)) in
      Some (Some {| sm_snippet := snippet; sm_score := score; sm_matched_terms := matched_terms;
                    sm_exact_match := negb (bool_decide (exact_pos = None)) |}).

Definition count_terms (p : string → bool) (q : SessionSearchQueryProfile) : usize :=
  length (List.filter p (qp_terms q)).

Definition normalized_session_search_text_matches (text_lower : string)
    (q : SessionSearchQueryProfile) : bool :=
  if negb (is_actionable q) then false
  else if str_contains (qp_normalized q) text_lower then true
  else qp_min_term_matches q <=? count_terms (λ term, str_contains term text_lower) q.

(** The inner loop: the bytes from here on begin with the needle. *)
Fixpoint matches_here (needle haystack : string) : bool :=
  match needle, haystack with
  | EmptyString, _ => true
  | String nb needle, String hb haystack =>
      if Ascii.eqb (ascii_lower hb) nb then matches_here needle haystack else false
  | _, EmptyString => false
  end.

(** The outer loop, over the positions at which the needle fits. *)
Fixpoint contains_from (fuel : usize) (haystack needle : string) : bool :=
  if matches_here needle haystack then true
  else match fuel, haystack with
       | S fuel, String _ haystack => contains_from fuel haystack needle
       | _, _ => false
       end.

Definition contains_case_insensitive_bytes (haystack needle_lower : string) : bool :=
  if needle_lower =s "" then true
  else if String.length haystack <? String.length needle_lower then false
  else contains_from (String.length haystack - String.length needle_lower) haystack needle_lower.

Definition is_ascii (s : string) : bool :=
  forallb (λ b, Ascii.nat_of_ascii b <? 128) (String.list_ascii_of_string s).

(** [raw_text] is [std::str::from_utf8(raw)]. *)
Definition session_search_raw_matches_query (raw : string) (raw_text : option string)
    (q : SessionSearchQueryProfile) : bool :=
  if negb (is_actionable q) then false
  else if is_ascii (qp_normalized q) then
    if contains_case_insensitive_bytes raw (qp_normalized q) then true
    else qp_min_term_matches q <=? count_terms (contains_case_insensitive_bytes raw) q
  else match raw_text with
       | Some raw_text => normalized_session_search_text_matches (to_lowercase raw_text) q
       | None => false
       end.

Definition session_search_path_matches_query (path_text : string)
    (q : SessionSearchQueryProfile) : bool :=
  normalized_session_search_text_matches (to_lowercase path_text) q.

(** [s.trim_end_matches('/')] *)
Definition trim_end_slashes (s : string) : string :=
  str_concat (drop_while_end (λ c, c =s "/") (chars s)).

Definition backslash : string := String (Ascii.ascii_of_nat 92) "".

Definition normalize_path_for_session_search_match (path : string) : string :=
  to_lowercase (trim_end_slashes (replace backslash "/" (trim path))).

Definition session_search_working_dir_matches (session_wd filter : string) : bool :=
  let session_norm := normalize_path_for_session_search_match session_wd in
  let filter_norm := normalize_path_for_session_search_match filter in
  if filter_norm =s "" then true
  else if session_norm =s filter_norm then true
  else if starts_with (filter_norm +:+ "/") session_norm then true
  else negb (str_contains "/" filter_norm) && str_contains filter_norm session_norm.
End matching.

Definition session_search_field_filter_matches (value filter : option string) : bool :=
  match filter with
  | None => true
  | Some filter =>
      match value with
      | Some value => str_contains filter (ascii_lowercase value)
      | None => false
      end
  end.

Definition session_search_datetime_matches (value : datetime) (after before : option datetime)
    : bool :=
  if match after with Some after => (value <? after)%Z | None => false end then false
  else if match before with Some before => (before <? value)%Z | None => false end then false
  else true.

(** ** Texts *)

Definition session_search_truncate_title_text (text : string) (max_chars : usize) : string :=
  let trimmed := trim text in
  if length (chars trimmed) <=? max_chars then trimmed
  else str_concat (take (max_chars - 1) (chars trimmed)) +:+ "…".

Definition session_search_format_matched_terms (terms : list string) : string :=
  if bool_decide (terms = []) then "matched exact phrase"
  else
    let rendered := join ", " ((λ term, "`" +:+ term +:+ "`") <$> take 8 terms) in
    if 8 <? length terms then "matched terms " +:+ rendered +:+ ", ..."
    else "matched terms " +:+ rendered.

(** The loop: the longest run so far and the current one. *)
Definition run_step (needle : string) (acc : usize * usize) (ch : string) : usize * usize :=
  if ch =s needle then (acc.1 `max` (acc.2 + 1), acc.2 + 1) else (acc.1, 0).

Definition longest_repeated_char_run (text needle : string) : usize :=
  (foldl (run_step needle) (0, 0) (chars text)).1.

(** [needle.repeat(n)] *)
Definition repeat_str (s : string) (n : usize) : string := str_concat (replicate n s).

Definition code_fence (text : string) : string :=
  let longest_backtick_run := longest_repeated_char_run text "`" in
  repeat_str "`" (if 3 <=? longest_backtick_run then longest_backtick_run + 1 else 3).

Definition session_search_markdown_code_block (text : string) : string :=
  let fence := code_fence text in
  fence +:+ "text" +:+ nl +:+ text +:+ nl +:+ fence.

(** ** Results *)

Inductive SessionSearchResultKind := KindMetadata | KindMessage.

Definition kind_label (kind : SessionSearchResultKind) : string :=
  match kind with KindMetadata => "metadata" | KindMessage => "message" end.

Record SessionSearchContextLine := {
  cl_message_index : usize;
  cl_role : string;
  cl_timestamp : option datetime;
  cl_text : string;
}.

Record SessionSearchResult := {
  sr_source : string;
  sr_session_id : string;
  sr_short_name : option string;
  sr_title : option string;
  sr_working_dir : option string;
  sr_provider_key : option string;
  sr_model : option string;
  sr_updated_at : datetime;
  sr_kind : SessionSearchResultKind;
  sr_role : string;
  sr_message_index : option usize;
  sr_message_id : option string;
  sr_message_timestamp : option datetime;
  sr_snippet : string;
  sr_score : f64;
  sr_matched_terms : list string;
  sr_exact_match : bool;
  sr_context : list SessionSearchContextLine;
}.

Record SessionSearchReport := {
  rp_results : list SessionSearchResult;
  rp_scanned_gcode_sessions : usize;
  rp_candidate_gcode_sessions : usize;
  rp_scanned_external_sessions : usize;
  rp_external_sources : list string;
  rp_read_errors : usize;
  rp_parse_errors : usize;
  rp_truncated : bool;
}.

Record SessionSearchRenderOptions := {
  ro_include_current : bool;
  ro_include_external : bool;
  ro_include_tools : bool;
  ro_include_system : bool;
  ro_max_per_session : usize;
  ro_has_working_dir_filter : bool;
}.

(** [to_rfc3339_opts(SecondsFormat::Secs, true)] of chrono. *)
Class Rfc3339 := session_search_format_datetime : datetime → string.

Section format.
Context `{Rfc3339}.

Definition optional_line (label close : string) (value : option string) : string :=
  match value with Some value => label +:+ value +:+ close +:+ nl | None => "" end.

Definition format_context_line (context : SessionSearchContextLine) : string :=
  "- #" +:+ pretty (cl_message_index context + 1) +:+ " " +:+ cl_role context
  +:+ match cl_timestamp context with
      | Some ts => " at " +:+ session_search_format_datetime ts
      | None => ""
      end +:+ nl
  +:+ session_search_markdown_code_block (cl_text context) +:+ nl.

Definition format_result (i : usize) (result : SessionSearchResult) : string :=
  let session_name :=
    match sr_short_name result with
    | Some name => name
    | None => default (sr_session_id result) (sr_title result)
    end in
  "### Result " +:+ pretty (i + 1) +:+ " - " +:+ session_name +:+ nl
  +:+ "- Source: `" +:+ sr_source result +:+ "`" +:+ nl
  +:+ "- Session ID: `" +:+ sr_session_id result +:+ "`" +:+ nl
  +:+ optional_line "- Title: " "" (sr_title result)
  +:+ optional_line "- Working dir: `" "`" (sr_working_dir result)
  +:+ optional_line "- Provider: `" "`" (sr_provider_key result)
  +:+ optional_line "- Model: `" "`" (sr_model result)
  +:+ "- Updated: " +:+ session_search_format_datetime (sr_updated_at result) +:+ nl
  +:+ "- Match: " +:+ kind_label (sr_kind result)
  +:+ match sr_message_index result with Some index => " #" +:+ pretty (index + 1) | None => "" end
  +:+ " (" +:+ sr_role result +:+ ")"
  +:+ match sr_message_id result with Some id => ", id `" +:+ id +:+ "`" | None => "" end
  +:+ match sr_message_timestamp result with
      | Some ts => ", at " +:+ session_search_format_datetime ts
      | None => ""
      end +:+ nl
  +:+ "- Why: " +:+ (if sr_exact_match result then "exact phrase; " else "")
  +:+ session_search_format_matched_terms (sr_matched_terms result) +:+ nl +:+ nl
  +:+ session_search_markdown_code_block (sr_snippet result)
  +:+ (if bool_decide (sr_context result = []) then ""
       else nl +:+ nl +:+ "Context:" +:+ nl
            +:+ str_concat (format_context_line <$> sr_context result))
  +:+ nl +:+ nl.

Definition shown_or (shown hidden : string) (b : bool) : string := if b then shown else hidden.

Definition format_session_search_results (query : string) (report : SessionSearchReport)
    (options : SessionSearchRenderOptions) : string :=
  let results := rp_results report in
  "## Found " +:+ pretty (length results) +:+ " results for '" +:+ trim query +:+ "'" +:+ nl +:+ nl
  +:+ "_Defaults: current session "
  +:+ shown_or "included" "excluded" (ro_include_current options) +:+ ", external sources "
  +:+ shown_or "included" "hidden" (ro_include_external options) +:+ ", tool calls/results "
  +:+ shown_or "included" "hidden" (ro_include_tools options) +:+ ", system reminders "
  +:+ shown_or "included" "hidden" (ro_include_system options) +:+ ". Max per session: "
  +:+ pretty (ro_max_per_session options) +:+ "._" +:+ nl +:+ nl
  +:+ "_Scanned: " +:+ pretty (rp_scanned_gcode_sessions report) +:+ " Jcode sessions ("
  +:+ pretty (rp_candidate_gcode_sessions report) +:+ " candidates), "
  +:+ pretty (rp_scanned_external_sessions report) +:+ " external sessions"
  +:+ (if bool_decide (rp_external_sources report = []) then ""
       else " from " +:+ join ", " (rp_external_sources report))
  +:+ (if rp_truncated report then "; scan truncated" else "") +:+ "._" +:+ nl +:+ nl
  +:+ str_concat (imap format_result results).
End format.

Definition format_session_search_no_results (query : string)
    (options : SessionSearchRenderOptions) : string :=
  let hint (shown : bool) (text : string) := if shown then [text] else [] in
  let hints :=
    hint (negb (ro_include_current options))
      "current session is excluded by default; retry with include_current=true if needed"
    ++ hint (negb (ro_include_tools options))
      "tool calls/results are hidden by default; retry with include_tools=true for raw logs"
    ++ hint (negb (ro_include_system options))
      "system reminders are hidden by default; retry with include_system=true for internal context"
    ++ hint (ro_has_working_dir_filter options) "the working_dir filter may be too narrow" in
  "No results found for '" +:+ trim query +:+ "' in past sessions."
  +:+ (if bool_decide (hints = []) then ""
       else nl +:+ nl +:+ "Search notes:" +:+ nl
            +:+ str_concat ((λ hint, "- " +:+ hint +:+ nl) <$> hints)).

(** * Properties of the search of sessions

    The byte search is a search in the lowered text; the fence of a snippet
    does not occur in it; a snippet is cut at characters, around the match. *)

#[local] Arguments String.append !_ _ / : simpl nomatch.
#[local] Arguments is_whitespace : simpl never.

(** ASCII text has characters of one byte. *)
Lemma ascii_text s :
  is_ascii s = true → valid_text s ∧ Forall (λ c, String.length c = 1) (chars s).
Proof.
  unfold is_ascii, valid_text. induction s as [|b s IH]; cbn; [by split|].
  intros [Hb Hs]%andb_true_iff. destruct (IH Hs) as [Hv Hl].
  assert (Hc : ∀ b, (Ascii.nat_of_ascii b <? 128) = true → is_cont b = false).
  { intros x Hx. unfold is_cont. apply andb_false_iff. left.
    apply Nat.leb_gt. by apply Nat.ltb_lt. }
  assert (starts_char s = true) as ->.
  { destruct s as [|b' s]; [done|]. cbn in *. apply andb_true_iff in Hs as [Hb' _].
    by rewrite Hc. }
  split; constructor; [|done|done|done]. cbn. by rewrite (Hc b Hb).
Qed.

(** ** The byte search *)

Lemma matches_here_lower n h : matches_here n h = starts_with n (ascii_lowercase h).
Proof.
  revert h. induction n as [|nb n IH]; intros [|hb h]; cbn; [done..|].
  rewrite Ascii.eqb_sym. destruct (Ascii.eqb nb (ascii_lower hb)); [apply IH|done].
Qed.

Lemma ascii_lowercase_length s : String.length (ascii_lowercase s) = String.length s.
Proof. induction s as [|b s IH]; cbn; congruence. Qed.

Lemma starts_with_length p s : starts_with p s = true → String.length p ≤ String.length s.
Proof. intros [t ->]%starts_with_spec. rewrite str_length_app. lia. Qed.

Lemma str_contains_length n s : str_contains n s = true → String.length n ≤ String.length s.
Proof. intros (t & u & ->)%str_contains_spec. rewrite !str_length_app. lia. Qed.

Lemma contains_from_spec fuel h n :
  String.length h = fuel + String.length n →
  contains_from fuel h n = str_contains n (ascii_lowercase h).
Proof.
  revert h. induction fuel as [|fuel IH]; intros h Hlen; cbn [contains_from].
  - rewrite matches_here_lower. destruct (starts_with n (ascii_lowercase h)) eqn:E.
    + symmetry. apply str_contains_spec. apply starts_with_spec in E as [u E]. by exists "", u.
    + destruct h as [|b h]; [by destruct n|]. cbn [ascii_lowercase str_contains] in *. rewrite E.
      symmetry. apply not_true_iff_false. intros Hc%str_contains_length.
      rewrite ascii_lowercase_length in Hc. cbn in Hlen. lia.
  - rewrite matches_here_lower. destruct h as [|b h]; [cbn in Hlen; lia|].
    cbn [ascii_lowercase str_contains]. cbn [ascii_lowercase].
    destruct (starts_with n (String (ascii_lower b) (ascii_lowercase h))); [done|].
    apply IH. cbn in Hlen. lia.
Qed.

Lemma contains_bytes_spec h n :
  contains_case_insensitive_bytes h n = str_contains n (ascii_lowercase h).
Proof.
  unfold contains_case_insensitive_bytes. destruct (String.eqb_spec n "") as [->|Hn].
  { symmetry. apply str_contains_spec. by exists "", (ascii_lowercase h). }
  destruct (Nat.ltb_spec (String.length h) (String.length n)) as [Hlt|Hge].
  - symmetry. apply not_true_iff_false. intros Hc%str_contains_length.
    rewrite ascii_lowercase_length in Hc. lia.
  - apply contains_from_spec. lia.
Qed.

(** For a query in ASCII, the fast test on the bytes of a file, which lowers
    byte by byte while it compares, gives the same answer as the test on the
    whole text in lower case, for the phrase and for its terms. *)
Theorem raw_search_correct `{UnicodeLower} raw raw_text q :
  is_ascii (qp_normalized q) = true →
  session_search_raw_matches_query raw raw_text q
  = normalized_session_search_text_matches (ascii_lowercase raw) q.
Proof.
  intros Ha. unfold session_search_raw_matches_query, normalized_session_search_text_matches.
  destruct (negb (is_actionable q)); [done|]. rewrite Ha, contains_bytes_spec.
  destruct (str_contains _ _); [done|]. f_equal. unfold count_terms. f_equal.
  apply List.filter_ext. intros term. apply contains_bytes_spec.
Qed.

Lemma raw_search_witness :
  is_ascii (qp_normalized (query_profile "Project Needle")) = true
  ∧ session_search_raw_matches_query "logs mention PROJECT needle here" None
      (query_profile "Project Needle")
    = normalized_session_search_text_matches (ascii_lowercase "logs mention PROJECT needle here")
        (query_profile "Project Needle")
  ∧ session_search_raw_matches_query "logs mention PROJECT needle here" None
      (query_profile "Project Needle") = true.
Proof.
  split; [vm_compute; reflexivity|]. split.
  - apply raw_search_correct. vm_compute. reflexivity.
  - vm_compute. reflexivity.
Defined.

(** ** The fence *)

Lemma run_step_max needle l acc :
  acc.2 ≤ acc.1 →
  let r := foldl (run_step needle) acc l in acc.1 ≤ r.1 ∧ r.2 ≤ r.1.
Proof.
  revert acc. induction l as [|c l IH]; intros acc Hacc; cbn [foldl]; [done|].
  destruct (IH (run_step needle acc c)) as [H1 H2].
  { unfold run_step. case_match; cbn; lia. }
  split; [|done]. etrans; [|exact H1]. unfold run_step. case_match; cbn; lia.
Qed.

Lemma run_replicate needle n acc :
  (foldl (run_step needle) acc (replicate n needle)).2 = acc.2 + n.
Proof.
  revert acc. induction n as [|n IH]; intros acc; cbn [replicate foldl]; [lia|].
  rewrite IH. unfold run_step. rewrite String.eqb_refl. cbn. lia.
Qed.

Lemma longest_run_ge needle l1 n l2 :
  n ≤ (foldl (run_step needle) (0, 0) (l1 ++ replicate n needle ++ l2)).1.
Proof.
  rewrite !foldl_app.
  destruct (run_step_max needle l1 (0, 0)) as [_ H1]; [done|].
  set (a := foldl (run_step needle) (0, 0) l1) in *.
  destruct (run_step_max needle (replicate n needle) a) as [_ H2]; [done|].
  pose proof (run_replicate needle n a) as Hr.
  set (b := foldl (run_step needle) a (replicate n needle)) in *.
  destruct (run_step_max needle l2 b) as [H3 _]; [done|]. lia.
Qed.

Lemma valid_ascii_head b s :
  Ascii.nat_of_ascii b < 128 → valid_text (String b s) →
  chars (String b s) = String b "" :: chars s ∧ valid_text s.
Proof.
  intros Hb. unfold valid_text. cbn [chars]. destruct (starts_char s) eqn:E.
  - intros [_ ?]%Forall_cons. done.
  - destruct (chars s) as [|c cs] eqn:Ec; [apply chars_nil in Ec as ->; done|].
    intros [Hv _]%Forall_cons. cbn in Hv. destruct Hv as (_ & _ & Hv). apply Hv in Hb as ->.
    exfalso. by apply (chars_head s "" cs) in Ec as [].
Qed.

Lemma chars_repeat b n s :
  Ascii.nat_of_ascii b < 128 → valid_text (repeat_str (String b "") n +:+ s) →
  chars (repeat_str (String b "") n +:+ s) = replicate n (String b "") ++ chars s.
Proof.
  intros Hb. induction n as [|n IH]; cbn; [done|].
  intros [Hc Hv]%valid_ascii_head; [|done]. cbn in Hc. rewrite Hc. f_equal. by apply IH.
Qed.

(** The fence around a snippet in the results is longer than every run of
    backticks in it, so it does not occur in the snippet and the block ends at
    the closing fence. *)
Theorem fence_correct text :
  valid_text text →
  str_contains (code_fence text) text = false
  ∧ session_search_markdown_code_block text
    = code_fence text +:+ "text" +:+ nl +:+ text +:+ nl +:+ code_fence text
  ∧ ∃ n, 3 ≤ n ∧ longest_repeated_char_run text "`" < n ∧ code_fence text = repeat_str "`" n.
Proof.
  intros Hv. set (L := longest_repeated_char_run text "`").
  set (n := if 3 <=? L then L + 1 else 3).
  assert (Hn : 3 ≤ n ∧ L < n) by (subst n; destruct (Nat.leb_spec 3 L); lia).
  split; [|split; [done|exists n; destruct Hn; auto]].
  apply not_true_iff_false. intros (t & u & E)%str_contains_spec.
  change (code_fence text) with (repeat_str "`" n) in E.
  assert (Hb : starts_char (repeat_str "`" n +:+ u) = true) by (destruct n; [lia|done]).
  assert (Hvr : valid_text (repeat_str "`" n +:+ u)
                ∧ chars text = chars t ++ chars (repeat_str "`" n +:+ u)).
  { rewrite E in Hv |- *. unfold valid_text in Hv. rewrite chars_app in Hv |- * by done.
    by apply Forall_app in Hv as []. }
  destruct Hvr as [Hvr Hc]. rewrite (chars_repeat (Ascii.ascii_of_nat 96)) in Hc by first [exact Hvr | apply Nat.ltb_lt; reflexivity].
  pose proof (longest_run_ge "`" (chars t) n (chars u)) as Hge.
  change (String (Ascii.ascii_of_nat 96) "") with "`" in Hc.
  unfold L, longest_repeated_char_run in Hn. rewrite Hc in Hn. lia.
Qed.

Lemma fence_witness :
  valid_text "contains ``` fence"
  ∧ str_contains (code_fence "contains ``` fence") "contains ``` fence" = false
  ∧ code_fence "contains ``` fence" = "````".
Proof.
  assert (Hv : valid_text "contains ``` fence").
  { by apply ascii_text. }
  split; [exact Hv|]. split; [exact (proj1 (fence_correct _ Hv))|reflexivity].
Defined.

(** ** Snippets *)

Lemma last_whitespace position cs p :
  last (omap (λ e, if is_whitespace e.2 then Some e.1 else None) (char_indices_from position cs))
  = Some p →
  ∃ l1 c l2, cs = l1 ++ c :: l2 ∧ is_whitespace c = true
    ∧ p = position + String.length (str_concat l1).
Proof.
  induction cs as [|c cs IH] using rev_ind; [done|].
  rewrite char_indices_from_app, omap_app. cbn. destruct (is_whitespace c) eqn:Hc; cbn.
  - rewrite last_snoc. intros [= <-]. by exists cs, c, [].
  - rewrite app_nil_r. intros (l1 & x & l2 & -> & Hx & ->)%IH.
    exists l1, x, (l2 ++ [c]). by rewrite <- app_assoc.
Qed.

Lemma first_whitespace cs : ∀ position p,
  head (omap (λ e, if is_whitespace e.2 then Some e.1 else None) (char_indices_from position cs))
  = Some p →
  ∃ l1 c l2, cs = l1 ++ c :: l2 ∧ is_whitespace c = true
    ∧ p = position + String.length (str_concat l1).
Proof.
  induction cs as [|c cs IH]; intros position p; [done|]. cbn [char_indices_from].
  cbn. destruct (is_whitespace c) eqn:Hc.
  - intros [= <-]. exists [], c, cs. cbn. split; [done|]. split; [done|]. lia.
  - intros (l1 & x & l2 & -> & Hx & ->)%IH. exists (c :: l1), x, l2. cbn.
    rewrite str_length_app. split; [done|]. split; [done|]. lia.
Qed.

(** White space of one byte only. *)
Definition ascii_whitespace (text : string) : Prop :=
  ∀ c, c ∈ chars text → is_whitespace c = true → String.length c = 1.

Lemma floor_spec s i :
  floor_char_boundary s i ≤ i `min` String.length s
  ∧ is_char_boundary s (floor_char_boundary s i) = true.
Proof.
  unfold floor_char_boundary. destruct (Nat.leb_spec (String.length s) i).
  - split; [lia|]. apply boundary_length.
  - destruct (boundary_below_spec s i) as (H1 & H2 & _). split; [lia|done].
Qed.

Lemma ceil_spec s i :
  i ≤ String.length s →
  i ≤ ceil_char_boundary s i ≤ String.length s
  ∧ is_char_boundary s (ceil_char_boundary s i) = true.
Proof.
  intros Hi. unfold ceil_char_boundary. destruct (Nat.leb_spec (String.length s) i).
  - split; [lia|]. apply boundary_length.
  - destruct (boundary_above_spec s (String.length s - i) i) as (H1 & H2 & _); [lia|].
    rewrite Nat.min_l by lia. done.
Qed.

(** Around a match at [pos] the snippet is cut at characters, so slicing
    cannot panic, and when the match is inside the text the snippet covers it
    and as much around it as asked for, up to the next white space; provided
    all white space of the text has one byte. *)
Theorem snippet_correct text pos q max_len :
  valid_text text → ascii_whitespace text →
  let focus_len := focus_length q in
  let '(start, end_) := snippet_bounds text pos focus_len max_len in
  ∃ snippet, slice text start end_ = Some snippet
    ∧ extract_session_search_snippet text (Some pos) q max_len
      = Some ((if 0 <? start then "..." else "") +:+ snippet
              +:+ (if end_ <? String.length text then "..." else ""))
    ∧ start ≤ pos - max_len / 2
    ∧ (pos + focus_len + max_len / 2) `min` String.length text ≤ end_ ≤ String.length text.
Proof.
  intros Hv Hw. cbn zeta. unfold extract_session_search_snippet.
  destruct (snippet_bounds text pos (focus_length q) max_len) as [start end_] eqn:E.
  unfold snippet_bounds in E.
  destruct (floor_spec text (pos - max_len / 2)) as [Hs0 Hsb].
  destruct (ceil_spec text ((pos + focus_length q + max_len / 2) `min` String.length text))
    as [He0 Heb]; [lia|].
  set (s0 := floor_char_boundary text (pos - max_len / 2)) in *.
  set (e0 := ceil_char_boundary text _) in *. injection E as Es Ee.
  pose proof (boundary_split text s0 Hv Hsb) as Hats.
  pose proof (boundary_split text e0 Hv Heb) as Hate.
  assert (Hstart : start ≤ s0 ∧ is_char_boundary text start = true).
  { destruct (rfind_whitespace (str_take s0 text)) as [p|] eqn:Ep; [|by subst].
    apply last_whitespace in Ep as (l1 & c & l2 & Hc & Hcw & ->).
    assert (Hc1 : String.length c = 1).
    { apply Hw; [|done]. rewrite (split_chars _ _ _ _ Hats), Hc. set_solver. }
    rewrite Hc, cons_middle, app_assoc in Hats.
    pose proof (split_move _ _ _ _ _ Hats) as Hm.
    assert (Hst : start = String.length (str_concat (l1 ++ [c]))).
    { rewrite str_concat_app, str_length_app. cbn. rewrite str_app_nil_r. lia. }
    rewrite Hst. split; [|by apply (split_boundary _ _ _ _ Hm)].
    destruct Hats as (_ & -> & _ & _). rewrite (str_concat_app (l1 ++ [c])), str_length_app. lia. }
  assert (Hend : e0 ≤ end_ ≤ String.length text ∧ is_char_boundary text end_ = true).
  { destruct (find_whitespace (str_drop e0 text)) as [p|] eqn:Ep; [|subst; split; [lia|done]].
    apply first_whitespace in Ep as (l1 & c & l2 & Hc & Hcw & ->).
    rewrite Hc in Hate. pose proof (split_move_forward _ _ _ _ _ Hate) as Hm.
    assert (Hen : end_ = String.length (str_concat (chars (str_take e0 text) ++ l1))).
    { rewrite str_concat_app, str_length_app. destruct Hate as (_ & Hl & _ & _). lia. }
    rewrite Hen. split; [|by apply (split_boundary _ _ _ _ Hm)].
    split; [lia|]. apply (split_le _ _ _ _ Hm). }
  destruct Hstart as [Hs1 Hs2], Hend as [He1 He2].
  assert (Hslice : slice text start end_ = Some (str_take (end_ - start) (str_drop start text))).
  { unfold slice. rewrite Hs2, He2, (proj2 (Nat.leb_le _ _)) by lia. done. }
  exists (str_take (end_ - start) (str_drop start text)). rewrite Hslice.
  split; [done|]. split; [|lia]. cbn [mbind option_bind]. f_equal.
  destruct (0 <? start), (end_ <? String.length text); cbn;
    rewrite ?str_app_nil_r; done.
Qed.

Lemma snippet_witness :
  valid_text "one two three four" ∧ ascii_whitespace "one two three four"
  ∧ extract_session_search_snippet "one two three four" (Some 8) (query_profile "three") 4
    = Some "...two three f...".
Proof.
  destruct (ascii_text "one two three four" eq_refl) as [Hv Hl].
  assert (Hw : ascii_whitespace "one two three four").
  { intros c Hc _. by eapply Forall_forall in Hl. }
  split; [exact Hv|]. split; [exact Hw|].
  pose proof (snippet_correct "one two three four" 8 (query_profile "three") 4 Hv Hw) as Hs.
  destruct Hs as (snippet & Hslice & -> & _).
  vm_compute in Hslice. injection Hslice as <-. vm_compute. reflexivity.
Defined.

(** With white space of several bytes in front of the match the cut is inside
    of it, and slicing panics. *)
Example wide_space_panics :
  let text := bytes [227; 128; 128] +:+ "abcdefgneedle" in
  extract_session_search_snippet text (str_find "needle" text) (query_profile "needle") 4 = None.
Proof. vm_compute. reflexivity. Qed.
