(* ===== verification/SessionCrash.v ===== *)
(** * Crashed sessions ([src/session/crash.rs])

    Finding the sessions whose process died, offering those of the last crash,
    and recovering their text into new sessions. The clock is read once per
    call; the identifiers that [new_id] makes are functions of the place where
    they are needed. The header that the legacy scan reads out of a text, and
    the metadata of a file, are arguments. *)

From S2P Require Import Prelude Utf8 Text Messages UnifiedPatch ProviderModels SessionTypes SessionProfile SessionState SessionOps Storage SessionStore SessionOpsTheorems StorageTheorems SessionStoreTheorems SessionText.
Open Scope nat_scope.
Open Scope io_scope.

(** [Duration::seconds(60)], in nanoseconds. *)
Definition CRASH_WINDOW : Z := 60 * 1000000000.

Record CrashedSessionsInfo := {
  cr_session_ids : list string;
  cr_display_names : list string;
  cr_most_recent_crash : datetime;
}.

Section crash.
Context `{SessionCodec, HashOrder}.

(** ** The sessions on disk *)

(** The loop over the directory; saving and loading errors are passed over. *)
Fixpoint load_sessions (now : datetime) (tmp_suffix : string) (is_pid_running : u32 → bool)
    (entries : list (string * string)) (w : World) : list Session * World :=
  match entries with
  | [] => ([], w)
  | (name, _) :: rest =>
      if bool_decide (file_extension name = Some "json") then
        match load (file_stem name) w with
        | (inl s, w) =>
            let '(crashed, s, w) := detect_crash now is_pid_running s w in
            let '(s, w) := if crashed then let '(_, s, w) := save now tmp_suffix s w in (s, w)
                           else (s, w) in
            let '(sessions, w) := load_sessions now tmp_suffix is_pid_running rest w in
            (s :: sessions, w)
        | (inr _, w) => load_sessions now tmp_suffix is_pid_running rest w
        end
      else load_sessions now tmp_suffix is_pid_running rest w
  end.

(** The parents of recovery sessions. *)
Definition recovered_parents (sessions : list Session) : gset string :=
  list_to_set (omap (λ s,
    if starts_with "session_recovery_" (se_id s) then se_parent_id s else None) sessions).

Definition crash_time (s : Session) : datetime := default (se_updated_at s) (se_last_active_at s).

(** [iter().map(..).max().unwrap_or_else(Utc::now)] *)
Definition most_recent_time (now : datetime) (crashed : list Session) : datetime :=
  match crash_time <$> crashed with
  | [] => now
  | t :: ts => foldl Z.max t ts
  end.

Definition in_window (most_recent : datetime) (s : Session) : bool :=
  let delta := (most_recent - crash_time s)%Z in
  ((0 <=? delta) && (delta <=? CRASH_WINDOW))%Z.

(** [sort_by(|a, b| b.updated_at.cmp(&a.updated_at))] *)
Definition sort_latest : list Session → list Session :=
  sort_by (λ a b, (se_updated_at b <=? se_updated_at a)%Z).

Definition is_crashed_session (s : Session) : bool := is_crashed (se_status s).

(** ** Offering *)

(** The part of [detect_crashed_sessions] after the sessions are loaded. *)
Definition crashed_info (now : datetime) (sessions : list Session) : option CrashedSessionsInfo :=
  let parents := recovered_parents sessions in
  let crashed :=
    List.filter (λ s, negb (bool_decide (se_id s ∈ parents)))
      (List.filter is_crashed_session sessions) in
  if bool_decide (crashed = []) then None
  else
    let most_recent := most_recent_time now crashed in
    let crashed := List.filter (in_window most_recent) crashed in
    if bool_decide (crashed = []) then None
    else
      let crashed := sort_latest crashed in
      Some {| cr_session_ids := se_id <$> crashed; cr_display_names := display_name <$> crashed;
              cr_most_recent_crash := most_recent |}.

Definition sessions_dir : IO string := base <-! gcode_dir; io_ret (path_join base "sessions").

Definition detect_crashed_sessions (now : datetime) (tmp_suffix : string)
    (is_pid_running : u32 → bool) : IO (option CrashedSessionsInfo) :=
  dir <-! sessions_dir;
  exists_ <-! io_exists dir;
  if exists_ then λ w,
    let '(sessions, w) := load_sessions now tmp_suffix is_pid_running (dir_entries dir w) w in
    (inl (crashed_info now sessions), w)
  else io_ret None.

(** ** Recovering *)

Definition is_text (block : ContentBlock) : bool :=
  match block with Text _ _ => true | _ => false end.

Definition kept_blocks (msg : StoredMessage) : list ContentBlock :=
  List.filter is_text (st_content msg).

(** The fields taken over from the crashed session. *)
Definition recovery_start (now : datetime) (env : ProcessEnv) (new_id : string) (old : Session)
    : Session :=
  let s := create_with_id now env new_id (Some (se_id old)) (se_title old) in
  let s := se_set_working_dir (se_working_dir old) s in
  let s := se_set_provider_key (se_provider_key old) s in
  let s := se_set_model (se_model old) s in
  let s := se_set_improve_mode (se_improve_mode old) s in
  let s := se_set_is_canary (se_is_canary old) s in
  let s := se_set_is_debug (se_is_debug old) s in
  let s := se_set_testing_build (se_testing_build old) s in
  let s := se_set_saved (se_saved old) s in
  let s := se_set_save_label (se_save_label old) s in
  let s := se_set_provider_session_id None s in
  se_set_status StatusClosed s.

Definition recovery_header (old : Session) : string :=
  "Recovered from crashed session `" +:+ se_id old +:+ "` (" +:+ display_name old +:+ ")".

(** The loop over the old messages, with the number of the next one. *)
Fixpoint recover_messages (now : datetime) (message_id : usize → string) (n : usize)
    (messages : list StoredMessage) (s : Session) : Session :=
  match messages with
  | [] => s
  | msg :: rest =>
      let kept := kept_blocks msg in
      let s := if bool_decide (length kept = 0) then s
               else (add_message now (message_id n) (st_role msg) kept s).2 in
      recover_messages now message_id (S n) rest s
  end.

Definition recovery_session (now : datetime) (env : ProcessEnv) (new_id : string)
    (message_id : usize → string) (old : Session) : Session :=
  let s := recovery_start now env new_id old in
  let s := (add_message now (message_id 0) User [Text (recovery_header old) None] s).2 in
  recover_messages now message_id 1 (se_messages old) s.

(** The sessions to recover: the window is that of all crashed sessions. *)
Definition sessions_to_recover (now : datetime) (sessions : list Session) : list Session :=
  let parents := recovered_parents sessions in
  let crashed := List.filter is_crashed_session sessions in
  let most_recent := most_recent_time now crashed in
  List.filter (λ s, negb (bool_decide (se_id s ∈ parents)))
    (sort_latest (List.filter (in_window most_recent) crashed)).

(** The loop; a save that fails ends it with the error. *)
Fixpoint recover_all (now : datetime) (env : ProcessEnv) (tmp_suffix : string)
    (rec_id : usize → string) (message_id : usize → usize → string) (n : usize)
    (crashed : list Session) (new_ids : list string) : IO (list string) :=
  match crashed with
  | [] => io_ret new_ids
  | old :: rest => λ w,
      let new_id := "session_recovery_" +:+ rec_id n in
      let s := recovery_session now env new_id (message_id n) old in
      match save now tmp_suffix s w with
      | (inl (), _, w) =>
          recover_all now env tmp_suffix rec_id message_id (S n) rest (new_ids ++ [new_id]) w
      | (inr e, _, w) => (inr e, w)
      end
  end.

Definition recover_crashed_sessions (now : datetime) (env : ProcessEnv) (tmp_suffix : string)
    (is_pid_running : u32 → bool) (rec_id : usize → string)
    (message_id : usize → usize → string) : IO (list string) :=
  dir <-! sessions_dir;
  exists_ <-! io_exists dir;
  if exists_ then λ w,
    let '(sessions, w) := load_sessions now tmp_suffix is_pid_running (dir_entries dir w) w in
    if bool_decide (List.filter is_crashed_session sessions = []) then (inl [], w)
    else recover_all now env tmp_suffix rec_id message_id 0 (sessions_to_recover now sessions) [] w
  else io_ret [].


(** ** Resume hints *)

Definition HOURS : Z := 3600 * 1000000000.

(** The loop of [find_crashed_via_pid_files] over the files of [active_pids]. *)
Fixpoint scan_pid_files (now : datetime) (tmp_suffix : string) (is_pid_running : u32 → bool)
    (dir : string) (entries : list (string * string)) (crashed : list (string * string * datetime))
    (w : World) : list (string * string * datetime) * World :=
  match entries with
  | [] => (crashed, w)
  | (session_id, _) :: rest =>
      let go := scan_pid_files now tmp_suffix is_pid_running dir rest in
      match read_to_string (path_join dir session_id) w with
      | (inr _, w) => go crashed w
      | (inl pid_str, w) =>
          match parse_u32 (trim pid_str) with
          | None => go crashed (io_ignore (remove_file (path_join dir session_id)) w).2
          | Some pid =>
              if is_pid_running pid then go crashed w
              else
                match load session_id w with
                | (inl s, w) =>
                    let '(s, w) := mark_crashed (Some (exited_message pid)) s w in
                    let '(_, s, w) := save now tmp_suffix s w in
                    let ts := crash_time s in
                    if (ts <=? now - 24 * HOURS)%Z then go crashed w
                    else
                      let name := default session_id (extract_session_name session_id) in
                      go (crashed ++ [(session_id, name, ts)]) w
                | (inr _, w) => go crashed (io_ignore (remove_file (path_join dir session_id)) w).2
                end
          end
      end
  end.

Definition find_crashed_via_pid_files (now : datetime) (tmp_suffix : string)
    (is_pid_running : u32 → bool) (w : World) : option (list (string * string)) * World :=
  match active_pids_dir w with
  | None => (None, w)
  | Some dir =>
      if path_exists dir w then
        let '(crashed, w) :=
          scan_pid_files now tmp_suffix is_pid_running dir (dir_entries dir w) [] w in
        (Some (sort_by (λ a b, (b.2 <=? a.2)%Z) crashed).*1, w)
      else (None, w)
  end.

Record SessionHeader := {
  sh_id : string;
  sh_parent_id : option string;
  sh_updated_at : datetime;
  sh_short_name : option string;
  sh_status : SessionStatus;
  sh_last_active_at : option datetime;
}.

(** [SessionHeader::display_name] *)
Definition header_display_name (h : SessionHeader) : string :=
  match sh_short_name h with
  | Some name => name
  | None => default (sh_id h) (extract_session_name (sh_id h))
  end.

(** The part of digits, parsed as [u64]. *)
Definition extract_timestamp_from_filename (filename : string) : option Z :=
  let stem := default filename (strip_suffix ".json" filename) in
  match List.find (λ part, (13 <=? String.length part) && starts_with "1" part
                           && bool_decide (is_Some (digits_value 0 part))) (split_str "_" stem) with
  | Some part => digits_value 0 part ≫= λ v, if (v <? 2 ^ 64)%N then Some (Z.of_N v) else None
  | None => None
  end.

(** What [entry.metadata()] says: the time of the last change, if it is known. *)
Definition Metadata : Type := string → option (option Z).

(** The tests on one file, up to the text; [None] is [continue]. *)
Definition scan_legacy_file (now : datetime) (metadata : Metadata) (dir : string)
    (entry : string * string) (w : World) : option string * World :=
  let '(name, text) := entry in
  let filename_cutoff := Z.max 0 ((now - 48 * HOURS) / 1000000) in
  if match extract_timestamp_from_filename name with
     | Some ts => (ts <? filename_cutoff)%Z
     | None => false
     end then (None, w)
  else if negb (bool_decide (file_extension name = Some "json")) then (None, w)
  else
    match metadata name with
    | None => (None, w)
    | Some modified =>
        if match modified with Some mtime => (mtime <? now - 24 * HOURS)%Z | None => false end
        then (None, w)
        else if text =s "" then (None, w)
        else match read_to_string (path_join dir name) w with
             | (inl content, w) => (Some content, w)
             | (inr _, w) => (None, w)
             end
    end.

Definition crashed_mark : string := dquote +:+ "Crashed" +:+ dquote.
Definition recovery_mark : string := dquote +:+ "session_recovery_" +:+ dquote.

(** The loop, with the parents and the candidates found so far. *)
Fixpoint scan_legacy (now : datetime) (metadata : Metadata)
    (parse_header : string → option SessionHeader) (dir : string)
    (entries : list (string * string)) (parents : gset string) (candidates : list SessionHeader)
    (w : World) : gset string * list SessionHeader * World :=
  match entries with
  | [] => (parents, candidates, w)
  | entry :: rest =>
      let go := scan_legacy now metadata parse_header dir rest in
      match scan_legacy_file now metadata dir entry w with
      | (None, w) => go parents candidates w
      | (Some content, w) =>
          let has_crashed := str_contains crashed_mark content in
          let is_recovery := str_contains recovery_mark content in
          if negb has_crashed && negb is_recovery then go parents candidates w
          else
            match parse_header content with
            | None => go parents candidates w
            | Some header =>
                let parents :=
                  match sh_parent_id header with
                  | Some parent =>
                      if starts_with "session_recovery_" (sh_id header) then {[parent]} ∪ parents
                      else parents
                  | None => parents
                  end in
                go parents (if has_crashed then candidates ++ [header] else candidates) w
            end
      end
  end.

Definition header_time (h : SessionHeader) : datetime :=
  default (sh_updated_at h) (sh_last_active_at h).

Definition find_crashed_legacy_scan (now : datetime) (metadata : Metadata)
    (parse_header : string → option SessionHeader) (w : World)
    : list (string * string) * World :=
  match sessions_dir w with
  | (inr _, w) => ([], w)
  | (inl dir, w) =>
      if path_exists dir w then
        let '(parents, candidates, w) :=
          scan_legacy now metadata parse_header dir (dir_entries dir w) ∅ [] w in
        let crashed := List.filter (λ h, is_crashed (sh_status h)) candidates in
        let crashed := List.filter (λ h, negb (bool_decide (sh_id h ∈ parents))) crashed in
        let crashed := List.filter (λ h, (now - 24 * HOURS <? header_time h)%Z) crashed in
        let crashed := sort_by (λ a b, (sh_updated_at b <=? sh_updated_at a)%Z) crashed in
        ((λ h, (sh_id h, header_display_name h)) <$> crashed, w)
      else ([], w)
  end.

Definition find_recent_crashed_sessions (now : datetime) (tmp_suffix : string)
    (is_pid_running : u32 → bool) (metadata : Metadata)
    (parse_header : string → option SessionHeader) (w : World)
    : list (string * string) * World :=
  match find_crashed_via_pid_files now tmp_suffix is_pid_running w with
  | (Some results, w) => (results, w)
  | (None, w) => find_crashed_legacy_scan now metadata parse_header w
  end.

(** ** Sessions by name *)

(** The loop over the directory. *)
Fixpoint scan_names (name : string) (entries : list (string * string))
    (matches : list (string * datetime)) (w : World) : list (string * datetime) * World :=
  match entries with
  | [] => (matches, w)
  | (file, _) :: rest =>
      if bool_decide (file_extension file = Some "json")
         && bool_decide (extract_session_name (file_stem file) = Some name) then
        match load (file_stem file) w with
        | (inl s, w) => scan_names name rest (matches ++ [(file_stem file, se_updated_at s)]) w
        | (inr _, w) => scan_names name rest matches w
        end
      else scan_names name rest matches w
  end.

Definition find_session_by_name_or_id (name_or_id : string) : IO string := λ w,
  match load name_or_id w with
  | (inl _, w) => (inl name_or_id, w)
  | (inr e, w) =>
      if session_exists name_or_id w then
        (inr ("Session '" +:+ name_or_id +:+ "' exists but failed to load (possibly corrupt):"
              +:+ nl +:+ "  " +:+ e), w)
      else
        match sessions_dir w with
        | (inr e, w) => (inr e, w)
        | (inl dir, w) =>
            if path_exists dir w then
              let '(matches, w) := scan_names name_or_id (dir_entries dir w) [] w in
              match sort_by (λ a b, (b.2 <=? a.2)%Z) matches with
              | [] => (inr ("No session found matching '" +:+ name_or_id +:+ "'"), w)
              | (id, _) :: _ => (inl id, w)
              end
            else (inr "No sessions found", w)
        end
  end.
End crash.

(** * What is offered and recovered after a crash

    The sessions offered are those of the last minute of crashes, the copy of
    a session keeps exactly its text, and where the two scans and the recovery
    disagree about what was recovered. *)

Lemma foldl_max_spec (l : list Z) : ∀ m,
  foldl Z.max m l ∈ m :: l ∧ Forall (λ x, (x ≤ foldl Z.max m l)%Z) (m :: l).
Proof.
  induction l as [|y l IH]; intros m; cbn [foldl].
  { split; [by left|]. repeat constructor. lia. }
  destruct (IH (Z.max m y)) as [Hin Hle]. split.
  - apply elem_of_cons in Hin as [E|Hin]; [|set_solver].
    rewrite E. destruct (Z.max_spec m y) as [[_ ->]|[_ ->]]; set_solver.
  - apply Forall_cons in Hle as [Hm Hl]. repeat constructor; [lia|lia|done].
Qed.

(** ** The window *)

Section crash_theorems.
Context `{SessionCodecLaws}.

Lemma most_recent_spec now crashed :
  crashed ≠ [] →
  (∃ s, s ∈ crashed ∧ crash_time s = most_recent_time now crashed)
  ∧ ∀ s, s ∈ crashed → (crash_time s ≤ most_recent_time now crashed)%Z.
Proof.
  intros Hne. unfold most_recent_time. destruct crashed as [|c crashed]; [done|].
  cbn [fmap list_fmap]. destruct (foldl_max_spec (crash_time <$> crashed) (crash_time c)) as [Hin Hle].
  rewrite <- fmap_cons in Hin, Hle. split.
  - apply list_elem_of_fmap in Hin as (s & E & Hs). eauto.
  - rewrite Forall_fmap, Forall_forall in Hle. auto.
Qed.

Lemma elem_of_List_filter {A} (p : A → bool) x l : x ∈ List.filter p l ↔ x ∈ l ∧ p x = true.
Proof. rewrite !list_elem_of_In. apply filter_In. Qed.

Definition later (a b : Session) : Prop := (se_updated_at b ≤ se_updated_at a)%Z.

Lemma sort_latest_sorted l : StronglySorted later (sort_latest l).
Proof.
  eapply StronglySorted_impl;
    [|apply (sort_by_sorted (λ a b, (se_updated_at b <=? se_updated_at a)%Z))]; cbn.
  - intros a b E%Z.leb_le. exact E.
  - intros a b. rewrite !Z.leb_le. lia.
  - intros a b c. rewrite !Z.leb_le. lia.
Qed.

(** The crashed sessions without a recovery session. *)
Definition pending (sessions : list Session) : list Session :=
  List.filter (λ s, negb (bool_decide (se_id s ∈ recovered_parents sessions)))
    (List.filter is_crashed_session sessions).

Lemma elem_of_recovered_parents sessions p :
  p ∈ recovered_parents sessions ↔
  ∃ r, r ∈ sessions ∧ starts_with "session_recovery_" (se_id r) = true ∧ se_parent_id r = Some p.
Proof.
  unfold recovered_parents. rewrite elem_of_list_to_set, list_elem_of_omap.
  split; intros (r & Hr & Hp); exists r; (split; [done|]).
  - by destruct (starts_with _ _).
  - destruct Hp as [-> ->]. done.
Qed.

(** The offer after a crash: nothing when every crashed session has a
    recovery session, and otherwise the identifiers and names of exactly the
    crashed sessions without one whose last activity is at most a minute before
    the latest, newest first. The latest crash is always among them, so the
    second test for an empty list never answers. *)
Theorem crash_offer_correct now sessions :
  match crashed_info now sessions with
  | None =>
      ∀ s, s ∈ sessions → is_crashed_session s = true →
      ∃ r, r ∈ sessions ∧ starts_with "session_recovery_" (se_id r) = true
           ∧ se_parent_id r = Some (se_id s)
  | Some info =>
      ∃ offered, cr_session_ids info = se_id <$> offered
        ∧ cr_display_names info = display_name <$> offered
        ∧ StronglySorted later offered
        ∧ (∀ s, s ∈ offered ↔
             s ∈ pending sessions
             ∧ (cr_most_recent_crash info - CRASH_WINDOW ≤ crash_time s)%Z)
        ∧ (∀ s, s ∈ pending sessions → (crash_time s ≤ cr_most_recent_crash info)%Z)
        ∧ ∃ s, s ∈ offered ∧ crash_time s = cr_most_recent_crash info
  end.
Proof.
  unfold crashed_info. fold (pending sessions). case_bool_decide as Hp.
  { intros s Hs Hc. apply elem_of_recovered_parents.
    destruct (decide (se_id s ∈ recovered_parents sessions)) as [|Hn]; [done|].
    assert (s ∈ pending sessions) as Hin; [|by rewrite Hp in Hin; apply elem_of_nil in Hin].
    apply elem_of_List_filter. rewrite elem_of_List_filter. by rewrite bool_decide_false. }
  destruct (most_recent_spec now (pending sessions) Hp) as [(s & Hs & Hm) Hle].
  set (m := most_recent_time now (pending sessions)) in *.
  assert (Hwin : ∀ t, t ∈ List.filter (in_window m) (pending sessions) ↔
            t ∈ pending sessions ∧ (m - CRASH_WINDOW ≤ crash_time t)%Z).
  { intros t. rewrite elem_of_List_filter. unfold in_window. rewrite andb_true_iff, !Z.leb_le.
    split; intros (Ht & H'); (split; [done|]); [lia|]. specialize (Hle t Ht). lia. }
  assert (Hin : s ∈ List.filter (in_window m) (pending sessions)).
  { apply Hwin. split; [done|]. rewrite Hm. unfold CRASH_WINDOW. lia. }
  case_bool_decide as He; [by rewrite He in Hin; apply elem_of_nil in Hin|].
  eexists. split; [reflexivity|]. split; [reflexivity|]. split; [apply sort_latest_sorted|].
  cbn [cr_most_recent_crash]. unfold sort_latest. split; [|split; [exact Hle|]].
  - intros t. rewrite elem_of_sort_by. apply Hwin.
  - exists s. rewrite elem_of_sort_by. auto.
Qed.

(** ** The copy *)

Definition role_and_blocks (m : StoredMessage) : Role * list ContentBlock :=
  (st_role m, st_content m).

(** What is kept of a conversation. *)
Definition text_only (messages : list StoredMessage) : list (Role * list ContentBlock) :=
  List.filter (λ m, negb (bool_decide (m.2 = [])))
    ((λ m, (st_role m, kept_blocks m)) <$> messages).

Lemma recover_messages_spec now message_id messages : ∀ n s,
  let s' := recover_messages now message_id n messages s in
  role_and_blocks <$> se_messages s' = (role_and_blocks <$> se_messages s) ++ text_only messages
  ∧ se_id s' = se_id s ∧ journal_meta s' = journal_meta s ∧ se_env_snapshots s' = se_env_snapshots s
  ∧ ps_snapshot_exists (se_persist_state s') = ps_snapshot_exists (se_persist_state s).
Proof.
  induction messages as [|msg rest IH]; intros n s; cbn [recover_messages].
  { unfold text_only. by rewrite app_nil_r. }
  unfold text_only. cbn [fmap list_fmap List.filter snd].
  case_bool_decide as Hk.
  - apply length_zero_iff_nil in Hk. rewrite Hk. apply IH.
  - destruct (bool_decide (kept_blocks msg = [])) eqn:E.
    { apply bool_decide_eq_true in E. by rewrite E in Hk. }
    destruct (IH (S n) (add_message now (message_id n) (st_role msg) (kept_blocks msg) s).2)
      as (Hm & Hi & Hj & He & Hx).
    rewrite Hm, Hi, Hj, He, Hx. cbn. split; [|done]. by rewrite fmap_app, <- app_assoc.
Qed.

(** C26. The session made from a crashed one: closed, with the crashed one as its
    parent and its settings, without its conversation at the provider; its
    messages are the header and, in order and under the same roles, the text
    blocks of every message that has any. Saving it then succeeds and a load
    gives it back. *)
Theorem recovered_session_correct now env new_id message_id old :
  let s := recovery_session now env new_id message_id old in
  (role_and_blocks <$> se_messages s
   = (User, [Text (recovery_header old) None]) :: text_only (se_messages old))
  ∧ Forall (λ m, st_content m ≠ [] ∧ Forall (λ b, is_text b = true) (st_content m)) (se_messages s)
  ∧ se_status s = StatusClosed ∧ se_parent_id s = Some (se_id old)
  ∧ se_provider_session_id s = None ∧ se_model s = se_model old ∧ se_title s = se_title old
  ∧ se_working_dir s = se_working_dir old ∧ se_saved s = se_saved old
  ∧ ∀ base suffix w, reliable w → w_gcode_dir w = inl base →
      ∃ s' w' t, save now suffix s w = (inl (), s', w') ∧ load new_id w' = (inl t, w')
        ∧ persisted t = persisted (se_set_updated_at now s).
Proof.
  cbn zeta. unfold recovery_session.
  set (s0 := (add_message _ _ _ _ _).2).
  destruct (recover_messages_spec now message_id (se_messages old) 1 s0) as (Hm & Hi & Hj & He & Hx).
  set (s := recover_messages now message_id 1 (se_messages old) s0) in *.
  assert (Hmeta := Hj). unfold journal_meta in Hmeta. injection Hmeta as ??????????????????????.
  change (role_and_blocks <$> se_messages s0) with [(User, [Text (recovery_header old) None])] in Hm.
  split; [exact Hm|]. split.
  { apply (proj1 (Forall_fmap role_and_blocks
      (λ m, m.2 ≠ [] ∧ Forall (λ b, is_text b = true) m.2) (se_messages s))).
    rewrite Hm. constructor; [by repeat constructor|]. unfold text_only.
    apply Forall_forall. intros m. rewrite elem_of_List_filter, list_elem_of_fmap.
    intros [(msg & -> & _) Hne]. split.
    - by case_bool_decide.
    - apply Forall_forall. cbn. unfold kept_blocks. by intros b [_ E]%elem_of_List_filter. }
  do 7 (split; [done|]). intros base suffix w Hr Hg.
  assert (Hx' : ps_snapshot_exists (se_persist_state s) = false) by done.
  destruct (save_ok base now suffix nothing_hidden s w Hr Hg) as (s' & w' & Es & Hr' & Hg' & _ & Hs' & b & entries & Hh & Hp).
  { intros E. by rewrite E in Hx'. }
  change (se_id s0) with new_id in Hi. rewrite Hi in Hh.
  destruct (load_ok base new_id b entries w' Hr' Hg' Hh) as (t & El & Ht & _).
  exists s', w', t. split; [done|]. split; [done|]. rewrite Ht, Hp, behind_kept_nothing, Hs'. done.
Qed.

Lemma recover_all_ids base now env suffix rec_id message_id crashed : ∀ n new_ids w,
  reliable w → w_gcode_dir w = inl base →
  ∃ w', recover_all now env suffix rec_id message_id n crashed new_ids w
        = (inl (new_ids ++ ((λ k, "session_recovery_" +:+ rec_id k) <$> seq n (length crashed))), w')
        ∧ reliable w' ∧ w_gcode_dir w' = inl base.
Proof.
  induction crashed as [|old crashed IH]; intros n new_ids w Hr Hg; cbn [recover_all].
  { exists w. cbn. by rewrite app_nil_r. }
  set (new_id := "session_recovery_" +:+ rec_id n).
  set (s := recovery_session now env new_id (message_id n) old).
  destruct (save_ok base now suffix nothing_hidden s w Hr Hg) as (s' & w' & -> & Hr' & Hg' & _).
  { intros E. unfold s, recovery_session in E.
    set (s0 := (add_message _ _ _ _ _).2) in E.
    by rewrite (proj2 (proj2 (proj2 (proj2
      (recover_messages_spec now (message_id n) (se_messages old) 1 s0))))) in E. }
  destruct (IH (S n) (new_ids ++ [new_id]) w' Hr' Hg') as (w2 & E & Hr2 & Hg2).
  exists w2. rewrite E, <- app_assoc. done.
Qed.

(** Recovering makes one session for each one chosen, in their order. *)
Lemma recover_all_correct base now env suffix rec_id message_id crashed w :
  reliable w → w_gcode_dir w = inl base →
  (recover_all now env suffix rec_id message_id 0 crashed [] w).1
  = inl ((λ k, "session_recovery_" +:+ rec_id k) <$> seq 0 (length crashed)).
Proof.
  intros Hr Hg. by destruct (recover_all_ids base now env suffix rec_id message_id crashed 0 [] w Hr Hg)
    as (w' & -> & _).
Qed.
End crash_theorems.

(** * Recovery on concrete sessions

    A copy of a crashed session that is saved and loaded, and inputs on which
    the scans of crash.rs and the recovery disagree. *)

Definition crashed_at (id : string) (parent : option string) (at_ : datetime) (s : SessionStatus)
    : Session :=
  se_set_status s (se_set_last_active_at (Some at_) (create_with_id at_ example_env id parent None)).

Definition seconds (n : Z) : Z := n * 1000000000.

Definition fox : Session := crashed_at "session_fox_1" None (seconds 0) (StatusCrashed None).
Definition owl : Session := crashed_at "session_owl_2" None (seconds 100) (StatusCrashed None).
Definition recovered_owl : Session :=
  crashed_at "session_recovery_rec_3" (Some "session_owl_2") (seconds 110) StatusClosed.

(** The recovery takes its window from the latest of all crashed sessions, the
    offer from the latest that is not recovered: a session that is offered is
    then not recovered. *)
Lemma offered_but_not_recovered :
  cr_session_ids <$> crashed_info 0 [fox; owl; recovered_owl] = Some ["session_fox_1"]
  ∧ sessions_to_recover 0 [fox; owl; recovered_owl] = [].
Proof. split; vm_compute; reflexivity. Qed.

Definition fox_talk : Session :=
  (add_message 5 "m2" Assistant
     [Text "b" None; ToolUse "t1" "bash" "{}"; Text "c" None]
     (add_message 4 "m1" User [Text "a" None] fox).2).2.

Lemma recovered_session_witness : ∃ s' w' t,
  save 9 "7.9" (recovery_session 9 example_env "session_recovery_r" (λ n, pretty n) fox_talk)
    (example_world []) = (inl (), s', w')
  ∧ load "session_recovery_r" w' = (inl t, w')
  ∧ texts t = ["Recovered from crashed session `session_fox_1` (fox)"; "a"; "b"; "c"].
Proof.
  destruct (recovered_session_correct 9 example_env "session_recovery_r" (λ n, pretty n) fox_talk)
    as (_ & _ & _ & _ & _ & _ & _ & _ & _ & Hsave).
  destruct (Hsave "/g" "7.9" (example_world []) eq_refl eq_refl) as (s' & w' & t & Es & El & Ep).
  exists s', w', t. split; [exact Es|]. split; [exact El|]. unfold texts.
  rewrite (proj1 (proj2 (proj2 (persisted_fields _ _ Ep)))). vm_compute. reflexivity.
Defined.

(** ** The legacy scan *)

Definition quoted (s : string) : string := dquote +:+ s +:+ dquote.

Definition fox_text : string :=
  "{" +:+ quoted "id" +:+ ":" +:+ quoted "session_fox_1" +:+ "," +:+ quoted "status" +:+ ":{"
  +:+ quoted "Crashed" +:+ ":{}}}".

Definition recovery_text : string :=
  "{" +:+ quoted "id" +:+ ":" +:+ quoted "session_recovery_rec_2" +:+ ","
  +:+ quoted "parent_id" +:+ ":" +:+ quoted "session_fox_1" +:+ "}".

Definition fox_header : SessionHeader := {|
  sh_id := "session_fox_1"; sh_parent_id := None; sh_updated_at := 5; sh_short_name := None;
  sh_status := StatusCrashed None; sh_last_active_at := None |}.

Definition recovery_header_of_fox : SessionHeader := {|
  sh_id := "session_recovery_rec_2"; sh_parent_id := Some "session_fox_1"; sh_updated_at := 6;
  sh_short_name := None; sh_status := StatusClosed; sh_last_active_at := None |}.

Definition example_headers (text : string) : option SessionHeader :=
  if text =s fox_text then Some fox_header
  else if text =s recovery_text then Some recovery_header_of_fox
  else None.

Definition legacy_world : World :=
  set_dirs {["/g/sessions"]}
    (set_files {["/g/sessions/session_fox_1.json" := fox_text;
                 "/g/sessions/session_recovery_rec_2.json" := recovery_text]} (example_world [])).

(** The legacy scan looks for the quoted word [session_recovery_], which no
    identifier of a recovery session is: a crashed session whose recovery
    session is beside it is still found. *)
Lemma legacy_scan_misses_recoveries :
  (find_crashed_legacy_scan 10 (λ _, Some None) example_headers legacy_world).1
  = [("session_fox_1", "fox")].
Proof. vm_compute. reflexivity. Qed.

Lemma timestamps_of_names :
  extract_timestamp_from_filename "session_fox_1772405007295.json" = Some 1772405007295%Z
  ∧ extract_timestamp_from_filename "session_1772405007295_hash.json" = Some 1772405007295%Z
  ∧ extract_timestamp_from_filename "session_fox_9.json" = None.
Proof. repeat split; vm_compute; reflexivity. Qed.
