(* ===== verification/SwarmServerTypes.v ===== *)
(** * The data of the swarm server ([src/server/state.rs], [src/server.rs])

    The members of a swarm, the events sent to clients, the history of swarm
    events, and the state the server's tasks share. Every shared map of the code
    is behind its own lock; here it is a field of [Server], and a task is a
    function on that state. Channels to clients are numbered: what arrived is a
    log, and a send fails when the receiver is gone. *)

From S2P Require Import Prelude Utf8 FileTools SessionTypes SessionRender SwarmPlan SwarmCore Storage.
Open Scope nat_scope.

(** ** Events for clients *)

(** The sending half of a channel. *)
Abbreviation Sender := nat (only parsing).

(** The channel of a recovered member: its receiver is dropped at once. *)
Definition closed_sender : Sender := 0.

Inductive NotificationType :=
| FileConflict (path operation : string) (summary detail : option string)
| SharedContextNotice (key value : string)
| MessageNotice (scope channel : option string).

#[export] Instance NotificationType_eq_dec : EqDecision NotificationType.
Proof. solve_decision. Defined.

#[export] Instance ToolCallSummary_eq_dec : EqDecision ToolCallSummary.
Proof. solve_decision. Defined.

Record PlanGraphStatus := {
  gs_swarm_id : option string;
  gs_version : u64;
  gs_item_count : usize;
  gs_ready_ids : list string;
  gs_blocked_ids : list string;
  gs_active_ids : list string;
  gs_completed_ids : list string;
  gs_cycle_ids : list string;
  gs_unresolved_dependency_ids : list string;
  gs_next_ready_ids : list string;
  gs_newly_ready_ids : list string;
}.

#[export] Instance PlanGraphStatus_eq_dec : EqDecision PlanGraphStatus.
Proof. solve_decision. Defined.

Definition empty_for_swarm (swarm_id : string) : PlanGraphStatus := {|
  gs_swarm_id := Some swarm_id; gs_version := 0; gs_item_count := 0; gs_ready_ids := [];
  gs_blocked_ids := []; gs_active_ids := []; gs_completed_ids := []; gs_cycle_ids := [];
  gs_unresolved_dependency_ids := []; gs_next_ready_ids := []; gs_newly_ready_ids := [];
|}.

Definition from_versioned_plan `{HashOrder} (swarm_id : string) (plan : VersionedPlan)
    (next_ready_limit : option usize) (newly_ready_ids : list string) : PlanGraphStatus :=
  let graph := summarize_plan_graph (vp_items plan) in
  {| gs_swarm_id := Some swarm_id;
     gs_version := vp_version plan;
     gs_item_count := length (vp_items plan);
     gs_ready_ids := ready_ids graph;
     gs_blocked_ids := blocked_ids graph;
     gs_active_ids := active_ids graph;
     gs_completed_ids := completed_ids graph;
     gs_cycle_ids := cycle_ids graph;
     gs_unresolved_dependency_ids := unresolved_dependency_ids graph;
     gs_next_ready_ids := next_runnable_item_ids (vp_items plan) next_ready_limit;
     gs_newly_ready_ids := newly_ready_ids |}.

Record SwarmChannelInfo := {
  ci_channel : string;
  ci_member_count : usize;
}.

#[export] Instance SwarmChannelInfo_eq_dec : EqDecision SwarmChannelInfo.
Proof. solve_decision. Defined.

Record ContextEntry := {
  ce_key : string;
  ce_value : string;
  ce_from_session : string;
  ce_from_name : option string;
}.

#[export] Instance ContextEntry_eq_dec : EqDecision ContextEntry.
Proof. solve_decision. Defined.

Record AgentInfo := {
  ai_session_id : string;
  ai_friendly_name : option string;
  ai_files_touched : list string;
  ai_status : option string;
  ai_detail : option string;
  ai_role : option string;
  ai_is_headless : option bool;
  ai_report_back_to_session_id : option string;
  ai_latest_completion_report : option string;
  ai_live_attachments : option usize;
  ai_status_age_secs : option u64;
}.

#[export] Instance AgentInfo_eq_dec : EqDecision AgentInfo.
Proof. solve_decision. Defined.

Record AwaitedMemberStatus := {
  aw_session_id : string;
  aw_friendly_name : option string;
  aw_status : string;
  aw_done : bool;
  aw_completion_report : option string;
}.

#[export] Instance AwaitedMemberStatus_eq_dec : EqDecision AwaitedMemberStatus.
Proof. solve_decision. Defined.

(** The events of [ServerEvent] that swarm coordination sends or reads. *)
Inductive ServerEvent :=
| EventDone (id : u64)
| EventError (id : u64) (message : string) (retry_after_secs : option u64)
| EventStatusDetail (detail : string)
| EventToolStart (id name : string)
| EventToolDone (id name output : string) (error : option string)
| EventSessionCloseRequested (reason : string)
| EventSwarmStatus (members : list SwarmMemberStatus)
| EventSwarmPlan (swarm_id : string) (version : u64) (items : list PlanItem)
    (participants : list string) (reason : option string) (summary : option PlanGraphStatus)
| EventSwarmPlanProposal (swarm_id proposer_session : string) (proposer_name : option string)
    (items : list PlanItem) (summary proposal_key : string)
| EventNotification (from_session : string) (from_name : option string)
    (notification_type : NotificationType) (message : string)
| EventCommContext (id : u64) (entries : list ContextEntry)
| EventCommMembers (id : u64) (members : list AgentInfo)
| EventCommChannels (id : u64) (channels : list SwarmChannelInfo)
| EventCommSummaryResponse (id : u64) (session_id : string) (tool_calls : list ToolCallSummary)
| EventCommPlanStatusResponse (id : u64) (summary : PlanGraphStatus)
| EventCommAssignTaskResponse (id : u64) (task_id target_session : string)
| EventCommTaskControlResponse (id : u64) (action task_id : string)
    (target_session : option string) (status : string) (summary : PlanGraphStatus)
| EventCommSpawnResponse (id : u64) (session_id new_session_id : string)
| EventCommAwaitMembersResponse (id : u64) (completed : bool)
    (members : list AwaitedMemberStatus) (summary : string).

#[export] Instance ServerEvent_eq_dec : EqDecision ServerEvent.
Proof. solve_decision. Defined.

(** ** Members *)

(** Instants are milliseconds since the server started. *)
Record SwarmMember := {
  mb_session_id : string;
  mb_event_tx : Sender;
  mb_event_txs : gmap string Sender;
  mb_working_dir : option string;
  mb_swarm_id : option string;
  mb_swarm_enabled : bool;
  mb_status : string;
  mb_detail : option string;
  mb_friendly_name : option string;
  mb_report_back_to_session_id : option string;
  mb_latest_completion_report : option string;
  mb_role : string;
  mb_joined_at : u64;
  mb_last_status_change : u64;
  mb_is_headless : bool;
}.

#[export] Instance SwarmMember_eq_dec : EqDecision SwarmMember.
Proof. solve_decision. Defined.

Definition set_mb_event_tx (v : Sender) (m : SwarmMember) : SwarmMember :=
  {| mb_session_id := mb_session_id m; mb_event_tx := v; mb_event_txs := mb_event_txs m;
     mb_working_dir := mb_working_dir m; mb_swarm_id := mb_swarm_id m;
     mb_swarm_enabled := mb_swarm_enabled m; mb_status := mb_status m; mb_detail := mb_detail m;
     mb_friendly_name := mb_friendly_name m;
     mb_report_back_to_session_id := mb_report_back_to_session_id m;
     mb_latest_completion_report := mb_latest_completion_report m; mb_role := mb_role m;
     mb_joined_at := mb_joined_at m; mb_last_status_change := mb_last_status_change m;
     mb_is_headless := mb_is_headless m |}.
Definition set_mb_event_txs (v : gmap string Sender) (m : SwarmMember) : SwarmMember :=
  {| mb_session_id := mb_session_id m; mb_event_tx := mb_event_tx m; mb_event_txs := v;
     mb_working_dir := mb_working_dir m; mb_swarm_id := mb_swarm_id m;
     mb_swarm_enabled := mb_swarm_enabled m; mb_status := mb_status m; mb_detail := mb_detail m;
     mb_friendly_name := mb_friendly_name m;
     mb_report_back_to_session_id := mb_report_back_to_session_id m;
     mb_latest_completion_report := mb_latest_completion_report m; mb_role := mb_role m;
     mb_joined_at := mb_joined_at m; mb_last_status_change := mb_last_status_change m;
     mb_is_headless := mb_is_headless m |}.
Definition set_mb_status (v : string) (m : SwarmMember) : SwarmMember :=
  {| mb_session_id := mb_session_id m; mb_event_tx := mb_event_tx m;
     mb_event_txs := mb_event_txs m; mb_working_dir := mb_working_dir m;
     mb_swarm_id := mb_swarm_id m; mb_swarm_enabled := mb_swarm_enabled m; mb_status := v;
     mb_detail := mb_detail m; mb_friendly_name := mb_friendly_name m;
     mb_report_back_to_session_id := mb_report_back_to_session_id m;
     mb_latest_completion_report := mb_latest_completion_report m; mb_role := mb_role m;
     mb_joined_at := mb_joined_at m; mb_last_status_change := mb_last_status_change m;
     mb_is_headless := mb_is_headless m |}.
Definition set_mb_detail (v : option string) (m : SwarmMember) : SwarmMember :=
  {| mb_session_id := mb_session_id m; mb_event_tx := mb_event_tx m;
     mb_event_txs := mb_event_txs m; mb_working_dir := mb_working_dir m;
     mb_swarm_id := mb_swarm_id m; mb_swarm_enabled := mb_swarm_enabled m;
     mb_status := mb_status m; mb_detail := v; mb_friendly_name := mb_friendly_name m;
     mb_report_back_to_session_id := mb_report_back_to_session_id m;
     mb_latest_completion_report := mb_latest_completion_report m; mb_role := mb_role m;
     mb_joined_at := mb_joined_at m; mb_last_status_change := mb_last_status_change m;
     mb_is_headless := mb_is_headless m |}.
Definition set_mb_latest_completion_report (v : option string) (m : SwarmMember) : SwarmMember :=
  {| mb_session_id := mb_session_id m; mb_event_tx := mb_event_tx m;
     mb_event_txs := mb_event_txs m; mb_working_dir := mb_working_dir m;
     mb_swarm_id := mb_swarm_id m; mb_swarm_enabled := mb_swarm_enabled m;
     mb_status := mb_status m; mb_detail := mb_detail m; mb_friendly_name := mb_friendly_name m;
     mb_report_back_to_session_id := mb_report_back_to_session_id m;
     mb_latest_completion_report := v; mb_role := mb_role m; mb_joined_at := mb_joined_at m;
     mb_last_status_change := mb_last_status_change m; mb_is_headless := mb_is_headless m |}.
Definition set_mb_role (v : string) (m : SwarmMember) : SwarmMember :=
  {| mb_session_id := mb_session_id m; mb_event_tx := mb_event_tx m;
     mb_event_txs := mb_event_txs m; mb_working_dir := mb_working_dir m;
     mb_swarm_id := mb_swarm_id m; mb_swarm_enabled := mb_swarm_enabled m;
     mb_status := mb_status m; mb_detail := mb_detail m; mb_friendly_name := mb_friendly_name m;
     mb_report_back_to_session_id := mb_report_back_to_session_id m;
     mb_latest_completion_report := mb_latest_completion_report m; mb_role := v;
     mb_joined_at := mb_joined_at m; mb_last_status_change := mb_last_status_change m;
     mb_is_headless := mb_is_headless m |}.
Definition set_mb_last_status_change (v : u64) (m : SwarmMember) : SwarmMember :=
  {| mb_session_id := mb_session_id m; mb_event_tx := mb_event_tx m;
     mb_event_txs := mb_event_txs m; mb_working_dir := mb_working_dir m;
     mb_swarm_id := mb_swarm_id m; mb_swarm_enabled := mb_swarm_enabled m;
     mb_status := mb_status m; mb_detail := mb_detail m; mb_friendly_name := mb_friendly_name m;
     mb_report_back_to_session_id := mb_report_back_to_session_id m;
     mb_latest_completion_report := mb_latest_completion_report m; mb_role := mb_role m;
     mb_joined_at := mb_joined_at m; mb_last_status_change := v;
     mb_is_headless := mb_is_headless m |}.

Definition durable_record (m : SwarmMember) : SwarmMemberRecord := {|
  sm_session_id := mb_session_id m;
  sm_working_dir := mb_working_dir m;
  sm_swarm_id := mb_swarm_id m;
  sm_swarm_enabled := mb_swarm_enabled m;
  sm_status := status_from (mb_status m);
  sm_detail := mb_detail m;
  sm_friendly_name := mb_friendly_name m;
  sm_report_back_to_session_id := mb_report_back_to_session_id m;
  sm_latest_completion_report := mb_latest_completion_report m;
  sm_role := role_from (mb_role m);
  sm_is_headless := mb_is_headless m;
|}.

Definition from_record (now : u64) (r : SwarmMemberRecord) (event_tx : Sender) : SwarmMember := {|
  mb_session_id := sm_session_id r;
  mb_event_tx := event_tx;
  mb_event_txs := ∅;
  mb_working_dir := sm_working_dir r;
  mb_swarm_id := sm_swarm_id r;
  mb_swarm_enabled := sm_swarm_enabled r;
  mb_status := status_as_str (sm_status r);
  mb_detail := sm_detail r;
  mb_friendly_name := sm_friendly_name r;
  mb_report_back_to_session_id := sm_report_back_to_session_id r;
  mb_latest_completion_report := sm_latest_completion_report r;
  mb_role := role_as_str (sm_role r);
  mb_joined_at := now;
  mb_last_status_change := now;
  mb_is_headless := sm_is_headless r;
|}.

(** ** Swarm events and file accesses *)

Inductive SwarmEventType :=
| SwFileTouch (path op : string) (summary detail : option string)
| SwNotification (notification_type message : string)
| SwPlanUpdate (swarm_id : string) (item_count : usize)
| SwPlanProposal (swarm_id proposer_session : string) (item_count : usize)
| SwContextUpdate (swarm_id key : string)
| SwStatusChange (old_status new_status : string)
| SwMemberChange (action : string).

Record SwarmEvent := {
  we_id : u64;
  we_session_id : string;
  we_session_name : option string;
  we_swarm_id : option string;
  we_event : SwarmEventType;
  we_timestamp : u64;
}.

Definition MAX_EVENT_HISTORY : usize := 5000.

Record FileAccess := {
  fa_session_id : string;
  fa_op : FileOp;
  fa_timestamp : u64;
  fa_summary : option string;
  fa_detail : option string;
}.

Record SharedContext := {
  sx_key : string;
  sx_value : string;
  sx_from_session : string;
  sx_from_name : option string;
  sx_created_at : u64;
  sx_updated_at : u64;
}.

(** ** Interrupts *)

Inductive SoftInterruptSource := SourceUser | SourceSystem | SourceBackgroundTask.

Record SoftInterruptMessage := {
  si_content : string;
  si_urgent : bool;
  si_source : SoftInterruptSource;
}.

(** What the server reads of an agent: whether its lock is free, the queue of
    its soft interrupts, the summaries of its last tool calls, the working
    directory of its session, the model of its provider, and whether its session
    is a canary. *)
Record AgentHandle := {
  ag_idle : bool;
  ag_soft_interrupt_queue : nat;
  ag_tool_call_summaries : usize → list ToolCallSummary;
  ag_working_dir : option string;
  ag_provider_model : string;
  ag_is_canary : bool;
}.

(** ** What the server's files hold *)

Record PersistedVersionedPlan := {
  pp_items : list PlanItem;
  pp_version : u64;
  pp_participants : list string;
  pp_task_progress : gmap string SwarmTaskProgress;
}.

Record PersistedSwarmState := {
  ps_swarm_id : string;
  ps_plan : option PersistedVersionedPlan;
  ps_coordinator_session_id : option string;
  ps_members : list SwarmMemberRecord;
  ps_updated_at_unix_ms : u64;
}.

Inductive PersistedSwarmMutationResponse :=
| MutationDone
| MutationAssignTask (task_id target_session : string)
| MutationTaskControl (action task_id : string) (target_session : option string)
    (status : string) (summary : PlanGraphStatus)
| MutationError (message : string) (retry_after_secs : option u64)
| MutationSpawn (new_session_id : string).

Record PersistedSwarmMutationState := {
  mu_key : string;
  mu_action : string;
  mu_session_id : string;
  mu_created_at_unix_ms : u64;
  mu_final_response : option PersistedSwarmMutationResponse;
}.

Record PersistedAwaitMembersResult := {
  ar_completed : bool;
  ar_members : list AwaitedMemberStatus;
  ar_summary : string;
  ar_resolved_at_unix_ms : u64;
}.

Record PersistedAwaitMembersState := {
  am_key : string;
  am_session_id : string;
  am_swarm_id : string;
  am_target_status : list string;
  am_requested_ids : list string;
  am_mode : option string;
  am_created_at_unix_ms : u64;
  am_deadline_unix_ms : u64;
  am_final_response : option PersistedAwaitMembersResult;
}.

(** The JSON texts of these values, and of the values sent inside texts. *)
Class ServerCodec := {
  swarm_state_json : PersistedSwarmState → string;
  parse_swarm_state : string → option PersistedSwarmState;
  interrupts_json : list SoftInterruptMessage → string;
  parse_interrupts : string → option (list SoftInterruptMessage);
  mutation_json : PersistedSwarmMutationState → string;
  parse_mutation : string → option PersistedSwarmMutationState;
  await_json : PersistedAwaitMembersState → string;
  parse_await : string → option PersistedAwaitMembersState;
  items_json : list PlanItem → string;
  parse_items : string → option (list PlanItem);
}.

(** What is relied on: texts are UTF-8, and parsing inverts printing. *)
Class ServerCodecLaws `{ServerCodec} := {
  swarm_state_utf8 x : utf8_valid (swarm_state_json x) = true;
  parse_swarm_state_json x : parse_swarm_state (swarm_state_json x) = Some x;
  interrupts_utf8 x : utf8_valid (interrupts_json x) = true;
  parse_interrupts_json x : parse_interrupts (interrupts_json x) = Some x;
  mutation_utf8 x : utf8_valid (mutation_json x) = true;
  parse_mutation_json x : parse_mutation (mutation_json x) = Some x;
  await_utf8 x : utf8_valid (await_json x) = true;
  parse_await_json x : parse_await (await_json x) = Some x;
  parse_items_json x : parse_items (items_json x) = Some x;
}.

(** ** The shared state *)

Record SwarmState := {
  sw_members : gmap string SwarmMember;
  sw_swarms_by_id : gmap string (gset string);
  sw_plans : gmap string VersionedPlan;
  sw_coordinators : gmap string string;
}.

Definition set_members (v : gmap string SwarmMember) (w : SwarmState) : SwarmState :=
  {| sw_members := v; sw_swarms_by_id := sw_swarms_by_id w; sw_plans := sw_plans w;
     sw_coordinators := sw_coordinators w |}.
Definition set_swarms_by_id (v : gmap string (gset string)) (w : SwarmState) : SwarmState :=
  {| sw_members := sw_members w; sw_swarms_by_id := v; sw_plans := sw_plans w;
     sw_coordinators := sw_coordinators w |}.
Definition set_plans (v : gmap string VersionedPlan) (w : SwarmState) : SwarmState :=
  {| sw_members := sw_members w; sw_swarms_by_id := sw_swarms_by_id w; sw_plans := v;
     sw_coordinators := sw_coordinators w |}.
Definition set_coordinators (v : gmap string string) (w : SwarmState) : SwarmState :=
  {| sw_members := sw_members w; sw_swarms_by_id := sw_swarms_by_id w; sw_plans := sw_plans w;
     sw_coordinators := v |}.

Record PendingSwarmStatusBroadcast := {
  pb_scheduled : bool;
  pb_dirty : bool;
}.

(** [SwarmMutationRuntime] and [AwaitMembersRuntime]: who works on a key, and
    the requests that wait for its answer. *)
Record KeyRuntime := {
  rt_active_keys : gset string;
  rt_waiters : gmap string (list (u64 * Sender));
}.

(** A run of an assigned task, from [spawn_assigned_task_run]. *)
Record TaskRun := {
  tr_target_session : string;
  tr_swarm_id : string;
  tr_task_id : string;
  tr_assignment_text : string;
}.

(** The tasks that handlers spawn: the run of an assigned task, a message to an
    idle agent, the first message of a new agent, and a wait for members. *)
Inductive SpawnedTask :=
| SpawnedRun (run : TaskRun)
| SpawnedMessage (session_id message : string) (system_reminder : option string)
| SpawnedStartup (session_id initial_msg : string)
| SpawnedAwait (state : PersistedAwaitMembersState) (req_session_id : string).

(** The fields without a counterpart in the code are the log of what clients
    received, the channels that are closed, the files, the names of the temporary
    file and of the directory of the server, the environment variables, the tasks
    that were spawned, and the clock. *)
Record Server := {
  sv_swarm : SwarmState;
  sv_sent : list (Sender * ServerEvent);
  sv_closed : gset nat;
  sv_event_history : list SwarmEvent;
  sv_event_counter : u64;
  sv_event_log : list SwarmEvent;
  sv_pending : gmap string PendingSwarmStatusBroadcast;
  sv_queues : gmap string nat;
  sv_queue_contents : gmap nat (list SoftInterruptMessage);
  sv_sessions : gmap string AgentHandle;
  sv_file_touches : gmap string (list FileAccess);
  sv_files_touched_by_session : gmap string (gset string);
  sv_shared_context : gmap string (gmap string SharedContext);
  sv_channels : subscriptions * subscriptions;
  sv_client_connections : gmap string string;
  sv_mutations : KeyRuntime;
  sv_awaits : KeyRuntime;
  sv_runs : list SpawnedTask;
  sv_world : World;
  sv_runtime_dir : string;
  sv_tmp_suffix : string;
  sv_env : gmap string string;
  sv_now : u64;
}.

Definition set_swarm (v : SwarmState) (s : Server) : Server :=
  {| sv_swarm := v; sv_sent := sv_sent s; sv_closed := sv_closed s;
     sv_event_history := sv_event_history s; sv_event_counter := sv_event_counter s;
     sv_event_log := sv_event_log s; sv_pending := sv_pending s; sv_queues := sv_queues s;
     sv_queue_contents := sv_queue_contents s; sv_sessions := sv_sessions s;
     sv_file_touches := sv_file_touches s;
     sv_files_touched_by_session := sv_files_touched_by_session s;
     sv_shared_context := sv_shared_context s; sv_channels := sv_channels s;
     sv_client_connections := sv_client_connections s; sv_mutations := sv_mutations s;
     sv_awaits := sv_awaits s; sv_runs := sv_runs s; sv_world := sv_world s;
     sv_runtime_dir := sv_runtime_dir s; sv_tmp_suffix := sv_tmp_suffix s; sv_env := sv_env s;
     sv_now := sv_now s |}.
Definition set_sent (v : list (Sender * ServerEvent)) (s : Server) : Server :=
  {| sv_swarm := sv_swarm s; sv_sent := v; sv_closed := sv_closed s;
     sv_event_history := sv_event_history s; sv_event_counter := sv_event_counter s;
     sv_event_log := sv_event_log s; sv_pending := sv_pending s; sv_queues := sv_queues s;
     sv_queue_contents := sv_queue_contents s; sv_sessions := sv_sessions s;
     sv_file_touches := sv_file_touches s;
     sv_files_touched_by_session := sv_files_touched_by_session s;
     sv_shared_context := sv_shared_context s; sv_channels := sv_channels s;
     sv_client_connections := sv_client_connections s; sv_mutations := sv_mutations s;
     sv_awaits := sv_awaits s; sv_runs := sv_runs s; sv_world := sv_world s;
     sv_runtime_dir := sv_runtime_dir s; sv_tmp_suffix := sv_tmp_suffix s; sv_env := sv_env s;
     sv_now := sv_now s |}.
Definition set_closed (v : gset nat) (s : Server) : Server :=
  {| sv_swarm := sv_swarm s; sv_sent := sv_sent s; sv_closed := v;
     sv_event_history := sv_event_history s; sv_event_counter := sv_event_counter s;
     sv_event_log := sv_event_log s; sv_pending := sv_pending s; sv_queues := sv_queues s;
     sv_queue_contents := sv_queue_contents s; sv_sessions := sv_sessions s;
     sv_file_touches := sv_file_touches s;
     sv_files_touched_by_session := sv_files_touched_by_session s;
     sv_shared_context := sv_shared_context s; sv_channels := sv_channels s;
     sv_client_connections := sv_client_connections s; sv_mutations := sv_mutations s;
     sv_awaits := sv_awaits s; sv_runs := sv_runs s; sv_world := sv_world s;
     sv_runtime_dir := sv_runtime_dir s; sv_tmp_suffix := sv_tmp_suffix s; sv_env := sv_env s;
     sv_now := sv_now s |}.
Definition set_event_history (v : list SwarmEvent) (s : Server) : Server :=
  {| sv_swarm := sv_swarm s; sv_sent := sv_sent s; sv_closed := sv_closed s;
     sv_event_history := v; sv_event_counter := sv_event_counter s;
     sv_event_log := sv_event_log s; sv_pending := sv_pending s; sv_queues := sv_queues s;
     sv_queue_contents := sv_queue_contents s; sv_sessions := sv_sessions s;
     sv_file_touches := sv_file_touches s;
     sv_files_touched_by_session := sv_files_touched_by_session s;
     sv_shared_context := sv_shared_context s; sv_channels := sv_channels s;
     sv_client_connections := sv_client_connections s; sv_mutations := sv_mutations s;
     sv_awaits := sv_awaits s; sv_runs := sv_runs s; sv_world := sv_world s;
     sv_runtime_dir := sv_runtime_dir s; sv_tmp_suffix := sv_tmp_suffix s; sv_env := sv_env s;
     sv_now := sv_now s |}.
Definition set_event_counter (v : u64) (s : Server) : Server :=
  {| sv_swarm := sv_swarm s; sv_sent := sv_sent s; sv_closed := sv_closed s;
     sv_event_history := sv_event_history s; sv_event_counter := v;
     sv_event_log := sv_event_log s; sv_pending := sv_pending s; sv_queues := sv_queues s;
     sv_queue_contents := sv_queue_contents s; sv_sessions := sv_sessions s;
     sv_file_touches := sv_file_touches s;
     sv_files_touched_by_session := sv_files_touched_by_session s;
     sv_shared_context := sv_shared_context s; sv_channels := sv_channels s;
     sv_client_connections := sv_client_connections s; sv_mutations := sv_mutations s;
     sv_awaits := sv_awaits s; sv_runs := sv_runs s; sv_world := sv_world s;
     sv_runtime_dir := sv_runtime_dir s; sv_tmp_suffix := sv_tmp_suffix s; sv_env := sv_env s;
     sv_now := sv_now s |}.
Definition set_event_log (v : list SwarmEvent) (s : Server) : Server :=
  {| sv_swarm := sv_swarm s; sv_sent := sv_sent s; sv_closed := sv_closed s;
     sv_event_history := sv_event_history s; sv_event_counter := sv_event_counter s;
     sv_event_log := v; sv_pending := sv_pending s; sv_queues := sv_queues s;
     sv_queue_contents := sv_queue_contents s; sv_sessions := sv_sessions s;
     sv_file_touches := sv_file_touches s;
     sv_files_touched_by_session := sv_files_touched_by_session s;
     sv_shared_context := sv_shared_context s; sv_channels := sv_channels s;
     sv_client_connections := sv_client_connections s; sv_mutations := sv_mutations s;
     sv_awaits := sv_awaits s; sv_runs := sv_runs s; sv_world := sv_world s;
     sv_runtime_dir := sv_runtime_dir s; sv_tmp_suffix := sv_tmp_suffix s; sv_env := sv_env s;
     sv_now := sv_now s |}.
Definition set_pending (v : gmap string PendingSwarmStatusBroadcast) (s : Server) : Server :=
  {| sv_swarm := sv_swarm s; sv_sent := sv_sent s; sv_closed := sv_closed s;
     sv_event_history := sv_event_history s; sv_event_counter := sv_event_counter s;
     sv_event_log := sv_event_log s; sv_pending := v; sv_queues := sv_queues s;
     sv_queue_contents := sv_queue_contents s; sv_sessions := sv_sessions s;
     sv_file_touches := sv_file_touches s;
     sv_files_touched_by_session := sv_files_touched_by_session s;
     sv_shared_context := sv_shared_context s; sv_channels := sv_channels s;
     sv_client_connections := sv_client_connections s; sv_mutations := sv_mutations s;
     sv_awaits := sv_awaits s; sv_runs := sv_runs s; sv_world := sv_world s;
     sv_runtime_dir := sv_runtime_dir s; sv_tmp_suffix := sv_tmp_suffix s; sv_env := sv_env s;
     sv_now := sv_now s |}.
Definition set_queues (v : gmap string nat) (s : Server) : Server :=
  {| sv_swarm := sv_swarm s; sv_sent := sv_sent s; sv_closed := sv_closed s;
     sv_event_history := sv_event_history s; sv_event_counter := sv_event_counter s;
     sv_event_log := sv_event_log s; sv_pending := sv_pending s; sv_queues := v;
     sv_queue_contents := sv_queue_contents s; sv_sessions := sv_sessions s;
     sv_file_touches := sv_file_touches s;
     sv_files_touched_by_session := sv_files_touched_by_session s;
     sv_shared_context := sv_shared_context s; sv_channels := sv_channels s;
     sv_client_connections := sv_client_connections s; sv_mutations := sv_mutations s;
     sv_awaits := sv_awaits s; sv_runs := sv_runs s; sv_world := sv_world s;
     sv_runtime_dir := sv_runtime_dir s; sv_tmp_suffix := sv_tmp_suffix s; sv_env := sv_env s;
     sv_now := sv_now s |}.
Definition set_queue_contents (v : gmap nat (list SoftInterruptMessage)) (s : Server) : Server :=
  {| sv_swarm := sv_swarm s; sv_sent := sv_sent s; sv_closed := sv_closed s;
     sv_event_history := sv_event_history s; sv_event_counter := sv_event_counter s;
     sv_event_log := sv_event_log s; sv_pending := sv_pending s; sv_queues := sv_queues s;
     sv_queue_contents := v; sv_sessions := sv_sessions s; sv_file_touches := sv_file_touches s;
     sv_files_touched_by_session := sv_files_touched_by_session s;
     sv_shared_context := sv_shared_context s; sv_channels := sv_channels s;
     sv_client_connections := sv_client_connections s; sv_mutations := sv_mutations s;
     sv_awaits := sv_awaits s; sv_runs := sv_runs s; sv_world := sv_world s;
     sv_runtime_dir := sv_runtime_dir s; sv_tmp_suffix := sv_tmp_suffix s; sv_env := sv_env s;
     sv_now := sv_now s |}.
Definition set_sessions (v : gmap string AgentHandle) (s : Server) : Server :=
  {| sv_swarm := sv_swarm s; sv_sent := sv_sent s; sv_closed := sv_closed s;
     sv_event_history := sv_event_history s; sv_event_counter := sv_event_counter s;
     sv_event_log := sv_event_log s; sv_pending := sv_pending s; sv_queues := sv_queues s;
     sv_queue_contents := sv_queue_contents s; sv_sessions := v;
     sv_file_touches := sv_file_touches s;
     sv_files_touched_by_session := sv_files_touched_by_session s;
     sv_shared_context := sv_shared_context s; sv_channels := sv_channels s;
     sv_client_connections := sv_client_connections s; sv_mutations := sv_mutations s;
     sv_awaits := sv_awaits s; sv_runs := sv_runs s; sv_world := sv_world s;
     sv_runtime_dir := sv_runtime_dir s; sv_tmp_suffix := sv_tmp_suffix s; sv_env := sv_env s;
     sv_now := sv_now s |}.
Definition set_file_touches (v : gmap string (list FileAccess)) (s : Server) : Server :=
  {| sv_swarm := sv_swarm s; sv_sent := sv_sent s; sv_closed := sv_closed s;
     sv_event_history := sv_event_history s; sv_event_counter := sv_event_counter s;
     sv_event_log := sv_event_log s; sv_pending := sv_pending s; sv_queues := sv_queues s;
     sv_queue_contents := sv_queue_contents s; sv_sessions := sv_sessions s;
     sv_file_touches := v; sv_files_touched_by_session := sv_files_touched_by_session s;
     sv_shared_context := sv_shared_context s; sv_channels := sv_channels s;
     sv_client_connections := sv_client_connections s; sv_mutations := sv_mutations s;
     sv_awaits := sv_awaits s; sv_runs := sv_runs s; sv_world := sv_world s;
     sv_runtime_dir := sv_runtime_dir s; sv_tmp_suffix := sv_tmp_suffix s; sv_env := sv_env s;
     sv_now := sv_now s |}.
Definition set_files_touched_by_session (v : gmap string (gset string)) (s : Server) : Server :=
  {| sv_swarm := sv_swarm s; sv_sent := sv_sent s; sv_closed := sv_closed s;
     sv_event_history := sv_event_history s; sv_event_counter := sv_event_counter s;
     sv_event_log := sv_event_log s; sv_pending := sv_pending s; sv_queues := sv_queues s;
     sv_queue_contents := sv_queue_contents s; sv_sessions := sv_sessions s;
     sv_file_touches := sv_file_touches s; sv_files_touched_by_session := v;
     sv_shared_context := sv_shared_context s; sv_channels := sv_channels s;
     sv_client_connections := sv_client_connections s; sv_mutations := sv_mutations s;
     sv_awaits := sv_awaits s; sv_runs := sv_runs s; sv_world := sv_world s;
     sv_runtime_dir := sv_runtime_dir s; sv_tmp_suffix := sv_tmp_suffix s; sv_env := sv_env s;
     sv_now := sv_now s |}.
Definition set_shared_context (v : gmap string (gmap string SharedContext)) (s : Server) : Server :=
  {| sv_swarm := sv_swarm s; sv_sent := sv_sent s; sv_closed := sv_closed s;
     sv_event_history := sv_event_history s; sv_event_counter := sv_event_counter s;
     sv_event_log := sv_event_log s; sv_pending := sv_pending s; sv_queues := sv_queues s;
     sv_queue_contents := sv_queue_contents s; sv_sessions := sv_sessions s;
     sv_file_touches := sv_file_touches s;
     sv_files_touched_by_session := sv_files_touched_by_session s; sv_shared_context := v;
     sv_channels := sv_channels s; sv_client_connections := sv_client_connections s;
     sv_mutations := sv_mutations s; sv_awaits := sv_awaits s; sv_runs := sv_runs s;
     sv_world := sv_world s; sv_runtime_dir := sv_runtime_dir s;
     sv_tmp_suffix := sv_tmp_suffix s; sv_env := sv_env s; sv_now := sv_now s |}.
Definition set_channels (v : subscriptions * subscriptions) (s : Server) : Server :=
  {| sv_swarm := sv_swarm s; sv_sent := sv_sent s; sv_closed := sv_closed s;
     sv_event_history := sv_event_history s; sv_event_counter := sv_event_counter s;
     sv_event_log := sv_event_log s; sv_pending := sv_pending s; sv_queues := sv_queues s;
     sv_queue_contents := sv_queue_contents s; sv_sessions := sv_sessions s;
     sv_file_touches := sv_file_touches s;
     sv_files_touched_by_session := sv_files_touched_by_session s;
     sv_shared_context := sv_shared_context s; sv_channels := v;
     sv_client_connections := sv_client_connections s; sv_mutations := sv_mutations s;
     sv_awaits := sv_awaits s; sv_runs := sv_runs s; sv_world := sv_world s;
     sv_runtime_dir := sv_runtime_dir s; sv_tmp_suffix := sv_tmp_suffix s; sv_env := sv_env s;
     sv_now := sv_now s |}.
Definition set_client_connections (v : gmap string string) (s : Server) : Server :=
  {| sv_swarm := sv_swarm s; sv_sent := sv_sent s; sv_closed := sv_closed s;
     sv_event_history := sv_event_history s; sv_event_counter := sv_event_counter s;
     sv_event_log := sv_event_log s; sv_pending := sv_pending s; sv_queues := sv_queues s;
     sv_queue_contents := sv_queue_contents s; sv_sessions := sv_sessions s;
     sv_file_touches := sv_file_touches s;
     sv_files_touched_by_session := sv_files_touched_by_session s;
     sv_shared_context := sv_shared_context s; sv_channels := sv_channels s;
     sv_client_connections := v; sv_mutations := sv_mutations s;
     sv_awaits := sv_awaits s; sv_runs := sv_runs s; sv_world := sv_world s;
     sv_runtime_dir := sv_runtime_dir s; sv_tmp_suffix := sv_tmp_suffix s; sv_env := sv_env s;
     sv_now := sv_now s |}.
Definition set_mutations (v : KeyRuntime) (s : Server) : Server :=
  {| sv_swarm := sv_swarm s; sv_sent := sv_sent s; sv_closed := sv_closed s;
     sv_event_history := sv_event_history s; sv_event_counter := sv_event_counter s;
     sv_event_log := sv_event_log s; sv_pending := sv_pending s; sv_queues := sv_queues s;
     sv_queue_contents := sv_queue_contents s; sv_sessions := sv_sessions s;
     sv_file_touches := sv_file_touches s;
     sv_files_touched_by_session := sv_files_touched_by_session s;
     sv_shared_context := sv_shared_context s; sv_channels := sv_channels s;
     sv_client_connections := sv_client_connections s; sv_mutations := v;
     sv_awaits := sv_awaits s; sv_runs := sv_runs s; sv_world := sv_world s;
     sv_runtime_dir := sv_runtime_dir s; sv_tmp_suffix := sv_tmp_suffix s; sv_env := sv_env s;
     sv_now := sv_now s |}.
Definition set_awaits (v : KeyRuntime) (s : Server) : Server :=
  {| sv_swarm := sv_swarm s; sv_sent := sv_sent s; sv_closed := sv_closed s;
     sv_event_history := sv_event_history s; sv_event_counter := sv_event_counter s;
     sv_event_log := sv_event_log s; sv_pending := sv_pending s; sv_queues := sv_queues s;
     sv_queue_contents := sv_queue_contents s; sv_sessions := sv_sessions s;
     sv_file_touches := sv_file_touches s;
     sv_files_touched_by_session := sv_files_touched_by_session s;
     sv_shared_context := sv_shared_context s; sv_channels := sv_channels s;
     sv_client_connections := sv_client_connections s; sv_mutations := sv_mutations s;
     sv_awaits := v; sv_runs := sv_runs s; sv_world := sv_world s;
     sv_runtime_dir := sv_runtime_dir s; sv_tmp_suffix := sv_tmp_suffix s; sv_env := sv_env s;
     sv_now := sv_now s |}.
Definition set_runs (v : list SpawnedTask) (s : Server) : Server :=
  {| sv_swarm := sv_swarm s; sv_sent := sv_sent s; sv_closed := sv_closed s;
     sv_event_history := sv_event_history s; sv_event_counter := sv_event_counter s;
     sv_event_log := sv_event_log s; sv_pending := sv_pending s; sv_queues := sv_queues s;
     sv_queue_contents := sv_queue_contents s; sv_sessions := sv_sessions s;
     sv_file_touches := sv_file_touches s;
     sv_files_touched_by_session := sv_files_touched_by_session s;
     sv_shared_context := sv_shared_context s; sv_channels := sv_channels s;
     sv_client_connections := sv_client_connections s; sv_mutations := sv_mutations s;
     sv_awaits := sv_awaits s; sv_runs := v; sv_world := sv_world s;
     sv_runtime_dir := sv_runtime_dir s; sv_tmp_suffix := sv_tmp_suffix s; sv_env := sv_env s;
     sv_now := sv_now s |}.
Definition set_world (v : World) (s : Server) : Server :=
  {| sv_swarm := sv_swarm s; sv_sent := sv_sent s; sv_closed := sv_closed s;
     sv_event_history := sv_event_history s; sv_event_counter := sv_event_counter s;
     sv_event_log := sv_event_log s; sv_pending := sv_pending s; sv_queues := sv_queues s;
     sv_queue_contents := sv_queue_contents s; sv_sessions := sv_sessions s;
     sv_file_touches := sv_file_touches s;
     sv_files_touched_by_session := sv_files_touched_by_session s;
     sv_shared_context := sv_shared_context s; sv_channels := sv_channels s;
     sv_client_connections := sv_client_connections s; sv_mutations := sv_mutations s;
     sv_awaits := sv_awaits s; sv_runs := sv_runs s; sv_world := v;
     sv_runtime_dir := sv_runtime_dir s; sv_tmp_suffix := sv_tmp_suffix s; sv_env := sv_env s;
     sv_now := sv_now s |}.
Definition set_now (v : u64) (s : Server) : Server :=
  {| sv_swarm := sv_swarm s; sv_sent := sv_sent s; sv_closed := sv_closed s;
     sv_event_history := sv_event_history s; sv_event_counter := sv_event_counter s;
     sv_event_log := sv_event_log s; sv_pending := sv_pending s; sv_queues := sv_queues s;
     sv_queue_contents := sv_queue_contents s; sv_sessions := sv_sessions s;
     sv_file_touches := sv_file_touches s;
     sv_files_touched_by_session := sv_files_touched_by_session s;
     sv_shared_context := sv_shared_context s; sv_channels := sv_channels s;
     sv_client_connections := sv_client_connections s; sv_mutations := sv_mutations s;
     sv_awaits := sv_awaits s; sv_runs := sv_runs s; sv_world := sv_world s;
     sv_runtime_dir := sv_runtime_dir s; sv_tmp_suffix := sv_tmp_suffix s; sv_env := sv_env s;
     sv_now := v |}.

(** ** Tasks *)

(** An asynchronous function of the server. *)
Definition Srv (A : Type) : Type := Server → A * Server.

Definition sret {A} (x : A) : Srv A := λ s, (x, s).
Definition sbind {A B} (m : Srv A) (k : A → Srv B) : Srv B :=
  λ s, let (x, s) := m s in k x s.

Notation "x <~ m ; k" := (sbind m (λ x, k))
  (at level 100, m at next level, k at level 200, right associativity) : gcode_scope.
Notation "m ;~ k" := (sbind m (λ _, k))
  (at level 100, k at level 200, right associativity) : gcode_scope.

Definition gets {A} (f : Server → A) : Srv A := λ s, (f s, s).
Definition modify (f : Server → Server) : Srv unit := λ s, ((), f s).

Fixpoint for_each {A} (l : list A) (f : A → Srv unit) : Srv unit :=
  match l with
  | [] => sret ()
  | x :: l => f x ;~ for_each l f
  end.

Definition when (b : bool) (m : Srv unit) : Srv unit := if b then m else sret ().

(** [if let Some(x) = o { f(x) }] *)
Definition when_some {A} (o : option A) (f : A → Srv unit) : Srv unit :=
  match o with Some x => f x | None => sret () end.

(** The swarm a change of the shared maps concerns. *)
Definition on_swarm (f : SwarmState → SwarmState) : Srv unit :=
  modify (λ s, set_swarm (f (sv_swarm s)) s).

Definition on_members (f : gmap string SwarmMember → gmap string SwarmMember) : Srv unit :=
  on_swarm (λ w, set_members (f (sw_members w)) w).
Definition on_swarms (f : gmap string (gset string) → gmap string (gset string)) : Srv unit :=
  on_swarm (λ w, set_swarms_by_id (f (sw_swarms_by_id w)) w).
Definition on_plans (f : gmap string VersionedPlan → gmap string VersionedPlan) : Srv unit :=
  on_swarm (λ w, set_plans (f (sw_plans w)) w).
Definition on_coordinators (f : gmap string string → gmap string string) : Srv unit :=
  on_swarm (λ w, set_coordinators (f (sw_coordinators w)) w).

Definition get_members : Srv (gmap string SwarmMember) := gets (λ s, sw_members (sv_swarm s)).
Definition get_swarms : Srv (gmap string (gset string)) := gets (λ s, sw_swarms_by_id (sv_swarm s)).
Definition get_plans : Srv (gmap string VersionedPlan) := gets (λ s, sw_plans (sv_swarm s)).
Definition get_coordinators : Srv (gmap string string) :=
  gets (λ s, sw_coordinators (sv_swarm s)).

Definition now_unix_ms : Srv u64 := gets sv_now.

(** A computation on the files. *)
Definition run_io {A} (m : IO A) : Srv (A + string) := λ s,
  let (r, w) := m (sv_world s) in (r, set_world w s).

(** ** Channels *)

Definition is_closed (s : Server) (tx : Sender) : bool :=
  (tx =? closed_sender) || bool_decide (tx ∈ sv_closed s).

(** [tx.send(event).is_ok()] *)
Definition send (tx : Sender) (event : ServerEvent) : Srv bool := λ s,
  if is_closed s tx then (false, s)
  else (true, set_sent (sv_sent s ++ [(tx, event)]) s).

(** [let _ = tx.send(event);] *)
Definition send_ (tx : Sender) (event : ServerEvent) : Srv unit := send tx event ;~ sret ().
