(* ===== verification/SwarmPersistence.v ===== *)
(** * The stored state of swarms ([src/server/swarm_persistence.rs],
      [src/server/durable_state.rs], [src/server/state.rs])

    Each swarm has a file with its plan, its coordinator and its members. It is
    written after every change and read when the server starts, when what ran
    before is marked as stale or crashed. *)

From S2P Require Import Prelude Utf8 SessionStore SwarmPlan SwarmCore Storage SwarmServerTypes.
Open Scope nat_scope.

(** ** Names of files ([durable_state.rs]) *)

(** [ch.is_ascii_alphanumeric() || ch == '-' || ch == '_'] *)
Definition is_name_char (c : string) : bool :=
  match c with
  | String b EmptyString =>
      let n := Ascii.nat_of_ascii b in
      ((48 <=? n) && (n <=? 57)) || ((65 <=? n) && (n <=? 90)) || ((97 <=? n) && (n <=? 122))
      || (n =? 45) || (n =? 95)
  | _ => false
  end.

Definition sanitize_session_id (session_id : string) : string :=
  str_concat ((λ c, if is_name_char c then c else "_") <$> chars session_id).

(** [state_path(dir_name, key)] in the directory of the server. *)
Definition durable_state_path (runtime_dir dir_name key : string) : string :=
  path_join (path_join runtime_dir dir_name) (key +:+ ".json").

(** [elapsed_exceeds], where the time to live is in milliseconds. *)
Definition elapsed_exceeds (now created_at_unix_ms ttl_ms : u64) : bool :=
  (ttl_ms <? Z.max 0 (now - created_at_unix_ms))%Z.

Definition load_json_state {T} (parse : string → option T) (path : string) (is_stale : T → bool)
    : World → option T * World := λ w,
  match read_json parse path w with
  | (inl state, w) =>
      if is_stale state then (None, (io_ignore (remove_file path) w).2) else (Some state, w)
  | (inr _, w) => (None, w)
  end.

(** A failure is only logged. *)
Definition save_json_state (tmp_suffix path json : string) : World → World := λ w,
  (io_ignore (write_json_fast tmp_suffix path json) w).2.

(** ** Snapshots of a swarm ([state.rs]) *)

Record SwarmRuntime := {
  sr_swarm_id : string;
  sr_coordinator_session_id : option string;
  sr_member_session_ids : gset string;
  sr_members : list SwarmMember;
  sr_plan : option VersionedPlan;
}.

Definition has_any_state (r : SwarmRuntime) : bool :=
  bool_decide (is_Some (sr_plan r)) || bool_decide (is_Some (sr_coordinator_session_id r))
  || negb (is_nil (sr_members r)).

Definition in_swarm (swarm_id : string) (m : SwarmMember) : bool :=
  bool_decide (mb_swarm_id m = Some swarm_id).

Section order.
Context `{HashOrder}.

Definition load_runtime (w : SwarmState) (swarm_id : string) : SwarmRuntime := {|
  sr_swarm_id := swarm_id;
  sr_coordinator_session_id := sw_coordinators w !! swarm_id;
  sr_member_session_ids := default ∅ (sw_swarms_by_id w !! swarm_id);
  sr_members :=
    sort_by (λ left right, String.leb (mb_session_id left) (mb_session_id right))
      (filter (λ m, in_swarm swarm_id m = true) (hash_entries (sw_members w)).*2);
  sr_plan := sw_plans w !! swarm_id;
|}.

(** ** The file of a swarm ([swarm_persistence.rs]) *)

Definition SWARM_STATE_DIR : string := "gcode-swarm-state".

Definition swarm_state_dir (runtime_dir : string) : string := path_join runtime_dir SWARM_STATE_DIR.

Definition swarm_state_path (runtime_dir swarm_id : string) : string :=
  path_join (swarm_state_dir runtime_dir) (sanitize_session_id swarm_id +:+ ".json").

(** [task_progress.entry(id).or_default()] with the time since which the task is
    stale, unless it has one. *)
Definition progress_default : SwarmTaskProgress := {|
  tp_assigned_session_id := None; tp_assignment_summary := None; tp_assigned_at_unix_ms := None;
  tp_started_at_unix_ms := None; tp_last_heartbeat_unix_ms := None; tp_last_detail := None;
  tp_last_checkpoint_unix_ms := None; tp_checkpoint_summary := None;
  tp_completed_at_unix_ms := None; tp_stale_since_unix_ms := None; tp_heartbeat_count := None;
  tp_checkpoint_count := None;
|}.

Definition set_stale_since (since : option u64) (p : SwarmTaskProgress) : SwarmTaskProgress := {|
  tp_assigned_session_id := tp_assigned_session_id p;
  tp_assignment_summary := tp_assignment_summary p;
  tp_assigned_at_unix_ms := tp_assigned_at_unix_ms p;
  tp_started_at_unix_ms := tp_started_at_unix_ms p;
  tp_last_heartbeat_unix_ms := tp_last_heartbeat_unix_ms p;
  tp_last_detail := tp_last_detail p;
  tp_last_checkpoint_unix_ms := tp_last_checkpoint_unix_ms p;
  tp_checkpoint_summary := tp_checkpoint_summary p;
  tp_completed_at_unix_ms := tp_completed_at_unix_ms p;
  tp_stale_since_unix_ms := since;
  tp_heartbeat_count := tp_heartbeat_count p;
  tp_checkpoint_count := tp_checkpoint_count p;
|}.

(** [progress.stale_since_unix_ms.get_or_insert(now)] *)
Definition mark_stale_since (now : u64) (p : SwarmTaskProgress) : SwarmTaskProgress :=
  match tp_stale_since_unix_ms p with
  | Some _ => p
  | None => set_stale_since (Some now) p
  end.

Definition set_item_status (status : string) (item : PlanItem) : PlanItem := {|
  pi_content := pi_content item; pi_status := status; pi_priority := pi_priority item;
  pi_id := pi_id item; pi_subsystem := pi_subsystem item; pi_file_scope := pi_file_scope item;
  pi_blocked_by := pi_blocked_by item; pi_assigned_to := pi_assigned_to item;
|}.

(** The loop of [from_persisted_plan], for one item. *)
Definition recover_item (updated_at_unix_ms : u64)
    (acc : list PlanItem * gmap string SwarmTaskProgress) (item : PlanItem)
    : list PlanItem * gmap string SwarmTaskProgress :=
  let '(items, task_progress) := acc in
  if pi_status item =s "running" then
    (items ++ [set_item_status "running_stale" item],
     <[pi_id item := mark_stale_since updated_at_unix_ms
                       (default progress_default (task_progress !! pi_id item))]> task_progress)
  else (items ++ [item], task_progress).

Definition from_persisted_plan (plan : PersistedVersionedPlan) (updated_at_unix_ms : u64)
    : VersionedPlan :=
  let '(items, task_progress) :=
    foldl (recover_item updated_at_unix_ms) ([], pp_task_progress plan) (pp_items plan) in
  {| vp_items := items;
     vp_version := pp_version plan;
     vp_participants := list_to_set (pp_participants plan);
     vp_task_progress := task_progress |}.

Definition to_persisted_plan (plan : VersionedPlan) : PersistedVersionedPlan := {|
  pp_items := vp_items plan;
  pp_version := vp_version plan;
  pp_participants := sort_strings (hash_elements (vp_participants plan));
  pp_task_progress := vp_task_progress plan;
|}.

Definition append_recovery_detail (detail : option string) (note : string) : option string :=
  match detail with
  | Some existing =>
      if negb (trim existing =s "") then Some (existing +:+ " (" +:+ note +:+ ")") else Some note
  | None => Some note
  end.

Definition recover_member_status (status : SwarmLifecycleStatus) (detail : option string)
    (is_headless : bool) : SwarmLifecycleStatus * option string :=
  if decide (status = Running) then
    (Crashed, append_recovery_detail detail "recovered after reload while running")
  else if is_headless && negb (bool_decide (status ∈ [Completed; Failed; Stopped])) then
    (Crashed, append_recovery_detail detail "headless session did not survive reload")
  else (status, detail).

Definition from_persisted_member (now : u64) (r : SwarmMemberRecord) : SwarmMember :=
  let '(status, detail) :=
    recover_member_status (sm_status r) (sm_detail r) (sm_is_headless r) in
  from_record now {|
    sm_session_id := sm_session_id r; sm_working_dir := sm_working_dir r;
    sm_swarm_id := sm_swarm_id r; sm_swarm_enabled := sm_swarm_enabled r;
    sm_status := status; sm_detail := detail; sm_friendly_name := sm_friendly_name r;
    sm_report_back_to_session_id := sm_report_back_to_session_id r;
    sm_latest_completion_report := sm_latest_completion_report r; sm_role := sm_role r;
    sm_is_headless := sm_is_headless r
  |} closed_sender.

(** The loop of [load_runtime_state] over the members of a file. *)
Definition load_member (now : u64) (w : SwarmState) (r : SwarmMemberRecord) : SwarmState :=
  match sm_swarm_id r with
  | None => w
  | Some member_swarm_id =>
      let swarms := sw_swarms_by_id w in
      let w := set_swarms_by_id
        (<[member_swarm_id := {[sm_session_id r]} ∪ default ∅ (swarms !! member_swarm_id)]> swarms)
        w in
      set_members (<[sm_session_id r := from_persisted_member now r]> (sw_members w)) w
  end.

Definition load_swarm (now : u64) (w : SwarmState) (state : PersistedSwarmState) : SwarmState :=
  let swarm_id := ps_swarm_id state in
  let w := match ps_plan state with
           | Some plan =>
               set_plans (<[swarm_id := from_persisted_plan plan (ps_updated_at_unix_ms state)]>
                            (sw_plans w)) w
           | None => w
           end in
  let w := match ps_coordinator_session_id state with
           | Some coordinator =>
               set_coordinators (<[swarm_id := coordinator]> (sw_coordinators w)) w
           | None => w
           end in
  foldl (load_member now) w (ps_members state).

Definition no_swarms : SwarmState :=
  {| sw_members := ∅; sw_swarms_by_id := ∅; sw_plans := ∅; sw_coordinators := ∅ |}.

(** [std::fs::read_dir(dir)]: the names in a directory. *)
Definition read_dir (dir : string) : IO (list string) :=
  io_call (λ w, (inl (dir_entries dir w).*1, w)).

Context `{ServerCodec}.

(** The loop over the entries of the directory: every file is read, whatever its
    name. *)
Fixpoint load_entries (now : u64) (dir : string) (names : list string) (loaded : SwarmState)
    : World → SwarmState * World := λ w,
  match names with
  | [] => (loaded, w)
  | name :: names =>
      match read_json parse_swarm_state (path_join dir name) w with
      | (inl state, w) => load_entries now dir names (load_swarm now loaded state) w
      | (inr _, w) => load_entries now dir names loaded w
      end
  end.

Definition load_runtime_state (now : u64) (runtime_dir : string) : World → SwarmState * World := λ w,
  let dir := swarm_state_dir runtime_dir in
  match read_dir dir w with
  | (inr _, w) => (no_swarms, w)
  | (inl names, w) => load_entries now dir names no_swarms w
  end.

Definition persisted_state (now : u64) (swarm_id : string) (swarm_plan : option VersionedPlan)
    (coordinator_session_id : option string) (swarm_members : list SwarmMember)
    : PersistedSwarmState := {|
  ps_swarm_id := swarm_id;
  ps_plan := to_persisted_plan <$> swarm_plan;
  ps_coordinator_session_id := coordinator_session_id;
  ps_members := sort_by (λ left right, String.leb (sm_session_id left) (sm_session_id right))
                  (durable_record <$> swarm_members);
  ps_updated_at_unix_ms := now;
|}.

Definition persist_swarm_state (now : u64) (runtime_dir tmp_suffix swarm_id : string)
    (swarm_plan : option VersionedPlan) (coordinator_session_id : option string)
    (swarm_members : list SwarmMember) : World → World := λ w,
  if negb (bool_decide (is_Some swarm_plan)) && negb (bool_decide (is_Some coordinator_session_id))
     && is_nil swarm_members
  then (io_ignore (remove_file (swarm_state_path runtime_dir swarm_id)) w).2
  else
    let state := persisted_state now swarm_id swarm_plan coordinator_session_id swarm_members in
    (io_ignore (write_json_fast tmp_suffix (swarm_state_path runtime_dir swarm_id)
                  (swarm_state_json state)) w).2.

(** ** Persisting the shared state ([src/server.rs]) *)

Definition on_world (f : Server → World → World) : Srv unit :=
  modify (λ s, set_world (f s (sv_world s)) s).

Definition persist_swarm_state_for (swarm_id : string) : Srv unit :=
  on_world (λ s, let runtime := load_runtime (sv_swarm s) swarm_id in
    persist_swarm_state (sv_now s) (sv_runtime_dir s) (sv_tmp_suffix s) swarm_id
      (sr_plan runtime) (sr_coordinator_session_id runtime) (sr_members runtime)).

Definition remove_swarm_state (runtime_dir swarm_id : string) : World → World := λ w,
  (io_ignore (remove_file (swarm_state_path runtime_dir swarm_id)) w).2.

Definition remove_persisted_swarm_state_for (swarm_id : string) : Srv unit :=
  on_world (λ s w, let runtime := load_runtime (sv_swarm s) swarm_id in
    if has_any_state runtime then w else remove_swarm_state (sv_runtime_dir s) swarm_id w).

End order.
