(* ===== verification/SwarmServer.v ===== *)
(** * Members, tasks and events of swarms ([src/server/state.rs],
      [src/server/swarm.rs], [src/soft_interrupt_store.rs])

    Delivering events to clients, interrupts for agents, the progress and the
    staleness of tasks, broadcasts, and what happens when a member changes its
    status or leaves. A function here is the whole of an asynchronous function of
    the code, run without another task in between. *)

From S2P Require Import Prelude Utf8 UnifiedPatch FileTools SessionTypes SessionStore SessionRender SwarmPlan SwarmCore Storage.
From S2P Require Import SwarmServerTypes SwarmPersistence.
Open Scope nat_scope.

Definition is_modification (op : FileOp) : bool :=
  match op with OpWrite | OpEdit => true | OpRead => false end.

(** ** Settings ([swarm.rs]) *)

(** [value.trim().parse().ok().filter(|value| *value > 0).unwrap_or(default)] *)
Definition configured_positive_u64 (value : option string) (default_value : u64) : u64 :=
  match value ≫= λ v, parse_usize (trim v) with
  | Some v => if 0 <? v then Z.of_nat v else default_value
  | None => default_value
  end.

Definition swarm_status_debounce_member_threshold (s : Server) : usize :=
  Z.to_nat (configured_positive_u64
    (sv_env s !! "GCODE_SWARM_STATUS_DEBOUNCE_MEMBER_THRESHOLD") 2).

(** Milliseconds. *)
Definition swarm_task_stale_after (s : Server) : u64 :=
  (configured_positive_u64 (sv_env s !! "GCODE_SWARM_TASK_STALE_AFTER_SECS") 45 * 1000)%Z.

Definition status_age_secs (now last_status_change : u64) : u64 :=
  (Z.max 0 (now - last_status_change) / 1000)%Z.

(** ** The progress of tasks ([swarm.rs]) *)

(** [plan.items.iter_mut().find(|item| item.id == id)], changed by [f]. *)
Fixpoint update_item (id : string) (f : PlanItem → PlanItem) (items : list PlanItem)
    : list PlanItem :=
  match items with
  | [] => []
  | item :: items => if pi_id item =s id then f item :: items else item :: update_item id f items
  end.

Definition u64_incr (count : option u64) : option u64 := Some (u64_succ (default 0%Z count)).

Section order.
Context `{HashOrder}.

(** What a heartbeat or a checkpoint writes into the progress of a task. *)
Definition touched_progress (now : u64) (assigned_session_id detail checkpoint_summary : option string)
    (p : SwarmTaskProgress) : SwarmTaskProgress := {|
  tp_assigned_session_id :=
    match assigned_session_id with Some s => Some s | None => tp_assigned_session_id p end;
  tp_assignment_summary := tp_assignment_summary p;
  tp_assigned_at_unix_ms := tp_assigned_at_unix_ms p;
  tp_started_at_unix_ms := tp_started_at_unix_ms p;
  tp_last_heartbeat_unix_ms := Some now;
  tp_last_detail :=
    match detail with Some d => Some (truncate_detail d 120) | None => tp_last_detail p end;
  tp_last_checkpoint_unix_ms :=
    match checkpoint_summary with Some _ => Some now | None => tp_last_checkpoint_unix_ms p end;
  tp_checkpoint_summary :=
    match checkpoint_summary with
    | Some summary => Some (truncate_detail summary 120)
    | None => tp_checkpoint_summary p
    end;
  tp_completed_at_unix_ms := tp_completed_at_unix_ms p;
  tp_stale_since_unix_ms := tp_stale_since_unix_ms p;
  tp_heartbeat_count := u64_incr (tp_heartbeat_count p);
  tp_checkpoint_count :=
    match checkpoint_summary with
    | Some _ => u64_incr (tp_checkpoint_count p)
    | None => tp_checkpoint_count p
    end;
|}.

(** The locked section of [touch_swarm_task_progress]; [None] when the plan has
    no such task. *)
Definition touch_plan (now : u64) (task_id : string)
    (assigned_session_id detail checkpoint_summary : option string) (plan : VersionedPlan)
    : option (bool * VersionedPlan) :=
  match find_item task_id (vp_items plan) with
  | None => None
  | Some item =>
      let progress := touched_progress now assigned_session_id detail checkpoint_summary
        (default progress_default (vp_task_progress plan !! task_id)) in
      if pi_status item =s "running_stale" then
        Some (true, {|
          vp_items := update_item task_id (set_item_status "running") (vp_items plan);
          vp_version := u64_succ (vp_version plan);
          vp_participants := vp_participants plan;
          vp_task_progress :=
            <[task_id := set_stale_since None progress]> (vp_task_progress plan) |})
      else
        Some (false, {|
          vp_items := vp_items plan;
          vp_version := vp_version plan;
          vp_participants := vp_participants plan;
          vp_task_progress := <[task_id := progress]> (vp_task_progress plan) |})
  end.

Context `{ServerCodec}.

Definition touch_swarm_task_progress (swarm_id task_id : string)
    (assigned_session_id detail checkpoint_summary : option string) : Srv bool :=
  now <~ now_unix_ms;
  plans <~ get_plans;
  match plans !! swarm_id ≫= touch_plan now task_id assigned_session_id detail checkpoint_summary with
  | None => sret false
  | Some (revived, plan) =>
      on_plans (insert swarm_id plan) ;~
      persist_swarm_state_for swarm_id ;~
      sret revived
  end.

(** The body of the loop of [refresh_swarm_task_staleness], for one item. *)
Definition refresh_item (now stale_after_ms : u64)
    (acc : list PlanItem * VersionedPlan * bool) (item : PlanItem)
    : list PlanItem * VersionedPlan * bool :=
  let '(items, plan, changed) := acc in
  if negb (str_in (pi_status item) ["running"; "running_stale"]) then (items ++ [item], plan, changed)
  else
    let progress := default progress_default (vp_task_progress plan !! pi_id item) in
    let last_heartbeat :=
      match tp_last_heartbeat_unix_ms progress with
      | Some ts => Some ts
      | None => match tp_started_at_unix_ms progress with
                | Some ts => Some ts
                | None => tp_assigned_at_unix_ms progress
                end
      end in
    let is_stale := match last_heartbeat with
                    | Some ts => (stale_after_ms <=? Z.max 0 (now - ts))%Z
                    | None => true
                    end in
    let with_progress p := <[pi_id item := p]> (vp_task_progress plan) in
    let keep := {| vp_items := vp_items plan; vp_version := vp_version plan;
                   vp_participants := vp_participants plan;
                   vp_task_progress := with_progress progress |} in
    let change p := {| vp_items := vp_items plan; vp_version := u64_succ (vp_version plan);
                       vp_participants := vp_participants plan;
                       vp_task_progress := with_progress p |} in
    if (pi_status item =s "running") && is_stale then
      (items ++ [set_item_status "running_stale" item], change (mark_stale_since now progress), true)
    else if (pi_status item =s "running_stale") && negb is_stale then
      (items ++ [set_item_status "running" item], change (set_stale_since None progress), true)
    else (items ++ [item], keep, changed).

(** [for item in &mut plan.items]: the plan, and whether it changed. *)
Definition refresh_plan (now stale_after_ms : u64) (plan : VersionedPlan) : VersionedPlan * bool :=
  let '(items, plan, changed) :=
    foldl (refresh_item now stale_after_ms) ([], plan, false) (vp_items plan) in
  ({| vp_items := items; vp_version := vp_version plan; vp_participants := vp_participants plan;
      vp_task_progress := vp_task_progress plan |}, changed).

(** ** Delivery ([state.rs]) *)

(** Sends the event to every target and counts the deliveries. *)
Fixpoint deliver (targets : list Sender) (event : ServerEvent) : Srv usize :=
  match targets with
  | [] => sret 0
  | tx :: targets =>
      ok <~ send tx event;
      delivered <~ deliver targets event;
      sret (if ok : bool then S delivered else delivered)
  end.

Definition update_member (session_id : string) (f : SwarmMember → SwarmMember) : Srv unit :=
  on_members (λ members, match members !! session_id with
                         | Some m => <[session_id := f m]> members
                         | None => members
                         end).

Definition register_session_event_sender (session_id connection_id : string) (event_tx : Sender)
    : Srv unit :=
  update_member session_id (λ m,
    set_mb_event_txs (<[connection_id := event_tx]> (mb_event_txs m)) (set_mb_event_tx event_tx m)).

(** [if let Some((_, tx)) = event_txs.iter().next() { member.event_tx = tx.clone() }] *)
Definition adopt_first_tx (m : SwarmMember) : SwarmMember :=
  match hash_entries (mb_event_txs m) with
  | (_, tx) :: _ => set_mb_event_tx tx m
  | [] => m
  end.

Definition unregister_session_event_sender (session_id connection_id : string) : Srv unit :=
  update_member session_id (λ m,
    adopt_first_tx (set_mb_event_txs (delete connection_id (mb_event_txs m)) m)).

(** [member.event_txs.retain(|_, tx| !tx.is_closed())] *)
Definition retain_open (s : Server) (m : SwarmMember) : SwarmMember :=
  set_mb_event_txs (filter (λ entry, is_closed s entry.2 = false) (mb_event_txs m)) m.

Definition fanout_session_event (session_id : string) (event : ServerEvent) : Srv usize :=
  s <~ gets id;
  match sw_members (sv_swarm s) !! session_id with
  | None => sret 0
  | Some member =>
      let member := adopt_first_tx (retain_open s member) in
      let targets := match (hash_entries (mb_event_txs member)).*2 with
                     | [] => [mb_event_tx member]
                     | targets => targets
                     end in
      on_members (insert session_id member) ;~
      deliver targets event
  end.

Definition fanout_live_client_event (session_id : string) (event : ServerEvent) : Srv usize :=
  s <~ gets id;
  match sw_members (sv_swarm s) !! session_id with
  | None => sret 0
  | Some member =>
      let member := retain_open s member in
      on_members (insert session_id member) ;~
      deliver (hash_entries (mb_event_txs member)).*2 event
  end.

(** [let _ = fanout_session_event(..).await;] *)
Definition fanout_ (session_id : string) (event : ServerEvent) : Srv unit :=
  fanout_session_event session_id event ;~ sret ().

(** [if let Some(member) = members.get(id) { let _ = member.event_tx.send(..); }] *)
Definition notify_member (session_id : string) (event : ServerEvent) : Srv unit :=
  members <~ get_members;
  when_some (members !! session_id) (λ member, send_ (mb_event_tx member) event).

(** ** Soft interrupts ([state.rs], [soft_interrupt_store.rs]) *)

Definition interrupts_path (session_id : string) : IO string :=
  io_bind gcode_dir (λ base,
    io_ret (path_join (path_join base "pending-soft-interrupts") (session_id +:+ ".json"))).

Definition load_interrupts (session_id : string) : IO (list SoftInterruptMessage) :=
  path <-! interrupts_path session_id;
  exists_ <-! io_exists path;
  if exists_ then read_json parse_interrupts path else io_ret [].

Definition take_interrupts (session_id : string) : IO (list SoftInterruptMessage) :=
  path <-! interrupts_path session_id;
  loaded <-! load_interrupts session_id;
  exists_ <-! io_exists path;
  (if exists_ then io_ignore (remove_file path) else io_ret ()) ;!
  io_ret loaded.

Definition overwrite_interrupts (tmp_suffix session_id : string)
    (interrupts : list SoftInterruptMessage) : IO unit :=
  path <-! interrupts_path session_id;
  if is_nil interrupts then
    exists_ <-! io_exists path;
    if exists_ then io_ignore (remove_file path) else io_ret ()
  else
    create_dir_all (path_parent path) ;!
    write_json_fast tmp_suffix path (interrupts_json interrupts).

Definition append_interrupt (tmp_suffix session_id : string) (interrupt : SoftInterruptMessage)
    : IO unit :=
  current <-! load_interrupts session_id;
  overwrite_interrupts tmp_suffix session_id (current ++ [interrupt]).

(** [enqueue_soft_interrupt]; the mutex of a queue is never poisoned. *)
Definition enqueue_soft_interrupt (queue : nat) (message : SoftInterruptMessage) : Srv bool :=
  modify (λ s, set_queue_contents
    (<[queue := default [] (sv_queue_contents s !! queue) ++ [message]]> (sv_queue_contents s)) s) ;~
  sret true.

Definition register_session_interrupt_queue (session_id : string) (queue : nat) : Srv unit :=
  modify (λ s, set_queues (<[session_id := queue]> (sv_queues s)) s).

Definition rename_session_interrupt_queue (old_session_id new_session_id : string) : Srv unit :=
  modify (λ s, match sv_queues s !! old_session_id with
               | Some queue =>
                   set_queues (<[new_session_id := queue]> (delete old_session_id (sv_queues s))) s
               | None => s
               end).

Definition remove_session_interrupt_queue (session_id : string) : Srv unit :=
  modify (λ s, set_queues (delete session_id (sv_queues s)) s).

Definition queue_soft_interrupt_for_session (session_id content : string) (urgent : bool)
    (source : SoftInterruptSource) : Srv bool :=
  let message := {| si_content := content; si_urgent := urgent; si_source := source |} in
  s <~ gets id;
  match sv_queues s !! session_id with
  | Some queue => enqueue_soft_interrupt queue message
  | None =>
      match sv_sessions s !! session_id ≫=
              λ agent, if ag_idle agent then Some (ag_soft_interrupt_queue agent) else None with
      | Some queue =>
          register_session_interrupt_queue session_id queue ;~
          enqueue_soft_interrupt queue message
      | None =>
          let session_exists_ := bool_decide (is_Some (sv_sessions s !! session_id))
                                 || session_exists session_id (sv_world s) in
          if negb session_exists_ then sret false
          else
            appended <~ run_io (append_interrupt (sv_tmp_suffix s) session_id message);
            sret (match appended with inl _ => true | inr _ => false end)
      end
  end.

(** A system message that is not urgent; the answer is ignored. *)
Definition queue_system_interrupt (session_id content : string) : Srv unit :=
  queue_soft_interrupt_for_session session_id content false SourceSystem ;~ sret ().

(** ** Broadcasts ([swarm.rs]) *)

Definition swarm_session_ids (s : Server) (swarm_id : string) : list string :=
  default [] (hash_elements <$> sw_swarms_by_id (sv_swarm s) !! swarm_id).

Definition member_status (now : u64) (m : SwarmMember) : SwarmMemberStatus := {|
  ms_session_id := mb_session_id m;
  ms_friendly_name := mb_friendly_name m;
  ms_status := mb_status m;
  ms_detail := mb_detail m;
  ms_role := Some (mb_role m);
  ms_is_headless := Some (mb_is_headless m);
  ms_live_attachments := Some (size (mb_event_txs m));
  ms_status_age_secs := Some (status_age_secs now (mb_last_status_change m));
|}.

Definition broadcast_swarm_status_now (session_ids : list string) : Srv unit :=
  if is_nil session_ids then sret ()
  else
    s <~ gets id;
    let members_list :=
      omap (λ sid, member_status (sv_now s) <$> sw_members (sv_swarm s) !! sid) session_ids in
    for_each session_ids (λ sid, fanout_ sid (EventSwarmStatus members_list)).

(** The task that sends debounced broadcasts is [debounced_broadcast]. *)
Definition broadcast_swarm_status (swarm_id : string) : Srv unit :=
  s <~ gets id;
  let session_ids := swarm_session_ids s swarm_id in
  if is_nil session_ids then sret ()
  else if length session_ids <? swarm_status_debounce_member_threshold s then
    broadcast_swarm_status_now session_ids
  else
    let entry := default {| pb_scheduled := false; pb_dirty := false |} (sv_pending s !! swarm_id) in
    let entry := if pb_scheduled entry then {| pb_scheduled := true; pb_dirty := true |}
                 else {| pb_scheduled := true; pb_dirty := false |} in
    modify (λ s, set_pending (<[swarm_id := entry]> (sv_pending s)) s).

(** One round of the spawned task, after its sleep; the answer is whether the
    loop continues. *)
Definition debounced_broadcast (swarm_id : string) : Srv bool :=
  session_ids <~ gets (λ s, swarm_session_ids s swarm_id);
  broadcast_swarm_status_now session_ids ;~
  pending <~ gets sv_pending;
  match pending !! swarm_id with
  | None => sret false
  | Some entry =>
      if pb_dirty entry then
        modify (set_pending (<[swarm_id := {| pb_scheduled := pb_scheduled entry;
                                              pb_dirty := false |}]> pending)) ;~
        sret true
      else
        modify (set_pending (delete swarm_id pending)) ;~
        sret false
  end.

Definition broadcast_swarm_plan_with_previous (swarm_id : string) (reason : option string)
    (previous_items : option (list PlanItem)) : Srv unit :=
  s <~ gets id;
  match sw_plans (sv_swarm s) !! swarm_id with
  | None => sret ()
  | Some vp =>
      let newly_ready_ids := match previous_items with
                             | Some before => newly_ready_item_ids before (vp_items vp)
                             | None => []
                             end in
      let participants := sort_strings (hash_elements (vp_participants vp)) in
      let participants := if is_nil participants then sort_strings (swarm_session_ids s swarm_id)
                          else participants in
      if is_nil participants then sret ()
      else
        let event := EventSwarmPlan swarm_id (vp_version vp) (vp_items vp) participants reason
          (Some (from_versioned_plan swarm_id vp (Some 3) newly_ready_ids)) in
        for_each participants (λ sid, notify_member sid event)
  end.

Definition broadcast_swarm_plan (swarm_id : string) (reason : option string) : Srv unit :=
  broadcast_swarm_plan_with_previous swarm_id reason None.

Definition refresh_swarm_task_staleness : Srv unit :=
  now <~ now_unix_ms;
  stale_after_ms <~ gets swarm_task_stale_after;
  plans <~ get_plans;
  let changed_swarm_ids := omap
    (λ entry, if (refresh_plan now stale_after_ms entry.2).2 then Some entry.1 else None)
    (hash_entries plans) in
  on_plans (fmap (λ plan, (refresh_plan now stale_after_ms plan).1)) ;~
  for_each changed_swarm_ids (λ swarm_id,
    persist_swarm_state_for swarm_id ;~
    broadcast_swarm_plan swarm_id (Some "task_staleness_changed")).

(** ** Plan participants *)

Definition rename_in_plan (old_session_id new_session_id : string) (vp : VersionedPlan)
    : VersionedPlan := {|
  vp_items := (λ item,
    if decide (pi_assigned_to item = Some old_session_id) then {|
      pi_content := pi_content item; pi_status := pi_status item; pi_priority := pi_priority item;
      pi_id := pi_id item; pi_subsystem := pi_subsystem item; pi_file_scope := pi_file_scope item;
      pi_blocked_by := pi_blocked_by item; pi_assigned_to := Some new_session_id |}
    else item) <$> vp_items vp;
  vp_version := vp_version vp;
  vp_participants :=
    if decide (old_session_id ∈ vp_participants vp)
    then {[new_session_id]} ∪ (vp_participants vp ∖ {[old_session_id]})
    else vp_participants vp;
  vp_task_progress := vp_task_progress vp;
|}.

Definition update_plan (swarm_id : string) (f : VersionedPlan → VersionedPlan) : Srv unit :=
  on_plans (λ plans, match plans !! swarm_id with
                     | Some vp => <[swarm_id := f vp]> plans
                     | None => plans
                     end).

Definition rename_plan_participant (swarm_id old_session_id new_session_id : string) : Srv unit :=
  update_plan swarm_id (rename_in_plan old_session_id new_session_id).

Definition set_participants (participants : gset string) (vp : VersionedPlan) : VersionedPlan := {|
  vp_items := vp_items vp; vp_version := vp_version vp; vp_participants := participants;
  vp_task_progress := vp_task_progress vp;
|}.

Definition remove_plan_participant (swarm_id session_id : string) : Srv unit :=
  update_plan swarm_id (λ vp, set_participants (vp_participants vp ∖ {[session_id]}) vp).

(** ** File touches *)

Definition not_of_session (session_id : string) (accesses : list FileAccess) : list FileAccess :=
  filter (λ access, fa_session_id access ≠ session_id) accesses.

(** The accesses of the session leave one path, and an empty path is removed. *)
Definition forget_path (session_id : string) (touches : gmap string (list FileAccess))
    (path : string) : gmap string (list FileAccess) :=
  match touches !! path with
  | Some accesses =>
      let accesses := not_of_session session_id accesses in
      if is_nil accesses then delete path touches else <[path := accesses]> touches
  | None => touches
  end.

Definition remove_session_file_touches (session_id : string) : Srv unit :=
  modify (λ s,
    let touched_paths := sv_files_touched_by_session s !! session_id in
    let s := set_files_touched_by_session
      (delete session_id (sv_files_touched_by_session s)) s in
    match touched_paths with
    | Some paths =>
        set_file_touches
          (foldl (forget_path session_id) (sv_file_touches s) (hash_elements paths)) s
    | None =>
        set_file_touches
          (omap (λ accesses, let accesses := not_of_session session_id accesses in
                             if is_nil accesses then None else Some accesses)
             (sv_file_touches s)) s
    end).

(** The later access of two; the earlier one in the list wins a tie. *)
Definition keep_latest (latest_by_session : gmap string FileAccess) (access : FileAccess)
    : gmap string FileAccess :=
  match latest_by_session !! fa_session_id access with
  | Some existing =>
      if (fa_timestamp existing <? fa_timestamp access)%Z
      then <[fa_session_id access := access]> latest_by_session
      else latest_by_session
  | None => <[fa_session_id access := access]> latest_by_session
  end.

Definition latest_peer_touches (accesses : list FileAccess) (current_session_id : string)
    (swarm_session_ids : gset string) : list FileAccess :=
  let latest_by_session := foldl keep_latest ∅
    (filter (λ access, fa_session_id access ≠ current_session_id
                       ∧ fa_session_id access ∈ swarm_session_ids
                       ∧ is_modification (fa_op access) = true) accesses) in
  sort_by (λ left right, String.leb (fa_session_id left) (fa_session_id right))
    (hash_entries latest_by_session).*2.

(** ** Swarm events *)

Definition record_swarm_event (session_id : string) (session_name swarm_id : option string)
    (event : SwarmEventType) : Srv unit :=
  modify (λ s,
    let swarm_event := {|
      we_id := sv_event_counter s; we_session_id := session_id; we_session_name := session_name;
      we_swarm_id := swarm_id; we_event := event; we_timestamp := sv_now s |} in
    let history := sv_event_history s ++ [swarm_event] in
    let history := if MAX_EVENT_HISTORY <? length history then tail history else history in
    set_event_history history
      (set_event_log (sv_event_log s ++ [swarm_event])
        (set_event_counter (u64_succ (sv_event_counter s)) s))).

Definition record_swarm_event_for_session (session_id : string) (event : SwarmEventType) : Srv unit :=
  members <~ get_members;
  match members !! session_id with
  | Some member =>
      record_swarm_event session_id (mb_friendly_name member) (mb_swarm_id member) event
  | None => record_swarm_event session_id None None event
  end.

(** ** Leaving a swarm *)

Definition message_notice (scope : string) : NotificationType := MessageNotice (Some scope) None.

Definition has_window (w : SwarmState) (session_id : string) : bool :=
  match sw_members w !! session_id with Some m => negb (mb_is_headless m) | None => false end.

(** [swarm.iter().filter_map(..).min()] *)
Definition elect_coordinator (w : SwarmState) (swarm_id : string) : option string :=
  sw_swarms_by_id w !! swarm_id ≫= λ swarm,
    head (sort_strings (filter (λ session_id, has_window w session_id = true) (hash_elements swarm))).

Definition leave_swarm (swarm_id session_id : string) (swarms : gmap string (gset string))
    : gmap string (gset string) :=
  match swarms !! swarm_id with
  | Some swarm =>
      let swarm := swarm ∖ {[session_id]} in
      if decide (swarm = ∅) then delete swarm_id swarms else <[swarm_id := swarm]> swarms
  | None => swarms
  end.

(** The election, when the coordinator leaves. *)
Definition replace_coordinator (swarm_id : string) : Srv unit :=
  new_coordinator <~ gets (λ s, elect_coordinator (sv_swarm s) swarm_id);
  on_coordinators (λ coordinators,
    match new_coordinator with
    | Some new_id => <[swarm_id := new_id]> (delete swarm_id coordinators)
    | None => delete swarm_id coordinators
    end) ;~
  when_some new_coordinator (λ new_id,
    update_member new_id (set_mb_role "coordinator") ;~
    update_plan swarm_id (λ vp, set_participants ({[new_id]} ∪ vp_participants vp) vp) ;~
    members <~ get_members;
    when_some (members !! new_id) (λ member,
      send_ (mb_event_tx member)
        (EventNotification new_id (mb_friendly_name member) (message_notice "swarm")
           "You are now the coordinator for this swarm."))).

Definition remove_session_from_swarm (session_id swarm_id : string) : Srv unit :=
  remove_plan_participant swarm_id session_id ;~
  on_swarms (leave_swarm swarm_id session_id) ;~
  coordinators <~ get_coordinators;
  let was_coordinator := bool_decide (coordinators !! swarm_id = Some session_id) in
  when was_coordinator (replace_coordinator swarm_id) ;~
  update_member session_id (set_mb_role "agent") ;~
  plans <~ get_plans;
  (if decide (is_Some (plans !! swarm_id)) then persist_swarm_state_for swarm_id
   else remove_persisted_swarm_state_for swarm_id) ;~
  broadcast_swarm_status swarm_id.

(** ** Changes of status *)

(** [&session_id[..8.min(session_id.len())]]; [None] is a panic. *)
Definition short_session_id (session_id : string) : option string :=
  let n := 8 `min` String.length session_id in
  if is_char_boundary session_id n then Some (str_take n session_id) else None.

(** Who is told that a member finished. *)
Definition completion_recipient (session_id swarm_id : string)
    (report_back_to_session_id : option string) (members : gmap string SwarmMember)
    : option string :=
  let fallback_coordinator_id :=
    if decide (report_back_to_session_id = Some session_id) then None
    else mb_session_id <$> List.find (λ m,
           in_swarm swarm_id m && (mb_role m =s "coordinator") && negb (mb_session_id m =s session_id))
         (hash_entries members).*2 in
  match report_back_to_session_id with
  | Some owner_id => if owner_id =s session_id then fallback_coordinator_id else Some owner_id
  | None => fallback_coordinator_id
  end.

Definition should_notify_coordinator (old_status status : string)
    (report_back_to_session_id : option string) : bool :=
  (status =s "completed")
  || (bool_decide (is_Some report_back_to_session_id) && (old_status =s "running")
      && str_in status ["ready"; "failed"; "stopped"]).

(** The member after the change of its status. *)
Definition with_status (now : u64) (status : string) (detail completion_report : option string)
    (m : SwarmMember) : SwarmMember :=
  let m := if negb (mb_status m =s status) then set_mb_last_status_change now m else m in
  let m := set_mb_detail detail (set_mb_status status m) in
  match completion_report with
  | Some _ => set_mb_latest_completion_report completion_report m
  | None => m
  end.

(** The notification of [update_member_status_with_report]; [None] is a panic: the
    argument of [unwrap_or] is computed even when the member has a name. *)
Definition notify_completion (session_id swarm_id status : string)
    (completion_report : option string) (before : SwarmMember) : Srv (option unit) :=
  members <~ get_members;
  match completion_recipient session_id swarm_id (mb_report_back_to_session_id before) members with
  | None => sret (Some ())
  | Some recipient_session_id =>
      match short_session_id session_id with
      | None => sret None
      | Some short =>
          let name := default short (mb_friendly_name before) in
          let msg := completion_notification_message name status completion_report in
          fanout_ recipient_session_id
            (EventNotification session_id (mb_friendly_name before) (message_notice "swarm") msg) ;~
          sret (Some ())
      end
  end.

(** [with_events]: whether the sinks of events are given. *)
Definition update_member_status_with_report (session_id status : string)
    (detail completion_report : option string) (with_events : bool) : Srv (option unit) :=
  let completion_report := normalize_completion_report completion_report in
  now <~ now_unix_ms;
  members <~ get_members;
  match members !! session_id with
  | None => sret (Some ())
  | Some before =>
      let status_changed := negb (mb_status before =s status) in
      let detail_changed := bool_decide (mb_detail before ≠ detail) in
      let report_changed := bool_decide (is_Some completion_report)
        && bool_decide (mb_latest_completion_report before ≠ completion_report) in
      let member_changed := status_changed || detail_changed || report_changed in
      on_members (insert session_id (with_status now status detail completion_report before)) ;~
      match mb_swarm_id before with
      | None => sret (Some ())
      | Some id =>
          if negb member_changed then sret (Some ())
          else
            when (status_changed && with_events)
              (record_swarm_event session_id (mb_friendly_name before) (Some id)
                 (SwStatusChange (mb_status before) status)) ;~
            broadcast_swarm_status id ;~
            if status_changed
               && should_notify_coordinator (mb_status before) status
                    (mb_report_back_to_session_id before)
            then notify_completion session_id id status completion_report before
            else sret (Some ())
      end
  end.

Definition update_member_status (session_id status : string) (detail : option string)
    (with_events : bool) : Srv (option unit) :=
  update_member_status_with_report session_id status detail None with_events.

End order.
