(* ===== verification/SwarmPersistenceTheorems.v ===== *)
(** * Properties of the stored state of swarms

    What a server that starts finds of the swarms that were running before; and
    that old backups and removed swarms come back. *)

From S2P Require Import Prelude Utf8 Text SessionStore SwarmPlan SwarmCore Storage StorageTheorems SwarmServerTypes SwarmPersistence.
Open Scope nat_scope.

#[local] Arguments Ascii.eqb : simpl never.

(** ** Names *)

Lemma role_text value : role_as_str (role_from value) = value.
Proof.
  unfold role_from. repeat (case_match; [by match goal with E : (_ =s _) = true |- _ =>
    apply String.eqb_eq in E; subst end|]). done.
Qed.

Lemma status_text value : status_as_str (status_from value) = value.
Proof.
  unfold status_from. repeat (case_match; [by match goal with E : (_ =s _) = true |- _ =>
    apply String.eqb_eq in E; subst end|]). done.
Qed.

(** A sanitized identifier is a file name without a slash or a dot. *)
Lemma sanitized_chars id c :
  is_name_char (String c "") = false → String c "" ≠ "_" →
  char_in c (sanitize_session_id id) = false.
Proof.
  intros Hc Hu. unfold sanitize_session_id. induction (chars id) as [|x l IH]; [done|].
  rewrite fmap_cons. change (str_concat (?a :: ?b)) with (a +:+ str_concat b).
  assert (∀ a b, char_in c a = false → char_in c b = false → char_in c (a +:+ b) = false) as Happ.
  { induction a as [|y a IHa]; [done|]. intros b. cbn. intros [Hy Ha]%orb_false_iff Hb.
    change (Ascii.eqb y c || char_in c (a +:+ b) = false). rewrite Hy. by apply IHa. }
  apply Happ; [|done]. destruct (is_name_char x) eqn:Ex.
  - destruct x as [|y []]; try done. cbn. rewrite orb_false_r.
    apply Ascii.eqb_neq. intros ->. congruence.
  - cbn. rewrite orb_false_r. apply Ascii.eqb_neq. intros <-. by apply Hu.
Qed.

Lemma file_name_plain id : starts_with "/" (sanitize_session_id id +:+ ".json") = false.
Proof.
  pose proof (sanitized_chars id slash eq_refl ltac:(done)) as Hs.
  destruct (sanitize_session_id id) as [|b s]; [done|]. cbn in Hs |- *.
  apply orb_false_iff in Hs as [Hb _]. apply Ascii.eqb_neq in Hb.
  change ((Ascii.eqb slash b && true) = false). rewrite andb_true_r.
  apply Ascii.eqb_neq. congruence.
Qed.

Lemma json_files_apart runtime_dir id suffix :
  let path := swarm_state_path runtime_dir id in
  let tmp := with_extension path ("tmp." +:+ suffix) in
  let bak := with_extension path "bak" in
  tmp ≠ path ∧ bak ≠ path ∧ tmp ≠ bak.
Proof.
  cbn zeta. unfold swarm_state_path, swarm_state_dir.
  rewrite path_join_dir; [|done|apply file_name_plain|done|done]. rewrite <- !str_app_assoc.
  set (s := _ +:+ sanitize_session_id id).
  apply json_path_apart.
Qed.

Section theorems.
Context `{HashOrder} `{ServerCodec} `{!ServerCodecLaws}.

Definition snapshot (at_ : string → u64) (w : SwarmState) (id : string) : PersistedSwarmState :=
  let runtime := load_runtime w id in
  persisted_state (at_ id) id (sr_plan runtime) (sr_coordinator_session_id runtime) (sr_members runtime).

(** What is stored: the files of the directory, in the order in which it lists
    them, hold the states [L]. *)
Definition stored (runtime_dir : string) (L : list PersistedSwarmState) (world : World) : Prop :=
  (dir_entries (swarm_state_dir runtime_dir) world).*2 = swarm_state_json <$> L.

(** A state, the current one or an older one, of a swarm that still has what it
    had then: a plan, a coordinator, and each of its members. *)
Definition outlived (w : SwarmState) (st : PersistedSwarmState) : Prop :=
  let g := ps_swarm_id st in
  (is_Some (ps_plan st) → is_Some (sw_plans w !! g))
  ∧ (is_Some (ps_coordinator_session_id st) → is_Some (sw_coordinators w !! g))
  ∧ ∀ r, r ∈ ps_members st → sm_swarm_id r = Some g
      ∧ ∃ m, sw_members w !! sm_session_id r = Some m ∧ mb_swarm_id m = Some g.

(** The current state of each swarm of [ids], written at the time [at_], is the
    last one of the swarm among [L]; the backups, which hold what a file held
    before, come earlier. *)
Definition current_last (at_ : string → u64) (ids : list string) (w : SwarmState)
    (L : list PersistedSwarmState) : Prop :=
  Forall (outlived w) L
  ∧ ∀ g, g ∈ ids → ∃ L1 L2, L = L1 ++ snapshot at_ w g :: L2 ∧ Forall (λ st, ps_swarm_id st ≠ g) L2.

Lemma elem_of_dir_entries dir name text world :
  (name, text) ∈ dir_entries dir world → w_files world !! (dir +:+ "/" +:+ name) = Some text.
Proof.
  unfold dir_entries. rewrite list_elem_of_omap. intros ([path t] & Hin & He). cbn in He.
  destruct (rsplit_at slash path) as [[d n]|] eqn:E; [|done].
  destruct (d =s dir +:+ "/") eqn:Ed; [|done]. apply String.eqb_eq in Ed as ->.
  injection He as <- <-. apply rsplit_at_join in E as ->.
  rewrite str_app_assoc in Hin. by apply elem_of_hash_entries.
Qed.

(** The name of an entry has no slash. *)
Lemma rsplit_at_name c path a b : rsplit_at c path = Some (a, b) → char_in c b = false.
Proof.
  revert a b. induction path as [|x path IH]; intros a b; [done|]. cbn [rsplit_at].
  destruct (rsplit_at c path) as [[a' b']|] eqn:E; [intros [= _ <-]; by eapply IH|].
  destruct (Ascii.eqb x c); [|done]. intros [= _ <-]. clear IH. induction path as [|y path IH]; [done|].
  cbn [rsplit_at] in E. destruct (rsplit_at c path) as [[]|]; [done|]. cbn.
  destruct (Ascii.eqb y c) eqn:Ey; [done|]. by apply IH.
Qed.

Lemma dir_entry_plain dir name text world :
  (name, text) ∈ dir_entries dir world → starts_with "/" name = false.
Proof.
  unfold dir_entries. rewrite list_elem_of_omap. intros ([path t] & _ & He). cbn in He.
  destruct (rsplit_at slash path) as [[d n]|] eqn:E; [|done].
  destruct (d =s _); [|done]. injection He as <- <-. apply rsplit_at_name in E.
  destruct n as [|c n]; [done|]. cbn in E |- *. apply orb_false_iff in E as [E _].
  change ((Ascii.eqb slash c && true) = false). by rewrite andb_true_r, Ascii.eqb_sym.
Qed.

Lemma load_entries_stored now rd L world :
  stored rd L world → reliable world →
  load_runtime_state now rd world = (foldl (load_swarm now) no_swarms L, world).
Proof.
  intros Hst Hr. unfold load_runtime_state, read_dir, stored in *.
  rewrite io_call_reliable by done.
  assert (Hfiles : ∀ name text, (name, text) ∈ dir_entries (swarm_state_dir rd) world →
    w_files world !! (swarm_state_dir rd +:+ "/" +:+ name) = Some text ∧ starts_with "/" name = false).
  { intros name text Hin. split; [by apply elem_of_dir_entries|by eapply dir_entry_plain]. }
  revert Hst Hfiles. generalize (dir_entries (swarm_state_dir rd) world), no_swarms.
  induction L as [|st L IH]; intros [|[name text] entries] loaded Hst Hfiles; try done.
  rewrite !fmap_cons in *. cbn [snd fst] in *. injection Hst as -> Hst. cbn [load_entries foldl].
  destruct (Hfiles name (swarm_state_json st)) as [Hf Hn]; [by left|].
  unfold swarm_state_dir at 1. rewrite path_join_dir by done. fold (swarm_state_dir rd).
  rewrite (read_json_ok _ _ (swarm_state_json st) st); [|done|done| |].
  - apply IH; [done|]. intros name' text' Hin. apply Hfiles. by right.
  - apply swarm_state_utf8.
  - apply parse_swarm_state_json.
Qed.

(** ** What is loaded *)

Lemma foldl_load_member now w rs :
  sw_plans (foldl (load_member now) w rs) = sw_plans w
  ∧ sw_coordinators (foldl (load_member now) w rs) = sw_coordinators w.
Proof.
  revert w. induction rs as [|r rs IH]; intros w; [done|]. cbn [foldl].
  destruct (IH (load_member now w r)) as [-> ->]. unfold load_member. by destruct (sm_swarm_id r).
Qed.

Lemma load_swarm_plans now w st :
  sw_plans (load_swarm now w st) =
    match ps_plan st with
    | Some plan => <[ps_swarm_id st := from_persisted_plan plan (ps_updated_at_unix_ms st)]> (sw_plans w)
    | None => sw_plans w
    end
  ∧ sw_coordinators (load_swarm now w st) =
    match ps_coordinator_session_id st with
    | Some c => <[ps_swarm_id st := c]> (sw_coordinators w)
    | None => sw_coordinators w
    end.
Proof.
  unfold load_swarm. rewrite (proj1 (foldl_load_member _ _ _)), (proj2 (foldl_load_member _ _ _)).
  by destruct (ps_plan st), (ps_coordinator_session_id st).
Qed.

(** Files that have nothing of a swarm change nothing of it. *)
Lemma foldl_load_swarm_plans_other now L g : ∀ w,
  Forall (λ st, ps_swarm_id st = g → ps_plan st = None) L →
  sw_plans (foldl (load_swarm now) w L) !! g = sw_plans w !! g.
Proof.
  induction L as [|st L IH]; intros w; [done|]. intros [Hst HL]%Forall_cons. cbn [foldl].
  rewrite (IH _ HL), (proj1 (load_swarm_plans now w st)). destruct (ps_plan st); [|done].
  apply lookup_insert_ne. intros E. by apply Hst in E.
Qed.

Lemma foldl_load_swarm_coordinators_other now L g : ∀ w,
  Forall (λ st, ps_swarm_id st = g → ps_coordinator_session_id st = None) L →
  sw_coordinators (foldl (load_swarm now) w L) !! g = sw_coordinators w !! g.
Proof.
  induction L as [|st L IH]; intros w; [done|]. intros [Hst HL]%Forall_cons. cbn [foldl].
  rewrite (IH _ HL), (proj2 (load_swarm_plans now w st)). destruct (ps_coordinator_session_id st); [|done].
  apply lookup_insert_ne. intros E. by apply Hst in E.
Qed.

(** The members come from the records of all files, read in order. *)
Lemma foldl_load_swarm_members now w L :
  let loaded := foldl (load_member now) w (concat (ps_members <$> L)) in
  sw_members (foldl (load_swarm now) w L) = sw_members loaded
  ∧ sw_swarms_by_id (foldl (load_swarm now) w L) = sw_swarms_by_id loaded.
Proof.
  assert (Hcongr : ∀ rs w1 w2, sw_members w1 = sw_members w2 → sw_swarms_by_id w1 = sw_swarms_by_id w2 →
    sw_members (foldl (load_member now) w1 rs) = sw_members (foldl (load_member now) w2 rs)
    ∧ sw_swarms_by_id (foldl (load_member now) w1 rs) = sw_swarms_by_id (foldl (load_member now) w2 rs)).
  { induction rs as [|r rs IH]; intros w1 w2 Hm Hs; [done|]. apply IH; unfold load_member;
      destruct (sm_swarm_id r); cbn; congruence. }
  revert w. induction L as [|st L IH]; intros w; [done|]. rewrite fmap_cons. cbn [foldl concat].
  rewrite foldl_app. destruct (IH (load_swarm now w st)) as [-> ->]. apply Hcongr; unfold load_swarm;
    eapply Hcongr; by destruct (ps_plan st), (ps_coordinator_session_id st).
Qed.

Lemma foldl_load_member_other now rs k : ∀ w,
  Forall (λ r, sm_session_id r ≠ k) rs →
  sw_members (foldl (load_member now) w rs) !! k = sw_members w !! k.
Proof.
  induction rs as [|r rs IH]; intros w; [done|]. intros [Hr Hrs]%Forall_cons. cbn [foldl].
  rewrite (IH _ Hrs). unfold load_member. destruct (sm_swarm_id r); [|done]. by apply lookup_insert_ne.
Qed.

Lemma foldl_load_member_in now rs m k : ∀ w,
  durable_record m ∈ rs → NoDup (sm_session_id <$> rs) → mb_session_id m = k → is_Some (mb_swarm_id m) →
  sw_members (foldl (load_member now) w rs) !! k = Some (from_persisted_member now (durable_record m)).
Proof.
  intros w (rs1 & rs2 & ->)%list_elem_of_split Hnd Hk [g Hg]. rewrite foldl_app. cbn [foldl].
  rewrite foldl_load_member_other.
  - unfold load_member at 1. cbn [sm_swarm_id durable_record]. rewrite Hg. subst k. apply lookup_insert_eq.
  - rewrite fmap_app, fmap_cons in Hnd. apply NoDup_app in Hnd as (_ & _ & [Hnd _]%NoDup_cons).
    apply Forall_forall. intros r Hr E. apply Hnd, list_elem_of_fmap. exists r. by subst k.
Qed.

Lemma foldl_load_member_swarms now w rs g sid :
  sid ∈ default ∅ (sw_swarms_by_id (foldl (load_member now) w rs) !! g) ↔
    sid ∈ default ∅ (sw_swarms_by_id w !! g)
    ∨ ∃ r, r ∈ rs ∧ sm_swarm_id r = Some g ∧ sm_session_id r = sid.
Proof.
  revert w. induction rs as [|r rs IH]; intros w; cbn [foldl]; [set_solver|].
  rewrite IH. unfold load_member. destruct (sm_swarm_id r) as [g'|] eqn:E.
  - cbn. destruct (decide (g' = g)) as [->|Hne].
    + rewrite lookup_insert_eq. cbn. rewrite elem_of_union, elem_of_singleton.
      setoid_rewrite elem_of_cons. naive_solver.
    + rewrite lookup_insert_ne by done. setoid_rewrite elem_of_cons. naive_solver.
  - setoid_rewrite elem_of_cons. naive_solver.
Qed.

(** ** What a restart makes of a plan and of a member *)

Definition is_running (item : PlanItem) : bool := pi_status item =s "running".

(** Running tasks are stale since the plan was stored, unless they have been
    stale before; nothing else changes. *)
Definition plan_recovers (stored_at : u64) (before after : VersionedPlan) : Prop :=
  vp_items after = (λ item, if is_running item then set_item_status "running_stale" item else item)
                     <$> vp_items before
  ∧ vp_version after = vp_version before
  ∧ vp_participants after = vp_participants before
  ∧ ∀ id, vp_task_progress after !! id =
      if existsb (λ item, is_running item && (pi_id item =s id)) (vp_items before)
      then Some (mark_stale_since stored_at (default progress_default (vp_task_progress before !! id)))
      else vp_task_progress before !! id.

Definition interrupted (m : SwarmMember) : bool :=
  (mb_status m =s "running")
  || (mb_is_headless m && negb (str_in (mb_status m) ["completed"; "failed"; "stopped"])).

(** A member that was running, and a headless one that had not ended, has
    crashed; the others are as they were, without their clients. *)
Definition recovered_member (now : u64) (m : SwarmMember) : SwarmMember :=
  let note := if mb_status m =s "running" then "recovered after reload while running"
              else "headless session did not survive reload" in
  {| mb_session_id := mb_session_id m;
     mb_event_tx := closed_sender;
     mb_event_txs := ∅;
     mb_working_dir := mb_working_dir m;
     mb_swarm_id := mb_swarm_id m;
     mb_swarm_enabled := mb_swarm_enabled m;
     mb_status := if interrupted m then "crashed" else mb_status m;
     mb_detail := if interrupted m then append_recovery_detail (mb_detail m) note else mb_detail m;
     mb_friendly_name := mb_friendly_name m;
     mb_report_back_to_session_id := mb_report_back_to_session_id m;
     mb_latest_completion_report := mb_latest_completion_report m;
     mb_role := mb_role m;
     mb_joined_at := now;
     mb_last_status_change := now;
     mb_is_headless := mb_is_headless m |}.

Lemma mark_stale_since_twice t p : mark_stale_since t (mark_stale_since t p) = mark_stale_since t p.
Proof. unfold mark_stale_since. by destruct (tp_stale_since_unix_ms p) eqn:E; rewrite ?E. Qed.

Lemma foldl_recover_item t items out progress :
  let '(out', progress') := foldl (recover_item t) (out, progress) items in
  out' = out ++ ((λ item, if is_running item then set_item_status "running_stale" item else item) <$> items)
  ∧ ∀ id, progress' !! id =
      if existsb (λ item, is_running item && (pi_id item =s id)) items
      then Some (mark_stale_since t (default progress_default (progress !! id)))
      else progress !! id.
Proof.
  revert out progress. induction items as [|item items IH]; intros out progress; cbn [foldl].
  { by rewrite app_nil_r. }
  unfold recover_item at 2. fold (is_running item). rewrite fmap_cons. destruct (is_running item) eqn:Er.
  - specialize (IH (out ++ [set_item_status "running_stale" item])
      (<[pi_id item := mark_stale_since t (default progress_default (progress !! pi_id item))]> progress)).
    destruct (foldl _ _ items) as [out' progress']. destruct IH as [-> Hp]. rewrite <- app_assoc.
    split; [done|]. intros id. rewrite Hp. cbn [existsb]. rewrite Er. cbn [andb].
    destruct (pi_id item =s id) eqn:E; cbn [orb].
    + apply String.eqb_eq in E as <-. rewrite lookup_insert_eq. cbn [default].
      destruct (existsb _ items); [|done]. cbn. by rewrite mark_stale_since_twice.
    + apply String.eqb_neq in E. by rewrite lookup_insert_ne.
  - specialize (IH (out ++ [item]) progress).
    destruct (foldl _ _ items) as [out' progress']. destruct IH as [-> Hp]. rewrite <- app_assoc.
    split; [done|]. intros id. rewrite Hp. cbn [existsb]. by rewrite Er.
Qed.

Lemma persisted_plan_recovers t plan :
  plan_recovers t plan (from_persisted_plan (to_persisted_plan plan) t).
Proof.
  unfold from_persisted_plan, plan_recovers. cbn.
  pose proof (foldl_recover_item t (vp_items plan) [] (vp_task_progress plan)) as Hf.
  destruct (foldl _ _ _) as [items progress]. cbn. destruct Hf as [-> Hp].
  repeat split; [|done]. apply leibniz_equiv. intros x.
  by rewrite elem_of_list_to_set, sort_strings_perm, elem_of_hash_elements.
Qed.

Lemma status_from_eq value status :
  status_from (status_as_str status) = status →
  bool_decide (status_from value = status) = (value =s status_as_str status).
Proof.
  intros Hs. destruct (value =s status_as_str status) eqn:E.
  - apply String.eqb_eq in E as ->. by rewrite bool_decide_true.
  - apply String.eqb_neq in E. rewrite bool_decide_false; [done|].
    intros Heq. apply E. by rewrite <- Heq, status_text.
Qed.

Lemma persisted_member_recovers now m :
  from_persisted_member now (durable_record m) = recovered_member now m.
Proof.
  unfold from_persisted_member, recovered_member, recover_member_status, interrupted. cbn.
  assert (Hrun : bool_decide (status_from (mb_status m) = Running) = (mb_status m =s "running"))
    by (by apply (status_from_eq _ Running)).
  assert (Hend : bool_decide (status_from (mb_status m) ∈ [Completed; Failed; Stopped])
                 = str_in (mb_status m) ["completed"; "failed"; "stopped"]).
  { pose proof (status_from_eq (mb_status m) Completed eq_refl) as Hc.
    pose proof (status_from_eq (mb_status m) Failed eq_refl) as Hf.
    pose proof (status_from_eq (mb_status m) Stopped eq_refl) as Ho.
    unfold str_in. cbn [existsb]. cbn [status_as_str] in *.
    rewrite <- Hc, <- Hf, <- Ho. repeat case_bool_decide; set_solver. }
  destruct (decide (status_from (mb_status m) = Running)) as [E|E].
  - rewrite bool_decide_true in Hrun by done. rewrite <- Hrun. unfold from_record.
    cbn -[role_as_str role_from]. by rewrite role_text.
  - rewrite bool_decide_false in Hrun by done. rewrite <- Hrun. cbn [orb].
    rewrite Hend. unfold from_record.
    destruct (mb_is_headless m && _); cbn -[role_as_str role_from status_as_str status_from];
      by rewrite role_text, ?status_text.
Qed.

(** ** The records of all swarms *)

Lemma sublist_fmap_filter {A B} (f : A → B) (P : A → Prop) `{∀ x, Decision (P x)} (l : list A) :
  sublist (f <$> filter P l) (f <$> l).
Proof.
  induction l as [|x l IH]; [constructor|]. rewrite filter_cons. case_decide; rewrite !fmap_cons;
    by constructor.
Qed.

(** Members are found under their own identifiers. *)
Definition keyed (w : SwarmState) : Prop :=
  ∀ k m, sw_members w !! k = Some m → mb_session_id m = k.

Lemma elem_of_runtime_members w g m :
  m ∈ sr_members (load_runtime w g) ↔ ∃ k, sw_members w !! k = Some m ∧ mb_swarm_id m = Some g.
Proof.
  unfold load_runtime. cbn. rewrite elem_of_sort_by, list_elem_of_filter. unfold in_swarm.
  rewrite bool_decide_eq_true, list_elem_of_fmap. setoid_rewrite <- elem_of_hash_entries. split.
  - intros [Hg ((k & m') & -> & Hin)]. by exists k.
  - intros (k & Hin & Hg). split; [done|]. by exists (k, m).
Qed.

Lemma NoDup_runtime_members w g :
  keyed w → NoDup (mb_session_id <$> sr_members (load_runtime w g)).
Proof.
  intros Hk. unfold load_runtime. cbn. rewrite sort_by_perm.
  apply (sublist_NoDup _ (mb_session_id <$> (hash_entries (sw_members w)).*2)).
  - assert (mb_session_id <$> (hash_entries (sw_members w)).*2 = (hash_entries (sw_members w)).*1) as ->.
    { rewrite <- list_fmap_compose. apply list_fmap_ext. intros n [k m] Hin. cbn. apply Hk.
      apply elem_of_hash_entries. by eapply list_elem_of_lookup_2. }
    apply NoDup_hash_keys.
  - apply sublist_fmap_filter.
Qed.

Lemma snapshot_members at_ w g :
  ps_members (snapshot at_ w g) ≡ₚ durable_record <$> sr_members (load_runtime w g).
Proof. apply sort_by_perm. Qed.

Lemma elem_of_snapshot_members at_ w g r :
  r ∈ ps_members (snapshot at_ w g) ↔
    ∃ k m, sw_members w !! k = Some m ∧ mb_swarm_id m = Some g ∧ r = durable_record m.
Proof.
  rewrite snapshot_members, list_elem_of_fmap. setoid_rewrite elem_of_runtime_members. naive_solver.
Qed.

Lemma NoDup_snapshot_members at_ w g :
  keyed w → NoDup (sm_session_id <$> ps_members (snapshot at_ w g)).
Proof.
  intros Hk. rewrite snapshot_members, <- list_fmap_compose. by apply NoDup_runtime_members.
Qed.

(** All records of the files. *)
Definition records (L : list PersistedSwarmState) : list SwarmMemberRecord := concat (ps_members <$> L).

Lemma elem_of_records L r : r ∈ records L ↔ ∃ st, st ∈ L ∧ r ∈ ps_members st.
Proof.
  unfold records. rewrite list_elem_of_In, in_concat. setoid_rewrite <- list_elem_of_In.
  setoid_rewrite list_elem_of_fmap. naive_solver.
Qed.

Lemma records_app L1 L2 : records (L1 ++ L2) = records L1 ++ records L2.
Proof. unfold records. by rewrite fmap_app, concat_app. Qed.

Lemma outlived_record w L r :
  Forall (outlived w) L → r ∈ records L →
  ∃ st m, st ∈ L ∧ sm_swarm_id r = Some (ps_swarm_id st)
    ∧ sw_members w !! sm_session_id r = Some m ∧ mb_swarm_id m = Some (ps_swarm_id st).
Proof.
  rewrite Forall_forall, elem_of_records. intros Hall (st & Hst & Hr).
  destruct (Hall st Hst) as (_ & _ & Hm). destruct (Hm r Hr) as (Hg & m & Hk & Hs). by exists st, m.
Qed.

Lemma find_some_spec {A} (p : A → bool) (l : list A) x :
  List.find p l = Some x → x ∈ l ∧ p x = true.
Proof. intros Hf. apply find_some in Hf as [Hin ?]. split; [by apply list_elem_of_In|done]. Qed.

(** Every swarm that has a plan, a coordinator or a member is among [ids]. *)
Definition covers (ids : list string) (w : SwarmState) : Prop :=
  ∀ g, is_Some (sw_plans w !! g) ∨ is_Some (sw_coordinators w !! g)
       ∨ (∃ k m, sw_members w !! k = Some m ∧ mb_swarm_id m = Some g) → g ∈ ids.

(** The record of a member that is loaded last is its current one. *)
Lemma loaded_member now at_ ids w L k :
  keyed w → covers ids w → current_last at_ ids w L →
  sw_members (foldl (load_member now) no_swarms (records L)) !! k =
    match sw_members w !! k with
    | Some m => if decide (is_Some (mb_swarm_id m)) then Some (recovered_member now m) else None
    | None => None
    end.
Proof.
  intros Hk Hcov [Hall Hlast].
  assert (Hother : (¬ ∃ m, sw_members w !! k = Some m ∧ is_Some (mb_swarm_id m)) →
    sw_members (foldl (load_member now) no_swarms (records L)) !! k = None).
  { intros Hno. rewrite foldl_load_member_other; [done|]. apply Forall_forall. intros r Hr <-.
    destruct (outlived_record w L r Hall Hr) as (st & m & _ & _ & Hm & Hs). apply Hno. by eauto. }
  destruct (sw_members w !! k) as [m|] eqn:Em; [|apply Hother; naive_solver].
  case_decide as Hs; [|apply Hother; naive_solver]. clear Hother. destruct Hs as [g Hs].
  destruct (Hlast g) as (L1 & L2 & -> & HL2); [apply Hcov; right; right; by exists k, m|].
  rewrite records_app, foldl_app. change (records (?st :: L2)) with (ps_members st ++ records L2).
  rewrite foldl_app, foldl_load_member_other.
  - rewrite <- persisted_member_recovers. apply foldl_load_member_in; [|by apply NoDup_snapshot_members|by rewrite <- (Hk _ _ Em)|done].
    apply elem_of_snapshot_members. by exists k, m.
  - apply Forall_app in Hall as [_ [_ Hall]%Forall_cons]. apply Forall_forall. intros r Hr <-.
    destruct (outlived_record w L2 r Hall Hr) as (st & m' & Hst & _ & Hm & Hs').
    rewrite Forall_forall in HL2. apply (HL2 st Hst). congruence.
Qed.

Lemma loaded_plan_recovers now at_ ids w L g :
  covers ids w → current_last at_ ids w L →
  option_Forall2 (plan_recovers (at_ g)) (sw_plans w !! g)
    (sw_plans (foldl (load_swarm now) no_swarms L) !! g).
Proof.
  intros Hcov [Hall Hlast]. destruct (sw_plans w !! g) as [plan|] eqn:Ep.
  - destruct (Hlast g) as (L1 & L2 & -> & HL2); [apply Hcov; left; by rewrite Ep|].
    rewrite foldl_app. cbn [foldl]. rewrite foldl_load_swarm_plans_other.
    + rewrite (proj1 (load_swarm_plans now _ _)). cbn. rewrite Ep. cbn. rewrite lookup_insert_eq.
      constructor. apply persisted_plan_recovers.
    + eapply Forall_impl; [exact HL2|]. by intros st Hne ?.
  - rewrite foldl_load_swarm_plans_other; [cbn; rewrite lookup_empty; constructor|].
    eapply Forall_impl; [exact Hall|]. intros st (Hp & _) <-. apply eq_None_not_Some. intros Hsome.
    apply Hp in Hsome. rewrite Ep in Hsome. by destruct Hsome.
Qed.

Lemma loaded_coordinator now at_ ids w L g :
  covers ids w → current_last at_ ids w L →
  sw_coordinators (foldl (load_swarm now) no_swarms L) !! g = sw_coordinators w !! g.
Proof.
  intros Hcov [Hall Hlast]. destruct (sw_coordinators w !! g) as [c|] eqn:Ec.
  - destruct (Hlast g) as (L1 & L2 & -> & HL2); [apply Hcov; right; left; by rewrite Ec|].
    rewrite foldl_app. cbn [foldl]. rewrite foldl_load_swarm_coordinators_other.
    + rewrite (proj2 (load_swarm_plans now _ _)). cbn. rewrite Ec. by rewrite lookup_insert_eq.
    + eapply Forall_impl; [exact HL2|]. by intros st Hne ?.
  - rewrite foldl_load_swarm_coordinators_other; [done|].
    eapply Forall_impl; [exact Hall|]. intros st (_ & Hc & _) <-. apply eq_None_not_Some. intros Hsome.
    apply Hc in Hsome. rewrite Ec in Hsome. by destruct Hsome.
Qed.

(** C27. A server that starts over the files of its swarms has their state again:
    every coordinator, every plan with the tasks that ran marked stale since
    they were stored, and every member of a swarm, where those that were running
    and the headless ones that had not ended have crashed. This holds if the
    current file of each swarm is the last one of the swarm that the directory
    lists, and the backups before it have no plan, coordinator or member that
    the swarm has not any more (see [old_backup_wins] and
    [ended_swarm_returns] for what happens otherwise). *)
Theorem stored_swarms_recover now rd at_ ids w L world :
  keyed w → covers ids w → current_last at_ ids w L → stored rd L world → reliable world →
  let '(w', world') := load_runtime_state now rd world in
  world' = world
  ∧ sw_coordinators w' = sw_coordinators w
  ∧ (∀ g, option_Forall2 (plan_recovers (at_ g)) (sw_plans w !! g) (sw_plans w' !! g))
  ∧ (∀ k, sw_members w' !! k =
       match sw_members w !! k with
       | Some m => if decide (is_Some (mb_swarm_id m)) then Some (recovered_member now m) else None
       | None => None
       end)
  ∧ (∀ g sid, sid ∈ default ∅ (sw_swarms_by_id w' !! g) ↔
       ∃ m, sw_members w !! sid = Some m ∧ mb_swarm_id m = Some g).
Proof.
  intros Hk Hcov Hcur Hst Hr. rewrite (load_entries_stored now rd L world Hst Hr).
  destruct (foldl_load_swarm_members now no_swarms L) as [Hm Hs]. fold (records L) in Hm, Hs.
  split; [done|]. split; [|split; [|split]].
  - apply map_eq. intros g. by eapply loaded_coordinator.
  - intros g. by eapply loaded_plan_recovers.
  - intros k. rewrite Hm. by eapply loaded_member.
  - intros g sid. rewrite Hs, foldl_load_member_swarms. cbn. rewrite lookup_empty. cbn. split.
    + intros [?|(r & Hr' & Hg & <-)]; [set_solver|].
      destruct (outlived_record w L r (proj1 Hcur) Hr') as (st & m & _ & Hg' & Hm' & Hs').
      exists m. split; [done|]. congruence.
    + intros (m & Hm' & Hg). right. exists (durable_record m). split; [|split; [done|by apply Hk]].
      destruct (proj2 Hcur g) as (L1 & L2 & -> & _); [apply Hcov; right; right; by exists sid, m|].
      apply elem_of_records. exists (snapshot at_ w g). split; [set_solver|].
      apply elem_of_snapshot_members. by exists sid, m.
Qed.

(** What [persist_swarm_state_for] leaves: the file of the swarm holds its
    state. *)
Lemma persist_writes swarm_id s :
  reliable (sv_world s) → has_any_state (load_runtime (sv_swarm s) swarm_id) = true →
  let s' := (persist_swarm_state_for swarm_id s).2 in
  w_files (sv_world s') !! swarm_state_path (sv_runtime_dir s) swarm_id
  = Some (swarm_state_json (snapshot (λ _, sv_now s) (sv_swarm s) swarm_id)).
Proof.
  intros Hr Hany s'. subst s'. unfold persist_swarm_state_for, on_world, modify. cbn [snd set_world].
  unfold persist_swarm_state.
  match goal with |- context [if ?b then _ else _] => assert (b = false) as -> end.
  { unfold has_any_state in Hany. by destruct (bool_decide _), (bool_decide _), (is_nil _). }
  destruct (json_files_apart (sv_runtime_dir s) swarm_id (sv_tmp_suffix s)) as (Htp & Hbp & Htb).
  destruct (write_bytes_inner_ok (sv_tmp_suffix s) (swarm_state_path (sv_runtime_dir s) swarm_id)
    (swarm_state_json (snapshot (λ _, sv_now s) (sv_swarm s) swarm_id)) false (sv_world s) Htp Htb Hr)
    as (x & w' & E & _ & _ & Hf).
  unfold snapshot in E. unfold io_ignore, write_json_fast. cbn zeta. rewrite E. exact Hf.
Qed.

End theorems.
