(* ===== verification/SwarmServerTheorems.v ===== *)
(** * Properties of members, tasks and events of swarms

    When tasks count as stale and who is told of it, who hears of a finished
    member, and who leads a swarm when its coordinator leaves. *)

From S2P Require Import Prelude Utf8 SessionTypes SwarmPlan SwarmCore Storage SwarmServerTypes SwarmPersistence SwarmServer.
Open Scope nat_scope.

(** ** Running the tasks of the server *)

Lemma sbind_run {A B} (m : Srv A) (k : A → Srv B) s x s1 : m s = (x, s1) → sbind m k s = k x s1.
Proof. unfold sbind. by intros ->. Qed.

(** ** Staleness *)

(** The last sign of life of a task. *)
Definition last_sign (p : SwarmTaskProgress) : option u64 :=
  match tp_last_heartbeat_unix_ms p with
  | Some ts => Some ts
  | None => match tp_started_at_unix_ms p with
            | Some ts => Some ts
            | None => tp_assigned_at_unix_ms p
            end
  end.

Definition is_stale (now stale_after_ms : u64) (p : SwarmTaskProgress) : bool :=
  match last_sign p with
  | Some ts => (stale_after_ms <=? Z.max 0 (now - ts))%Z
  | None => true
  end.

Definition progress_of (plan : VersionedPlan) (id : string) : SwarmTaskProgress :=
  default progress_default (vp_task_progress plan !! id).

Definition is_active (item : PlanItem) : bool := str_in (pi_status item) ["running"; "running_stale"].

(** The status a task of the plan should have at a time. *)
Definition expected_status (now stale_after_ms : u64) (plan : VersionedPlan) (item : PlanItem) : string :=
  if is_active item then
    if is_stale now stale_after_ms (progress_of plan (pi_id item)) then "running_stale" else "running"
  else pi_status item.

Definition with_expected (now stale_after_ms : u64) (plan : VersionedPlan) (item : PlanItem) : PlanItem :=
  set_item_status (expected_status now stale_after_ms plan item) item.

Definition differs (now stale_after_ms : u64) (plan : VersionedPlan) (item : PlanItem) : bool :=
  negb (expected_status now stale_after_ms plan item =s pi_status item).

(** Two records of progress that differ at most in the time since which the task
    is stale. *)
Definition same_signs (p q : SwarmTaskProgress) : Prop := set_stale_since None p = set_stale_since None q.

#[export] Instance same_signs_equiv : Equivalence same_signs.
Proof. split; unfold same_signs; [done|by intros ??|intros ???; congruence]. Qed.

Lemma same_signs_stale now after p q : same_signs p q → is_stale now after p = is_stale now after q.
Proof. unfold same_signs, is_stale, last_sign, set_stale_since. intros [=]. by repeat case_match; congruence. Qed.

Lemma set_item_status_id item : set_item_status (pi_status item) item = item.
Proof. by destruct item. Qed.

Section staleness.
Context (now after : u64).

(** One item: the plan keeps its signs of life, and the status becomes the
    expected one. *)
Lemma refresh_item_step items plan changed item :
  refresh_item now after (items, plan, changed) item =
    (items ++ [with_expected now after plan item],
     {| vp_items := vp_items plan;
        vp_version := if differs now after plan item then u64_succ (vp_version plan) else vp_version plan;
        vp_participants := vp_participants plan;
        vp_task_progress :=
          if is_active item then
            <[pi_id item :=
                if differs now after plan item then
                  if is_stale now after (progress_of plan (pi_id item))
                  then mark_stale_since now (progress_of plan (pi_id item))
                  else set_stale_since None (progress_of plan (pi_id item))
                else progress_of plan (pi_id item)]> (vp_task_progress plan)
          else vp_task_progress plan |},
     changed || differs now after plan item).
Proof.
  unfold refresh_item, with_expected, differs, expected_status, is_active.
  fold (progress_of plan (pi_id item)).
  change (match tp_last_heartbeat_unix_ms (progress_of plan (pi_id item)) with
          | Some ts => Some ts | None => _ end) with (last_sign (progress_of plan (pi_id item))).
  change (match last_sign (progress_of plan (pi_id item)) with Some ts => _ | None => true end)
    with (is_stale now after (progress_of plan (pi_id item))).
  destruct (str_in (pi_status item) ["running"; "running_stale"]) eqn:Ea; cbn [negb].
  - unfold str_in in Ea. cbn [existsb] in Ea. rewrite orb_false_r in Ea.
    assert (Hs : pi_status item = "running" ∨ pi_status item = "running_stale").
    { apply orb_true_iff in Ea as [E|E]; apply String.eqb_eq in E; auto. }
    destruct (is_stale now after (progress_of plan (pi_id item))); destruct Hs as [E|E]; rewrite E; cbn;
      rewrite ?orb_true_r, ?orb_false_r; try done; rewrite <- E, set_item_status_id; done.
  - rewrite String.eqb_refl, orb_false_r, set_item_status_id. by destruct plan.
Qed.
End staleness.

(** The time since which a task is stale after a refresh. *)
Definition expected_since (now stale_after_ms : u64) (plan : VersionedPlan) (item : PlanItem) : option u64 :=
  let p := progress_of plan (pi_id item) in
  if differs now stale_after_ms plan item then
    if is_stale now stale_after_ms p then Some (default now (tp_stale_since_unix_ms p)) else None
  else tp_stale_since_unix_ms p.

Lemma mark_stale_signs now p : same_signs (mark_stale_since now p) p.
Proof. unfold same_signs, mark_stale_since. by destruct (tp_stale_since_unix_ms p). Qed.

Lemma mark_stale_value now p :
  tp_stale_since_unix_ms (mark_stale_since now p) = Some (default now (tp_stale_since_unix_ms p)).
Proof. unfold mark_stale_since. by destruct (tp_stale_since_unix_ms p) eqn:E. Qed.

Section refresh.
Context (now after : u64).

Lemma with_expected_signs plan plan' item :
  same_signs (progress_of plan (pi_id item)) (progress_of plan' (pi_id item)) →
  expected_status now after plan item = expected_status now after plan' item.
Proof. intros Hs. unfold expected_status. by rewrite (same_signs_stale _ _ _ _ Hs). Qed.

(** What a refresh does to the progress of the tasks. *)
Definition refreshed (items : list PlanItem) (plan plan' : VersionedPlan) : Prop :=
  vp_items plan' = vp_items plan
  ∧ vp_participants plan' = vp_participants plan
  ∧ vp_version plan' =
      Nat.iter (length (filter (λ item, differs now after plan item = true) items)) u64_succ (vp_version plan)
  ∧ (∀ id, same_signs (progress_of plan' id) (progress_of plan id))
  ∧ (∀ id, id ∉ pi_id <$> filter (λ item, is_active item = true) items →
       vp_task_progress plan' !! id = vp_task_progress plan !! id)
  ∧ (∀ item, item ∈ items → is_active item = true → is_Some (vp_task_progress plan' !! pi_id item))
  ∧ (NoDup (pi_id <$> items) → ∀ item, item ∈ items → is_active item = true →
       tp_stale_since_unix_ms (progress_of plan' (pi_id item)) = expected_since now after plan item).

Lemma foldl_refresh items out plan changed :
  ∃ plan', foldl (refresh_item now after) (out, plan, changed) items
    = (out ++ (with_expected now after plan <$> items), plan',
       changed || existsb (differs now after plan) items)
    ∧ refreshed items plan plan'.
Proof.
  revert out plan changed. induction items as [|item items IH]; intros out plan changed; cbn [foldl].
  { exists plan. rewrite app_nil_r, orb_false_r. split; [done|]. split_and!; try done.
    - intros item Hi. by apply elem_of_nil in Hi.
    - intros _ item Hi. by apply elem_of_nil in Hi. }
  rewrite refresh_item_step. set (plan1 := {| vp_items := _ |}).
  destruct (IH (out ++ [with_expected now after plan item]) plan1 (changed || differs now after plan item))
    as (plan' & -> & Hi & Hpa & Hv & Hsg & Hot & Hso & Hst).
  assert (Hs1 : ∀ id, same_signs (progress_of plan1 id) (progress_of plan id)).
  { intros id. unfold progress_of at 1, plan1. cbn [vp_task_progress].
    destruct (is_active item); [|done]. destruct (decide (pi_id item = id)) as [<-|Hne].
    - rewrite lookup_insert_eq. cbn [default]. repeat case_match; try done. apply mark_stale_signs.
    - by rewrite lookup_insert_ne. }
  assert (Hw : ∀ it, with_expected now after plan1 it = with_expected now after plan it).
  { intros it. unfold with_expected. by rewrite (with_expected_signs _ plan it (Hs1 _)). }
  assert (Hd : ∀ it, differs now after plan1 it = differs now after plan it).
  { intros it. unfold differs. by rewrite (with_expected_signs _ plan it (Hs1 _)). }
  exists plan'. split; [|split_and!].
  - rewrite fmap_cons, <- app_assoc. cbn [existsb]. rewrite <- orb_assoc.
    rewrite (list_fmap_ext _ (with_expected now after plan) items) by auto.
    assert (existsb (differs now after plan1) items = existsb (differs now after plan) items) as ->; [|done].
    clear -Hd. induction items; cbn; congruence.
  - done.
  - done.
  - rewrite Hv. cbn [vp_version plan1]. rewrite filter_cons.
    rewrite (list_filter_iff _ (λ it, differs now after plan it = true) items) by (intros it; by rewrite Hd).
    destruct (differs now after plan item); [|by rewrite decide_False by done].
    rewrite decide_True by done. cbn [length]. by rewrite Nat.iter_succ_r.
  - intros id. by rewrite Hsg.
  - intros id Hid. rewrite Hot.
    + unfold plan1. cbn [vp_task_progress]. rewrite filter_cons in Hid. destruct (is_active item); [|done].
      rewrite decide_True in Hid by done. rewrite lookup_insert_ne; [done|]. intros E. apply Hid.
      rewrite fmap_cons. set_solver.
    + rewrite filter_cons in Hid. case_decide; [|done]. rewrite fmap_cons in Hid. set_solver.
  - intros it [->|Hit]%elem_of_cons Ha; [|by apply Hso].
    destruct (decide (pi_id item ∈ pi_id <$> filter (λ item, is_active item = true) items)) as [Hin|Hn].
    + apply list_elem_of_fmap in Hin as (it & -> & Hin). apply list_elem_of_filter in Hin as [Hai Hin].
      by apply Hso.
    + rewrite (Hot _ Hn). unfold plan1. cbn [vp_task_progress]. rewrite Ha. by rewrite lookup_insert_eq.
  - rewrite fmap_cons. intros [Hni Hnd]%NoDup_cons it [->|Hit]%elem_of_cons Ha.
    + assert (Hn : pi_id item ∉ pi_id <$> filter (λ item, is_active item = true) items).
      { rewrite list_elem_of_fmap. intros (it & E & Hin). apply list_elem_of_filter in Hin as [_ Hin].
        apply Hni, list_elem_of_fmap. eauto. }
      unfold progress_of at 1. rewrite (Hot _ Hn). unfold plan1. cbn [vp_task_progress]. rewrite Ha.
      rewrite lookup_insert_eq. cbn [default]. unfold expected_since.
      repeat case_match; try done. apply mark_stale_value.
    + rewrite (Hst Hnd it Hit Ha).
      assert (pi_id item ≠ pi_id it) as Hne.
      { intros E. apply Hni. rewrite E. apply list_elem_of_fmap. eauto. }
      assert (Hp : progress_of plan1 (pi_id it) = progress_of plan (pi_id it)).
      { unfold progress_of, plan1. cbn [vp_task_progress]. destruct (is_active item); [|done].
        by rewrite lookup_insert_ne. }
      unfold expected_since. by rewrite Hd, Hp.
Qed.
End refresh.

(** Nothing happens when every status is the expected one already. *)
Lemma foldl_refresh_stable now after items out plan changed :
  (∀ item, item ∈ items → differs now after plan item = false
     ∧ (is_active item = true → is_Some (vp_task_progress plan !! pi_id item))) →
  foldl (refresh_item now after) (out, plan, changed) items = (out ++ items, plan, changed).
Proof.
  revert out. induction items as [|item items IH]; intros out Hall; cbn [foldl]; [by rewrite app_nil_r|].
  destruct (Hall item) as [Hd Ha]; [by left|]. rewrite refresh_item_step, Hd, orb_false_r.
  assert (with_expected now after plan item = item) as ->.
  { unfold differs in Hd. apply negb_false_iff, String.eqb_eq in Hd. unfold with_expected.
    by rewrite Hd, set_item_status_id. }
  assert ({| vp_items := vp_items plan; vp_version := vp_version plan;
             vp_participants := vp_participants plan;
             vp_task_progress := if is_active item
               then <[pi_id item:=progress_of plan (pi_id item)]> (vp_task_progress plan)
               else vp_task_progress plan |} = plan) as ->.
  { destruct (is_active item); [|by destruct plan]. destruct (Ha eq_refl) as [p Hp].
    unfold progress_of. rewrite Hp. cbn [default]. rewrite insert_id by done. by destruct plan. }
  rewrite IH; [by rewrite <- app_assoc|]. intros it Hit. apply Hall. by right.
Qed.

Lemma is_active_expected now after plan item : is_active (with_expected now after plan item) = is_active item.
Proof.
  unfold with_expected, expected_status. destruct (is_active item) eqn:E; [|by rewrite set_item_status_id].
  by destruct (is_stale _ _ _).
Qed.

Lemma expected_twice now after plan plan' item :
  same_signs (progress_of plan' (pi_id item)) (progress_of plan (pi_id item)) →
  differs now after plan' (with_expected now after plan item) = false.
Proof.
  intros Hs. unfold differs. apply negb_false_iff, String.eqb_eq. unfold expected_status at 1.
  rewrite is_active_expected. change (pi_id (with_expected now after plan item)) with (pi_id item).
  rewrite (same_signs_stale _ _ _ _ Hs). unfold with_expected, expected_status. cbn [pi_status set_item_status].
  by destruct (is_active item).
Qed.

Lemma find_item_in id items item : find_item id items = Some item → item ∈ items ∧ pi_id item = id.
Proof.
  unfold find_item. intros Hf. apply find_some in Hf as [Hin Heq].
  split; [by apply list_elem_of_In|by apply String.eqb_eq].
Qed.

(** What becomes of a plan: every running task has the status its last sign of
    life calls for, the version counts the changed tasks, the signs of life and
    the progress of other tasks stay, and a task is marked with the time it was
    first found stale and loses the mark when it is alive again. *)
Record plan_swept (now after : u64) (plan plan' : VersionedPlan) : Prop := {
  swept_items : vp_items plan' = with_expected now after plan <$> vp_items plan;
  swept_participants : vp_participants plan' = vp_participants plan;
  swept_version : vp_version plan' =
    Nat.iter (length (filter (λ item, differs now after plan item = true) (vp_items plan)))
      u64_succ (vp_version plan);
  swept_signs : ∀ id, same_signs (progress_of plan' id) (progress_of plan id);
  swept_others : ∀ id, id ∉ pi_id <$> filter (λ item, is_active item = true) (vp_items plan) →
    vp_task_progress plan' !! id = vp_task_progress plan !! id;
  swept_since : NoDup (pi_id <$> vp_items plan) → ∀ item, item ∈ vp_items plan → is_active item = true →
    tp_stale_since_unix_ms (progress_of plan' (pi_id item)) = expected_since now after plan item;
}.

Lemma refresh_plan_correct now after plan :
  let '(plan', changed) := refresh_plan now after plan in
  plan_swept now after plan plan'
  ∧ changed = existsb (differs now after plan) (vp_items plan)
  ∧ refresh_plan now after plan' = (plan', false).
Proof.
  unfold refresh_plan at 1.
  destruct (foldl_refresh now after (vp_items plan) [] plan false)
    as (plan' & -> & Hi & Hpa & Hv & Hsg & Hot & Hso & Hst).
  cbn [app orb]. split_and!; [by constructor|done|].
  unfold refresh_plan. cbn [vp_items]. set (plan2 := {| vp_items := _ |}).
  rewrite (foldl_refresh_stable now after); [by cbn [app]|].
  intros item (it & -> & Hit)%list_elem_of_fmap. split.
  - apply expected_twice. apply Hsg.
  - rewrite is_active_expected. intros Ha. by apply (Hso it Hit).
Qed.

(** A heartbeat keeps its task running until the next one is due. *)
Lemma heartbeat_keeps_running now after plan id assignee detail checkpoint revived touched later item :
  touch_plan now id assignee detail checkpoint plan = Some (revived, touched) →
  (now ≤ later < now + after)%Z → item ∈ vp_items touched → pi_id item = id → is_active item = true →
  expected_status later after touched item = "running".
Proof.
  intros Ht Hl Hin <- Ha. unfold expected_status. rewrite Ha.
  assert (is_stale later after (progress_of touched (pi_id item)) = false) as ->; [|done].
  unfold touch_plan in Ht. destruct (find_item _ _) as [it|]; [|done].
  unfold is_stale, last_sign, progress_of.
  destruct (pi_status it =s "running_stale"); injection Ht as <- <-; cbn [vp_task_progress];
    rewrite lookup_insert_eq; cbn; apply Z.leb_gt; lia.
Qed.

Lemma set_sent_same s : set_sent (sv_sent s) s = s.
Proof. by destruct s. Qed.

Section sweep.
Context `{HashOrder} `{ServerCodec}.

(** Who hears of an event that is sent to some members. *)
Definition told (s : Server) (event : ServerEvent) (session_ids : list string)
    : list (Sender * ServerEvent) :=
  omap (λ sid, m ← sw_members (sv_swarm s) !! sid;
               if is_closed s (mb_event_tx m) then None else Some (mb_event_tx m, event)) session_ids.

(** The announcement of a plan: to its participants, or to the members of the
    swarm if it has none. *)
Definition plan_told (s : Server) (swarm_id : string) (reason : option string)
    : list (Sender * ServerEvent) :=
  match sw_plans (sv_swarm s) !! swarm_id with
  | None => []
  | Some vp =>
      let participants :=
        sort_strings (if decide (vp_participants vp = ∅) then swarm_session_ids s swarm_id
                      else hash_elements (vp_participants vp)) in
      told s (EventSwarmPlan swarm_id (vp_version vp) (vp_items vp) participants reason
                (Some (from_versioned_plan swarm_id vp (Some 3) []))) participants
  end.

(** The files after the state of a swarm is stored. *)
Definition swarm_stored (s : Server) (w : World) (swarm_id : string) : World :=
  let runtime := load_runtime (sv_swarm s) swarm_id in
  persist_swarm_state (sv_now s) (sv_runtime_dir s) (sv_tmp_suffix s) swarm_id
    (sr_plan runtime) (sr_coordinator_session_id runtime) (sr_members runtime) w.

Lemma told_cons s event sid session_ids :
  told s event (sid :: session_ids) = told s event [sid] ++ told s event session_ids.
Proof. unfold told. cbn. by case_match. Qed.

Lemma notify_run event sid s :
  notify_member sid event s = ((), set_sent (sv_sent s ++ told s event [sid]) s).
Proof.
  unfold notify_member, get_members, gets, sbind, told. cbn.
  destruct (sw_members (sv_swarm s) !! sid) as [m|]; cbn; [|by rewrite app_nil_r, set_sent_same].
  unfold send_, send, sbind, sret. destruct (is_closed s (mb_event_tx m)); [|done].
  by rewrite app_nil_r, set_sent_same.
Qed.

Lemma notify_all_run event session_ids : ∀ s,
  for_each session_ids (λ sid, notify_member sid event) s
  = ((), set_sent (sv_sent s ++ told s event session_ids) s).
Proof.
  induction session_ids as [|sid session_ids IH]; intros s; cbn [for_each].
  { unfold told. cbn. by rewrite app_nil_r, set_sent_same. }
  unfold sbind. rewrite notify_run, IH, (told_cons s event sid session_ids), app_assoc. done.
Qed.

Lemma hash_elements_nil (X : gset string) : is_nil (sort_strings (hash_elements X)) = bool_decide (X = ∅).
Proof.
  destruct (sort_strings (hash_elements X)) as [|x l] eqn:E; cbn.
  - symmetry. apply bool_decide_eq_true. apply elem_of_equiv_empty_L. intros x Hx.
    apply elem_of_hash_elements in Hx. rewrite <- sort_strings_perm, E in Hx. by apply elem_of_nil in Hx.
  - symmetry. apply bool_decide_eq_false. intros ->.
    assert (x ∈ hash_elements (∅ : gset string)) as Hx by (rewrite <- sort_strings_perm, E; by left).
    apply elem_of_hash_elements in Hx. set_solver.
Qed.

Lemma broadcast_plan_run swarm_id reason s :
  broadcast_swarm_plan swarm_id reason s = ((), set_sent (sv_sent s ++ plan_told s swarm_id reason) s).
Proof.
  unfold broadcast_swarm_plan, broadcast_swarm_plan_with_previous, plan_told, sbind at 1, gets. cbn [id].
  destruct (sw_plans (sv_swarm s) !! swarm_id) as [vp|]; [|by rewrite app_nil_r, set_sent_same].
  cbv zeta. rewrite hash_elements_nil. case_bool_decide as E; case_decide; try done.
  - destruct (is_nil (sort_strings (swarm_session_ids s swarm_id))) eqn:En; [|apply notify_all_run].
    destruct (sort_strings (swarm_session_ids s swarm_id)); [|done].
    unfold told. cbn. by rewrite app_nil_r, set_sent_same.
  - rewrite hash_elements_nil, bool_decide_false by done. apply notify_all_run.
Qed.

Lemma announce_run reason changed : ∀ s,
  for_each changed (λ g, persist_swarm_state_for g ;~ broadcast_swarm_plan g reason) s
  = ((), set_sent (sv_sent s ++ (changed ≫= λ g, plan_told s g reason))
           (set_world (foldl (swarm_stored s) (sv_world s) changed) s)).
Proof.
  induction changed as [|g changed IH]; intros s; cbn [for_each].
  { cbn. rewrite app_nil_r. by destruct s. }
  unfold sbind at 1 2. unfold persist_swarm_state_for, on_world, modify. rewrite broadcast_plan_run, IH.
  unfold set_sent, set_world. cbn. by rewrite <- app_assoc.
Qed.

(** The swarms with a changed task. *)
Definition changed_swarms (s : Server) : list string :=
  omap (λ entry, if (refresh_plan (sv_now s) (swarm_task_stale_after s) entry.2).2 then Some entry.1 else None)
    (hash_entries (sw_plans (sv_swarm s))).

Definition swept (s : Server) : Server :=
  set_swarm (set_plans ((λ plan, (refresh_plan (sv_now s) (swarm_task_stale_after s) plan).1)
                          <$> sw_plans (sv_swarm s)) (sv_swarm s)) s.

Lemma elem_of_changed_swarms s g :
  g ∈ changed_swarms s ↔ ∃ plan item, sw_plans (sv_swarm s) !! g = Some plan
    ∧ item ∈ vp_items plan ∧ differs (sv_now s) (swarm_task_stale_after s) plan item = true.
Proof.
  unfold changed_swarms. rewrite list_elem_of_omap. split.
  - intros ([g' plan] & Hg%elem_of_hash_entries & E). cbn in E.
    pose proof (refresh_plan_correct (sv_now s) (swarm_task_stale_after s) plan) as Hp.
    destruct (refresh_plan _ _ plan) as [plan' []]; [|done]. injection E as ->.
    destruct Hp as (_ & Hc & _). symmetry in Hc. apply existsb_exists in Hc as (item & Hi & Hd).
    exists plan, item. split; [done|]. split; [by apply list_elem_of_In|done].
  - intros (plan & item & Hg & Hi & Hd). exists (g, plan). split; [by apply elem_of_hash_entries|]. cbn.
    pose proof (refresh_plan_correct (sv_now s) (swarm_task_stale_after s) plan) as Hp.
    destruct (refresh_plan _ _ plan) as [plan' c]. destruct Hp as (_ & -> & _). cbn.
    rewrite (proj2 (existsb_exists _ _)); [done|]. exists item. split; [by apply list_elem_of_In|done].
Qed.

Lemma NoDup_changed_swarms s : NoDup (changed_swarms s).
Proof.
  unfold changed_swarms. pose proof (NoDup_hash_keys (sw_plans (sv_swarm s))) as Hnd.
  revert Hnd. induction (hash_entries (sw_plans (sv_swarm s))) as [|[g plan] l IH]; [constructor|].
  rewrite fmap_cons. intros [Hg Hnd]%NoDup_cons. cbn. case_match; [|by apply IH]. constructor; [|by apply IH].
  rewrite list_elem_of_omap. intros ([g' plan'] & Hin & E). apply Hg.
  apply list_elem_of_fmap. exists (g', plan'). split; [|done]. cbn in E |- *.
  repeat case_match; by simplify_eq.
Qed.

Lemma sweep_run s :
  refresh_swarm_task_staleness s =
    ((), set_sent (sv_sent s ++ (changed_swarms s ≫= λ g, plan_told (swept s) g (Some "task_staleness_changed")))
           (set_world (foldl (swarm_stored (swept s)) (sv_world s) (changed_swarms s)) (swept s))).
Proof.
  unfold refresh_swarm_task_staleness, now_unix_ms, get_plans, gets, on_plans, on_swarm, modify.
  unfold sbind at 1 2 3 4. cbv zeta. fold (changed_swarms s). by rewrite announce_run.
Qed.

Lemma sweep_settled s :
  (∀ g plan, sw_plans (sv_swarm s) !! g = Some plan →
     refresh_plan (sv_now s) (swarm_task_stale_after s) plan = (plan, false)) →
  (refresh_swarm_task_staleness s).2 = s.
Proof.
  intros Hall. rewrite sweep_run. cbn [snd].
  assert (changed_swarms s = []) as ->.
  { destruct (changed_swarms s) as [|g l] eqn:E; [done|]. exfalso.
    assert (Hg : g ∈ changed_swarms s) by (rewrite E; by left). unfold changed_swarms in Hg.
    apply list_elem_of_omap in Hg as ([g' plan] & Hin%elem_of_hash_entries & Hc). cbn in Hc.
    by rewrite (Hall _ _ Hin) in Hc. }
  assert (swept s = s) as ->; [|cbn; rewrite app_nil_r; by destruct s].
  unfold swept. assert (((λ plan, (refresh_plan (sv_now s) (swarm_task_stale_after s) plan).1)
    <$> sw_plans (sv_swarm s)) = sw_plans (sv_swarm s)) as ->.
  { rewrite <- (map_fmap_id (sw_plans (sv_swarm s))) at 2. apply map_fmap_ext.
    intros g plan Hg. by rewrite (Hall _ _ Hg). }
  destruct s as [w]. by destruct w.
Qed.

(** C28. A sweep over the plans: every running task gets the status its last sign
    of life calls for, the version counts the changed tasks, the signs of life
    and the progress of other tasks stay, and a task is marked with the time it
    was first found stale and loses the mark when it is alive again. The swarms
    with a changed task, and only these, are stored and announced to the open
    channels of their participants, each once and with its new plan; nothing
    else of the server changes. A second sweep at the same time changes nothing,
    and a heartbeat keeps its task running until the next one is due. *)
Theorem staleness_correct s :
  let now := sv_now s in
  let after := swarm_task_stale_after s in
  let s' := (refresh_swarm_task_staleness s).2 in
  (∃ changed, NoDup changed
    ∧ (∀ g, g ∈ changed ↔ ∃ plan item, sw_plans (sv_swarm s) !! g = Some plan
         ∧ item ∈ vp_items plan ∧ differs now after plan item = true)
    ∧ s' = set_sent (sv_sent s ++ (changed ≫= λ g, plan_told s' g (Some "task_staleness_changed")))
             (set_world (foldl (swarm_stored s') (sv_world s) changed)
                (set_swarm (set_plans (sw_plans (sv_swarm s')) (sv_swarm s)) s)))
  ∧ (∀ g, option_Forall2 (plan_swept now after) (sw_plans (sv_swarm s) !! g) (sw_plans (sv_swarm s') !! g))
  ∧ (refresh_swarm_task_staleness s').2 = s'
  ∧ (∀ plan id assignee detail checkpoint revived touched later item,
       touch_plan now id assignee detail checkpoint plan = Some (revived, touched) →
       (now ≤ later < now + after)%Z → item ∈ vp_items touched → pi_id item = id → is_active item = true →
       expected_status later after touched item = "running").
Proof.
  cbn zeta. set (now := sv_now s). set (after := swarm_task_stale_after s).
  set (s' := (refresh_swarm_task_staleness s).2).
  assert (Hs : s' = set_sent (sv_sent s ++ (changed_swarms s ≫= λ g, plan_told (swept s) g (Some "task_staleness_changed")))
    (set_world (foldl (swarm_stored (swept s)) (sv_world s) (changed_swarms s)) (swept s)))
    by (unfold s'; by rewrite sweep_run).
  clearbody s'.
  split; [|split; [|split]].
  - exists (changed_swarms s). split; [apply NoDup_changed_swarms|].
    split; [apply elem_of_changed_swarms|]. by rewrite Hs.
  - intros g. rewrite Hs. unfold swept. cbn [sv_swarm sw_plans set_plans set_swarm set_sent set_world].
    rewrite lookup_fmap. destruct (sw_plans (sv_swarm s) !! g) as [plan|]; constructor.
    pose proof (refresh_plan_correct now after plan) as Hp. fold now after.
    destruct (refresh_plan now after plan). apply Hp.
  - apply sweep_settled. rewrite Hs. intros g plan. unfold swept.
    cbn [sv_swarm sw_plans set_plans set_swarm set_sent set_world]. rewrite lookup_fmap.
    destruct (sw_plans (sv_swarm s) !! g) as [plan0|]; [|done]. cbn. intros [= <-].
    pose proof (refresh_plan_correct now after plan0) as Hp. fold now after.
    change (swarm_task_stale_after _) with after.
    destruct (refresh_plan now after plan0). apply Hp.
  - intros plan. by apply heartbeat_keeps_running.
Qed.
End sweep.

(** ** What the functions of the server leave as it is *)

(** A function does not change what [f] reads of the server. *)
Definition keeps {B A} (f : Server → B) (m : Srv A) : Prop := ∀ s, f (m s).2 = f s.

Create HintDb keeps.

Section keeps.
Context {B : Type} (f : Server → B).

Lemma keeps_ret {A} (x : A) : keeps f (sret x).
Proof. done. Qed.

Lemma keeps_gets {A} (g : Server → A) : keeps f (gets g).
Proof. done. Qed.

Lemma keeps_bind {A C} (m : Srv A) (k : A → Srv C) :
  keeps f m → (∀ x, keeps f (k x)) → keeps f (sbind m k).
Proof.
  intros Hm Hk s. unfold sbind. specialize (Hm s). destruct (m s) as [x s1]. cbn in *.
  by rewrite Hk.
Qed.

Lemma keeps_for_each {A} (l : list A) (g : A → Srv unit) :
  (∀ x, keeps f (g x)) → keeps f (for_each l g).
Proof. intros Hg. induction l as [|x l IH]; [apply keeps_ret|]. by apply keeps_bind. Qed.

Lemma keeps_when b (m : Srv unit) : keeps f m → keeps f (when b m).
Proof. by destruct b. Qed.

Lemma keeps_when_some {A} (o : option A) (g : A → Srv unit) :
  (∀ x, keeps f (g x)) → keeps f (when_some o g).
Proof. destruct o; [intros Hg; apply Hg|done]. Qed.

Lemma keeps_modify (g : Server → Server) : (∀ s, f (g s) = f s) → keeps f (modify g).
Proof. intros Hg s. apply Hg. Qed.

Lemma keeps_run_io {A} (m : IO A) : (∀ w s, f (set_world w s) = f s) → keeps f (run_io m).
Proof. intros Hf s. unfold run_io. destruct (m (sv_world s)) as [r w]. apply Hf. Qed.

Lemma keeps_send tx event : (∀ sent s, f (set_sent sent s) = f s) → keeps f (send tx event).
Proof. intros Hf s. unfold send. destruct (is_closed s tx); [done|]. apply Hf. Qed.
End keeps.

#[export] Hint Resolve keeps_ret keeps_gets keeps_bind keeps_for_each keeps_when keeps_when_some
  keeps_run_io keeps_send : keeps.
#[export] Hint Extern 1 (keeps _ (modify _)) => apply keeps_modify : keeps.
#[export] Hint Extern 1 (∀ _, _ (set_sent _ _) = _) => intros; reflexivity : keeps.

(** Solves a goal [keeps f m] by walking through [m]. *)
Ltac keeps_solve :=
  repeat (match goal with
  | |- keeps _ (sbind _ _) => apply keeps_bind; [|intros ?]
  | |- keeps _ (for_each _ _) => apply keeps_for_each; intros ?
  | |- keeps _ (when _ _) => apply keeps_when
  | |- keeps _ (when_some _ _) => apply keeps_when_some; intros ?
  | |- keeps _ (sret _) => apply keeps_ret
  | |- keeps _ (gets _) => apply keeps_gets
  | |- keeps _ (run_io _) => apply keeps_run_io; intros; reflexivity
  | |- keeps _ (send _ _) => apply keeps_send; intros; reflexivity
  | |- keeps _ (modify _) => apply keeps_modify; intros; reflexivity
  | |- keeps _ (let _ := _ in _) => cbv zeta
  | |- keeps _ (match ?x with _ => _ end) => destruct x
  | |- keeps _ _ => solve [eauto with keeps]
  end).

Section frames.
Context `{HashOrder} `{ServerCodec}.

Lemma keeps_swarm_send_ tx event : keeps sv_swarm (send_ tx event).
Proof. unfold send_. keeps_solve. Qed.

Lemma keeps_swarm_persist swarm_id : keeps sv_swarm (persist_swarm_state_for swarm_id).
Proof. unfold persist_swarm_state_for, on_world. keeps_solve. Qed.

Lemma keeps_swarm_remove swarm_id : keeps sv_swarm (remove_persisted_swarm_state_for swarm_id).
Proof. unfold remove_persisted_swarm_state_for, on_world. keeps_solve. Qed.

Lemma keeps_swarm_notify session_id event : keeps sv_swarm (notify_member session_id event).
Proof. unfold notify_member, get_members. keeps_solve. Qed.

Lemma keeps_swarm_plan_broadcast swarm_id reason previous :
  keeps sv_swarm (broadcast_swarm_plan_with_previous swarm_id reason previous).
Proof.
  unfold broadcast_swarm_plan_with_previous. keeps_solve; try apply keeps_swarm_notify.
Qed.

Lemma keeps_swarm_record session_id name swarm_id event :
  keeps sv_swarm (record_swarm_event session_id name swarm_id event).
Proof. unfold record_swarm_event. keeps_solve. Qed.

Lemma keeps_swarm_interrupt session_id content urgent source :
  keeps sv_swarm (queue_soft_interrupt_for_session session_id content urgent source).
Proof.
  unfold queue_soft_interrupt_for_session, enqueue_soft_interrupt, register_session_interrupt_queue.
  keeps_solve.
Qed.
End frames.

#[export] Hint Resolve keeps_swarm_send_ keeps_swarm_persist keeps_swarm_remove keeps_swarm_notify
  keeps_swarm_plan_broadcast keeps_swarm_record keeps_swarm_interrupt : keeps.

(** ** Members without their channels *)

Definition member_view (m : SwarmMember) : SwarmMember := set_mb_event_tx 0 (set_mb_event_txs ∅ m).

(** The state of the swarms, up to the channels of the members. *)
Definition view (w : SwarmState) : SwarmState := set_members (member_view <$> sw_members w) w.

Definition server_view (s : Server) : SwarmState := view (sv_swarm s).

Lemma keeps_view {A} (m : Srv A) : keeps sv_swarm m → keeps server_view m.
Proof. intros Hm s. unfold server_view. by rewrite Hm. Qed.

Section leaving.
Context `{HashOrder} `{ServerCodec}.

Lemma member_view_adopt m : member_view (adopt_first_tx m) = member_view m.
Proof. unfold adopt_first_tx. by destruct (hash_entries (mb_event_txs m)) as [|[? ?] ?]. Qed.

Lemma view_insert w session_id m m' :
  sw_members w !! session_id = Some m → member_view m' = member_view m →
  view (set_members (<[session_id := m']> (sw_members w)) w) = view w.
Proof.
  intros Hm Hv. unfold view, set_members. cbn. f_equal. rewrite fmap_insert, Hv.
  apply insert_id. by rewrite lookup_fmap, Hm.
Qed.

Lemma keeps_view_deliver targets event : keeps server_view (deliver targets event).
Proof.
  induction targets as [|tx targets IH]; cbn [deliver]; [apply keeps_ret|].
  apply keeps_bind; [apply keeps_send; intros; reflexivity|]. intros ok.
  apply keeps_bind; [done|]. intros delivered. apply keeps_ret.
Qed.

Lemma keeps_view_fanout session_id event : keeps server_view (fanout_session_event session_id event).
Proof.
  intros s. unfold fanout_session_event, gets, sbind at 1. cbn [id].
  destruct (sw_members (sv_swarm s) !! session_id) as [m|] eqn:Em; [|done].
  unfold sbind. cbn -[deliver]. rewrite keeps_view_deliver. unfold server_view. cbn [sv_swarm set_swarm].
  eapply view_insert; [done|]. by rewrite member_view_adopt.
Qed.

Lemma keeps_view_status_now ids : keeps server_view (broadcast_swarm_status_now ids).
Proof.
  unfold broadcast_swarm_status_now, fanout_. keeps_solve. apply keeps_view_fanout.
Qed.

Lemma keeps_view_status swarm_id : keeps server_view (broadcast_swarm_status swarm_id).
Proof.
  unfold broadcast_swarm_status. keeps_solve. apply keeps_view_status_now.
Qed.

End leaving.

#[export] Hint Resolve keeps_view keeps_view_deliver keeps_view_fanout keeps_view_status_now
  keeps_view_status : keeps.

(** ** Leaving a swarm *)

(** The least identifier among the members with a window. *)
Definition leads (w : SwarmState) (candidates : gset string) (leader : option string) : Prop :=
  match leader with
  | Some c => c ∈ candidates ∧ has_window w c = true
              ∧ ∀ d, d ∈ candidates → has_window w d = true → String.leb c d = true
  | None => ∀ d, d ∈ candidates → has_window w d = false
  end.

Section leave.
Context `{HashOrder} `{ServerCodec}.

Lemma elect_leads w swarm_id :
  leads w (default ∅ (sw_swarms_by_id w !! swarm_id)) (elect_coordinator w swarm_id).
Proof.
  unfold elect_coordinator. destruct (sw_swarms_by_id w !! swarm_id) as [swarm|]; cbn; [|set_solver].
  set (l := filter (λ c, has_window w c = true) (hash_elements swarm)).
  assert (Hl : ∀ d, d ∈ sort_strings l ↔ d ∈ swarm ∧ has_window w d = true).
  { intros d. rewrite sort_strings_perm. unfold l. rewrite list_elem_of_filter, elem_of_hash_elements. tauto. }
  pose proof (sort_strings_sorted l) as Hs. destruct (sort_strings l) as [|c l']; cbn.
  - intros d Hd. destruct (has_window w d) eqn:E; [|done].
    assert (Hin : d ∈ ([] : list string)) by (by apply Hl). by apply elem_of_nil in Hin.
  - destruct (proj1 (Hl c)) as [Hc Hw]; [by left|]. split_and!; [done|done|]. intros d Hd Hwd.
    assert (Hin : d ∈ c :: l') by (by apply Hl). apply elem_of_cons in Hin as [->|Hin].
    + destruct (String.leb_total c c); done.
    + inversion Hs as [|? ? _ Hall]; subst. rewrite Forall_forall in Hall. by apply Hall.
Qed.

(** What the election does to the state. *)
Definition after_election (swarm_id : string) (w : SwarmState) : SwarmState :=
  match elect_coordinator w swarm_id with
  | Some new_id => {|
      sw_members := match sw_members w !! new_id with
                    | Some m => <[new_id := set_mb_role "coordinator" m]> (sw_members w)
                    | None => sw_members w
                    end;
      sw_swarms_by_id := sw_swarms_by_id w;
      sw_plans := match sw_plans w !! swarm_id with
                  | Some vp => <[swarm_id := set_participants ({[new_id]} ∪ vp_participants vp) vp]> (sw_plans w)
                  | None => sw_plans w
                  end;
      sw_coordinators := <[swarm_id := new_id]> (delete swarm_id (sw_coordinators w)) |}
  | None => set_coordinators (delete swarm_id (sw_coordinators w)) w
  end.

Lemma replace_coordinator_state swarm_id s :
  sv_swarm (replace_coordinator swarm_id s).2 = after_election swarm_id (sv_swarm s).
Proof.
  unfold replace_coordinator, after_election, sbind, gets. cbn.
  destruct (elect_coordinator (sv_swarm s) swarm_id) as [new_id|]; cbn; [|done].
  etrans; [apply keeps_when_some; intros; apply keeps_swarm_send_|]. done.
Qed.

(** The members of the swarm and its participants, without the session. *)
Definition without (session_id swarm_id : string) (w : SwarmState) : SwarmState := {|
  sw_members := sw_members w;
  sw_swarms_by_id := leave_swarm swarm_id session_id (sw_swarms_by_id w);
  sw_plans := match sw_plans w !! swarm_id with
              | Some vp => <[swarm_id := set_participants (vp_participants vp ∖ {[session_id]}) vp]> (sw_plans w)
              | None => sw_plans w
              end;
  sw_coordinators := sw_coordinators w;
|}.

Definition after_leave (session_id swarm_id : string) (w : SwarmState) : SwarmState :=
  let w := without session_id swarm_id w in
  let w := if decide (sw_coordinators w !! swarm_id = Some session_id)
           then after_election swarm_id w else w in
  set_members (match sw_members w !! session_id with
               | Some m => <[session_id := set_mb_role "agent" m]> (sw_members w)
               | None => sw_members w
               end) w.

Lemma remove_session_state session_id swarm_id s :
  server_view (remove_session_from_swarm session_id swarm_id s).2
  = view (after_leave session_id swarm_id (sv_swarm s)).
Proof.
  unfold remove_session_from_swarm, after_leave.
  unfold remove_plan_participant, update_plan, on_swarms, on_plans, on_swarm, get_coordinators.
  unfold sbind at 1, modify at 1. unfold sbind at 1, modify at 1. unfold sbind at 1, gets at 1.
  cbn -[replace_coordinator update_member get_plans]. set (s1 := set_swarm _ _).
  assert (Hs1 : sv_swarm s1 = without session_id swarm_id (sv_swarm s)) by done.
  clearbody s1. set (m := when _ _).
  assert (Hm : sv_swarm (m s1).2 = if decide (sw_coordinators (sv_swarm s) !! swarm_id = Some session_id)
    then after_election swarm_id (without session_id swarm_id (sv_swarm s)) else without session_id swarm_id (sv_swarm s)).
  { subst m. case_bool_decide as E; cbn [when].
    - rewrite replace_coordinator_state, Hs1. by rewrite decide_True.
    - by rewrite decide_False. }
  change (sw_coordinators (without session_id swarm_id (sv_swarm s))) with (sw_coordinators (sv_swarm s)).
  unfold sbind at 1. destruct (m s1) as [[] s2]. cbn [snd] in Hm. rewrite <- Hm.
  unfold update_member, on_members, on_swarm. unfold sbind at 1, modify at 1.
  etrans; [|reflexivity].
  match goal with |- server_view (?k ?s3).2 = _ => set (s3' := s3); assert (Hk : keeps server_view k) end.
  { unfold get_plans. keeps_solve. }
  rewrite Hk. done.
Qed.

Lemma leave_swarm_lookup swarm_id session_id swarms :
  default ∅ (leave_swarm swarm_id session_id swarms !! swarm_id)
    = default ∅ (swarms !! swarm_id) ∖ {[session_id]}
  ∧ leave_swarm swarm_id session_id swarms !! swarm_id ≠ Some ∅
  ∧ ∀ g, g ≠ swarm_id → leave_swarm swarm_id session_id swarms !! g = swarms !! g.
Proof.
  unfold leave_swarm. destruct (swarms !! swarm_id) as [swarm|] eqn:E; cbn.
  - case_decide as Hd.
    + rewrite lookup_delete_eq. split_and!; [by cbn|done|]. intros g Hg. by rewrite lookup_delete_ne.
    + rewrite lookup_insert_eq. split_and!; [done|congruence|]. intros g Hg. by rewrite lookup_insert_ne.
  - rewrite E. split_and!; [set_solver|done|done].
Qed.

Lemma after_election_fields swarm_id w :
  let new := elect_coordinator w swarm_id in
  sw_swarms_by_id (after_election swarm_id w) = sw_swarms_by_id w
  ∧ sw_coordinators (after_election swarm_id w) !! swarm_id = new
  ∧ (∀ g, g ≠ swarm_id → sw_coordinators (after_election swarm_id w) !! g = sw_coordinators w !! g
                         ∧ sw_plans (after_election swarm_id w) !! g = sw_plans w !! g)
  ∧ sw_plans (after_election swarm_id w) !! swarm_id =
      (λ vp, set_participants (match new with Some c => {[c]} | None => ∅ end ∪ vp_participants vp) vp)
        <$> sw_plans w !! swarm_id
  ∧ ∀ k, sw_members (after_election swarm_id w) !! k =
      (λ m, if decide (new = Some k) then set_mb_role "coordinator" m else m) <$> sw_members w !! k.
Proof.
  cbn zeta. unfold after_election. destruct (elect_coordinator w swarm_id) as [c|]; cbn.
  - split_and!; [done|by rewrite lookup_insert_eq| | |].
    + intros g Hg. rewrite lookup_insert_ne, lookup_delete_ne by done. split; [done|].
      destruct (sw_plans w !! swarm_id); [|done]. by rewrite lookup_insert_ne.
    + destruct (sw_plans w !! swarm_id) as [vp|] eqn:E; cbn; [by rewrite lookup_insert_eq|done].
    + intros k. destruct (decide (c = k)) as [->|Hne].
      * destruct (sw_members w !! k) as [m|] eqn:E; cbn; [|by rewrite E].
        by rewrite lookup_insert_eq, decide_True.
      * assert (∀ o : option SwarmMember, (λ m, if decide (Some c = Some k) then set_mb_role "coordinator" m else m) <$> o = o) as ->.
        { intros [m|]; [|done]. cbn. by rewrite decide_False by congruence. }
        destruct (sw_members w !! c); [|done]. by rewrite lookup_insert_ne.
  - split_and!; [done|by rewrite lookup_delete_eq| | |].
    + intros g Hg. by rewrite lookup_delete_ne.
    + destruct (sw_plans w !! swarm_id) as [[]|]; cbn; [|done]. unfold set_participants. cbn.
      do 3 f_equal. set_solver.
    + intros k. by destruct (sw_members w !! k).
Qed.

(** What becomes of the state. *)
Lemma leave_state session_id swarm_id s :
  let w := sv_swarm s in
  let w' := sv_swarm (remove_session_from_swarm session_id swarm_id s).2 in
  let rest := default ∅ (sw_swarms_by_id w !! swarm_id) ∖ {[session_id]} in
  let new := if decide (sw_coordinators w !! swarm_id = Some session_id)
             then sw_coordinators w' !! swarm_id else None in
  (default ∅ (sw_swarms_by_id w' !! swarm_id) = rest ∧ sw_swarms_by_id w' !! swarm_id ≠ Some ∅)
  ∧ (if decide (sw_coordinators w !! swarm_id = Some session_id)
     then leads w rest (sw_coordinators w' !! swarm_id)
     else sw_coordinators w' !! swarm_id = sw_coordinators w !! swarm_id)
  ∧ (∀ k, member_view <$> sw_members w' !! k =
       (λ m, member_view (set_mb_role
          (if decide (k = session_id) then "agent"
           else if decide (new = Some k) then "coordinator" else mb_role m) m)) <$> sw_members w !! k)
  ∧ sw_plans w' !! swarm_id =
      (λ vp, set_participants
         (match new with Some c => {[c]} | None => ∅ end ∪ (vp_participants vp ∖ {[session_id]})) vp)
        <$> sw_plans w !! swarm_id
  ∧ ∀ g, g ≠ swarm_id → sw_swarms_by_id w' !! g = sw_swarms_by_id w !! g
       ∧ sw_coordinators w' !! g = sw_coordinators w !! g ∧ sw_plans w' !! g = sw_plans w !! g.
Proof.
  cbn zeta. pose proof (remove_session_state session_id swarm_id s) as Hv.
  unfold server_view in Hv. set (w := sv_swarm s) in *.
  set (w' := sv_swarm (remove_session_from_swarm session_id swarm_id s).2) in *.
  change (view w' = view (after_leave session_id swarm_id w)) in Hv. clearbody w' w. clear s.
  assert (Hm : ∀ k, member_view <$> sw_members w' !! k
    = member_view <$> sw_members (after_leave session_id swarm_id w) !! k).
  { intros k. rewrite <- !lookup_fmap. by injection Hv as ->. }
  assert (Hs : sw_swarms_by_id w' = sw_swarms_by_id (after_leave session_id swarm_id w)) by (by injection Hv).
  assert (Hp : sw_plans w' = sw_plans (after_leave session_id swarm_id w)) by (by injection Hv).
  assert (Hc : sw_coordinators w' = sw_coordinators (after_leave session_id swarm_id w)) by (by injection Hv).
  clear Hv. unfold after_leave in *. set (w0 := without session_id swarm_id w) in *.
  destruct (leave_swarm_lookup swarm_id session_id (sw_swarms_by_id w)) as (Hrest & Hne & Hoth).
  assert (Hpw : sw_plans w0 !! swarm_id = (λ vp, set_participants (vp_participants vp ∖ {[session_id]}) vp)
            <$> sw_plans w !! swarm_id).
  { unfold w0. cbn. destruct (sw_plans w !! swarm_id) as [vp|] eqn:E; cbn; [by rewrite lookup_insert_eq|done]. }
  assert (Hpo : ∀ g, g ≠ swarm_id → sw_plans w0 !! g = sw_plans w !! g).
  { intros g Hg. unfold w0. cbn. destruct (sw_plans w !! swarm_id); [|done]. by rewrite lookup_insert_ne. }
  assert (Hset : ∀ (ms : gmap string SwarmMember) k,
    match ms !! session_id with Some m => <[session_id := set_mb_role "agent" m]> ms | None => ms end !! k
    = (λ m, if decide (k = session_id) then set_mb_role "agent" m else m) <$> ms !! k).
  { intros ms k. destruct (decide (k = session_id)) as [->|Hk].
    - destruct (ms !! session_id) eqn:E; cbn; [by rewrite lookup_insert_eq|by rewrite E].
    - destruct (ms !! session_id); rewrite ?lookup_insert_ne by done; by destruct (ms !! k). }
  assert (Hm0 : sw_members w0 = sw_members w) by done.
  assert (Hs0 : sw_swarms_by_id w0 = leave_swarm swarm_id session_id (sw_swarms_by_id w)) by done.
  assert (Hc0 : sw_coordinators w0 = sw_coordinators w) by done.
  clearbody w0. rewrite Hc0 in *.
  destruct (decide (sw_coordinators w !! swarm_id = Some session_id)) as [Hwas|Hwas]; cbn in Hm, Hs, Hp, Hc.
  - destruct (after_election_fields swarm_id w0) as (Hes & Hec & Heo & Hep & Hem).
    pose proof (elect_leads w0 swarm_id) as Hl. rewrite Hs, Hp, Hc, Hes, Hec, Hs0. split_and!.
    + done.
    + done.
    + unfold leads, has_window in *. by rewrite Hs0, Hrest, Hm0 in Hl.
    + intros k. rewrite Hm, Hset, Hem, Hm0.
      destruct (sw_members w !! k) as [m|]; [|done]. cbn. by repeat case_decide.
    + rewrite Hep, Hpw. by destruct (sw_plans w !! swarm_id).
    + intros g Hg. destruct (Heo g Hg) as [-> ->]. rewrite Hc0. split_and!; [by apply Hoth|done|by apply Hpo].
  - rewrite Hs, Hp, Hc, Hs0, Hc0. split_and!; [done|done|done| | |].
    + intros k. rewrite Hm, Hset, Hm0.
      destruct (sw_members w !! k) as [m|]; [|done]. cbn. destruct m. by case_decide.
    + rewrite Hpw. destruct (sw_plans w !! swarm_id); [|done]. cbn. do 2 f_equal. set_solver.
    + intros g Hg. split_and!; [by apply Hoth|done|by apply Hpo].
Qed.
End leave.

(** ** What is sent *)

(** The messages a function sends, each with the property. *)
Definition sends {A} (P : ServerEvent → Prop) (m : Srv A) : Prop :=
  ∀ s, ∃ events, sv_sent (m s).2 = sv_sent s ++ events ∧ Forall (λ e, P e.2) events.

Lemma sends_bind {A B} P (m : Srv A) (k : A → Srv B) :
  sends P m → (∀ x, sends P (k x)) → sends P (sbind m k).
Proof.
  intros Hm Hk s. unfold sbind. destruct (Hm s) as (l1 & E1 & H1). destruct (m s) as [x s1].
  cbn in E1. destruct (Hk x s1) as (l2 & E2 & H2). exists (l1 ++ l2).
  rewrite E2, E1, app_assoc. split; [done|]. by apply Forall_app.
Qed.

Lemma sends_keeps {A} P (m : Srv A) : keeps sv_sent m → sends P m.
Proof. intros Hm s. exists []. rewrite Hm, app_nil_r. by split; [|constructor]. Qed.

Lemma sends_for_each {A} P (l : list A) (f : A → Srv unit) :
  (∀ x, sends P (f x)) → sends P (for_each l f).
Proof.
  intros Hf. induction l as [|x l IH]; [by apply sends_keeps|]. by apply sends_bind.
Qed.

Section delivery.
Context `{HashOrder} `{ServerCodec}.

Definition is_open (s : Server) (tx : Sender) : Prop := is_closed s tx = false.

#[export] Instance is_open_dec s tx : Decision (is_open s tx).
Proof. unfold is_open. apply _. Defined.

Lemma deliver_run targets event s :
  deliver targets event s =
    (length (filter (is_open s) targets),
     set_sent (sv_sent s ++ ((λ tx, (tx, event)) <$> filter (is_open s) targets)) s).
Proof.
  revert s. induction targets as [|tx targets IH]; intros s; cbn [deliver].
  { cbn. by rewrite app_nil_r, set_sent_same. }
  unfold sbind, send. rewrite filter_cons. destruct (is_closed s tx) eqn:E.
  - rewrite IH. rewrite decide_False by (unfold is_open; by rewrite E). done.
  - rewrite IH. rewrite decide_True by done. cbn. by rewrite <- app_assoc.
Qed.

(** The channels of a member on which an event arrives. *)
Definition targets (s : Server) (m : SwarmMember) : list Sender :=
  match (hash_entries (filter (λ entry, is_closed s entry.2 = false) (mb_event_txs m))).*2 with
  | [] => filter (is_open s) [mb_event_tx m]
  | l => l
  end.

Lemma open_values s (txs : gmap string Sender) :
  let open := filter (λ entry, is_closed s entry.2 = false) txs in
  filter (is_open s) (hash_entries open).*2 = (hash_entries open).*2.
Proof.
  apply filter_all. intros tx Hin.
  apply list_elem_of_fmap in Hin as ([k tx'] & -> & Hin). apply elem_of_hash_entries in Hin.
  by apply map_lookup_filter_Some in Hin as [_ Hin].
Qed.

Definition reach (s : Server) : gmap string (list Sender) := targets s <$> sw_members (sv_swarm s).

Lemma adopt_first_txs m : mb_event_txs (adopt_first_tx m) = mb_event_txs m.
Proof. unfold adopt_first_tx. by destruct (hash_entries (mb_event_txs m)) as [|[? ?] ?]. Qed.

Lemma retain_targets s m :
  match (hash_entries (mb_event_txs (adopt_first_tx (retain_open s m)))).*2 with
  | [] => filter (is_open s) [mb_event_tx (adopt_first_tx (retain_open s m))]
  | l => filter (is_open s) l
  end = targets s m.
Proof.
  rewrite adopt_first_txs. unfold targets, retain_open. cbn [mb_event_txs set_mb_event_txs].
  set (f := filter _ (mb_event_txs m)).
  assert (Hf : filter (is_open s) (hash_entries f).*2 = (hash_entries f).*2) by apply open_values.
  destruct (hash_entries f) as [|[k tx] l] eqn:E; [|exact Hf].
  unfold adopt_first_tx. cbn [mb_event_txs set_mb_event_txs]. fold f. by rewrite E.
Qed.

Lemma targets_adopt s m : targets s (adopt_first_tx (retain_open s m)) = targets s m.
Proof.
  unfold targets at 1. rewrite adopt_first_txs. rewrite <- (retain_targets s m), adopt_first_txs.
  unfold retain_open at 1 3. cbn [mb_event_txs set_mb_event_txs].
  set (f := filter _ (mb_event_txs m)).
  assert (E : filter (λ entry, is_closed s entry.2 = false) f = f).
  { apply map_filter_id. intros k tx Hk. by apply map_lookup_filter_Some in Hk as [_ Hk]. }
  rewrite E. assert (Hf : filter (is_open s) (hash_entries f).*2 = (hash_entries f).*2) by apply open_values.
  by destruct ((hash_entries f).*2) as [|t l] eqn:El.
Qed.

Lemma fanout_run session_id event s :
  let reached := default [] (reach s !! session_id) in
  (fanout_session_event session_id event s).1 = length reached
  ∧ sv_sent (fanout_session_event session_id event s).2 = sv_sent s ++ ((λ tx, (tx, event)) <$> reached)
  ∧ reach (fanout_session_event session_id event s).2 = reach s
  ∧ sv_closed (fanout_session_event session_id event s).2 = sv_closed s.
Proof.
  cbn zeta. unfold fanout_session_event, sbind at 1 3 5 7, gets at 1 2 3 4. cbn [id].
  unfold reach at 1 2. rewrite lookup_fmap.
  destruct (sw_members (sv_swarm s) !! session_id) as [m|] eqn:Em; [|cbn; by rewrite app_nil_r].
  unfold sbind, on_members, on_swarm, modify. set (m' := adopt_first_tx (retain_open s m)).
  set (s1 := set_swarm _ s).
  assert (Ht : match (hash_entries (mb_event_txs m')).*2 with
               | [] => filter (is_open s) [mb_event_tx m'] | l => filter (is_open s) l end = targets s m)
    by apply retain_targets.
  assert (Hd : filter (is_open s1) (match (hash_entries (mb_event_txs m')).*2 with
               | [] => [mb_event_tx m'] | l => l end) = targets s m).
  { rewrite <- Ht. by destruct ((hash_entries (mb_event_txs m')).*2). }
  rewrite deliver_run, Hd. cbn [fst snd default from_option]. split_and!; [done|done| |done].
  unfold reach. apply map_eq. intros k. rewrite !lookup_fmap.
  cbn [sv_swarm set_sent set_swarm sw_members set_members s1].
  destruct (decide (session_id = k)) as [<-|Hk].
  - rewrite lookup_insert_eq, Em. cbn. f_equal. apply (targets_adopt s m).
  - by rewrite lookup_insert_ne.
Qed.

Lemma keeps_reach_fanout session_id event : keeps reach (fanout_session_event session_id event).
Proof. intros s. by destruct (fanout_run session_id event s) as (_ & _ & ? & _). Qed.

Lemma keeps_closed_fanout session_id event : keeps sv_closed (fanout_session_event session_id event).
Proof. intros s. by destruct (fanout_run session_id event s) as (_ & _ & _ & ?). Qed.

Lemma keeps_reach_status swarm_id : keeps reach (broadcast_swarm_status swarm_id).
Proof.
  unfold broadcast_swarm_status, broadcast_swarm_status_now, fanout_. keeps_solve. apply keeps_reach_fanout.
Qed.

(** A notification, as opposed to a snapshot of the swarm. *)
Definition is_notification (event : ServerEvent) : Prop :=
  match event with EventNotification _ _ _ _ => True | _ => False end.

#[export] Instance is_notification_dec event : Decision (is_notification event).
Proof. destruct event; apply _. Defined.

Lemma sends_fanout (P : ServerEvent → Prop) session_id event :
  P event → sends P (fanout_session_event session_id event).
Proof.
  intros Hp s. destruct (fanout_run session_id event s) as (_ & -> & _). eexists. split; [done|].
  apply Forall_forall. by intros e (tx & -> & _)%list_elem_of_fmap.
Qed.

Lemma sends_status swarm_id : sends (λ e, ¬ is_notification e) (broadcast_swarm_status swarm_id).
Proof.
  unfold broadcast_swarm_status, broadcast_swarm_status_now, fanout_.
  repeat (match goal with
  | |- sends _ (sbind _ _) => apply sends_bind; [|intros ?]
  | |- sends _ (for_each _ _) => apply sends_for_each; intros ?
  | |- sends _ (match ?x with _ => _ end) => destruct x
  | |- sends _ (let _ := _ in _) => cbv zeta
  | |- sends _ (fanout_session_event _ _) => idtac
  | |- sends _ _ => apply sends_keeps; keeps_solve
  end).
  apply sends_fanout. intros [].
Qed.

(** The notifications among the messages that arrived. *)
Definition notifications (events : list (Sender * ServerEvent)) : list (Sender * ServerEvent) :=
  filter (λ e, is_notification e.2) events.

(** Who should hear that a member finished: the owner it reports to, unless that
    is itself; without an owner a coordinator of the swarm other than itself. *)
Definition should_hear (members : gmap string SwarmMember) (session_id swarm_id : string)
    (before : SwarmMember) (recipient : option string) : Prop :=
  match mb_report_back_to_session_id before with
  | Some owner => recipient = if owner =s session_id then None else Some owner
  | None =>
      let candidate c := ∃ k m, members !! k = Some m ∧ mb_session_id m = c ∧ c ≠ session_id
                          ∧ mb_swarm_id m = Some swarm_id ∧ mb_role m = "coordinator" in
      match recipient with
      | Some c => candidate c
      | None => ∀ c, ¬ candidate c
      end
  end.

Lemma completion_recipient_hears members session_id swarm_id before :
  should_hear members session_id swarm_id before
    (completion_recipient session_id swarm_id (mb_report_back_to_session_id before) members).
Proof.
  unfold should_hear, completion_recipient. destruct (mb_report_back_to_session_id before) as [owner|].
  - destruct (owner =s session_id) eqn:E; [|done]. apply String.eqb_eq in E as ->.
    by rewrite decide_True.
  - rewrite decide_False by done.
    set (p := λ m, in_swarm swarm_id m && (mb_role m =s "coordinator") && negb (mb_session_id m =s session_id)).
    assert (Hp : ∀ m, p m = true ↔ mb_swarm_id m = Some swarm_id ∧ mb_role m = "coordinator"
                                   ∧ mb_session_id m ≠ session_id).
    { intros m. unfold p, in_swarm. rewrite !andb_true_iff, bool_decide_eq_true, String.eqb_eq,
        negb_true_iff, String.eqb_neq. tauto. }
    destruct (List.find p (hash_entries members).*2) as [m|] eqn:Ef; cbn.
    + apply find_some in Ef as [Hin Hm]. apply list_elem_of_In, list_elem_of_fmap in Hin as ([k m'] & -> & Hin).
      apply elem_of_hash_entries in Hin. apply Hp in Hm as (? & ? & ?). by exists k, m'.
    + intros c (k & m & Hm & <- & Hne & Hs & Hr). assert (Hpm : p m = true) by (by apply Hp).
      rewrite (find_none p _ Ef m) in Hpm; [done|].
      apply list_elem_of_In, list_elem_of_fmap. exists (k, m). split; [done|]. by apply elem_of_hash_entries.
Qed.


(** What [should_hear] reads of a member. *)
Definition standing (m : SwarmMember) : string * option string * string :=
  (mb_session_id m, mb_swarm_id m, mb_role m).

Lemma should_hear_standing members members' session_id swarm_id before recipient :
  standing <$> members = standing <$> members' →
  should_hear members session_id swarm_id before recipient →
  should_hear members' session_id swarm_id before recipient.
Proof.
  intros Hs. unfold should_hear. destruct (mb_report_back_to_session_id before); [done|].
  assert (Hk : ∀ ms ms' : gmap string SwarmMember, standing <$> ms = standing <$> ms' →
    ∀ k m, ms !! k = Some m → ∃ m', ms' !! k = Some m' ∧ standing m' = standing m).
  { intros ms ms' E k m Hm. assert (Hl : (standing <$> ms') !! k = Some (standing m))
      by (by rewrite <- E, lookup_fmap, Hm). rewrite lookup_fmap in Hl.
    apply fmap_Some in Hl as (m' & -> & ->). by exists m'. }
  destruct recipient as [c|].
  - intros (k & m & Hm & Hid & Hne & Hsw & Hr).
    destruct (Hk _ _ Hs k m Hm) as (m' & Hm' & He). injection He as E1 E2 E3.
    exists k, m'. split_and!; congruence.
  - intros Hno c (k & m & Hm & Hid & Hne & Hsw & Hr).
    destruct (Hk _ _ (eq_sym Hs) k m Hm) as (m' & Hm' & He). injection He as E1 E2 E3.
    apply (Hno c). exists k, m'. split_and!; congruence.
Qed.

Lemma standing_view w w' : view w = view w' → standing <$> sw_members w = standing <$> sw_members w'.
Proof.
  intros [=E]. apply (f_equal (fmap (M := gmap string) standing)) in E.
  rewrite <- !map_fmap_compose in E. exact E.
Qed.

Lemma notifications_app l1 l2 : notifications (l1 ++ l2) = notifications l1 ++ notifications l2.
Proof. apply filter_app. Qed.

Lemma notifications_none l : Forall (λ e, ¬ is_notification e.2) l → notifications l = [].
Proof.
  unfold notifications. induction 1 as [|e l He _ IH]; [done|]. by rewrite filter_cons, decide_False.
Qed.

Lemma notifications_all ev (txs : list Sender) :
  is_notification ev → notifications ((λ tx, (tx, ev)) <$> txs) = (λ tx, (tx, ev)) <$> txs.
Proof. intros He. apply filter_all. intros e (tx & -> & _)%list_elem_of_fmap. exact He. Qed.

(** The server after the change of the status and before the notification. *)
Lemma status_run session_id status detail report with_events s before swarm_id :
  sw_members (sv_swarm s) !! session_id = Some before → mb_swarm_id before = Some swarm_id →
  let report' := normalize_completion_report report in
  ∃ s1 events,
    server_view s1 = view (set_members (<[session_id := with_status (sv_now s) status detail report' before]>
                             (sw_members (sv_swarm s))) (sv_swarm s))
    ∧ sv_sent s1 = sv_sent s ++ events ∧ notifications events = []
    ∧ reach s1 = reach s
    ∧ update_member_status_with_report session_id status detail report with_events s =
        (if negb (mb_status before =s status)
            && should_notify_coordinator (mb_status before) status (mb_report_back_to_session_id before)
         then notify_completion session_id swarm_id status report' before s1 else (Some (), s1)).
Proof.
  intros Hm Hg report'. unfold update_member_status_with_report, now_unix_ms, get_members.
  unfold sbind at 1, gets at 1. unfold sbind at 1, gets at 1. rewrite Hm. fold report'.
  set (after := with_status _ _ _ _ _). unfold sbind at 1, on_members, on_swarm, modify at 1.
  set (s0 := set_swarm _ s). rewrite Hg.
  assert (Hrs : reach s0 = reach s).
  { unfold reach, s0. cbn. rewrite fmap_insert. apply insert_id. rewrite lookup_fmap, Hm. cbn. f_equal.
    unfold after, with_status. by destruct report', (mb_status before =s status). }
  destruct (negb (mb_status before =s status)) eqn:Ech; cbn [orb andb].
  2: destruct (bool_decide _ || _); cbn [negb];
     [|exists s0, []; rewrite app_nil_r; split_and!; done].
  all: cbn [negb].
  all: match goal with |- context [sbind (when ?b ?r) _] => set (rec := when b r) end.
  all: assert (Hrv : keeps server_view rec ∧ keeps sv_sent rec ∧ keeps reach rec)
         by (subst rec; unfold record_swarm_event; split_and!; keeps_solve).
  all: destruct Hrv as (Hr1 & Hr2 & Hr3); unfold sbind at 1; specialize (Hr1 s0); specialize (Hr2 s0);
       specialize (Hr3 s0); destruct (rec s0) as [[] s1]; cbn [snd] in *.
  all: pose proof (keeps_view_status swarm_id s1) as Hv; pose proof (keeps_reach_status swarm_id s1) as Hre;
       destruct (sends_status swarm_id s1) as (events & He & Hn); unfold sbind at 1;
       destruct (broadcast_swarm_status swarm_id s1) as [[] s2]; cbn [snd] in *.
  all: exists s2, events; split_and!; [by rewrite Hv, Hr1|by rewrite He, Hr2|by apply notifications_none|congruence|].
  all: try done; by destruct (should_notify_coordinator _ _ _).
Qed.


Lemma notify_completion_run session_id swarm_id status report before s1 :
  let recipient := completion_recipient session_id swarm_id (mb_report_back_to_session_id before)
                     (sw_members (sv_swarm s1)) in
  ∃ events,
    server_view (notify_completion session_id swarm_id status report before s1).2 = server_view s1
    ∧ sv_sent (notify_completion session_id swarm_id status report before s1).2 = sv_sent s1 ++ events
    ∧ match recipient, short_session_id session_id with
      | Some c, Some short =>
          (notify_completion session_id swarm_id status report before s1).1 = Some ()
          ∧ notifications events = (λ tx, (tx, EventNotification session_id (mb_friendly_name before)
              (message_notice "swarm") (completion_notification_message
                 (default short (mb_friendly_name before)) status report))) <$> default [] (reach s1 !! c)
      | Some _, None => (notify_completion session_id swarm_id status report before s1).1 = None ∧ events = []
      | None, _ => (notify_completion session_id swarm_id status report before s1).1 = Some () ∧ events = []
      end.
Proof.
  cbn zeta. unfold notify_completion, get_members, sbind at 1 3 5 7 9, gets.
  destruct (completion_recipient _ _ _ _) as [c|]; [|exists []; by rewrite app_nil_r].
  destruct (short_session_id session_id) as [short|]; [|exists []; by rewrite app_nil_r].
  set (event := EventNotification _ _ _ _). unfold fanout_, sbind.
  destruct (fanout_run c event s1) as (_ & Hsent & _ & _). pose proof (keeps_view_fanout c event s1) as Hv.
  destruct (fanout_session_event c event s1) as [n s2]. cbn [fst snd sret] in *.
  eexists. split_and!; [done|done|done|]. by apply notifications_all.
Qed.

(** A member that changes its status gets the status, the detail and its
    report, and nothing else of the swarms changes. When it completed, or ended
    work it reports to an owner, exactly one notification goes to every open
    channel of the session that should hear of it, with the text of its report;
    otherwise none is sent. The function panics only when the identifier of the
    session has no character boundary at its eighth byte. *)
Theorem completion_notice_correct session_id status detail report with_events s before swarm_id :
  sw_members (sv_swarm s) !! session_id = Some before → mb_swarm_id before = Some swarm_id →
  let report' := normalize_completion_report report in
  let '(result, s') := update_member_status_with_report session_id status detail report with_events s in
  server_view s' = view (set_members (<[session_id := with_status (sv_now s) status detail report' before]>
                           (sw_members (sv_swarm s))) (sv_swarm s))
  ∧ ∃ recipient events,
      should_hear (sw_members (sv_swarm s)) session_id swarm_id before recipient
      ∧ sv_sent s' = sv_sent s ++ events
      ∧ if negb (mb_status before =s status)
           && should_notify_coordinator (mb_status before) status (mb_report_back_to_session_id before)
        then match recipient, short_session_id session_id with
             | Some c, Some short =>
                 result = Some ()
                 ∧ notifications events = (λ tx, (tx, EventNotification session_id (mb_friendly_name before)
                     (message_notice "swarm") (completion_notification_message
                        (default short (mb_friendly_name before)) status report'))) <$> default [] (reach s !! c)
             | Some _, None => result = None ∧ notifications events = []
             | None, _ => result = Some () ∧ notifications events = []
             end
        else result = Some () ∧ notifications events = [].
Proof.
  intros Hm Hg report'.
  destruct (status_run session_id status detail report with_events s before swarm_id Hm Hg)
    as (s1 & events & Hv & Hsent & Hn & Hr & ->). fold report' in Hv |- *.
  destruct (negb _ && _).
  - destruct (notify_completion_run session_id swarm_id status report' before s1) as (events2 & Hv2 & Hs2 & Hres).
    pose proof (completion_recipient_hears (sw_members (sv_swarm s1)) session_id swarm_id before) as Hhear.
    destruct (notify_completion _ _ _ _ _ s1) as [result s2]. cbn [fst snd] in *.
    split; [congruence|].
    eexists _, (events ++ events2). split; [|split].
    + eapply should_hear_standing; [|exact Hhear]. rewrite (standing_view _ _ Hv). cbn.
      rewrite fmap_insert. apply insert_id. rewrite lookup_fmap, Hm. cbn. f_equal.
      unfold with_status. by destruct report', (mb_status before =s status).
    + by rewrite Hs2, Hsent, app_assoc.
    + rewrite notifications_app, Hn. cbn [app]. rewrite Hr in Hres.
      destruct (completion_recipient _ _ _ _), (short_session_id session_id); destruct Hres as [-> ->]; done.
  - split; [done|]. exists (completion_recipient session_id swarm_id (mb_report_back_to_session_id before)
      (sw_members (sv_swarm s))), events. split; [apply completion_recipient_hears|]. done.
Qed.

(** *** A new coordinator *)

(** The message to a new coordinator, if its channel is open. *)
Definition leader_told (s : Server) (new : option string) : list (Sender * ServerEvent) :=
  match new with
  | Some c =>
      match sw_members (sv_swarm s) !! c with
      | Some m =>
          if is_closed s (mb_event_tx m) then []
          else [(mb_event_tx m, EventNotification c (mb_friendly_name m) (message_notice "swarm")
                   "You are now the coordinator for this swarm.")]
      | None => []
      end
  | None => []
  end.

Lemma replace_coordinator_sent swarm_id s :
  sv_sent (replace_coordinator swarm_id s).2
  = sv_sent s ++ leader_told s (elect_coordinator (sv_swarm s) swarm_id).
Proof.
  unfold replace_coordinator, sbind, gets, leader_told. cbn.
  destruct (elect_coordinator (sv_swarm s) swarm_id) as [c|]; cbn; [|by rewrite app_nil_r].
  destruct (sw_members (sv_swarm s) !! c) as [m|] eqn:Em; cbn.
  - rewrite lookup_insert_eq. cbn. unfold send_, send, sbind, sret.
    change (is_closed _ (mb_event_tx m)) with (is_closed s (mb_event_tx m)).
    destruct (is_closed s (mb_event_tx m)); cbn; [by rewrite app_nil_r|done].
  - rewrite Em. cbn. by rewrite app_nil_r.
Qed.

Lemma leader_told_notified s new : notifications (leader_told s new) = leader_told s new.
Proof. unfold leader_told. by repeat case_match. Qed.

Lemma remove_session_sent session_id swarm_id s :
  ∃ events, sv_sent (remove_session_from_swarm session_id swarm_id s).2 = sv_sent s ++ events
    ∧ notifications events = leader_told s
        (if decide (sw_coordinators (sv_swarm s) !! swarm_id = Some session_id)
         then elect_coordinator (without session_id swarm_id (sv_swarm s)) swarm_id else None).
Proof.
  unfold remove_session_from_swarm, remove_plan_participant, update_plan, on_swarms, on_plans, on_swarm,
    get_coordinators.
  unfold sbind at 1, modify at 1. unfold sbind at 1, modify at 1. unfold sbind at 1, gets at 1.
  cbn -[replace_coordinator update_member get_plans]. set (s1 := set_swarm _ _).
  assert (Hs1 : sv_swarm s1 = without session_id swarm_id (sv_swarm s)) by done.
  assert (Ht : ∀ new, leader_told s1 new = leader_told s new) by done.
  assert (Hsent : sv_sent s1 = sv_sent s) by done. clearbody s1.
  set (new := if decide _ then _ else _). set (m := when _ _).
  assert (Hm : sv_sent (m s1).2 = sv_sent s ++ leader_told s new).
  { subst m new. case_bool_decide as E; cbn [when].
    - rewrite replace_coordinator_sent, Hs1, Ht, Hsent. by rewrite decide_True.
    - rewrite decide_False by done. cbn. by rewrite app_nil_r. }
  unfold sbind at 1. destruct (m s1) as [[] s2]. cbn [snd] in Hm.
  set (k := sbind (update_member _ _) _).
  assert (Hk : sends (λ e, ¬ is_notification e) k).
  { subst k. unfold get_plans, update_member, on_members, on_swarm.
    apply sends_bind; [apply sends_keeps; keeps_solve|intros []].
    apply sends_bind; [apply sends_keeps; keeps_solve|intros plans].
    apply sends_bind; [apply sends_keeps|intros []; apply sends_status].
    unfold persist_swarm_state_for, remove_persisted_swarm_state_for, on_world. keeps_solve. }
  destruct (Hk s2) as (statuses & Hst & Hn). rewrite Hst, Hm. exists (leader_told s new ++ statuses).
  split; [by rewrite app_assoc|].
  by rewrite notifications_app, leader_told_notified, (notifications_none statuses), app_nil_r.
Qed.

Lemma leave_elects session_id swarm_id s :
  sw_coordinators (sv_swarm s) !! swarm_id = Some session_id →
  sw_coordinators (sv_swarm (remove_session_from_swarm session_id swarm_id s).2) !! swarm_id
  = elect_coordinator (without session_id swarm_id (sv_swarm s)) swarm_id.
Proof.
  intros Hwas. pose proof (remove_session_state session_id swarm_id s) as Hv.
  injection Hv as _ _ _ Hc. rewrite Hc. unfold after_leave.
  cbn [set_members sw_coordinators]. rewrite decide_True by done.
  by destruct (after_election_fields swarm_id (without session_id swarm_id (sv_swarm s))) as (_ & -> & _).
Qed.

(** C29. When a session leaves a swarm it is gone from the members and from the
    participants of the plan, an empty swarm disappears, and it is an agent
    again. If it was the coordinator, the least identifier among the remaining
    members with a window takes over: it is recorded, has the role, participates
    in the plan, and, if its channel is open, is told so, as the only one that
    gets a notification; without such a member the swarm has no coordinator. The
    tasks, the other members and the other swarms stay as they are. *)
Theorem leave_correct session_id swarm_id s :
  let w := sv_swarm s in
  let w' := sv_swarm (remove_session_from_swarm session_id swarm_id s).2 in
  let rest := default ∅ (sw_swarms_by_id w !! swarm_id) ∖ {[session_id]} in
  let new := if decide (sw_coordinators w !! swarm_id = Some session_id)
             then sw_coordinators w' !! swarm_id else None in
  (∃ events, sv_sent (remove_session_from_swarm session_id swarm_id s).2 = sv_sent s ++ events
     ∧ notifications events = leader_told s new)
  ∧ (default ∅ (sw_swarms_by_id w' !! swarm_id) = rest ∧ sw_swarms_by_id w' !! swarm_id ≠ Some ∅)
  ∧ (if decide (sw_coordinators w !! swarm_id = Some session_id)
     then leads w rest (sw_coordinators w' !! swarm_id)
     else sw_coordinators w' !! swarm_id = sw_coordinators w !! swarm_id)
  ∧ (∀ k, member_view <$> sw_members w' !! k =
       (λ m, member_view (set_mb_role
          (if decide (k = session_id) then "agent"
           else if decide (new = Some k) then "coordinator" else mb_role m) m)) <$> sw_members w !! k)
  ∧ sw_plans w' !! swarm_id =
      (λ vp, set_participants
         (match new with Some c => {[c]} | None => ∅ end ∪ (vp_participants vp ∖ {[session_id]})) vp)
        <$> sw_plans w !! swarm_id
  ∧ ∀ g, g ≠ swarm_id → sw_swarms_by_id w' !! g = sw_swarms_by_id w !! g
       ∧ sw_coordinators w' !! g = sw_coordinators w !! g ∧ sw_plans w' !! g = sw_plans w !! g.
Proof.
  cbn zeta. split; [|apply leave_state].
  destruct (remove_session_sent session_id swarm_id s) as (events & He & Hn). exists events. split; [done|].
  rewrite Hn. case_decide as Hwas; [|done]. by rewrite leave_elects.
Qed.
End delivery.
