(* ===== verification/SwarmMutations.v ===== *)
(** * Requests that change a swarm ([src/server/swarm_mutation_state.rs])

    A request that changes a swarm is carried out once: repetitions of it wait
    for the answer of the first, or get the stored answer. The two functions of
    the code are the sequences of the locked sections below; [SwarmMutations]
    runs the sections of many requests in any order. *)

From S2P Require Import Prelude Utf8 SwarmPlan SwarmCore Storage SwarmServerTypes SwarmPersistence.
Open Scope nat_scope.

(** ** Keys *)

(** The hash of a request, [DefaultHasher] of the standard library. *)
Class RequestHash := request_hash : string → string → list string → u64.

Definition hex_digit (n : Z) : string :=
  String (Ascii.ascii_of_nat (Z.to_nat (if (n <? 10)%Z then 48 + n else 87 + n)%Z)) "".

(** [format!("{:016x}", n)] *)
Definition hex16 (n : u64) : string :=
  str_concat ((λ i, hex_digit (Z.land (Z.shiftr n (4 * Z.of_nat (15 - i))) 15)) <$> seq 0 16).

Definition hashed_request_key `{RequestHash} (session_id action : string) (components : list string)
    : string :=
  sanitize_session_id session_id +:+ "-" +:+ hex16 (request_hash session_id action components).

(** ** Stored answers *)

Definition SWARM_MUTATION_DIR : string := "gcode-swarm-mutations".
Definition MUTATION_FINAL_STATE_TTL_MS : u64 := 30 * 1000.
Definition MUTATION_PENDING_STATE_TTL_MS : u64 := 30 * 60 * 1000.

Definition into_server_event (response : PersistedSwarmMutationResponse) (id : u64)
    (session_id : string) : ServerEvent :=
  match response with
  | MutationDone => EventDone id
  | MutationAssignTask task_id target_session =>
      EventCommAssignTaskResponse id task_id target_session
  | MutationTaskControl action task_id target_session status summary =>
      EventCommTaskControlResponse id action task_id target_session status summary
  | MutationError message retry_after_secs => EventError id message retry_after_secs
  | MutationSpawn new_session_id => EventCommSpawnResponse id session_id new_session_id
  end.

Definition mutation_is_stale (now : u64) (state : PersistedSwarmMutationState) : bool :=
  elapsed_exceeds now (mu_created_at_unix_ms state)
    (match mu_final_response state with
     | Some _ => MUTATION_FINAL_STATE_TTL_MS
     | None => MUTATION_PENDING_STATE_TTL_MS
     end).

Section codec.
Context `{ServerCodec}.

Definition mutation_path (s : Server) (key : string) : string :=
  durable_state_path (sv_runtime_dir s) SWARM_MUTATION_DIR key.

Definition load_mutation_state (key : string) : Srv (option PersistedSwarmMutationState) := λ s,
  let (state, w) := load_json_state parse_mutation (mutation_path s key)
                      (mutation_is_stale (sv_now s)) (sv_world s) in
  (state, set_world w s).

Definition save_mutation_state (state : PersistedSwarmMutationState) : Srv unit :=
  modify (λ s, set_world (save_json_state (sv_tmp_suffix s) (mutation_path s (mu_key state))
                            (mutation_json state) (sv_world s)) s).

Definition ensure_pending_state (key action session_id : string) : Srv PersistedSwarmMutationState :=
  existing <~ load_mutation_state key;
  match existing with
  | Some existing => sret existing
  | None =>
      now <~ now_unix_ms;
      let state := {| mu_key := key; mu_action := action; mu_session_id := session_id;
                      mu_created_at_unix_ms := now; mu_final_response := None |} in
      save_mutation_state state ;~
      sret state
  end.

Definition with_final_response (state : PersistedSwarmMutationState)
    (response : PersistedSwarmMutationResponse) : PersistedSwarmMutationState := {|
  mu_key := mu_key state; mu_action := mu_action state; mu_session_id := mu_session_id state;
  mu_created_at_unix_ms := mu_created_at_unix_ms state; mu_final_response := Some response;
|}.

Definition persist_final_response (state : PersistedSwarmMutationState)
    (response : PersistedSwarmMutationResponse) : Srv PersistedSwarmMutationState :=
  let next := with_final_response state response in
  save_mutation_state next ;~
  sret next.

(** ** Waiting requests *)

Definition on_mutations (f : KeyRuntime → KeyRuntime) : Srv unit :=
  modify (λ s, set_mutations (f (sv_mutations s)) s).

Definition runtime_add_waiter (key : string) (request_id : u64) (client_event_tx : Sender)
    (rt : KeyRuntime) : KeyRuntime := {|
  rt_active_keys := rt_active_keys rt;
  rt_waiters := <[key := default [] (rt_waiters rt !! key) ++ [(request_id, client_event_tx)]]>
                  (rt_waiters rt);
|}.

Definition add_waiter (key : string) (request_id : u64) (client_event_tx : Sender) : Srv unit :=
  on_mutations (runtime_add_waiter key request_id client_event_tx).

(** [active.insert(key)]: whether the key is new. *)
Definition mark_active_if_new (key : string) : Srv bool :=
  new <~ gets (λ s, negb (bool_decide (key ∈ rt_active_keys (sv_mutations s))));
  on_mutations (λ rt, {| rt_active_keys := {[key]} ∪ rt_active_keys rt;
                         rt_waiters := rt_waiters rt |}) ;~
  sret new.

Definition clear_active (key : string) : Srv unit :=
  on_mutations (λ rt, {| rt_active_keys := rt_active_keys rt ∖ {[key]};
                         rt_waiters := rt_waiters rt |}).

Definition take_waiters (key : string) : Srv (list (u64 * Sender)) :=
  waiters <~ gets (λ s, default [] (rt_waiters (sv_mutations s) !! key));
  on_mutations (λ rt, {| rt_active_keys := rt_active_keys rt;
                         rt_waiters := delete key (rt_waiters rt) |}) ;~
  sret waiters.

(** The answer to every waiting request. *)
Definition answer_waiters (response : PersistedSwarmMutationResponse) (session_id : string)
    (waiters : list (u64 * Sender)) : Srv unit :=
  for_each waiters (λ w, send_ w.2 (into_server_event response w.1 session_id)).

(** ** The two functions *)

(** The first section of [begin_or_replay]: a stored answer is sent again. *)
Definition replay_stored (key session_id : string) (request_id : u64) (client_event_tx : Sender)
    : Srv bool :=
  state <~ load_mutation_state key;
  match state ≫= mu_final_response with
  | Some final_response =>
      send_ client_event_tx (into_server_event final_response request_id session_id) ;~
      sret true
  | None => sret false
  end.

Definition begin_or_replay (key action session_id : string) (request_id : u64)
    (client_event_tx : Sender) : Srv (option PersistedSwarmMutationState) :=
  replayed <~ replay_stored key session_id request_id client_event_tx;
  if replayed : bool then sret None
  else
    add_waiter key request_id client_event_tx ;~
    new <~ mark_active_if_new key;
    if negb new then sret None
    else
      state <~ ensure_pending_state key action session_id;
      sret (Some state).

Definition finish_request (state : PersistedSwarmMutationState)
    (response : PersistedSwarmMutationResponse) : Srv unit :=
  persisted <~ persist_final_response state response;
  match mu_final_response persisted with
  | None => clear_active (mu_key persisted)
  | Some final_response =>
      waiters <~ take_waiters (mu_key persisted);
      answer_waiters final_response (mu_session_id persisted) waiters ;~
      clear_active (mu_key persisted)
  end.
End codec.

(** * Properties of requests that change a swarm

    The sections of many requests run in any order, with files and clocks that
    change at will in between. A key has one worker at a time and a request at
    most one answer. *)

Record Request := {
  rq_key : string;
  rq_action : string;
  rq_session_id : string;
  rq_id : u64;
  rq_tx : Sender;
}.

(** Where a request is in [begin_or_replay] and [finish_request]: between the
    sections of the first, at work, or between the sections of the second. *)
Inductive Phase :=
| Loaded
| Added
| Waiting
| Leading
| Working (state : PersistedSwarmMutationState)
| Saved (state : PersistedSwarmMutationState)
| Sending (state : PersistedSwarmMutationState) (waiters : list (u64 * Sender))
| Clearing (state : PersistedSwarmMutationState)
| Finished.

Record Run := {
  rn_server : Server;
  rn_phases : gmap nat Phase;
}.

Section protocol.
Context `{ServerCodec} (requests : nat → Request).

Definition waiter (i : nat) : u64 * Sender := (rq_id (requests i), rq_tx (requests i)).

(** One section of one request, or a change of the surroundings: the files, the
    clock, the channels, everything but the runtime and what was sent. A stored
    state of a key is taken up only if it has that key, as it has when no one
    else writes into the directory. *)
Inductive run_step : Run → Run → Prop :=
| StepReplay i s s' ps :
    ps !! i = None →
    replay_stored (rq_key (requests i)) (rq_session_id (requests i)) (rq_id (requests i))
      (rq_tx (requests i)) s = (true, s') →
    run_step {| rn_server := s; rn_phases := ps |} {| rn_server := s'; rn_phases := <[i := Finished]> ps |}
| StepLoad i s s' ps :
    ps !! i = None →
    replay_stored (rq_key (requests i)) (rq_session_id (requests i)) (rq_id (requests i))
      (rq_tx (requests i)) s = (false, s') →
    run_step {| rn_server := s; rn_phases := ps |} {| rn_server := s'; rn_phases := <[i := Loaded]> ps |}
| StepAdd i s ps :
    ps !! i = Some Loaded →
    run_step {| rn_server := s; rn_phases := ps |}
      {| rn_server := (add_waiter (rq_key (requests i)) (rq_id (requests i)) (rq_tx (requests i)) s).2;
         rn_phases := <[i := Added]> ps |}
| StepMark i s new s' ps :
    ps !! i = Some Added →
    mark_active_if_new (rq_key (requests i)) s = (new, s') →
    run_step {| rn_server := s; rn_phases := ps |}
      {| rn_server := s'; rn_phases := <[i := if new : bool then Leading else Waiting]> ps |}
| StepEnsure i s state s' ps :
    ps !! i = Some Leading →
    ensure_pending_state (rq_key (requests i)) (rq_action (requests i)) (rq_session_id (requests i)) s
      = (state, s') →
    mu_key state = rq_key (requests i) →
    run_step {| rn_server := s; rn_phases := ps |} {| rn_server := s'; rn_phases := <[i := Working state]> ps |}
| StepSave i s state response persisted s' ps :
    ps !! i = Some (Working state) →
    persist_final_response state response s = (persisted, s') →
    run_step {| rn_server := s; rn_phases := ps |} {| rn_server := s'; rn_phases := <[i := Saved persisted]> ps |}
| StepTake i s state waiters s' ps :
    ps !! i = Some (Saved state) →
    take_waiters (mu_key state) s = (waiters, s') →
    run_step {| rn_server := s; rn_phases := ps |}
      {| rn_server := s'; rn_phases := <[i := Sending state waiters]> ps |}
| StepSend i s state response w waiters ps :
    ps !! i = Some (Sending state (w :: waiters)) → mu_final_response state = Some response →
    run_step {| rn_server := s; rn_phases := ps |}
      {| rn_server := (send_ w.2 (into_server_event response w.1 (mu_session_id state)) s).2;
         rn_phases := <[i := Sending state waiters]> ps |}
| StepSent i s state ps :
    ps !! i = Some (Sending state []) →
    run_step {| rn_server := s; rn_phases := ps |} {| rn_server := s; rn_phases := <[i := Clearing state]> ps |}
| StepClear i s state ps :
    ps !! i = Some (Clearing state) →
    run_step {| rn_server := s; rn_phases := ps |}
      {| rn_server := (clear_active (mu_key state) s).2; rn_phases := <[i := Finished]> ps |}
| StepSurroundings s s' ps :
    sv_mutations s' = sv_mutations s → sv_sent s' = sv_sent s →
    run_step {| rn_server := s; rn_phases := ps |} {| rn_server := s'; rn_phases := ps |}.

(** The runs from a server that has no requests yet. *)
Definition starts (r : Run) : Prop :=
  rn_phases r = ∅ ∧ sv_sent (rn_server r) = []
  ∧ sv_mutations (rn_server r) = {| rt_active_keys := ∅; rt_waiters := ∅ |}.

Definition reachable (r : Run) : Prop := ∃ r0, starts r0 ∧ rtc run_step r0 r.

(** ** Answers *)

Definition answer_id (event : ServerEvent) : option u64 :=
  match event with
  | EventDone id | EventError id _ _ | EventCommAssignTaskResponse id _ _
  | EventCommTaskControlResponse id _ _ _ _ _ | EventCommSpawnResponse id _ _
  | EventCommContext id _ | EventCommMembers id _ | EventCommChannels id _
  | EventCommSummaryResponse id _ _ | EventCommPlanStatusResponse id _
  | EventCommAwaitMembersResponse id _ _ _ => Some id
  | _ => None
  end.

(** The answers to a request among the messages that arrived. *)
Definition is_answer (i : nat) (e : Sender * ServerEvent) : Prop :=
  e.1 = rq_tx (requests i) ∧ answer_id e.2 = Some (rq_id (requests i)).

#[export] Instance is_answer_dec i e : Decision (is_answer i e).
Proof. unfold is_answer. apply _. Defined.

Definition answers (r : Run) (i : nat) : list (Sender * ServerEvent) :=
  filter (is_answer i) (sv_sent (rn_server r)).

(** The request that works on its key. *)
Definition works (r : Run) (i : nat) : Prop :=
  match rn_phases r !! i with
  | Some (Leading | Working _ | Saved _ | Sending _ _ | Clearing _) => True
  | _ => False
  end.

Definition state_of (r : Run) (i : nat) : option PersistedSwarmMutationState :=
  match rn_phases r !! i with
  | Some (Working st | Saved st | Sending st _ | Clearing st) => Some st
  | _ => None
  end.

Definition queue (r : Run) (k : string) : list (u64 * Sender) :=
  default [] (rt_waiters (sv_mutations (rn_server r)) !! k).

Definition batch (r : Run) (i : nat) : list (u64 * Sender) :=
  match rn_phases r !! i with Some (Sending _ ws) => ws | _ => [] end.

(** The request is not answered yet and stands in line. *)
Definition fresh (r : Run) (i : nat) : Prop :=
  match rn_phases r !! i with None | Some Loaded => True | _ => False end.

Record run_inv (r : Run) : Prop := {
  inv_active i : works r i → rq_key (requests i) ∈ rt_active_keys (sv_mutations (rn_server r));
  inv_one i j : works r i → works r j → rq_key (requests i) = rq_key (requests j) → i = j;
  inv_key i st : state_of r i = Some st → mu_key st = rq_key (requests i);
  inv_queue k w : w ∈ queue r k →
    ∃ i, w = waiter i ∧ rq_key (requests i) = k ∧ ¬ fresh r i ∧ answers r i = [];
  inv_batch j w : w ∈ batch r j →
    ∃ i, w = waiter i ∧ rq_key (requests i) = rq_key (requests j) ∧ ¬ fresh r i ∧ answers r i = [];
  inv_queue_once k : NoDup (queue r k);
  inv_batch_once j : NoDup (batch r j);
  inv_apart j w : w ∈ batch r j → w ∉ queue r (rq_key (requests j));
  inv_fresh i : fresh r i → answers r i = [];
  inv_once i : length (answers r i) ≤ 1;
}.

Context (requests_apart : ∀ i j, waiter i = waiter j → i = j).

(** ** The invariant holds at the start *)

Lemma starts_inv r : starts r → run_inv r.
Proof.
  intros (Hp & Hs & Hm). split; unfold works, state_of, queue, batch, fresh, answers; rewrite ?Hp, ?Hs, ?Hm;
    try setoid_rewrite lookup_empty; cbn; try done; try constructor; try setoid_rewrite lookup_empty;
    cbn; try constructor; try (intros; by set_solver).
  all: intros; constructor.
Qed.

(** ** Phases after a step *)

Definition at_phase (s : Server) (i : nat) (p : Phase) (r : Run) : Run :=
  {| rn_server := s; rn_phases := <[i := p]> (rn_phases r) |}.

Lemma phase_eq s i p r : rn_phases (at_phase s i p r) !! i = Some p.
Proof. apply lookup_insert_eq. Qed.

Lemma phase_ne s i p r j : i ≠ j → rn_phases (at_phase s i p r) !! j = rn_phases r !! j.
Proof. intros. by apply lookup_insert_ne. Qed.

(** The queue and the messages stay, and the request takes no batch. *)
Lemma quiet_step r s' i p :
  run_inv r → let r' := at_phase s' i p r in
  sv_sent s' = sv_sent (rn_server r) →
  rt_waiters (sv_mutations s') = rt_waiters (sv_mutations (rn_server r)) →
  batch r' i = [] → (¬ fresh r i → ¬ fresh r' i) →
  (∀ st, state_of r' i = Some st → mu_key st = rq_key (requests i)) →
  (∀ j, works r' j → rq_key (requests j) ∈ rt_active_keys (sv_mutations s')) →
  (works r' i → ∀ j, j ≠ i → works r j → rq_key (requests j) ≠ rq_key (requests i)) →
  run_inv r'.
Proof.
  intros Hinv r' Hs Hq Hb Hf Hk Ha Ho.
  assert (Hw : ∀ j, j ≠ i → (works r' j ↔ works r j) ∧ state_of r' j = state_of r j
                            ∧ batch r' j = batch r j ∧ (fresh r' j ↔ fresh r j)).
  { intros j Hj. unfold works, state_of, batch, fresh, r'. by rewrite phase_ne. }
  assert (Han : ∀ j, answers r' j = answers r j) by (intros j; unfold answers, r'; cbn; by rewrite Hs).
  assert (Hqu : ∀ k, queue r' k = queue r k) by (intros k; unfold queue, r'; cbn; by rewrite Hq).
  assert (Hfr : ∀ j, ¬ fresh r j → ¬ fresh r' j).
  { intros j. destruct (decide (j = i)) as [->|Hj]; [done|]. by rewrite (proj2 (proj2 (proj2 (Hw j Hj)))). }
  split.
  - done.
  - intros j1 j2. destruct (decide (j1 = i)) as [->|H1], (decide (j2 = i)) as [->|H2]; [done| | |].
    + intros Hwi. rewrite (proj1 (Hw j2 H2)). intros Hw2 E. exfalso. by apply (Ho Hwi j2 H2 Hw2).
    + rewrite (proj1 (Hw j1 H1)). intros Hw1 Hwi E. exfalso. by apply (Ho Hwi j1 H1 Hw1).
    + rewrite (proj1 (Hw j1 H1)), (proj1 (Hw j2 H2)). apply (inv_one _ Hinv).
  - intros j st. destruct (decide (j = i)) as [->|Hj]; [apply Hk|].
    rewrite (proj1 (proj2 (Hw j Hj))). apply (inv_key _ Hinv).
  - intros k w. rewrite Hqu. intros Hin. destruct (inv_queue _ Hinv k w Hin) as (j & ? & ? & ? & ?).
    exists j. rewrite Han. auto.
  - intros j w. destruct (decide (j = i)) as [->|Hj]; [rewrite Hb; set_solver|].
    rewrite (proj1 (proj2 (proj2 (Hw j Hj)))). intros Hin.
    destruct (inv_batch _ Hinv j w Hin) as (j' & ? & ? & ? & ?). exists j'. rewrite Han. auto.
  - intros k. rewrite Hqu. apply (inv_queue_once _ Hinv).
  - intros j. destruct (decide (j = i)) as [->|Hj]; [rewrite Hb; constructor|].
    rewrite (proj1 (proj2 (proj2 (Hw j Hj)))). apply (inv_batch_once _ Hinv).
  - intros j w. destruct (decide (j = i)) as [->|Hj]; [rewrite Hb; set_solver|].
    rewrite (proj1 (proj2 (proj2 (Hw j Hj)))), Hqu. apply (inv_apart _ Hinv).
  - intros j Hj. rewrite Han. apply (inv_fresh _ Hinv).
    destruct (decide (j = i)) as [->|Hji]; [|by apply Hw].
    unfold fresh in *. destruct (rn_phases r !! i) as [[]|] eqn:E; try done;
      exfalso; apply Hf; try (by intros ?); done.
  - intros j. rewrite Han. apply (inv_once _ Hinv).
Qed.

(** ** What the sections do *)

Lemma load_run key s state s' :
  load_mutation_state key s = (state, s') → sv_mutations s' = sv_mutations s ∧ sv_sent s' = sv_sent s.
Proof. unfold load_mutation_state. destruct (load_json_state _ _ _ _). by intros [= <- <-]. Qed.

Lemma send_run tx event s :
  sv_mutations (send_ tx event s).2 = sv_mutations s
  ∧ ∃ l, sv_sent (send_ tx event s).2 = sv_sent s ++ l ∧ (l = [] ∨ l = [(tx, event)]).
Proof.
  unfold send_, send, sbind. destruct (is_closed s tx); cbn; (split; [done|]).
  - exists []. rewrite app_nil_r. auto.
  - exists [(tx, event)]. auto.
Qed.

Lemma answer_id_event response id session_id :
  answer_id (into_server_event response id session_id) = Some id.
Proof. by destruct response. Qed.

Lemma replay_run key session_id id tx s b s' :
  replay_stored key session_id id tx s = (b, s') →
  sv_mutations s' = sv_mutations s
  ∧ ∃ l, sv_sent s' = sv_sent s ++ l
      ∧ (l = [] ∨ b = true ∧ ∃ event, answer_id event = Some id ∧ l = [(tx, event)]).
Proof.
  unfold replay_stored, sbind at 1. destruct (load_mutation_state key s) as [st s1] eqn:El.
  apply load_run in El as [Em Es]. destruct (st ≫= mu_final_response) as [resp|].
  - unfold sbind. destruct (send_run tx (into_server_event resp id session_id) s1) as (Hm & l & Hl & Hc).
    destruct (send_ tx _ s1) as [[] s2]. cbn in *. intros [= <- <-]. split; [congruence|].
    exists l. rewrite Hl, Es. split; [done|]. destruct Hc as [->| ->]; [auto|]. right. split; [done|].
    eexists. split; [apply answer_id_event|done].
  - intros [= <- <-]. split; [done|]. exists []. rewrite Es, app_nil_r. auto.
Qed.

Lemma ensure_run key action session_id s state s' :
  ensure_pending_state key action session_id s = (state, s') →
  sv_mutations s' = sv_mutations s ∧ sv_sent s' = sv_sent s.
Proof.
  unfold ensure_pending_state, sbind at 1. destruct (load_mutation_state key s) as [st s1] eqn:El.
  apply load_run in El as [Em Es]. destruct st; intros [= <- <-]; done.
Qed.

(** ** Each step keeps the invariant *)

Lemma is_answer_waiter i e j : is_answer i e → e.1 = rq_tx (requests j) →
  answer_id e.2 = Some (rq_id (requests j)) → i = j.
Proof.
  intros [H1 H2] H3 H4. apply requests_apart. unfold waiter. congruence.
Qed.

Lemma filter_answer_ne i j tx event :
  i ≠ j → tx = rq_tx (requests j) → answer_id event = Some (rq_id (requests j)) →
  filter (is_answer i) [(tx, event)] = [].
Proof.
  intros Hne -> He. rewrite filter_cons, decide_False; [done|]. intros Ha. apply Hne.
  by eapply is_answer_waiter.
Qed.

Lemma length_filter_one {A} (P : A → Prop) `{∀ x, Decision (P x)} (x : A) : length (filter P [x]) ≤ 1.
Proof. rewrite filter_cons. case_decide; cbn; lia. Qed.

Lemma replay_step r s' i b :
  run_inv r → rn_phases r !! i = None →
  replay_stored (rq_key (requests i)) (rq_session_id (requests i)) (rq_id (requests i))
    (rq_tx (requests i)) (rn_server r) = (b, s') →
  run_inv (at_phase s' i (if b then Finished else Loaded) r).
Proof.
  intros Hinv Hi Hr. apply replay_run in Hr as (Hm & l & Hl & Hc).
  assert (Hfi : fresh r i) by (unfold fresh; by rewrite Hi).
  set (r' := at_phase _ _ _ _).
  assert (Hw : ∀ j, works r' j ↔ works r j).
  { intros j. unfold works. destruct (decide (i = j)) as [<-|Hj].
    - unfold r'. rewrite phase_eq, Hi. by destruct b.
    - unfold r'. by rewrite phase_ne. }
  assert (Hst : ∀ j, state_of r' j = state_of r j).
  { intros j. unfold state_of. destruct (decide (i = j)) as [<-|Hj].
    - unfold r'. rewrite phase_eq, Hi. by destruct b.
    - unfold r'. by rewrite phase_ne. }
  assert (Hb : ∀ j, batch r' j = batch r j).
  { intros j. unfold batch. destruct (decide (i = j)) as [<-|Hj].
    - unfold r'. rewrite phase_eq, Hi. by destruct b.
    - unfold r'. by rewrite phase_ne. }
  assert (Hq : ∀ k, queue r' k = queue r k) by (intros k; unfold queue, r'; cbn; by rewrite Hm).
  assert (Hne : ∀ j, j ≠ i → answers r' j = answers r j).
  { intros j Hj. unfold answers, r'. cbn. rewrite Hl, filter_app.
    destruct Hc as [->|(_ & event & He & ->)]; [by rewrite app_nil_r|].
    rewrite (filter_answer_ne j i _ event) by done. by rewrite app_nil_r. }
  assert (Hstay : ∀ j, ¬ fresh r j → ¬ fresh r' j ∧ answers r' j = answers r j).
  { intros j Hj. assert (j ≠ i) by congruence. split; [|by apply Hne].
    unfold fresh, r'. rewrite phase_ne by done. done. }
  split.
  - intros j. rewrite Hw. cbn. rewrite Hm. apply (inv_active _ Hinv).
  - intros j1 j2. rewrite !Hw. apply (inv_one _ Hinv).
  - intros j st. rewrite Hst. apply (inv_key _ Hinv).
  - intros k w. rewrite Hq. intros Hin. destruct (inv_queue _ Hinv k w Hin) as (j & ? & ? & Hf & ?).
    destruct (Hstay j Hf) as [? E]. exists j. by rewrite E.
  - intros j w. rewrite Hb. intros Hin. destruct (inv_batch _ Hinv j w Hin) as (j' & ? & ? & Hf & ?).
    destruct (Hstay j' Hf) as [? E]. exists j'. by rewrite E.
  - intros k. rewrite Hq. apply (inv_queue_once _ Hinv).
  - intros j. rewrite Hb. apply (inv_batch_once _ Hinv).
  - intros j w. rewrite Hb, Hq. apply (inv_apart _ Hinv).
  - intros j. destruct (decide (j = i)) as [->|Hj].
    + unfold fresh, r'. rewrite phase_eq. destruct b; [done|]. intros _.
      unfold answers. cbn. rewrite Hl, filter_app. destruct Hc as [->|(? & _)]; [|done].
      rewrite app_nil_r. exact (inv_fresh _ Hinv i Hfi).
    + rewrite Hne by done. unfold fresh, r'. rewrite phase_ne by done. apply (inv_fresh _ Hinv).
  - intros j. destruct (decide (j = i)) as [->|Hj]; [|rewrite Hne by done; apply (inv_once _ Hinv)].
    unfold answers, r'. cbn. rewrite Hl, filter_app.
    pose proof (inv_fresh _ Hinv i Hfi) as E. unfold answers in E. rewrite E. cbn [app].
    destruct Hc as [->|(_ & event & _ & ->)]; [cbn; lia|]. apply length_filter_one.
Qed.

Lemma add_step r i :
  run_inv r → rn_phases r !! i = Some Loaded →
  run_inv (at_phase (add_waiter (rq_key (requests i)) (rq_id (requests i)) (rq_tx (requests i))
                       (rn_server r)).2 i Added r).
Proof.
  intros Hinv Hi. set (r' := at_phase _ _ _ _). set (k0 := rq_key (requests i)).
  assert (Hfi : fresh r i) by (unfold fresh; by rewrite Hi).
  assert (Hw : ∀ j, (works r' j ↔ works r j) ∧ state_of r' j = state_of r j ∧ batch r' j = batch r j).
  { intros j. unfold works, state_of, batch. destruct (decide (i = j)) as [<-|Hj].
    - unfold r'. by rewrite phase_eq, Hi.
    - unfold r'. by rewrite phase_ne. }
  assert (Han : ∀ j, answers r' j = answers r j) by done.
  assert (Hq : ∀ k, queue r' k = if decide (k = k0) then queue r k ++ [waiter i] else queue r k).
  { intros k. unfold queue, r'. cbn. case_decide as E.
    - subst k. by rewrite lookup_insert_eq.
    - by rewrite lookup_insert_ne. }
  assert (Hni : ∀ k, waiter i ∉ queue r k).
  { intros k Hin. destruct (inv_queue _ Hinv k _ Hin) as (j & E & _ & Hf & _).
    apply requests_apart in E as <-. by apply Hf. }
  assert (Hnb : ∀ j, waiter i ∉ batch r j).
  { intros j Hin. destruct (inv_batch _ Hinv j _ Hin) as (j' & E & _ & Hf & _).
    apply requests_apart in E as <-. by apply Hf. }
  assert (Hstay : ∀ j, ¬ fresh r j → ¬ fresh r' j).
  { intros j Hj. assert (j ≠ i) by congruence. unfold fresh, r'. by rewrite phase_ne. }
  split.
  - intros j. rewrite (proj1 (Hw j)). apply (inv_active _ Hinv).
  - intros j1 j2. rewrite (proj1 (Hw j1)), (proj1 (Hw j2)). apply (inv_one _ Hinv).
  - intros j st. rewrite (proj1 (proj2 (Hw j))). apply (inv_key _ Hinv).
  - intros k w. rewrite Hq. intros Hin.
    assert (w ∈ queue r k ∨ k = k0 ∧ w = waiter i) as [Hold|[-> ->]].
    { case_decide; [|by left]. rewrite elem_of_app, list_elem_of_singleton in Hin. naive_solver. }
    + destruct (inv_queue _ Hinv k w Hold) as (j & ? & ? & ? & ?). exists j. rewrite Han. auto.
    + exists i. split_and!; [done|done| |].
      * unfold fresh, r'. rewrite phase_eq. by intros [].
      * rewrite Han. by apply (inv_fresh _ Hinv).
  - intros j w. rewrite (proj2 (proj2 (Hw j))). intros Hin.
    destruct (inv_batch _ Hinv j w Hin) as (j' & ? & ? & ? & ?). exists j'. rewrite Han. auto.
  - intros k. rewrite Hq. case_decide; [|apply (inv_queue_once _ Hinv)].
    apply NoDup_app. split; [apply (inv_queue_once _ Hinv)|]. split; [|apply NoDup_singleton].
    intros w Hin ->%list_elem_of_singleton. by apply (Hni k).
  - intros j. rewrite (proj2 (proj2 (Hw j))). apply (inv_batch_once _ Hinv).
  - intros j w. rewrite (proj2 (proj2 (Hw j))), Hq. intros Hin.
    pose proof (inv_apart _ Hinv j w Hin) as Ha. case_decide; [|done].
    rewrite not_elem_of_app. split; [done|]. intros ->%list_elem_of_singleton. by apply (Hnb j).
  - intros j Hj. rewrite Han. apply (inv_fresh _ Hinv).
    destruct (decide (j = i)) as [->|Hji]; [done|]. unfold fresh, r' in Hj. by rewrite phase_ne in Hj.
  - intros j. rewrite Han. apply (inv_once _ Hinv).
Qed.

Lemma take_step r i st waiters s' :
  run_inv r → rn_phases r !! i = Some (Saved st) → take_waiters (mu_key st) (rn_server r) = (waiters, s') →
  run_inv (at_phase s' i (Sending st waiters) r).
Proof.
  intros Hinv Hi Ht. set (k0 := rq_key (requests i)).
  assert (Hk : mu_key st = k0) by (apply (inv_key _ Hinv); unfold state_of; by rewrite Hi).
  unfold take_waiters, sbind, gets, on_mutations, modify in Ht. injection Ht as <- <-. rewrite Hk.
  set (r' := at_phase _ _ _ _).
  assert (Hfr : ∀ j, fresh r' j ↔ fresh r j).
  { intros j. unfold fresh. destruct (decide (i = j)) as [<-|Hj].
    - unfold r'. by rewrite phase_eq, Hi.
    - unfold r'. by rewrite phase_ne. }
  assert (Hw : ∀ j, (works r' j ↔ works r j) ∧ state_of r' j = state_of r j).
  { intros j. unfold works, state_of. destruct (decide (i = j)) as [<-|Hj].
    - unfold r'. by rewrite phase_eq, Hi.
    - unfold r'. by rewrite phase_ne. }
  assert (Hb : ∀ j, batch r' j = if decide (j = i) then queue r k0 else batch r j).
  { intros j. unfold batch. case_decide as E.
    - subst j. unfold r'. by rewrite phase_eq.
    - unfold r'. by rewrite phase_ne. }
  assert (Han : ∀ j, answers r' j = answers r j) by done.
  assert (Hq : ∀ k, queue r' k = if decide (k = k0) then [] else queue r k).
  { intros k. unfold queue, r'. cbn. case_decide as E.
    - subst k. by rewrite lookup_delete_eq.
    - by rewrite lookup_delete_ne. }
  assert (Hwi : works r i) by (unfold works; by rewrite Hi).
  split.
  - intros j. rewrite (proj1 (Hw j)). apply (inv_active _ Hinv).
  - intros j1 j2. rewrite (proj1 (Hw j1)), (proj1 (Hw j2)). apply (inv_one _ Hinv).
  - intros j st'. rewrite (proj2 (Hw j)). apply (inv_key _ Hinv).
  - intros k w. rewrite Hq. case_decide; [set_solver|]. intros Hin.
    destruct (inv_queue _ Hinv k w Hin) as (j & ? & ? & ? & ?). exists j. by rewrite Han, Hfr.
  - intros j w. rewrite Hb. intros Hin. setoid_rewrite Hfr. setoid_rewrite Han.
    case_decide as E; [subst j; by apply (inv_queue _ Hinv)|by apply (inv_batch _ Hinv)].
  - intros k. rewrite Hq. case_decide; [constructor|apply (inv_queue_once _ Hinv)].
  - intros j. rewrite Hb. case_decide; [apply (inv_queue_once _ Hinv)|apply (inv_batch_once _ Hinv)].
  - intros j w. rewrite Hb, Hq. case_decide as E.
    + subst j. intros _. rewrite decide_True by done. set_solver.
    + intros Hin. case_decide as E2; [set_solver|]. by apply (inv_apart _ Hinv).
  - intros j. rewrite Hfr, Han. apply (inv_fresh _ Hinv).
  - intros j. rewrite Han. apply (inv_once _ Hinv).
Qed.

Lemma send_step r i st response w waiters :
  run_inv r → rn_phases r !! i = Some (Sending st (w :: waiters)) →
  run_inv (at_phase (send_ w.2 (into_server_event response w.1 (mu_session_id st)) (rn_server r)).2
             i (Sending st waiters) r).
Proof.
  intros Hinv Hi. set (event := into_server_event _ _ _). set (r' := at_phase _ _ _ _).
  destruct (send_run w.2 event (rn_server r)) as (Hm & l & Hl & Hc).
  assert (Hbi : batch r i = w :: waiters) by (unfold batch; by rewrite Hi).
  assert (Hwi : works r i) by (unfold works; by rewrite Hi).
  destruct (inv_batch _ Hinv i w) as (i0 & Hw0 & Hk0 & Hf0 & Ha0); [rewrite Hbi; by left|].
  assert (Hev : answer_id event = Some (rq_id (requests i0))).
  { unfold event. rewrite answer_id_event. by rewrite Hw0. }
  assert (Hfr : ∀ j, fresh r' j ↔ fresh r j).
  { intros j. unfold fresh. destruct (decide (i = j)) as [<-|Hj].
    - unfold r'. by rewrite phase_eq, Hi.
    - unfold r'. by rewrite phase_ne. }
  assert (Hw : ∀ j, (works r' j ↔ works r j) ∧ state_of r' j = state_of r j).
  { intros j. unfold works, state_of. destruct (decide (i = j)) as [<-|Hj].
    - unfold r'. by rewrite phase_eq, Hi.
    - unfold r'. by rewrite phase_ne. }
  assert (Hb : ∀ j, batch r' j = if decide (j = i) then waiters else batch r j).
  { intros j. unfold batch. case_decide as E.
    - subst j. unfold r'. by rewrite phase_eq.
    - unfold r'. by rewrite phase_ne. }
  assert (Hq : ∀ k, queue r' k = queue r k) by (intros k; unfold queue, r'; cbn -[send_]; by rewrite Hm).
  assert (Han : ∀ j, j ≠ i0 → answers r' j = answers r j).
  { intros j Hj. unfold answers, r'. cbn -[send_]. rewrite Hl, filter_app.
    destruct Hc as [->| ->]; [by rewrite app_nil_r|].
    rewrite (filter_answer_ne j i0) by (done || by rewrite Hw0). by rewrite app_nil_r. }
  pose proof (inv_batch_once _ Hinv i) as Hnd. rewrite Hbi in Hnd. apply NoDup_cons in Hnd as [Hni Hnd].
  (* the request that is answered stands nowhere else *)
  assert (Hnq : ∀ k, w ∉ queue r k).
  { intros k Hin. destruct (inv_queue _ Hinv k w Hin) as (j & Hj & Hkj & _).
    rewrite Hw0 in Hj. apply requests_apart in Hj as <-. rewrite <- Hkj, Hk0 in Hin.
    apply (inv_apart _ Hinv i w); [rewrite Hbi; by left|done]. }
  assert (Hnb : ∀ j, j ≠ i → w ∉ batch r j).
  { intros j Hj Hin. apply Hj. destruct (inv_batch _ Hinv j w Hin) as (j' & E & Hkj & _).
    rewrite Hw0 in E. apply requests_apart in E as <-.
    apply (inv_one _ Hinv); [|done|congruence]. unfold works, batch in *.
    destruct (rn_phases r !! j) as [[]|]; set_solver. }
  assert (Hmove : ∀ w' j, w' ≠ w → w' = waiter j → ¬ fresh r j → answers r j = [] →
                    ¬ fresh r' j ∧ answers r' j = []).
  { intros w' j Hne Hw' Hf Ha. rewrite Hfr. split; [done|]. rewrite Han; [done|]. congruence. }
  split.
  - intros j. rewrite (proj1 (Hw j)). cbn -[send_]. rewrite Hm. apply (inv_active _ Hinv).
  - intros j1 j2. rewrite (proj1 (Hw j1)), (proj1 (Hw j2)). apply (inv_one _ Hinv).
  - intros j st'. rewrite (proj2 (Hw j)). apply (inv_key _ Hinv).
  - intros k w'. rewrite Hq. intros Hin. assert (w' ≠ w) by (intros ->; by apply (Hnq k)).
    destruct (inv_queue _ Hinv k w' Hin) as (j & Hj & ? & Hf & Ha). exists j.
    destruct (Hmove w' j) as [? ?]; auto.
  - intros j w'. rewrite Hb. intros Hin. assert (w' ≠ w ∧ w' ∈ batch r j) as [Hne Hold].
    { case_decide as E; [subst j; rewrite Hbi; split; [by intros ->|by right]|].
      split; [|done]. intros ->. by apply (Hnb j). }
    destruct (inv_batch _ Hinv j w' Hold) as (j' & Hj & ? & Hf & Ha). exists j'.
    destruct (Hmove w' j') as [? ?]; auto.
  - intros k. rewrite Hq. apply (inv_queue_once _ Hinv).
  - intros j. rewrite Hb. case_decide; [done|apply (inv_batch_once _ Hinv)].
  - intros j w'. rewrite Hb, Hq. intros Hin. apply (inv_apart _ Hinv). case_decide as E; [|done].
    subst j. rewrite Hbi. by right.
  - intros j. rewrite Hfr. intros Hj. rewrite Han; [by apply (inv_fresh _ Hinv)|]. intros ->. by apply Hf0.
  - intros j. destruct (decide (j = i0)) as [->|Hj]; [|rewrite Han by done; apply (inv_once _ Hinv)].
    unfold answers, r'. cbn -[send_]. rewrite Hl, filter_app. unfold answers in Ha0. rewrite Ha0. cbn [app].
    destruct Hc as [->| ->]; [cbn; lia|]. apply length_filter_one.
Qed.

Lemma step_inv r r' : run_inv r → run_step r r' → run_inv r'.
Proof.
  intros Hinv Hs. destruct Hs as [i s s' ps Hi Hr|i s s' ps Hi Hr|i s ps Hi|i s new s' ps Hi Hm
    |i s st s' ps Hi He Hk|i s st resp p s' ps Hi Hp|i s st ws s' ps Hi Ht|i s st resp w ws ps Hi Hf
    |i s st ps Hi|i s st ps Hi|s s' ps Hm Hs].
  - by apply (replay_step {| rn_server := s; rn_phases := ps |} s' i true Hinv).
  - by apply (replay_step {| rn_server := s; rn_phases := ps |} s' i false Hinv).
  - by apply (add_step {| rn_server := s; rn_phases := ps |} i Hinv).
  - set (r := {| rn_server := s; rn_phases := ps |}) in *.
    unfold mark_active_if_new, sbind, gets, on_mutations, modify in Hm. injection Hm as <- <-.
    apply (quiet_step r _ i _ Hinv); try done.
    + unfold batch, at_phase. cbn. rewrite lookup_insert_eq. by case_bool_decide.
    + intros _. unfold fresh, at_phase. cbn. rewrite lookup_insert_eq. by case_bool_decide; intros [].
    + unfold state_of, at_phase. cbn. rewrite lookup_insert_eq. by case_bool_decide.
    + intros j Hj. cbn. destruct (decide (i = j)) as [<-|Hij]; [set_solver|].
      unfold works in Hj. rewrite phase_ne in Hj by done. pose proof (inv_active _ Hinv j Hj). cbn in *. set_solver.
    + intros Hw j Hj Hwj E. unfold works, at_phase in Hw. cbn in Hw. rewrite lookup_insert_eq in Hw.
      case_bool_decide as Ha; [done|]. apply Ha. rewrite <- E. apply (inv_active _ Hinv j Hwj).
  - set (r := {| rn_server := s; rn_phases := ps |}) in *. apply ensure_run in He as [Em Es].
    assert (Hwi : works r i) by (unfold works; cbn; by rewrite Hi).
    apply (quiet_step r _ i _ Hinv); try done.
    + cbn. by rewrite Em.
    + unfold batch. by rewrite phase_eq.
    + intros _. unfold fresh. rewrite phase_eq. by intros [].
    + intros st'. unfold state_of. rewrite phase_eq. by intros [= <-].
    + intros j Hj. rewrite Em. apply (inv_active _ Hinv). unfold works in *.
      destruct (decide (i = j)) as [<-|Hij]; [cbn; by rewrite Hi|by rewrite phase_ne in Hj].
    + intros _ j Hj Hwj E. by apply Hj, (inv_one _ Hinv).
  - set (r := {| rn_server := s; rn_phases := ps |}) in *.
    unfold persist_final_response, save_mutation_state, sbind, modify in Hp. injection Hp as <- <-.
    assert (Hwi : works r i) by (unfold works; cbn; by rewrite Hi).
    apply (quiet_step r _ i _ Hinv); try done.
    + unfold batch. by rewrite phase_eq.
    + intros _. unfold fresh. rewrite phase_eq. by intros [].
    + intros st'. unfold state_of. rewrite phase_eq. intros [= <-]. cbn.
      apply (inv_key _ Hinv). unfold state_of. cbn. by rewrite Hi.
    + intros j Hj. apply (inv_active _ Hinv). unfold works in *.
      destruct (decide (i = j)) as [<-|Hij]; [cbn; by rewrite Hi|by rewrite phase_ne in Hj].
    + intros _ j Hj Hwj E. by apply Hj, (inv_one _ Hinv).
  - by apply (take_step {| rn_server := s; rn_phases := ps |} i st ws s' Hinv).
  - by apply (send_step {| rn_server := s; rn_phases := ps |} i st resp w ws Hinv).
  - set (r := {| rn_server := s; rn_phases := ps |}) in *.
    assert (Hwi : works r i) by (unfold works; cbn; by rewrite Hi).
    apply (quiet_step r _ i _ Hinv); try done.
    + unfold batch. by rewrite phase_eq.
    + intros _. unfold fresh. rewrite phase_eq. by intros [].
    + intros st'. unfold state_of. rewrite phase_eq. intros [= <-].
      apply (inv_key _ Hinv). unfold state_of. cbn. by rewrite Hi.
    + intros j Hj. apply (inv_active _ Hinv). unfold works in *.
      destruct (decide (i = j)) as [<-|Hij]; [cbn; by rewrite Hi|by rewrite phase_ne in Hj].
    + intros _ j Hj Hwj E. by apply Hj, (inv_one _ Hinv).
  - set (r := {| rn_server := s; rn_phases := ps |}) in *.
    assert (Hwi : works r i) by (unfold works; cbn; by rewrite Hi).
    assert (Hk : mu_key st = rq_key (requests i)) by (apply (inv_key _ Hinv); unfold state_of; cbn; by rewrite Hi).
    apply (quiet_step r _ i _ Hinv); try done.
    + unfold batch. by rewrite phase_eq.
    + intros _. unfold fresh. rewrite phase_eq. by intros [].
    + intros st'. unfold state_of. by rewrite phase_eq.
    + intros j Hj. cbn. rewrite Hk. unfold works in Hj.
      destruct (decide (i = j)) as [<-|Hij]; [by rewrite phase_eq in Hj|]. rewrite phase_ne in Hj by done.
      pose proof (inv_active _ Hinv j Hj) as Ha. cbn in Ha. apply elem_of_difference. split; [done|].
      intros E%elem_of_singleton. apply Hij. symmetry. by apply (inv_one _ Hinv).
    + unfold works. by rewrite phase_eq.
  - destruct Hinv as [I1 I2 I3 I4 I5 I6 I7 I8 I9 I10].
    split; unfold works, state_of, batch, queue, fresh, answers in *; cbn in *; rewrite ?Hm, ?Hs in *; auto.
Qed.

Lemma reachable_inv r : reachable r → run_inv r.
Proof.
  intros (r0 & Hs & Hr). apply starts_inv in Hs. induction Hr as [|? ? ? Hs1 _ IH]; [done|].
  apply IH. by eapply step_inv.
Qed.

(** C30. Whatever the order of the sections of many requests, and whatever the
    files and the clock do: a request gets at most one answer, a key is worked on
    by at most one request at a time, and a request that stands in line for an
    answer has had none and stands there once. *)
Theorem mutations_answered_once r :
  reachable r →
  (∀ i, length (answers r i) ≤ 1)
  ∧ (∀ i j, works r i → works r j → rq_key (requests i) = rq_key (requests j) → i = j)
  ∧ (∀ k, NoDup (queue r k))
  ∧ (∀ i, waiter i ∈ queue r (rq_key (requests i)) → answers r i = []).
Proof.
  intros Hr%reachable_inv. split_and!; [apply (inv_once _ Hr)|apply (inv_one _ Hr)|apply (inv_queue_once _ Hr)|].
  intros i Hin. destruct (inv_queue _ Hr _ _ Hin) as (j & E & _ & _ & Ha).
  by apply requests_apart in E as <-.
Qed.

End protocol.

(** ** A scheduler *)

Section scheduler.
Context `{ServerCodec} (requests : nat → Request) (response : PersistedSwarmMutationResponse).

(** The next section of a request; its work has the given response. *)
Definition next_section (i : nat) (r : Run) : option Run :=
  let s := rn_server r in
  let q := requests i in
  let at_ (s : Server) (p : Phase) := Some (at_phase s i p r) in
  match rn_phases r !! i with
  | None =>
      let (replayed, s) := replay_stored (rq_key q) (rq_session_id q) (rq_id q) (rq_tx q) s in
      at_ s (if replayed then Finished else Loaded)
  | Some Loaded => at_ (add_waiter (rq_key q) (rq_id q) (rq_tx q) s).2 Added
  | Some Added =>
      let (new, s) := mark_active_if_new (rq_key q) s in at_ s (if new then Leading else Waiting)
  | Some Leading =>
      let (state, s) := ensure_pending_state (rq_key q) (rq_action q) (rq_session_id q) s in
      if decide (mu_key state = rq_key q) then at_ s (Working state) else None
  | Some (Working state) =>
      let (persisted, s) := persist_final_response state response s in at_ s (Saved persisted)
  | Some (Saved state) => let (waiters, s) := take_waiters (mu_key state) s in at_ s (Sending state waiters)
  | Some (Sending state (w :: waiters)) =>
      match mu_final_response state with
      | Some answer =>
          at_ (send_ w.2 (into_server_event answer w.1 (mu_session_id state)) s).2 (Sending state waiters)
      | None => None
      end
  | Some (Sending state []) => at_ s (Clearing state)
  | Some (Clearing state) => at_ (clear_active (mu_key state) s).2 Finished
  | Some (Waiting | Finished) => None
  end.

Fixpoint run_sections (schedule : list nat) (r : Run) : option Run :=
  match schedule with
  | [] => Some r
  | i :: schedule => next_section i r ≫= run_sections schedule
  end.

Lemma next_section_step i r r' : next_section i r = Some r' → run_step requests r r'.
Proof.
  destruct r as [s ps]. unfold next_section, at_phase. cbn [rn_server rn_phases].
  destruct (ps !! i) as [p|] eqn:Ep.
  - destruct p as [| | | |st|st|st [|w ws]|st|]; try done.
    + intros [= <-]. by apply StepAdd.
    + destruct (mark_active_if_new _ s) as [new s'] eqn:E. intros [= <-]. by apply StepMark.
    + destruct (ensure_pending_state _ _ _ s) as [st s'] eqn:E. case_decide; [|done]. intros [= <-].
      by eapply StepEnsure.
    + destruct (persist_final_response st response s) as [p s'] eqn:E. intros [= <-]. by eapply StepSave.
    + destruct (take_waiters (mu_key st) s) as [ws s'] eqn:E. intros [= <-]. by eapply StepTake.
    + intros [= <-]. by apply StepSent.
    + destruct (mu_final_response st) eqn:E; [|done]. intros [= <-]. by eapply StepSend.
    + intros [= <-]. by apply StepClear.
  - destruct (replay_stored _ _ _ _ s) as [[] s'] eqn:E; intros [= <-]; [by eapply StepReplay|by eapply StepLoad].
Qed.

Lemma run_sections_reachable schedule r r' :
  reachable requests r → run_sections schedule r = Some r' → reachable requests r'.
Proof.
  revert r. induction schedule as [|i schedule IH]; intros r Hr; cbn; [by intros [= <-]|].
  destruct (next_section i r) as [r1|] eqn:E; [|done]. cbn. apply IH.
  destruct Hr as (r0 & Hs & Hst). exists r0. split; [done|]. eapply rtc_r; [done|]. by eapply next_section_step.
Qed.
End scheduler.
