(* ===== verification/SwarmServerExamples.v ===== *)
(** * The swarm server on concrete inputs

    Servers that meet the hypotheses of the properties, and runs that show where
    the code does not do what it means to. *)

From S2P Require Import Prelude Utf8 SessionTypes SwarmPlan SwarmCore SessionText Storage StorageTheorems SwarmServerTypes SwarmPersistence SwarmServer SwarmPersistenceTheorems SwarmServerTheorems SwarmMutations.
Open Scope nat_scope.

(** * A concrete text for the files of the swarm server

    Every stored value as a tree, and the tree as a text: an instance of the
    codec that [serde_json] provides, with its laws, to run the model on
    concrete inputs. *)

#[export, refine] Instance pair_tree {A B} `{Tree A} `{Tree B} : Tree (A * B) := {
  to_tree x := GenNode 0 [to_tree x.1; to_tree x.2];
  of_tree t := match t with
               | GenNode 0 [a; b] => a ← of_tree a; b ← of_tree b; Some (a, b)
               | _ => None
               end;
}.
Proof. intros [a b]. cbn. by rewrite !tree_inv. Defined.

Definition map_to_tree {A} `{Tree A} (m : gmap string A) : tree :=
  to_tree (A := list (string * A)) (map_to_list m).

Definition map_of_tree {A} `{Tree A} (t : tree) : option (gmap string A) :=
  match of_tree (A := list (string * A)) t with
  | Some l => Some (list_to_map l)
  | None => None
  end.

Lemma map_tree_inv {A} `{Tree A} (m : gmap string A) : map_of_tree (map_to_tree m) = Some m.
Proof. unfold map_of_tree, map_to_tree. rewrite tree_inv. by rewrite list_to_map_to_list. Qed.

#[export] Instance map_tree {A} `{Tree A} : Tree (gmap string A) :=
  {| to_tree := map_to_tree; of_tree := map_of_tree; tree_inv := map_tree_inv |}.

#[export, refine] Instance SwarmTaskProgress_tree : Tree SwarmTaskProgress := {
  to_tree r := GenNode 0 [to_tree (tp_assigned_session_id r); to_tree (tp_assignment_summary
    r); to_tree (tp_assigned_at_unix_ms r); to_tree (tp_started_at_unix_ms r); to_tree
    (tp_last_heartbeat_unix_ms r); to_tree (tp_last_detail r); to_tree
    (tp_last_checkpoint_unix_ms r); to_tree (tp_checkpoint_summary r); to_tree
    (tp_completed_at_unix_ms r); to_tree (tp_stale_since_unix_ms r); to_tree
    (tp_heartbeat_count r); to_tree (tp_checkpoint_count r)];
  of_tree t := match t with GenNode 0 [x0; x1; x2; x3; x4; x5; x6; x7; x8; x9; x10; x11] =>
    x0 ← of_tree x0; x1 ← of_tree x1; x2 ← of_tree x2; x3 ← of_tree x3; x4 ← of_tree x4; x5 ←
      of_tree x5; x6 ← of_tree x6; x7 ← of_tree x7; x8 ← of_tree x8; x9 ← of_tree x9; x10 ←
      of_tree x10; x11 ← of_tree x11;
    Some (Build_SwarmTaskProgress x0 x1 x2 x3 x4 x5 x6 x7 x8 x9 x10 x11)
    | _ => None end;
}.
Proof. intros r. rewrite !tree_inv. by destruct r. Defined.

#[export, refine] Instance SwarmRole_tree : Tree SwarmRole := {
  to_tree v := match v with
    | Agent => GenNode 0 []
    | Coordinator => GenNode 1 []
    | WorktreeManager => GenNode 2 []
    | OtherRole x0 => GenNode 3 [to_tree x0]
    end;
  of_tree t := match t with
    | GenNode 0 [] => Some (Agent)
    | GenNode 1 [] => Some (Coordinator)
    | GenNode 2 [] => Some (WorktreeManager)
    | GenNode 3 [x0] => x0 ← of_tree x0; Some (OtherRole x0)
    | _ => None
    end;
}.
Proof. intros []; by rewrite ?tree_inv. Defined.

#[export, refine] Instance SwarmLifecycleStatus_tree : Tree SwarmLifecycleStatus := {
  to_tree v := match v with
    | Spawned => GenNode 0 []
    | Ready => GenNode 1 []
    | Running => GenNode 2 []
    | RunningStale => GenNode 3 []
    | Completed => GenNode 4 []
    | Done => GenNode 5 []
    | Failed => GenNode 6 []
    | Stopped => GenNode 7 []
    | Crashed => GenNode 8 []
    | Queued => GenNode 9 []
    | Blocked => GenNode 10 []
    | Pending => GenNode 11 []
    | Todo => GenNode 12 []
    | OtherStatus x0 => GenNode 13 [to_tree x0]
    end;
  of_tree t := match t with
    | GenNode 0 [] => Some (Spawned)
    | GenNode 1 [] => Some (Ready)
    | GenNode 2 [] => Some (Running)
    | GenNode 3 [] => Some (RunningStale)
    | GenNode 4 [] => Some (Completed)
    | GenNode 5 [] => Some (Done)
    | GenNode 6 [] => Some (Failed)
    | GenNode 7 [] => Some (Stopped)
    | GenNode 8 [] => Some (Crashed)
    | GenNode 9 [] => Some (Queued)
    | GenNode 10 [] => Some (Blocked)
    | GenNode 11 [] => Some (Pending)
    | GenNode 12 [] => Some (Todo)
    | GenNode 13 [x0] => x0 ← of_tree x0; Some (OtherStatus x0)
    | _ => None
    end;
}.
Proof. intros []; by rewrite ?tree_inv. Defined.

#[export, refine] Instance SwarmMemberRecord_tree : Tree SwarmMemberRecord := {
  to_tree r := GenNode 0 [to_tree (sm_session_id r); to_tree (sm_working_dir r); to_tree
    (sm_swarm_id r); to_tree (sm_swarm_enabled r); to_tree (sm_status r); to_tree (sm_detail
    r); to_tree (sm_friendly_name r); to_tree (sm_report_back_to_session_id r); to_tree
    (sm_latest_completion_report r); to_tree (sm_role r); to_tree (sm_is_headless r)];
  of_tree t := match t with GenNode 0 [x0; x1; x2; x3; x4; x5; x6; x7; x8; x9; x10] =>
    x0 ← of_tree x0; x1 ← of_tree x1; x2 ← of_tree x2; x3 ← of_tree x3; x4 ← of_tree x4; x5 ←
      of_tree x5; x6 ← of_tree x6; x7 ← of_tree x7; x8 ← of_tree x8; x9 ← of_tree x9; x10 ←
      of_tree x10;
    Some (Build_SwarmMemberRecord x0 x1 x2 x3 x4 x5 x6 x7 x8 x9 x10)
    | _ => None end;
}.
Proof. intros r. rewrite !tree_inv. by destruct r. Defined.

#[export, refine] Instance PersistedVersionedPlan_tree : Tree PersistedVersionedPlan := {
  to_tree r := GenNode 0 [to_tree (pp_items r); to_tree (pp_version r); to_tree
    (pp_participants r); to_tree (pp_task_progress r)];
  of_tree t := match t with GenNode 0 [x0; x1; x2; x3] =>
    x0 ← of_tree x0; x1 ← of_tree x1; x2 ← of_tree x2; x3 ← of_tree x3;
    Some (Build_PersistedVersionedPlan x0 x1 x2 x3)
    | _ => None end;
}.
Proof. intros r. rewrite !tree_inv. by destruct r. Defined.

#[export, refine] Instance PersistedSwarmState_tree : Tree PersistedSwarmState := {
  to_tree r := GenNode 0 [to_tree (ps_swarm_id r); to_tree (ps_plan r); to_tree
    (ps_coordinator_session_id r); to_tree (ps_members r); to_tree (ps_updated_at_unix_ms r)];
  of_tree t := match t with GenNode 0 [x0; x1; x2; x3; x4] =>
    x0 ← of_tree x0; x1 ← of_tree x1; x2 ← of_tree x2; x3 ← of_tree x3; x4 ← of_tree x4;
    Some (Build_PersistedSwarmState x0 x1 x2 x3 x4)
    | _ => None end;
}.
Proof. intros r. rewrite !tree_inv. by destruct r. Defined.

#[export, refine] Instance SoftInterruptSource_tree : Tree SoftInterruptSource := {
  to_tree v := match v with
    | SourceUser => GenNode 0 []
    | SourceSystem => GenNode 1 []
    | SourceBackgroundTask => GenNode 2 []
    end;
  of_tree t := match t with
    | GenNode 0 [] => Some (SourceUser)
    | GenNode 1 [] => Some (SourceSystem)
    | GenNode 2 [] => Some (SourceBackgroundTask)
    | _ => None
    end;
}.
Proof. intros []; by rewrite ?tree_inv. Defined.

#[export, refine] Instance SoftInterruptMessage_tree : Tree SoftInterruptMessage := {
  to_tree r := GenNode 0 [to_tree (si_content r); to_tree (si_urgent r); to_tree (si_source
    r)];
  of_tree t := match t with GenNode 0 [x0; x1; x2] =>
    x0 ← of_tree x0; x1 ← of_tree x1; x2 ← of_tree x2;
    Some (Build_SoftInterruptMessage x0 x1 x2)
    | _ => None end;
}.
Proof. intros r. rewrite !tree_inv. by destruct r. Defined.

#[export, refine] Instance PlanGraphStatus_tree : Tree PlanGraphStatus := {
  to_tree r := GenNode 0 [to_tree (gs_swarm_id r); to_tree (gs_version r); to_tree
    (gs_item_count r); to_tree (gs_ready_ids r); to_tree (gs_blocked_ids r); to_tree
    (gs_active_ids r); to_tree (gs_completed_ids r); to_tree (gs_cycle_ids r); to_tree
    (gs_unresolved_dependency_ids r); to_tree (gs_next_ready_ids r); to_tree
    (gs_newly_ready_ids r)];
  of_tree t := match t with GenNode 0 [x0; x1; x2; x3; x4; x5; x6; x7; x8; x9; x10] =>
    x0 ← of_tree x0; x1 ← of_tree x1; x2 ← of_tree x2; x3 ← of_tree x3; x4 ← of_tree x4; x5 ←
      of_tree x5; x6 ← of_tree x6; x7 ← of_tree x7; x8 ← of_tree x8; x9 ← of_tree x9; x10 ←
      of_tree x10;
    Some (Build_PlanGraphStatus x0 x1 x2 x3 x4 x5 x6 x7 x8 x9 x10)
    | _ => None end;
}.
Proof. intros r. rewrite !tree_inv. by destruct r. Defined.

#[export, refine] Instance PersistedSwarmMutationResponse_tree : Tree PersistedSwarmMutationResponse := {
  to_tree v := match v with
    | MutationDone => GenNode 0 []
    | MutationAssignTask x0 x1 => GenNode 1 [to_tree x0; to_tree x1]
    | MutationTaskControl x0 x1 x2 x3 x4 => GenNode 2 [to_tree x0; to_tree x1; to_tree x2; to_tree x3; to_tree x4]
    | MutationError x0 x1 => GenNode 3 [to_tree x0; to_tree x1]
    | MutationSpawn x0 => GenNode 4 [to_tree x0]
    end;
  of_tree t := match t with
    | GenNode 0 [] => Some (MutationDone)
    | GenNode 1 [x0; x1] => x0 ← of_tree x0; x1 ← of_tree x1; Some (MutationAssignTask x0 x1)
        | GenNode 2 [x0; x1; x2; x3; x4] => x0 ← of_tree x0; x1 ← of_tree x1; x2 ← of_tree x2;
        x3 ← of_tree x3; x4 ← of_tree x4; Some (MutationTaskControl x0 x1 x2 x3 x4)
    | GenNode 3 [x0; x1] => x0 ← of_tree x0; x1 ← of_tree x1; Some (MutationError x0 x1)
    | GenNode 4 [x0] => x0 ← of_tree x0; Some (MutationSpawn x0)
    | _ => None
    end;
}.
Proof. intros []; by rewrite ?tree_inv. Defined.

#[export, refine] Instance PersistedSwarmMutationState_tree : Tree PersistedSwarmMutationState := {
  to_tree r := GenNode 0 [to_tree (mu_key r); to_tree (mu_action r); to_tree (mu_session_id
    r); to_tree (mu_created_at_unix_ms r); to_tree (mu_final_response r)];
  of_tree t := match t with GenNode 0 [x0; x1; x2; x3; x4] =>
    x0 ← of_tree x0; x1 ← of_tree x1; x2 ← of_tree x2; x3 ← of_tree x3; x4 ← of_tree x4;
    Some (Build_PersistedSwarmMutationState x0 x1 x2 x3 x4)
    | _ => None end;
}.
Proof. intros r. rewrite !tree_inv. by destruct r. Defined.

#[export, refine] Instance AwaitedMemberStatus_tree : Tree AwaitedMemberStatus := {
  to_tree r := GenNode 0 [to_tree (aw_session_id r); to_tree (aw_friendly_name r); to_tree
    (aw_status r); to_tree (aw_done r); to_tree (aw_completion_report r)];
  of_tree t := match t with GenNode 0 [x0; x1; x2; x3; x4] =>
    x0 ← of_tree x0; x1 ← of_tree x1; x2 ← of_tree x2; x3 ← of_tree x3; x4 ← of_tree x4;
    Some (Build_AwaitedMemberStatus x0 x1 x2 x3 x4)
    | _ => None end;
}.
Proof. intros r. rewrite !tree_inv. by destruct r. Defined.

#[export, refine] Instance PersistedAwaitMembersResult_tree : Tree PersistedAwaitMembersResult := {
  to_tree r := GenNode 0 [to_tree (ar_completed r); to_tree (ar_members r); to_tree
    (ar_summary r); to_tree (ar_resolved_at_unix_ms r)];
  of_tree t := match t with GenNode 0 [x0; x1; x2; x3] =>
    x0 ← of_tree x0; x1 ← of_tree x1; x2 ← of_tree x2; x3 ← of_tree x3;
    Some (Build_PersistedAwaitMembersResult x0 x1 x2 x3)
    | _ => None end;
}.
Proof. intros r. rewrite !tree_inv. by destruct r. Defined.

#[export, refine] Instance PersistedAwaitMembersState_tree : Tree PersistedAwaitMembersState := {
  to_tree r := GenNode 0 [to_tree (am_key r); to_tree (am_session_id r); to_tree (am_swarm_id
    r); to_tree (am_target_status r); to_tree (am_requested_ids r); to_tree (am_mode r);
    to_tree (am_created_at_unix_ms r); to_tree (am_deadline_unix_ms r); to_tree
    (am_final_response r)];
  of_tree t := match t with GenNode 0 [x0; x1; x2; x3; x4; x5; x6; x7; x8] =>
    x0 ← of_tree x0; x1 ← of_tree x1; x2 ← of_tree x2; x3 ← of_tree x3; x4 ← of_tree x4; x5 ←
      of_tree x5; x6 ← of_tree x6; x7 ← of_tree x7; x8 ← of_tree x8;
    Some (Build_PersistedAwaitMembersState x0 x1 x2 x3 x4 x5 x6 x7 x8)
    | _ => None end;
}.
Proof. intros r. rewrite !tree_inv. by destruct r. Defined.

(** ** The codec *)

Definition value_text {A} `{Tree A} (x : A) : string := tree_text (to_tree x).
Definition text_value {A} `{Tree A} (text : string) : option A := text_tree text ≫= of_tree.

Lemma text_value_inv {A} `{Tree A} (x : A) : text_value (value_text x) = Some x.
Proof. unfold text_value, value_text. rewrite text_tree_inv. cbn. apply tree_inv. Qed.

#[export] Instance server_text : ServerCodec := {
  swarm_state_json := value_text;
  parse_swarm_state := text_value;
  interrupts_json := value_text;
  parse_interrupts := text_value;
  mutation_json := value_text;
  parse_mutation := text_value;
  await_json := value_text;
  parse_await := text_value;
  items_json := value_text;
  parse_items := text_value;
}.

#[export] Instance server_text_laws : ServerCodecLaws.
Proof. split; intros x; (apply tree_text_utf8 || apply text_value_inv). Qed.

(** ** Servers *)

Definition example_member (session_id swarm_id role status : string) (headless : bool)
    (tx : Sender) (owner : option string) : SwarmMember := {|
  mb_session_id := session_id; mb_event_tx := tx; mb_event_txs := ∅;
  mb_working_dir := Some "/work"; mb_swarm_id := Some swarm_id; mb_swarm_enabled := true;
  mb_status := status; mb_detail := None; mb_friendly_name := Some session_id;
  mb_report_back_to_session_id := owner; mb_latest_completion_report := None; mb_role := role;
  mb_joined_at := 0; mb_last_status_change := 0; mb_is_headless := headless;
|}.

Definition example_item (id status : string) (assignee : option string) : PlanItem := {|
  pi_content := "do " +:+ id; pi_status := status; pi_priority := "high"; pi_id := id;
  pi_subsystem := None; pi_file_scope := []; pi_blocked_by := []; pi_assigned_to := assignee;
|}.

Definition example_plan (items : list PlanItem) : VersionedPlan := {|
  vp_items := items; vp_version := 1; vp_participants := {["ann"; "bob"]};
  vp_task_progress := ∅;
|}.

(** The server of one swarm, [s1], with the coordinator [ann] at the channel 1
    and the worker [bob] at the channel 2. *)
Definition example_swarm (worker_status : string) (items : list PlanItem) : SwarmState := {|
  sw_members := {["ann" := example_member "ann" "s1" "coordinator" "ready" false 1 None;
                  "bob" := example_member "bob" "s1" "agent" worker_status false 2 (Some "ann")]};
  sw_swarms_by_id := {["s1" := {["ann"; "bob"]}]};
  sw_plans := {["s1" := example_plan items]};
  sw_coordinators := {["s1" := "ann"]};
|}.

Definition no_runtime : KeyRuntime := {| rt_active_keys := ∅; rt_waiters := ∅ |}.

Definition empty_world : World :=
  {| w_files := ∅; w_dirs := ∅; w_faults := []; w_gcode_dir := inl "/g" |}.

Definition example_server (w : SwarmState) : Server := {|
  sv_swarm := w; sv_sent := []; sv_closed := ∅; sv_event_history := []; sv_event_counter := 0;
  sv_event_log := []; sv_pending := ∅; sv_queues := ∅; sv_queue_contents := ∅; sv_sessions := ∅;
  sv_file_touches := ∅; sv_files_touched_by_session := ∅; sv_shared_context := ∅;
  sv_channels := (∅, ∅); sv_client_connections := ∅; sv_mutations := no_runtime;
  sv_awaits := no_runtime; sv_runs := []; sv_world := empty_world; sv_runtime_dir := "/run";
  sv_tmp_suffix := "7"; sv_env := ∅; sv_now := 100000;
|}.

(** ** Restarts *)

Definition busy_swarm : SwarmState := example_swarm "running" [example_item "t1" "running" (Some "bob")].

Definition stored_world : World :=
  sv_world (persist_swarm_state_for "s1" (example_server busy_swarm)).2.

(** The order of the hash tables backwards. *)
Program Definition reverse_order : HashOrder := {|
  hash_entries V m := reverse (map_to_list m);
  hash_elements s := reverse (elements s);
|}.
Next Obligation. intros V m. apply reverse_Permutation. Qed.
Next Obligation. intros s. apply reverse_Permutation. Qed.

(** The swarm is stored twice, with the task first running and then done. *)
Definition twice_stored : Server :=
  ((persist_swarm_state_for "s1" ;~
   on_plans (λ plans, <["s1" := {| vp_items := [example_item "t1" "done" (Some "bob")];
     vp_version := 2; vp_participants := {["ann"; "bob"]}; vp_task_progress := ∅ |}]> plans) ;~
   persist_swarm_state_for "s1") (example_server busy_swarm)).2.

(** The swarm as it was first, and as it is then. *)
Definition done_swarm : SwarmState := sv_swarm twice_stored.

Definition twice_stored_states : list PersistedSwarmState :=
  [snapshot (H := reverse_order) (λ _, 100000%Z) busy_swarm "s1";
   snapshot (H := reverse_order) (λ _, 100000%Z) done_swarm "s1"].

Lemma done_swarm_keyed : keyed done_swarm.
Proof.
  intros k m Hm. change (sw_members done_swarm) with (sw_members busy_swarm) in Hm.
  cbn [sw_members busy_swarm example_swarm] in Hm. apply lookup_insert_Some in Hm as [[<- <-]|[_ Hm]]; [done|].
  by apply lookup_singleton_Some in Hm as [<- <-].
Qed.

Lemma done_swarm_covered : covers ["s1"] done_swarm.
Proof.
  intros g Hg. change (sw_members done_swarm) with (sw_members busy_swarm) in Hg.
  change (sw_coordinators done_swarm) with (sw_coordinators busy_swarm) in Hg.
  change (sw_plans done_swarm) with
    (<["s1" := {| vp_items := [example_item "t1" "done" (Some "bob")];
       vp_version := 2; vp_participants := {["ann"; "bob"]}; vp_task_progress := ∅ |}]> (sw_plans busy_swarm)) in Hg.
  cbn [sw_members sw_plans sw_coordinators busy_swarm example_swarm] in Hg.
  apply list_elem_of_singleton. destruct Hg as [[p Hp]|[[c Hc]|(k & m & Hm & Hs)]].
  - apply lookup_insert_Some in Hp as [[<- _]|[_ Hp]]; [done|]. by apply lookup_singleton_Some in Hp as [<- _].
  - by apply lookup_singleton_Some in Hc as [<- _].
  - apply lookup_insert_Some in Hm as [[_ <-]|[_ Hm]]; [by injection Hs|].
    apply lookup_singleton_Some in Hm as [_ <-]. by injection Hs.
Qed.

Lemma twice_stored_plans st :
  st ∈ twice_stored_states →
  ps_swarm_id st = "s1" ∧ ps_members st = ps_members (snapshot (H := reverse_order) (λ _, 100000%Z) busy_swarm "s1").
Proof.
  intros Hst. apply elem_of_cons in Hst as [->|Hst]; [done|].
  by apply list_elem_of_singleton in Hst as ->.
Qed.

Lemma states_outlived st : st ∈ twice_stored_states → outlived done_swarm st.
Proof.
  intros [Hid Hms]%twice_stored_plans. unfold outlived. rewrite Hid, Hms.
  split; [intros _; vm_compute; by eexists|]. split; [intros _; vm_compute; by eexists|].
  intros r (k & m & Hm & Hs & ->)%elem_of_snapshot_members. split; [exact Hs|].
  exists m. change (sw_members done_swarm) with (sw_members busy_swarm). split; [|exact Hs].
  cbn [durable_record sm_session_id]. by rewrite (done_swarm_keyed _ _ Hm).
Qed.

Lemma done_swarm_last :
  current_last (H := reverse_order) (λ _, 100000%Z) ["s1"] done_swarm twice_stored_states.
Proof.
  split; [apply Forall_forall, states_outlived|].
  intros g ->%list_elem_of_singleton. by eexists [_], [].
Qed.

(** The swarm was stored twice; the directory lists the backup with the running
    task before the current file. *)
Lemma stored_swarms_recover_witness :
  keyed done_swarm ∧ covers ["s1"] done_swarm
  ∧ current_last (H := reverse_order) (λ _, 100000%Z) ["s1"] done_swarm twice_stored_states
  ∧ stored (H := reverse_order) "/run" twice_stored_states (sv_world twice_stored)
  ∧ (load_runtime_state (H := reverse_order) 200000 "/run" (sv_world twice_stored)).2
    = sv_world twice_stored.
Proof.
  assert (Hs : stored (H := reverse_order) "/run" twice_stored_states (sv_world twice_stored))
    by (vm_compute; reflexivity).
  split; [exact done_swarm_keyed|]. split; [exact done_swarm_covered|].
  split; [exact done_swarm_last|]. split; [exact Hs|].
  pose proof (stored_swarms_recover (H := reverse_order) 200000 "/run" (λ _, 100000%Z) ["s1"] done_swarm
    twice_stored_states (sv_world twice_stored) done_swarm_keyed done_swarm_covered done_swarm_last
    Hs eq_refl) as Ht.
  destruct (load_runtime_state (H := reverse_order) 200000 "/run" (sv_world twice_stored)) as [w' world'].
  exact (proj1 Ht).
Defined.

Definition loaded_plan (order : HashOrder) (world : World) : option (u64 * list string) :=
  match sw_plans (load_runtime_state (H := order) 200000 "/run" world).1 !! "s1" with
  | Some plan => Some (vp_version plan, pi_status <$> vp_items plan)
  | None => None
  end.

(** The backup that a write leaves beside the file is read like the file: if the
    directory lists it later, the older state replaces the newer one, and the
    finished task is taken up again. *)
Lemma old_backup_wins :
  loaded_plan reverse_order (sv_world twice_stored) = Some (2%Z, ["done"])
  ∧ loaded_plan map_order (sv_world twice_stored) = Some (1%Z, ["running_stale"]).
Proof. vm_compute. split; reflexivity. Qed.

(** A swarm that ended: its file is removed, its backup is not, and a restart
    brings it back. *)
Definition ended : Server :=
  ((on_swarm (λ _, no_swarms) ;~ persist_swarm_state_for "s1") twice_stored).2.

Lemma ended_swarm_returns :
  sv_swarm ended = no_swarms
  ∧ loaded_plan map_order (sv_world ended) = Some (1%Z, ["running_stale"]).
Proof. vm_compute. split; reflexivity. Qed.

(** Identifiers that differ in replaced characters share a file. *)
Lemma state_paths_collide : swarm_state_path "/run" "team/a" = swarm_state_path "/run" "team_a".
Proof. vm_compute. reflexivity. Qed.

(** ** Requests for the same change *)

(** Requests of [ann] with the same key, each on a channel of its own. *)
Definition same_requests (i : nat) : Request := {|
  rq_key := "ann-1"; rq_action := "spawn"; rq_session_id := "ann"; rq_id := Z.of_nat i; rq_tx := S i;
|}.

Definition no_requests : Run := {| rn_server := example_server no_swarms; rn_phases := ∅ |}.

Definition scheduled (schedule : list nat) : option Run :=
  run_sections same_requests (MutationSpawn "new") schedule no_requests.

(** What is seen of a run: the answers to two requests, those in line, and
    whether the key is worked on. *)
Definition observed (r : Run) : list (Sender * ServerEvent) * list (u64 * Sender) * bool :=
  (sv_sent (rn_server r), queue r "ann-1",
   bool_decide ("ann-1" ∈ rt_active_keys (sv_mutations (rn_server r)))).

(** The usual order: the second request waits, and both get the answer. *)
Lemma both_answered :
  observed <$> scheduled [0; 0; 0; 1; 1; 1; 0; 0; 0; 0; 0; 0; 0]
  = Some ([(1, EventCommSpawnResponse 0 "ann" "new"); (2, EventCommSpawnResponse 1 "ann" "new")], [], false).
Proof. vm_compute. reflexivity. Qed.

(** The second request looks for a stored answer before the first one stores it,
    and stands in line after the line was served: no one answers it. *)
Definition late_waiter : list nat := [0; 1; 0; 0; 0; 0; 0; 0; 0; 1; 1; 0].

Lemma late_waiter_unanswered :
  observed <$> scheduled late_waiter
  = Some ([(1, EventCommSpawnResponse 0 "ann" "new")], [(1%Z, 2)], false)
  ∧ (scheduled late_waiter ≫= next_section same_requests (MutationSpawn "new") 1) = None.
Proof. vm_compute. split; reflexivity. Qed.

(** One section later it becomes the worker itself: it finds the finished state
    and does the work a second time. *)
Definition late_worker : list nat := [0; 1; 0; 0; 0; 0; 0; 0; 0; 0; 1; 1; 1].

Lemma late_worker_repeats :
  (λ r, (sv_sent (rn_server r),
         match rn_phases r !! 1 with Some (Working state) => mu_final_response state | _ => None end))
    <$> scheduled late_worker
  = Some ([(1, EventCommSpawnResponse 0 "ann" "new")], Some (MutationSpawn "new")).
Proof. vm_compute. reflexivity. Qed.

Lemma no_requests_reachable : reachable same_requests no_requests.
Proof. exists no_requests. split; [|constructor]. done. Qed.

Lemma mutations_answered_once_witness : ∃ r,
  scheduled late_waiter = Some r ∧ reachable same_requests r
  ∧ ∀ i, length (answers same_requests r i) ≤ 1.
Proof.
  destruct (scheduled late_waiter) as [r|] eqn:E.
  - exists r. split; [reflexivity|].
    assert (Hr : reachable same_requests r).
    { eapply run_sections_reachable; [apply no_requests_reachable|exact E]. }
    split; [exact Hr|]. refine (proj1 (mutations_answered_once same_requests _ r Hr)).
    intros i j [= Hij _]. lia.
  - exfalso. pose proof (proj1 late_waiter_unanswered) as Hs. rewrite E in Hs. discriminate Hs.
Defined.

(** ** The end of a task *)

(** [bob] completes a task that he reports to [ann]. *)
Lemma completion_notice_correct_witness :
  let s := example_server busy_swarm in
  let '(result, s') := update_member_status_with_report "bob" "completed" None (Some "all green") false s in
  result = Some ()
  ∧ notifications (sv_sent s') = [(1, EventNotification "bob" (Some "bob") (message_notice "swarm")
      (completion_notification_message "bob" "completed" (Some "all green")))]
  ∧ ∃ recipient events,
      should_hear (sw_members busy_swarm) "bob" "s1"
        (example_member "bob" "s1" "agent" "running" false 2 (Some "ann")) recipient
      ∧ sv_sent s' = sv_sent s ++ events.
Proof.
  set (s := example_server busy_swarm). cbv zeta.
  pose proof (completion_notice_correct "bob" "completed" None (Some "all green") false s
    (example_member "bob" "s1" "agent" "running" false 2 (Some "ann")) "s1" eq_refl eq_refl) as Ht.
  cbv zeta in Ht.
  assert (Hr : (λ r, (r.1, notifications (sv_sent r.2)))
                 (update_member_status_with_report "bob" "completed" None (Some "all green") false s)
    = (Some (), [(1, EventNotification "bob" (Some "bob") (message_notice "swarm")
        (completion_notification_message "bob" "completed" (Some "all green")))])).
  { vm_compute. reflexivity. }
  destruct (update_member_status_with_report _ _ _ _ _ s) as [result s']. cbn in Hr.
  injection Hr as -> Hn. split; [reflexivity|]. split; [exact Hn|].
  destruct Ht as (_ & recipient & events & Hh & Hs & _). exists recipient, events. split; [exact Hh|exact Hs].
Defined.
