(* ===== verification/SwarmTasks.v ===== *)
(** * The tasks of a swarm ([src/server/comm_control.rs],
      [src/server/comm_plan.rs])

    What a coordinator asks the server to do with the plan of its swarm: assign
    tasks and roles, control assigned tasks, and accept or reject the plans that
    members propose; and the steps of the run of an assigned task. *)

From S2P Require Import Prelude Utf8 SessionTypes SessionRender SwarmPlan SwarmCore Storage SwarmServerTypes SwarmPersistence SwarmServer SwarmPersistenceTheorems SwarmMutations.
Open Scope nat_scope.

Section handlers.
Context `{HashOrder} `{ServerCodec} `{RequestHash}.

(** ** Answers *)

(** [let _ = client_event_tx.send(ServerEvent::Error { .. });] *)
Definition reply_error (client_event_tx : Sender) (id : u64) (message : string)
    (retry_after_secs : option u64) : Srv unit :=
  send_ client_event_tx (EventError id message retry_after_secs).

Definition finish_error (state : PersistedSwarmMutationState) (message : string) : Srv unit :=
  finish_request state (MutationError message None).

Definition require_coordinator_swarm (id : u64) (req_session_id permission_error : string)
    (client_event_tx : Sender) : Srv (option string) :=
  w <~ gets sv_swarm;
  let swarm_id := sw_members w !! req_session_id ≫= mb_swarm_id in
  let is_coordinator := match swarm_id with
                        | Some swarm_id => bool_decide (sw_coordinators w !! swarm_id = Some req_session_id)
                        | None => false
                        end in
  if negb is_coordinator then
    reply_error client_event_tx id permission_error None ;~
    sret None
  else
    match swarm_id with
    | Some swarm_id => sret (Some swarm_id)
    | None =>
        reply_error client_event_tx id "Not in a swarm." None ;~
        sret None
    end.

(** ** Looking at the plan *)

Definition filter_swarm_agent_candidates (members : gmap string SwarmMember)
    (req_session_id swarm_id : string) : list SwarmMember :=
  filter (λ member,
      negb (mb_session_id member =s req_session_id) && in_swarm swarm_id member
      && (mb_role member =s "agent") && str_in (mb_status member) ["ready"; "completed"] = true)
    (hash_entries members).*2.

Record TaskSnapshot := {
  sn_content : string;
  sn_status : string;
  sn_assigned_to : option string;
  sn_progress : option SwarmTaskProgress;
}.

Definition task_snapshot_for (w : SwarmState) (swarm_id task_id : string) : option TaskSnapshot :=
  plan ← sw_plans w !! swarm_id;
  item ← find_item task_id (vp_items plan);
  Some {| sn_content := pi_content item; sn_status := pi_status item;
          sn_assigned_to := pi_assigned_to item; sn_progress := vp_task_progress plan !! task_id |}.

Definition plan_graph_status_for (w : SwarmState) (swarm_id : string) : PlanGraphStatus :=
  match sw_plans w !! swarm_id with
  | Some plan => from_versioned_plan swarm_id plan (Some 8) []
  | None => empty_for_swarm swarm_id
  end.

Definition next_unassigned_runnable_task_id (w : SwarmState) (swarm_id : string) : option string :=
  sw_plans w !! swarm_id ≫= next_unassigned_runnable_item_id.

Definition task_id_for_target_session (w : SwarmState) (swarm_id target_session : string)
    (action : TaskControlAction) : string + string :=
  match sw_plans w !! swarm_id with
  | None => inr "No swarm plan exists for this swarm."
  | Some plan => task_control_target_item_id (vp_items plan) target_session action
  end.

(** ** Choosing an agent *)

Definition status_rank (member : SwarmMember) : nat := if mb_status member =s "ready" then 0 else 1.

(** [left.cmp(right).then_with(..)] as a total preorder on keys. *)
Definition then_leb (left right : nat) (rest : bool) : bool :=
  if left =? right then rest else left <? right.

Definition count_of (counts : gmap string nat) (member : SwarmMember) : nat :=
  default 0 (counts !! mb_session_id member).

(** The comparison of [resolve_assignment_target_session]. *)
Definition load_leb (loads : gmap string nat) (left right : SwarmMember) : bool :=
  then_leb (count_of loads left) (count_of loads right)
    (then_leb (status_rank left) (status_rank right)
       (String.leb (mb_session_id left) (mb_session_id right))).

Definition NO_AGENTS : string :=
  "No ready or completed swarm agents are available for automatic task assignment.".

Definition first_candidate (candidates : list SwarmMember) : string + string :=
  match candidates with
  | member :: _ => inl (mb_session_id member)
  | [] => inr NO_AGENTS
  end.

Definition resolve_assignment_target_session (w : SwarmState) (req_session_id swarm_id : string)
    (requested_target : option string) : string + string :=
  match requested_target with
  | Some target =>
      if target =s req_session_id then inr "Coordinator cannot assign a swarm task to itself."
      else
        match sw_members w !! target with
        | None => inr ("Unknown session '" +:+ target +:+ "'")
        | Some member =>
            if negb (in_swarm swarm_id member) then
              inr ("Session '" +:+ target +:+ "' is not in swarm '" +:+ swarm_id
                   +:+ "' and cannot receive this task.")
            else inl target
        end
  | None =>
      let assignment_counts := default ∅ (assignment_loads <$> sw_plans w !! swarm_id) in
      first_candidate (sort_by (load_leb assignment_counts)
        (filter_swarm_agent_candidates (sw_members w) req_session_id swarm_id))
  end.

(** The comparison of [resolve_assignment_target_for_task]. *)
Definition affinity_leb (affinities : AssignmentAffinities) (left right : SwarmMember) : bool :=
  then_leb (count_of (aa_dependency_carryover affinities) right)
           (count_of (aa_dependency_carryover affinities) left)
    (then_leb (count_of (aa_metadata_carryover affinities) right)
              (count_of (aa_metadata_carryover affinities) left)
       (load_leb (aa_loads affinities) left right)).

Definition NO_TASKS : string := "No runnable unassigned tasks are available in the swarm plan".

Definition resolve_assignment_target_for_task (w : SwarmState) (req_session_id swarm_id task_id : string)
    (requested_target : option string) : string + string :=
  match requested_target with
  | Some _ => resolve_assignment_target_session w req_session_id swarm_id requested_target
  | None =>
      match sw_plans w !! swarm_id with
      | None => inr NO_TASKS
      | Some plan =>
          match assignment_affinities_for_task plan task_id with
          | inr message => inr message
          | inl affinities =>
              first_candidate (sort_by (affinity_leb affinities)
                (filter_swarm_agent_candidates (sw_members w) req_session_id swarm_id))
          end
      end
  end.

(** ** Changing the plan *)

Definition assign_item (assignee : string) (item : PlanItem) : PlanItem := {|
  pi_content := pi_content item; pi_status := "queued"; pi_priority := pi_priority item;
  pi_id := pi_id item; pi_subsystem := pi_subsystem item; pi_file_scope := pi_file_scope item;
  pi_blocked_by := pi_blocked_by item; pi_assigned_to := Some assignee;
|}.

Definition assigned_progress (now : u64) (assignee assignment_summary : string)
    : SwarmTaskProgress := {|
  tp_assigned_session_id := Some assignee;
  tp_assignment_summary := Some (truncate_detail assignment_summary 120);
  tp_assigned_at_unix_ms := Some now;
  tp_started_at_unix_ms := None; tp_last_heartbeat_unix_ms := None; tp_last_detail := None;
  tp_last_checkpoint_unix_ms := None; tp_checkpoint_summary := None;
  tp_completed_at_unix_ms := None; tp_stale_since_unix_ms := None; tp_heartbeat_count := None;
  tp_checkpoint_count := None;
|}.

(** The plan after the task is given to an agent. *)
Definition assign_in_plan (now : u64) (req_session_id assignee task_id assignment_summary : string)
    (plan : VersionedPlan) : VersionedPlan := {|
  vp_items := update_item task_id (assign_item assignee) (vp_items plan);
  vp_version := u64_succ (vp_version plan);
  vp_participants := {[assignee]} ∪ ({[req_session_id]} ∪ vp_participants plan);
  vp_task_progress := <[task_id := assigned_progress now assignee assignment_summary]>
                        (vp_task_progress plan);
|}.

(** The answer is whether the task was found; its callers use nothing else. *)
Definition requeue_existing_assignment (swarm_id req_session_id assignee_session task_id
    assignment_summary : string) : Srv bool :=
  now <~ now_unix_ms;
  plans <~ get_plans;
  match plans !! swarm_id with
  | None => sret false
  | Some plan =>
      match find_item task_id (vp_items plan) with
      | None => sret false
      | Some _ =>
          on_plans (insert swarm_id
            (assign_in_plan now req_session_id assignee_session task_id assignment_summary plan)) ;~
          sret true
      end
  end.

(** ** The run of a task *)

Definition spawn_assigned_task_run (target_session swarm_id task_id assignment_text : string)
    : Srv unit :=
  let run := {| tr_target_session := target_session; tr_swarm_id := swarm_id; tr_task_id := task_id;
                tr_assignment_text := append_swarm_completion_report_instructions assignment_text |} in
  modify (λ s, set_runs (sv_runs s ++ [SpawnedRun run]) s).

(** Changes a task and its progress, and counts the change. *)
Definition change_task (swarm_id task_id status : string)
    (change : SwarmTaskProgress → SwarmTaskProgress) : Srv unit :=
  on_plans (λ plans,
    match plans !! swarm_id with
    | None => plans
    | Some plan =>
        match find_item task_id (vp_items plan) with
        | None => plans
        | Some _ =>
            <[swarm_id := {|
                vp_items := update_item task_id (set_item_status status) (vp_items plan);
                vp_version := u64_succ (vp_version plan);
                vp_participants := vp_participants plan;
                vp_task_progress :=
                  <[task_id := change (default progress_default (vp_task_progress plan !! task_id))]>
                    (vp_task_progress plan) |}]> plans
        end
    end).

Definition started_progress (now : u64) (target_session assignment_text : string)
    (p : SwarmTaskProgress) : SwarmTaskProgress := {|
  tp_assigned_session_id := Some target_session;
  tp_assignment_summary := Some (truncate_detail assignment_text 120);
  tp_assigned_at_unix_ms := tp_assigned_at_unix_ms p;
  tp_started_at_unix_ms := Some now;
  tp_last_heartbeat_unix_ms := Some now;
  tp_last_detail := Some (truncate_detail assignment_text 120);
  tp_last_checkpoint_unix_ms := Some now;
  tp_checkpoint_summary := Some "task started";
  tp_completed_at_unix_ms := None;
  tp_stale_since_unix_ms := None;
  tp_heartbeat_count := u64_incr (tp_heartbeat_count p);
  tp_checkpoint_count := u64_incr (tp_checkpoint_count p);
|}.

(** The progress when the run ends, with the summary of its end. *)
Definition ended_progress (now : u64) (checkpoint_summary : string) (p : SwarmTaskProgress)
    : SwarmTaskProgress := {|
  tp_assigned_session_id := tp_assigned_session_id p;
  tp_assignment_summary := tp_assignment_summary p;
  tp_assigned_at_unix_ms := tp_assigned_at_unix_ms p;
  tp_started_at_unix_ms := tp_started_at_unix_ms p;
  tp_last_heartbeat_unix_ms := Some now;
  tp_last_detail := tp_last_detail p;
  tp_last_checkpoint_unix_ms := Some now;
  tp_checkpoint_summary := Some checkpoint_summary;
  tp_completed_at_unix_ms := Some now;
  tp_stale_since_unix_ms := None;
  tp_heartbeat_count := tp_heartbeat_count p;
  tp_checkpoint_count := u64_incr (tp_checkpoint_count p);
|}.

(** The run until the agent works on the task; [None] is a panic. *)
Definition start_task_run (run : TaskRun) : Srv (option unit) :=
  now <~ now_unix_ms;
  change_task (tr_swarm_id run) (tr_task_id run) "running"
    (started_progress now (tr_target_session run) (tr_assignment_text run)) ;~
  persist_swarm_state_for (tr_swarm_id run) ;~
  broadcast_swarm_plan (tr_swarm_id run) (Some "task_running") ;~
  update_member_status (tr_target_session run) "running"
    (Some (truncate_detail (tr_assignment_text run) 120)) true.

(** One tick of the heartbeat of the run. *)
Definition heartbeat_task_run (run : TaskRun) : Srv unit :=
  revived <~ touch_swarm_task_progress (tr_swarm_id run) (tr_task_id run)
               (Some (tr_target_session run)) None None;
  when revived (broadcast_swarm_plan (tr_swarm_id run) (Some "task_heartbeat")).

(** What an event of the agent says about the progress of its task. *)
Definition event_progress (event : ServerEvent) : option string * option string :=
  match event with
  | EventStatusDetail detail => (Some detail, None)
  | EventToolStart _ name =>
      let summary := "tool start: " +:+ name in (Some summary, Some summary)
  | EventToolDone _ name _ error =>
      let summary := match error with
                     | Some _ => "tool error: " +:+ name
                     | None => "tool done: " +:+ name
                     end in (Some summary, Some summary)
  | _ => (None, None)
  end.

(** The loop of [task_progress_event_sender], for one event of the agent. *)
Definition task_run_event (run : TaskRun) (event : ServerEvent) : Srv (option unit) :=
  let '(detail, checkpoint_summary) := event_progress event in
  ok <~ match detail with
        | None => sret (Some ())
        | Some detail =>
            revived <~ touch_swarm_task_progress (tr_swarm_id run) (tr_task_id run)
                         (Some (tr_target_session run)) (Some detail) checkpoint_summary;
            ok <~ update_member_status (tr_target_session run) "running"
                    (Some (truncate_detail detail 120)) true;
            match ok with
            | None => sret None
            | Some _ =>
                when revived (broadcast_swarm_plan (tr_swarm_id run) (Some "task_heartbeat")) ;~
                sret (Some ())
            end
        end;
  match ok with
  | None => sret None
  | Some _ => fanout_ (tr_target_session run) event ;~ sret (Some ())
  end.

(** The end of the run, when the agent is done. *)
Definition complete_task_run (run : TaskRun) (completion_report : option string)
    : Srv (option unit) :=
  plans <~ get_plans;
  let previous_items := default [] (vp_items <$> plans !! tr_swarm_id run) in
  now <~ now_unix_ms;
  change_task (tr_swarm_id run) (tr_task_id run) "done" (ended_progress now "task completed") ;~
  persist_swarm_state_for (tr_swarm_id run) ;~
  broadcast_swarm_plan_with_previous (tr_swarm_id run) (Some "task_completed") (Some previous_items) ;~
  update_member_status_with_report (tr_target_session run) "completed" None completion_report true.

(** The end of the run, when the agent failed. *)
Definition fail_task_run (run : TaskRun) (error : string) : Srv (option unit) :=
  now <~ now_unix_ms;
  change_task (tr_swarm_id run) (tr_task_id run) "failed"
    (ended_progress now (truncate_detail ("task failed: " +:+ error) 120)) ;~
  persist_swarm_state_for (tr_swarm_id run) ;~
  broadcast_swarm_plan (tr_swarm_id run) (Some "task_failed") ;~
  update_member_status (tr_target_session run) "failed" (Some (truncate_detail error 120)) true.

(** ** Roles *)

(** Whether the coordinator is gone: its channel is closed, its agent is, or it
    has no window. *)
Definition coordinator_is_gone (s : Server) (coord_id : string) : bool :=
  let '(channel_closed, coord_is_headless) :=
    match sw_members (sv_swarm s) !! coord_id with
    | Some member => (is_closed s (mb_event_tx member), mb_is_headless member)
    | None => (true, false)
    end in
  let not_in_sessions := negb (bool_decide (is_Some (sv_sessions s !! coord_id))) in
  channel_closed || not_in_sessions || coord_is_headless.

Definition may_assign_role (s : Server) (req_session_id target_session role swarm_id : string) : bool :=
  let current_coordinator := sw_coordinators (sv_swarm s) !! swarm_id in
  if decide (current_coordinator = Some req_session_id) then true
  else if (role =s "coordinator") && (target_session =s req_session_id) then
    match current_coordinator with
    | Some coord_id => coordinator_is_gone s coord_id
    | None => true
    end
  else false.

Definition ASSIGN_ROLE_DENIED : string :=
  "Only the coordinator can assign roles. (Tip: if the coordinator has disconnected, use assign_role with target_session set to your own session ID to self-promote.)".

(** The roles that change; [None] when the target is unknown. *)
Definition assign_role_in (w : SwarmState) (swarm_id req_session_id target_session role : string)
    : option SwarmState :=
  match sw_members w !! target_session with
  | None => None
  | Some member =>
      let w := set_members (<[target_session := set_mb_role role member]> (sw_members w)) w in
      if negb (role =s "coordinator") then Some w
      else
        let w := set_coordinators (<[swarm_id := target_session]> (sw_coordinators w)) w in
        match sw_members w !! req_session_id with
        | Some member =>
            if negb (mb_session_id member =s target_session) then
              Some (set_members (<[req_session_id := set_mb_role "agent" member]> (sw_members w)) w)
            else Some w
        | None => Some w
        end
  end.

Definition handle_comm_assign_role (id : u64) (req_session_id target_session role : string)
    (client_event_tx : Sender) : Srv unit :=
  s <~ gets (λ s, s);
  let swarm_id := sw_members (sv_swarm s) !! req_session_id ≫= mb_swarm_id in
  let is_coordinator := match swarm_id with
                        | Some sid => may_assign_role s req_session_id target_session role sid
                        | None => false
                        end in
  if negb is_coordinator then reply_error client_event_tx id ASSIGN_ROLE_DENIED None
  else
    match swarm_id with
    | None => reply_error client_event_tx id "Not in a swarm." None
    | Some swarm_id =>
        let mutation_key := hashed_request_key req_session_id "assign_role"
                              [swarm_id; target_session; role] in
        begun <~ begin_or_replay mutation_key "assign_role" req_session_id id client_event_tx;
        when_some begun (λ mutation_state,
          w <~ gets sv_swarm;
          match assign_role_in w swarm_id req_session_id target_session role with
          | None => finish_error mutation_state ("Unknown session '" +:+ target_session +:+ "'")
          | Some w =>
              on_swarm (λ _, w) ;~
              persist_swarm_state_for swarm_id ;~
              broadcast_swarm_status swarm_id ;~
              record_swarm_event req_session_id None (Some swarm_id)
                (SwNotification "role_assignment" (target_session +:+ " -> " +:+ role)) ;~
              finish_request mutation_state MutationDone
          end)
    end.

(** ** Assignments *)

(** The task that is assigned, and the change of the plan. *)
Inductive Selection :=
| Selected (task_id content : string) (plan : VersionedPlan)
| NotSelected (blocked_reason : option string).

Definition select_task (now : u64) (req_session_id target_session : string)
    (requested_task_id message : option string) (plan : VersionedPlan) : Selection :=
  let selected_task_id := match requested_task_id with
                          | Some task_id => Some task_id
                          | None => next_unassigned_runnable_item_id plan
                          end in
  let blocked_reason := requested_task_id ≫= explicit_task_blocked_reason plan in
  let found := match blocked_reason with
               | Some _ => None
               | None => selected_task_id ≫= λ id, find_item id (vp_items plan)
               end in
  match found with
  | Some item =>
      Selected (pi_id item) (pi_content item)
        (assign_in_plan now req_session_id target_session (pi_id item)
           (combine_assignment_text (pi_content item) message) plan)
  | None => NotSelected blocked_reason
  end.

(** The answer when no task was selected. *)
Definition not_selected_message (requested_task_id blocked_reason : option string) : string :=
  match blocked_reason with
  | Some reason => reason
  | None => match requested_task_id with
            | Some task_id => "Task '" +:+ task_id +:+ "' not found in swarm plan"
            | None => NO_TASKS
            end
  end.

Definition assignment_notice (content : string) (message : option string) : string :=
  match message with
  | Some extra => "Task assigned to you by coordinator: " +:+ content +:+ " — " +:+ extra
  | None => "Task assigned to you by coordinator: " +:+ content
  end.

(** [members.get(id).and_then(|member| member.friendly_name.clone())] *)
Definition friendly_name_of (w : SwarmState) (session_id : string) : option string :=
  sw_members w !! session_id ≫= mb_friendly_name.

(** Telling everyone about the assignment, and starting the agent. *)
Definition announce_assignment (req_session_id target_session swarm_id task_id content : string)
    (message : option string) (participant_ids : gset string) : Srv unit :=
  coordinator_name <~ gets (λ s, friendly_name_of (sv_swarm s) req_session_id);
  let notification := assignment_notice content message in
  target_agent <~ gets (λ s, sv_sessions s !! target_session);
  queue_system_interrupt target_session (append_swarm_completion_report_instructions notification) ;~
  notify_member target_session
    (EventNotification req_session_id coordinator_name (message_notice "dm") notification) ;~
  target_has_client <~ gets (λ s,
    bool_decide (target_session ∈ (map_to_list (sv_client_connections s)).*2));
  when (negb target_has_client && bool_decide (is_Some target_agent))
    (spawn_assigned_task_run target_session swarm_id task_id (combine_assignment_text content message)) ;~
  let plan_msg := "Plan updated: task '" +:+ task_id +:+ "' assigned to " +:+ target_session +:+ "." in
  for_each (hash_elements participant_ids) (λ sid,
    when (negb ((sid =s target_session) || (sid =s req_session_id)))
      (notify_member sid
         (EventNotification req_session_id coordinator_name (message_notice "plan") plan_msg))).

(** The part of [handle_comm_assign_task] for a new request. *)
Definition perform_assignment (req_session_id swarm_id : string)
    (requested_target_session requested_task_id message : option string)
    (mutation_state : PersistedSwarmMutationState) : Srv unit :=
  w <~ gets sv_swarm;
  match resolve_assignment_target_session w req_session_id swarm_id requested_target_session with
  | inr error => finish_error mutation_state error
  | inl target_session =>
      now <~ now_unix_ms;
      plans <~ get_plans;
      let plan := default plan_new (plans !! swarm_id) in
      match select_task now req_session_id target_session requested_task_id message plan with
      | NotSelected blocked_reason =>
          on_plans (insert swarm_id plan) ;~
          finish_error mutation_state (not_selected_message requested_task_id blocked_reason)
      | Selected task_id content plan =>
          on_plans (insert swarm_id plan) ;~
          persist_swarm_state_for swarm_id ;~
          broadcast_swarm_plan swarm_id (Some "task_assigned") ;~
          record_swarm_event req_session_id None (Some swarm_id)
            (SwPlanUpdate swarm_id (length (vp_items plan))) ;~
          announce_assignment req_session_id target_session swarm_id task_id content message
            (vp_participants plan) ;~
          finish_request mutation_state (MutationAssignTask task_id target_session)
      end
  end.

Definition handle_comm_assign_task (id : u64) (req_session_id : string)
    (target_session task_id message : option string) (client_event_tx : Sender) : Srv unit :=
  let requested_target_session := trimmed_nonempty target_session in
  let requested_task_id := trimmed_nonempty task_id in
  coordinated <~ require_coordinator_swarm id req_session_id "Only the coordinator can assign tasks."
                   client_event_tx;
  when_some coordinated (λ swarm_id,
    let mutation_key := hashed_request_key req_session_id "assign_task"
      [swarm_id; default "__next_available__" requested_target_session;
       default "__next_runnable__" requested_task_id; default "" message] in
    begun <~ begin_or_replay mutation_key "assign_task" req_session_id id client_event_tx;
    when_some begun (λ mutation_state,
      perform_assignment req_session_id swarm_id requested_target_session requested_task_id message
        mutation_state)).

(** ** Control of assigned tasks *)

(** One line of the summary of prior activity. *)
Definition salvage_line (call : ToolCallSummary) : string :=
  let result := if trim (ts_brief_output call) =s "" then "no result summary"
                else ts_brief_output call in
  "- " +:+ ts_tool_name call +:+ ": " +:+ truncate_detail result 180 +:+ nl.

Definition format_salvage_message (source_session : string) (source_name : option string)
    (summaries : list ToolCallSummary) (extra_message : option string) : string :=
  let label := default source_session source_name in
  let output := "Salvage prior progress from " +:+ label
                +:+ ". Review this before continuing the task." +:+ nl +:+ nl in
  let output :=
    if is_nil summaries then
      output +:+ "No recorded tool call summary was available from the previous assignee."
    else output +:+ "Recent prior activity:" +:+ nl +:+ str_concat (salvage_line <$> take 12 summaries) in
  match extra_message with
  | Some extra => output +:+ nl +:+ nl +:+ "Additional coordinator instructions:" +:+ nl +:+ extra
  | None => output
  end.

(** The message that a salvaging agent gets. *)
Definition salvage_text (s : Server) (assignee : string) (snapshot : TaskSnapshot)
    (message : option string) : string :=
  let prior_name := friendly_name_of (sv_swarm s) assignee in
  let summaries := match sv_sessions s !! assignee with
                   | Some agent => if ag_idle agent then ag_tool_call_summaries agent 12 else []
                   | None => []
                   end in
  let salvage := format_salvage_message assignee prior_name summaries message in
  match sn_progress snapshot with
  | None => salvage
  | Some progress =>
      let salvage := match tp_checkpoint_summary progress with
                     | Some summary => salvage +:+ nl +:+ nl +:+ "Latest checkpoint summary:" +:+ nl +:+ summary
                     | None => salvage
                     end in
      match tp_last_detail progress with
      | Some detail => salvage +:+ nl +:+ nl +:+ "Latest recorded detail:" +:+ nl +:+ detail
      | None => salvage
      end
  end.

Definition replacement_text (assignee : string) (message : option string) : string :=
  let text := "This task is replacing prior assignee '" +:+ assignee +:+ "'." in
  match message with
  | Some extra => text +:+ nl +:+ nl +:+ "Additional coordinator instructions:" +:+ nl +:+ extra
  | None => text
  end.

Definition retry_text (message : option string) : string :=
  match message with
  | Some extra => "Retry this assignment." +:+ nl +:+ nl +:+ "Additional coordinator instructions:"
                  +:+ nl +:+ extra
  | None => "Retry this assignment."
  end.

(** The action on a task of its own assignee: start, wake or resume. *)
Definition control_start (id : u64) (req_session_id : string) (action : TaskControlAction)
    (task_id swarm_id assignee : string) (snapshot : TaskSnapshot) (message : option string)
    (client_event_tx : Sender) : Srv unit :=
  let assignment_text := build_control_assignment_text action (sn_content snapshot) message in
  (if negb (sn_status snapshot =s "queued") then
     requeued <~ requeue_existing_assignment swarm_id req_session_id assignee task_id assignment_text;
     when requeued (
       persist_swarm_state_for swarm_id ;~
       broadcast_swarm_plan swarm_id (Some ("task_" +:+ action_as_str action)))
   else sret ()) ;~
  s <~ gets (λ s, s);
  match sv_sessions s !! assignee with
  | None =>
      reply_error client_event_tx id ("Assigned session '" +:+ assignee
        +:+ "' is not available. Use replace or salvage to move the task to another agent.") None
  | Some agent =>
      match sw_members (sv_swarm s) !! assignee with
      | None =>
          reply_error client_event_tx id ("Assigned session '" +:+ assignee
            +:+ "' is no longer in the swarm. Use replace or salvage to move the task.") None
      | Some _ =>
          let respond (status : string) : Srv unit :=
            summary <~ gets (λ s, plan_graph_status_for (sv_swarm s) swarm_id);
            send_ client_event_tx (EventCommTaskControlResponse id (action_as_str action) task_id
                                     (Some assignee) status summary) in
          if ag_idle agent then
            spawn_assigned_task_run assignee swarm_id task_id assignment_text ;~
            respond "running"
          else if decide (action = Wake) then
            queue_system_interrupt assignee
              ("Coordinator requested you wake and continue task '" +:+ task_id +:+ "'." +:+ nl +:+ nl
               +:+ append_swarm_completion_report_instructions assignment_text) ;~
            respond "queued"
          else
            reply_error client_event_tx id ("Assigned session '" +:+ assignee
              +:+ "' is currently busy. Use wake to queue the task, or retry once the agent is idle.")
              (Some 1%Z)
      end
  end.

Definition replaceable_status (status : string) : bool :=
  str_in status ["queued"; "failed"; "stopped"; "crashed"; "running_stale"].

(** The action that moves a task to another agent: reassign, replace or salvage. *)
Definition control_move (id : u64) (req_session_id : string) (action : TaskControlAction)
    (task_id assignee : string) (snapshot : TaskSnapshot) (target_session message : option string)
    (client_event_tx : Sender) : Srv unit :=
  match target_session with
  | None =>
      reply_error client_event_tx id ("'target_session' is required for " +:+ action_as_str action +:+ ".") None
  | Some new_target =>
      if new_target =s assignee then
        reply_error client_event_tx id
          ("Task '" +:+ task_id +:+ "' is already assigned to '" +:+ assignee +:+ "'.") None
      else if sn_status snapshot =s "running" then
        reply_error client_event_tx id ("Task '" +:+ task_id +:+ "' is actively running on '" +:+ assignee
          +:+ "'. Wait, wake, or stop that agent before handing the task off.") (Some 1%Z)
      else if bool_decide (action = Replace) && negb (replaceable_status (sn_status snapshot)) then
        reply_error client_event_tx id ("Task '" +:+ task_id +:+ "' is '" +:+ sn_status snapshot
          +:+ "' and cannot be safely replaced.") None
      else
        s <~ gets (λ s, s);
        let forwarded_message :=
          if decide (action = Salvage) then Some (salvage_text s assignee snapshot message)
          else if decide (action = Replace) then Some (replacement_text assignee message)
          else message in
        handle_comm_assign_task id req_session_id (Some new_target) (Some task_id) forwarded_message
          client_event_tx
  end.

(** The part of [handle_comm_task_control] for a task of the plan. *)
Definition control_task (id : u64) (req_session_id : string) (action : TaskControlAction)
    (task_id swarm_id : string) (target_session message : option string) (client_event_tx : Sender)
    : Srv unit :=
  snapshot <~ gets (λ s, task_snapshot_for (sv_swarm s) swarm_id task_id);
  match snapshot with
  | None => reply_error client_event_tx id ("Task '" +:+ task_id +:+ "' not found in swarm plan") None
  | Some snapshot =>
      if negb (task_control_action_allows_status action (sn_status snapshot)) then
        reply_error client_event_tx id (task_control_status_error action (sn_status snapshot) task_id) None
      else
        match sn_assigned_to snapshot with
        | None =>
            reply_error client_event_tx id ("Task '" +:+ task_id
              +:+ "' is not currently assigned. Use assign_task to create the first assignment.") None
        | Some assignee =>
            match action with
            | Start | Wake | Resume =>
                let elsewhere := match target_session with
                                 | Some requested_target =>
                                     if requested_target =s assignee then None else Some requested_target
                                 | None => None
                                 end in
                match elsewhere with
                | Some requested_target =>
                    reply_error client_event_tx id ("Task '" +:+ task_id +:+ "' is assigned to '" +:+ assignee
                      +:+ "', not '" +:+ requested_target +:+ "'. Use reassign or replace to change ownership.") None
                | None =>
                    control_start id req_session_id action task_id swarm_id assignee snapshot message
                      client_event_tx
                end
            | Retry =>
                handle_comm_assign_task id req_session_id (Some assignee) (Some task_id)
                  (Some (retry_text message)) client_event_tx
            | Reassign | Replace | Salvage =>
                control_move id req_session_id action task_id assignee snapshot target_session message
                  client_event_tx
            end
        end
  end.

Definition handle_comm_task_control (id : u64) (req_session_id action task_id : string)
    (target_session message : option string) (client_event_tx : Sender) : Srv unit :=
  match action_parse action with
  | None => reply_error client_event_tx id
      "Unknown task control action. Use start, wake, resume, retry, reassign, replace, or salvage." None
  | Some action =>
      coordinated <~ require_coordinator_swarm id req_session_id
                       "Only the coordinator can control assigned tasks." client_event_tx;
      when_some coordinated (λ swarm_id,
        if trim task_id =s "" then
          match target_session with
          | None =>
              reply_error client_event_tx id ("task_id is required for " +:+ action_as_str action
                +:+ " unless target_session uniquely identifies an assigned task.") None
          | Some target =>
              found <~ gets (λ s, task_id_for_target_session (sv_swarm s) swarm_id target action);
              match found with
              | inr message => reply_error client_event_tx id message None
              | inl task_id =>
                  control_task id req_session_id action task_id swarm_id target_session message
                    client_event_tx
              end
          end
        else control_task id req_session_id action task_id swarm_id target_session message client_event_tx)
  end.

(** ** Plans of the members ([comm_plan.rs]) *)

Definition proposal_key_of (proposer_session : string) : string := "plan_proposal:" +:+ proposer_session.


(** The owners of the items join the participants. *)
Definition add_owners (items : list PlanItem) (participants : gset string) : gset string :=
  foldl (λ participants item, match pi_assigned_to item with
                              | Some owner => {[owner]} ∪ participants
                              | None => participants
                              end) participants items.

Definition replace_items (req_session_id : string) (items : list PlanItem) (plan : VersionedPlan)
    : VersionedPlan := {|
  vp_items := items;
  vp_version := u64_succ (vp_version plan);
  vp_participants := add_owners items ({[req_session_id]} ∪ vp_participants plan);
  vp_task_progress := vp_task_progress plan;
|}.

Definition extend_items (req_session_id proposer_session : string) (items : list PlanItem)
    (plan : VersionedPlan) : VersionedPlan := {|
  vp_items := vp_items plan ++ items;
  vp_version := u64_succ (vp_version plan);
  vp_participants :=
    add_owners items ({[proposer_session]} ∪ ({[req_session_id]} ∪ vp_participants plan));
  vp_task_progress := vp_task_progress plan;
|}.

Definition on_context (f : gmap string (gmap string SharedContext) → gmap string (gmap string SharedContext))
    : Srv unit :=
  modify (λ s, set_shared_context (f (sv_shared_context s)) s).

Definition context_entry (s : Server) (swarm_id key : string) : option SharedContext :=
  sv_shared_context s !! swarm_id ≫= λ swarm_context, swarm_context !! key.

Definition remove_context (swarm_id key : string) : Srv unit :=
  on_context (λ context, match context !! swarm_id with
                         | Some swarm_context => <[swarm_id := delete key swarm_context]> context
                         | None => context
                         end).

(** The coordinator replaces the plan itself. *)
Definition update_plan_directly (id : u64) (req_session_id swarm_id from_label : string)
    (from_name : option string) (items : list PlanItem) (client_event_tx : Sender) : Srv unit :=
  plans <~ get_plans;
  let plan := replace_items req_session_id items (default plan_new (plans !! swarm_id)) in
  on_plans (insert swarm_id plan) ;~
  let notification_msg := "Plan updated by " +:+ from_label +:+ " (" +:+ pretty (length items)
                          +:+ " items, v" +:+ pretty (vp_version plan) +:+ ")" in
  for_each (hash_elements (vp_participants plan)) (λ sid,
    when (negb (sid =s req_session_id)) (
      notify_member sid (EventNotification req_session_id from_name (message_notice "plan") notification_msg) ;~
      queue_system_interrupt sid notification_msg)) ;~
  persist_swarm_state_for swarm_id ;~
  broadcast_swarm_plan swarm_id (Some "coordinator_direct_update") ;~
  record_swarm_event req_session_id from_name (Some swarm_id) (SwPlanUpdate swarm_id (length items)) ;~
  send_ client_event_tx (EventDone id).

(** A member proposes a plan to the coordinator. *)
Definition propose_to_coordinator (id : u64) (req_session_id swarm_id from_label coordinator_id : string)
    (from_name : option string) (items : list PlanItem) (client_event_tx : Sender) : Srv unit :=
  let proposal_key := proposal_key_of req_session_id in
  now <~ now_unix_ms;
  let proposal := {| sx_key := proposal_key; sx_value := items_json items; sx_from_session := req_session_id;
                     sx_from_name := from_name; sx_created_at := now; sx_updated_at := now |} in
  on_context (λ context, <[swarm_id := <[proposal_key := proposal]> (default ∅ (context !! swarm_id))]> context) ;~
  record_swarm_event req_session_id from_name (Some swarm_id)
    (SwPlanProposal swarm_id req_session_id (length items)) ;~
  let summary := summarize_plan_items items 3 in
  let notification_msg := "Plan proposal from " +:+ from_label +:+ " (" +:+ pretty (length items)
    +:+ " items). Summary: " +:+ summary +:+ ". Review with communicate read key '" +:+ proposal_key +:+ "'." in
  notify_member coordinator_id
    (EventNotification req_session_id from_name (message_notice "plan_proposal") notification_msg) ;~
  notify_member coordinator_id
    (EventSwarmPlanProposal swarm_id req_session_id from_name items summary proposal_key) ;~
  queue_system_interrupt coordinator_id notification_msg ;~
  let proposer_confirmation := "Plan proposal sent to coordinator (not yet applied)." in
  notify_member req_session_id
    (EventNotification req_session_id from_name (message_notice "plan_proposal") proposer_confirmation) ;~
  queue_system_interrupt req_session_id proposer_confirmation ;~
  send_ client_event_tx (EventDone id).

Definition handle_comm_propose_plan (id : u64) (req_session_id : string) (items : list PlanItem)
    (client_event_tx : Sender) : Srv unit :=
  w <~ gets sv_swarm;
  match sw_members w !! req_session_id ≫= mb_swarm_id with
  | None => reply_error client_event_tx id "Not in a swarm." None
  | Some swarm_id =>
      let from_name := friendly_name_of w req_session_id in
      let from_label := default (str_concat (take 8 (chars req_session_id))) from_name in
      match sw_coordinators w !! swarm_id with
      | None => reply_error client_event_tx id "No coordinator for this swarm." None
      | Some coordinator_id =>
          if coordinator_id =s req_session_id then
            update_plan_directly id req_session_id swarm_id from_label from_name items client_event_tx
          else
            propose_to_coordinator id req_session_id swarm_id from_label coordinator_id from_name items
              client_event_tx
      end
  end.

(** The approval of a proposal whose items were read. *)
Definition apply_proposal (req_session_id proposer_session swarm_id : string) (items : list PlanItem)
    : Srv unit :=
  plans <~ get_plans;
  let plan := extend_items req_session_id proposer_session items (default plan_new (plans !! swarm_id)) in
  on_plans (insert swarm_id plan) ;~
  remove_context swarm_id (proposal_key_of proposer_session) ;~
  broadcast_swarm_plan swarm_id (Some "proposal_approved") ;~
  record_swarm_event req_session_id None (Some swarm_id) (SwPlanUpdate swarm_id (length items)) ;~
  w <~ gets sv_swarm;
  let coordinator_name := friendly_name_of w req_session_id in
  let message := "Plan approved by coordinator: " +:+ pretty (length items) +:+ " items added from "
                 +:+ proposer_session in
  for_each (hash_elements (vp_participants plan)) (λ sid,
    when_some (sw_members w !! sid) (λ member,
      send_ (mb_event_tx member)
        (EventNotification req_session_id coordinator_name (message_notice "plan") message) ;~
      queue_system_interrupt sid message)) ;~
  persist_swarm_state_for swarm_id.

Definition no_proposal (proposer_session : string) : string :=
  "No pending plan proposal from session '" +:+ proposer_session +:+ "'".

Definition handle_comm_approve_plan (id : u64) (req_session_id proposer_session : string)
    (client_event_tx : Sender) : Srv unit :=
  coordinated <~ require_coordinator_swarm id req_session_id
                   "Only the coordinator can approve plan proposals." client_event_tx;
  when_some coordinated (λ swarm_id,
    let mutation_key := hashed_request_key req_session_id "approve_plan" [swarm_id; proposer_session] in
    begun <~ begin_or_replay mutation_key "approve_plan" req_session_id id client_event_tx;
    when_some begun (λ mutation_state,
      proposal <~ gets (λ s, sx_value <$> context_entry s swarm_id (proposal_key_of proposer_session));
      match proposal with
      | None => finish_error mutation_state (no_proposal proposer_session)
      | Some proposal =>
          when_some (parse_items proposal) (apply_proposal req_session_id proposer_session swarm_id) ;~
          finish_request mutation_state MutationDone
      end)).

Definition handle_comm_reject_plan (id : u64) (req_session_id proposer_session : string)
    (reason : option string) (client_event_tx : Sender) : Srv unit :=
  coordinated <~ require_coordinator_swarm id req_session_id
                   "Only the coordinator can reject plan proposals." client_event_tx;
  when_some coordinated (λ swarm_id,
    let mutation_key := hashed_request_key req_session_id "reject_plan"
                          [swarm_id; proposer_session; default "" reason] in
    begun <~ begin_or_replay mutation_key "reject_plan" req_session_id id client_event_tx;
    when_some begun (λ mutation_state,
      proposal <~ gets (λ s, context_entry s swarm_id (proposal_key_of proposer_session));
      match proposal with
      | None => finish_error mutation_state (no_proposal proposer_session)
      | Some _ =>
          remove_context swarm_id (proposal_key_of proposer_session) ;~
          w <~ gets sv_swarm;
          let coordinator_name := friendly_name_of w req_session_id in
          let reason_msg := match reason with Some reason => ": " +:+ reason | None => "" end in
          let message := "Your plan proposal was rejected by the coordinator" +:+ reason_msg in
          when_some (sw_members w !! proposer_session) (λ member,
            send_ (mb_event_tx member)
              (EventNotification req_session_id coordinator_name (message_notice "dm") message) ;~
            queue_system_interrupt proposer_session message) ;~
          record_swarm_event req_session_id coordinator_name (Some swarm_id)
            (SwNotification "plan_rejected" proposer_session) ;~
          finish_request mutation_state MutationDone
      end)).

End handlers.

(** ** Who gets a task *)

(** [left] is chosen before [right]: by the tasks before this one that it did,
    by the related tasks that it did, by what it has to do, by its status, and
    by its identifier. *)
Definition chosen_before (affinities : AssignmentAffinities) (left right : SwarmMember) : Prop :=
  let carry := count_of (aa_dependency_carryover affinities) in
  let related := count_of (aa_metadata_carryover affinities) in
  let load := count_of (aa_loads affinities) in
  carry right < carry left ∨ carry right = carry left ∧
    (related right < related left ∨ related right = related left ∧
      (load left < load right ∨ load left = load right ∧
        (status_rank left < status_rank right ∨ status_rank left = status_rank right ∧
          String.leb (mb_session_id left) (mb_session_id right) = true))).

(** The agents that can get a task of the swarm from [req_session_id]. *)
Definition assignable (w : SwarmState) (req_session_id swarm_id : string) (m : SwarmMember) : Prop :=
  sw_members w !! mb_session_id m = Some m ∧ mb_session_id m ≠ req_session_id
  ∧ mb_swarm_id m = Some swarm_id ∧ mb_role m = "agent"
  ∧ (mb_status m = "ready" ∨ mb_status m = "completed").

Lemma then_leb_spec a b rest : then_leb a b rest = true ↔ a < b ∨ a = b ∧ rest = true.
Proof.
  unfold then_leb. destruct (Nat.eqb_spec a b); [subst; split; [by right|]; intros [?|[_ ?]]; [lia|done]|].
  rewrite Nat.ltb_lt. split; [by left|]. intros [?|[? _]]; [done|lia].
Qed.

Lemma affinity_leb_spec affinities left right :
  affinity_leb affinities left right = true ↔ chosen_before affinities left right.
Proof. unfold affinity_leb, load_leb, chosen_before. by rewrite !then_leb_spec. Qed.

Lemma affinity_leb_total affinities left right :
  affinity_leb affinities left right = true ∨ affinity_leb affinities right left = true.
Proof.
  rewrite !affinity_leb_spec. unfold chosen_before. cbn zeta.
  destruct (String.leb_total (mb_session_id left) (mb_session_id right)) as [->| ->]; lia.
Qed.

Lemma affinity_leb_trans affinities x y z :
  affinity_leb affinities x y = true → affinity_leb affinities y z = true → affinity_leb affinities x z = true.
Proof.
  rewrite !affinity_leb_spec. unfold chosen_before. cbn zeta.
  assert (String.leb (mb_session_id x) (mb_session_id y) = true →
    String.leb (mb_session_id y) (mb_session_id z) = true → String.leb (mb_session_id x) (mb_session_id z) = true)
    as Ht by apply string_leb_trans.
  destruct (String.leb (mb_session_id x) (mb_session_id y)), (String.leb (mb_session_id y) (mb_session_id z)),
    (String.leb (mb_session_id x) (mb_session_id z)); try (specialize (Ht eq_refl eq_refl); discriminate); lia.
Qed.

Lemma elem_of_candidates `{HashOrder} w req_session_id swarm_id m :
  keyed w → m ∈ filter_swarm_agent_candidates (sw_members w) req_session_id swarm_id
    ↔ assignable w req_session_id swarm_id m.
Proof.
  intros Hk. unfold filter_swarm_agent_candidates, assignable, in_swarm. rewrite list_elem_of_filter, list_elem_of_fmap.
  rewrite !andb_true_iff, negb_true_iff, String.eqb_neq, String.eqb_eq, bool_decide_eq_true. split.
  - intros [[[[Hr Hs] Ha] Hst] ([k m'] & -> & Hin)]. apply elem_of_hash_entries in Hin. cbn [snd] in *.
    split_and!; [by rewrite (Hk k m' Hin)|done..|]. cbn in Hst.
    destruct (String.eqb_spec (mb_status m') "ready"); [by left|].
    destruct (String.eqb_spec (mb_status m') "completed"); [by right|done].
  - intros (Hm & Hr & Hs & Ha & Hst). split; [|exists (mb_session_id m, m); split; [done|by apply elem_of_hash_entries]].
    split_and!; [done..|]. by destruct Hst as [->| ->].
Qed.

(** An automatic assignment goes to the best agent. When the affinities of
    the task are known, the agent that is chosen is a ready or completed agent
    of the swarm other than the coordinator, and no other such agent has done
    more of what the task depends on, or the same and more of what is related, or
    the same and has less to do, and so on down to the identifier; so the choice
    does not depend on the order of the hash table. When no agent is chosen, none
    can get the task. *)
Theorem best_agent_chosen `{HashOrder} (w : SwarmState) (req_session_id swarm_id task_id : string)
    (plan : VersionedPlan) (affinities : AssignmentAffinities) :
  keyed w → sw_plans w !! swarm_id = Some plan →
  assignment_affinities_for_task plan task_id = inl affinities →
  match resolve_assignment_target_for_task w req_session_id swarm_id task_id None with
  | inl chosen => ∃ m, mb_session_id m = chosen ∧ assignable w req_session_id swarm_id m
      ∧ ∀ other, assignable w req_session_id swarm_id other → chosen_before affinities m other
  | inr message => message = NO_AGENTS ∧ ∀ other, ¬ assignable w req_session_id swarm_id other
  end.
Proof.
  intros Hk Hp Ha. unfold resolve_assignment_target_for_task. rewrite Hp, Ha.
  pose proof (sort_by_sorted (affinity_leb affinities) (affinity_leb_total affinities) (affinity_leb_trans affinities)
    (filter_swarm_agent_candidates (sw_members w) req_session_id swarm_id)) as Hs.
  pose proof (λ m, elem_of_sort_by (affinity_leb affinities) m
    (filter_swarm_agent_candidates (sw_members w) req_session_id swarm_id)) as He.
  destruct (sort_by _ _) as [|m rest]; cbn [first_candidate].
  - split; [done|]. intros other Ho%(elem_of_candidates _ _ _ _ Hk). apply He in Ho. by apply not_elem_of_nil in Ho.
  - exists m. split; [done|]. split; [apply elem_of_candidates, He; [done|by left]|].
    intros other Ho%(elem_of_candidates _ _ _ _ Hk). apply He in Ho. apply affinity_leb_spec.
    apply StronglySorted_inv in Hs as [_ Hs]. apply elem_of_cons in Ho as [->|Ho].
    + by destruct (affinity_leb_total affinities m m).
    + rewrite Forall_forall in Hs. by apply Hs.
Qed.
