(* ===== verification/SwarmSessions.v ===== *)
(** * Agents that join and leave swarms ([src/server/comm_session.rs],
      [src/server/headless.rs], [src/server/client_disconnect_cleanup.rs])

    Spawning an agent for a swarm, in a window of its own or without one,
    stopping one, the session that a client leaves behind, and giving the next
    task to an agent that is spawned for it ([src/server/comm_control.rs]). *)

From S2P Require Import Prelude Utf8 SessionTypes SessionOps SessionRender SwarmPlan SwarmCore Storage SwarmServerTypes SwarmPersistence SwarmServer SwarmMutations SwarmTasks.
Open Scope nat_scope.

(** ** Surroundings *)

(** What creating an agent finds and makes: preparing and launching a window for
    a new session, the identifier and the agent of a session without a window,
    the swarm of a directory, the setting of swarms, and new channels. *)
Record Surroundings := {
  su_launch_visible : IO (string * bool);
  su_headless_id : string;
  su_headless_agent : AgentHandle;
  su_swarm_id_for_dir : option string → option string;
  su_swarm_enabled : bool;
  su_event_tx : Sender;
}.

Section handlers.
Context `{HashOrder} `{ServerCodec} `{RequestHash}.

(** ** New members *)

Definition add_member (member : SwarmMember) : Srv unit :=
  on_members (insert (mb_session_id member) member) ;~
  when_some (mb_swarm_id member) (λ swarm_id,
    on_swarms (λ swarms, <[swarm_id := {[mb_session_id member]} ∪ default ∅ (swarms !! swarm_id)]> swarms)).

(** [option.filter(|dir| !dir.trim().is_empty())] *)
Definition not_blank (dir : option string) : option string :=
  dir ≫= λ dir, if trim dir =s "" then None else Some dir.

Definition idle_agent (s : Server) (session_id : string) : option AgentHandle :=
  sv_sessions s !! session_id ≫= λ agent, if ag_idle agent then Some agent else None.

Definition resolve_spawn_working_dir (s : Server) (requested_working_dir : option string)
    (req_session_id : string) : option string :=
  match not_blank requested_working_dir with
  | Some dir => Some dir
  | None =>
      match not_blank (idle_agent s req_session_id ≫= ag_working_dir) with
      | Some dir => Some dir
      | None => not_blank (sw_members (sv_swarm s) !! req_session_id ≫= mb_working_dir)
      end
  end.

Definition new_member (now : u64) (session_id : string) (event_tx : Sender)
    (working_dir swarm_id : option string) (swarm_enabled : bool) (status : string)
    (detail : option string) (friendly_name : string) (owner : option string) (is_headless : bool)
    : SwarmMember := {|
  mb_session_id := session_id; mb_event_tx := event_tx; mb_event_txs := ∅;
  mb_working_dir := working_dir; mb_swarm_id := swarm_id; mb_swarm_enabled := swarm_enabled;
  mb_status := status; mb_detail := detail; mb_friendly_name := Some friendly_name;
  mb_report_back_to_session_id := owner; mb_latest_completion_report := None; mb_role := "agent";
  mb_joined_at := now; mb_last_status_change := now; mb_is_headless := is_headless;
|}.

(** The channel of the member is closed when the function returns: no one holds
    its other end. *)
Definition register_visible_spawned_member (session_id swarm_id : string) (working_dir : option string)
    (has_startup_message : bool) (report_back_to_session_id : option string) (event_tx : Sender)
    : Srv unit :=
  now <~ now_unix_ms;
  let friendly_name := default session_id (extract_session_name session_id) in
  let '(status, detail) := if has_startup_message then ("running", Some "startup queued")
                           else ("spawned", Some "launching client") in
  add_member (new_member now session_id event_tx working_dir (Some swarm_id) true status detail
                friendly_name report_back_to_session_id false) ;~
  record_swarm_event_for_session session_id (SwMemberChange "joined") ;~
  broadcast_swarm_status swarm_id ;~
  modify (λ s, set_closed ({[event_tx]} ∪ sv_closed s) s).

(** ** Agents without a window ([headless.rs]) *)

(** [create_headless_session], with the directory of its command; the answer is
    the identifier, and [None] a panic. *)
Definition create_headless_session (su : Surroundings) (working_dir : option string)
    (report_back_to_session_id : option string) : Srv (option string) :=
  let working_dir := not_blank (trim <$> working_dir) in
  let client_session_id := su_headless_id su in
  let agent := su_headless_agent su in
  modify (λ s, set_sessions (<[client_session_id := agent]> (sv_sessions s)) s) ;~
  register_session_interrupt_queue client_session_id (ag_soft_interrupt_queue agent) ;~
  let swarm_id := if su_swarm_enabled su then su_swarm_id_for_dir su working_dir else None in
  match match extract_session_name client_session_id with
        | Some name => Some name
        | None => short_session_id client_session_id
        end with
  | None => sret None
  | Some friendly_name =>
      now <~ now_unix_ms;
      add_member (new_member now client_session_id (su_event_tx su) working_dir swarm_id
                    (su_swarm_enabled su) "ready" None friendly_name report_back_to_session_id true) ;~
      when_some swarm_id broadcast_swarm_status ;~
      sret (Some client_session_id)
  end.

(** ** Spawning *)

(** A session for a window is prepared and launched; without one the agent has
    no window. The answer is the identifier of the session, and whether it has a
    window; [None] is a panic. *)
Definition spawn_session (su : Surroundings) (req_session_id : string) (working_dir : option string)
    : Srv (option (string * bool)) :=
  launched <~ run_io (su_launch_visible su);
  match launched with
  | inl (new_session_id, true) => sret (Some (new_session_id, true))
  | inl (_, false) | inr _ =>
      created <~ create_headless_session su working_dir (Some req_session_id);
      sret ((λ new_session_id, (new_session_id, false)) <$> created)
  end.

(** A plan that has begun gets the new agent as a participant. *)
Definition join_plan (swarm_id req_session_id new_session_id : string) : Srv unit :=
  on_plans (λ plans,
    match plans !! swarm_id with
    | Some plan =>
        if negb (is_nil (vp_items plan)) || negb (bool_decide (vp_participants plan = ∅)) then
          <[swarm_id := set_participants ({[new_session_id]} ∪ ({[req_session_id]} ∪ vp_participants plan)) plan]>
            plans
        else plans
    | None => plans
    end).

(** No branch of [create_headless_session] fails, so a spawn always has an
    identifier, unless it panics. *)
Definition spawn_swarm_agent (su : Surroundings) (req_session_id swarm_id : string)
    (working_dir initial_message : option string) : Srv (option string) :=
  resolved_working_dir <~ gets (λ s, resolve_spawn_working_dir s working_dir req_session_id);
  let startup_message := append_swarm_completion_report_instructions <$> initial_message in
  spawned <~ spawn_session su req_session_id resolved_working_dir;
  match spawned with
  | None => sret None
  | Some (new_session_id, visible) =>
      join_plan swarm_id req_session_id new_session_id ;~
      broadcast_swarm_plan swarm_id (Some "participant_spawned") ;~
      when visible
        (register_visible_spawned_member new_session_id swarm_id resolved_working_dir
           (bool_decide (is_Some startup_message)) (Some req_session_id) (su_event_tx su)) ;~
      persist_swarm_state_for swarm_id ;~
      when_some startup_message (λ initial_msg,
        when (negb visible) (
          record_swarm_event_for_session new_session_id (SwMemberChange "joined") ;~
          agent <~ gets (λ s, sv_sessions s !! new_session_id);
          when_some agent (λ _,
            modify (λ s, set_runs (sv_runs s ++ [SpawnedStartup new_session_id initial_msg]) s)))) ;~
      sret (Some new_session_id)
  end.

(** The first message of a new agent, until the agent works on it and when it is
    done; [None] is a panic. *)
Definition start_startup (session_id initial_msg : string) : Srv (option unit) :=
  update_member_status session_id "running" (Some (truncate_detail initial_msg 120)) true.

Definition finish_startup (session_id : string) (result : option string + string) : Srv (option unit) :=
  match result with
  | inl completion_report =>
      update_member_status_with_report session_id "ready" None completion_report true
  | inr error =>
      update_member_status_with_report session_id "failed" (Some (truncate_detail error 120)) None true
  end.

(** ** Who coordinates *)

Definition swarm_member_status_is_stale_for_coordination (status : string) : bool :=
  str_in status ["crashed"; "failed"; "stopped"; "closed"; "disconnected"].

Definition coordinator_is_stale (w : SwarmState) (swarm_id : string) : bool :=
  match sw_coordinators w !! swarm_id with
  | None => false
  | Some coordinator =>
      match sw_members w !! coordinator with
      | Some member =>
          negb (in_swarm swarm_id member
                && negb (swarm_member_status_is_stale_for_coordination (mb_status member)))
      | None => true
      end
  end.

Definition promote (swarm_id session_id : string) : Srv unit :=
  on_coordinators (insert swarm_id session_id) ;~
  update_member session_id (set_mb_role "coordinator").

Definition ensure_spawn_coordinator_swarm (id : u64) (req_session_id permission_error : string)
    (client_event_tx : Sender) : Srv (option string) :=
  w <~ gets sv_swarm;
  match sw_members w !! req_session_id ≫= mb_swarm_id with
  | None =>
      reply_error client_event_tx id "Not in a swarm." None ;~
      sret None
  | Some swarm_id =>
      let coordinator_id := sw_coordinators w !! swarm_id in
      if decide (coordinator_id = Some req_session_id) then sret (Some swarm_id)
      else if bool_decide (is_Some coordinator_id) && negb (coordinator_is_stale w swarm_id) then
        reply_error client_event_tx id permission_error None ;~
        sret None
      else
        promote swarm_id req_session_id ;~
        persist_swarm_state_for swarm_id ;~
        broadcast_swarm_status swarm_id ;~
        send_ client_event_tx
          (EventNotification req_session_id (friendly_name_of w req_session_id) (message_notice "swarm")
             "You are the coordinator for this swarm.") ;~
        sret (Some swarm_id)
  end.

(** The version of [comm_session.rs], which lets a session take over from a stale
    coordinator. *)
Definition require_live_coordinator_swarm (id : u64) (req_session_id permission_error : string)
    (client_event_tx : Sender) : Srv (option string) :=
  w <~ gets sv_swarm;
  let swarm_id := sw_members w !! req_session_id ≫= mb_swarm_id in
  match swarm_id with
  | None =>
      reply_error client_event_tx id permission_error None ;~
      sret None
  | Some swarm_id =>
      if decide (sw_coordinators w !! swarm_id = Some req_session_id) then sret (Some swarm_id)
      else if coordinator_is_stale w swarm_id then
        promote swarm_id req_session_id ;~
        sret (Some swarm_id)
      else
        reply_error client_event_tx id permission_error None ;~
        sret None
  end.

Definition SPAWN_DENIED : string :=
  "Only the coordinator can spawn new agents. Assign the current session as coordinator first, e.g. swarm assign_role target_session=current role=coordinator.".

Definition handle_comm_spawn (su : Surroundings) (id : u64) (req_session_id : string)
    (working_dir initial_message request_nonce : option string) (client_event_tx : Sender)
    : Srv (option unit) :=
  coordinated <~ ensure_spawn_coordinator_swarm id req_session_id SPAWN_DENIED client_event_tx;
  match coordinated with
  | None => sret (Some ())
  | Some swarm_id =>
      let mutation_key := hashed_request_key req_session_id "spawn"
        [swarm_id; default "" working_dir; default "" initial_message; default "" request_nonce] in
      begun <~ begin_or_replay mutation_key "spawn" req_session_id id client_event_tx;
      match begun with
      | None => sret (Some ())
      | Some mutation_state =>
          spawned <~ spawn_swarm_agent su req_session_id swarm_id working_dir initial_message;
          match spawned with
          | None => sret None
          | Some new_session_id =>
              finish_request mutation_state (MutationSpawn new_session_id) ;~
              sret (Some ())
          end
      end
  end.

(** ** The next task ([comm_control.rs]) *)

Definition handle_comm_assign_next (su : Surroundings) (id : u64) (req_session_id : string)
    (target_session working_dir : option string) (prefer_spawn spawn_if_needed : option bool)
    (message : option string) (client_event_tx : Sender) : Srv (option unit) :=
  match target_session with
  | Some _ =>
      handle_comm_assign_task id req_session_id target_session None message client_event_tx ;~
      sret (Some ())
  | None =>
      coordinated <~ require_coordinator_swarm id req_session_id "Only the coordinator can assign tasks."
                       client_event_tx;
      match coordinated with
      | None => sret (Some ())
      | Some swarm_id =>
          w <~ gets sv_swarm;
          match next_unassigned_runnable_task_id w swarm_id with
          | None =>
              reply_error client_event_tx id NO_TASKS None ;~
              sret (Some ())
          | Some selected_task_id =>
              let preferred_target :=
                resolve_assignment_target_for_task w req_session_id swarm_id selected_task_id None in
              let prefer_spawn := default false prefer_spawn in
              let needed := match preferred_target with inl _ => false | inr _ => true end in
              if (prefer_spawn || default false spawn_if_needed) && (prefer_spawn || needed) then
                spawned <~ spawn_swarm_agent su req_session_id swarm_id working_dir None;
                match spawned with
                | None => sret None
                | Some spawned_session =>
                    handle_comm_assign_task id req_session_id (Some spawned_session) (Some selected_task_id)
                      message client_event_tx ;~
                    sret (Some ())
                end
              else
                match preferred_target with
                | inl target_session =>
                    handle_comm_assign_task id req_session_id (Some target_session) (Some selected_task_id)
                      message client_event_tx ;~
                    sret (Some ())
                | inr message =>
                    reply_error client_event_tx id message None ;~
                    sret (Some ())
                end
          end
      end
  end.

(** ** Stopping *)

(** [s.ends_with(suffix)] *)
Definition ends_with (suffix s : string) : bool :=
  (String.length suffix <=? String.length s)
  && (str_drop (String.length s - String.length suffix) s =s suffix).

Definition swarm_stop_allowed_by_owner (req_session_id : string) (target_member : SwarmMember)
    (force : bool) : bool :=
  force || bool_decide (mb_report_back_to_session_id target_member = Some req_session_id).

Definition stop_matches (swarm_id target : string) (entry : string * SwarmMember) : bool :=
  in_swarm swarm_id entry.2
  && (bool_decide (mb_friendly_name entry.2 = Some target)
      || starts_with target entry.1 || ends_with target entry.1).

Definition named (entry : string * SwarmMember) : string * string :=
  (entry.1, default entry.1 (mb_friendly_name entry.2)).

Definition resolve_stop_target_session (w : SwarmState) (swarm_id target : string) : string + string :=
  let target := trim target in
  if target =s "" then inr "target_session is required."
  else if from_option (in_swarm swarm_id) false (sw_members w !! target) then inl target
  else
    let matches := sort_by (λ a b, String.leb a.1 b.1)
      (named <$> filter (λ entry, stop_matches swarm_id target entry = true) (hash_entries (sw_members w))) in
    match matches with
    | [] => inr ("Unknown swarm session '" +:+ target
              +:+ "'. Use an exact session ID, unique friendly name, or unique session ID prefix/suffix.")
    | [(session_id, _)] => inl session_id
    | _ => inr ("Ambiguous swarm session '" +:+ target +:+ "' matched: "
             +:+ join ", " ((λ m, m.2 +:+ " [" +:+ m.1 +:+ "]") <$> matches)
             +:+ ". Use an exact session ID.")
    end.

(** The member is taken out of the server; the answer is its swarm. *)
Definition remove_member_of (session_id : string) : Srv (option string) :=
  members <~ get_members;
  on_members (delete session_id) ;~
  let swarm_id := members !! session_id ≫= mb_swarm_id in
  when_some swarm_id (λ swarm_id,
    record_swarm_event session_id (members !! session_id ≫= mb_friendly_name) (Some swarm_id)
      (SwMemberChange "left") ;~
    remove_session_from_swarm session_id swarm_id) ;~
  modify (λ s, set_channels (remove_session_channel_subscriptions session_id (sv_channels s)) s) ;~
  sret swarm_id.

Definition handle_comm_stop (id : u64) (req_session_id target_session : string) (force : bool)
    (client_event_tx : Sender) : Srv unit :=
  coordinated <~ require_live_coordinator_swarm id req_session_id "Only the coordinator can stop agents."
                   client_event_tx;
  when_some coordinated (λ swarm_id,
    w <~ gets sv_swarm;
    match resolve_stop_target_session w swarm_id target_session with
    | inr message => reply_error client_event_tx id message None
    | inl target_session =>
        if negb (from_option (λ member, swarm_stop_allowed_by_owner req_session_id member force) false
                   (sw_members w !! target_session)) then
          reply_error client_event_tx id ("Refusing to stop session '" +:+ target_session
            +:+ "' because it was not spawned by this coordinator. Pass force=true to stop a non-owned/user-created swarm session explicitly.") None
        else
          fanout_ target_session
            (EventSessionCloseRequested ("Stopped by coordinator " +:+ req_session_id)) ;~
          let mutation_key := hashed_request_key req_session_id "stop" [swarm_id; target_session] in
          begun <~ begin_or_replay mutation_key "stop" req_session_id id client_event_tx;
          when_some begun (λ mutation_state,
            removed_agent <~ gets (λ s, sv_sessions s !! target_session);
            modify (λ s, set_sessions (delete target_session (sv_sessions s)) s) ;~
            when_some removed_agent (λ _, remove_session_interrupt_queue target_session) ;~
            removed_swarm_id <~ remove_member_of target_session;
            finish_request mutation_state
              (if bool_decide (is_Some removed_agent) || bool_decide (is_Some removed_swarm_id)
               then MutationDone
               else MutationError ("Unknown session '" +:+ target_session +:+ "'") None))
    end).

(** ** Clients that disconnect ([client_disconnect_cleanup.rs]) *)

Inductive DisconnectDisposition := DisconnectClosed | DisconnectCrashed | DisconnectReloading.

Definition disconnect_disposition (disconnected_while_processing reload_marker_active : bool)
    : DisconnectDisposition :=
  if negb disconnected_while_processing then DisconnectClosed
  else if reload_marker_active then DisconnectReloading else DisconnectCrashed.

Definition disconnect_status (disposition : DisconnectDisposition) : string * string :=
  match disposition with
  | DisconnectClosed => ("stopped", "disconnected")
  | DisconnectCrashed => ("crashed", "disconnect while running")
  | DisconnectReloading => ("stopped", "server reload in progress")
  end.

Definition session_has_live_successor (s : Server) (session_id : string) : bool :=
  bool_decide (session_id ∈ (map_to_list (sv_client_connections s)).*2).

(** The state of the swarms after a client is gone; what the agent does with its
    session, and the state of the debug clients, are not part of it. [None] is a
    panic. *)
Definition cleanup_client_connection (client_session_id client_connection_id : string)
    (disposition : DisconnectDisposition) : Srv (option unit) :=
  modify (λ s, set_client_connections (delete client_connection_id (sv_client_connections s)) s) ;~
  unregister_session_event_sender client_session_id client_connection_id ;~
  successor_connected <~ gets (λ s, session_has_live_successor s client_session_id);
  if successor_connected : bool then sret (Some ())
  else
    modify (λ s, set_sessions (delete client_session_id (sv_sessions s)) s) ;~
    let '(status, detail) := disconnect_status disposition in
    updated <~ update_member_status client_session_id status (Some detail) true;
    match updated with
    | None => sret None
    | Some _ =>
        remove_member_of client_session_id ;~
        remove_session_file_touches client_session_id ;~
        remove_session_interrupt_queue client_session_id ;~
        sret (Some ())
    end.

End handlers.
