(* ===== verification/SwarmComm.v ===== *)
(** * What agents tell each other ([src/server/client_comm_message.rs],
      [client_comm_context.rs], [client_comm_channels.rs], [comm_await.rs],
      [await_members_state.rs])

    Messages to one agent, a channel or a whole swarm, the shared context, the
    channels, and waiting until other agents are done. *)

From S2P Require Import Prelude Utf8 SessionTypes SessionRender SwarmPlan SwarmCore Storage SwarmServerTypes SwarmPersistence SwarmServer SwarmMutations SwarmTasks.
Open Scope nat_scope.

Section handlers.
Context `{HashOrder} `{ServerCodec} `{RequestHash}.

Definition swarm_id_for_session (w : SwarmState) (session_id : string) : option string :=
  sw_members w !! session_id ≫= mb_swarm_id.

Definition NOT_IN_A_SWARM : string := "Not in a swarm. Use a git repository to enable swarm features.".

(** ** Messages ([client_comm_message.rs]) *)

Inductive CommDeliveryMode := DeliverNotify | DeliverInterrupt | DeliverWake.

Definition resolve_comm_delivery_mode (scope : string) (delivery : option CommDeliveryMode)
    (wake : option bool) : CommDeliveryMode :=
  match delivery with
  | Some delivery => delivery
  | None =>
      if default false wake then DeliverWake
      else if scope =s "dm" then DeliverWake else DeliverNotify
  end.

(** The members of the swarm with the friendly name, by identifier. *)
Definition dm_matches (w : SwarmState) (target : string) (swarm_session_ids : list string)
    : list (string * string) :=
  sort_by (λ left right, String.leb left.1 right.1)
    (omap (λ session_id,
       member ← sw_members w !! session_id;
       if decide (mb_friendly_name member = Some target) then Some (session_id, target) else None)
     swarm_session_ids).

(** [dedup_by] on neighbours with the same identifier. *)
Fixpoint dedup_sessions (matches : list (string * string)) : list (string * string) :=
  match matches with
  | m :: (n :: _) as rest => if m.1 =s n.1 then dedup_sessions rest else m :: dedup_sessions rest
  | matches => matches
  end.

Definition resolve_dm_target_session (w : SwarmState) (target : string) (swarm_session_ids : list string)
    : string + string :=
  if bool_decide (target ∈ swarm_session_ids) then inl target
  else
    match dedup_sessions (dm_matches w target swarm_session_ids) with
    | [(session_id, _)] => inl session_id
    | [] => inr ("Unknown target '" +:+ target
              +:+ "' - use an exact session_id or a unique friendly name within the swarm.")
    | matches => inr ("Friendly name '" +:+ target
              +:+ "' is ambiguous in swarm. Use an exact session id instead. Matches: "
              +:+ join ", " ((λ m, m.2 +:+ " [" +:+ m.1 +:+ "]") <$> matches))
    end.

(** An idle agent with a client gets the message as its next turn. *)
Definition run_message_in_live_session_if_idle (session_id message : string)
    (system_reminder : option string) : Srv bool :=
  s <~ gets (λ s, s);
  match sv_sessions s !! session_id with
  | None => sret false
  | Some agent =>
      let has_live_attachments :=
        from_option (λ member, negb (bool_decide (mb_event_txs member = ∅))
                               || negb (is_closed s (mb_event_tx member)))
          false (sw_members (sv_swarm s) !! session_id) in
      if negb has_live_attachments then sret false
      else if negb (ag_idle agent) then sret false
      else
        modify (λ s, set_runs (sv_runs s ++ [SpawnedMessage session_id message system_reminder]) s) ;~
        sret true
  end.

(** Who the message goes to. *)
Definition message_targets (s : Server) (swarm_id from_session : string) (to channel : option string)
    : list string :=
  let swarm_session_ids := swarm_session_ids s swarm_id in
  let others := filter (λ session_id, session_id ≠ from_session) in
  match to with
  | Some target => [target]
  | None =>
      match channel with
      | Some channel_name =>
          let index := {| by_swarm_channel := (sv_channels s).1; by_session := ∅ |} in
          let channel_members := members index swarm_id channel_name in
          if is_nil channel_members then others swarm_session_ids else others channel_members
      | None => others swarm_session_ids
      end
  end.

Definition message_scope (to channel : option string) : string :=
  match to, channel with
  | Some _, _ => "dm"
  | None, Some _ => "channel"
  | None, None => "broadcast"
  end.

Definition scope_label (scope : string) (channel : option string) : string :=
  match channel with
  | Some channel_name => if scope =s "channel" then "#" +:+ channel_name
                         else if scope =s "dm" then "DM" else "broadcast"
  | None => if scope =s "dm" then "DM" else "broadcast"
  end.

Definition message_reminder (scope sender_name : string) (channel : option string) : string :=
  if scope =s "dm" then "You just received a direct swarm message from " +:+ sender_name
    +:+ ". Review it and respond or act if useful."
  else if scope =s "channel" then "You just received a swarm channel message in #"
    +:+ default "channel" channel +:+ " from " +:+ sender_name
    +:+ ". Review it and respond or act if useful."
  else "You just received a swarm broadcast from " +:+ sender_name
    +:+ ". Review it and respond or act if useful.".

(** The message for one agent. *)
Definition deliver_message (from_session from_label message scope : string)
    (friendly_name channel : option string) (delivery_mode : CommDeliveryMode) (session_id : string)
    : Srv unit :=
  let notification_msg := scope_label scope channel +:+ " from " +:+ from_label +:+ ": " +:+ message in
  fanout_ session_id
    (EventNotification from_session friendly_name (MessageNotice (Some scope) channel) notification_msg) ;~
  let reminder := message_reminder scope (default from_session friendly_name) channel in
  match delivery_mode with
  | DeliverNotify => sret ()
  | DeliverInterrupt => queue_system_interrupt session_id notification_msg
  | DeliverWake =>
      woke_immediately <~ run_message_in_live_session_if_idle session_id notification_msg (Some reminder);
      when (negb woke_immediately) (queue_system_interrupt session_id notification_msg)
  end.

(** The loop over the targets; [None] is a panic, when a nameless sender has no
    character boundary at its eighth byte. *)
Fixpoint deliver_messages (from_session message scope : string) (friendly_name channel : option string)
    (delivery_mode : CommDeliveryMode) (swarm_session_ids : list string) (known_member_ids : gset string)
    (target_sessions : list string) : Srv (option unit) :=
  match target_sessions with
  | [] => sret (Some ())
  | session_id :: target_sessions =>
      let rest := deliver_messages from_session message scope friendly_name channel delivery_mode
                    swarm_session_ids known_member_ids target_sessions in
      if bool_decide (session_id ∈ swarm_session_ids) && bool_decide (session_id ∈ known_member_ids) then
        match match friendly_name with
              | Some name => Some name
              | None => short_session_id from_session
              end with
        | None => sret None
        | Some from_label =>
            deliver_message from_session from_label message scope friendly_name channel delivery_mode
              session_id ;~
            rest
        end
      else rest
  end.

Definition handle_comm_message (id : u64) (from_session message : string)
    (to_session channel : option string) (delivery : option CommDeliveryMode) (wake : option bool)
    (client_event_tx : Sender) : Srv (option unit) :=
  s <~ gets (λ s, s);
  match swarm_id_for_session (sv_swarm s) from_session with
  | None =>
      reply_error client_event_tx id NOT_IN_A_SWARM None ;~
      sret (Some ())
  | Some swarm_id =>
      let friendly_name := friendly_name_of (sv_swarm s) from_session in
      let swarm_session_ids := swarm_session_ids s swarm_id in
      let resolved : option string + string :=
        match to_session with
        | Some target => match resolve_dm_target_session (sv_swarm s) target swarm_session_ids with
                         | inl target => inl (Some target)
                         | inr message => inr message
                         end
        | None => inl None
        end in
      match resolved with
      | inr message =>
          reply_error client_event_tx id message None ;~
          sret (Some ())
      | inl resolved_to_session =>
          let foreign := match resolved_to_session with
                         | Some target => negb (bool_decide (target ∈ swarm_session_ids))
                         | None => false
                         end in
          if foreign then
            reply_error client_event_tx id ("DM failed: session '" +:+ default "" resolved_to_session
                                            +:+ "' not in swarm") None ;~
            sret (Some ())
          else
            let scope := message_scope resolved_to_session channel in
            delivered <~ deliver_messages from_session message scope friendly_name channel
              (resolve_comm_delivery_mode scope delivery wake) swarm_session_ids
              (dom (sw_members (sv_swarm s)))
              (message_targets s swarm_id from_session resolved_to_session channel);
            match delivered with
            | None => sret None
            | Some _ =>
                let scope_value := if scope =s "channel" then "#" +:+ default "" channel else scope in
                record_swarm_event from_session friendly_name (Some swarm_id)
                  (SwNotification scope_value (truncate_detail message 220)) ;~
                send_ client_event_tx (EventDone id) ;~
                sret (Some ())
            end
      end
  end.

(** ** Shared context ([client_comm_context.rs]) *)

(** The value that is stored: the new one, or the old one and a line. *)
Definition stored_value (existing : option SharedContext) (value : string) (append : bool) : string :=
  match existing with
  | Some existing => if append then
                       if sx_value existing =s "" then value else sx_value existing +:+ nl +:+ value
                     else value
  | None => value
  end.

Definition handle_comm_share (id : u64) (req_session_id key value : string) (append : bool)
    (client_event_tx : Sender) : Srv unit :=
  s <~ gets (λ s, s);
  match swarm_id_for_session (sv_swarm s) req_session_id with
  | None => reply_error client_event_tx id NOT_IN_A_SWARM None
  | Some swarm_id =>
      let friendly_name := friendly_name_of (sv_swarm s) req_session_id in
      let swarm_ctx := default ∅ (sv_shared_context s !! swarm_id) in
      let existing := swarm_ctx !! key in
      let entry := {| sx_key := key; sx_value := stored_value existing value append;
                      sx_from_session := req_session_id; sx_from_name := friendly_name;
                      sx_created_at := from_option sx_created_at (sv_now s) existing;
                      sx_updated_at := sv_now s |} in
      on_context (insert swarm_id (<[key := entry]> swarm_ctx)) ;~
      for_each (swarm_session_ids s swarm_id) (λ sid,
        when (negb (sid =s req_session_id))
          (fanout_ sid (EventNotification req_session_id friendly_name
             (SharedContextNotice key (if append then "(appended) " +:+ value else value))
             (if append then "Appended shared context: " +:+ key +:+ " += " +:+ value
              else "Shared context: " +:+ key +:+ " = " +:+ value)))) ;~
      record_swarm_event req_session_id friendly_name (Some swarm_id) (SwContextUpdate swarm_id key) ;~
      send_ client_event_tx (EventDone id)
  end.

Definition context_entry_of (c : SharedContext) : ContextEntry := {|
  ce_key := sx_key c; ce_value := sx_value c; ce_from_session := sx_from_session c;
  ce_from_name := sx_from_name c;
|}.

Definition handle_comm_read (id : u64) (req_session_id : string) (key : option string)
    (client_event_tx : Sender) : Srv unit :=
  s <~ gets (λ s, s);
  let entries :=
    match swarm_id_for_session (sv_swarm s) req_session_id ≫= λ swarm_id, sv_shared_context s !! swarm_id with
    | None => []
    | Some swarm_ctx =>
        match key with
        | Some k => default [] ((λ c, [context_entry_of c]) <$> swarm_ctx !! k)
        | None => context_entry_of <$> (hash_entries swarm_ctx).*2
        end
    end in
  send_ client_event_tx (EventCommContext id entries).

Definition agent_info (now : u64) (session_id : string) (files : list string) (member : SwarmMember)
    : AgentInfo := {|
  ai_session_id := session_id; ai_friendly_name := mb_friendly_name member; ai_files_touched := files;
  ai_status := Some (mb_status member); ai_detail := mb_detail member; ai_role := Some (mb_role member);
  ai_is_headless := Some (mb_is_headless member);
  ai_report_back_to_session_id := mb_report_back_to_session_id member;
  ai_latest_completion_report := mb_latest_completion_report member;
  ai_live_attachments := Some (size (mb_event_txs member));
  ai_status_age_secs := Some (status_age_secs now (mb_last_status_change member));
|}.

Definition handle_comm_list (id : u64) (req_session_id : string) (client_event_tx : Sender) : Srv unit :=
  s <~ gets (λ s, s);
  match swarm_id_for_session (sv_swarm s) req_session_id with
  | None => reply_error client_event_tx id NOT_IN_A_SWARM None
  | Some swarm_id =>
      let files sid := sort_strings (default [] (hash_elements <$> sv_files_touched_by_session s !! sid)) in
      send_ client_event_tx (EventCommMembers id
        (omap (λ sid, agent_info (sv_now s) sid (files sid) <$> sw_members (sv_swarm s) !! sid)
           (swarm_session_ids s swarm_id)))
  end.

(** ** Channels ([client_comm_channels.rs]) *)

Definition handle_comm_list_channels (id : u64) (req_session_id : string) (client_event_tx : Sender)
    : Srv unit :=
  s <~ gets (λ s, s);
  match swarm_id_for_session (sv_swarm s) req_session_id with
  | None => reply_error client_event_tx id NOT_IN_A_SWARM None
  | Some swarm_id =>
      let infos := (λ c, {| ci_channel := c.1; ci_member_count := c.2 |})
                     <$> list_channels_for_swarm swarm_id (sv_channels s).1 in
      send_ client_event_tx (EventCommChannels id infos)
  end.

Definition handle_comm_channel_members (id : u64) (req_session_id channel : string)
    (client_event_tx : Sender) : Srv unit :=
  s <~ gets (λ s, s);
  match swarm_id_for_session (sv_swarm s) req_session_id with
  | None => reply_error client_event_tx id NOT_IN_A_SWARM None
  | Some swarm_id =>
      let index := {| by_swarm_channel := (sv_channels s).1; by_session := ∅ |} in
      send_ client_event_tx (EventCommMembers id
        (omap (λ sid, agent_info (sv_now s) sid [] <$> sw_members (sv_swarm s) !! sid)
           (members index swarm_id channel)))
  end.

(** [handle_comm_subscribe_channel] and its opposite: [change] is the change of
    the index, [event] its name. *)
Definition change_channel (change : subscriptions * subscriptions → subscriptions * subscriptions)
    (event : string) (id : u64) (req_session_id swarm_id channel : string) (client_event_tx : Sender)
    : Srv unit :=
  modify (λ s, set_channels (change (sv_channels s)) s) ;~
  record_swarm_event req_session_id None (Some swarm_id) (SwNotification event channel) ;~
  send_ client_event_tx (EventDone id).

Definition handle_comm_subscribe_channel (id : u64) (req_session_id channel : string)
    (client_event_tx : Sender) : Srv unit :=
  w <~ gets sv_swarm;
  match swarm_id_for_session w req_session_id with
  | None => reply_error client_event_tx id "Not in a swarm." None
  | Some swarm_id =>
      change_channel (subscribe_session_to_channel req_session_id swarm_id channel) "channel_subscribe"
        id req_session_id swarm_id channel client_event_tx
  end.

Definition handle_comm_unsubscribe_channel (id : u64) (req_session_id channel : string)
    (client_event_tx : Sender) : Srv unit :=
  w <~ gets sv_swarm;
  match swarm_id_for_session w req_session_id with
  | None => reply_error client_event_tx id "Not in a swarm." None
  | Some swarm_id =>
      change_channel (unsubscribe_session_from_channel req_session_id swarm_id channel) "channel_unsubscribe"
        id req_session_id swarm_id channel client_event_tx
  end.

(** ** Waiting for members ([comm_await.rs], [await_members_state.rs]) *)

Definition AWAIT_MEMBERS_DIR : string := "gcode-await-members".
Definition AWAIT_FINAL_STATE_TTL_MS : u64 := 6 * 60 * 60 * 1000.
Definition AWAIT_PENDING_STATE_TTL_MS : u64 := 24 * 60 * 60 * 1000.

Definition await_is_stale (now : u64) (state : PersistedAwaitMembersState) : bool :=
  match am_final_response state with
  | Some final_response =>
      (AWAIT_FINAL_STATE_TTL_MS <? Z.max 0 (now - ar_resolved_at_unix_ms final_response))%Z
  | None => (AWAIT_PENDING_STATE_TTL_MS <? Z.max 0 (now - am_deadline_unix_ms state))%Z
  end.

(** The character that separates the parts of a key, U+001F. *)
Definition unit_separator : string := String (Ascii.ascii_of_nat 31) "".

Definition await_request_key (session_id swarm_id : string) (requested_ids target_status : list string)
    (mode : option string) : string :=
  hashed_request_key session_id "await_members"
    [swarm_id; join unit_separator (sort_strings requested_ids);
     join unit_separator (sort_strings target_status); default "all" mode].

Definition await_path (s : Server) (key : string) : string :=
  durable_state_path (sv_runtime_dir s) AWAIT_MEMBERS_DIR key.

Definition load_await_state (key : string) : Srv (option PersistedAwaitMembersState) := λ s,
  let (state, w) := load_json_state parse_await (await_path s key) (await_is_stale (sv_now s))
                      (sv_world s) in
  (state, set_world w s).

Definition save_await_state (state : PersistedAwaitMembersState) : Srv unit :=
  modify (λ s, set_world (save_json_state (sv_tmp_suffix s) (await_path s (am_key state))
                            (await_json state) (sv_world s)) s).

Definition ensure_pending_await (key session_id swarm_id : string)
    (requested_ids target_status : list string) (mode : option string) (deadline_unix_ms : u64)
    : Srv PersistedAwaitMembersState :=
  existing <~ load_await_state key;
  match existing with
  | Some existing => sret existing
  | None =>
      now <~ now_unix_ms;
      let state := {| am_key := key; am_session_id := session_id; am_swarm_id := swarm_id;
                      am_target_status := target_status; am_requested_ids := requested_ids;
                      am_mode := mode; am_created_at_unix_ms := now;
                      am_deadline_unix_ms := deadline_unix_ms; am_final_response := None |} in
      save_await_state state ;~
      sret state
  end.

Definition persist_await_response (state : PersistedAwaitMembersState) (completed : bool)
    (members : list AwaitedMemberStatus) (summary : string) : Srv unit :=
  now <~ now_unix_ms;
  save_await_state {|
    am_key := am_key state; am_session_id := am_session_id state; am_swarm_id := am_swarm_id state;
    am_target_status := am_target_status state; am_requested_ids := am_requested_ids state;
    am_mode := am_mode state; am_created_at_unix_ms := am_created_at_unix_ms state;
    am_deadline_unix_ms := am_deadline_unix_ms state;
    am_final_response := Some {| ar_completed := completed; ar_members := members;
                                 ar_summary := summary; ar_resolved_at_unix_ms := now |} |}.

(** [pending_await_members_for_session]: the waits of a session that are still on. *)
Fixpoint pending_awaits (session_id dir : string) (names : list string)
    : Srv (list PersistedAwaitMembersState) :=
  match names with
  | [] => sret []
  | name :: names =>
      let path := path_join dir name in
      read <~ run_io (read_json parse_await path);
      now <~ now_unix_ms;
      match read with
      | inr _ => pending_awaits session_id dir names
      | inl state =>
          if await_is_stale now state then
            run_io (io_ignore (remove_file path)) ;~
            pending_awaits session_id dir names
          else
            rest <~ pending_awaits session_id dir names;
            sret (if (am_session_id state =s session_id)
                     && negb (bool_decide (is_Some (am_final_response state)))
                     && (now <? am_deadline_unix_ms state)%Z
                  then state :: rest else rest)
      end
  end.

Definition pending_await_members_for_session (session_id : string)
    : Srv (list PersistedAwaitMembersState) :=
  dir <~ gets (λ s, path_join (sv_runtime_dir s) AWAIT_MEMBERS_DIR);
  names <~ run_io (read_dir dir);
  match names with
  | inr _ => sret []
  | inl names =>
      pending <~ pending_awaits session_id dir names;
      sret (sort_by (λ left right, am_deadline_unix_ms left <=? am_deadline_unix_ms right)%Z pending)
  end.

(** ** The statuses that are awaited *)

Definition awaited_status (w : SwarmState) (target_status : list string) (session_id : string)
    : AwaitedMemberStatus :=
  let '(name, status, completion_report) :=
    match sw_members w !! session_id with
    | Some member => (mb_friendly_name member, mb_status member, mb_latest_completion_report member)
    | None => (None, "unknown", None)
    end in
  {| aw_session_id := session_id; aw_friendly_name := name; aw_status := status;
     aw_done := str_in status target_status
                || ((status =s "unknown")
                    && (str_in "stopped" target_status || str_in "completed" target_status));
     aw_completion_report := completion_report |}.

Definition awaited_member_statuses (s : Server) (req_session_id swarm_id : string)
    (requested_ids target_status : list string) : list AwaitedMemberStatus :=
  let watch_ids :=
    if is_nil requested_ids then
      sort_strings (filter (λ session_id, session_id ≠ req_session_id) (swarm_session_ids s swarm_id))
    else requested_ids in
  awaited_status (sv_swarm s) target_status <$> watch_ids.

(** [None] is a panic. *)
Definition short_member_name (member : AwaitedMemberStatus) : option string :=
  match aw_friendly_name member with
  | Some name => Some name
  | None => short_session_id (aw_session_id member)
  end.

Definition timeout_summary (member_statuses : list AwaitedMemberStatus) : option string :=
  pending ← mapM (λ member, name ← short_member_name member; Some (name +:+ " (" +:+ aw_status member +:+ ")"))
              (filter (λ member, aw_done member = false) member_statuses);
  Some ("Timed out. Still waiting on: " +:+ join ", " pending).

Definition completion_summary (member_statuses : list AwaitedMemberStatus) : option string :=
  done_names ← mapM short_member_name member_statuses;
  Some ("All " +:+ pretty (length done_names) +:+ " members are done: " +:+ join ", " done_names).

Definition any_mode (mode : option string) : bool := bool_decide (mode = Some "any").

Definition mode_satisfied (member_statuses : list AwaitedMemberStatus) (mode : option string) : bool :=
  if any_mode mode then existsb aw_done member_statuses else forallb aw_done member_statuses.

Definition mode_summary (member_statuses : list AwaitedMemberStatus) (mode : option string)
    : option string :=
  if any_mode mode then
    matching ← mapM short_member_name (filter (λ member, aw_done member = true) member_statuses);
    Some ("Matched " +:+ pretty (length matching) +:+ " member"
          +:+ (if length matching =? 1 then "" else "s") +:+ ": " +:+ join ", " matching)
  else completion_summary member_statuses.

(** ** The runtime of waits *)

Definition on_awaits (f : KeyRuntime → KeyRuntime) : Srv unit :=
  modify (λ s, set_awaits (f (sv_awaits s)) s).

Definition add_await_waiter (key : string) (request_id : u64) (client_event_tx : Sender) : Srv unit :=
  on_awaits (runtime_add_waiter key request_id client_event_tx).

Definition mark_await_active (key : string) : Srv bool :=
  new <~ gets (λ s, negb (bool_decide (key ∈ rt_active_keys (sv_awaits s))));
  on_awaits (λ rt, {| rt_active_keys := {[key]} ∪ rt_active_keys rt; rt_waiters := rt_waiters rt |}) ;~
  sret new.

Definition clear_await_active (key : string) : Srv unit :=
  on_awaits (λ rt, {| rt_active_keys := rt_active_keys rt ∖ {[key]}; rt_waiters := rt_waiters rt |}).

Definition retain_open_waiters (key : string) : Srv usize :=
  s <~ gets (λ s, s);
  match rt_waiters (sv_awaits s) !! key with
  | None => sret 0
  | Some entries =>
      let entries := filter (λ waiter, is_closed s waiter.2 = false) entries in
      on_awaits (λ rt, {| rt_active_keys := rt_active_keys rt;
                          rt_waiters := if is_nil entries then delete key (rt_waiters rt)
                                        else <[key := entries]> (rt_waiters rt) |}) ;~
      sret (length entries)
  end.

Definition take_await_waiters (key : string) : Srv (list (u64 * Sender)) :=
  waiters <~ gets (λ s, default [] (rt_waiters (sv_awaits s) !! key));
  on_awaits (λ rt, {| rt_active_keys := rt_active_keys rt; rt_waiters := delete key (rt_waiters rt) |}) ;~
  sret waiters.

Definition respond_to_waiters (key : string) (completed : bool) (members : list AwaitedMemberStatus)
    (summary : string) : Srv unit :=
  waiters <~ take_await_waiters key;
  for_each waiters (λ w, send_ w.2 (EventCommAwaitMembersResponse w.1 completed members summary)) ;~
  clear_await_active key.

(** ** The task that waits *)

Inductive AwaitStep :=
| AwaitEnded
| AwaitPanicked
| AwaitWaiting (member_statuses : list AwaitedMemberStatus).

(** The end of a wait: the answer is stored and sent. [None] is a panic. *)
Definition resolve_await (state : PersistedAwaitMembersState) (completed : bool)
    (members : list AwaitedMemberStatus) (summary : option string) : Srv AwaitStep :=
  match summary with
  | None => sret AwaitPanicked
  | Some summary =>
      persist_await_response state completed members summary ;~
      respond_to_waiters (am_key state) completed members summary ;~
      sret AwaitEnded
  end.

Definition NO_OTHERS : string := "No other members in swarm to wait for.".

(** One round of the loop, up to its [select!]. *)
Definition await_round (state : PersistedAwaitMembersState) (req_session_id : string) : Srv AwaitStep :=
  member_statuses <~ gets (λ s, awaited_member_statuses s req_session_id (am_swarm_id state)
                                  (am_requested_ids state) (am_target_status state));
  if is_nil member_statuses then resolve_await state true [] (Some NO_OTHERS)
  else if mode_satisfied member_statuses (am_mode state) then
    resolve_await state true member_statuses (mode_summary member_statuses (am_mode state))
  else
    open_waiters <~ retain_open_waiters (am_key state);
    if open_waiters =? 0 then
      clear_await_active (am_key state) ;~
      sret AwaitEnded
    else sret (AwaitWaiting member_statuses).

(** What ends the [select!]: the deadline, an event of any swarm, after which the
    next round begins, or an error of the channel of events. *)
Definition await_deadline (state : PersistedAwaitMembersState)
    (member_statuses : list AwaitedMemberStatus) : Srv AwaitStep :=
  resolve_await state false member_statuses (timeout_summary member_statuses).

Definition await_events_lost (state : PersistedAwaitMembersState) : Srv AwaitStep :=
  clear_await_active (am_key state) ;~
  sret AwaitEnded.

(** [now + Duration::from_secs(timeout).as_millis() as u64] *)
Definition await_deadline_of (now : u64) (timeout_secs : option u64) : u64 :=
  wrap_u 64 (now + wrap_u 64 (default 3600 timeout_secs * 1000))%Z.

(** [None] is a panic. *)
Definition handle_comm_await_members (id : u64) (req_session_id : string)
    (target_status requested_ids : list string) (mode : option string) (timeout_secs : option u64)
    (client_event_tx : Sender) : Srv (option unit) :=
  swarm_id <~ gets (λ s, swarm_id_for_session (sv_swarm s) req_session_id);
  match swarm_id with
  | None =>
      reply_error client_event_tx id NOT_IN_A_SWARM None ;~
      sret (Some ())
  | Some swarm_id =>
      let key := await_request_key req_session_id swarm_id requested_ids target_status mode in
      persisted <~ load_await_state key;
      match persisted ≫= am_final_response with
      | Some final_response =>
          send_ client_event_tx (EventCommAwaitMembersResponse id (ar_completed final_response)
                                   (ar_members final_response) (ar_summary final_response)) ;~
          sret (Some ())
      | None =>
          initial_statuses <~ gets (λ s, awaited_member_statuses s req_session_id swarm_id
                                           requested_ids target_status);
          if is_nil initial_statuses then
            send_ client_event_tx (EventCommAwaitMembersResponse id true [] NO_OTHERS) ;~
            sret (Some ())
          else
            now <~ now_unix_ms;
            state <~ match persisted with
                     | Some state => sret state
                     | None => ensure_pending_await key req_session_id swarm_id requested_ids
                                 target_status mode (await_deadline_of now timeout_secs)
                     end;
            add_await_waiter key id client_event_tx ;~
            if (am_deadline_unix_ms state <=? now)%Z then
              match timeout_summary initial_statuses with
              | None => sret None
              | Some summary =>
                  persist_await_response state false initial_statuses summary ;~
                  respond_to_waiters key false initial_statuses summary ;~
                  sret (Some ())
              end
            else
              new <~ mark_await_active key;
              when new (modify (λ s, set_runs (sv_runs s ++ [SpawnedAwait state req_session_id]) s)) ;~
              sret (Some ())
      end
  end.

(** ** Looking at others and at the plan ([comm_sync.rs]) *)

Definition same_swarm (w : SwarmState) (req_session_id target_session : string) : bool :=
  let req_swarm := swarm_id_for_session w req_session_id in
  bool_decide (is_Some req_swarm) && bool_decide (req_swarm = swarm_id_for_session w target_session).

Definition handle_comm_summary (id : u64) (req_session_id target_session : string) (limit : option usize)
    (client_event_tx : Sender) : Srv unit :=
  s <~ gets (λ s, s);
  if negb (same_swarm (sv_swarm s) req_session_id target_session) then
    reply_error client_event_tx id ("Session '" +:+ target_session
      +:+ "' is not in the same swarm as requester '" +:+ req_session_id +:+ "'") None
  else
    match sv_sessions s !! target_session with
    | None => send_ client_event_tx (EventCommSummaryResponse id target_session [])
    | Some agent =>
        if ag_idle agent then
          send_ client_event_tx
            (EventCommSummaryResponse id target_session (ag_tool_call_summaries agent (default 10 limit)))
        else
          reply_error client_event_tx id ("Session '" +:+ target_session
            +:+ "' is busy; try summary again shortly") (Some 1%Z)
    end.

Definition handle_comm_plan_status (id : u64) (req_session_id : string) (client_event_tx : Sender) : Srv unit :=
  w <~ gets sv_swarm;
  match swarm_id_for_session w req_session_id with
  | None => reply_error client_event_tx id "Not in a swarm." None
  | Some swarm_id => send_ client_event_tx (EventCommPlanStatusResponse id (plan_graph_status_for w swarm_id))
  end.

Definition handle_comm_resync_plan (id : u64) (req_session_id : string) (client_event_tx : Sender) : Srv unit :=
  w <~ gets sv_swarm;
  match swarm_id_for_session w req_session_id with
  | None => reply_error client_event_tx id "Not in a swarm." None
  | Some swarm_id =>
      match sw_plans w !! swarm_id with
      | None => reply_error client_event_tx id "No swarm plan exists for this swarm." None
      | Some plan =>
          on_plans (insert swarm_id (set_participants ({[req_session_id]} ∪ vp_participants plan) plan)) ;~
          persist_swarm_state_for swarm_id ;~
          notify_member req_session_id
            (EventNotification req_session_id (friendly_name_of w req_session_id) (message_notice "plan")
               ("Plan attached to this session (v" +:+ pretty (vp_version plan) +:+ ", "
                +:+ pretty (length (vp_items plan)) +:+ " items).")) ;~
          broadcast_swarm_plan swarm_id (Some "resync") ;~
          record_swarm_event req_session_id None (Some swarm_id)
            (SwPlanUpdate swarm_id (length (vp_items plan))) ;~
          send_ client_event_tx (EventDone id)
      end
  end.

End handlers.
