(* ===== verification/SwarmRequests.v ===== *)
(** * The requests of agents to the swarm server
      ([src/server/client_lifecycle.rs])

    The dispatch of the modelled requests, and the theorem that each of them is
    answered once, unless the same change is already worked on. *)

From S2P Require Import Prelude Utf8 SessionTypes SessionRender SwarmPlan SwarmCore Storage StorageTheorems SwarmServerTypes SwarmPersistence SwarmServer SwarmPersistenceTheorems SwarmServerTheorems SwarmMutations SwarmTasks SwarmSessions SwarmComm SwarmServerExamples.
Open Scope nat_scope.

Inductive CommRequest :=
| CommShare (key value : string) (append : bool)
| CommRead (key : option string)
| CommMessage (message : string) (to_session channel : option string)
    (delivery : option CommDeliveryMode) (wake : option bool)
| CommList
| CommListChannels
| CommChannelMembers (channel : string)
| CommProposePlan (items : list PlanItem)
| CommApprovePlan (proposer_session : string)
| CommRejectPlan (proposer_session : string) (reason : option string)
| CommSpawn (working_dir initial_message request_nonce : option string)
| CommStop (target_session : string) (force : bool)
| CommAssignRole (target_session role : string)
| CommSummary (target_session : string) (limit : option usize)
| CommPlanStatus
| CommResyncPlan
| CommAssignTask (target_session task_id message : option string)
| CommAssignNext (target_session working_dir : option string) (prefer_spawn spawn_if_needed : option bool)
    (message : option string)
| CommTaskControl (action task_id : string) (target_session message : option string)
| CommSubscribeChannel (channel : string)
| CommUnsubscribeChannel (channel : string).

Section dispatch.
Context `{HashOrder} `{ServerCodec} `{RequestHash}.

(** [handle_lightweight_control_request], for the requests above; [None] is a
    panic. *)
Definition handle_control_request (su : Surroundings) (id : u64) (req_session_id : string)
    (request : CommRequest) (client_event_tx : Sender) : Srv (option unit) :=
  let total (m : Srv unit) := m ;~ sret (Some ()) in
  match request with
  | CommShare key value append =>
      total (handle_comm_share id req_session_id key value append client_event_tx)
  | CommRead key => total (handle_comm_read id req_session_id key client_event_tx)
  | CommMessage message to_session channel delivery wake =>
      handle_comm_message id req_session_id message to_session channel delivery wake client_event_tx
  | CommList => total (handle_comm_list id req_session_id client_event_tx)
  | CommListChannels => total (handle_comm_list_channels id req_session_id client_event_tx)
  | CommChannelMembers channel =>
      total (handle_comm_channel_members id req_session_id channel client_event_tx)
  | CommProposePlan items => total (handle_comm_propose_plan id req_session_id items client_event_tx)
  | CommApprovePlan proposer_session =>
      total (handle_comm_approve_plan id req_session_id proposer_session client_event_tx)
  | CommRejectPlan proposer_session reason =>
      total (handle_comm_reject_plan id req_session_id proposer_session reason client_event_tx)
  | CommSpawn working_dir initial_message request_nonce =>
      handle_comm_spawn su id req_session_id working_dir initial_message request_nonce client_event_tx
  | CommStop target_session force =>
      total (handle_comm_stop id req_session_id target_session force client_event_tx)
  | CommAssignRole target_session role =>
      total (handle_comm_assign_role id req_session_id target_session role client_event_tx)
  | CommSummary target_session limit =>
      total (handle_comm_summary id req_session_id target_session limit client_event_tx)
  | CommPlanStatus => total (handle_comm_plan_status id req_session_id client_event_tx)
  | CommResyncPlan => total (handle_comm_resync_plan id req_session_id client_event_tx)
  | CommAssignTask target_session task_id message =>
      total (handle_comm_assign_task id req_session_id target_session task_id message client_event_tx)
  | CommAssignNext target_session working_dir prefer_spawn spawn_if_needed message =>
      handle_comm_assign_next su id req_session_id target_session working_dir prefer_spawn
        spawn_if_needed message client_event_tx
  | CommTaskControl action task_id target_session message =>
      total (handle_comm_task_control id req_session_id action task_id target_session message
               client_event_tx)
  | CommSubscribeChannel channel =>
      total (handle_comm_subscribe_channel id req_session_id channel client_event_tx)
  | CommUnsubscribeChannel channel =>
      total (handle_comm_unsubscribe_channel id req_session_id channel client_event_tx)
  end.
End dispatch.

(** ** Computations that answer no one *)

Section answers.
Context `{HashOrder} `{ServerCodec} `{RequestHash}.
(** The client of the request, and its identifier. *)
Context (id : u64) (tx : Sender).

Definition silent (event : ServerEvent) : Prop := answer_id event = None.

(** Nothing changes that answers depend on, and no answer is sent. *)
Definition calm {A} (m : Srv A) : Prop :=
  keeps sv_mutations m ∧ keeps (λ s, is_closed s tx) m ∧ sends silent m.

Lemma calm_ret {A} (x : A) : calm (sret x).
Proof. split_and!; [done|done|]. by apply sends_keeps. Qed.

Lemma calm_gets {A} (f : Server → A) : calm (gets f).
Proof. split_and!; [done|done|]. by apply sends_keeps. Qed.

Lemma calm_bind {A B} (m : Srv A) (k : A → Srv B) : calm m → (∀ x, calm (k x)) → calm (sbind m k).
Proof.
  intros (Hm & Hc & Hs) Hk. split_and!.
  - apply keeps_bind; [done|]. intros x. apply Hk.
  - apply keeps_bind; [done|]. intros x. apply Hk.
  - apply sends_bind; [done|]. intros x. apply Hk.
Qed.

Lemma calm_for_each {A} (l : list A) (f : A → Srv unit) : (∀ x, calm (f x)) → calm (for_each l f).
Proof. intros Hf. induction l as [|x l IH]; [apply calm_ret|]. by apply calm_bind. Qed.

Lemma calm_when b (m : Srv unit) : calm m → calm (when b m).
Proof. destruct b; [done|]. intros _. apply calm_ret. Qed.

Lemma calm_when_some {A} (o : option A) (f : A → Srv unit) : (∀ x, calm (f x)) → calm (when_some o f).
Proof. destruct o; [intros Hf; apply Hf|]. intros _. apply calm_ret. Qed.

Lemma calm_modify (f : Server → Server) :
  (∀ s, sv_mutations (f s) = sv_mutations s ∧ is_closed (f s) tx = is_closed s tx ∧ sv_sent (f s) = sv_sent s) →
  calm (modify f).
Proof.
  intros Hf. split_and!; [intros s; apply Hf|intros s; apply Hf|]. apply sends_keeps. intros s. apply Hf.
Qed.

Lemma calm_run_io {A} (m : IO A) : calm (run_io m).
Proof.
  split_and!; [apply keeps_run_io; done|apply keeps_run_io; done|]. apply sends_keeps. by apply keeps_run_io.
Qed.

Lemma calm_send tx' event : silent event → calm (send tx' event).
Proof.
  intros He. split_and!; [by apply keeps_send|by apply keeps_send|]. intros s. unfold send.
  destruct (is_closed s tx'); [exists []; by rewrite app_nil_r|]. exists [(tx', event)].
  split; [done|]. by constructor.
Qed.
End answers.

Create HintDb calm.
#[export] Hint Resolve calm_ret calm_gets calm_run_io : calm.

(** Solves a goal [calm tx m] by walking through [m]. *)
Ltac calm_solve :=
  repeat (match goal with
  | |- calm _ (sbind _ _) => apply calm_bind; [|intros ?]
  | |- calm _ (for_each _ _) => apply calm_for_each; intros ?
  | |- calm _ (when _ _) => apply calm_when
  | |- calm _ (when_some _ _) => apply calm_when_some; intros ?
  | |- calm _ (send _ _) => apply calm_send; done
  | |- calm _ (modify _) => apply calm_modify; intros; split_and!; reflexivity
  | |- calm _ (let _ := _ in _) => cbv zeta
  | |- calm _ (match ?x with _ => _ end) => destruct x
  | |- calm _ _ => solve [eauto with calm]
  end).

Section calm.
Context `{HashOrder} `{ServerCodec} `{RequestHash} (tx : Sender).

Lemma calm_send_ tx' event : silent event → calm tx (send_ tx' event).
Proof. intros He. unfold send_. apply calm_bind; [by apply calm_send|]. intros ?. apply calm_ret. Qed.

Lemma calm_on_members f : calm tx (on_members f).
Proof. unfold on_members, on_swarm. calm_solve. Qed.
Lemma calm_on_swarms f : calm tx (on_swarms f).
Proof. unfold on_swarms, on_swarm. calm_solve. Qed.
Lemma calm_on_plans f : calm tx (on_plans f).
Proof. unfold on_plans, on_swarm. calm_solve. Qed.
Lemma calm_on_coordinators f : calm tx (on_coordinators f).
Proof. unfold on_coordinators, on_swarm. calm_solve. Qed.
Lemma calm_on_swarm f : calm tx (on_swarm f).
Proof. unfold on_swarm. calm_solve. Qed.
Lemma calm_on_world f : calm tx (on_world f).
Proof. unfold on_world. calm_solve. Qed.
Lemma calm_on_context f : calm tx (on_context f).
Proof. unfold on_context. calm_solve. Qed.
Lemma calm_get_members : calm tx get_members.
Proof. apply calm_gets. Qed.
Lemma calm_get_plans : calm tx get_plans.
Proof. apply calm_gets. Qed.
Lemma calm_get_coordinators : calm tx get_coordinators.
Proof. apply calm_gets. Qed.
Lemma calm_now : calm tx now_unix_ms.
Proof. apply calm_gets. Qed.
Lemma calm_update_member session_id f : calm tx (update_member session_id f).
Proof. unfold update_member. apply calm_on_members. Qed.
Lemma calm_update_plan swarm_id f : calm tx (update_plan swarm_id f).
Proof. unfold update_plan. apply calm_on_plans. Qed.

Lemma calm_deliver targets event : silent event → calm tx (deliver targets event).
Proof.
  intros He. induction targets as [|tx' targets IH]; cbn [deliver]; [apply calm_ret|].
  apply calm_bind; [by apply calm_send|]. intros ok. apply calm_bind; [done|]. intros n. apply calm_ret.
Qed.

Lemma calm_fanout session_id event : silent event → calm tx (fanout_ session_id event).
Proof.
  intros He. unfold fanout_, fanout_session_event. apply calm_bind; [|intros ?; apply calm_ret].
  apply calm_bind; [apply calm_gets|]. intros s. destruct (sw_members _ !! session_id); [|apply calm_ret].
  apply calm_bind; [apply calm_on_members|]. intros ?. by apply calm_deliver.
Qed.

Lemma calm_notify session_id event : silent event → calm tx (notify_member session_id event).
Proof.
  intros He. unfold notify_member. apply calm_bind; [apply calm_get_members|]. intros members.
  apply calm_when_some. intros m. by apply calm_send_.
Qed.

End calm.

#[export] Hint Resolve calm_on_members calm_on_swarms calm_on_plans calm_on_coordinators calm_on_swarm
  calm_on_world calm_on_context calm_get_members calm_get_plans calm_get_coordinators calm_now
  calm_update_member calm_update_plan : calm.
#[export] Hint Extern 1 (calm _ (send_ _ _)) => apply calm_send_; done : calm.
#[export] Hint Extern 1 (calm _ (fanout_ _ _)) => apply calm_fanout; done : calm.
#[export] Hint Extern 1 (calm _ (notify_member _ _)) => apply calm_notify; done : calm.

Section calm_server.
Context `{HashOrder} `{ServerCodec} `{RequestHash} (tx : Sender).

Lemma calm_persist swarm_id : calm tx (persist_swarm_state_for swarm_id).
Proof. unfold persist_swarm_state_for. calm_solve. Qed.
Lemma calm_remove_persisted swarm_id : calm tx (remove_persisted_swarm_state_for swarm_id).
Proof. unfold remove_persisted_swarm_state_for. calm_solve. Qed.
Lemma calm_record session_id name swarm_id event : calm tx (record_swarm_event session_id name swarm_id event).
Proof. unfold record_swarm_event. calm_solve. Qed.
Lemma calm_status_now ids : calm tx (broadcast_swarm_status_now ids).
Proof. unfold broadcast_swarm_status_now. calm_solve. Qed.
Lemma calm_plan_previous swarm_id reason previous :
  calm tx (broadcast_swarm_plan_with_previous swarm_id reason previous).
Proof. unfold broadcast_swarm_plan_with_previous. calm_solve. Qed.
Lemma calm_queue session_id queue : calm tx (register_session_interrupt_queue session_id queue).
Proof. unfold register_session_interrupt_queue. calm_solve. Qed.
Lemma calm_unqueue session_id : calm tx (remove_session_interrupt_queue session_id).
Proof. unfold remove_session_interrupt_queue. calm_solve. Qed.
Lemma calm_enqueue queue message : calm tx (enqueue_soft_interrupt queue message).
Proof. unfold enqueue_soft_interrupt. calm_solve. Qed.
Lemma calm_spawn_run target swarm_id task_id text :
  calm tx (spawn_assigned_task_run target swarm_id task_id text).
Proof. unfold spawn_assigned_task_run. calm_solve. Qed.
Lemma calm_remove_context swarm_id key : calm tx (remove_context swarm_id key).
Proof. unfold remove_context. calm_solve. Qed.
End calm_server.

#[export] Hint Resolve calm_persist calm_remove_persisted calm_record calm_status_now calm_plan_previous
  calm_queue calm_unqueue calm_enqueue calm_spawn_run calm_remove_context : calm.

Section calm_tasks.
Context `{HashOrder} `{ServerCodec} `{RequestHash} (tx : Sender).

Lemma calm_status swarm_id : calm tx (broadcast_swarm_status swarm_id).
Proof. unfold broadcast_swarm_status. calm_solve. Qed.
Lemma calm_plan swarm_id reason : calm tx (broadcast_swarm_plan swarm_id reason).
Proof. unfold broadcast_swarm_plan. calm_solve. Qed.
Lemma calm_record_for session_id event : calm tx (record_swarm_event_for_session session_id event).
Proof. unfold record_swarm_event_for_session. calm_solve. Qed.
Lemma calm_interrupt session_id content urgent source :
  calm tx (queue_soft_interrupt_for_session session_id content urgent source).
Proof. unfold queue_soft_interrupt_for_session. calm_solve. Qed.
Lemma calm_leave_plan swarm_id session_id : calm tx (remove_plan_participant swarm_id session_id).
Proof. unfold remove_plan_participant. calm_solve. Qed.
Lemma calm_replace swarm_id : calm tx (replace_coordinator swarm_id).
Proof. unfold replace_coordinator. calm_solve. Qed.
Lemma calm_requeue swarm_id req assignee task_id summary :
  calm tx (requeue_existing_assignment swarm_id req assignee task_id summary).
Proof. unfold requeue_existing_assignment. calm_solve. Qed.
Lemma calm_promote swarm_id session_id : calm tx (promote swarm_id session_id).
Proof. unfold promote. calm_solve. Qed.
Lemma calm_join_plan swarm_id req new : calm tx (join_plan swarm_id req new).
Proof. unfold join_plan. calm_solve. Qed.
Lemma calm_add_member member : calm tx (add_member member).
Proof. unfold add_member. calm_solve. Qed.
End calm_tasks.

#[export] Hint Resolve calm_status calm_plan calm_record_for calm_interrupt calm_leave_plan calm_replace
  calm_requeue calm_promote calm_join_plan calm_add_member : calm.

Section calm_handlers.
Context `{HashOrder} `{ServerCodec} `{RequestHash} (tx : Sender).

Lemma calm_system_interrupt session_id content : calm tx (queue_system_interrupt session_id content).
Proof. unfold queue_system_interrupt. calm_solve. Qed.
Lemma calm_leave session_id swarm_id : calm tx (remove_session_from_swarm session_id swarm_id).
Proof. unfold remove_session_from_swarm. calm_solve. Qed.
Lemma calm_remove_member session_id : calm tx (remove_member_of session_id).
Proof. unfold remove_member_of. pose proof calm_leave. calm_solve. Qed.
Lemma calm_announce req target swarm_id task_id content message participants :
  calm tx (announce_assignment req target swarm_id task_id content message participants).
Proof. unfold announce_assignment. pose proof calm_system_interrupt. calm_solve. Qed.
Lemma calm_run_message session_id message reminder :
  calm tx (run_message_in_live_session_if_idle session_id message reminder).
Proof. unfold run_message_in_live_session_if_idle. calm_solve. Qed.
Lemma calm_deliver_message from label message scope name channel mode session_id :
  calm tx (deliver_message from label message scope name channel mode session_id).
Proof.
  unfold deliver_message. pose proof calm_system_interrupt. pose proof calm_run_message. calm_solve.
Qed.
Lemma calm_deliver_messages from message scope name channel mode ids known targets :
  calm tx (deliver_messages from message scope name channel mode ids known targets).
Proof.
  induction targets as [|t targets IH]; cbn [deliver_messages]; [apply calm_ret|].
  pose proof calm_deliver_message. calm_solve.
Qed.
Lemma calm_apply_proposal req proposer swarm_id items :
  calm tx (apply_proposal req proposer swarm_id items).
Proof. unfold apply_proposal. pose proof calm_system_interrupt. calm_solve. Qed.

(** A new channel is not the client's. *)
Lemma calm_register_visible session_id swarm_id dir started owner event_tx :
  event_tx ≠ tx → calm tx (register_visible_spawned_member session_id swarm_id dir started owner event_tx).
Proof.
  intros Hne. unfold register_visible_spawned_member. apply calm_bind; [apply calm_now|]. intros now.
  destruct started; cbv zeta; calm_solve; apply calm_modify; intros s; split_and!; try done;
    unfold is_closed; cbn [sv_closed set_closed]; f_equal; apply bool_decide_ext; set_solver.
Qed.

Lemma calm_headless su dir owner : calm tx (create_headless_session su dir owner).
Proof. unfold create_headless_session. calm_solve. Qed.

Lemma calm_spawn_agent su req swarm_id dir message :
  su_event_tx su ≠ tx → calm tx (spawn_swarm_agent su req swarm_id dir message).
Proof.
  intros Hne. unfold spawn_swarm_agent, spawn_session. pose proof calm_headless.
  assert (∀ i g d b o, calm tx (register_visible_spawned_member i g d b o (su_event_tx su)))
    by (intros; by apply calm_register_visible).
  calm_solve.
Qed.
End calm_handlers.

#[export] Hint Resolve calm_system_interrupt calm_leave calm_remove_member calm_announce calm_run_message
  calm_deliver_message calm_deliver_messages calm_apply_proposal calm_headless calm_spawn_agent : calm.

(** ** Answering directly *)

Section replies.
Context `{HashOrder} `{ServerCodec} `{RequestHash}.
Context (id : u64) (tx : Sender).

(** An answer to the request. *)
Definition is_reply (e : Sender * ServerEvent) : Prop := e.1 = tx ∧ answer_id e.2 = Some id.

#[export] Instance is_reply_dec e : Decision (is_reply e).
Proof. unfold is_reply. apply _. Defined.

Definition line (s : Server) (key : string) : list (u64 * Sender) :=
  default [] (rt_waiters (sv_mutations s) !! key).

(** The computation sends exactly one answer to an open client, and nothing else
    happens to the requests. *)
Definition replies {A} (m : Srv A) : Prop := ∀ s, is_closed s tx = false →
  sv_mutations (m s).2 = sv_mutations s ∧ is_closed (m s).2 tx = false
  ∧ ∃ events, sv_sent (m s).2 = sv_sent s ++ events ∧ length (filter is_reply events) = 1.

Lemma silent_no_reply events : Forall (λ e, silent e.2) events → filter is_reply events = [].
Proof.
  intros Ha. induction Ha as [|e events He _ IH]; [done|]. rewrite filter_cons_False; [done|].
  intros [_ Hr]. unfold silent in He. congruence.
Qed.

Lemma replies_send event : answer_id event = Some id → replies (send_ tx event).
Proof.
  intros He s Ho. unfold send_, sbind, send. rewrite Ho. cbn. split_and!; [done|done|].
  exists [(tx, event)]. split; [done|]. rewrite filter_cons_True by done. done.
Qed.

Lemma replies_error message retry : replies (reply_error tx id message retry).
Proof. by apply replies_send. Qed.

Lemma calm_replies {A B} (m : Srv A) (k : A → Srv B) : calm tx m → (∀ x, replies (k x)) → replies (sbind m k).
Proof.
  intros (Hm & Hc & Hs) Hk s Ho. unfold sbind. specialize (Hm s). specialize (Hc s). destruct (Hs s) as (l1 & E1 & F1).
  cbn in Hc. destruct (m s) as [x s1]. cbn in *. destruct (Hk x s1) as (Hm2 & Hc2 & l2 & E2 & F2); [congruence|].
  rewrite Hm2, E2, E1. split_and!; [done|done|]. exists (l1 ++ l2). split; [by rewrite app_assoc|].
  rewrite filter_app, silent_no_reply by done. done.
Qed.

Lemma replies_calm {A B} (m : Srv A) (k : A → Srv B) : replies m → (∀ x, calm tx (k x)) → replies (sbind m k).
Proof.
  intros Hr Hk s Ho. unfold sbind. destruct (Hr s Ho) as (Hm & Hc & l1 & E1 & F1). destruct (m s) as [x s1]. cbn in *.
  destruct (Hk x) as (Hm2 & Hc2 & Hs2). specialize (Hm2 s1). specialize (Hc2 s1). cbn in Hc2.
  destruct (Hs2 s1) as (l2 & E2 & F2). rewrite Hm2, Hc2, E2, E1. split_and!; [done|done|].
  exists (l1 ++ l2). split; [by rewrite app_assoc|].
  rewrite filter_app, length_app, F1, silent_no_reply by done. done.
Qed.

(** ** Answering through the line of a change *)

(** Where a finished computation is: the line of the change was answered. *)
Definition finishes {A} (P : A → Prop) (state : PersistedSwarmMutationState) (m : Srv A) : Prop := ∀ s, P (m s).1 →
  ∃ response s1 events,
    sv_mutations s1 = sv_mutations s ∧ is_closed s1 tx = is_closed s tx
    ∧ sv_sent s1 = sv_sent s ++ events ∧ Forall (λ e, silent e.2) events
    ∧ (m s).2 = (finish_request state response s1).2.

Lemma finishes_finish P state response : finishes P state (finish_request state response).
Proof. intros s _. exists response, s, []. rewrite app_nil_r. by split_and!. Qed.

Lemma finishes_error P state message : finishes P state (finish_error state message).
Proof. apply finishes_finish. Qed.

Lemma finishes_ret {A B} (P : A → Prop) (Q : B → Prop) state (m : Srv B) (x : A) :
  finishes Q state m → (∀ y, Q y) → finishes P state (m ;~ sret x).
Proof. intros Hm HQ s _. destruct (Hm s (HQ _)) as (r & s1 & l & Hf). exists r, s1, l. unfold sbind. by destruct (m s). Qed.

Lemma finishes_bind {A B} P state (m : Srv A) (k : A → Srv B) :
  calm tx m → (∀ x, finishes P state (k x)) → finishes P state (sbind m k).
Proof.
  intros (Hm & Hc & Hs) Hk s. unfold sbind. specialize (Hm s). specialize (Hc s). destruct (Hs s) as (l1 & E1 & F1).
  destruct (m s) as [x s1]. cbn in *. intros HP. destruct (Hk x s1 HP) as (r & s2 & l2 & Hm2 & Hc2 & E2 & F2 & Hf).
  exists r, s2, (l1 ++ l2). split_and!; [congruence|congruence|by rewrite E2, E1, app_assoc|by apply Forall_app|done].
Qed.

Lemma answer_next response session_id w waiters s :
  answer_waiters response session_id (w :: waiters) s
  = answer_waiters response session_id waiters
      (if is_closed s w.2 then s
       else set_sent (sv_sent s ++ [(w.2, into_server_event response w.1 session_id)]) s).
Proof.
  unfold answer_waiters. cbn [for_each]. unfold send_, sbind, send, sret. by destruct (is_closed s w.2).
Qed.

(** What answering a line does. *)
Lemma answer_line response session_id waiters s :
  sv_mutations (answer_waiters response session_id waiters s).2 = sv_mutations s
  ∧ is_closed (answer_waiters response session_id waiters s).2 tx = is_closed s tx
  ∧ sv_sent (answer_waiters response session_id waiters s).2
    = sv_sent s ++ ((λ w, (w.2, into_server_event response w.1 session_id))
                      <$> filter (λ w, is_closed s w.2 = false) waiters).
Proof.
  revert s. induction waiters as [|w waiters IH]; intros s; [by rewrite app_nil_r|].
  rewrite answer_next, filter_cons. case_decide as E.
  - rewrite E. destruct (IH (set_sent (sv_sent s ++ [(w.2, into_server_event response w.1 session_id)]) s))
      as (I1 & I2 & I3).
    rewrite I1, I2, I3. split_and!; [done|done|]. cbn. by rewrite <- app_assoc.
  - apply not_false_is_true in E. rewrite E. apply IH.
Qed.

Lemma answer_line_replies response session_id waiters s :
  is_closed s tx = false →
  length (filter is_reply ((λ w, (w.2, into_server_event response w.1 session_id))
                      <$> filter (λ w, is_closed s w.2 = false) waiters))
  = length (filter (λ w, w = (id, tx)) waiters).
Proof.
  intros Ho. induction waiters as [|[i t] waiters IH]; [done|].
  assert (Ha : answer_id (into_server_event response i session_id) = Some i) by (by destruct response).
  rewrite (filter_cons (λ w, w = (id, tx))). case_decide as E.
  - injection E as -> ->. rewrite filter_cons_True by done. cbn [fmap list_fmap fst snd].
    rewrite filter_cons_True by done. cbn [length]. by rewrite IH.
  - rewrite filter_cons. case_decide as Ho2; [|done]. cbn [fmap list_fmap fst snd].
    rewrite filter_cons_False; [done|]. intros [E1 E2]. cbn in E1, E2. rewrite Ha in E2. congruence.
Qed.

(** [finish_request] as one step. *)
Definition taken (state : PersistedSwarmMutationState) (response : PersistedSwarmMutationResponse) (s : Server)
    : Server :=
  set_mutations {| rt_active_keys := rt_active_keys (sv_mutations s);
                   rt_waiters := delete (mu_key state) (rt_waiters (sv_mutations s)) |}
    (save_mutation_state (with_final_response state response) s).2.

Lemma finish_as_one state response s :
  (finish_request state response s).2
  = (clear_active (mu_key state)
       (answer_waiters response (mu_session_id state) (line s (mu_key state)) (taken state response s)).2).2.
Proof.
  unfold finish_request, sbind at 1. unfold persist_final_response, sbind at 1. cbn.
  unfold sbind at 1. cbn. unfold taken, line. cbn. fold (answer_waiters response (mu_session_id state)
    (default [] (rt_waiters (sv_mutations s) !! mu_key state))).
  by destruct (answer_waiters _ _ _ _).
Qed.

Lemma replies_of_line (l : list (u64 * Sender)) waiters :
  (id, tx) ∉ waiters → l = waiters ++ [(id, tx)] → length (filter (λ w, w = (id, tx)) l) = 1.
Proof.
  intros Hn ->. rewrite filter_app, length_app, (filter_cons_True (λ w, w = (id, tx))) by done. cbn.
  destruct (filter (λ w, w = (id, tx)) waiters) as [|w l] eqn:E; [done|]. exfalso. apply Hn.
  assert (w ∈ filter (λ w, w = (id, tx)) waiters) as Hw by (rewrite E; by left).
  apply list_elem_of_filter in Hw as [-> Hw]. done.
Qed.

Lemma finish_run state response s waiters :
  is_closed s tx = false → line s (mu_key state) = waiters ++ [(id, tx)] → (id, tx) ∉ waiters →
  (∀ k, k ≠ mu_key state → (id, tx) ∉ line s k) →
  let s' := (finish_request state response s).2 in
  (∃ events, sv_sent s' = sv_sent s ++ events ∧ length (filter is_reply events) = 1)
  ∧ ∀ k, (id, tx) ∉ line s' k.
Proof.
  intros Ho Hl Hn Hk. cbn zeta. rewrite finish_as_one. set (s2 := taken state response s).
  destruct (answer_line response (mu_session_id state) (line s (mu_key state)) s2) as (I1 & I2 & I3).
  pose proof (answer_line_replies response (mu_session_id state) (line s (mu_key state)) s2 Ho) as Hr.
  destruct (answer_waiters _ _ _ s2) as [[] s3]. cbn [snd] in *.
  unfold clear_active, on_mutations, modify. cbn [snd sv_sent set_mutations]. split.
  - eexists. split; [exact I3|]. rewrite Hr. by apply replies_of_line with waiters.
  - intros k. unfold line. cbn [sv_mutations set_mutations rt_waiters]. rewrite I1.
    change (rt_waiters (sv_mutations s2)) with (delete (mu_key state) (rt_waiters (sv_mutations s))).
    destruct (decide (k = mu_key state)) as [->|Hne]; [rewrite lookup_delete_eq; apply not_elem_of_nil|].
    rewrite lookup_delete_ne by done. by apply Hk.
Qed.

Lemma finish_keeps_closed state response : keeps (λ s, is_closed s tx) (finish_request state response).
Proof.
  intros s. rewrite finish_as_one.
  destruct (answer_line response (mu_session_id state) (line s (mu_key state)) (taken state response s)) as (_ & I2 & _).
  etrans; [|exact I2]. done.
Qed.

(** ** The files of a change *)

(** The keys of requests. *)
Definition is_key (key : string) : Prop :=
  ∃ session_id action components, key = hashed_request_key session_id action components.

(** What is stored for a change, and its backup. *)
Definition files_of (key : string) (s : Server) : string * option string * option string :=
  (sv_runtime_dir s, w_files (sv_world s) !! mutation_path s key,
   w_files (sv_world s) !! with_extension (mutation_path s key) "bak").

(** The files of a change are about that change. *)
Definition owns (key path : string) (f : gmap string string) : Prop := ∀ p text state,
  p ∈ [path; with_extension path "bak"] → f !! p = Some text → parse_mutation text = Some state →
  mu_key state = key.

Definition own_files (key : string) (s : Server) : Prop :=
  owns key (mutation_path s key) (w_files (sv_world s)).

Lemma own_files_keep key s s' : files_of key s' = files_of key s → own_files key s → own_files key s'.
Proof.
  unfold files_of, own_files, owns, mutation_path. intros [= Hr Hp Hb] Ho p text state Hin Hf Hparse.
  rewrite Hr in *. apply (Ho p text state Hin); [|done].
  apply elem_of_cons in Hin as [->|[->|[]%not_elem_of_nil]%elem_of_cons]; congruence.
Qed.

Lemma owns_delete key path p f : owns key path f → owns key path (delete p f).
Proof. intros Ho p' text state Hin [_ Hf]%lookup_delete_Some. by apply (Ho p'). Qed.

Lemma owns_copy key path p text f :
  owns key path f → p ∈ [path; with_extension path "bak"] → f !! p = Some text →
  owns key path (<[path := text]> f).
Proof.
  intros Ho Hp Ht p' text' state Hin [[<- <-]|[_ Hf]]%lookup_insert_Some; [by apply (Ho p)|by apply (Ho p')].
Qed.

Lemma wp_read path (Q : string → gmap string string → Prop) (E : gmap string string → Prop) w :
  E (w_files w) → (∀ text, w_files w !! path = Some text → Q text (w_files w)) →
  wp (read_to_string path) Q E w.
Proof.
  intros He Hq. apply wp_call; [done|]. intros w' Hw'. unfold wp. rewrite Hw'.
  destruct (w_files w !! path) as [text|] eqn:Ef; cbn; [|by rewrite Hw'].
  destruct (utf8_valid text); rewrite Hw'; auto.
Qed.

Lemma wp_copy from to (Q : unit → gmap string string → Prop) (E : gmap string string → Prop) w :
  E (w_files w) → (∀ text, w_files w !! from = Some text → Q () (<[to := text]> (w_files w))) →
  wp (copy_file from to) Q E w.
Proof.
  intros He Hq. apply wp_call; [done|]. intros w' Hw'. unfold wp. rewrite Hw'.
  destruct (w_files w !! from) eqn:Ef; cbn; rewrite Hw'; auto.
Qed.

(** Reading the state of a change gives a state of that change. *)
Lemma read_own key path w :
  owns key path (w_files w) →
  wp (read_json parse_mutation path) (λ state f, mu_key state = key ∧ owns key path f) (owns key path) w.
Proof.
  intros Ho. unfold read_json. set (bak := with_extension path "bak").
  apply (wp_seq (λ text f, owns key path f ∧ f !! path = Some text)); [by apply wp_read|].
  intros text w1 [Ho1 Ht1]. destruct (parse_mutation text) as [state|] eqn:Ep.
  { apply wp_ret. split; [|done]. apply (Ho1 path text); [by left|done|done]. }
  apply (wp_seq (λ _, owns key path)); [by apply wp_exists|]. intros [] w2 Ho2; [|done].
  apply (wp_seq (λ text f, owns key path f ∧ f !! bak = Some text)); [by apply wp_read|].
  intros btext w3 [Ho3 Ht3]. destruct (parse_mutation btext) as [state|] eqn:Ebp; [|done].
  assert (Hk : mu_key state = key).
  { apply (Ho3 bak btext); [right; by left|done|done]. }
  apply (wp_seq (λ _, owns key path)).
  - apply wp_ignore, wp_copy; [done|]. intros ? E. apply (owns_copy key path bak); [done|right; by left|done].
  - intros _ w4 Ho4. by apply wp_ret.
Qed.

Lemma load_own key s :
  own_files key s →
  (∀ state, (load_mutation_state key s).1 = Some state → mu_key state = key)
  ∧ own_files key (load_mutation_state key s).2.
Proof.
  intros Ho. pose proof (read_own key (mutation_path s key) (sv_world s) Ho) as Hr.
  unfold load_mutation_state, load_json_state, wp in *. unfold own_files.
  destruct (read_json parse_mutation _ (sv_world s)) as [[state|] w]; [|by split].
  destruct Hr as [Hk Hw]. destruct (mutation_is_stale _ _); cbn [fst snd]; split.
  - done.
  - assert (wp (io_ignore (remove_file (mutation_path s key))) (λ _, owns key (mutation_path s key))
              (owns key (mutation_path s key)) w) as Hd.
    { apply wp_ignore, wp_remove; [done|]. by apply owns_delete. }
    exact Hd.
  - by intros ? [= <-].
  - done.
Qed.

(** ** Paths *)

#[local] Arguments String.append !_ _ / : simpl nomatch.

Lemma rsplit_at_within x name :
  ∃ a b, rsplit_at slash (x +:+ String slash name) = Some (x +:+ String slash a, b).
Proof.
  induction x as [|c x (a & b & IH)]; cbn.
  - destruct (rsplit_at slash name) as [[a b]|]; [by exists a, b|]. by exists "", name.
  - rewrite IH. by exists a, b.
Qed.

Lemma ext_within x name ext : ∃ rest, with_extension (x +:+ "/" +:+ name) ext = x +:+ "/" +:+ rest.
Proof.
  unfold with_extension, with_file_name, path_split. destruct (rsplit_at_within x name) as (a & b & E).
  change ("/" +:+ name) with (String slash name). rewrite E. cbn [default fst snd].
  unfold Datatypes.id. cbn [fst snd]. eexists. by rewrite str_app_assoc.
Qed.

Lemma key_plain key : is_key key → starts_with "/" (key +:+ ".json") = false.
Proof.
  intros (session_id & action & components & ->). unfold hashed_request_key.
  pose proof (sanitized_chars session_id slash eq_refl ltac:(done)) as Hs.
  destruct (sanitize_session_id session_id) as [|b s]; [done|]. cbn in Hs |- *.
  apply orb_false_iff in Hs as [Hb _]. apply Ascii.eqb_neq in Hb.
  change ((Ascii.eqb slash b && true) = false). rewrite andb_true_r.
  apply Ascii.eqb_neq. congruence.
Qed.

(** The files of a directory of the server. *)
Definition within (runtime_dir last path : string) : Prop :=
  ∃ rest, path = path_join runtime_dir last +:+ "/" +:+ rest.

Lemma within_apart runtime_dir p q :
  within runtime_dir SWARM_STATE_DIR p → within runtime_dir SWARM_MUTATION_DIR q → q ≠ p.
Proof.
  intros [a ->] [b ->] E. unfold path_join in E. change (starts_with "/" SWARM_MUTATION_DIR) with false in E.
  change (starts_with "/" SWARM_STATE_DIR) with false in E.
  destruct (_ || _); rewrite !(str_app_assoc runtime_dir) in E; apply str_app_inj_l in E; discriminate.
Qed.

Lemma within_files runtime_dir last name p :
  starts_with "/" last = false → last ≠ "" → char_in slash last = false → starts_with "/" name = false →
  let path := path_join (path_join runtime_dir last) name in
  p = path ∨ (∃ ext, p = with_extension path ext) → within runtime_dir last p.
Proof.
  intros Hl Hne Hs Hn. cbn zeta. rewrite path_join_dir by done. intros [->|[ext ->]]; [by exists name|].
  destruct (ext_within (path_join runtime_dir last) name ext) as [rest E]. by exists rest.
Qed.

Lemma within_mutations s key p :
  is_key key → p ∈ [mutation_path s key; with_extension (mutation_path s key) "bak"] →
  within (sv_runtime_dir s) SWARM_MUTATION_DIR p.
Proof.
  intros Hk Hin. apply (within_files _ _ (key +:+ ".json")); [done|done|done|by apply key_plain|].
  apply elem_of_cons in Hin as [->|[->|[]%not_elem_of_nil]%elem_of_cons]; [by left|right; by eexists].
Qed.

Lemma within_states runtime_dir swarm_id suffix p :
  let path := swarm_state_path runtime_dir swarm_id in
  p ∈ [path; with_extension path ("tmp." +:+ suffix); with_extension path "bak"] →
  within runtime_dir SWARM_STATE_DIR p.
Proof.
  cbn zeta. intros Hin.
  apply (within_files _ _ (sanitize_session_id swarm_id +:+ ".json")); [done|done|done|apply file_name_plain|].
  set_unfold in Hin. destruct Hin as [->|[->|[->|[]]]]; [by left|right; by eexists..].
Qed.

(** ** What leaves the changes alone *)

(** Writing the state of a swarm leaves the files of changes alone. *)
Lemma persist_aside s swarm_id plan coordinator members q :
  within (sv_runtime_dir s) SWARM_MUTATION_DIR q →
  w_files (persist_swarm_state (sv_now s) (sv_runtime_dir s) (sv_tmp_suffix s) swarm_id plan coordinator
             members (sv_world s)) !! q = w_files (sv_world s) !! q.
Proof.
  intros Hq. set (path := swarm_state_path (sv_runtime_dir s) swarm_id).
  assert (Hn : q ∉ [path; with_extension path ("tmp." +:+ sv_tmp_suffix s); with_extension path "bak"]).
  { intros Hin. apply within_states in Hin. by apply (within_apart _ _ _ Hin Hq). }
  destruct (json_files_apart (sv_runtime_dir s) swarm_id (sv_tmp_suffix s)) as (Htp & Hbp & Htb).
  unfold persist_swarm_state. case_match; fold path.
  - apply (touches_ignore [path] _ (io_touches_remove [path] path (list_elem_of_here _ _))). set_solver.
  - apply (touches_ignore _ _ (write_bytes_inner_touches (sv_tmp_suffix s) path false Htp Hbp Htb _)). done.
Qed.

Lemma persist_keeps_files key swarm_id : is_key key → keeps (files_of key) (persist_swarm_state_for swarm_id).
Proof.
  intros Hk s. unfold persist_swarm_state_for, on_world, modify, files_of, mutation_path.
  cbn [snd set_world sv_runtime_dir sv_world]. cbv zeta.
  rewrite !persist_aside by (apply (within_mutations s key); [done|set_solver]). done.
Qed.

Definition quiet {A} (m : Srv A) : Prop := calm tx m ∧ ∀ key, is_key key → keeps (files_of key) m.

(** The request is new, and the files of changes are in order. *)
Definition ready (s : Server) : Prop :=
  is_closed s tx = false ∧ (∀ key, (id, tx) ∉ line s key) ∧ ∀ key, is_key key → own_files key s.

Lemma quiet_ready {A} (m : Srv A) s : quiet m → ready s → ready (m s).2.
Proof.
  intros ((Hm & Hc & _) & Hf) (Ho & Hl & Hw). specialize (Hm s). specialize (Hc s). cbn in Hc. split_and!.
  - congruence.
  - intros key. unfold line. rewrite Hm. apply Hl.
  - intros key Hk. apply (own_files_keep key s); [by apply Hf|by apply Hw].
Qed.

(** One answer was sent, and the request stands in no line; or it was not
    answered, and stands in the line of a change that is being worked on. *)
Definition handled (s s' : Server) : Prop :=
  ∃ events, sv_sent s' = sv_sent s ++ events
    ∧ (length (filter is_reply events) = 1 ∧ (∀ key, (id, tx) ∉ line s' key)
       ∨ filter is_reply events = []
         ∧ ∃ key, key ∈ rt_active_keys (sv_mutations s) ∧ (id, tx) ∈ line s' key).

Definition handles {A} (P : A → Prop) (m : Srv A) : Prop :=
  ∀ s, ready s → P (m s).1 → handled s (m s).2.

Lemma handles_panic {A} (P : A → Prop) (m : Srv A) : (∀ s, ¬ P (m s).1) → handles P m.
Proof. intros Hp s _ Hs. by destruct (Hp s). Qed.

Lemma handles_replies {A} (P : A → Prop) (m : Srv A) : replies m → handles P m.
Proof.
  intros Hr s (Ho & Hl & _) _. destruct (Hr s Ho) as (Hm & _ & events & E & F). exists events.
  split; [done|]. left. split; [done|]. intros key. unfold line. rewrite Hm. apply Hl.
Qed.

Lemma handled_after s s1 s2 l1 :
  sv_mutations s1 = sv_mutations s → sv_sent s1 = sv_sent s ++ l1 → Forall (λ e, silent e.2) l1 →
  handled s1 s2 → handled s s2.
Proof.
  intros Hm E1 F1 (l2 & E2 & Hd). exists (l1 ++ l2). rewrite E2, E1, <- app_assoc. split; [done|].
  rewrite filter_app, silent_no_reply by done. cbn [app]. by rewrite <- Hm.
Qed.

Lemma handles_calm {A B} (P : B → Prop) (m : Srv A) (k : A → Srv B) :
  calm tx m → (∀ x, replies (k x) ∨ ∀ s, ¬ P (k x s).1) → handles P (sbind m k).
Proof.
  intros Hc Hk s (Ho & Hl & _) HP. assert (Hr : ∀ x s1, x = (m s).1 → s1 = (m s).2 → is_closed s1 tx = false →
    sv_mutations s1 = sv_mutations s → P (k x s1).1 →
    sv_mutations (k x s1).2 = sv_mutations s ∧ ∃ events, sv_sent (k x s1).2 = sv_sent s1 ++ events
      ∧ length (filter is_reply events) = 1).
  { intros x s1 -> -> Ho1 Hm1 HP1. destruct (Hk (m s).1) as [Hr|Hp]; [|by destruct (Hp _ HP1)].
    destruct (Hr _ Ho1) as (Hm2 & _ & events & E & F). split; [congruence|]. by exists events. }
  destruct Hc as (Hm & Hc & Hs). specialize (Hm s). specialize (Hc s). cbn in Hc. destruct (Hs s) as (l1 & E1 & F1).
  unfold sbind in *. destruct (m s) as [x s1]. cbn in *.
  destruct (Hr x s1) as (Hm2 & l2 & E2 & F2); [done|done|congruence|done|done|].
  eapply (handled_after s s1); [done|done|done|]. exists l2. split; [done|]. left. split; [done|].
  intros key. unfold line. rewrite Hm2. apply Hl.
Qed.

Lemma handles_bind {A B} (P : B → Prop) (m : Srv A) (k : A → Srv B) :
  quiet m → (∀ x, handles P (k x)) → handles P (sbind m k).
Proof.
  intros Hq Hk s Hs. unfold sbind. pose proof (quiet_ready m s Hq Hs) as Hr.
  destruct Hq as ((Hm & Hc & Hsl) & _). specialize (Hm s). destruct (Hsl s) as (l1 & E1 & F1).
  destruct (m s) as [x s1]. cbn in *. intros HP. by eapply handled_after, Hk.
Qed.

Lemma handles_ret {A B} (P : A → Prop) (m : Srv B) (x : A) :
  handles (λ _, True) m → handles P (m ;~ sret x).
Proof. intros Hm s Hs _. specialize (Hm s Hs I). unfold sbind. by destruct (m s). Qed.

(** A check answers and gives nothing, or sends no answer. *)
Definition checks {A} (m : Srv (option A)) : Prop := ∀ s, ready s →
  match (m s).1 with
  | None => handled s (m s).2
  | Some _ => ready (m s).2 ∧ sv_mutations (m s).2 = sv_mutations s
              ∧ ∃ l, sv_sent (m s).2 = sv_sent s ++ l ∧ Forall (λ e, silent e.2) l
  end.

Lemma handles_check {A B} (P : B → Prop) (m : Srv (option A)) (k : option A → Srv B) :
  checks m → (∀ s, (k None s).2 = s) → (∀ x, handles P (k (Some x))) → handles P (sbind m k).
Proof.
  intros Hm Hn Hk s Hs. specialize (Hm s Hs). unfold sbind. destruct (m s) as [[x|] s1]; cbn in *.
  - destruct Hm as (Hr & Em & l & E & F). intros HP. by eapply handled_after, Hk.
  - intros _. by rewrite Hn.
Qed.

Lemma checks_bind {A B} (m : Srv A) (k : A → Srv (option B)) :
  quiet m → (∀ x, checks (k x)) → checks (sbind m k).
Proof.
  intros Hq Hk s Hs. unfold sbind. pose proof (quiet_ready m s Hq Hs) as Hr.
  destruct Hq as ((Hm & Hc & Hsl) & _). specialize (Hm s). destruct (Hsl s) as (l1 & E1 & F1).
  destruct (m s) as [x s1]. cbn in *. specialize (Hk x s1 Hr). destruct (k x s1) as [[y|] s2]; cbn in *.
  - destruct Hk as (Hr2 & Em2 & l2 & E2 & F2). split_and!; [done|congruence|]. exists (l1 ++ l2).
    rewrite E2, E1, app_assoc. split; [done|]. by apply Forall_app.
  - by eapply handled_after.
Qed.

Lemma checks_some {A} (x : A) : checks (sret (Some x)).
Proof. intros s Hs. cbn. split_and!; [done..|]. exists []. by rewrite app_nil_r. Qed.

Lemma checks_none {A} (m : Srv unit) : replies m → checks (A := A) (m ;~ sret None).
Proof.
  intros Hr s Hs. pose proof (handles_replies (λ _, True) m Hr s Hs I) as Hh. unfold sbind. by destruct (m s).
Qed.

(** ** Starting a change *)

Lemma load_world key s : ∃ w, (load_mutation_state key s).2 = set_world w s.
Proof. unfold load_mutation_state. destruct (load_json_state _ _ _ _) as [st w]. by exists w. Qed.

Lemma ensure_world key action session_id s :
  own_files key s →
  mu_key (ensure_pending_state key action session_id s).1 = key
  ∧ ∃ w, (ensure_pending_state key action session_id s).2 = set_world w s.
Proof.
  intros Ho. destruct (load_own key s Ho) as [Hk _]. destruct (load_world key s) as [w Hw].
  assert (Hrun : ∀ B C (m : Srv B) (k : B → Srv C), (sbind m k) s = let (x, s1) := m s in k x s1) by done.
  unfold ensure_pending_state. rewrite Hrun. clear Hrun. destruct (load_mutation_state key s) as [[state|] s1]; cbn in *.
  - split; [by apply Hk|]. subst s1. by exists w.
  - split; [done|]. subst s1. eexists. unfold save_mutation_state, modify, sbind. cbn. done.
Qed.

(** The outcome of [begin_or_replay]: answered at once, in the line of another
    request, or at the head of a new line. *)
Lemma begin_run key action session_id s :
  is_key key → ready s →
  let '(begun, s') := begin_or_replay key action session_id id tx s in
  match begun with
  | None => handled s s'
  | Some state =>
      mu_key state = key ∧ is_closed s' tx = false ∧ sv_sent s' = sv_sent s
      ∧ line s' key = line s key ++ [(id, tx)] ∧ ∀ k, k ≠ key → line s' k = line s k
  end.
Proof.
  intros Hk (Ho & Hl & Hw). specialize (Hw key Hk). unfold begin_or_replay, sbind at 1.
  unfold replay_stored, sbind at 1. destruct (load_own key s Hw) as [_ Hown]. destruct (load_world key s) as [w Ew].
  destruct (load_mutation_state key s) as [st s1]. cbn [snd] in Ew, Hown. subst s1.
  destruct (st ≫= mu_final_response) as [response|].
  { unfold sbind at 1, send_, sbind at 1, send. change (is_closed (set_world w s) tx) with (is_closed s tx). rewrite Ho. cbn.
    exists [(tx, into_server_event response id session_id)]. split; [done|]. left. split; [|done].
    rewrite filter_cons_True; [done|]. split; [done|]. apply answer_id_event. }
  unfold sret at 1, sbind at 1, add_waiter, on_mutations, modify. cbn [negb].
  set (s2 := set_mutations _ (set_world w s)).
  assert (Hline : line s2 key = line s key ++ [(id, tx)] ∧ ∀ k, k ≠ key → line s2 k = line s k).
  { unfold line. cbn. split; [by rewrite lookup_insert_eq|]. intros k Hne. by rewrite lookup_insert_ne. }
  assert (Ho2 : own_files key s2) by exact Hown. assert (E2 : sv_sent s2 = sv_sent s) by done.
  assert (A2 : rt_active_keys (sv_mutations s2) = rt_active_keys (sv_mutations s)) by done.
  assert (C2 : is_closed s2 tx = false) by done. clearbody s2. clear Hown.
  unfold mark_active_if_new, sbind at 1, sbind at 1, gets. unfold on_mutations, modify, sbind at 1, sret at 1.
  set (s3 := set_mutations _ s2). case_bool_decide as Ha; cbn [negb].
  - cbn. exists []. rewrite app_nil_r. split; [done|]. right. split; [done|]. exists key.
    rewrite <- A2. split; [done|]. change (line s3 key) with (line s2 key). rewrite (proj1 Hline). set_solver.
  - unfold sbind. assert (Ho3 : own_files key s3) by exact Ho2.
    destruct (ensure_world key action session_id s3 Ho3) as [Hst [w3 E3]].
    destruct (ensure_pending_state _ _ _ s3) as [state s4]. cbn in Hst, E3 |- *. subst s4.
    split; [done|]. split; [exact C2|]. split; [exact E2|]. exact Hline.
Qed.

Lemma handles_begin {A} (P : A → Prop) key action session_id (k : option PersistedSwarmMutationState → Srv A) :
  is_key key → (∀ s, (k None s).2 = s) →
  (∀ state, mu_key state = key → finishes P state (k (Some state))) →
  handles P (sbind (begin_or_replay key action session_id id tx) k).
Proof.
  intros Hk Hn Hs s Hr. unfold sbind. pose proof (begin_run key action session_id s Hk Hr) as Hb.
  destruct (begin_or_replay _ _ _ _ _ s) as [[state|] s1]; [|intros _; by rewrite Hn].
  destruct Hb as (Ek & Ho & Es & El & En). intros HP.
  destruct (Hs state Ek s1 HP) as (response & s2 & events & Hm & Hc & E2 & F2 & ->).
  destruct Hr as (_ & Hl & _).
  assert (Hline : ∀ k, line s2 k = line s1 k) by (intros ?; unfold line; by rewrite Hm).
  edestruct (finish_run state response s2 (line s key)) as [(l & El2 & Hone) Hgone].
  - by rewrite Hc.
  - by rewrite Hline, Ek.
  - apply Hl.
  - intros k' Hne. rewrite Hline, En by congruence. apply Hl.
  - exists (events ++ l). rewrite El2, E2, Es, app_assoc. split; [done|]. left.
    rewrite filter_app, silent_no_reply by done. done.
Qed.

Lemma is_key_of session_id action components : is_key (hashed_request_key session_id action components).
Proof. by exists session_id, action, components. Qed.

(** ** The handlers *)

Lemma replies_when_some {A} (o : option A) (f : A → Srv unit) :
  is_Some o → (∀ x, replies (f x)) → replies (when_some o f).
Proof. intros [x ->] Hf. apply Hf. Qed.

Lemma quiet_gets {A} (f : Server → A) : quiet (gets f).
Proof. split; [apply calm_gets|]. by intros. Qed.

Lemma handles_when_some {A} P (m : Srv (option A)) (f : A → Srv unit) :
  checks m → (∀ x, handles P (f x)) → handles P (o <~ m; when_some o f).
Proof. intros Hm Hf. by apply handles_check. Qed.

Lemma begin_when_some P key action session_id (f : PersistedSwarmMutationState → Srv unit) :
  is_key key → (∀ state, mu_key state = key → finishes P state (f state)) →
  handles P (o <~ begin_or_replay key action session_id id tx; when_some o f).
Proof. intros Hk Hf. by apply handles_begin. Qed.
End replies.

(** Solves a goal [replies id tx m] by walking through [m]. *)
Ltac replies_solve :=
  repeat (match goal with
  | |- replies _ _ (reply_error _ _ _ _) => apply replies_error
  | |- replies _ _ (send_ _ _) => apply replies_send; reflexivity
  | |- replies _ _ (sbind (reply_error _ _ _ _) _) => apply replies_calm; [apply replies_error|intros ?; calm_solve]
  | |- replies _ _ (sbind (send_ _ _) _) => apply replies_calm; [apply replies_send; reflexivity|intros ?; calm_solve]
  | |- replies _ _ (sbind _ _) => apply calm_replies; [calm_solve|intros ?]
  | |- replies _ _ (let _ := _ in _) => cbv zeta
  | |- replies _ _ (match ?x with _ => _ end) => destruct x
  | |- replies _ _ _ => solve [eauto with replies]
  end).

(** The same for [finishes]. *)
Ltac finishes_solve :=
  repeat (match goal with
  | |- finishes _ _ _ (finish_error _ _) => apply finishes_error
  | |- finishes _ _ _ (finish_request _ _) => apply finishes_finish
  | |- finishes _ _ _ (sbind (finish_request _ _) _) =>
      apply (finishes_ret _ _ (λ _, True)); [apply finishes_finish|done]
  | |- finishes _ _ _ (sbind _ _) => apply finishes_bind; [calm_solve|intros ?]
  | |- finishes _ _ _ (let _ := _ in _) => cbv zeta
  | |- finishes _ _ _ (match ?x with _ => _ end) => destruct x
  end).

(** The same for [handles] and [checks]. *)
Ltac handles_solve :=
  repeat (match goal with
  | |- handles _ _ _ (sbind (gets _) _) => apply handles_bind; [apply quiet_gets|intros ?]
  | |- checks _ _ (sbind (gets _) _) => apply checks_bind; [apply quiet_gets|intros ?]
  | |- checks _ _ (sbind (reply_error _ _ _ _) _) => apply checks_none, replies_error
  | |- checks _ _ (sret (Some _)) => apply checks_some
  | |- handles _ _ _ (sbind (begin_or_replay _ _ _ _ _) (λ o, when_some o _)) =>
      apply begin_when_some; [apply is_key_of|intros ? ?; finishes_solve]
  | |- handles _ _ _ (sbind _ (λ o, when_some o _)) => apply handles_when_some; [solve [eauto with handles]|intros ?]
  | |- _ _ _ (let _ := _ in _) => cbv zeta
  | |- _ _ _ _ (let _ := _ in _) => cbv zeta
  | |- handles _ _ _ (match ?x with _ => _ end) => destruct x
  | |- checks _ _ (match ?x with _ => _ end) => destruct x
  | |- handles _ _ _ _ => solve [eauto with handles]
  | |- handles _ _ _ _ => apply handles_replies; solve [replies_solve]
  end).

Create HintDb handles.
Create HintDb replies.

Section handling.
Context `{HashOrder} `{ServerCodec} `{RequestHash} (id : u64) (tx : Sender).

Lemma require_checks req text : checks id tx (require_coordinator_swarm id req text tx).
Proof. unfold require_coordinator_swarm. handles_solve. Qed.

Lemma share_replies req key value append : replies id tx (handle_comm_share id req key value append tx).
Proof. unfold handle_comm_share. replies_solve. Qed.
Lemma read_replies req key : replies id tx (handle_comm_read id req key tx).
Proof. unfold handle_comm_read. replies_solve. Qed.
Lemma list_replies req : replies id tx (handle_comm_list id req tx).
Proof. unfold handle_comm_list. replies_solve. Qed.
Lemma list_channels_replies req : replies id tx (handle_comm_list_channels id req tx).
Proof. unfold handle_comm_list_channels. replies_solve. Qed.
Lemma channel_members_replies req channel : replies id tx (handle_comm_channel_members id req channel tx).
Proof. unfold handle_comm_channel_members. replies_solve. Qed.
Lemma subscribe_replies req channel : replies id tx (handle_comm_subscribe_channel id req channel tx).
Proof. unfold handle_comm_subscribe_channel, change_channel. replies_solve. Qed.
Lemma unsubscribe_replies req channel : replies id tx (handle_comm_unsubscribe_channel id req channel tx).
Proof. unfold handle_comm_unsubscribe_channel, change_channel. replies_solve. Qed.
Lemma summary_replies req target limit : replies id tx (handle_comm_summary id req target limit tx).
Proof. unfold handle_comm_summary. replies_solve. Qed.
Lemma plan_status_replies req : replies id tx (handle_comm_plan_status id req tx).
Proof. unfold handle_comm_plan_status. replies_solve. Qed.
Lemma resync_replies req : replies id tx (handle_comm_resync_plan id req tx).
Proof. unfold handle_comm_resync_plan. replies_solve. Qed.
Lemma propose_replies req items : replies id tx (handle_comm_propose_plan id req items tx).
Proof. unfold handle_comm_propose_plan, update_plan_directly, propose_to_coordinator. replies_solve. Qed.
Lemma start_replies req action task swarm_id assignee snapshot message :
  replies id tx (control_start id req action task swarm_id assignee snapshot message tx).
Proof. unfold control_start. replies_solve. Qed.

Lemma message_handles req message to channel delivery wake :
  handles id tx is_Some (handle_comm_message id req message to channel delivery wake tx).
Proof.
  unfold handle_comm_message. handles_solve. apply handles_calm; [calm_solve|].
  intros [[]|]; [left; replies_solve|right; by intros s' [? [=]]].
Qed.

(** ** The handlers of changes *)

Lemma assign_role_handles P req target role : handles id tx P (handle_comm_assign_role id req target role tx).
Proof. unfold handle_comm_assign_role. handles_solve. Qed.
Lemma assign_task_handles P req target task message :
  handles id tx P (handle_comm_assign_task id req target task message tx).
Proof. unfold handle_comm_assign_task, perform_assignment. pose proof require_checks. handles_solve. Qed.
Lemma approve_handles P req proposer : handles id tx P (handle_comm_approve_plan id req proposer tx).
Proof. unfold handle_comm_approve_plan. pose proof require_checks. handles_solve. Qed.
Lemma reject_handles P req proposer reason : handles id tx P (handle_comm_reject_plan id req proposer reason tx).
Proof. unfold handle_comm_reject_plan. pose proof require_checks. handles_solve. Qed.
Lemma move_handles P req action task assignee snapshot target message :
  handles id tx P (control_move id req action task assignee snapshot target message tx).
Proof. unfold control_move. pose proof (assign_task_handles P). handles_solve. Qed.
Lemma control_task_handles P req action task swarm_id target message :
  handles id tx P (control_task id req action task swarm_id target message tx).
Proof.
  unfold control_task. pose proof (assign_task_handles P). pose proof (move_handles P). pose proof start_replies.
  handles_solve.
Qed.
Lemma task_control_handles P req action task target message :
  handles id tx P (handle_comm_task_control id req action task target message tx).
Proof.
  unfold handle_comm_task_control. pose proof require_checks. pose proof (control_task_handles P). handles_solve.
Qed.

(** ** Before a change begins *)

Lemma quiet_bind {A B} (m : Srv A) (k : A → Srv B) : quiet tx m → (∀ x, quiet tx (k x)) → quiet tx (sbind m k).
Proof.
  intros [Hc Hf] Hk. split; [apply calm_bind; [done|]; intros x; apply Hk|]. intros key Hkey.
  apply keeps_bind; [by apply Hf|]. intros x. by apply Hk.
Qed.

(** The disk of the server. *)
Definition disk (s : Server) : string * World := (sv_runtime_dir s, sv_world s).

Lemma quiet_disk {A} (m : Srv A) : calm tx m → keeps disk m → quiet tx m.
Proof.
  intros Hc Hw. split; [done|]. intros key _ s. specialize (Hw s). unfold disk in Hw. injection Hw as Hr Hw.
  unfold files_of, mutation_path. by rewrite Hr, Hw.
Qed.

Lemma quiet_persist swarm_id : quiet tx (persist_swarm_state_for swarm_id).
Proof. split; [apply calm_persist|]. intros key. apply persist_keeps_files. Qed.

Lemma disk_fanout session_id event : keeps disk (fanout_ session_id event).
Proof.
  unfold fanout_, fanout_session_event, on_members, on_swarm.
  keeps_solve. induction (_ : list Sender) as [|t l IH]; cbn [deliver]; keeps_solve.
Qed.

Lemma disk_status_now ids : keeps disk (broadcast_swarm_status_now ids).
Proof. unfold broadcast_swarm_status_now. pose proof disk_fanout. keeps_solve. Qed.

Lemma disk_status swarm_id : keeps disk (broadcast_swarm_status swarm_id).
Proof. unfold broadcast_swarm_status. pose proof disk_status_now. keeps_solve. Qed.

Lemma disk_plan swarm_id reason : keeps disk (broadcast_swarm_plan swarm_id reason).
Proof.
  unfold broadcast_swarm_plan, broadcast_swarm_plan_with_previous, notify_member, get_members, get_plans, send_. keeps_solve.
Qed.

Lemma disk_promote swarm_id session_id : keeps disk (promote swarm_id session_id).
Proof. unfold promote, update_member, on_members, on_coordinators, on_swarm. keeps_solve. Qed.

Lemma disk_record session_id event : keeps disk (record_swarm_event_for_session session_id event).
Proof. unfold record_swarm_event_for_session, record_swarm_event. keeps_solve. Qed.

Lemma disk_add_member member : keeps disk (add_member member).
Proof. unfold add_member, on_members, on_swarms, on_swarm. keeps_solve. Qed.

Lemma disk_join swarm_id req new : keeps disk (join_plan swarm_id req new).
Proof. unfold join_plan, on_plans, on_swarm. keeps_solve. Qed.

Lemma disk_headless su dir owner : keeps disk (create_headless_session su dir owner).
Proof.
  unfold create_headless_session, register_session_interrupt_queue. pose proof disk_add_member. pose proof disk_status.
  unfold now_unix_ms. keeps_solve.
Qed.

Lemma disk_register session_id swarm_id dir started owner event_tx :
  keeps disk (register_visible_spawned_member session_id swarm_id dir started owner event_tx).
Proof.
  unfold register_visible_spawned_member, now_unix_ms. pose proof disk_add_member. pose proof disk_status.
  pose proof disk_record. keeps_solve.
Qed.

(** Preparing a session for a window writes nothing about changes, and the new
    channel of a member is not the client's. *)
Definition proper (su : Surroundings) : Prop :=
  su_event_tx su ≠ tx
  ∧ ∀ runtime_dir w path, within runtime_dir SWARM_MUTATION_DIR path →
      w_files (su_launch_visible su w).2 !! path = w_files w !! path.

Lemma quiet_launch su : proper su → quiet tx (run_io (su_launch_visible su)).
Proof.
  intros [_ Ha]. split; [apply calm_run_io|]. intros key Hk s. unfold run_io, files_of, mutation_path.
  pose proof (Ha (sv_runtime_dir s) (sv_world s)) as Hw. destruct (su_launch_visible su (sv_world s)) as [r w].
  cbn [snd set_world sv_runtime_dir sv_world] in *.
  rewrite !Hw by (apply (within_mutations s key); [done|set_solver]). done.
Qed.

Lemma quiet_spawn su req swarm_id dir message :
  proper su → quiet tx (spawn_swarm_agent su req swarm_id dir message).
Proof.
  intros Hp. unfold spawn_swarm_agent, spawn_session.
  assert (∀ A B (m : Srv A) (k : A → Srv B), quiet tx m → (∀ x, quiet tx (k x)) → quiet tx (sbind m k)) as Hb
    by (intros; by apply quiet_bind).
  assert (∀ A (x : A), quiet tx (sret x)) as Hret by (intros A x; by apply quiet_disk; [apply calm_ret|]).
  apply Hb; [apply quiet_gets|]. intros wd. cbv zeta. apply Hb.
  { apply Hb; [by apply quiet_launch|].
    assert (∀ own, quiet tx (create_headless_session su wd own))
      by (intros own; apply quiet_disk; [apply calm_headless|apply disk_headless]).
    intros [[i []]|]; [apply Hret|by apply Hb..]. }
  intros [[i visible]|]; [|apply Hret].
  apply Hb; [apply quiet_disk; [apply calm_join_plan|apply disk_join]|]. intros _.
  apply Hb; [apply quiet_disk; [apply calm_plan|apply disk_plan]|]. intros _.
  apply Hb.
  { destruct visible; [|apply Hret]. apply quiet_disk; [|apply disk_register].
    apply calm_register_visible, Hp. }
  intros _. apply Hb; [apply quiet_persist|]. intros _. apply Hb; [|intros _; apply Hret].
  apply quiet_disk; [calm_solve|]. pose proof disk_record. keeps_solve.
Qed.

Lemma ensure_checks req text : checks id tx (ensure_spawn_coordinator_swarm id req text tx).
Proof.
  unfold ensure_spawn_coordinator_swarm. apply checks_bind; [apply quiet_gets|]. intros w.
  destruct (sw_members w !! req ≫= mb_swarm_id) as [swarm_id|]; [|handles_solve]. cbv zeta.
  destruct (decide _); [apply checks_some|]. destruct (_ && _); [handles_solve|].
  apply checks_bind; [apply quiet_disk; [apply calm_promote|apply disk_promote]|]. intros _.
  apply checks_bind; [apply quiet_persist|]. intros _.
  apply checks_bind; [apply quiet_disk; [apply calm_status|apply disk_status]|]. intros _.
  apply checks_bind; [|intros _; apply checks_some].
  apply quiet_disk; [by apply calm_send_|]. unfold send_. keeps_solve.
Qed.

Lemma live_checks req text : checks id tx (require_live_coordinator_swarm id req text tx).
Proof.
  unfold require_live_coordinator_swarm. apply checks_bind; [apply quiet_gets|]. intros w. cbv zeta.
  destruct (sw_members w !! req ≫= mb_swarm_id) as [swarm_id|]; [|handles_solve].
  destruct (decide _); [apply checks_some|]. destruct (coordinator_is_stale w swarm_id); [|handles_solve].
  apply checks_bind; [apply quiet_disk; [apply calm_promote|apply disk_promote]|]. intros _. apply checks_some.
Qed.

Lemma spawn_handles su req dir message nonce :
  proper su → handles id tx is_Some (handle_comm_spawn su id req dir message nonce tx).
Proof.
  intros Hp. unfold handle_comm_spawn. apply handles_check; [apply ensure_checks|done|]. intros swarm_id. cbv zeta.
  apply handles_begin; [apply is_key_of|done|]. intros state _. apply finishes_bind.
  { apply calm_spawn_agent, Hp. }
  intros [i|]; [|by intros s [? [=]]]. apply (finishes_ret _ _ (λ _, True)); [apply finishes_finish|done].
Qed.

Lemma assign_next_handles su req target dir prefer needed message :
  proper su → handles id tx is_Some (handle_comm_assign_next su id req target dir prefer needed message tx).
Proof.
  intros Hp. unfold handle_comm_assign_next.
  assert (∀ target task, handles id tx is_Some (handle_comm_assign_task id req target task message tx ;~ sret (Some ())))
    as Ha by (intros; apply handles_ret, assign_task_handles).
  destruct target as [target|]; [apply Ha|]. apply handles_check; [apply require_checks|done|]. intros swarm_id.
  apply handles_bind; [apply quiet_gets|]. intros w.
  destruct (next_unassigned_runnable_task_id w swarm_id) as [task|]; [|handles_solve]. cbv zeta.
  destruct (_ && _).
  - apply handles_bind; [by apply quiet_spawn|]. intros [i|]; [apply Ha|].
    apply handles_panic. by intros s [? [=]].
  - destruct (resolve_assignment_target_for_task _ _ _ _ _); [apply Ha|handles_solve].
Qed.

Lemma stop_handles P req target force : handles id tx P (handle_comm_stop id req target force tx).
Proof.
  unfold handle_comm_stop. apply handles_when_some; [apply live_checks|]. intros swarm_id.
  apply handles_bind; [apply quiet_gets|]. intros w.
  destruct (resolve_stop_target_session w swarm_id target) as [t|]; [|handles_solve].
  destruct (negb _); [handles_solve|]. apply handles_bind.
  { apply quiet_disk; [by apply calm_fanout|apply disk_fanout]. }
  intros _. cbv zeta.
  handles_solve.
Qed.

Lemma control_request_handles (su : Surroundings) req request :
  proper su → handles id tx is_Some (handle_control_request su id req request tx).
Proof.
  intros Hp. destruct request; cbn [handle_control_request]; try apply handles_ret.
  all: try (apply handles_replies; solve [eauto using share_replies, read_replies, list_replies,
    list_channels_replies, channel_members_replies, propose_replies, summary_replies, plan_status_replies,
    resync_replies, subscribe_replies, unsubscribe_replies]).
  all: eauto using message_handles, assign_role_handles, assign_task_handles, approve_handles, reject_handles,
    task_control_handles, spawn_handles, assign_next_handles, stop_handles.
Qed.
End handling.

(** C31. A request of an agent to the swarm server (any but waiting for members)
    is answered once while it is handled, or queued. For a client whose channel
    is open and a request that stands in no line yet, when the files of changes
    are about their own changes and the handler returns without a panic: either
    exactly one answer with the identifier of the request was sent to the client,
    and the request stands in no line; or no answer was sent, and the request
    stands in the line of a change that another request was working on when it
    came. That the line is answered later is not said here: a request that stands
    in line too late stays without an answer ([late_waiter_unanswered]). *)
Theorem requests_answered_once `{HashOrder} `{ServerCodec} `{RequestHash} (su : Surroundings) (id : u64) (tx : Sender)
    (req_session_id : string) (request : CommRequest) (s s' : Server) :
  ready id tx s → proper tx su →
  handle_control_request su id req_session_id request tx s = (Some (), s') →
  ∃ answers, sv_sent s' = sv_sent s ++ answers
    ∧ (length (filter (is_reply id tx) answers) = 1 ∧ (∀ key, (id, tx) ∉ line s' key)
       ∨ filter (is_reply id tx) answers = []
         ∧ ∃ key, key ∈ rt_active_keys (sv_mutations s) ∧ (id, tx) ∈ line s' key).
Proof.
  intros Hr Hp E. pose proof (control_request_handles id tx su req_session_id request Hp s Hr) as Hh.
  rewrite E in Hh. apply Hh. by exists ().
Qed.

(** * Requests of agents on concrete servers

    The witness of the theorem that every request is answered once, and runs
    that show what the handlers do in cases that their texts leave open. *)

#[local] Instance example_hash : RequestHash := λ _ _ components,
  Z.of_nat (list_sum (String.length <$> components)).

Definition example_agent (idle : bool) : AgentHandle := {|
  ag_idle := idle; ag_soft_interrupt_queue := 9; ag_tool_call_summaries := λ _, [];
  ag_working_dir := Some "/work"; ag_provider_model := "m"; ag_is_canary := false;
|}.

(** [bob] is ready, has an agent, and no task yet. *)
Definition ready_swarm : SwarmState := example_swarm "ready" [example_item "t1" "queued" None].

Definition ready_server (idle : bool) : Server :=
  set_sessions {["bob" := example_agent idle]} (example_server ready_swarm).

Definition no_window : Surroundings := {|
  su_launch_visible := io_fail "no terminal"; su_headless_id := "session_fox_1";
  su_headless_agent := example_agent true; su_swarm_id_for_dir := λ _, Some "s1";
  su_swarm_enabled := true; su_event_tx := 7;
|}.

(** ** Every request is answered once *)

(** [ann] gives the task to [bob]. *)
Definition assign_t1 : CommRequest := CommAssignTask (Some "bob") (Some "t1") None.

Lemma requests_answered_once_witness :
  let s := ready_server true in
  let '(result, s') := handle_control_request no_window 5 "ann" assign_t1 1 s in
  ready 5 1 s ∧ proper 1 no_window ∧ result = Some ()
  ∧ filter (is_reply 5 1) (sv_sent s') = [(1, EventCommAssignTaskResponse 5 "t1" "bob")]
  ∧ ∃ answers, sv_sent s' = sv_sent s ++ answers.
Proof.
  set (s := ready_server true). cbv zeta.
  assert (Hr : ready 5 1 s).
  { split; [reflexivity|]. split.
    - intros key. unfold line. cbn. rewrite lookup_empty. apply not_elem_of_nil.
    - intros key _ p text state _ Hf. cbn in Hf. by rewrite lookup_empty in Hf. }
  assert (Hp : proper 1 no_window) by (split; [done|reflexivity]).
  assert (Hc : (λ r, (r.1, filter (is_reply 5 1) (sv_sent r.2)))
                 (handle_control_request no_window 5 "ann" assign_t1 1 s)
               = (Some (), [(1, EventCommAssignTaskResponse 5 "t1" "bob")])) by (vm_compute; reflexivity).
  pose proof (requests_answered_once no_window 5 1 "ann" assign_t1 s) as Ht.
  destruct (handle_control_request no_window 5 "ann" assign_t1 1 s) as [result s']. cbn in Hc.
  injection Hc as -> Hf. split; [exact Hr|]. split; [exact Hp|]. split; [reflexivity|]. split; [exact Hf|].
  destruct (Ht s' Hr Hp eq_refl) as (answers & Hs & _). by exists answers.
Defined.

(** ** Who gets a task *)

(** [cid] did the task that [t1] depends on. *)
Definition after_t0 : PlanItem := {|
  pi_content := "do t1"; pi_status := "queued"; pi_priority := "high"; pi_id := "t1";
  pi_subsystem := None; pi_file_scope := []; pi_blocked_by := ["t0"]; pi_assigned_to := None;
|}.

Definition two_agents : SwarmState :=
  let w := example_swarm "ready" [example_item "t0" "completed" (Some "cid"); after_t0] in
  set_members (<["cid" := example_member "cid" "s1" "agent" "ready" false 3 (Some "ann")]> (sw_members w)) w.

Lemma best_agent_chosen_witness :
  resolve_assignment_target_for_task two_agents "ann" "s1" "t1" None = inl "cid"
  ∧ keyed two_agents
  ∧ ∃ m, mb_session_id m = "cid" ∧ assignable two_agents "ann" "s1" m.
Proof.
  assert (Hk : keyed two_agents).
  { intros k m Hm. cbn in Hm. apply lookup_insert_Some in Hm as [[<- <-]|[_ Hm]]; [done|].
    apply lookup_insert_Some in Hm as [[<- <-]|[_ Hm]]; [done|].
    by apply lookup_singleton_Some in Hm as [<- <-]. }
  assert (Hc : resolve_assignment_target_for_task two_agents "ann" "s1" "t1" None = inl "cid")
    by (vm_compute; reflexivity).
  split; [exact Hc|]. split; [exact Hk|].
  destruct (assignment_affinities_for_task (example_plan [example_item "t0" "completed" (Some "cid"); after_t0]) "t1")
    as [affinities|] eqn:Ha; [|vm_compute in Ha; discriminate].
  pose proof (best_agent_chosen two_agents "ann" "s1" "t1" _ affinities Hk eq_refl Ha) as Ht. rewrite Hc in Ht.
  destruct Ht as (m & Hm & Has & _). exists m. split; [exact Hm|exact Has].
Defined.

(** ** Runs of tasks *)

Definition task_view (s : Server) : option (string * option string * option string) :=
  plan ← sw_plans (sv_swarm s) !! "s1";
  item ← find_item "t1" (vp_items plan);
  Some (pi_status item, pi_assigned_to item, vp_task_progress plan !! "t1" ≫= tp_assigned_session_id).

Definition bobs_run : TaskRun := {|
  tr_target_session := "bob"; tr_swarm_id := "s1"; tr_task_id := "t1"; tr_assignment_text := "do t1";
|}.

(** The task of a stale run is given to [cid], who works on it. *)
Definition handed_over : Server :=
  let w := example_swarm "running" [example_item "t1" "running_stale" (Some "bob")] in
  let w := set_members (<["cid" := example_member "cid" "s1" "agent" "ready" false 3 (Some "ann")]> (sw_members w)) w in
  let s := set_sessions {["cid" := example_agent true]} (example_server w) in
  (handle_comm_task_control 6 "ann" "reassign" "t1" (Some "cid") None 1 s).2.

(** When the agent that lost the task ends its turn, the task is done, though the
    new agent has only begun; a heartbeat of the old run makes it the assignee of
    the progress again. *)
Lemma old_run_ends_task :
  task_view handed_over = Some ("queued", Some "cid", Some "cid")
  ∧ task_view (complete_task_run bobs_run None handed_over).2 = Some ("done", Some "cid", Some "cid")
  ∧ task_view (heartbeat_task_run bobs_run handed_over).2 = Some ("queued", Some "cid", Some "bob").
Proof. vm_compute. split_and!; reflexivity. Qed.

(** Resuming a stopped task of a busy agent is refused, but the task is put back
    into the queue first. *)
Definition stopped_busy : Server :=
  set_sessions {["bob" := example_agent false]}
    (example_server (example_swarm "running" [example_item "t1" "running_stale" (Some "bob")])).

Lemma refused_resume_requeues :
  let s' := (handle_comm_task_control 6 "ann" "resume" "t1" None None 1 stopped_busy).2 in
  (task_view stopped_busy, task_view s') = (Some ("running_stale", Some "bob", None), Some ("queued", Some "bob", Some "bob"))
  ∧ match filter (is_reply 6 1) (sv_sent s') with
    | [(_, EventError _ _ retry)] => retry = Some 1%Z
    | _ => False
    end.
Proof. vm_compute. split; reflexivity. Qed.

(** ** Roles *)

(** A session outside the swarm becomes its coordinator. *)
Definition with_stranger : Server :=
  let w := set_members (<["eve" := example_member "eve" "s2" "agent" "ready" false 4 None]> (sw_members ready_swarm)) ready_swarm in
  example_server w.

Lemma stranger_coordinates :
  let s' := (handle_comm_assign_role 6 "ann" "eve" "coordinator" 1 with_stranger).2 in
  sw_coordinators (sv_swarm s') !! "s1" = Some "eve"
  ∧ (sw_members (sv_swarm s') !! "eve" ≫= mb_swarm_id) = Some "s2".
Proof. vm_compute. split; reflexivity. Qed.

(** A member that takes over from a stopped coordinator to stop an agent leaves
    two members with the role of the coordinator, and nothing is stored. *)
Definition stopped_coordinator : Server :=
  let w := set_members (<["ann" := example_member "ann" "s1" "coordinator" "stopped" false 1 None]> (sw_members ready_swarm)) ready_swarm in
  example_server w.

Lemma takeover_leaves_two_coordinators :
  let s' := (require_live_coordinator_swarm 6 "bob" "no" 2 stopped_coordinator).2 in
  sw_coordinators (sv_swarm s') !! "s1" = Some "bob"
  ∧ mb_role <$> sw_members (sv_swarm s') !! "ann" = Some "coordinator"
  ∧ mb_role <$> sw_members (sv_swarm s') !! "bob" = Some "coordinator"
  ∧ w_files (sv_world s') = ∅ ∧ sv_sent s' = [].
Proof. vm_compute. split_and!; reflexivity. Qed.

(** ** Plans *)

(** The approval of a proposal that cannot be read is answered like one that was
    applied: the plan is as before and the proposal stays. *)
Definition garbled_proposal : Server :=
  let entry := {| sx_key := proposal_key_of "bob"; sx_value := "not items"; sx_from_session := "bob";
                  sx_from_name := None; sx_created_at := 0; sx_updated_at := 0 |} in
  set_shared_context {["s1" := {[proposal_key_of "bob" := entry]}]} (example_server ready_swarm).

Lemma garbled_proposal_done :
  let s' := (handle_comm_approve_plan 6 "ann" "bob" 1 garbled_proposal).2 in
  filter (is_reply 6 1) (sv_sent s') = [(1, EventDone 6)]
  ∧ sw_plans (sv_swarm s') !! "s1" = sw_plans ready_swarm !! "s1"
  ∧ is_Some (context_entry s' "s1" (proposal_key_of "bob")).
Proof. vm_compute. split_and!; [reflexivity|reflexivity|by eexists]. Qed.

(** ** Messages *)

Definition told (s : Server) : list Sender :=
  omap (λ e, match e.2 with EventNotification _ _ _ _ => Some e.1 | _ => None end) (sv_sent s).

(** A message to a channel without subscribers goes to everyone; when the sender
    alone subscribes, it goes to no one. *)
Lemma lonely_channel :
  let say := CommMessage "hello" None (Some "dev") None None in
  let s := example_server ready_swarm in
  told (handle_control_request no_window 6 "ann" say 1 s).2 = [2]
  ∧ told ((handle_control_request no_window 5 "ann" (CommSubscribeChannel "dev") 1 ;~
           handle_control_request no_window 6 "ann" say 1) s).2 = [].
Proof. vm_compute. split; reflexivity. Qed.

(** ** Waiting *)

(** A wait that loses events of the swarm ends without an answer, though its
    client still waits; and the same request finds the wait pending. *)
Definition awaiting : Server :=
  (handle_comm_await_members 6 "ann" ["completed"] ["bob"] None None 1 (example_server ready_swarm)).2.

Definition awaiting_state : option PersistedAwaitMembersState :=
  match sv_runs awaiting with [SpawnedAwait state _] => Some state | _ => None end.

Lemma lost_events_end_wait :
  match awaiting_state with
  | Some state =>
      let '(step, s') := await_events_lost state awaiting in
      step = AwaitEnded ∧ sv_sent s' = []
      ∧ rt_waiters (sv_awaits s') !! am_key state = Some [(6%Z, 1)]
      ∧ rt_active_keys (sv_awaits s') = ∅
  | None => False
  end.
Proof. vm_compute. split_and!; reflexivity. Qed.

(** A very long wait has its deadline in the past. *)
Lemma long_wait_expires : (await_deadline_of 1750000000000 (Some (2 ^ 61)) < 1750000000001)%Z.
Proof. vm_compute. reflexivity. Qed.
