(* ===== verification/Safety.v ===== *)
(** * Permissions of the ambient agent ([src/safety.rs], [src/tool/ambient.rs])

    The requests that wait for the user, the decisions taken, and the two ways to
    take one: through the live system and through its files. *)

From S2P Require Import Prelude Utf8 Text SwarmPlan Messages SessionTypes SessionState SessionOps Storage StorageTheorems SessionStore OpenAiSchema.
Open Scope nat_scope.
Open Scope io_scope.

(** ** Data *)

Inductive ActionTier := AutoAllowed | RequiresPermission.
Inductive Urgency := UrgencyLow | UrgencyNormal | UrgencyHigh.

#[export] Instance ActionTier_eq_dec : EqDecision ActionTier.
Proof. solve_decision. Defined.
#[export] Instance Urgency_eq_dec : EqDecision Urgency.
Proof. solve_decision. Defined.

Record PermissionRequest := {
  pq_id : string;
  pq_action : string;
  pq_description : string;
  pq_rationale : string;
  pq_urgency : Urgency;
  pq_wait : bool;
  pq_created_at : datetime;
  pq_context : option Value;
}.

#[export] Instance PermissionRequest_eq_dec : EqDecision PermissionRequest.
Proof. solve_decision. Defined.

Inductive PermissionResult :=
| PermissionApproved (message : option string)
| PermissionDenied (reason : option string)
| PermissionQueued (request_id : string)
| PermissionTimeout.

Record PermissionDecision := {
  dc_request_id : string;
  dc_approved : bool;
  dc_decided_at : datetime;
  dc_decided_via : string;
  dc_message : option string;
}.

Record ActionLog := {
  al_action_type : string;
  al_description : string;
  al_tier : ActionTier;
  al_details : option Value;
  al_timestamp : datetime;
}.

Inductive TranscriptStatus := TranscriptComplete | TranscriptInterrupted | TranscriptIncomplete.

Record AmbientTranscript := {
  at_session_id : string;
  at_started_at : datetime;
  at_ended_at : option datetime;
  at_status : TranscriptStatus;
  at_provider : string;
  at_model : string;
  at_actions : list ActionLog;
  at_pending_permissions : usize;
  at_summary : option string;
  at_compactions : u32;
  at_memories_modified : u32;
  at_conversation : option string;
}.

Record SafetySystem := {
  sa_queue : list PermissionRequest;
  sa_history : list PermissionDecision;
  sa_actions : list ActionLog;
}.

Definition set_permissions (queue : list PermissionRequest) (s : SafetySystem) : SafetySystem :=
  {| sa_queue := queue; sa_history := sa_history s; sa_actions := sa_actions s |}.
Definition set_history (history : list PermissionDecision) (s : SafetySystem) : SafetySystem :=
  {| sa_queue := sa_queue s; sa_history := history; sa_actions := sa_actions s |}.

(** The JSON texts of what is stored. *)
Class SafetyCodec := {
  permissions_json : list PermissionRequest → string;
  parse_permissions : string → option (list PermissionRequest);
  decisions_json : list PermissionDecision → string;
  parse_decisions : string → option (list PermissionDecision);
  transcript_json : AmbientTranscript → string;
}.

Definition AUTO_ALLOWED : list string :=
  ["read"; "glob"; "grep"; "ls"; "memory"; "todo"; "todowrite"; "todoread"; "conversation_search";
   "session_search"; "codesearch"].

Definition classify `{UnicodeLower} (action : string) : ActionTier :=
  if bool_decide (to_lowercase action ∈ AUTO_ALLOWED) then AutoAllowed else RequiresPermission.

(** [result.unwrap_or(x)] of a computation that may fail. *)
Definition io_or {A} (m : IO A) (x : A) : IO A := λ w,
  match m w with
  | (inl y, w) => (inl y, w)
  | (inr _, w) => (inl x, w)
  end.

(** [request_session_id] *)
Definition request_session_id (request : PermissionRequest) : option string :=
  match pq_context request with
  | None => None
  | Some context =>
      match value_get "session_id" context ≫= as_str with
      | Some id => Some id
      | None => (value_get "requester" context ≫= value_get "session_id") ≫= as_str
      end
  end.

Definition expired_decision (now : datetime) (via : string) (e : string * string) : PermissionDecision := {|
  dc_request_id := e.1; dc_approved := false; dc_decided_at := now; dc_decided_via := via;
  dc_message := Some ("Expired automatically: " +:+ e.2 +:+ ". Original agent is no longer active.");
|}.

Section safety.
Context `{SessionCodec} `{SafetyCodec} (tmp_suffix : string) (is_pid_running : u32 → bool).

Definition safety_queue_path : IO string :=
  base <-! gcode_dir; io_ret (path_join (path_join base "safety") "queue.json").

Definition history_path : IO string :=
  base <-! gcode_dir; io_ret (path_join (path_join base "safety") "history.json").

Definition persist_queue (queue : list PermissionRequest) : IO unit :=
  path <-! safety_queue_path; write_json tmp_suffix path (permissions_json queue).

Definition persist_history (history : list PermissionDecision) : IO unit :=
  path <-! history_path; write_json tmp_suffix path (decisions_json history).

(** ** The live system *)

(** [SafetySystem::new] *)
Definition safety_new : IO SafetySystem :=
  queue <-! io_or (path <-! safety_queue_path; read_json parse_permissions path) [];
  history <-! io_or (path <-! history_path; read_json parse_decisions path) [];
  io_ret {| sa_queue := queue; sa_history := history; sa_actions := [] |}.

(** The notifications are not part of the model. *)
Definition request_permission (request : PermissionRequest) (s : SafetySystem)
    : IO (PermissionResult * SafetySystem) :=
  let s := set_permissions (sa_queue s ++ [request]) s in
  io_ignore (persist_queue (sa_queue s)) ;!
  io_ret (PermissionQueued (pq_id request), s).

(** Why nobody waits for the request any more, if so. *)
Definition stale_request_reason (now : datetime) (request : PermissionRequest) : IO (option string) := λ w,
  match request_session_id request with
  | None => (inl None, w)
  | Some session_id =>
      match load session_id w with
      | (inr _, w) => (inl (Some ("owner session '" +:+ session_id +:+ "' was not found")), w)
      | (inl s, w) =>
          let '(crashed, s, w) := detect_crash now is_pid_running s w in
          let '(s, w) := if crashed then let '(_, s, w) := save now tmp_suffix s w in (s, w) else (s, w) in
          (inl (if bool_decide (se_status s = StatusActive) then None
                else Some ("owner session '" +:+ session_id +:+ "' is " +:+ status_display (se_status s))),
           w)
      end
  end.

(** The stale requests with the reasons, and the others. *)
Fixpoint split_stale (now : datetime) (requests : list PermissionRequest)
    : IO (list (string * string) * list PermissionRequest) :=
  match requests with
  | [] => io_ret ([], [])
  | request :: requests =>
      reason <-! stale_request_reason now request;
      rest <-! split_stale now requests;
      io_ret (match reason with
              | Some reason => ((pq_id request, reason) :: rest.1, rest.2)
              | None => (rest.1, request :: rest.2)
              end)
  end.

Definition expire_dead_session_requests (now : datetime) (via : string) (s : SafetySystem)
    : IO (list string * SafetySystem) :=
  split <-! split_stale now (sa_queue s);
  let '(expired, retained) := split in
  let s := set_permissions retained s in
  io_ignore (persist_queue (sa_queue s)) ;!
  if is_nil expired then io_ret ([], s)
  else
    let s := set_history (sa_history s ++ (expired_decision now via <$> expired)) s in
    io_ignore (persist_history (sa_history s)) ;!
    io_ret (expired.*1, s).

Definition record_decision (now : datetime) (request_id : string) (approved : bool) (via : string)
    (message : option string) (s : SafetySystem) : IO SafetySystem :=
  let s := set_permissions (filter (λ r, pq_id r ≠ request_id) (sa_queue s)) s in
  io_ignore (persist_queue (sa_queue s)) ;!
  let decision := {| dc_request_id := request_id; dc_approved := approved; dc_decided_at := now;
                     dc_decided_via := via; dc_message := message |} in
  let s := set_history (sa_history s ++ [decision]) s in
  io_ignore (persist_history (sa_history s)) ;!
  io_ret s.

Definition pending_requests (s : SafetySystem) : list PermissionRequest := sa_queue s.

Definition log_action (log : ActionLog) (s : SafetySystem) : SafetySystem :=
  {| sa_queue := sa_queue s; sa_history := sa_history s; sa_actions := sa_actions s ++ [log] |}.

Definition urgency_name (u : Urgency) : string :=
  match u with UrgencyLow => "Low" | UrgencyNormal => "Normal" | UrgencyHigh => "High" end.

Definition generate_summary (s : SafetySystem) : string :=
  let actions := sa_actions s in
  let pending := pending_requests s in
  if is_nil actions && is_nil pending then "No actions recorded."
  else
    let auto := filter (λ a, al_tier a = AutoAllowed) actions in
    let perm := filter (λ a, al_tier a = RequiresPermission) actions in
    let action_line a := "- " +:+ al_action_type a +:+ " — " +:+ al_description a in
    join nl
      ((if is_nil auto then [] else "Done (auto-allowed):" :: (action_line <$> auto))
       ++ (if is_nil perm then [] else "" :: "Done (with permission):" :: (action_line <$> perm))
       ++ (if is_nil pending then [] else "" :: "Needs your review:" ::
             ((λ r, "- [" +:+ urgency_name (pq_urgency r) +:+ "] " +:+ pq_action r +:+ " — "
                    +:+ pq_description r) <$> pending))).

(** The text of the start time names the file. *)
Definition save_transcript (file_time : datetime → string) (transcript : AmbientTranscript) : IO unit :=
  base <-! gcode_dir;
  let dir := path_join (path_join base "ambient") "transcripts" in
  ensure_dir dir ;!
  write_json tmp_suffix (path_join dir (file_time (at_started_at transcript) +:+ ".json"))
    (transcript_json transcript).

(** ** Through the files *)

Definition read_or_empty {A} (parse : string → option (list A)) (path : string) : IO (list A) :=
  ensure_dir (path_parent path) ;!
  exists_ <-! io_exists path;
  if exists_ then io_or (read_json parse path) [] else io_ret [].

Definition record_permission_via_file (now : datetime) (request_id : string) (approved : bool)
    (via : string) (message : option string) : IO unit :=
  qp <-! safety_queue_path;
  queue <-! read_or_empty parse_permissions qp;
  persist_queue (filter (λ r, pq_id r ≠ request_id) queue) ;!
  hp <-! history_path;
  history <-! read_or_empty parse_decisions hp;
  persist_history (history ++ [{| dc_request_id := request_id; dc_approved := approved;
                                  dc_decided_at := now; dc_decided_via := via; dc_message := message |}]).

Definition expire_stale_permissions_via_file (now : datetime) (via : string) : IO (list string) :=
  qp <-! safety_queue_path;
  queue <-! read_or_empty parse_permissions qp;
  split <-! split_stale now queue;
  let '(expired, retained) := split in
  persist_queue retained ;!
  if is_nil expired then io_ret []
  else
    hp <-! history_path;
    history <-! read_or_empty parse_decisions hp;
    persist_history (history ++ (expired_decision now via <$> expired)) ;!
    io_ret expired.*1.

End safety.

(** ** The tool that asks ([src/tool/ambient.rs]) *)

(** The value of the first of the keys that has a text. *)
Fixpoint extract_context_string (m : Map) (keys : list string) : option string :=
  match keys with
  | [] => None
  | key :: keys =>
      match trim <$> (map_get key m ≫= as_str) with
      | Some trimmed => if trimmed =s "" then extract_context_string m keys else Some trimmed
      | None => extract_context_string m keys
      end
  end.

Definition nonempty_texts (items : list Value) : list string :=
  filter (λ s, s ≠ "") (trim <$> omap as_str items).

Fixpoint extract_context_list (m : Map) (keys : list string) : list string :=
  match keys with
  | [] => []
  | key :: keys =>
      match map_get key m with
      | Some (Array items) =>
          let l := nonempty_texts items in if is_nil l then extract_context_list m keys else l
      | Some (Str single) =>
          if trim single =s "" then extract_context_list m keys else [trim single]
      | _ => extract_context_list m keys
      end
  end.

Definition string_fields : list (string * list string) :=
  [("current_activity", ["current_activity"; "activity"; "task"; "current_task"]);
   ("expected_outcome", ["expected_outcome"; "outcome"; "success_criteria"; "success"]);
   ("impact", ["impact"; "user_impact"]);
   ("rollback_plan", ["rollback_plan"; "rollback"])].

Definition list_fields : list (string * list string) :=
  [("planned_steps", ["planned_steps"; "steps"; "plan"; "checklist"]);
   ("files", ["files"; "file_paths"; "planned_files"]);
   ("commands", ["commands"; "planned_commands"]);
   ("risks", ["risks"; "risk"; "safety_risks"])].

Definition build_permission_review_context (action description rationale : string)
    (context : option Value) : Value :=
  let context_obj := context ≫= as_object in
  let summary := default description
    (context_obj ≫= λ m, extract_context_string m ["summary"; "what"; "activity_summary"]) in
  let why := default rationale
    (context_obj ≫= λ m, extract_context_string m
       ["why_permission_needed"; "why"; "reason"; "rationale"; "justification"]) in
  let review :=
    map_insert "requested_action" (Str action)
      (map_insert "why_permission_needed" (Str why) (map_insert "summary" (Str summary) [])) in
  let review :=
    match context_obj with
    | None => review
    | Some m =>
        let review := foldl (λ review field,
          match extract_context_string m field.2 with
          | Some value => map_insert field.1 (Str value) review
          | None => review
          end) review string_fields in
        foldl (λ review field,
          let items := extract_context_list m field.2 in
          if is_nil items then review else map_insert field.1 (Array (Str <$> items)) review)
          review list_fields
    end in
  Object (match context with
          | Some (Object _) | None => review
          | Some raw => map_insert "notes" raw review
          end).

(** What the tool is called with, and by whom. *)
Record RequestPermissionInput := {
  rp_action : string;
  rp_description : string;
  rp_rationale : string;
  rp_urgency : option string;
  rp_wait : bool;
  rp_context : option Value;
}.

Record ToolCaller := {
  tc_session_id : string;
  tc_message_id : string;
  tc_tool_call_id : string;
  tc_working_dir : option string;
}.

Definition ensure_ambient_session (ambient_sessions : gset string) (session_id : string) : unit + string :=
  if bool_decide (session_id ∈ ambient_sessions) then inl ()
  else inr ("request_permission is only available to ambient sessions (session '" +:+ session_id +:+ "')").

Definition parse_urgency (s : option string) : Urgency :=
  match s with
  | Some s => if s =s "low" then UrgencyLow else if s =s "high" then UrgencyHigh else UrgencyNormal
  | None => UrgencyNormal
  end.

Definition permission_request_of (to_rfc3339 : datetime → string) (now : datetime) (request_id : string)
    (params : RequestPermissionInput) (ctx : ToolCaller) : PermissionRequest :=
  let review := build_permission_review_context (rp_action params) (rp_description params)
                  (rp_rationale params) (rp_context params) in
  let text := from_option Str Null in
  let request_context :=
    foldr (λ e m, map_insert e.1 e.2 m) []
      [("session_id", Str (tc_session_id ctx)); ("message_id", Str (tc_message_id ctx));
       ("tool_call_id", Str (tc_tool_call_id ctx)); ("working_dir", text (tc_working_dir ctx));
       ("requested_at", Str (to_rfc3339 now)); ("review", review)] in
  {| pq_id := request_id; pq_action := rp_action params; pq_description := rp_description params;
     pq_rationale := rp_rationale params; pq_urgency := parse_urgency (rp_urgency params);
     pq_wait := rp_wait params; pq_created_at := now;
     pq_context := Some (Object (match rp_context params with
                                 | Some details => map_insert "details" details request_context
                                 | None => request_context
                                 end)) |}.

Definition permission_output (action : string) (result : PermissionResult) : string :=
  match result with
  | PermissionApproved message => "Permission approved: " +:+ default "no message" message
  | PermissionDenied reason => "Permission denied: " +:+ default "no reason given" reason
  | PermissionQueued request_id =>
      "Permission request queued (id: " +:+ request_id +:+ "). Action '" +:+ action
      +:+ "' is pending user review."
  | PermissionTimeout => "Permission request timed out. The user did not respond in time."
  end.

(** [RequestPermissionTool::execute]: the text of its answer. *)
Definition request_permission_tool `{SafetyCodec} (tmp_suffix : string) (to_rfc3339 : datetime → string)
    (ambient_sessions : gset string) (now : datetime) (request_id : string)
    (params : RequestPermissionInput) (ctx : ToolCaller) (s : SafetySystem)
    : IO (string * SafetySystem) :=
  match ensure_ambient_session ambient_sessions (tc_session_id ctx) with
  | inr e => io_fail e
  | inl () =>
      res <-! request_permission tmp_suffix (permission_request_of to_rfc3339 now request_id params ctx) s;
      io_ret (permission_output (rp_action params) res.1, res.2)
  end.

(** ** The live system, as a sequence of its operations *)

Inductive SafetyEvent :=
| SubmitRequest (request : PermissionRequest)
| DecideRequest (now : datetime) (request_id : string) (approved : bool) (via : string)
    (message : option string)
| ExpireRequests (now : datetime) (via : string)
| LogAction (log : ActionLog).

Class SafetyCodecLaws `{SafetyCodec} := {
  permissions_utf8 x : utf8_valid (permissions_json x) = true;
  parse_permissions_json x : parse_permissions (permissions_json x) = Some x;
  decisions_utf8 x : utf8_valid (decisions_json x) = true;
  parse_decisions_json x : parse_decisions (decisions_json x) = Some x;
}.

Section theorems.
Context `{SessionCodec} `{SafetyCodec} `{!SafetyCodecLaws} (tmp_suffix : string).
Context (is_pid_running : u32 → bool).

Definition safety_step (e : SafetyEvent) (s : SafetySystem) : IO SafetySystem :=
  match e with
  | SubmitRequest request => res <-! request_permission tmp_suffix request s; io_ret res.2
  | DecideRequest now request_id approved via message =>
      record_decision tmp_suffix now request_id approved via message s
  | ExpireRequests now via =>
      res <-! expire_dead_session_requests tmp_suffix is_pid_running now via s; io_ret res.2
  | LogAction log => io_ret (log_action log s)
  end.

Fixpoint safety_run (events : list SafetyEvent) (s : SafetySystem) : IO SafetySystem :=
  match events with
  | [] => io_ret s
  | e :: events => s <-! safety_step e s; safety_run events s
  end.

(** What happens to the requests, whatever the files do. *)
Definition outcome (e : SafetyEvent) (s s' : SafetySystem) : Prop :=
  match e with
  | SubmitRequest request => sa_queue s' = sa_queue s ++ [request] ∧ sa_history s' = sa_history s
  | DecideRequest now id approved via message =>
      sa_queue s' = filter (λ r, pq_id r ≠ id) (sa_queue s)
      ∧ sa_history s' = sa_history s ++ [{| dc_request_id := id; dc_approved := approved;
          dc_decided_at := now; dc_decided_via := via; dc_message := message |}]
  | ExpireRequests now via =>
      ∃ expired, pq_id <$> sa_queue s ≡ₚ expired.*1 ++ (pq_id <$> sa_queue s')
        ∧ sa_queue s' `sublist_of` sa_queue s
        ∧ sa_history s' = sa_history s ++ (expired_decision now via <$> expired)
        ∧ ∀ r, r ∈ sa_queue s → r ∈ sa_queue s' ∨ pq_id r ∈ expired.*1
  | LogAction _ => sa_queue s' = sa_queue s ∧ sa_history s' = sa_history s
  end.

Lemma split_stale_spec now requests w :
  ∃ expired retained w', split_stale tmp_suffix is_pid_running now requests w = (inl (expired, retained), w')
    ∧ pq_id <$> requests ≡ₚ expired.*1 ++ (pq_id <$> retained) ∧ retained `sublist_of` requests
    ∧ ∀ r, r ∈ requests → r ∈ retained ∨ pq_id r ∈ expired.*1.
Proof.
  revert w. induction requests as [|r requests IH]; intros w; cbn [split_stale].
  { exists [], [], w. repeat split; [done|constructor|]. intros r Hr. by apply elem_of_nil in Hr. }
  assert (∃ reason w1, stale_request_reason tmp_suffix is_pid_running now r w = (inl reason, w1)) as (reason & w1 & E1).
  { unfold stale_request_reason. repeat case_match; eauto. }
  unfold io_bind at 1. rewrite E1.
  destruct (IH w1) as (expired & retained & w2 & E2 & Hp & Hs & Hr).
  unfold io_bind. rewrite E2. cbn [fst snd]. destruct reason as [reason|].
  - exists ((pq_id r, reason) :: expired), retained, w2. repeat split.
    + rewrite !fmap_cons. cbn. by rewrite Hp.
    + by apply sublist_cons.
    + intros r' [->|Hin]%elem_of_cons; [right; by left|]. destruct (Hr r' Hin); [by left|by do 2 right].
  - exists expired, (r :: retained), w2. repeat split.
    + rewrite !fmap_cons, Hp. by rewrite Permutation_middle.
    + by apply sublist_skip.
    + intros r' [->|Hin]%elem_of_cons; [left; by left|]. destruct (Hr r' Hin); [left; by right|by right].
Qed.

Lemma safety_step_outcome e s w :
  ∃ s' w', safety_step e s w = (inl s', w') ∧ outcome e s s'.
Proof.
  destruct e as [r|now id approved via message|now via|log]; cbn.
  - by eexists _, _.
  - by eexists _, _.
  - unfold expire_dead_session_requests.
    destruct (split_stale_spec now (sa_queue s) w) as (expired & retained & w1 & E & Hp & Hs & Hr).
    unfold io_bind at 1 2. rewrite E. destruct expired as [|e expired].
    + eexists _, _. split; [done|]. exists []. cbn. by rewrite app_nil_r.
    + eexists _, _. split; [done|]. by exists (e :: expired).
  - by eexists _, _.
Qed.

Definition accounted (id : string) (s : SafetySystem) : Prop :=
  id ∈ pq_id <$> sa_queue s ∨ id ∈ dc_request_id <$> sa_history s.

Lemma outcome_accounted e s s' id : outcome e s s' → accounted id s → accounted id s'.
Proof.
  unfold accounted. intros Ho [Hq|Hh].
  - destruct e as [r|now i approved via message|now via|log]; cbn in Ho.
    + destruct Ho as [-> ->]. left. rewrite fmap_app, elem_of_app. by left.
    + destruct Ho as [-> ->]. apply list_elem_of_fmap in Hq as (r & -> & Hr).
      destruct (decide (pq_id r = i)) as [<-|Hne].
      * right. rewrite fmap_app, elem_of_app. right. by left.
      * left. apply list_elem_of_fmap. exists r. by rewrite list_elem_of_filter.
    + destruct Ho as (expired & Hp & _ & -> & _). rewrite Hp, elem_of_app in Hq.
      destruct Hq as [Hq|Hq]; [right|by left]. rewrite fmap_app, elem_of_app. right.
      by rewrite <- list_fmap_compose.
    + destruct Ho as [-> ->]. by left.
  - right. destruct e; cbn in Ho; destruct_and?; destruct_or?;
      repeat match goal with E : ∃ _, _ |- _ => destruct E; destruct_and? end;
      repeat match goal with E : sa_history s' = _ |- _ => rewrite E end;
      rewrite ?fmap_app, ?elem_of_app; auto.
Qed.

Lemma outcome_pending e s s' r :
  outcome e s s' → r ∈ sa_queue s' → r ∈ sa_queue s ∨ e = SubmitRequest r.
Proof.
  intros Ho Hr. destruct e; cbn in Ho.
  - destruct Ho as [Hq _]. rewrite Hq, elem_of_app, list_elem_of_singleton in Hr.
    destruct Hr as [Hr| ->]; auto.
  - destruct Ho as [Hq _]. rewrite Hq, list_elem_of_filter in Hr. left. apply Hr.
  - destruct Ho as (expired & _ & Hs & _). left. by apply (sublist_submseteq _ _ Hs), elem_of_submseteq in Hr
      || eapply elem_of_submseteq; [done|by apply sublist_submseteq].
  - destruct Ho as [Hq _]. rewrite Hq in Hr. by left.
Qed.

Lemma outcome_history e s s' : outcome e s s' → sa_history s `prefix_of` sa_history s'.
Proof.
  destruct e; cbn; [intros [_ ->]|intros [_ ->]|intros (ex & _ & _ & -> & _)|intros [_ ->]];
    (done || by eexists).
Qed.

(** C34. What the live system does with the requests of the ambient agent, in any
    run of its own operations: none fails, whatever the files do; in its memory a
    request that was submitted is pending or has an entry in the history, where
    it was decided or has expired with its session; what is pending was
    submitted; the history only grows; and a request that the system decided is
    not pending unless it is submitted again. Decisions that others write to the
    files are not part of a run, and do not last ([file_decision_is_undone]). *)
Theorem permissions_accounted events s w :
  ∃ s' w', safety_run events s w = (inl s', w')
    ∧ (∀ id, accounted id s ∨ (∃ r, SubmitRequest r ∈ events ∧ pq_id r = id) → accounted id s')
    ∧ (∀ r, r ∈ sa_queue s' → r ∈ sa_queue s ∨ SubmitRequest r ∈ events)
    ∧ sa_history s `prefix_of` sa_history s'
    ∧ (∀ before now id approved via message after,
         events = before ++ DecideRequest now id approved via message :: after →
         (∀ r, SubmitRequest r ∈ after → pq_id r ≠ id) → id ∉ pq_id <$> sa_queue s').
Proof.
  revert s w. induction events as [|e events IH]; intros s w; cbn [safety_run].
  { exists s, w. split_and!; [done|..]; try done.
    - intros id [Hr|(r & Hr & _)]; [done|by apply elem_of_nil in Hr].
    - intros r Hr. by left.
    - intros [] *; discriminate. }
  destruct (safety_step_outcome e s w) as (s1 & w1 & E1 & Ho).
  destruct (IH s1 w1) as (s2 & w2 & E2 & Hacc & Hpend & Hhist & Hdec).
  exists s2, w2. unfold io_bind. rewrite E1. split_and!; [done|..].
  - intros id [Hr|(r & Hr & <-)]; apply Hacc.
    + left. by eapply outcome_accounted.
    + apply elem_of_cons in Hr as [<-|Hr]; [|right; by exists r]. left. left.
      destruct Ho as [-> _]. rewrite fmap_app, elem_of_app. right. by left.
  - intros r Hr. destruct (Hpend r Hr) as [Hr1|Hr1]; [|right; by right].
    destruct (outcome_pending e s s1 r Ho Hr1) as [| ->]; [by left|right; by left].
  - etrans; [by eapply outcome_history|done].
  - intros before now id approved via message after Heq Hafter.
    destruct before as [|e' before]; injection Heq as -> ->; [|by eapply Hdec].
    cbn in Ho. destruct Ho as [Hq _]. intros (r & -> & Hr)%list_elem_of_fmap.
    destruct (Hpend r Hr) as [Hr1|Hr1]; [|by apply (Hafter r)].
    rewrite Hq, list_elem_of_filter in Hr1. by destruct Hr1.
Qed.
(** ** The files of the live system *)

Definition safety_file (base name : string) : string :=
  path_join base "safety" +:+ "/" +:+ name.

Lemma queue_file base : path_join (path_join base "safety") "queue.json" = safety_file base "queue.json".
Proof. by apply path_join_dir. Qed.

Lemma history_file base :
  path_join (path_join base "safety") "history.json" = safety_file base "history.json".
Proof. by apply path_join_dir. Qed.

Lemma safety_file_apart base stem suffix :
  let path := safety_file base (stem +:+ ".json") in
  let tmp := with_extension path ("tmp." +:+ suffix) in
  let bak := with_extension path "bak" in
  tmp ≠ path ∧ bak ≠ path ∧ tmp ≠ bak.
Proof.
  cbn zeta. unfold safety_file. rewrite <- !str_app_assoc. apply json_path_apart.
Qed.

Lemma persist_queue_done base queue w :
  reliable w → w_gcode_dir w = inl base →
  ∃ w', persist_queue tmp_suffix queue w = (inl (), w') ∧ reliable w' ∧ w_gcode_dir w' = inl base
    ∧ w_files w' !! safety_file base "queue.json" = Some (permissions_json queue).
Proof.
  intros Hr Hb. unfold persist_queue, safety_queue_path, io_bind, gcode_dir, io_ret. rewrite Hb. cbv beta iota.
  rewrite queue_file.
  destruct (write_json_done tmp_suffix (safety_file base "queue.json") (permissions_json queue) w)
    as (w' & E & Hr' & Hg & Hf & _); [apply (safety_file_apart base "queue")|done|].
  exists w'. by rewrite Hg.
Qed.

Lemma persist_history_done base history w :
  reliable w → w_gcode_dir w = inl base →
  ∃ w', persist_history tmp_suffix history w = (inl (), w') ∧ reliable w' ∧ w_gcode_dir w' = inl base
    ∧ w_files w' !! safety_file base "history.json" = Some (decisions_json history)
    ∧ w_files w' !! safety_file base "queue.json" = w_files w !! safety_file base "queue.json".
Proof.
  intros Hr Hb. unfold persist_history, history_path, io_bind, gcode_dir, io_ret. rewrite Hb. cbv beta iota.
  rewrite history_file.
  destruct (write_json_done tmp_suffix (safety_file base "history.json") (decisions_json history) w)
    as (w' & E & Hr' & Hg & Hf & Ho); [apply (safety_file_apart base "history")|done|].
  exists w'. rewrite Hg. split_and!; try done. apply Ho. unfold safety_file.
  rewrite !with_extension_in by done.
  rewrite !elem_of_cons, elem_of_nil. intros [E'|[E'|[E'|[]]]];
    apply (str_app_inj_l (path_join base "safety")) in E'; discriminate.
Qed.

(** A decision survives a restart: after the live system recorded one, a
    program that starts finds the same pending requests and the same decisions
    in the files. *)
Theorem decisions_survive_restart now id approved via message s w base :
  reliable w → w_gcode_dir w = inl base →
  ∃ s' w', record_decision tmp_suffix now id approved via message s w = (inl s', w')
    ∧ id ∉ pq_id <$> sa_queue s'
    ∧ safety_new w' = (inl {| sa_queue := sa_queue s'; sa_history := sa_history s'; sa_actions := [] |}, w').
Proof.
  intros Hr Hb. unfold record_decision.
  set (s1 := set_permissions _ s). set (history := _ ++ [_]).
  destruct (persist_queue_done base (sa_queue s1) w Hr Hb) as (w1 & E1 & Hr1 & Hb1 & Hq1).
  destruct (persist_history_done base history w1 Hr1 Hb1) as (w2 & E2 & Hr2 & Hb2 & Hh2 & Hq2).
  exists (set_history history s1), w2. split_and!.
  - unfold io_bind, io_ignore. rewrite E1. cbn [snd]. cbn [sa_history set_history]. by rewrite E2.
  - cbn. intros (r & -> & Hin)%list_elem_of_fmap. by apply list_elem_of_filter in Hin as [Hne _].
  - unfold safety_new, safety_queue_path, history_path, io_or, io_bind, gcode_dir, io_ret.
    rewrite Hb2. cbv beta iota. rewrite queue_file.
    rewrite (read_json_ok parse_permissions _ (permissions_json (sa_queue s1)) (sa_queue s1));
      [|done|congruence|apply permissions_utf8|apply parse_permissions_json].
    rewrite Hb2. cbv beta iota. rewrite history_file.
    by rewrite (read_json_ok parse_decisions _ (decisions_json history) history)
      by (done || apply decisions_utf8 || apply parse_decisions_json).
Qed.
End theorems.
