(* ===== verification/Ambient.v ===== *)
(** * Ambient mode ([src/ambient/], [src/ambient.rs], [crates/gcode-ambient-types/src/lib.rs])

    What the ambient agent remembers between its cycles: its state, the queue of
    scheduled items, the directives of the user and the lock of the one instance
    that runs; and the scheduler that chooses the time between two cycles. *)

From Stdlib Require Import SpecFloat.
From S2P Require Import Prelude Utf8 Text SwarmPlan F32 Messages SessionTypes Storage StorageTheorems SessionStore Safety.
Open Scope nat_scope.
Open Scope io_scope.

(** ** Data ([ambient.rs]) *)

Inductive AmbientStatus :=
| AmbientIdle
| AmbientRunning (detail : string)
| AmbientScheduled (next_wake : datetime)
| AmbientPaused (reason : string)
| AmbientDisabled.

Inductive Priority := PriorityLow | PriorityNormal | PriorityHigh.

Inductive ScheduleTarget :=
| TargetAmbient
| TargetSession (session_id : string)
| TargetSpawn (parent_session_id : string).

#[export] Instance ScheduleTarget_eq_dec : EqDecision ScheduleTarget.
Proof. solve_decision. Defined.
#[export] Instance Priority_eq_dec : EqDecision Priority.
Proof. solve_decision. Defined.

Definition is_direct_delivery (target : ScheduleTarget) : bool :=
  match target with TargetSession _ | TargetSpawn _ => true | TargetAmbient => false end.

Record ScheduledItem := {
  sc_id : string;
  sc_scheduled_for : datetime;
  sc_context : string;
  sc_priority : Priority;
  sc_target : ScheduleTarget;
  sc_created_by_session : string;
  sc_created_at : datetime;
  sc_working_dir : option string;
  sc_task_description : option string;
  sc_relevant_files : list string;
  sc_git_branch : option string;
  sc_additional_context : option string;
}.

#[export] Instance ScheduledItem_eq_dec : EqDecision ScheduledItem.
Proof. solve_decision. Defined.

Record AmbientState := {
  as_status : AmbientStatus;
  as_last_run : option datetime;
  as_last_summary : option string;
  as_last_compactions : option u32;
  as_last_memories_modified : option u32;
  as_total_cycles : u64;
}.

Definition ambient_state_default : AmbientState := {|
  as_status := AmbientIdle; as_last_run := None; as_last_summary := None;
  as_last_compactions := None; as_last_memories_modified := None; as_total_cycles := 0;
|}.

Inductive CycleStatus := CycleComplete | CycleInterrupted | CycleIncomplete.

Record ScheduleRequest := {
  sr_wake_in_minutes : option u32;
  sr_wake_at : option datetime;
  sr_context : string;
  sr_priority : Priority;
  sr_target : ScheduleTarget;
  sr_created_by_session : string;
  sr_working_dir : option string;
  sr_task_description : option string;
  sr_relevant_files : list string;
  sr_git_branch : option string;
  sr_additional_context : option string;
}.

Record AmbientCycleResult := {
  cr_summary : string;
  cr_memories_modified : u32;
  cr_compactions : u32;
  cr_proactive_work : option string;
  cr_next_schedule : option ScheduleRequest;
  cr_started_at : datetime;
  cr_ended_at : datetime;
  cr_status : CycleStatus;
  cr_conversation : option string;
}.

(** What the runner hands to the visible interface of a cycle. *)
Record VisibleCycleContext := {
  vc_system_prompt : string;
  vc_initial_message : string;
}.

Record UserDirective := {
  ud_id : string;
  ud_text : string;
  ud_received_at : datetime;
  ud_in_reply_to_cycle : string;
  ud_consumed : bool;
}.

Inductive UsageSource := UsageUser | UsageAmbient.

#[export] Instance UsageSource_eq_dec : EqDecision UsageSource.
Proof. solve_decision. Defined.

Record UsageRecord := {
  ur_timestamp : datetime;
  ur_source : UsageSource;
  ur_tokens_input : u32;
  ur_tokens_output : u32;
  ur_provider : string;
}.

Definition total_tokens (r : UsageRecord) : u64 := (ur_tokens_input r + ur_tokens_output r)%Z.

Record RateLimitInfo := {
  rl_limit_tokens : option u64;
  rl_remaining_tokens : option u64;
  rl_limit_requests : option u64;
  rl_remaining_requests : option u64;
  rl_reset_at : option datetime;
}.

(** The JSON texts of what is stored. *)
Class AmbientCodec := {
  ambient_state_json : AmbientState → string;
  parse_ambient_state : string → option AmbientState;
  queue_json : list ScheduledItem → string;
  parse_queue : string → option (list ScheduledItem);
  directives_json : list UserDirective → string;
  parse_directives : string → option (list UserDirective);
  visible_context_json : VisibleCycleContext → string;
  parse_visible_context : string → option VisibleCycleContext;
  cycle_result_json : AmbientCycleResult → string;
  parse_cycle_result : string → option AmbientCycleResult;
  usage_json : list UsageRecord → string;
  parse_usage : string → option (list UsageRecord);
}.

(** ** Times: nanoseconds *)

Definition NANOS : Z := 1000000000.
Definition minutes (n : Z) : Z := (n * 60 * NANOS)%Z.

Section ambient.
Context `{AmbientCodec} (tmp_suffix : string).

(** ** Paths ([paths.rs]) *)

Definition ambient_dir : IO string :=
  base <-! gcode_dir;
  let dir := path_join base "ambient" in
  ensure_dir dir ;!
  io_ret dir.

Definition in_ambient_dir (name : string) : IO string :=
  dir <-! ambient_dir; io_ret (path_join dir name).

Definition state_path : IO string := in_ambient_dir "state.json".
Definition queue_path : IO string := in_ambient_dir "queue.json".
Definition lock_path : IO string := in_ambient_dir "ambient.lock".
Definition directives_path : IO string := in_ambient_dir "directives.json".

Definition transcripts_dir : IO string :=
  dir <-! in_ambient_dir "transcripts";
  ensure_dir dir ;!
  io_ret dir.

(** ** The files of a visible cycle ([ambient.rs]) *)

Definition visible_file (name : string) : IO string :=
  base <-! gcode_dir; io_ret (path_join (path_join base "ambient") name).

Definition context_path : IO string := visible_file "visible_cycle.json".
Definition result_path : IO string := visible_file "cycle_result.json".

Definition visible_context_save (context : VisibleCycleContext) : IO unit :=
  path <-! context_path;
  ensure_dir (path_parent path) ;!
  write_json tmp_suffix path (visible_context_json context).

Definition visible_context_load : IO VisibleCycleContext :=
  path <-! context_path; read_json parse_visible_context path.

(** ** The state ([persistence.rs]) *)

Definition ambient_state_load : IO AmbientState :=
  path <-! state_path;
  exists_ <-! io_exists path;
  if exists_ then read_json parse_ambient_state path else io_ret ambient_state_default.

Definition ambient_state_save (state : AmbientState) : IO unit :=
  path <-! state_path;
  write_json tmp_suffix path (ambient_state_json state).

(** When the next cycle of a request is, half an hour later by default. *)
Definition wake_time (now : datetime) (req : ScheduleRequest) : datetime :=
  match sr_wake_at req with
  | Some wake_at => wake_at
  | None => (now + minutes (default 30 (sr_wake_in_minutes req)))%Z
  end.

Definition record_cycle (now : datetime) (result : AmbientCycleResult) (state : AmbientState)
    : AmbientState := {|
  as_last_run := Some (cr_ended_at result);
  as_last_summary := Some (cr_summary result);
  as_last_compactions := Some (cr_compactions result);
  as_last_memories_modified := Some (cr_memories_modified result);
  as_total_cycles := u64_succ (as_total_cycles state);
  as_status := match cr_status result, cr_next_schedule result with
               | CycleComplete, Some req => AmbientScheduled (wake_time now req)
               | _, _ => AmbientIdle
               end;
|}.

(** ** The queue *)

Record ScheduledQueue := { q_items : list ScheduledItem; q_path : string }.

Definition set_items (items : list ScheduledItem) (q : ScheduledQueue) : ScheduledQueue :=
  {| q_items := items; q_path := q_path q |}.

(** Loading does not fail: an unreadable queue is empty. *)
Definition queue_load (path : string) : IO ScheduledQueue :=
  exists_ <-! io_exists path;
  items <-! (if exists_ then io_or (read_json parse_queue path) [] else io_ret []);
  io_ret {| q_items := items; q_path := path |}.

Definition queue_save (q : ScheduledQueue) : IO unit :=
  write_json tmp_suffix (q_path q) (queue_json (q_items q)).

Definition queue_push (item : ScheduledItem) (q : ScheduledQueue) : IO ScheduledQueue :=
  let q := set_items (q_items q ++ [item]) q in
  io_ignore (queue_save q) ;!
  io_ret q.

Definition priority_rank (p : Priority) : nat :=
  match p with PriorityLow => 0 | PriorityNormal => 1 | PriorityHigh => 2 end.

(** Highest priority first, then the earliest. *)
Definition item_leb (a b : ScheduledItem) : bool :=
  let (ra, rb) := (priority_rank (sc_priority a), priority_rank (sc_priority b)) in
  if ra =? rb then (sc_scheduled_for a <=? sc_scheduled_for b)%Z else rb <? ra.

Definition is_due (now : datetime) (item : ScheduledItem) : bool := (sc_scheduled_for item <=? now)%Z.

(** [pop_ready] and [take_ready_direct_items]: the items that satisfy [ready]
    leave the queue, which is saved when there are any. *)
Definition take_items (ready : ScheduledItem → bool) (q : ScheduledQueue)
    : IO (list ScheduledItem * ScheduledQueue) :=
  let taken := filter (λ item, ready item = true) (q_items q) in
  let q := set_items (filter (λ item, ready item = false) (q_items q)) q in
  (if is_nil taken then io_ret () else io_ignore (queue_save q)) ;!
  io_ret (sort_by item_leb taken, q).

Definition pop_ready (now : datetime) : ScheduledQueue → IO (list ScheduledItem * ScheduledQueue) :=
  take_items (is_due now).

Definition take_ready_direct_items (now : datetime)
    : ScheduledQueue → IO (list ScheduledItem * ScheduledQueue) :=
  take_items (λ item, is_due now item && is_direct_delivery (sc_target item)).

(** [min_by_key], which keeps the first of equal items. *)
Fixpoint earliest (items : list ScheduledItem) : option ScheduledItem :=
  match items with
  | [] => None
  | item :: items =>
      match earliest items with
      | Some next => if (sc_scheduled_for item <=? sc_scheduled_for next)%Z then Some item else Some next
      | None => Some item
      end
  end.

Definition peek_next (q : ScheduledQueue) : option ScheduledItem := earliest (q_items q).

(** ** The lock *)

(** Whether the lock is free; a lock of a process that is gone is removed. *)
Definition lock_check (is_pid_alive : u32 → bool) (path : string) : IO bool :=
  exists_ <-! io_exists path;
  if exists_ then
    contents <-! io_or (text <-! read_to_string path; io_ret (Some text)) None;
    if from_option is_pid_alive false (contents ≫= λ text, parse_u32 (trim text)) then io_ret false
    else io_ignore (remove_file path) ;! io_ret true
  else io_ret true.

Definition lock_write (pid : u32) (path : string) : IO unit :=
  ensure_dir (path_parent path) ;!
  fs_write path (pretty pid).

(** The path of the lock, when it was acquired. *)
Definition try_acquire (is_pid_alive : u32 → bool) (pid : u32) : IO (option string) :=
  path <-! lock_path;
  free <-! lock_check is_pid_alive path;
  if free : bool then lock_write pid path ;! io_ret (Some path) else io_ret None.

(** [release], and dropping a lock. *)
Definition lock_release (path : string) : IO unit := io_ignore (remove_file path).

(** ** The manager ([manager.rs]) *)

Record AmbientManager := { mg_state : AmbientState; mg_queue : ScheduledQueue }.

Definition manager_new : IO AmbientManager :=
  ambient_dir ;!
  transcripts_dir ;!
  state <-! ambient_state_load;
  path <-! queue_path;
  queue <-! queue_load path;
  io_ret {| mg_state := state; mg_queue := queue |}.

Definition should_run (enabled : bool) (now : datetime) (m : AmbientManager) : bool :=
  enabled && match as_status (mg_state m) with
             | AmbientDisabled | AmbientPaused _ | AmbientRunning _ => false
             | AmbientIdle => true
             | AmbientScheduled next_wake => (next_wake <=? now)%Z
             end.

Definition item_of_request (now : datetime) (id : string) (req : ScheduleRequest) : ScheduledItem := {|
  sc_id := id; sc_scheduled_for := wake_time now req; sc_context := sr_context req;
  sc_priority := sr_priority req; sc_target := sr_target req;
  sc_created_by_session := sr_created_by_session req; sc_created_at := now;
  sc_working_dir := sr_working_dir req; sc_task_description := sr_task_description req;
  sc_relevant_files := sr_relevant_files req; sc_git_branch := sr_git_branch req;
  sc_additional_context := sr_additional_context req;
|}.

(** The identifier is random. *)
Definition schedule (now : datetime) (id : string) (req : ScheduleRequest) (m : AmbientManager)
    : IO AmbientManager :=
  queue <-! queue_push (item_of_request now id req) (mg_queue m);
  io_ret {| mg_state := mg_state m; mg_queue := queue |}.

Definition record_cycle_result (now : datetime) (id : string) (result : AmbientCycleResult)
    (m : AmbientManager) : IO AmbientManager :=
  let m := {| mg_state := record_cycle now result (mg_state m); mg_queue := mg_queue m |} in
  ambient_state_save (mg_state m) ;!
  match cr_next_schedule result with
  | Some req => schedule now id req m
  | None => io_ret m
  end.

Definition manager_take_direct (now : datetime) (m : AmbientManager)
    : IO (list ScheduledItem * AmbientManager) :=
  taken <-! take_ready_direct_items now (mg_queue m);
  io_ret (taken.1, {| mg_state := mg_state m; mg_queue := taken.2 |}).

(** ** Tools of the ambient agent ([src/tool/ambient.rs]) *)

Definition parse_priority (s : option string) : Priority :=
  match s with
  | Some s => if s =s "low" then PriorityLow else if s =s "high" then PriorityHigh else PriorityNormal
  | None => PriorityNormal
  end.

Definition parse_schedule_target (s : option string) (session_id : string) : ScheduleTarget + string :=
  match s with
  | None => inl (TargetSession session_id)
  | Some s =>
      if s =s "ambient" then inl TargetAmbient
      else if s =s "spawn" then inl (TargetSpawn session_id)
      else if s =s "resume" then inl (TargetSession session_id)
      else inr ("Invalid target '" +:+ s +:+ "'. Expected one of: resume, spawn, ambient")
  end.

(** The part of [end_ambient_cycle] that stores the state, before the runner
    records the result again; the answer is whether the state could be read. *)
Definition end_cycle_store (now : datetime) (summary : string) (compactions memories_modified : u32)
    : IO bool := λ w,
  match ambient_state_load w with
  | (inr _, w) => (inl false, w)
  | (inl state, w) =>
      let state := {| as_status := as_status state; as_last_run := Some now; as_last_summary := Some summary;
                      as_last_compactions := Some compactions;
                      as_last_memories_modified := Some memories_modified;
                      as_total_cycles := u64_succ (as_total_cycles state) |} in
      (inl true, (io_ignore (ambient_state_save state) w).2)
  end.

(** ** Directives ([directives.rs]) *)

Definition load_directives : IO (list UserDirective) :=
  io_or (path <-! directives_path;
         exists_ <-! io_exists path;
         if exists_ then read_json parse_directives path else io_ret []) [].

Definition save_directives (directives : list UserDirective) : IO unit :=
  path <-! directives_path;
  write_json tmp_suffix path (directives_json directives).

Definition add_directive (now : datetime) (id text in_reply_to : string) : IO unit :=
  directives <-! load_directives;
  save_directives (directives ++ [{| ud_id := id; ud_text := text; ud_received_at := now;
                                     ud_in_reply_to_cycle := in_reply_to; ud_consumed := false |}]).

Definition consume (d : UserDirective) : UserDirective := {|
  ud_id := ud_id d; ud_text := ud_text d; ud_received_at := ud_received_at d;
  ud_in_reply_to_cycle := ud_in_reply_to_cycle d; ud_consumed := true;
|}.

Definition take_pending_directives : IO (list UserDirective) :=
  all <-! load_directives;
  let pending := filter (λ d, ud_consumed d = false) all in
  if is_nil pending then io_ret pending
  else
    io_ignore (save_directives (consume <$> all)) ;!
    io_ret pending.

Definition has_pending_directives : IO bool :=
  all <-! load_directives;
  io_ret (existsb (λ d, negb (ud_consumed d)) all).

(** ** The usage log ([scheduler.rs]) *)

Definition SAVE_INTERVAL : usize := 10.
Definition PRUNE_AGE_HOURS : Z := 24.

Record UsageLog := {
  ul_records : list UsageRecord;
  ul_path : string;
  ul_unsaved_count : usize;
}.

(** Where the log is, when there is no directory of the program, is an argument. *)
Definition usage_path (temp_dir : string) : IO string :=
  base <-! io_or gcode_dir temp_dir;
  io_ret (path_join (path_join base "ambient") "usage.json").

Definition usage_load (temp_dir : string) : IO UsageLog :=
  path <-! usage_path temp_dir;
  exists_ <-! io_exists path;
  records <-! (if exists_ then io_or (read_json parse_usage path) [] else io_ret []);
  io_ret {| ul_records := records; ul_path := path; ul_unsaved_count := 0 |}.

Definition prune (now : datetime) (log : UsageLog) : UsageLog := {|
  ul_records := filter (λ r, now - minutes (PRUNE_AGE_HOURS * 60) <= ur_timestamp r)%Z (ul_records log);
  ul_path := ul_path log; ul_unsaved_count := ul_unsaved_count log;
|}.

(** The log after [save], and whether it was stored. *)
Definition usage_save (now : datetime) (log : UsageLog) : World → bool * UsageLog * World := λ w,
  let log := prune now log in
  match write_json tmp_suffix (ul_path log) (usage_json (ul_records log)) w with
  | (inl _, w) => (true, {| ul_records := ul_records log; ul_path := ul_path log; ul_unsaved_count := 0 |}, w)
  | (inr _, w) => (false, log, w)
  end.

Definition usage_record (now : datetime) (r : UsageRecord) (log : UsageLog) : World → UsageLog * World := λ w,
  let log := {| ul_records := ul_records log ++ [r]; ul_path := ul_path log;
                ul_unsaved_count := S (ul_unsaved_count log) |} in
  if SAVE_INTERVAL <=? ul_unsaved_count log then
    let '(_, log, w) := usage_save now log w in (log, w)
  else (log, w).

End ambient.

(** The records of a source in the window before now; the window is short
    enough for [chrono]. *)
Definition in_window (now : datetime) (source : UsageSource) (window : Z) (log : UsageLog)
    : list UsageRecord :=
  filter (λ r, ur_source r = source ∧ (now - window <= ur_timestamp r)%Z) (ul_records log).

Definition token_sum (records : list UsageRecord) : u64 :=
  foldl (λ n r, wrap_u 64 (n + total_tokens r)) 0%Z records.

Definition total_tokens_in_window (now : datetime) (source : UsageSource) (window : Z) (log : UsageLog)
    : u64 :=
  token_sum (in_window now source window log).

(** [Duration::as_secs_f32] *)
Definition as_secs_f32 (d : Z) : f32 :=
  f32_add (f32_of_unsigned (d / NANOS)) (f32_div (f32_of_unsigned (d mod NANOS)) (f32_of_unsigned NANOS)).

Definition rate_per_minute (now : datetime) (source : UsageSource) (window : Z) (log : UsageLog) : f32 :=
  let total := total_tokens_in_window now source window log in
  let mins := f32_div (as_secs_f32 window) (f32_of_unsigned 60) in
  if f32_gt mins f32_0_0 then f32_div (f32_of_unsigned total) mins else f32_0_0.

Definition avg_tokens_per_ambient_cycle (last_n : usize) (log : UsageLog) : option f64 :=
  let ambient := take last_n (filter (λ r, ur_source r = UsageAmbient) (reverse (ul_records log))) in
  if is_nil ambient then None
  else Some (f64_div (f64_of_Z (token_sum ambient)) (f64_of_Z (Z.of_nat (length ambient)))).

(** ** The scheduler *)

Record AmbientSchedulerConfig := {
  cf_min_interval_minutes : u32;
  cf_max_interval_minutes : u32;
  cf_pause_on_active_session : bool;
  cf_user_budget_reserve : f32;
}.

Definition scheduler_config_default : AmbientSchedulerConfig := {|
  cf_min_interval_minutes := 5; cf_max_interval_minutes := 120;
  cf_pause_on_active_session := true; cf_user_budget_reserve := f32_0_8;
|}.

Record AdaptiveScheduler := {
  sd_usage_log : UsageLog;
  sd_config : AmbientSchedulerConfig;
  sd_backoff_multiplier : u32;
  sd_user_active : bool;
}.

Definition DURATION_MAX : Z := (2 ^ 64 * NANOS - 1)%Z.

(** [Duration::saturating_mul] *)
Definition duration_mul (d : Z) (n : u32) : Z := Z.min (d * n) DURATION_MAX.

(** [Ord::clamp], which panics when the bounds are the wrong way round. *)
Definition duration_clamp (d lo hi : Z) : option Z :=
  if (hi <? lo)%Z then None else Some (Z.max lo (Z.min d hi)).

Definition min_interval (s : AdaptiveScheduler) : Z := minutes (cf_min_interval_minutes (sd_config s)).
Definition max_interval (s : AdaptiveScheduler) : Z := minutes (cf_max_interval_minutes (sd_config s)).

Definition apply_backoff (s : AdaptiveScheduler) (interval : Z) : option Z :=
  duration_clamp (duration_mul interval (sd_backoff_multiplier s)) (min_interval s) (max_interval s).

(** Rounding to the nearest integer, to the even one of two. *)
Definition round_half_even (n d : Z) : Z :=
  let q := (n / d)%Z in
  match (2 * (n mod d) ?= d)%Z with
  | Lt => q
  | Gt => (q + 1)%Z
  | Eq => if Z.even q then q else (q + 1)%Z
  end.

(** [Duration::from_secs_f64]: to the nearest nanosecond; a panic when the
    number is negative, too large or no number. *)
Definition from_secs_f64 (x : f64) : option Z :=
  match x with
  | S754_zero _ => Some 0%Z
  | S754_finite false m e =>
      let nanos := if (0 <=? e)%Z then (Z.pos m * 2 ^ e * NANOS)%Z
                   else round_half_even (Z.pos m * NANOS) (2 ^ (- e)) in
      if (nanos <=? DURATION_MAX)%Z then Some nanos else None
  | _ => None
  end.

(** [calculate_interval] without its backoff and bounds: the seconds between two
    cycles that the budget allows; [None] when there is no headroom. *)
Definition interval_secs (now : datetime) (s : AdaptiveScheduler) (info : RateLimitInfo) : option f64 :=
  let window_remaining_secs :=
    match rl_reset_at info with
    | Some reset_at => f64_of_Z (Z.max (num_seconds (reset_at - now)) 0)
    | None => f64_of_Z 3600
    end in
  let tokens_remaining := f64_of_Z (default 0%Z (rl_remaining_tokens info)) in
  if f64_le tokens_remaining f64_zero || f64_le window_remaining_secs f64_zero then None
  else
    let user_rate := f64_of_f32 (rate_per_minute now UsageUser (3600 * NANOS) (sd_usage_log s)) in
    let window_remaining_minutes := f64_div window_remaining_secs (f64_of_Z 60) in
    let user_projected := f64_mul user_rate window_remaining_minutes in
    let ambient_fraction := f64_sub (f64_of_Z 1) (f64_of_f32 (cf_user_budget_reserve (sd_config s))) in
    let ambient_budget := f64_mul (f64_sub tokens_remaining user_projected) ambient_fraction in
    if f64_le ambient_budget f64_zero then None
    else
      let tokens_per_cycle := default (f64_of_Z 10000) (avg_tokens_per_ambient_cycle 5 (sd_usage_log s)) in
      let cycles_available := f64_div ambient_budget tokens_per_cycle in
      Some (if f64_lt f64_zero cycles_available then f64_div window_remaining_secs cycles_available
            else window_remaining_secs).

(** [None] is a panic. *)
Definition calculate_interval (now : datetime) (s : AdaptiveScheduler) (rate_limit_info : option RateLimitInfo)
    : option Z :=
  match rate_limit_info ≫= interval_secs now s with
  | None => apply_backoff s (max_interval s)
  | Some secs =>
      interval ← from_secs_f64 secs;
      interval ← duration_clamp interval (min_interval s) (max_interval s);
      apply_backoff s interval
  end.

Definition should_pause (s : AdaptiveScheduler) : bool :=
  cf_pause_on_active_session (sd_config s) && sd_user_active s.

Definition with_backoff (n : u32) (s : AdaptiveScheduler) : AdaptiveScheduler := {|
  sd_usage_log := sd_usage_log s; sd_config := sd_config s; sd_backoff_multiplier := n;
  sd_user_active := sd_user_active s;
|}.

Definition set_user_active (active : bool) (s : AdaptiveScheduler) : AdaptiveScheduler := {|
  sd_usage_log := sd_usage_log s; sd_config := sd_config s;
  sd_backoff_multiplier := sd_backoff_multiplier s; sd_user_active := active;
|}.

Definition on_rate_limit_hit (s : AdaptiveScheduler) : AdaptiveScheduler :=
  with_backoff (Z.min (Z.min (sd_backoff_multiplier s * 2) (2 ^ 32 - 1)) 64) s.

Definition on_successful_cycle : AdaptiveScheduler → AdaptiveScheduler := with_backoff 1.

(** [AdaptiveScheduler::new] *)
Definition scheduler_new `{AmbientCodec} (temp_dir : string) (config : AmbientSchedulerConfig)
    : IO AdaptiveScheduler :=
  log <-! usage_load temp_dir;
  io_ret {| sd_usage_log := log; sd_config := config; sd_backoff_multiplier := 1; sd_user_active := false |}.

(** ** The queue is conserved *)

Class AmbientCodecLaws `{AmbientCodec} := {
  ambient_state_utf8 x : utf8_valid (ambient_state_json x) = true;
  parse_ambient_state_json x : parse_ambient_state (ambient_state_json x) = Some x;
  queue_utf8 x : utf8_valid (queue_json x) = true;
  parse_queue_json x : parse_queue (queue_json x) = Some x;
  directives_utf8 x : utf8_valid (directives_json x) = true;
  parse_directives_json x : parse_directives (directives_json x) = Some x;
}.

Lemma scheduled_leb_total a b : item_leb a b = true ∨ item_leb b a = true.
Proof.
  unfold item_leb. rewrite (Nat.eqb_sym (priority_rank (sc_priority b))). destruct (_ =? _) eqn:E.
  - destruct (Z.le_ge_cases (sc_scheduled_for a) (sc_scheduled_for b)); [left|right]; by apply Z.leb_le.
  - apply Nat.eqb_neq in E. rewrite !Nat.ltb_lt. lia.
Qed.

Lemma item_leb_spec a b :
  item_leb a b = true ↔
  priority_rank (sc_priority b) < priority_rank (sc_priority a)
  ∨ priority_rank (sc_priority a) = priority_rank (sc_priority b)
    ∧ (sc_scheduled_for a <= sc_scheduled_for b)%Z.
Proof.
  unfold item_leb. destruct (_ =? _) eqn:E.
  - apply Nat.eqb_eq in E. rewrite Z.leb_le. lia.
  - apply Nat.eqb_neq in E. rewrite Nat.ltb_lt. lia.
Qed.

Lemma scheduled_leb_trans a b c : item_leb a b = true → item_leb b c = true → item_leb a c = true.
Proof. rewrite !item_leb_spec. lia. Qed.

Section queue_theorems.
Context `{AmbientCodec} `{!AmbientCodecLaws} (tmp_suffix : string).

Lemma filter_split {A} (p : A → bool) l :
  filter (λ x, p x = true) l ++ filter (λ x, p x = false) l ≡ₚ l.
Proof.
  induction l as [|x l IH]; [done|]. destruct (p x) eqn:E.
  - rewrite filter_cons_True, filter_cons_False by congruence. cbn [app]. by rewrite IH.
  - rewrite filter_cons_False, filter_cons_True by congruence. by rewrite <- Permutation_middle, IH.
Qed.

Lemma filter_again {A} (p : A → bool) l :
  filter (λ x, p x = true) (filter (λ x, p x = false) l) = []
  ∧ filter (λ x, p x = false) (filter (λ x, p x = false) l) = filter (λ x, p x = false) l.
Proof.
  induction l as [|x l [IH1 IH2]]; [done|]. destruct (p x) eqn:E.
  - by rewrite filter_cons_False by congruence.
  - rewrite (filter_cons_True (λ x, p x = false)) by done. split.
    + by rewrite filter_cons_False by congruence.
    + rewrite filter_cons_True by done. by rewrite IH2.
Qed.

Lemma filter_nothing {A} (p : A → bool) l : filter (λ x, p x = true) l = [] → filter (λ x, p x = false) l = l.
Proof.
  induction l as [|x l IH]; [done|]. destruct (p x) eqn:E.
  - by rewrite filter_cons_True.
  - rewrite filter_cons_False, filter_cons_True by congruence. intros Hl. by rewrite IH.
Qed.

Lemma queue_load_ok path text items w :
  reliable w → w_files w !! path = Some text → utf8_valid text = true → parse_queue text = Some items →
  queue_load path w = (inl {| q_items := items; q_path := path |}, w).
Proof.
  intros Hr Hf Hu Hp.
  pose proof (read_json_ok parse_queue path text items w Hr Hf Hu Hp) as E.
  unfold queue_load, io_bind, io_exists, path_exists, io_or. rewrite Hf, bool_decide_true by done.
  cbn [orb]. by rewrite E.
Qed.

(** The stored queue after a write that may fail on its way. *)
Lemma queue_save_stored q before w :
  (∃ s, q_path q = s +:+ ".json") → w_files w !! q_path q = Some before →
  let f := w_files (queue_save tmp_suffix q w).2 in
  f !! q_path q = Some (queue_json (q_items q)) ∨ f !! q_path q = Some before
  ∨ (f !! q_path q = None ∧ f !! with_extension (q_path q) "bak" = Some before).
Proof.
  intros [s Hs] Hf. pose proof (json_path_apart s tmp_suffix) as (Htp & Hbp & Htb). rewrite <- Hs in *.
  pose proof (write_bytes_inner_wp tmp_suffix (q_path q) true Htp Hbp Htb
                (queue_json (q_items q)) (w_files w) w eq_refl) as Hw.
  unfold wp in Hw. cbn zeta. change (queue_save tmp_suffix q w)
    with (write_bytes_inner tmp_suffix (q_path q) (queue_json (q_items q)) true w).
  destruct (write_bytes_inner _ _ _ _ w) as [[]w']; cbn; [by left|]. rewrite <- Hf. tauto.
Qed.

(** C33. Delivering scheduled items, from a queue that is stored: whatever calls
    fail, the answer is the items that are due and for a session, by falling
    priority and then by time, and the others stay in the queue in their order,
    the due items for the ambient agent among them; on disk the queue is the new
    one, or the old one, or its file is gone and the old one is in the backup,
    which a start does not read ([backup_of_the_queue_is_not_read]). When no call
    fails the new queue is stored, a program that starts finds it, and delivering
    again at the same time takes nothing. *)
Theorem due_items_taken now q w :
  (∃ s, q_path q = s +:+ ".json") → w_files w !! q_path q = Some (queue_json (q_items q)) →
  ∃ taken q' w', take_ready_direct_items tmp_suffix now q w = (inl (taken, q'), w')
    ∧ taken ++ q_items q' ≡ₚ q_items q ∧ q_items q' `sublist_of` q_items q
    ∧ (∀ item, item ∈ taken ↔ item ∈ q_items q ∧ is_due now item = true
                              ∧ is_direct_delivery (sc_target item) = true)
    ∧ StronglySorted (λ a b, item_leb a b = true) taken
    ∧ (let f := w_files w' in
       f !! q_path q = Some (queue_json (q_items q')) ∨ f !! q_path q = Some (queue_json (q_items q))
       ∨ (f !! q_path q = None ∧ f !! with_extension (q_path q) "bak" = Some (queue_json (q_items q))))
    ∧ (reliable w → queue_load (q_path q) w' = (inl q', w')
                    ∧ take_ready_direct_items tmp_suffix now q' w' = (inl ([], q'), w')).
Proof.
  intros Hpath Hf. unfold take_ready_direct_items.
  set (ready := λ item, is_due now item && is_direct_delivery (sc_target item)).
  unfold take_items at 1. set (taken := filter (λ item, ready item = true) (q_items q)).
  set (q' := set_items (filter (λ item, ready item = false) (q_items q)) q).
  assert (∃ w', (if is_nil taken then io_ret () else io_ignore (queue_save tmp_suffix q')) w = (inl (), w')
    ∧ (w_files w' !! q_path q = Some (queue_json (q_items q'))
       ∨ w_files w' !! q_path q = Some (queue_json (q_items q))
       ∨ (w_files w' !! q_path q = None
          ∧ w_files w' !! with_extension (q_path q) "bak" = Some (queue_json (q_items q))))
    ∧ (reliable w → reliable w' ∧ w_files w' !! q_path q = Some (queue_json (q_items q'))))
    as (w' & E & Hst & Hrel).
  { destruct taken as [|item rest] eqn:Et; cbn [is_nil].
    - exists w. unfold q', set_items. cbn [q_items]. rewrite filter_nothing by done. auto.
    - exists (queue_save tmp_suffix q' w).2. split; [done|]. split.
      + by apply (queue_save_stored q').
      + intros Hr. destruct Hpath as [s Hs].
        destruct (write_json_done tmp_suffix (q_path q) (queue_json (q_items q')) w) as (w1 & E1 & Hr1 & _ & Hf1 & _);
          [rewrite Hs; apply json_path_apart|done|].
        change (queue_save tmp_suffix q' w) with (write_json tmp_suffix (q_path q) (queue_json (q_items q')) w).
        by rewrite E1. }
  exists (sort_by item_leb taken), q', w'. split_and!.
  - unfold io_bind. by rewrite E.
  - rewrite sort_by_perm. apply filter_split.
  - apply sublist_filter.
  - intros item. rewrite elem_of_sort_by. unfold taken. rewrite list_elem_of_filter. unfold ready.
    rewrite andb_true_iff. tauto.
  - apply sort_by_sorted; [apply scheduled_leb_total|apply scheduled_leb_trans].
  - done.
  - intros Hr. destruct (Hrel Hr) as [Hr' Hf']. split.
    + by rewrite (queue_load_ok (q_path q) (queue_json (q_items q')) (q_items q'))
        by (done || apply queue_utf8 || apply parse_queue_json).
    + unfold take_items. cbn [q_items q' set_items].
      destruct (filter_again ready (q_items q)) as [-> ->]. done.
Qed.
End queue_theorems.

(** ** The interval between two cycles *)

Inductive SchedulerEvent := RateLimitHit | CycleSucceeded | UserActive (active : bool).

Definition scheduler_event (s : AdaptiveScheduler) (e : SchedulerEvent) : AdaptiveScheduler :=
  match e with
  | RateLimitHit => on_rate_limit_hit s
  | CycleSucceeded => on_successful_cycle s
  | UserActive active => set_user_active active s
  end.

(** The rate limits hit since the last successful cycle. *)
Definition count_hit (n : nat) (e : SchedulerEvent) : nat :=
  match e with RateLimitHit => S n | CycleSucceeded => 0 | UserActive _ => n end.

Definition hits_since_success : list SchedulerEvent → nat := foldl count_hit 0.

Lemma scheduler_events_backoff s events k :
  sd_backoff_multiplier s = (2 ^ Z.of_nat (k `min` 6))%Z →
  let s' := foldl scheduler_event s events in
  sd_usage_log s' = sd_usage_log s ∧ sd_config s' = sd_config s
  ∧ sd_backoff_multiplier s' = (2 ^ Z.of_nat (foldl count_hit k events `min` 6))%Z.
Proof.
  revert s k. induction events as [|e events IH]; intros s k Hs; cbn [foldl]; [done|].
  assert (sd_backoff_multiplier (scheduler_event s e)
    = (2 ^ Z.of_nat (count_hit k e `min` 6))%Z) as He.
  { destruct e; cbn; [|done|done]. rewrite Hs.
    do 7 (destruct k as [|k]; [by vm_compute|]). rewrite !Nat.min_r by lia. done. }
  destruct (IH _ _ He) as (-> & -> & ->). by destruct e.
Qed.

Definition backoff_config (c : AmbientSchedulerConfig) : Prop :=
  (0 <= cf_min_interval_minutes c <= cf_max_interval_minutes c)%Z
  ∧ (cf_max_interval_minutes c < 2 ^ 32)%Z.

Lemma apply_backoff_min s d k :
  backoff_config (sd_config s) → (min_interval s <= d <= max_interval s)%Z → k ≤ 6 →
  sd_backoff_multiplier s = (2 ^ Z.of_nat k)%Z →
  apply_backoff s d = Some (Z.min (max_interval s) (d * 2 ^ Z.of_nat k))%Z.
Proof.
  intros [[H1 H2] H3] Hd Hk Hm. unfold apply_backoff, duration_clamp, duration_mul. rewrite Hm.
  unfold min_interval, max_interval, minutes, NANOS, DURATION_MAX in *.
  assert (1 <= 2 ^ Z.of_nat k <= 64)%Z as Hp.
  { change 64%Z with (2 ^ 6)%Z. split; [apply (Z.pow_le_mono_r 2 0)|apply Z.pow_le_mono_r]; lia. }
  destruct (_ <? _)%Z eqn:E; [apply Z.ltb_lt in E; lia|]. f_equal.
  rewrite (Z.min_l _ (_ - 1)) by (unfold NANOS; nia). nia.
Qed.

Lemma apply_backoff_max s :
  backoff_config (sd_config s) → (1 <= sd_backoff_multiplier s)%Z →
  apply_backoff s (max_interval s) = Some (max_interval s).
Proof.
  intros [[H1 H2] H3] Hm. unfold apply_backoff, duration_clamp, duration_mul.
  unfold min_interval, max_interval, minutes, NANOS, DURATION_MAX in *.
  destruct (_ <? _)%Z eqn:E; [apply Z.ltb_lt in E; lia|]. f_equal.
  unfold NANOS. nia.
Qed.

(** The time between two cycles, for a configuration whose bounds are the
    right way round: it is within the bounds; after any rate limits and
    successful cycles it is the interval of a fresh scheduler doubled for each
    rate limit since the last success, six times at most, and cut at the upper
    bound, so a rate limit never shortens it; and when the limits of the
    provider are not known it is always the upper bound. *)
Theorem interval_bounded now s info events :
  backoff_config (sd_config s) → sd_backoff_multiplier s = 1%Z →
  let s' := foldl scheduler_event s events in
  match calculate_interval now s info with
  | None => calculate_interval now s' info = None
  | Some d => (min_interval s <= d <= max_interval s)%Z
      ∧ calculate_interval now s' info
        = Some (Z.min (max_interval s) (d * 2 ^ Z.of_nat (hits_since_success events `min` 6)))%Z
  end
  ∧ calculate_interval now s' None = Some (max_interval s).
Proof.
  intros Hc H1. cbn zeta.
  destruct (scheduler_events_backoff s events 0 H1) as (Hlog & Hcfg & Hm).
  fold (hits_since_success events) in Hm. set (s' := foldl _ _ _) in *.
  assert (Hmin : min_interval s' = min_interval s) by (unfold min_interval; by rewrite Hcfg).
  assert (Hmax : max_interval s' = max_interval s) by (unfold max_interval; by rewrite Hcfg).
  assert (Hb : (0 <= min_interval s <= max_interval s)%Z).
  { destruct Hc as [[]]. unfold min_interval, max_interval, minutes, NANOS. lia. }
  assert (Happly : ∀ d, (min_interval s <= d <= max_interval s)%Z →
    apply_backoff s d = Some d
    ∧ apply_backoff s' d = Some (Z.min (max_interval s) (d * 2 ^ Z.of_nat (hits_since_success events `min` 6)))%Z).
  { intros d Hd. split.
    - rewrite (apply_backoff_min s d 0) by (done || lia). f_equal. lia.
    - rewrite (apply_backoff_min s' d (hits_since_success events `min` 6));
        [by rewrite Hmax|by rewrite Hcfg|by rewrite Hmin, Hmax|lia|done]. }
  assert (Hmaxmul : ∀ k, Z.min (max_interval s) (max_interval s * 2 ^ Z.of_nat k) = max_interval s).
  { intros k. assert (1 <= 2 ^ Z.of_nat k)%Z by (apply (Z.pow_le_mono_r 2 0); lia). nia. }
  assert (Hsecs : ∀ info, interval_secs now s' info = interval_secs now s info).
  { intros i. unfold interval_secs. by rewrite Hlog, Hcfg. }
  destruct (Happly (max_interval s)) as [Ha Ha']; [lia|]. rewrite Hmaxmul in Ha'.
  split; [|unfold calculate_interval; cbn; by rewrite Hmax].
  unfold calculate_interval. destruct info as [info|]; cbn [mbind option_bind];
    [rewrite Hsecs; destruct (interval_secs now s info) as [secs|]|]; cbn [mbind option_bind];
    rewrite ?Hmax, ?Ha; [|split; [lia|by rewrite Ha', Hmaxmul]..].
  destruct (from_secs_f64 secs) as [d|]; cbn [mbind option_bind]; [|done].
  unfold duration_clamp at 1 2. rewrite Hmin.
  destruct (max_interval s <? min_interval s)%Z eqn:E; [apply Z.ltb_lt in E; lia|]. cbn [mbind option_bind].
  destruct (Happly (Z.max (min_interval s) (Z.min d (max_interval s)))) as [-> Hd']; [lia|].
  split; [lia|done].
Qed.
