(* ===== verification/AmbientRunner.v ===== *)
(** * The ambient runner ([src/ambient/runner.rs], [src/ambient/prompt.rs])

    The prompt of a cycle, the tools that end one and schedule the next, the
    handle the server holds and the turns of the background loop. *)

From S2P Require Import Prelude Utf8 Text SwarmPlan F32 Messages SessionTypes SessionState SessionOps Storage StorageTheorems SessionStore SwarmServerTypes Safety Ambient.
Open Scope nat_scope.
Open Scope io_scope.

(** ** Texts ([prompt.rs]) *)

Definition format_duration_rough (d : Z) : string :=
  let secs := Z.max (num_seconds d) 0 in
  (if secs <? 60 then pretty secs +:+ "s"
   else if secs <? 3600 then pretty (secs / 60) +:+ "m"
   else if secs <? 86400 then
     let h := secs / 3600 in
     let m := (secs mod 3600) / 60 in
     if 0 <? m then pretty h +:+ "h " +:+ pretty m +:+ "m" else pretty h +:+ "h"
   else pretty (secs / 86400) +:+ "d")%Z.

Definition format_minutes_human (mins : u32) : string :=
  (if mins <? 60 then pretty mins +:+ "m"
   else if mins <? 1440 then
     let h := mins / 60 in
     let m := mins mod 60 in
     if 0 <? m then pretty h +:+ "h " +:+ pretty m +:+ "m" else pretty h +:+ "h"
   else
     let d := mins / 1440 in
     let h := (mins mod 1440) / 60 in
     if 0 <? h then pretty d +:+ "d " +:+ pretty h +:+ "h" else pretty d +:+ "d")%Z.

(** A line for an option, when it is there. *)
Definition line_of (prefix : string) (o : option string) : list string :=
  match o with Some x => [prefix +:+ x] | None => [] end.

Definition format_scheduled_session_message (item : ScheduledItem) : string :=
  join nl
    (["[Scheduled task]"; "A scheduled task for this session is now due."; "";
      "Task: " +:+ default (sc_context item) (sc_task_description item)]
     ++ line_of "Working directory: " (sc_working_dir item)
     ++ (if is_nil (sc_relevant_files item) then []
         else ["Relevant files: " +:+ join ", " (sc_relevant_files item)])
     ++ line_of "Branch: " (sc_git_branch item)
     ++ match sc_additional_context item with Some ctx => [""; ctx] | None => [] end).

Record MemoryGraphHealth := {
  mh_total : usize;
  mh_active : usize;
  mh_inactive : usize;
  mh_low_confidence : usize;
  mh_contradictions : usize;
  mh_missing_embeddings : usize;
  mh_duplicate_candidates : usize;
  mh_last_consolidation : option datetime;
}.

Record RecentSessionInfo := {
  rs_id : string;
  rs_status : string;
  rs_topic : option string;
  rs_duration_secs : Z;
  rs_extraction_status : string;
}.

Record ResourceBudget := {
  rb_provider : string;
  rb_tokens_remaining_desc : string;
  rb_window_resets_desc : string;
  rb_user_usage_rate_desc : string;
  rb_cycle_budget_desc : string;
}.

Section recent.
Context `{SessionCodec} `{HashOrder}.

Definition recent_session_info (s : Session) : RecentSessionInfo := {|
  rs_id := se_id s;
  rs_status := status_display (se_status s);
  rs_topic := se_title s;
  rs_duration_secs := Z.max (num_seconds (se_updated_at s - se_created_at s)) 0;
  rs_extraction_status :=
    if is_nil (se_messages s) then "no messages"
    else match se_status s with
         | StatusClosed => "extracted"
         | StatusCrashed _ => "missed"
         | StatusActive => "in progress"
         | _ => "unknown"
         end;
|}.

(** The loop over the directory; what cannot be loaded is passed over. *)
Fixpoint recent_sessions (cutoff : datetime) (entries : list (string * string)) (w : World)
    : list RecentSessionInfo * World :=
  match entries with
  | [] => ([], w)
  | (name, _) :: rest =>
      if bool_decide (file_extension name = Some "json") then
        match load (file_stem name) w with
        | (inl s, w) =>
            let '(infos, w) := recent_sessions cutoff rest w in
            (if se_is_debug s || (se_updated_at s <? cutoff)%Z then infos
             else recent_session_info s :: infos, w)
        | (inr _, w) => recent_sessions cutoff rest w
        end
      else recent_sessions cutoff rest w
  end.

Definition gather_recent_sessions (now : datetime) (since : option datetime)
    (w : World) : list RecentSessionInfo * World :=
  match w_gcode_dir w with
  | inr _ => ([], w)
  | inl base =>
      let dir := path_join base "sessions" in
      if path_exists dir w then
        let cutoff := default (now - minutes (24 * 60))%Z since in
        let '(recent, w) := recent_sessions cutoff (dir_entries dir w) w in
        (take 20 (sort_by (λ a b, String.leb (rs_id b) (rs_id a)) recent), w)
      else ([], w)
  end.

End recent.

Definition priority_text (p : Priority) : string :=
  match p with PriorityLow => "low" | PriorityNormal => "normal" | PriorityHigh => "HIGH" end.

Definition queue_lines (now : datetime) (item : ScheduledItem) : list string :=
  ["- [" +:+ sc_id item +:+ "] " +:+ sc_context item +:+ " (scheduled "
   +:+ format_duration_rough (now - sc_created_at item) +:+ " ago, priority: "
   +:+ priority_text (sc_priority item) +:+ ")"]
  ++ match sc_target item with
     | TargetAmbient => []
     | TargetSession session_id => ["  Target session: " +:+ session_id]
     | TargetSpawn parent_session_id => ["  Spawn from session: " +:+ parent_session_id]
     end
  ++ line_of "  Working dir: " (sc_working_dir item)
  ++ line_of "  Details: " (sc_task_description item)
  ++ (if is_nil (sc_relevant_files item) then []
      else ["  Files: " +:+ join ", " (sc_relevant_files item)])
  ++ line_of "  Branch: " (sc_git_branch item)
  ++ match sc_additional_context item with
     | Some ctx => (λ line, "  " +:+ line) <$> lines ctx
     | None => []
     end.

Definition health_lines (now : datetime) (h : MemoryGraphHealth) : list string :=
  ["- Total memories: " +:+ pretty (mh_total h) +:+ " (" +:+ pretty (mh_active h) +:+ " active, "
   +:+ pretty (mh_inactive h) +:+ " inactive)";
   "- Memories with confidence < 0.1: " +:+ pretty (mh_low_confidence h);
   "- Unresolved contradictions: " +:+ pretty (mh_contradictions h);
   "- Memories without embeddings: " +:+ pretty (mh_missing_embeddings h);
   if 0 <? mh_duplicate_candidates h then
     "- Duplicate candidates (similarity > 0.95): " +:+ pretty (mh_duplicate_candidates h)
   else "- Duplicate candidates: run embedding scan to detect";
   match mh_last_consolidation h with
   | Some ts => "- Last consolidation: " +:+ format_duration_rough (now - ts) +:+ " ago"
   | None => "- Last consolidation: never"
   end].

Definition directive_lines (now : datetime) (pending : list UserDirective) : list string :=
  if is_nil pending then []
  else
    ["## User Directives (from replies)";
     "The user replied to ambient notifications with these instructions. Address them as your **top priority** this cycle.";
     ""]
    ++ ((λ d, "- [reply to cycle " +:+ ud_in_reply_to_cycle d +:+ "] ("
              +:+ format_duration_rough (now - ud_received_at d) +:+ " ago): " +:+ ud_text d) <$> pending)
    ++ [""].

Definition cycle_instructions : string := join nl
  ["## Instructions";
   "";
   "Start by using the todos tool to plan what you'll do this cycle.";
   "";
   "Priority order:";
   "1. Execute any scheduled queue items first.";
   "2. Garden the memory graph -- consolidate duplicates, resolve contradictions, prune dead memories, verify stale facts, extract from missed sessions.";
   "3. Scout for proactive work (only if enabled and past cold start) -- look at recent sessions and git history to identify useful work the user would appreciate.";
   "";
   "For gardening: focus on highest-value maintenance first. Duplicates and contradictions before pruning. Verify stale facts only if you have budget left.";
   "";
   "For proactive work: be conservative. A bad surprise is worse than no surprise. Check the user feedback memories -- if they've rejected similar work before, don't do it. Code changes must go on a worktree branch with a PR via request_permission.";
   "";
   "Every request_permission call must be reviewer-ready. Include:";
   "- description: concise summary of what you are about to do";
   "- rationale: why approval is needed right now";
   "- context.summary: what you are working on in this cycle";
   "- context.why_permission_needed: explicit justification for permission";
   "- context.planned_steps, context.files, context.commands (if known)";
   "- context.risks and context.rollback_plan (if relevant)";
   "";
   "Good sources for scouting proactive work:";
   "- Todoist (via MCP) — check for relevant tasks and deadlines";
   "- Canvas (via MCP) — check for upcoming assignments or deadlines";
   "- Git history — recent commits, open branches, stale PRs";
   "- Session history — patterns in what the user works on";
   "";
   "When done, you MUST call end_ambient_cycle with a summary of everything you did, including compaction count. Always schedule your next wake time with context for what you plan to do next.";
   "";
   "## Messaging Check-ins";
   "";
   "You have a `send_message` tool. Use it to keep the user informed about what you're doing. Send a brief message when you start a cycle and when you finish significant work. Keep messages short and useful — the user should be able to glance at their messages and know what's happening without opening gcode. You can optionally target a specific channel (e.g. telegram, discord) or omit channel to send to all.";
   ""].

(** The text of the prompt: lines that end with a newline. How a time is written
    is an argument. *)
Definition ambient_prompt_text (format_time : datetime → string) (now : datetime) (state : AmbientState)
    (queue : list ScheduledItem) (health : MemoryGraphHealth) (recent : list RecentSessionInfo)
    (feedback : list string) (budget : ResourceBudget) (active_user_sessions : usize)
    (pending : list UserDirective) : string :=
  unlines
    (["You are the ambient agent for gcode. You operate autonomously without user prompting. Your job is to maintain and improve the user's development environment.";
      "";
      "## Current State";
      match as_last_run state with
      | Some last_run => "- Last ambient cycle: " +:+ format_time last_run +:+ " ("
                         +:+ format_duration_rough (now - last_run) +:+ " ago)"
      | None => "- Last ambient cycle: never (first run)"
      end;
      (if 0 <? active_user_sessions then "- Active user sessions: " +:+ pretty active_user_sessions
       else "- Active user sessions: none");
      "- Total cycles completed: " +:+ pretty (as_total_cycles state);
      "";
      "## Scheduled Queue"]
     ++ (if is_nil queue then ["Empty -- do general ambient work."]
         else concat (queue_lines now <$> queue))
     ++ [""; "## Recent Sessions (since last cycle)"]
     ++ (if is_nil recent then ["No sessions since last cycle."]
         else (λ s, "- " +:+ rs_id s +:+ " | " +:+ rs_status s +:+ " | "
                    +:+ format_duration_rough (rs_duration_secs s * NANOS) +:+ " | "
                    +:+ default "(no title)" (rs_topic s) +:+ " | extraction: "
                    +:+ rs_extraction_status s) <$> recent)
     ++ [""; "## Memory Graph Health"]
     ++ health_lines now health
     ++ [""; "## User Feedback History"]
     ++ (if is_nil feedback then ["No feedback memories found about ambient mode yet."]
         else (λ mem, "- " +:+ mem) <$> feedback)
     ++ [""; "## Resource Budget";
         "- Provider: " +:+ rb_provider budget;
         "- Tokens remaining in window: " +:+ rb_tokens_remaining_desc budget;
         "- Window resets: " +:+ rb_window_resets_desc budget;
         "- User usage rate: " +:+ rb_user_usage_rate_desc budget;
         "- Budget for this cycle: " +:+ rb_cycle_budget_desc budget;
         ""]
     ++ directive_lines now pending)
  +:+ cycle_instructions.

(** ** Tools ([src/tool/ambient.rs]) *)

(** What [end_ambient_cycle] is called with. *)
Record EndCycleInput := {
  ei_summary : string;
  ei_memories_modified : u32;
  ei_compactions : u32;
  ei_proactive_work : option string;
  ei_next_schedule : option (option u32 * option string * option string);
}.

(** The request of the agent: minutes, context and priority. *)
Definition next_schedule_request (session_id : string) (ns : option u32 * option string * option string)
    : ScheduleRequest := {|
  sr_wake_in_minutes := ns.1.1; sr_wake_at := None; sr_context := default "" ns.1.2;
  sr_priority := parse_priority ns.2; sr_target := TargetAmbient;
  sr_created_by_session := session_id; sr_working_dir := None; sr_task_description := None;
  sr_relevant_files := []; sr_git_branch := None; sr_additional_context := None;
|}.

Definition end_cycle_result (now : datetime) (session_id : string) (params : EndCycleInput)
    : AmbientCycleResult := {|
  cr_summary := ei_summary params; cr_memories_modified := ei_memories_modified params;
  cr_compactions := ei_compactions params; cr_proactive_work := ei_proactive_work params;
  cr_next_schedule := next_schedule_request session_id <$> ei_next_schedule params;
  cr_started_at := now; cr_ended_at := now; cr_status := CycleComplete; cr_conversation := None;
|}.

(** What [schedule] is called with; the time of [wake_at] is parsed by [chrono]. *)
Record ScheduleToolInput := {
  ti_task : string;
  ti_wake_in_minutes : option u32;
  ti_wake_at : option string;
  ti_priority : option string;
  ti_relevant_files : list string;
  ti_background_context : option string;
  ti_success_criteria : option string;
  ti_target : option string;
}.

Definition schedule_request_of (params : ScheduleToolInput) (wake_at : option datetime)
    (target : ScheduleTarget) (session_id : string) (working_dir git_branch : option string)
    : ScheduleRequest := {|
  sr_wake_in_minutes := ti_wake_in_minutes params; sr_wake_at := wake_at;
  sr_context := ti_task params; sr_priority := parse_priority (ti_priority params);
  sr_target := target; sr_created_by_session := session_id; sr_working_dir := working_dir;
  sr_task_description := Some (ti_task params); sr_relevant_files := ti_relevant_files params;
  sr_git_branch := git_branch;
  sr_additional_context :=
    Some (join nl (line_of "Background: " (ti_background_context params)
                   ++ line_of "Success criteria: " (ti_success_criteria params)
                   ++ ["Scheduled by session: " +:+ session_id]));
|}.

Definition target_summary (target : ScheduleTarget) : string :=
  match target with
  | TargetAmbient => "ambient agent"
  | TargetSession session_id => "resume session " +:+ session_id
  | TargetSpawn parent_session_id => "spawn one child session from " +:+ parent_session_id
  end.

Definition schedule_summary (params : ScheduleToolInput) (id : string) (working_dir : option string)
    (target : ScheduleTarget) : string :=
  let when :=
    match ti_wake_at params, ti_wake_in_minutes params with
    | Some ts, _ => ts
    | None, Some mins => "in " +:+ format_minutes_human mins
    | None, None => "unspecified"
    end in
  "Scheduled task '" +:+ ti_task params +:+ "' for " +:+ when +:+ " (id: " +:+ id +:+ ")"
  +:+ match working_dir with Some wd => nl +:+ "Working directory: " +:+ wd | None => "" end
  +:+ (if is_nil (ti_relevant_files params) then ""
       else nl +:+ "Relevant files: " +:+ join ", " (ti_relevant_files params))
  +:+ nl +:+ "Target: " +:+ target_summary target.

(** ** The handle ([AmbientRunnerHandle]) *)

Record Runner := {
  rn_state : AmbientState;
  rn_queue_count : usize;
  rn_next_queue_preview : option string;
  rn_nudged : bool;
  rn_running : bool;
  rn_active_user_sessions : usize;
  rn_active_cycle_queue : option (list SoftInterruptMessage);
  (** The slot of [end_ambient_cycle]. *)
  rn_cycle_result : option AmbientCycleResult;
  (** The deliveries, with whether they succeeded. *)
  rn_delivered : list (ScheduledItem * bool);
  rn_safety : SafetySystem;
  rn_world : World;
}.

Definition set_state (v : AmbientState) (r : Runner) : Runner :=
  {| rn_state := v; rn_queue_count := rn_queue_count r; rn_next_queue_preview := rn_next_queue_preview r;
     rn_nudged := rn_nudged r; rn_running := rn_running r;
     rn_active_user_sessions := rn_active_user_sessions r;
     rn_active_cycle_queue := rn_active_cycle_queue r; rn_cycle_result := rn_cycle_result r;
     rn_delivered := rn_delivered r; rn_safety := rn_safety r; rn_world := rn_world r |}.
Definition set_queue_info (count : usize) (preview : option string) (r : Runner) : Runner :=
  {| rn_state := rn_state r; rn_queue_count := count; rn_next_queue_preview := preview;
     rn_nudged := rn_nudged r; rn_running := rn_running r;
     rn_active_user_sessions := rn_active_user_sessions r;
     rn_active_cycle_queue := rn_active_cycle_queue r; rn_cycle_result := rn_cycle_result r;
     rn_delivered := rn_delivered r; rn_safety := rn_safety r; rn_world := rn_world r |}.
Definition set_nudged (v : bool) (r : Runner) : Runner :=
  {| rn_state := rn_state r; rn_queue_count := rn_queue_count r;
     rn_next_queue_preview := rn_next_queue_preview r; rn_nudged := v; rn_running := rn_running r;
     rn_active_user_sessions := rn_active_user_sessions r;
     rn_active_cycle_queue := rn_active_cycle_queue r; rn_cycle_result := rn_cycle_result r;
     rn_delivered := rn_delivered r; rn_safety := rn_safety r; rn_world := rn_world r |}.
Definition set_running (v : bool) (r : Runner) : Runner :=
  {| rn_state := rn_state r; rn_queue_count := rn_queue_count r;
     rn_next_queue_preview := rn_next_queue_preview r; rn_nudged := rn_nudged r; rn_running := v;
     rn_active_user_sessions := rn_active_user_sessions r;
     rn_active_cycle_queue := rn_active_cycle_queue r; rn_cycle_result := rn_cycle_result r;
     rn_delivered := rn_delivered r; rn_safety := rn_safety r; rn_world := rn_world r |}.
Definition set_cycle_queue (v : option (list SoftInterruptMessage)) (r : Runner) : Runner :=
  {| rn_state := rn_state r; rn_queue_count := rn_queue_count r;
     rn_next_queue_preview := rn_next_queue_preview r; rn_nudged := rn_nudged r;
     rn_running := rn_running r; rn_active_user_sessions := rn_active_user_sessions r;
     rn_active_cycle_queue := v; rn_cycle_result := rn_cycle_result r;
     rn_delivered := rn_delivered r; rn_safety := rn_safety r; rn_world := rn_world r |}.
Definition set_cycle_result (v : option AmbientCycleResult) (r : Runner) : Runner :=
  {| rn_state := rn_state r; rn_queue_count := rn_queue_count r;
     rn_next_queue_preview := rn_next_queue_preview r; rn_nudged := rn_nudged r;
     rn_running := rn_running r; rn_active_user_sessions := rn_active_user_sessions r;
     rn_active_cycle_queue := rn_active_cycle_queue r; rn_cycle_result := v;
     rn_delivered := rn_delivered r; rn_safety := rn_safety r; rn_world := rn_world r |}.
Definition set_delivered (v : list (ScheduledItem * bool)) (r : Runner) : Runner :=
  {| rn_state := rn_state r; rn_queue_count := rn_queue_count r;
     rn_next_queue_preview := rn_next_queue_preview r; rn_nudged := rn_nudged r;
     rn_running := rn_running r; rn_active_user_sessions := rn_active_user_sessions r;
     rn_active_cycle_queue := rn_active_cycle_queue r; rn_cycle_result := rn_cycle_result r;
     rn_delivered := v; rn_safety := rn_safety r; rn_world := rn_world r |}.
Definition set_runner_world (v : World) (r : Runner) : Runner :=
  {| rn_state := rn_state r; rn_queue_count := rn_queue_count r;
     rn_next_queue_preview := rn_next_queue_preview r; rn_nudged := rn_nudged r;
     rn_running := rn_running r; rn_active_user_sessions := rn_active_user_sessions r;
     rn_active_cycle_queue := rn_active_cycle_queue r; rn_cycle_result := rn_cycle_result r;
     rn_delivered := rn_delivered r; rn_safety := rn_safety r; rn_world := v |}.
Definition set_safety (v : SafetySystem) (r : Runner) : Runner :=
  {| rn_state := rn_state r; rn_queue_count := rn_queue_count r;
     rn_next_queue_preview := rn_next_queue_preview r; rn_nudged := rn_nudged r;
     rn_running := rn_running r; rn_active_user_sessions := rn_active_user_sessions r;
     rn_active_cycle_queue := rn_active_cycle_queue r; rn_cycle_result := rn_cycle_result r;
     rn_delivered := rn_delivered r; rn_safety := v; rn_world := rn_world r |}.

Definition on_world {A} (m : IO A) (r : Runner) : (A + string) * Runner :=
  let '(x, w) := m (rn_world r) in (x, set_runner_world w r).

Definition with_status (status : AmbientStatus) (st : AmbientState) : AmbientState := {|
  as_status := status; as_last_run := as_last_run st; as_last_summary := as_last_summary st;
  as_last_compactions := as_last_compactions st;
  as_last_memories_modified := as_last_memories_modified st;
  as_total_cycles := as_total_cycles st;
|}.

Definition MAX_IDLE_POLL_SECS : Z := 30.

Definition is_disabled (st : AmbientState) : bool :=
  match as_status st with AmbientDisabled => true | _ => false end.

Section runner.
Context `{SessionCodec} `{AmbientCodec} `{SafetyCodec} `{HashOrder} (tmp_suffix : string).

Definition save_state (r : Runner) : Runner :=
  (on_world (io_ignore (ambient_state_save tmp_suffix (rn_state r))) r).2.

Definition set_status (status : AmbientStatus) (r : Runner) : Runner :=
  set_state (with_status status (rn_state r)) r.

(** [AmbientRunnerHandle::new] *)
Definition runner_new (safety : SafetySystem) (w : World) : Runner :=
  let '(state, w) := match ambient_state_load w with
                     | (inl state, w) => (state, w)
                     | (inr _, w) => (ambient_state_default, w)
                     end in
  {| rn_state := state; rn_queue_count := 0; rn_next_queue_preview := None; rn_nudged := false;
     rn_running := false; rn_active_user_sessions := 0; rn_active_cycle_queue := None;
     rn_cycle_result := None; rn_delivered := []; rn_safety := safety; rn_world := w |}.

Definition nudge : Runner → Runner := set_nudged true.

Definition trigger (r : Runner) : Runner :=
  nudge (match as_status (rn_state r) with
         | AmbientScheduled _ | AmbientIdle => set_status AmbientIdle r
         | _ => r
         end).

Definition stop (r : Runner) : Runner := nudge (save_state (set_status AmbientDisabled r)).

(** The answer is whether a loop is spawned; the loop starts with [enter_loop]. *)
Definition start (r : Runner) : bool * Runner :=
  if rn_running r then (false, r) else (true, save_state (set_status AmbientIdle r)).

Definition enter_loop : Runner → Runner := set_running true.

(** The identifier of the directive is random; the time is in seconds. *)
Definition inject_message (now : datetime) (id text source : string) (r : Runner) : bool * Runner :=
  match rn_active_cycle_queue r with
  | Some q =>
      let message := {| si_content := "[" +:+ source +:+ " message from user]" +:+ nl +:+ text;
                        si_urgent := false; si_source := SourceUser |} in
      (true, set_cycle_queue (Some (q ++ [message])) r)
  | None =>
      let source_id := source +:+ "_" +:+ pretty (now / NANOS)%Z in
      let '(_, r) := on_world (add_directive tmp_suffix now id text source_id) r in
      (false, trigger r)
  end.

Definition set_running_detail (detail : string) (r : Runner) : Runner :=
  save_state (set_status (AmbientRunning detail) r).

(** What [status_json] reports of the queue. *)
Record QueueReport := {
  qr_queue_count : usize;
  qr_next_preview : option string;
  qr_next_due : option datetime;
  qr_overdue_queue_count : usize;
  qr_reminder_count : usize;
  qr_next_reminder_preview : option string;
  qr_next_reminder_due : option datetime;
  qr_overdue_reminder_count : usize;
}.

Definition item_preview (item : ScheduledItem) : string :=
  default (sc_context item) (sc_task_description item).

Definition reminders (items : list ScheduledItem) : list ScheduledItem :=
  filter (λ item, is_direct_delivery (sc_target item) = true) items.

Definition overdue (now : datetime) (items : list ScheduledItem) : usize :=
  length (filter (λ item, is_due now item = true) items).

Definition queue_report (now : datetime) (r : Runner) : QueueReport * Runner :=
  let '(m, r) := on_world manager_new r in
  let items := match m with inl m => q_items (mg_queue m) | inr _ => [] end in
  let next := earliest items in
  let next_reminder := earliest (reminders items) in
  ({| qr_queue_count := length items;
      qr_next_preview := item_preview <$> next;
      qr_next_due := sc_scheduled_for <$> next;
      qr_overdue_queue_count := overdue now items;
      qr_reminder_count := length (reminders items);
      qr_next_reminder_preview := item_preview <$> next_reminder;
      qr_next_reminder_due := sc_scheduled_for <$> next_reminder;
      qr_overdue_reminder_count := overdue now (reminders items) |}, r).

Definition status_text (now : datetime) (r : Runner) : string :=
  match as_status (rn_state r) with
  | AmbientIdle => "idle"
  | AmbientRunning detail => "running: " +:+ detail
  | AmbientScheduled next_wake =>
      let mins := Z.max (Z.quot (next_wake - now) (60 * NANOS)) 0 in
      "scheduled (in " +:+ format_minutes_human (wrap_u 32 mins) +:+ ")"
  | AmbientPaused reason => "paused: " +:+ reason
  | AmbientDisabled => "disabled"
  end.

(** ** The tools, on the handle *)

(** [EndAmbientCycleTool::execute] *)
Definition end_ambient_cycle (now : datetime) (session_id : string) (params : EndCycleInput) (r : Runner)
    : string * Runner :=
  let result := end_cycle_result now session_id params in
  let r := set_cycle_result (Some result) r in
  let '(stored, r) := on_world (end_cycle_store tmp_suffix now (ei_summary params)
                                  (ei_compactions params) (ei_memories_modified params)) r in
  (match stored with
   | inl true =>
       let next_desc := match cr_next_schedule result with
                        | Some sched => "~" +:+ format_minutes_human (default 30%Z (sr_wake_in_minutes sched))
                        | None => "system default"
                        end in
       "Ambient cycle ended. Memories modified: " +:+ pretty (ei_memories_modified params)
       +:+ ", compactions: " +:+ pretty (ei_compactions params) +:+ ". Next wake: " +:+ next_desc
   | _ => "Ambient cycle ended (state save failed). Summary: " +:+ ei_summary params
   end, r).

(** The answer of the parser of times, when there is a time. *)
Definition parse_wake_at (parse_time : string → datetime + string) (wake_at : option string)
    : option datetime + string :=
  match parse_time <$> wake_at with
  | Some (inr e) => inr ("Invalid wake_at timestamp: " +:+ e)
  | Some (inl t) => inl (Some t)
  | None => inl None
  end.

(** [ScheduleAmbientTool::execute]; how a time parses is an argument. *)
Definition schedule_ambient (now : datetime) (id : string) (parse_time : string → datetime + string)
    (wake_in_minutes : option u32) (wake_at : option string) (context : string)
    (priority : option string) (session_id : string) (r : Runner) : (string + string) * Runner :=
  match parse_wake_at parse_time wake_at with
  | inr e => (inr e, r)
  | inl at_ =>
      let request := {|
        sr_wake_in_minutes := wake_in_minutes; sr_wake_at := at_; sr_context := context;
        sr_priority := parse_priority priority; sr_target := TargetAmbient;
        sr_created_by_session := session_id; sr_working_dir := None; sr_task_description := None;
        sr_relevant_files := []; sr_git_branch := None; sr_additional_context := None |} in
      match on_world (m <-! manager_new; schedule tmp_suffix now id request m) r with
      | (inr e, r) => (inr e, r)
      | (inl _, r) =>
          let when := match wake_at, wake_in_minutes with
                      | Some ts, _ => ts
                      | None, Some mins => "in " +:+ format_minutes_human mins
                      | None, None => "in 30m (default)"
                      end in
          (inl ("Scheduled ambient task " +:+ id +:+ " for " +:+ when), nudge r)
      end
  end.

(** [ScheduleTool::execute]; what [git] answers and how a time parses are
    arguments. *)
Definition schedule_tool (now : datetime) (id : string) (params : ScheduleToolInput)
    (parse_time : string → datetime + string) (session_id : string) (working_dir git_branch : option string)
    (r : Runner) : (string + string) * Runner :=
  if bool_decide (ti_wake_in_minutes params = None ∧ ti_wake_at params = None) then
    (inr "Either wake_in_minutes or wake_at is required. This tool is for scheduling future tasks.", r)
  else
    match parse_wake_at parse_time (ti_wake_at params) with
    | inr e => (inr e, r)
    | inl wake_at =>
        match parse_schedule_target (ti_target params) session_id with
        | inr e => (inr e, r)
        | inl target =>
            let request := schedule_request_of params wake_at target session_id working_dir git_branch in
            match on_world (m <-! manager_new; schedule tmp_suffix now id request m) r with
            | (inl _, r) => (inl (schedule_summary params id working_dir target), r)
            | (inr e, r) => (inr e, r)
            end
        end
    end.

(** ** Deliveries *)

Section loop.
(** The socket to a live session, the run of an agent on a session, and the
    processes of the machine. *)
Context (notify_live_session : string → string → IO unit) (run_agent : Session → string → IO unit).
Context (is_pid_alive : u32 → bool) (pid : u32).
Context (process_env : ProcessEnv) (memorable : string → string * string).

Definition resume_dead_session_with_reminder (item : ScheduledItem) (session_id : string) : IO unit :=
  session <-! load session_id;
  run_agent session (format_scheduled_session_message item).

(** The child session of a scheduled task, from its parent if that loads. *)
Definition scheduled_child (now : datetime) (item : ScheduledItem) (parent_session_id : string)
    (parent : option Session) : Session :=
  let child := create now process_env (memorable (sc_id item)) (Some parent_session_id)
                 (Some (default "Scheduled task" (sc_task_description item))) in
  match parent with
  | None => se_set_working_dir (sc_working_dir item) child
  | Some parent =>
      let child := replace_messages (se_messages parent) child in
      {| se_id := se_id child; se_parent_id := se_parent_id child; se_title := se_title child;
         se_created_at := se_created_at child; se_updated_at := se_updated_at child;
         se_messages := se_messages child; se_compaction := se_compaction parent;
         se_provider_session_id := se_provider_session_id child;
         se_provider_key := se_provider_key parent; se_model := se_model parent;
         se_reasoning_effort := se_reasoning_effort child;
         se_subagent_model := se_subagent_model parent; se_improve_mode := se_improve_mode parent;
         se_autoreview_enabled := se_autoreview_enabled parent;
         se_autojudge_enabled := se_autojudge_enabled parent; se_is_canary := se_is_canary parent;
         se_testing_build := se_testing_build parent;
         se_working_dir := match sc_working_dir item with Some d => Some d | None => se_working_dir parent end;
         se_short_name := se_short_name child; se_status := se_status child;
         se_last_pid := se_last_pid child; se_last_active_at := se_last_active_at child;
         se_is_debug := se_is_debug parent; se_saved := se_saved child;
         se_save_label := se_save_label child; se_env_snapshots := se_env_snapshots child;
         se_memory_injections := se_memory_injections parent; se_replay_events := se_replay_events parent;
         se_persist_state := se_persist_state child;
         se_provider_messages_cache := se_provider_messages_cache child;
         se_provider_message_prefix_hashes_cache := se_provider_message_prefix_hashes_cache child;
         se_provider_messages_cache_len := se_provider_messages_cache_len child;
         se_provider_messages_cache_mode := se_provider_messages_cache_mode child;
         se_memory_profile_cache := se_memory_profile_cache child;
         se_memory_profile_dirty := se_memory_profile_dirty child |}
  end.

Definition spawn_session_for_scheduled_item (now : datetime) (item : ScheduledItem)
    (parent_session_id : string) : IO string := λ w,
  let '(parent, w) := match load parent_session_id w with
                      | (inl s, w) => (Some s, w)
                      | (inr _, w) => (None, w)
                      end in
  let child := se_set_status StatusClosed (scheduled_child now item parent_session_id parent) in
  match save now tmp_suffix child w with
  | (inr e, _, w) => (inr e, w)
  | (inl (), child, w) =>
      (run_agent child (format_scheduled_session_message item) ;! io_ret (se_id child)) w
  end.

Definition deliver_scheduled_direct_item (now : datetime) (item : ScheduledItem) : IO unit :=
  match sc_target item with
  | TargetAmbient => io_ret ()
  | TargetSession session_id => λ w,
      match notify_live_session session_id (format_scheduled_session_message item) w with
      | (inl (), w) => (inl (), w)
      | (inr _, w) => resume_dead_session_with_reminder item session_id w
      end
  | TargetSpawn parent_session_id =>
      spawn_session_for_scheduled_item now item parent_session_id ;! io_ret ()
  end.

(** A delivery that fails is logged only. *)
Definition deliver_ready_direct_items (now : datetime) (items : list ScheduledItem) (r : Runner) : Runner :=
  foldl (λ r item,
    let '(res, r) := on_world (deliver_scheduled_direct_item now item) r in
    set_delivered (rn_delivered r ++ [(item, match res with inl _ => true | inr _ => false end)]) r)
    r items.

(** ** A cycle *)

(** A run of the agent on a prompt and a message, while other tasks may use the
    handle; what [export_conversation_markdown] says afterwards; the interface
    of a visible cycle, when it can be spawned. The texts of memory are those
    the memory manager gives, and the name of the provider. *)
Context (agent_turn : string → string → Runner → Runner) (conversation : Runner → string).
Context (spawn_tui : Runner → option Runner).
Context (graph_health : World → MemoryGraphHealth) (feedback_memories : World → list string).
Context (provider_name provider_model : string) (format_time file_time id_time : datetime → string).

Definition cycle_budget : ResourceBudget := {|
  rb_provider := provider_name; rb_tokens_remaining_desc := "unknown (adaptive)";
  rb_window_resets_desc := "unknown"; rb_user_usage_rate_desc := "estimated from history";
  rb_cycle_budget_desc := "stay under 50k tokens";
|}.

Definition initial_message : string :=
  "Begin your ambient cycle. Check the scheduled queue, assess memory graph health, and plan your work using the todos tool.".

Definition build_cycle_context (now : datetime) (r : Runner) : (string + string) * Runner :=
  let state := rn_state r in
  match on_world manager_new r with
  | (inr e, r) => (inr e, r)
  | (inl m, r) =>
      let queue_items := q_items (mg_queue m) in
      let health := graph_health (rn_world r) in
      let '(recent, w) := gather_recent_sessions now (as_last_run state) (rn_world r) in
      let feedback := feedback_memories w in
      let r := set_runner_world w r in
      match on_world (take_pending_directives tmp_suffix) r with
      | (inr e, r) => (inr e, r)
      | (inl pending, r) =>
          (inl (ambient_prompt_text format_time now state queue_items health recent feedback cycle_budget
                  (rn_active_user_sessions r) pending), r)
      end
  end.

(** The result with the times, and the conversation, that the runner knows. *)
Definition timed_result (started ended : datetime) (conv : option string) (result : AmbientCycleResult)
    : AmbientCycleResult := {|
  cr_summary := cr_summary result; cr_memories_modified := cr_memories_modified result;
  cr_compactions := cr_compactions result; cr_proactive_work := cr_proactive_work result;
  cr_next_schedule := cr_next_schedule result; cr_started_at := started; cr_ended_at := ended;
  cr_status := cr_status result;
  cr_conversation := match conv with Some c => Some c | None => cr_conversation result end;
|}.

Definition incomplete_result (started ended : datetime) (summary : string) (conv : option string)
    : AmbientCycleResult := {|
  cr_summary := summary; cr_memories_modified := 0; cr_compactions := 0; cr_proactive_work := None;
  cr_next_schedule := None; cr_started_at := started; cr_ended_at := ended;
  cr_status := CycleIncomplete; cr_conversation := conv;
|}.

Definition forced_summary : string :=
  "Cycle ended without calling end_ambient_cycle (forced end after 2 attempts)".

Definition continuation : string :=
  "You stopped unexpectedly without calling end_ambient_cycle. If you are done with your work, call end_ambient_cycle with a summary of what you accomplished and schedule your next wake. If you are not done, continue what you were doing.".

(** [run_cycle_visible] *)
Definition run_cycle_visible (started ended : datetime) (prompt : string) (r : Runner)
    : (AmbientCycleResult + string) * Runner :=
  let r := set_running_detail "launching visible TUI" r in
  match on_world (visible_context_save tmp_suffix {| vc_system_prompt := prompt;
                                                     vc_initial_message := initial_message |}) r with
  | (inr e, r) => (inr e, r)
  | (inl (), r) =>
      let '(_, r) := on_world (path <-! result_path; io_ignore (remove_file path)) r in
      match spawn_tui (set_running_detail "waiting for TUI cycle" r) with
      | None => (inr "Failed to spawn visible TUI", r)
      | Some r =>
          let '(result, r) := on_world
            (path <-! result_path;
             exists_ <-! io_exists path;
             if exists_ : bool then
               result <-! read_json parse_cycle_result path;
               io_ignore (remove_file path) ;!
               io_ret (Some result)
             else io_ret None) r in
          match result with
          | inl (Some result) => (inl (timed_result started ended None result), r)
          | _ => (inl (incomplete_result started ended "Visible cycle ended (user closed window)" None), r)
          end
      end
  end.

(** [run_cycle] *)
Definition run_cycle (visible : bool) (started ended : datetime) (r : Runner)
    : (AmbientCycleResult + string) * Runner :=
  let r := set_running_detail "gathering context" r in
  match build_cycle_context started r with
  | (inr e, r) => (inr e, r)
  | (inl prompt, r) =>
      if visible then run_cycle_visible started ended prompt r
      else
        let r := set_running_detail "setting up tools" r in
        let r := set_cycle_queue (Some []) (set_cycle_result None r) in
        let r := set_running_detail "running agent" r in
        let r := agent_turn prompt initial_message r in
        match rn_cycle_result r with
        | Some result =>
            (inl (timed_result started ended (Some (conversation r)) result), set_cycle_result None r)
        | None =>
            let r := set_running_detail "continuation turn" r in
            let r := agent_turn prompt continuation r in
            match rn_cycle_result r with
            | Some result =>
                (inl (timed_result started ended (Some (conversation r)) result), set_cycle_result None r)
            | None => (inl (incomplete_result started ended forced_summary (Some (conversation r))), r)
            end
        end
  end.

(** ** The loop *)

(** Whether a cycle should run, the items to deliver now and when the next one
    is due. *)
Definition inspect_queue (ambient_enabled ambient_allowed : bool) (now : datetime) (r : Runner)
    : bool * list ScheduledItem * option datetime * Runner :=
  match on_world (m <-! manager_new; manager_take_direct tmp_suffix now m) r with
  | (inr _, r) => (false, [], None, r)
  | (inl (ready, m), r) =>
      let next_due := sc_scheduled_for <$> earliest (reminders (q_items (mg_queue m))) in
      let r := set_queue_info (length (q_items (mg_queue m))) (sc_context <$> peek_next (mg_queue m)) r in
      if negb ambient_allowed then (false, ready, next_due, r)
      else if should_run ambient_enabled now m then (true, ready, next_due, r)
      else
        let '(pending, r) := on_world has_pending_directives r in
        (match pending with inl b => b | inr _ => false end, ready, next_due, r)
  end.

(** The seconds the loop sleeps when no cycle runs. *)
Definition idle_sleep (ambient_allowed : bool) (now : datetime) (sd : AdaptiveScheduler)
    (next_due : option datetime) : option Z :=
  let until next := Z.max (num_seconds (next - now)) 0 in
  if ambient_allowed then
    interval ← calculate_interval now sd None;
    let interval := Z.max (interval / NANOS) MAX_IDLE_POLL_SECS in
    Some (Z.min interval (Z.max (default interval (until <$> next_due)) 1))
  else Some (match until <$> next_due with
             | Some secs => Z.max 1 (Z.min secs MAX_IDLE_POLL_SECS)
             | None => MAX_IDLE_POLL_SECS
             end).

(** The transcript of a cycle; its identifier has the time in it. *)
Definition cycle_transcript (ended : datetime) (result : AmbientCycleResult) (r : Runner)
    : AmbientTranscript := {|
  at_session_id := "ambient_" +:+ id_time ended;
  at_started_at := cr_started_at result;
  at_ended_at := Some (cr_ended_at result);
  at_status := match cr_status result with
               | CycleComplete => TranscriptComplete
               | CycleInterrupted => TranscriptInterrupted
               | CycleIncomplete => TranscriptIncomplete
               end;
  at_provider := provider_name;
  at_model := provider_model;
  at_actions := [];
  at_pending_permissions := length (pending_requests (rn_safety r));
  at_summary := Some (cr_summary result);
  at_compactions := cr_compactions result;
  at_memories_modified := cr_memories_modified result;
  at_conversation := cr_conversation result;
|}.

(** The state after a cycle, before the lock is released. The notifications and
    the memory's own work are not part of the model. *)
Definition finish_cycle (ended : datetime) (id : string) (result : AmbientCycleResult + string)
    (sd : AdaptiveScheduler) (r : Runner) : AdaptiveScheduler * Runner :=
  match result with
  | inl result =>
      let '(_, r) := on_world (m <-! manager_new; record_cycle_result tmp_suffix ended id result m) r in
      let r := save_state (set_state (record_cycle ended result (rn_state r)) r) in
      let '(_, r) := on_world (save_transcript tmp_suffix file_time (cycle_transcript ended result r)) r in
      (on_successful_cycle sd, r)
  | inr _ => (on_rate_limit_hit sd, save_state (set_status AmbientIdle r))
  end.

(** What the loop does before it sleeps after a cycle. *)
Definition schedule_wake (ended : datetime) (sd : AdaptiveScheduler) (r : Runner) : option (Runner * Z) :=
  interval ← calculate_interval ended sd None;
  let sleep_secs := Z.max (interval / NANOS) 30 in
  Some (match as_status (rn_state r) with
        | AmbientRunning _ | AmbientIdle =>
            save_state (set_status (AmbientScheduled (ended + sleep_secs * NANOS)) r)
        | _ => r
        end, sleep_secs)%Z.

(** A turn from the end of its cycle, when the lock is held. *)
Definition end_turn (ended : datetime) (id lock : string) (result : AmbientCycleResult + string)
    (sd : AdaptiveScheduler) (r : Runner) : option (AdaptiveScheduler * Runner * Z) :=
  let '(sd, r) := finish_cycle ended id result sd r in
  let '(_, r) := on_world (lock_release lock) r in
  res ← schedule_wake ended sd r;
  Some (sd, res.1, res.2).

(** One turn of the loop, to the sleep at its end and for how long; [None] is a
    panic. A cycle that runs ends at [ended]. *)
Definition run_step (ambient_enabled visible : bool) (now ended : datetime) (id : string)
    (sd : AdaptiveScheduler) (r : Runner) : option (AdaptiveScheduler * Runner * Z) :=
  let ambient_allowed := ambient_enabled && negb (is_disabled (rn_state r)) in
  let sd := if ambient_allowed then set_user_active (0 <? rn_active_user_sessions r) sd else sd in
  if ambient_allowed && should_pause sd then
    Some (sd, set_status (AmbientPaused "user session active") r, 60%Z)
  else
    let r :=
      if ambient_allowed then
        let '(res, r) := on_world (expire_dead_session_requests tmp_suffix is_pid_alive now
                                     "ambient_runner_gc" (rn_safety r)) r in
        match res with inl (_, safety) => set_safety safety r | inr _ => r end
      else r in
    let '(should_run, ready, next_due, r) := inspect_queue ambient_enabled ambient_allowed now r in
    let r := if is_nil ready then r else deliver_ready_direct_items now ready r in
    if negb should_run then
      sleep_secs ← idle_sleep ambient_allowed now sd next_due;
      Some (sd, r, sleep_secs)
    else
      match on_world (try_acquire is_pid_alive pid) r with
      | (inl (Some lock), r) =>
          let r := set_running_detail "starting cycle" r in
          let '(result, r) := run_cycle visible now ended r in
          end_turn ended id lock result sd (set_cycle_queue None r)
      | (_, r) => Some (sd, r, 60%Z)
      end.

(** ** What a cycle leaves behind *)

Context `{!AmbientCodecLaws}.

Lemma steady_io_or {A} (m : IO A) x : steady m → steady (io_or m x).
Proof.
  intros Hm w Hr. destruct (Hm w Hr) as [Hr1 Hg1]. unfold io_or. by destruct (m w) as [[] w1].
Qed.

Lemma steady_ambient_dir : steady ambient_dir.
Proof. unfold ambient_dir. auto with steady. Qed.

Lemma steady_in_ambient_dir name : steady (in_ambient_dir name).
Proof. apply steady_bind; [apply steady_ambient_dir|auto with steady]. Qed.
#[local] Hint Resolve steady_io_or steady_ambient_dir steady_in_ambient_dir : steady.

Lemma steady_manager_new : steady manager_new.
Proof.
  unfold manager_new, transcripts_dir, ambient_state_load, state_path, queue_path, queue_load.
  auto 30 with steady.
Qed.

Lemma steady_record_cycle_result now id result m : steady (record_cycle_result tmp_suffix now id result m).
Proof.
  unfold record_cycle_result, ambient_state_save, state_path, schedule, queue_push, queue_save.
  apply steady_bind; [auto with steady|]. intros _. destruct (cr_next_schedule result); auto 10 with steady.
Qed.

Definition ambient_file (base name : string) : string := path_join base "ambient" +:+ "/" +:+ name.

(** Finding a file of the directory. *)
Lemma in_ambient_dir_done base name w :
  starts_with "/" name = false → reliable w → w_gcode_dir w = inl base →
  ∃ w', in_ambient_dir name w = (inl (ambient_file base name), w') ∧ reliable w'
    ∧ w_gcode_dir w' = inl base ∧ w_files w' = w_files w.
Proof.
  intros Hn Hr Hb. unfold in_ambient_dir, ambient_dir, io_bind, gcode_dir, io_ret. rewrite Hb.
  destruct (ok_ensure_dir (path_join base "ambient") (λ _ f, f = w_files w) w eq_refl Hr)
    as ([] & w' & -> & Hr' & Hg & Hf).
  exists w'. rewrite Hg. split_and!; try done. by rewrite path_join_dir.
Qed.

Lemma ambient_json_apart base stem suffix :
  let path := ambient_file base (stem +:+ ".json") in
  let tmp := with_extension path ("tmp." +:+ suffix) in
  let bak := with_extension path "bak" in
  tmp ≠ path ∧ bak ≠ path ∧ tmp ≠ bak.
Proof. cbn zeta. unfold ambient_file. rewrite <- !str_app_assoc. apply json_path_apart. Qed.

(** Storing the state changes the files of the state only. *)
Lemma save_state_done base r :
  reliable (rn_world r) → w_gcode_dir (rn_world r) = inl base →
  ∃ w', save_state r = set_runner_world w' r ∧ reliable w' ∧ w_gcode_dir w' = inl base
    ∧ w_files w' !! ambient_file base "state.json" = Some (ambient_state_json (rn_state r))
    ∧ ∀ name, starts_with "state." name = false →
        w_files w' !! ambient_file base name = w_files (rn_world r) !! ambient_file base name.
Proof.
  intros Hr Hb. unfold save_state, on_world, io_ignore, ambient_state_save, state_path.
  destruct (in_ambient_dir_done base "state.json" (rn_world r) eq_refl Hr Hb) as (w1 & E1 & Hr1 & Hb1 & Hf1).
  unfold io_bind. rewrite E1.
  destruct (write_json_done tmp_suffix (ambient_file base "state.json") (ambient_state_json (rn_state r)) w1)
    as (w2 & E2 & Hr2 & Hb2 & Hf2 & Ho2); [apply (ambient_json_apart base "state")|done|].
  rewrite E2. exists w2. rewrite Hb2, <- Hf1. split_and!; try done.
  intros name Hn. apply Ho2. unfold ambient_file. rewrite !with_extension_in by done.
  rewrite !elem_of_cons, elem_of_nil.
  intros [E|[E|[E|[]]]]; apply (str_app_inj_l (path_join base "ambient")), (str_app_inj_l "/") in E;
    by subst name.
Qed.

#[local] Arguments Ascii.eqb : simpl never.

(** Saving a transcript leaves the state alone. *)
Lemma save_transcript_keeps base transcript w :
  (∀ t, char_in slash (file_time t) = false) → w_gcode_dir w = inl base →
  w_files (save_transcript tmp_suffix file_time transcript w).2 !! ambient_file base "state.json"
  = w_files w !! ambient_file base "state.json".
Proof.
  intros Ht Hb. unfold save_transcript, io_bind at 1, gcode_dir. rewrite Hb.
  set (x := file_time (at_started_at transcript)). specialize (Ht (at_started_at transcript)). fold x in Ht.
  assert (Hx : char_in slash (x +:+ ".json") = false ∧ starts_with "/" (x +:+ ".json") = false).
  { clearbody x. split.
    - induction x as [|c x IH]; [done|]. cbn [char_in] in Ht. apply orb_false_iff in Ht as [Hc Hx].
      change (Ascii.eqb c slash || char_in slash (x +:+ ".json") = false). by rewrite Hc, IH.
    - destruct x as [|c x]; [done|]. cbn [char_in] in Ht. apply orb_false_iff in Ht as [Hc _].
      change ((Ascii.eqb slash c && true) = false). apply Ascii.eqb_neq in Hc.
      rewrite andb_true_r. apply Ascii.eqb_neq. congruence. }
  destruct Hx as [Hs Hp].
  rewrite (path_join_dir (path_join base "ambient") "transcripts"), (path_join_dir base "ambient") by done.
  set (path := (path_join base "ambient" +:+ "/" +:+ "transcripts") +:+ "/" +:+ x +:+ ".json").
  assert (Hne : ∀ a, path_join base "ambient" +:+ "/" +:+ "state.json"
                     ≠ (path_join base "ambient" +:+ "/" +:+ "transcripts") +:+ "/" +:+ a).
  { intros a. rewrite str_app_assoc. intros Eq.
    by apply (str_app_inj_l (path_join base "ambient")), (str_app_inj_l "/") in Eq. }
  assert (Htouch : touches [path; with_extension path ("tmp." +:+ tmp_suffix); with_extension path "bak"]
    (ensure_dir (path_join base "ambient" +:+ "/" +:+ "transcripts") ;!
     write_json tmp_suffix path (transcript_json transcript))).
  { apply io_touches_bind; [apply touches_ensure_dir|]. intros _.
    assert (Hj : path = ((path_join base "ambient" +:+ "/" +:+ "transcripts") +:+ "/" +:+ x) +:+ ".json")
      by (unfold path; by rewrite !str_app_assoc).
    destruct (json_path_apart ((path_join base "ambient" +:+ "/" +:+ "transcripts") +:+ "/" +:+ x) tmp_suffix)
      as (Htp & Hbp & Htb). rewrite <- Hj in *.
    by apply write_bytes_inner_touches. }
  apply Htouch. unfold path, ambient_file. rewrite !with_extension_in by done.
  rewrite !elem_of_cons, elem_of_nil. intros [E|[E|[E|[]]]]; by apply Hne in E.
Qed.

(** The handle after a cycle whose files and counters are settled. *)
Definition settled_at (base : string) (cycles : u64) (r : Runner) : Prop :=
  reliable (rn_world r) ∧ w_gcode_dir (rn_world r) = inl base
  ∧ w_files (rn_world r) !! ambient_file base "state.json" = Some (ambient_state_json (rn_state r))
  ∧ as_total_cycles (rn_state r) = cycles.

Lemma on_world_steady {A} base (m : IO A) r :
  steady m → reliable (rn_world r) → w_gcode_dir (rn_world r) = inl base →
  ∃ x w', on_world m r = (x, set_runner_world w' r) ∧ w' = (m (rn_world r)).2 ∧ reliable w'
    ∧ w_gcode_dir w' = inl base.
Proof.
  intros Hm Hr Hb. destruct (Hm _ Hr) as [Hr' Hg]. unfold on_world.
  destruct (m (rn_world r)) as [x w']. exists x, w'. cbn in *. split_and!; congruence || done.
Qed.

Lemma steady_save_transcript transcript : steady (save_transcript tmp_suffix file_time transcript).
Proof. unfold save_transcript. auto with steady. Qed.

Lemma finish_cycle_settles ended id result sd r base :
  reliable (rn_world r) → w_gcode_dir (rn_world r) = inl base →
  (∀ t, char_in slash (file_time t) = false) → (1 <= sd_backoff_multiplier sd)%Z →
  ∃ sd' r', finish_cycle ended id result sd r = (sd', r') ∧ sd_config sd' = sd_config sd
    ∧ (1 <= sd_backoff_multiplier sd')%Z
    ∧ settled_at base (match result with inl _ => u64_succ (as_total_cycles (rn_state r))
                       | inr _ => as_total_cycles (rn_state r) end) r'
    ∧ as_status (rn_state r') = match result with
                                | inl result => as_status (record_cycle ended result (rn_state r))
                                | inr _ => AmbientIdle
                                end.
Proof.
  intros Hr Hb Ht Hm. destruct result as [result|e]; unfold finish_cycle.
  - destruct (on_world_steady base (m <-! manager_new; record_cycle_result tmp_suffix ended id result m) r)
      as (x & w1 & -> & _ & Hr1 & Hb1); [|done|done|].
    { apply steady_bind; [apply steady_manager_new|]. intros m. apply steady_record_cycle_result. }
    set (r1 := set_state _ (set_runner_world w1 r)).
    destruct (save_state_done base r1 Hr1 Hb1) as (w2 & -> & Hr2 & Hb2 & Hf2 & _).
    destruct (on_world_steady base (save_transcript tmp_suffix file_time
                (cycle_transcript ended result (set_runner_world w2 r1))) (set_runner_world w2 r1))
      as (y & w3 & -> & Hw3 & Hr3 & Hb3); [apply steady_save_transcript|done|done|].
    eexists _, _. split; [done|]. cbn. split_and!; try done. split_and!; try done. cbn.
    rewrite Hw3, (save_transcript_keeps base) by done. done.
  - set (r1 := set_status AmbientIdle r).
    destruct (save_state_done base r1 Hr Hb) as (w2 & -> & Hr2 & Hb2 & Hf2 & _).
    eexists _, _. split; [done|]. cbn. split_and!; try done. lia.
Qed.

(** Releasing the lock. *)
Lemma lock_release_settles base cycles r :
  settled_at base cycles r →
  ∃ x r', on_world (lock_release (ambient_file base "ambient.lock")) r = (x, r')
    ∧ settled_at base cycles r' ∧ rn_state r' = rn_state r
    ∧ w_files (rn_world r') !! ambient_file base "ambient.lock" = None.
Proof.
  intros (Hr & Hb & Hf & Hn). unfold lock_release.
  set (lock := ambient_file base "ambient.lock").
  destruct (on_world_steady base (io_ignore (remove_file lock)) r) as (x & w' & -> & Hw' & Hr' & Hb');
    [auto with steady|done|done|].
  exists x, (set_runner_world w' r). split; [done|]. cbn.
  assert (Hfiles : w_files w' = delete lock (w_files (rn_world r))).
  { rewrite Hw'. unfold io_ignore, remove_file. rewrite io_call_reliable by done.
    destruct (w_files (rn_world r) !! lock) eqn:E; cbn; [done|]. by rewrite delete_id. }
  split_and!; [|done|by rewrite Hfiles, lookup_delete_eq].
  split_and!; try done. cbn. rewrite Hfiles, lookup_delete_ne; [done|].
  unfold lock, ambient_file. intros E.
  by apply (str_app_inj_l (path_join base "ambient")), (str_app_inj_l "/") in E.
Qed.

Lemma schedule_wake_settles ended sd r base cycles :
  settled_at base cycles r → w_files (rn_world r) !! ambient_file base "ambient.lock" = None →
  backoff_config (sd_config sd) → (1 <= sd_backoff_multiplier sd)%Z →
  let secs := Z.max (max_interval sd / NANOS) 30 in
  ∃ r', schedule_wake ended sd r = Some (r', secs) ∧ settled_at base cycles r'
    ∧ w_files (rn_world r') !! ambient_file base "ambient.lock" = None
    ∧ as_status (rn_state r') = match as_status (rn_state r) with
                                | AmbientRunning _ | AmbientIdle => AmbientScheduled (ended + secs * NANOS)
                                | status => status
                                end.
Proof.
  intros Hset Hlock Hc Hm secs. pose proof Hset as (Hr & Hb & Hf & Hn).
  unfold schedule_wake, calculate_interval. cbn [mbind option_bind].
  rewrite apply_backoff_max by done. cbn [mbind option_bind]. fold secs.
  set (r1 := set_status (AmbientScheduled (ended + secs * NANOS)) r).
  destruct (save_state_done base r1 Hr Hb) as (w2 & E2 & Hr2 & Hb2 & Hf2 & Ho2).
  assert (Hsaved : settled_at base cycles (save_state r1)
                   ∧ w_files (rn_world (save_state r1)) !! ambient_file base "ambient.lock" = None).
  { rewrite E2. split; [by split_and!|]. cbn. by rewrite Ho2. }
  destruct Hsaved as [Hs1 Hs2].
  destruct (as_status (rn_state r)) eqn:Est; eexists; split_and!; try done; rewrite ?E2; try done.
Qed.

(** C32. However a cycle ended, when no call fails the turn leaves the lock free,
    the counter of cycles one higher if there is a result, and a stored state
    that is the one in memory and waits: for the time the agent asked for when it
    did, else for the upper bound of the interval and at least half a minute; so
    a program that starts loads that state and runs the next cycle exactly from
    that time on. *)
Theorem turn_settles ended id result sd r base :
  reliable (rn_world r) → w_gcode_dir (rn_world r) = inl base →
  backoff_config (sd_config sd) → (1 <= sd_backoff_multiplier sd)%Z →
  (∀ t, char_in slash (file_time t) = false) →
  let lock := ambient_file base "ambient.lock" in
  let secs := Z.max (max_interval sd / NANOS) 30 in
  let wake := match result with
              | inl result =>
                  match cr_status result, cr_next_schedule result with
                  | CycleComplete, Some req => wake_time ended req
                  | _, _ => (ended + secs * NANOS)%Z
                  end
              | inr _ => (ended + secs * NANOS)%Z
              end in
  ∃ sd' r', end_turn ended id lock result sd r = Some (sd', r', secs)
    ∧ as_status (rn_state r') = AmbientScheduled wake
    ∧ settled_at base (match result with inl _ => u64_succ (as_total_cycles (rn_state r))
                       | inr _ => as_total_cycles (rn_state r) end) r'
    ∧ w_files (rn_world r') !! lock = None
    ∧ (∃ w', ambient_state_load (rn_world r') = (inl (rn_state r'), w'))
    ∧ (∀ t q, should_run true t {| mg_state := rn_state r'; mg_queue := q |} = (wake <=? t)%Z).
Proof.
  intros Hr Hb Hc Hm Ht lock secs wake. subst lock. unfold end_turn.
  destruct (finish_cycle_settles ended id result sd r base Hr Hb Ht Hm)
    as (sd1 & r1 & -> & Hc1 & Hm1 & (Hr1 & Hb1 & Hf1 & Hn1) & Hs1).
  destruct (lock_release_settles base _ r1 (conj Hr1 (conj Hb1 (conj Hf1 Hn1))))
    as (x & r2 & -> & Hset2 & Hst2 & Hl2).
  assert (Hmax : max_interval sd1 = max_interval sd) by (unfold max_interval; by rewrite Hc1).
  rewrite <- Hc1 in Hc.
  destruct (schedule_wake_settles ended sd1 r2 base _ Hset2 Hl2 Hc Hm1) as (r3 & E3 & Hset3 & Hl3 & Hst3).
  rewrite Hmax in *. fold secs in E3, Hst3. exists sd1, r3. rewrite E3. cbn [mbind option_bind fst snd].
  rewrite Hst2, Hs1 in Hst3.
  assert (Hwake : as_status (rn_state r3) = AmbientScheduled wake).
  { rewrite Hst3. unfold wake. destruct result as [result|e]; [|done]. cbn.
    by destruct (cr_status result), (cr_next_schedule result). }
  split_and!; try done.
  - destruct Hset3 as (Hr3 & Hb3 & Hf3 & _). unfold ambient_state_load, state_path.
    destruct (in_ambient_dir_done base "state.json" (rn_world r3) eq_refl Hr3 Hb3) as (w4 & E4 & Hr4 & Hb4 & Hf4).
    exists w4. unfold io_bind. rewrite E4. unfold io_exists, path_exists.
    rewrite Hf4, Hf3, bool_decide_true by done. cbn [orb].
    rewrite (read_json_ok parse_ambient_state _ (ambient_state_json (rn_state r3)) (rn_state r3));
      [done|done|by rewrite Hf4|apply ambient_state_utf8|apply parse_ambient_state_json].
  - intros t q. unfold should_run. cbn [mg_state]. by rewrite Hwake.
Qed.

End loop.
End runner.
