(* ===== verification/AmbientExamples.v ===== *)
(** * Ambient mode on concrete inputs

    The texts of the stored values as trees, the theorems at concrete inputs,
    and what runs of the model show of permissions, of the queue, of the lock,
    of the scheduler and of the background loop. *)

From S2P Require Import Prelude Utf8 Text SwarmPlan F32 OpenAiSchema Messages SessionTypes SessionState SessionOps Storage StorageTheorems SessionStore SessionText SwarmServerTypes SwarmServerExamples Safety Ambient AmbientRunner.
From stdpp Require Import countable.
Open Scope nat_scope.
Open Scope io_scope.

(** ** Texts of the stored values *)

Definition entry_tree (f : Value → gen_tree (string + Z)) (e : string * Value) : gen_tree (string + Z) :=
  GenNode 0 [to_tree e.1; f e.2].

Definition entry_value (f : gen_tree (string + Z) → option Value) (t : gen_tree (string + Z))
    : option (string * Value) :=
  match t with
  | GenNode 0 [k; v] => k ← of_tree k; v ← f v; Some (k, v)
  | _ => None
  end.

Fixpoint value_tree (v : Value) : gen_tree (string + Z) :=
  match v with
  | Null => GenNode 0 []
  | Bool b => GenNode 1 [to_tree b]
  | Number text => GenNode 2 [to_tree text]
  | Str s => GenNode 3 [to_tree s]
  | Array items => GenNode 4 (value_tree <$> items)
  | Object entries => GenNode 5 (entry_tree value_tree <$> entries)
  end.

Fixpoint tree_value (t : gen_tree (string + Z)) : option Value :=
  match t with
  | GenNode 0 [] => Some Null
  | GenNode 1 [b] => Bool <$> of_tree b
  | GenNode 2 [text] => Number <$> of_tree text
  | GenNode 3 [s] => Str <$> of_tree s
  | GenNode 4 items => Array <$> mapM tree_value items
  | GenNode 5 entries =>
      Object <$> mapM (entry_value tree_value) entries
  | _ => None
  end.

#[export, refine] Instance Value_tree : Tree Value := { to_tree := value_tree; of_tree := tree_value }.
Proof.
  induction x as [|b| | |items IH|entries IH] using Value_ind; cbn; try done.
  - by destruct b.
  - assert (mapM tree_value (value_tree <$> items) = Some items) as ->; [|done].
    induction IH as [|x items Hx _ IH]; [done|]. cbn. rewrite Hx. cbn. by rewrite IH.
  - change (Object <$> mapM (entry_value tree_value) (entry_tree value_tree <$> entries) = Some (Object entries)).
    assert (mapM (entry_value tree_value) (entry_tree value_tree <$> entries) = Some entries) as ->; [|done].
    apply mapM_Some. induction IH as [|[k x] entries Hx _ IH]; [constructor|].
    rewrite fmap_cons. constructor; [|done]. cbn in *. by rewrite Hx.
Defined.

#[export, refine] Instance Urgency_tree : Tree Urgency := {
  to_tree v := match v with
    | UrgencyLow => GenNode 0 []
    | UrgencyNormal => GenNode 1 []
    | UrgencyHigh => GenNode 2 []
    end;
  of_tree t := match t with
    | GenNode 0 [] => Some UrgencyLow
    | GenNode 1 [] => Some UrgencyNormal
    | GenNode 2 [] => Some UrgencyHigh
    | _ => None
    end;
}.
Proof. intros []; by rewrite ?tree_inv. Defined.

#[export, refine] Instance PermissionRequest_tree : Tree PermissionRequest := {
  to_tree r := GenNode 0 [to_tree (pq_id r); to_tree (pq_action r); to_tree (pq_description r);
    to_tree (pq_rationale r); to_tree (pq_urgency r); to_tree (pq_wait r); to_tree
    (pq_created_at r); to_tree (pq_context r)];
  of_tree t := match t with GenNode 0 [x0; x1; x2; x3; x4; x5; x6; x7] =>
    x0 ← of_tree x0; x1 ← of_tree x1; x2 ← of_tree x2; x3 ← of_tree x3; x4 ← of_tree x4; x5 ←
      of_tree x5; x6 ← of_tree x6; x7 ← of_tree x7;
    Some (Build_PermissionRequest x0 x1 x2 x3 x4 x5 x6 x7)
    | _ => None end;
}.
Proof. intros r. rewrite !tree_inv. by destruct r. Defined.

#[export, refine] Instance PermissionDecision_tree : Tree PermissionDecision := {
  to_tree r := GenNode 0 [to_tree (dc_request_id r); to_tree (dc_approved r); to_tree
    (dc_decided_at r); to_tree (dc_decided_via r); to_tree (dc_message r)];
  of_tree t := match t with GenNode 0 [x0; x1; x2; x3; x4] =>
    x0 ← of_tree x0; x1 ← of_tree x1; x2 ← of_tree x2; x3 ← of_tree x3; x4 ← of_tree x4;
    Some (Build_PermissionDecision x0 x1 x2 x3 x4)
    | _ => None end;
}.
Proof. intros r. rewrite !tree_inv. by destruct r. Defined.

#[export, refine] Instance AmbientStatus_tree : Tree AmbientStatus := {
  to_tree v := match v with
    | AmbientIdle => GenNode 0 []
    | AmbientRunning x0 => GenNode 1 [to_tree x0]
    | AmbientScheduled x0 => GenNode 2 [to_tree x0]
    | AmbientPaused x0 => GenNode 3 [to_tree x0]
    | AmbientDisabled => GenNode 4 []
    end;
  of_tree t := match t with
    | GenNode 0 [] => Some AmbientIdle
    | GenNode 1 [x0] => x0 ← of_tree x0; Some (AmbientRunning x0)
    | GenNode 2 [x0] => x0 ← of_tree x0; Some (AmbientScheduled x0)
    | GenNode 3 [x0] => x0 ← of_tree x0; Some (AmbientPaused x0)
    | GenNode 4 [] => Some AmbientDisabled
    | _ => None
    end;
}.
Proof. intros []; by rewrite ?tree_inv. Defined.

#[export, refine] Instance Priority_tree : Tree Priority := {
  to_tree v := match v with
    | PriorityLow => GenNode 0 []
    | PriorityNormal => GenNode 1 []
    | PriorityHigh => GenNode 2 []
    end;
  of_tree t := match t with
    | GenNode 0 [] => Some PriorityLow
    | GenNode 1 [] => Some PriorityNormal
    | GenNode 2 [] => Some PriorityHigh
    | _ => None
    end;
}.
Proof. intros []; by rewrite ?tree_inv. Defined.

#[export, refine] Instance ScheduleTarget_tree : Tree ScheduleTarget := {
  to_tree v := match v with
    | TargetAmbient => GenNode 0 []
    | TargetSession x0 => GenNode 1 [to_tree x0]
    | TargetSpawn x0 => GenNode 2 [to_tree x0]
    end;
  of_tree t := match t with
    | GenNode 0 [] => Some TargetAmbient
    | GenNode 1 [x0] => x0 ← of_tree x0; Some (TargetSession x0)
    | GenNode 2 [x0] => x0 ← of_tree x0; Some (TargetSpawn x0)
    | _ => None
    end;
}.
Proof. intros []; by rewrite ?tree_inv. Defined.

#[export, refine] Instance ScheduledItem_tree : Tree ScheduledItem := {
  to_tree r := GenNode 0 [to_tree (sc_id r); to_tree (sc_scheduled_for r); to_tree (sc_context
    r); to_tree (sc_priority r); to_tree (sc_target r); to_tree (sc_created_by_session r);
    to_tree (sc_created_at r); to_tree (sc_working_dir r); to_tree (sc_task_description r);
    to_tree (sc_relevant_files r); to_tree (sc_git_branch r); to_tree (sc_additional_context
    r)];
  of_tree t := match t with GenNode 0 [x0; x1; x2; x3; x4; x5; x6; x7; x8; x9; x10; x11] =>
    x0 ← of_tree x0; x1 ← of_tree x1; x2 ← of_tree x2; x3 ← of_tree x3; x4 ← of_tree x4; x5 ←
      of_tree x5; x6 ← of_tree x6; x7 ← of_tree x7; x8 ← of_tree x8; x9 ← of_tree x9; x10 ←
      of_tree x10; x11 ← of_tree x11;
    Some (Build_ScheduledItem x0 x1 x2 x3 x4 x5 x6 x7 x8 x9 x10 x11)
    | _ => None end;
}.
Proof. intros r. rewrite !tree_inv. by destruct r. Defined.

#[export, refine] Instance AmbientState_tree : Tree AmbientState := {
  to_tree r := GenNode 0 [to_tree (as_status r); to_tree (as_last_run r); to_tree
    (as_last_summary r); to_tree (as_last_compactions r); to_tree (as_last_memories_modified r);
    to_tree (as_total_cycles r)];
  of_tree t := match t with GenNode 0 [x0; x1; x2; x3; x4; x5] =>
    x0 ← of_tree x0; x1 ← of_tree x1; x2 ← of_tree x2; x3 ← of_tree x3; x4 ← of_tree x4; x5 ←
      of_tree x5;
    Some (Build_AmbientState x0 x1 x2 x3 x4 x5)
    | _ => None end;
}.
Proof. intros r. rewrite !tree_inv. by destruct r. Defined.

#[export, refine] Instance CycleStatus_tree : Tree CycleStatus := {
  to_tree v := match v with
    | CycleComplete => GenNode 0 []
    | CycleInterrupted => GenNode 1 []
    | CycleIncomplete => GenNode 2 []
    end;
  of_tree t := match t with
    | GenNode 0 [] => Some CycleComplete
    | GenNode 1 [] => Some CycleInterrupted
    | GenNode 2 [] => Some CycleIncomplete
    | _ => None
    end;
}.
Proof. intros []; by rewrite ?tree_inv. Defined.

#[export, refine] Instance ScheduleRequest_tree : Tree ScheduleRequest := {
  to_tree r := GenNode 0 [to_tree (sr_wake_in_minutes r); to_tree (sr_wake_at r); to_tree
    (sr_context r); to_tree (sr_priority r); to_tree (sr_target r); to_tree
    (sr_created_by_session r); to_tree (sr_working_dir r); to_tree (sr_task_description r);
    to_tree (sr_relevant_files r); to_tree (sr_git_branch r); to_tree (sr_additional_context
    r)];
  of_tree t := match t with GenNode 0 [x0; x1; x2; x3; x4; x5; x6; x7; x8; x9; x10] =>
    x0 ← of_tree x0; x1 ← of_tree x1; x2 ← of_tree x2; x3 ← of_tree x3; x4 ← of_tree x4; x5 ←
      of_tree x5; x6 ← of_tree x6; x7 ← of_tree x7; x8 ← of_tree x8; x9 ← of_tree x9; x10 ←
      of_tree x10;
    Some (Build_ScheduleRequest x0 x1 x2 x3 x4 x5 x6 x7 x8 x9 x10)
    | _ => None end;
}.
Proof. intros r. rewrite !tree_inv. by destruct r. Defined.

#[export, refine] Instance AmbientCycleResult_tree : Tree AmbientCycleResult := {
  to_tree r := GenNode 0 [to_tree (cr_summary r); to_tree (cr_memories_modified r); to_tree
    (cr_compactions r); to_tree (cr_proactive_work r); to_tree (cr_next_schedule r); to_tree
    (cr_started_at r); to_tree (cr_ended_at r); to_tree (cr_status r); to_tree (cr_conversation
    r)];
  of_tree t := match t with GenNode 0 [x0; x1; x2; x3; x4; x5; x6; x7; x8] =>
    x0 ← of_tree x0; x1 ← of_tree x1; x2 ← of_tree x2; x3 ← of_tree x3; x4 ← of_tree x4; x5 ←
      of_tree x5; x6 ← of_tree x6; x7 ← of_tree x7; x8 ← of_tree x8;
    Some (Build_AmbientCycleResult x0 x1 x2 x3 x4 x5 x6 x7 x8)
    | _ => None end;
}.
Proof. intros r. rewrite !tree_inv. by destruct r. Defined.

#[export, refine] Instance VisibleCycleContext_tree : Tree VisibleCycleContext := {
  to_tree r := GenNode 0 [to_tree (vc_system_prompt r); to_tree (vc_initial_message r)];
  of_tree t := match t with GenNode 0 [x0; x1] =>
    x0 ← of_tree x0; x1 ← of_tree x1;
    Some (Build_VisibleCycleContext x0 x1)
    | _ => None end;
}.
Proof. intros r. rewrite !tree_inv. by destruct r. Defined.

#[export, refine] Instance UserDirective_tree : Tree UserDirective := {
  to_tree r := GenNode 0 [to_tree (ud_id r); to_tree (ud_text r); to_tree (ud_received_at r);
    to_tree (ud_in_reply_to_cycle r); to_tree (ud_consumed r)];
  of_tree t := match t with GenNode 0 [x0; x1; x2; x3; x4] =>
    x0 ← of_tree x0; x1 ← of_tree x1; x2 ← of_tree x2; x3 ← of_tree x3; x4 ← of_tree x4;
    Some (Build_UserDirective x0 x1 x2 x3 x4)
    | _ => None end;
}.
Proof. intros r. rewrite !tree_inv. by destruct r. Defined.

#[export, refine] Instance UsageSource_tree : Tree UsageSource := {
  to_tree v := match v with
    | UsageUser => GenNode 0 []
    | UsageAmbient => GenNode 1 []
    end;
  of_tree t := match t with
    | GenNode 0 [] => Some UsageUser
    | GenNode 1 [] => Some UsageAmbient
    | _ => None
    end;
}.
Proof. intros []; by rewrite ?tree_inv. Defined.

#[export, refine] Instance UsageRecord_tree : Tree UsageRecord := {
  to_tree r := GenNode 0 [to_tree (ur_timestamp r); to_tree (ur_source r); to_tree
    (ur_tokens_input r); to_tree (ur_tokens_output r); to_tree (ur_provider r)];
  of_tree t := match t with GenNode 0 [x0; x1; x2; x3; x4] =>
    x0 ← of_tree x0; x1 ← of_tree x1; x2 ← of_tree x2; x3 ← of_tree x3; x4 ← of_tree x4;
    Some (Build_UsageRecord x0 x1 x2 x3 x4)
    | _ => None end;
}.
Proof. intros r. rewrite !tree_inv. by destruct r. Defined.

#[export] Instance safety_text : SafetyCodec := {
  permissions_json := value_text;
  parse_permissions := text_value;
  decisions_json := value_text;
  parse_decisions := text_value;
  transcript_json t := default "" (at_summary t);
}.

#[export] Instance safety_text_laws : SafetyCodecLaws.
Proof. split; intros x; (apply tree_text_utf8 || apply text_value_inv). Qed.

#[export] Instance ambient_text : AmbientCodec := {
  ambient_state_json := value_text;
  parse_ambient_state := text_value;
  queue_json := value_text;
  parse_queue := text_value;
  directives_json := value_text;
  parse_directives := text_value;
  visible_context_json := value_text;
  parse_visible_context := text_value;
  cycle_result_json := value_text;
  parse_cycle_result := text_value;
  usage_json := value_text;
  parse_usage := text_value;
}.

#[export] Instance ambient_text_laws : AmbientCodecLaws.
Proof. split; intros x; (apply tree_text_utf8 || apply text_value_inv). Qed.

(** ** Examples *)

Definition day : datetime := (1000000 * NANOS)%Z.

Definition home_world (files : gmap string string) : World :=
  {| w_files := files; w_dirs := ∅; w_faults := []; w_gcode_dir := inl "/g" |}.

Definition queue_file_path : string := "/g/ambient/queue.json".

Definition item_for (id : string) (at_ : datetime) (priority : Priority) (target : ScheduleTarget)
    : ScheduledItem := {|
  sc_id := id; sc_scheduled_for := at_; sc_context := "do " +:+ id; sc_priority := priority;
  sc_target := target; sc_created_by_session := "s"; sc_created_at := day; sc_working_dir := None;
  sc_task_description := None; sc_relevant_files := []; sc_git_branch := None;
  sc_additional_context := None;
|}.

Definition example_items : list ScheduledItem :=
  [item_for "a" (day + 5) PriorityLow (TargetSession "s"); item_for "b" (day + 1) PriorityHigh TargetAmbient;
   item_for "c" (day + 9) PriorityHigh (TargetSpawn "s"); item_for "d" (day + 20) PriorityHigh (TargetSession "s")].

Definition queue_of (items : list ScheduledItem) : ScheduledQueue :=
  {| q_items := items; q_path := queue_file_path |}.

Definition world_with_queue (items : list ScheduledItem) : World :=
  home_world {[queue_file_path := queue_json items]}.

Definition stored_queue (w : World) : option (list ScheduledItem) :=
  w_files w !! queue_file_path ≫= parse_queue.

(** *** Witnesses *)

Definition example_request : PermissionRequest := {|
  pq_id := "req_1"; pq_action := "push"; pq_description := "push the branch"; pq_rationale := "done";
  pq_urgency := UrgencyNormal; pq_wait := true; pq_created_at := day;
  pq_context := Some (Object [("session_id", Str "session_1")]);
|}.

Definition no_safety : SafetySystem := {| sa_queue := []; sa_history := []; sa_actions := [] |}.
Definition one_request : SafetySystem := set_permissions [example_request] no_safety.

Lemma decisions_survive_restart_witness :
  ∃ s' w', record_decision "7" day "req_1" true "mail" None one_request (home_world ∅) = (inl s', w')
    ∧ "req_1" ∉ pq_id <$> sa_queue s'
    ∧ safety_new w' = (inl {| sa_queue := sa_queue s'; sa_history := sa_history s'; sa_actions := [] |}, w').
Proof. apply (decisions_survive_restart "7" day "req_1" true "mail" None one_request (home_world ∅) "/g"); reflexivity. Defined.

Lemma due_items_taken_witness :
  ∃ taken q' w', take_ready_direct_items "7" (day + 10) (queue_of example_items)
                   (world_with_queue example_items) = (inl (taken, q'), w')
    ∧ sc_id <$> taken = ["c"; "a"] ∧ sc_id <$> q_items q' = ["b"; "d"].
Proof.
  destruct (due_items_taken "7" (day + 10) (queue_of example_items) (world_with_queue example_items))
    as (taken & q' & w' & E & _); [by exists "/g/ambient/queue"|vm_compute; reflexivity|].
  exists taken, q', w'. split; [exact E|].
  assert (Hv : (λ r, match r with inl p => Some (sc_id <$> p.1, sc_id <$> q_items p.2) | inr _ => None end)
    (take_ready_direct_items "7" (day + 10) (queue_of example_items) (world_with_queue example_items)).1
    = Some (["c"; "a"], ["b"; "d"])) by (vm_compute; reflexivity).
  rewrite E in Hv. by injection Hv.
Defined.

Definition example_scheduler : AdaptiveScheduler := {|
  sd_usage_log := {| ul_records := []; ul_path := ""; ul_unsaved_count := 0 |};
  sd_config := scheduler_config_default; sd_backoff_multiplier := 1; sd_user_active := false;
|}.

Definition example_limits : RateLimitInfo := {|
  rl_limit_tokens := None; rl_remaining_tokens := Some 400000%Z; rl_limit_requests := None;
  rl_remaining_requests := None; rl_reset_at := Some (day + 3600 * NANOS)%Z;
|}.

Lemma interval_bounded_witness :
  calculate_interval day example_scheduler (Some example_limits) = Some 450000026822%Z
  ∧ calculate_interval day (foldl scheduler_event example_scheduler [RateLimitHit; RateLimitHit])
      (Some example_limits) = Some (4 * 450000026822)%Z.
Proof.
  assert (E : calculate_interval day example_scheduler (Some example_limits) = Some 450000026822%Z)
    by (vm_compute; reflexivity).
  split; [exact E|].
  destruct (interval_bounded day example_scheduler (Some example_limits) [RateLimitHit; RateLimitHit])
    as [Hi _]; [vm_compute; intuition congruence|reflexivity|].
  rewrite E in Hi. destruct Hi as [_ ->]. vm_compute. reflexivity.
Defined.

(** *** The loop on an example *)

Definition no_health : MemoryGraphHealth := {|
  mh_total := 0; mh_active := 0; mh_inactive := 0; mh_low_confidence := 0; mh_contradictions := 0;
  mh_missing_embeddings := 0; mh_duplicate_candidates := 0; mh_last_consolidation := None;
|}.

Definition nothing_alive : u32 → bool := λ _, false.

Definition example_end_turn (ended : datetime) (result : AmbientCycleResult + string) (r : Runner)
    : option (AdaptiveScheduler * Runner * Z) :=
  end_turn "7" "p" "m" (λ _, "T") (λ _, "T") ended "sched_1" "/g/ambient/ambient.lock" result
    example_scheduler r.

(** A turn: how a message to a live session goes, what the agent does, and
    whether cycles are visible when the terminal cannot be opened. *)
Definition example_step (notify : IO unit) (agent : Runner → Runner) (visible : bool)
    (now ended : datetime) (r : Runner) : option (Runner * Z) :=
  (λ res, (res.1.2, res.2)) <$>
  run_step "7" (λ _ _, notify) (λ _ _, io_ret ()) nothing_alive 42
    {| pe_working_dir := None; pe_pid := 42; pe_test_session := false |} (λ _, ("session_x", "x"))
    (λ _ _, agent) (λ _, "talk") (λ _, None) (λ _, no_health) (λ _, []) "p" "m" (λ _, "T") (λ _, "T")
    (λ _, "T") true visible now ended "sched_1" example_scheduler r.

Definition example_runner (w : World) : Runner := runner_new no_safety w.

Definition ends_with (ns : option (option u32 * option string * option string)) (now : datetime)
    (r : Runner) : Runner :=
  (end_ambient_cycle "7" now "ambient_1" {| ei_summary := "done"; ei_memories_modified := 1;
     ei_compactions := 0; ei_proactive_work := None; ei_next_schedule := ns |} r).2.

(** What is seen of a turn: the status in memory, the counter, the sleep, the
    stored queue and the deliveries. *)
Definition seen (o : option (Runner * Z))
    : option (AmbientStatus * u64 * Z * option (list string) * list (string * bool)) :=
  (λ p : Runner * Z,
     (as_status (rn_state p.1), as_total_cycles (rn_state p.1), p.2,
      fmap (M := list) sc_id <$> stored_queue (rn_world p.1), prod_map sc_id id <$> rn_delivered p.1)) <$> o.

Definition stored_state (r : Runner) : option AmbientState :=
  w_files (rn_world r) !! "/g/ambient/state.json" ≫= parse_ambient_state.

Lemma turn_settles_witness :
  ∃ sd' r', example_end_turn day (inr "no provider") (example_runner (home_world ∅)) = Some (sd', r', 7200%Z)
    ∧ as_status (rn_state r') = AmbientScheduled (day + 7200 * NANOS).
Proof.
  destruct (turn_settles "7" "p" "m" (λ _, "T") (λ _, "T") day "sched_1" (inr "no provider")
              example_scheduler (example_runner (home_world ∅)) "/g")
    as (sd' & r' & E & Hs & _);
    [reflexivity|reflexivity|vm_compute; intuition congruence|vm_compute; congruence|reflexivity|].
  exists sd', r'. split; [exact E|exact Hs].
Defined.

(** A cycle that the agent ends. *)
Example cycle_runs :
  seen (example_step (io_ret ()) (ends_with None day) false day (day + 60 * NANOS) (example_runner (home_world ∅)))
  = Some (AmbientScheduled (day + (60 + 7200) * NANOS)%Z, 1%Z, 7200%Z, None, []).
Proof. vm_compute. reflexivity. Qed.

(** Due items for sessions are delivered, each once. *)
Example reminders_are_delivered :
  seen (example_step (io_ret ()) id false (day + 10) (day + 60 * NANOS)
          (example_runner (world_with_queue example_items)))
  = Some (AmbientScheduled (day + (60 + 7200) * NANOS)%Z, 1%Z, 7200%Z, Some ["b"; "d"],
          [("c", true); ("a", true)]).
Proof. vm_compute. reflexivity. Qed.

(** *** What the runs show *)

(** An item that could not be delivered is not in the queue any more. *)
Example failed_delivery_is_lost :
  seen (example_step (io_fail "no server") id false (day + 10) day
          (example_runner (world_with_queue [item_for "a" (day + 5) PriorityLow (TargetSession "s")])))
  = Some (AmbientScheduled (day + 7200 * NANOS)%Z, 1%Z, 7200%Z, Some [], [("a", false)]).
Proof. vm_compute. reflexivity. Qed.

(** The items for the ambient agent stay in the queue for ever: each cycle that
    schedules the next one adds another, and the agent is shown all of them. *)
Example ambient_items_stay :
  (λ o, (λ p : Runner * Z, fmap (M := list) sc_context <$> stored_queue (rn_world p.1)) <$> o)
    (p ← example_step (io_ret ()) (ends_with (Some (Some 1%Z, Some "first", None)) day) false day day
           (example_runner (home_world ∅));
     let later := (day + 7200 * NANOS)%Z in
     example_step (io_ret ()) (ends_with (Some (Some 1%Z, Some "second", None)) later) false later later p.1)
  = Some (Some ["first"; "second"]).
Proof. vm_compute. reflexivity. Qed.

(** The agent asked to wake in one minute; the loop sleeps for two hours. *)
Example requested_wake_is_missed :
  seen (example_step (io_ret ()) (ends_with (Some (Some 1%Z, None, None)) day) false day day
          (example_runner (home_world ∅)))
  = Some (AmbientScheduled (day + 60 * NANOS)%Z, 1%Z, 7200%Z, Some ["sched_1"], []).
Proof. vm_compute. reflexivity. Qed.

Definition scheduled_state (wake : datetime) : AmbientState :=
  with_status (AmbientScheduled wake) ambient_state_default.

Definition world_with_state (st : AmbientState) : World :=
  home_world {["/g/ambient/state.json" := ambient_state_json st]}.

(** Triggering a cycle only changes the status in memory, while the loop decides
    by the stored one: nothing runs. *)
Example trigger_does_nothing :
  seen (example_step (io_ret ()) id false day day
          (trigger (example_runner (world_with_state (scheduled_state (day + 3600 * NANOS))))))
  = Some (AmbientIdle, 0%Z, 7200%Z, None, []).
Proof. vm_compute. reflexivity. Qed.

(** A program that died during a cycle left a running state, and the next one
    runs no cycle, at whatever time. *)
Example no_cycle_after_a_crash :
  seen (example_step (io_ret ()) id false (day * 1000) (day * 1000)
          (example_runner (world_with_state (with_status (AmbientRunning "running agent") ambient_state_default))))
  = Some (AmbientRunning "running agent", 0%Z, 7200%Z, None, []).
Proof. vm_compute. reflexivity. Qed.

(** Ambient mode that was stopped does not start again: the loop still runs,
    and only looks at the reminders. *)
Example start_after_stop :
  let r := (start "7" (stop "7" (enter_loop (example_runner (home_world ∅))))) in
  r.1 = false ∧ as_status (rn_state r.2) = AmbientDisabled
  ∧ (λ p : Runner * Z, p.2) <$> example_step (io_ret ()) id false day day r.2 = Some 30%Z.
Proof. vm_compute. repeat split. Qed.

(** Stopping it while a cycle runs is undone by the end of the cycle. *)
Example stop_during_a_cycle_is_lost :
  seen (example_step (io_ret ()) (stop "7") false day day (example_runner (home_world ∅)))
  = Some (AmbientScheduled (day + 7200 * NANOS)%Z, 1%Z, 7200%Z, None, []).
Proof. vm_compute. reflexivity. Qed.

(** A visible cycle whose terminal cannot be opened fails instead of running
    without it, and the directives of the user are used up. *)
Example visible_cycle_does_not_fall_back :
  let r := example_runner (add_directive "7" day "dir_1" "rename it" "mail" (home_world ∅)).2 in
  let after := example_step (io_ret ()) (ends_with None day) true day day r in
  (has_pending_directives (rn_world r)).1 = inl true
  ∧ seen after = Some (AmbientScheduled (day + 7200 * NANOS)%Z, 0%Z, 7200%Z, None, [])
  ∧ (λ p : Runner * Z, (has_pending_directives (rn_world p.1)).1) <$> after = Some (inl false).
Proof. vm_compute. repeat split. Qed.

(** A reminder scheduled while the loop sleeps does not wake it; a task for the
    ambient agent does. *)
Example reminder_does_not_nudge :
  let r := example_runner (home_world ∅) in
  let params := {| ti_task := "call"; ti_wake_in_minutes := Some 1%Z; ti_wake_at := None;
                   ti_priority := None; ti_relevant_files := []; ti_background_context := None;
                   ti_success_criteria := None; ti_target := None |} in
  rn_nudged (schedule_tool "7" day "sched_1" params (λ _, inr "") "s" None None r).2 = false
  ∧ rn_nudged (schedule_ambient "7" day "sched_1" (λ _, inr "") (Some 1%Z) None "call" None "s" r).2 = true.
Proof. vm_compute. repeat split. Qed.

(** A lower bound above the upper one ends the loop with a panic. *)
Example wrong_bounds_panic :
  calculate_interval day
    {| sd_usage_log := sd_usage_log example_scheduler;
       sd_config := {| cf_min_interval_minutes := 150; cf_max_interval_minutes := 120;
                       cf_pause_on_active_session := true; cf_user_budget_reserve := f32_0_8 |};
       sd_backoff_multiplier := 1; sd_user_active := false |} None = None.
Proof. vm_compute. reflexivity. Qed.

(** Two processes that look for the lock before either has written it both get
    it, and the first to finish removes the lock of the other. *)
Example lock_race :
  let path := "/g/ambient/ambient.lock" in
  let run := (first <-! lock_check nothing_alive path;
              second <-! lock_check nothing_alive path;
              lock_write 1 path ;!
              lock_write 2 path ;!
              lock_release path ;!
              io_ret (first, second)) (home_world ∅) in
  run.1 = inl (true, true) ∧ w_files run.2 !! path = None.
Proof. vm_compute. repeat split. Qed.

(** A queue whose last write was cut between its two renames is in its backup;
    loading finds it empty, and the next item replaces it. *)
Example backup_of_the_queue_is_not_read :
  let w := home_world {["/g/ambient/queue.bak" := queue_json example_items]} in
  let loaded := queue_load queue_file_path w in
  (λ r : ScheduledQueue + string, match r with inl q => Some (length (q_items q)) | inr _ => None end) loaded.1 = Some 0
  ∧ fmap (M := list) sc_id <$>
      stored_queue ((q <-! queue_load queue_file_path;
                     queue_push "7" (item_for "e" day PriorityLow TargetAmbient) q) w).2 = Some ["e"].
Proof. vm_compute. repeat split. Qed.

(** *** Permissions *)

Definition pending_file (w : World) : option (list string) :=
  fmap (M := list) pq_id <$> (w_files w !! "/g/safety/queue.json" ≫= parse_permissions).

Definition decided_file (w : World) : option (list string) :=
  fmap (M := list) dc_request_id <$> (w_files w !! "/g/safety/history.json" ≫= parse_decisions).

(** A request of the live system that is decided through the files, as the
    review interface and the mail poller do: the next turn of the loop stores it
    as pending again, and the next decision of the live system removes the
    decision from the history. *)
Example file_decision_is_undone :
  let request := {| pq_id := "req_1"; pq_action := "push"; pq_description := ""; pq_rationale := "";
                    pq_urgency := UrgencyLow; pq_wait := false; pq_created_at := day; pq_context := None |} in
  let system := set_permissions [request] no_safety in
  let w0 := (persist_queue "7" [request] (home_world ∅)).2 in
  let w1 := (record_permission_via_file "7" day "req_1" true "mail" None w0).2 in
  let w2 := (expire_dead_session_requests "7" nothing_alive day "ambient_runner_gc" system w1).2 in
  let w3 := (record_decision "7" day "req_2" false "debug_socket" None system w2).2 in
  pending_file w1 = Some [] ∧ decided_file w1 = Some ["req_1"]
  ∧ pending_file w2 = Some ["req_1"]
  ∧ pending_file w3 = Some ["req_1"] ∧ decided_file w3 = Some ["req_2"].
Proof. vm_compute. repeat split. Qed.
